(* ===== verification/_CoqProject ===== *)
-Q . S2P
Prelude.v
JsString.v
JsMap.v
JsValue.v
Json.v
JsonIndent.v
JsDate.v
JsRegex.v
JsRegexExec.v
NodePath.v
ToolPolicy.v
ToolCallId.v
TranscriptRepair.v
SessionStore.v
SessionSlug.v
ProcessRegistry.v
ProcessTool.v
Pairing.v
Checkout.v
SelfProtection.v
PlainCommands.v
ValueText.v
Vault.v
SetupFlow.v
ExecTool.v
EditableRegions.v
FsTools.v
MemoryStore.v
MemorySearch.v
MemoryTools.v
MemoryDocs.v
ToolResultContract.v
Config.v
ChatService.v
TelegramRelay.v
Telegram.v
Gateway.v
HtmlFormat.v
TerminalFormat.v
MailText.v
MailWire.v
EmailTool.v
MailFacts.v
UsageSummary.v
ProviderRoute.v
Ecommerce.v
WebSearch.v
WebTools.v
ProviderCatalog.v
BootstrapContext.v
DashboardInput.v
Dashboard.v
DashboardFacts.v
DashboardSetup.v
DashboardSocket.v
DashboardStart.v
BrowserPage.v
BrowserTabs.v
BrowserTool.v
BrowserFacts.v
ProviderText.v
ProviderProgress.v
ToolSchema.v
Skills.v
SystemPrompt.v
ToolAdapter.v
ProviderState.v
ProviderSites.v
ProviderRun.v
ProviderRunFacts.v
ProviderLedger.v
ProviderTurn.v
