(* ===== verification/Prelude.v ===== *)
(** * t560: a verification library for the agent's core

    t560 is a local agent: a language model is given tools (shell commands, file
    access, process control, memory, a browser), a transcript that is stored per
    session, channels through which users talk to it and a vault for their
    logins.  The program has no types at run time: what it reads (tool arguments,
    JSON files, transcripts, the answers of models) is untrusted, and its own
    code decides which tools exist, which commands run, which files are touched,
    what is claimed and who may talk to it.  This library models that code,
    function by function, and proves what it guarantees and where it does not.

    ** The parts and their files

    The language and its library:
    - [JsString], [JsMap], [JsValue], [JsDate]: strings, insertion-ordered maps
      with their abstraction to finite maps, dynamically typed values with
      JavaScript's coercions, dates;
    - [Json], [JsonIndent]: [JSON.parse] and [JSON.stringify], with their round
      trips; [ValueText]: a text encoding of values, used by witnesses;
    - [JsRegex], [JsRegexExec]: a matcher proved equivalent to a reference
      semantics, and the execution of patterns with captures, replacement and
      iteration;
    - [NodePath]: Node's [path] module on POSIX, with the theory of resolved
      paths and of containment.

    The transcript (src/src/agents, src/src/provider):
    - [ToolCallId] models tool-call-id.ts: rewriting the ids of a transcript is
      one injective renaming applied everywhere, new ids are well formed and
      fresh;
    - [TranscriptRepair] models session-transcript-repair.ts: calls and results
      are paired again;
    - [SessionStore] models provider/session.ts over an explicit map of files:
      what is on disk after a save is bounded and well paired, and sessions with
      different reduced names do not interfere.

    The tools the model is given (src/src/agents):
    - [ToolPolicy] models tool-policy.ts, tool-policy-pipeline.ts,
      pi-tools.policy.ts and pi-tools.ts: the check decides a deny-then-allow
      specification, the pipeline is the conjunction of its steps, and the tool
      list handed over is safe for the policies and for non-owners;
    - [SelfProtection] models self-protection.ts: splitting and tokenising of
      shell commands, and the check that keeps the installation and the machine
      alive; [PlainCommands] writes down a grammar of plain command lines and what
      is destructive in them, independently of the check, and proves that the
      check refuses it;
    - [ExecTool] models bash-tools.exec.ts: nothing reaches the shell unchecked;
    - [EditableRegions] and [FsTools] model tools/fs-tools.ts over a directory
      tree: no sensitive path is touched, and text outside editable regions
      survives writes and single edits;
    - [SessionSlug], [ProcessRegistry] and [ProcessTool] model session-slug.ts,
      bash-process-registry.ts and bash-tools.process.ts: sessions are objects in
      a heap, referenced from the maps, as the program shares them;
    - [Checkout] models checkout-workflow.ts: purchases need a confirmation;
    - [MemoryStore], [MemorySearch], [MemoryTools] and [MemoryDocs] model
      tools/memory-tools.ts: the log of JSON lines and its replay, scopes, quotas
      and eviction, the similarity of texts, and the tools over store and files;
    - [MailText], [MailWire], [EmailTool] and [MailFacts] model
      tools/email-tool.ts: the texts of mail, IMAP and SMTP connections over any
      sequence of network events, and the handler over the vault's interface;
    - [WebSearch] and [WebTools] model web/brave_search.js,
      web/duckduckgo_search.js, web/fetch.js and tools/web-tools.ts;
    - [BrowserPage], [BrowserTabs], [BrowserTool] and [BrowserFacts] model
      tools/browser-tool.ts in an installation without Playwright, where the tool
      fetches and reads pages itself, with the invariant of its tabs and requests;
    - [ToolResultContract], [ToolSchema] and [ToolAdapter] model
      tool-result-contract.ts, pi-tools.schema.ts and
      pi-tool-definition-adapter.ts: the shapes of results and of parameters, and
      a tool call from its arguments to the text the model reads.

    A turn (src/src/provider/run.ts and what it uses):
    - [ProviderRoute]: providers, endpoints, credentials, limits from the
      environment, model discovery and the remapping of model names;
    - [ProviderText]: the tests on messages, one-time codes and the sessions that
      wait for one, identity answers, automatic memories;
    - [ProviderProgress]: what is told about calls and outcomes;
    - [Ecommerce], [Skills], [BootstrapContext], [SystemPrompt]:
      agents/ecommerce.ts, agents/skills.ts, agents/bootstrap-context.ts,
      agents/system-prompt.ts, the last with its whole text;
    - [ProviderSites]: the saved login a message or a page belongs to, proved
      against the interface [VaultService];
    - [ProviderState]: the variables of a turn as a record, the actions it
      performs (requests, tool calls with what the checkout guard saw, their
      outcomes, refusals, progress lines) as a trace, and the step monad over them;
    - [ProviderRun]: automatic login, the tool rounds with their guards and
      recovery instructions, the final request and the answer;
    - [ProviderRunFacts]: one invariant relation ([advances]) that every step
      preserves, and the properties of a run that follow from it;
    - [ProviderLedger]: a second one, which ties the run's own variables (the open
      page, the outcomes, the flags for changes and checks) to the calls and the
      outcomes of the trace, and what follows for purchases and for claims;
    - [ProviderTurn]: chatWithProvider, from the route to the answer;
    - [UsageSummary]: provider/usage-summary.ts.

    Users, secrets and channels (src/src/config, channels, security, agent,
    gateway):
    - [Config] models config/state.ts: reading, writing and routing;
    - [Pairing] models channels/pairing.ts: codes, approvals, and the module's
      default store, which the program shares by mistake;
    - [Vault] models security/credentials-vault.ts: the encrypted file refines a
      map from services to records;
    - [SetupFlow] models security/setup-flow.ts, the dialogue that stores a
      login.  It is proved against the interface [VaultService], which [Vault]
      implements;
    - [ChatService] models agent/chat-service.ts: commands, routing of a message
      to a model, time limits;
    - [TelegramRelay], [Telegram] and [Gateway] model channels/telegram.ts (the
      relay of progress, then the channel) and gateway/runtime.ts: who is heard,
      the order of updates, and which message reaches the chat service;
    - [HtmlFormat] and [TerminalFormat] model format/message-formatter.ts and
      cli/theme.ts: how an answer is written for Telegram, the web chat and the
      terminal;
    - [ProviderCatalog] models onboarding/provider-catalog.ts;
    - [DashboardInput], [Dashboard] and [DashboardSocket] model web/dashboard.ts:
      the parsers of requests, every handler of the HTTP interface over the files,
      the sessions and the vault, the router, and the web socket; [DashboardStart]
      models its start and network/tailscale.ts; [DashboardFacts] and
      [DashboardSetup] hold what its requests give out and change.

    ** What the theorems show

    Safety: a tool that the policies deny is not handed over (unless the
    configuration sets [dangerouslyUnrestricted]), a plain command line that stops
    the machine or deletes a protected path is refused wherever in the line the
    command stands, no purchase runs without a confirmation and the guard judges
    it with the page that is open, sensitive files are not touched, a stranger
    reaches nothing and a user is heard once per message, a message goes to the
    route its slot stands for, and no GET request of the dashboard depends on a
    secret of the vault.  Honesty of a turn: a change without a later check is not
    claimed, whatever the model says, no answer is blank, a tool's result reaches
    the model, and a turn that fails leaves the transcripts as they were.
    Refinement and equivalence: the vault and the memory log are the maps they
    stand for, the matcher is its reference semantics, the ids of a transcript
    are renamed by one injective renaming.  Round trips: configuration, JSON,
    memory.  Bounds: requests of a turn, lengths, queues and quotas.  Termination
    and liveness: the loops end within their fuel, updates are served, the gateway
    answers with the service's answer or at its limit.  A property is marked with
    its number in the comment before it.

    ** How the code is translated

    A function of the source is a definition of the same name; code that may
    throw returns [result]; state is passed explicitly (a registry, a world of
    files, a directory tree, the record of a turn); what the source reads from
    outside (clock, random draws, SHA-1, the URL constructor, [localeCompare],
    [Date.parse], AES-256-GCM, the shell, [fetch], the provider library, the
    current and the home directory) is an argument or a class with documented
    laws, each instantiated in a witness.  In a turn the model and the tools are
    arbitrary functions that also say how long they take, so that time limits are
    part of the model.  Loops that are not structural take fuel and are proved to
    need no more than they get: [checkCommand] the length of the command (inline
    scripts are shorter than the command that holds them), the repair loop the
    length of the transcript, the scans of [EditableRegions] the length of the
    text, [walk_stack] the entries of the tree, [runSynthetic] three calls
    (theorem [screenshots_end]).  An asynchronous function runs as one step,
    except that what happens to the registry while a poll waits is an argument of
    the step; turns run one at a time.

    ** Bounds of the model

    Strings are sequences of Latin-1 code units; the few characters beyond them
    in the program's texts are their UTF-8 bytes, and they are left out of the
    character classes of patterns.  Numbers are exact decimals, infinities and
    NaN: rounding of doubles does not appear, and similarities are exact.
    Messages of the operating system's errors are reduced to their codes.  Links,
    permissions, devices and concurrent writers of one file are left out, and so
    is the debug trace of prompts, which is written to a file that nothing reads.

    ** Not modelled

    What the browser tool does with live pages is driven by Playwright, an
    optional package outside the repository.  Onboarding, the command line and the
    terminal interface are dialogues of prompts and output, and the web
    interface (ui/) is rendering in the browser.  The progress texts of
    agents/tool-progress.ts and the emitters of agents/agent-events.ts keep no
    state but their listeners.  config/paths.ts imports a module that is not in
    the repository and is imported by nothing; config/runtime-preflight.ts only
    checks versions and settings at the start; extensions/telegram wraps the
    channel.  The HTTP calls of the Telegram channel and the start of the
    gateway's servers are input and output.

    ** What the theorems found

    Besides what holds, the library proves some behaviours that the code does not
    intend, among them: a newline hides a command from the check of
    [SelfProtection]; a refusal that names a purchase counts as a confirmation;
    [remove] ignores the scope of a session; an edit may insert markers and so
    open protected text; a login saved for a URL of twitter.com is not found
    again; a deleted pairing file does not reset pairings while the program runs;
    a torn line of the memory log swallows the next entry; names such as
    [constructor] reach inherited members in several tables; a change made
    through the alias [bash] is not tracked and can be claimed unverified; a name
    inside the other makes every identity answer be rejected; $1299.99 is read as
    $129; a sentence such as [try 2 more] is taken for a one-time code; the address
    of a Markdown link can bring attributes into the HTML of an answer; a mailbox
    name with a line break sends further IMAP commands; the configuration page of
    the dashboard serves API keys; cookies of a tab go to every site it visits.

    ** This file

    The tactics, the hint database, results and lists shared by all files. *)

From stdpp Require Import base list gmap strings sorting.
From Stdlib Require Import Lia Permutation.

(** ** Tactics *)

(** Destructs the scrutinee of the first [match] or [if] of the goal (or of a
    hypothesis), keeping the equation. *)
Ltac case_goal :=
  match goal with
  | |- context [match ?x with _ => _ end] => destruct x eqn:?
  end.
Ltac case_hyp H :=
  match type of H with
  | context [match ?x with _ => _ end] => destruct x eqn:?
  end.

(** Turns boolean equations of the context into propositions. *)
Ltac bool_prop :=
  repeat match goal with
  | H : (_ && _)%bool = true |- _ => apply andb_true_iff in H as [? ?]
  | H : (_ || _)%bool = false |- _ => apply orb_false_iff in H as [? ?]
  | H : negb _ = true |- _ => apply negb_true_iff in H
  | H : negb _ = false |- _ => apply negb_false_iff in H
  | H : bool_decide _ = true |- _ => apply bool_decide_eq_true in H
  | H : bool_decide _ = false |- _ => apply bool_decide_eq_false in H
  | H : (_ =? _)%string = true |- _ => apply String.eqb_eq in H
  | H : (_ =? _)%string = false |- _ => apply String.eqb_neq in H
  | H : Nat.eqb _ _ = true |- _ => apply Nat.eqb_eq in H
  | H : Nat.eqb _ _ = false |- _ => apply Nat.eqb_neq in H
  | H : Nat.leb _ _ = true |- _ => apply Nat.leb_le in H
  | H : Nat.leb _ _ = false |- _ => apply Nat.leb_gt in H
  | H : Nat.ltb _ _ = true |- _ => apply Nat.ltb_lt in H
  | H : Nat.ltb _ _ = false |- _ => apply Nat.ltb_ge in H
  | H : Z.leb _ _ = true |- _ => apply Z.leb_le in H
  | H : Z.leb _ _ = false |- _ => apply Z.leb_gt in H
  | H : Z.ltb _ _ = true |- _ => apply Z.ltb_lt in H
  | H : Z.ltb _ _ = false |- _ => apply Z.ltb_ge in H
  | H : Z.eqb _ _ = true |- _ => apply Z.eqb_eq in H
  | H : Z.eqb _ _ = false |- _ => apply Z.eqb_neq in H
  end.

(** Proves a decidable proposition by evaluating its decision. *)
Ltac by_decide :=
  match goal with |- ?P => refine (bool_decide_unpack P _); vm_compute; exact I end.

Create HintDb t560.

(** ** Results of code that may throw *)

(** A completed computation, or a thrown [Error] with its message. *)
Inductive result (A : Type) : Type :=
| Ok (a : A)
| Throw (msg : string).
Arguments Ok {A} a.
Arguments Throw {A} msg.

Declare Scope t560_scope.
Delimit Scope t560_scope with t560.

Definition rbind {A B} (m : result A) (k : A -> result B) : result B :=
  match m with
  | Ok a => k a
  | Throw e => Throw e
  end.

Notation "'let?' x := e 'in' k" := (rbind e (fun x => k))
  (at level 10, x pattern, e at level 100, k at level 200) : t560_scope.
#[global] Open Scope t560_scope.

Definition is_ok {A} (r : result A) : bool :=
  match r with Ok _ => true | Throw _ => false end.

Lemma rbind_ok_inv {A B} (m : result A) (k : A -> result B) b :
  rbind m k = Ok b -> exists a, m = Ok a /\ k a = Ok b.
Proof. destruct m; simpl; [eauto | discriminate]. Qed.

(** [for (const x of l) f(x)] where [f] may throw: stops at the first throw. *)
Fixpoint for_each {A} (f : A -> result unit) (l : list A) : result unit :=
  match l with
  | [] => Ok tt
  | x :: l' => let? _ := f x in for_each f l'
  end.

Lemma for_each_ok {A} (f : A -> result unit) l :
  for_each f l = Ok tt <-> forall x, In x l -> f x = Ok tt.
Proof.
  induction l as [|x l IH]; simpl; [naive_solver|].
  destruct (f x) as [[]|m] eqn:E; simpl.
  - rewrite IH. naive_solver.
  - split; [discriminate|]. intros H. specialize (H x (or_introl eq_refl)). congruence.
Qed.

Lemma for_each_ext {A} (f g : A -> result unit) l :
  (forall x, In x l -> f x = g x) -> for_each f l = for_each g l.
Proof.
  induction l as [|x l IH]; simpl; intros H; [done|]. rewrite (H x) by auto.
  destruct (g x); simpl; [|done]. apply IH. auto.
Qed.

(** ** Lists *)

Fixpoint drop_while {A} (p : A -> bool) (l : list A) : list A :=
  match l with
  | [] => []
  | x :: l' => if p x then drop_while p l' else l
  end.

(** [Array.from(new Set(l))]: the first occurrence of each element, in order. *)
Fixpoint dedup_with {A} `{EqDecision A} (seen : list A) (l : list A) : list A :=
  match l with
  | [] => []
  | x :: l' =>
      if bool_decide (x ∈ seen) then dedup_with seen l'
      else x :: dedup_with (x :: seen) l'
  end.
Definition dedup {A} `{EqDecision A} (l : list A) : list A := dedup_with [] l.

(** [for (const x of l) { st = f(x, st); if (stop(st)) return; }] *)
Fixpoint each_until {A S} (f : A -> S -> S) (stop : S -> bool) (l : list A) (st : S) : S :=
  match l with
  | [] => st
  | x :: l' => let st' := f x st in if stop st' then st' else each_until f stop l' st'
  end.
Lemma each_until_ind {A S} (P : S -> Prop) (f : A -> S -> S) stop l st :
  (forall x s, P s -> P (f x s)) -> P st -> P (each_until f stop l st).
Proof. intros H. revert st. induction l as [|x l IH]; intros st Hs; [done|]. cbn. destruct (stop _); auto. Qed.

(** [l.findIndex(p)], [None] for -1. *)
Fixpoint find_index {A} (p : A -> bool) (l : list A) : option nat :=
  match l with
  | [] => None
  | x :: l' => if p x then Some 0 else option_map S (find_index p l')
  end.

(** [l.sort((a, b) => ...)] for a comparison that orders: stable; [lt a b] is
    [cmp(a, b) < 0]. *)
Fixpoint sort_insert {A} (lt : A -> A -> bool) (x : A) (l : list A) : list A :=
  match l with
  | [] => [x]
  | y :: l' => if lt y x then y :: sort_insert lt x l' else x :: l
  end.
Definition stable_sort {A} (lt : A -> A -> bool) (l : list A) : list A := fold_right (sort_insert lt) [] l.

Lemma sort_insert_perm {A} (lt : A -> A -> bool) x l : Permutation (x :: l) (sort_insert lt x l).
Proof.
  induction l as [|y l IH]; simpl; [done|]. destruct (lt y x); [|done].
  rewrite <- IH. constructor.
Qed.
Lemma stable_sort_perm {A} (lt : A -> A -> bool) l : Permutation l (stable_sort lt l).
Proof. induction l as [|x l IH]; simpl; [done|]. rewrite <- sort_insert_perm. by constructor. Qed.

(** The result is in order when [lt] is a strict order on classes of the elements. *)
Lemma stable_sort_sorted_on {A} (P : A -> Prop) (lt : A -> A -> bool) l :
  (forall a b, P a -> P b -> lt a b = true -> lt b a = false) ->
  (forall a b c, P a -> P b -> P c -> lt b a = false -> lt c b = false -> lt c a = false) ->
  Forall P l -> StronglySorted (fun a b => lt b a = false) (stable_sort lt l).
Proof.
  intros As Tr F. induction F as [|x l Px F IH]; simpl; [constructor|].
  assert (Forall P (stable_sort lt l)) as G by (by rewrite <- stable_sort_perm).
  revert G. generalize (stable_sort lt l) IH. clear IH. intros k.
  induction 1 as [|y k S IHk Fk]; simpl; intros G; [repeat constructor|]. inversion G; subst. destruct (lt y x) eqn:E.
  - constructor; [by apply IHk|]. rewrite <- sort_insert_perm. constructor; [by apply As|done].
  - constructor; [by constructor|]. constructor; [done|]. rewrite Forall_forall in *. intros z Hz. eapply (Tr x y z); auto.
Qed.
Lemma stable_sort_sorted {A} (lt : A -> A -> bool) l :
  (forall a b, lt a b = true -> lt b a = false) ->
  (forall a b c, lt b a = false -> lt c b = false -> lt c a = false) ->
  StronglySorted (fun a b => lt b a = false) (stable_sort lt l).
Proof. intros As Tr. apply (stable_sort_sorted_on (fun _ => True)); [eauto|eauto|]. by apply Forall_forall. Qed.

Lemma elem_of_dedup_with {A} `{EqDecision A} (x : A) seen l :
  x ∈ dedup_with seen l <-> x ∈ l /\ x ∉ seen.
Proof.
  revert seen. induction l as [|y l IH]; intros seen; simpl; [set_solver|].
  case_bool_decide; [rewrite IH; set_solver|].
  rewrite elem_of_cons, IH. destruct (decide (x = y)); set_solver.
Qed.

Lemma elem_of_dedup {A} `{EqDecision A} (x : A) l : x ∈ dedup l <-> x ∈ l.
Proof. unfold dedup. rewrite elem_of_dedup_with. set_solver. Qed.

Lemma NoDup_dedup_with {A} `{EqDecision A} (seen l : list A) :
  NoDup (dedup_with seen l).
Proof.
  revert seen. induction l as [|y l IH]; intros seen; simpl; [constructor|].
  case_bool_decide; [apply IH|]. constructor; [|apply IH].
  rewrite elem_of_dedup_with. set_solver.
Qed.

Lemma NoDup_dedup {A} `{EqDecision A} (l : list A) : NoDup (dedup l).
Proof. apply NoDup_dedup_with. Qed.

Lemma dedup_with_NoDup {A} `{EqDecision A} (seen l : list A) :
  NoDup l -> (forall x, x ∈ l -> x ∉ seen) -> dedup_with seen l = l.
Proof.
  revert seen. induction l as [|y l IH]; intros seen Hl Hs; simpl; [done|].
  inversion Hl; subst. rewrite bool_decide_eq_false_2 by (apply Hs; set_solver).
  f_equal. apply IH; [done|]. set_solver.
Qed.

Lemma dedup_id {A} `{EqDecision A} (l : list A) : NoDup l -> dedup l = l.
Proof. intros H. apply dedup_with_NoDup; set_solver. Qed.

Lemma drop_while_suffix {A} (p : A -> bool) l :
  exists k, l = k ++ drop_while p l /\ forallb p k = true.
Proof.
  induction l as [|x l (k & E & F)]; simpl; [by exists []|].
  destruct (p x) eqn:E'; [|by exists []].
  exists (x :: k). simpl. rewrite E', F. split; [by rewrite <- E|done].
Qed.

Lemma drop_while_head {A} (p : A -> bool) l x l' :
  drop_while p l = x :: l' -> p x = false.
Proof.
  induction l as [|y l IH]; simpl; [done|].
  destruct (p y) eqn:E; [apply IH | intros [= -> ->]; done].
Qed.

Lemma drop_while_id {A} (p : A -> bool) x l : p x = false -> drop_while p (x :: l) = x :: l.
Proof. simpl. by intros ->. Qed.

Lemma drop_while_idemp {A} (p : A -> bool) l :
  drop_while p (drop_while p l) = drop_while p l.
Proof.
  induction l as [|x l IH]; simpl; [done|].
  destruct (p x) eqn:E; [done|]. simpl. by rewrite E.
Qed.

Lemma find_index_Some {A} (p : A -> bool) l i :
  find_index p l = Some i ->
  exists x, l !! i = Some x /\ p x = true /\
    forall j y, j < i -> l !! j = Some y -> p y = false.
Proof.
  revert i. induction l as [|y l IH]; intros i; simpl; [done|].
  destruct (p y) eqn:E.
  - intros [= <-]. exists y. split; [done|]. split; [done|]. intros; lia.
  - destruct (find_index p l) as [k|] eqn:F; simpl; [|done]. intros [= <-].
    destruct (IH k eq_refl) as (x & Hx & Px & Hmin). exists x. split; [done|]. split; [done|].
    intros [|j] z Hj Hz; simpl in Hz; [by simplify_eq|]. eapply Hmin; [|done]. lia.
Qed.

Lemma find_index_None {A} (p : A -> bool) l :
  find_index p l = None <-> forall x, In x l -> p x = false.
Proof.
  induction l as [|y l IH]; simpl; [split; [intros _ ? []|done]|].
  destruct (p y) eqn:E.
  - split; [done|]. intros H. specialize (H y (or_introl eq_refl)). congruence.
  - destruct (find_index p l); simpl; (split; [|intros H; try done]).
    + done.
    + enough (Some n = None) by done. apply IH. auto.
    + intros _ x [->|?]; [done|]. by apply IH.
Qed.

Lemma existsb_false_iff {A} (p : A -> bool) l :
  existsb p l = false <-> forall x, In x l -> p x = false.
Proof.
  induction l as [|y l IH]; simpl; [naive_solver|].
  rewrite orb_false_iff, IH. naive_solver.
Qed.

Lemma skipn_skipn_add {A} (l : list A) a b : skipn a (skipn b l) = skipn (b + a) l.
Proof. rewrite skipn_skipn. f_equal. lia. Qed.

Lemma forallb_Permutation {A} (p : A -> bool) l l' :
  Permutation l l' -> forallb p l = forallb p l'.
Proof.
  induction 1 as [|x l l' _ IH|x y l|l l' l'' _ IH _ IH']; simpl; [done|by rewrite IH| |congruence].
  by destruct (p x), (p y).
Qed.
