(* ===== verification/JsString.v ===== *)
(** * JavaScript strings

    A JavaScript string is a [string] of 8-bit code units: the sources are
    modelled on Latin-1 text.  Every operation below follows ECMAScript on that
    range: the white space of [trim] and [\s], the case mappings (the two
    letters whose upper case leaves Latin-1, U+00B5 and U+00FF, are kept), the
    index based operations, [split], [join] and character-class replacements. *)

From stdpp Require Import base list strings.
From Stdlib Require Import Ascii Lia.
From S2P Require Import Prelude.

Definition chars (s : string) : list ascii := String.list_ascii_of_string s.
Definition of_chars (l : list ascii) : string := String.string_of_list_ascii l.

(** [s.length] *)
Definition slen (s : string) : nat := length (chars s).

(** The truthiness of a string: [""] is the only falsy one. *)
Definition truthy (s : string) : bool := negb (s =? "")%string.

(** ** Code units *)

Definition code (c : ascii) : nat := nat_of_ascii c.
Definition between (lo hi n : nat) : bool := (lo <=? n)%nat && (n <=? hi)%nat.

(** ECMAScript WhiteSpace and LineTerminator: TAB, LF, VT, FF, CR, SP, NBSP. *)
Definition is_ws (c : ascii) : bool :=
  between 9 13 (code c) || (code c =? 32)%nat || (code c =? 160)%nat.
Definition is_digit (c : ascii) : bool := between 48 57 (code c).
Definition is_upper (c : ascii) : bool := between 65 90 (code c).
Definition is_lower (c : ascii) : bool := between 97 122 (code c).
Definition is_alpha (c : ascii) : bool := is_upper c || is_lower c.
Definition is_alnum (c : ascii) : bool := is_alpha c || is_digit c.
(** [\w] *)
Definition is_word (c : ascii) : bool := is_alnum c || (code c =? 95)%nat.

Definition lower_char (c : ascii) : ascii :=
  if is_upper c || (between 192 222 (code c) && negb (code c =? 215)%nat)
  then ascii_of_nat (code c + 32) else c.

Definition upper_char (c : ascii) : list ascii :=
  if (code c =? 223)%nat then ["S"%char; "S"%char]
  else if is_lower c || (between 224 254 (code c) && negb (code c =? 247)%nat)
  then [ascii_of_nat (code c - 32)] else [c].

(** ** Methods of [String.prototype] *)

Definition toLowerCase (s : string) : string := of_chars (map lower_char (chars s)).
Definition toUpperCase (s : string) : string := of_chars (flat_map upper_char (chars s)).

Definition trim_list (l : list ascii) : list ascii :=
  rev (drop_while is_ws (rev (drop_while is_ws l))).
Definition trim (s : string) : string := of_chars (trim_list (chars s)).

(** [s.slice(a)] and [s.slice(0, n)] for [a], [n] not negative. *)
Definition slice_from (a : nat) (s : string) : string := of_chars (skipn a (chars s)).
Definition slice_to (n : nat) (s : string) : string := of_chars (firstn n (chars s)).
(** [s.slice(s.length - n)] when [n <= s.length], else [s]. *)
Definition last_chars (n : nat) (s : string) : string := slice_from (slen s - n) s.

Fixpoint list_prefix (p l : list ascii) : bool :=
  match p, l with
  | [], _ => true
  | c :: p', d :: l' => bool_decide (c = d) && list_prefix p' l'
  | _ :: _, [] => false
  end.
Definition startsWith (p s : string) : bool := list_prefix (chars p) (chars s).
Definition endsWith (p s : string) : bool := list_prefix (rev (chars p)) (rev (chars s)).

(** The first index at or after 0 where [p] occurs in [l]. *)
Fixpoint list_index (p l : list ascii) : option nat :=
  if list_prefix p l then Some 0
  else match l with
       | [] => None
       | _ :: l' => option_map S (list_index p l')
       end.
Definition indexOf (p s : string) : option nat := list_index (chars p) (chars s).
Definition includes (p s : string) : bool :=
  match indexOf p s with Some _ => true | None => false end.

(** [s.lastIndexOf(c)] for a one-character needle. *)
Definition lastIndexOf_char (c : ascii) (s : string) : option nat :=
  match find_index (fun d => bool_decide (d = c)) (rev (chars s)) with
  | Some i => Some (slen s - 1 - i)
  | None => None
  end.

(** [s.replace(/[^...]/g, r)]: every character outside the class becomes [r]. *)
Definition replace_outside (ok : ascii -> bool) (r : list ascii) (s : string) : string :=
  of_chars (flat_map (fun c => if ok c then [c] else r) (chars s)).

(** [s.replace(/[...]+/g, r)]: each maximal run inside the class becomes [r]. *)
Fixpoint replace_runs_list (inside : ascii -> bool) (r : list ascii) (in_run : bool)
    (l : list ascii) : list ascii :=
  match l with
  | [] => []
  | c :: l' =>
      if inside c then
        (if in_run then [] else r) ++ replace_runs_list inside r true l'
      else c :: replace_runs_list inside r false l'
  end.
Definition replace_runs (inside : ascii -> bool) (r : list ascii) (s : string) : string :=
  of_chars (replace_runs_list inside r false (chars s)).

(** [s.split(sep)] for a one-character separator. *)
Fixpoint split_list (sep : ascii -> bool) (l : list ascii) : list (list ascii) :=
  match l with
  | [] => [[]]
  | c :: l' =>
      if sep c then [] :: split_list sep l'
      else match split_list sep l' with
           | [] => [[c]]
           | w :: ws => (c :: w) :: ws
           end
  end.
Definition split_char (c : ascii) (s : string) : list string :=
  map of_chars (split_list (fun d => bool_decide (d = c)) (chars s)).
(** [s.split(/\s+/g).filter(Boolean)]: the maximal runs of non-space characters. *)
Definition words (s : string) : list string :=
  List.filter truthy (map of_chars (split_list is_ws (chars s))).

(** [s.split(/\r?\n/)] *)
Definition strip_cr (l : list ascii) : list ascii :=
  match rev l with
  | c :: r => if (code c =? 13)%nat then rev r else l
  | [] => []
  end.
Fixpoint strip_all_but_last (l : list (list ascii)) : list (list ascii) :=
  match l with
  | [] => []
  | [x] => [x]
  | x :: l' => strip_cr x :: strip_all_but_last l'
  end.
Definition split_lines (s : string) : list string :=
  map of_chars (strip_all_but_last (split_list (fun c => (code c =? 10)%nat) (chars s))).

(** [Buffer.byteLength(s, "utf-8")] *)
Definition utf8_length (s : string) : nat :=
  fold_right (fun c n => (if (code c <? 128)%nat then 1 else 2) + n) 0 (chars s).

(** [l.join(sep)] *)
Definition join (sep : string) (l : list string) : string := String.concat sep l.

(** ** Lemmas *)

Lemma chars_of_chars l : chars (of_chars l) = l.
Proof. apply String.list_ascii_of_string_of_list_ascii. Qed.
Lemma of_chars_chars s : of_chars (chars s) = s.
Proof. apply String.string_of_list_ascii_of_string. Qed.
Lemma chars_inj s t : chars s = chars t -> s = t.
Proof. intros E. by rewrite <- (of_chars_chars s), E, of_chars_chars. Qed.
Lemma of_chars_inj l k : of_chars l = of_chars k -> l = k.
Proof. intros E. by rewrite <- (chars_of_chars l), E, chars_of_chars. Qed.
Lemma chars_app s t : chars (s +:+ t) = chars s ++ chars t.
Proof. induction s as [|c s IH]; [done|]. unfold chars in *. simpl. by rewrite <- IH. Qed.
Lemma of_chars_app l k : of_chars (l ++ k) = of_chars l +:+ of_chars k.
Proof. apply chars_inj. by rewrite chars_app, !chars_of_chars. Qed.
Lemma chars_nil s : chars s = [] <-> s = "".
Proof. split; [|by intros ->]. intros E. by apply chars_inj. Qed.
Lemma slen_app s t : slen (s +:+ t) = slen s + slen t.
Proof. unfold slen. by rewrite chars_app, length_app. Qed.
Lemma slen_of_chars l : slen (of_chars l) = length l.
Proof. unfold slen. by rewrite chars_of_chars. Qed.
Lemma slen_0 s : slen s = 0 <-> s = "".
Proof. unfold slen. rewrite length_zero_iff_nil. apply chars_nil. Qed.
#[export] Hint Rewrite chars_of_chars of_chars_chars chars_app slen_app slen_of_chars : t560.

Lemma truthy_true s : truthy s = true <-> s <> "".
Proof. unfold truthy. rewrite negb_true_iff. apply String.eqb_neq. Qed.
Lemma truthy_false s : truthy s = false <-> s = "".
Proof. unfold truthy. rewrite negb_false_iff. apply String.eqb_eq. Qed.
Lemma truthy_slen s : truthy s = true <-> 0 < slen s.
Proof. rewrite truthy_true, <- slen_0. lia. Qed.

Lemma list_prefix_spec p l : list_prefix p l = true <-> exists k, l = p ++ k.
Proof.
  revert l. induction p as [|c p IH]; intros l; simpl; [naive_solver|].
  destruct l as [|d l]; [naive_solver|].
  rewrite andb_true_iff, bool_decide_eq_true, IH. naive_solver.
Qed.

Lemma startsWith_spec p s : startsWith p s = true <-> exists t, s = p +:+ t.
Proof.
  unfold startsWith. rewrite list_prefix_spec. split.
  - intros [k E]. exists (of_chars k). apply chars_inj. by rewrite chars_app, chars_of_chars.
  - intros [t ->]. exists (chars t). by rewrite chars_app.
Qed.

Lemma endsWith_spec p s : endsWith p s = true <-> exists t, s = t +:+ p.
Proof.
  unfold endsWith. rewrite list_prefix_spec. split.
  - intros [k E]. exists (of_chars (rev k)). apply chars_inj.
    rewrite chars_app, chars_of_chars, <- (rev_involutive (chars s)), E, rev_app_distr.
    by rewrite rev_involutive.
  - intros [t ->]. exists (rev (chars t)). by rewrite chars_app, rev_app_distr.
Qed.

Lemma list_index_Some p l i :
  list_index p l = Some i -> exists a b, l = a ++ p ++ b /\ length a = i.
Proof.
  revert i. induction l as [|c l IH]; intros i; simpl.
  - destruct (list_prefix p []) eqn:E; [|done]. intros [= <-].
    apply list_prefix_spec in E as [k E]. by exists [], k.
  - destruct (list_prefix p (c :: l)) eqn:E.
    + intros [= <-]. apply list_prefix_spec in E as [k E]. by exists [], k.
    + destruct (list_index p l) as [j|] eqn:F; simpl; [|done]. intros [= <-].
      destruct (IH j eq_refl) as (a & b & -> & <-). by exists (c :: a), b.
Qed.

Lemma list_index_complete p a b : exists i, list_index p (a ++ p ++ b) = Some i.
Proof.
  induction a as [|c a [i IH]].
  - simpl. assert (list_prefix p (p ++ b) = true) as E by (apply list_prefix_spec; eauto).
    destruct (p ++ b); simpl; rewrite E; eauto.
  - simpl. case_goal; [eauto|]. rewrite IH. simpl. eauto.
Qed.

Lemma includes_spec p s : includes p s = true <-> exists a b, s = a +:+ p +:+ b.
Proof.
  unfold includes, indexOf. split.
  - destruct (list_index _ _) eqn:E; [|done]. intros _.
    apply list_index_Some in E as (a & b & E & _).
    exists (of_chars a), (of_chars b). apply chars_inj. by rewrite !chars_app, !chars_of_chars.
  - intros (a & b & ->). rewrite !chars_app.
    destruct (list_index_complete (chars p) (chars a) (chars b)) as [i ->]. done.
Qed.

(** A decidable property of characters holds of all of them when it holds of
    the 256 code units, which the kernel can evaluate. *)
Definition all_ascii : list ascii := map ascii_of_nat (seq 0 256).
Lemma all_ascii_complete c : In c all_ascii.
Proof.
  unfold all_ascii. apply in_map_iff. exists (nat_of_ascii c).
  split; [apply ascii_nat_embedding|]. apply in_seq. pose proof (nat_ascii_bounded c). lia.
Qed.
Lemma ascii_forall (p : ascii -> bool) : forallb p all_ascii = true -> forall c, p c = true.
Proof. intros H c. exact (proj1 (forallb_forall p all_ascii) H c (all_ascii_complete c)). Qed.

(** Proves [f c = g c] for boolean functions of one character by evaluation. *)
Ltac by_ascii c :=
  apply Bool.eqb_prop; revert c;
  match goal with |- forall c, @?p c = true => apply (ascii_forall p) end;
  vm_compute; reflexivity.

Lemma lower_char_idemp c : lower_char (lower_char c) = lower_char c.
Proof. destruct c as [[] [] [] [] [] [] [] []]; reflexivity. Qed.
Lemma lower_char_ws c : is_ws (lower_char c) = is_ws c.
Proof. by_ascii c. Qed.

Lemma toLowerCase_idemp s : toLowerCase (toLowerCase s) = toLowerCase s.
Proof.
  unfold toLowerCase. rewrite chars_of_chars, map_map. f_equal.
  apply map_ext, lower_char_idemp.
Qed.
Lemma slen_toLowerCase s : slen (toLowerCase s) = slen s.
Proof. unfold toLowerCase. rewrite slen_of_chars, length_map. done. Qed.

(** A list has no white space at either end. *)
Definition trimmed (l : list ascii) : Prop :=
  (forall c k, l = c :: k -> is_ws c = false) /\ (forall c k, l = k ++ [c] -> is_ws c = false).

Lemma trim_list_trimmed l : trimmed (trim_list l).
Proof.
  unfold trim_list. split.
  - intros c k E.
    destruct (drop_while_suffix is_ws (rev (drop_while is_ws l))) as (w & Ew & _).
    apply (f_equal (@rev ascii)) in Ew.
    rewrite rev_involutive, rev_app_distr, E in Ew. simpl in Ew.
    by apply drop_while_head in Ew.
  - intros c k E. apply (f_equal (@rev ascii)) in E.
    rewrite rev_involutive, rev_app_distr in E. simpl in E. by apply drop_while_head in E.
Qed.

Lemma drop_while_trimmed l : (forall c k, l = c :: k -> is_ws c = false) -> drop_while is_ws l = l.
Proof. destruct l as [|c l]; [done|]. intros H. apply drop_while_id. eauto. Qed.

Lemma trim_list_id l : trimmed l -> trim_list l = l.
Proof.
  intros [Hh Hl]. unfold trim_list. rewrite (drop_while_trimmed l) by done.
  rewrite drop_while_trimmed; [apply rev_involutive|].
  intros c k E. apply (Hl c (rev k)). by rewrite <- (rev_involutive l), E.
Qed.

Lemma trim_idemp s : trim (trim s) = trim s.
Proof. unfold trim. rewrite chars_of_chars, trim_list_id; [done|apply trim_list_trimmed]. Qed.

Lemma trim_wrap a m b :
  a <> "" -> b <> "" -> trim a = a -> trim b = b -> trim (a +:+ m +:+ b) = a +:+ m +:+ b.
Proof.
  intros Na Nb Ta Tb. unfold trim. rewrite trim_list_id; [apply of_chars_chars|].
  assert (trimmed (chars a)) as [Ha _].
  { rewrite <- Ta. unfold trim. rewrite chars_of_chars. apply trim_list_trimmed. }
  assert (trimmed (chars b)) as [_ Hb].
  { rewrite <- Tb. unfold trim. rewrite chars_of_chars. apply trim_list_trimmed. }
  rewrite !chars_app. split; intros c k E.
  - destruct (chars a) as [|d a'] eqn:A; [by apply chars_nil in A|]. injection E as -> _. by eapply Ha.
  - destruct (chars b) as [|d b'] eqn:B using rev_ind; [by apply chars_nil in B|].
    rewrite !app_assoc in E. apply app_inj_tail in E as [_ ->]. by eapply Hb.
Qed.

Lemma trim_list_no_ws l : forallb (fun c => negb (is_ws c)) l = true -> trim_list l = l.
Proof.
  rewrite forallb_forall. intros H. apply trim_list_id. split; intros c k ->;
    specialize (H c); rewrite ?in_app_iff in H; simpl in H; apply negb_true_iff; auto.
Qed.

Lemma trim_no_ws s : forallb (fun c => negb (is_ws c)) (chars s) = true -> trim s = s.
Proof. intros H. unfold trim. rewrite trim_list_no_ws by done. apply of_chars_chars. Qed.

Lemma trim_list_all_ws l : forallb is_ws l = true -> trim_list l = [].
Proof.
  intros H. unfold trim_list.
  assert (drop_while is_ws l = []) as ->; [|done].
  induction l as [|c l IH]; simpl in *; [done|]. apply andb_true_iff in H as [-> ?]. auto.
Qed.

Lemma str_app_assoc a b c : a +:+ (b +:+ c) = (a +:+ b) +:+ c.
Proof. apply chars_inj. by rewrite !chars_app, app_assoc. Qed.
Lemma trim_list_snoc_ws l c : is_ws c = true -> trim_list (l ++ [c]) = trim_list l.
Proof.
  intros W. unfold trim_list.
  assert (drop_while is_ws (l ++ [c]) = match drop_while is_ws l with [] => [] | d => d ++ [c] end) as ->.
  { induction l as [|x l IH]; simpl; [by rewrite W|]. by destruct (is_ws x). }
  destruct (drop_while is_ws l) as [|x d]; [done|]. rewrite rev_app_distr. simpl. by rewrite W.
Qed.

Lemma trim_list_length l : length (trim_list l) <= length l.
Proof.
  unfold trim_list. rewrite length_rev.
  assert (forall k, length (drop_while is_ws k) <= length k) as H.
  { induction k as [|c k IH]; simpl; [lia|]. destruct (is_ws c); simpl; lia. }
  pose proof (H (rev (drop_while is_ws l))). rewrite length_rev in *. pose proof (H l). lia.
Qed.

Lemma trim_slen s : slen (trim s) <= slen s.
Proof. unfold trim. rewrite slen_of_chars. apply trim_list_length. Qed.

(** A text that starts with another character than white space is not blank. *)
Lemma trim_starts c s : is_ws c = false -> truthy (trim (String c s)) = true.
Proof.
  intros W. apply truthy_slen. unfold trim. rewrite slen_of_chars. unfold trim_list. cbn [chars String.list_ascii_of_string].
  simpl drop_while at 2. rewrite W, length_rev. cbn [rev].
  assert (forall k, In c k -> 0 < length (drop_while is_ws k)) as H.
  { induction k as [|x k IH]; [done|]. simpl. destruct (is_ws x) eqn:X; [|simpl; lia]. intros [->|I]; [congruence|auto]. }
  apply H, in_app_iff. right. by left.
Qed.

(** Trimming commutes with lower-casing. *)
Lemma drop_while_lower l :
  drop_while is_ws (map lower_char l) = map lower_char (drop_while is_ws l).
Proof.
  induction l as [|c l IH]; simpl; [done|]. rewrite lower_char_ws.
  destruct (is_ws c); [done|]. done.
Qed.
Lemma trim_toLowerCase s : trim (toLowerCase s) = toLowerCase (trim s).
Proof.
  unfold trim, toLowerCase, trim_list. rewrite !chars_of_chars. f_equal.
  rewrite drop_while_lower, <- map_rev, drop_while_lower, map_rev. done.
Qed.

(** ** Slices *)

Lemma last_chars_slen n s : slen (last_chars n s) = Nat.min n (slen s).
Proof. unfold last_chars, slice_from. rewrite slen_of_chars, length_skipn. unfold slen. lia. Qed.
Lemma last_chars_all n s : slen s <= n -> last_chars n s = s.
Proof.
  intros H. unfold last_chars, slice_from.
  replace (slen s - n) with 0 by lia. simpl. apply of_chars_chars.
Qed.
(** A suffix of a long enough suffix is the suffix of the whole. *)
Lemma last_chars_app_last n m s t :
  n <= m -> last_chars n (last_chars m s +:+ t) = last_chars n (s +:+ t).
Proof.
  intros H. unfold last_chars, slice_from. f_equal.
  rewrite !slen_app, slen_of_chars, length_skipn, !chars_app, chars_of_chars.
  rewrite !skipn_app, !length_skipn, skipn_skipn_add. unfold slen.
  f_equal; [|f_equal; lia].
  destruct (decide (length (chars s) <= m)) as [L|L]; [f_equal; lia|].
  destruct (decide (n <= length (chars t))).
  - rewrite !skipn_all2; [done| |]; lia.
  - f_equal. lia.
Qed.

Lemma replace_outside_class ok r s :
  forallb ok r = true -> forallb ok (chars (replace_outside ok r s)) = true.
Proof.
  intros Hr. unfold replace_outside. rewrite chars_of_chars.
  induction (chars s) as [|c l IH]; simpl; [done|].
  rewrite forallb_app, IH, andb_true_r. destruct (ok c) eqn:E; simpl; [by rewrite E|done].
Qed.

Lemma replace_outside_id ok r s : forallb ok (chars s) = true -> replace_outside ok r s = s.
Proof.
  intros H. unfold replace_outside. rewrite <- (of_chars_chars s) at 2. f_equal.
  induction (chars s) as [|c l IH]; simpl in *; [done|].
  apply andb_true_iff in H as [-> ?]. simpl. by rewrite IH.
Qed.

(** *** Upper case *)

Lemma upper_char_ws c : forallb (fun d => Bool.eqb (is_ws d) (is_ws c)) (upper_char c) = true.
Proof. revert c. apply ascii_forall. vm_compute. reflexivity. Qed.
Lemma upper_char_rev c : rev (upper_char c) = upper_char c.
Proof. unfold upper_char. by repeat case_match. Qed.
Lemma upper_char_idemp c : flat_map upper_char (upper_char c) = upper_char c.
Proof.
  assert (bool_decide (flat_map upper_char (upper_char c) = upper_char c) = true) as H;
    [|by apply bool_decide_eq_true in H].
  revert c. apply ascii_forall. vm_compute. reflexivity.
Qed.
Lemma flat_map_upper_idemp l : flat_map upper_char (flat_map upper_char l) = flat_map upper_char l.
Proof.
  induction l as [|c l IH]; simpl; [done|]. by rewrite flat_map_app, upper_char_idemp, IH.
Qed.
Lemma toUpperCase_idemp s : toUpperCase (toUpperCase s) = toUpperCase s.
Proof. unfold toUpperCase. by rewrite chars_of_chars, flat_map_upper_idemp. Qed.

Lemma drop_while_upper l :
  drop_while is_ws (flat_map upper_char l) = flat_map upper_char (drop_while is_ws l).
Proof.
  induction l as [|c l IH]; simpl; [done|]. pose proof (upper_char_ws c) as W.
  destruct (is_ws c) eqn:E.
  - rewrite <- IH. clear IH. induction (upper_char c) as [|d k IHk]; simpl in *; [done|].
    bool_prop. apply eqb_prop in H. rewrite H. by apply IHk.
  - assert (upper_char c <> []) as N by (unfold upper_char; by repeat case_match). simpl.
    destruct (upper_char c) as [|d k]; [done|]. simpl in W. bool_prop. apply eqb_prop in H.
    simpl. by rewrite H.
Qed.
Lemma rev_flat_map_upper l : rev (flat_map upper_char l) = flat_map upper_char (rev l).
Proof.
  induction l as [|c l IH]; simpl; [done|].
  rewrite rev_app_distr, IH, flat_map_app, upper_char_rev. simpl. by rewrite app_nil_r.
Qed.
Lemma trim_toUpperCase s : trim (toUpperCase s) = toUpperCase (trim s).
Proof.
  unfold trim, toUpperCase, trim_list. rewrite !chars_of_chars. f_equal.
  by rewrite drop_while_upper, rev_flat_map_upper, drop_while_upper, rev_flat_map_upper.
Qed.
