(* ===== verification/JsMap.v ===== *)
(** * JavaScript [Map]s and [Set]s

    A [Map] iterates in insertion order, which the sources observe (listing
    sessions, [Object.entries]), so it is an association list; [set] keeps the
    position of a present key.  [to_gmap] is the abstraction to finite maps: on
    maps with distinct keys every operation is the finite-map operation. *)

From stdpp Require Import base list gmap strings.
From S2P Require Import Prelude.

Section JMap.
Context {K V : Type} `{EqDecision K}.

(** [m.get(k)] *)
Fixpoint mget (k : K) (m : list (K * V)) : option V :=
  match m with
  | [] => None
  | (k', v) :: m' => if bool_decide (k = k') then Some v else mget k m'
  end.

(** [m.has(k)] *)
Definition mhas (k : K) (m : list (K * V)) : bool :=
  match mget k m with Some _ => true | None => false end.

(** [m.set(k, v)] *)
Fixpoint mset (k : K) (v : V) (m : list (K * V)) : list (K * V) :=
  match m with
  | [] => [(k, v)]
  | (k', v') :: m' =>
      if bool_decide (k = k') then (k, v) :: m' else (k', v') :: mset k v m'
  end.

(** [m.delete(k)] *)
Definition mdelete (k : K) (m : list (K * V)) : list (K * V) :=
  List.filter (fun p => negb (bool_decide (k = p.1))) m.

Definition keys (m : list (K * V)) : list K := map fst m.
Definition values (m : list (K * V)) : list V := map snd m.

Lemma mget_mset_eq k v m : mget k (mset k v m) = Some v.
Proof.
  induction m as [|[k' v'] m IH]; simpl; [by rewrite bool_decide_eq_true_2|].
  case_bool_decide; simpl; [by rewrite bool_decide_eq_true_2|].
  by rewrite bool_decide_eq_false_2.
Qed.

Lemma mget_mset_ne k k' v m : k <> k' -> mget k (mset k' v m) = mget k m.
Proof.
  intros N. induction m as [|[j w] m IH]; simpl.
  - by rewrite bool_decide_eq_false_2.
  - repeat case_bool_decide; simpl; subst; try done;
      repeat case_bool_decide; subst; done.
Qed.

Lemma mget_mdelete_eq k m : mget k (mdelete k m) = None.
Proof.
  induction m as [|[j w] m IH]; simpl; [done|].
  case_bool_decide; simpl; [done|]. by rewrite bool_decide_eq_false_2.
Qed.

Lemma mget_mdelete_ne k k' m : k <> k' -> mget k (mdelete k' m) = mget k m.
Proof.
  intros N. induction m as [|[j w] m IH]; simpl; [done|].
  repeat case_bool_decide; subst; simpl; try done;
    rewrite ?bool_decide_eq_true_2, ?bool_decide_eq_false_2 by done; done.
Qed.

Lemma mget_mset k k' v m :
  mget k (mset k' v m) = if bool_decide (k = k') then Some v else mget k m.
Proof. case_bool_decide; subst; [apply mget_mset_eq | by apply mget_mset_ne]. Qed.

Lemma mget_mdelete k k' m :
  mget k (mdelete k' m) = if bool_decide (k = k') then None else mget k m.
Proof. case_bool_decide; subst; [apply mget_mdelete_eq | by apply mget_mdelete_ne]. Qed.

Lemma mhas_true k m : mhas k m = true <-> exists v, mget k m = Some v.
Proof. unfold mhas. destruct (mget k m); naive_solver. Qed.
Lemma mhas_false k m : mhas k m = false <-> mget k m = None.
Proof. unfold mhas. destruct (mget k m); naive_solver. Qed.

Lemma mget_None_keys k m : mget k m = None <-> k ∉ keys m.
Proof.
  induction m as [|[j w] m IH]; simpl; [set_solver|].
  rewrite not_elem_of_cons. case_bool_decide; naive_solver.
Qed.

Lemma mset_new k v m : k ∉ keys m -> mset k v m = m ++ [(k, v)].
Proof.
  induction m as [|[j w] m IH]; simpl; [done|]. intros H. rewrite bool_decide_eq_false_2 by set_solver.
  f_equal. apply IH. set_solver.
Qed.

Lemma Forall_mset (P : K * V -> Prop) k v m : P (k, v) -> Forall P m -> Forall P (mset k v m).
Proof.
  intros H. induction 1 as [|[j w] m Hj Hm IH]; simpl; [by repeat constructor|].
  case_bool_decide; by constructor.
Qed.
Lemma Forall_mdelete (P : K * V -> Prop) k m : Forall P m -> Forall P (mdelete k m).
Proof.
  unfold mdelete. induction 1 as [|x m Hx Hm IH]; simpl; [done|]. destruct (negb _); [by constructor|done].
Qed.

Lemma mhas_keys k m : mhas k m = true -> k ∈ keys m.
Proof.
  intros [v Hv]%mhas_true. destruct (decide (k ∈ keys m)) as [|N]; [done|].
  apply mget_None_keys in N. congruence.
Qed.

Lemma mget_In k v m : mget k m = Some v -> In (k, v) m.
Proof.
  induction m as [|[j w] m IH]; simpl; [done|].
  case_bool_decide; [naive_solver|auto].
Qed.

Lemma In_mget k v m : NoDup (keys m) -> In (k, v) m -> mget k m = Some v.
Proof.
  induction m as [|[j w] m IH]; simpl; [done|].
  intros [Hj Hm]%NoDup_cons [[= -> ->]|Hin]; [by rewrite bool_decide_eq_true_2|].
  rewrite bool_decide_eq_false_2; [auto|]. intros ->. apply Hj, list_elem_of_In.
  apply in_map_iff. by exists (j, v).
Qed.

Lemma elem_of_keys_mset k k' v m : k ∈ keys (mset k' v m) <-> k = k' \/ k ∈ keys m.
Proof.
  induction m as [|[j w] m IH]; simpl; [set_solver|].
  case_bool_decide; subst; simpl; rewrite ?elem_of_cons, ?IH; naive_solver.
Qed.

Lemma NoDup_mset k v m : NoDup (keys m) -> NoDup (keys (mset k v m)).
Proof.
  induction m as [|[j w] m IH]; simpl; [intros; apply NoDup_singleton|].
  intros [Hj Hm]%NoDup_cons. case_bool_decide; subst; simpl; constructor; auto.
  rewrite elem_of_keys_mset. naive_solver.
Qed.

Lemma elem_of_keys_mdelete k k' m : k ∈ keys (mdelete k' m) <-> k ∈ keys m /\ k <> k'.
Proof.
  induction m as [|[j w] m IH]; simpl; [set_solver|].
  case_bool_decide; subst; simpl; rewrite ?elem_of_cons, ?IH; naive_solver.
Qed.

Lemma NoDup_mdelete k m : NoDup (keys m) -> NoDup (keys (mdelete k m)).
Proof.
  induction m as [|[j w] m IH]; simpl; [done|]. intros [Hj Hm]%NoDup_cons.
  case_bool_decide; simpl; [auto|]. constructor; [|auto].
  rewrite elem_of_keys_mdelete. naive_solver.
Qed.

Lemma mdelete_absent k m : mget k m = None -> mdelete k m = m.
Proof.
  induction m as [|[j w] m IH]; simpl; [done|].
  case_bool_decide; [done|]. simpl. intros E. by rewrite IH.
Qed.
End JMap.

#[export] Hint Resolve NoDup_mset NoDup_mdelete : t560.
#[export] Hint Rewrite @mget_mset_eq @mget_mdelete_eq : t560.

(** ** The abstraction to finite maps *)
Section Abstraction.
Context {K V : Type} `{Countable K}.

Definition to_gmap (m : list (K * V)) : gmap K V := list_to_map m.

Lemma to_gmap_lookup m k : to_gmap m !! k = mget k m.
Proof.
  unfold to_gmap. induction m as [|[j w] m IH]; simpl; [apply lookup_empty|].
  case_bool_decide; subst; [apply lookup_insert_eq|]. by rewrite lookup_insert_ne.
Qed.
Lemma to_gmap_mset k v m : to_gmap (mset k v m) = <[k:=v]> (to_gmap m).
Proof.
  apply map_eq. intros j. rewrite to_gmap_lookup, mget_mset.
  case_bool_decide; subst; [by rewrite lookup_insert_eq|].
  by rewrite lookup_insert_ne, to_gmap_lookup.
Qed.
Lemma to_gmap_mdelete k m : to_gmap (mdelete k m) = delete k (to_gmap m).
Proof.
  apply map_eq. intros j. rewrite to_gmap_lookup, mget_mdelete.
  case_bool_decide; subst; [by rewrite lookup_delete_eq|].
  by rewrite lookup_delete_ne, to_gmap_lookup.
Qed.
End Abstraction.
#[export] Hint Rewrite @to_gmap_mset @to_gmap_mdelete : t560.
