(* ===== verification/JsValue.v ===== *)
(** * JavaScript values

    The [unknown] values the program receives (parsed JSON, tool arguments,
    transcript messages) and the coercions it applies to them.  Numbers are
    exact decimals: the rounding of IEEE doubles is not modelled. *)

From stdpp Require Import base list strings pretty.
From Stdlib Require Import ZArith Ascii Lia.
From S2P Require Import Prelude JsString JsMap.

(** ** Numbers *)

(** [NFin m k] is the number m / 10^k. *)
Inductive num : Type :=
| NNaN
| NInf (neg : bool)
| NFin (m : Z) (k : nat).

Definition NInt (z : Z) : num := NFin z 0.
Definition pow10 (k : nat) : Z := (10 ^ Z.of_nat k)%Z.

(** [Number.isFinite], [Number.isNaN], [Number.isInteger] on numbers. *)
Definition isFinite (n : num) : bool := match n with NFin _ _ => true | _ => false end.
Definition isNaN (n : num) : bool := match n with NNaN => true | _ => false end.
Definition isInteger (n : num) : bool :=
  match n with NFin m k => (m mod pow10 k =? 0)%Z | _ => false end.

(** [a < b]; comparisons with NaN are false. *)
Definition num_lt (a b : num) : bool :=
  match a, b with
  | NFin m k, NFin m' k' => (m * pow10 k' <? m' * pow10 k)%Z
  | NFin _ _, NInf neg => negb neg
  | NInf neg, NFin _ _ => neg
  | NInf neg, NInf neg' => neg && negb neg'
  | _, _ => false
  end.
(** [a === b] on numbers. *)
Definition num_eq (a b : num) : bool :=
  match a, b with
  | NFin m k, NFin m' k' => (m * pow10 k' =? m' * pow10 k)%Z
  | NInf neg, NInf neg' => Bool.eqb neg neg'
  | _, _ => false
  end.
(** [Math.max(a, b)], [Math.min(a, b)] and [a - b]. *)
Definition num_max (a b : num) : num :=
  if isNaN a || isNaN b then NNaN else if num_lt a b then b else a.
Definition num_min (a b : num) : num :=
  if isNaN a || isNaN b then NNaN else if num_lt b a then b else a.
Definition num_sub (a b : num) : num :=
  match a, b with
  | NFin m k, NFin m' k' => NFin (m * pow10 k' - m' * pow10 k) (k + k')
  | NFin _ _, NInf neg => NInf (negb neg)
  | NInf neg, NFin _ _ => NInf neg
  | NInf neg, NInf neg' => if Bool.eqb neg neg' then NNaN else NInf neg
  | _, _ => NNaN
  end.
(** [a + b] *)
Definition num_add (a b : num) : num :=
  match a, b with
  | NFin m k, NFin m' k' => NFin (m * pow10 k' + m' * pow10 k) (k + k')
  | NFin _ _, NInf neg => NInf neg
  | NInf neg, NFin _ _ => NInf neg
  | NInf neg, NInf neg' => if Bool.eqb neg neg' then NInf neg else NNaN
  | _, _ => NNaN
  end.
(** [a * b] *)
Definition num_mul (a b : num) : num :=
  match a, b with
  | NFin m k, NFin m' k' => NFin (m * m') (k + k')
  | NFin m _, NInf neg | NInf neg, NFin m _ => if (m =? 0)%Z then NNaN else NInf (xorb neg (m <? 0)%Z)
  | NInf neg, NInf neg' => NInf (xorb neg neg')
  | _, _ => NNaN
  end.
(** The position [Array.prototype.slice] takes for an argument, in an array of
    length [len]: truncated, negative positions count from the end. *)
Definition slice_index (n : num) (len : nat) : nat :=
  match n with
  | NNaN => 0
  | NInf neg => if neg then 0 else len
  | NFin m k =>
      let z := Z.quot m (pow10 k) in
      if (z <? 0)%Z then len - Z.to_nat (- z) else Nat.min (Z.to_nat z) len
  end.
(** [Math.floor] of a finite number. *)
Definition num_floor (n : num) : num :=
  match n with NFin m k => NInt (m / pow10 k) | n => n end.

(** [Math.floor(n / d)] for a positive integer [d], and [Math.round(n)]. *)
Definition num_floor_div (n : num) (d : Z) : num :=
  match n with NFin m k => NInt (m / (pow10 k * d)) | n => n end.
Definition num_round (n : num) : num := num_floor (num_add n (NFin 5 1)).

(** [String(n)] for the magnitudes JavaScript prints without an exponent. *)
Fixpoint pad_zeros (n : nat) (s : string) : string :=
  match n with 0 => s | S n' => String "0" (pad_zeros n' s) end.
Fixpoint strip_zeros (fuel : nat) (m : Z) (k : nat) : Z * nat :=
  match fuel, k with
  | S f, S k' => if (m mod 10 =? 0)%Z then strip_zeros f (m / 10)%Z k' else (m, k)
  | _, _ => (m, k)
  end.
Definition num_to_string (n : num) : string :=
  match n with
  | NNaN => "NaN"
  | NInf false => "Infinity"
  | NInf true => "-Infinity"
  | NFin m k =>
      let '(m', k') := strip_zeros k m k in
      match k' with
      | 0 => pretty m'
      | _ => let a := Z.abs m' in
             let frac := pretty (a mod pow10 k')%Z in
             (if (m' <? 0)%Z then "-" else "") +:+ pretty (a / pow10 k')%Z +:+ "."
               +:+ pad_zeros (k' - slen frac) frac
      end
  end.

(** ** [Number(s)]: the StringNumericLiteral grammar *)

Definition digit_val (c : ascii) : Z := Z.of_nat (code c) - 48.
(** A non-empty run of decimal digits: its value, its length, the rest. *)
Fixpoint scan_digits (acc : Z) (n : nat) (l : list ascii) : Z * nat * list ascii :=
  match l with
  | c :: l' => if is_digit c then scan_digits (acc * 10 + digit_val c)%Z (S n) l' else (acc, n, l)
  | [] => (acc, n, l)
  end.
Definition scale (m : Z) (k : nat) (e : Z) : num :=
  if (e <=? Z.of_nat k)%Z then NFin m (Z.to_nat (Z.of_nat k - e)) else NFin (m * 10 ^ (e - Z.of_nat k)) 0.
Definition scan_exponent (l : list ascii) : option Z :=
  match l with
  | [] => Some 0%Z
  | c :: l' =>
      if bool_decide (c = "e"%char) || bool_decide (c = "E"%char) then
        let '(neg, ds) := match l' with
                          | "-"%char :: ds => (true, ds)
                          | "+"%char :: ds => (false, ds)
                          | ds => (false, ds)
                          end in
        match scan_digits 0 0 ds with
        | (e, S _, []) => Some (if neg : bool then (- e)%Z else e)
        | _ => None
        end
      else None
  end.
Definition scan_decimal (neg : bool) (l : list ascii) : num :=
  let signed (m : Z) := if neg then (- m)%Z else m in
  if bool_decide (l = chars "Infinity") then NInf neg
  else
    let '(i, ni, l1) := scan_digits 0 0 l in
    let '(m, nf, l2) := match l1 with
                        | "."%char :: l2 => scan_digits i 0 l2
                        | _ => (i, 0, l1)
                        end in
    if ((ni =? 0) && (nf =? 0))%nat then NNaN
    else match scan_exponent l2 with
         | Some e => scale (signed m) nf e
         | None => NNaN
         end.
Definition radix_digit (radix : Z) (c : ascii) : option Z :=
  let d := if is_digit c then Some (digit_val c)
           else if is_lower c then Some (Z.of_nat (code c) - 87)%Z
           else if is_upper c then Some (Z.of_nat (code c) - 55)%Z else None in
  match d with Some v => if (v <? radix)%Z then Some v else None | None => None end.
Fixpoint scan_radix (radix acc : Z) (l : list ascii) : option Z :=
  match l with
  | [] => Some acc
  | c :: l' => match radix_digit radix c with
               | Some d => scan_radix radix (acc * radix + d)%Z l'
               | None => None
               end
  end.
Definition radix_of (c : ascii) : option Z :=
  let c := lower_char c in
  if bool_decide (c = "x"%char) then Some 16%Z
  else if bool_decide (c = "o"%char) then Some 8%Z
  else if bool_decide (c = "b"%char) then Some 2%Z else None.
Definition num_of_string (s : string) : num :=
  match trim_list (chars s) with
  | [] => NInt 0
  | "-"%char :: l => scan_decimal true l
  | "+"%char :: l => scan_decimal false l
  | "0"%char :: c :: d :: l =>
      match radix_of c with
      | Some r => match scan_radix r 0 (d :: l) with Some z => NInt z | None => NNaN end
      | None => scan_decimal false ("0"%char :: c :: d :: l)
      end
  | l => scan_decimal false l
  end.

(** ** Values *)

Inductive value : Type :=
| VUndef
| VNull
| VBool (b : bool)
| VNum (n : num)
| VStr (s : string)
| VArr (l : list value)
| VObj (props : list (string * value)).

(** [v && typeof v === "object"] *)
Definition is_object (v : value) : bool :=
  match v with VArr _ | VObj _ => true | _ => false end.
Definition is_array (v : value) : bool := match v with VArr _ => true | _ => false end.
(** [Array.isArray(v) ? v : []] *)
Definition array_items (v : value) : list value := match v with VArr l => l | _ => [] end.

(** [Boolean(v)] *)
Definition to_bool (v : value) : bool :=
  match v with
  | VUndef | VNull => false
  | VBool b => b
  | VNum NNaN => false
  | VNum (NFin m _) => negb (m =? 0)%Z
  | VNum (NInf _) => true
  | VStr s => truthy s
  | VArr _ | VObj _ => true
  end.

(** [v.k] for a key that [Object.prototype] does not define. *)
Definition get_prop (k : string) (v : value) : value :=
  match v with VObj ps => default VUndef (mget k ps) | _ => VUndef end.
(** ["k" in v] *)
Definition has_prop (k : string) (v : value) : bool :=
  match v with VObj ps => mhas k ps | _ => false end.
(** [{...v, k: w}] *)
Definition with_prop (k : string) (w : value) (v : value) : value :=
  match v with VObj ps => VObj (mset k w ps) | v => v end.

(** [v ?? w] *)
Definition nullish (v w : value) : value :=
  match v with VUndef | VNull => w | v => v end.

(** [v === s] *)
Definition is_str (s : string) (v : value) : bool :=
  match v with VStr t => (t =? s)%string | _ => false end.

(** [String(v)] *)
Fixpoint to_string (v : value) : string :=
  match v with
  | VUndef => "undefined"
  | VNull => "null"
  | VBool true => "true"
  | VBool false => "false"
  | VNum n => num_to_string n
  | VStr s => s
  | VArr l =>
      join "," (map (fun w => match w with VUndef | VNull => "" | w => to_string w end) l)
  | VObj _ => "[object Object]"
  end.

(** [Number(v)] *)
Definition to_number (v : value) : num :=
  match v with
  | VUndef => NNaN
  | VNull => NInt 0
  | VBool b => NInt (if b then 1 else 0)
  | VNum n => n
  | VStr s => num_of_string s
  | VArr _ => num_of_string (to_string v)
  | VObj _ => NNaN
  end.

(** [JSON.parse(JSON.stringify(v))] on a number. *)
Definition json_num (n : num) : value := if isFinite n then VNum n else VNull.

(** ** JSON *)

(** [JSON.parse(JSON.stringify(v))] inside an array or an object: [undefined]
    array items and non-finite numbers become [null], properties holding
    [undefined] disappear. *)
Fixpoint json_image (v : value) : value :=
  match v with
  | VUndef => VNull
  | VNum n => if isFinite n then VNum n else VNull
  | VArr l => VArr (map json_image l)
  | VObj ps =>
      VObj ((fix props (ps : list (string * value)) : list (string * value) :=
               match ps with
               | [] => []
               | (_, VUndef) :: ps' => props ps'
               | (k, w) :: ps' => (k, json_image w) :: props ps'
               end) ps)
  | _ => v
  end.

(** The same for the value of a property: [undefined] stays, the property is
    left out of the text. *)
Definition json_field (v : value) : value := match v with VUndef => VUndef | v => json_image v end.
(** A value that is its own image: what [JSON.parse] returns, or [undefined]. *)
Definition json_stable (v : value) : Prop := json_field v = v.

(** ** Objects built from others *)

(** [Object.entries(v)] *)
Definition object_entries (v : value) : list (string * value) :=
  match v with
  | VObj ps => ps
  | VArr l => imap (fun i w => (num_to_string (NInt (Z.of_nat i)), w)) l
  | _ => []
  end.
(** [obj[k] = v] on an object literal: [__proto__] is a setter there and adds no
    property. *)
Definition assign {A} (k : string) (v : A) (obj : list (string * A)) : list (string * A) :=
  if (k =? "__proto__")%string then obj else mset k v obj.
(** [{...v, k1: w1, k2: w2}] *)
Definition spread (v : value) (fields : list (string * value)) : value :=
  VObj (fold_left (fun ps f => mset f.1 f.2 ps) fields (object_entries v)).

(** ** Property lookup on object literals

    [obj[key]] with a computed key also finds what [Object.prototype] defines;
    every inherited property is an object or a function, hence truthy. *)
Definition object_prototype_keys : list string :=
  ["constructor"; "__defineGetter__"; "__defineSetter__"; "hasOwnProperty";
   "__lookupGetter__"; "__lookupSetter__"; "isPrototypeOf"; "propertyIsEnumerable";
   "toString"; "valueOf"; "__proto__"; "toLocaleString"].

Inductive lookup_result (A : Type) : Type :=
| Own (a : A)
| Inherited
| Missing.
Arguments Own {A} a.
Arguments Inherited {A}.
Arguments Missing {A}.

Definition obj_lookup {A} (k : string) (obj : list (string * A)) : lookup_result A :=
  match mget k obj with
  | Some a => Own a
  | None => if bool_decide (k ∈ object_prototype_keys) then Inherited else Missing
  end.

(** ** Lemmas *)

Lemma is_str_true s v : is_str s v = true <-> v = VStr s.
Proof. destruct v; simpl; try (split; congruence). rewrite String.eqb_eq. naive_solver. Qed.

Lemma get_prop_with_prop_eq k w ps : get_prop k (with_prop k w (VObj ps)) = w.
Proof. simpl. by rewrite mget_mset_eq. Qed.
Lemma get_prop_with_prop_ne k k' w v :
  k <> k' -> get_prop k (with_prop k' w v) = get_prop k v.
Proof. intros N. destruct v; simpl; try done. by rewrite mget_mset_ne. Qed.
Lemma has_prop_with_prop_ne k k' w v :
  k <> k' -> has_prop k (with_prop k' w v) = has_prop k v.
Proof. intros N. destruct v; simpl; try done. unfold mhas. by rewrite mget_mset_ne. Qed.
Lemma is_object_with_prop k w v : is_object (with_prop k w v) = is_object v.
Proof. by destruct v. Qed.
Lemma with_prop_same k v : has_prop k v = true -> with_prop k (get_prop k v) v = v.
Proof.
  destruct v; simpl; try done. rewrite mhas_true. intros [w E]. f_equal. rewrite E. simpl.
  clear - E. induction props as [|[j u] ps IH]; simpl in *; [done|].
  case_bool_decide; [by simplify_eq|]. f_equal. auto.
Qed.
Lemma has_prop_get k v w : get_prop k v = w -> w <> VUndef -> has_prop k v = true.
Proof. destruct v; simpl; intros <-; try done. unfold mhas. by destruct (mget k props). Qed.
#[export] Hint Rewrite get_prop_with_prop_eq is_object_with_prop : t560.

(** *** Comparisons *)

Lemma num_max_int a b : num_max (NInt a) (NInt b) = NInt (Z.max a b).
Proof. unfold num_max. cbn. change (pow10 0) with 1%Z. destruct (Z.ltb_spec (a * 1) (b * 1)); f_equal; lia. Qed.
Lemma num_min_int a b : num_min (NInt a) (NInt b) = NInt (Z.min a b).
Proof. unfold num_min. cbn. change (pow10 0) with 1%Z. destruct (Z.ltb_spec (b * 1) (a * 1)); f_equal; lia. Qed.
Lemma num_lt_int a b : num_lt (NInt a) (NInt b) = (a <? b)%Z.
Proof. cbn. change (pow10 0) with 1%Z. by rewrite !Z.mul_1_r. Qed.
Lemma num_lt_irrefl n : num_lt n n = false.
Proof. destruct n as [|[]|m k]; cbn; try done. apply Z.ltb_irrefl. Qed.
Lemma num_lt_asym a b : num_lt a b = true -> num_lt b a = false.
Proof. destruct a as [|[]|m k], b as [|[]|m' k']; cbn; try done. rewrite Z.ltb_lt, Z.ltb_ge. lia. Qed.

(** Evaluates lookups of literal keys in literal objects: the comparisons of
    keys are computed, nothing else is unfolded. *)
Ltac lookups :=
  unfold has_prop, mhas;
  repeat progress (
    cbn [get_prop mget];
    repeat (match goal with
            | |- context [@bool_decide (@eq string ?a ?b) ?d] =>
                let r := eval vm_compute in (@bool_decide (@eq string a b) d) in
                change (@bool_decide (@eq string a b) d) with r
            end; cbv iota);
    cbn [default from_option id]).

(** *** Decimal printing *)

Lemma pretty_N_go_digits n acc :
  forallb is_digit (chars acc) = true -> forallb is_digit (chars (pretty_N_go n acc)) = true.
Proof.
  revert acc. induction (N.lt_wf_0 n) as [n _ IH]; intros acc H.
  destruct (decide (n = 0)%N) as [->|N0]; [by rewrite pretty_N_go_0|].
  rewrite pretty_N_go_step by lia. apply IH; [apply N.div_lt; lia|].
  change (chars (String ?c acc)) with (c :: chars acc). cbn [forallb]. rewrite H, andb_true_r.
  unfold pretty_N_char. by repeat case_match.
Qed.
Lemma pretty_N_digits (n : N) : forallb is_digit (chars (pretty n)) = true.
Proof.
  unfold pretty, pretty_N. case_decide; [done|]. by apply pretty_N_go_digits.
Qed.
Lemma pretty_nat_digits (n : nat) : forallb is_digit (chars (pretty n)) = true.
Proof. apply pretty_N_digits. Qed.
Lemma pretty_Z_digits (z : Z) : (0 <= z)%Z -> forallb is_digit (chars (pretty z)) = true.
Proof. destruct z; intros H; [done|apply pretty_N_digits|lia]. Qed.

Lemma pretty_N_go_length k n acc :
  (n < 10 ^ N.of_nat k)%N -> slen (pretty_N_go n acc) <= k + slen acc.
Proof.
  revert n acc. induction k as [|k IH]; intros n acc H.
  { assert (n = 0%N) as -> by (simpl in H; lia). by rewrite pretty_N_go_0. }
  destruct (decide (n = 0)%N) as [->|N0]; [rewrite pretty_N_go_0; lia|].
  rewrite pretty_N_go_step by lia. etrans; [apply IH|unfold slen, chars; simpl; lia].
  apply N.Div0.div_lt_upper_bound. rewrite Nat2N.inj_succ, N.pow_succ_r' in H. lia.
Qed.
Lemma pretty_Z_length k (z : Z) :
  (0 <= z < 10 ^ Z.of_nat k)%Z -> 0 < k -> slen (pretty z) <= k.
Proof.
  intros H K. destruct z as [|p|p]; [simpl; unfold slen, chars; simpl; lia| |lia].
  unfold pretty, pretty_Z, pretty, pretty_positive, pretty, pretty_N. case_decide; [done|].
  pose proof (pretty_N_go_length k (N.pos p) "") as L.
  replace (k + slen "") with k in L by (unfold slen; simpl; lia). apply L.
  apply N2Z.inj_lt. rewrite N2Z.inj_pow, nat_N_Z. simpl. lia.
Qed.
Lemma pretty_nat_length k (n : nat) : n < 10 ^ k -> 0 < k -> slen (pretty n) <= k.
Proof.
  intros H K. unfold pretty, pretty_nat, pretty, pretty_N. case_decide; [unfold slen, chars; simpl; lia|].
  pose proof (pretty_N_go_length k (N.of_nat n) "") as L.
  replace (k + slen "") with k in L by (unfold slen; simpl; lia). apply L.
  replace 10%N with (N.of_nat 10) by done. rewrite <- Nat2N.inj_pow. lia.
Qed.

(** A key that is not an index finds in the entries what it finds in the value. *)
Lemma object_entries_prop k v :
  forallb is_digit (chars k) = false -> default VUndef (mget k (object_entries v)) = get_prop k v.
Proof.
  intros D. destruct v as [| | | | |l|ps]; try done. cbn [object_entries get_prop].
  assert (mget k (imap (fun i w => (num_to_string (NInt (Z.of_nat i)), w)) l) = None) as ->; [|done].
  apply mget_None_keys. unfold keys. intros ([j w] & -> & E)%list_elem_of_fmap. simpl in D.
  apply elem_of_lookup_imap in E as (i & x & [= -> ->] & _).
  change (num_to_string (NInt (Z.of_nat i))) with (pretty (Z.of_nat i)) in D.
  by rewrite pretty_Z_digits in D by lia.
Qed.

(** *** JSON images *)

Fixpoint json_props (ps : list (string * value)) : list (string * value) :=
  match ps with
  | [] => []
  | (_, VUndef) :: ps' => json_props ps'
  | (k, w) :: ps' => (k, json_image w) :: json_props ps'
  end.
Lemma undef_dec (v : value) : {v = VUndef} + {v <> VUndef}.
Proof. by destruct v; [left|right..]. Qed.
Lemma json_image_obj ps : json_image (VObj ps) = VObj (json_props ps).
Proof. reflexivity. Qed.
Lemma json_image_arr l : json_image (VArr l) = VArr (map json_image l).
Proof. reflexivity. Qed.
Lemma json_props_keys k ps : k ∈ keys (json_props ps) -> k ∈ keys ps.
Proof. induction ps as [|[j w] ps IH]; [done|]. destruct w; simpl; rewrite ?elem_of_cons; naive_solver. Qed.

Lemma json_props_get k ps :
  NoDup (keys ps) -> default VUndef (mget k (json_props ps)) = json_field (default VUndef (mget k ps)).
Proof.
  induction ps as [|[j w] ps IH]; intros N; [done|]. apply NoDup_cons in N as [Nj N]. simpl in Nj.
  destruct (undef_dec w) as [->|D].
  - cbn [json_props mget]. case_bool_decide; [subst|by apply IH].
    assert (mget j (json_props ps) = None) as ->; [|done].
    apply mget_None_keys. intros K. by apply Nj, json_props_keys.
  - replace (json_props ((j, w) :: ps)) with ((j, json_image w) :: json_props ps) by (by destruct w).
    cbn [mget]. case_bool_decide; [|by apply IH]. cbn. by destruct w.
Qed.

(** A property of the image is the image of the property. *)
Lemma json_get k ps :
  NoDup (keys ps) -> get_prop k (json_image (VObj ps)) = json_field (default VUndef (mget k ps)).
Proof. apply json_props_get. Qed.

Lemma json_stable_props k ps : json_stable (VObj ps) -> (forall w, (k, w) ∈ ps -> json_stable w /\ w <> VUndef).
Proof.
  unfold json_stable. cbn [json_field]. rewrite json_image_obj. intros [= E]. revert E.
  assert (forall qs, length (json_props qs) <= length qs) as L.
  { induction qs as [|[j w] qs IH]; [done|]. destruct w; simpl; lia. }
  induction ps as [|[j w] ps IH]; intros E v; [by intros ?%not_elem_of_nil|].
  destruct (undef_dec w) as [->|D].
  - simpl in E. specialize (L ps). rewrite E in L. simpl in L. lia.
  - replace (json_props ((j, w) :: ps)) with ((j, json_image w) :: json_props ps) in E by (by destruct w).
    injection E as E1 E2. rewrite elem_of_cons. intros [[= -> ->]|H]; [|by apply IH].
    split; [|done]. by destruct w.
Qed.
Lemma json_stable_get k v : json_stable v -> json_stable (get_prop k v).
Proof.
  intros S. destruct v as [| | | | | |ps]; try done. cbn [get_prop]. destruct (mget k ps) as [w|] eqn:G; [|done].
  eapply json_stable_props; [done|]. by apply list_elem_of_In, mget_In.
Qed.
Lemma json_stable_arr l : json_stable (VArr l) -> Forall (fun w => json_image w = w) l.
Proof.
  unfold json_stable. cbn [json_field]. rewrite json_image_arr. intros [= E]. induction l as [|x l IH]; [done|].
  injection E as E1 E2. constructor; auto.
Qed.
Lemma json_image_stable v : json_image v = v -> json_stable v.
Proof. by destruct v. Qed.
Lemma json_stable_entries v : json_stable v -> Forall (fun e => json_stable e.2 /\ e.2 <> VUndef) (object_entries v).
Proof.
  intros S. apply Forall_forall. intros [k w] E. destruct v as [| | | | |l|ps]; try by apply not_elem_of_nil in E.
  - cbn [object_entries] in E. apply elem_of_lookup_imap in E as (i & x & [= -> ->] & E). cbn [snd].
    pose proof (json_stable_arr l S) as F. rewrite Forall_forall in F. specialize (F x).
    assert (json_image x = x) as I by (apply F; by eapply list_elem_of_lookup_2).
    split; [by apply json_image_stable|]. intros ->. done.
  - by apply (json_stable_props k ps).
Qed.

(** Induction through the lists of a value. *)
Fixpoint value_rect' (P : value -> Prop)
    (U : P VUndef) (N : P VNull) (B : forall b, P (VBool b)) (D : forall n, P (VNum n)) (S : forall s, P (VStr s))
    (A : forall l, Forall P l -> P (VArr l)) (O : forall ps, Forall (fun p => P (snd p)) ps -> P (VObj ps))
    (v : value) : P v :=
  match v with
  | VUndef => U
  | VNull => N
  | VBool b => B b
  | VNum n => D n
  | VStr s => S s
  | VArr l => A l ((fix go (l : list value) : Forall P l :=
      match l with
      | [] => @List.Forall_nil _ _
      | x :: l' => @List.Forall_cons _ _ x l' (value_rect' P U N B D S A O x) (go l')
      end) l)
  | VObj ps => O ps ((fix go (l : list (string * value)) : Forall (fun p => P (snd p)) l :=
      match l with
      | [] => @List.Forall_nil _ _
      | x :: l' => @List.Forall_cons _ _ x l' (value_rect' P U N B D S A O (snd x)) (go l')
      end) ps)
  end.

Example num_of_string_examples :
  map num_of_string ["42"; " 1.50 "; "-3e2"; ""; "x"; "0x1F"; "1e-2"; "Infinity"] =
  [NInt 42; NFin 150 2; NFin (-300) 0; NInt 0; NNaN; NInt 31; NFin 1 2; NInf false].
Proof. vm_compute. reflexivity. Qed.
Example num_to_string_examples :
  map num_to_string [NInt 42; NFin 150 2; NFin (-5) 2; NFin 1200 2; NInf true] =
  ["42"; "1.5"; "-0.05"; "12"; "-Infinity"].
Proof. vm_compute. reflexivity. Qed.
