(* ===== verification/Json.v ===== *)
(** * JSON texts

    [JSON.stringify] without indentation and [JSON.parse], on texts of Latin-1
    characters.  Escapes beyond Latin-1 are outside the model ([JSON_parse]
    fails on them).  [parse_stringify] is the round trip: what was printed is
    read back as the JSON image of the value, its numbers in lowest terms. *)

From stdpp Require Import base list strings pretty.
From Stdlib Require Import ZArith Ascii Lia.
From S2P Require Import Prelude JsString JsMap JsValue.

(** ** Printing *)

Definition chr (n : nat) : ascii := ascii_of_nat n.
Definition hex_digit (n : nat) : ascii := chr (if (n <? 10)%nat then 48 + n else 87 + n).
Definition escape_char (c : ascii) : list ascii :=
  match code c with
  | 34 => [chr 92; chr 34]
  | 92 => [chr 92; chr 92]
  | 8 => [chr 92; "b"%char]
  | 9 => [chr 92; "t"%char]
  | 10 => [chr 92; "n"%char]
  | 12 => [chr 92; "f"%char]
  | 13 => [chr 92; "r"%char]
  | n => if (n <? 32)%nat
         then [chr 92; "u"%char; "0"%char; "0"%char; hex_digit (n / 16); hex_digit (n mod 16)]
         else [c]
  end.
Definition quote (s : string) : list ascii := chr 34 :: flat_map escape_char (chars s) ++ [chr 34].
Definition is_undef (v : value) : bool := match v with VUndef => true | _ => false end.

Fixpoint intercalate (sep : ascii) (l : list (list ascii)) : list ascii :=
  match l with
  | [] => []
  | [x] => x
  | x :: l' => x ++ sep :: intercalate sep l'
  end.

(** The text of a value inside an array; a property that holds [undefined] is
    left out. *)
Fixpoint print (v : value) : list ascii :=
  match v with
  | VUndef | VNull => chars "null"
  | VBool b => chars (if b then "true" else "false")
  | VNum n => if isFinite n then chars (num_to_string n) else chars "null"
  | VStr s => quote s
  | VArr l => "["%char :: intercalate "," (map print l) ++ ["]"%char]
  | VObj ps =>
      "{"%char ::
      intercalate "," (flat_map (fun p => if is_undef (snd p) then []
                                          else [quote (fst p) ++ ":"%char :: print (snd p)]) ps) ++ ["}"%char]
  end.
(** [JSON.stringify(v)] for a value that is not [undefined] *)
Definition JSON_stringify (v : value) : string := of_chars (print v).

(** ** Parsing *)

Definition json_ws (c : ascii) : bool := bool_decide (code c ∈ [32; 9; 10; 13]).
Definition skip_ws (l : list ascii) : list ascii := drop_while json_ws l.

Definition hex_val (c : ascii) : option nat := option_map Z.to_nat (radix_digit 16 c).
(** The character of [\uXXXX], when it is in Latin-1. *)
Definition unicode (a b c d : ascii) : option ascii :=
  match hex_val a, hex_val b, hex_val c, hex_val d with
  | Some 0, Some 0, Some h, Some l => Some (chr (16 * h + l))
  | _, _, _, _ => None
  end.
Definition unescape (c : ascii) : option ascii :=
  match code c with
  | 34 => Some (chr 34)
  | 92 => Some (chr 92)
  | 47 => Some (chr 47)
  | 98 => Some (chr 8)
  | 102 => Some (chr 12)
  | 110 => Some (chr 10)
  | 114 => Some (chr 13)
  | 116 => Some (chr 9)
  | _ => None
  end.
(** A string after its opening quote: its characters and the rest. *)
Fixpoint parse_chars (l : list ascii) : option (list ascii * list ascii) :=
  match l with
  | [] => None
  | c :: l1 =>
      if (code c =? 34)%nat then Some ([], l1)
      else if (code c <? 32)%nat then None
      else if (code c =? 92)%nat then
        match l1 with
        | [] => None
        | e :: l2 =>
            if (code e =? 117)%nat then
              match l2 with
              | a :: b :: x :: y :: l3 =>
                  match unicode a b x y with
                  | Some d => option_map (fun r => (d :: r.1, r.2)) (parse_chars l3)
                  | None => None
                  end
              | _ => None
              end
            else match unescape e with
                 | Some d => option_map (fun r => (d :: r.1, r.2)) (parse_chars l2)
                 | None => None
                 end
        end
      else option_map (fun r => (c :: r.1, r.2)) (parse_chars l1)
  end.

(** The exponent of a number and the rest. *)
Definition parse_exponent (l : list ascii) : option (Z * list ascii) :=
  match l with
  | c :: l' =>
      if bool_decide (c = "e"%char) || bool_decide (c = "E"%char) then
        let '(neg, ds) := match l' with
                          | "-"%char :: ds => (true, ds)
                          | "+"%char :: ds => (false, ds)
                          | ds => (false, ds)
                          end in
        match scan_digits 0 0 ds with
        | (_, 0, _) => None
        | (e, _, rest) => Some (if neg : bool then (- e)%Z else e, rest)
        end
      else Some (0%Z, l)
  | [] => Some (0%Z, l)
  end.
(** A number after its sign. *)
Definition parse_magnitude (neg : bool) (l : list ascii) : option (value * list ascii) :=
  let '(i, ni, l1) := scan_digits 0 0 l in
  if (ni =? 0)%nat || ((1 <? ni)%nat && match l with "0"%char :: _ => true | _ => false end) then None
  else
    match (match l1 with
           | "."%char :: l2 => match scan_digits i 0 l2 with (_, 0, _) => None | r => Some r end
           | _ => Some (i, 0, l1)
           end) with
    | Some (m, nf, l3) =>
        match parse_exponent l3 with
        | Some (e, rest) => Some (VNum (scale (if neg then (- m)%Z else m) nf e), rest)
        | None => None
        end
    | None => None
    end.
Definition parse_number (l : list ascii) : option (value * list ascii) :=
  match l with
  | "-"%char :: l' => parse_magnitude true l'
  | _ => parse_magnitude false l
  end.

Definition parse_word (w : string) (v : value) (l : list ascii) : option (value * list ascii) :=
  if list_prefix (chars w) l then Some (v, skipn (slen w) l) else None.

(** The fuel is the number of nested calls; the length of the text is enough. *)
Fixpoint parse_value (n : nat) (l : list ascii) {struct n} : option (value * list ascii) :=
  match n with
  | 0 => None
  | S n =>
      match skip_ws l with
      | [] => None
      | c :: l1 =>
          if bool_decide (c = "{"%char) then
            match skip_ws l1 with
            | "}"%char :: l2 => Some (VObj [], l2)
            | l2 => parse_members n [] l2
            end
          else if bool_decide (c = "["%char) then
            match skip_ws l1 with
            | "]"%char :: l2 => Some (VArr [], l2)
            | l2 => parse_items n [] l2
            end
          else if (code c =? 34)%nat then option_map (fun r => (VStr (of_chars r.1), r.2)) (parse_chars l1)
          else if bool_decide (c = "t"%char) then parse_word "true" (VBool true) (c :: l1)
          else if bool_decide (c = "f"%char) then parse_word "false" (VBool false) (c :: l1)
          else if bool_decide (c = "n"%char) then parse_word "null" VNull (c :: l1)
          else parse_number (c :: l1)
      end
  end
with parse_items (n : nat) (acc : list value) (l : list ascii) {struct n} : option (value * list ascii) :=
  match n with
  | 0 => None
  | S n =>
      match parse_value n l with
      | Some (v, l1) =>
          match skip_ws l1 with
          | ","%char :: l2 => parse_items n (acc ++ [v]) l2
          | "]"%char :: l2 => Some (VArr (acc ++ [v]), l2)
          | _ => None
          end
      | None => None
      end
  end
with parse_members (n : nat) (acc : list (string * value)) (l : list ascii) {struct n} : option (value * list ascii) :=
  match n with
  | 0 => None
  | S n =>
      match skip_ws l with
      | c :: l1 =>
          if (code c =? 34)%nat then
            match parse_chars l1 with
            | Some (k, l2) =>
                match skip_ws l2 with
                | ":"%char :: l3 =>
                    match parse_value n l3 with
                    | Some (v, l4) =>
                        let acc := mset (of_chars k) v acc in
                        match skip_ws l4 with
                        | ","%char :: l5 => parse_members n acc l5
                        | "}"%char :: l5 => Some (VObj acc, l5)
                        | _ => None
                        end
                    | None => None
                    end
                | _ => None
                end
            | None => None
            end
          else None
      | [] => None
      end
  end.
(** [JSON.parse(s)], [None] when it throws *)
Definition JSON_parse (s : string) : option value :=
  match parse_value (S (slen s)) (chars s) with
  | Some (v, rest) => match skip_ws rest with [] => Some v | _ => None end
  | None => None
  end.

Example JSON_stringify_example :
  JSON_stringify (VObj [("a", VArr [VNum (NFin (-150) 2); VUndef]); ("b", VUndef); ("c", VStr ("x" +:+ of_chars [chr 10; chr 1]))])
  = "{" +:+ of_chars [chr 34] +:+ "a" +:+ of_chars [chr 34] +:+ ":[-1.5,null]," +:+ of_chars [chr 34] +:+ "c" +:+
    of_chars [chr 34] +:+ ":" +:+ of_chars [chr 34] +:+ "x\n\u0001" +:+ of_chars [chr 34] +:+ "}".
Proof. vm_compute. reflexivity. Qed.
Example JSON_parse_examples :
  map JSON_parse [" [1, 2.50 ,-3e1] "; "{}"; "01"; "[1,]"; "nullx"; "true"; ""] =
  [Some (VArr [VNum (NInt 1); VNum (NFin 250 2); VNum (NFin (-30) 0)]); Some (VObj []); None; None; None;
   Some (VBool true); None].
Proof. vm_compute. reflexivity. Qed.

(** ** Numbers read back *)

(** A number in lowest terms: the decimals it prints. *)
Definition num_norm (n : num) : num :=
  match n with NFin m k => let '(m', k') := strip_zeros k m k in NFin m' k' | n => n end.

Definition digits (l : list ascii) (a : Z) : Z := fold_left (fun a c => a * 10 + digit_val c)%Z l a.
(** The end of a number in a printed text. *)
Definition closes (rest : list ascii) : Prop :=
  match rest with [] => True | c :: _ => c = ","%char \/ c = "]"%char \/ c = "}"%char \/ c = "010"%char end.

Lemma scan_digits_app ds rest a n :
  forallb is_digit ds = true -> match rest with c :: _ => is_digit c = false | [] => True end ->
  scan_digits a n (ds ++ rest) = (digits ds a, n + length ds, rest).
Proof.
  intros D R. revert a n. induction ds as [|c ds IH]; intros a n; cbn [app].
  - rewrite Nat.add_0_r. destruct rest as [|c rest]; [done|]. simpl. by rewrite R.
  - apply andb_true_iff in D as [Dc D]. cbn [scan_digits]. rewrite Dc, IH by done. cbn [length]. by rewrite Nat.add_succ_r.
Qed.
Lemma digits_shift l a : digits l a = (a * pow10 (length l) + digits l 0)%Z.
Proof.
  unfold digits. revert a. induction l as [|c l IH]; intros a; cbn [fold_left length]; [unfold pow10; simpl; lia|].
  rewrite IH, (IH (0 * 10 + _)%Z). unfold pow10. rewrite Nat2Z.inj_succ, Z.pow_succ_r by lia. lia.
Qed.
Lemma digits_app l l' a : digits (l ++ l') a = digits l' (digits l a).
Proof. apply fold_left_app. Qed.
Lemma digit_of_char n : (n < 10)%N -> digit_val (pretty_N_char n) = Z.of_N n.
Proof. intros H. destruct n as [|p]; [done|]. do 4 (destruct p as [p|p|]; try done; try lia). Qed.
Lemma digits_go n s : digits (chars (pretty_N_go n s)) 0 = digits (chars s) (Z.of_N n).
Proof.
  revert s. induction (N.lt_wf_0 n) as [n _ IH]; intros s.
  destruct (decide (n = 0)%N) as [->|N0]; [by rewrite pretty_N_go_0|].
  rewrite pretty_N_go_step by lia. rewrite IH by (apply N.div_lt; lia).
  change (chars (String ?c s)) with (c :: chars s). unfold digits at 1. cbn [fold_left]. fold (digits (chars s)).
  rewrite digit_of_char by (apply N.mod_lt; done). f_equal. pose proof (N.Div0.div_mod n 10). lia.
Qed.
Lemma head_go n s : (0 < n)%N -> exists c l, chars (pretty_N_go n s) = c :: l /\ c <> "0"%char.
Proof.
  revert s. induction (N.lt_wf_0 n) as [n _ IH]; intros s P. rewrite pretty_N_go_step by lia.
  destruct (decide (n / 10 = 0)%N) as [E|E].
  - rewrite E, pretty_N_go_0. eexists _, _. split; [done|]. intros H.
    assert (digit_val (pretty_N_char (n mod 10)) = 0%Z) as D by (by rewrite H).
    rewrite digit_of_char in D by (apply N.mod_lt; done). pose proof (N.Div0.div_mod n 10). lia.
  - apply IH; [apply N.div_lt; lia|by apply N.neq_0_lt_0].
Qed.

(** A natural number prints as digits without a leading zero. *)
Lemma pretty_Z_spec z :
  (0 <= z)%Z ->
  forallb is_digit (chars (pretty z)) = true /\ digits (chars (pretty z)) 0 = z /\ chars (pretty z) <> [] /\
  (chars (pretty z) = ["0"%char] \/ head (chars (pretty z)) <> Some "0"%char).
Proof.
  intros P. split; [by apply pretty_Z_digits|]. destruct z as [|p|p]; [by auto| |lia].
  change (pretty (Z.pos p)) with (pretty_N (N.pos p)). unfold pretty_N. case_decide; [done|].
  destruct (head_go (N.pos p) "") as (c & l & E & C); [lia|]. rewrite digits_go, E. split; [done|]. split; [done|].
  right. simpl. congruence.
Qed.
Lemma pad_chars n s : chars (pad_zeros n s) = replicate n "0"%char ++ chars s.
Proof. induction n as [|n IH]; [done|]. change (chars (pad_zeros (S n) s)) with ("0"%char :: chars (pad_zeros n s)). by rewrite IH. Qed.
Lemma pad_spec n s :
  forallb is_digit (chars s) = true ->
  forallb is_digit (chars (pad_zeros n s)) = true /\ digits (chars (pad_zeros n s)) 0 = digits (chars s) 0.
Proof.
  intros D. rewrite pad_chars. induction n as [|n [IH1 IH2]]; [done|]. split; [done|]. by rewrite <- IH2.
Qed.

Lemma parse_magnitude_ok neg z f fs rest :
  (0 <= z)%Z -> forallb is_digit fs = true -> closes rest -> f = (if decide (fs = []) then [] else "."%char :: fs) ->
  parse_magnitude neg (chars (pretty z) ++ f ++ rest) =
  Some (VNum (NFin (if neg then - digits fs z else digits fs z)%Z (length fs)), rest).
Proof.
  intros P D C ->. destruct (pretty_Z_spec z P) as (D1 & V1 & N1 & H1). unfold parse_magnitude.
  assert (forall m k r, scan_digits m k (fs ++ rest) = r -> r = (digits fs m, k + length fs, rest)) as F.
  { intros m k r <-. apply scan_digits_app; [done|]. destruct rest as [|c rest]; [done|]. by destruct C as [->|[->|[->| ->] ] ]. }
  assert (parse_exponent rest = Some (0%Z, rest)) as X.
  { destruct rest as [|c rest]; [done|]. by destruct C as [->|[->|[->| ->] ] ]. }
  rewrite scan_digits_app, V1; [|done|].
  2: { destruct (decide _) as [->|N]; [|done]. destruct rest as [|c rest]; [done|]. by destruct C as [->|[->|[->| ->] ] ]. }
  assert (0 + length (chars (pretty z)) =? 0 = false)%nat as -> by (destruct (chars (pretty z)); done).
  assert (1 <? 0 + length (chars (pretty z)) = true ->
          match chars (pretty z) ++ (if decide (fs = []) then [] else "."%char :: fs) ++ rest with
          | "0"%char :: _ => true | _ => false end = false)%nat as G.
  { intros L%Nat.ltb_lt. destruct H1 as [H1|H1]; [rewrite H1 in L; simpl in L; lia|].
    destruct (chars (pretty z)) as [|c l]; [done|]. simpl in H1 |- *. destruct c as [[] [] [] [] [] [] [] []]; done. }
  destruct (1 <? _)%nat; [rewrite G by done|]; cbn [orb andb]; clear G.
  all: destruct (decide (fs = [])) as [->|N]; cbn [app].
  1, 3: destruct rest as [|c rest]; [by rewrite X|destruct C as [->|[->|[->| ->] ] ]; rewrite X; by destruct neg].
  all: destruct (scan_digits z 0 (fs ++ rest)) as [[v k] r] eqn:E; apply F in E; injection E as -> -> ->;
    destruct fs as [|c fs]; [done|]; cbn [length Nat.add]; rewrite X; unfold scale;
    (destruct (Z.leb_spec 0 (Z.of_nat (S (length fs)))); [|lia]); rewrite Z.sub_0_r, Nat2Z.id; done.
Qed.

Lemma frac_length a k : (0 <= a)%Z -> 0 < k -> slen (pretty (a mod pow10 k)%Z) <= k.
Proof. intros A K. apply pretty_Z_length; [|done]. apply Z.mod_pos_bound. unfold pow10. lia. Qed.

(** A number prints as its sign, its whole part and the digits of its fraction. *)
Lemma num_chars m k : exists (neg : bool) z fs,
  chars (num_to_string (NFin m k)) =
    (if neg then ["-"%char] else []) ++ chars (pretty z) ++ (if decide (fs = []) then [] else "."%char :: fs) /\
  (0 <= z)%Z /\ forallb is_digit fs = true /\
  num_norm (NFin m k) = NFin (if neg then - digits fs z else digits fs z)%Z (length fs).
Proof.
  unfold num_norm, num_to_string. destruct (strip_zeros k m k) as [m' k']. destruct k' as [|k'].
  - exists (m' <? 0)%Z, (Z.abs m'), []. rewrite decide_True, app_nil_r by done. cbn [digits fold_left length].
    split; [|split; [lia|split; [done|f_equal; destruct (Z.ltb_spec m' 0); lia]]].
    destruct m' as [|p|p]; reflexivity.
  - set (a := Z.abs m'). set (fr := pretty (a mod pow10 (S k'))%Z). set (fs := chars (pad_zeros (S k' - slen fr) fr)).
    assert (0 <= a)%Z as A by lia. pose proof (frac_length a (S k') A ltac:(lia)) as L. fold fr in L.
    pose proof (Z.mod_pos_bound a (pow10 (S k')) ltac:(unfold pow10; lia)) as B.
    destruct (pretty_Z_spec (a mod pow10 (S k'))%Z ltac:(lia)) as (D & V & _). fold fr in D, V.
    destruct (pad_spec (S k' - slen fr) fr D) as [D' V']. fold fs in D', V'.
    assert (length fs = S k') as Lf. { unfold fs. rewrite pad_chars, length_app, length_replicate. unfold slen in *. lia. }
    exists (m' <? 0)%Z, (a / pow10 (S k'))%Z, fs. rewrite decide_False by (intros E; by rewrite E in Lf).
    split; [by rewrite !chars_app; destruct (m' <? 0)%Z|].
    split; [apply Z.div_pos; unfold pow10; lia|]. split; [done|].
    assert (digits fs (a / pow10 (S k')) = a) as ->.
    { rewrite digits_shift, Lf, V', V. pose proof (Z.div_mod a (pow10 (S k')) ltac:(unfold pow10; lia)). lia. }
    rewrite Lf. f_equal. unfold a. destruct (Z.ltb_spec m' 0); lia.
Qed.

Definition num_start (c : ascii) : bool := is_digit c || bool_decide (c = "-"%char).
Lemma parse_value_number n c l : num_start c = true -> parse_value (S n) (c :: l) = parse_number (c :: l).
Proof. destruct c as [[] [] [] [] [] [] [] []]; try done. Qed.
Lemma parse_number_digit c l : is_digit c = true -> parse_number (c :: l) = parse_magnitude false (c :: l).
Proof. destruct c as [[] [] [] [] [] [] [] []]; try done. Qed.

Lemma parse_num m k n rest :
  closes rest -> parse_value (S n) (chars (num_to_string (NFin m k)) ++ rest) = Some (VNum (num_norm (NFin m k)), rest).
Proof.
  intros C. destruct (num_chars m k) as (neg & z & fs & -> & Z0 & D & ->).
  destruct (pretty_Z_spec z Z0) as (Dz & _ & Nz & _). rewrite <- !app_assoc.
  pose proof (parse_magnitude_ok neg z _ fs rest Z0 D C eq_refl) as P.
  destruct neg; cbn [app].
  - rewrite parse_value_number by done. exact P.
  - destruct (chars (pretty z)) as [|c l]; [done|]. apply andb_true_iff in Dz as [Dc _]. cbn [app] in *.
    rewrite parse_value_number, parse_number_digit by (unfold num_start; by rewrite ?Dc). exact P.
Qed.

(** ** Strings and values read back *)

Lemma parse_escape c l : parse_chars (escape_char c ++ l) = option_map (fun r => (c :: r.1, r.2)) (parse_chars l).
Proof. destruct c as [[] [] [] [] [] [] [] []]; reflexivity. Qed.
Lemma parse_quoted s rest : parse_chars (flat_map escape_char s ++ chr 34 :: rest) = Some (s, rest).
Proof. induction s as [|c s IH]; [done|]. cbn [flat_map]. by rewrite <- app_assoc, parse_escape, IH. Qed.

(** [JSON.parse(JSON.stringify(v))] *)
Fixpoint json_norm (v : value) : value :=
  match v with
  | VUndef => VNull
  | VNum n => if isFinite n then VNum (num_norm n) else VNull
  | VArr l => VArr (map json_norm l)
  | VObj ps => VObj (flat_map (fun p => if is_undef (snd p) then [] else [(fst p, json_norm (snd p))]) ps)
  | v => v
  end.
(** Every object has a property once. *)
Fixpoint distinct (v : value) : Prop :=
  match v with
  | VArr l => fold_right (fun w P => distinct w /\ P) True l
  | VObj ps => NoDup (map fst ps) /\ fold_right (fun p P => distinct (snd p) /\ P) True ps
  | _ => True
  end.

Definition reads (v : value) : Prop := forall n rest,
  length (print v) <= n -> closes rest -> parse_value n (print v ++ rest) = Some (json_norm v, rest).

Lemma print_head v : exists c l, print v = c :: l /\ json_ws c = false /\ c <> "]"%char.
Proof.
  destruct v as [| |[]|[|[]|m k]|s|l|ps]; try (by eexists _, _). cbn [print isFinite].
  destruct (num_chars m k) as (neg & z & fs & -> & Z0 & D & _). destruct neg; [by eexists _, _|].
  destruct (pretty_Z_spec z Z0) as (Dz & _ & Nz & _). destruct (chars (pretty z)) as [|c l]; [done|]. cbn [app].
  eexists _, _. split; [done|]. apply andb_true_iff in Dz as [Dc _]. by destruct c as [[] [] [] [] [] [] [] []].
Qed.
Lemma skip_print v rest : skip_ws (print v ++ rest) = print v ++ rest.
Proof. destruct (print_head v) as (c & l & -> & W & _). by apply drop_while_id. Qed.

Lemma parse_items_ok l acc n rest :
  l <> [] -> Forall reads l -> length (intercalate "," (map print l)) < n ->
  parse_items n acc (intercalate "," (map print l) ++ "]"%char :: rest) = Some (VArr (acc ++ map json_norm l), rest).
Proof.
  intros N F. revert acc n N. induction F as [|v l Hv F IH]; intros acc n N L; [done|]. clear N.
  destruct n as [|n]; [lia|]. destruct l as [|w l].
  - cbn [map intercalate] in *. cbn [parse_items]. rewrite Hv; [done|lia|by right; left].
  - cbn [map intercalate] in *. rewrite length_app in L. cbn [length] in L. rewrite <- app_assoc. cbn [parse_items app].
    rewrite Hv; [|lia|by left]. change (skip_ws (","%char :: ?x)) with (","%char :: x).
    cbn iota. rewrite IH by (done || lia). by rewrite <- app_assoc.
Qed.

(** The properties of an object that are printed. *)
Definition printed (ps : list (string * value)) : list (string * value) :=
  List.filter (fun p => negb (is_undef (snd p))) ps.
Definition member (p : string * value) : list ascii := quote (fst p) ++ ":"%char :: print (snd p).
Lemma flat_map_printed {A} (f : string * value -> A) ps :
  flat_map (fun p => if is_undef (snd p) then [] else [f p]) ps = map f (printed ps).
Proof. unfold printed. induction ps as [|[k v] ps IH]; [done|]. cbn. destruct (is_undef v); cbn; by rewrite IH. Qed.

Lemma intercalate_length sep x l : l <> [] -> length (intercalate sep (x :: l)) = length x + S (length (intercalate sep l)).
Proof. destruct l as [|y l]; [done|]. intros _. cbn [intercalate]. by rewrite length_app. Qed.
Lemma member_length k v : length (member (k, v)) = S (S (S (length (flat_map escape_char (chars k)) + length (print v)))).
Proof. unfold member, quote. cbn [fst snd app length]. rewrite !length_app. cbn [length]. lia. Qed.
(** The text of the first member, taken apart. *)
Lemma member_step k v ps rest :
  intercalate "," (map member ((k, v) :: ps)) ++ rest =
  chr 34 :: flat_map escape_char (chars k) ++ chr 34 :: ":"%char :: print v ++
    (if decide (ps = []) then [] else ","%char :: intercalate "," (map member ps)) ++ rest.
Proof.
  destruct ps as [|p ps]; cbn [map intercalate]; unfold member at 1, quote; cbn [fst snd];
    [rewrite decide_True by done|rewrite decide_False by done]; cbn [app]; by rewrite <- !app_assoc; cbn [app]; rewrite <- ?app_assoc.
Qed.

Lemma parse_members_ok ps acc n rest :
  ps <> [] -> Forall (fun p => reads (snd p)) ps -> NoDup (keys acc ++ keys ps) ->
  length (intercalate "," (map member ps)) < n ->
  parse_members n acc (intercalate "," (map member ps) ++ "}"%char :: rest) =
  Some (VObj (acc ++ map (fun p => (fst p, json_norm (snd p))) ps), rest).
Proof.
  intros N F. revert acc n N. induction F as [|[k v] ps Hv F IH]; intros acc n N D L; [done|]. clear N.
  destruct n as [|n]; [lia|]. cbn [snd] in Hv. cbn [keys map fst] in D. fold (keys ps) in D.
  assert (mset k (json_norm v) acc = acc ++ [(k, json_norm v)]) as M.
  { apply mset_new. intros K. apply NoDup_app in D as (_ & D & _). apply (D k K). by left. }
  cbn [parse_members]. rewrite member_step. destruct (decide (ps = [])) as [->|Np]; cbn [app].
  - cbn [map intercalate] in L. rewrite member_length in L. change (skip_ws (chr 34 :: ?x)) with (chr 34 :: x). cbn iota.
    change (code (chr 34) =? 34)%nat with true. cbn iota. rewrite parse_quoted.
    change (skip_ws (":"%char :: ?x)) with (":"%char :: x). cbn iota. rewrite Hv; [|lia|by right; right; left].
    change (skip_ws ("}"%char :: ?x)) with ("}"%char :: x). cbn iota. by rewrite of_chars_chars, M.
  - cbn [map] in L. rewrite intercalate_length, member_length in L by (by destruct ps). change (skip_ws (chr 34 :: ?x)) with (chr 34 :: x). cbn iota.
    change (code (chr 34) =? 34)%nat with true. cbn iota. rewrite parse_quoted.
    change (skip_ws (":"%char :: ?x)) with (":"%char :: x). cbn iota. rewrite Hv; [|lia|by left].
    change (skip_ws (","%char :: ?x)) with (","%char :: x). cbn iota. rewrite of_chars_chars, M, IH; [by rewrite <- app_assoc|done| |lia].
    unfold keys in *. rewrite map_app. cbn [map fst]. by rewrite <- app_assoc.
Qed.

Lemma distinct_items l : fold_right (fun w P => distinct w /\ P) True l -> Forall distinct l.
Proof. induction l as [|v l IH]; [done|]. intros [V L]. constructor; auto. Qed.
Lemma distinct_props ps : fold_right (fun (p : string * value) P => distinct (snd p) /\ P) True ps -> Forall (fun p => distinct (snd p)) ps.
Proof. induction ps as [|v l IH]; [done|]. intros [V L]. constructor; auto. Qed.
Lemma printed_keys ps : sublist (keys (printed ps)) (keys ps).
Proof. unfold printed. induction ps as [|p ps IH]; [done|]. cbn. destruct (negb _); by constructor. Qed.
Lemma print_nonempty v n : length (print v) <= n -> exists n', n = S n'.
Proof. destruct (print_head v) as (c & l & -> & _). destruct n; simpl; [lia|eauto]. Qed.
(** The round trip, inside any text. *)
Lemma parse_print v : distinct v -> reads v.
Proof.
  induction v as [| |b|m|s|l IH|ps IH] using value_rect'; intros Dv n rest L C;
    destruct (print_nonempty _ _ L) as [n' ->]; try done.
  - by destruct b.
  - destruct m as [|[]|m k]; try done. by apply parse_num.
  - cbn [print quote app parse_value]. change (skip_ws (chr 34 :: ?x)) with (chr 34 :: x). cbn iota.
    change (bool_decide (chr 34 = _)) with false. cbn iota. change (code (chr 34) =? 34)%nat with true.
    cbn iota. rewrite <- app_assoc. cbn [app]. rewrite parse_quoted. cbn. by rewrite of_chars_chars.
  - apply distinct_items in Dv. assert (Forall reads l) as R.
    { clear -IH Dv. induction IH; inversion Dv; subst; constructor; auto. }
    destruct (decide (l = [])) as [->|N]; [done|]. cbn [print length] in L. rewrite length_app in L. simpl in L.
    cbn [print app parse_value]. change (skip_ws ("["%char :: ?x)) with ("["%char :: x). cbn iota.
    change (bool_decide ("["%char = "{"%char)) with false. change (bool_decide ("["%char = "["%char)) with true. cbn iota.
    rewrite <- app_assoc. cbn [app]. pose proof (parse_items_ok l [] n' rest N R ltac:(lia)) as P.
    destruct l as [|v l]; [done|].
    assert (exists c r, intercalate "," (map print (v :: l)) = c :: r /\ json_ws c = false /\ c <> "]"%char) as (c & r & E & W & Nc).
    { destruct (print_head v) as (c & r & E & H). destruct l; cbn [map intercalate]; rewrite E; eauto. }
    rewrite E in *. cbn [app] in *. unfold skip_ws. rewrite drop_while_id by done.
    destruct c as [[] [] [] [] [] [] [] []]; first [exact P | done].
  - destruct Dv as [Nd Dv]. apply distinct_props in Dv. assert (Forall (fun p => reads (snd p)) (printed ps)) as R.
    { eapply incl_Forall; [apply incl_filter|]. clear -IH Dv. induction IH; inversion Dv; subst; constructor; auto. }
    cbn [print json_norm] in *. rewrite flat_map_printed in *. fold member in *.
    rewrite (flat_map_printed (fun p => (fst p, json_norm (snd p)))).
    destruct (decide (printed ps = [])) as [->|N]; [done|]. cbn [length] in L. rewrite length_app in L. simpl in L.
    cbn [app parse_value]. change (skip_ws ("{"%char :: ?x)) with ("{"%char :: x). cbn iota.
    change (bool_decide ("{"%char = "{"%char)) with true. cbn iota.
    rewrite <- app_assoc. cbn [app]. assert (NoDup (keys (printed ps))) as K.
    { eapply sublist_NoDup; [exact Nd|]. apply printed_keys. }
    pose proof (parse_members_ok (printed ps) [] n' rest N R K ltac:(lia)) as P.
    destruct (printed ps) as [|p qs]; [done|].
    assert (exists r, intercalate "," (map member (p :: qs)) = chr 34 :: r) as (r & E) by (destruct qs; by eexists).
    rewrite E in *. cbn [app] in *. exact P.
Qed.

(** [JSON.parse(JSON.stringify(v))] gives the JSON image of [v]. *)
Lemma parse_stringify v : distinct v -> JSON_parse (JSON_stringify v) = Some (json_norm v).
Proof.
  intros D. unfold JSON_parse, JSON_stringify. rewrite slen_of_chars, chars_of_chars.
  pose proof (parse_print v D (S (length (print v))) [] ltac:(lia) I) as P. rewrite app_nil_r in P. by rewrite P.
Qed.

(** ** Lowest terms *)

Lemma strip_zeros_value f m k m' k' : strip_zeros f m k = (m', k') -> (m * pow10 k' = m' * pow10 k)%Z.
Proof.
  revert m k. induction f as [|f IH]; intros m k; cbn; [by intros [= <- <-]|].
  destruct k as [|k]; [by intros [= <- <-]|]. destruct (Z.eqb_spec (m mod 10) 0) as [E|E]; [|by intros [= <- <-]].
  intros H%IH. unfold pow10 in *. rewrite Nat2Z.inj_succ, Z.pow_succ_r by lia.
  pose proof (Z.div_mod m 10 ltac:(lia)). nia.
Qed.
Lemma strip_zeros_canonical f m k m' k' : k <= f -> strip_zeros f m k = (m', k') -> k' = 0 \/ (m' mod 10 <> 0)%Z.
Proof.
  revert m k. induction f as [|f IH]; intros m k L; cbn; [intros [= <- <-]; left; lia|].
  destruct k as [|k]; [intros [= <- <-]; by left|]. destruct (Z.eqb_spec (m mod 10) 0) as [E|E]; [|intros [= <- <-]; by right].
  apply IH. lia.
Qed.
Lemma canonical_unique m k m' k' :
  k = 0 \/ (m mod 10 <> 0)%Z -> k' = 0 \/ (m' mod 10 <> 0)%Z -> (m * pow10 k' = m' * pow10 k)%Z -> m = m' /\ k = k'.
Proof.
  assert (forall m (k : nat) m' k', k < k' -> k' = 0 \/ (m' mod 10 <> 0)%Z -> (m * pow10 k' = m' * pow10 k)%Z -> False) as A.
  { clear. intros m k m' k' L [->|C] E; [lia|]. apply C. unfold pow10 in E.
    replace (Z.of_nat k') with (Z.of_nat k + 1 + (Z.of_nat k' - Z.of_nat k - 1))%Z in E by lia.
    rewrite !Z.pow_add_r in E by lia. assert (0 < 10 ^ Z.of_nat k)%Z by lia.
    assert (m' = (m * 10 ^ (Z.of_nat k' - Z.of_nat k - 1)) * 10)%Z as -> by nia. apply Z.mod_mul. lia. }
  intros C C' E. destruct (Nat.lt_trichotomy k k') as [L|[->|L]]; [by edestruct A| |by edestruct A; eauto].
  split; [|done]. assert (0 < pow10 k')%Z by (unfold pow10; lia). nia.
Qed.

Lemma num_norm_finite n : isFinite (num_norm n) = isFinite n.
Proof. destruct n as [| |m k]; try done. cbn. by destruct (strip_zeros k m k). Qed.
Lemma num_norm_lt a b : num_lt (num_norm a) b = num_lt a b /\ num_lt b (num_norm a) = num_lt b a.
Proof.
  destruct a as [| |m k]; try done. cbn. destruct (strip_zeros k m k) as [m' k'] eqn:E. apply strip_zeros_value in E.
  destruct b as [| |p q]; try done. cbn. assert (0 < pow10 k /\ 0 < pow10 k' /\ 0 < pow10 q)%Z as (P1 & P2 & P3) by (unfold pow10; lia).
  split; apply Bool.eq_iff_eq_true; rewrite !Z.ltb_lt; split; intros H; nia.
Qed.
(** Numbers in lowest terms with the same value are the same. *)
Lemma num_norm_unique a b :
  isFinite a = true -> isFinite b = true -> num_lt a b = false -> num_lt b a = false -> num_norm a = num_norm b.
Proof.
  destruct a as [| |m k], b as [| |p q]; try done. intros _ _. cbn. rewrite !Z.ltb_ge. intros L L'.
  destruct (strip_zeros k m k) as [m' k'] eqn:E, (strip_zeros q p q) as [p' q'] eqn:F.
  pose proof (strip_zeros_canonical _ _ _ _ _ (le_n _) E) as C. pose proof (strip_zeros_canonical _ _ _ _ _ (le_n _) F) as C'.
  apply strip_zeros_value in E, F. destruct (canonical_unique m' k' p' q') as [-> ->]; [tauto|tauto| |done].
  assert (0 < pow10 k /\ 0 < pow10 k' /\ 0 < pow10 q /\ 0 < pow10 q')%Z as (P1 & P2 & P3 & P4) by (unfold pow10; lia).
  apply (Z.mul_reg_r _ _ (pow10 k * pow10 q)); [nia|].
  replace (m' * pow10 q' * (pow10 k * pow10 q))%Z with ((m' * pow10 k) * pow10 q * pow10 q')%Z by ring.
  replace (p' * pow10 k' * (pow10 k * pow10 q))%Z with ((p' * pow10 q) * pow10 k * pow10 k')%Z by ring.
  assert (m * pow10 q = p * pow10 k)%Z as V by lia. rewrite <- E, <- F.
  replace (m * pow10 k' * pow10 q * pow10 q')%Z with ((m * pow10 q) * pow10 k' * pow10 q')%Z by ring. rewrite V. ring.
Qed.
Lemma num_norm_idem n : num_norm (num_norm n) = num_norm n.
Proof.
  destruct n as [| |m k]; try done. apply num_norm_unique; rewrite ?num_norm_finite; try done.
  - by rewrite (proj1 (num_norm_lt _ _)), num_lt_irrefl.
  - by rewrite (proj2 (num_norm_lt _ _)), num_lt_irrefl.
Qed.

(** ** A printed text is one line *)

Definition visible (c : ascii) : bool := (32 <=? code c)%nat.
Lemma escape_visible c : forallb visible (escape_char c) = true.
Proof. destruct c as [[] [] [] [] [] [] [] []]; reflexivity. Qed.
Lemma quote_visible s : forallb visible (quote s) = true.
Proof.
  unfold quote. cbn [forallb]. rewrite forallb_app. apply andb_true_iff. split; [done|]. apply andb_true_iff. split; [|done].
  induction (chars s) as [|c l IH]; [done|]. cbn [flat_map]. by rewrite forallb_app, escape_visible, IH.
Qed.
Lemma intercalate_visible l : Forall (fun x => forallb visible x = true) l -> forallb visible (intercalate "," l) = true.
Proof.
  induction 1 as [|x l Hx F IH]; [done|]. destruct l as [|y l]; [done|].
  change (intercalate "," (x :: y :: l)) with (x ++ ","%char :: intercalate "," (y :: l)). by rewrite forallb_app, Hx.
Qed.
Lemma digits_visible l : forallb is_digit l = true -> forallb visible l = true.
Proof.
  rewrite !forallb_forall. intros H c Hc. specialize (H c Hc). by destruct c as [[] [] [] [] [] [] [] []].
Qed.
Lemma print_visible v : forallb visible (print v) = true.
Proof.
  induction v as [| |b|n|s|l IH|ps IH] using value_rect'; try done.
  - by destruct b.
  - destruct n as [|[]|m k]; try done. cbn [print isFinite]. destruct (num_chars m k) as (neg & z & fs & -> & Z0 & D & _).
    destruct (pretty_Z_spec z Z0) as (Dz & _). rewrite !forallb_app, (digits_visible _ Dz).
    apply digits_visible in D. destruct neg, (decide (fs = [])); cbn; by rewrite ?D.
  - apply quote_visible.
  - cbn [print forallb]. rewrite forallb_app, intercalate_visible; [done|]. by apply Forall_map.
  - cbn [print forallb]. rewrite forallb_app, intercalate_visible; [done|].
    rewrite (flat_map_printed member). apply Forall_map. eapply incl_Forall; [apply incl_filter|].
    eapply Forall_impl; [exact IH|]. intros [k v] H. unfold member. cbn [fst snd] in *. rewrite forallb_app, quote_visible.
    cbn [forallb]. by rewrite H.
Qed.
Lemma print_obj_trim ps : trim (JSON_stringify (VObj ps)) = JSON_stringify (VObj ps).
Proof.
  unfold JSON_stringify. cbn [print]. set (b := intercalate "," _).
  replace (of_chars ("{"%char :: b ++ ["}"%char])) with ("{" +:+ of_chars b +:+ "}").
  - by apply trim_wrap.
  - change ("{"%char :: b ++ ["}"%char]) with (["{"%char] ++ b ++ ["}"%char]). by rewrite !of_chars_app.
Qed.
