(* ===== verification/JsonIndent.v ===== *)
(** * JSON texts with indentation

    [JSON.stringify(v, null, 2)], which the tool adapter gives the model, and its
    round trip through [JSON.parse]: the text is read back as the same value the
    text without indentation gives. *)

From stdpp Require Import base list strings pretty.
From Stdlib Require Import ZArith Ascii Lia.
From S2P Require Import Prelude JsString JsMap JsValue Json.

(** The line break before an element at depth [d]. *)
Definition gap (d : nat) : list ascii := chr 10 :: replicate (2 * d) " "%char.
(** The elements, each on a line. *)
Fixpoint lines (d : nat) (l : list (list ascii)) : list ascii :=
  match l with
  | [] => []
  | [x] => gap d ++ x
  | x :: l' => gap d ++ x ++ ","%char :: lines d l'
  end.
Definition enclosed (open close : ascii) (d : nat) (l : list (list ascii)) : list ascii :=
  match l with [] => [open; close] | _ => open :: lines (S d) l ++ gap d ++ [close] end.

Fixpoint print_at (d : nat) (v : value) : list ascii :=
  match v with
  | VArr l => enclosed "[" "]" d (map (print_at (S d)) l)
  | VObj ps =>
      enclosed "{" "}" d (flat_map (fun p => if is_undef (snd p) then []
                                             else [quote (fst p) ++ ":"%char :: " "%char :: print_at (S d) (snd p)]) ps)
  | v => print v
  end.
(** [JSON.stringify(v, null, 2)] for a value that is not [undefined] *)
Definition JSON_stringify2 (v : value) : string := of_chars (print_at 0 v).

Example JSON_stringify2_example :
  split_char (chr 10) (JSON_stringify2 (VObj [("a", VArr [VNum (NInt 1); VObj []]); ("b", VUndef)])) =
  ["{"; "  " +:+ of_chars (quote "a") +:+ ": ["; "    1,"; "    {}"; "  ]"; "}"].
Proof. vm_compute. reflexivity. Qed.

(** ** Reading it back *)

Lemma skip_gap d l : skip_ws (gap d ++ l) = skip_ws l.
Proof.
  unfold gap, skip_ws. cbn [app drop_while]. change (json_ws (chr 10)) with true. cbn iota.
  induction (2 * d) as [|k IH]; [done|]. cbn [replicate app drop_while]. change (json_ws " ") with true. exact IH.
Qed.
Lemma parse_gap d n l : parse_value n (gap d ++ l) = parse_value n l.
Proof. destruct n; [done|]. cbn [parse_value]. by rewrite skip_gap. Qed.
Lemma items_gap d n acc l : parse_items n acc (gap d ++ l) = parse_items n acc l.
Proof. destruct n; [done|]. cbn [parse_items]. by rewrite parse_gap. Qed.
Lemma members_gap d n acc l : parse_members n acc (gap d ++ l) = parse_members n acc l.
Proof. destruct n; [done|]. cbn [parse_members]. by rewrite skip_gap. Qed.
Lemma parse_space n l : parse_value n (" "%char :: l) = parse_value n l.
Proof. by destruct n. Qed.

Lemma print_at_head d v : exists c l, print_at d v = c :: l /\ json_ws c = false /\ c <> "]"%char.
Proof.
  destruct v as [| |b|n|s|l|ps]; try apply print_head; cbn [print_at enclosed].
  - destruct (map _ l); by eexists _, _.
  - destruct (flat_map _ ps); by eexists _, _.
Qed.
Definition reads_at (v : value) : Prop := forall d n rest,
  length (print_at d v) <= n -> closes rest -> parse_value n (print_at d v ++ rest) = Some (json_norm v, rest).

Lemma skip_back d c rest : json_ws c = false -> skip_ws (gap d ++ c :: rest) = c :: rest.
Proof. intros W. rewrite skip_gap. by apply drop_while_id. Qed.

Lemma parse_lines_items d e l acc n rest :
  l <> [] -> Forall reads_at l -> length (lines d (map (print_at d) l)) < n ->
  parse_items n acc (lines d (map (print_at d) l) ++ gap e ++ "]"%char :: rest) = Some (VArr (acc ++ map json_norm l), rest).
Proof.
  intros N F. revert acc n N. induction F as [|v l Hv F IH]; intros acc n N L; [done|]. clear N.
  destruct n as [|n]; [lia|]. destruct l as [|w l].
  - cbn [map lines] in *. rewrite length_app in L. cbn [parse_items]. rewrite <- app_assoc, parse_gap.
    rewrite Hv; [|lia|by right; right; right]. by rewrite skip_back.
  - cbn [map lines] in *. rewrite !length_app in L. cbn [length] in L. rewrite <- !app_assoc. cbn [parse_items app].
    rewrite parse_gap, Hv; [|lia|by left]. change (skip_ws (","%char :: ?x)) with (","%char :: x).
    cbn iota. rewrite IH by (done || lia). by rewrite <- app_assoc.
Qed.

Definition member_at (d : nat) (p : string * value) : list ascii := quote (fst p) ++ ":"%char :: " "%char :: print_at d (snd p).
Lemma member_at_app d k v rest :
  member_at d (k, v) ++ rest = chr 34 :: flat_map escape_char (chars k) ++ chr 34 :: ":"%char :: " "%char :: print_at d v ++ rest.
Proof. unfold member_at, quote. cbn [fst snd app]. by rewrite <- !app_assoc. Qed.
Lemma member_at_length d k v : length (member_at d (k, v)) = 4 + length (flat_map escape_char (chars k)) + length (print_at d v).
Proof. unfold member_at, quote. cbn [fst snd app length]. rewrite !length_app. cbn [length]. lia. Qed.

(** One member, from its line to what follows its value. *)
Lemma parse_one_member n d k v acc l5 :
  parse_value n (print_at d v ++ l5) = Some (json_norm v, l5) -> k ∉ keys acc ->
  parse_members (S n) acc (gap d ++ member_at d (k, v) ++ l5) =
  match skip_ws l5 with
  | ","%char :: l6 => parse_members n (acc ++ [(k, json_norm v)]) l6
  | "}"%char :: l6 => Some (VObj (acc ++ [(k, json_norm v)]), l6)
  | _ => None
  end.
Proof.
  intros P K. rewrite member_at_app. cbn [parse_members]. rewrite skip_gap. change (skip_ws (chr 34 :: ?x)) with (chr 34 :: x). cbn iota.
  change (code (chr 34) =? 34)%nat with true. cbn iota. rewrite parse_quoted.
  change (skip_ws (":"%char :: ?x)) with (":"%char :: x). cbn iota. rewrite parse_space, P, of_chars_chars. by rewrite mset_new.
Qed.
Lemma parse_lines_members d e ps acc n rest :
  ps <> [] -> Forall (fun p => reads_at (snd p)) ps -> NoDup (keys acc ++ keys ps) ->
  length (lines d (map (member_at d) ps)) < n ->
  parse_members n acc (lines d (map (member_at d) ps) ++ gap e ++ "}"%char :: rest) =
  Some (VObj (acc ++ map (fun p => (fst p, json_norm (snd p))) ps), rest).
Proof.
  intros N F. revert acc n N. induction F as [|[k v] ps Hv F IH]; intros acc n N D L; [done|]. clear N.
  destruct n as [|n]; [lia|]. cbn [snd] in Hv. cbn [keys map fst] in D. fold (keys ps) in D.
  assert (k ∉ keys acc) as K by (intros K; apply NoDup_app in D as (_ & D & _); apply (D k K); by left).
  destruct ps as [|p ps].
  - cbn [map lines] in *. rewrite length_app, member_at_length in L. rewrite <- app_assoc.
    rewrite parse_one_member; [|apply Hv; [lia|by right; right; right]|done]. by rewrite skip_back.
  - cbn [map lines] in *. rewrite !length_app, member_at_length in L. cbn [length] in L. rewrite <- !app_assoc. cbn [app].
    rewrite parse_one_member; [|apply Hv; [lia|by left]|done]. change (skip_ws (","%char :: ?x)) with (","%char :: x).
    cbn iota. rewrite IH; [by rewrite <- app_assoc|done| |lia].
    unfold keys in *. rewrite map_app. cbn [map fst]. by rewrite <- app_assoc.
Qed.

Lemma lines_head d x l : exists r, lines d (x :: l) = gap d ++ x ++ r.
Proof. destruct l; cbn [lines]; [exists []|by eexists]. by rewrite app_nil_r. Qed.
Lemma print_at_nonempty d v n : length (print_at d v) <= n -> exists n', n = S n'.
Proof. destruct (print_at_head d v) as (c & l & -> & _). destruct n; simpl; [lia|eauto]. Qed.

Lemma parse_print_at v : distinct v -> reads_at v.
Proof.
  induction v as [| |b|m|s|l IH|ps IH] using value_rect'; intros Dv d n rest L C;
    try (by apply parse_print); destruct (print_at_nonempty _ _ _ L) as [n' ->].
  - apply distinct_items in Dv. assert (Forall reads_at l) as R.
    { clear -IH Dv. induction IH; inversion Dv; subst; constructor; auto. }
    cbn [print_at] in *. destruct l as [|v l]; [done|]. unfold enclosed in *. cbn [map] in *. cbn [length] in L.
    rewrite !length_app in L. cbn [length] in L. cbn [app parse_value]. change (skip_ws ("["%char :: ?x)) with ("["%char :: x). cbn iota.
    change (bool_decide ("["%char = "{"%char)) with false. change (bool_decide ("["%char = "["%char)) with true. cbn iota.
    rewrite <- !app_assoc. cbn [app]. pose proof (parse_lines_items (S d) d (v :: l) [] n' rest ltac:(done) R ltac:(cbn [map]; lia)) as P.
    cbn [map] in P. destruct (lines_head (S d) (print_at (S d) v) (map (print_at (S d)) l)) as [r E]. rewrite E in *.
    rewrite <- !app_assoc in *. rewrite items_gap in P. destruct (print_at_head (S d) v) as (c & x & Hc & W & Nc).
    rewrite Hc in *. cbn [app] in *. rewrite skip_back by done. destruct c as [[] [] [] [] [] [] [] []]; first [exact P | done].
  - destruct Dv as [Nd Dv]. apply distinct_props in Dv. assert (Forall (fun p => reads_at (snd p)) (printed ps)) as R.
    { eapply incl_Forall; [apply incl_filter|]. clear -IH Dv. induction IH; inversion Dv; subst; constructor; auto. }
    cbn [print_at json_norm] in *. rewrite flat_map_printed in *. fold (member_at (S d)) in *.
    rewrite (flat_map_printed (fun p => (fst p, json_norm (snd p)))).
    assert (NoDup (keys (printed ps))) as K by (eapply sublist_NoDup; [exact Nd|]; apply printed_keys).
    destruct (printed ps) as [|p qs]; [done|]. unfold enclosed in *. cbn [map] in *. cbn [length] in L.
    rewrite !length_app in L. cbn [length] in L. cbn [app parse_value]. change (skip_ws ("{"%char :: ?x)) with ("{"%char :: x). cbn iota.
    change (bool_decide ("{"%char = "{"%char)) with true. cbn iota. rewrite <- !app_assoc. cbn [app].
    pose proof (parse_lines_members (S d) d (p :: qs) [] n' rest ltac:(done) R K ltac:(cbn [map]; lia)) as P.
    cbn [map] in P. destruct (lines_head (S d) (member_at (S d) p) (map (member_at (S d)) qs)) as [r E]. rewrite E in *.
    rewrite <- !app_assoc in *. rewrite members_gap in P. destruct p as [k v]. rewrite member_at_app in *.
    rewrite skip_back by done. exact P.
Qed.

(** [JSON.parse(JSON.stringify(v, null, 2))] gives the JSON image of [v]. *)
Lemma parse_stringify2 v : distinct v -> JSON_parse (JSON_stringify2 v) = Some (json_norm v).
Proof.
  intros D. unfold JSON_parse, JSON_stringify2. rewrite slen_of_chars, chars_of_chars.
  pose proof (parse_print_at v D 0 (S (length (print_at 0 v))) [] ltac:(lia) I) as P. rewrite app_nil_r in P. by rewrite P.
Qed.
