(* ===== verification/JsDate.v ===== *)
(** * Dates

    [new Date(t).toISOString()] of a time in milliseconds, by the proleptic
    Gregorian calendar.  [Date.parse] accepts, besides this format, whatever the
    engine chooses to: it is an argument where it is used. *)

From stdpp Require Import base list strings pretty.
From Stdlib Require Import ZArith Ascii Lia.
From S2P Require Import Prelude JsString JsValue.
#[local] Open Scope Z_scope.

(** The year, month and day of a day number counted from 1970-01-01. *)
Definition civil (days : Z) : Z * Z * Z :=
  let z := days + 719468 in
  let era := z / 146097 in
  let doe := z mod 146097 in
  let yoe := (doe - doe / 1460 + doe / 36524 - doe / 146096) / 365 in
  let doy := doe - (365 * yoe + yoe / 4 - yoe / 100) in
  let mp := (5 * doy + 2) / 153 in
  let d := doy - (153 * mp + 2) / 5 + 1 in
  let m := if mp <? 10 then mp + 3 else mp - 9 in
  (yoe + era * 400 + (if m <=? 2 then 1 else 0), m, d).

(** A natural number with at least [w] digits. *)
Definition padded (w : nat) (z : Z) : string := let s := pretty (Z.abs z) in pad_zeros (w - slen s) s.
Definition year_text (y : Z) : string :=
  if (0 <=? y) && (y <=? 9999) then padded 4 y else (if y <? 0 then "-" else "+") +:+ padded 6 y.
Definition day_ms : Z := 86400000.
Definition toISOString (t : Z) : string :=
  let '(y, m, d) := civil (t / day_ms) in
  let ms := t mod day_ms in
  year_text y +:+ "-" +:+ padded 2 m +:+ "-" +:+ padded 2 d +:+ "T" +:+
  padded 2 (ms / 3600000) +:+ ":" +:+ padded 2 (ms / 60000 mod 60) +:+ ":" +:+
  padded 2 (ms / 1000 mod 60) +:+ "." +:+ padded 3 (ms mod 1000) +:+ "Z".

Example toISOString_examples :
  map toISOString [0; 951782400000; 1700000000123; -1; 253402300800000] =
  ["1970-01-01T00:00:00.000Z"; "2000-02-29T00:00:00.000Z"; "2023-11-14T22:13:20.123Z";
   "1969-12-31T23:59:59.999Z"; "+010000-01-01T00:00:00.000Z"].
Proof. vm_compute. reflexivity. Qed.

(** A date is one word. *)
Definition date_char (c : ascii) : bool := is_digit c || bool_decide (c ∈ chars "+-T:.Z").
Lemma date_not_ws c : date_char c = true -> is_ws c = false.
Proof. destruct c as [[] [] [] [] [] [] [] []]; done. Qed.
Lemma padded_chars w z : forallb date_char (chars (padded w z)) = true.
Proof.
  unfold padded. assert (forallb date_char (chars (pretty (Z.abs z))) = true) as D.
  { pose proof (pretty_Z_digits (Z.abs z) ltac:(lia)) as P. rewrite forallb_forall in *. intros c H.
    unfold date_char. by rewrite P. }
  generalize (w - slen (pretty (Z.abs z)))%nat as n. induction n as [|n IH]; [done|].
  change (chars (pad_zeros (S n) ?s)) with ("0"%char :: chars (pad_zeros n s)). exact IH.
Qed.
Lemma toISOString_chars t : forallb date_char (chars (toISOString t)) = true.
Proof.
  unfold toISOString. destruct (civil _) as [[y m] d]. rewrite !chars_app, !forallb_app, !padded_chars.
  assert (forallb date_char (chars (year_text y)) = true) as ->; [|done].
  unfold year_text. destruct (_ && _); [apply padded_chars|]. rewrite chars_app, forallb_app, padded_chars.
  by destruct (y <? 0).
Qed.
Lemma toISOString_trim t : trim (toISOString t) = toISOString t.
Proof.
  apply trim_no_ws. pose proof (toISOString_chars t) as D. rewrite forallb_forall in *. intros c H.
  by rewrite date_not_ws by auto.
Qed.
Lemma toISOString_truthy t : truthy (toISOString t) = true.
Proof.
  apply truthy_true. intros E. pose proof (f_equal chars E) as F. unfold toISOString in F.
  destruct (civil _) as [[y m] d]. rewrite !chars_app in F. by repeat (apply app_eq_nil in F as [_ F]).
Qed.
