(* ===== verification/JsRegex.v ===== *)
(** * Regular expressions

    The fragment of JavaScript's regular expressions the sources use with
    [.test]: character classes, sequence, alternation, repetition and the
    assertions [\b], [^] and [$].  [re_match] is a backtracking matcher over
    (previous character, remaining input); [matches] is its reference
    semantics and [re_match_spec] proves the two equivalent, so [re_test] is
    the existence of a match and terminates on every input. *)

From stdpp Require Import base list strings.
From Stdlib Require Import Ascii Lia.
From S2P Require Import Prelude JsString.

Inductive re : Type :=
| REps
| RChr (p : ascii -> bool)
| RSeq (a b : re)
| RAlt (a b : re)
| RStar (a : re)
| RWordB
| RBol
| REol.

Definition prev_t := option ascii.
Definition word_at (c : option ascii) : bool :=
  match c with Some c => is_word c | None => false end.
(** [\b] holds between the previous character and the head of the input. *)
Definition word_boundary (prev : prev_t) (s : list ascii) : bool :=
  xorb (word_at prev) (word_at (head s)).

Fixpoint re_match (r : re) (prev : prev_t) (s : list ascii)
    (k : prev_t -> list ascii -> bool) {struct r} : bool :=
  match r with
  | REps => k prev s
  | RChr p => match s with
              | c :: s' => if p c then k (Some c) s' else false
              | [] => false
              end
  | RSeq a b => re_match a prev s (fun p' s' => re_match b p' s' k)
  | RAlt a b => re_match a prev s k || re_match b prev s k
  | RStar a =>
      (fix loop (n : nat) (prev : prev_t) (s : list ascii) : bool :=
         k prev s ||
         match n with
         | 0 => false
         | S n' => re_match a prev s (fun p' s' =>
                     (length s' <? length s)%nat && loop n' p' s')
         end) (length s) prev s
  | RWordB => word_boundary prev s && k prev s
  | RBol => match prev with None => k prev s | Some _ => false end
  | REol => match s with [] => k prev s | _ :: _ => false end
  end.

Fixpoint re_search (r : re) (prev : prev_t) (s : list ascii) : bool :=
  re_match r prev s (fun _ _ => true) ||
  match s with
  | [] => false
  | c :: s' => re_search r (Some c) s'
  end.

(** [r.test(s)] *)
Definition re_test (r : re) (s : string) : bool := re_search r None (chars s).

(** ** Building blocks *)

Definition any_of (l : string) (c : ascii) : bool := bool_decide (c ∈ chars l).
Definition rlit (s : string) : re :=
  fold_right (fun c r => RSeq (RChr (fun d => bool_decide (d = c))) r) REps (chars s).
(** A literal under the [i] flag. *)
Definition rlit_i (s : string) : re :=
  fold_right (fun c r => RSeq (RChr (fun d => bool_decide (lower_char d = lower_char c))) r)
    REps (chars s).
Fixpoint ralts (l : list re) : re :=
  match l with
  | [] => RChr (fun _ => false)
  | [r] => r
  | r :: l' => RAlt r (ralts l')
  end.
Fixpoint rseqs (l : list re) : re :=
  match l with
  | [] => REps
  | [r] => r
  | r :: l' => RSeq r (rseqs l')
  end.
Definition ropt (r : re) : re := RAlt r REps.
Definition rplus (r : re) : re := RSeq r (RStar r).
(** [r{0,n}] *)
Fixpoint rupto (n : nat) (r : re) : re :=
  match n with 0 => REps | S n' => ropt (RSeq r (rupto n' r)) end.
(** [.] *)
Definition rdot : re := RChr (fun c => negb ((code c =? 10)%nat || (code c =? 13)%nat)).
Definition rspace : re := RChr is_ws.
(** [\b(w1|w2|...)\b] *)
Definition rwords (l : list string) : re := rseqs [RWordB; ralts (map rlit l); RWordB].

(** ** Reference semantics *)

Inductive matches : re -> prev_t -> list ascii -> prev_t -> list ascii -> Prop :=
| MEps p s : matches REps p s p s
| MChr q c p s : q c = true -> matches (RChr q) p (c :: s) (Some c) s
| MSeq a b p s p1 s1 p2 s2 :
    matches a p s p1 s1 -> matches b p1 s1 p2 s2 -> matches (RSeq a b) p s p2 s2
| MAltL a b p s p' s' : matches a p s p' s' -> matches (RAlt a b) p s p' s'
| MAltR a b p s p' s' : matches b p s p' s' -> matches (RAlt a b) p s p' s'
| MStar0 a p s : matches (RStar a) p s p s
| MStarS a p s p1 s1 p2 s2 :
    matches a p s p1 s1 -> matches (RStar a) p1 s1 p2 s2 -> matches (RStar a) p s p2 s2
| MWordB p s : word_boundary p s = true -> matches RWordB p s p s
| MBol s : matches RBol None s None s
| MEol p : matches REol p [] p [].
#[export] Hint Constructors matches : t560.

(** A match consumes a prefix; consuming nothing keeps the position. *)
Lemma matches_length r p s p' s' :
  matches r p s p' s' -> length s' <= length s /\ (length s' = length s -> p' = p /\ s' = s).
Proof.
  induction 1 as [| | ? ? ? ? ? ? ? ? _ [La Ea] _ [Lb Eb]| | | |
                 ? ? ? ? ? ? ? _ [La Ea] _ [Lb Eb]| | |]; simpl in *;
    try (by split; [lia|]); try (by split; lia); try done;
    (split; [lia|]; intros E; destruct Eb as [-> ->]; [lia|]; apply Ea; lia).
Qed.

(** Iterations that consume nothing can be skipped. *)
Lemma star_progress a p s p' s' :
  matches (RStar a) p s p' s' ->
  (p' = p /\ s' = s) \/
  exists p1 s1, matches a p s p1 s1 /\ length s1 < length s /\ matches (RStar a) p1 s1 p' s'.
Proof.
  intros H. remember (RStar a) as r eqn:E. induction H; try discriminate; [by left|].
  injection E as ->. destruct (matches_length _ _ _ _ _ H) as [L EQ].
  destruct (decide (length s1 = length s)) as [X|X].
  - destruct (EQ X) as [-> ->]. auto.
  - right. exists p1, s1. split; [done|]. split; [lia|done].
Qed.

Definition matcher_ok (r : re) : Prop := forall p s k,
  re_match r p s k = true <-> exists p' s', matches r p s p' s' /\ k p' s' = true.

Lemma star_ok a : matcher_ok a -> matcher_ok (RStar a).
Proof.
  unfold matcher_ok. intros IH p s k. unfold re_match; fold re_match.
  match goal with |- ?f (length s) p s = true <-> _ => set (loop := f) end.
  enough (forall n p s, length s <= n -> loop n p s = true <->
    exists p' s', matches (RStar a) p s p' s' /\ k p' s' = true) by (apply H; lia).
  clear p s. induction n as [|n IHn]; intros p s L.
  - destruct s as [|]; [|simpl in L; lia]. unfold loop. rewrite orb_false_r. split.
    + eauto with t560.
    + intros (p' & s' & M & K). apply star_progress in M as [[-> ->]|(? & ? & _ & ? & _)].
      * done.
      * simpl in *. lia.
  - unfold loop; fold loop. rewrite orb_true_iff, IH. split.
    + intros [K|(p1 & s1 & M & K)]; [eauto with t560|]. bool_prop.
      apply IHn in H0 as (p' & s' & M' & K'); [|lia]. eauto with t560.
    + intros (p' & s' & M & K). apply star_progress in M as [[-> ->]|(p1 & s1 & M & Lt & M')]; [by left|].
      right. exists p1, s1. split; [done|]. apply andb_true_iff. split; [by apply Nat.ltb_lt|].
      apply IHn; [lia|]. eauto.
Qed.

(** The matcher agrees with the reference semantics on every expression. *)
Lemma re_match_spec r : matcher_ok r.
Proof.
  induction r; try (by apply star_ok); unfold matcher_ok in *; intros pr s k; simpl.
  - split; [eauto with t560|]. intros (? & ? & M & K). by inversion M; subst.
  - destruct s as [|c s].
    + split; [done|]. intros (? & ? & M & K). inversion M.
    + destruct (p c) eqn:E; split.
      * eauto with t560.
      * intros (? & ? & M & K). by inversion M; subst.
      * done.
      * intros (? & ? & M & K). inversion M; subst. congruence.
  - rewrite IHr1. setoid_rewrite IHr2. split.
    + intros (p1 & s1 & M1 & p2 & s2 & M2 & K). eauto with t560.
    + intros (p2 & s2 & M & K). inversion M; subst. eauto 8.
  - rewrite orb_true_iff, IHr1, IHr2. split.
    + intros [(p' & s' & M & K)|(p' & s' & M & K)]; eauto with t560.
    + intros (p' & s' & M & K). inversion M; subst; eauto.
  - rewrite andb_true_iff. split; [intros []; eauto with t560|].
    intros (? & ? & M & K). by inversion M; subst.
  - destruct pr; split; try done; [|eauto with t560|]; intros (? & ? & M & K); by inversion M; subst.
  - destruct s; split; try done; [eauto with t560| |]; intros (? & ? & M & K); by inversion M; subst.
Qed.

Definition prev_of (p : prev_t) (l : list ascii) : prev_t :=
  match last l with Some c => Some c | None => p end.

Lemma prev_of_cons p c a : prev_of p (c :: a) = prev_of (Some c) a.
Proof.
  unfold prev_of. rewrite last_cons. by destruct (last a).
Qed.

(** [re_test] holds exactly when some position of the string starts a match. *)
Lemma re_search_spec r p s :
  re_search r p s = true <->
  exists a b p' s', s = a ++ b /\ matches r (prev_of p a) b p' s'.
Proof.
  revert p. pose proof (re_match_spec r) as Hm. unfold matcher_ok in Hm.
  induction s as [|c s IH]; intros p; simpl; rewrite orb_true_iff, Hm.
  - split.
    + intros [(p' & s' & M & _)|?]; [|done]. by exists [], [], p', s'.
    + intros (a & b & p' & s' & E & M). symmetry in E. apply app_nil in E as [-> ->]. left. eauto.
  - rewrite IH. split.
    + intros [(p' & s' & M & _)|(a & b & p' & s' & -> & M)]; [by exists [], (c :: s), p', s'|].
      exists (c :: a), b, p', s'. by rewrite prev_of_cons.
    + intros ([|c' a] & b & p' & s' & E & M); simpl in E; [left; subst; eauto|].
      injection E as <- ->. right. exists a, b, p', s'. by rewrite prev_of_cons in M.
Qed.

Lemma re_test_spec r s :
  re_test r s = true <->
  exists a b p' s', chars s = a ++ b /\ matches r (last a) b p' s'.
Proof.
  unfold re_test. rewrite re_search_spec. unfold prev_of.
  split; intros (a & b & p' & s' & E & M); exists a, b, p', s'; (split; [done|]);
    by destruct (last a).
Qed.
