(* ===== verification/JsRegexExec.v ===== *)
(** * Regular expressions with captures

    [RegExp.prototype.exec], [String.prototype.matchAll], [replace] and [split]
    on patterns given as their source text, the way the program writes them.
    [parse_pattern] reads the syntax the sources use (classes, escapes, groups
    with and without capture, look-ahead, the look-around that excludes one
    character, greedy and lazy quantifiers, [\b], [^], [$]) with the flags [i] and [m]; [xmatch] is ECMAScript's backtracking
    matcher: the first success in the order of the alternatives, with the texts
    of the groups.

    [covers] is the reference semantics.  [exec_sound] and [test_spec] relate the
    two: a result splits the text at the leftmost place where the pattern covers
    something, its groups are texts their groups cover, and there is a result
    whenever some place matches. *)

From stdpp Require Import base list sets strings.
From Stdlib Require Import Ascii Lia.
From S2P Require Import Prelude JsString JsRegex.

Inductive rx : Type :=
| XEps
| XChr (p : ascii -> bool)
| XSeq (a b : rx)
| XAlt (a b : rx)
| XStar (greedy : bool) (a : rx)
| XGroup (n : nat) (a : rx)
| XWordB
| XBol
| XEol
| XLineBol
| XLineEol
| XLook (a : rx)
| XNotPrev (p : ascii -> bool)
| XNotNext (p : ascii -> bool).

(** The groups matched so far, the last one first. *)
Definition caps := list (nat * list ascii).
Definition line_end (c : ascii) : bool := (code c =? 10)%nat || (code c =? 13)%nat.

(** The character at hand, if there is one, is not one of [p]. *)
Definition not_at (p : ascii -> bool) (o : prev_t) : bool := match o with Some c => negb (p c) | None => true end.

Fixpoint xmatch {A} (r : rx) (prev : prev_t) (s : list ascii) (g : caps)
    (k : prev_t -> list ascii -> caps -> option A) {struct r} : option A :=
  match r with
  | XEps => k prev s g
  | XChr p => match s with
              | c :: s' => if p c then k (Some c) s' g else None
              | [] => None
              end
  | XSeq a b => xmatch a prev s g (fun p' s' g' => xmatch b p' s' g' k)
  | XAlt a b => match xmatch a prev s g k with Some x => Some x | None => xmatch b prev s g k end
  | XStar greedy a =>
      (fix loop (n : nat) (prev : prev_t) (s : list ascii) (g : caps) : option A :=
         let more :=
           match n with
           | 0 => None
           | S n' => xmatch a prev s g (fun p' s' g' =>
                       if (length s' <? length s)%nat then loop n' p' s' g' else None)
           end in
         if greedy then match more with Some x => Some x | None => k prev s g end
         else match k prev s g with Some x => Some x | None => more end) (length s) prev s g
  | XGroup n a => xmatch a prev s g (fun p' s' g' => k p' s' ((n, firstn (length s - length s') s) :: g'))
  | XWordB => if word_boundary prev s then k prev s g else None
  | XBol => match prev with None => k prev s g | Some _ => None end
  | XEol => match s with [] => k prev s g | _ :: _ => None end
  | XLineBol => match prev with
                | None => k prev s g
                | Some c => if line_end c then k prev s g else None
                end
  | XLineEol => match s with
                | [] => k prev s g
                | c :: _ => if line_end c then k prev s g else None
                end
  | XLook a => match xmatch a prev s g (fun _ _ g' => Some g') with
               | Some g' => k prev s g'
               | None => None
               end
  | XNotPrev p => if not_at p prev then k prev s g else None
  | XNotNext p => if not_at p (head s) then k prev s g else None
  end.

(** ** Searching *)

(** A match: the text before it, its text, its groups, and the text after it
    with the character before that. *)
Record found := mkFound {
  before : list ascii; text : list ascii; groups : caps;
  after_prev : prev_t; after : list ascii }.

Definition match_here (r : rx) (prev : prev_t) (s : list ascii) : option found :=
  xmatch r prev s [] (fun p' s' g' => Some (mkFound [] (firstn (length s - length s') s) g' p' s')).

Definition shift (c : ascii) (m : found) : found :=
  mkFound (c :: before m) (text m) (groups m) (after_prev m) (after m).
Fixpoint exec_from (r : rx) (prev : prev_t) (s : list ascii) : option found :=
  match match_here r prev s with
  | Some m => Some m
  | None => match s with
            | [] => None
            | c :: s' => option_map (shift c) (exec_from r (Some c) s')
            end
  end.

(** [r.exec(s)] *)
Definition exec (r : rx) (s : string) : option found := exec_from r None (chars s).
Definition test (r : rx) (s : string) : bool := match exec r s with Some _ => true | None => false end.
Definition group (n : nat) (m : found) : string :=
  of_chars (default [] (option_map snd (List.find (fun x => (fst x =? n)%nat) (groups m)))).
(** [r.exec(s)?.[n]] *)
Definition capture (n : nat) (r : rx) (s : string) : option string := option_map (group n) (exec r s).

(** [s.matchAll(r)] with the flag [g]: after an empty match the search goes on
    one character further.  The fuel is the number of places. *)
Fixpoint match_all (fuel : nat) (r : rx) (prev : prev_t) (s : list ascii) : list found :=
  match fuel with
  | 0 => []
  | S fuel =>
      match exec_from r prev s with
      | None => []
      | Some m =>
          m :: match text m, after m with
               | [], c :: s' => match_all fuel r (Some c) s'
               | [], [] => []
               | _ :: _, _ => match_all fuel r (after_prev m) (after m)
               end
      end
  end.
Definition matchAll (r : rx) (s : string) : list found := match_all (S (slen s)) r None (chars s).
(** [s.match(r)] with the flag [g], [[]] for [null]. *)
Definition all_texts (r : rx) (s : string) : list string := map (fun m => of_chars (text m)) (matchAll r s).

(** [s.replace(r, f)] with the flag [g]. *)
Fixpoint replace_list (fuel : nat) (r : rx) (f : found -> list ascii) (prev : prev_t) (s : list ascii) : list ascii :=
  match fuel with
  | 0 => s
  | S fuel =>
      match exec_from r prev s with
      | None => s
      | Some m =>
          before m ++ f m ++
          match text m, after m with
          | [], c :: s' => c :: replace_list fuel r f (Some c) s'
          | [], [] => []
          | _ :: _, _ => replace_list fuel r f (after_prev m) (after m)
          end
      end
  end.
Definition replaceAll (r : rx) (f : found -> string) (s : string) : string :=
  of_chars (replace_list (S (slen s)) r (fun m => chars (f m)) None (chars s)).
(** [s.replace(r, t)] without the flag [g], for a [t] without [$]. *)
Definition replaceFirst (r : rx) (t : string) (s : string) : string :=
  match exec r s with
  | Some m => of_chars (before m ++ chars t ++ after m)
  | None => s
  end.

(** [s.split(r)] for a pattern that does not match the empty string. *)
Fixpoint split_rx (fuel : nat) (r : rx) (prev : prev_t) (s : list ascii) : list (list ascii) :=
  match fuel with
  | 0 => [s]
  | S fuel =>
      match exec_from r prev s with
      | None => [s]
      | Some m => before m :: split_rx fuel r (after_prev m) (after m)
      end
  end.
Definition splitBy (r : rx) (s : string) : list string :=
  map of_chars (split_rx (slen s) r None (chars s)).

(** ** Patterns as text *)

Record flags := mkFlags { ignoreCase : bool; multiline : bool }.

(** Canonicalize of the flag [i] identifies a letter with its other case. *)
Definition upper1 (c : ascii) : ascii := match upper_char c with [d] => d | _ => c end.
Definition folded (fl : flags) (p : ascii -> bool) (c : ascii) : bool :=
  p c || (ignoreCase fl && (p (lower_char c) || p (upper1 c))).

Definition escape_class (c : ascii) : option (ascii -> bool) :=
  match c with
  | "d"%char => Some is_digit
  | "D"%char => Some (fun x => negb (is_digit x))
  | "w"%char => Some is_word
  | "W"%char => Some (fun x => negb (is_word x))
  | "s"%char => Some is_ws
  | "S"%char => Some (fun x => negb (is_ws x))
  | _ => None
  end.
Definition escape_code (c : ascii) : ascii :=
  match c with
  | "n"%char => ascii_of_nat 10
  | "r"%char => ascii_of_nat 13
  | "t"%char => ascii_of_nat 9
  | _ => c
  end.
Definition hex_digit (c : ascii) : nat :=
  if is_digit c then code c - 48 else if is_lower c then code c - 87 else code c - 55.

(** One member of a class: a set, or a character that may begin a range. *)
Definition class_atom (l : list ascii) : option ((ascii + (ascii -> bool)) * list ascii) :=
  match l with
  | "\"%char :: "x"%char :: a :: b :: l' => Some (inl (ascii_of_nat (16 * hex_digit a + hex_digit b)), l')
  | "\"%char :: c :: l' =>
      match escape_class c with
      | Some q => Some (inr q, l')
      | None => Some (inl (escape_code c), l')
      end
  | c :: l' => Some (inl c, l')
  | [] => None
  end.
Definition is_char (c d : ascii) : bool := bool_decide (d = c).
Definition either (p q : ascii -> bool) (c : ascii) : bool := p c || q c.
Fixpoint parse_class (fuel : nat) (acc : ascii -> bool) (l : list ascii) : option ((ascii -> bool) * list ascii) :=
  match fuel with
  | 0 => None
  | S fuel =>
      match l with
      | [] => None
      | "]"%char :: l' => Some (acc, l')
      | _ =>
          match class_atom l with
          | None => None
          | Some (inr q, l1) => parse_class fuel (either acc q) l1
          | Some (inl a, "-"%char :: c :: l1) =>
              if is_char "]" c then parse_class fuel (either acc (is_char a)) ("-"%char :: c :: l1)
              else match class_atom (c :: l1) with
                   | Some (inl b, l2) => parse_class fuel (either acc (fun x => between (code a) (code b) (code x))) l2
                   | _ => None
                   end
          | Some (inl a, l1) => parse_class fuel (either acc (is_char a)) l1
          end
      end
  end.

Fixpoint parse_nat (acc : option nat) (l : list ascii) : option nat * list ascii :=
  match l with
  | c :: l' => if is_digit c then parse_nat (Some (10 * default 0 acc + (code c - 48))) l' else (acc, l)
  | [] => (acc, [])
  end.

Fixpoint times (n : nat) (a : rx) : rx := match n with 0 => XEps | S n' => XSeq a (times n' a) end.
Fixpoint upto (greedy : bool) (n : nat) (a : rx) : rx :=
  match n with
  | 0 => XEps
  | S n' => let more := XSeq a (upto greedy n' a) in if greedy then XAlt more XEps else XAlt XEps more
  end.
Definition lazy (l : list ascii) : bool * list ascii :=
  match l with "?"%char :: l' => (false, l') | _ => (true, l) end.
Definition quantified (a : rx) (l : list ascii) : option (rx * list ascii) :=
  match l with
  | "*"%char :: l' => let '(g, l1) := lazy l' in Some (XStar g a, l1)
  | "+"%char :: l' => let '(g, l1) := lazy l' in Some (XSeq a (XStar g a), l1)
  | "?"%char :: l' => let '(g, l1) := lazy l' in Some (upto g 1 a, l1)
  | "{"%char :: l' =>
      match parse_nat None l' with
      | (Some n, "}"%char :: l1) => let '(g, l2) := lazy l1 in Some (times n a, l2)
      | (Some n, ","%char :: l1) =>
          match parse_nat None l1 with
          | (None, "}"%char :: l2) => let '(g, l3) := lazy l2 in Some (XSeq (times n a) (XStar g a), l3)
          | (Some m, "}"%char :: l2) => let '(g, l3) := lazy l2 in Some (XSeq (times n a) (upto g (m - n) a), l3)
          | _ => None
          end
      | _ => None
      end
  | _ => Some (a, l)
  end.

(** The look-around [(?<!c)] and [(?!c)] for one character or class [c]. *)
Definition one_char (wrap : (ascii -> bool) -> rx) (a : rx) : option rx :=
  match a with XSeq XEps (XChr p) => Some (wrap p) | _ => None end.

Section Parser.
Variable fl : flags.
Definition xchar (p : ascii -> bool) : rx := XChr (folded fl p).
Definition none (_ : ascii) : bool := false.

(** A disjunction, up to the closing parenthesis or the end; the number is that
    of the next group. *)
Fixpoint parse_alts (fuel n : nat) (alt : rx) (l : list ascii) {struct fuel} : option (rx * nat * list ascii) :=
  match fuel with
  | 0 => None
  | S fuel =>
      let next (a : rx) (n : nat) (l : list ascii) :=
        match quantified a l with
        | Some (q, l') => parse_alts fuel n (XSeq alt q) l'
        | None => None
        end in
      let nested (wrap : rx -> option rx) (n : nat) (l : list ascii) :=
        match parse_alts fuel n XEps l with
        | Some (a, n', ")"%char :: l') => match wrap a with Some a' => next a' n' l' | None => None end
        | _ => None
        end in
      match l with
      | [] => Some (alt, n, [])
      | ")"%char :: _ => Some (alt, n, l)
      | "|"%char :: l' =>
          match parse_alts fuel n XEps l' with
          | Some (b, n', l2) => Some (XAlt alt b, n', l2)
          | None => None
          end
      | "("%char :: "?"%char :: ":"%char :: l' => nested Some n l'
      | "("%char :: "?"%char :: "="%char :: l' => nested (fun a => Some (XLook a)) n l'
      | "("%char :: "?"%char :: "!"%char :: l' => nested (one_char XNotNext) n l'
      | "("%char :: "?"%char :: "<"%char :: "!"%char :: l' => nested (one_char XNotPrev) n l'
      | "("%char :: l' => nested (fun a => Some (XGroup n a)) (S n) l'
      | "["%char :: "^"%char :: l' =>
          match parse_class fuel none l' with
          | Some (q, l2) => next (XChr (fun c => negb (folded fl q c))) n l2
          | None => None
          end
      | "["%char :: l' =>
          match parse_class fuel none l' with
          | Some (q, l2) => next (xchar q) n l2
          | None => None
          end
      | "."%char :: l' => next (XChr (fun c => negb (line_end c))) n l'
      | "^"%char :: l' => next (if multiline fl then XLineBol else XBol) n l'
      | "$"%char :: l' => next (if multiline fl then XLineEol else XEol) n l'
      | "\"%char :: "b"%char :: l' => next XWordB n l'
      | "\"%char :: _ =>
          match class_atom l with
          | Some (inl a, l2) => next (xchar (is_char a)) n l2
          | Some (inr q, l2) => next (xchar q) n l2
          | None => None
          end
      | c :: l' => next (xchar (is_char c)) n l'
      end
  end.
End Parser.

(** The groups are numbered from 1.  A text that is not a pattern of this syntax
    gives [None]. *)
Definition parse_pattern (fl : flags) (s : string) : option rx :=
  match parse_alts fl (S (slen s)) 1 XEps (chars s) with
  | Some (r, _, []) => Some r
  | _ => None
  end.
Definition pattern (fl : flags) (s : string) : rx := default (XChr none) (parse_pattern fl s).
(** [/s/], [/s/i], [/s/m] and [/s/im] *)
Definition re_ (s : string) : rx := pattern (mkFlags false false) s.
Definition re_i (s : string) : rx := pattern (mkFlags true false) s.
Definition re_im (s : string) : rx := pattern (mkFlags true true) s.
Example exec_groups :
  option_map (fun m => (of_chars (before m), of_chars (text m), group 1 m))
    (exec (re_i "\bmy timezone is\s+([A-Za-z0-9_+/:-]{2,64})\b") "So MY timezone is  Europe/Rome.")
  = Some ("So ", "MY timezone is  Europe/Rome", "Europe/Rome").
Proof. vm_compute. reflexivity. Qed.
Example lazy_replace :
  replaceAll (re_i "<think>([\s\S]*?)</think>") (fun m => "[" +:+ group 1 m +:+ "]") "a<THINK>b</think>c<think></think>d" = "a[b]c[]d".
Proof. vm_compute. reflexivity. Qed.
Example look_ahead :
  replaceAll (re_i "([a-z0-9])\s*([.-])\s*(?=[a-z0-9])") (fun m => group 1 m +:+ group 2 m) "my - bank . com" = "my-bank.com".
Proof. vm_compute. reflexivity. Qed.

Example look_around :
  replaceAll (re_ "(?<!\*)\*([^*]+?)\*(?!\*)") (fun m => "[" +:+ group 1 m +:+ "]") "a *b* **c** *d" = "a [b] **c** *d".
Proof. vm_compute. reflexivity. Qed.

(** ** Reference semantics *)

Inductive covers : rx -> prev_t -> list ascii -> prev_t -> list ascii -> Prop :=
| CEps p s : covers XEps p s p s
| CChr q c p s : q c = true -> covers (XChr q) p (c :: s) (Some c) s
| CSeq a b p s p1 s1 p2 s2 : covers a p s p1 s1 -> covers b p1 s1 p2 s2 -> covers (XSeq a b) p s p2 s2
| CAltL a b p s p' s' : covers a p s p' s' -> covers (XAlt a b) p s p' s'
| CAltR a b p s p' s' : covers b p s p' s' -> covers (XAlt a b) p s p' s'
| CStar0 g a p s : covers (XStar g a) p s p s
| CStarS g a p s p1 s1 p2 s2 :
    covers a p s p1 s1 -> covers (XStar g a) p1 s1 p2 s2 -> covers (XStar g a) p s p2 s2
| CGroup n a p s p' s' : covers a p s p' s' -> covers (XGroup n a) p s p' s'
| CWordB p s : word_boundary p s = true -> covers XWordB p s p s
| CBol s : covers XBol None s None s
| CEol p : covers XEol p [] p []
| CLineBol p s : match p with None => True | Some c => line_end c = true end -> covers XLineBol p s p s
| CLineEol p s : match s with [] => True | c :: _ => line_end c = true end -> covers XLineEol p s p s
| CLook a p s p' s' : covers a p s p' s' -> covers (XLook a) p s p s
| CNotPrev q p s : not_at q p = true -> covers (XNotPrev q) p s p s
| CNotNext q p s : not_at q (head s) = true -> covers (XNotNext q) p s p s.
#[export] Hint Constructors covers : t560.

Lemma covers_seq a b p s p2 s2 : covers (XSeq a b) p s p2 s2 -> exists p1 s1, covers a p s p1 s1 /\ covers b p1 s1 p2 s2.
Proof. intros C. inversion C; subst; eauto. Qed.

(** A cover consumes a prefix. *)
Lemma covers_prefix r p s p' s' : covers r p s p' s' -> exists t, s = t ++ s' /\ p' = prev_of p t.
Proof.
  assert (forall p (t u v : list ascii), prev_of (prev_of p t) u = prev_of p (t ++ u)) as P.
  { intros q t u _. unfold prev_of. rewrite last_app. by destruct (last u). }
  induction 1; try (exists []; done); try done; [by exists [c]| |];
    destruct IHcovers1 as (t & -> & ->), IHcovers2 as (u & -> & ->); exists (t ++ u);
    rewrite <- app_assoc; (split; [done|]); by apply P.
Qed.
Lemma covers_length r p s p' s' :
  covers r p s p' s' -> length s' <= length s /\ (length s' = length s -> p' = p /\ s' = s).
Proof.
  intros (t & -> & ->)%covers_prefix. rewrite length_app. split; [lia|]. intros E.
  destruct t; [done|simpl in E; lia].
Qed.

(** The groups of a pattern, and what a group may hold. *)
Fixpoint group_list (r : rx) : list (nat * rx) :=
  match r with
  | XSeq a b | XAlt a b => group_list a ++ group_list b
  | XStar _ a | XLook a => group_list a
  | XGroup n a => (n, a) :: group_list a
  | _ => []
  end.
Definition held (gs : list (nat * rx)) (s : list ascii) (x : nat * list ascii) : Prop :=
  (exists u v, s = u ++ x.2 ++ v) /\
  exists a p p' v, (x.1, a) ∈ gs /\ covers a p (x.2 ++ v) p' v.
(** From the groups [g] to [g'] the matcher adds held texts. *)
Definition grows (gs : list (nat * rx)) (s : list ascii) (g g' : caps) : Prop :=
  exists new, g' = new ++ g /\ Forall (held gs s) new.

Lemma grows_refl gs s g : grows gs s g g.
Proof. by exists []. Qed.
Lemma held_mono gs gs' s t x : gs ⊆ gs' -> held gs t x -> held gs' (s ++ t) x.
Proof.
  intros I [(u & v & ->) (a & p & p' & w & M & C)]. split; [by exists (s ++ u), v; rewrite <- app_assoc|].
  exists a, p, p', w. split; [by apply I|done].
Qed.
Lemma grows_mono gs gs' s t g g' : gs ⊆ gs' -> grows gs t g g' -> grows gs' (s ++ t) g g'.
Proof. intros I (new & -> & F). exists new. split; [done|]. eapply Forall_impl; [exact F|]. intros x. by apply held_mono. Qed.
Lemma grows_trans gs s g g1 g2 : grows gs s g g1 -> grows gs s g1 g2 -> grows gs s g g2.
Proof.
  intros (n1 & -> & F1) (n2 & -> & F2). exists (n2 ++ n1). rewrite app_assoc. split; [done|]. by apply Forall_app.
Qed.

Definition sound (r : rx) : Prop := forall A p s g (k : prev_t -> list ascii -> caps -> option A) x,
  xmatch r p s g k = Some x ->
  exists p' s' g', covers r p s p' s' /\ grows (group_list r) s g g' /\ k p' s' g' = Some x.

Lemma star_sound greedy a : sound a -> sound (XStar greedy a).
Proof.
  intros IH A p s g k x. cbn [xmatch].
  match goal with |- ?f (length s) p s g = _ -> _ => set (loop := f) end.
  generalize (length s) as n. intros n. revert p s g.
  induction n as [|n IHn]; intros p s g H.
  - exists p, s, g. split; [constructor|]. split; [apply grows_refl|].
    unfold loop in H. destruct greedy; [done|]. by destruct (k p s g).
  - assert (k p s g = Some x \/ xmatch a p s g (fun p' s' g' => if length s' <? length s then loop n p' s' g' else None) = Some x) as [K|M].
    { unfold loop in H; cbn in H; fold loop in H. destruct greedy; [destruct (xmatch a _ _ _ _) eqn:E|destruct (k p s g) eqn:E]; naive_solver. }
    + exists p, s, g. split; [constructor|]. by split; [apply grows_refl|].
    + apply IH in M as (p1 & s1 & g1 & C1 & G1 & K1). destruct (length s1 <? length s); [|done].
      apply IHn in K1 as (p2 & s2 & g2 & C2 & G2 & K2). exists p2, s2, g2.
      split; [by econstructor|]. split; [|done]. destruct (covers_prefix _ _ _ _ _ C1) as (t & -> & _).
      eapply grows_trans; [exact G1|]. cbn [group_list] in G2. by apply (grows_mono (group_list a) _ t s1).
Qed.

Lemma xmatch_sound r : sound r.
Proof.
  induction r; try (by apply star_sound); intros A prev s g k x H; cbn [xmatch group_list] in *.
  - exists prev, s, g. eauto using grows_refl with t560.
  - destruct s as [|c s]; [done|]. destruct (p c) eqn:E; [|done]. exists (Some c), s, g. eauto using grows_refl with t560.
  - apply IHr1 in H as (p1 & s1 & g1 & C1 & G1 & H). apply IHr2 in H as (p2 & s2 & g2 & C2 & G2 & H).
    exists p2, s2, g2. split; [by econstructor|]. split; [|done].
    destruct (covers_prefix _ _ _ _ _ C1) as (t & -> & _). eapply grows_trans.
    + apply (grows_mono _ (group_list r1 ++ group_list r2) [] (t ++ s1)) in G1; [exact G1|set_solver].
    + eapply (grows_mono _ (group_list r1 ++ group_list r2) t s1) in G2; [exact G2|set_solver].
  - destruct (xmatch r1 prev s g k) eqn:E.
    + injection H as ->. apply IHr1 in E as (p1 & s1 & g1 & C1 & G1 & E). exists p1, s1, g1.
      split; [by constructor|]. split; [|done]. eapply (grows_mono _ _ [] s); [|exact G1]. set_solver.
    + apply IHr2 in H as (p1 & s1 & g1 & C1 & G1 & H). exists p1, s1, g1.
      split; [by apply CAltR|]. split; [|done]. eapply (grows_mono _ _ [] s); [|exact G1]. set_solver.
  - apply IHr in H as (p1 & s1 & g1 & C1 & G1 & H). eexists p1, s1, _. split; [by constructor|]. split; [|exact H].
    destruct (covers_prefix _ _ _ _ _ C1) as (t & -> & _). replace (length (t ++ s1) - length s1) with (length t) by (rewrite length_app; lia).
    rewrite firstn_app, Nat.sub_diag, firstn_all, firstn_O, app_nil_r. eapply grows_trans.
    + eapply (grows_mono _ ((n, r) :: group_list r) [] (t ++ s1)); [|exact G1]. set_solver.
    + exists [(n, t)]. split; [done|]. constructor; [|constructor]. split; [by exists [], s1|].
      exists r, prev, p1, s1. split; [set_solver|done].
  - destruct (word_boundary prev s) eqn:E; [|done]. exists prev, s, g. eauto using grows_refl with t560.
  - destruct prev; [done|]. exists None, s, g. eauto using grows_refl with t560.
  - destruct s; [|done]. exists prev, [], g. eauto using grows_refl with t560.
  - exists prev, s, g. split; [constructor|]; destruct prev as [c|]; [by destruct (line_end c)|done| |];
      (split; [apply grows_refl|]); [by destruct (line_end c)|done].
  - exists prev, s, g. split; [constructor|]; destruct s as [|c s]; [done|by destruct (line_end c)| |];
      (split; [apply grows_refl|]); [done|by destruct (line_end c)].
  - destruct (xmatch r prev s g _) as [g1|] eqn:E; [|done]. apply IHr in E as (p1 & s1 & g2 & C & G & [= ->]).
    exists prev, s, g1. eauto with t560.
  - destruct (not_at p prev) eqn:E; [|done]. exists prev, s, g. eauto using grows_refl with t560.
  - destruct (not_at p (head s)) eqn:E; [|done]. exists prev, s, g. eauto using grows_refl with t560.
Qed.

Definition succeeds {A} (k : prev_t -> list ascii -> caps -> option A) (p : prev_t) (s : list ascii) : Prop :=
  forall g, k p s g <> None.
Definition complete (r : rx) : Prop := forall A p s g (k : prev_t -> list ascii -> caps -> option A) p' s',
  covers r p s p' s' -> succeeds k p' s' -> xmatch r p s g k <> None.

(** Iterations that consume nothing can be left out. *)
Lemma covers_progress g a p s p' s' :
  covers (XStar g a) p s p' s' ->
  (p' = p /\ s' = s) \/
  exists p1 s1, covers a p s p1 s1 /\ length s1 < length s /\ covers (XStar g a) p1 s1 p' s'.
Proof.
  intros H. remember (XStar g a) as r eqn:E. induction H; try discriminate; [by left|].
  injection E as -> ->. destruct (covers_length _ _ _ _ _ H) as [L EQ].
  destruct (decide (length s1 = length s)) as [X|X].
  - destruct (EQ X) as [-> ->]. auto.
  - right. exists p1, s1. split; [done|]. split; [lia|done].
Qed.

Lemma star_complete greedy a : complete a -> complete (XStar greedy a).
Proof.
  intros IH A p s g k p' s' C K. cbn [xmatch].
  match goal with |- ?f (length s) p s g <> _ => set (loop := f) end.
  assert (length s <= length s) as L by lia. revert L. generalize (length s) at 2 3 as n. intros n. revert p s g C.
  induction n as [|n IHn]; intros p s g C L.
  - destruct s; [|simpl in L; lia]. apply covers_progress in C as [[-> ->]|(? & ? & _ & ? & _)]; [|simpl in *; lia].
    unfold loop. specialize (K g). destruct greedy; [done|]. by destruct (k p [] g).
  - apply covers_progress in C as [[-> ->]|(p1 & s1 & C1 & L1 & C)].
    + unfold loop; cbn; fold loop. specialize (K g). destruct greedy; [by destruct (xmatch a _ _ _ _)|by destruct (k p s g)].
    + assert (xmatch a p s g (fun p' s' g' => if length s' <? length s then loop n p' s' g' else None) <> None) as M.
      { eapply IH; [exact C1|]. intros g1. pose proof L1 as ->%Nat.ltb_lt. apply IHn; [done|lia]. }
      unfold loop; cbn; fold loop. destruct greedy; [by destruct (xmatch a _ _ _ _)|by destruct (k p s g)].
Qed.

Lemma xmatch_complete r : complete r.
Proof.
  induction r; try (by apply star_complete); intros A prev s g k q s' C K; cbn [xmatch]; inversion C; subst.
  - apply K.
  - rewrite H0. apply K.
  - eapply IHr1; [eassumption|]. intros g1. eapply IHr2; eassumption.
  - assert (xmatch r1 prev s g k <> None) by (eapply IHr1; eassumption). by destruct (xmatch r1 prev s g k).
  - destruct (xmatch r1 prev s g k); [done|]. eapply IHr2; eassumption.
  - eapply IHr; [eassumption|]. intros g1. apply K.
  - rewrite H. apply K.
  - apply K.
  - apply K.
  - destruct q as [c|]; [rewrite H|]; apply K.
  - destruct s'; [|rewrite H]; apply K.
  - assert (xmatch r q s' g (fun _ _ g' => Some g') <> None) by (eapply IHr; [eassumption|by intros ?]).
    destruct (xmatch r q s' g _); [apply K|done].
  - match goal with E : not_at _ _ = true |- _ => rewrite E end. apply K.
  - match goal with E : not_at _ _ = true |- _ => rewrite E end. apply K.
Qed.

(** ** The search *)

Definition covers_at (r : rx) (prev : prev_t) (s : list ascii) : Prop := exists p' s', covers r prev s p' s'.

Lemma match_here_sound r p s m : match_here r p s = Some m ->
  before m = [] /\ s = text m ++ after m /\ covers r p s (after_prev m) (after m) /\ Forall (held (group_list r) s) (groups m).
Proof.
  intros (p' & s' & g' & C & (new & -> & F) & [= <-])%xmatch_sound. simpl. split; [done|].
  destruct (covers_prefix _ _ _ _ _ C) as (t & -> & _).
  replace (length (t ++ s') - length s') with (length t) by (rewrite length_app; lia).
  rewrite firstn_app, Nat.sub_diag, firstn_all, firstn_O, app_nil_r. by rewrite app_nil_r.
Qed.
Lemma match_here_none r p s : match_here r p s = None -> ~ covers_at r p s.
Proof. intros H (p' & s' & C). revert H. unfold match_here. eapply xmatch_complete; [exact C|]. by intros g. Qed.

(** What a match of [r] in the text [s] after [p] is: the text is split at the
    leftmost place where [r] covers something, and the groups hold parts of it. *)
Definition match_of (r : rx) (p : prev_t) (s : list ascii) (m : found) : Prop :=
  s = before m ++ text m ++ after m /\
  covers r (prev_of p (before m)) (text m ++ after m) (after_prev m) (after m) /\
  (forall a b, before m = a ++ b -> b <> [] -> ~ covers_at r (prev_of p a) (b ++ text m ++ after m)) /\
  Forall (held (group_list r) s) (groups m).

Lemma exec_from_sound r p s m : exec_from r p s = Some m -> match_of r p s m.
Proof.
  assert (forall p s m, match_here r p s = Some m -> match_of r p s m) as Here.
  { intros q t m' (B & S & C & F)%match_here_sound. unfold match_of. rewrite B, S in *. split; [done|].
    split; [done|]. split; [|done]. intros a b Hb N. by symmetry in Hb; apply app_nil in Hb as [_ ->]. }
  revert p m. induction s as [|c s IH]; intros p m; cbn [exec_from];
    destruct (match_here r p _) as [m'|] eqn:E; intros H; simplify_eq; try (by apply Here).
  apply match_here_none in E. destruct (exec_from r (Some c) s) as [m'|] eqn:X; [|done]. injection H as <-.
  apply IH in X as (S & C & L & F). unfold match_of, shift; simpl. split; [by rewrite <- S|].
  rewrite prev_of_cons. split; [done|]. split.
  - intros [|c' a] b Hb N; simpl in Hb.
    + subst b. simpl. by rewrite <- S.
    + injection Hb as <- Hb. rewrite prev_of_cons. by apply L.
  - eapply Forall_impl; [exact F|]. intros x. by apply (held_mono _ _ [c]).
Qed.
Lemma exec_from_none r p s a b : exec_from r p s = None -> s = a ++ b -> ~ covers_at r (prev_of p a) b.
Proof.
  revert p a. induction s as [|c s IH]; intros p a; cbn [exec_from]; destruct (match_here r p _) as [m'|] eqn:E; try done;
    apply match_here_none in E; intros H S.
  - symmetry in S. apply app_nil in S as [-> ->]. done.
  - destruct (exec_from r (Some c) s) eqn:X; [done|]. destruct a as [|c' a]; simpl in S; [by subst|].
    injection S as <- S. rewrite prev_of_cons. by apply IH.
Qed.

Lemma exec_sound r s m : exec r s = Some m -> match_of r None (chars s) m.
Proof. apply exec_from_sound. Qed.
(** [test] holds exactly when the pattern covers something at some place. *)
Lemma test_spec r s : test r s = true <-> exists a b, chars s = a ++ b /\ covers_at r (prev_of None a) b.
Proof.
  unfold test. destruct (exec r s) as [m|] eqn:E; split; try done.
  - intros _. apply exec_sound in E as (S & C & _). exists (before m), (text m ++ after m). split; [done|]. by eexists _, _.
  - intros (a & b & S & C). exfalso. by eapply exec_from_none.
Qed.

(** Every match of [matchAll] is one of the pattern at its place in the text. *)
Definition occurs (r : rx) (s : list ascii) (m : found) : Prop :=
  (exists u v p, s = u ++ text m ++ v /\ covers_at r p (text m ++ v)) /\ Forall (held (group_list r) s) (groups m).
Lemma occurs_app r s t m : occurs r t m -> occurs r (s ++ t) m.
Proof.
  intros [(u & v & p & -> & C) F]. split.
  - exists (s ++ u), v, p. by rewrite <- app_assoc.
  - eapply Forall_impl; [exact F|]. intros x. by apply held_mono.
Qed.
Lemma match_all_occurs fuel r p s m : m ∈ match_all fuel r p s -> occurs r s m.
Proof.
  revert p s. induction fuel as [|fuel IH]; intros p s; cbn [match_all]; [by intros ?%elem_of_nil|].
  destruct (exec_from r p s) as [m'|] eqn:E; [|by intros ?%elem_of_nil].
  apply exec_from_sound in E as (S & C & _ & F). rewrite S in *. intros [->|H]%elem_of_cons.
  - split; [|done]. exists (before m'), (after m'), (prev_of p (before m')). split; [done|]. by eexists _, _.
  - apply occurs_app. destruct (text m') as [|d t]; [destruct (after m') as [|c s']|].
    + by apply elem_of_nil in H.
    + apply IH in H. by apply (occurs_app _ [c]).
    + apply IH in H. by apply occurs_app.
Qed.
Lemma matchAll_occurs r s m : m ∈ matchAll r s -> occurs r (chars s) m.
Proof. apply match_all_occurs. Qed.

(** A group of a match holds a part of the text its pattern covers, or is empty. *)
Lemma group_held r s m n : Forall (held (group_list r) s) (groups m) ->
  group n m = "" \/ held (group_list r) s (n, chars (group n m)).
Proof.
  intros F. unfold group. destruct (List.find _ (groups m)) as [[n' t]|] eqn:E; [|by left].
  right. apply List.find_some in E as [I E]. simpl in E. bool_prop. subst n'. simpl.
  rewrite chars_of_chars. rewrite Forall_forall in F. apply F. by apply list_elem_of_In.
Qed.

(** ** Exact groups *)

(** A cover together with the groups it leaves: what the matcher went through. *)
Inductive walks : rx -> prev_t -> list ascii -> caps -> prev_t -> list ascii -> caps -> Prop :=
| WEps p s g : walks XEps p s g p s g
| WChr q c p s g : q c = true -> walks (XChr q) p (c :: s) g (Some c) s g
| WSeq a b p s g p1 s1 g1 p2 s2 g2 :
    walks a p s g p1 s1 g1 -> walks b p1 s1 g1 p2 s2 g2 -> walks (XSeq a b) p s g p2 s2 g2
| WAltL a b p s g p' s' g' : walks a p s g p' s' g' -> walks (XAlt a b) p s g p' s' g'
| WAltR a b p s g p' s' g' : walks b p s g p' s' g' -> walks (XAlt a b) p s g p' s' g'
| WStar0 gr a p s g : walks (XStar gr a) p s g p s g
| WStarS gr a p s g p1 s1 g1 p2 s2 g2 :
    walks a p s g p1 s1 g1 -> walks (XStar gr a) p1 s1 g1 p2 s2 g2 -> walks (XStar gr a) p s g p2 s2 g2
| WGroup n a p t s' g p' g' : walks a p (t ++ s') g p' s' g' -> walks (XGroup n a) p (t ++ s') g p' s' ((n, t) :: g')
| WWordB p s g : word_boundary p s = true -> walks XWordB p s g p s g
| WBol s g : walks XBol None s g None s g
| WEol p g : walks XEol p [] g p [] g
| WLineBol p s g : match p with None => True | Some c => line_end c = true end -> walks XLineBol p s g p s g
| WLineEol p s g : match s with [] => True | c :: _ => line_end c = true end -> walks XLineEol p s g p s g
| WLook a p s g p' s' g' : walks a p s g p' s' g' -> walks (XLook a) p s g p s g'
| WNotPrev q p s g : not_at q p = true -> walks (XNotPrev q) p s g p s g
| WNotNext q p s g : not_at q (head s) = true -> walks (XNotNext q) p s g p s g.
#[export] Hint Constructors walks : t560.

Lemma walks_covers r p s g p' s' g' : walks r p s g p' s' g' -> covers r p s p' s'.
Proof. induction 1; eauto with t560. Qed.

Lemma star_walks greedy a :
  (forall A p s g (k : prev_t -> list ascii -> caps -> option A) x, xmatch a p s g k = Some x ->
     exists p' s' g', walks a p s g p' s' g' /\ k p' s' g' = Some x) ->
  forall A p s g (k : prev_t -> list ascii -> caps -> option A) x, xmatch (XStar greedy a) p s g k = Some x ->
     exists p' s' g', walks (XStar greedy a) p s g p' s' g' /\ k p' s' g' = Some x.
Proof.
  intros IH A p s g k x. cbn [xmatch].
  match goal with |- ?f (length s) p s g = _ -> _ => set (loop := f) end.
  generalize (length s) as n. intros n. revert p s g. induction n as [|n IHn]; intros p s g H.
  - exists p, s, g. split; [constructor|]. unfold loop in H. destruct greedy; [done|]. by destruct (k p s g).
  - assert (k p s g = Some x \/ xmatch a p s g (fun p' s' g' => if length s' <? length s then loop n p' s' g' else None) = Some x) as [K|M].
    { unfold loop in H; cbn in H; fold loop in H. destruct greedy; [destruct (xmatch a _ _ _ _) eqn:E|destruct (k p s g) eqn:E]; naive_solver. }
    + exists p, s, g. split; [constructor|done].
    + apply IH in M as (p1 & s1 & g1 & C1 & K1). destruct (length s1 <? length s); [|done].
      apply IHn in K1 as (p2 & s2 & g2 & C2 & K2). exists p2, s2, g2. split; [by econstructor|done].
Qed.
Lemma xmatch_walks r A p s g (k : prev_t -> list ascii -> caps -> option A) x :
  xmatch r p s g k = Some x -> exists p' s' g', walks r p s g p' s' g' /\ k p' s' g' = Some x.
Proof.
  revert A p s g k x. induction r; try (by apply star_walks); intros A prev s g k x H; cbn [xmatch] in *; try (by eauto 10 with t560).
  - destruct s as [|c s]; [done|]. destruct (p c) eqn:E; [|done]. eauto 10 with t560.
  - apply IHr1 in H as (p1 & s1 & g1 & C1 & H). apply IHr2 in H as (p2 & s2 & g2 & C2 & H). eauto 10 with t560.
  - destruct (xmatch r1 prev s g k) eqn:E; [injection H as ->; apply IHr1 in E as (p1 & s1 & g1 & C1 & K1)|apply IHr2 in H as (p1 & s1 & g1 & C1 & K1)];
      eauto 10 with t560.
  - apply IHr in H as (p1 & s1 & g1 & C1 & H). eexists p1, s1, _. split; [|exact H].
    destruct (covers_prefix _ _ _ _ _ (walks_covers _ _ _ _ _ _ _ C1)) as (t & -> & _).
    replace (length (t ++ s1) - length s1) with (length t) by (rewrite length_app; lia).
    rewrite firstn_app, Nat.sub_diag, firstn_all, firstn_O, app_nil_r. by constructor.
  - destruct (word_boundary prev s) eqn:E; [|done]. eauto 10 with t560.
  - destruct prev; [done|]. eauto 10 with t560.
  - destruct s; [|done]. eauto 10 with t560.
  - destruct prev as [c|]; [destruct (line_end c) eqn:E; [|done]|]; eexists _, _, _; (split; [|exact H]); by constructor.
  - destruct s as [|c s]; [|destruct (line_end c) eqn:E; [|done]]; eexists _, _, _; (split; [|exact H]); by constructor.
  - destruct (xmatch r prev s g _) as [g1|] eqn:E; [|done]. apply IHr in E as (p1 & s1 & g2 & C & [= ->]). eauto 10 with t560.
  - destruct (not_at p prev) eqn:E; [|done]. eauto 10 with t560.
  - destruct (not_at p (head s)) eqn:E; [|done]. eauto 10 with t560.
Qed.

(** The groups of a match are those of one walk over its text. *)
Lemma match_here_walks r p s m : match_here r p s = Some m ->
  before m = [] /\ s = text m ++ after m /\ walks r p (text m ++ after m) [] (after_prev m) (after m) (groups m).
Proof.
  intros E. apply xmatch_walks in E as (p' & s' & g' & C & [= <-]). simpl. split; [done|].
  destruct (covers_prefix _ _ _ _ _ (walks_covers _ _ _ _ _ _ _ C)) as (t & -> & _).
  replace (length (t ++ s') - length s') with (length t) by (rewrite length_app; lia).
  by rewrite firstn_app, Nat.sub_diag, firstn_all, firstn_O, app_nil_r.
Qed.
Lemma exec_from_walks r p s m : exec_from r p s = Some m ->
  s = before m ++ text m ++ after m /\ walks r (prev_of p (before m)) (text m ++ after m) [] (after_prev m) (after m) (groups m).
Proof.
  revert p m. induction s as [|c s IH]; intros p m; cbn [exec_from];
    (destruct (match_here r p _) as [m'|] eqn:E; [intros [= <-]; apply match_here_walks in E as (-> & S & C); done|]); [done|].
  destruct (exec_from r (Some c) s) as [m'|] eqn:X; [|done]. intros [= <-]. apply IH in X as [S C]. simpl.
  split; [by rewrite <- S|]. by rewrite prev_of_cons.
Qed.

(** Inversion of walks, for reading off the texts of concrete patterns. *)
Lemma walks_seq a b p s g p2 s2 g2 : walks (XSeq a b) p s g p2 s2 g2 ->
  exists p1 s1 g1, walks a p s g p1 s1 g1 /\ walks b p1 s1 g1 p2 s2 g2.
Proof. intros C. inversion C; subst; eauto 10. Qed.
Lemma walks_chr q p s g p' s' g' : walks (XChr q) p s g p' s' g' -> exists c, s = c :: s' /\ q c = true /\ p' = Some c /\ g' = g.
Proof. intros C. inversion C; subst; eauto. Qed.
Lemma walks_eps p s g p' s' g' : walks XEps p s g p' s' g' -> p' = p /\ s' = s /\ g' = g.
Proof. intros C. by inversion C. Qed.
Lemma walks_group n a p s g p' s' g' : walks (XGroup n a) p s g p' s' g' ->
  exists t g1, s = t ++ s' /\ walks a p s g p' s' g1 /\ g' = (n, t) :: g1.
Proof. intros C. inversion C; subst. eauto 10. Qed.
Lemma walks_not_prev q p s g p' s' g' : walks (XNotPrev q) p s g p' s' g' -> p' = p /\ s' = s /\ g' = g /\ not_at q p = true.
Proof. intros C. by inversion C. Qed.
Lemma walks_not_next q p s g p' s' g' : walks (XNotNext q) p s g p' s' g' -> p' = p /\ s' = s /\ g' = g /\ not_at q (head s) = true.
Proof. intros C. by inversion C. Qed.
Lemma walks_alt a b p s g p' s' g' : walks (XAlt a b) p s g p' s' g' -> walks a p s g p' s' g' \/ walks b p s g p' s' g'.
Proof. intros C. inversion C; subst; auto. Qed.
Lemma walks_bol p s g p' s' g' : walks XBol p s g p' s' g' -> p = None /\ p' = p /\ s' = s /\ g' = g.
Proof. intros C. by inversion C. Qed.
Lemma walks_eol p s g p' s' g' : walks XEol p s g p' s' g' -> s = [] /\ p' = p /\ s' = s /\ g' = g.
Proof. intros C. by inversion C. Qed.
(** A repeated class consumes characters of the class. *)
Lemma walks_class gr q p s g p' s' g' : walks (XStar gr (XChr q)) p s g p' s' g' ->
  exists t, s = t ++ s' /\ Forall (fun c => q c = true) t /\ g' = g.
Proof.
  intros C. remember (XStar gr (XChr q)) as x eqn:E. induction C; try discriminate; [by exists []|].
  injection E as -> ->. apply walks_chr in C1 as (c & -> & Q & -> & ->). destruct (IHC2 eq_refl) as (t & -> & F & ->).
  exists (c :: t). split; [done|]. split; [by constructor|done].
Qed.
