(* ===== verification/NodePath.v ===== *)
(** * Node's [path] module (POSIX)

    An absolute path is the list of its segments; [resolve], [relative],
    [join] and [basename] are Node's, with the current directory as an argument
    ([cwd], an absolute path) where Node reads [process.cwd()]. *)

From stdpp Require Import base list strings.
From Stdlib Require Import Ascii Lia.
From S2P Require Import Prelude JsString.

Definition slash : ascii := "/".
Definition isAbsolute (p : string) : bool := startsWith "/" p.

(** The non-empty segments of a path that are not ["."]. *)
Definition raw_segments (p : string) : list string :=
  List.filter (fun s => truthy s && negb (s =? ".")%string) (split_char slash p).

(** [".."] removes the last kept segment; at the root it does nothing. *)
Definition push_segment (acc : list string) (s : string) : list string :=
  if (s =? "..")%string then removelast acc else acc ++ [s].
Definition normalize_segments (l : list string) : list string := fold_left push_segment l [].

Definition of_segments (l : list string) : string := "/" +:+ join "/" l.

(** The segments of [path.resolve(p)]. *)
Definition segments (cwd p : string) : list string :=
  normalize_segments ((if isAbsolute p then [] else raw_segments cwd) ++ raw_segments p).
(** [path.resolve(p)] *)
Definition resolve (cwd p : string) : string := of_segments (segments cwd p).
(** [path.resolve(base, p)] *)
Definition resolve2 (cwd base p : string) : string :=
  if isAbsolute p then resolve cwd p
  else of_segments (normalize_segments
         ((if isAbsolute base then [] else raw_segments cwd) ++ raw_segments base ++ raw_segments p)).

Fixpoint strip_common (f t : list string) : list string * list string :=
  match f, t with
  | a :: f', b :: t' => if (a =? b)%string then strip_common f' t' else (f, t)
  | _, _ => (f, t)
  end.
(** [path.relative(from, to)] on the segments of the resolved arguments. *)
Definition relative_segments (f t : list string) : list string :=
  let '(f', t') := strip_common f t in replicate (length f') ".." ++ t'.
Definition relative (cwd from to : string) : string :=
  join "/" (relative_segments (segments cwd from) (segments cwd to)).

(** [path.join(a, b)] for an absolute [a]: normalised, a trailing slash kept. *)
Definition join2 (a b : string) : string :=
  let whole := a +:+ "/" +:+ b in
  let segs := normalize_segments (raw_segments whole) in
  let tail := if truthy b then b else a in
  if endsWith "/" tail && negb (bool_decide (segs = []))
  then of_segments segs +:+ "/" else of_segments segs.

(** [path.basename(p)] *)
Definition basename (p : string) : string :=
  default "" (last (List.filter truthy (split_char slash p))).

(** ** Containment, as two components of the program test it

    [relative === "" || (!relative.startsWith("..") && !path.isAbsolute(relative))] *)
Definition relative_inside (rel : string) : bool :=
  (rel =? "")%string || (negb (startsWith ".." rel) && negb (isAbsolute rel)).

(** ** Lemmas *)

(** A segment as [normalize_segments] leaves it: not empty, without a slash. *)
Definition seg_ok (s : string) : Prop := s <> "" /\ slash ∉ chars s.

Lemma split_list_no_sep sep l : Forall (fun w => Forall (fun c => sep c = false) w) (split_list sep l).
Proof.
  induction l as [|c l IH]; simpl; [repeat constructor|].
  destruct (sep c) eqn:E; [by constructor|].
  destruct (split_list sep l); inversion IH; subst; repeat constructor; done.
Qed.

Lemma raw_segments_ok p : Forall seg_ok (raw_segments p).
Proof.
  apply Forall_forall. intros s H. apply list_elem_of_In in H. unfold raw_segments in H.
  apply filter_In in H as [H B]. bool_prop. apply truthy_true in H0. split; [done|].
  unfold split_char in H. apply in_map_iff in H as (w & <- & Hw).
  pose proof (split_list_no_sep (fun d => bool_decide (d = slash)) (chars p)) as F.
  rewrite Forall_forall in F. apply list_elem_of_In, F in Hw.
  rewrite chars_of_chars. intros X. rewrite Forall_forall in Hw. apply Hw in X. bool_prop. done.
Qed.

Lemma removelast_Forall {A} (P : A -> Prop) l : Forall P l -> Forall P (removelast l).
Proof.
  induction 1 as [|x l Hx Hl IH]; simpl; [constructor|]. destruct l; [constructor|].
  by constructor.
Qed.

Lemma normalize_segments_Forall (P : string -> Prop) l :
  Forall P l -> Forall P (normalize_segments l).
Proof.
  unfold normalize_segments. assert (Forall P []) as H0 by constructor.
  revert H0. generalize (@nil string) as acc. induction l as [|s l IH]; simpl; [done|].
  intros acc Ha Hl. inversion Hl; subst. apply IH; [|done]. unfold push_segment.
  destruct (_ =? _)%string; [by apply removelast_Forall|].
  apply Forall_app. split; [done|]. by constructor.
Qed.

Lemma segments_ok cwd p : Forall seg_ok (segments cwd p).
Proof.
  unfold segments. apply normalize_segments_Forall, Forall_app.
  split; [|apply raw_segments_ok]. destruct (isAbsolute p); [constructor|apply raw_segments_ok].
Qed.

Lemma strip_common_spec f t f' t' :
  strip_common f t = (f', t') -> exists c, f = c ++ f' /\ t = c ++ t'.
Proof.
  revert t. induction f as [|a f IH]; intros t; simpl.
  { intros [= <- <-]. by exists []. }
  destruct t as [|b t]; [intros [= <- <-]; by exists []|].
  destruct (a =? b)%string eqn:E; [|intros [= <- <-]; by exists []].
  apply String.eqb_eq in E as ->. intros H. apply IH in H as (c & -> & ->). by exists (b :: c).
Qed.

Lemma strip_common_prefix c t : strip_common c (c ++ t) = ([], t).
Proof. induction c as [|a c IH]; simpl; [by destruct t|]. by rewrite String.eqb_refl. Qed.

(** What the boolean test of [relative] decides: the target is below the root,
    and the first component below it does not start with [".."]. *)
Definition below (root target : list string) : Prop :=
  exists rest, target = root ++ rest /\
    match rest with [] => True | s :: _ => startsWith ".." s = false end.

Lemma join_cons sep s l : exists t, join sep (s :: l) = s +:+ t.
Proof. destruct l as [|s' l]; [exists ""; apply chars_inj; by rewrite chars_app, app_nil_r|]. by eexists. Qed.

Lemma list_prefix_app p a b : list_prefix p (a ++ b) = true -> length p <= length a -> list_prefix p a = true.
Proof.
  revert a. induction p as [|c p IH]; intros a; simpl; [done|]. destruct a as [|d a]; simpl; [lia|].
  rewrite !andb_true_iff. intros [? ?] ?. split; [done|]. apply IH; [done|lia].
Qed.

Lemma startsWith_dotdot_join s l :
  seg_ok s -> startsWith ".." (join "/" (s :: l)) = startsWith ".." s.
Proof.
  intros [N _]. unfold startsWith. destruct l as [|s' l]; [done|].
  change (join "/" (s :: s' :: l)) with (s +:+ "/" +:+ join "/" (s' :: l)).
  rewrite chars_app. destruct (chars s) as [|a [|b w]] eqn:E.
  - by apply chars_nil in E.
  - simpl. by destruct (bool_decide _).
  - simpl. done.
Qed.

Lemma isAbsolute_join s l : seg_ok s -> isAbsolute (join "/" (s :: l)) = false.
Proof.
  intros [N S]. unfold isAbsolute, startsWith. destruct (join_cons "/" s l) as [t ->].
  rewrite chars_app. destruct (chars s) as [|a w] eqn:E; [by apply chars_nil in E|].
  simpl. rewrite bool_decide_eq_false_2; [done|]. intros <-. apply S, list_elem_of_here.
Qed.

Lemma join_nonempty s l : seg_ok s -> join "/" (s :: l) <> "".
Proof.
  intros [N _] E. destruct (join_cons "/" s l) as [t Et]. rewrite E in Et.
  apply (f_equal chars) in Et. rewrite chars_app in Et. symmetry in Et.
  apply app_nil in Et as [X _]. by apply chars_nil in X.
Qed.

Lemma relative_inside_segments f t :
  Forall seg_ok t -> (relative_inside (join "/" (relative_segments f t)) = true <-> below f t).
Proof.
  intros Ht. unfold relative_segments, below.
  destruct (strip_common f t) as [f' t'] eqn:E.
  pose proof (strip_common_spec _ _ _ _ E) as (c & -> & ->).
  destruct f' as [|a f']; cbn [length replicate app].
  - rewrite app_nil_r. split.
    + intros H. exists t'. split; [done|]. destruct t' as [|s t']; [done|].
      apply Forall_app in Ht as [_ Ht]. inversion Ht; subst. unfold relative_inside in H.
      apply orb_true_iff in H as [H|H]; bool_prop; [by apply join_nonempty in H|].
      by rewrite startsWith_dotdot_join in H.
    + intros (rest & Er & Hr). apply app_inv_head in Er as <-. unfold relative_inside.
      destruct t' as [|s t']; [done|]. apply Forall_app in Ht as [_ Ht]. inversion Ht; subst.
      rewrite startsWith_dotdot_join, isAbsolute_join, Hr by done. by rewrite orb_true_r.
  - unfold relative_inside. split.
    + intros H. exfalso.
      destruct (join_cons "/" ".." (replicate (length f') ".." ++ t')) as [u Eu].
      rewrite Eu in H. discriminate H.
    + intros (rest & Er & _). rewrite <- app_assoc in Er. apply app_inv_head in Er. subst t'.
      pose proof (strip_common_prefix (c ++ a :: f') rest) as X.
      rewrite <- app_assoc in X. cbn [app] in E, X. congruence.
Qed.

Lemma relative_inside_spec cwd root target :
  relative_inside (relative cwd root target) = true <->
  below (segments cwd root) (segments cwd target).
Proof. apply relative_inside_segments, segments_ok. Qed.

Example resolve_examples :
  (resolve "/w" "a/../b/./c/", resolve "/w" "/x//y/..", resolve2 "/w" "sub" "../..",
   relative "/" "/a/b" "/a/c/d", basename "/usr/bin/rm", join2 "/home/u" "x/") =
  ("/w/b/c", "/x", "/", "../c/d", "rm", "/home/u/x/").
Proof. vm_compute. reflexivity. Qed.

(** ** Files of a directory *)

Lemma split_list_nonempty sep l : split_list sep l <> [].
Proof. destruct l; simpl; [done|]. by repeat case_match. Qed.
Lemma split_list_app sep a c b :
  sep c = true -> split_list sep (a ++ c :: b) = split_list sep a ++ split_list sep b.
Proof.
  intros Hc. induction a as [|x a IH]; simpl; [by rewrite Hc|]. rewrite IH.
  destruct (sep x); [done|]. pose proof (split_list_nonempty sep a).
  by destruct (split_list sep a).
Qed.
Lemma split_list_single sep l : Forall (fun c => sep c = false) l -> split_list sep l = [l].
Proof. induction 1 as [|c l Hc _ IH]; simpl; [done|]. by rewrite Hc, IH. Qed.

(** The parts of a list between separators are parts of it. *)
Lemma split_infix sep l w : w ∈ split_list sep l -> exists u v, l = u ++ w ++ v.
Proof.
  assert (forall l w ws, split_list sep l = w :: ws -> (exists v, l = w ++ v) /\ forall x, x ∈ ws -> exists u v, l = u ++ x ++ v) as H.
  { clear l w. induction l as [|c l IH]; intros w ws; simpl.
    - intros [= <- <-]. split; [by exists []|]. intros x I. by apply elem_of_nil in I.
    - destruct (sep c).
      + intros [= <- <-]. split; [by exists (c :: l)|]. intros x I. destruct (split_list sep l) as [|w ws]; [by apply elem_of_nil in I|].
        destruct (IH w ws eq_refl) as [[v ->] R]. apply elem_of_cons in I as [->|I]; [by exists [c], v|]. destruct (R x I) as (u & v' & ->). by exists (c :: u), v'.
      + destruct (split_list sep l) as [|w' ws'] eqn:E; [by destruct (split_list_nonempty sep l)|]. intros [= <- <-].
        destruct (IH w' ws' eq_refl) as [[v ->] R]. split; [by exists v|]. intros x I. destruct (R x I) as (u & v' & ->). by exists (c :: u), v'. }
  destruct (split_list sep l) as [|w' ws] eqn:E; [by destruct (split_list_nonempty sep l)|]. destruct (H _ _ _ E) as [[v V] R].
  intros [->|I]%elem_of_cons; [by exists [], v|by apply R].
Qed.

Lemma raw_segments_app a b : raw_segments (a +:+ "/" +:+ b) = raw_segments a ++ raw_segments b.
Proof.
  unfold raw_segments, split_char. rewrite !chars_app. change (chars "/") with [slash]. simpl.
  rewrite split_list_app by (by apply bool_decide_eq_true). by rewrite map_app, List.filter_app.
Qed.
Lemma raw_segments_single s : seg_ok s -> s <> "." -> raw_segments s = [s].
Proof.
  intros [N S] D. unfold raw_segments, split_char. rewrite split_list_single.
  - simpl. rewrite of_chars_chars. apply String.eqb_neq in D. unfold truthy.
    apply String.eqb_neq in N. by rewrite N, D.
  - apply Forall_forall. intros c Hc. apply bool_decide_eq_false. by intros ->.
Qed.

(** A plain file name is appended to the directory's segments. *)
Definition file_name (s : string) : Prop := seg_ok s /\ s <> "." /\ s <> ".." /\ endsWith "/" s = false.

Lemma join2_file a s :
  file_name s -> join2 a s = of_segments (normalize_segments (raw_segments a) ++ [s]).
Proof.
  intros (K & D & DD & E). unfold join2. rewrite raw_segments_app, (raw_segments_single s) by done.
  destruct (truthy_true s) as [_ T]. rewrite T, E by apply K. simpl.
  assert (forall acc, push_segment acc s = acc ++ [s]) as P.
  { intros acc. unfold push_segment. apply String.eqb_neq in DD. by rewrite DD. }
  unfold normalize_segments. rewrite fold_left_app. simpl. by rewrite P.
Qed.

Lemma join_snoc sep l : exists pre, forall s, join sep (l ++ [s]) = pre +:+ s.
Proof.
  induction l as [|x l [pre IH]]; [by exists ""|]. exists (x +:+ sep +:+ pre). intros s.
  simpl. destruct (l ++ [s]) eqn:E; [by destruct l|]. rewrite <- E. unfold join in IH.
  rewrite IH. apply chars_inj. rewrite !chars_app, <- !app_assoc. done.
Qed.

Lemma of_segments_snoc_inj l s s' : of_segments (l ++ [s]) = of_segments (l ++ [s']) -> s = s'.
Proof.
  unfold of_segments. destruct (join_snoc "/" l) as [pre P]. rewrite !P. intros E.
  apply (f_equal chars) in E. rewrite !chars_app in E. do 2 apply app_inv_head in E.
  by apply chars_inj.
Qed.

Lemma join2_file_inj a s s' : file_name s -> file_name s' -> join2 a s = join2 a s' <-> s = s'.
Proof.
  intros F F'. rewrite !join2_file by done. split; [apply of_segments_snoc_inj|by intros ->].
Qed.

(** ** Resolving twice *)

(** The segments of a resolved path: no empty, ["."] or [".."] segment. *)
Definition plain_seg (s : string) : Prop := seg_ok s /\ s <> "." /\ s <> "..".

Lemma raw_segments_plain p : Forall (fun s => seg_ok s /\ s <> ".") (raw_segments p).
Proof.
  pose proof (raw_segments_ok p) as K. rewrite Forall_forall in *. intros s H. split; [by apply K|].
  apply list_elem_of_In, filter_In in H as [_ [_ H%negb_true_iff]%andb_true_iff].
  by apply String.eqb_neq.
Qed.

Lemma normalize_segments_plain l :
  Forall (fun s => seg_ok s /\ s <> ".") l -> Forall plain_seg (normalize_segments l).
Proof.
  unfold normalize_segments. assert (Forall plain_seg []) as H0 by constructor.
  revert H0. generalize (@nil string) as acc. induction l as [|s l IH]; simpl; [done|].
  intros acc A [[S D] L]%Forall_cons. apply IH; [|done]. unfold push_segment.
  destruct (s =? "..")%string eqn:E; [by apply removelast_Forall|]. apply String.eqb_neq in E.
  apply Forall_app. split; [done|]. by apply Forall_singleton.
Qed.

Lemma segments_plain cwd p : Forall plain_seg (segments cwd p).
Proof.
  unfold segments. apply normalize_segments_plain, Forall_app. split; [|apply raw_segments_plain].
  destruct (isAbsolute p); [constructor|apply raw_segments_plain].
Qed.

Lemma normalize_segments_id l : Forall plain_seg l -> normalize_segments l = l.
Proof.
  unfold normalize_segments. change l with ([] ++ l) at 3. generalize (@nil string) as acc.
  induction l as [|s l IH]; intros acc F; simpl; [by rewrite app_nil_r|].
  inversion F as [|? ? (S & D & DD) F']; subst. rewrite IH by done.
  unfold push_segment. apply String.eqb_neq in DD. rewrite DD. by rewrite <- app_assoc.
Qed.

Lemma raw_segments_of_segments l : Forall plain_seg l -> raw_segments (of_segments l) = l.
Proof.
  intros F. unfold of_segments.
  assert (raw_segments ("/" +:+ join "/" l) = raw_segments (join "/" l)) as ->.
  { apply (raw_segments_app "" (join "/" l)). }
  induction F as [|s l (S & D & DD) F IH]; [done|].
  destruct l as [|s' l]; [by apply raw_segments_single|].
  change (join "/" (s :: s' :: l)) with (s +:+ "/" +:+ join "/" (s' :: l)).
  rewrite raw_segments_app, IH, raw_segments_single by done. done.
Qed.

Lemma segments_resolve cwd p : segments cwd (resolve cwd p) = segments cwd p.
Proof.
  unfold resolve. pose proof (segments_plain cwd p) as F.
  unfold segments at 1. assert (isAbsolute (of_segments (segments cwd p)) = true) as -> by done.
  simpl. rewrite raw_segments_of_segments by done. by apply normalize_segments_id.
Qed.

Lemma resolve_idemp cwd p : resolve cwd (resolve cwd p) = resolve cwd p.
Proof. unfold resolve at 1. by rewrite segments_resolve. Qed.

Lemma relative_resolve cwd a b : relative cwd (resolve cwd a) (resolve cwd b) = relative cwd a b.
Proof. unfold relative. by rewrite !segments_resolve. Qed.
