(* ===== verification/ToolPolicy.v ===== *)
(** * Tool policies

    [src/src/agents/tool-policy.ts], [tool-policy-pipeline.ts],
    [pi-tools.policy.ts] and the tool selection of [pi-tools.ts]: which tools
    the model may call, from a profile and allow/deny lists of names, groups
    and prefix patterns.

    Tables that the code indexes with a computed key are object literals, so a
    lookup can also find what [Object.prototype] defines: [normalizeToolName]
    then returns a function or an object instead of a string, and the string
    methods applied to it throw. *)

From stdpp Require Import base list strings.
From Stdlib Require Import Ascii Lia Permutation.
From S2P Require Import Prelude JsString JsMap JsValue.

(** ** Data *)

Record ToolPolicyLike := mkPolicy {
  allow : option (list string);
  deny : option (list string);
}.

(** The fields of a tool the policies read. *)
Record AnyAgentTool := mkTool {
  tool_name : string;
  ownerOnly : bool;
}.

(** A normalised tool name: a string, or an inherited object or function. *)
Inductive tool_key : Type :=
| TName (s : string)
| TInherited.
#[export] Instance tool_key_eq_dec : EqDecision tool_key.
Proof. solve_decision. Defined.

Definition TOOL_NAME_ALIASES : list (string * string) :=
  [("bash", "exec"); ("apply-patch", "apply_patch")].

Definition memory_tools : list string :=
  ["memory_search"; "memory_get"; "memory_save"; "memory_delete"; "memory_list";
   "memory_prune"; "memory_feedback"; "memory_stats"; "memory_compact"].

Definition TOOL_GROUPS : list (string * list string) :=
  [("group:fs", ["read"; "write"; "edit"; "ls"; "find"; "exists"]);
   ("group:runtime", ["exec"; "process"]);
   ("group:email", ["email"]);
   ("group:messaging", ["message"; "sessions_send"; "email"]);
   ("group:web", ["web_search"; "web_fetch"]);
   ("group:memory", memory_tools);
   ("group:ui", ["browser"]);
   ("group:t560",
      ["exec"; "process"; "browser"; "email"; "web_search"; "web_fetch"] ++ memory_tools)].

Definition TOOL_PROFILES : list (string * ToolPolicyLike) :=
  [("minimal", mkPolicy (Some ["process"]) None);
   ("coding", mkPolicy (Some ["group:runtime"; "group:fs"; "group:web"; "group:memory";
                              "group:ui"; "group:email"]) None);
   ("messaging", mkPolicy (Some ["group:messaging"; "process"]) None);
   ("full", mkPolicy None None)].

(** ** Operations *)

Definition normalizeToolName (name : string) : tool_key :=
  let normalized := toLowerCase (trim name) in
  match obj_lookup normalized TOOL_NAME_ALIASES with
  | Own s => TName s
  | Inherited => TInherited
  | Missing => TName normalized
  end.

Definition key_truthy (k : tool_key) : bool :=
  match k with TName s => truthy s | TInherited => true end.

Definition normalizeToolList (l : option (list string)) : list tool_key :=
  match l with
  | None => []
  | Some l => List.filter key_truthy (map normalizeToolName l)
  end.

(** The loop body of [expandToolGroups]: a truthy inherited value is spread. *)
Definition expandItem (item : tool_key) : result (list tool_key) :=
  match item with
  | TName s =>
      match obj_lookup s TOOL_GROUPS with
      | Own group => Ok (map TName group)
      | Inherited => Throw "TypeError: group is not iterable"
      | Missing => Ok [item]
      end
  | TInherited => Ok [item]
  end.

Fixpoint expandItems (items : list tool_key) : result (list tool_key) :=
  match items with
  | [] => Ok []
  | item :: items' =>
      let? e := expandItem item in
      let? es := expandItems items' in
      Ok (e ++ es)
  end.

Definition expandToolGroups (l : option (list string)) : result (list tool_key) :=
  let? expanded := expandItems (normalizeToolList l) in
  Ok (dedup expanded).

Definition resolveToolProfilePolicy (profile : option string) : option ToolPolicyLike :=
  match profile with
  | None => None
  | Some p =>
      if truthy p then
        match obj_lookup (toLowerCase (trim p)) TOOL_PROFILES with
        | Own entry => Some entry
        | Inherited => Some (mkPolicy None None)
        | Missing => None
        end
      else None
  end.

Definition policy_allow (p : option ToolPolicyLike) : list string :=
  match p with Some p => default [] (allow p) | None => [] end.
Definition policy_deny (p : option ToolPolicyLike) : option (list string) :=
  match p with Some p => deny p | None => None end.

Definition mergeAlsoAllowPolicy (policy : option ToolPolicyLike) (alsoAllow : option (list string))
  : option ToolPolicyLike :=
  if negb (bool_decide (is_Some policy)) && (length (default [] alsoAllow) =? 0)%nat then policy
  else
    let allowed := policy_allow policy ++ default [] alsoAllow in
    Some (mkPolicy (if (0 <? length allowed)%nat then Some allowed else None) (policy_deny policy)).

Definition star : string := "*".

Definition matchToolPattern (toolName pattern : tool_key) : result bool :=
  match pattern with
  | TInherited => Throw "TypeError: pattern.endsWith is not a function"
  | TName p =>
      if (p =? star)%string then Ok true
      else if endsWith star p then
        match toolName with
        | TName t => Ok (startsWith (slice_to (slen p - 1) p) t)
        | TInherited => Throw "TypeError: toolName.startsWith is not a function"
        end
      else match toolName with
           | TName t => Ok (t =? p)%string
           | TInherited => Ok false
           end
  end.

#[global] Arguments matchToolPattern : simpl never.

(** [l.some(p)] with a predicate that may throw. *)
Fixpoint some_result {A} (p : A -> result bool) (l : list A) : result bool :=
  match l with
  | [] => Ok false
  | x :: l' => let? b := p x in if b then Ok true else some_result p l'
  end.

Definition isToolAllowedByPolicy (toolName : string) (policy : option ToolPolicyLike) : result bool :=
  match policy with
  | None => Ok true
  | Some policy =>
      let normalized := normalizeToolName toolName in
      let? denied := expandToolGroups (deny policy) in
      let? d := some_result (matchToolPattern normalized) denied in
      if d then Ok false
      else
        let? allowed := expandToolGroups (allow policy) in
        if (length allowed =? 0)%nat then Ok true
        else some_result (matchToolPattern normalized) allowed
  end.

#[global] Arguments isToolAllowedByPolicy : simpl never.

Definition applyOwnerOnlyToolPolicy (tools : list AnyAgentTool) (senderIsOwner : bool)
  : list AnyAgentTool :=
  if senderIsOwner then tools else List.filter (fun t => negb (ownerOnly t)) tools.

(** [l.filter(p)] with a predicate that may throw. *)
Fixpoint filter_result {A} (p : A -> result bool) (l : list A) : result (list A) :=
  match l with
  | [] => Ok []
  | x :: l' =>
      let? b := p x in
      let? r := filter_result p l' in
      Ok (if b then x :: r else r)
  end.

Definition filterToolsByPolicy (tools : list AnyAgentTool) (policy : option ToolPolicyLike)
  : result (list AnyAgentTool) :=
  match policy with
  | None => Ok tools
  | Some p => filter_result (fun t => isToolAllowedByPolicy (tool_name t) (Some p)) tools
  end.

#[global] Arguments filterToolsByPolicy : simpl never.

Record ToolPolicyPipelineStep := mkStep {
  step_label : string;
  step_policy : option ToolPolicyLike;
}.

Definition buildDefaultToolPolicyPipelineSteps
    (profilePolicy globalPolicy providerPolicy runtimePolicy : option ToolPolicyLike)
  : list ToolPolicyPipelineStep :=
  [mkStep "tools.profile" profilePolicy;
   mkStep "tools.allow" globalPolicy;
   mkStep "tools.byProvider.allow" providerPolicy;
   mkStep "tools.runtime" runtimePolicy].

Fixpoint applyToolPolicyPipeline (tools : list AnyAgentTool) (steps : list ToolPolicyPipelineStep)
  : result (list AnyAgentTool) :=
  match steps with
  | [] => Ok tools
  | step :: steps' =>
      match step_policy step with
      | None => applyToolPolicyPipeline tools steps'
      | Some p =>
          let? filtered := filterToolsByPolicy tools (Some p) in
          applyToolPolicyPipeline filtered steps'
      end
  end.

(** The tool fields of the configuration that select tools. *)
Record ToolsConfig := mkToolsConfig {
  dangerouslyUnrestricted : option bool;
  profile : option string;
  cfg_allow : option (list string);
  alsoAllow : option (list string);
  cfg_deny : option (list string);
  byProvider : option (list (string * ToolPolicyLike));
  runtime : option ToolPolicyLike;
}.

Definition resolveByProviderPolicy (byProvider : option (list (string * ToolPolicyLike)))
    (provider : option string) : option ToolPolicyLike :=
  match option_map (fun p => toLowerCase (trim p)) provider, byProvider with
  | Some p, Some l =>
      if truthy p then
        option_map snd (List.find (fun kv => (toLowerCase (trim kv.1) =? p)%string) l)
      else None
  | _, _ => None
  end.

Record EffectivePolicy := mkEffective {
  eff_profile : option string;
  globalPolicy : option ToolPolicyLike;
  providerPolicy : option ToolPolicyLike;
}.

Definition resolveEffectiveToolPolicy (configTools : option ToolsConfig) (provider : option string)
  : EffectivePolicy :=
  {| eff_profile := configTools ≫= profile;
     globalPolicy :=
       match configTools with
       | Some c => if bool_decide (is_Some (cfg_allow c)) || bool_decide (is_Some (cfg_deny c))
                   then Some (mkPolicy (cfg_allow c) (cfg_deny c)) else None
       | None => None
       end;
     providerPolicy := resolveByProviderPolicy (configTools ≫= byProvider) provider |}.

Definition resolveRuntimePolicy (configTools : option ToolsConfig) : option ToolPolicyLike :=
  configTools ≫= runtime.

(** The tools [createT560CodingTools] returns, given the tools it created. *)
Definition createT560CodingTools (baseTools : list AnyAgentTool) (configTools : option ToolsConfig)
    (modelProvider : option string) (senderIsOwner : option bool) : result (list AnyAgentTool) :=
  let owner := negb (bool_decide (senderIsOwner = Some false)) in
  if bool_decide (configTools ≫= dangerouslyUnrestricted = Some true)
  then Ok (applyOwnerOnlyToolPolicy baseTools owner)
  else
    let effective := resolveEffectiveToolPolicy configTools modelProvider in
    let profilePolicy :=
      mergeAlsoAllowPolicy (resolveToolProfilePolicy (eff_profile effective))
        (configTools ≫= alsoAllow) in
    let? filtered := applyToolPolicyPipeline baseTools
      (buildDefaultToolPolicyPipelineSteps profilePolicy (globalPolicy effective)
         (providerPolicy effective) (resolveRuntimePolicy configTools)) in
    Ok (applyOwnerOnlyToolPolicy filtered owner).

(** ** Specification *)

(** Names that no lookup finds on [Object.prototype]. *)
Definition plain_name (s : string) : Prop := toLowerCase (trim s) ∉ object_prototype_keys.
Definition plain_list (l : option (list string)) : Prop := Forall plain_name (default [] l).
Definition plain_policy (p : ToolPolicyLike) : Prop := plain_list (allow p) /\ plain_list (deny p).

(** A tool name after trimming, lower-casing and aliasing. *)
Definition canonical (s : string) : string :=
  let n := toLowerCase (trim s) in default n (mget n TOOL_NAME_ALIASES).

(** The entries a list stands for: groups are replaced by their members. *)
Definition members (s : string) : list string := default [s] (mget s TOOL_GROUPS).
Definition entries (l : option (list string)) : list string :=
  flat_map members (List.filter truthy (map canonical (default [] l))).

(** A pattern matches itself and, when it ends in a star, every extension of
    what precedes the star. *)
Definition pattern_matches (t p : string) : Prop :=
  t = p \/ exists pre rest, p = pre +:+ star /\ t = pre +:+ rest.

Definition policy_permits (t : string) (p : ToolPolicyLike) : Prop :=
  (forall e, In e (entries (deny p)) -> ~ pattern_matches (canonical t) e) /\
  (entries (allow p) = [] \/
   exists e, In e (entries (allow p)) /\ pattern_matches (canonical t) e).

(** ** Lemmas *)

Lemma normalizeToolName_plain s :
  plain_name s -> normalizeToolName s = TName (canonical s) /\ canonical s ∉ object_prototype_keys.
Proof.
  unfold plain_name, normalizeToolName, canonical, obj_lookup. intros H.
  destruct (mget _ TOOL_NAME_ALIASES) as [a|] eqn:E; simpl.
  - split; [done|]. apply mget_In in E. simpl in E.
    destruct E as [E|[E|[]]]; injection E as _ <-; compute_done.
  - by rewrite bool_decide_eq_false_2.
Qed.

Lemma normalizeToolList_plain l :
  plain_list l ->
  normalizeToolList l = map TName (List.filter truthy (map canonical (default [] l))).
Proof.
  unfold plain_list, normalizeToolList. destruct l as [l|]; simpl; [|done].
  induction 1 as [|s l Hs Hl IH]; simpl; [done|].
  destruct (normalizeToolName_plain s Hs) as [-> _]. simpl. rewrite IH. by case_match.
Qed.

Lemma expandItems_plain l :
  Forall (fun s => s ∉ object_prototype_keys) l ->
  expandItems (map TName l) = Ok (map TName (flat_map members l)).
Proof.
  induction 1 as [|s l Hs Hl IH]; simpl; [done|]. rewrite IH, map_app.
  unfold obj_lookup, members. destruct (mget s TOOL_GROUPS) eqn:E; simpl; [done|].
  by rewrite bool_decide_eq_false_2.
Qed.

Lemma expandToolGroups_plain l :
  plain_list l -> expandToolGroups l = Ok (dedup (map TName (entries l))).
Proof.
  intros H. unfold expandToolGroups. rewrite normalizeToolList_plain by done.
  rewrite expandItems_plain; [done|].
  unfold plain_list in H. induction H as [|s k Hs Hk IH]; simpl; [constructor|].
  destruct (normalizeToolName_plain s Hs) as [_ ?]. case_match; [by constructor|done].
Qed.

Lemma matchToolPattern_plain t p :
  exists b, matchToolPattern (TName t) (TName p) = Ok b /\ (b = true <-> pattern_matches t p).
Proof.
  unfold matchToolPattern, pattern_matches.
  destruct (p =? star)%string eqn:E; bool_prop.
  { exists true. subst. split; [done|]. split; [|done]. intros _. right. by exists "", t. }
  destruct (endsWith star p) eqn:F.
  - eexists. split; [done|]. apply endsWith_spec in F as [pre ->].
    assert (slice_to (slen (pre +:+ star) - 1) (pre +:+ star) = pre) as ->.
    { unfold slice_to. apply chars_inj. rewrite chars_of_chars, chars_app, slen_app.
      rewrite firstn_app. unfold slen. simpl. rewrite Nat.add_sub, firstn_all, Nat.sub_diag.
      apply app_nil_r. }
    rewrite startsWith_spec. split.
    + intros [r ->]. right. eauto.
    + intros [->|(pre' & r & Ep & ->)]; [eauto|].
      apply (f_equal chars) in Ep. rewrite !chars_app in Ep. apply app_inj_tail in Ep as [Ep _].
      apply chars_inj in Ep as ->. eauto.
  - eexists. split; [done|]. rewrite String.eqb_eq. split; [by left|].
    intros [?|(pre & r & -> & _)]; [done|].
    rewrite (proj2 (endsWith_spec star (pre +:+ star))) in F; [done|eauto].
Qed.

Lemma some_result_plain t l :
  exists b, some_result (matchToolPattern (TName t)) (map TName l) = Ok b /\
    (b = true <-> exists e, In e l /\ pattern_matches t e).
Proof.
  induction l as [|p l (b & IH & Hb)]; simpl; [exists false; naive_solver|].
  destruct (matchToolPattern_plain t p) as (c & -> & Hc). simpl. destruct c.
  - exists true. naive_solver.
  - exists b. split; [done|]. rewrite Hb. naive_solver.
Qed.

(** Removing duplicates does not change what [some] finds. *)
Lemma dedup_map_TName l : exists k, dedup (map TName l) = map TName k /\ forall x, In x k <-> In x l.
Proof.
  exists (omap (fun x => match x with TName s => Some s | TInherited => None end) (dedup (map TName l))).
  assert (forall m, (forall x, x ∈ m -> exists s, x = TName s) ->
    map TName (omap (fun x => match x with TName s => Some s | TInherited => None end) m) = m) as H.
  { induction m as [|[s|] m IH]; intros Hm; simpl; [done| |].
    - f_equal. apply IH. intros y Hy. apply Hm. by right.
    - destruct (Hm TInherited (list_elem_of_here _ _)). done. }
  split.
  - symmetry. apply H. intros x Hx. apply elem_of_dedup, list_elem_of_In, in_map_iff in Hx.
    destruct Hx as (s & <- & _). eauto.
  - intros s. rewrite <- !list_elem_of_In, list_elem_of_omap. split.
    + intros (x & Hx & Es). apply elem_of_dedup, list_elem_of_In, in_map_iff in Hx.
      destruct Hx as (s' & <- & Hs). injection Es as ->. by apply list_elem_of_In.
    + intros Hs. exists (TName s). split; [|done]. apply elem_of_dedup, list_elem_of_In, in_map_iff.
      exists s. split; [done|]. by apply list_elem_of_In.
Qed.

Lemma filter_result_ok {A} (p : A -> result bool) l out :
  filter_result p l = Ok out ->
  out = List.filter (fun x => match p x with Ok true => true | _ => false end) l.
Proof.
  revert out. induction l as [|x l IH]; intros out; simpl; [by intros [= <-]|].
  destruct (p x) as [b|]; simpl; [|done].
  destruct (filter_result p l) as [r|]; simpl; [|done]. intros [= <-].
  rewrite (IH r eq_refl). by destruct b.
Qed.

Lemma filter_result_total {A} (p : A -> result bool) l :
  (forall x, In x l -> exists b, p x = Ok b) -> exists out, filter_result p l = Ok out.
Proof.
  induction l as [|x l IH]; intros H; simpl; [eauto|].
  destruct (H x (or_introl eq_refl)) as [b ->]. simpl.
  destruct IH as [r ->]; [intros y Hy; apply H; by right|]. simpl. eauto.
Qed.

Lemma filter_filter_andb {A} (p q : A -> bool) l :
  List.filter p (List.filter q l) = List.filter (fun x => q x && p x) l.
Proof.
  induction l as [|x l IH]; simpl; [done|]. destruct (q x); simpl; [|done].
  rewrite IH. done.
Qed.

(** The tools one step lets through. *)
Definition step_lets (t : AnyAgentTool) (s : ToolPolicyPipelineStep) : bool :=
  match isToolAllowedByPolicy (tool_name t) (step_policy s) with Ok true => true | _ => false end.

Lemma pipeline_ok_filter tools steps out :
  applyToolPolicyPipeline tools steps = Ok out ->
  out = List.filter (fun t => forallb (step_lets t) steps) tools.
Proof.
  revert tools. induction steps as [|s steps IH]; intros tools; simpl.
  { intros [= <-]. by induction tools as [|t tools IH]; simpl; [|f_equal]. }
  unfold step_lets at 1. destruct (step_policy s) as [p|]; simpl.
  - intros H. apply rbind_ok_inv in H as (mid & Hmid & H). apply IH in H as ->.
    unfold filterToolsByPolicy in Hmid. apply filter_result_ok in Hmid as ->. apply filter_filter_andb.
  - intros H. apply IH in H as ->. done.
Qed.

Definition plain_step (s : ToolPolicyPipelineStep) : Prop :=
  match step_policy s with Some p => plain_policy p | None => True end.

Lemma isToolAllowed_plain t p :
  plain_name t -> plain_policy p ->
  exists b, isToolAllowedByPolicy t (Some p) = Ok b /\ (b = true <-> policy_permits t p).
Proof.
  intros Ht [Ha Hd]. unfold isToolAllowedByPolicy, policy_permits.
  destruct (normalizeToolName_plain t Ht) as [-> _].
  rewrite (expandToolGroups_plain (deny p)), (expandToolGroups_plain (allow p)) by done. simpl.
  destruct (dedup_map_TName (entries (deny p))) as (kd & -> & Hkd).
  destruct (dedup_map_TName (entries (allow p))) as (ka & -> & Hka).
  destruct (some_result_plain (canonical t) kd) as (d & -> & Hd'). simpl.
  destruct d.
  { exists false. split; [done|]. split; [done|]. intros [H _].
    destruct (proj1 Hd' eq_refl) as (e & He & M). apply Hkd in He. by destruct (H e He). }
  assert (forall e, In e (entries (deny p)) -> ~ pattern_matches (canonical t) e) as Hnd.
  { intros e He M. enough (false = true) by done. apply Hd'. exists e. by rewrite Hkd. }
  rewrite length_map. destruct ka as [|a ka]; simpl.
  - exists true. split; [done|]. split; [|done]. intros _. split; [done|]. left.
    destruct (entries (allow p)) as [|x l]; [done|]. by destruct (proj2 (Hka x) (or_introl eq_refl)).
  - destruct (some_result_plain (canonical t) (a :: ka)) as (b & E & Hb). simpl in E. rewrite E.
    exists b. split; [done|]. rewrite Hb. setoid_rewrite Hka. split; [naive_solver|].
    intros [_ [Hn|?]]; [|done]. rewrite Hn in Hka. by destruct (proj1 (Hka a) (or_introl eq_refl)).
Qed.

Lemma pipeline_total tools steps :
  Forall (fun t => plain_name (tool_name t)) tools -> Forall plain_step steps ->
  exists out, applyToolPolicyPipeline tools steps = Ok out.
Proof.
  intros Ht Hs. revert tools Ht. induction Hs as [|s steps Hp Hs IH]; intros tools Ht; simpl; [eauto|].
  unfold plain_step in Hp. destruct (step_policy s) as [p|]; [|auto].
  destruct (filter_result_total (fun t => isToolAllowedByPolicy (tool_name t) (Some p)) tools) as [mid E].
  { intros x Hx. rewrite Forall_forall in Ht.
    destruct (isToolAllowed_plain (tool_name x) p) as (b & -> & _); [apply Ht; by apply list_elem_of_In|done|eauto]. }
  unfold filterToolsByPolicy. rewrite E. simpl. apply IH. apply filter_result_ok in E as ->.
  rewrite Forall_forall in *. intros x Hx. apply list_elem_of_In, filter_In in Hx as [Hx _].
  apply Ht. by apply list_elem_of_In.
Qed.

(** ** Properties *)

(** C1: on names that are not keys of [Object.prototype], [isToolAllowedByPolicy]
    never throws and decides the policy: no entry of the deny list (groups
    expanded) matches the canonical tool name, and the allow list is empty or one
    of its entries matches. *)
Theorem isToolAllowedByPolicy_spec t p :
  plain_name t -> plain_policy p ->
  exists b, isToolAllowedByPolicy t (Some p) = Ok b /\ (b = true <-> policy_permits t p).
Proof. apply isToolAllowed_plain. Qed.

Definition sample_policy : ToolPolicyLike :=
  mkPolicy (Some ["group:fs"; "web_*"; " Bash "]) (Some ["write"]).
Lemma sample_policy_plain : plain_policy sample_policy.
Proof. split; unfold plain_list, plain_name; by_decide. Qed.

Lemma isToolAllowedByPolicy_spec_witness :
  isToolAllowedByPolicy "EXEC" (Some sample_policy) = Ok true /\
  (exists b, isToolAllowedByPolicy "EXEC" (Some sample_policy) = Ok b /\
     (b = true <-> policy_permits "EXEC" sample_policy)).
Proof.
  split; [vm_compute; reflexivity|].
  apply (isToolAllowedByPolicy_spec "EXEC" sample_policy); [|apply sample_policy_plain].
  unfold plain_name. by_decide.
Defined.

(** the policy pipeline terminates without an error on plain names and
    returns, in the original order, exactly the tools every step lets through;
    in particular its result does not depend on the order of the steps. *)
Theorem pipeline_conjunction tools steps steps' :
  Forall (fun t => plain_name (tool_name t)) tools -> Forall plain_step steps ->
  Permutation steps steps' ->
  exists out, applyToolPolicyPipeline tools steps = Ok out /\
    out = List.filter (fun t => forallb (step_lets t) steps) tools /\
    applyToolPolicyPipeline tools steps' = Ok out.
Proof.
  intros Ht Hs HP. destruct (pipeline_total tools steps Ht Hs) as [out E].
  destruct (pipeline_total tools steps' Ht) as [out' E']; [by rewrite <- HP|].
  exists out. rewrite E, E'. apply pipeline_ok_filter in E as ->, E' as ->.
  split; [done|]. split; [done|]. f_equal. apply filter_ext. intros t.
  symmetry. by apply forallb_Permutation.
Qed.

Definition sample_tools : list AnyAgentTool :=
  [mkTool "exec" false; mkTool "write" false; mkTool "read" false; mkTool "browser" true].
Lemma pipeline_conjunction_witness :
  exists out,
    applyToolPolicyPipeline sample_tools
      [mkStep "a" (Some sample_policy); mkStep "b" None] = Ok out /\
    out = List.filter (fun t => forallb (step_lets t)
            [mkStep "a" (Some sample_policy); mkStep "b" None]) sample_tools /\
    applyToolPolicyPipeline sample_tools
      [mkStep "b" None; mkStep "a" (Some sample_policy)] = Ok out.
Proof.
  apply (pipeline_conjunction sample_tools [mkStep "a" (Some sample_policy); mkStep "b" None]).
  - repeat constructor; unfold plain_name; by_decide.
  - repeat constructor; unfold plain_list, plain_name; by_decide.
  - apply perm_swap.
Defined.


Definition sample_config : ToolsConfig :=
  mkToolsConfig None (Some "coding") None None (Some ["exec"])
    (Some [("OpenAI", mkPolicy None (Some ["browser"]))]) None.

(** [alsoAllow] narrows an unrestricted profile instead of extending it: the
    profile [full] permits every plain tool name, but as soon as [alsoAllow]
    names one tool that does not match, the merged policy rejects it. *)
Theorem alsoAllow_narrows_full_profile t extra :
  plain_name t -> plain_list (Some extra) -> entries (Some extra) <> [] ->
  (forall e, In e (entries (Some extra)) -> ~ pattern_matches (canonical t) e) ->
  isToolAllowedByPolicy t (mergeAlsoAllowPolicy (resolveToolProfilePolicy (Some "full")) None) = Ok true /\
  isToolAllowedByPolicy t (mergeAlsoAllowPolicy (resolveToolProfilePolicy (Some "full")) (Some extra)) = Ok false.
Proof.
  intros Ht He Hn Hm.
  assert (resolveToolProfilePolicy (Some "full") = Some (mkPolicy None None)) as -> by done. split.
  - destruct (isToolAllowed_plain t (mkPolicy None None) Ht) as (b & E & Hb); [by split; constructor|].
    change (mergeAlsoAllowPolicy _ None) with (Some (mkPolicy None None)). rewrite E.
    destruct b; [done|]. enough (false = true) by done. apply Hb. split; [intros ? []|by left].
  - assert (mergeAlsoAllowPolicy (Some (mkPolicy None None)) (Some extra) =
      Some (mkPolicy (Some extra) None)) as ->.
    { unfold mergeAlsoAllowPolicy. simpl. destruct extra; [done|]. done. }
    destruct (isToolAllowed_plain t (mkPolicy (Some extra) None) Ht) as (b & -> & Hb);
      [by split; [|constructor]|].
    destruct b; [|done]. destruct (proj1 Hb eq_refl) as [_ [?|(e & ? & ?)]]; [done|].
    by destruct (Hm e).
Qed.

Lemma alsoAllow_narrows_full_profile_witness :
  isToolAllowedByPolicy "read" (mergeAlsoAllowPolicy (resolveToolProfilePolicy (Some "full")) None) = Ok true /\
  isToolAllowedByPolicy "read"
    (mergeAlsoAllowPolicy (resolveToolProfilePolicy (Some "full")) (Some ["email"])) = Ok false.
Proof.
  apply (alsoAllow_narrows_full_profile "read" ["email"]).
  - unfold plain_name. by_decide.
  - unfold plain_list, plain_name. by_decide.
  - by vm_compute.
  - intros e [<-|[]] [H|(pre & r & H & _)]; [by vm_compute in H|].
    assert (endsWith star "email" = true) as X by (apply endsWith_spec; eauto). by vm_compute in X.
Defined.

(** a list entry that normalises to a key of [Object.prototype] makes
    the decision throw for every tool it is compared with. *)
Theorem prototype_entry_throws t : 
  plain_name t -> is_ok (isToolAllowedByPolicy t (Some (mkPolicy None (Some [" Constructor "])))) = false.
Proof.
  intros Ht. unfold isToolAllowedByPolicy. destruct (normalizeToolName_plain t Ht) as [-> _]. done.
Qed.
Lemma prototype_entry_throws_witness :
  is_ok (isToolAllowedByPolicy "read" (Some (mkPolicy None (Some [" Constructor "])))) = false.
Proof. apply (prototype_entry_throws "read"). unfold plain_name. by_decide. Defined.
