(* ===== verification/ToolCallId.v ===== *)
(** * Tool-call identifiers

    [src/src/agents/tool-call-id.ts]: sanitising tool-call ids to what a
    provider accepts, and rewriting a whole transcript so that calls and results
    keep referring to each other.

    The hash ([createHash("sha1")] of Node's crypto) is a parameter; its hex
    digest is 40 alphanumeric characters.  [Date.now()] is a clock indexed by the
    number of readings taken. *)

From stdpp Require Import base list sets strings pretty.
From Stdlib Require Import Ascii Lia ZArith.
From S2P Require Import Prelude JsString JsMap JsValue.

Inductive ToolCallIdMode : Type := strict | strict9.
#[export] Instance mode_eq_dec : EqDecision ToolCallIdMode.
Proof. solve_decision. Defined.

Definition STRICT9_LEN : nat := 9.
Definition TOOL_CALL_TYPES : list string := ["toolCall"; "toolUse"; "functionCall"].

Record ToolCallLike := mkCall { call_id : string; call_name : option string }.

(** ** Reading ids off messages *)

Definition extractToolCall (block : value) : list ToolCallLike :=
  if is_object block then
    match get_prop "id" block with
    | VStr id =>
        if truthy id then
          match get_prop "type" block with
          | VStr t =>
              if bool_decide (t ∈ TOOL_CALL_TYPES) then
                [mkCall id (match get_prop "name" block with VStr n => Some n | _ => None end)]
              else []
          | _ => []
          end
        else []
    | _ => []
    end
  else [].

Definition extractToolCallsFromAssistant (msg : value) : list ToolCallLike :=
  match get_prop "content" msg with
  | VArr content => flat_map extractToolCall content
  | _ => []
  end.

Definition extractToolResultId (msg : value) : option string :=
  match get_prop "toolCallId" msg with
  | VStr s => if truthy s then Some s else
      match get_prop "toolUseId" msg with
      | VStr t => if truthy t then Some t else None
      | _ => None
      end
  | _ => match get_prop "toolUseId" msg with
         | VStr t => if truthy t then Some t else None
         | _ => None
         end
  end.

Definition is_role (r : string) (msg : value) : bool := is_str r (get_prop "role" msg).

(** [used.add(id)] on a set kept as a list. *)
Definition set_add (x : string) (s : list string) : list string :=
  if bool_decide (x ∈ s) then s else s ++ [x].

Definition collectFrom (used : list string) (msg : value) : list string :=
  if negb (is_object msg) then used
  else if is_role "assistant" msg then
    fold_left (fun u c => set_add (call_id c) u) (extractToolCallsFromAssistant msg) used
  else if is_role "toolResult" msg then
    match extractToolResultId msg with Some id => set_add id used | None => used end
  else used.
Definition collectToolCallIds (messages : list value) : list string :=
  fold_left collectFrom messages [].

Section WithHash.
(** [createHash("sha1").update(text).digest("hex")] *)
Variable sha1_hex : string -> string.
(** The successive results of [Date.now()]. *)
Variable clock : nat -> Z.

Definition shortHash (text : string) (len : nat) : string := slice_to len (sha1_hex text).

Definition alphanumericOnly (id : string) : string := replace_outside is_alnum [] id.

Definition sanitizeToolCallId (id : string) (mode : ToolCallIdMode) : string :=
  if negb (truthy id) then
    match mode with strict9 => "defaultid" | strict => "defaulttoolid" end
  else
    let a := alphanumericOnly id in
    match mode with
    | strict9 =>
        if (STRICT9_LEN <=? slen a)%nat then slice_to STRICT9_LEN a
        else if (0 <? slen a)%nat then shortHash a STRICT9_LEN
        else shortHash "sanitized" STRICT9_LEN
    | strict => if (0 <? slen a)%nat then a else "sanitizedtoolid"
    end.

(** [for (let i = start; i < start + count; i += 1)] returning the first
    candidate that is not used. *)
Fixpoint first_free (f : nat -> string) (used : list string) (start count : nat) : option string :=
  match count with
  | 0 => None
  | S c => if bool_decide (f start ∈ used) then first_free f used (S start) c
           else Some (f start)
  end.

Definition MAX_LEN : nat := 40.

(** The candidates of the last loop: a suffix [x<i>] replaces the end. *)
Definition numbered (candidate : string) (i : nat) : string :=
  let suffix := "x" +:+ pretty i in
  slice_to (MAX_LEN - slen suffix) candidate +:+ suffix.

(** The second result counts the readings of the clock. *)
Definition makeUniqueToolCallId (id : string) (used : list string) (mode : ToolCallIdMode)
    (tick : nat) : string * nat :=
  match mode with
  | strict9 =>
      let base := sanitizeToolCallId id strict9 in
      let candidate := if (STRICT9_LEN <=? slen base)%nat then slice_to STRICT9_LEN base else "" in
      if truthy candidate && negb (bool_decide (candidate ∈ used)) then (candidate, tick)
      else
        match first_free (fun i => shortHash (id +:+ ":" +:+ pretty i) STRICT9_LEN) used 0 1000 with
        | Some hashed => (hashed, tick)
        | None => (shortHash (id +:+ ":" +:+ pretty (clock tick)) STRICT9_LEN, S tick)
        end
  | strict =>
      let base := slice_to MAX_LEN (sanitizeToolCallId id strict) in
      if negb (bool_decide (base ∈ used)) then (base, tick)
      else
        let hash := shortHash id 8 in
        let maxBaseLen := MAX_LEN - slen hash in
        let clippedBase := if (maxBaseLen <? slen base)%nat then slice_to maxBaseLen base else base in
        let candidate := clippedBase +:+ hash in
        if negb (bool_decide (candidate ∈ used)) then (candidate, tick)
        else
          match first_free (numbered candidate) used 2 998 with
          | Some next => (next, tick)
          | None =>
              let ts := "t" +:+ pretty (clock tick) in
              (slice_to (MAX_LEN - slen ts) candidate +:+ ts, S tick)
          end
  end.

(** ** Rewriting a transcript *)

Record resolver := mkResolver {
  id_map : list (string * string);
  used_ids : list string;
  ticks : nat;
}.

(** The closure [resolve] of [sanitizeToolCallIdsForTranscript]. *)
Definition resolve_id (mode : ToolCallIdMode) (id : string) (st : resolver) : string * resolver :=
  let fresh :=
    let '(next, t) := makeUniqueToolCallId id (used_ids st) mode (ticks st) in
    (next, mkResolver (mset id next (id_map st)) (set_add next (used_ids st)) t) in
  match mget id (id_map st) with
  | Some existing => if truthy existing then (existing, st) else fresh
  | None => fresh
  end.

Definition rewriteBlock (mode : ToolCallIdMode) (block : value) (st : resolver)
  : value * bool * resolver :=
  if negb (is_object block) then (block, false, st)
  else
    match get_prop "type" block, get_prop "id" block with
    | VStr t, VStr id =>
        if bool_decide (t ∈ TOOL_CALL_TYPES) && truthy id then
          let '(nextId, st') := resolve_id mode id st in
          if (nextId =? id)%string then (block, false, st')
          else (with_prop "id" (VStr nextId) block, true, st')
        else (block, false, st)
    | _, _ => (block, false, st)
    end.

Fixpoint rewriteBlocks (mode : ToolCallIdMode) (content : list value) (st : resolver)
  : list value * bool * resolver :=
  match content with
  | [] => ([], false, st)
  | b :: rest =>
      let '(b', c1, st1) := rewriteBlock mode b st in
      let '(rest', c2, st2) := rewriteBlocks mode rest st1 in
      (b' :: rest', c1 || c2, st2)
  end.

Definition rewriteAssistantToolCallIds (mode : ToolCallIdMode) (message : value) (st : resolver)
  : value * bool * resolver :=
  match get_prop "content" message with
  | VArr content =>
      let '(next, changed, st') := rewriteBlocks mode content st in
      if changed then (with_prop "content" (VArr next) message, true, st')
      else (message, false, st')
  | _ => (message, false, st)
  end.

Definition nonempty_str (v : value) : option string :=
  match v with VStr s => if truthy s then Some s else None | _ => None end.

Definition resolve_opt (mode : ToolCallIdMode) (o : option string) (st : resolver)
  : option string * resolver :=
  match o with
  | Some id => let '(next, st') := resolve_id mode id st in (Some next, st')
  | None => (None, st)
  end.

(** [...(next && { key: next })] *)
Definition set_id (key : string) (o : option string) (msg : value) : value :=
  match o with
  | Some s => if truthy s then with_prop key (VStr s) msg else msg
  | None => msg
  end.

Definition rewriteToolResultIds (mode : ToolCallIdMode) (message : value) (st : resolver)
  : value * bool * resolver :=
  let toolCallId := nonempty_str (get_prop "toolCallId" message) in
  let toolUseId := nonempty_str (get_prop "toolUseId" message) in
  let '(nextToolCallId, st1) := resolve_opt mode toolCallId st in
  let '(nextToolUseId, st2) := resolve_opt mode toolUseId st1 in
  if bool_decide (nextToolCallId = toolCallId) && bool_decide (nextToolUseId = toolUseId)
  then (message, false, st2)
  else (set_id "toolUseId" nextToolUseId (set_id "toolCallId" nextToolCallId message), true, st2).

Definition rewriteMessage (mode : ToolCallIdMode) (msg : value) (st : resolver)
  : value * bool * resolver :=
  if negb (is_object msg) then (msg, false, st)
  else if is_role "assistant" msg then rewriteAssistantToolCallIds mode msg st
  else if is_role "toolResult" msg then rewriteToolResultIds mode msg st
  else (msg, false, st).

Fixpoint rewriteMessages (mode : ToolCallIdMode) (messages : list value) (st : resolver)
  : list value * bool * resolver :=
  match messages with
  | [] => ([], false, st)
  | m :: rest =>
      let '(m', c1, st1) := rewriteMessage mode m st in
      let '(rest', c2, st2) := rewriteMessages mode rest st1 in
      (m' :: rest', c1 || c2, st2)
  end.

Definition sanitizeToolCallIdsForTranscript (messages : list value) (mode : ToolCallIdMode)
  : list value :=
  let '(out, changed, _) := rewriteMessages mode messages (mkResolver [] [] 0) in
  if changed then out else messages.
End WithHash.

(** ** Lemmas *)

Definition alnum (s : string) : Prop := forallb is_alnum (chars s) = true.

Lemma alnum_app s t : alnum s -> alnum t -> alnum (s +:+ t).
Proof. unfold alnum. rewrite chars_app, forallb_app. by intros -> ->. Qed.
Lemma alnum_slice_to n s : alnum s -> alnum (slice_to n s).
Proof.
  unfold alnum, slice_to. rewrite chars_of_chars, !forallb_forall. intros H c Hc. apply H.
  rewrite <- (firstn_skipn n (chars s)). apply in_app_iff. by left.
Qed.
Lemma alnum_digits s : forallb is_digit (chars s) = true -> alnum s.
Proof.
  unfold alnum. rewrite !forallb_forall. intros H c Hc. unfold is_alnum.
  rewrite (H c Hc). apply orb_true_r.
Qed.
Lemma slen_slice_to n s : slen (slice_to n s) = Nat.min n (slen s).
Proof. unfold slice_to. rewrite slen_of_chars, length_firstn. done. Qed.
Lemma alphanumericOnly_alnum id : alnum (alphanumericOnly id).
Proof. by apply replace_outside_class. Qed.
#[export] Hint Resolve alnum_app alnum_slice_to alnum_digits alphanumericOnly_alnum
  pretty_nat_digits pretty_Z_digits : t560.

#[export] Hint Extern 1 (alnum (String _ _)) => reflexivity : t560.

Lemma first_free_Some f used start count s :
  first_free f used start count = Some s ->
  s ∉ used /\ exists i, start <= i < start + count /\ s = f i.
Proof.
  revert start. induction count as [|c IH]; intros start; simpl; [done|].
  case_bool_decide.
  - intros E. apply IH in E as (? & i & ? & ->). split; [done|]. exists i. split; [lia|done].
  - intros [= <-]. split; [done|]. exists start. split; [lia|done].
Qed.
Lemma first_free_None f used start count :
  first_free f used start count = None -> forall i, start <= i < start + count -> f i ∈ used.
Proof.
  revert start. induction count as [|c IH]; intros start; simpl; [lia|].
  case_bool_decide; [|done]. intros E i Hi. destruct (decide (i = start)) as [->|]; [done|].
  apply (IH (S start)); [done|lia].
Qed.

#[global] Arguments first_free : simpl never.

(** The numbered candidates are pairwise different: the digits after the last
    [x] determine the number. *)
Lemma app_x_digits_inj (a b d e : list ascii) :
  forallb is_digit d = true -> forallb is_digit e = true ->
  a ++ "x"%char :: d = b ++ "x"%char :: e -> d = e.
Proof.
  intros Hd He E. apply (f_equal (@rev ascii)) in E.
  rewrite !rev_app_distr in E. simpl in E. rewrite <- !app_assoc in E. simpl in E.
  assert (forall k l u v, forallb is_digit k = true -> forallb is_digit l = true ->
    k ++ "x"%char :: u = l ++ "x"%char :: v -> k = l) as X.
  { clear. induction k as [|c k IH]; intros [|d l] u v Hk Hl E; simpl in *; try done.
    - injection E as <- _. simpl in Hl. done.
    - injection E as -> _. done.
    - injection E as -> E. bool_prop. f_equal. by eapply IH. }
  rewrite <- (rev_involutive d), <- (rev_involutive e). f_equal.
  eapply X; [| |exact E]; rewrite forallb_forall in *; intros c Hc; apply in_rev in Hc; auto.
Qed.

Lemma numbered_inj s i j : numbered s i = numbered s j -> i = j.
Proof.
  unfold numbered. intros E. apply (f_equal chars) in E. rewrite !chars_app in E.
  apply app_x_digits_inj in E; [|apply pretty_nat_digits..].
  apply chars_inj in E. by apply (inj pretty) in E.
Qed.

(** More candidates than ids in use: one is free. *)
Lemma some_free f used start count :
  NoDup (map f (seq start count)) -> length used < count -> exists n, first_free f used start count = Some n.
Proof.
  intros ND L. destruct (first_free _ _ _ _) eqn:E; [eauto|]. exfalso.
  pose proof (first_free_None _ _ _ _ E) as H.
  assert (incl (map f (seq start count)) used) as I.
  { intros x Hx. apply in_map_iff in Hx as (i & <- & Hi). apply in_seq in Hi.
    apply list_elem_of_In, H. lia. }
  apply NoDup_ListNoDup in ND. pose proof (NoDup_incl_length ND I) as K.
  rewrite length_map, length_seq in K. lia.
Qed.
Lemma numbered_some_free s used start count :
  length used < count -> exists n, first_free (numbered s) used start count = Some n.
Proof. apply some_free. apply NoDup_fmap_2_strong; [|apply NoDup_seq]. intros x y _ _. apply numbered_inj. Qed.

(** The thousand digests tried for an id in strict9 mode, cut to nine characters,
    are pairwise different. *)
Definition spread_digests (sha1_hex : string -> string) (id : string) : Prop :=
  NoDup (map (fun i => shortHash sha1_hex (id +:+ ":" +:+ pretty i) STRICT9_LEN) (seq 0 1000)).
(** What a provider accepts in each mode. *)
Definition acceptable (mode : ToolCallIdMode) (id : string) : Prop :=
  alnum id /\ match mode with strict => 0 < slen id <= 40 | strict9 => slen id = 9 end.

Section Laws.
Variable sha1_hex : string -> string.
Variable clock : nat -> Z.
(** A SHA-1 hex digest is 40 characters of [0-9a-f]. *)
Hypothesis sha1_length : forall t, slen (sha1_hex t) = 40.
Hypothesis sha1_alnum : forall t, alnum (sha1_hex t).
(** The time values an ECMAScript [Date] can have, after 1970. *)
Hypothesis clock_range : forall n, (0 <= clock n <= 8640000000000000)%Z.

Notation sanitize := (sanitizeToolCallId sha1_hex).
Notation makeUnique := (makeUniqueToolCallId sha1_hex clock).

Lemma shortHash_alnum t n : alnum (shortHash sha1_hex t n).
Proof. apply alnum_slice_to, sha1_alnum. Qed.
Lemma shortHash_slen t n : n <= 40 -> slen (shortHash sha1_hex t n) = n.
Proof. intros H. unfold shortHash. rewrite slen_slice_to, sha1_length. lia. Qed.

Lemma sanitize_strict id : alnum (sanitize id strict) /\ 0 < slen (sanitize id strict).
Proof.
  unfold sanitizeToolCallId. case_match; [split; [reflexivity|unfold slen; simpl; lia]|].
  case_match; bool_prop; [auto with t560|]. split; [reflexivity|unfold slen; simpl; lia].
Qed.
Lemma sanitize_strict9 id : alnum (sanitize id strict9) /\ slen (sanitize id strict9) = 9.
Proof.
  unfold sanitizeToolCallId, STRICT9_LEN. case_match; [done|].
  repeat case_match; bool_prop; (split; [auto using shortHash_alnum with t560|]);
    [rewrite slen_slice_to; lia|apply shortHash_slen; lia..].
Qed.

Lemma ts_ok n : alnum ("t" +:+ pretty (clock n)) /\ slen ("t" +:+ pretty (clock n)) <= 17.
Proof.
  pose proof (clock_range n). split.
  - apply alnum_app; [done|]. apply alnum_digits, pretty_Z_digits. lia.
  - rewrite slen_app. pose proof (pretty_Z_length 16 (clock n)) as L.
    change (slen "t") with 1. enough (slen (pretty (clock n)) <= 16) by lia. apply L; lia.
Qed.

Lemma clip_ok b h :
  alnum b -> slen h = 8 ->
  let c := if (MAX_LEN - slen h <? slen b)%nat then slice_to (MAX_LEN - slen h) b else b in
  alnum c /\ slen c <= 32.
Proof.
  intros A ->. simpl. case_match; bool_prop; (split; [auto with t560|]).
  - rewrite slen_slice_to. lia.
  - unfold MAX_LEN in *. lia.
Qed.

Lemma makeUnique_strict_shape id used t :
  alnum (makeUnique id used strict t).1 /\ 0 < slen (makeUnique id used strict t).1 <= 40.
Proof.
  unfold makeUniqueToolCallId. destruct (sanitize_strict id) as [A L].
  case_match; cbn [fst]; [split; [auto with t560|rewrite slen_slice_to; unfold MAX_LEN; lia]|].
  pose proof (shortHash_alnum id 8) as Ah. pose proof (shortHash_slen id 8 ltac:(lia)) as Lh.
  destruct (clip_ok (slice_to MAX_LEN (sanitize id strict)) (shortHash sha1_hex id 8)) as [Ac Lc];
    [auto with t560|done|].
  cbv zeta in *. match type of Lc with slen ?c <= _ => set (clip := c) in *; clearbody clip end.
  case_match; cbn [fst]; [split; [auto with t560|rewrite slen_app, Lh; lia]|].
  destruct (first_free _ _ _ _) as [s|] eqn:F; cbn [fst].
  - apply first_free_Some in F as (_ & i & Hi & ->). unfold numbered.
    assert (slen (pretty i) <= 3) as Li by (apply pretty_nat_length; simpl; lia).
    cbv zeta. split; [auto 6 with t560|].
    rewrite !slen_app, slen_slice_to, !slen_app. change (slen "x") with 1. unfold MAX_LEN. lia.
  - destruct (ts_ok t) as [At Lt]. split; [auto with t560|].
    rewrite slen_app, slen_slice_to. assert (0 < slen ("t" +:+ pretty (clock t))) by (rewrite slen_app; change (slen "t") with 1; lia).
    unfold MAX_LEN. lia.
Qed.

Lemma makeUnique_strict9_shape id used t :
  alnum (makeUnique id used strict9 t).1 /\ slen (makeUnique id used strict9 t).1 = 9.
Proof.
  unfold makeUniqueToolCallId, STRICT9_LEN. destruct (sanitize_strict9 id) as [A L].
  case_match; cbn [fst].
  - rewrite L. simpl. split; [auto with t560|]. rewrite slen_slice_to, L. done.
  - destruct (first_free _ _ _ _) as [s|] eqn:F; cbn [fst].
    + apply first_free_Some in F as (_ & i & _ & ->). auto using shortHash_alnum, shortHash_slen with lia.
    + split; [apply shortHash_alnum|apply shortHash_slen; lia].
Qed.

Lemma makeUnique_strict_fresh id used t :
  length used < 998 -> (makeUnique id used strict t).1 ∉ used.
Proof.
  intros L. unfold makeUniqueToolCallId.
  case_match; cbn [fst]; [by bool_prop|]. cbv zeta.
  destruct (negb (bool_decide ((_ +:+ shortHash sha1_hex id 8) ∈ used))) eqn:E2;
    cbn [fst]; [by bool_prop|].
  match goal with |- context [first_free (numbered ?c) _ _ _] =>
    destruct (numbered_some_free c used 2 998 L) as [n E] end.
  rewrite E. cbn [fst]. by destruct (first_free_Some _ _ _ _ _ E).
Qed.
Lemma makeUnique_strict9_fresh id used t :
  spread_digests sha1_hex id -> length used < 1000 -> (makeUnique id used strict9 t).1 ∉ used.
Proof.
  intros D L. unfold makeUniqueToolCallId. destruct (truthy _ && _) eqn:E; cbn [fst]; [by bool_prop|].
  destruct (some_free _ used 0 1000 D L) as [n F]. rewrite F. cbn [fst]. by destruct (first_free_Some _ _ _ _ _ F).
Qed.
Lemma makeUnique_ok mode id used t :
  (mode = strict9 -> spread_digests sha1_hex id) -> length used < 998 ->
  acceptable mode (makeUnique id used mode t).1 /\ (makeUnique id used mode t).1 ∉ used.
Proof.
  intros D L. destruct mode.
  - split; [apply makeUnique_strict_shape|by apply makeUnique_strict_fresh].
  - split; [apply makeUnique_strict9_shape|]. apply makeUnique_strict9_fresh; [by apply D|lia].
Qed.
End Laws.

(** ** Transcript rewriting as a renaming *)

(** Applying a substitution of ids to a block, and to a message. *)
Definition rename_block (sub : string -> string) (block : value) : value :=
  if is_object block then
    match get_prop "type" block, get_prop "id" block with
    | VStr t, VStr id =>
        if bool_decide (t ∈ TOOL_CALL_TYPES) && truthy id
        then with_prop "id" (VStr (sub id)) block else block
    | _, _ => block
    end
  else block.

Definition rename_key (sub : string -> string) (key : string) (msg : value) : value :=
  match nonempty_str (get_prop key msg) with
  | Some id => with_prop key (VStr (sub id)) msg
  | None => msg
  end.

Definition rename_message (sub : string -> string) (msg : value) : value :=
  if is_object msg then
    if is_role "assistant" msg then
      match get_prop "content" msg with
      | VArr content => with_prop "content" (VArr (map (rename_block sub) content)) msg
      | _ => msg
      end
    else if is_role "toolResult" msg then rename_key sub "toolUseId" (rename_key sub "toolCallId" msg)
    else msg
  else msg.

(** The ids a block, and a message, refer to. *)
Definition block_ids (block : value) : list string := map call_id (extractToolCall block).
Definition message_ids (msg : value) : list string :=
  if is_object msg then
    if is_role "assistant" msg then
      match get_prop "content" msg with VArr c => flat_map block_ids c | _ => [] end
    else if is_role "toolResult" msg then
      option_list (nonempty_str (get_prop "toolCallId" msg)) ++
      option_list (nonempty_str (get_prop "toolUseId" msg))
    else []
  else [].

Definition sub_of (m : list (string * string)) (id : string) : string := default id (mget id m).

Section Resolver.
Variable mode : ToolCallIdMode.
Record resolver_ok (st : resolver) : Prop := {
  values_ok : forall k v, mget k (id_map st) = Some v -> acceptable mode v;
  values_inj : forall k k' v, mget k (id_map st) = Some v -> mget k' (id_map st) = Some v -> k = k';
  used_ok : forall k v, mget k (id_map st) = Some v -> v ∈ used_ids st;
  used_small : length (used_ids st) <= length (id_map st);
}.

Definition extends (m m' : list (string * string)) : Prop :=
  forall k v, mget k m = Some v -> mget k m' = Some v.

(** A run of the resolver that resolves the ids [ids]. *)
Record steps_ok (ids : list string) (st st' : resolver) : Prop := {
  so_ok : resolver_ok st';
  so_ext : extends (id_map st) (id_map st');
  so_len : length (id_map st') <= length (id_map st) + length ids;
  so_dom : Forall (fun id => is_Some (mget id (id_map st'))) ids;
}.

Lemma steps_ok_refl st : resolver_ok st -> steps_ok [] st st.
Proof. intros H. split; [done|by intros k v|lia|constructor]. Qed.
Lemma steps_ok_trans n m a b c : steps_ok n a b -> steps_ok m b c -> steps_ok (n ++ m) a c.
Proof.
  intros [_ E1 L1 D1] [K E2 L2 D2]. split; [done| |rewrite length_app; lia|].
  - intros k v H. by apply E2, E1.
  - apply Forall_app. split; [|done]. eapply Forall_impl; [exact D1|].
    intros id [v Hv]. exists v. by apply E2.
Qed.

Lemma mset_length {K V} `{EqDecision K} (k : K) (v : V) m :
  mget k m = None -> length (mset k v m) = S (length m).
Proof.
  induction m as [|[j w] m IH]; simpl; [done|]. case_bool_decide; [done|]. simpl. intros E.
  by rewrite IH.
Qed.

Lemma resolver_init : resolver_ok (mkResolver [] [] 0).
Proof. by split. Qed.
Lemma acceptable_truthy id : acceptable mode id -> truthy id = true.
Proof. intros [_ L]. apply truthy_slen. destruct mode; lia. Qed.

Section Renaming.
Variable sha1_hex : string -> string.
Variable clock : nat -> Z.
Hypothesis sha1_length : forall t, slen (sha1_hex t) = 40.
Hypothesis sha1_alnum : forall t, alnum (sha1_hex t).
Hypothesis clock_range : forall n, (0 <= clock n <= 8640000000000000)%Z.
Notation spread := (fun id => mode = strict9 -> spread_digests sha1_hex id).
Notation resolve := (resolve_id sha1_hex clock mode).

Lemma resolve_id_ok id st n st' :
  resolver_ok st -> length (id_map st) < 998 -> spread id -> resolve id st = (n, st') ->
  steps_ok [id] st st' /\ mget id (id_map st') = Some n.
Proof.
  intros [V I U S] L D. unfold resolve_id. destruct (mget id (id_map st)) as [e|] eqn:E.
  - rewrite (acceptable_truthy e (V id e E)). intros [= <- <-].
    split; [|done]. split; [done|by intros k v|lia|by repeat econstructor].
  - destruct (makeUniqueToolCallId _ _ _ _ _ _) as [next t] eqn:M. intros [= <- <-]. simpl.
    destruct (makeUnique_ok sha1_hex clock sha1_length sha1_alnum clock_range mode id (used_ids st) (ticks st) D) as [Sh Fr]; [lia|].
    rewrite M in Sh, Fr. cbn [fst] in *.
    split; [|apply mget_mset_eq]. split; simpl.
    + split; simpl; intros *; rewrite ?mget_mset, ?mset_length by done; unfold set_add;
        rewrite ?(bool_decide_eq_false_2 (next ∈ used_ids st)) by done.
      * case_bool_decide; [by intros [= <-]|apply V].
      * repeat case_bool_decide; subst; try done; [| |apply I].
        -- intros [= <-] H'. by apply U in H'.
        -- intros H' [= <-]. by apply U in H'.
      * case_bool_decide; [intros [= <-]; set_solver|]. intros H'. apply U in H'. set_solver.
      * rewrite length_app. simpl. lia.
    + intros k v H. rewrite mget_mset_ne; [done|]. intros ->. congruence.
    + rewrite mset_length by done. simpl. lia.
    + constructor; [|done]. rewrite mget_mset_eq. eauto.
Qed.

Lemma sub_of_ext m m' id n : mget id m = Some n -> extends m m' -> sub_of m' id = n.
Proof. intros H E. unfold sub_of. by rewrite (E _ _ H). Qed.

Lemma rewriteBlock_ok b st b' c st' :
  resolver_ok st -> length (id_map st) + length (block_ids b) <= 998 -> Forall spread (block_ids b) ->
  rewriteBlock sha1_hex clock mode b st = (b', c, st') ->
  steps_ok (block_ids b) st st' /\
  (c = false -> b' = b) /\
  forall m, extends (id_map st') m -> b' = rename_block (sub_of m) b.
Proof.
  intros K L D. unfold rewriteBlock, rename_block, block_ids, extractToolCall in *.
  destruct (is_object b) eqn:O; simpl in *; [|intros [= <- <- <-]; eauto using steps_ok_refl].
  destruct (get_prop "type" b) eqn:T, (get_prop "id" b) eqn:ID; simpl in *;
    try (intros [= <- <- <-]; by eauto using steps_ok_refl);
    try (destruct (truthy _); intros [= <- <- <-]; by eauto using steps_ok_refl).
  destruct (bool_decide (s ∈ TOOL_CALL_TYPES)), (truthy s0) eqn:Tr; simpl in *;
    try (intros [= <- <- <-]; by eauto using steps_ok_refl).
  destruct (resolve s0 st) as [n st1] eqn:R. intros H.
  apply Forall_cons_1 in D as [D _]. destruct (resolve_id_ok s0 st n st1 K ltac:(lia) D R) as [SO G].
  assert (st' = st1) as -> by (destruct (n =? s0)%string; congruence). split; [done|].
  destruct (n =? s0)%string eqn:E; injection H as <- <-; bool_prop.
  - split; [done|]. intros m X. rewrite (sub_of_ext _ _ _ _ G X), E, <- ID.
    symmetry. apply with_prop_same. by apply (has_prop_get _ _ _ ID).
  - split; [done|]. intros m X. by rewrite (sub_of_ext _ _ _ _ G X).
Qed.

Lemma rewriteBlocks_ok bs st bs' c st' :
  resolver_ok st -> length (id_map st) + length (flat_map block_ids bs) <= 998 -> Forall spread (flat_map block_ids bs) ->
  rewriteBlocks sha1_hex clock mode bs st = (bs', c, st') ->
  steps_ok (flat_map block_ids bs) st st' /\
  (c = false -> bs' = bs) /\
  forall m, extends (id_map st') m -> bs' = map (rename_block (sub_of m)) bs.
Proof.
  revert st bs' c st'. induction bs as [|b bs IH]; intros st bs' c st' K L D; simpl in *.
  { intros [= <- <- <-]. eauto using steps_ok_refl. }
  rewrite length_app in L. apply Forall_app in D as [D1 D2].
  destruct (rewriteBlock _ _ _ b st) as [[b1 c1] st1] eqn:B.
  destruct (rewriteBlocks _ _ _ bs st1) as [[bs2 c2] st2] eqn:BS. intros [= <- <- <-].
  apply rewriteBlock_ok in B as (S1 & C1 & R1); [|done|lia|done]. pose proof (so_len _ _ _ S1).
  apply IH in BS as (S2 & C2 & R2); [|apply S1|lia|done]. split; [|split].
  - by eapply steps_ok_trans.
  - intros E. apply orb_false_iff in E as [-> ->]. by rewrite C1, C2.
  - intros m X. f_equal; [|by apply R2]. apply R1. intros k v Hk. apply X, S2, Hk.
Qed.

Lemma resolve_opt_ok o st o' st' :
  resolver_ok st -> length (id_map st) + length (option_list o) <= 998 -> Forall spread (option_list o) ->
  resolve_opt sha1_hex clock mode o st = (o', st') ->
  steps_ok (option_list o) st st' /\
  forall m, extends (id_map st') m ->
    o' = option_map (sub_of m) o /\ (forall id, o' = Some id -> truthy id = true).
Proof.
  intros K L D. unfold resolve_opt. destruct o as [id|]; simpl in *.
  - destruct (resolve id st) as [n st1] eqn:R. intros [= <- <-].
    apply Forall_cons_1 in D as [D _]. destruct (resolve_id_ok id st n st1 K ltac:(lia) D R) as [SO G]. split; [done|].
    intros m X. rewrite (sub_of_ext _ _ _ _ G X). split; [done|]. intros ? [= <-].
    exact (acceptable_truthy _ (values_ok _ (so_ok _ _ _ SO) _ _ G)).
  - intros [= <- <-]. split; [by apply steps_ok_refl|]. by split.
Qed.

Lemma set_id_rename sub key msg :
  (forall id, option_map sub (nonempty_str (get_prop key msg)) = Some id -> truthy id = true) ->
  set_id key (option_map sub (nonempty_str (get_prop key msg))) msg = rename_key sub key msg.
Proof.
  unfold set_id, rename_key. destruct (nonempty_str _); simpl; [|done]. intros H. by rewrite H.
Qed.

Lemma rename_key_other sub key key' msg :
  key <> key' -> get_prop key (rename_key sub key' msg) = get_prop key msg.
Proof.
  intros N. unfold rename_key. case_match; [|done]. by apply get_prop_with_prop_ne.
Qed.

Lemma rename_key_same sub key msg :
  option_map sub (nonempty_str (get_prop key msg)) = nonempty_str (get_prop key msg) ->
  rename_key sub key msg = msg.
Proof.
  unfold rename_key, nonempty_str. destruct (get_prop key msg) eqn:E; try done.
  destruct (truthy s); [|done]. simpl. intros [= ->]. rewrite <- E.
  apply with_prop_same. by apply (has_prop_get _ _ _ E).
Qed.

Lemma rewriteToolResultIds_ok msg st msg' c st' :
  let ids := option_list (nonempty_str (get_prop "toolCallId" msg)) ++
             option_list (nonempty_str (get_prop "toolUseId" msg)) in
  resolver_ok st -> length (id_map st) + length ids <= 998 -> Forall spread ids ->
  rewriteToolResultIds sha1_hex clock mode msg st = (msg', c, st') ->
  steps_ok ids st st' /\ (c = false -> msg' = msg) /\
  forall m, extends (id_map st') m ->
    msg' = rename_key (sub_of m) "toolUseId" (rename_key (sub_of m) "toolCallId" msg).
Proof.
  cbv zeta. intros K L D. rewrite length_app in L. apply Forall_app in D as [D1 D2]. unfold rewriteToolResultIds.
  destruct (resolve_opt _ _ _ _ st) as [o1 st1] eqn:R1.
  destruct (resolve_opt _ _ _ _ st1) as [o2 st2] eqn:R2. intros H.
  apply resolve_opt_ok in R1 as [S1 X1]; [|done|lia|done]. pose proof (so_len _ _ _ S1).
  apply resolve_opt_ok in R2 as [S2 X2]; [|apply S1|lia|done].
  assert (st' = st2) as -> by (destruct (_ && _); congruence).
  split; [by eapply steps_ok_trans|].
  assert (forall m, extends (id_map st2) m -> extends (id_map st1) m) as Ext.
  { intros m X k v Hk. apply X, S2, Hk. }
  destruct (_ && _) eqn:E in H; injection H as <- <-; (split; [done|]); intros m X;
    destruct (X1 m (Ext m X)) as [-> T1], (X2 m X) as [-> T2].
  - bool_prop. rewrite (rename_key_same _ "toolCallId") by done. symmetry. by apply rename_key_same.
  - rewrite set_id_rename by done.
    rewrite <- (rename_key_other (sub_of m) "toolUseId" "toolCallId" msg) in T2 |- * by done.
    by apply set_id_rename.
Qed.

Lemma rewriteMessage_ok msg st msg' c st' :
  resolver_ok st -> length (id_map st) + length (message_ids msg) <= 998 -> Forall spread (message_ids msg) ->
  rewriteMessage sha1_hex clock mode msg st = (msg', c, st') ->
  steps_ok (message_ids msg) st st' /\ (c = false -> msg' = msg) /\
  forall m, extends (id_map st') m -> msg' = rename_message (sub_of m) msg.
Proof.
  intros K L D. unfold rewriteMessage, rename_message, message_ids in *.
  destruct (is_object msg) eqn:O; simpl in *; [|intros [= <- <- <-]; eauto using steps_ok_refl].
  destruct (is_role "assistant" msg).
  - unfold rewriteAssistantToolCallIds. destruct (get_prop "content" msg) eqn:C;
      try (intros [= <- <- <-]; by eauto using steps_ok_refl).
    destruct (rewriteBlocks _ _ _ l st) as [[next ch] st1] eqn:B. intros H.
    apply rewriteBlocks_ok in B as (S1 & C1 & R1); [|done|done|done].
    assert (st' = st1) as -> by (destruct ch; congruence). split; [done|].
    destruct ch; injection H as <- <-; (split; [done|]); intros m X; rewrite <- (R1 m X); [done|].
    rewrite C1, <- C by done. symmetry. apply with_prop_same. by apply (has_prop_get _ _ _ C).
  - destruct (is_role "toolResult" msg); [by apply rewriteToolResultIds_ok|].
    intros [= <- <- <-]. eauto using steps_ok_refl.
Qed.

Lemma rewriteMessages_ok msgs st out c st' :
  resolver_ok st -> length (id_map st) + length (flat_map message_ids msgs) <= 998 -> Forall spread (flat_map message_ids msgs) ->
  rewriteMessages sha1_hex clock mode msgs st = (out, c, st') ->
  steps_ok (flat_map message_ids msgs) st st' /\ (c = false -> out = msgs) /\
  forall m, extends (id_map st') m -> out = map (rename_message (sub_of m)) msgs.
Proof.
  revert st out c st'. induction msgs as [|b bs IH]; intros st out c st' K L D; simpl in *.
  { intros [= <- <- <-]. eauto using steps_ok_refl. }
  rewrite length_app in L. apply Forall_app in D as [D1 D2].
  destruct (rewriteMessage _ _ _ b st) as [[b1 c1] st1] eqn:B.
  destruct (rewriteMessages _ _ _ bs st1) as [[bs2 c2] st2] eqn:BS. intros [= <- <- <-].
  apply rewriteMessage_ok in B as (S1 & C1 & R1); [|done|lia|done]. pose proof (so_len _ _ _ S1).
  apply IH in BS as (S2 & C2 & R2); [|apply S1|lia|done]. split; [|split].
  - by eapply steps_ok_trans.
  - intros E. apply orb_false_iff in E as [-> ->]. by rewrite C1, C2.
  - intros m X. f_equal; [|by apply R2]. apply R1. intros k v Hk. apply X, S2, Hk.
Qed.
End Renaming.
End Resolver.

(** ** Properties *)

(** What Node's crypto and clock provide. *)
Record host_ok (sha1_hex : string -> string) (clock : nat -> Z) : Prop := {
  digest_length : forall t, slen (sha1_hex t) = 40;
  digest_alnum : forall t, alnum (sha1_hex t);
  clock_valid : forall n, (0 <= clock n <= 8640000000000000)%Z;
}.

(** in strict mode, with fewer than 998 ids in use, [makeUniqueToolCallId]
    returns an id that is not in use, is not empty, has at most 40 characters and
    only ASCII letters and digits. *)
Theorem makeUniqueToolCallId_strict sha1_hex clock id used tick :
  host_ok sha1_hex clock -> length used < 998 ->
  let r := (makeUniqueToolCallId sha1_hex clock id used strict tick).1 in
  r ∉ used /\ alnum r /\ 0 < slen r <= 40.
Proof.
  intros [HL HA HC] L. cbv zeta. split; [by apply makeUnique_strict_fresh|].
  by apply makeUnique_strict_shape.
Qed.

(** in strict9 mode every id has exactly nine letters and digits, whatever
    is in use. *)
Theorem makeUniqueToolCallId_strict9 sha1_hex clock id used tick :
  host_ok sha1_hex clock ->
  let r := (makeUniqueToolCallId sha1_hex clock id used strict9 tick).1 in
  alnum r /\ slen r = 9.
Proof. intros [HL HA HC]. by apply makeUnique_strict9_shape. Qed.

(** C15: rewriting a transcript with at most 998 references to ids is a renaming,
    in both modes: one substitution, injective on the ids of the transcript and
    producing ids a provider accepts (in strict mode up to 40 letters and digits,
    in strict9 mode exactly nine), is applied to every tool call and every tool
    result, so a result refers to a call after the rewriting exactly when it did
    before; nothing else changes.  In strict9 mode this needs that the thousand
    digests tried for each id differ in their first nine characters. *)
Theorem sanitizeTranscript_renames sha1_hex clock mode messages :
  host_ok sha1_hex clock -> length (flat_map message_ids messages) <= 998 ->
  (mode = strict9 -> Forall (spread_digests sha1_hex) (flat_map message_ids messages)) ->
  exists sub : string -> string,
    sanitizeToolCallIdsForTranscript sha1_hex clock messages mode =
      map (rename_message sub) messages /\
    (forall a b, In a (flat_map message_ids messages) -> In b (flat_map message_ids messages) ->
       sub a = sub b -> a = b) /\
    (forall a, In a (flat_map message_ids messages) ->
       alnum (sub a) /\ match mode with strict => 0 < slen (sub a) <= 40 | strict9 => slen (sub a) = 9 end).
Proof.
  intros [HL HA HC] L Sp. unfold sanitizeToolCallIdsForTranscript.
  destruct (rewriteMessages _ _ _ _ _) as [[out c] st] eqn:R.
  apply rewriteMessages_ok in R as (SO & C & RN); [|done|done|done|apply resolver_init|done|].
  2: { apply Forall_forall. intros id I M. specialize (Sp M). rewrite Forall_forall in Sp. by apply Sp. }
  exists (sub_of (id_map st)). destruct SO as [[V I _ _] _ _ D].
  rewrite Forall_forall in D. setoid_rewrite <- list_elem_of_In. split; [|split].
  - rewrite <- RN by (by intros k v). destruct c; [done|]. symmetry. auto.
  - intros a b Ha Hb. destruct (D a Ha) as [va Ea], (D b Hb) as [vb Eb]. unfold sub_of.
    rewrite Ea, Eb. simpl. intros ->. eauto.
  - intros a Ha. destruct (D a Ha) as [va Ea]. unfold sub_of. rewrite Ea. simpl. exact (V a va Ea).
Qed.

(** A concrete host for the witnesses: a constant digest. *)
Definition sample_digest (_ : string) : string := "0123456789abcdef0123456789abcdef01234567".
Definition sample_clock (_ : nat) : Z := 1700000000000%Z.
Lemma sample_host : host_ok sample_digest sample_clock.
Proof. split; intros; [done|done|unfold sample_clock; lia]. Qed.

Lemma makeUniqueToolCallId_strict_witness :
  let r := (makeUniqueToolCallId sample_digest sample_clock "call_1" ["call1"] strict 0).1 in
  r ∉ ["call1"] /\ alnum r /\ 0 < slen r <= 40.
Proof. apply (makeUniqueToolCallId_strict sample_digest sample_clock); [apply sample_host|simpl; lia]. Defined.

Lemma makeUniqueToolCallId_strict9_witness :
  let r := (makeUniqueToolCallId sample_digest sample_clock "call_1" ["012345678"] strict9 0).1 in
  alnum r /\ slen r = 9.
Proof. apply (makeUniqueToolCallId_strict9 sample_digest sample_clock). apply sample_host. Defined.

Definition sample_call (id : string) : value :=
  VObj [("role", VStr "assistant");
        ("content", VArr [VObj [("type", VStr "toolCall"); ("id", VStr id); ("name", VStr "read");
                                ("arguments", VObj [])]])].
Definition sample_result (id : string) : value :=
  VObj [("role", VStr "toolResult"); ("toolCallId", VStr id); ("content", VArr [])].

(** A digest that begins with the end of the text, padded. *)
Definition padding : string := "0000000000000000000000000000000000000000".
Definition tail_digest (t : string) : string :=
  slice_to 40 (alphanumericOnly (of_chars (rev (chars t))) +:+ padding).
Lemma tail_host : host_ok tail_digest sample_clock.
Proof.
  split; intros.
  - unfold tail_digest. rewrite slen_slice_to, slen_app. change (slen padding) with 40. lia.
  - apply alnum_slice_to, alnum_app; [apply alphanumericOnly_alnum|reflexivity].
  - unfold sample_clock. lia.
Qed.
Definition sample_transcript : list value := [sample_call "a_1"; sample_result "a_1"; sample_call "a-1"; sample_result "a-1"].
Fixpoint all_different (l : list string) : bool :=
  match l with [] => true | x :: l' => negb (existsb (String.eqb x) l') && all_different l' end.
Lemma all_different_NoDup l : all_different l = true -> NoDup l.
Proof.
  induction l as [|x l IH]; cbn [all_different]; [constructor|]. intros [E D]%andb_true_iff. apply negb_true_iff in E. constructor; [|by apply IH].
  intros I%list_elem_of_In. assert (existsb (String.eqb x) l = true) as X; [|congruence]. apply existsb_exists. exists x. split; [done|apply String.eqb_refl].
Qed.
Lemma sample_spread : Forall (spread_digests tail_digest) (flat_map message_ids sample_transcript).
Proof. repeat (apply Forall_cons; split; [apply all_different_NoDup; vm_compute; reflexivity|]). constructor. Qed.
Lemma sanitizeTranscript_renames_witness :
  exists sub : string -> string,
    sanitizeToolCallIdsForTranscript tail_digest sample_clock sample_transcript strict9 = map (rename_message sub) sample_transcript /\
    (forall a b, In a (flat_map message_ids sample_transcript) -> In b (flat_map message_ids sample_transcript) -> sub a = sub b -> a = b) /\
    (forall a, In a (flat_map message_ids sample_transcript) -> alnum (sub a) /\ slen (sub a) = 9).
Proof.
  apply (sanitizeTranscript_renames tail_digest sample_clock strict9 sample_transcript).
  - apply tail_host.
  - by vm_compute; lia.
  - intros _. apply sample_spread.
Defined.

Example sanitizeTranscript_example :
  sanitizeToolCallIdsForTranscript sample_digest sample_clock
    [sample_call "a_1"; sample_result "a_1"; sample_call "a-1"; sample_result "a-1"] strict =
  [sample_call "a1"; sample_result "a1"; sample_call "a101234567"; sample_result "a101234567"].
Proof. vm_compute. reflexivity. Qed.
