(* ===== verification/TranscriptRepair.v ===== *)
(** * Transcript repair

    [src/src/agents/session-transcript-repair.ts]: dropping malformed tool-call
    blocks, and re-pairing tool results with the assistant messages whose calls
    they answer. *)

From stdpp Require Import base list sets strings.
From Stdlib Require Import Ascii Lia ZArith.
From S2P Require Import Prelude JsString JsMap JsValue ToolCallId.

(** ** Malformed tool-call blocks *)

Definition isToolCallBlock (block : value) : bool :=
  is_object block &&
  match get_prop "type" block with
  | VStr t => (t =? "toolCall")%string || (t =? "toolUse")%string || (t =? "functionCall")%string
  | _ => false
  end.

Definition not_nullish (v : value) : bool := match v with VUndef | VNull => false | _ => true end.
Definition hasToolCallInput (block : value) : bool :=
  (has_prop "input" block && not_nullish (get_prop "input" block)) ||
  (has_prop "arguments" block && not_nullish (get_prop "arguments" block)).

Definition hasNonEmptyStringField (v : value) : bool :=
  match v with VStr s => (0 <? slen (trim s))%nat | _ => false end.
Definition hasToolCallId (block : value) : bool := hasNonEmptyStringField (get_prop "id" block).
Definition hasToolCallName (block : value) : bool := hasNonEmptyStringField (get_prop "name" block).

(** The block is dropped by [repairToolCallInputs]. *)
Definition malformed (block : value) : bool :=
  isToolCallBlock block &&
  (negb (hasToolCallInput block) || negb (hasToolCallId block) || negb (hasToolCallName block)).

Record ToolCallInputRepairReport := mkInputReport {
  ir_messages : list value;
  droppedToolCalls : nat;
  droppedAssistantMessages : nat;
}.

Record input_state := mkInputState {
  is_out : list value;
  is_calls : nat;
  is_assistants : nat;
  is_changed : bool;
}.

(** The body of the loop over the messages. *)
Definition repairInputStep (st : input_state) (msg : value) : input_state :=
  let push m := mkInputState (is_out st ++ [m]) (is_calls st) (is_assistants st) (is_changed st) in
  if negb (is_object msg) then push msg
  else
    match is_role "assistant" msg, get_prop "content" msg with
    | true, VArr content =>
        let nextContent := List.filter (fun b => negb (malformed b)) content in
        let dropped := length content - length nextContent in
        if (0 <? dropped)%nat then
          if (length nextContent =? 0)%nat then
            mkInputState (is_out st) (is_calls st + dropped) (S (is_assistants st)) true
          else
            mkInputState (is_out st ++ [with_prop "content" (VArr nextContent) msg])
              (is_calls st + dropped) (is_assistants st) true
        else push msg
    | _, _ => push msg
    end.

Definition repairToolCallInputs (messages : list value) : ToolCallInputRepairReport :=
  let st := fold_left repairInputStep messages (mkInputState [] 0 0 false) in
  mkInputReport (if is_changed st then is_out st else messages) (is_calls st) (is_assistants st).

Definition sanitizeToolCallInputs (messages : list value) : list value :=
  ir_messages (repairToolCallInputs messages).

(** ** Pairing results with calls *)

Definition missing_text : string :=
  "[t560] missing tool result in session history; inserted synthetic error result for transcript repair.".

Definition makeMissingToolResult (toolCallId : string) (toolName : option string) (now : Z) : value :=
  VObj [("role", VStr "toolResult");
        ("toolCallId", VStr toolCallId);
        ("toolName", VStr (default "unknown" toolName));
        ("content", VArr [VObj [("type", VStr "text"); ("text", VStr missing_text)]]);
        ("isError", VBool true);
        ("timestamp", VNum (NInt now))].

Record ToolUseRepairReport := mkReport {
  messages : list value;
  added : list value;
  droppedDuplicateCount : nat;
  droppedOrphanCount : nat;
  moved : bool;
}.

(** The variables of [repairToolUseResultPairing]. *)
Record repair_state := mkRepair {
  r_out : list value;
  r_added : list value;
  seenToolResultIds : list string;
  r_dups : nat;
  r_orphans : nat;
  r_moved : bool;
  r_changed : bool;
}.

Definition push_out (msgs : list value) (st : repair_state) : repair_state :=
  mkRepair (r_out st ++ msgs) (r_added st) (seenToolResultIds st) (r_dups st) (r_orphans st)
    (r_moved st) (r_changed st).
Definition drop_orphan (st : repair_state) : repair_state :=
  mkRepair (r_out st) (r_added st) (seenToolResultIds st) (r_dups st) (S (r_orphans st))
    (r_moved st) true.
Definition drop_dup (st : repair_state) : repair_state :=
  mkRepair (r_out st) (r_added st) (seenToolResultIds st) (S (r_dups st)) (r_orphans st)
    (r_moved st) true.
Definition add_seen (id : string) (st : repair_state) : repair_state :=
  mkRepair (r_out st) (r_added st) (set_add id (seenToolResultIds st)) (r_dups st) (r_orphans st)
    (r_moved st) (r_changed st).
Definition add_missing (m : value) (st : repair_state) : repair_state :=
  mkRepair (r_out st) (r_added st ++ [m]) (seenToolResultIds st) (r_dups st) (r_orphans st)
    (r_moved st) true.
Definition set_moved (st : repair_state) : repair_state :=
  mkRepair (r_out st) (r_added st) (seenToolResultIds st) (r_dups st) (r_orphans st) true true.

Definition pushToolResult (msg : value) (st : repair_state) : repair_state :=
  match extractToolResultId msg with
  | Some id =>
      if bool_decide (id ∈ seenToolResultIds st) then drop_dup st
      else push_out [msg] (add_seen id st)
  | None => push_out [msg] st
  end.

(** The inner loop: the messages up to the next assistant message.  It returns
    the state, the first result of each call, the other messages and the rest of
    the transcript. *)
Fixpoint scan_span (toolCallIds : list string) (msgs : list value)
    (results : list (string * value)) (remainder : list value) (st : repair_state)
  : repair_state * list (string * value) * list value * list value :=
  match msgs with
  | [] => (st, results, remainder, [])
  | next :: rest =>
      if negb (is_object next) then scan_span toolCallIds rest results (remainder ++ [next]) st
      else if is_role "assistant" next then (st, results, remainder, msgs)
      else if is_role "toolResult" next then
        match extractToolResultId next with
        | Some id =>
            if bool_decide (id ∈ toolCallIds) then
              if bool_decide (id ∈ seenToolResultIds st)
              then scan_span toolCallIds rest results remainder (drop_dup st)
              else if mhas id results then scan_span toolCallIds rest results remainder st
              else scan_span toolCallIds rest (mset id next results) remainder st
            else scan_span toolCallIds rest results remainder (drop_orphan st)
        | None => scan_span toolCallIds rest results remainder (drop_orphan st)
        end
      else scan_span toolCallIds rest results (remainder ++ [next]) st
  end.

Section Pairing.
(** The successive results of [Date.now()]; one is read per synthetic result. *)
Variable clock : nat -> Z.
Variable allowSyntheticToolResults : bool.

Definition emitResult (results : list (string * value)) (st : repair_state) (call : ToolCallLike)
  : repair_state :=
  match mget (call_id call) results with
  | Some existing => pushToolResult existing st
  | None =>
      if allowSyntheticToolResults then
        let missing := makeMissingToolResult (call_id call) (call_name call)
                         (clock (length (r_added st))) in
        pushToolResult missing (add_missing missing st)
      else st
  end.

Definition stopped (msg : value) : bool :=
  is_str "error" (get_prop "stopReason" msg) || is_str "aborted" (get_prop "stopReason" msg).

(** The outer loop; [fuel] bounds the iterations, each of which consumes a
    message, so the length of the transcript is enough. *)
Fixpoint repair_loop (fuel : nat) (msgs : list value) (st : repair_state) : repair_state :=
  match fuel, msgs with
  | S fuel', msg :: rest =>
      if negb (is_object msg) then repair_loop fuel' rest (push_out [msg] st)
      else if negb (is_role "assistant" msg) then
        if negb (is_role "toolResult" msg) then repair_loop fuel' rest (push_out [msg] st)
        else repair_loop fuel' rest (drop_orphan st)
      else if stopped msg then repair_loop fuel' rest (push_out [msg] st)
      else
        match extractToolCallsFromAssistant msg with
        | [] => repair_loop fuel' rest (push_out [msg] st)
        | toolCalls =>
            let '(st1, results, remainder, rest') :=
              scan_span (map call_id toolCalls) rest [] [] st in
            let st2 := push_out [msg] st1 in
            let st3 := if (0 <? length results)%nat && (0 <? length remainder)%nat
                       then set_moved st2 else st2 in
            let st4 := fold_left (emitResult results) toolCalls st3 in
            repair_loop fuel' rest' (push_out remainder st4)
        end
  | _, _ => st
  end.

Definition repairToolUseResultPairing (msgs : list value) : ToolUseRepairReport :=
  let st := repair_loop (length msgs) msgs (mkRepair [] [] [] 0 0 false false) in
  let changedOrMoved := r_changed st || r_moved st in
  mkReport (if changedOrMoved then r_out st else msgs) (r_added st) (r_dups st) (r_orphans st)
    changedOrMoved.
End Pairing.

(** ** Specification *)

Definition is_result (m : value) : bool := is_role "toolResult" m.
Definition other (m : value) : bool := negb (is_result m).

(** The ids a message expects results for: the calls of an assistant message
    that was not stopped by an error. *)
Definition expects (m : value) : list string :=
  if is_role "assistant" m && negb (stopped m)
  then map call_id (extractToolCallsFromAssistant m) else [].

(** Transcripts where every tool result directly follows the assistant message
    whose call it answers, in the order of the calls and once per id; [seen] are
    the ids already answered.  When [full] holds, every call whose id was not
    answered before has its result. *)
Inductive paired (full : bool) : list string -> list value -> Prop :=
| paired_nil seen : paired full seen []
| paired_plain seen m l :
    is_result m = false -> expects m = [] -> paired full seen l -> paired full seen (m :: l)
| paired_calls seen m rs ids l :
    expects m <> [] ->
    Forall (fun r => is_result r = true) rs ->
    map extractToolResultId rs = map Some ids ->
    (exists kept, sublist kept (expects m) /\ ids = dedup_with seen kept /\
       (full = true -> kept = expects m)) ->
    paired full (ids ++ seen) l ->
    paired full seen (m :: rs ++ l).

(** Every tool result answers a call of the closest preceding assistant message. *)
Fixpoint anchored (ids : list string) (l : list value) : Prop :=
  match l with
  | [] => True
  | m :: l' =>
      if is_result m then
        (exists id, extractToolResultId m = Some id /\ id ∈ ids) /\ anchored ids l'
      else if is_role "assistant" m then anchored (expects m) l'
      else anchored ids l'
  end.

(** ** Lemmas *)

Lemma dedup_with_ext {A} `{EqDecision A} (s1 s2 l : list A) :
  (forall x, x ∈ s1 <-> x ∈ s2) -> dedup_with s1 l = dedup_with s2 l.
Proof.
  revert s1 s2. induction l as [|x l IH]; intros s1 s2 H; simpl; [done|].
  rewrite (bool_decide_ext _ _ (H x)). case_bool_decide; [by apply IH|]. f_equal.
  apply IH. intros y. rewrite !elem_of_cons, H. done.
Qed.

Lemma paired_seen_ext full s1 s2 l :
  (forall x, x ∈ s1 <-> x ∈ s2) -> paired full s1 l -> paired full s2 l.
Proof.
  intros H P. revert s2 H.
  induction P as [|s m l Hm He P IH|s m rs ids l Hm Hr Hi (kept & Hs & Hk & Hf) P IH]; intros s2 H.
  - constructor.
  - constructor; auto.
  - econstructor; [done|done|exact Hi| |].
    + exists kept. rewrite <- (dedup_with_ext s s2) by done. done.
    + apply IH. intros x. rewrite !elem_of_app, H. done.
Qed.

Lemma elem_of_set_add x y s : x ∈ set_add y s <-> x = y \/ x ∈ s.
Proof. unfold set_add. case_bool_decide; set_solver. Qed.

Lemma role_not r r' m : r <> r' -> is_role r m = true -> is_role r' m = false.
Proof.
  unfold is_role. intros N H. apply is_str_true in H. rewrite H. simpl. by apply String.eqb_neq.
Qed.
Lemma role_object r m : is_role r m = true -> is_object m = true.
Proof. by destruct m. Qed.
Lemma expects_nonassistant m : is_role "assistant" m = false -> expects m = [].
Proof. unfold expects. by intros ->. Qed.
Lemma other_true m : is_result m = false -> other m = true.
Proof. unfold other. by intros ->. Qed.
Lemma nonobject_plain m : is_object m = false -> is_result m = false /\ is_role "assistant" m = false.
Proof. by destruct m. Qed.

Lemma paired_remainder full seen rem l :
  Forall (fun m => is_result m = false /\ is_role "assistant" m = false) rem ->
  paired full seen l -> paired full seen (rem ++ l).
Proof.
  induction 1 as [|m rem [Hm Ha] _ IH]; intros P; simpl; [done|].
  apply paired_plain; auto using expects_nonassistant.
Qed.

(** What the results of a span are. *)
Definition results_ok (ids : list string) (results : list (string * value)) : Prop :=
  forall id r, mget id results = Some r ->
    id ∈ ids /\ is_result r = true /\ extractToolResultId r = Some id.

(** Only the counters and flags differ. *)
Definition same_output (st st' : repair_state) : Prop :=
  r_out st' = r_out st /\ r_added st' = r_added st /\ seenToolResultIds st' = seenToolResultIds st.

(** A message that is neither an assistant message nor a tool result. *)
Definition plain (m : value) : Prop := is_result m = false /\ is_role "assistant" m = false.
Inductive kind (m : value) : Prop :=
| KPlain : plain m -> kind m
| KAssistant : is_object m = true -> is_role "assistant" m = true -> is_result m = false -> kind m
| KResult : is_object m = true -> is_result m = true -> is_role "assistant" m = false -> kind m.
Lemma classify m : kind m.
Proof.
  destruct (is_role "assistant" m) eqn:A.
  - apply KAssistant; [by eapply role_object|done|]. by apply (role_not "assistant").
  - destruct (is_result m) eqn:R; [apply KResult|apply KPlain]; try done. by eapply role_object.
Qed.

Lemma scan_plain ids m msgs results rem st :
  plain m -> scan_span ids (m :: msgs) results rem st = scan_span ids msgs results (rem ++ [m]) st.
Proof.
  intros [R A]. cbn [scan_span]. rewrite A. unfold is_result in R. rewrite R. by destruct (is_object m).
Qed.
Lemma scan_assistant ids m msgs results rem st :
  is_object m = true -> is_role "assistant" m = true ->
  scan_span ids (m :: msgs) results rem st = (st, results, rem, m :: msgs).
Proof. intros O A. cbn [scan_span]. by rewrite O, A. Qed.

(** The state after a tool result in a span. *)
Definition scan_result_step (ids : list string) (m : value) (results : list (string * value))
    (st : repair_state) : list (string * value) * repair_state :=
  match extractToolResultId m with
  | Some id =>
      if bool_decide (id ∈ ids) then
        if bool_decide (id ∈ seenToolResultIds st) then (results, drop_dup st)
        else if mhas id results then (results, st) else (mset id m results, st)
      else (results, drop_orphan st)
  | None => (results, drop_orphan st)
  end.
Lemma scan_result ids m msgs results rem st :
  is_object m = true -> is_result m = true -> is_role "assistant" m = false ->
  scan_span ids (m :: msgs) results rem st =
  scan_span ids msgs (scan_result_step ids m results st).1 rem (scan_result_step ids m results st).2.
Proof.
  intros O R A. cbn [scan_span]. unfold is_result in R. rewrite O, A, R. unfold scan_result_step.
  repeat case_goal; done.
Qed.

Lemma scan_result_step_ok ids m results st :
  is_result m = true -> results_ok ids results ->
  let '(results', st') := scan_result_step ids m results st in
  results_ok ids results' /\ same_output st st' /\
  (r_changed st' || r_moved st' = false ->
     st' = st /\ exists id, extractToolResultId m = Some id /\ id ∈ ids).
Proof.
  intros R HR. unfold scan_result_step, same_output.
  assert (forall st', r_changed st' = true -> r_changed st' || r_moved st' = false ->
    st' = st /\ exists id, extractToolResultId m = Some id /\ id ∈ ids) as Flag by (by intros st' ->).
  destruct (extractToolResultId m) as [id|] eqn:E; [|split; [done|]; split; [done|by apply Flag]].
  case_bool_decide as Hi; [|split; [done|]; split; [done|by apply Flag]].
  case_bool_decide; [split; [done|]; split; [done|by apply Flag]|].
  destruct (mhas id results) eqn:M; [by split; [|split; [|eauto]]|].
  split; [|split; [done|eauto]]. intros j r. rewrite mget_mset. case_bool_decide; subst; [intros [= <-]; done|apply HR].
Qed.

Lemma scan_result_step_size ids m results st :
  length (scan_result_step ids m results st).1 <= S (length results).
Proof.
  unfold scan_result_step. repeat case_match; simpl; try lia. rewrite mset_length; [lia|]. by apply mhas_false.
Qed.

(** What one span contributes. *)
Record span_ok (ids : list string) (msgs : list value) (results : list (string * value))
    (rem : list value) (st st' : repair_state)
    (results' : list (string * value)) (rem' rest : list value) : Prop := {
  sp_same : same_output st st';
  sp_results : results_ok ids results';
  sp_plain : Forall plain rem';
  sp_length : length rest <= length msgs;
  sp_size : length results' + length rem' + length rest <= length results + length rem + length msgs;
  sp_others : rem ++ List.filter other msgs = rem' ++ List.filter other rest;
  sp_unchanged : r_changed st' || r_moved st' = false ->
    r_changed st || r_moved st = false /\ (anchored [] rest -> anchored ids msgs);
}.

Lemma scan_span_ok ids msgs results rem st st' results' rem' rest :
  scan_span ids msgs results rem st = (st', results', rem', rest) ->
  results_ok ids results -> Forall plain rem ->
  span_ok ids msgs results rem st st' results' rem' rest.
Proof.
  revert results rem st. induction msgs as [|m msgs IH]; intros results rem st.
  { intros [= <- <- <- <-] HR HF. by split. }
  destruct (classify m) as [P|O A R|O R A].
  - rewrite scan_plain by done. intros E HR HF.
    destruct (IH _ _ _ E HR) as [S1 S2 S3 S4 SZ S5 S6]; [apply Forall_app; split; [done|by apply Forall_singleton]|].
    destruct P as [P1 P2]. rewrite length_app in SZ. simpl in SZ.
    split; simpl; try done; [lia|lia| |].
    + unfold other at 1. rewrite P1. simpl. by rewrite <- S5, <- app_assoc.
    + rewrite P1, P2. done.
  - rewrite scan_assistant by done. intros [= <- <- <- <-] HR HF. split; try done.
    intros ?. split; [done|]. simpl. by rewrite R, A.
  - rewrite scan_result by done. intros E HR HF.
    pose proof (scan_result_step_ok ids m results st R HR) as X.
    pose proof (scan_result_step_size ids m results st) as SR.
    destruct (scan_result_step ids m results st) as [r1 st1]. simpl in E, SR.
    destruct X as (X1 & (O1 & O2 & O3) & X3).
    destruct (IH _ _ _ E X1 HF) as [(Y1 & Y2 & Y3) S2 S3 S4 SZ S5 S6]. split; try done.
    + unfold same_output. split; [congruence|]. split; congruence.
    + simpl. lia.
    + simpl. lia.
    + simpl. unfold other at 1. rewrite R. done.
    + intros C. destruct (S6 C) as [C1 AN]. destruct (X3 C1) as [-> HX]. split; [done|].
      intros H. simpl. rewrite R. split; [done|]. by apply AN.
Qed.

(** ** Emitting the results of the calls *)

Definition kept_calls (allow : bool) (results : list (string * value)) (ids : list string) : list string :=
  List.filter (fun id => mhas id results || allow) ids.

Lemma filter_sublist {A} (p : A -> bool) l : sublist (List.filter p l) l.
Proof. induction l as [|x l IH]; simpl; [constructor|]. destruct (p x); by constructor. Qed.

Lemma makeMissing_id id name now :
  truthy id = true -> extractToolResultId (makeMissingToolResult id name now) = Some id.
Proof. intros H. unfold extractToolResultId. simpl. by rewrite H. Qed.

Lemma extractToolCalls_truthy m :
  Forall (fun c => truthy (call_id c) = true) (extractToolCallsFromAssistant m).
Proof.
  unfold extractToolCallsFromAssistant. destruct (get_prop "content" m); try constructor.
  induction l as [|b l IH]; simpl; [constructor|]. apply Forall_app. split; [|done].
  unfold extractToolCall. repeat case_match; repeat constructor; done.
Qed.

Lemma pushToolResult_ok r id st :
  extractToolResultId r = Some id ->
  let st' := pushToolResult r st in
  (id ∈ seenToolResultIds st -> r_out st' = r_out st /\ seenToolResultIds st' = seenToolResultIds st) /\
  (id ∉ seenToolResultIds st -> r_out st' = r_out st ++ [r] /\
     (forall x, x ∈ seenToolResultIds st' <-> x = id \/ x ∈ seenToolResultIds st)).
Proof.
  intros E. unfold pushToolResult. rewrite E. case_bool_decide; simpl; [by split|].
  split; [done|]. intros _. split; [done|]. intros x. apply elem_of_set_add.
Qed.

Lemma emit_ok clock allow ids results calls st :
  results_ok ids results -> Forall (fun c => truthy (call_id c) = true) calls ->
  let st' := fold_left (emitResult clock allow results) calls st in
  let new := dedup_with (seenToolResultIds st) (kept_calls allow results (map call_id calls)) in
  exists rs, r_out st' = r_out st ++ rs /\
    Forall (fun r => is_result r = true) rs /\ map extractToolResultId rs = map Some new /\
    (forall x, x ∈ seenToolResultIds st' <-> x ∈ new \/ x ∈ seenToolResultIds st).
Proof.
  intros HR. revert st. induction calls as [|c calls IH]; intros st HT; simpl.
  { exists []. rewrite app_nil_r. repeat split; [constructor|set_solver..]. }
  inversion HT as [|? ? Hc HT']; subst.
  assert (exists st1, emitResult clock allow results st c = st1 /\
    if mhas (call_id c) results || allow then
      exists r, is_result r = true /\ extractToolResultId r = Some (call_id c) /\
        (call_id c ∈ seenToolResultIds st -> r_out st1 = r_out st /\ seenToolResultIds st1 = seenToolResultIds st) /\
        (call_id c ∉ seenToolResultIds st -> r_out st1 = r_out st ++ [r] /\
          (forall x, x ∈ seenToolResultIds st1 <-> x = call_id c \/ x ∈ seenToolResultIds st))
    else st1 = st) as (st1 & E1 & X).
  { eexists. split; [reflexivity|]. unfold emitResult, mhas.
    destruct (mget (call_id c) results) as [r|] eqn:G; simpl.
    - destruct (HR _ _ G) as (_ & R & I). exists r. split; [done|]. split; [done|].
      by apply pushToolResult_ok.
    - destruct allow; [|done].
      eexists. split; [|split; [by apply makeMissing_id|]]; [done|].
      by apply (pushToolResult_ok _ _ (add_missing _ st)), makeMissing_id. }
  rewrite E1. destruct (mhas (call_id c) results || allow); simpl.
  - destruct X as (r & R & I & Xin & Xout). case_bool_decide as Hs.
    + destruct (Xin Hs) as [O1 S1]. destruct (IH st1 HT') as (rs & Y1 & Y2 & Y3 & Y4).
      rewrite S1 in *. exists rs. rewrite Y1, O1. done.
    + destruct (Xout Hs) as [O1 S1]. destruct (IH st1 HT') as (rs & Y1 & Y2 & Y3 & Y4).
      rewrite (dedup_with_ext _ (call_id c :: seenToolResultIds st)) in Y3, Y4
        by (intros x; rewrite S1; set_solver).
      exists (r :: rs). rewrite Y1, O1, <- app_assoc. split; [done|]. split; [by constructor|].
      split; [simpl; by rewrite I, Y3|]. intros x. rewrite Y4, S1. set_solver.
  - subst st1. rewrite X. by apply IH.
Qed.

Definition unchanged (st : repair_state) : Prop := r_changed st || r_moved st = false.

Lemma pushToolResult_unchanged r st : unchanged (pushToolResult r st) -> unchanged st.
Proof. unfold unchanged, pushToolResult. repeat case_match; simpl; done. Qed.
Lemma emit_unchanged clock allow results calls st :
  unchanged (fold_left (emitResult clock allow results) calls st) -> unchanged st.
Proof.
  revert st. induction calls as [|c calls IH]; intros st; simpl; [done|].
  intros H. apply IH in H. unfold emitResult in H. destruct (mget _ _).
  - by apply pushToolResult_unchanged in H.
  - destruct allow; [|done]. by apply pushToolResult_unchanged in H.
Qed.

Lemma kept_calls_all results ids : kept_calls true results ids = ids.
Proof.
  unfold kept_calls. induction ids as [|x l IH]; simpl; [done|]. rewrite orb_true_r, IH. done.
Qed.

Lemma dedup_with_sublist {A} `{EqDecision A} (s l : list A) x : x ∈ dedup_with s l -> x ∈ l.
Proof. rewrite elem_of_dedup_with. by intros []. Qed.

Lemma kept_calls_length results seen ids :
  length (dedup_with seen (kept_calls false results ids)) <= length results.
Proof.
  rewrite <- (length_map fst results). apply NoDup_incl_length; [apply NoDup_ListNoDup, NoDup_dedup_with|].
  intros x Hx%list_elem_of_In%dedup_with_sublist%list_elem_of_In. apply filter_In in Hx as [_ H].
  rewrite orb_false_r in H. apply mhas_keys in H. by apply list_elem_of_In in H.
Qed.

Record loop_ok (allow : bool) (msgs : list value) (st st' : repair_state) (new : list value) : Prop := {
  lo_out : r_out st' = r_out st ++ new;
  lo_paired : paired allow (seenToolResultIds st) new;
  lo_others : List.filter other new = List.filter other msgs;
  lo_unchanged : unchanged st' -> unchanged st /\ anchored [] msgs;
  lo_length : allow = false -> length new <= length msgs;
}.

(** A message that is kept alone. *)
Lemma loop_ok_single allow m msgs st st' new :
  is_result m = false -> expects m = [] ->
  loop_ok allow msgs (push_out [m] st) st' new -> loop_ok allow (m :: msgs) st st' (m :: new).
Proof.
  intros R E [L1 L2 L3 L4 L5]. simpl in *. split; simpl.
  - by rewrite L1, <- app_assoc.
  - by constructor.
  - rewrite (other_true m R). by rewrite L3.
  - intros U. destruct (L4 U) as [U' A]. split; [done|]. rewrite R, E. by destruct (is_role _ _).
  - intros F. specialize (L5 F). lia.
Qed.

(** An assistant message with its span. *)
Lemma loop_ok_span clock allow m msgs st st1 results rem rest st' new :
  is_role "assistant" m = true -> is_result m = false -> expects m <> [] ->
  map call_id (extractToolCallsFromAssistant m) = expects m ->
  span_ok (expects m) msgs [] [] st st1 results rem rest ->
  (let st3 := if (0 <? length results)%nat && (0 <? length rem)%nat
              then set_moved (push_out [m] st1) else push_out [m] st1 in
   loop_ok allow rest
     (push_out rem (fold_left (emitResult clock allow results) (extractToolCallsFromAssistant m) st3))
     st' new) ->
  exists new', loop_ok allow (m :: msgs) st st' new'.
Proof.
  intros A R N EX [(S1 & _ & S3) SR SP SL SZ SO SU]. cbv zeta.
  match goal with |- loop_ok _ _ (push_out _ (fold_left _ _ ?s)) _ _ -> _ => set (st3 := s) end.
  assert (r_out st3 = r_out st ++ [m] /\ seenToolResultIds st3 = seenToolResultIds st /\
    (unchanged st3 -> unchanged st1)) as (O3 & E3 & U3).
  { unfold st3. destruct (_ && _); simpl; rewrite S1, S3; done. }
  clearbody st3.
  destruct (emit_ok clock allow _ _ (extractToolCallsFromAssistant m) st3 SR (extractToolCalls_truthy m))
    as (rs & Z1 & Z2 & Z3 & Z4).
  rewrite EX, E3 in Z3, Z4. intros [L1 L2 L3 L4 L5]. simpl in *.
  exists (m :: rs ++ rem ++ new). split.
  - rewrite L1, Z1, O3. by rewrite <- !app_assoc.
  - econstructor; [done|done|exact Z3| |].
    + eexists. split; [apply filter_sublist|]. split; [reflexivity|]. intros ->. apply kept_calls_all.
    + apply paired_remainder; [done|]. eapply paired_seen_ext; [|exact L2].
      intros x. rewrite Z4, elem_of_app. done.
  - simpl. rewrite (other_true m R). f_equal. rewrite !List.filter_app, L3.
    simpl in SO. rewrite SO.
    assert (List.filter other rs = []) as ->.
    { clear - Z2. induction Z2 as [|r rs Hr _ IH]; simpl; [done|]. unfold other at 1. by rewrite Hr. }
    simpl. f_equal. clear - SP. induction SP as [|r l [Hr _] _ IH]; simpl; [done|].
    unfold other at 1. rewrite Hr. simpl. by rewrite IH.
  - intros U. destruct (L4 U) as [U4 AN]. apply (emit_unchanged _ _ _ _ st3), U3, SU in U4 as [U0 AN'].
    split; [done|]. simpl. rewrite R, A. auto.
  - intros F. specialize (L5 F). simpl. rewrite !length_app.
    assert (length rs <= length results); [|lia].
    apply (f_equal length) in Z3. rewrite !length_map in Z3. rewrite Z3. subst allow.
    apply kept_calls_length.
Qed.

Lemma repair_loop_ok clock allow fuel msgs st :
  length msgs <= fuel -> exists new, loop_ok allow msgs st (repair_loop clock allow fuel msgs st) new.
Proof.
  revert msgs st. induction fuel as [|fuel IH]; intros msgs st L.
  { destruct msgs; [|simpl in L; lia]. exists []. split; simpl; rewrite ?app_nil_r; try done. constructor. }
  destruct msgs as [|m msgs].
  { exists []. split; simpl; rewrite ?app_nil_r; try done. constructor. }
  simpl in L. assert (length msgs <= fuel) as L' by lia. cbn [repair_loop].
  destruct (classify m) as [[R A]|O A R|O R A].
  - destruct (IH msgs (push_out [m] st) L') as [new K]. exists (m :: new).
    assert (loop_ok allow (m :: msgs) st (repair_loop clock allow fuel msgs (push_out [m] st)) (m :: new))
      by (apply loop_ok_single; auto using expects_nonassistant).
    unfold is_result in R. rewrite A, R. by destruct (is_object m).
  - rewrite O, A. cbn [negb].
    assert (expects m = [] -> exists new, loop_ok allow (m :: msgs) st
      (repair_loop clock allow fuel msgs (push_out [m] st)) new) as Alone.
    { intros E. destruct (IH msgs (push_out [m] st) L') as [new K]. exists (m :: new).
      by apply loop_ok_single. }
    destruct (stopped m) eqn:S; [apply Alone; unfold expects; by rewrite S, andb_false_r|].
    assert (expects m = map call_id (extractToolCallsFromAssistant m)) as EX
      by (unfold expects; by rewrite A, S).
    destruct (extractToolCallsFromAssistant m) as [|c cs] eqn:C; [by apply Alone|].
    rewrite <- C in *.
    destruct (scan_span _ msgs [] [] st) as [[[st1 results] rem] rest] eqn:SC.
    apply scan_span_ok in SC; [|by intros ? ?|constructor]. rewrite <- EX in SC.
    destruct (IH rest (push_out rem (fold_left (emitResult clock allow results)
      (extractToolCallsFromAssistant m)
      (if (0 <? length results)%nat && (0 <? length rem)%nat
              then set_moved (push_out [m] st1) else push_out [m] st1)))) as [new K].
    { pose proof (sp_length _ _ _ _ _ _ _ _ _ SC). lia. }
    eapply loop_ok_span; [done|done| |done|exact SC|exact K]. by rewrite EX, C.
  - rewrite O, A. unfold is_result in R. rewrite R. cbn [negb].
    destruct (IH msgs (drop_orphan st) L') as [new [K1 K2 K3 K4 K5]]. exists new. split; try done.
    + simpl. unfold other at 2. unfold is_result. by rewrite R.
    + intros U. by destruct (K4 U) as [? _].
    + intros F. specialize (K5 F). simpl. lia.
Qed.

Lemma paired_anchored full seen l ids : paired full seen l -> anchored ids l.
Proof.
  intros P. revert ids. induction P as [|seen m l R E P IH|seen m rs ids l N FR EI (kept & SL & EK & _) P IH];
    intros ids'; simpl; [done| |].
  - rewrite R. by destruct (is_role _ _).
  - assert (is_role "assistant" m = true) as A.
    { unfold expects in N. by destruct (is_role "assistant" m). }
    assert (is_result m = false) as -> by (by apply (role_not "assistant")). rewrite A.
    assert (forall x, x ∈ ids -> x ∈ expects m) as I.
    { intros x Hx. rewrite EK in Hx. apply dedup_with_sublist in Hx.
      by eapply elem_of_sublist; [|exact SL]. }
    clear EK P. revert ids EI I. induction FR as [|r rs Hr FR IHr]; intros ids EI I; simpl; [apply IH|].
    rewrite Hr. destruct ids as [|i ids]; [done|]. simpl in EI. injection EI as E1 E2.
    split; [exists i; split; [done|]; apply I; set_solver|]. apply (IHr ids); set_solver.
Qed.

(** The ids answered in a transcript, in order. *)
Definition answered (l : list value) : list (option string) :=
  map extractToolResultId (List.filter is_result l).

Lemma filter_results_all rs :
  Forall (fun r => is_result r = true) rs -> List.filter is_result rs = rs.
Proof. induction 1 as [|r rs Hr _ IH]; simpl; [done|]. by rewrite Hr, IH. Qed.

Lemma paired_NoDup full seen l :
  paired full seen l -> NoDup (answered l) /\ forall x, Some x ∈ answered l -> x ∉ seen.
Proof.
  unfold answered. induction 1 as [|seen m l R E P [IH1 IH2]|seen m rs ids l N FR EI (kept & SL & EK & _) P [IH1 IH2]].
  - split; [constructor|set_solver].
  - simpl. rewrite R. done.
  - assert (is_result m = false) as R.
    { apply (role_not "assistant"); [done|]. unfold expects in N. by destruct (is_role "assistant" m). }
    simpl. rewrite R, List.filter_app, map_app, filter_results_all, EI by done.
    assert (forall x, x ∈ ids -> x ∉ seen) as D.
    { intros x. rewrite EK, elem_of_dedup_with. tauto. }
    split.
    + apply NoDup_app. split; [|split; [|done]].
      * apply NoDup_fmap_2; [apply _|]. rewrite EK. apply NoDup_dedup_with.
      * intros o (x & -> & Hx)%list_elem_of_fmap H. apply IH2 in H. set_solver.
    + intros x [(y & [= ->] & Hy)%list_elem_of_fmap|H]%elem_of_app; [by apply D|]. apply IH2 in H. set_solver.
Qed.

(** ** Input repair *)

(** What becomes of one message: [None] when it is dropped. *)
Definition repaired_message (m : value) : option value :=
  match is_role "assistant" m, get_prop "content" m with
  | true, VArr content =>
      let kept := List.filter (fun b => negb (malformed b)) content in
      if (length kept <? length content)%nat then
        match kept with [] => None | _ => Some (with_prop "content" (VArr kept) m) end
      else Some m
  | _, _ => Some m
  end.
Definition malformed_blocks (m : value) : nat :=
  match is_role "assistant" m, get_prop "content" m with
  | true, VArr content => length (List.filter malformed content)
  | _, _ => 0
  end.

Lemma filter_partition_length {A} (p : A -> bool) l :
  length (List.filter (fun b => negb (p b)) l) + length (List.filter p l) = length l.
Proof. induction l as [|x l IH]; simpl; [done|]. destruct (p x); simpl; lia. Qed.

Lemma repairInputStep_ok st m :
  repairInputStep st m =
  mkInputState (is_out st ++ option_list (repaired_message m)) (is_calls st + malformed_blocks m)
    (is_assistants st + match repaired_message m with None => 1 | _ => 0 end)
    (is_changed st || (0 <? malformed_blocks m)%nat).
Proof.
  destruct st as [o c a ch]. unfold repairInputStep, repaired_message, malformed_blocks. simpl.
  assert (mkInputState (o ++ [m]) c a ch = mkInputState (o ++ [m]) (c + 0) (a + 0) (ch || false)) as K
    by (by rewrite !Nat.add_0_r, orb_false_r).
  destruct (is_object m) eqn:O; simpl.
  2: { destruct (is_role "assistant" m) eqn:A; [apply role_object in A; congruence|exact K]. }
  destruct (is_role "assistant" m); [|exact K]. destruct (get_prop "content" m) as [| | | | |l|]; try exact K.
  pose proof (filter_partition_length malformed l) as P.
  set (kept := List.filter (fun b => negb (malformed b)) l) in *.
  set (bad := List.filter malformed l) in *.
  assert (length l - length kept = length bad) as -> by lia.
  destruct bad as [|b bad]; simpl in P.
  - assert (length kept <? length l = false)%nat as -> by (apply Nat.ltb_ge; lia). exact K.
  - assert (length kept <? length l = true)%nat as -> by (apply Nat.ltb_lt; lia).
    destruct kept as [|k kept]; simpl; rewrite ?app_nil_r, ?Nat.add_0_r, ?Nat.add_1_r, orb_true_r; done.
Qed.

Definition dropped (m : value) : bool := match repaired_message m with None => true | _ => false end.

Lemma repairInput_fold msgs st :
  fold_left repairInputStep msgs st =
  mkInputState (is_out st ++ omap repaired_message msgs)
    (is_calls st + sum_list_with malformed_blocks msgs)
    (is_assistants st + length (List.filter dropped msgs))
    (is_changed st || existsb (fun m => 0 <? malformed_blocks m)%nat msgs).
Proof.
  revert st. induction msgs as [|m msgs IH]; intros st; cbn [fold_left].
  { destruct st. simpl. by rewrite app_nil_r, !Nat.add_0_r, orb_false_r. }
  rewrite IH, repairInputStep_ok. simpl. rewrite orb_assoc.
  unfold dropped at 2. destruct (repaired_message m); simpl; f_equal; try lia; by rewrite <- app_assoc.
Qed.

Lemma repaired_unchanged m : malformed_blocks m = 0 -> repaired_message m = Some m.
Proof.
  unfold malformed_blocks, repaired_message. destruct (is_role "assistant" m); [|done].
  destruct (get_prop "content" m) as [| | | | |l|]; try done. intros H.
  pose proof (filter_partition_length malformed l). rewrite H in *.
  by assert (length (List.filter (fun b => negb (malformed b)) l) <? length l = false)%nat as ->
    by (apply Nat.ltb_ge; lia).
Qed.

Lemma omap_some_id {A} (f : A -> option A) l : Forall (fun x => f x = Some x) l -> omap f l = l.
Proof. induction 1 as [|x l Hx _ IH]; cbn; [done|]. rewrite Hx. f_equal. exact IH. Qed.

Lemma repairToolCallInputs_omap msgs :
  ir_messages (repairToolCallInputs msgs) = omap repaired_message msgs.
Proof.
  unfold repairToolCallInputs. rewrite repairInput_fold. simpl. case_match eqn:E; [done|].
  symmetry. apply omap_some_id, Forall_forall. intros m Hm. apply repaired_unchanged.
  destruct (malformed_blocks m) eqn:B; [done|].
  assert (existsb (fun m => 0 <? malformed_blocks m)%nat msgs = true); [|congruence].
  apply existsb_exists. exists m. rewrite B. split; [by apply list_elem_of_In|done].
Qed.

Lemma filter_negb_filter {A} (p : A -> bool) l :
  List.filter p (List.filter (fun b => negb (p b)) l) = [].
Proof. induction l as [|x l IH]; simpl; [done|]. destruct (p x) eqn:E; simpl; rewrite ?E; done. Qed.

Lemma repaired_clean m m' : repaired_message m = Some m' -> malformed_blocks m' = 0.
Proof.
  unfold repaired_message. destruct (is_role "assistant" m) eqn:A.
  2: { intros [= <-]. unfold malformed_blocks. by rewrite A. }
  destruct (get_prop "content" m) as [| | | | |l|] eqn:C;
    try (intros [= <-]; unfold malformed_blocks; by rewrite A, C).
  pose proof (filter_partition_length malformed l) as P.
  destruct (_ <? _)%nat eqn:L.
  - pose proof (filter_negb_filter malformed l) as F.
    destruct (List.filter (fun b => negb (malformed b)) l) as [|k kept]; [done|]. intros [= <-].
    unfold malformed_blocks. destruct m as [| | | | | |ps]; try discriminate A.
    rewrite get_prop_with_prop_eq, F. by destruct (is_role "assistant" (with_prop _ _ _)).
  - intros [= <-]. unfold malformed_blocks. rewrite A, C. apply Nat.ltb_ge in L. lia.
Qed.

(** What the pairing repair returns. *)
Lemma repair_report clock allow msgs :
  let r := repairToolUseResultPairing clock allow msgs in
  List.filter other (messages r) = List.filter other msgs /\
  anchored [] (messages r) /\
  (moved r = true -> paired allow [] (messages r)) /\
  (allow = false -> length (messages r) <= length msgs).
Proof.
  unfold repairToolUseResultPairing. cbv zeta. simpl.
  destruct (repair_loop_ok clock allow (length msgs) msgs (mkRepair [] [] [] 0 0 false false))
    as [new [L1 L2 L3 L4 L5]]; [done|]. simpl in L1, L2. unfold unchanged in L4.
  destruct (_ || _); rewrite ?L1.
  - split; [done|]. split; [by eapply paired_anchored|]. done.
  - split; [done|]. split; [by apply L4|]. done.
Qed.

(** ** Properties *)

(** C2: pairing tool results.  For every transcript, repaired with or without
    synthetic results: the messages that are not tool results are exactly the
    original ones in their order; every tool result left in the transcript
    answers a call of the closest preceding assistant message, so no orphan
    result is left; and a transcript the repair changed is fully paired, each
    result directly after its call's message, in call order and once per id, and
    with synthetic results enabled every call has its result. *)
Theorem repairToolUseResultPairing_ok clock allow msgs :
  let r := repairToolUseResultPairing clock allow msgs in
  List.filter other (messages r) = List.filter other msgs /\
  anchored [] (messages r) /\
  (moved r = true -> paired allow [] (messages r) /\ NoDup (answered (messages r))).
Proof.
  destruct (repair_report clock allow msgs) as (F & A & P & _). split; [done|]. split; [done|].
  intros M. split; [by apply P|]. by eapply paired_NoDup, P.
Qed.

Lemma loop_ok_done allow st : loop_ok allow [] st st [].
Proof. split; simpl; rewrite ?app_nil_r; try done. constructor. Qed.

(** duplicate results inside the span of one assistant message are skipped
    without being counted and without marking the transcript as changed: a
    transcript holding a call and two results for it, which the repair should
    reduce to one, comes back as it was and reported clean. *)
Theorem duplicate_in_span_not_repaired clock allow call r id :
  expects call = [id] -> is_result r = true -> extractToolResultId r = Some id ->
  repairToolUseResultPairing clock allow [call; r; r] =
  mkReport [call; r; r] [] 0 0 false.
Proof.
  intros E R I. unfold repairToolUseResultPairing, expects in *. cbn [length repair_loop].
  destruct (is_role "assistant" call) eqn:A; [|done]. destruct (stopped call); [done|].
  rewrite (role_object _ _ A). destruct (extractToolCallsFromAssistant call) as [|c [|]]; try done.
  destruct c as [i name]. simpl in E. injection E as ->. cbn [negb map call_id].
  assert (is_role "assistant" r = false) by (by apply (role_not "toolResult")).
  assert (bool_decide (id ∈ [id]) = true) as Hi by (apply bool_decide_eq_true; set_solver).
  assert (bool_decide (id ∈ @nil string) = false) as Hn by (apply bool_decide_eq_false; set_solver).
  assert (bool_decide (id = id) = true) as Hd by (by apply bool_decide_eq_true).
  rewrite !scan_result by (done || by eapply role_object).
  unfold scan_result_step. rewrite I, Hi. unfold mhas, mset. cbn.
  repeat (rewrite ?Hn, ?Hd; cbn). unfold emitResult. cbn. rewrite Hd.
  unfold pushToolResult. rewrite I. cbn. by rewrite Hn.
Qed.

Lemma duplicate_in_span_not_repaired_witness :
  repairToolUseResultPairing (fun _ => 0%Z) true
    [sample_call "a1"; sample_result "a1"; sample_result "a1"] =
  mkReport [sample_call "a1"; sample_result "a1"; sample_result "a1"] [] 0 0 false.
Proof.
  apply (duplicate_in_span_not_repaired _ _ (sample_call "a1") (sample_result "a1") "a1"); reflexivity.
Defined.

(** dropping malformed calls.  Every message of the result holds no
    malformed tool-call block; the report counts exactly the malformed blocks
    and the messages that were emptied; a second pass changes nothing. *)
Theorem repairToolCallInputs_ok msgs :
  let r := repairToolCallInputs msgs in
  Forall (fun m => malformed_blocks m = 0) (ir_messages r) /\
  droppedToolCalls r = sum_list_with malformed_blocks msgs /\
  droppedAssistantMessages r + length (ir_messages r) = length msgs /\
  repairToolCallInputs (ir_messages r) = mkInputReport (ir_messages r) 0 0.
Proof.
  cbv zeta. set (out := ir_messages (repairToolCallInputs msgs)).
  assert (Forall (fun m => malformed_blocks m = 0) out) as F.
  { subst out. rewrite repairToolCallInputs_omap. apply Forall_forall.
    intros m (m0 & _ & Hm)%list_elem_of_omap. by eapply repaired_clean. }
  split; [done|]. split; [|split].
  - unfold repairToolCallInputs. by rewrite repairInput_fold.
  - subst out. rewrite repairToolCallInputs_omap. unfold repairToolCallInputs.
    rewrite repairInput_fold. simpl. clear. induction msgs as [|m msgs IH]; [done|].
    cbn. unfold dropped at 1. destruct (repaired_message m); simpl; lia.
  - unfold repairToolCallInputs. rewrite repairInput_fold. simpl. clearbody out. clear msgs.
    assert (sum_list_with malformed_blocks out = 0 /\ length (List.filter dropped out) = 0 /\
      existsb (fun m => 0 <? malformed_blocks m)%nat out = false) as (-> & -> & ->); [|done].
    induction F as [|m l Hm _ IH]; [done|]. cbn. unfold dropped at 1.
    rewrite repaired_unchanged by done. rewrite Hm. done.
Qed.

(** A user message between a call and its result is moved behind it, a stray
    result is dropped and a missing one is made up. *)
Example repair_moves :
  let user := VObj [("role", VStr "user"); ("content", VStr "hi")] in
  let r := repairToolUseResultPairing (fun _ => 7%Z) true
    [sample_result "z"; sample_call "a1"; user; sample_result "a1"; sample_call "b1"] in
  messages r = [sample_call "a1"; sample_result "a1"; user; sample_call "b1";
                makeMissingToolResult "b1" (Some "read") 7] /\
  droppedOrphanCount r = 1 /\ moved r = true.
Proof. vm_compute. done. Qed.
