(* ===== verification/SessionStore.v ===== *)
(** * Session store

    [src/src/provider/session.ts]: the transcripts kept per session, one JSON file
    each under the state directory.

    The directory is a map from file paths to contents.  A content is what
    [JSON.parse] makes of the file's text, [None] when the text is not JSON; the
    text [JSON.stringify] writes for a value parses to [json_image] of it. *)

From stdpp Require Import base list sets strings.
From Stdlib Require Import Ascii Lia ZArith.
From S2P Require Import Prelude JsString JsMap JsValue NodePath ToolCallId TranscriptRepair.

Definition file := option value.
Definition fs := list (string * file).

(** ** Operations *)

Definition SESSIONS_DIRNAME : string := "sessions".
Definition MAX_SESSION_MESSAGES : nat := 40.

Definition session_char (c : ascii) : bool := is_alnum c || (code c =? 95)%nat || (code c =? 45)%nat.

Definition sanitizeSessionId (sessionId : string) : string :=
  let safe := replace_outside session_char ["_"%char] sessionId in
  if (64 <? slen safe)%nat then slice_to 64 safe else safe.

Definition coerceMessageArray (raw : value) : list value :=
  match raw with
  | VArr l => List.filter (fun item => is_object item && has_prop "role" item) l
  | _ => []
  end.

Definition isRole (msg : value) (role : string) : bool := is_object msg && is_role role msg.

Definition isProviderErrorAssistantStub (msg : value) : bool :=
  if negb (isRole msg "assistant") then false
  else if negb (is_str "error" (get_prop "stopReason" msg)) then false
  else match get_prop "content" msg with
       | VArr (_ :: _) => false
       | _ => true
       end.

(** [allowSyntheticToolResults: false] never reads the clock. *)
Definition no_clock (_ : nat) : Z := 0%Z.

Definition sanitizeSessionTranscript (msgs : list value) : list value :=
  let withoutErrorStubs := List.filter (fun m => negb (isProviderErrorAssistantStub m)) msgs in
  let repairedInputs := ir_messages (repairToolCallInputs withoutErrorStubs) in
  let repairedPairing := messages (repairToolUseResultPairing no_clock false repairedInputs) in
  drop_while (fun m => isRole m "toolResult") repairedPairing.

(** What [saveSessionMessages] writes. *)
Definition persisted (msgs : list value) : list value :=
  let sanitized := sanitizeSessionTranscript msgs in
  let trimmed :=
    if (MAX_SESSION_MESSAGES <? length sanitized)%nat
    then skipn (length sanitized - MAX_SESSION_MESSAGES) sanitized
    else sanitized in
  sanitizeSessionTranscript trimmed.

Section Store.
(** [resolveStateDir()] *)
Variable stateDir : string.

Definition resolveSessionPath (sessionId : string) : string :=
  let sessionsDir := join2 stateDir SESSIONS_DIRNAME in
  join2 sessionsDir (sanitizeSessionId sessionId +:+ ".json").

Definition loadSessionMessages (sessionId : string) (disk : fs) : list value :=
  match mget (resolveSessionPath sessionId) disk with
  | Some (Some parsed) => sanitizeSessionTranscript (coerceMessageArray parsed)
  | _ => []
  end.

Definition saveSessionMessages (sessionId : string) (msgs : list value) (disk : fs) : fs :=
  mset (resolveSessionPath sessionId) (Some (json_image (VArr (persisted msgs)))) disk.

Definition clearSessionMessages (sessionId : string) (disk : fs) : fs :=
  mdelete (resolveSessionPath sessionId) disk.
End Store.

(** ** Lemmas *)

Lemma sanitizeSessionId_class id : forallb session_char (chars (sanitizeSessionId id)) = true.
Proof.
  unfold sanitizeSessionId. set (safe := replace_outside _ _ id).
  assert (forallb session_char (chars safe) = true) as H by (by apply replace_outside_class).
  destruct (_ <? _)%nat; [|done]. unfold slice_to. rewrite chars_of_chars.
  rewrite <- (firstn_skipn 64 (chars safe)), forallb_app in H. by bool_prop.
Qed.

Lemma sanitizeSessionId_slen id : slen (sanitizeSessionId id) <= 64.
Proof.
  unfold sanitizeSessionId. destruct (_ <? _)%nat eqn:E; [|apply Nat.ltb_ge in E; lia].
  unfold slen, slice_to. rewrite chars_of_chars, length_firstn. lia.
Qed.

Lemma session_file_name id : file_name (sanitizeSessionId id +:+ ".json").
Proof.
  set (s := sanitizeSessionId id).
  assert (chars (s +:+ ".json") = chars s ++ chars ".json") as C by apply chars_app.
  split; [split|split; [|split]].
  - intros E. apply (f_equal chars) in E. rewrite C in E. by destruct (chars s).
  - rewrite C. intros [H|H]%elem_of_app; [|by vm_compute in H; set_solver].
    apply list_elem_of_In in H. pose proof (sanitizeSessionId_class id) as K.
    rewrite forallb_forall in K. by apply K in H.
  - intros E. apply (f_equal slen) in E. unfold slen in E. rewrite C, length_app in E. simpl in E. lia.
  - intros E. apply (f_equal slen) in E. unfold slen in E. rewrite C, length_app in E. simpl in E. lia.
  - unfold endsWith. rewrite C, rev_app_distr. done.
Qed.

Lemma resolveSessionPath_eq dir id id' :
  resolveSessionPath dir id = resolveSessionPath dir id' <-> sanitizeSessionId id = sanitizeSessionId id'.
Proof.
  unfold resolveSessionPath. rewrite join2_file_inj by apply session_file_name. split; [|by intros ->].
  intros E. apply (f_equal chars) in E.
  rewrite !chars_app in E. apply app_inv_tail in E. by apply chars_inj.
Qed.

Lemma same_session_file dir id id' :
  resolveSessionPath dir id' = resolveSessionPath dir id <-> sanitizeSessionId id = sanitizeSessionId id'.
Proof. rewrite resolveSessionPath_eq. split; congruence. Qed.

(** A property of single messages survives the pairing repair when it holds of
    every tool result. *)
Lemma repair_Forall (P : value -> Prop) clock msgs :
  (forall r, is_result r = true -> P r) -> Forall P msgs ->
  Forall P (messages (repairToolUseResultPairing clock false msgs)).
Proof.
  intros HR HF. destruct (repair_report clock false msgs) as (E & _).
  apply Forall_forall. intros m Hm. destruct (is_result m) eqn:R; [by apply HR|].
  assert (In m (List.filter other msgs)) as H.
  { rewrite <- E. apply filter_In. split; [by apply list_elem_of_In|by apply other_true]. }
  apply filter_In in H as [H _]. rewrite Forall_forall in HF. by apply HF, list_elem_of_In.
Qed.

Lemma isRole_result m : isRole m "toolResult" = is_result m.
Proof. unfold isRole, is_result. destruct (is_role _ m) eqn:E; [|by rewrite andb_false_r]. by rewrite (role_object _ _ E). Qed.
Lemma isRole_assistant m : isRole m "assistant" = is_role "assistant" m.
Proof. unfold isRole. destruct (is_role _ m) eqn:E; [|by rewrite andb_false_r]. by rewrite (role_object _ _ E). Qed.

Lemma anchored_drop_while l : anchored [] l -> drop_while (fun m => isRole m "toolResult") l = l.
Proof.
  destruct l as [|m l]; simpl; [done|]. rewrite isRole_result. destruct (is_result m); [|done].
  intros [(id & _ & H) _]. by apply elem_of_nil in H.
Qed.

Lemma repaired_not_stub m m' :
  isProviderErrorAssistantStub m = false -> repaired_message m = Some m' ->
  isProviderErrorAssistantStub m' = false.
Proof.
  unfold repaired_message. destruct (is_role "assistant" m) eqn:A; [|by intros ? [= <-]].
  destruct (get_prop "content" m) as [| | | | |l|] eqn:C; try (by intros ? [= <-]).
  destruct (_ <? _)%nat; [|by intros ? [= <-]].
  destruct (List.filter _ l) as [|k kept]; [done|]. intros _ [= <-].
  unfold isProviderErrorAssistantStub. destruct m as [| | | | | |ps]; try discriminate A.
  rewrite get_prop_with_prop_eq. by repeat case_match.
Qed.

Record clean (l : list value) : Prop := {
  clean_stub : Forall (fun m => isProviderErrorAssistantStub m = false) l;
  clean_calls : Forall (fun m => malformed_blocks m = 0) l;
  clean_anchored : anchored [] l;
}.

Lemma Forall_omap {A B} (P : A -> Prop) (Q : B -> Prop) (f : A -> option B) l :
  (forall x y, P x -> f x = Some y -> Q y) -> Forall P l -> Forall Q (omap f l).
Proof.
  intros H F. apply Forall_forall. intros y (x & Hx & Hf)%list_elem_of_omap.
  rewrite Forall_forall in F. eauto.
Qed.
Lemma omap_length {A B} (f : A -> option B) l : length (omap f l) <= length l.
Proof. induction l as [|x l IH]; cbn; [done|]. destruct (f x); simpl; unfold omap in *; lia. Qed.

Lemma sanitizeSessionTranscript_ok msgs :
  clean (sanitizeSessionTranscript msgs) /\ length (sanitizeSessionTranscript msgs) <= length msgs.
Proof.
  unfold sanitizeSessionTranscript. set (kept := List.filter _ msgs).
  assert (Forall (fun m => isProviderErrorAssistantStub m = false) kept) as K.
  { apply Forall_forall. intros m Hm%list_elem_of_In. apply filter_In in Hm as [_ H]. by bool_prop. }
  rewrite repairToolCallInputs_omap. set (inputs := omap repaired_message kept).
  destruct (repair_report no_clock false inputs) as (_ & A & _ & L).
  rewrite anchored_drop_while by done. split; [split; [| |done]|].
  - apply repair_Forall.
    + intros r Hr. unfold isProviderErrorAssistantStub. rewrite isRole_assistant.
      by rewrite (role_not "toolResult" "assistant" r).
    + eapply Forall_omap; [|exact K]. intros x y. apply repaired_not_stub.
  - apply repair_Forall.
    + intros r Hr. unfold malformed_blocks. by rewrite (role_not "toolResult" "assistant" r).
    + eapply Forall_omap; [|exact K]. intros x y _. apply repaired_clean.
  - specialize (L eq_refl). pose proof (omap_length repaired_message kept).
    pose proof (filter_length_le (fun m => negb (isProviderErrorAssistantStub m)) msgs).
    subst inputs kept. lia.
Qed.

Lemma persisted_length msgs : length (persisted msgs) <= MAX_SESSION_MESSAGES.
Proof.
  unfold persisted. etransitivity; [apply sanitizeSessionTranscript_ok|].
  destruct (_ <? _)%nat eqn:E; [rewrite length_skipn; lia|by apply Nat.ltb_ge in E].
Qed.

(** ** Properties *)

(** what is on disk after a save.  The session's file holds at most 40
    messages; none is an empty provider-error stub, no assistant message holds a
    malformed tool call, every tool result answers a call of the closest
    preceding assistant message, and so the transcript never starts with a tool
    result. *)
Theorem saveSessionMessages_ok dir id msgs disk :
  exists l, mget (resolveSessionPath dir id) (saveSessionMessages dir id msgs disk) =
      Some (Some (json_image (VArr l))) /\
    length l <= 40 /\ clean l /\
    (forall m l', l = m :: l' -> isRole m "toolResult" = false).
Proof.
  exists (persisted msgs). unfold saveSessionMessages. rewrite mget_mset_eq.
  assert (clean (persisted msgs)) as C by apply sanitizeSessionTranscript_ok.
  split; [done|]. split; [apply persisted_length|]. split; [done|].
  intros m l' E. destruct C as [_ _ A]. apply anchored_drop_while in A. rewrite E in A.
  by apply drop_while_head in A.
Qed.

(** session files.  A session id is reduced to at most 64 characters of
    [a-zA-Z0-9_-], so its file is an entry of the sessions directory whatever the
    id holds; and a session reads back the last save of any id with the same
    reduced name, saves of other names never changing it. *)
Theorem session_files dir id id' msgs disk :
  (exists name, resolveSessionPath dir id' =
     of_segments (normalize_segments (raw_segments (join2 dir SESSIONS_DIRNAME)) ++ [name]) /\
     seg_ok name /\ slen name <= 69) /\
  loadSessionMessages dir id' (saveSessionMessages dir id msgs disk) =
    (if bool_decide (sanitizeSessionId id = sanitizeSessionId id')
     then sanitizeSessionTranscript (coerceMessageArray (json_image (VArr (persisted msgs))))
     else loadSessionMessages dir id' disk) /\
  loadSessionMessages dir id' (clearSessionMessages dir id disk) =
    (if bool_decide (sanitizeSessionId id = sanitizeSessionId id') then []
     else loadSessionMessages dir id' disk).
Proof.
  split; [|split].
  - exists (sanitizeSessionId id' +:+ ".json"). unfold resolveSessionPath.
    rewrite join2_file by apply session_file_name. split; [done|]. split; [apply session_file_name|].
    pose proof (sanitizeSessionId_slen id'). unfold slen in *. rewrite chars_app, length_app. simpl. lia.
  - unfold loadSessionMessages, saveSessionMessages. rewrite mget_mset.
    by rewrite (bool_decide_ext _ _ (same_session_file dir id id')); case_bool_decide.
  - unfold loadSessionMessages, clearSessionMessages. rewrite mget_mdelete.
    by rewrite (bool_decide_ext _ _ (same_session_file dir id id')); case_bool_decide.
Qed.

(** Two ids of different sessions with one file. *)
Example session_ids_collide :
  sanitizeSessionId "telegram:12/34" = sanitizeSessionId "telegram:12_34".
Proof. reflexivity. Qed.
