(* ===== verification/SessionSlug.v ===== *)
(** * Session slugs

    [src/src/agents/session-slug.ts]: readable names for shell sessions. *)

From stdpp Require Import base list sets strings pretty.
From Stdlib Require Import Ascii Lia ZArith.
From S2P Require Import Prelude JsString JsValue.

Definition SLUG_ADJECTIVES : list string :=
  ["amber"; "briny"; "brisk"; "calm"; "clear"; "cool"; "crisp"; "dawn"; "delta"; "ember";
   "faint"; "fast"; "fresh"; "gentle"; "glow"; "good"; "grand"; "keen"; "kind"; "lucky";
   "marine"; "mellow"; "mild"; "neat"; "nimble"; "nova"; "oceanic"; "plaid"; "quick"; "quiet";
   "rapid"; "salty"; "sharp"; "swift"; "tender"; "tidal"; "tidy"; "tide"; "vivid"; "warm";
   "wild"; "young"].

Definition SLUG_NOUNS : list string :=
  ["atlas"; "basil"; "bison"; "bloom"; "breeze"; "canyon"; "cedar"; "claw"; "cloud"; "comet";
   "coral"; "cove"; "crest"; "crustacean"; "daisy"; "dune"; "ember"; "falcon"; "fjord";
   "forest"; "glade"; "gulf"; "harbor"; "haven"; "kelp"; "lagoon"; "lobster"; "meadow";
   "mist"; "nudibranch"; "nexus"; "ocean"; "orbit"; "otter"; "pine"; "prairie"; "reef";
   "ridge"; "river"; "rook"; "sable"; "sage"; "seaslug"; "shell"; "shoal"; "shore"; "slug";
   "summit"; "tidepool"; "trail"; "valley"; "wharf"; "willow"; "zephyr"].

Section Slug.
(** The random source: [random_index n len] is the [n]-th
    [Math.floor(Math.random() * len)], [random_suffix] the characters taken from
    [Math.random().toString(36)], [now36] the clock in base 36. *)
Variable random_index : nat -> nat -> nat.
Variable random_suffix : string.
Variable now36 : string.

(** The number of draws made so far is threaded through. *)
Definition randomChoice (values : list string) (fallback : string) (n : nat) : string * nat :=
  (default fallback (values !! random_index n (length values)), S n).

Definition createSlugBase (words : nat) (n : nat) : string * nat :=
  let '(a, n1) := randomChoice SLUG_ADJECTIVES "steady" n in
  let '(b, n2) := randomChoice SLUG_NOUNS "harbor" n1 in
  if (2 <? words)%nat then
    let '(c, n3) := randomChoice SLUG_NOUNS "reef" n2 in (join "-" [a; b; c], n3)
  else (join "-" [a; b], n2).

Variable isTaken : string -> bool.

(** [`${base}-${i}`] *)
Definition candidate (base : string) (i : nat) : string :=
  base +:+ "-" +:+ pretty (Z.of_nat i).

(** The candidates of one attempt: the base, then suffixes 2 to 12. *)
Definition tryBase (base : string) : option string :=
  if negb (isTaken base) then Some base
  else List.find (fun c => negb (isTaken c)) (map (candidate base) (seq 2 11)).

Fixpoint attempts (words count n : nat) : option string * nat :=
  match count with
  | O => (None, n)
  | S count' =>
      let '(base, n1) := createSlugBase words n in
      match tryBase base with
      | Some slug => (Some slug, n1)
      | None => attempts words count' n1
      end
  end.

Definition createSessionSlug : string :=
  match attempts 2 12 0 with
  | (Some slug, _) => slug
  | (None, n) =>
      match attempts 3 12 n with
      | (Some slug, _) => slug
      | (None, n2) =>
          let fallback := (createSlugBase 3 n2).1 +:+ "-" +:+ random_suffix in
          if isTaken fallback then fallback +:+ "-" +:+ now36 else fallback
      end
  end.
End Slug.

(** ** Lemmas *)

Lemma tryBase_free isTaken base s : tryBase isTaken base = Some s -> isTaken s = false.
Proof.
  unfold tryBase. destruct (isTaken base) eqn:E; cbn [negb]; [|by intros [= <-]].
  intros H%find_some. destruct H as [_ H]. by bool_prop.
Qed.

Lemma attempts_free rnd isTaken words count n s n' :
  attempts rnd isTaken words count n = (Some s, n') -> isTaken s = false.
Proof.
  revert n. induction count as [|count IH]; intros n; simpl; [done|].
  destruct (createSlugBase rnd words n) as [base n1].
  destruct (tryBase isTaken base) eqn:T; [|apply IH].
  intros [= <- <-]. by eapply tryBase_free.
Qed.

Lemma pretty_Z_inj_nat i j : pretty (Z.of_nat i) = pretty (Z.of_nat j) -> i = j.
Proof. intros H. apply (inj pretty) in H. lia. Qed.

(** The twelve candidates of a base. *)
Definition candidates (base : string) : list string := base :: map (candidate base) (seq 2 11).

Lemma candidates_NoDup base : NoDup (candidates base).
Proof.
  unfold candidates, candidate. apply NoDup_cons. split.
  - intros (i & E & _)%list_elem_of_fmap. apply (f_equal slen) in E. revert E. unfold slen.
    rewrite !chars_app, !length_app. simpl. lia.
  - apply NoDup_fmap_2; [|apply NoDup_seq]. intros i j E. apply pretty_Z_inj_nat.
    apply (f_equal chars) in E. rewrite !chars_app in E. do 2 apply app_inv_head in E. by apply chars_inj.
Qed.

Lemma tryBase_none isTaken base :
  tryBase isTaken base = None -> Forall (fun c => isTaken c = true) (candidates base).
Proof.
  unfold tryBase, candidates. destruct (isTaken base) eqn:E; cbn [negb]; [|done].
  intros H. constructor; [done|]. apply Forall_forall. intros c Hc%list_elem_of_In.
  apply (find_none _ _ H) in Hc. by bool_prop.
Qed.

(** ** Properties *)

(** slugs.  A slug that is already taken is only ever returned after every
    candidate of every attempt was found taken, with the clock appended to a
    taken fallback; while fewer than twelve ids are taken the slug is fresh. *)
Theorem createSessionSlug_fresh rnd suffix now36 isTaken taken :
  (forall s, isTaken s = true <-> s ∈ taken) ->
  let slug := createSessionSlug rnd suffix now36 isTaken in
  (isTaken slug = true -> exists fallback, isTaken fallback = true /\ slug = fallback +:+ "-" +:+ now36) /\
  (length taken < 12 -> isTaken slug = false).
Proof.
  intros HT. cbv zeta. split.
  - unfold createSessionSlug. destruct (attempts rnd isTaken 2 12 0) as [[s|] n] eqn:A2.
    { by rewrite (attempts_free _ _ _ _ _ _ _ A2). }
    destruct (attempts rnd isTaken 3 12 n) as [[s|] n2] eqn:A3.
    { by rewrite (attempts_free _ _ _ _ _ _ _ A3). }
    destruct (isTaken (_ +:+ "-" +:+ suffix)) eqn:F; [|by rewrite F]. eauto.
  - intros L. unfold createSessionSlug. destruct (attempts rnd isTaken 2 12 0) as [[s|] n] eqn:A2.
    { by eapply attempts_free. }
    exfalso. cbn [attempts] in A2. destruct (createSlugBase rnd 2 0) as [base n1].
    destruct (tryBase isTaken base) eqn:T; [done|]. apply tryBase_none in T.
    assert (length (candidates base) <= length taken); [|simpl in *; lia].
    apply NoDup_incl_length; [apply NoDup_ListNoDup, candidates_NoDup|].
    intros c Hc%list_elem_of_In. apply list_elem_of_In, HT. rewrite Forall_forall in T. by apply T.
Qed.

Lemma createSessionSlug_fresh_witness :
  createSessionSlug (fun _ _ => 0) "abc" "z" (fun s => bool_decide (s ∈ ["amber-atlas"])) = "amber-atlas-2" /\
  bool_decide ("amber-atlas-2" ∈ ["amber-atlas"]) = false.
Proof.
  split; [vm_compute; reflexivity|].
  exact (proj2 (createSessionSlug_fresh (fun _ _ => 0) "abc" "z" (fun s => bool_decide (s ∈ ["amber-atlas"]))
    ["amber-atlas"] (fun s => bool_decide_eq_true _)) ltac:(simpl; lia)).
Defined.
