(* ===== verification/ProcessRegistry.v ===== *)
(** * Shell-session registry

    [src/src/agents/bash-process-registry.ts]: the sessions of running and finished
    shell processes, their output buffers, and the sweep of finished sessions.

    A session is a mutable object that the registry and its owner share, so the
    registry keeps references into a heap; a finished session is a copy.  The
    fields no operation reads or writes ([sessionKey], [notifyOnExit],
    [exitNotified], ...) are left out.  The interface makes the pending buffers
    and their counts required, so the [??=] guards of [appendOutput] never fire. *)

From stdpp Require Import base list sets strings gmap.
From Stdlib Require Import Ascii Lia ZArith.
From S2P Require Import Prelude JsString JsMap JsValue SessionSlug.

(** ** Data *)

Inductive ProcessStatus : Type := running | completed | failed | killed.
#[export] Instance ProcessStatus_eq : EqDecision ProcessStatus.
Proof. solve_decision. Defined.

(** The standard input of a child: whether it can be destroyed (a Node stream) or
    only ended (a PTY wrapper), what was written, and how it was closed. *)
Record SessionStdin := mkStdin {
  has_destroy : bool;
  written : list string;
  ended : bool;
  destroyed : bool;
}.

Record ProcessSession := mkSession {
  s_id : string;
  s_command : string;
  s_scopeKey : option string;
  s_child : bool;                      (* the child process is still referenced *)
  s_stdin : option SessionStdin;
  s_pid : option Z;
  s_startedAt : Z;
  s_cwd : option string;
  maxOutputChars : nat;
  pendingMaxOutputChars : option nat;
  s_totalOutputChars : nat;
  pendingStdout : list string;
  pendingStderr : list string;
  pendingStdoutChars : nat;
  pendingStderrChars : nat;
  s_aggregated : string;
  s_tail : string;
  s_exitCode : option Z;
  s_exitSignal : option string;
  exited : bool;
  s_truncated : bool;
  backgrounded : bool;
}.

Record FinishedSession := mkFinished {
  f_id : string;
  f_command : string;
  f_scopeKey : option string;
  f_startedAt : Z;
  f_endedAt : Z;
  f_cwd : option string;
  f_status : ProcessStatus;
  f_exitCode : option Z;
  f_exitSignal : option string;
  f_aggregated : string;
  f_tail : string;
  f_truncated : bool;
  f_totalOutputChars : nat;
}.

Definition ref := nat.

Record registry := mkRegistry {
  heap : gmap ref ProcessSession;
  runningSessions : list (string * ref);
  finishedSessions : list (string * FinishedSession);
  jobTtlMs : num;
  (* six times the interval of the sweeper, when it runs *)
  sweeper : option num;
}.

Definition set_heap (h : gmap ref ProcessSession) (r : registry) : registry :=
  mkRegistry h (runningSessions r) (finishedSessions r) (jobTtlMs r) (sweeper r).
Definition set_running (l : list (string * ref)) (r : registry) : registry :=
  mkRegistry (heap r) l (finishedSessions r) (jobTtlMs r) (sweeper r).
Definition set_finished (l : list (string * FinishedSession)) (r : registry) : registry :=
  mkRegistry (heap r) (runningSessions r) l (jobTtlMs r) (sweeper r).

(** ** Time to live *)

Definition DEFAULT_JOB_TTL_MS : num := NInt (30 * 60 * 1000).
Definition MIN_JOB_TTL_MS : num := NInt (60 * 1000).
Definition MAX_JOB_TTL_MS : num := NInt (3 * 60 * 60 * 1000).
Definition DEFAULT_PENDING_OUTPUT_CHARS : nat := Z.to_nat 30000.

Definition falsy_num (n : num) : bool :=
  match n with NNaN => true | NFin m _ => (m =? 0)%Z | NInf _ => false end.

Definition clampTtl (v : option num) : num :=
  match v with
  | None => DEFAULT_JOB_TTL_MS
  | Some n => if falsy_num n || isNaN n then DEFAULT_JOB_TTL_MS
              else num_min (num_max n MIN_JOB_TTL_MS) MAX_JOB_TTL_MS
  end.

Definition startSweeper (r : registry) : registry :=
  match sweeper r with
  | Some _ => r
  | None => mkRegistry (heap r) (runningSessions r) (finishedSessions r) (jobTtlMs r)
              (Some (num_max (NInt (6 * 30000)) (jobTtlMs r)))
  end.
Definition stopSweeper (r : registry) : registry :=
  mkRegistry (heap r) (runningSessions r) (finishedSessions r) (jobTtlMs r) None.

Definition setJobTtlMs (v : option num) (r : registry) : registry :=
  match v with
  | None => r
  | Some n =>
      if isNaN n then r
      else startSweeper (stopSweeper
             (mkRegistry (heap r) (runningSessions r) (finishedSessions r) (clampTtl (Some n)) (sweeper r)))
  end.

Definition pruneFinishedSessions (now : Z) (r : registry) : registry :=
  let cutoff := num_sub (NInt now) (jobTtlMs r) in
  set_finished (List.filter (fun p => negb (num_lt (NInt (f_endedAt p.2)) cutoff)) (finishedSessions r)) r.

(** ** The maps *)

Definition isSessionIdTaken (r : registry) (id : string) : bool :=
  mhas id (runningSessions r) || mhas id (finishedSessions r).

Definition createSessionSlug rnd suffix now36 (r : registry) : string :=
  SessionSlug.createSessionSlug rnd suffix now36 (isSessionIdTaken r).

(** [addSession(session)] for a session object just built, at a fresh reference. *)
Definition addSession (session : ProcessSession) (r : registry) : registry * ref :=
  let ref := fresh (dom (heap r)) in
  let r1 := set_heap (<[ref := session]> (heap r)) r in
  (startSweeper (set_running (mset (s_id session) ref (runningSessions r1)) r1), ref).

Definition getSession (id : string) (r : registry) : option ref := mget id (runningSessions r).
Definition getFinishedSession (id : string) (r : registry) : option FinishedSession :=
  mget id (finishedSessions r).

Definition deleteSession (id : string) (r : registry) : registry :=
  set_finished (mdelete id (finishedSessions r)) (set_running (mdelete id (runningSessions r)) r).

Definition listRunningSessions (r : registry) : list ProcessSession :=
  List.filter backgrounded (omap (fun p => heap r !! p.2) (runningSessions r)).
Definition listFinishedSessions (r : registry) : list FinishedSession := values (finishedSessions r).
Definition clearFinished (r : registry) : registry := set_finished [] r.
Definition resetProcessRegistryForTests (r : registry) : registry :=
  stopSweeper (set_finished [] (set_running [] r)).

(** ** Output buffers *)

Definition tail (text : string) (max : nat) : string :=
  if (slen text <=? max)%nat then text else slice_from (slen text - max) text.
Definition trimWithCap (text : string) (max : nat) : string :=
  if (slen text <=? max)%nat then text else slice_from (slen text - max) text.

Definition sumPendingChars (buffer : list string) : nat := fold_left (fun n c => n + slen c) buffer 0.

(** [while (buffer.length && pendingChars - buffer[0].length >= cap)] *)
Fixpoint shift_chunks (buffer : list string) (pendingChars cap : nat) : list string * nat :=
  match buffer with
  | [] => ([], pendingChars)
  | c :: rest =>
      if (cap + slen c <=? pendingChars)%nat then shift_chunks rest (pendingChars - slen c) cap
      else (buffer, pendingChars)
  end.

Definition capPendingBuffer (buffer : list string) (pendingChars cap : nat) : list string * nat :=
  if (pendingChars <=? cap)%nat then (buffer, pendingChars)
  else
    match last buffer with
    | Some l =>
        if truthy l && (cap <=? slen l)%nat then ([slice_from (slen l - cap) l], cap)
        else
          let '(b, n) := shift_chunks buffer pendingChars cap in
          match b with
          | c :: rest => if (cap <? n)%nat then (slice_from (n - cap) c :: rest, cap) else (b, n)
          | [] => (b, n)
          end
    | None => (buffer, pendingChars)
    end.

Inductive stream := stdout | stderr.

Definition pendingCap (s : ProcessSession) : nat :=
  Nat.min (default DEFAULT_PENDING_OUTPUT_CHARS (pendingMaxOutputChars s)) (maxOutputChars s).

Definition appendOutput (s : ProcessSession) (st : stream) (chunk : string) : ProcessSession :=
  let buffer := match st with stdout => pendingStdout s | stderr => pendingStderr s end in
  let bufferChars := match st with stdout => pendingStdoutChars s | stderr => pendingStderrChars s end in
  let cap := pendingCap s in
  let buffer1 := buffer ++ [chunk] in
  let pending1 := bufferChars + slen chunk in
  let '(truncated1, (buffer2, pending2)) :=
    if (cap <? pending1)%nat then (true, capPendingBuffer buffer1 pending1 cap)
    else (s_truncated s, (buffer1, pending1)) in
  let aggregated := trimWithCap (s_aggregated s +:+ chunk) (maxOutputChars s) in
  mkSession (s_id s) (s_command s) (s_scopeKey s) (s_child s) (s_stdin s) (s_pid s) (s_startedAt s)
    (s_cwd s) (maxOutputChars s) (pendingMaxOutputChars s)
    (s_totalOutputChars s + slen chunk)
    (match st with stdout => buffer2 | stderr => pendingStdout s end)
    (match st with stdout => pendingStderr s | stderr => buffer2 end)
    (match st with stdout => pending2 | stderr => pendingStdoutChars s end)
    (match st with stdout => pendingStderrChars s | stderr => pending2 end)
    aggregated (tail aggregated 2000) (s_exitCode s) (s_exitSignal s) (exited s)
    (truncated1 || (slen aggregated <? slen (s_aggregated s) + slen chunk)%nat)
    (backgrounded s).

Definition drainSession (s : ProcessSession) : ProcessSession * (string * string) :=
  (mkSession (s_id s) (s_command s) (s_scopeKey s) (s_child s) (s_stdin s) (s_pid s) (s_startedAt s)
     (s_cwd s) (maxOutputChars s) (pendingMaxOutputChars s) (s_totalOutputChars s)
     [] [] 0 0 (s_aggregated s) (s_tail s) (s_exitCode s) (s_exitSignal s) (exited s)
     (s_truncated s) (backgrounded s),
   (join "" (pendingStdout s), join "" (pendingStderr s))).

(** ** Exit *)

(** The fields [markExited] and [moveToFinished] change on the session: the child
    and its stdin are released. *)
Definition exit_session (code : option Z) (signal : option string) (s : ProcessSession) : ProcessSession :=
  mkSession (s_id s) (s_command s) (s_scopeKey s) false None (s_pid s) (s_startedAt s)
    (s_cwd s) (maxOutputChars s) (pendingMaxOutputChars s) (s_totalOutputChars s)
    (pendingStdout s) (pendingStderr s) (pendingStdoutChars s) (pendingStderrChars s)
    (s_aggregated s) (tail (s_aggregated s) 2000) code signal true (s_truncated s) (backgrounded s).

Definition finished_of (s : ProcessSession) (status : ProcessStatus) (now : Z) : FinishedSession :=
  mkFinished (s_id s) (s_command s) (s_scopeKey s) (s_startedAt s) now (s_cwd s) status
    (s_exitCode s) (s_exitSignal s) (s_aggregated s) (s_tail s) (s_truncated s) (s_totalOutputChars s).

Definition moveToFinished (s : ProcessSession) (status : ProcessStatus) (now : Z) (r : registry) : registry :=
  let r1 := set_running (mdelete (s_id s) (runningSessions r)) r in
  if negb (backgrounded s) then r1
  else set_finished (mset (s_id s) (finished_of s status now) (finishedSessions r1)) r1.

(** [markExited(session, ...)] on the session at [ref]. *)
Definition markExited (r0 : ref) (code : option Z) (signal : option string) (status : ProcessStatus)
    (now : Z) (r : registry) : registry :=
  match heap r !! r0 with
  | Some s =>
      let s' := exit_session code signal s in
      moveToFinished s' status now (set_heap (<[r0 := s']> (heap r)) r)
  | None => r
  end.

Definition markBackgrounded (s : ProcessSession) : ProcessSession :=
  mkSession (s_id s) (s_command s) (s_scopeKey s) (s_child s) (s_stdin s) (s_pid s) (s_startedAt s)
    (s_cwd s) (maxOutputChars s) (pendingMaxOutputChars s) (s_totalOutputChars s)
    (pendingStdout s) (pendingStderr s) (pendingStdoutChars s) (pendingStderrChars s)
    (s_aggregated s) (s_tail s) (s_exitCode s) (s_exitSignal s) (exited s) (s_truncated s) true.

(** A mutation of the session at a reference. *)
Definition update (r0 : ref) (f : ProcessSession -> ProcessSession) (r : registry) : registry :=
  match heap r !! r0 with
  | Some s => set_heap (<[r0 := f s]> (heap r)) r
  | None => r
  end.

(** ** Buffers: lemmas *)

#[local] Arguments join : simpl never.

Lemma chars_join_nil l : chars (join "" l) = concat (map chars l).
Proof.
  unfold join. induction l as [|c l IH]; [done|].
  destruct l as [|d l]; [simpl; by rewrite app_nil_r|].
  change (String.concat "" (c :: d :: l)) with (c +:+ "" +:+ String.concat "" (d :: l)).
  rewrite !chars_app, IH. done.
Qed.
Lemma join_nil_cons c l : join "" (c :: l) = c +:+ join "" l.
Proof. apply chars_inj. by rewrite chars_app, !chars_join_nil. Qed.
Lemma join_nil_snoc l c : join "" (l ++ [c]) = join "" l +:+ c.
Proof.
  apply chars_inj. rewrite chars_app, !chars_join_nil, map_app, concat_app. simpl. by rewrite app_nil_r.
Qed.

Lemma sumPendingChars_join l : sumPendingChars l = slen (join "" l).
Proof.
  unfold sumPendingChars. assert (forall n, fold_left (fun n c => n + slen c) l n = n + slen (join "" l)) as H.
  { induction l as [|c l IH]; intros n; [change (slen (join "" [])) with 0; simpl; lia|]. rewrite join_nil_cons, slen_app. simpl. rewrite IH. lia. }
  by rewrite H.
Qed.

Lemma last_chars_eq n s : last_chars n s = of_chars (skipn (slen s - n) (chars s)).
Proof. done. Qed.
Lemma tail_last_chars text max : tail text max = last_chars max text.
Proof.
  unfold tail. destruct (_ <=? _)%nat eqn:E; [|done]. apply Nat.leb_le in E. by rewrite last_chars_all.
Qed.
Lemma trimWithCap_last_chars text max : trimWithCap text max = last_chars max text.
Proof. apply tail_last_chars. Qed.

(** What was cut in front does not matter while enough is left. *)
Lemma last_chars_drop n a b : n <= slen b -> last_chars n (a +:+ b) = last_chars n b.
Proof.
  intros H. rewrite !last_chars_eq, slen_app, chars_app, skipn_app. unfold slen in *.
  rewrite skipn_all2 by lia. simpl. do 2 f_equal. lia.
Qed.
Lemma last_chars_overflow n c b :
  slen b < n -> n < slen c + slen b -> slice_from (slen c + slen b - n) c +:+ b = last_chars n (c +:+ b).
Proof.
  intros H1 H2. apply chars_inj. rewrite last_chars_eq, chars_app, slen_app, chars_app. unfold slice_from.
  rewrite !chars_of_chars, skipn_app. f_equal. unfold slen in *.
  replace (length (chars c) + length (chars b) - n - length (chars c)) with 0 by lia. done.
Qed.

Lemma shift_chunks_ok buffer cap n b m :
  shift_chunks buffer n cap = (b, m) -> n = slen (join "" buffer) -> cap <= n ->
  m = slen (join "" b) /\ cap <= m /\ last_chars cap (join "" b) = last_chars cap (join "" buffer) /\
  match b with c :: _ => m < cap + slen c | [] => True end.
Proof.
  revert n. induction buffer as [|c rest IH]; intros n; simpl; [by intros [= <- <-]|].
  rewrite join_nil_cons, slen_app.
  destruct (_ <=? _)%nat eqn:E; [apply Nat.leb_le in E|apply Nat.leb_gt in E].
  - intros S N C. destruct (IH _ S) as (I1 & I2 & I3 & I4); [lia|lia|].
    split; [done|]. split; [done|]. split; [|done]. rewrite I3. symmetry. apply last_chars_drop. lia.
  - intros [= <- <-] N C. rewrite join_nil_cons, slen_app. done.
Qed.

(** Capping a buffer keeps its last [cap] characters. *)
Lemma capPendingBuffer_ok buffer cap :
  let '(b, n) := capPendingBuffer buffer (slen (join "" buffer)) cap in
  join "" b = last_chars cap (join "" buffer) /\ n = slen (join "" b).
Proof.
  unfold capPendingBuffer. destruct (_ <=? cap)%nat eqn:E.
  { apply Nat.leb_le in E. by rewrite last_chars_all. }
  apply Nat.leb_gt in E. destruct (last buffer) as [l|] eqn:L.
  2: { apply last_None in L as ->. by vm_compute in E; inversion E. }
  apply last_Some in L as [buf ->]. destruct (truthy l && _) eqn:T.
  { apply andb_true_iff in T as [_ T%Nat.leb_le].
    assert (join "" [slice_from (slen l - cap) l] = last_chars cap l) as -> by done.
    rewrite join_nil_snoc, last_chars_drop by done. split; [done|]. rewrite last_chars_slen. lia. }
  destruct (shift_chunks _ _ cap) as [b n] eqn:S.
  destruct (shift_chunks_ok _ _ _ _ _ S eq_refl) as (N & C & K & H); [lia|].
  destruct b as [|c rest].
  { rewrite <- K. change (slen (join "" [])) with 0 in N. subst n. assert (cap = 0) as -> by lia. done. }
  rewrite join_nil_cons, slen_app in *.
  destruct (cap <? n)%nat eqn:F; [apply Nat.ltb_lt in F|apply Nat.ltb_ge in F].
  - assert (join "" (slice_from (n - cap) c :: rest) = last_chars cap (c +:+ join "" rest)) as J.
    { rewrite join_nil_cons, N. apply last_chars_overflow; lia. }
    rewrite J, <- K. split; [done|]. rewrite last_chars_slen, slen_app. lia.
  - rewrite <- K, join_nil_cons, last_chars_all by (rewrite slen_app; lia). split; [done|]. by rewrite slen_app.
Qed.

(** ** Output of a session *)

(** The session saw the output [hist] in all, and [out] and [err] on its streams
    since it was last drained. *)
Record tracked (hist out err : string) (s : ProcessSession) : Prop := {
  tr_aggregated : s_aggregated s = last_chars (maxOutputChars s) hist;
  tr_total : s_totalOutputChars s = slen hist;
  tr_tail : s_tail s = last_chars 2000 (s_aggregated s);
  tr_stdout : join "" (pendingStdout s) = last_chars (pendingCap s) out;
  tr_stdoutChars : pendingStdoutChars s = slen (join "" (pendingStdout s));
  tr_stderr : join "" (pendingStderr s) = last_chars (pendingCap s) err;
  tr_stderrChars : pendingStderrChars s = slen (join "" (pendingStderr s));
  tr_truncated : s_truncated s = false ->
    s_aggregated s = hist /\ join "" (pendingStdout s) = out /\ join "" (pendingStderr s) = err;
}.

(** One stream after a chunk. *)
Lemma push_pending_ok cap buffer out chunk :
  join "" buffer = last_chars cap out ->
  let n := slen (join "" buffer) + slen chunk in
  let '(t, (b, m)) := if (cap <? n)%nat then (true, capPendingBuffer (buffer ++ [chunk]) n cap)
                      else (false, (buffer ++ [chunk], n)) in
  join "" b = last_chars cap (out +:+ chunk) /\ m = slen (join "" b) /\
  (t = false -> join "" buffer = out -> join "" b = out +:+ chunk).
Proof.
  intros H. cbv zeta.
  assert (slen (join "" buffer) + slen chunk = slen (join "" (buffer ++ [chunk]))) as ->
    by (by rewrite join_nil_snoc, slen_app).
  assert (last_chars cap (join "" (buffer ++ [chunk])) = last_chars cap (out +:+ chunk)) as K.
  { rewrite join_nil_snoc, H. by apply last_chars_app_last. }
  destruct (cap <? _)%nat eqn:E.
  - pose proof (capPendingBuffer_ok (buffer ++ [chunk]) cap) as P.
    destruct (capPendingBuffer _ _ cap) as [b m]. destruct P as [P1 P2]. by rewrite P1, K in *.
  - apply Nat.ltb_ge in E. rewrite <- K, last_chars_all by done. split; [done|]. split; [done|].
    intros _ <-. apply join_nil_snoc.
Qed.

Lemma appendOutput_tracked hist out err s st chunk :
  tracked hist out err s ->
  tracked (hist +:+ chunk)
    (match st with stdout => out +:+ chunk | stderr => out end)
    (match st with stdout => err | stderr => err +:+ chunk end) (appendOutput s st chunk).
Proof.
  intros [A T L O OC E EC TR].
  assert (trimWithCap (s_aggregated s +:+ chunk) (maxOutputChars s) =
    last_chars (maxOutputChars s) (hist +:+ chunk)) as AG.
  { rewrite trimWithCap_last_chars, A. by apply last_chars_app_last. }
  assert (forall b, b || (slen (trimWithCap (s_aggregated s +:+ chunk) (maxOutputChars s)) <?
    slen (s_aggregated s) + slen chunk)%nat = false -> b = false /\ (s_aggregated s = hist ->
      trimWithCap (s_aggregated s +:+ chunk) (maxOutputChars s) = hist +:+ chunk)) as TK.
  { intros b [-> H%Nat.ltb_ge]%orb_false_iff. split; [done|]. intros <-.
    rewrite trimWithCap_last_chars in *. rewrite last_chars_slen, slen_app in H.
    apply last_chars_all. rewrite slen_app. lia. }
  unfold appendOutput. set (ag := trimWithCap _ _) in *. clearbody ag.
  destruct st; [rewrite OC|rewrite EC].
  - pose proof (push_pending_ok _ _ _ chunk O) as P. cbv zeta in P.
    destruct (pendingCap s <? _)%nat; [destruct (capPendingBuffer _ _ _) as [b m]|];
      destruct P as (P1 & P2 & P3); split; simpl; rewrite ?T, ?slen_app, ?tail_last_chars; try done.
    intros [X Y]%TK. destruct (TR X) as (? & ? & ?). split; [by apply Y|]. split; [by apply P3|done].
  - pose proof (push_pending_ok _ _ _ chunk E) as P. cbv zeta in P.
    destruct (pendingCap s <? _)%nat; [destruct (capPendingBuffer _ _ _) as [b m]|];
      destruct P as (P1 & P2 & P3); split; simpl; rewrite ?T, ?slen_app, ?tail_last_chars; try done.
    intros [X Y]%TK. destruct (TR X) as (? & ? & ?). split; [by apply Y|]. split; [done|by apply P3].
Qed.

(** A session as its owner builds it. *)
Record is_new (s : ProcessSession) : Prop := {
  new_aggregated : s_aggregated s = "";
  new_tail : s_tail s = "";
  new_total : s_totalOutputChars s = 0;
  new_stdout : pendingStdout s = [];
  new_stderr : pendingStderr s = [];
  new_stdoutChars : pendingStdoutChars s = 0;
  new_stderrChars : pendingStderrChars s = 0;
  new_exited : exited s = false;
  new_truncated : s_truncated s = false;
}.
Lemma is_new_tracked s : is_new s -> tracked "" "" "" s.
Proof.
  intros [A T N O E OC EC X TR]. split; rewrite ?A, ?T, ?N, ?O, ?E, ?OC, ?EC; try done.
Qed.

Inductive output_event := Chunk (st : stream) (c : string) | Drain.
Definition run_event (s : ProcessSession) (e : output_event) : ProcessSession :=
  match e with
  | Chunk st c => appendOutput s st c
  | Drain => (drainSession s).1
  end.
(** What was printed in all, and on each stream since the last drain. *)
Definition printed_step (h : string * string * string) (e : output_event) : string * string * string :=
  let '(hist, out, err) := h in
  match e with
  | Chunk stdout c => (hist +:+ c, out +:+ c, err)
  | Chunk stderr c => (hist +:+ c, out, err +:+ c)
  | Drain => (hist, "", "")
  end.
Definition printed (evs : list output_event) : string * string * string :=
  fold_left printed_step evs ("", "", "").

Lemma drainSession_tracked hist out err s :
  tracked hist out err s -> tracked hist "" "" (drainSession s).1.
Proof. intros [A T L O OC E EC TR]. split; simpl; try done. intros X. by destruct (TR X). Qed.

Lemma run_events_tracked evs s hist out err :
  tracked hist out err s ->
  let '(hist', out', err') := fold_left printed_step evs (hist, out, err) in
  tracked hist' out' err' (fold_left run_event evs s).
Proof.
  revert s hist out err. induction evs as [|[st c|] evs IH]; intros s hist out err H; simpl; [done| |].
  - destruct st; apply IH; [by apply (appendOutput_tracked _ _ _ _ stdout)|
      by apply (appendOutput_tracked _ _ _ _ stderr)].
  - by eapply IH, drainSession_tracked.
Qed.

Lemma appendOutput_limits s st c :
  maxOutputChars (appendOutput s st c) = maxOutputChars s /\
  pendingMaxOutputChars (appendOutput s st c) = pendingMaxOutputChars s /\
  s_id (appendOutput s st c) = s_id s /\ exited (appendOutput s st c) = exited s.
Proof. unfold appendOutput. by repeat case_match. Qed.
Lemma run_events_limits evs s :
  maxOutputChars (fold_left run_event evs s) = maxOutputChars s /\
  pendingCap (fold_left run_event evs s) = pendingCap s.
Proof.
  revert s. induction evs as [|e evs IH]; intros s; simpl; [done|].
  destruct (IH (run_event s e)) as [-> ->]. destruct e as [st c|]; [|done]. simpl.
  destruct (appendOutput_limits s st c) as (M & P & _). unfold pendingCap. by rewrite M, P.
Qed.

(** ** Registry invariant *)

Definition tail_ok (agg t : string) : Prop := t = last_chars 2000 agg.

Definition ttl_ok (n : num) : Prop :=
  num_lt n MIN_JOB_TTL_MS = false /\ num_lt MAX_JOB_TTL_MS n = false /\ isFinite n = true.

Record registry_ok (r : registry) : Prop := {
  ro_running_keys : NoDup (keys (runningSessions r));
  ro_finished_keys : NoDup (keys (finishedSessions r));
  (* a running entry points to a live session with that id *)
  ro_running : forall id x, mget id (runningSessions r) = Some x ->
    exists s, heap r !! x = Some s /\ s_id s = id /\ exited s = false;
  (* every session object keeps its output bounded and its counts exact *)
  ro_heap : forall x s, heap r !! x = Some s -> exists hist out err, tracked hist out err s;
  ro_finished : forall id f, mget id (finishedSessions r) = Some f ->
    f_id f = id /\ f_tail f = last_chars 2000 (f_aggregated f);
  ro_ttl : ttl_ok (jobTtlMs r);
}.

Inductive step : registry -> registry -> Prop :=
| step_add s r : is_new s -> step r (addSession s r).1
| step_append x st c r : step r (update x (fun s => appendOutput s st c) r)
| step_drain x r : step r (update x (fun s => (drainSession s).1) r)
| step_background x r : step r (update x markBackgrounded r)
| step_exit x code signal status now r : step r (markExited x code signal status now r)
| step_delete id r : step r (deleteSession id r)
| step_clear r : step r (clearFinished r)
| step_ttl v r : step r (setJobTtlMs v r)
| step_prune now r : step r (pruneFinishedSessions now r)
| step_reset r : step r (resetProcessRegistryForTests r).

(** [v] is the parsed environment variable. *)
Definition init (v : option num) : registry := mkRegistry ∅ [] [] (clampTtl v) None.
Inductive reachable : registry -> Prop :=
| reach_init v : reachable (init v)
| reach_step r r' : reachable r -> step r r' -> reachable r'.

Lemma clampTtl_ok v : ttl_ok (clampTtl v).
Proof.
  unfold clampTtl, ttl_ok. destruct v as [n|]; [|done].
  destruct (falsy_num n || isNaN n) eqn:F; [done|]. apply orb_false_iff in F as [_ N].
  destruct n as [|neg|m k]; [done|by destruct neg|]. cbn [num_max num_min isNaN orb].
  assert (0 < pow10 k)%Z as P by (unfold pow10; lia).
  repeat (unfold num_max, num_min; case_match); try done; cbn in *; rewrite ?Z.ltb_ge, ?Z.ltb_lt in *;
    repeat split; try (apply Z.ltb_ge); unfold pow10 in *; simpl in *; lia.
Qed.

Lemma update_ok x f r :
  (forall s, s_id (f s) = s_id s /\ exited (f s) = exited s) ->
  (forall s hist out err, tracked hist out err s -> exists h o e, tracked h o e (f s)) ->
  registry_ok r -> registry_ok (update x f r).
Proof.
  intros HI HT [K1 K2 R H F T]. unfold update. destruct (heap r !! x) as [s|] eqn:X; [|done].
  split; simpl; try done.
  - intros id y Hy. destruct (R _ _ Hy) as (s' & Hs & I & E).
    destruct (decide (x = y)) as [<-|N]; [|by exists s'; rewrite lookup_insert_ne].
    rewrite lookup_insert_eq. rewrite X in Hs. injection Hs as ->. exists (f s').
    destruct (HI s') as [-> ->]. done.
  - intros y s'. destruct (decide (x = y)) as [<-|N]; [|rewrite lookup_insert_ne by done; apply H].
    rewrite lookup_insert_eq. intros [= <-]. destruct (H _ _ X) as (h & o & e & Tr). eauto.
Qed.

Lemma startSweeper_ok r : registry_ok r -> registry_ok (startSweeper r).
Proof. unfold startSweeper. intros [? ? ? ? ? ?]. by case_match; split. Qed.

Lemma addSession_ok s r : is_new s -> registry_ok r -> registry_ok (addSession s r).1.
Proof.
  intros N [K1 K2 R H F T]. unfold addSession. simpl. apply startSweeper_ok.
  assert (fresh (dom (heap r)) ∉ dom (heap r)) as FR by apply is_fresh.
  set (x := fresh (dom (heap r))) in *. apply not_elem_of_dom in FR.
  split; simpl; try done.
  - by apply NoDup_mset.
  - intros id y. rewrite mget_mset. case_bool_decide as E.
    + intros [= <-]. subst. exists s. rewrite lookup_insert_eq. destruct N. done.
    + intros Hy. destruct (R _ _ Hy) as (s' & Hs & ? & ?). exists s'.
      rewrite lookup_insert_ne by (intros <-; congruence). done.
  - intros y s'. destruct (decide (x = y)) as [<-|M]; [|rewrite lookup_insert_ne by done; apply H].
    rewrite lookup_insert_eq. intros [= <-]. do 3 eexists. by apply is_new_tracked.
Qed.

Lemma exit_session_tracked hist out err code signal s :
  tracked hist out err s -> tracked hist out err (exit_session code signal s).
Proof. intros [A T L O OC E EC TR]. split; simpl; try done. apply tail_last_chars. Qed.

Lemma markExited_ok x code signal status now r :
  registry_ok r -> registry_ok (markExited x code signal status now r).
Proof.
  intros [K1 K2 R H F T]. unfold markExited. destruct (heap r !! x) as [s|] eqn:X; [|done].
  set (s' := exit_session code signal s).
  set (r1 := set_running (mdelete (s_id s) (runningSessions r)) (set_heap (<[x := s']> (heap r)) r)).
  assert (registry_ok r1) as [K1' K2' R' H' F' T'].
  { split; simpl; try done.
    - by apply NoDup_mdelete.
    - intros id y. rewrite mget_mdelete. case_bool_decide as E; [done|]. intros Hy.
      destruct (R _ _ Hy) as (t & Ht & I & EX). exists t.
      rewrite lookup_insert_ne; [done|]. intros <-. congruence.
    - intros y t. destruct (decide (x = y)) as [<-|N]; [|rewrite lookup_insert_ne by done; apply H].
      rewrite lookup_insert_eq. intros [= <-]. destruct (H _ _ X) as (h & o & e & Tr).
      do 3 eexists. by apply exit_session_tracked. }
  unfold moveToFinished. destruct (backgrounded s'); [|done]. split; simpl; try done.
  - by apply NoDup_mset.
  - intros id f. rewrite mget_mset. case_bool_decide as E; [|apply F].
    intros [= <-]. split; [done|]. apply tail_last_chars.
Qed.

Lemma keys_filter_NoDup {V} (p : string * V -> bool) l :
  NoDup (keys l) -> NoDup (keys (List.filter p l)).
Proof.
  induction l as [|[k v] l IH]; simpl; [done|]. intros [Hk Hl]%NoDup_cons.
  destruct (p (k, v)); simpl; [|auto]. apply NoDup_cons. split; [|auto].
  contradict Hk. unfold keys in *. apply list_elem_of_fmap in Hk as ([k' v'] & -> & Hin).
  apply list_elem_of_In, filter_In in Hin as [Hin _]. apply list_elem_of_fmap.
  exists (k', v'). split; [done|]. by apply list_elem_of_In.
Qed.

Lemma mget_filter {V} (p : string * V -> bool) l k v :
  NoDup (keys l) -> mget k (List.filter p l) = Some v <-> mget k l = Some v /\ p (k, v) = true.
Proof.
  intros N. pose proof (keys_filter_NoDup p l N) as N'. split.
  - intros H%mget_In. apply filter_In in H as [H E]. split; [by apply In_mget|done].
  - intros [H%mget_In E]. apply In_mget; [done|]. by apply filter_In.
Qed.

Lemma prune_ok now r : registry_ok r -> registry_ok (pruneFinishedSessions now r).
Proof.
  intros [K1 K2 R H F T]. split; simpl; try done.
  - by apply keys_filter_NoDup.
  - intros id f Hf. apply mget_filter in Hf as [Hf _]; [by apply F|done].
Qed.

Lemma step_ok r r' : step r r' -> registry_ok r -> registry_ok r'.
Proof.
  destruct 1; intros OK.
  - by apply addSession_ok.
  - apply update_ok; [| |done].
    + intros s. by destruct (appendOutput_limits s st c) as (_ & _ & ? & ?).
    + intros. do 3 eexists. by apply appendOutput_tracked.
  - apply update_ok; [done| |done]. intros. do 3 eexists. by eapply drainSession_tracked.
  - apply update_ok; [done| |done]. intros s h o e []. by exists h, o, e; split.
  - by apply markExited_ok.
  - destruct OK as [K1 K2 R H F T]. split; simpl; try done.
    1,2: by apply NoDup_mdelete.
    all: intros j y; rewrite mget_mdelete; case_bool_decide; [done|]; eauto.
  - destruct OK. split; simpl; try done. constructor.
  - unfold setJobTtlMs. destruct v as [n|]; [|done]. destruct (isNaN n); [done|].
    apply startSweeper_ok. destruct OK. split; simpl; try done. apply (clampTtl_ok (Some n)).
  - by apply prune_ok.
  - destruct OK. split; simpl; try done; constructor.
Qed.

Lemma reachable_ok r : reachable r -> registry_ok r.
Proof.
  induction 1 as [v|r r' _ IH S]; [|by eapply step_ok].
  split; simpl; try done; try constructor; apply (clampTtl_ok v).
Qed.

(** ** Properties *)

(** C17: output of a session.  After any sequence of chunks and drains, the
    aggregated text is the last [maxOutputChars] characters of everything
    printed, the total counts every character, the tail is its last 2000, and the
    next drain returns for each stream the last [pendingCap] characters printed
    on it since the previous drain; when the session is not marked truncated
    nothing at all was lost. *)
Theorem session_output s evs :
  is_new s ->
  let s' := fold_left run_event evs s in
  let '(hist, out, err) := printed evs in
  s_aggregated s' = last_chars (maxOutputChars s) hist /\
  s_totalOutputChars s' = slen hist /\
  s_tail s' = last_chars 2000 (s_aggregated s') /\
  (drainSession s').2 = (last_chars (pendingCap s) out, last_chars (pendingCap s) err) /\
  (s_truncated s' = false -> s_aggregated s' = hist /\ (drainSession s').2 = (out, err)).
Proof.
  intros N. cbv zeta. unfold printed.
  pose proof (run_events_tracked evs s _ _ _ (is_new_tracked s N)) as H.
  destruct (run_events_limits evs s) as [M C].
  destruct (fold_left printed_step evs _) as [[hist out] err].
  destruct H as [A T L O OC E EC TR]. rewrite M, C in *. split; [done|]. split; [done|]. split; [done|].
  simpl. rewrite O, E. split; [done|]. intros X. destruct (TR X) as (? & ? & ?). split; [done|]. congruence.
Qed.

Definition sample_session (id : string) : ProcessSession :=
  mkSession id "ls" None true (Some (mkStdin true [] false false)) (Some 42%Z) 0 None 4 (Some 3) 0
    [] [] 0 0 "" "" None None false false false.

Lemma session_output_witness :
  let s' := fold_left run_event [Chunk stdout "abc"; Chunk stderr "de"] (sample_session "a") in
  s_aggregated s' = "bcde" /\ (drainSession s').2 = ("abc", "de").
Proof.
  destruct (session_output (sample_session "a") [Chunk stdout "abc"; Chunk stderr "de"])
    as (A & _ & _ & D & _); [by split|]. split; [exact A|exact D].
Defined.

(** C16: the registry's invariant.  In every state reached from start-up by the
    exported operations, on any session objects and in any order: ids are unique
    in both maps, a running entry points to a session with that id that has not
    exited, every session's buffers are bounded with exact counts, a finished
    entry keeps the last 2000 characters of its output, and the time to live is
    between one minute and three hours. *)
Theorem registry_invariant r : reachable r -> registry_ok r.
Proof. apply reachable_ok. Qed.

Lemma registry_invariant_witness :
  registry_ok (markExited 0 (Some 0%Z) None completed 5 (addSession (sample_session "a") (init None)).1).
Proof.
  apply registry_invariant. eapply reach_step; [|apply step_exit].
  eapply reach_step; [apply (reach_init None)|]. apply step_add. by split.
Defined.

(** sweeping.  A sweep keeps exactly the finished sessions that ended within
    the time to live, in their order; since the time to live is clamped, those
    that ended less than a minute ago survive and those older than three hours
    are gone, whatever value was configured. *)
Theorem prune_window now r id f :
  reachable r -> mget id (finishedSessions r) = Some f ->
  (now - f_endedAt f <= 60000 -> mget id (finishedSessions (pruneFinishedSessions now r)) = Some f)%Z /\
  (10800000 < now - f_endedAt f -> mget id (finishedSessions (pruneFinishedSessions now r)) = None)%Z.
Proof.
  intros RE G. destruct (reachable_ok r RE) as [_ K _ _ _ (T1 & T2 & T3)].
  pose proof (mget_filter (fun p => negb (num_lt (NInt (f_endedAt p.2))
    (num_sub (NInt now) (jobTtlMs r)))) (finishedSessions r) id f K) as P.
  destruct (jobTtlMs r) as [|?|m k] eqn:J; try done. clear T3.
  assert (0 < pow10 k)%Z as P10 by (unfold pow10; lia).
  cbn in T1, T2. rewrite Z.ltb_ge in T1, T2. change (pow10 0) with 1%Z in *. split; intros W.
  - unfold pruneFinishedSessions. simpl. rewrite J. apply P. split; [done|].
    apply negb_true_iff. cbn. apply Z.ltb_ge. change (pow10 0) with 1%Z. nia.
  - unfold pruneFinishedSessions. simpl. rewrite J.
    destruct (mget id (List.filter _ _)) as [g|] eqn:E; [|done]. exfalso.
    apply mget_filter in E as [E1 E2]; [|done]. rewrite G in E1. injection E1 as <-.
    apply negb_true_iff in E2. cbn in E2. apply Z.ltb_ge in E2.
    change (pow10 0) with 1%Z in E2. nia.
Qed.

Lemma prune_window_witness :
  let r := markExited 0 (Some 0%Z) None completed 5
    (update 0 markBackgrounded (addSession (sample_session "a") (init None)).1) in
  option_map f_endedAt (mget "a" (finishedSessions (pruneFinishedSessions 60000 r))) = Some 5%Z /\
  mget "a" (finishedSessions (pruneFinishedSessions 10800006 r)) = None.
Proof.
  set (f := finished_of (exit_session (Some 0%Z) None (markBackgrounded (sample_session "a"))) completed 5).
  assert (let r := markExited 0 (Some 0%Z) None completed 5
    (update 0 markBackgrounded (addSession (sample_session "a") (init None)).1) in
    reachable r /\ mget "a" (finishedSessions r) = Some f) as H.
  { split; [|vm_compute; reflexivity]. eapply reach_step; [|apply step_exit].
    eapply reach_step; [|apply step_background]. eapply reach_step; [apply (reach_init None)|].
    apply step_add. by split. }
  destruct H as [RE G]. split.
  - rewrite (proj1 (prune_window 60000 _ "a" f RE G)); [reflexivity|]. vm_compute. discriminate.
  - apply (proj2 (prune_window 10800006 _ "a" f RE G)). vm_compute. reflexivity.
Defined.

(** exit.  When a running session exits, its id leaves the running map at
    once and its child and stdin are released; a session in the background is
    found among the finished ones, with its status, exit code and output, and a
    foreground one leaves no entry there. *)
Theorem markExited_effect r id x s code signal status now :
  getSession id r = Some x -> heap r !! x = Some s -> s_id s = id ->
  let r' := markExited x code signal status now r in
  getSession id r' = None /\
  (exists s', heap r' !! x = Some s' /\ exited s' = true /\ s_child s' = false /\ s_stdin s' = None) /\
  getFinishedSession id r' =
    (if backgrounded s
     then Some (mkFinished id (s_command s) (s_scopeKey s) (s_startedAt s) now (s_cwd s) status code signal
                  (s_aggregated s) (last_chars 2000 (s_aggregated s)) (s_truncated s) (s_totalOutputChars s))
     else getFinishedSession id r) /\
  (forall j, j <> id -> getSession j r' = getSession j r /\ getFinishedSession j r' = getFinishedSession j r).
Proof.
  intros G H I. cbv zeta. unfold markExited. rewrite H. unfold moveToFinished.
  assert (exists s', <[x := exit_session code signal s]> (heap r) !! x = Some s' /\ exited s' = true /\
    s_child s' = false /\ s_stdin s' = None) as X by (eexists; by rewrite lookup_insert_eq).
  unfold getSession, getFinishedSession. simpl. subst id.
  destruct (backgrounded s); simpl; rewrite ?mget_mset_eq, mget_mdelete_eq; (split; [done|]; split; [exact X|]).
  - split; [unfold finished_of; simpl; by rewrite tail_last_chars|].
    intros j N. by rewrite mget_mdelete_ne, mget_mset_ne.
  - split; [done|]. intros j N. by rewrite mget_mdelete_ne.
Qed.

Lemma markExited_effect_witness :
  getSession "a" (markExited 0 (Some 1%Z) None failed 9 (addSession (sample_session "a") (init None)).1) = None.
Proof.
  apply (markExited_effect (addSession (sample_session "a") (init None)).1 "a" 0 (sample_session "a")); reflexivity.
Defined.
