(* ===== verification/ProcessTool.v ===== *)
(** * The process tool

    [src/src/agents/bash-tools.process.ts]: the tool through which the model lists,
    polls, reads, feeds, kills and removes shell sessions of the registry.

    What other code does to the registry while [poll] waits is the function
    [during]; whether the child accepts what is written to its standard input is
    [write_error]. *)

From stdpp Require Import base list sets strings gmap pretty.
From Stdlib Require Import Ascii Lia ZArith.
From S2P Require Import Prelude JsString JsMap JsValue ProcessRegistry.

(** ** Replies *)

Definition newline : string := String (ascii_of_nat 10) EmptyString.

Definition reply (text : string) (details : list (string * value)) : value :=
  VObj [("content", VArr [VObj [("type", VStr "text"); ("text", VStr text)]]); ("details", VObj details)].

Definition opt_str (o : option string) : value := match o with Some s => VStr s | None => VUndef end.
Definition opt_int (o : option Z) : value := match o with Some z => VNum (NInt z) | None => VUndef end.
(** Exit fields are [undefined] before the exit and a value or [null] after. *)
Definition exit_code (ex : bool) (o : option Z) : value :=
  match o with Some z => VNum (NInt z) | None => if ex then VNull else VUndef end.
Definition exit_signal (ex : bool) (o : option string) : value :=
  match o with Some s => VStr s | None => if ex then VNull else VUndef end.

Definition status_string (s : ProcessStatus) : string :=
  match s with running => "running" | completed => "completed" | failed => "failed" | killed => "killed" end.

(** ** Helpers *)

Record ProcessToolDefaults := mkDefaults {
  cleanupMs : option num;
  d_scopeKey : option string;
}.

Definition isInScope (scopeKey sessionScopeKey : option string) : bool :=
  match scopeKey with
  | None => true
  | Some k => if negb (truthy k) then true else bool_decide (Some k = sessionScopeKey)
  end.

Definition renderSessionSummary (now : Z) (id status command : string) (startedAt : Z)
    (endedAt : option Z) : string :=
  let runtimeMs := (default now endedAt - startedAt)%Z in
  let seconds := Z.max 0 ((runtimeMs + 500) / 1000) in
  id +:+ " " +:+ status +:+ " " +:+ pretty seconds +:+ "s :: " +:+ command.

Definition resolveProcessStatus (s : ProcessSession) : ProcessStatus :=
  if negb (exited s) then running
  else if (default 0 (s_exitCode s) =? 0)%Z &&
          negb (match s_exitSignal s with Some g => truthy g | None => false end)
  then completed else failed.

Record outcome := mkOutcome {
  o_reply : result value;
  o_registry : registry;
  o_signals : list ref;               (* the children sent SIGTERM *)
}.
Definition answer (r : registry) (v : value) : outcome := mkOutcome (Ok v) r [].

Section Tool.
Variable scopeKey : option string.
Variable now : Z.
Variable during : registry -> registry.
Variable write_error : option string.

Definition list_action (r : registry) : outcome :=
  let rs := List.filter (fun s => isInScope scopeKey (s_scopeKey s)) (listRunningSessions r) in
  let fs := List.filter (fun s => isInScope scopeKey (f_scopeKey s)) (listFinishedSessions r) in
  let lines := join newline
    (map (fun s => renderSessionSummary now (s_id s) "running" (s_command s) (s_startedAt s) None) rs ++
     map (fun f => renderSessionSummary now (f_id f) (status_string (f_status f)) (f_command f)
                     (f_startedAt f) (Some (f_endedAt f))) fs) in
  answer r (reply (if truthy lines then lines else "No running or recent sessions.")
    [("status", VStr "completed");
     ("sessions", VArr
       (map (fun s => VObj [("sessionId", VStr (s_id s)); ("status", VStr "running");
                            ("pid", opt_int (s_pid s)); ("command", VStr (s_command s));
                            ("cwd", opt_str (s_cwd s)); ("startedAt", VNum (NInt (s_startedAt s)))]) rs ++
        map (fun f => VObj [("sessionId", VStr (f_id f)); ("status", VStr (status_string (f_status f)));
                            ("command", VStr (f_command f)); ("cwd", opt_str (f_cwd f));
                            ("startedAt", VNum (NInt (f_startedAt f)));
                            ("endedAt", VNum (NInt (f_endedAt f)));
                            ("exitCode", exit_code true (f_exitCode f));
                            ("exitSignal", exit_signal true (f_exitSignal f))]) fs))]).

(** The running session with this id, when it is in scope: its reference and the
    object. *)
Definition scopedRunning (sessionId : string) (r : registry) : option (ref * ProcessSession) :=
  match getSession sessionId r with
  | Some x => match heap r !! x with
              | Some s => if isInScope scopeKey (s_scopeKey s) then Some (x, s) else None
              | None => None
              end
  | None => None
  end.
Definition scopedFinished (sessionId : string) (r : registry) : option FinishedSession :=
  match getFinishedSession sessionId r with
  | Some f => if isInScope scopeKey (f_scopeKey f) then Some f else None
  | None => None
  end.

Definition not_found (sessionId : string) : value :=
  reply ("No session found for " +:+ sessionId +:+ ".") [("status", VStr "failed")].

Definition poll_timeout (params : value) : num :=
  match get_prop "timeout" params with
  | VNum t => num_max (NInt 0) (num_min (NInt 120000) (num_floor t))
  | _ => NInt 0
  end.

Definition poll_action (sessionId : string) (params : value) (r : registry) : outcome :=
  match scopedRunning sessionId r with
  | None =>
      match scopedFinished sessionId r with
      | None => answer r (not_found sessionId)
      | Some f =>
          answer r (reply (if truthy (f_aggregated f) then f_aggregated f else "(no output)")
            [("status", VStr (if bool_decide (f_status f = completed) then "completed" else "failed"));
             ("sessionId", VStr sessionId);
             ("exitCode", exit_code true (f_exitCode f));
             ("exitSignal", exit_signal true (f_exitSignal f))])
      end
  | Some (x, s0) =>
      let r1 := if num_lt (NInt 0) (poll_timeout params) && negb (exited s0) then during r else r in
      match heap r1 !! x with
      | None => answer r1 (not_found sessionId)
      | Some s =>
          let '(s', (out, err)) := drainSession s in
          let text := out +:+ err in
          answer (update x (fun s => (drainSession s).1) r1)
            (reply (if truthy text then text else "(no new output)")
              [("status", VStr (status_string (resolveProcessStatus s')));
               ("sessionId", VStr sessionId);
               ("running", VBool (negb (exited s')));
               ("exitCode", exit_code (exited s') (s_exitCode s'));
               ("exitSignal", exit_signal (exited s') (s_exitSignal s'))])
      end
  end.

Definition log_offset (params : value) : num :=
  num_max (NInt 0) (to_number (nullish (get_prop "offset" params) (VNum (NInt 0)))).
Definition log_limit (params : value) : num :=
  let limitRaw := to_number (nullish (get_prop "limit" params) (VNum (NInt 200))) in
  if isFinite limitRaw then num_max (NInt 1) (num_min (NInt 2000) (num_floor limitRaw)) else NInt 200.
(** [lines.slice(a, b)] *)
Definition slice_lines (a b : num) (lines : list string) : list string :=
  let i := slice_index a (length lines) in
  let j := slice_index b (length lines) in
  firstn (j - i) (skipn i lines).

Definition log_action (sessionId : string) (params : value) (r : registry) : outcome :=
  let target := match scopedRunning sessionId r with
                | Some (_, s) => Some (s_aggregated s)
                | None => option_map f_aggregated (scopedFinished sessionId r)
                end in
  match target with
  | None => answer r (not_found sessionId)
  | Some all =>
      let lines := split_lines all in
      let offset := log_offset params in
      let limit := log_limit params in
      let sliced := join newline (slice_lines offset (num_add offset limit) lines) in
      answer r (reply (if truthy sliced then sliced else "(no log output)")
        [("status", VStr "completed"); ("sessionId", VStr sessionId);
         ("offset", VNum offset); ("limit", VNum limit);
         ("totalLines", VNum (NInt (Z.of_nat (length lines))))])
  end.

Definition feed (payload : string) (eof : bool) (s : ProcessSession) : ProcessSession :=
  mkSession (s_id s) (s_command s) (s_scopeKey s) (s_child s)
    (option_map (fun i => mkStdin (has_destroy i) (written i ++ [payload]) (ended i || eof) (destroyed i))
       (s_stdin s))
    (s_pid s) (s_startedAt s) (s_cwd s) (maxOutputChars s) (pendingMaxOutputChars s)
    (s_totalOutputChars s) (pendingStdout s) (pendingStderr s) (pendingStdoutChars s)
    (pendingStderrChars s) (s_aggregated s) (s_tail s) (s_exitCode s) (s_exitSignal s) (exited s)
    (s_truncated s) (backgrounded s).

Definition write_action (action sessionId : string) (params : value) (r : registry) : outcome :=
  match scopedRunning sessionId r with
  | None =>
      answer r (reply ("No active session found for " +:+ sessionId +:+ ".") [("status", VStr "failed")])
  | Some (x, s) =>
      let data := to_string (nullish (get_prop "data" params) (VStr "")) in
      let payload := if (action =? "submit")%string then data +:+ newline else data in
      if negb (truthy payload)
      then answer r (reply "data is required for write/submit/paste." [("status", VStr "failed")])
      else
        match s_stdin s with
        | Some stdin =>
            if destroyed stdin
            then answer r (reply ("Session " +:+ sessionId +:+ " stdin is not writable.") [("status", VStr "failed")])
            else
              match write_error with
              | Some e => mkOutcome (Throw e) r []
              | None =>
                  let eof := match get_prop "eof" params with VBool true => true | _ => false end in
                  answer (update x (feed payload eof) r)
                    (reply ("Wrote " +:+ pretty (Z.of_nat (slen payload)) +:+ " bytes to " +:+ sessionId +:+ ".")
                       [("status", VStr "completed"); ("sessionId", VStr sessionId)])
              end
        | None =>
            answer r (reply ("Session " +:+ sessionId +:+ " stdin is not writable.") [("status", VStr "failed")])
        end
  end.

Definition kill_action (sessionId : string) (r : registry) : outcome :=
  let dead := answer r (reply ("Session " +:+ sessionId +:+ " is not running.")
                [("status", VStr "failed"); ("sessionId", VStr sessionId); ("killed", VBool false)]) in
  match scopedRunning sessionId r with
  | Some (x, s) =>
      if s_child s
      then mkOutcome (Ok (reply ("Sent SIGTERM to " +:+ sessionId +:+ ".")
             [("status", VStr "completed"); ("sessionId", VStr sessionId); ("killed", VBool true)])) r [x]
      else dead
  | None => dead
  end.

Definition remove_action (sessionId : string) (r : registry) : outcome :=
  answer (deleteSession sessionId r)
    (reply ("Removed session " +:+ sessionId +:+ " from registry.")
       [("status", VStr "completed"); ("sessionId", VStr sessionId)]).

Definition execute (params : value) (r : registry) : outcome :=
  let action := toLowerCase (trim (to_string (nullish (get_prop "action" params) (VStr "list")))) in
  if (action =? "list")%string then list_action r
  else
    let sessionId := trim (to_string (nullish (get_prop "sessionId" params) (VStr ""))) in
    if negb (truthy sessionId)
    then answer r (reply "sessionId is required for this action." [("status", VStr "failed")])
    else if (action =? "poll")%string then poll_action sessionId params r
    else if (action =? "log")%string then log_action sessionId params r
    else if (action =? "write")%string || (action =? "submit")%string || (action =? "paste")%string
    then write_action action sessionId params r
    else if (action =? "kill")%string then kill_action sessionId r
    else if (action =? "clear")%string || (action =? "remove")%string then remove_action sessionId r
    else answer r (reply "Unknown process action. Use list, poll, log, write, submit, paste, kill, clear, or remove."
                     [("status", VStr "failed")]).
End Tool.

(** [createProcessTool(defaults)]: the configured time to live, and the tool. *)
Definition createProcessTool (defaults : option ProcessToolDefaults) (r : registry) :
    registry * (Z -> (registry -> registry) -> option string -> value -> registry -> outcome) :=
  let r' := match defaults with
            | Some d => match cleanupMs d with Some n => setJobTtlMs (Some n) r | None => r end
            | None => r
            end in
  (r', execute (match defaults with Some d => d_scopeKey d | None => None end)).

(** ** Scopes *)

Definition ref_in_scope (scope : option string) (r : registry) (x : ref) : bool :=
  match heap r !! x with Some s => isInScope scope (s_scopeKey s) | None => false end.

(** The registry without the sessions of other scopes. *)
Definition hide (scope : option string) (r : registry) : registry :=
  set_finished (List.filter (fun p => isInScope scope (f_scopeKey p.2)) (finishedSessions r))
    (set_running (List.filter (fun p => ref_in_scope scope r p.2) (runningSessions r)) r).

Lemma mget_filter_none {V} (p : string * V -> bool) l k :
  NoDup (keys l) -> mget k (List.filter p l) =
    match mget k l with Some v => if p (k, v) then Some v else None | None => None end.
Proof.
  intros N. destruct (mget k (List.filter p l)) as [v|] eqn:E.
  - apply mget_filter in E as [-> ->]; done.
  - destruct (mget k l) as [v|] eqn:G; [|done]. destruct (p (k, v)) eqn:P; [|done].
    assert (mget k (List.filter p l) = Some v) by (by apply mget_filter). congruence.
Qed.

Lemma scopedRunning_hide scope id r :
  NoDup (keys (runningSessions r)) -> scopedRunning scope id (hide scope r) = scopedRunning scope id r.
Proof.
  intros N. unfold scopedRunning, getSession, hide. simpl. rewrite mget_filter_none by done.
  destruct (mget id (runningSessions r)) as [x|]; [|done]. unfold ref_in_scope. simpl.
  destruct (heap r !! x) as [s|] eqn:H; [|by rewrite ?H]. by destruct (isInScope _ _) eqn:S; rewrite ?H, ?S.
Qed.
Lemma scopedFinished_hide scope id r :
  NoDup (keys (finishedSessions r)) -> scopedFinished scope id (hide scope r) = scopedFinished scope id r.
Proof.
  intros N. unfold scopedFinished, getFinishedSession, hide. simpl. rewrite mget_filter_none by done.
  destruct (mget id (finishedSessions r)) as [f|]; [|done]. simpl. by destruct (isInScope _ _) eqn:S; rewrite ?S.
Qed.

Lemma list_running_hide scope r :
  List.filter (fun s => isInScope scope (s_scopeKey s)) (listRunningSessions (hide scope r)) =
  List.filter (fun s => isInScope scope (s_scopeKey s)) (listRunningSessions r).
Proof.
  unfold listRunningSessions, hide, ref_in_scope. simpl.
  induction (runningSessions r) as [|[id x] l IH]; simpl; [done|].
  destruct (heap r !! x) as [s|] eqn:H; simpl; [|by rewrite ?H].
  destruct (isInScope scope (s_scopeKey s)) eqn:S; simpl; rewrite ?H; simpl;
    destruct (backgrounded s); simpl; rewrite ?S; try done; by f_equal.
Qed.
Lemma list_finished_hide scope r :
  List.filter (fun s => isInScope scope (f_scopeKey s)) (listFinishedSessions (hide scope r)) =
  List.filter (fun s => isInScope scope (f_scopeKey s)) (listFinishedSessions r).
Proof.
  unfold listFinishedSessions, hide. simpl. induction (finishedSessions r) as [|[id f] l IH]; simpl; [done|].
  destruct (isInScope scope (f_scopeKey f)) eqn:S; simpl; rewrite ?S; [by f_equal|done].
Qed.

Lemma scopedRunning_spec scope id r x s :
  scopedRunning scope id r = Some (x, s) -> heap r !! x = Some s /\ isInScope scope (s_scopeKey s) = true.
Proof.
  unfold scopedRunning. destruct (getSession id r) as [y|]; [|done].
  destruct (heap r !! y) as [t|] eqn:H; [|done]. destruct (isInScope _ _) eqn:S; [|done].
  intros [= <- <-]. done.
Qed.

(** What an action may do to the sessions of other scopes: nothing. *)
Definition confined (scope : option string) (r : registry) (o : outcome) : Prop :=
  runningSessions (o_registry o) = runningSessions r /\
  finishedSessions (o_registry o) = finishedSessions r /\
  forall x s, heap r !! x = Some s -> isInScope scope (s_scopeKey s) = false ->
    heap (o_registry o) !! x = Some s /\ x ∉ o_signals o.

Lemma confined_answer scope r v : confined scope r (answer r v).
Proof. split; [done|]. split; [done|]. intros. split; [done|set_solver]. Qed.

Lemma confined_update scope r x s f v :
  heap r !! x = Some s -> isInScope scope (s_scopeKey s) = true ->
  confined scope r (answer (update x f r) v).
Proof.
  intros H S. unfold update. rewrite H. split; [done|]. split; [done|]. intros y t Hy T. simpl.
  destruct (decide (x = y)) as [<-|N]; [congruence|]. rewrite lookup_insert_ne by done. split; [done|set_solver].
Qed.

Section Confined.
Variables (scope : option string) (now : Z) (write_error : option string) (r : registry).
Hypothesis running_keys : NoDup (keys (runningSessions r)).
Hypothesis finished_keys : NoDup (keys (finishedSessions r)).

(** The reply and the signals do not depend on other scopes, and their sessions
    are not touched. *)
Definition isolated (act : registry -> outcome) : Prop :=
  o_reply (act r) = o_reply (act (hide scope r)) /\ o_signals (act r) = o_signals (act (hide scope r)) /\
  confined scope r (act r).

Lemma list_isolated : isolated (list_action scope now).
Proof.
  split; [|split; [done|apply confined_answer]].
  unfold list_action. by rewrite list_running_hide, list_finished_hide.
Qed.
Lemma poll_isolated id params : isolated (poll_action scope (fun r => r) id params).
Proof.
  unfold isolated, poll_action. rewrite scopedRunning_hide, scopedFinished_hide by done.
  destruct (scopedRunning scope id r) as [[x s]|] eqn:E.
  - apply scopedRunning_spec in E as [H S].
    assert (forall b : bool, (if b then r else r) = r) as -> by (by intros []).
    assert (forall b : bool, (if b then hide scope r else hide scope r) = hide scope r) as -> by (by intros []).
    change (heap (hide scope r)) with (heap r). rewrite H. simpl.
    split; [done|]. split; [done|]. by eapply confined_update.
  - destruct (scopedFinished scope id r); (split; [done|]; split; [done|apply confined_answer]).
Qed.
Lemma log_isolated id params : isolated (log_action scope id params).
Proof.
  unfold isolated, log_action. rewrite scopedRunning_hide, scopedFinished_hide by done.
  destruct (match scopedRunning scope id r with Some _ => _ | None => _ end);
    (split; [done|]; split; [done|apply confined_answer]).
Qed.
Lemma write_isolated action id params : isolated (write_action scope write_error action id params).
Proof.
  unfold isolated, write_action. rewrite scopedRunning_hide by done.
  destruct (scopedRunning scope id r) as [[x s]|] eqn:E;
    [|split; [done|]; split; [done|apply confined_answer]].
  apply scopedRunning_spec in E as [H S].
  destruct (negb _); [split; [done|]; split; [done|apply confined_answer]|].
  destruct (s_stdin s) as [i|]; [|split; [done|]; split; [done|apply confined_answer]].
  destruct (destroyed i); [split; [done|]; split; [done|apply confined_answer]|].
  destruct write_error; [|split; [done|]; split; [done|by eapply confined_update]].
  split; [done|]. split; [done|]. apply (confined_answer scope r VUndef).
Qed.
Lemma kill_isolated id : isolated (kill_action scope id).
Proof.
  unfold isolated, kill_action. rewrite scopedRunning_hide by done.
  destruct (scopedRunning scope id r) as [[x s]|] eqn:E;
    [|split; [done|]; split; [done|apply confined_answer]].
  apply scopedRunning_spec in E as [H S].
  destruct (s_child s); (split; [done|]; split; [done|]); [|apply confined_answer].
  split; [done|]. split; [done|]. intros y t Hy T. split; [done|]. simpl. intros ->%list_elem_of_singleton. congruence.
Qed.
End Confined.

(** The action named by the parameters. *)
Definition action_of (params : value) : string :=
  toLowerCase (trim (to_string (nullish (get_prop "action" params) (VStr "list")))).
Definition session_of (params : value) : string :=
  trim (to_string (nullish (get_prop "sessionId" params) (VStr ""))).

(** ** Properties *)

(** C36: scopes.  Every action of the process tool other than [clear] and
    [remove], on any parameters: its reply and the signals it sends are those it
    would give if the sessions of other scopes did not exist, it changes neither
    map of the registry, and it neither changes nor signals a session outside
    the tool's scope.  (Nothing else changes the registry while a poll waits.) *)
Theorem execute_scoped scope now write_error params r :
  NoDup (keys (runningSessions r)) -> NoDup (keys (finishedSessions r)) ->
  action_of params <> "clear" -> action_of params <> "remove" ->
  isolated scope r (execute scope now (fun r => r) write_error params).
Proof.
  intros K1 K2 NC NR. unfold isolated, execute. fold (action_of params). fold (session_of params).
  assert (forall v, isolated scope r (fun r => answer r v)) as ANS.
  { intros v. split; [done|]. split; [done|]. apply confined_answer. }
  apply String.eqb_neq in NC, NR. rewrite NC, NR.
  destruct (action_of params =? "list")%string; [by apply list_isolated|].
  destruct (negb _); [apply ANS|].
  destruct (action_of params =? "poll")%string; [by apply poll_isolated|].
  destruct (action_of params =? "log")%string; [by apply log_isolated|].
  destruct (_ || _ || _); [by apply write_isolated|].
  destruct (action_of params =? "kill")%string; [by apply kill_isolated|]. apply ANS.
Qed.

Definition with_scope (k : option string) (s : ProcessSession) : ProcessSession :=
  mkSession (s_id s) (s_command s) k (s_child s) (s_stdin s) (s_pid s) (s_startedAt s) (s_cwd s)
    (maxOutputChars s) (pendingMaxOutputChars s) (s_totalOutputChars s) (pendingStdout s) (pendingStderr s)
    (pendingStdoutChars s) (pendingStderrChars s) (s_aggregated s) (s_tail s) (s_exitCode s)
    (s_exitSignal s) (exited s) (s_truncated s) (backgrounded s).
Definition args (action id : string) : value := VObj [("action", VStr action); ("sessionId", VStr id)].
(** A registry with one session of scope ["other"]. *)
Definition sample_registry : registry := (addSession (with_scope (Some "other") (sample_session "a")) (init None)).1.

Lemma execute_scoped_witness :
  o_signals (execute (Some "mine") 0 (fun r => r) None (args "kill" "a") sample_registry) = [] /\
  o_signals (execute (Some "other") 0 (fun r => r) None (args "kill" "a") sample_registry) = [0].
Proof.
  split; [|vm_compute; reflexivity].
  destruct (execute_scoped (Some "mine") 0 None (args "kill" "a") sample_registry) as (_ & S & _);
    [apply NoDup_singleton|apply NoDup_nil_2|discriminate|discriminate|].
  rewrite S. vm_compute. reflexivity.
Defined.

(** [clear] and [remove] do not check the scope: whatever scope the tool
    was made for, they remove the session with the given id from both maps, also
    when it belongs to another scope, and report success even when there is no
    such session. *)
Theorem remove_ignores_scope scope now during write_error params r :
  action_of params = "clear" \/ action_of params = "remove" -> session_of params <> "" ->
  let o := execute scope now during write_error params r in
  let id := session_of params in
  o_registry o = deleteSession id r /\
  getSession id (o_registry o) = None /\ getFinishedSession id (o_registry o) = None /\
  o_reply o = Ok (reply ("Removed session " +:+ id +:+ " from registry.")
                    [("status", VStr "completed"); ("sessionId", VStr id)]).
Proof.
  intros A S. cbv zeta. unfold execute. fold (action_of params). fold (session_of params).
  apply truthy_true in S. rewrite S. unfold getSession, getFinishedSession.
  destruct A as [-> | ->]; simpl; rewrite !mget_mdelete_eq; done.
Qed.

Lemma remove_ignores_scope_witness :
  getSession "a" sample_registry = Some 0 /\
  getSession "a" (o_registry (execute (Some "mine") 0 (fun r => r) None (args "clear" "a") sample_registry)) = None.
Proof.
  split; [vm_compute; reflexivity|].
  apply (remove_ignores_scope (Some "mine") 0 (fun r => r) None (args "clear" "a") sample_registry);
    [by left|discriminate].
Defined.

Definition text_of (v : result value) : value :=
  match v with
  | Ok v => get_prop "text" (hd VUndef (array_items (get_prop "content" v)))
  | Throw e => VStr e
  end.

(** polling delivers output once.  A poll of a running session in scope
    returns all output pending on its two streams, standard output first, and
    empties both; a second poll with no output in between says there is nothing
    new; the aggregated log is not affected. *)
Theorem poll_once scope now write_error params r x s :
  action_of params = "poll" -> scopedRunning scope (session_of params) r = Some (x, s) ->
  session_of params <> "" ->
  let o := execute scope now (fun r => r) write_error params r in
  let text := join "" (pendingStdout s) +:+ join "" (pendingStderr s) in
  text_of (o_reply o) = VStr (if truthy text then text else "(no new output)") /\
  heap (o_registry o) !! x = Some (drainSession s).1 /\
  text_of (o_reply (execute scope now (fun r => r) write_error params (o_registry o))) =
    VStr "(no new output)".
Proof.
  intros A SR S. apply truthy_true in S.
  assert (forall r s, scopedRunning scope (session_of params) r = Some (x, s) ->
    execute scope now (fun r => r) write_error params r =
    answer (update x (fun s => (drainSession s).1) r)
      (reply (let text := join "" (pendingStdout s) +:+ join "" (pendingStderr s) in
              if truthy text then text else "(no new output)")
         [("status", VStr (status_string (resolveProcessStatus (drainSession s).1)));
          ("sessionId", VStr (session_of params)); ("running", VBool (negb (exited s)));
          ("exitCode", exit_code (exited s) (s_exitCode s));
          ("exitSignal", exit_signal (exited s) (s_exitSignal s))])) as EX.
  { clear r s SR. intros r s SR. unfold execute. fold (action_of params). fold (session_of params).
    rewrite A, S. simpl. unfold poll_action. rewrite SR. apply scopedRunning_spec in SR as [H _].
    assert (forall b : bool, (if b then r else r) = r) as -> by (by intros []). by rewrite H. }
  cbv zeta. rewrite (EX _ _ SR). split; [done|].
  assert (SR' := SR). apply scopedRunning_spec in SR' as [H I].
  assert (heap (update x (fun s => (drainSession s).1) r) !! x = Some (drainSession s).1) as H'.
  { unfold update. rewrite H. simpl. by rewrite lookup_insert_eq. }
  split; [done|]. rewrite (EX _ (drainSession s).1); [done|].
  unfold scopedRunning in *. destruct (getSession (session_of params) r) as [y|] eqn:G; [|done].
  assert (x = y) as <- by (destruct (heap r !! y); [|done]; destruct (isInScope _ _); congruence).
  assert (getSession (session_of params) (update x (fun s => (drainSession s).1) r) = Some x) as G'
    by (unfold update; by rewrite H).
  cbn [answer o_registry]. rewrite G', H'. cbn [drainSession fst s_scopeKey]. by rewrite I.
Qed.

Lemma poll_once_witness :
  let r := update 0 (fun s => appendOutput s stdout "hi") sample_registry in
  let o := execute (Some "other") 0 (fun r => r) None (args "poll" "a") r in
  text_of (o_reply o) = VStr "hi" /\
  text_of (o_reply (execute (Some "other") 0 (fun r => r) None (args "poll" "a") (o_registry o))) =
    VStr "(no new output)".
Proof.
  destruct (poll_once (Some "other") 0 None (args "poll" "a")
    (update 0 (fun s => appendOutput s stdout "hi") sample_registry) 0
    (appendOutput (with_scope (Some "other") (sample_session "a")) stdout "hi")) as (A & _ & B);
    [reflexivity|vm_compute; reflexivity|discriminate|]. split; [exact A|exact B].
Defined.
