(* ===== verification/Pairing.v ===== *)
(** * Channel pairing

    [src/src/channels/pairing.ts]: codes by which an operator approves chat users.

    The store is a JSON file; [None] stands for a missing file, [Some None] for a
    text that is not JSON.  When the file cannot be used the code returns
    [{ ...DEFAULT_STORE }], a shallow copy: its [approved] and [pending] are the
    objects of the module's constant, so what the operations do to the store they
    do to the constant too.  The state therefore holds the constant's two fields,
    and a store read through it is marked [aliased]. *)

From stdpp Require Import base list sets strings pretty.
From Stdlib Require Import Ascii Lia ZArith.
From S2P Require Import Prelude JsString JsMap JsValue.

(** ** Data *)

Record PendingPairing := mkPending {
  p_id : string;
  p_channel : string;
  p_userId : string;
  p_chatId : string;
  p_code : string;
  createdAt : num;
  lastSeenAt : num;
}.

Record PairingStore := mkStore {
  approved : list (string * list string);
  pending : list PendingPairing;
}.

Definition DEFAULT_STORE : PairingStore := mkStore [] [].

Record world := mkWorld {
  w_file : option (option value);
  w_default : PairingStore;             (* the fields of [DEFAULT_STORE] *)
}.
Definition start (file : option (option value)) : world := mkWorld file DEFAULT_STORE.

Definition pairingId (channel userId chatId : string) : string :=
  channel +:+ ":" +:+ userId +:+ ":" +:+ chatId.

(** ** Reading and writing *)

(** The list kept for one channel, [None] when the entry is skipped. *)
Definition clean_entries (entries : value) : option (list string) :=
  match entries with
  | VArr l =>
      let cleaned := List.filter truthy (map (fun e => trim (to_string e)) l) in
      if (0 <? length cleaned)%nat then Some (dedup cleaned) else None
  | _ => None
  end.
Fixpoint normalizeApproved (entries : list (string * value)) (acc : list (string * list string))
  : list (string * list string) :=
  match entries with
  | [] => acc
  | (channel, v) :: rest =>
      normalizeApproved rest (match clean_entries v with Some l => mset channel l acc | None => acc end)
  end.

Definition str_field (k : string) (item : value) : string :=
  trim (to_string (nullish (get_prop k item) (VStr ""))).
Definition normalizeEntry (now : Z) (item : value) : PendingPairing :=
  mkPending (str_field "id" item) (str_field "channel" item) (str_field "userId" item)
    (str_field "chatId" item) (toUpperCase (str_field "code" item))
    (to_number (nullish (get_prop "createdAt" item) (VNum (NInt now))))
    (to_number (nullish (get_prop "lastSeenAt" item) (VNum (NInt now)))).
Definition complete (e : PendingPairing) : bool :=
  truthy (p_id e) && truthy (p_channel e) && truthy (p_userId e) && truthy (p_chatId e) && truthy (p_code e).

(** The store, and whether it shares the constant's fields. *)
Definition normalizeStore (now : Z) (w : world) (raw : value) : PairingStore * bool :=
  if negb (is_object raw) then (w_default w, true)
  else
    let pendingRaw := array_items (get_prop "pending" raw) in
    (mkStore (normalizeApproved (object_entries (get_prop "approved" raw)) [])
       (List.filter complete (map (normalizeEntry now) (List.filter is_object pendingRaw))), false).

Definition readStore (now : Z) (w : world) : PairingStore * bool :=
  match w_file w with
  | Some (Some raw) => normalizeStore now w raw
  | _ => (w_default w, true)
  end.

Definition entry_value (e : PendingPairing) : value :=
  VObj [("id", VStr (p_id e)); ("channel", VStr (p_channel e)); ("userId", VStr (p_userId e));
        ("chatId", VStr (p_chatId e)); ("code", VStr (p_code e));
        ("createdAt", json_num (createdAt e)); ("lastSeenAt", json_num (lastSeenAt e))].
Definition store_value (s : PairingStore) : value :=
  VObj [("version", VNum (NInt 1));
        ("approved", VObj (map (fun p => (p.1, VArr (map VStr p.2))) (approved s)));
        ("pending", VArr (map entry_value (pending s)))].

(** The store was changed in place to [s] and written. *)
Definition writeStore (s : PairingStore) (aliased : bool) (w : world) : world :=
  mkWorld (Some (Some (store_value s))) (if aliased then s else w_default w).

(** [store.approved[channel] ?? []]; what an object inherits has no [includes]
    and is not iterable. *)
Definition approved_for (channel : string) (s : PairingStore) : result (list string) :=
  match obj_lookup channel (approved s) with
  | Own l => Ok l
  | Missing => Ok []
  | Inherited => Throw "TypeError"
  end.

(** ** Codes *)

Definition alphabet : list ascii := chars "ABCDEFGHJKLMNPQRSTUVWXYZ23456789".
(** [bytes] are the eight random bytes. *)
Definition generateCode (bytes : list nat) : string :=
  of_chars (map (fun b => nth (b mod length alphabet) alphabet "A"%char) (firstn 8 bytes)).

(** ** Operations *)

Record identity := mkIdentity { i_channel : string; i_userId : string; i_chatId : string }.

Definition isPairingApproved (p : identity) (now : Z) (w : world) : result bool :=
  let '(store, _) := readStore now w in
  let channel := trim (i_channel p) in
  let userId := trim (i_userId p) in
  let chatId := trim (i_chatId p) in
  let id := pairingId channel userId chatId in
  let? l := approved_for channel store in
  Ok (bool_decide (id ∈ l) || bool_decide (userId ∈ l) || bool_decide (chatId ∈ l)).

(** [existing.lastSeenAt = now] for the first entry with the id. *)
Fixpoint touch (id : string) (now : Z) (l : list PendingPairing) : list PendingPairing :=
  match l with
  | [] => []
  | e :: l' =>
      if (p_id e =? id)%string
      then mkPending (p_id e) (p_channel e) (p_userId e) (p_chatId e) (p_code e) (createdAt e) (NInt now) :: l'
      else e :: touch id now l'
  end.

(** The code of a new entry: [draw n] is the [n]-th call of [generateCode]. *)
Fixpoint first_unused (draw : nat -> string) (used : list string) (n count : nat) : string * nat :=
  match count with
  | O => ("", n)
  | S c => let candidate := draw n in
           if bool_decide (candidate ∈ used) then first_unused draw used (S n) c else (candidate, S n)
  end.
Definition newCode (draw : nat -> string) (used : list string) : string :=
  let '(code, n) := first_unused draw used 0 64 in
  if negb (truthy code) then draw n else code.

Definition requestPairingCode (p : identity) (now : Z) (draw : nat -> string) (w : world)
  : world * (string * bool) :=
  let '(store, aliased) := readStore now w in
  let channel := trim (i_channel p) in
  let userId := trim (i_userId p) in
  let chatId := trim (i_chatId p) in
  let id := pairingId channel userId chatId in
  match List.find (fun e => (p_id e =? id)%string) (pending store) with
  | Some existing =>
      (writeStore (mkStore (approved store) (touch id now (pending store))) aliased w, (p_code existing, false))
  | None =>
      let code := newCode draw (map p_code (pending store)) in
      let entry := mkPending id channel userId chatId code (NInt now) (NInt now) in
      (writeStore (mkStore (approved store) (pending store ++ [entry])) aliased w, (code, true))
  end.

(** [sort((a, b) => b.lastSeenAt - a.lastSeenAt)], stable. *)
Fixpoint insert_recent (e : PendingPairing) (l : list PendingPairing) : list PendingPairing :=
  match l with
  | [] => [e]
  | f :: l' => if num_lt (lastSeenAt e) (lastSeenAt f) then f :: insert_recent e l' else e :: l
  end.
Definition sort_recent (l : list PendingPairing) : list PendingPairing := fold_right insert_recent [] l.

Definition listPendingPairings (channel : option string) (now : Z) (w : world) : list PendingPairing :=
  let '(store, _) := readStore now w in
  let channel := trim (default "" channel) in
  sort_recent (if truthy channel
               then List.filter (fun e => (p_channel e =? channel)%string) (pending store)
               else pending store).

(** [store.pending.splice(index, 1)] comes before the lookup that can throw. *)
Definition approvePairingCode (channel0 code0 : string) (now : Z) (w : world)
  : world * result (option PendingPairing) :=
  let '(store, aliased) := readStore now w in
  let channel := trim channel0 in
  let code := toUpperCase (trim code0) in
  if negb (truthy channel) || negb (truthy code) then (w, Ok None)
  else
    match find_index (fun e => (p_channel e =? channel)%string && (p_code e =? code)%string) (pending store) with
    | None => (w, Ok None)
    | Some index =>
        match pending store !! index with
        | None => (w, Ok None)
        | Some found =>
            let rest := delete index (pending store) in
            match approved_for channel store with
            | Throw e =>
                (mkWorld (w_file w) (if aliased then mkStore (approved store) rest else w_default w), Throw e)
            | Ok l =>
                let l' := dedup (l ++ [p_id found; p_userId found; p_chatId found]) in
                (writeStore (mkStore (mset channel l' (approved store)) rest) aliased w, Ok (Some found))
            end
        end
    end.

(** ** The store survives its file *)

Definition trimmed_str (s : string) : Prop := trim s = s /\ s <> "".
Record entry_ok (e : PendingPairing) : Prop := {
  eo_id : trimmed_str (p_id e);
  eo_channel : trimmed_str (p_channel e);
  eo_user : trimmed_str (p_userId e);
  eo_chat : trimmed_str (p_chatId e);
  eo_code : trimmed_str (p_code e);
  eo_upper : toUpperCase (p_code e) = p_code e;
}.
Record normalized (s : PairingStore) : Prop := {
  no_keys : NoDup (keys (approved s));
  no_approved : Forall (fun p => p.2 <> [] /\ NoDup p.2 /\ Forall trimmed_str p.2) (approved s);
  no_pending : Forall entry_ok (pending s);
}.

(** A time stamp that is not a number is written as [null] and read as now. *)
Definition refresh_stamp (now : Z) (n : num) : num := if isFinite n then n else NInt now.
Definition refresh (now : Z) (s : PairingStore) : PairingStore :=
  mkStore (approved s)
    (map (fun e => mkPending (p_id e) (p_channel e) (p_userId e) (p_chatId e) (p_code e)
                     (refresh_stamp now (createdAt e)) (refresh_stamp now (lastSeenAt e))) (pending s)).

#[local] Arguments clean_entries : simpl never.
#[local] Arguments normalizeEntry : simpl never.
#[local] Arguments entry_value : simpl never.

Lemma clean_entries_strings l :
  l <> [] -> NoDup l -> Forall trimmed_str l -> clean_entries (VArr (map VStr l)) = Some l.
Proof.
  intros N D F. unfold clean_entries. rewrite map_map.
  assert (List.filter truthy (map (fun x => trim (to_string (VStr x))) l) = l) as ->.
  { clear N D. induction F as [|x l [T X] _ IH]; simpl; [done|]. rewrite T.
    apply truthy_true in X. rewrite X. f_equal. exact IH. }
  rewrite dedup_id by done. by destruct l.
Qed.

Lemma normalizeApproved_round l acc :
  NoDup (keys l) -> Forall (fun p => p.2 <> [] /\ NoDup p.2 /\ Forall trimmed_str p.2) l ->
  (forall k, k ∈ keys l -> k ∉ keys acc) ->
  normalizeApproved (map (fun p => (p.1, VArr (map VStr p.2))) l) acc = acc ++ l.
Proof.
  revert acc. induction l as [|[k x] l IH]; intros acc N F D; simpl; [by rewrite app_nil_r|].
  apply NoDup_cons in N as [Nk N]. inversion F as [|? ? (F1 & F2 & F3) F']; subst. simpl in *.
  rewrite clean_entries_strings by done. rewrite mset_new by (apply D; set_solver).
  rewrite IH; [by rewrite <- app_assoc|done|done|].
  intros j Hj. unfold keys in *. rewrite map_app, not_elem_of_app. split; [apply D; set_solver|].
  simpl. intros ->%list_elem_of_singleton. done.
Qed.

Lemma str_field_entry e k s :
  get_prop k (entry_value e) = VStr s -> trim s = s -> str_field k (entry_value e) = s.
Proof. unfold str_field. by intros -> . Qed.

Lemma stamp_round now n : to_number (nullish (json_num n) (VNum (NInt now))) = refresh_stamp now n.
Proof. unfold json_num, refresh_stamp. by destruct (isFinite n). Qed.

Lemma normalizeEntry_round now e :
  entry_ok e -> complete (normalizeEntry now (entry_value e)) = true /\
  normalizeEntry now (entry_value e) =
  mkPending (p_id e) (p_channel e) (p_userId e) (p_chatId e) (p_code e)
    (refresh_stamp now (createdAt e)) (refresh_stamp now (lastSeenAt e)).
Proof.
  intros [[I I'] [C C'] [U U'] [H H'] [D D'] P]. unfold normalizeEntry.
  rewrite (str_field_entry e "id" (p_id e)), (str_field_entry e "channel" (p_channel e)),
    (str_field_entry e "userId" (p_userId e)), (str_field_entry e "chatId" (p_chatId e)),
    (str_field_entry e "code" (p_code e)) by done.
  simpl. rewrite !stamp_round, P. split; [|done]. unfold complete. simpl.
  apply truthy_true in I', C', U', H', D'. by rewrite I', C', U', H', D'.
Qed.

Lemma store_round now w s :
  normalized s -> normalizeStore now w (store_value s) = (refresh now s, false).
Proof.
  intros [K A P]. unfold normalizeStore, refresh. simpl. do 2 f_equal.
  - rewrite normalizeApproved_round by (done || set_solver). done.
  - induction P as [|e l E _ IH]; [done|]. cbn [map List.filter].
    change (is_object (entry_value e)) with true. cbn [map List.filter].
    destruct (normalizeEntry_round now e E) as [H1 H2]. rewrite H1, H2. f_equal. exact IH.
Qed.

(** ** What is read is normalized *)

Lemma trim_trimmed s : truthy (trim s) = true -> trimmed_str (trim s).
Proof. intros H. split; [apply trim_idemp|]. by apply truthy_true. Qed.

Lemma clean_entries_ok v l :
  clean_entries v = Some l -> l <> [] /\ NoDup l /\ Forall trimmed_str l.
Proof.
  unfold clean_entries. destruct v as [| | | | |es|]; try done.
  set (c := List.filter truthy _). destruct (0 <? length c)%nat eqn:E; [|done]. intros [= <-].
  assert (Forall trimmed_str c) as F.
  { apply Forall_forall. intros x Hx%list_elem_of_In. apply filter_In in Hx as [Hx T].
    apply in_map_iff in Hx as (y & <- & _). by apply trim_trimmed. }
  split; [|split; [apply NoDup_dedup|]].
  - intros D. destruct c as [|x c]; [done|]. assert (x ∈ dedup (x :: c)) as H by (apply elem_of_dedup; set_solver).
    rewrite D in H. set_solver.
  - rewrite Forall_forall in *. intros x Hx. apply F. by apply elem_of_dedup.
Qed.

Lemma normalizeApproved_ok es acc :
  NoDup (keys acc) -> Forall (fun p => p.2 <> [] /\ NoDup p.2 /\ Forall trimmed_str p.2) acc ->
  let l := normalizeApproved es acc in
  NoDup (keys l) /\ Forall (fun p => p.2 <> [] /\ NoDup p.2 /\ Forall trimmed_str p.2) l.
Proof.
  revert acc. induction es as [|[k v] es IH]; intros acc N F; simpl; [done|].
  apply IH; destruct (clean_entries v) as [l|] eqn:E; try done; [by apply NoDup_mset|].
  apply Forall_mset; [|done]. by apply clean_entries_ok in E.
Qed.

Lemma normalizeEntry_ok now item :
  complete (normalizeEntry now item) = true -> entry_ok (normalizeEntry now item).
Proof.
  unfold complete, normalizeEntry, str_field. simpl. intros H. bool_prop.
  split; simpl; try (by apply trim_trimmed); rewrite ?toUpperCase_idemp; [|done].
  split; [by rewrite trim_toUpperCase, trim_idemp|by apply truthy_true].
Qed.

Lemma readStore_normalized now w : normalized (w_default w) -> normalized (readStore now w).1.
Proof.
  intros D. unfold readStore. destruct (w_file w) as [[raw|]|]; try done.
  unfold normalizeStore. destruct (negb _); [done|]. simpl.
  destruct (normalizeApproved_ok (object_entries (get_prop "approved" raw)) []) as [K A]; [constructor|constructor|].
  split; [done|done|]. simpl. apply Forall_forall. intros e He%list_elem_of_In.
  apply filter_In in He as [He C]. apply in_map_iff in He as (item & <- & _). by apply normalizeEntry_ok.
Qed.

(** The approvals do not depend on the clock. *)
Lemma readStore_approved now now' w : approved (readStore now w).1 = approved (readStore now' w).1.
Proof.
  unfold readStore. destruct (w_file w) as [[raw|]|]; try done. unfold normalizeStore. by destruct (negb _).
Qed.

Lemma readStore_written now s aliased w :
  normalized s -> readStore now (writeStore s aliased w) = (refresh now s, false).
Proof. intros N. unfold readStore, writeStore. simpl. by apply store_round. Qed.

(** ** Approval *)

Definition names (p : identity) : list string :=
  let channel := trim (i_channel p) in
  [pairingId channel (trim (i_userId p)) (trim (i_chatId p)); trim (i_userId p); trim (i_chatId p)].
Definition entry_names (e : PendingPairing) : list string := [p_id e; p_userId e; p_chatId e].
(** The identity shares a name with the entry. *)
Definition matches_entry (p : identity) (e : PendingPairing) : bool :=
  existsb (fun n => bool_decide (n ∈ entry_names e)) (names p).

Definition approvals (p : identity) (l : list string) : bool :=
  existsb (fun n => bool_decide (n ∈ l)) (names p).

Lemma isPairingApproved_eq p now w :
  isPairingApproved p now w =
  (let? l := approved_for (trim (i_channel p)) (readStore now w).1 in Ok (approvals p l)).
Proof.
  unfold isPairingApproved. destruct (readStore now w) as [s b]. simpl.
  destruct (approved_for _ s); simpl; [|done]. unfold approvals, names. simpl. by rewrite orb_false_r, orb_assoc.
Qed.

Lemma approvals_dedup p l e :
  approvals p (dedup (l ++ entry_names e)) = approvals p l || matches_entry p e.
Proof.
  unfold approvals, matches_entry. induction (names p) as [|n ns IH]; simpl; [done|]. rewrite IH.
  assert (bool_decide (n ∈ dedup (l ++ entry_names e)) = bool_decide (n ∈ l) || bool_decide (n ∈ entry_names e)) as ->.
  { apply eq_true_iff_eq. rewrite orb_true_iff, !bool_decide_eq_true, elem_of_dedup, elem_of_app. done. }
  by destruct (bool_decide (n ∈ l)), (bool_decide (n ∈ entry_names e)); simpl; rewrite ?orb_true_r.
Qed.

Lemma approved_for_trimmed channel s l :
  normalized s -> approved_for channel s = Ok l -> Forall trimmed_str l.
Proof.
  intros [_ A _]. unfold approved_for, obj_lookup. destruct (mget channel (approved s)) as [x|] eqn:G.
  - intros [= <-]. apply mget_In in G. rewrite Forall_forall in A.
    by apply list_elem_of_In, A in G as (_ & _ & ?).
  - case_bool_decide; [done|]. intros [= <-]. constructor.
Qed.

Lemma approve_normalized s channel l index found :
  normalized s -> approved_for channel s = Ok l -> pending s !! index = Some found ->
  normalized (mkStore (mset channel (dedup (l ++ entry_names found)) (approved s)) (delete index (pending s))).
Proof.
  intros N G H. pose proof (approved_for_trimmed _ _ _ N G) as T. destruct N as [K A P].
  assert (entry_ok found) as [? _ ? ? _ _] by (rewrite Forall_forall in P; by eapply P, list_elem_of_lookup_2).
  split; simpl.
  - by apply NoDup_mset.
  - apply Forall_mset; [simpl|done]. split; [|split; [apply NoDup_dedup|]].
    + intros D. assert (p_id found ∈ dedup (l ++ entry_names found)) as X
        by (apply elem_of_dedup, elem_of_app; right; set_solver). rewrite D in X. set_solver.
    + apply Forall_forall. intros x Hx. rewrite elem_of_dedup, elem_of_app in Hx. destruct Hx as [Hx|Hx].
      * rewrite Forall_forall in T. by apply T.
      * by repeat (apply elem_of_cons in Hx as [->|Hx]; [done|]); apply elem_of_nil in Hx.
  - by apply Forall_delete.
Qed.

(** ** Properties *)

Lemma approve_inv channel code now w w' found :
  approvePairingCode channel code now w = (w', Ok (Some found)) ->
  exists index l, (readStore now w).1.(pending) !! index = Some found /\
    approved_for (trim channel) (readStore now w).1 = Ok l /\
    p_channel found = trim channel /\ p_code found = toUpperCase (trim code) /\
    w' = writeStore (mkStore (mset (trim channel) (dedup (l ++ entry_names found)) (approved (readStore now w).1))
           (delete index (pending (readStore now w).1))) (readStore now w).2 w.
Proof.
  unfold approvePairingCode. destruct (readStore now w) as [s aliased]. simpl.
  destruct (_ || _); [done|]. destruct (find_index _ _) as [i|] eqn:FI; [|done].
  destruct (pending s !! i) as [e|] eqn:L; [|done].
  destruct (approved_for (trim channel) s) as [l|] eqn:A; [|done]. intros [= <- <-].
  exists i, l. apply find_index_Some in FI as (x & X & P & _).
  split; [done|]. split; [done|]. rewrite L in X. injection X as <-. bool_prop.
  by repeat match goal with H : (_ =? _)%string = true |- _ => apply String.eqb_eq in H end.
Qed.

Lemma approve_sees channel code now w w' found :
  normalized (w_default w) ->
  approvePairingCode channel code now w = (w', Ok (Some found)) ->
  forall p now', isPairingApproved p now' w' =
    (let? before := isPairingApproved p now' w in
     Ok (before || (bool_decide (trim (i_channel p) = trim channel) && matches_entry p found))).
Proof.
  intros D H p now'. apply approve_inv in H as (i & l & L & A & _ & _ & ->).
  pose proof (readStore_normalized now w D) as N. rewrite !isPairingApproved_eq.
  rewrite readStore_written by (by apply approve_normalized). simpl.
  unfold approved_for at 1. simpl. unfold approved_for, obj_lookup in *.
  rewrite (readStore_approved now' now w), mget_mset.
  destruct (bool_decide (trim (i_channel p) = trim channel)) eqn:E.
  - apply bool_decide_eq_true in E. rewrite E. destruct (mget (trim channel) _) as [x|]; [injection A as ->|].
    + simpl. by rewrite approvals_dedup.
    + case_bool_decide; [done|]. injection A as <-. exact (f_equal Ok (approvals_dedup p [] found)).
  - clear A. destruct (mget (trim (i_channel p)) _) as [x|]; cbn [rbind andb].
    { by rewrite orb_false_r. }
    destruct (bool_decide (trim (i_channel p) ∈ _)); cbn [rbind andb]; [done|]. by rewrite orb_false_r.
Qed.

(** what an approval grants.  After a code was approved, an identity is
    approved exactly when it was before, or when it is on the same channel and
    its pairing id, its user id or its chat id is one of the three names of the
    approved entry: approving one member of a chat approves everyone in it. *)
Theorem approve_grants channel code now w w' found :
  normalized (w_default w) ->
  approvePairingCode channel code now w = (w', Ok (Some found)) ->
  forall p now', isPairingApproved p now' w' =
    (let? before := isPairingApproved p now' w in
     Ok (before || (bool_decide (trim (i_channel p) = trim channel) && matches_entry p found))).
Proof. apply approve_sees. Qed.

(** ** The pairing flow *)

Definition colon : ascii := ":".

Record store_ok (s : PairingStore) : Prop := {
  so_normalized : normalized s;
  so_codes : NoDup (map p_code (pending s));
  so_ids : Forall (fun e => p_id e = pairingId (p_channel e) (p_userId e) (p_chatId e) /\
                            colon ∉ chars (p_channel e) /\ colon ∉ chars (p_userId e)) (pending s);
  so_stamps : Forall (fun e => isFinite (createdAt e) = true /\ isFinite (lastSeenAt e) = true) (pending s);
}.

(** The store the world holds, at any time of day. *)
Definition holds (w : world) (s : PairingStore) : Prop :=
  normalized (w_default w) /\ store_ok s /\ forall now, (readStore now w).1 = s.

Lemma refresh_id now s : store_ok s -> refresh now s = s.
Proof.
  intros [_ _ _ F]. destruct s as [a l]. unfold refresh. simpl in *. f_equal.
  induction F as [|[] l [C L] _ IH]; simpl in *; [done|]. unfold refresh_stamp at 1 2. rewrite C, L.
  f_equal. exact IH.
Qed.

Lemma normalized_default : normalized DEFAULT_STORE.
Proof. split; simpl; constructor. Qed.
Lemma holds_start : holds (start None) DEFAULT_STORE.
Proof. split; [apply normalized_default|]. split; [|done]. split; simpl; try constructor; constructor. Qed.

Lemma holds_written w s s' now : holds w s -> store_ok s' -> holds (writeStore s' (readStore now w).2 w) s'.
Proof.
  intros (D & _ & _) S. split; [|split; [done|]].
  - simpl. destruct (readStore now w).2; [apply S|done].
  - intros now'. rewrite readStore_written by apply S. simpl. by apply refresh_id.
Qed.

(** The identity names a real user on a usable channel; pairing ids are only
    unambiguous without colons in their first two parts. *)
Record valid (p : identity) : Prop := {
  va_channel : trim (i_channel p) <> "";
  va_user : trim (i_userId p) <> "";
  va_chat : trim (i_chatId p) <> "";
  va_plain : trim (i_channel p) ∉ object_prototype_keys;
  va_channel_colon : colon ∉ chars (trim (i_channel p));
  va_user_colon : colon ∉ chars (trim (i_userId p));
}.

(** The draws come from [generateCode], and one of the first 64 is new. *)
Definition draws_ok (draw : nat -> string) (used : list string) : Prop :=
  (forall n, exists bytes, length bytes = 8 /\ draw n = generateCode bytes) /\
  exists n, n < 64 /\ draw n ∉ used.

Definition code_char (c : ascii) : bool := bool_decide (c ∈ alphabet).
Lemma generateCode_ok bytes :
  length bytes = 8 ->
  slen (generateCode bytes) = 8 /\ Forall (fun c => c ∈ alphabet) (chars (generateCode bytes)).
Proof.
  intros L. unfold generateCode, slen. rewrite chars_of_chars. split; [rewrite length_map, length_firstn; lia|].
  apply Forall_forall. intros c Hc%list_elem_of_In. apply in_map_iff in Hc as (b & <- & _).
  apply list_elem_of_In, nth_In. apply Nat.mod_upper_bound. done.
Qed.

Lemma code_trimmed s :
  s <> "" -> Forall (fun c => c ∈ alphabet) (chars s) -> trimmed_str s /\ toUpperCase s = s.
Proof.
  intros N F. assert (forall c, c ∈ alphabet -> is_ws c = false /\ upper_char c = [c]) as A.
  { apply Forall_forall. repeat (constructor; [done|]). constructor. }
  split; [split; [|done]|].
  - apply trim_no_ws, forallb_forall. intros c Hc%list_elem_of_In.
    rewrite Forall_forall in F. by rewrite (proj1 (A c (F c Hc))).
  - unfold toUpperCase. rewrite <- (of_chars_chars s) at 2. f_equal. clear N.
    induction F as [|c l Hc _ IH]; simpl; [done|]. rewrite (proj2 (A c Hc)), IH. done.
Qed.

Lemma first_unused_ok draw used n count :
  (exists m, n <= m < n + count /\ draw m ∉ used) ->
  exists m, (first_unused draw used n count).1 = draw m /\ draw m ∉ used.
Proof.
  revert n. induction count as [|count IH]; intros n (m & M & U); simpl; [lia|].
  case_bool_decide as I; [|by exists n]. apply IH. exists m. split; [|done].
  assert (m <> n) by (intros ->; done). lia.
Qed.

Lemma newCode_ok draw used :
  draws_ok draw used ->
  newCode draw used ∉ used /\ trimmed_str (newCode draw used) /\ toUpperCase (newCode draw used) = newCode draw used.
Proof.
  intros [G (n & Hn & U)]. unfold newCode.
  destruct (first_unused_ok draw used 0 64) as (m & E & F); [exists n; split; [lia|done]|].
  destruct (first_unused draw used 0 64) as [code k]. simpl in E. subst code.
  destruct (G m) as (bytes & L & D). destruct (generateCode_ok bytes L) as [S A].
  assert (draw m <> "") as N by (rewrite D; intros X; rewrite X in S; done).
  apply truthy_true in N as T. rewrite T. simpl. split; [done|]. apply code_trimmed; [done|]. by rewrite D.
Qed.


(** The entry a request adds. *)
Definition new_entry (p : identity) (code : string) (now : Z) : PendingPairing :=
  let channel := trim (i_channel p) in
  mkPending (pairingId channel (trim (i_userId p)) (trim (i_chatId p))) channel (trim (i_userId p))
    (trim (i_chatId p)) code (NInt now) (NInt now).

Lemma pairingId_eq c u h : pairingId c u h = c +:+ (":" +:+ u +:+ ":") +:+ h.
Proof. unfold pairingId. apply chars_inj. rewrite !chars_app, <- !app_assoc. done. Qed.

Lemma new_entry_ok p code now :
  valid p -> trimmed_str code -> toUpperCase code = code -> entry_ok (new_entry p code now).
Proof.
  intros [C U H _ _ _] T P. split; simpl; try done; try (split; [apply trim_idemp|done]).
  rewrite pairingId_eq. split.
  - apply trim_wrap; try done; apply trim_idemp.
  - intros E. apply (f_equal chars) in E. rewrite !chars_app in E. by destruct (chars (trim (i_channel p))).
Qed.

Lemma touch_map {B} (f : PendingPairing -> B) id now l :
  (forall e t, f (mkPending (p_id e) (p_channel e) (p_userId e) (p_chatId e) (p_code e) (createdAt e) t) = f e) ->
  map f (touch id now l) = map f l.
Proof.
  intros H. induction l as [|e l IH]; simpl; [done|]. destruct (_ =? _)%string; simpl; [by rewrite H|by rewrite IH].
Qed.
Lemma touch_Forall (P : PendingPairing -> Prop) id now l :
  (forall e, P e -> P (mkPending (p_id e) (p_channel e) (p_userId e) (p_chatId e) (p_code e) (createdAt e) (NInt now))) ->
  Forall P l -> Forall P (touch id now l).
Proof.
  intros H. induction 1 as [|e l He Hl IH]; simpl; [done|]. destruct (_ =? _)%string; constructor; auto.
Qed.

Lemma touch_ok id now s : store_ok s -> store_ok (mkStore (approved s) (touch id now (pending s))).
Proof.
  intros [[K A P] C I S]. split; [split|..]; simpl; try done.
  - apply touch_Forall; [|done]. intros e []. by split.
  - by rewrite touch_map.
  - by apply touch_Forall.
  - apply touch_Forall; [|done]. intros e []. by split.
Qed.

Lemma push_ok p code now s :
  store_ok s -> valid p -> trimmed_str code -> toUpperCase code = code -> code ∉ map p_code (pending s) ->
  store_ok (mkStore (approved s) (pending s ++ [new_entry p code now])).
Proof.
  intros [[K A P] C I S] V T U N. split; [split|..]; simpl; try done.
  - apply Forall_app. split; [done|]. apply Forall_singleton. by apply new_entry_ok.
  - rewrite map_app. apply NoDup_app. split; [done|]. split; [|apply NoDup_singleton].
    intros x Hx ->%list_elem_of_singleton. done.
  - apply Forall_app. split; [done|]. apply Forall_singleton. by destruct V.
  - apply Forall_app. split; [done|]. by apply Forall_singleton.
Qed.

(** What a request does to the store. *)
Lemma request_cases p now draw w s :
  holds w s -> valid p -> draws_ok draw (map p_code (pending s)) ->
  let '(w', (code, created)) := requestPairingCode p now draw w in
  exists s' e, holds w' s' /\ e ∈ pending s' /\ p_code e = code /\ approved s' = approved s /\
    p_id e = pairingId (trim (i_channel p)) (trim (i_userId p)) (trim (i_chatId p)) /\
    List.find (fun e => (p_id e =? p_id (new_entry p code now))%string) (pending s') = Some e.
Proof.
  intros H V D. pose proof H as (DF & S & R). unfold requestPairingCode.
  specialize (R now).
  destruct (readStore now w) as [s0 aliased] eqn:E. simpl in R. subst s0.
  set (id := pairingId _ _ _). destruct (List.find _ (pending s)) as [e|] eqn:F.
  - exists (mkStore (approved s) (touch id now (pending s))).
    exists (mkPending (p_id e) (p_channel e) (p_userId e) (p_chatId e) (p_code e) (createdAt e) (NInt now)).
    split; [pose proof (holds_written w s (mkStore (approved s) (touch id now (pending s))) now H) as X;
            rewrite E in X; by apply X, touch_ok|].
    simpl. assert (p_id e = id) as I by (apply find_some in F as [_ F]; by apply String.eqb_eq).
    assert (List.find (fun e => (p_id e =? id)%string) (touch id now (pending s)) =
      Some (mkPending (p_id e) (p_channel e) (p_userId e) (p_chatId e) (p_code e) (createdAt e) (NInt now))) as G.
    { clear - F. induction (pending s) as [|x l IH]; simpl in *; [done|].
      destruct (p_id x =? id)%string eqn:X; simpl; rewrite X; [by injection F as ->|by apply IH]. }
    split; [|done]. apply list_elem_of_In. by apply find_some in G as [? _].
  - destruct (newCode_ok draw _ D) as (N & T & U).
    set (code := newCode draw _) in *.
    exists (mkStore (approved s) (pending s ++ [new_entry p code now])), (new_entry p code now).
    split; [pose proof (holds_written w s (mkStore (approved s) (pending s ++ [new_entry p code now])) now H) as X;
            rewrite E in X; by apply X, push_ok|].
    simpl. split; [set_solver|]. split; [done|]. split; [done|]. split; [done|].
    fold id. clearbody code. clear - F. induction (pending s) as [|x l IH]; simpl in *; [by rewrite String.eqb_refl|].
    destruct (p_id x =? id)%string; [done|by apply IH].
Qed.

Lemma delete_codes l i e :
  l !! i = Some e -> NoDup (map p_code l) ->
  NoDup (map p_code (delete i l)) /\ p_code e ∉ map p_code (delete i l).
Proof.
  intros L N. rewrite <- (take_drop_middle l i e L), map_app in N. simpl in N.
  rewrite delete_take_drop, map_app. apply NoDup_app in N as (N1 & N2 & [N3 N4]%NoDup_cons).
  rewrite NoDup_app, not_elem_of_app. set_solver.
Qed.

(** Approving a pending code removes exactly its entry. *)
Lemma approve_cases channel typed now w s e :
  holds w s -> e ∈ pending s -> p_channel e = trim channel -> p_code e = toUpperCase (trim typed) ->
  (exists l, approved_for (trim channel) s = Ok l) ->
  exists w' s', approvePairingCode channel typed now w = (w', Ok (Some e)) /\ holds w' s' /\
    e ∉ pending s'.
Proof.
  intros H I C D [l L]. pose proof H as (DF & S & R). unfold approvePairingCode. specialize (R now).
  destruct (readStore now w) as [s0 aliased] eqn:E. simpl in R. subst s0. rewrite <- C in *. rewrite <- D.
  pose proof S as [[K A P] CO _ _].
  assert (entry_ok e) as [_ [_ C'] _ _ [_ D'] _] by (rewrite Forall_forall in P; auto).
  apply truthy_true in C', D'. rewrite C', D'. simpl.
  destruct (find_index _ (pending s)) as [i|] eqn:F.
  2: { eapply find_index_None in F; [|by apply list_elem_of_In]. simpl in F. by rewrite !String.eqb_refl in F. }
  apply find_index_Some in F as (x & X & Q & _). rewrite X. bool_prop.
  repeat match goal with H : (_ =? _)%string = true |- _ => apply String.eqb_eq in H end.
  assert (x = e) as ->.
  { apply list_elem_of_lookup in I as [j J]. assert (i = j) as ->; [|congruence].
    apply (NoDup_lookup (map p_code (pending s)) i j (p_code e)); [done| |];
      rewrite list_lookup_fmap, ?X, ?J; simpl; congruence. }
  rewrite L. eexists. exists (mkStore (mset (p_channel e) (dedup (l ++ entry_names e)) (approved s)) (delete i (pending s))).
  split; [reflexivity|]. split.
  - set (s' := mkStore _ _). pose proof (holds_written w s s' now H) as Y. rewrite E in Y. apply Y.
    destruct S as [SN SC SI SS]. split; [by apply approve_normalized| | |]; simpl; [|by apply Forall_delete..].
    by eapply delete_codes.
  - simpl. intros I'. eapply delete_codes in X as [_ X]; [|done]. by apply X, list_elem_of_fmap_2.
Qed.

(** The states of the program that starts without a file and keeps it. *)
Inductive reachable : world -> Prop :=
| reach_start : reachable (start None)
| reach_request p now draw w :
    reachable w -> valid p -> draws_ok draw (map p_code (pending (readStore now w).1)) ->
    reachable (requestPairingCode p now draw w).1
| reach_approve channel code now w :
    reachable w -> reachable (approvePairingCode channel code now w).1.

Lemma readStore_aliased now now' w d :
  (readStore now w).2 = true -> readStore now' (mkWorld (w_file w) d) = (d, true).
Proof.
  unfold readStore. simpl. destruct (w_file w) as [[raw|]|]; try done. unfold normalizeStore.
  by destruct (negb (is_object raw)).
Qed.

Lemma delete_ok i e s :
  pending s !! i = Some e -> store_ok s -> store_ok (mkStore (approved s) (delete i (pending s))).
Proof.
  intros L [[K A P] C I S]. split; [split|..]; simpl; try done; try (by apply Forall_delete).
  by eapply delete_codes.
Qed.

Lemma approve_holds channel code now w s :
  holds w s -> exists s', holds (approvePairingCode channel code now w).1 s'.
Proof.
  intros H. pose proof H as (DF & S & R). specialize (R now). unfold approvePairingCode.
  destruct (readStore now w) as [s0 aliased] eqn:E. simpl in R. subst s0.
  destruct (_ || _); [by exists s|]. destruct (find_index _ _) as [i|]; [|by exists s].
  destruct (pending s !! i) as [e|] eqn:L; [|by exists s].
  destruct (approved_for (trim channel) s) as [l|m] eqn:A; simpl.
  - eexists. pose proof (holds_written w s (mkStore (mset (trim channel) (dedup (l ++ entry_names e)) (approved s))
      (delete i (pending s))) now H) as X. rewrite E in X. apply X.
    destruct (delete_ok i e s L S) as [_ C I ST]. split; try done. by apply approve_normalized; [apply S|..].
  - destruct aliased.
    + exists (mkStore (approved s) (delete i (pending s))). assert (SO := delete_ok i e s L S).
      split; [apply SO|]. split; [done|]. intros now'. rewrite (readStore_aliased now); [done|]. by rewrite E.
    + exists s. by destruct w.
Qed.

Lemma reachable_holds w : reachable w -> exists s, holds w s.
Proof.
  induction 1 as [|p now draw w _ [s H] V D|channel code now w _ [s H]].
  - eexists. apply holds_start.
  - destruct H as (DF & S & R) eqn:X. rewrite R in D. pose proof (request_cases p now draw w s H V D) as Y.
    destruct (requestPairingCode p now draw w) as [w' [code created]].
    destruct Y as (s' & _ & H' & _). by exists s'.
  - by eapply approve_holds.
Qed.

Lemma before_char (c : ascii) a b a' b' :
  c ∉ a -> c ∉ a' -> a ++ c :: b = a' ++ c :: b' -> a = a' /\ b = b'.
Proof.
  revert a'. induction a as [|x a IH]; intros [|x' a'] N N' E; simpl in *; simplify_eq; try done.
  - set_solver.
  - set_solver.
  - destruct (IH a') as [-> ->]; [set_solver..|done].
Qed.
Lemma pairingId_inj c u h c' u' h' :
  colon ∉ chars c -> colon ∉ chars u -> colon ∉ chars c' -> colon ∉ chars u' ->
  pairingId c u h = pairingId c' u' h' -> c = c' /\ u = u' /\ h = h'.
Proof.
  intros C U C' U' E. apply (f_equal chars) in E. unfold pairingId in E. rewrite !chars_app in E.
  apply before_char in E as [E1 E]; [|done..]. apply before_char in E as [E2 E3]; [|done..].
  by split; [|split]; apply chars_inj.
Qed.

Lemma matches_self p e :
  p_id e = pairingId (trim (i_channel p)) (trim (i_userId p)) (trim (i_chatId p)) -> matches_entry p e = true.
Proof.
  intros E. unfold matches_entry, names. simpl. rewrite bool_decide_eq_true_2; [done|].
  unfold entry_names. rewrite E. set_solver.
Qed.

(** A request and its approval, from any state the program reaches. *)
Lemma pairing_round w p now draw typed :
  reachable w -> valid p -> draws_ok draw (map p_code (pending (readStore now w).1)) ->
  let '(w1, (code, _)) := requestPairingCode p now draw w in
  (forall now' draw', (requestPairingCode p now' draw' w1).2 = (code, false)) /\
  (toUpperCase (trim typed) = code -> forall now', exists w2 e,
     approvePairingCode (i_channel p) typed now' w1 = (w2, Ok (Some e)) /\
     p_id e = pairingId (trim (i_channel p)) (trim (i_userId p)) (trim (i_chatId p)) /\
     forall now'', isPairingApproved p now'' w2 = Ok true).
Proof.
  intros [s H]%reachable_holds V D. pose proof H as (DF & S & R). rewrite R in D.
  pose proof (request_cases p now draw w s H V D) as Y.
  destruct (requestPairingCode p now draw w) as [w1 [code created]].
  destruct Y as (s1 & e & H1 & I & C & A & ID & F). pose proof H1 as (DF1 & S1 & R1). split.
  - intros now' draw'. unfold requestPairingCode. specialize (R1 now').
    destruct (readStore now' w1) as [s' al]. simpl in R1. subst s'. simpl in F. by rewrite F, C.
  - intros T now'.
    assert (p_channel e = trim (i_channel p)) as CH.
    { destruct S1 as [_ _ SI _]. rewrite Forall_forall in SI. destruct (SI _ I) as (E1 & E2 & E3), V.
      rewrite ID in E1. symmetry in E1. by apply pairingId_inj in E1 as [? _]. }
    assert (exists l, approved_for (trim (i_channel p)) s1 = Ok l) as L.
    { unfold approved_for, obj_lookup. destruct (mget _ _); [eauto|].
      rewrite bool_decide_eq_false_2 by apply V. eauto. }
    destruct (approve_cases (i_channel p) typed now' w1 s1 e) as (w2 & s2 & E & H2 & _);
      try done; [congruence|].
    exists w2, e. split; [done|]. split; [done|]. intros now''.
    rewrite (approve_sees _ _ _ _ _ _ DF1 E). destruct L as [l L].
    rewrite isPairingApproved_eq, R1, L. simpl rbind. rewrite bool_decide_eq_true_2 by done.
    rewrite (matches_self p e ID). by rewrite orb_true_r.
Qed.

(** C6: the pairing flow.  From any state the program reaches, a real user on a
    usable channel who asks for a code gets one; asking again gives the same code
    and creates nothing; and when the operator types that code, in any case and
    with spaces around it, the entry returned is that user's and the user is
    approved from then on. *)
Theorem pairing_flow w p now draw typed :
  reachable w -> valid p -> draws_ok draw (map p_code (pending (readStore now w).1)) ->
  let '(w1, (code, _)) := requestPairingCode p now draw w in
  (forall now' draw', (requestPairingCode p now' draw' w1).2 = (code, false)) /\
  (toUpperCase (trim typed) = code -> forall now', exists w2 e,
     approvePairingCode (i_channel p) typed now' w1 = (w2, Ok (Some e)) /\
     p_id e = pairingId (trim (i_channel p)) (trim (i_userId p)) (trim (i_chatId p)) /\
     forall now'', isPairingApproved p now'' w2 = Ok true).
Proof. apply pairing_round. Qed.

Lemma holds_default s : store_ok s -> holds (mkWorld None s) s.
Proof. intros S. split; [apply S|]. by split. Qed.

(** the default store is shared.  When the store's file is missing, a
    request writes its entry into the module's default store as well; if the
    file disappears later, for instance because the operator deletes it to reset
    all pairings, the entry is still listed and its code can still be approved. *)
Theorem default_store_leaks p now draw :
  valid p -> draws_ok draw [] ->
  let '(w1, (code, _)) := requestPairingCode p now draw (start None) in
  let lost := mkWorld None (w_default w1) in
  (forall now', listPendingPairings None now' lost = [new_entry p code now]) /\
  (forall now', exists w2, approvePairingCode (i_channel p) code now' lost =
     (w2, Ok (Some (new_entry p code now)))).
Proof.
  intros V D. destruct (newCode_ok draw _ D) as (N & T & U). unfold requestPairingCode. simpl.
  set (code := newCode draw []) in *. fold (new_entry p code now).
  assert (store_ok (mkStore [] [new_entry p code now])) as S.
  { apply (push_ok p code now DEFAULT_STORE); try done. apply holds_start. }
  split; [done|]. intros now'.
  destruct (approve_cases (i_channel p) code now' _ _ (new_entry p code now) (holds_default _ S))
    as (w2 & s2 & E & _); [simpl; set_solver|done| | |by exists w2].
  - simpl. destruct T as [-> _]. done.
  - unfold approved_for, obj_lookup. simpl. rewrite bool_decide_eq_false_2 by apply V. eauto.
Qed.

Definition sample_identity : identity := mkIdentity "telegram" "7" "42".
Definition sample_draw (_ : nat) : string := generateCode [0; 1; 2; 3; 4; 5; 6; 31].
Lemma sample_valid : valid sample_identity.
Proof. split; try discriminate; apply (bool_decide_eq_false_1 _); vm_compute; reflexivity. Qed.
Lemma sample_draws : draws_ok sample_draw [].
Proof.
  split; [|by exists 0; split; [lia|apply not_elem_of_nil]].
  intros n. by exists [0; 1; 2; 3; 4; 5; 6; 31].
Qed.

Lemma pairing_flow_witness :
  let '(w1, (code, _)) := requestPairingCode sample_identity 5 sample_draw (start None) in
  code = "ABCDEFG9" /\
  exists w2 e, approvePairingCode "telegram" " abcdefg9" 9 w1 = (w2, Ok (Some e)) /\
    isPairingApproved sample_identity 10 w2 = Ok true.
Proof.
  pose proof (pairing_flow (start None) sample_identity 5 sample_draw " abcdefg9"
    reach_start sample_valid sample_draws) as H.
  destruct (requestPairingCode sample_identity 5 sample_draw (start None)) as [w1 [code c]] eqn:E.
  assert (code = "ABCDEFG9") as -> by (vm_compute in E; injection E; congruence).
  split; [reflexivity|]. destruct H as [_ H].
  destruct (H ltac:(vm_compute; reflexivity) 9%Z) as (w2 & e & A & _ & B).
  exists w2, e. split; [exact A|apply B].
Defined.

Lemma approve_grants_witness :
  let w1 := (requestPairingCode sample_identity 5 sample_draw (start None)).1 in
  let w2 := (approvePairingCode "telegram" "ABCDEFG9" 9 w1).1 in
  isPairingApproved (mkIdentity "telegram" "8" "42") 10 w1 = Ok false /\
  isPairingApproved (mkIdentity "telegram" "8" "42") 10 w2 = Ok true.
Proof.
  split; [vm_compute; reflexivity|].
  rewrite (approve_grants "telegram" "ABCDEFG9" 9
    (requestPairingCode sample_identity 5 sample_draw (start None)).1
    (approvePairingCode "telegram" "ABCDEFG9" 9 (requestPairingCode sample_identity 5 sample_draw (start None)).1).1
    (new_entry sample_identity "ABCDEFG9" 5)).
  - vm_compute. reflexivity.
  - apply (so_normalized (mkStore [] [new_entry sample_identity "ABCDEFG9" 5])).
    apply (push_ok sample_identity "ABCDEFG9" 5 DEFAULT_STORE); [apply holds_start|apply sample_valid| |reflexivity|].
    + split; [reflexivity|discriminate].
    + apply not_elem_of_nil.
  - vm_compute. reflexivity.
Defined.

Lemma default_store_leaks_witness :
  let '(w1, (code, _)) := requestPairingCode sample_identity 5 sample_draw (start None) in
  map p_userId (listPendingPairings None 9 (mkWorld None (w_default w1))) = ["7"].
Proof.
  pose proof (default_store_leaks sample_identity 5 sample_draw sample_valid sample_draws) as H.
  destruct (requestPairingCode sample_identity 5 sample_draw (start None)) as [w1 [code c]].
  rewrite (proj1 H). reflexivity.
Defined.

(** Two identities with one pairing id. *)
Example pairingId_ambiguous : pairingId "telegram" "1:2" "3" = pairingId "telegram" "1" "2:3".
Proof. reflexivity. Qed.
