(* ===== verification/Checkout.v ===== *)
(** * Checkout protection

    [src/src/agents/checkout-workflow.ts]: browser actions that look like a purchase
    are blocked until the user confirms, and a confirmation lasts five minutes. *)

From stdpp Require Import base list sets strings pretty.
From Stdlib Require Import Ascii Lia ZArith.
From S2P Require Import Prelude JsString JsMap JsValue JsRegex.

(** ** Data *)

Record CheckoutRisk := mkRisk {
  risk_action : string;
  risk_reason : string;
  targetHint : option string;
}.
Record PendingCheckout := mkPendingCheckout { pc_risk : CheckoutRisk; pc_createdAt : Z }.
Record SessionCheckoutState := mkCheckoutState {
  pending : option PendingCheckout;
  confirmedUntil : Z;
}.
Inductive GuardDecision :=
| Allowed (confirmed : bool) (state : SessionCheckoutState)
| Blocked (message : string) (state : SessionCheckoutState).
Definition allowed (d : GuardDecision) : bool := match d with Allowed _ _ => true | Blocked _ _ => false end.

Definition CHECKOUT_CONFIRM_TTL_MS : Z := 5 * 60000.

(** [checkoutStateBySession] *)
Definition states := list (string * SessionCheckoutState).

(** ** Patterns *)

Definition CHECKOUT_KEYWORDS : re :=
  rseqs [RWordB;
         ralts [rlit_i "add to cart"; rlit_i "buy now"; rlit_i "checkout"; rlit_i "place order";
                rlit_i "submit order"; rlit_i "confirm order"; rlit_i "purchase"; rlit_i "pay now";
                rlit_i "payment";
                rseqs [rlit_i "one"; ropt (RChr (fun c => (code c =? 45)%nat || is_ws c)); rlit_i "click"]];
         RWordB].

Definition CHECKOUT_URL_HINT : re :=
  ralts [rseqs [rlit_i "amazon."; rplus (RChr (fun c => is_alpha c || (code c =? 46)%nat)); rlit "/";
                ralts [rlit_i "gp/buy"; rlit_i "checkout"; rlit_i "cart"]];
         rlit_i "/checkout"; rlit_i "/cart"; rlit_i "/buy-now"; rlit_i "/place-order"; rlit_i "/payment"].

Definition CHECKOUT_ACTIONS : list string := ["click"; "submit"; "act"; "press"].

Definition purchase_word : re :=
  rseqs [RWordB; ralts [rlit_i "order"; rlit_i "purchase"; rlit_i "checkout"; rlit_i "buy"; rlit_i "payment"]; RWordB].

Definition CONFIRM_REGEX : re :=
  ralts [rseqs [RWordB;
                ralts [rlit_i "confirm"; RSeq (rlit_i "approve") (ropt (rlit_i "d")); rlit_i "yes"];
                RWordB; rupto 20 rdot; purchase_word];
         rseqs [RWordB; rlit_i "t560"; rplus rspace; rlit_i "confirm"; rplus rspace; rlit_i "purchase"; RWordB]].

Definition CANCEL_REGEX : re :=
  rseqs [RWordB; ralts [rlit_i "cancel"; rlit_i "abort"; rlit_i "stop"]; RWordB; rupto 20 rdot; purchase_word].

(** ** Risk detection *)

Definition normalizeToolName (v : value) : string :=
  replace_runs is_ws ["_"%char] (toLowerCase (trim (to_string (nullish v (VStr ""))))).

Definition compact (v : value) : string :=
  trim (replace_runs is_ws [" "%char] (to_string (nullish v (VStr "")))).

(** The texts of some properties, in order, without the empty ones. *)
Definition push_hints (ks : list string) (args : value) : list string :=
  List.filter truthy (map (fun k => toLowerCase (compact (get_prop k args))) ks).

Definition is_record (v : value) : bool := match v with VObj _ => true | _ => false end.

Definition collectCheckoutHints (args : value) : list string :=
  push_hints ["url"; "targetUrl"; "selector"; "element"; "linkText"; "hrefContains"; "currentUrl";
              "currentPageUrl"; "tabUrl"; "ref"; "inputRef"] args ++
  (let request := get_prop "request" args in
   if is_record request
   then push_hints ["kind"; "selector"; "element"; "ref"; "inputRef"; "url"; "targetUrl"; "currentUrl";
                    "currentPageUrl"; "text"] request
   else []).

Definition checkout_text (joined : string) : bool :=
  re_test CHECKOUT_KEYWORDS joined || re_test CHECKOUT_URL_HINT joined.

Definition detectCheckoutRisk (toolName : string) (args : value) : option CheckoutRisk :=
  if negb (normalizeToolName (VStr toolName) =? "browser")%string then None
  else if negb (is_record args) then None
  else
    let action := toLowerCase (compact (get_prop "action" args)) in
    if negb (bool_decide (action ∈ CHECKOUT_ACTIONS)) then None
    else
      let key := toLowerCase (compact (get_prop "key" args)) in
      if (action =? "press")%string && negb (key =? "enter")%string && negb (key =? "return")%string then None
      else
        let hints := collectCheckoutHints args in
        let joined := join " | " hints in
        if negb (truthy joined) then None
        else if checkout_text joined
        then Some (mkRisk action "purchase/checkout trigger detected" (head hints))
        else
          let request := get_prop "request" args in
          if (action =? "act")%string && is_record request then
            let kind := toLowerCase (compact (get_prop "kind" request)) in
            if ((kind =? "click")%string || (kind =? "submit")%string) && checkout_text joined
            then Some (mkRisk ("act:" +:+ kind) "purchase/checkout trigger detected" (head hints))
            else None
          else None.

Definition quote : string := String (ascii_of_nat 34) EmptyString.
Definition buildBlockMessage (risk : CheckoutRisk) : string :=
  let hint := match targetHint risk with
              | Some h => if truthy h then " Target: " +:+ h +:+ "." else ""
              | None => ""
              end in
  join (String (ascii_of_nat 10) EmptyString)
    ["Checkout protection blocked browser action " +:+ quote +:+ risk_action risk +:+ quote +:+ " ("
       +:+ risk_reason risk +:+ ")." +:+ hint;
     "Reply with " +:+ quote +:+ "confirm purchase" +:+ quote
       +:+ " to authorize checkout actions for the next 5 minutes."].

(** ** Operations *)

Definition fresh_state : SessionCheckoutState := mkCheckoutState None 0.
Definition getState (sessionId : string) (m : states) : SessionCheckoutState * states :=
  match mget sessionId m with
  | Some st => (st, m)
  | None => (fresh_state, mset sessionId fresh_state m)
  end.

(** [if (state.confirmedUntil <= now) state.confirmedUntil = 0] *)
Definition expire (now : Z) (st : SessionCheckoutState) : SessionCheckoutState :=
  if (confirmedUntil st <=? now)%Z then mkCheckoutState (pending st) 0 else st.

Record TurnResult := mkTurn { confirmedThisTurn : bool; canceled : bool }.

Definition beginCheckoutWorkflowTurn (sessionId userMessage : string) (now : Z) (m : states)
  : states * TurnResult :=
  let '(st0, m0) := getState sessionId m in
  let st := expire now st0 in
  let msg := toLowerCase (compact (VStr userMessage)) in
  if negb (truthy msg) then (mset sessionId st m0, mkTurn false false)
  else if re_test CANCEL_REGEX msg
  then (mset sessionId (mkCheckoutState None 0) m0, mkTurn false true)
  else if re_test CONFIRM_REGEX msg
  then (mset sessionId (mkCheckoutState None (now + CHECKOUT_CONFIRM_TTL_MS)) m0, mkTurn true false)
  else (mset sessionId st m0, mkTurn false false).

Definition enforceCheckoutWorkflow (sessionId toolName : string) (toolArgs : value) (now : Z) (m : states)
  : states * GuardDecision :=
  let '(st0, m0) := getState sessionId m in
  let st := expire now st0 in
  match detectCheckoutRisk toolName toolArgs with
  | None => (mset sessionId st m0, Allowed false st)
  | Some risk =>
      if (now <? confirmedUntil st)%Z then
        let st' := mkCheckoutState None (confirmedUntil st) in
        (mset sessionId st' m0, Allowed true st')
      else
        let st' := mkCheckoutState (Some (mkPendingCheckout risk now)) (confirmedUntil st) in
        (mset sessionId st' m0, Blocked (buildBlockMessage risk) st')
  end.

Definition describeCheckoutWorkflowState (sessionId : string) (now : Z) (m : states) : option string :=
  match mget sessionId m with
  | None => None
  | Some st =>
      let remainingMs := Z.max 0 (confirmedUntil st - now) in
      if (0 <? remainingMs)%Z
      then Some ("checkout authorization active for " +:+ pretty ((remainingMs + 999) / 1000)%Z +:+ "s")
      else match pending st with
           | Some p => Some ("checkout authorization pending (" +:+ risk_action (pc_risk p) +:+ ")")
           | None => None
           end
  end.

(** ** Specification: the history of a program run *)

Inductive event :=
| Turn (sessionId userMessage : string) (now : Z)
| ToolUse (sessionId toolName : string) (toolArgs : value) (now : Z).
Definition time_of (e : event) : Z := match e with Turn _ _ t | ToolUse _ _ _ t => t end.
Definition run_event (m : states) (e : event) : states :=
  match e with
  | Turn s msg now => (beginCheckoutWorkflowTurn s msg now m).1
  | ToolUse s tool args now => (enforceCheckoutWorkflow s tool args now m).1
  end.
Definition run (hist : list event) : states := fold_left run_event hist [].

(** What a user message says about purchases. *)
Inductive verdict := Silent | Cancels | Confirms.
Definition verdict_of (userMessage : string) : verdict :=
  let msg := toLowerCase (compact (VStr userMessage)) in
  if negb (truthy msg) then Silent
  else if re_test CANCEL_REGEX msg then Cancels
  else if re_test CONFIRM_REGEX msg then Confirms else Silent.

(** The time of the last confirmation in a session that no cancellation followed. *)
Definition confirm_step (s : string) (acc : option Z) (e : event) : option Z :=
  match e with
  | Turn s' msg now =>
      if (s' =? s)%string then
        match verdict_of msg with Silent => acc | Cancels => None | Confirms => Some now end
      else acc
  | ToolUse _ _ _ _ => acc
  end.
Definition last_confirm (s : string) (hist : list event) : option Z := fold_left (confirm_step s) hist None.

(** The clock does not run backwards. *)
Fixpoint ordered (t : Z) (hist : list event) : Prop :=
  match hist with
  | [] => True
  | e :: hist' => (t <= time_of e)%Z /\ ordered (time_of e) hist'
  end.
Definition end_time (t : Z) (hist : list event) : Z := fold_left (fun _ e => time_of e) hist t.

(** ** Lemmas *)

#[local] Arguments re_test : simpl never.
#[local] Arguments verdict_of : simpl never.
#[local] Arguments detectCheckoutRisk : simpl never.
#[local] Arguments buildBlockMessage : simpl never.
#[local] Opaque CHECKOUT_CONFIRM_TTL_MS CANCEL_REGEX CONFIRM_REGEX CHECKOUT_KEYWORDS CHECKOUT_URL_HINT.

Definition until (s : string) (m : states) : Z := confirmedUntil (default fresh_state (mget s m)).

Lemma getState_until s m :
  let '(st, m0) := getState s m in
  confirmedUntil st = until s m /\ forall s', until s' m0 = until s' m.
Proof.
  unfold getState, until. destruct (mget s m) as [st|] eqn:E; [by rewrite ?E|].
  split; [done|]. intros s'. rewrite mget_mset. case_bool_decide; subst; [by rewrite E|done].
Qed.
Lemma until_mset s s' st m : until s (mset s' st m) = if bool_decide (s = s') then confirmedUntil st else until s m.
Proof. unfold until. rewrite mget_mset. by case_bool_decide. Qed.

Lemma expire_until now st :
  confirmedUntil (expire now st) = if (confirmedUntil st <=? now)%Z then 0%Z else confirmedUntil st.
Proof. unfold expire. by destruct (_ <=? _)%Z. Qed.

(** The end of the authorisation after one event. *)
Definition until_step (s : string) (u : Z) (e : event) : Z :=
  let expired t := if (u <=? t)%Z then 0%Z else u in
  match e with
  | Turn s' msg now =>
      if (s' =? s)%string then
        match verdict_of msg with
        | Silent => expired now
        | Cancels => 0%Z
        | Confirms => (now + CHECKOUT_CONFIRM_TTL_MS)%Z
        end
      else u
  | ToolUse s' _ _ now => if (s' =? s)%string then expired now else u
  end.

Lemma run_event_until s m e : until s (run_event m e) = until_step s (until s m) e.
Proof.
  destruct e as [s' msg now|s' tool args now]; cbn [run_event until_step].
  - unfold beginCheckoutWorkflowTurn, verdict_of. pose proof (getState_until s' m) as G.
    destruct (getState s' m) as [st m0]. destruct G as [G1 G2].
    destruct (negb _); [|destruct (re_test CANCEL_REGEX _); [|destruct (re_test CONFIRM_REGEX _)]]; cbn [fst];
      rewrite until_mset, ?expire_until, G2; rewrite (String.eqb_sym s' s);
      (case_bool_decide as E; [subst; by rewrite String.eqb_refl, ?G1|apply String.eqb_neq in E; by rewrite E]).
  - unfold enforceCheckoutWorkflow. pose proof (getState_until s' m) as G.
    destruct (getState s' m) as [st m0]. destruct G as [G1 G2].
    destruct (detectCheckoutRisk tool args); [destruct (_ <? _)%Z|]; cbn [fst];
      rewrite until_mset; cbn [confirmedUntil]; rewrite ?expire_until, G2, (String.eqb_sym s' s);
      (case_bool_decide as E; [subst; by rewrite String.eqb_refl, ?G1|apply String.eqb_neq in E; by rewrite E]).
Qed.

(** How the stored end relates to the history, at time [t]. *)
Definition agrees (u : Z) (c : option Z) (t : Z) : Prop :=
  match c with
  | Some t0 => u = (t0 + CHECKOUT_CONFIRM_TTL_MS)%Z \/ (u = 0 /\ t0 + CHECKOUT_CONFIRM_TTL_MS <= t)%Z
  | None => u = 0%Z
  end.

Lemma agrees_step s u c t e :
  (0 <= t)%Z -> (t <= time_of e)%Z -> agrees u c t ->
  agrees (until_step s u e) (confirm_step s c e) (time_of e).
Proof.
  intros T0 T A. destruct e as [s' msg now|s' tool args now]; cbn [until_step confirm_step time_of] in *;
    (destruct (s' =? s)%string; [|destruct c; cbn [agrees] in *; [destruct A as [->|[-> ?]]; [by left|right; lia]|done]]).
  - destruct (verdict_of msg); cbn [agrees]; [|done|by left].
    destruct c as [t0|]; cbn [agrees] in *; [|subst; by destruct (_ <=? _)%Z].
    destruct (u <=? now)%Z eqn:E; [apply Z.leb_le in E|]; destruct A as [->|[-> ?]]; auto; right; lia.
  - destruct c as [t0|]; cbn [agrees] in *; [|subst; by destruct (_ <=? _)%Z].
    destruct (u <=? now)%Z eqn:E; [apply Z.leb_le in E|]; destruct A as [->|[-> ?]]; auto; right; lia.
Qed.

Lemma run_agrees s hist m c t :
  (0 <= t)%Z -> ordered t hist -> agrees (until s m) c t ->
  agrees (until s (fold_left run_event hist m)) (fold_left (confirm_step s) hist c) (end_time t hist).
Proof.
  revert m c t. induction hist as [|e hist IH]; intros m c t T O A; simpl in *; [done|].
  destruct O as [O1 O2]. apply IH; [lia|done|]. rewrite run_event_until. by apply (agrees_step s _ c t).
Qed.

Lemma end_time_ge hist t : ordered t hist -> (t <= end_time t hist)%Z.
Proof.
  revert t. induction hist as [|e hist IH]; intros t; simpl; [lia|]. intros [O1 O2].
  specialize (IH _ O2). unfold end_time in *. lia.
Qed.

Lemma detected_action tool args risk :
  detectCheckoutRisk tool args = Some risk -> risk_action risk ∈ CHECKOUT_ACTIONS.
Proof.
  unfold detectCheckoutRisk. repeat (case_match; [done|]).
  destruct (checkout_text _) eqn:C.
  - intros R%(f_equal (fmap risk_action)). cbn in R. injection R as <-. match goal with H : negb (bool_decide _) = false |- _ =>
      apply negb_false_iff, bool_decide_eq_true in H; exact H end.
  - rewrite andb_false_r. by destruct (_ && is_record _).
Qed.

(** ** Properties *)

(** C8: purchases need a recent confirmation.  In any run with a clock that
    does not go back, a tool call of a session is let through exactly when it is
    not recognised as a purchase action, or when the user of that same session
    confirmed less than five minutes before and has not cancelled since.  What
    happens in other sessions plays no part. *)
Theorem checkout_needs_confirmation hist s tool args t :
  ordered 0 hist -> (end_time 0 hist <= t)%Z ->
  allowed (enforceCheckoutWorkflow s tool args t (run hist)).2 = true <->
  detectCheckoutRisk tool args = None \/
  exists t0, last_confirm s hist = Some t0 /\ (t < t0 + 300000)%Z.
Proof.
  intros O T. pose proof (run_agrees s hist [] None 0 ltac:(lia) O eq_refl) as A.
  fold (run hist) in A. fold (last_confirm s hist) in A.
  pose proof (end_time_ge hist 0 O) as T0.
  unfold enforceCheckoutWorkflow. pose proof (getState_until s (run hist)) as G.
  destruct (getState s (run hist)) as [st m0]. destruct G as [G1 _].
  destruct (detectCheckoutRisk tool args) as [risk|]; [|split; [by left|done]].
  rewrite expire_until, G1. unfold agrees in *. change CHECKOUT_CONFIRM_TTL_MS with (5 * 60000)%Z in *.
  destruct (last_confirm s hist) as [t0|].
  - transitivity (t < t0 + 300000)%Z; [|split; [eauto|by intros [|(? & [= <-] & ?)]]].
    destruct A as [->|[-> A]].
    + destruct (Z.leb_spec (t0 + 5 * 60000) t) as [L|L].
      * rewrite (proj2 (Z.ltb_ge t 0)) by lia. cbn [snd allowed]. split; [done|lia].
      * rewrite (proj2 (Z.ltb_lt t _)) by lia. cbn [snd allowed]. split; [lia|done].
    + rewrite (proj2 (Z.leb_le 0 t)), (proj2 (Z.ltb_ge t 0)) by lia. cbn [snd allowed]. split; [done|lia].
  - rewrite A, (proj2 (Z.leb_le 0 t)), (proj2 (Z.ltb_ge t 0)) by lia. cbn [snd allowed].
    split; [done|by intros [|(? & ? & ?)]].
Qed.

Definition buy_now : value := VObj [("action", VStr "click"); ("element", VStr "Buy  Now button")].

Lemma checkout_needs_confirmation_witness :
  allowed (enforceCheckoutWorkflow "s" "browser" buy_now 900 (run [Turn "s" "Confirm  purchase" 500])).2 = true /\
  allowed (enforceCheckoutWorkflow "s" "browser" buy_now 300500 (run [Turn "s" "Confirm  purchase" 500])).2 = false.
Proof.
  split.
  - apply (checkout_needs_confirmation [Turn "s" "Confirm  purchase" 500] "s" "browser" buy_now 900).
    + simpl. lia.
    + simpl. lia.
    + right. exists 500%Z. split; [vm_compute; reflexivity|lia].
  - destruct (allowed _) eqn:E; [|reflexivity]. exfalso.
    apply (checkout_needs_confirmation [Turn "s" "Confirm  purchase" 500]) in E; [|simpl; lia|simpl; lia].
    destruct E as [E|(t0 & E & L)]; [vm_compute in E; discriminate|].
    vm_compute in E. injection E as <-. lia.
Defined.

(** a refusal that names the purchase counts as a confirmation.  In every
    state, the message ["Do not confirm the purchase"] authorises the session:
    every purchase action of the next five minutes is let through.  A message
    that says [stop] instead revokes it. *)
Theorem refusal_confirms s tool args now t m :
  let '(m', turn) := beginCheckoutWorkflowTurn s "Do not confirm the purchase" now m in
  confirmedThisTurn turn = true /\
  ((now <= t < now + 300000)%Z -> allowed (enforceCheckoutWorkflow s tool args t m').2 = true) /\
  canceled (beginCheckoutWorkflowTurn s "Stop this purchase" now m').2 = true.
Proof.
  assert (forall m', (beginCheckoutWorkflowTurn s "Stop this purchase" now m').2 = mkTurn false true) as C.
  { intros m'. unfold beginCheckoutWorkflowTurn. destruct (getState s m') as [st m0].
    assert (truthy (toLowerCase (compact (VStr "Stop this purchase"))) = true) as -> by (vm_compute; reflexivity).
    assert (re_test CANCEL_REGEX (toLowerCase (compact (VStr "Stop this purchase"))) = true) as ->
      by (vm_compute; reflexivity). done. }
  unfold beginCheckoutWorkflowTurn at 1. destruct (getState s m) as [st m0].
  assert (truthy (toLowerCase (compact (VStr "Do not confirm the purchase"))) = true) as -> by (vm_compute; reflexivity).
  assert (re_test CANCEL_REGEX (toLowerCase (compact (VStr "Do not confirm the purchase"))) = false) as ->
    by (vm_compute; reflexivity).
  assert (re_test CONFIRM_REGEX (toLowerCase (compact (VStr "Do not confirm the purchase"))) = true) as ->
    by (vm_compute; reflexivity).
  cbn [negb]. split; [done|]. split; [|by rewrite C]. intros T.
  unfold enforceCheckoutWorkflow, getState. rewrite mget_mset_eq.
  destruct (detectCheckoutRisk tool args); [|done]. rewrite expire_until. cbn [confirmedUntil].
  change CHECKOUT_CONFIRM_TTL_MS with 300000%Z. rewrite (proj2 (Z.leb_gt _ _)) by lia.
  by rewrite (proj2 (Z.ltb_lt _ _)) by lia.
Qed.
