(* ===== verification/SelfProtection.v ===== *)
(** * Self protection

    [src/src/agents/self-protection.ts]: which shell commands the exec tool refuses:
    power control, and deletions or moves that cover a protected path.

    [process.cwd()] and [os.homedir()] are parameters, as is the directory that
    [resolveOpenClawPackageRootSync] detects. *)

From stdpp Require Import base list sets strings.
From Stdlib Require Import Ascii Lia ZArith.
From S2P Require Import Prelude JsString JsMap JsValue JsRegex NodePath.

(** ** Data *)

Definition DEFAULT_SELF_PROTECTED_PATHS : list string :=
  ["."; "src/cli"; "dist/cli"; "cli"; "src/bin"; "dist/bin"; "bin"].

Record ProtectedPathEntry := mkProtected { pp_raw : string; pp_absolute : string }.
Record SelfProtectionPolicy := mkProtection {
  enabled : bool;
  installRoot : string;
  protectedPaths : list ProtectedPathEntry;
}.
Record TokenPath := mkTokenPath { tp_raw : string; tp_absolute : string; wildcard : bool }.

(** [config.tools.selfProtection] *)
Record SelfProtectionConfig := mkProtectionConfig {
  cfg_enabled : option bool;
  cfg_installRoot : option string;
  cfg_protectedPaths : option (list string);
}.

(** ** Lexing *)

Definition squote : ascii := ascii_of_nat 39.
Definition dquote : ascii := ascii_of_nat 34.
Definition backslash : ascii := ascii_of_nat 92.
Definition ch_eqb (a b : ascii) : bool := bool_decide (a = b).
Definition is_quote (c : ascii) : bool := ch_eqb c squote || ch_eqb c dquote.
Definition in_single (quote : option ascii) : bool :=
  match quote with Some q => ch_eqb q squote | None => false end.

(** [const trimmed = current.trim(); if (trimmed) out.push(trimmed)] *)
Definition push_trimmed (current : list ascii) (out : list string) : list string :=
  let trimmed := trim (of_chars current) in if truthy trimmed then out ++ [trimmed] else out.

Definition is_break (c : ascii) : bool := ch_eqb c ";" || ch_eqb c "|" || ch_eqb c "&".

Fixpoint split_segments (cmd current : list ascii) (quote : option ascii) (escaped : bool)
    (out : list string) : list string :=
  match cmd with
  | [] => push_trimmed current out
  | ch :: rest =>
      if escaped then split_segments rest (current ++ [ch]) quote false out
      else if ch_eqb ch backslash && negb (in_single quote)
      then split_segments rest (current ++ [ch]) quote true out
      else
        match quote with
        | Some q => split_segments rest (current ++ [ch]) (if ch_eqb ch q then None else quote) false out
        | None =>
            if is_quote ch then split_segments rest (current ++ [ch]) (Some ch) false out
            else if is_break ch then
              let out' := push_trimmed current out in
              match rest with
              | next :: rest' =>
                  if (ch_eqb ch "|" || ch_eqb ch "&") && ch_eqb next ch
                  then split_segments rest' [] None false out'
                  else split_segments rest [] None false out'
              | [] => split_segments rest [] None false out'
              end
            else split_segments rest (current ++ [ch]) None false out
        end
  end.
Definition splitShellSegments (command : string) : list string :=
  split_segments (chars command) [] None false [].

Definition flush (current : list ascii) (tokens : list string) : list string :=
  match current with [] => tokens | _ => tokens ++ [of_chars current] end.

Fixpoint tokenize (seg current : list ascii) (quote : option ascii) (escaped : bool)
    (tokens : list string) : list string :=
  match seg with
  | [] => flush current tokens
  | ch :: rest =>
      if escaped then tokenize rest (current ++ [ch]) quote false tokens
      else if ch_eqb ch backslash && negb (in_single quote) then tokenize rest current quote true tokens
      else
        match quote with
        | Some q => if ch_eqb ch q then tokenize rest current None false tokens
                    else tokenize rest (current ++ [ch]) quote false tokens
        | None =>
            if is_quote ch then tokenize rest current (Some ch) false tokens
            else if is_ws ch then tokenize rest [] None false (flush current tokens)
            else tokenize rest (current ++ [ch]) None false tokens
        end
  end.
Definition tokenizeShell (segment : string) : list string := tokenize (chars segment) [] None false [].

Definition isEnvAssignmentToken (token : string) : bool :=
  re_test (rseqs [RBol; RChr (fun c => is_alpha c || ch_eqb c "_"); RStar (RChr is_word); rlit "=";
                  RStar rdot]) token.

(** [while (idx < tokens.length && p(tokens[idx])) idx += 1] from the tokens at [idx]. *)
Fixpoint skip_while (p : string -> bool) (suffix : list string) (idx : nat) : nat :=
  match suffix with
  | t :: rest => if p t then skip_while p rest (S idx) else idx
  | [] => idx
  end.
Definition skip_from (p : string -> bool) (tokens : list string) (idx : nat) : nat :=
  skip_while p (skipn idx tokens) idx.

Definition findCommandTokenIndex (tokens : list string) : option nat :=
  let idx := skip_from isEnvAssignmentToken tokens 0 in
  match tokens !! idx with
  | None => None
  | Some t =>
      let idx := if (t =? "env")%string
                 then skip_from (fun t => startsWith "-" t || isEnvAssignmentToken t) tokens (S idx) else idx in
      match tokens !! idx with
      | None => None
      | Some t =>
          let idx := if (t =? "sudo")%string
                     then skip_from isEnvAssignmentToken tokens
                            (skip_from (startsWith "-") tokens (S idx))
                     else idx in
          if (idx <? length tokens)%nat then Some idx else None
      end
  end.

Definition containsWildcard (raw : string) : bool := existsb (any_of "*?[]{}") (chars raw).

Definition hasFlag (tokens : list string) (longFlag : string) (shortFlag : option string) : bool :=
  existsb (fun token =>
    if (token =? longFlag)%string ||
       match shortFlag with Some f => truthy f && (token =? f)%string | None => false end then true
    else
      match shortFlag with
      | None => false
      | Some f =>
          if negb (truthy f) || negb (startsWith "-" f) || negb (slen f =? 2)%nat then false
          else if negb (startsWith "-" token) || startsWith "--" token then false
          else includes (slice_from 1 f) token
      end) tokens.

(** ** Paths *)

Section Env.
Variable pcwd : string.     (* process.cwd() *)
Variable home : string.     (* os.homedir() *)

Definition isPathInside (root target : string) : bool :=
  relative_inside (relative pcwd (resolve pcwd root) (resolve pcwd target)).

Definition expandHome (raw : string) : string :=
  let trimmed := trim raw in
  if (trimmed =? "~")%string then home
  else if startsWith "~/" trimmed then join2 home (slice_from 2 trimmed)
  else trimmed.

Definition resolvePathFromBase (raw baseDir : string) : string :=
  let expanded := expandHome raw in
  if isAbsolute expanded then resolve pcwd expanded else resolve2 pcwd baseDir expanded.

Fixpoint dedupeProtectedPaths (seen : list string) (entries : list ProtectedPathEntry)
  : list ProtectedPathEntry :=
  match entries with
  | [] => []
  | e :: rest =>
      let key := resolve pcwd (pp_absolute e) in
      if bool_decide (key ∈ seen) then dedupeProtectedPaths seen rest
      else mkProtected (pp_raw e) key :: dedupeProtectedPaths (key :: seen) rest
  end.

Definition resolveTokenPath (raw cwd : string) : option TokenPath :=
  let token := trim raw in
  if negb (truthy token) || startsWith "-" token then None
  else if includes "$(" token || includes "${" token || includes "`" token then None
  else Some (mkTokenPath token (resolvePathFromBase token cwd) (containsWildcard token)).

Definition formatProtectedPath (entry : ProtectedPathEntry) (root : string) : string :=
  let rel := relative pcwd root (pp_absolute entry) in
  if negb (truthy rel) || (rel =? ".")%string then pp_absolute entry
  else pp_absolute entry +:+ " (" +:+ rel +:+ ")".

Definition throwBlockedDelete (command : string) (target : TokenPath) (e : ProtectedPathEntry) (root : string)
  : result unit :=
  Throw (join " " ["Blocked destructive command by self-protection policy.";
                   "Command: " +:+ command; "Target: " +:+ tp_raw target;
                   "Protected path: " +:+ formatProtectedPath e root]).

Definition blockIfTargetCoversProtected (command : string) (targets : list TokenPath)
    (protected : list ProtectedPathEntry) (root : string) : result unit :=
  for_each (fun target =>
    for_each (fun e =>
      if isPathInside (tp_absolute target) (pp_absolute e) then throwBlockedDelete command target e root
      else if wildcard target &&
              (isPathInside (tp_absolute target) (pp_absolute e) || isPathInside (pp_absolute e) (tp_absolute target))
      then throwBlockedDelete command target e root
      else Ok tt) protected) targets.

(** The arguments that are not options: [--] ends the options. *)
Fixpoint positionals (passthrough : bool) (args : list string) : list string :=
  match args with
  | [] => []
  | token :: rest =>
      if negb passthrough && (token =? "--")%string then positionals true rest
      else if negb passthrough && startsWith "-" token then positionals passthrough rest
      else token :: positionals passthrough rest
  end.

Definition parseDeleteTargets (tokens : list string) (commandIndex : nat) (cwd : string) : list TokenPath :=
  let out := omap (fun t => resolveTokenPath t cwd) (positionals false (skipn (S commandIndex) tokens)) in
  match out with
  | [] => [mkTokenPath "." (resolve pcwd cwd) false]
  | _ => out
  end.

Definition parseMoveSources (tokens : list string) (commandIndex : nat) (cwd : string) : list TokenPath :=
  let positional := positionals false (skipn (S commandIndex) tokens) in
  if (length positional <=? 1)%nat then []
  else omap (fun raw => resolveTokenPath raw cwd) (removelast positional).

(** ** Commands *)

Definition blockInProtected (what cwd : string) (policy : SelfProtectionPolicy) : result unit :=
  for_each (fun e =>
    if isPathInside (resolve pcwd cwd) (pp_absolute e)
    then Throw ("Blocked destructive git " +:+ what +:+ " in protected directory: "
                +:+ formatProtectedPath e (installRoot policy))
    else Ok tt) (protectedPaths policy).

Definition assertGitCommandAllowed (tokens : list string) (commandIndex : nat) (cwd : string)
    (policy : SelfProtectionPolicy) : result unit :=
  let sub := toLowerCase (default "" (tokens !! S commandIndex)) in
  if negb (truthy sub) then Ok tt
  else
    let? _ := if (sub =? "reset")%string && hasFlag tokens "--hard" None
              then blockInProtected "reset" cwd policy else Ok tt in
    if (sub =? "clean")%string && hasFlag tokens "--force" (Some "-f")
    then blockInProtected "clean" cwd policy else Ok tt.

Definition blockPowerControl : result unit :=
  Throw (join " " ["Command blocked by safety policy.";
    "Power-control commands (shutdown/reboot/poweroff/halt) are not allowed via exec tool."]).

Definition power_commands : list string := ["shutdown"; "reboot"; "poweroff"; "halt"].
Definition systemctl_verbs : list string := ["poweroff"; "reboot"; "halt"; "suspend"; "hibernate"; "kexec"].
Definition word_in (w text : string) : bool := re_test (rseqs [RWordB; rlit w; RWordB]) text.

(** The tests that end in [blockPowerControl()], in order. *)
Definition power_control (commandName nextToken joinedLower : string) : bool :=
  bool_decide (commandName ∈ power_commands) ||
  ((bool_decide (commandName ∈ ["init"; "telinit"])) && bool_decide (nextToken ∈ ["0"; "6"])) ||
  ((bool_decide (commandName ∈ ["systemctl"; "loginctl"])) && bool_decide (nextToken ∈ systemctl_verbs)) ||
  ((bool_decide (commandName ∈ ["cmd"; "cmd.exe"])) && word_in "shutdown" joinedLower) ||
  ((bool_decide (commandName ∈ ["powershell"; "pwsh"])) &&
     (word_in "stop-computer" joinedLower || word_in "restart-computer" joinedLower
      || word_in "shutdown" joinedLower)).

Definition deleteCommands : list string := ["rm"; "rmdir"; "unlink"; "shred"; "wipefs"; "mkfs"].

(** The scripts after [-c] and [-lc]. *)
Fixpoint inline_scripts (args : list string) : list string :=
  match args with
  | [] => []
  | token :: rest =>
      (if (token =? "-c")%string || (token =? "-lc")%string then
         match rest with s :: _ => if truthy (trim s) then [s] else [] | [] => [] end
       else []) ++ inline_scripts rest
  end.

(** [recur] is [assertExecCommandAllowed], called on inline scripts. *)
Definition assertSegmentAllowed (recur : string -> result unit) (cwd : string) (policy : SelfProtectionPolicy)
    (segment : string) : result unit :=
  let tokens := tokenizeShell segment in
  match findCommandTokenIndex tokens with
  | None => Ok tt
  | Some idx =>
      let args := skipn (S idx) tokens in
      let commandName := toLowerCase (basename (default "" (tokens !! idx))) in
      let nextToken := toLowerCase (default "" (tokens !! S idx)) in
      let joinedLower := toLowerCase (join " " args) in
      if power_control commandName nextToken joinedLower then blockPowerControl
      else
        let? _ := if bool_decide (commandName ∈ ["bash"; "sh"; "zsh"])
                  then for_each recur (inline_scripts args) else Ok tt in
        if (commandName =? "git")%string then assertGitCommandAllowed tokens idx cwd policy
        else if (commandName =? "find")%string && existsb (fun t => (toLowerCase t =? "-delete")%string) tokens then
          let rootToken := match tokens !! S idx with
                           | Some t => if truthy t && negb (startsWith "-" t) then t else "."
                           | None => "."
                           end in
          match resolveTokenPath rootToken cwd with
          | Some resolvedRoot =>
              blockIfTargetCoversProtected segment [resolvedRoot] (protectedPaths policy) (installRoot policy)
          | None => Ok tt
          end
        else if (commandName =? "mv")%string then
          blockIfTargetCoversProtected segment (parseMoveSources tokens idx cwd) (protectedPaths policy)
            (installRoot policy)
        else if negb (bool_decide (commandName ∈ deleteCommands)) then Ok tt
        else blockIfTargetCoversProtected segment (parseDeleteTargets tokens idx cwd) (protectedPaths policy)
               (installRoot policy)
  end.

(** Each inline script is shorter than the segment that holds it, so the length
    of the command bounds the nesting. *)
Fixpoint checkCommand (fuel : nat) (cwd : string) (policy : SelfProtectionPolicy) (command : string)
  : result unit :=
  match fuel with
  | O => Throw "out of fuel"
  | S fuel' =>
      if negb (enabled policy) then Ok tt
      else for_each (assertSegmentAllowed (checkCommand fuel' cwd policy) cwd policy) (splitShellSegments command)
  end.

Definition assertExecCommandAllowed (cwd : string) (policy : SelfProtectionPolicy) (command : string) : result unit :=
  checkCommand (S (slen command)) cwd policy command.

Definition resolveSelfProtectionPolicy (config : option SelfProtectionConfig) (workspaceDir0 : option string)
    (detected : option string) : SelfProtectionPolicy :=
  let workspaceDir := resolve pcwd (default pcwd workspaceDir0) in
  let on := match config with Some c => negb (bool_decide (cfg_enabled c = Some false)) | None => true end in
  let detectedInstallRoot := default workspaceDir detected in
  let configured := match config with Some c => trim (default "" (cfg_installRoot c)) | None => "" end in
  let root := resolvePathFromBase (if truthy configured then configured else detectedInstallRoot) workspaceDir in
  let configuredProtected :=
    List.filter truthy (map trim (match config with Some c => default [] (cfg_protectedPaths c) | None => [] end)) in
  let protectedRaw := match configuredProtected with [] => DEFAULT_SELF_PROTECTED_PATHS | _ => configuredProtected end in
  mkProtection on root
    (dedupeProtectedPaths []
       (mkProtected "." root :: map (fun raw => mkProtected raw (resolvePathFromBase raw root)) protectedRaw)).
End Env.

(** ** Lengths: the recursion on inline scripts terminates *)

Lemma push_trimmed_length current out s :
  s ∈ push_trimmed current out -> s ∈ out \/ slen s <= length current.
Proof.
  unfold push_trimmed. destruct (truthy _); [|by left]. intros [H| ->%list_elem_of_singleton]%elem_of_app; [by left|].
  right. etransitivity; [apply trim_slen|]. by rewrite slen_of_chars.
Qed.

Lemma split_segments_length n cmd current quote escaped out s :
  length cmd <= n -> s ∈ split_segments cmd current quote escaped out ->
  s ∈ out \/ slen s <= length current + length cmd.
Proof.
  revert cmd current quote escaped out. induction n as [|n IH]; intros cmd current quote escaped out L.
  { destruct cmd; [|simpl in L; lia]. intros [?|?]%push_trimmed_length; [by left|right; lia]. }
  destruct cmd as [|ch rest]; simpl; [intros [?|?]%push_trimmed_length; [by left|right; lia]|].
  simpl in L. assert (length rest <= n) as L' by lia.
  assert (forall q e, s ∈ split_segments rest (current ++ [ch]) q e out ->
    s ∈ out \/ slen s <= length current + S (length rest)) as App.
  { intros q e H. apply IH in H as [?|H]; [by left| |done]. right. rewrite length_app in H. simpl in H. lia. }
  assert (forall cmd', length cmd' <= length rest -> s ∈ split_segments cmd' [] None false (push_trimmed current out) ->
    s ∈ out \/ slen s <= length current + S (length rest)) as Brk.
  { intros cmd' L2 H. apply IH in H as [H|H]; [|right; simpl in H; lia|lia].
    apply push_trimmed_length in H as [?|?]; [by left|right; lia]. }
  destruct escaped; [apply App|]. destruct (_ && _); [apply App|].
  destruct quote as [q|]; [apply App|]. destruct (is_quote ch); [apply App|].
  destruct (is_break ch); [|apply App]. destruct rest as [|next rest']; [apply Brk; lia|].
  destruct (_ && _); apply Brk; simpl; lia.
Qed.

Lemma splitShellSegments_length c s : s ∈ splitShellSegments c -> slen s <= slen c.
Proof.
  unfold splitShellSegments. intros H. eapply split_segments_length in H as [H|H]; [by apply elem_of_nil in H|done|done].
Qed.

Definition total (l : list string) : nat := sum_list_with slen l.
Lemma total_app a b : total (a ++ b) = total a + total b.
Proof. apply sum_list_with_app. Qed.

Lemma flush_ok current tokens :
  Forall (fun t => t <> "") tokens ->
  Forall (fun t => t <> "") (flush current tokens) /\ total (flush current tokens) = total tokens + length current.
Proof.
  intros F. unfold flush. destruct current as [|c l]; [split; [done|simpl; lia]|].
  rewrite total_app. split; [|unfold total; cbn [sum_list_with]; rewrite slen_of_chars; lia].
  apply Forall_app. split; [done|]. by apply Forall_singleton.
Qed.

Lemma tokenize_ok seg current quote escaped tokens :
  Forall (fun t => t <> "") tokens ->
  let r := tokenize seg current quote escaped tokens in
  Forall (fun t => t <> "") r /\ total r <= total tokens + length current + length seg.
Proof.
  revert current quote escaped tokens. induction seg as [|ch rest IH]; intros current quote escaped tokens F; simpl.
  { destruct (flush_ok current tokens F) as [? ->]. split; [done|lia]. }
  assert (forall q e, let r := tokenize rest (current ++ [ch]) q e tokens in
    Forall (fun t => t <> "") r /\ total r <= total tokens + length current + S (length rest)) as App.
  { intros q e. destruct (IH (current ++ [ch]) q e tokens F) as [? H]. split; [done|].
    rewrite length_app in H. simpl in H. lia. }
  assert (forall q e, let r := tokenize rest current q e tokens in
    Forall (fun t => t <> "") r /\ total r <= total tokens + length current + S (length rest)) as Skip.
  { intros q e. destruct (IH current q e tokens F) as [? H]. split; [done|lia]. }
  destruct escaped; [apply App|]. destruct (_ && _); [apply Skip|].
  destruct quote as [q|]; [destruct (ch_eqb ch q); [apply Skip|apply App]|].
  destruct (is_quote ch); [apply Skip|]. destruct (is_ws ch); [|apply App].
  destruct (flush_ok current tokens F) as [F' T].
  destruct (IH [] None false _ F') as [? H]. split; [done|]. simpl in H. lia.
Qed.

Lemma tokenizeShell_ok seg :
  Forall (fun t => t <> "") (tokenizeShell seg) /\ total (tokenizeShell seg) <= slen seg.
Proof.
  unfold tokenizeShell. destruct (tokenize_ok (chars seg) [] None false []) as [F T]; [constructor|].
  split; [done|]. exact T.
Qed.

Lemma inline_scripts_elem s args : s ∈ inline_scripts args -> s ∈ args.
Proof.
  induction args as [|t rest IH]; simpl; [done|].
  intros [H|H]%elem_of_app; [|right; auto].
  destruct (_ || _); [|by apply elem_of_nil in H]. destruct rest as [|s' rest]; [by apply elem_of_nil in H|].
  destruct (truthy _); [|by apply elem_of_nil in H]. apply list_elem_of_singleton in H as ->. set_solver.
Qed.
Lemma elem_total x l : x ∈ l -> slen x <= total l.
Proof. induction 1 as [x l|x y l _ IH]; unfold total in *; simpl; lia. Qed.

Lemma inline_script_shorter seg idx t s :
  tokenizeShell seg !! idx = Some t -> s ∈ inline_scripts (skipn (S idx) (tokenizeShell seg)) -> slen s < slen seg.
Proof.
  intros Hi Hs%inline_scripts_elem%elem_total. destruct (tokenizeShell_ok seg) as [F T].
  assert (t <> "") as N by (rewrite Forall_forall in F; by eapply F, list_elem_of_lookup_2).
  rewrite <- (take_drop_middle _ _ _ Hi), total_app in T. unfold total in T at 2. simpl in T.
  fold (total (drop (S idx) (tokenizeShell seg))) in T.
  assert (0 < slen t) by (by apply truthy_slen, truthy_true). unfold total in *. lia.
Qed.

#[local] Arguments isEnvAssignmentToken : simpl never.
#[local] Arguments tokenizeShell : simpl never.

Lemma findCommandTokenIndex_Some tokens idx :
  findCommandTokenIndex tokens = Some idx -> exists t, tokens !! idx = Some t.
Proof.
  unfold findCommandTokenIndex. repeat (case_match; [|done]). destruct (_ <? _)%nat eqn:L; [|done].
  intros [= <-]. apply Nat.ltb_lt in L. by apply lookup_lt_is_Some_2.
Qed.

Section Props.
Variables (pcwd home : string).

Lemma assertSegmentAllowed_ext r1 r2 cwd policy seg :
  (forall s, slen s < slen seg -> r1 s = r2 s) ->
  assertSegmentAllowed pcwd home r1 cwd policy seg = assertSegmentAllowed pcwd home r2 cwd policy seg.
Proof.
  intros H. unfold assertSegmentAllowed. cbv zeta.
  destruct (findCommandTokenIndex (tokenizeShell seg)) as [idx|] eqn:E; [|done].
  apply findCommandTokenIndex_Some in E as [t Ht].
  destruct (power_control _ _ _); [done|].
  rewrite (for_each_ext r1 r2); [done|]. intros s Hs%list_elem_of_In.
  apply H. by eapply inline_script_shorter.
Qed.

Lemma checkCommand_fuel n cwd policy c f1 f2 :
  slen c <= n -> slen c < f1 -> slen c < f2 ->
  checkCommand pcwd home f1 cwd policy c = checkCommand pcwd home f2 cwd policy c.
Proof.
  revert c f1 f2. induction n as [n IH] using lt_wf_ind. intros c f1 f2 L L1 L2.
  destruct f1 as [|f1]; [lia|]. destruct f2 as [|f2]; [lia|]. simpl.
  destruct (negb _); [done|]. apply for_each_ext. intros seg Hs%list_elem_of_In%splitShellSegments_length.
  apply assertSegmentAllowed_ext. intros s Hl. apply (IH (slen s)); lia.
Qed.

(** The check with no mention of fuel. *)
Lemma assertExecCommandAllowed_eq cwd policy c :
  assertExecCommandAllowed pcwd home cwd policy c =
  if negb (enabled policy) then Ok tt
  else for_each (assertSegmentAllowed pcwd home (assertExecCommandAllowed pcwd home cwd policy) cwd policy)
         (splitShellSegments c).
Proof.
  unfold assertExecCommandAllowed at 1. cbn [checkCommand]. destruct (negb _); [done|].
  apply for_each_ext. intros seg Hs%list_elem_of_In%splitShellSegments_length.
  apply assertSegmentAllowed_ext. intros s Hl. unfold assertExecCommandAllowed.
  apply (checkCommand_fuel (slen s)); lia.
Qed.

(** ** What an accepted command cannot do *)

(** The path [target] covers [p]: it is [p] or one of its ancestors. *)
Definition covers (target p : string) : Prop := below (segments pcwd target) (segments pcwd p).

Lemma isPathInside_spec root target : isPathInside pcwd root target = true <-> covers root target.
Proof. unfold isPathInside. rewrite relative_resolve. apply relative_inside_spec. Qed.

Lemma blockIfTargetCovers_ok command targets protected root :
  blockIfTargetCoversProtected pcwd command targets protected root = Ok tt ->
  forall t p, t ∈ targets -> p ∈ protected -> ~ covers (tp_absolute t) (pp_absolute p) /\
    (wildcard t = true -> ~ covers (pp_absolute p) (tp_absolute t)).
Proof.
  unfold blockIfTargetCoversProtected. rewrite for_each_ok. intros H t p Ht%list_elem_of_In Hp%list_elem_of_In.
  specialize (H t Ht). rewrite for_each_ok in H. specialize (H p Hp).
  rewrite <- !isPathInside_spec. destruct (isPathInside pcwd (tp_absolute t) (pp_absolute p)); [done|].
  split; [done|]. intros W. rewrite W in H. simpl in H. by destruct (isPathInside pcwd (pp_absolute p) _).
Qed.

(** No target covers a protected path. *)
Definition spares (targets : list TokenPath) (policy : SelfProtectionPolicy) : Prop :=
  forall t p, t ∈ targets -> p ∈ protectedPaths policy -> ~ covers (tp_absolute t) (pp_absolute p) /\
    (wildcard t = true -> ~ covers (pp_absolute p) (tp_absolute t)).

Definition command_name (seg : string) (idx : nat) : string :=
  toLowerCase (basename (default "" (tokenizeShell seg !! idx))).
Definition arguments (seg : string) (idx : nat) : list string := skipn (S idx) (tokenizeShell seg).

(** The directory that [find] starts from. *)
Definition find_root (seg : string) (idx : nat) : string :=
  match tokenizeShell seg !! S idx with
  | Some t => if truthy t && negb (startsWith "-" t) then t else "."
  | None => "."
  end.
Definition subcommand (seg : string) (idx : nat) : string := toLowerCase (default "" (tokenizeShell seg !! S idx)).

(** What an accepted segment may do; [accepted] is for the scripts it runs. *)
Record segment_safe (accepted : string -> Prop) (cwd : string) (policy : SelfProtectionPolicy)
    (seg : string) (idx : nat) : Prop := {
  sf_power : power_control (command_name seg idx) (subcommand seg idx)
               (toLowerCase (join " " (arguments seg idx))) = false;
  sf_scripts : command_name seg idx ∈ ["bash"; "sh"; "zsh"] ->
    forall s, s ∈ inline_scripts (arguments seg idx) -> accepted s;
  sf_delete : command_name seg idx ∈ deleteCommands ->
    spares (parseDeleteTargets pcwd home (tokenizeShell seg) idx cwd) policy;
  sf_move : command_name seg idx = "mv" ->
    spares (parseMoveSources pcwd home (tokenizeShell seg) idx cwd) policy;
  sf_find : command_name seg idx = "find" ->
    existsb (fun t => (toLowerCase t =? "-delete")%string) (tokenizeShell seg) = true ->
    spares (option_list (resolveTokenPath pcwd home (find_root seg idx) cwd)) policy;
  sf_git : command_name seg idx = "git" ->
    (subcommand seg idx = "reset" /\ hasFlag (tokenizeShell seg) "--hard" None = true) \/
    (subcommand seg idx = "clean" /\ hasFlag (tokenizeShell seg) "--force" (Some "-f") = true) ->
    forall p, p ∈ protectedPaths policy -> ~ covers (resolve pcwd cwd) (pp_absolute p);
}.

(** The segments a command runs, directly or from the inline scripts of a shell
    it starts. *)
Inductive runs : string -> string -> nat -> Prop :=
  | runs_here c seg idx :
      seg ∈ splitShellSegments c -> findCommandTokenIndex (tokenizeShell seg) = Some idx -> runs c seg idx
  | runs_script c seg idx s seg' idx' :
      seg ∈ splitShellSegments c -> findCommandTokenIndex (tokenizeShell seg) = Some idx ->
      command_name seg idx ∈ ["bash"; "sh"; "zsh"] -> s ∈ inline_scripts (arguments seg idx) ->
      runs s seg' idx' -> runs c seg' idx'.

Lemma blockInProtected_ok what cwd policy :
  blockInProtected pcwd what cwd policy = Ok tt ->
  forall p, p ∈ protectedPaths policy -> ~ covers (resolve pcwd cwd) (pp_absolute p).
Proof.
  unfold blockInProtected. rewrite for_each_ok. intros H p Hp%list_elem_of_In. specialize (H p Hp).
  rewrite <- isPathInside_spec. by destruct (isPathInside _ _ _).
Qed.

Lemma assertSegmentAllowed_safe recur cwd policy seg idx :
  findCommandTokenIndex (tokenizeShell seg) = Some idx ->
  assertSegmentAllowed pcwd home recur cwd policy seg = Ok tt ->
  segment_safe (fun s => recur s = Ok tt) cwd policy seg idx.
Proof.
  intros E. unfold assertSegmentAllowed. rewrite E. cbv zeta. fold (command_name seg idx) (arguments seg idx) (find_root seg idx) (subcommand seg idx).
  destruct (power_control _ _ _) eqn:P; [done|]. intros (u & S & R)%rbind_ok_inv. split; [done|..].
  - intros B s Hs. rewrite bool_decide_eq_true_2 in S by done. destruct u. rewrite for_each_ok in S.
    by apply S, list_elem_of_In.
  - intros D. assert (command_name seg idx <> "git" /\ command_name seg idx <> "find" /\ command_name seg idx <> "mv")
      as (N1 & N2 & N3).
    { split; [|split]; intros X; rewrite X in D; apply (bool_decide_eq_true_2 _) in D; vm_compute in D; discriminate. }
    apply String.eqb_neq in N1, N2, N3. rewrite N1, N2, N3 in R. simpl in R.
    rewrite bool_decide_eq_true_2 in R by done. simpl in R. intros t p. by eapply blockIfTargetCovers_ok.
  - intros M. rewrite M in R. simpl in R. intros t p. by eapply blockIfTargetCovers_ok.
  - intros G D. rewrite G, D in R. simpl in R. intros t p Ht.
    destruct (resolveTokenPath pcwd home (find_root seg idx) cwd); [|by apply not_elem_of_nil in Ht].
    by eapply blockIfTargetCovers_ok.
  - intros G C. rewrite G in R. simpl in R. unfold assertGitCommandAllowed in R. fold (subcommand seg idx) in R.
    destruct C as [[SUB HF]|[SUB HF]]; rewrite SUB, HF in R; simpl in R.
    + apply rbind_ok_inv in R as ([] & R & _). by eapply blockInProtected_ok.
    + by eapply blockInProtected_ok.
Qed.

Lemma accepted_segments cwd policy c seg idx :
  enabled policy = true -> assertExecCommandAllowed pcwd home cwd policy c = Ok tt ->
  seg ∈ splitShellSegments c -> findCommandTokenIndex (tokenizeShell seg) = Some idx ->
  segment_safe (fun s => assertExecCommandAllowed pcwd home cwd policy s = Ok tt) cwd policy seg idx.
Proof.
  intros EN. rewrite assertExecCommandAllowed_eq, EN. simpl. rewrite for_each_ok.
  intros H Hs%list_elem_of_In F. by apply assertSegmentAllowed_safe, H.
Qed.

Lemma accepted_runs cwd policy c seg idx :
  enabled policy = true -> assertExecCommandAllowed pcwd home cwd policy c = Ok tt -> runs c seg idx ->
  segment_safe (fun s => assertExecCommandAllowed pcwd home cwd policy s = Ok tt) cwd policy seg idx.
Proof.
  intros EN A R. induction R as [c seg idx S F|c seg idx s seg' idx' S F N I _ IH]; [by eapply accepted_segments|].
  apply IH. by apply (sf_scripts _ _ _ _ _ (accepted_segments _ _ _ _ _ EN A S F)).
Qed.

(** ** The policy *)

Lemma resolve_plain l : Forall plain_seg l -> resolve pcwd (of_segments l) = of_segments l.
Proof.
  intros F. unfold resolve, segments. assert (isAbsolute (of_segments l) = true) as -> by done. simpl.
  by rewrite raw_segments_of_segments, normalize_segments_id.
Qed.

Lemma resolvePathFromBase_resolved raw base :
  resolve pcwd (resolvePathFromBase pcwd home raw base) = resolvePathFromBase pcwd home raw base.
Proof.
  unfold resolvePathFromBase. destruct (isAbsolute _) eqn:A; [apply resolve_idemp|].
  unfold resolve2. rewrite A. apply resolve_plain, normalize_segments_plain, Forall_app.
  split; [destruct (isAbsolute base); [constructor|]|apply Forall_app; split]; apply raw_segments_plain.
Qed.

Lemma dedupe_ok seen entries :
  NoDup (map pp_absolute (dedupeProtectedPaths pcwd seen entries)) /\
  Forall (fun p => pp_absolute p ∉ seen) (dedupeProtectedPaths pcwd seen entries).
Proof.
  revert seen. induction entries as [|e rest IH]; intros seen; simpl; [split; constructor|].
  case_bool_decide; [apply IH|]. destruct (IH (resolve pcwd (pp_absolute e) :: seen)) as [N F].
  rewrite Forall_forall in F. split; simpl.
  - apply NoDup_cons. split; [|done]. intros (p & E & Hp)%list_elem_of_fmap. apply F in Hp. set_solver.
  - constructor; [done|]. apply Forall_forall. intros p Hp%F. set_solver.
Qed.

Lemma policy_root config ws detected :
  let policy := resolveSelfProtectionPolicy pcwd home config ws detected in
  mkProtected "." (installRoot policy) ∈ protectedPaths policy /\ NoDup (map pp_absolute (protectedPaths policy)).
Proof.
  cbv zeta. unfold resolveSelfProtectionPolicy. cbv zeta. cbn [installRoot protectedPaths].
  split; [|apply dedupe_ok]. cbn [dedupeProtectedPaths pp_absolute pp_raw].
  rewrite bool_decide_eq_false_2 by (apply not_elem_of_nil). rewrite resolvePathFromBase_resolved. set_solver.
Qed.
End Props.

(** ** Properties *)

(** the check terminates.  The nesting of inline scripts is bounded by the
    length of the command, so the check always decides: running out of the
    model's fuel never happens, the fuel given does not matter beyond that
    length, and the check satisfies the recursive equation of the source. *)
Theorem assertExecCommandAllowed_terminates pcwd home cwd policy c :
  (forall fuel, slen c < fuel ->
     checkCommand pcwd home fuel cwd policy c = assertExecCommandAllowed pcwd home cwd policy c) /\
  assertExecCommandAllowed pcwd home cwd policy c =
  (if negb (enabled policy) then Ok tt
   else for_each (assertSegmentAllowed pcwd home (assertExecCommandAllowed pcwd home cwd policy) cwd policy)
          (splitShellSegments c)).
Proof.
  split; [|apply assertExecCommandAllowed_eq]. intros fuel L. unfold assertExecCommandAllowed.
  apply (checkCommand_fuel pcwd home (slen c)); lia.
Qed.

(** what an accepted command cannot do.  When an enabled policy accepts a
    command, then in every segment it runs, also in scripts that [bash -c],
    [sh -c] and [zsh -c] run from it, to any depth: the command is not a
    power-control command; no target of a delete command, no source of a move and
    no root of [find -delete] is a protected path or covers one, nor matches with
    a wildcard inside one; and [git reset --hard] and [git clean -f] are not run
    where they reach one.  A directory covers what is below it, names that start
    with two dots excepted. *)
Theorem accepted_command_safe pcwd home cwd policy c :
  enabled policy = true -> assertExecCommandAllowed pcwd home cwd policy c = Ok tt ->
  forall seg idx, runs c seg idx ->
    segment_safe pcwd home (fun s => assertExecCommandAllowed pcwd home cwd policy s = Ok tt) cwd policy seg idx.
Proof. intros EN A seg idx. by apply accepted_runs. Qed.

Definition sample_policy : SelfProtectionPolicy :=
  resolveSelfProtectionPolicy "/work" "/home/u" None (Some "/opt/app") None.
Definition rm_tmp : string := "rm -rf /tmp/x; sh -c 'rm -r build'".

Lemma rm_build_runs : runs rm_tmp "rm -r build" 0.
Proof.
  apply (runs_script _ "sh -c 'rm -r build'" 0 "rm -r build"); [..|apply runs_here]; try reflexivity;
    apply (bool_decide_eq_true_1 _); vm_compute; reflexivity.
Qed.

Lemma accepted_command_safe_witness :
  segment_safe "/work" "/home/u"
    (fun s => assertExecCommandAllowed "/work" "/home/u" "/work" sample_policy s = Ok tt)
    "/work" sample_policy "rm -r build" 0.
Proof.
  apply (accepted_command_safe "/work" "/home/u" "/work" sample_policy rm_tmp).
  - reflexivity.
  - vm_compute. reflexivity.
  - exact rm_build_runs.
Defined.

(** the installation is always protected.  Whatever paths are configured,
    the policy of a session protects the install root, each path once; unless it
    is disabled, no delete command that an accepted command runs, at any depth,
    has the install root or a directory that covers it as a target. *)
Theorem install_root_protected pcwd home config ws detected cwd c seg idx t :
  let policy := resolveSelfProtectionPolicy pcwd home config ws detected in
  enabled policy = true -> assertExecCommandAllowed pcwd home cwd policy c = Ok tt ->
  runs c seg idx -> command_name seg idx ∈ deleteCommands ->
  t ∈ parseDeleteTargets pcwd home (tokenizeShell seg) idx cwd ->
  ~ covers pcwd (tp_absolute t) (installRoot policy) /\ NoDup (map pp_absolute (protectedPaths policy)).
Proof.
  intros policy EN A RUN D T. destruct (policy_root pcwd home config ws detected) as [R N].
  fold policy in R, N. split; [|done].
  destruct (accepted_runs pcwd home cwd policy c seg idx EN A RUN) as [_ _ DEL _ _ _].
  by apply (DEL D t _ T R).
Qed.

Lemma install_root_protected_witness :
  ~ covers "/work" "/work/build" "/opt/app" /\ NoDup (map pp_absolute (protectedPaths sample_policy)).
Proof.
  apply (install_root_protected "/work" "/home/u" None (Some "/opt/app") None "/work" rm_tmp "rm -r build" 0
           (mkTokenPath "build" "/work/build" false)).
  - reflexivity.
  - vm_compute. reflexivity.
  - exact rm_build_runs.
  - apply (bool_decide_eq_true_1 _). vm_compute. reflexivity.
  - vm_compute. apply list_elem_of_here.
Defined.

(** ** A newline is not a separator *)

Definition plain_char (c : ascii) : bool :=
  negb (is_quote c) && negb (ch_eqb c backslash) && negb (is_break c).

Lemma split_plain l current out :
  forallb plain_char l = true -> split_segments l current None false out = push_trimmed (current ++ l) out.
Proof.
  revert current. induction l as [|c l IH]; intros current H; simpl; [by rewrite app_nil_r|].
  simpl in H. apply andb_true_iff in H as [P H]. unfold plain_char in P.
  apply andb_true_iff in P as [P B]. apply andb_true_iff in P as [Q K].
  rewrite negb_true_iff in B, Q, K. rewrite K, Q, B. simpl. rewrite IH by done. by rewrite <- app_assoc.
Qed.

Lemma tokenize_prefix seg current quote escaped tokens :
  exists k, tokenize seg current quote escaped tokens = tokens ++ k.
Proof.
  revert current quote escaped tokens. induction seg as [|ch rest IH]; intros current quote escaped tokens; simpl.
  { unfold flush. destruct current; [exists []; by rewrite app_nil_r|eauto]. }
  destruct escaped; [apply IH|]. destruct (_ && _); [apply IH|].
  destruct quote as [q|]; [destruct (ch_eqb ch q); apply IH|].
  destruct (is_quote ch); [apply IH|]. destruct (is_ws ch); [|apply IH].
  unfold flush. destruct current; [apply IH|].
  destruct (IH [] None false (tokens ++ [of_chars (a :: current)])) as [k E].
  eexists. rewrite E, <- app_assoc. reflexivity.
Qed.

Definition newline : string := String (ascii_of_nat 10) EmptyString.

(** a newline hides a command.  The shell starts a new command after a
    newline, but the check treats it as a space: behind [true] and a newline,
    any command without quotes, backslashes and separators is accepted, by every
    policy, be it [shutdown now] or the deletion of the install root. *)
Theorem newline_hides_command pcwd home cwd policy c :
  forallb plain_char (chars c) = true -> trim c = c -> c <> "" ->
  assertExecCommandAllowed pcwd home cwd policy ("true" +:+ newline +:+ c) = Ok tt.
Proof.
  intros P T N. rewrite assertExecCommandAllowed_eq. destruct (negb _); [done|].
  assert (splitShellSegments ("true" +:+ newline +:+ c) = ["true" +:+ newline +:+ c]) as ->.
  { unfold splitShellSegments. rewrite split_plain by (rewrite !chars_app; exact P).
    unfold push_trimmed. rewrite app_nil_l, of_chars_chars.
    rewrite (trim_wrap "true" newline c) by done. done. }
  cbn [for_each]. unfold assertSegmentAllowed.
  assert (exists k, tokenizeShell ("true" +:+ newline +:+ c) = "true" :: k) as [k ->].
  { unfold tokenizeShell. rewrite !chars_app. apply (tokenize_prefix (chars c) [] None false ["true"]). }
  assert (findCommandTokenIndex ("true" :: k) = Some 0) as -> by (by destruct k).
  reflexivity.
Qed.

Lemma newline_hides_command_witness :
  assertExecCommandAllowed "/work" "/home/u" "/work" sample_policy ("true" +:+ newline +:+ "rm -rf /opt/app") = Ok tt /\
  is_ok (assertExecCommandAllowed "/work" "/home/u" "/work" sample_policy "true; rm -rf /opt/app") = false.
Proof.
  split; [|vm_compute; reflexivity].
  apply (newline_hides_command "/work" "/home/u" "/work" sample_policy "rm -rf /opt/app");
    [vm_compute; reflexivity|vm_compute; reflexivity|discriminate].
Defined.

(** A protected directory whose name starts with two dots is not seen below its
    parent. *)
Example dotdot_name_not_seen :
  isPathInside "/work" "/opt" "/opt/..app" = false /\ isPathInside "/work" "/opt" "/opt/app" = true.
Proof. split; reflexivity. Qed.
