(* ===== verification/PlainCommands.v ===== *)
(** * Plain command lines and the guard of the exec tool

    What [src/src/agents/self-protection.ts] does with command lines of an
    explicit grammar: simple commands of plain words, joined by the separators of
    the shell.  The grammar is written down here, independently of the splitter
    and the tokenizer of the guard; the guard reads such a line as it was written,
    and refuses the destructive commands listed in [destructive] wherever they
    stand in it. *)

From stdpp Require Import base list sets strings.
From Stdlib Require Import Ascii Lia ZArith.
From S2P Require Import Prelude JsString JsMap NodePath SelfProtection.
#[local] Open Scope nat_scope.

(** ** The grammar *)

(** Letters, digits and the characters of paths, dots and options. *)
Definition word_char (c : ascii) : bool := is_alnum c || bool_decide (c ∈ ["/"; "."; "_"; "-"]%char).
Definition plain_word (w : string) : Prop := w <> "" /\ forallb word_char (chars w) = true.
Definition plain_words (ws : list string) : Prop := ws <> [] /\ Forall plain_word ws.

Inductive separator := Semicolon | AndThen | OrElse | Pipe | Background.
Definition separator_text (s : separator) : string :=
  match s with Semicolon => " ; " | AndThen => " && " | OrElse => " || " | Pipe => " | " | Background => " & " end.
(** A first command and the others, each after its separator. *)
Record line := mkLine { first : list string; others : list (separator * list string) }.
Definition commands (l : line) : list (list string) := first l :: map snd (others l).
Definition plain_line (l : line) : Prop := Forall plain_words (commands l).
Fixpoint others_text (l : list (separator * list string)) : string :=
  match l with [] => "" | (s, ws) :: l' => separator_text s +:+ join " " ws +:+ others_text l' end.
Definition line_text (l : line) : string := join " " (first l) +:+ others_text (others l).

(** ** What must not run *)

Section Destructive.
Variables (pcwd cwd : string) (policy : SelfProtectionPolicy).

(** The file a word names, from the directory of the command. *)
Definition named (w : string) : string := if isAbsolute w then resolve pcwd w else resolve2 pcwd cwd w.
(** It is a protected path or a directory above one. *)
Definition holds_protected (file : string) : Prop := exists p, p ∈ protectedPaths policy /\ covers pcwd file (pp_absolute p).
Definition option_word (w : string) : bool := startsWith "-" w.

Inductive destructive : list string -> Prop :=
| Power name args : name ∈ ["shutdown"; "reboot"; "poweroff"; "halt"] -> destructive (name :: args)
| PowerState name level args : name ∈ ["init"; "telinit"] -> level ∈ ["0"; "6"] -> destructive (name :: level :: args)
| PowerVerb name verb args : name ∈ ["systemctl"; "loginctl"] ->
    verb ∈ ["poweroff"; "reboot"; "halt"; "suspend"; "hibernate"; "kexec"] -> destructive (name :: verb :: args)
| Deletes name args w : name ∈ ["rm"; "rmdir"; "unlink"; "shred"; "wipefs"; "mkfs"] -> w ∈ args -> option_word w = false ->
    holds_protected (named w) -> destructive (name :: args)
| DeletesHere name args : name ∈ ["rm"; "rmdir"; "unlink"; "shred"; "wipefs"; "mkfs"] -> Forall (fun w => option_word w = true) args ->
    "--" ∉ args -> holds_protected (resolve pcwd cwd) -> destructive (name :: args)
| MovesAway l1 w l2 to l3 : option_word w = false -> option_word to = false -> holds_protected (named w) ->
    destructive ("mv" :: l1 ++ w :: l2 ++ to :: l3)
| FindDeletes w args : option_word w = false -> "-delete" ∈ args -> holds_protected (named w) -> destructive ("find" :: w :: args)
| Resets args : "--hard" ∈ args -> holds_protected (resolve pcwd cwd) -> destructive ("git" :: "reset" :: args)
| Cleans flag args : flag ∈ ["-f"; "--force"] -> flag ∈ args -> holds_protected (resolve pcwd cwd) -> destructive ("git" :: "clean" :: args).
End Destructive.

(** ** Reading a plain line *)

Lemma word_char_plain c : word_char c = true -> plain_char c = true /\ is_ws c = false /\ c <> "$"%char /\ c <> "`"%char /\ c <> "~"%char.
Proof. destruct c as [[] [] [] [] [] [] [] []]; vm_compute; intros E; try discriminate E; repeat split; discriminate. Qed.
Lemma plain_word_head w : plain_word w -> exists c k, chars w = c :: k /\ word_char c = true.
Proof.
  intros [N F]. destruct (chars w) as [|c k] eqn:E; [by apply chars_nil in E|]. exists c, k. cbn in F. by apply andb_true_iff in F as [F _].
Qed.
Lemma chars_join_cons w v ws : chars (join " " (w :: v :: ws)) = chars w ++ " "%char :: chars (join " " (v :: ws)).
Proof. unfold join. cbn [String.concat]. by rewrite !chars_app. Qed.
Lemma join_head ws : plain_words ws -> exists c k, chars (join " " ws) = c :: k /\ word_char c = true.
Proof.
  intros [N F]. destruct ws as [|w [|v ws]]; [done| |]; apply Forall_cons_1 in F as [P _]; destruct (plain_word_head w P) as (c & k & E & W).
  - by exists c, k.
  - exists c, (k ++ " "%char :: chars (join " " (v :: ws))). by rewrite chars_join_cons, E.
Qed.
Lemma join_last ws : plain_words ws -> forall c k, chars (join " " ws) = k ++ [c] -> is_ws c = false.
Proof.
  intros [N F]. induction ws as [|w [|v ws] IH]; [done| |]; apply Forall_cons_1 in F as [[Nw Pw] F]; intros c k E.
  - change (chars w = k ++ [c]) in E. rewrite E, forallb_app in Pw. apply andb_true_iff in Pw as [_ Pw]. cbn in Pw. rewrite andb_true_r in Pw.
    by apply word_char_plain in Pw as (_ & ? & _).
  - rewrite chars_join_cons in E. destruct (join_head (v :: ws)) as (d & m & X & _); [by split|].
    destruct (chars (join " " (v :: ws))) as [|z l _] eqn:Y using rev_ind; [done|].
    rewrite app_comm_cons, app_assoc in E. apply app_inj_tail in E as [_ <-]. by apply (IH ltac:(done) F z l).
Qed.
Lemma join_chars ws : Forall plain_word ws -> forallb plain_char (chars (join " " ws)) = true.
Proof.
  intros F. induction ws as [|w [|v ws] IH]; [done| |]; apply Forall_cons_1 in F as [[_ P] F].
  - change (forallb plain_char (chars w) = true). rewrite forallb_forall in *. intros c I. by apply word_char_plain, P.
  - rewrite chars_join_cons, forallb_app. cbn [forallb]. rewrite (IH F), !andb_true_r. rewrite forallb_forall in *.
    intros c I. by apply word_char_plain, P.
Qed.
(** A command between blanks is the command. *)
Lemma push_command pre ws post out :
  forallb is_ws pre = true -> forallb is_ws post = true -> plain_words ws ->
  push_trimmed (pre ++ chars (join " " ws) ++ post) out = out ++ [join " " ws].
Proof.
  intros A B P. unfold push_trimmed. assert (trim (of_chars (pre ++ chars (join " " ws) ++ post)) = join " " ws) as ->.
  { unfold trim. rewrite chars_of_chars. rewrite <- (of_chars_chars (join " " ws)) at 2. f_equal.
    destruct (join_head ws P) as (c & k & E & W). apply word_char_plain in W as (_ & W & _).
    induction post as [|x post IH] using rev_ind.
    - rewrite app_nil_r. assert (trimmed (chars (join " " ws))) as T.
      { split; [|by apply join_last]. intros c' k' E'. rewrite E in E'. by injection E' as <- _. }
      clear B. induction pre as [|y pre IH]; [by apply trim_list_id|]. cbn in A. apply andb_true_iff in A as [Y A].
      specialize (IH A). unfold trim_list in IH |- *. cbn [app drop_while]. rewrite Y. exact IH.
    - rewrite forallb_app in B. apply andb_true_iff in B as [B X]. cbn in X. rewrite andb_true_r in X.
      rewrite !app_assoc, trim_list_snoc_ws by done. rewrite <- app_assoc. by apply IH. }
  destruct (join_head ws P) as (c & k & E & _). assert (truthy (join " " ws) = true) as ->; [|done].
  apply truthy_true. intros X. rewrite X in E. done.
Qed.
Lemma split_over l r current out :
  forallb plain_char l = true -> split_segments (l ++ r) current None false out = split_segments r (current ++ l) None false out.
Proof.
  revert current. induction l as [|c l IH]; intros current H; cbn [app]; [by rewrite app_nil_r|].
  cbn in H. apply andb_true_iff in H as [P H]. unfold plain_char in P.
  apply andb_true_iff in P as [P B]. apply andb_true_iff in P as [Q K].
  rewrite negb_true_iff in B, Q, K. cbn [split_segments]. rewrite K, Q, B. cbn [andb]. rewrite IH by done. by rewrite <- app_assoc.
Qed.
Lemma split_separator s r current out :
  split_segments (chars (separator_text s) ++ r) current None false out =
  split_segments r [" "%char] None false (push_trimmed (current ++ [" "%char]) out).
Proof. by destruct s. Qed.
Lemma split_others l pre ws out :
  forallb is_ws pre = true -> plain_words ws -> Forall (fun p => plain_words p.2) l ->
  split_segments (chars (others_text l)) (pre ++ chars (join " " ws)) None false out =
  out ++ join " " ws :: map (fun p => join " " p.2) l.
Proof.
  revert pre ws out. induction l as [|[s vs] l IH]; intros pre ws out A P F; cbn [others_text].
  - cbn [chars split_segments map]. rewrite <- (app_nil_r (chars (join " " ws))). by apply push_command.
  - apply Forall_cons_1 in F as [Pv F]. cbn [snd] in Pv. rewrite !chars_app, split_separator, <- app_assoc, push_command by done.
    rewrite split_over by (by apply join_chars, Pv). rewrite (IH [" "%char]) by done. by rewrite <- app_assoc.
Qed.
Lemma split_line l : plain_line l -> splitShellSegments (line_text l) = map (join " ") (commands l).
Proof.
  intros F. unfold plain_line, commands in F. apply Forall_cons_1 in F as [P F]. rewrite List.Forall_map in F.
  unfold splitShellSegments, line_text. rewrite chars_app, split_over by (by apply join_chars, P).
  rewrite (split_others (others l) [] (first l) []); [|done|done|exact F]. unfold commands. cbn [app map]. by rewrite map_map.
Qed.

Lemma tokenize_over l r current toks :
  forallb word_char l = true -> tokenize (l ++ r) current None false toks = tokenize r (current ++ l) None false toks.
Proof.
  revert current. induction l as [|c l IH]; intros current H; cbn [app]; [by rewrite app_nil_r|].
  cbn in H. apply andb_true_iff in H as [P H]. apply word_char_plain in P as (P & W & _). unfold plain_char in P.
  apply andb_true_iff in P as [P _]. apply andb_true_iff in P as [Q K].
  rewrite negb_true_iff in Q, K. cbn [tokenize]. rewrite K, Q, W. cbn [andb]. rewrite IH by done. by rewrite <- app_assoc.
Qed.
Lemma flush_word w toks : w <> "" -> flush (chars w) toks = toks ++ [w].
Proof. intros N. unfold flush. destruct (chars w) as [|c k] eqn:E; [by apply chars_nil in E|]. by rewrite <- E, of_chars_chars. Qed.
Lemma tokenize_words ws toks : Forall plain_word ws -> tokenize (chars (join " " ws)) [] None false toks = toks ++ ws.
Proof.
  revert toks. induction ws as [|w [|v ws] IH]; intros toks F; [by rewrite app_nil_r| |]; apply Forall_cons_1 in F as [[N P] F].
  - unfold join. cbn [String.concat]. rewrite <- (app_nil_r (chars w)), tokenize_over by done. cbn [app tokenize]. by apply flush_word.
  - rewrite chars_join_cons, tokenize_over by done. cbn [app tokenize]. change (ch_eqb " " backslash) with false.
    change (is_quote " ") with false. change (is_ws " ") with true. cbn [andb]. rewrite flush_word by done.
    rewrite IH by done. by rewrite <- app_assoc.
Qed.
Lemma tokens_of ws : Forall plain_word ws -> tokenizeShell (join " " ws) = ws.
Proof. apply (tokenize_words ws []). Qed.

(** ** Plain words as the guard sees them *)

Lemma plain_trim w : plain_word w -> trim w = w.
Proof.
  intros [_ F]. apply trim_no_ws. rewrite forallb_forall in *. intros c I. apply negb_true_iff. by apply word_char_plain, F.
Qed.
Lemma plain_without (c : ascii) p w : plain_word w -> word_char c = false -> c ∈ chars p -> includes p w = false.
Proof.
  intros [_ F] N I. destruct (includes p w) eqn:E; [|done]. apply includes_spec in E as (a & b & ->).
  rewrite forallb_forall in F. rewrite <- N. symmetry. apply F. apply list_elem_of_In. rewrite !chars_app. set_solver.
Qed.
Lemma plain_expand home w : plain_word w -> expandHome home w = w.
Proof.
  intros P. assert (forall c, c ∈ chars w -> word_char c = true) as F.
  { destruct P as [_ F]. rewrite forallb_forall in F. intros c I. by apply F, list_elem_of_In. }
  unfold expandHome. rewrite (plain_trim w P). destruct (String.eqb_spec w "~") as [->|_].
  { specialize (F "~"%char). discriminate F. by left. }
  destruct (startsWith "~/" w) eqn:S; [|done]. apply startsWith_spec in S as [t ->]. specialize (F "~"%char). discriminate F. by left.
Qed.
Lemma plain_token pcwd home cwd w : plain_word w -> option_word w = false ->
  resolveTokenPath pcwd home w cwd = Some (mkTokenPath w (named pcwd cwd w) (containsWildcard w)).
Proof.
  intros P O. unfold resolveTokenPath. rewrite (plain_trim w P). rewrite (proj2 (truthy_true w) (proj1 P)). unfold option_word in O. rewrite O.
  cbn [negb orb]. rewrite (plain_without "$" "$(" w P), (plain_without "$" "${" w P), (plain_without "`" "`" w P); try done; try (by left).
  cbn [orb]. unfold resolvePathFromBase, named. by rewrite plain_expand.
Qed.
Lemma in_positionals b w args : w ∈ args -> option_word w = false -> w ∈ positionals b args.
Proof.
  revert b. induction args as [|a args IH]; intros b I O; [by apply not_elem_of_nil in I|]. cbn [positionals].
  apply elem_of_cons in I as [<-|I].
  - assert ((w =? "--")%string = false) as -> by (apply String.eqb_neq; intros ->; discriminate O).
    unfold option_word in O. rewrite O, !andb_false_r. apply list_elem_of_here.
  - destruct (negb b && _); [by apply IH|]. destruct (negb b && _); [by apply IH|]. right. by apply IH.
Qed.
Lemma no_positionals args : Forall (fun w => option_word w = true) args -> "--" ∉ args -> positionals false args = [].
Proof.
  intros F N. induction F as [|a args O _ IH]; [done|]. cbn [positionals]. rewrite not_elem_of_cons in N.
  destruct (String.eqb_spec a "--") as [->|_]; [by destruct N|]. unfold option_word in O. rewrite O. cbn [negb andb]. by apply IH, N.
Qed.
Lemma positionals_app b l r : exists b' k, positionals b (l ++ r) = k ++ positionals b' r.
Proof.
  revert b. induction l as [|a l IH]; intros b; [by exists b, []|]. cbn [app positionals].
  destruct (negb b && _); [apply IH|]. destruct (negb b && _); [apply IH|]. destruct (IH b) as (b' & k & ->). by exists b', (a :: k).
Qed.
Lemma positionals_word b w r : option_word w = false -> positionals b (w :: r) = w :: positionals b r.
Proof.
  intros O. cbn [positionals]. assert ((w =? "--")%string = false) as -> by (apply String.eqb_neq; intros ->; discriminate O).
  unfold option_word in O. by rewrite O, !andb_false_r.
Qed.
Lemma moved_word l1 w l2 to l3 : option_word w = false -> option_word to = false ->
  let ps := positionals false (l1 ++ w :: l2 ++ to :: l3) in (length ps <=? 1) = false /\ w ∈ removelast ps.
Proof.
  intros W T. cbv zeta. destruct (positionals_app false l1 (w :: l2 ++ to :: l3)) as (b1 & k1 & ->). rewrite positionals_word by done.
  destruct (positionals_app b1 l2 (to :: l3)) as (b2 & k2 & ->). rewrite positionals_word by done. split.
  - apply Nat.leb_gt. rewrite length_app. cbn [length]. rewrite length_app. cbn [length]. lia.
  - rewrite removelast_app by done. apply elem_of_app. right. cbn [removelast]. destruct (k2 ++ to :: _) eqn:E; [by destruct k2|]. by left.
Qed.

(** ** Destructive commands are refused *)

Ltac each_in I := repeat (apply elem_of_cons in I as [->|I]); [..|by apply not_elem_of_nil in I].
Definition guarded_names : list string :=
  ["shutdown"; "reboot"; "poweroff"; "halt"; "init"; "telinit"; "systemctl"; "loginctl"; "rm"; "rmdir"; "unlink"; "shred"; "wipefs"; "mkfs";
   "mv"; "find"; "git"].
Lemma command_at pre name args : pre ∈ [[]; ["sudo"]] -> name ∈ guarded_names ->
  findCommandTokenIndex (pre ++ name :: args) = Some (length pre) /\ toLowerCase (basename name) = name.
Proof. intros P N. each_in P; unfold guarded_names in N; each_in N; (split; [|by vm_compute]); vm_compute; reflexivity. Qed.

Section Refused.
Variables (pcwd home cwd : string) (policy : SelfProtectionPolicy).
Notation destructive := (destructive pcwd cwd policy).

Lemma destructive_name ws : destructive ws -> exists name args, ws = name :: args /\ name ∈ guarded_names.
Proof.
  intros D. destruct D; eexists _, _; (split; [reflexivity|]); unfold guarded_names;
    repeat match goal with I : _ ∈ _ |- _ => revert I end; set_solver.
Qed.

Lemma at_command seg pre name args :
  tokenizeShell seg = pre ++ name :: args -> toLowerCase (basename name) = name ->
  command_name seg (length pre) = name /\ arguments seg (length pre) = args /\
  tokenizeShell seg !! S (length pre) = head args.
Proof.
  intros T N. unfold command_name, arguments. rewrite T.
  assert (forall k, (pre ++ name :: args) !! (length pre + k) = (name :: args) !! k) as A by (intros k; by rewrite lookup_app_r by lia; f_equal; lia).
  split_and!.
  - pose proof (A 0) as A0. rewrite Nat.add_0_r in A0. rewrite A0. exact N.
  - replace (pre ++ name :: args) with ((pre ++ [name]) ++ args) by (by rewrite <- app_assoc). apply drop_app_length'. rewrite length_app. cbn. lia.
  - pose proof (A 1) as A1. rewrite Nat.add_1_r in A1. rewrite A1. by destruct args.
Qed.
Notation token w := (mkTokenPath w (named pcwd cwd w) (containsWildcard w)).
Lemma delete_target tokens idx w :
  w ∈ skipn (S idx) tokens -> option_word w = false -> plain_word w -> token w ∈ parseDeleteTargets pcwd home tokens idx cwd.
Proof.
  intros I O P. unfold parseDeleteTargets.
  assert (token w ∈ omap (fun t => resolveTokenPath pcwd home t cwd) (positionals false (skipn (S idx) tokens))) as T.
  { apply list_elem_of_omap. exists w. split; [by apply in_positionals|by apply plain_token]. }
  destruct (omap _ _); [by apply not_elem_of_nil in T|exact T].
Qed.
Lemma move_source tokens idx l1 w l2 to l3 :
  skipn (S idx) tokens = l1 ++ w :: l2 ++ to :: l3 -> option_word w = false -> option_word to = false -> plain_word w ->
  token w ∈ parseMoveSources pcwd home tokens idx cwd.
Proof.
  intros E O1 O2 P. unfold parseMoveSources. rewrite E. destruct (moved_word l1 w l2 to l3 O1 O2) as [L I]. rewrite L.
  apply list_elem_of_omap. exists w. split; [done|by apply plain_token].
Qed.
(** Nothing destructive is safe. *)
Lemma destructive_unsafe accepted seg pre ws :
  Forall plain_word ws -> destructive ws -> tokenizeShell seg = pre ++ ws ->
  segment_safe pcwd home accepted cwd policy seg (length pre) -> False.
Proof.
  intros P D T [Pw _ De Mv Fi Gi].
  assert (exists name args, ws = name :: args /\ name ∈ guarded_names) as (name & args & E & I) by (by apply destructive_name).
  assert (toLowerCase (basename name) = name) as N by (by apply (command_at [] name args); [left|]). rewrite E in T.
  destruct (at_command seg pre name args T N) as (C & A & H). unfold subcommand in Pw, Gi. rewrite C, H in *. rewrite A in Pw.
  assert (forall t, holds_protected pcwd policy (tp_absolute t) -> forall l, t ∈ l -> spares pcwd l policy -> False) as Hp.
  { intros t (p & Ip & Co) l It Sp. by destruct (Sp t p It Ip). }
  assert (holds_protected pcwd policy (resolve pcwd cwd) -> (forall p, p ∈ protectedPaths policy -> ~ covers pcwd (resolve pcwd cwd) (pp_absolute p)) -> False) as Hh.
  { intros (p & Ip & Co) X. by destruct (X p Ip). }
  assert (skipn (S (length pre)) (tokenizeShell seg) = args) as Ar by exact A.
  assert (forall x, x ∈ args -> x ∈ tokenizeShell seg) as In1 by (rewrite T; set_solver).
  destruct D as [n l In|n level l In Le|n verb l In Ve|n l w In Iw O Pr|n l In Op No Pr|l1 w l2 to l3 O1 O2 Pr|w l O Iw Pr|l Iw Pr|flag l Fl Iw Pr];
    injection E as <- <-; apply Forall_cons_1 in P as [_ P].
  - each_in In; discriminate Pw.
  - each_in In; each_in Le; discriminate Pw.
  - each_in In; each_in Ve; discriminate Pw.
  - apply (Hp (token w) Pr _ (delete_target _ _ w ltac:(by rewrite Ar) O ltac:(rewrite Forall_forall in P; by apply P)) (De In)).
  - assert (mkTokenPath "." (resolve pcwd cwd) false ∈ parseDeleteTargets pcwd home (tokenizeShell seg) (length pre) cwd) as Tg.
    { unfold parseDeleteTargets. rewrite Ar, no_positionals by done. by left. }
    exact (Hp (mkTokenPath "." (resolve pcwd cwd) false) Pr _ Tg (De In)).
  - assert (plain_word w) as Pl by (rewrite Forall_forall in P; apply P; set_solver).
    exact (Hp (token w) Pr _ (move_source _ _ l1 w l2 to l3 Ar O1 O2 Pl) (Mv eq_refl)).
  - apply Forall_cons_1 in P as [Pl _]. assert (find_root seg (length pre) = w) as Rt.
    { unfold find_root. rewrite H. cbn [head]. rewrite (proj2 (truthy_true w) (proj1 Pl)). unfold option_word in O. by rewrite O. }
    rewrite Rt, (plain_token pcwd home cwd w Pl O) in Fi. eapply (Hp (token w) Pr); [|apply Fi; [done|]]; [by left|].
    apply existsb_exists. exists "-delete". split; [apply list_elem_of_In, In1; by right|done].
  - apply (Hh Pr), Gi; [done|]. left. split; [done|]. apply existsb_exists. exists "--hard". split; [apply list_elem_of_In, In1; by right|done].
  - apply (Hh Pr), Gi; [done|]. right. split; [done|]. apply existsb_exists. exists flag. split; [apply list_elem_of_In, In1; by right|].
    each_in Fl; done.
Qed.

End Refused.

(** A line that builds, then deletes the directory above the installation. *)
Definition sample_line : line := mkLine ["make"; "-j4"] [(AndThen, ["sudo"; "rm"; "-rf"; "../opt"]); (Semicolon, ["echo"; "done"])].
Lemma sample_line_text : line_text sample_line = "make -j4 && sudo rm -rf ../opt ; echo done".
Proof. reflexivity. Qed.
