(* ===== verification/ValueText.v ===== *)
(** * A text encoding of values

    A concrete, prefix-free encoding of JavaScript values as strings with its
    decoder.  It instantiates the encodings that components take as parameters
    (the sealed payload of the credential vault) in the witnesses. *)

From stdpp Require Import base list strings.
From Stdlib Require Import ZArith Ascii Lia.
From S2P Require Import Prelude JsString JsMap JsValue.

Fixpoint enc_pos (p : positive) : list ascii :=
  match p with
  | xH => ["1"%char]
  | xO p => "0"%char :: enc_pos p
  | xI p => "2"%char :: enc_pos p
  end.
Fixpoint dec_pos (l : list ascii) : option (positive * list ascii) :=
  match l with
  | "1"%char :: l' => Some (xH, l')
  | "0"%char :: l' => option_map (fun r => (xO r.1, r.2)) (dec_pos l')
  | "2"%char :: l' => option_map (fun r => (xI r.1, r.2)) (dec_pos l')
  | _ => None
  end.
Definition enc_Z (z : Z) : list ascii :=
  match z with
  | Z0 => ["z"%char]
  | Zpos p => "+"%char :: enc_pos p
  | Zneg p => "-"%char :: enc_pos p
  end.
Definition dec_Z (l : list ascii) : option (Z * list ascii) :=
  match l with
  | "z"%char :: l' => Some (0%Z, l')
  | "+"%char :: l' => option_map (fun r => (Zpos r.1, r.2)) (dec_pos l')
  | "-"%char :: l' => option_map (fun r => (Zneg r.1, r.2)) (dec_pos l')
  | _ => None
  end.

Fixpoint enc_chars (s : list ascii) : list ascii :=
  match s with [] => ["."%char] | c :: s' => "c"%char :: c :: enc_chars s' end.
Fixpoint dec_chars (l : list ascii) : option (list ascii * list ascii) :=
  match l with
  | "."%char :: l' => Some ([], l')
  | "c"%char :: c :: l' => option_map (fun r => (c :: r.1, r.2)) (dec_chars l')
  | _ => None
  end.

Definition enc_num (n : num) : list ascii :=
  match n with
  | NNaN => ["N"%char]
  | NInf b => [if b then "J" else "I"]%char
  | NFin m k => "#"%char :: enc_Z m ++ enc_Z (Z.of_nat k)
  end.
Definition dec_num (l : list ascii) : option (num * list ascii) :=
  match l with
  | "N"%char :: l' => Some (NNaN, l')
  | "I"%char :: l' => Some (NInf false, l')
  | "J"%char :: l' => Some (NInf true, l')
  | "#"%char :: l' =>
      match dec_Z l' with
      | Some (m, l1) => option_map (fun r => (NFin m (Z.to_nat r.1), r.2)) (dec_Z l1)
      | None => None
      end
  | _ => None
  end.

Fixpoint enc (v : value) : list ascii :=
  match v with
  | VUndef => ["u"%char]
  | VNull => ["n"%char]
  | VBool b => [if b then "t" else "f"]%char
  | VNum n => "d"%char :: enc_num n
  | VStr s => "s"%char :: enc_chars (chars s)
  | VArr l => "["%char :: flat_map (fun w => ","%char :: enc w) l ++ ["]"%char]
  | VObj ps =>
      "{"%char :: flat_map (fun p => ","%char :: enc_chars (chars (fst p)) ++ enc (snd p)) ps ++ ["}"%char]
  end.

Fixpoint dec (n : nat) (l : list ascii) {struct n} : option (value * list ascii) :=
  match n with
  | O => None
  | S n' =>
      match l with
      | "u"%char :: l' => Some (VUndef, l')
      | "n"%char :: l' => Some (VNull, l')
      | "t"%char :: l' => Some (VBool true, l')
      | "f"%char :: l' => Some (VBool false, l')
      | "d"%char :: l' => option_map (fun r => (VNum r.1, r.2)) (dec_num l')
      | "s"%char :: l' => option_map (fun r => (VStr (of_chars r.1), r.2)) (dec_chars l')
      | "["%char :: l' => option_map (fun r => (VArr r.1, r.2)) (dec_items n' l')
      | "{"%char :: l' => option_map (fun r => (VObj r.1, r.2)) (dec_props n' l')
      | _ => None
      end
  end
with dec_items (n : nat) (l : list ascii) {struct n} : option (list value * list ascii) :=
  match n with
  | O => None
  | S n' =>
      match l with
      | "]"%char :: l' => Some ([], l')
      | ","%char :: l' =>
          match dec n' l' with
          | Some (v, l1) => option_map (fun r => (v :: r.1, r.2)) (dec_items n' l1)
          | None => None
          end
      | _ => None
      end
  end
with dec_props (n : nat) (l : list ascii) {struct n} : option (list (string * value) * list ascii) :=
  match n with
  | O => None
  | S n' =>
      match l with
      | "}"%char :: l' => Some ([], l')
      | ","%char :: l' =>
          match dec_chars l' with
          | Some (k, l1) =>
              match dec n' l1 with
              | Some (v, l2) => option_map (fun r => ((of_chars k, v) :: r.1, r.2)) (dec_props n' l2)
              | None => None
              end
          | None => None
          end
      | _ => None
      end
  end.

Definition encode (v : value) : string := of_chars (enc v).
Definition decode (s : string) : option value :=
  match dec (slen s) (chars s) with Some (v, []) => Some v | _ => None end.

(** ** Round trip *)

Lemma dec_enc_pos p rest : dec_pos (enc_pos p ++ rest) = Some (p, rest).
Proof. induction p as [p IH|p IH|]; simpl; rewrite ?IH; done. Qed.
Lemma dec_enc_Z z rest : dec_Z (enc_Z z ++ rest) = Some (z, rest).
Proof. destruct z; simpl; rewrite ?dec_enc_pos; done. Qed.
Lemma dec_enc_chars s rest : dec_chars (enc_chars s ++ rest) = Some (s, rest).
Proof. induction s as [|c s IH]; simpl; rewrite ?IH; done. Qed.
Lemma dec_enc_num n rest : dec_num (enc_num n ++ rest) = Some (n, rest).
Proof.
  destruct n as [|[]|m k]; simpl; try done. by rewrite <- app_assoc, !dec_enc_Z; simpl; rewrite Nat2Z.id.
Qed.

Definition decodes (v : value) : Prop :=
  forall n rest, length (enc v) <= n -> dec n (enc v ++ rest) = Some (v, rest).

Lemma dec_enc_items l n rest :
  Forall decodes l -> length (flat_map (fun w => ","%char :: enc w) l) < n ->
  dec_items n (flat_map (fun w => ","%char :: enc w) l ++ "]"%char :: rest) = Some (l, rest).
Proof.
  intros F. revert n. induction F as [|v l Hv F IH]; intros n L; (destruct n as [|n]; [lia|]); [done|].
  cbn [flat_map app length] in L. rewrite length_app in L. cbn [flat_map app dec_items].
  rewrite <- app_assoc, Hv by lia. by rewrite IH by lia.
Qed.
Lemma dec_enc_props ps n rest :
  Forall (fun p => decodes (snd p)) ps ->
  length (flat_map (fun p => ","%char :: enc_chars (chars (fst p)) ++ enc (snd p)) ps) < n ->
  dec_props n (flat_map (fun p => ","%char :: enc_chars (chars (fst p)) ++ enc (snd p)) ps ++ "}"%char :: rest) =
  Some (ps, rest).
Proof.
  intros F. revert n. induction F as [|[k v] ps Hv F IH]; intros n L; (destruct n as [|n]; [lia|]); [done|].
  cbn [flat_map app length fst snd] in *. rewrite !length_app in L. cbn [dec_props].
  rewrite <- !app_assoc, dec_enc_chars, Hv by lia. rewrite IH by lia. simpl. by rewrite of_chars_chars.
Qed.

Lemma dec_enc v : decodes v.
Proof.
  induction v using value_rect'; intros k rest L; (destruct k as [|k]; [simpl in L; lia|]); try done.
  - by destruct b.
  - simpl. by rewrite dec_enc_num.
  - simpl. by rewrite dec_enc_chars; simpl; rewrite of_chars_chars.
  - cbn [enc app length] in *. rewrite length_app in L. simpl in L. cbn [dec].
    rewrite <- app_assoc. cbn [app]. by rewrite dec_enc_items by (done || lia).
  - cbn [enc app length] in *. rewrite length_app in L. simpl in L. cbn [dec].
    rewrite <- app_assoc. cbn [app]. by rewrite dec_enc_props by (done || lia).
Qed.

Lemma decode_encode v : decode (encode v) = Some v.
Proof.
  unfold decode, encode. rewrite slen_of_chars, chars_of_chars, <- (app_nil_r (enc v)).
  by rewrite dec_enc by (by rewrite app_nil_r).
Qed.
Lemma encode_nonempty v : encode v <> "".
Proof. destruct v as [| |[]| | | |]; discriminate. Qed.
