(* ===== verification/Vault.v ===== *)
(** * Credential vault

    [src/src/security/credentials-vault.ts]: login records, encrypted per workspace
    with one key per user.

    Two things the file takes from Node are parameters: [url_hostname] is
    [new URL(s).hostname] ([None] when the constructor throws), and the class
    [Cipher] is AES-256-GCM with the JSON, UTF-8 and base64 encodings around it.
    Directory creation and [chmod] are left out.  The record table is an object
    literal, so a lookup also finds what [Object.prototype] defines
    ([Inherited]); an assignment to ["__proto__"] adds no property. *)

From stdpp Require Import base list sets strings.
From Stdlib Require Import Ascii Lia ZArith Sorting.
From S2P Require Import Prelude JsString JsMap JsValue JsRegex NodePath ValueText.

(** ** Data *)

Inductive CredentialAuthMode := password | password_with_mfa | passwordless_mfa_code.
Inductive CredentialMfaStrategy := user_prompt | email_or_user.
#[export] Instance auth_eq : EqDecision CredentialAuthMode.
Proof. solve_decision. Defined.
#[export] Instance mfa_eq : EqDecision CredentialMfaStrategy.
Proof. solve_decision. Defined.

Definition auth_string (m : CredentialAuthMode) : string :=
  match m with
  | password => "password"
  | password_with_mfa => "password_with_mfa"
  | passwordless_mfa_code => "passwordless_mfa_code"
  end.
Definition mfa_string (m : CredentialMfaStrategy) : string :=
  match m with user_prompt => "user_prompt" | email_or_user => "email_or_user" end.

Record StoredCredentialRecord := mkRecord {
  service : string;
  identifier : string;
  secret : string;
  authMode : CredentialAuthMode;
  websiteUrl : option string;
  mfaStrategy : option CredentialMfaStrategy;
  mfaSourceService : option string;
  mfaCode : option string;
  createdAt : Z;
  updatedAt : Z;
}.

Definition records := list (string * StoredCredentialRecord).

Definition VAULT_VERSION : Z := 1.

(** The cipher with its encodings: [seal key iv v] are the tag and the
    ciphertext of [JSON.stringify(v)]. *)
Class Cipher := {
  seal : string -> string -> value -> string * string;
  unseal : string -> string -> string -> string -> option value;
  unseal_seal : forall key iv v tag ct, seal key iv v = (tag, ct) -> unseal key iv tag ct = Some v;
  seal_nonempty : forall key iv v tag ct, seal key iv v = (tag, ct) -> tag <> "" /\ ct <> "";
}.

(** The vault file of a workspace and the key file. *)
Inductive vault_file := NoFile | EmptyFile | NotJson | Json (v : value).
Record world := mkWorld {
  vaults : list (string * vault_file);
  key_file : option string;             (* [None]: missing, or not 32 bytes *)
}.
Definition file_of (workspaceDir : string) (w : world) : vault_file :=
  default NoFile (mget workspaceDir (vaults w)).

(** ** Services *)

Definition service_char (c : ascii) : bool :=
  is_lower c || is_digit c || (code c =? 46)%nat || (code c =? 95)%nat || (code c =? 45)%nat.
Definition is_dash (c : ascii) : bool := (code c =? 45)%nat.
(** [s.replace(/^-+|-+$/g, "")] *)
Definition strip_dashes (s : string) : string :=
  of_chars (rev (drop_while is_dash (rev (drop_while is_dash (chars s))))).

Section Vault.
Context (url_hostname : string -> option string).

Definition normalizeSetupService (input : string) : option string :=
  let v := toLowerCase (trim input) in
  if negb (truthy v) then None
  else if (v =? "email")%string || (v =? "mail")%string then Some "email"
  else if (v =? "x")%string || (v =? "x.com")%string || (v =? "twitter")%string || (v =? "twitter.com")%string
  then Some "x.com"
  else
    let candidate := if includes "://" v
                     then match url_hostname v with Some h => toLowerCase h | None => v end
                     else v in
    let candidate := if startsWith "www." candidate then slice_from 4 candidate else candidate in
    let sanitized := strip_dashes (replace_runs (fun c => negb (service_char c)) ["-"%char] candidate) in
    if negb (truthy sanitized) || (80 <? slen sanitized)%nat then None else Some sanitized.

Definition inferMailboxServiceCandidatesFromIdentifier (ident : string) : list string :=
  let v := toLowerCase (trim ident) in
  match lastIndexOf_char "@" v with
  | None => []
  | Some at_ =>
      if (at_ =? slen v - 1)%nat then []
      else
        let domain := trim (slice_from (S at_) v) in
        if negb (truthy domain) then []
        else if bool_decide (domain ∈ ["gmail.com"; "googlemail.com"]) then ["mail.google.com"; "email"]
        else if bool_decide (domain ∈ ["outlook.com"; "hotmail.com"; "live.com"; "msn.com"])
        then ["outlook.office.com"; "outlook.live.com"; "email"]
        else if (domain =? "yahoo.com")%string || endsWith ".yahoo.com" domain then ["mail.yahoo.com"; "email"]
        else if bool_decide (domain ∈ ["icloud.com"; "me.com"; "mac.com"]) then ["icloud.com"; "email"]
        else ["email"]
  end.

(** The mailboxes have plain names, none of [Object.prototype]. *)
Definition inferMfaSourceServiceFromIdentifier (ident : string) (rs : records) : option string :=
  let target := toLowerCase (trim ident) in
  if negb (truthy target) then None
  else
    List.find (fun s => match mget s rs with
                        | Some mailbox => (toLowerCase (trim (identifier mailbox)) =? target)%string
                        | None => false
                        end)
      (omap normalizeSetupService (inferMailboxServiceCandidatesFromIdentifier ident)).

(** ** Reading the store *)

Definition parse_auth (s : string) : CredentialAuthMode :=
  let v := toLowerCase (trim s) in
  if (v =? "passwordless_mfa_code")%string || (v =? "passwordless")%string then passwordless_mfa_code
  else if (v =? "password_with_mfa")%string || (v =? "password+mfa")%string || (v =? "mfa_password")%string
  then password_with_mfa else password.
Definition parse_mfa (s : string) : CredentialMfaStrategy :=
  if (toLowerCase (trim s) =? "email_or_user")%string then email_or_user else user_prompt.

(** [String(entry[k] ?? dflt)] *)
Definition field (k : string) (entry : value) (dflt : string) : string :=
  to_string (nullish (get_prop k entry) (VStr dflt)).
Definition stamp (now : Z) (v : value) : Z :=
  match to_number (nullish v (VNum (NInt now))) with
  | NFin m k => if (0 <? m)%Z then (m / pow10 k)%Z else now
  | _ => now
  end.
Definition nonempty (s : string) : option string := if truthy s then Some s else None.

Definition normalizeEntry (now : Z) (serviceKey : string) (entry : value) : option StoredCredentialRecord :=
  if negb (is_object entry) then None
  else
    let svc := normalizeSetupService (field "service" entry serviceKey) in
    let ident := trim (field "identifier" entry "") in
    let sec := field "secret" entry "" in
    let mode := parse_auth (field "authMode" entry "") in
    let hasSecret := (0 <? slen (trim sec))%nat in
    match svc with
    | None => None
    | Some svc =>
        if negb (truthy ident) || (negb hasSecret && bool_decide (mode = password)) then None
        else Some (mkRecord svc ident sec mode
          (nonempty (trim (field "websiteUrl" entry "")))
          (if bool_decide (mode = password) then None else Some (parse_mfa (field "mfaStrategy" entry "")))
          (if bool_decide (mode = password) then None
           else normalizeSetupService (field "mfaSourceService" entry ""))
          (match get_prop "mfaCode" entry with VStr c => nonempty (trim c) | _ => None end)
          (stamp now (get_prop "createdAt" entry)) (stamp now (get_prop "updatedAt" entry)))
    end.

(** [records[service] = ...] *)
Definition set_record (svc : string) (r : StoredCredentialRecord) (rs : records) : records :=
  if (svc =? "__proto__")%string then rs else mset svc r rs.

Fixpoint normalizeRecords (now : Z) (entries : list (string * value)) (acc : records) : records :=
  match entries with
  | [] => acc
  | (k, e) :: rest =>
      normalizeRecords now rest
        (match normalizeEntry now k e with Some r => set_record (service r) r acc | None => acc end)
  end.

Definition normalizeStore (now : Z) (raw : value) : records :=
  if negb (is_object raw) then []
  else match get_prop "records" raw with
       | VObj ps => normalizeRecords now ps []
       | VArr l => normalizeRecords now (imap (fun i v => (num_to_string (NInt (Z.of_nat i)), v)) l) []
       | _ => []
       end.

(** [JSON.stringify(store)] as the value it parses to. *)
Definition opt_field (k : string) (o : option string) : list (string * value) :=
  match o with Some s => [(k, VStr s)] | None => [] end.
Definition record_value (r : StoredCredentialRecord) : value :=
  VObj ([("service", VStr (service r)); ("identifier", VStr (identifier r)); ("secret", VStr (secret r));
         ("authMode", VStr (auth_string (authMode r)))] ++
        opt_field "websiteUrl" (websiteUrl r) ++
        opt_field "mfaStrategy" (option_map mfa_string (mfaStrategy r)) ++
        opt_field "mfaSourceService" (mfaSourceService r) ++
        opt_field "mfaCode" (mfaCode r) ++
        [("createdAt", VNum (NInt (createdAt r))); ("updatedAt", VNum (NInt (updatedAt r)))]).
Definition store_value (rs : records) : value :=
  VObj [("version", VNum (NInt VAULT_VERSION));
        ("records", VObj (map (fun p => (p.1, record_value p.2)) rs))].

(** ** The encrypted file *)

Context `{Cipher}.

Record EncryptedEnvelope := mkEnvelope { iv : string; tag : string; ciphertext : string }.

Definition toEnvelope (raw : value) : option EncryptedEnvelope :=
  if negb (is_object raw) then None
  else if negb (is_str "aes-256-gcm" (get_prop "algorithm" raw)) then None
  else
    let version := to_number (nullish (get_prop "version" raw) (VNum (NInt 0))) in
    let i := field "iv" raw "" in
    let t := field "tag" raw "" in
    let c := field "ciphertext" raw "" in
    if negb (negb (num_lt version (NInt VAULT_VERSION)) && negb (num_lt (NInt VAULT_VERSION) version) && isFinite version)
       || negb (truthy i) || negb (truthy t) || negb (truthy c)
    then None else Some (mkEnvelope i t c).

Definition encryptStore (rs : records) (key iv : string) : EncryptedEnvelope :=
  let '(t, c) := seal key iv (store_value rs) in mkEnvelope iv t c.
Definition decryptStore (now : Z) (e : EncryptedEnvelope) (key : string) : option records :=
  match unseal key (iv e) (tag e) (ciphertext e) with
  | Some v => Some (normalizeStore now v)
  | None => None
  end.
Definition envelope_value (e : EncryptedEnvelope) : value :=
  VObj [("version", VNum (NInt VAULT_VERSION)); ("algorithm", VStr "aes-256-gcm");
        ("iv", VStr (iv e)); ("tag", VStr (tag e)); ("ciphertext", VStr (ciphertext e))].

(** [fresh] are the 32 random bytes, should a key be needed.  The message of the
    source goes on with the key's path and the error of the file system. *)
Definition readOrCreateVaultKey (allowCreate : bool) (fresh : string) (w : world) : result (world * string) :=
  match key_file w with
  | Some key => Ok (w, key)
  | None => if negb allowCreate then Throw "Credential key is missing or invalid"
            else Ok (mkWorld (vaults w) (Some fresh), fresh)
  end.

Definition readVaultStore (dir : string) (now : Z) (fresh : string) (w : world)
  : result (world * string * records) :=
  let payload := file_of dir w in
  let? p := readOrCreateVaultKey (match payload with NoFile => true | _ => false end) fresh w in
  let '(w1, key) := p in
  match payload with
  | NoFile | EmptyFile => Ok (w1, key, [])
  | NotJson => Throw "Credential vault file is invalid JSON."
  | Json parsed =>
      match toEnvelope parsed with
      | None => Throw "Credential vault file format is invalid."
      | Some e => match decryptStore now e key with
                  | Some rs => Ok (w1, key, rs)
                  | None => Throw "Could not decrypt credential vault. Verify key integrity."
                  end
      end
  end.

(** [iv] are the 12 random bytes, in base64. *)
Definition writeVaultStore (dir key iv : string) (rs : records) (w : world) : world :=
  mkWorld (mset dir (Json (envelope_value (encryptStore rs key iv))) (vaults w)) (key_file w).

(** ** Operations *)

(** The random bytes and the clock of one operation. *)
Record entropy := mkEntropy { e_now : Z; e_key : string; e_iv : string }.

Record CredentialInput := mkInput {
  in_service : string;
  in_identifier : string;
  in_secret : string;
  in_authMode : option CredentialAuthMode;
  in_websiteUrl : option string;
  in_mfaStrategy : option CredentialMfaStrategy;
  in_mfaSourceService : option string;
  in_mfaCode : option string;
}.

(** [a || b] on optional strings that are never empty. *)
Definition or_else {A} (a b : option A) : option A := match a with Some _ => a | None => b end.

Definition setCredential (dir : string) (p : CredentialInput) (en : entropy) (w : world)
  : result (world * (string * bool)) :=
  match normalizeSetupService (in_service p) with
  | None => Throw "Unsupported setup service."
  | Some svc =>
      let ident := trim (in_identifier p) in
      let mode := default password (in_authMode p) in
      let url := nonempty (trim (default "" (in_websiteUrl p))) in
      let source := normalizeSetupService (default "" (in_mfaSourceService p)) in
      let sec := match mode with
                 | passwordless_mfa_code =>
                     if (0 <? slen (trim (in_secret p)))%nat then in_secret p else "__PASSWORDLESS_MFA__"
                 | _ => in_secret p
                 end in
      let mcode := nonempty (trim (default "" (in_mfaCode p))) in
      if negb (truthy ident) then Throw "Identifier is required."
      else if negb (bool_decide (mode = passwordless_mfa_code)) && negb (truthy sec) then Throw "Secret is required."
      else
        let? st := readVaultStore dir (e_now en) (e_key en) w in
        let '(w1, key, rs) := st in
        let existing := mget svc rs in
        let known := match obj_lookup svc rs with Missing => false | _ => true end in
        let url' := or_else url (existing ≫= (fun r => nonempty (trim (default "" (websiteUrl r))))) in
        let source' := or_else source
          (or_else (existing ≫= (fun r => normalizeSetupService (default "" (mfaSourceService r))))
             (inferMfaSourceServiceFromIdentifier ident rs)) in
        let strategy :=
          if bool_decide (mode = password) then user_prompt
          else if bool_decide (in_mfaStrategy p = Some email_or_user) then email_or_user
          else match source' with
               | Some _ => email_or_user
               | None => if bool_decide ((existing ≫= mfaStrategy) = Some email_or_user)
                         then email_or_user else user_prompt
               end in
        let r := mkRecord svc ident sec mode url'
                   (if bool_decide (mode = password) then None else Some strategy)
                   (if bool_decide (mode = password) then None else source')
                   mcode (match existing with Some e => createdAt e | None => e_now en end) (e_now en) in
        Ok (writeVaultStore dir key (e_iv en) (set_record svc r rs) w1, (svc, negb known))
  end.

(** What [getCredential] returns: a record found on the prototype has none of the
    fields, and is not [null]. *)
Inductive found := NoRecord | Found (r : StoredCredentialRecord) | Hollow.

Definition getCredential (dir svc0 : string) (en : entropy) (w : world) : result (world * found) :=
  match normalizeSetupService svc0 with
  | None => Ok (w, NoRecord)
  | Some svc =>
      let? st := readVaultStore dir (e_now en) (e_key en) w in
      let '(w1, _, rs) := st in
      Ok (w1, match obj_lookup svc rs with Own r => Found r | Inherited => Hollow | Missing => NoRecord end)
  end.

Definition deleteCredential (dir svc0 : string) (en : entropy) (w : world) : result (world * bool) :=
  match normalizeSetupService svc0 with
  | None => Ok (w, false)
  | Some svc =>
      let? st := readVaultStore dir (e_now en) (e_key en) w in
      let '(w1, key, rs) := st in
      match obj_lookup svc rs with
      | Missing => Ok (w1, false)
      | _ => Ok (writeVaultStore dir key (e_iv en) (mdelete svc rs) w1, true)
      end
  end.

(** [sort()] by character codes. *)
Fixpoint insert_string (s : string) (l : list string) : list string :=
  match l with
  | [] => [s]
  | t :: l' => if String.ltb t s then t :: insert_string s l' else s :: l
  end.
Definition sort_strings (l : list string) : list string := fold_right insert_string [] l.

Definition listConfiguredServices (dir : string) (en : entropy) (w : world) : result (world * list string) :=
  let? st := readVaultStore dir (e_now en) (e_key en) w in
  let '(w1, _, rs) := st in
  Ok (w1, sort_strings (omap normalizeSetupService (keys rs))).
End Vault.

(** ** Sensitive paths *)

Definition isSensitivePath (pcwd targetPath workspaceDir : string) : bool :=
  let resolved := resolve pcwd targetPath in
  let workspaceRoot := resolve pcwd workspaceDir in
  let rel := relative pcwd workspaceRoot resolved in
  if truthy rel && startsWith ".." rel then false
  else if includes "/.t560-secure/" resolved || endsWith "/.t560-secure" resolved then true
  else
    let baseName := toLowerCase (basename resolved) in
    if (baseName =? ".env")%string || startsWith ".env." baseName then true
    else (baseName =? "credentials.v1.enc")%string.

(** A file named [.env] that no word character precedes, followed by a dot, a
    space, a quote, a slash or the end; and the three file names. *)
Definition env_pattern : re :=
  rseqs [RAlt RBol (RChr (fun c => negb (is_word c))); rlit_i ".env";
         RAlt (RChr (fun c => is_ws c || bool_decide (code c ∈ [46; 34; 39; 96; 47]))) REol].
Definition secret_patterns : list re :=
  [RSeq (rlit_i ".t560-secure") RWordB; RSeq (rlit_i "credentials.v1.enc") RWordB; RSeq (rlit_i "vault.key") RWordB].

Definition commandTouchesSensitivePath (command : string) : bool :=
  if negb (truthy (trim command)) then false
  else re_test env_pattern command || existsb (fun r => re_test r command) secret_patterns.

(** ** Service names *)

Section Facts.
Context (url_hostname : string -> option string).
Notation normalize := (normalizeSetupService url_hostname).

(** A name that normalises to itself. *)
Definition stable (s : string) : Prop := normalize s = Some s.

Definition aliases : list string := ["mail"; "x"; "twitter"; "twitter.com"].

(** A name made of service characters, not starting or ending in a dash. *)
Record slug (s : string) : Prop := {
  sl_chars : forallb service_char (chars s) = true;
  sl_nonempty : s <> "";
  sl_length : slen s <= 80;
  sl_dashes : strip_dashes s = s;
}.

Lemma service_char_plain c : service_char c = true -> is_ws c = false /\ lower_char c = c /\ c <> ":"%char.
Proof.
  intros H. assert (implb (service_char c) (negb (is_ws c) && bool_decide (lower_char c = c) && negb (bool_decide (c = ":"%char))) = true) as K.
  { clear H. revert c. apply ascii_forall. vm_compute. reflexivity. }
  rewrite H in K. simpl in K. bool_prop.
  repeat match goal with H : bool_decide _ = _ |- _ => first [apply bool_decide_eq_true in H|apply bool_decide_eq_false in H] end.
  done.
Qed.

Lemma slug_lower_trim s : forallb service_char (chars s) = true -> toLowerCase (trim s) = s.
Proof.
  intros H. rewrite forallb_forall in H. rewrite trim_no_ws.
  - unfold toLowerCase. rewrite <- (of_chars_chars s) at 2. f_equal.
    induction (chars s) as [|c l IH]; simpl in *; [done|]. rewrite IH by auto.
    by rewrite (proj1 (proj2 (service_char_plain c (H c (or_introl eq_refl))))).
  - apply forallb_forall. intros c Hc. by rewrite (proj1 (service_char_plain c (H c Hc))).
Qed.

Lemma slug_no_scheme s : forallb service_char (chars s) = true -> includes "://" s = false.
Proof.
  intros H. destruct (includes "://" s) eqn:E; [|done]. apply includes_spec in E as (a & b & ->).
  rewrite !chars_app, !forallb_app in H. bool_prop. simpl in *. discriminate.
Qed.

Lemma replace_runs_id inside r s :
  forallb (fun c => negb (inside c)) (chars s) = true -> replace_runs inside r s = s.
Proof.
  intros H. unfold replace_runs. rewrite <- (of_chars_chars s) at 2. f_equal.
  induction (chars s) as [|c l IH]; simpl in *; [done|]. apply andb_true_iff in H as [K H].
  apply negb_true_iff in K. rewrite K. by rewrite IH.
Qed.

Lemma slug_outside s :
  forallb service_char (chars s) = true -> forallb (fun c => negb (negb (service_char c))) (chars s) = true.
Proof.
  rewrite !forallb_forall. intros H c Hc. by rewrite (H c Hc).
Qed.

(** Normalising a slug only moves the aliases and strips [www.]. *)
Lemma slug_stable s : slug s -> s ∉ aliases -> startsWith "www." s = false -> stable s.
Proof.
  intros [C N L D] A W. unfold stable, normalizeSetupService. rewrite slug_lower_trim by done.
  apply truthy_true in N as T. rewrite T. cbn [negb].
  assert (forall a, a ∈ aliases -> (s =? a)%string = false) as NA
    by (intros a Ha; apply String.eqb_neq; by intros ->).
  rewrite (NA "mail"), (NA "x"), (NA "twitter"), (NA "twitter.com") by (unfold aliases; set_solver).
  destruct (s =? "email")%string eqn:E1; [apply String.eqb_eq in E1; by subst|].
  destruct (s =? "x.com")%string eqn:E2; [apply String.eqb_eq in E2; by subst|]. cbn [orb].
  rewrite slug_no_scheme, W, replace_runs_id, D, T by (try done; by apply slug_outside).
  apply Nat.ltb_ge in L. by rewrite L.
Qed.

Definition strip_list (l : list ascii) : list ascii := rev (drop_while is_dash (rev (drop_while is_dash l))).

Lemma strip_list_ends l :
  (forall c k, strip_list l = c :: k -> is_dash c = false) /\
  (forall c k, rev (strip_list l) = c :: k -> is_dash c = false).
Proof.
  unfold strip_list. split; intros c k E.
  - destruct (drop_while_suffix is_dash (rev (drop_while is_dash l))) as (w & Ew & _).
    apply (f_equal (@rev ascii)) in Ew. rewrite rev_involutive, rev_app_distr, E in Ew. simpl in Ew.
    by apply drop_while_head in Ew.
  - rewrite rev_involutive in E. by apply drop_while_head in E.
Qed.

Lemma strip_list_idemp l : strip_list (strip_list l) = strip_list l.
Proof.
  destruct (strip_list_ends l) as [H T]. set (m := strip_list l) in *. unfold strip_list.
  assert (forall k, (forall c k', k = c :: k' -> is_dash c = false) -> drop_while is_dash k = k) as ID.
  { intros [|c k] Hk; [done|]. apply drop_while_id. by eapply Hk. }
  rewrite (ID m H), (ID (rev m) T). apply rev_involutive.
Qed.

Lemma strip_list_class p l : forallb p l = true -> forallb p (strip_list l) = true.
Proof.
  rewrite !forallb_forall. intros H c Hc. apply H. unfold strip_list in Hc. apply in_rev in Hc.
  destruct (drop_while_suffix is_dash (rev (drop_while is_dash l))) as (w & E & _).
  destruct (drop_while_suffix is_dash l) as (w' & E' & _). rewrite E'. apply in_or_app. right.
  apply in_rev. rewrite E. apply in_or_app. by right.
Qed.

Lemma replace_runs_class ok r s :
  forallb ok r = true -> forallb ok (chars (replace_runs (fun c => negb (ok c)) r s)) = true.
Proof.
  intros R. unfold replace_runs. rewrite chars_of_chars. generalize false as b.
  induction (chars s) as [|c l IH]; intros b; simpl; [done|].
  destruct (ok c) eqn:O; simpl; [by rewrite O, IH|]. rewrite forallb_app, IH. destruct b; simpl; by rewrite ?R.
Qed.

Lemma normalize_slug input s : normalize input = Some s -> slug s.
Proof.
  unfold normalizeSetupService. destruct (negb _); [done|].
  assert (slug "email" /\ slug "x.com") as [SE SX] by (split; split; vm_compute; (done || lia)).
  destruct (_ || _); [by intros [= <-]|]. destruct (_ || _); [by intros [= <-]|].
  set (cand := if startsWith _ _ then _ else _). clearbody cand.
  set (r := replace_runs _ _ cand).
  assert (forallb service_char (chars r) = true) as C by (by apply replace_runs_class).
  destruct (negb _ || _) eqn:E; [done|]. intros [= <-]. apply orb_false_iff in E as [T L].
  apply negb_false_iff, truthy_true in T. apply Nat.ltb_ge in L.
  assert (chars (strip_dashes r) = strip_list (chars r)) as CH by (unfold strip_dashes; by rewrite chars_of_chars).
  split; [by rewrite CH; apply strip_list_class|done|done|].
  unfold strip_dashes at 1. fold (strip_list (chars (strip_dashes r))). rewrite CH, strip_list_idemp.
  unfold strip_dashes. fold (strip_list (chars r)). done.
Qed.

(** ** Records survive the file *)

Definition trimmed_opt (o : option string) : Prop := forall s, o = Some s -> trim s = s /\ s <> "".

(** [s] is the name the record gets when it is read back. *)
Record record_as (s : string) (r : StoredCredentialRecord) : Prop := {
  rk_service : normalize (service r) = Some s;
  rk_proto : s <> "__proto__";
  rk_ident : trim (identifier r) = identifier r /\ identifier r <> "";
  rk_secret : authMode r = password -> trim (secret r) <> "";
  rk_url : trimmed_opt (websiteUrl r);
  rk_strategy : mfaStrategy r = None <-> authMode r = password;
  rk_source : forall s, mfaSourceService r = Some s -> stable s /\ authMode r <> password;
  rk_code : trimmed_opt (mfaCode r);
  rk_times : (0 < createdAt r)%Z /\ (0 < updatedAt r)%Z;
}.
Definition record_ok (r : StoredCredentialRecord) : Prop := record_as (service r) r.
Definition with_service (s : string) (r : StoredCredentialRecord) : StoredCredentialRecord :=
  mkRecord s (identifier r) (secret r) (authMode r) (websiteUrl r) (mfaStrategy r) (mfaSourceService r)
    (mfaCode r) (createdAt r) (updatedAt r).
Record records_ok (rs : records) : Prop := {
  rs_keys : NoDup (keys rs);
  rs_records : Forall (fun p => p.1 = service p.2 /\ record_ok p.2) rs;
}.

Lemma stamp_NInt now z : (0 < z)%Z -> stamp now (VNum (NInt z)) = z.
Proof.
  intros Z0. unfold stamp, NInt. simpl. rewrite (proj2 (Z.ltb_lt 0 z) Z0). unfold pow10. simpl. apply Z.div_1_r.
Qed.

Lemma nonempty_trim o : trimmed_opt o -> nonempty (trim (default "" o)) = o.
Proof.
  intros T. destruct o as [s|]; [|done]. destruct (T s eq_refl) as [E N]. simpl. rewrite E. unfold nonempty.
  apply truthy_true in N. by rewrite N.
Qed.

(** The fields as they are read back. *)
Lemma record_fields r :
  let e := record_value r in
  (forall k, field "service" e k = service r) /\ field "identifier" e "" = identifier r /\
  field "secret" e "" = secret r /\ field "authMode" e "" = auth_string (authMode r) /\
  field "websiteUrl" e "" = default "" (websiteUrl r) /\
  field "mfaStrategy" e "" = default "" (option_map mfa_string (mfaStrategy r)) /\
  field "mfaSourceService" e "" = default "" (mfaSourceService r) /\
  get_prop "mfaCode" e = match mfaCode r with Some c => VStr c | None => VUndef end /\
  get_prop "createdAt" e = VNum (NInt (createdAt r)) /\ get_prop "updatedAt" e = VNum (NInt (updatedAt r)).
Proof.
  destruct r as [sv id sc am [u|] [st|] [so|] [co|] ca ua]; repeat split.
Qed.

Lemma vault_entry_round now k s r :
  record_as s r -> normalizeEntry url_hostname now k (record_value r) = Some (with_service s r).
Proof.
  intros [SV PR [ID IN] SC U ST SO CO [CA UA]]. unfold normalizeEntry.
  destruct (record_fields r) as (F1 & F2 & F3 & F4 & F5 & F6 & F7 & F8 & F9 & F10).
  rewrite F1, F2, F3, F4, F5, F6, F7, F8, F9, F10, ID, SV.
  change (is_object (record_value r)) with true. cbn [negb].
  assert (parse_auth (auth_string (authMode r)) = authMode r) as -> by (by destruct (authMode r)).
  apply truthy_true in IN. rewrite IN. cbn [negb orb].
  assert (negb (0 <? slen (trim (secret r)))%nat && bool_decide (authMode r = password) = false) as ->.
  { case_bool_decide as M; [|by rewrite andb_false_r]. apply SC in M.
    apply truthy_true, truthy_slen, Nat.ltb_lt in M. by rewrite M. }
  rewrite nonempty_trim, !stamp_NInt by done. f_equal.
  assert ((if bool_decide (authMode r = password) then None
    else Some (parse_mfa (default "" (option_map mfa_string (mfaStrategy r))))) = mfaStrategy r) as ->.
  { case_bool_decide as M; [symmetry; by apply ST|].
    destruct (mfaStrategy r) as [[]|]; [done|done|]. exfalso. by apply M, ST. }
  assert ((if bool_decide (authMode r = password) then None
    else normalize (default "" (mfaSourceService r))) = mfaSourceService r) as ->.
  { destruct (mfaSourceService r) as [src|]; simpl; [|by case_bool_decide].
    destruct (SO src eq_refl) as [S M]. rewrite bool_decide_eq_false_2 by done. exact S. }
  assert (match (match mfaCode r with Some c => VStr c | None => VUndef end) with
    | VStr c => nonempty (trim c) | _ => None end = mfaCode r) as ->.
  { pose proof (nonempty_trim _ CO) as N. by destruct (mfaCode r). }
  done.
Qed.

Lemma vault_store_round now rs : records_ok rs -> normalizeStore url_hostname now (store_value rs) = rs.
Proof.
  intros [K F]. unfold normalizeStore. cbn [store_value is_object negb].
  change (get_prop "records" (store_value rs)) with (VObj (map (fun p => (p.1, record_value p.2)) rs)).
  cbv iota. change rs with ([] ++ rs) at 2.
  assert (forall k, k ∈ keys rs -> k ∉ keys (@nil (string * StoredCredentialRecord))) as D by set_solver.
  revert D. generalize (@nil (string * StoredCredentialRecord)) as acc.
  induction F as [|[k r] rs [E R] F IH]; intros acc D; [by rewrite app_nil_r|]. simpl in E. subst k.
  cbn [map normalizeRecords fst snd]. simpl in R. rewrite (vault_entry_round now _ (service r)) by done.
  replace (with_service (service r) r) with r by (by destruct r).
  apply NoDup_cons in K as [NK K]. unfold set_record.
  pose proof (rk_proto _ r R) as PR. apply String.eqb_neq in PR.
  rewrite PR, mset_new by (apply D; set_solver).
  rewrite IH; [by rewrite <- app_assoc|done|].
  intros j Hj. unfold keys in *. rewrite map_app, not_elem_of_app. split; [apply D; set_solver|].
  simpl. intros ->%list_elem_of_singleton. done.
Qed.
End Facts.

Section Refinement.
Context (url_hostname : string -> option string) `{Cipher}.
Notation normalize := (normalizeSetupService url_hostname).
Notation stable := (stable url_hostname).

(** The vault of [dir] holds the records [rs]. *)
Definition opens (dir : string) (w : world) (rs : records) : Prop :=
  records_ok url_hostname rs /\
  forall now fresh, exists w1 key, readVaultStore url_hostname dir now fresh w = Ok (w1, key, rs) /\
    key_file w1 = Some key /\ vaults w1 = vaults w.

Lemma readVaultStore_key dir now fresh w w1 key rs :
  readVaultStore url_hostname dir now fresh w = Ok (w1, key, rs) -> key_file w1 = Some key /\ vaults w1 = vaults w.
Proof.
  unfold readVaultStore, readOrCreateVaultKey. destruct (key_file w) as [k|] eqn:K; simpl.
  - destruct (file_of dir w); try (by intros [= <- <- <-]).
    destruct (toEnvelope v); [|done]. destruct (decryptStore _ _ _ _); [|done]. by intros [= <- <- <-].
  - destruct (file_of dir w); simpl; try done. by intros [= <- <- <-].
Qed.

Lemma toEnvelope_value e :
  iv e <> "" -> tag e <> "" -> ciphertext e <> "" -> toEnvelope (envelope_value e) = Some e.
Proof.
  intros I T C. destruct e as [i t c]. simpl in *. apply truthy_true in I, T, C. unfold toEnvelope.
  change (field "iv" (envelope_value (mkEnvelope i t c)) "") with i.
  change (field "tag" (envelope_value (mkEnvelope i t c)) "") with t.
  change (field "ciphertext" (envelope_value (mkEnvelope i t c)) "") with c. rewrite I, T, C. reflexivity.
Qed.

Lemma read_written dir now fresh key i rs w :
  key_file w = Some key -> i <> "" ->
  readVaultStore url_hostname dir now fresh (writeVaultStore dir key i rs w) =
  Ok (writeVaultStore dir key i rs w, key, normalizeStore url_hostname now (store_value rs)).
Proof.
  intros K I. unfold readVaultStore, readOrCreateVaultKey, file_of, writeVaultStore. cbn [vaults key_file].
  rewrite mget_mset_eq, K. cbn [from_option id rbind]. unfold encryptStore.
  destruct (seal key i (store_value rs)) as [t c] eqn:S. destruct (seal_nonempty _ _ _ _ _ S) as [T C].
  rewrite toEnvelope_value by done. unfold decryptStore. cbn [iv tag ciphertext].
  by rewrite (unseal_seal _ _ _ _ _ S).
Qed.
Lemma opens_written dir key i rs w :
  key_file w = Some key -> i <> "" -> records_ok url_hostname rs -> opens dir (writeVaultStore dir key i rs w) rs.
Proof.
  intros K I R. split; [done|]. intros now fresh. exists (writeVaultStore dir key i rs w), key.
  by rewrite read_written, vault_store_round.
Qed.

Lemma opens_empty dir : opens dir (mkWorld [] None) [].
Proof. split; [split; constructor|]. intros now fresh. by exists (mkWorld [] (Some fresh)), fresh. Qed.

(** The input is accepted as service [svc], which is read back as [s]. *)
Record input_as (p : CredentialInput) (svc s : string) : Prop := {
  vi_service : normalize (in_service p) = Some svc;
  vi_stable : normalize svc = Some s;
  vi_proto : svc <> "__proto__" /\ s <> "__proto__";
  vi_ident : trim (in_identifier p) <> "";
  vi_password : default password (in_authMode p) = password -> trim (in_secret p) <> "";
  vi_secret : default password (in_authMode p) = password_with_mfa -> in_secret p <> "";
  vi_source : forall x, normalize (default "" (in_mfaSourceService p)) = Some x -> stable x;
}.
Definition valid_input (p : CredentialInput) (svc : string) : Prop := input_as p svc svc.

Lemma nonempty_trimmed s : trimmed_opt (nonempty (trim s)).
Proof.
  intros t. unfold nonempty. destruct (truthy (trim s)) eqn:T; [|done]. intros [= <-].
  split; [apply trim_idemp|by apply truthy_true].
Qed.
Lemma or_else_trimmed a b : trimmed_opt a -> trimmed_opt b -> trimmed_opt (or_else a b).
Proof. intros A B. by destruct a. Qed.

Lemma mailbox_stable ident s :
  s ∈ omap normalize (inferMailboxServiceCandidatesFromIdentifier ident) -> stable s.
Proof.
  assert (forall c, c ∈ ["mail.google.com"; "email"; "outlook.office.com"; "outlook.live.com"; "mail.yahoo.com"; "icloud.com"] ->
    stable c) as C.
  { apply Forall_forall. repeat (constructor; [reflexivity|]). constructor. }
  intros (c & Hc & N)%list_elem_of_omap.
  assert (c ∈ ["mail.google.com"; "email"; "outlook.office.com"; "outlook.live.com"; "mail.yahoo.com"; "icloud.com"]) as Hc'.
  { revert Hc. unfold inferMailboxServiceCandidatesFromIdentifier. clear.
    repeat case_match; intros Hc; repeat (apply elem_of_cons in Hc as [->|Hc]);
      try (by apply elem_of_nil in Hc); apply (bool_decide_eq_true_1 _); reflexivity. }
  specialize (C c Hc'). unfold Vault.stable in C. rewrite C in N. injection N as <-. exact C.
Qed.

Lemma find_source_stable ident rs s :
  inferMfaSourceServiceFromIdentifier url_hostname ident rs = Some s -> stable s.
Proof.
  unfold inferMfaSourceServiceFromIdentifier. destruct (negb _); [done|]. intros F.
  apply find_some in F as [F _]. eapply mailbox_stable. by apply list_elem_of_In.
Qed.

Lemma records_ok_get rs svc r : records_ok url_hostname rs -> mget svc rs = Some r -> record_ok url_hostname r.
Proof. intros [_ F] G. apply mget_In, list_elem_of_In in G. rewrite Forall_forall in F. by apply F in G as [_ ?]. Qed.

Lemma records_ok_mset svc r rs :
  records_ok url_hostname rs -> record_ok url_hostname r -> service r = svc ->
  records_ok url_hostname (mset svc r rs).
Proof.
  intros [K F] R <-. split; [by apply NoDup_mset|by apply Forall_mset].
Qed.

(** What an accepted input stores. *)
Lemma setCredential_stores dir p svc s en w rs :
  opens dir w rs -> input_as p svc s -> (0 < e_now en)%Z ->
  exists w1 key r, setCredential url_hostname dir p en w =
      Ok (writeVaultStore dir key (e_iv en) (mset svc r rs) w1,
          (svc, match obj_lookup svc rs with Missing => true | _ => false end)) /\
    key_file w1 = Some key /\ record_as url_hostname s r /\
    service r = svc /\ identifier r = trim (in_identifier p) /\
    authMode r = default password (in_authMode p) /\
    (authMode r <> passwordless_mfa_code -> secret r = in_secret p) /\ updatedAt r = e_now en.
Proof.
  intros [RO OP] [S ST [PR PR'] ID PW SC SO] NOW. unfold setCredential. rewrite S. cbv zeta.
  set (mode := default password (in_authMode p)) in *.
  apply truthy_true in ID as TI. rewrite TI. cbn [negb].
  set (sec := match mode with passwordless_mfa_code => _ | _ => _ end).
  assert (negb (bool_decide (mode = passwordless_mfa_code)) && negb (truthy sec) = false) as ->.
  { subst sec. destruct mode; simpl; [| |done]; apply negb_false_iff, truthy_true; [|by apply SC].
    intros E. rewrite E in PW. by apply PW. }
  destruct (OP (e_now en) (e_key en)) as (w1 & key & RD & K & _). rewrite RD. cbn [rbind].
  set (existing := mget svc rs).
  assert (forall e, existing = Some e -> record_ok url_hostname e) as EX by (intros e; by apply records_ok_get).
  match goal with |- context [set_record svc ?x rs] => set (r := x) end.
  assert (record_as url_hostname s r) as R.
  { split; cbn [r service identifier secret authMode websiteUrl mfaStrategy mfaSourceService mfaCode createdAt updatedAt]; try done.
    - split; [apply trim_idemp|done].
    - intros M. subst sec. rewrite M. by apply PW.
    - apply or_else_trimmed; [apply nonempty_trimmed|]. destruct existing; [apply nonempty_trimmed|done].
    - by case_bool_decide.
    - intros x. case_bool_decide as M; [done|]. intros E. split; [|done].
      destruct (normalize (default "" (in_mfaSourceService p))) as [s0|] eqn:N; [injection E as <-; by apply SO|].
      cbn [or_else] in E. destruct existing as [e|]; cbn [mbind option_bind] in E.
      + specialize (EX e eq_refl). destruct EX as [_ _ _ _ _ _ XS _ _].
        destruct (mfaSourceService e) as [se|]; cbn [from_option id] in E.
        * destruct (XS se eq_refl) as [X _]. unfold Vault.stable in X. rewrite X in E. injection E as <-. exact X.
        * apply find_source_stable in E. exact E.
      + apply find_source_stable in E. exact E.
    - apply nonempty_trimmed.
    - split; [|done]. destruct existing as [e|]; [|done]. by destruct (EX e eq_refl) as [_ _ _ _ _ _ _ _ [? _]]. }
  exists w1, key, r. apply String.eqb_neq in PR. unfold set_record. rewrite PR.
  split; [by destruct (obj_lookup svc rs)|]. split; [done|]. split; [done|].
  split; [done|]. split; [done|]. split; [done|]. split; [|done].
  intros M. cbn [r secret authMode] in *. subst sec. by destruct mode.
Qed.

Lemma setCredential_ok dir p svc en w rs :
  opens dir w rs -> valid_input p svc -> (0 < e_now en)%Z -> e_iv en <> "" ->
  exists w' r, setCredential url_hostname dir p en w =
      Ok (w', (svc, match obj_lookup svc rs with Missing => true | _ => false end)) /\
    opens dir w' (mset svc r rs) /\
    identifier r = trim (in_identifier p) /\
    authMode r = default password (in_authMode p) /\
    (authMode r <> passwordless_mfa_code -> secret r = in_secret p).
Proof.
  intros O V NOW IV. destruct (setCredential_stores dir p svc svc en w rs O V NOW) as (w1 & key & r & E & K & R & SV & F).
  do 2 eexists. split; [exact E|]. split; [|split; [apply F|split; apply F]].
  apply opens_written; [done|done|]. apply records_ok_mset; [apply O| |done]. unfold record_ok. by rewrite SV.
Qed.

(** What a lookup finds in a record table. *)
Definition lookup (svc : string) (rs : records) : found :=
  match obj_lookup svc rs with Own r => Found r | Inherited => Hollow | Missing => NoRecord end.

Lemma getCredential_ok dir q svc en w rs :
  opens dir w rs -> normalize q = Some svc ->
  exists w', getCredential url_hostname dir q en w = Ok (w', lookup svc rs).
Proof.
  intros [_ OP] N. unfold getCredential. rewrite N.
  destruct (OP (e_now en) (e_key en)) as (w1 & key & RD & _). rewrite RD. by eexists.
Qed.

Lemma deleteCredential_ok dir q svc en w rs :
  opens dir w rs -> normalize q = Some svc -> e_iv en <> "" ->
  exists w', deleteCredential url_hostname dir q en w =
      Ok (w', match lookup svc rs with NoRecord => false | _ => true end) /\
    opens dir w' (mdelete svc rs).
Proof.
  intros [RO OP] N IV. unfold deleteCredential, lookup. rewrite N.
  destruct (OP (e_now en) (e_key en)) as (w1 & key & RD & K & V). rewrite RD. cbn [rbind].
  assert (records_ok url_hostname (mdelete svc rs)) as RO'.
  { destruct RO. split; [by apply NoDup_mdelete|by apply Forall_mdelete]. }
  assert (obj_lookup svc rs = Missing -> mdelete svc rs = rs) as MD.
  { unfold obj_lookup. destruct (mget svc rs) eqn:G; [done|]. intros _. by apply mdelete_absent. }
  destruct (obj_lookup svc rs) eqn:L.
  1,2: eexists; split; [reflexivity|by apply opens_written].
  exists w1. split; [done|]. rewrite MD by done. split; [done|]. intros now fresh.
  destruct (OP now fresh) as (w2 & key2 & RD2 & K2 & V2).
  assert (file_of dir w1 = file_of dir w) as FO by (unfold file_of; by rewrite V).
  unfold readVaultStore, readOrCreateVaultKey in *. rewrite FO, K. cbn [rbind].
  destruct (key_file w) as [k|] eqn:KW; cbn [rbind] in *.
  - exists w1, k. assert (key = k) as -> by (destruct (file_of dir w); try congruence; repeat case_match; congruence).
    split; [|done]. destruct (file_of dir w); try congruence. repeat case_match; congruence.
  - destruct (file_of dir w); cbn [rbind negb] in *; try discriminate RD. exists w1, key. injection RD as _ _ <-. done.
Qed.

Lemma obj_lookup_mset svc svc' (r : StoredCredentialRecord) (rs : records) :
  obj_lookup svc (mset svc' r rs) = if bool_decide (svc = svc') then Own r else obj_lookup svc rs.
Proof. unfold obj_lookup. rewrite mget_mset. by case_bool_decide. Qed.
Lemma obj_lookup_mdelete svc svc' (rs : records) :
  svc <> svc' -> obj_lookup svc (mdelete svc' rs) = obj_lookup svc rs.
Proof. intros N. unfold obj_lookup. by rewrite mget_mdelete_ne. Qed.

(** C7: the vault is a map from services to records.  Saving a valid login,
    whatever was stored before, succeeds; from then on every spelling of the
    service reads back that record, with the identifier trimmed and the secret
    exactly as given, every other service reads what it read before, and after
    deleting the service every spelling reads nothing.  The encryption, the
    files and the clean-up on reading lose nothing. *)
Theorem vault_refines_map dir p svc en w rs :
  opens dir w rs -> valid_input p svc -> (0 < e_now en)%Z -> e_iv en <> "" ->
  exists w' r created,
    setCredential url_hostname dir p en w = Ok (w', (svc, created)) /\ opens dir w' (mset svc r rs) /\
    identifier r = trim (in_identifier p) /\ authMode r = default password (in_authMode p) /\
    (authMode r <> passwordless_mfa_code -> secret r = in_secret p) /\
    (forall q en', normalize q = Some svc -> exists w2, getCredential url_hostname dir q en' w' = Ok (w2, Found r)) /\
    (forall q svc' en', normalize q = Some svc' -> svc' <> svc ->
       exists w2, getCredential url_hostname dir q en' w' = Ok (w2, lookup svc' rs)) /\
    (forall q en', normalize q = Some svc -> e_iv en' <> "" -> svc ∉ object_prototype_keys ->
       exists w2, deleteCredential url_hostname dir q en' w' = Ok (w2, true) /\
         forall q' en'', normalize q' = Some svc ->
           exists w3, getCredential url_hostname dir q' en'' w2 = Ok (w3, NoRecord)).
Proof.
  intros O V NOW IV. destruct (setCredential_ok dir p svc en w rs O V NOW IV) as (w' & r & E & O' & ID & MO & SE).
  exists w', r. eexists. split; [exact E|]. split; [done|]. split; [done|]. split; [done|]. split; [done|].
  split; [|split].
  - intros q en' N. destruct (getCredential_ok dir q svc en' w' _ O' N) as [w2 G]. exists w2.
    rewrite G. unfold lookup. by rewrite obj_lookup_mset, bool_decide_eq_true_2.
  - intros q svc' en' N D. destruct (getCredential_ok dir q svc' en' w' _ O' N) as [w2 G]. exists w2.
    rewrite G. unfold lookup. by rewrite obj_lookup_mset, bool_decide_eq_false_2.
  - intros q en' N IV' PK. destruct (deleteCredential_ok dir q svc en' w' _ O' N IV') as (w2 & D & O2).
    exists w2. rewrite D. unfold lookup at 1. rewrite obj_lookup_mset, bool_decide_eq_true_2 by done. split; [done|].
    intros q' en'' N'. destruct (getCredential_ok dir q' svc en'' w2 _ O2 N') as [w3 G]. exists w3. rewrite G.
    unfold lookup, obj_lookup. rewrite mget_mdelete_eq. by rewrite bool_decide_eq_false_2.
Qed.

(** a login can be saved under a name that is not looked up.  The name of a
    service is normalised again every time the vault is read, and normalising
    twice is not normalising once: when the saved name [svc] normalises to
    another name [s] (a URL of twitter.com is saved as [twitter.com], which is
    read back as [x.com]), saving reports success, but asking for the very same
    service finds nothing, and the login turns up under [s]. *)
Theorem renamed_service_lost dir p svc s en w :
  opens dir w [] -> input_as p svc s -> svc <> s -> svc ∉ object_prototype_keys ->
  (0 < e_now en)%Z -> e_iv en <> "" ->
  exists w', setCredential url_hostname dir p en w = Ok (w', (svc, true)) /\
    (forall en', exists w2, getCredential url_hostname dir (in_service p) en' w' = Ok (w2, NoRecord)) /\
    (forall q en', normalize q = Some s -> exists w2 r,
       getCredential url_hostname dir q en' w' = Ok (w2, Found r) /\ identifier r = trim (in_identifier p)).
Proof.
  intros O V D PK NOW IV.
  destruct (setCredential_stores dir p svc s en w [] O V NOW) as (w1 & key & r & E & K & R & SV & ID & _).
  eexists. split; [rewrite E; unfold obj_lookup; simpl; by rewrite bool_decide_eq_false_2|].
  assert (forall now, normalizeStore url_hostname now (store_value [(svc, r)]) = [(s, with_service s r)]) as NS.
  { intros now. unfold normalizeStore. cbn [store_value is_object negb].
    change (get_prop "records" (store_value [(svc, r)])) with (VObj [(svc, record_value r)]). cbv iota.
    cbn [normalizeRecords]. rewrite (vault_entry_round url_hostname now svc s r R). unfold set_record.
    cbn [service with_service]. destruct V as [_ _ [_ PR] _ _ _ _]. apply String.eqb_neq in PR. by rewrite PR. }
  split.
  - intros en'. unfold getCredential. rewrite (vi_service _ _ _ V), read_written by done. cbn [rbind]. rewrite NS.
    eexists. unfold obj_lookup. cbn [mget]. rewrite bool_decide_eq_false_2, bool_decide_eq_false_2 by done. done.
  - intros q en' N. unfold getCredential. rewrite N, read_written by done. cbn [rbind]. rewrite NS.
    do 2 eexists. unfold obj_lookup. cbn [mget]. rewrite bool_decide_eq_true_2 by done. split; [reflexivity|exact ID].
Qed.
End Refinement.

(** ** Witnesses *)

(** A cipher that does not hide anything. *)
#[local] Instance plain_cipher : Cipher.
Proof.
  refine {| seal := fun _ _ v => ("tag", encode v); unseal := fun _ _ _ ct => decode ct |}.
  - intros key i v t c [= <- <-]. apply decode_encode.
  - intros key i v t c [= <- <-]. split; [discriminate|apply encode_nonempty].
Defined.
(** The host of the one URL used here. *)
Definition sample_hostname (s : string) : option string :=
  if (s =? "https://twitter.com/login")%string then Some "twitter.com" else None.
Definition sample_entropy : entropy := mkEntropy 1000 "key" "iv".
Definition sample_input (svc : string) : CredentialInput :=
  mkInput svc " bob " "hunter2" None None None None None.

Lemma vault_refines_map_witness :
  exists w' r created,
    setCredential sample_hostname "/ws" (sample_input "WWW.Example.com") sample_entropy (mkWorld [] None) =
      Ok (w', ("example.com", created)) /\ identifier r = "bob" /\
    exists w2, getCredential sample_hostname "/ws" "example.com" sample_entropy w' = Ok (w2, Found r).
Proof.
  destruct (vault_refines_map sample_hostname "/ws" (sample_input "WWW.Example.com") "example.com" sample_entropy
    (mkWorld [] None) []) as (w' & r & created & S & _ & I & _ & _ & G & _).
  - apply opens_empty.
  - split; try reflexivity; try discriminate. split; discriminate.
  - reflexivity.
  - discriminate.
  - exists w', r, created. split; [exact S|]. split; [exact I|]. apply G. reflexivity.
Defined.

Lemma renamed_service_lost_witness :
  exists w' w2, setCredential sample_hostname "/ws" (sample_input "https://twitter.com/login") sample_entropy (mkWorld [] None) =
      Ok (w', ("twitter.com", true)) /\
    getCredential sample_hostname "/ws" "https://twitter.com/login" sample_entropy w' = Ok (w2, NoRecord).
Proof.
  destruct (renamed_service_lost sample_hostname "/ws" (sample_input "https://twitter.com/login") "twitter.com" "x.com"
    sample_entropy (mkWorld [] None)) as (w' & S & G & _).
  - apply opens_empty.
  - split; try reflexivity; try discriminate. split; discriminate.
  - discriminate.
  - apply (bool_decide_eq_false_1 _). vm_compute. reflexivity.
  - reflexivity.
  - discriminate.
  - destruct (G sample_entropy) as [w2 G']. exists w', w2. split; [exact S|exact G'].
Defined.

(** ** Sensitive paths: lemmas *)

Lemma relative_not_absolute pcwd a b : isAbsolute (relative pcwd a b) = false.
Proof.
  unfold relative, relative_segments. pose proof (segments_ok pcwd b) as F.
  destruct (strip_common (segments pcwd a) (segments pcwd b)) as [f t] eqn:E.
  apply strip_common_spec in E as (c & _ & Eb). rewrite Eb in F. apply Forall_app in F as [_ F].
  destruct f as [|x f]; simpl.
  - destruct t as [|y t]; [done|]. apply isAbsolute_join. by inversion F.
  - apply isAbsolute_join. split; [done|]. apply (bool_decide_eq_false_1 _). reflexivity.
Qed.

Lemma outside_iff pcwd a b :
  truthy (relative pcwd a b) && startsWith ".." (relative pcwd a b) = false <-> below (segments pcwd a) (segments pcwd b).
Proof.
  rewrite <- relative_inside_spec. unfold relative_inside. rewrite relative_not_absolute, andb_true_r.
  unfold truthy. destruct (relative pcwd a b =? "")%string; simpl; [done|].
  destruct (startsWith _ _); simpl; split; done.
Qed.

Lemma chars_of_segments l : l <> [] -> chars (of_segments l) = flat_map (fun s => slash :: chars s) l.
Proof.
  unfold of_segments. rewrite chars_app. change (chars "/") with [slash]. intros N.
  induction l as [|s l IH]; [done|]. destruct l as [|s' l]; [simpl; by rewrite app_nil_r|].
  change (join "/" (s :: s' :: l)) with (s +:+ "/" +:+ join "/" (s' :: l)). rewrite !chars_app.
  change (flat_map (fun s => slash :: chars s) (s :: s' :: l))
    with ((slash :: chars s) ++ flat_map (fun s => slash :: chars s) (s' :: l)).
  by rewrite <- IH by done.
Qed.

(** A whole segment [x], seen in the text of the path. *)
Lemma segment_in_text x l :
  Forall plain_seg l -> plain_seg x ->
  includes ("/" +:+ x +:+ "/") (of_segments l) || endsWith ("/" +:+ x) (of_segments l) = true <-> x ∈ l.
Proof.
  intros F (X & D & _). rewrite orb_true_iff, includes_spec, endsWith_spec.
  assert (raw_segments x = [x]) as RX by (by apply raw_segments_single). split.
  - intros H. rewrite <- (raw_segments_of_segments l F).
    destruct H as [(a & b & ->)|(a & ->)].
    + assert (a +:+ ("/" +:+ x +:+ "/") +:+ b = a +:+ "/" +:+ x +:+ "/" +:+ b) as ->
        by (apply chars_inj; rewrite !chars_app, <- !app_assoc; done).
      rewrite !raw_segments_app, RX. set_solver.
    + rewrite raw_segments_app, RX. set_solver.
  - intros (a & b & ->)%list_elem_of_split.
    assert (chars (of_segments (a ++ x :: b)) =
      flat_map (fun s => slash :: chars s) a ++ (slash :: chars x) ++ flat_map (fun s => slash :: chars s) b) as C.
    { rewrite chars_of_segments by (by destruct a). by rewrite flat_map_app. }
    destruct b as [|y b].
    + right. exists (of_chars (flat_map (fun s => slash :: chars s) a)). apply chars_inj.
      rewrite C, !chars_app, chars_of_chars. simpl. by rewrite app_nil_r.
    + left. exists (of_chars (flat_map (fun s => slash :: chars s) a)),
        (of_chars (chars y ++ flat_map (fun s => slash :: chars s) b)). apply chars_inj.
      rewrite C, !chars_app, !chars_of_chars. simpl. rewrite <- !app_assoc. done.
Qed.

(** sensitive paths.  A path is refused exactly when it lies in the
    workspace ([below], which leaves out entries whose name starts with two dots)
    and has a [.t560-secure] component, or its file name is [.env],
    starts with [.env.], or is [credentials.v1.enc], in any case.  Relative
    spellings, [..] and doubled slashes make no difference. *)
Theorem isSensitivePath_spec pcwd target workspaceDir :
  isSensitivePath pcwd target workspaceDir = true <->
  below (segments pcwd workspaceDir) (segments pcwd target) /\
  (".t560-secure" ∈ segments pcwd target \/
   let name := toLowerCase (basename (resolve pcwd target)) in
   name = ".env" \/ startsWith ".env." name = true \/ name = "credentials.v1.enc").
Proof.
  unfold isSensitivePath. rewrite relative_resolve.
  pose proof (outside_iff pcwd workspaceDir target) as O.
  pose proof (segment_in_text ".t560-secure" (segments pcwd target) (segments_plain pcwd target)) as T.
  fold (resolve pcwd target) in T. destruct (_ && _).
  - split; [done|]. intros [B _]. by apply O in B.
  - assert (below (segments pcwd workspaceDir) (segments pcwd target)) as B by (by apply O).
    change ("/" +:+ ".t560-secure" +:+ "/") with "/.t560-secure/" in T.
    change ("/" +:+ ".t560-secure") with "/.t560-secure" in T. cbv zeta.
    rewrite <- T; [|split; [split; [done|apply (bool_decide_eq_false_1 _); reflexivity]|done]].
    destruct (includes _ _ || endsWith _ _); [split; [auto|done]|].
    destruct (_ || startsWith _ _) eqn:E.
    + split; [intros _|done]. split; [done|]. right.
      apply orb_true_iff in E as [E|E]; [left; by apply String.eqb_eq|auto].
    + apply orb_false_iff in E as [E1 E2]. apply String.eqb_neq in E1. rewrite String.eqb_eq.
      split; [auto|]. intros [_ [?|[?|[?|?]]]]; congruence.
Qed.

(** The key of the vault is not covered, although commands naming it are
    refused. *)
Example vault_key_not_sensitive :
  isSensitivePath "/home/u" "/home/u/.t560/secure/vault.key" "/home/u" = false /\
  commandTouchesSensitivePath "cat ~/.t560/secure/vault.key" = true.
Proof. vm_compute. done. Qed.
