(* ===== verification/SetupFlow.v ===== *)
(** * Secure setup flow

    [src/src/security/setup-flow.ts]: the chat dialogue by which a user stores a
    login, one per session, as a state machine over the credential vault.

    The vault is used through the class [VaultService]: the operations the flow
    calls and the one law it relies on.  [vault_service] shows that the vault of
    [Vault] satisfies it. *)

From stdpp Require Import base list sets strings.
From Stdlib Require Import Ascii Lia ZArith.
From S2P Require Import Prelude JsString JsMap JsValue JsRegex NodePath Vault.

(** ** The interface to the vault *)

(** A login the vault must keep: the service name is stable, the identifier is
    not blank, and a password is given where one is needed. *)
Record acceptable (normalize : string -> option string) (p : CredentialInput) (svc : string) : Prop := {
  ac_service : normalize (in_service p) = Some svc;
  ac_stable : normalize svc = Some svc;
  ac_proto : svc <> "__proto__";
  ac_ident : trim (in_identifier p) <> "";
  ac_secret : default password (in_authMode p) <> passwordless_mfa_code -> trim (in_secret p) <> "";
  ac_source : in_mfaSourceService p = None;
}.

(** The record answers the input. *)
Record answers (p : CredentialInput) (r : StoredCredentialRecord) : Prop := {
  an_ident : identifier r = trim (in_identifier p);
  an_mode : authMode r = default password (in_authMode p);
  an_secret : authMode r <> passwordless_mfa_code -> secret r = in_secret p;
}.

Class VaultService (W : Type) := {
  vs_normalize : string -> option string;
  vs_list : W -> result (W * list string);
  vs_delete : string -> W -> result (W * bool);
  vs_set : CredentialInput -> W -> result (W * (string * bool));
  vs_get : string -> W -> result found;
  vs_ok : W -> Prop;
  vs_saves : forall p svc w, vs_ok w -> acceptable vs_normalize p svc ->
    exists w' created r, vs_set p w = Ok (w', (svc, created)) /\ vs_ok w' /\ answers p r /\
      forall q, vs_normalize q = Some svc -> vs_get q w' = Ok (Found r);
}.

(** ** Data *)

Inductive setup_step := AskIdentifier | AskAuthMode | AskSecret.
#[export] Instance setup_step_eq : EqDecision setup_step.
Proof. solve_decision. Defined.

Record PendingSetupState := mkSetup {
  ps_service : string;
  ps_step : setup_step;
  ps_authMode : option CredentialAuthMode;
  ps_identifier : option string;
}.

(** [pendingBySessionId] *)
Definition pendings := list (string * PendingSetupState).

(** ** Texts *)

Definition nl : string := String (ascii_of_nat 10) EmptyString.

Definition usageText : string :=
  join nl ["Secure setup commands:";
    "- /setup <service-or-site>   (example: /setup example.com or /setup https://example.com/login)";
    "- /setup list";
    "- /setup clear <service-or-site>";
    "- /setup cancel";
    "- /setup mode password|password+mfa|mfa    (only during active setup flow)"].

Definition is_mailbox (svc : string) : bool := (svc =? "email")%string || startsWith "mail." svc.

Definition promptForIdentifier (svc : string) : string :=
  if is_mailbox svc then "Setup " +:+ svc +:+ ": enter the email address for this mailbox account."
  else "Setup " +:+ svc +:+ ": enter the login identifier (email/username).".

Definition promptForAuthMode (svc : string) : string :=
  join nl ["Setup " +:+ svc +:+ ": choose auth mode.";
    "- Type: password";
    "- Type: password+mfa (password plus one-time code)";
    "- Type: mfa (passwordless MFA code)";
    "You can also use: /setup mode password  or  /setup mode password+mfa  or  /setup mode mfa"].

Definition promptForSecret (svc : string) (mode : CredentialAuthMode) : string :=
  if bool_decide (mode = passwordless_mfa_code) then
    join nl ["Setup " +:+ svc +:+ ": enter a default MFA code (optional).";
      "Type 'skip' to save passwordless mode without a stored code.";
      "You can provide fresh MFA codes later during login flows."]
  else if is_mailbox svc
  then "Setup " +:+ svc +:+ ": enter the app password or mailbox secret. It is stored securely and never echoed back."
  else "Setup " +:+ svc +:+ ": enter your password or secret. It is stored securely and never echoed back.".

Definition completionText (svc : string) (mode : CredentialAuthMode) : string :=
  if bool_decide (mode = passwordless_mfa_code)
  then "Saved secure credentials for " +:+ svc +:+ ". Auth mode=passwordless MFA code."
  else "Saved secure credentials for " +:+ svc +:+ ".".

Definition serviceLabel (svc : string) : string := svc.

Definition normalizeAuthMode (input : string) : option CredentialAuthMode :=
  let v := toLowerCase (trim input) in
  if negb (truthy v) then None
  else if bool_decide (v ∈ ["password"; "pass"; "pwd"]) then Some password
  else if bool_decide (v ∈ ["password+mfa"; "password_with_mfa"; "password-and-mfa"; "mfa_required"])
  then Some password_with_mfa
  else if bool_decide (v ∈ ["mfa"; "passwordless"; "mfa-code"; "passwordless-mfa"; "passwordless_mfa_code"])
  then Some passwordless_mfa_code else None.

Definition redactIdentifier (ident : string) : string :=
  let trimmed := trim ident in
  if negb (truthy trimmed) then "(empty)"
  else
    match indexOf "@" trimmed with
    | Some at_ =>
        if (1 <? at_)%nat then slice_to 1 trimmed +:+ "***" +:+ slice_from at_ trimmed
        else if (slen trimmed <=? 3)%nat then slice_to 1 trimmed +:+ "**"
        else slice_to 2 trimmed +:+ "***" +:+ last_chars 1 trimmed
    | None =>
        if (slen trimmed <=? 3)%nat then slice_to 1 trimmed +:+ "**"
        else slice_to 2 trimmed +:+ "***" +:+ last_chars 1 trimmed
    end.

(** ** Handlers *)

Section Flow.
Context {W : Type} `{VaultService W}.

(** [None]: the message is not handled. *)
Definition outcome : Type := pendings * W * option string.
Definition handled (ps : pendings) (w : W) (message : string) : result outcome := Ok (ps, w, Some message).

Definition set_mode (mode : CredentialAuthMode) (p : PendingSetupState) : PendingSetupState :=
  mkSetup (ps_service p) AskSecret (Some mode) (ps_identifier p).

Definition handleSlashSetupCommand (sessionId text : string) (ps : pendings) (w : W) : result outcome :=
  let trimmed := trim text in
  if negb (startsWith "/setup" trimmed) then Ok (ps, w, None)
  else
    let parts := words trimmed in
    if (length parts =? 1)%nat then handled ps w usageText
    else
      let sub := toLowerCase (trim (default "" (parts !! 1))) in
      let arg := default "" (parts !! 2) in
      if (sub =? "list")%string then
        let? r := vs_list w in
        let '(w1, services) := r in
        match services with
        | [] => handled ps w1 "No secure credentials stored yet."
        | _ => handled ps w1 (join nl ("Configured secure services:" :: map (fun s => "- " +:+ s) services))
        end
      else if (sub =? "cancel")%string then
        handled (mdelete sessionId ps) w
          (if mhas sessionId ps then "Cancelled active setup flow." else "No active setup flow for this session.")
      else if (sub =? "clear")%string then
        match vs_normalize arg with
        | None => handled ps w "Usage: /setup clear <service-or-site>"
        | Some svc =>
            let? r := vs_delete svc w in
            let '(w1, removed) := r in
            handled (mdelete sessionId ps) w1
              (if removed : bool then "Removed secure credentials for " +:+ serviceLabel svc +:+ "."
               else "No stored credentials found for " +:+ serviceLabel svc +:+ ".")
        end
      else if (sub =? "mode")%string then
        match mget sessionId ps with
        | None => handled ps w "No active setup flow. Start with /setup <service-or-site>."
        | Some pending =>
            match normalizeAuthMode arg with
            | None => handled ps w "Usage: /setup mode password|password+mfa|mfa"
            | Some mode =>
                handled (mset sessionId (set_mode mode pending) ps) w
                  (promptForSecret (ps_service pending) mode +:+ nl +:+ "Identifier saved: "
                   +:+ redactIdentifier (default "" (ps_identifier pending)))
            end
        end
      else
        match vs_normalize sub with
        | None => handled ps w (usageText +:+ nl +:+ "Unsupported setup target: " +:+ sub)
        | Some svc =>
            handled (mset sessionId (mkSetup svc AskIdentifier None None) ps) w
              (promptForIdentifier svc +:+ nl +:+ "Type /setup cancel to abort.")
        end.

(** [/^\/setup\s+cancel\b/i] *)
Definition cancel_pattern : re := rseqs [RBol; rlit_i "/setup"; rplus rspace; rlit_i "cancel"; RWordB].

(** The input built from the answers; [raw] is the message as typed. *)
Definition credential_input (pending : PendingSetupState) (ident raw : string) : CredentialInput :=
  let mode := default password (ps_authMode pending) in
  let v := trim raw in
  let code := if bool_decide (mode = passwordless_mfa_code) && negb (toLowerCase v =? "skip")%string then v else "" in
  let sec := if bool_decide (mode = passwordless_mfa_code) then "" else raw in
  mkInput (ps_service pending) ident sec (Some mode) None None None (if truthy code then Some code else None).

Definition handlePendingSetupInput (sessionId text : string) (ps : pendings) (w : W) : result outcome :=
  match mget sessionId ps with
  | None => Ok (ps, w, None)
  | Some pending =>
      let v := trim text in
      if negb (truthy v) then handled ps w "Input cannot be empty. Type /setup cancel to abort."
      else if startsWith "/" v then
        if re_test cancel_pattern v then handled (mdelete sessionId ps) w "Cancelled active setup flow."
        else handled ps w "Setup flow is waiting for a value. Type /setup cancel to abort before using other slash commands."
      else
        match ps_step pending with
        | AskIdentifier =>
            handled (mset sessionId (mkSetup (ps_service pending) AskAuthMode (ps_authMode pending) (Some v)) ps) w
              (promptForAuthMode (ps_service pending) +:+ nl +:+ "Identifier saved: " +:+ redactIdentifier v)
        | AskAuthMode =>
            match normalizeAuthMode v with
            | None => handled ps w "Invalid auth mode. Type password, password+mfa, or mfa. (or /setup mode password|password+mfa|mfa)"
            | Some mode =>
                handled (mset sessionId (set_mode mode pending) ps) w
                  (promptForSecret (ps_service pending) mode +:+ nl +:+ "Identifier saved: "
                   +:+ redactIdentifier (default "" (ps_identifier pending)))
            end
        | AskSecret =>
            let ident := trim (default "" (ps_identifier pending)) in
            if negb (truthy ident)
            then handled (mdelete sessionId ps) w
                   "Setup flow reset due to missing identifier. Run /setup <service-or-site> again."
            else
              match vs_set (credential_input pending ident text) w with
              | Throw message => handled ps w ("Could not save secure credentials yet: " +:+ message)
              | Ok (w1, _) => handled (mdelete sessionId ps) w1
                                (completionText (ps_service pending) (default password (ps_authMode pending)))
              end
        end
  end.

Definition handleSecureSetupFlow (sessionId message : string) (ps : pendings) (w : W) : result outcome :=
  let? r := handleSlashSetupCommand sessionId message ps w in
  let '(ps1, w1, reply) := r in
  match reply with
  | Some _ => Ok (ps1, w1, reply)
  | None => handlePendingSetupInput sessionId message ps1 w1
  end.

Record FlowState := mkFlowState {
  fl_service : string;
  fl_step : setup_step;
  fl_authMode : option CredentialAuthMode;
  hasIdentifier : bool;
}.
Definition getSetupFlowState (sessionId : string) (ps : pendings) : option FlowState :=
  match mget sessionId ps with
  | None => None
  | Some p => Some (mkFlowState (ps_service p) (ps_step p) (ps_authMode p) (truthy (trim (default "" (ps_identifier p)))))
  end.
Definition resetSetupFlowState : pendings := [].
End Flow.

(** ** Lemmas *)

#[local] Arguments re_test : simpl never.
#[local] Arguments normalizeAuthMode : simpl never.

(** A message taken as a value: not blank and not a slash command. *)
Definition value_text (t : string) : Prop := trim t <> "" /\ startsWith "/" (trim t) = false.
(** One word. *)
Definition one_word (t : string) : Prop := t <> "" /\ forallb (fun c => negb (is_ws c)) (chars t) = true.

Lemma startsWith_app p q s : startsWith (p +:+ q) s = true -> startsWith p s = true.
Proof.
  rewrite !startsWith_spec. intros [t ->]. exists (q +:+ t). apply chars_inj.
  by rewrite !chars_app, app_assoc.
Qed.

Lemma words_two a b : one_word a -> one_word b -> words (a +:+ " " +:+ b) = [a; b].
Proof.
  intros [Na Ha] [Nb Hb]. unfold words. rewrite !chars_app. change (chars " ") with [" "%char]. cbn [app].
  assert (forall t, forallb (fun c => negb (is_ws c)) (chars t) = true -> split_list is_ws (chars t) = [chars t]) as S.
  { intros t F. apply split_list_single, Forall_forall. intros c Hc%list_elem_of_In.
    rewrite forallb_forall in F. by apply negb_true_iff, F. }
  rewrite split_list_app, !S by done. cbn [map app List.filter]. rewrite !of_chars_chars.
  apply truthy_true in Na, Nb. by rewrite Na, Nb.
Qed.

Section Facts.
Context {W : Type} `{VaultService W}.

Fixpoint run (sessionId : string) (msgs : list string) (ps : pendings) (w : W) (last : option string)
  : result (outcome (W:=W)) :=
  match msgs with
  | [] => Ok (ps, w, last)
  | m :: rest =>
      let? r := handleSecureSetupFlow sessionId m ps w in
      let '(ps1, w1, reply) := r in run sessionId rest ps1 w1 reply
  end.

(** A value goes to the dialogue. *)
Lemma value_to_dialogue s t ps w :
  value_text t -> handleSecureSetupFlow s t ps w = handlePendingSetupInput s t ps w.
Proof.
  intros [N V]. unfold handleSecureSetupFlow, handleSlashSetupCommand.
  destruct (startsWith "/setup" (trim t)) eqn:E; [|done].
  apply (startsWith_app "/" "setup") in E. congruence.
Qed.

Definition commands : list string := ["list"; "cancel"; "clear"; "mode"].

Lemma trim_word b : one_word b -> trim b = b.
Proof. intros [_ F]. by apply trim_no_ws. Qed.

Lemma slash_words name :
  one_word name -> trim ("/setup " +:+ name) = "/setup " +:+ name /\ words ("/setup " +:+ name) = ["/setup"; name].
Proof.
  intros O. assert ("/setup " +:+ name = "/setup" +:+ " " +:+ name) as E by done. rewrite E. split.
  - apply trim_wrap; [done|apply O|done|by apply trim_word].
  - apply words_two; [by split|done].
Qed.

(** Starting a dialogue. *)
Lemma start_dialogue s name svc ps w :
  one_word name -> toLowerCase name ∉ commands -> vs_normalize (toLowerCase name) = Some svc ->
  handleSecureSetupFlow s ("/setup " +:+ name) ps w =
  handled (mset s (mkSetup svc AskIdentifier None None) ps) w
    (promptForIdentifier svc +:+ nl +:+ "Type /setup cancel to abort.").
Proof.
  intros O C N. unfold handleSecureSetupFlow, handleSlashSetupCommand.
  destruct (slash_words name O) as [-> ->]. cbn [startsWith].
  change (startsWith "/setup" ("/setup " +:+ name)) with true. cbn [negb length Nat.eqb].
  change (["/setup"; name] !! 1) with (Some name). cbn [from_option id]. rewrite (trim_word name O).
  assert (forall c, c ∈ commands -> (toLowerCase name =? c)%string = false) as NC
    by (intros c Hc; apply String.eqb_neq; by intros <-).
  rewrite (NC "list"), (NC "cancel"), (NC "clear"), (NC "mode") by (unfold commands; set_solver).
  by rewrite N.
Qed.

Lemma dialogue_step s t ps w p :
  mget s ps = Some p -> value_text t ->
  handlePendingSetupInput s t ps w =
  match ps_step p with
  | AskIdentifier =>
      handled (mset s (mkSetup (ps_service p) AskAuthMode (ps_authMode p) (Some (trim t))) ps) w
        (promptForAuthMode (ps_service p) +:+ nl +:+ "Identifier saved: " +:+ redactIdentifier (trim t))
  | AskAuthMode =>
      match normalizeAuthMode (trim t) with
      | None => handled ps w "Invalid auth mode. Type password, password+mfa, or mfa. (or /setup mode password|password+mfa|mfa)"
      | Some mode =>
          handled (mset s (set_mode mode p) ps) w
            (promptForSecret (ps_service p) mode +:+ nl +:+ "Identifier saved: "
             +:+ redactIdentifier (default "" (ps_identifier p)))
      end
  | AskSecret =>
      let ident := trim (default "" (ps_identifier p)) in
      if negb (truthy ident)
      then handled (mdelete s ps) w "Setup flow reset due to missing identifier. Run /setup <service-or-site> again."
      else
        match vs_set (credential_input p ident t) w with
        | Throw message => handled ps w ("Could not save secure credentials yet: " +:+ message)
        | Ok (w1, _) => handled (mdelete s ps) w1 (completionText (ps_service p) (default password (ps_authMode p)))
        end
  end.
Proof.
  intros G [N V]. unfold handlePendingSetupInput. rewrite G. apply truthy_true in N. cbv zeta. by rewrite N, V.
Qed.

(** ** Properties *)

(** C18: the dialogue stores the login.  Against any vault that keeps its
    promise: a user who names a service, then answers with an identifier, a
    password mode and a secret, ends with the dialogue closed, other sessions'
    dialogues as they were, a reply that does not depend on the secret, and the
    vault returning, for every spelling of the service, that identifier and
    exactly the secret that was typed. *)
Theorem setup_flow_saves s name svc ident mode_text mode raw ps w :
  vs_ok w -> one_word name -> toLowerCase name ∉ commands ->
  vs_normalize (toLowerCase name) = Some svc -> vs_normalize svc = Some svc -> svc <> "__proto__" ->
  value_text ident -> value_text mode_text -> value_text raw ->
  normalizeAuthMode (trim mode_text) = Some mode -> mode <> passwordless_mfa_code ->
  exists ps' w' r,
    run s ["/setup " +:+ name; ident; mode_text; raw] ps w None = Ok (ps', w', Some (completionText svc mode)) /\
    getSetupFlowState s ps' = None /\ (forall s', s' <> s -> mget s' ps' = mget s' ps) /\ vs_ok w' /\
    identifier r = trim ident /\ authMode r = mode /\ secret r = raw /\
    (forall q, vs_normalize q = Some svc -> vs_get q w' = Ok (Found r)).
Proof.
  intros OK O C N ST PR VI VM VR NM MP. cbn [run].
  rewrite (start_dialogue s name svc) by done. cbn [rbind handled].
  rewrite value_to_dialogue by done. erewrite dialogue_step by (done || apply mget_mset_eq). cbn [ps_step rbind handled].
  rewrite value_to_dialogue by done. erewrite dialogue_step by (done || apply mget_mset_eq). cbn [ps_step].
  rewrite NM. cbn [rbind handled].
  rewrite value_to_dialogue by done. erewrite dialogue_step by (done || apply mget_mset_eq).
  cbn [ps_step ps_identifier set_mode from_option id ps_service ps_authMode]. rewrite trim_idemp.
  destruct VI as [NI _]. apply truthy_true in NI as TI. rewrite TI. cbn [negb].
  match goal with |- context [vs_set ?i w] => set (input := i) end.
  assert (acceptable vs_normalize input svc) as AC.
  { split; try done.
    - change (in_identifier input) with (trim ident). by rewrite trim_idemp.
    - intros _. change (in_secret input) with (if bool_decide (mode = passwordless_mfa_code) then "" else raw).
      rewrite bool_decide_eq_false_2 by done. apply VR. }
  destruct (vs_saves input svc w OK AC) as (w' & created & r & E & OK' & [AI AM AS] & G).
  rewrite E. cbn [rbind handled]. do 3 eexists. split; [reflexivity|].
  unfold getSetupFlowState. rewrite mget_mdelete_eq. split; [done|].
  split; [intros s' NE; rewrite mget_mdelete_ne by done; by rewrite !mget_mset_ne|].
  split; [done|]. change (in_identifier input) with (trim ident) in AI. rewrite trim_idemp in AI.
  change (authMode r = mode) in AM. split; [done|]. split; [done|]. split; [|done].
  rewrite AS by congruence. change (in_secret input) with (if bool_decide (mode = passwordless_mfa_code) then "" else raw).
  by rewrite bool_decide_eq_false_2.
Qed.
End Facts.

(** choosing the mode first loses the answer.  While the dialogue waits for
    the identifier, [/setup mode password] moves it to the secret without one;
    the next value the user types is thrown away, the dialogue is closed and
    nothing is saved, for every vault. *)
Theorem mode_skips_identifier {W} `{VaultService W} s svc t ps w :
  mget s ps = Some (mkSetup svc AskIdentifier None None) -> value_text t ->
  exists ps', run s ["/setup mode password"; t] ps w None =
      Ok (ps', w, Some "Setup flow reset due to missing identifier. Run /setup <service-or-site> again.") /\
    mget s ps' = None.
Proof.
  intros G V. cbn [run].
  assert (handleSecureSetupFlow s "/setup mode password" ps w =
    handled (mset s (mkSetup svc AskSecret (Some password) None) ps) w
      (promptForSecret svc password +:+ nl +:+ "Identifier saved: " +:+ redactIdentifier "")) as ->.
  { unfold handleSecureSetupFlow, handleSlashSetupCommand.
    change (trim "/setup mode password") with "/setup mode password".
    change (words "/setup mode password") with ["/setup"; "mode"; "password"].
    change (startsWith "/setup" "/setup mode password") with true. cbn [negb length Nat.eqb].
    change (toLowerCase (trim (default "" (["/setup"; "mode"; "password"] !! 1)))) with "mode".
    change (default "" (["/setup"; "mode"; "password"] !! 2)) with "password".
    change (normalizeAuthMode "password") with (Some password). cbn [String.eqb Ascii.eqb Bool.eqb]. by rewrite G. }
  cbn [rbind handled]. rewrite value_to_dialogue by done.
  erewrite dialogue_step by (done || apply mget_mset_eq). cbn [ps_step ps_identifier from_option id].
  change (truthy (trim "")) with false. cbn [negb rbind handled]. eexists. split; [reflexivity|]. apply mget_mdelete_eq.
Qed.

(** ** The vault keeps the promise *)

Section Instance.
Context (url_hostname : string -> option string) `{Cipher} (dir : string) (en : entropy).
Hypothesis now_positive : (0 < e_now en)%Z.
Hypothesis iv_given : e_iv en <> "".

#[export] Instance vault_service : VaultService world.
Proof.
  refine {| vs_normalize := normalizeSetupService url_hostname;
            vs_list := listConfiguredServices url_hostname dir en;
            vs_delete := fun svc => deleteCredential url_hostname dir svc en;
            vs_set := fun p => setCredential url_hostname dir p en;
            vs_get := fun q w => let? r := getCredential url_hostname dir q en w in Ok r.2;
            vs_ok := fun w => exists rs, opens url_hostname dir w rs |}.
  intros p svc w [rs O] [S ST PR ID SC SO].
  assert (valid_input url_hostname p svc) as V.
  { split; try done.
    - intros M. apply SC. by rewrite M.
    - intros M E. apply SC; [by rewrite M|by rewrite E].
    - rewrite SO. by intros x. }
  destruct (setCredential_ok url_hostname dir p svc en w rs O V now_positive iv_given) as (w' & r & E & O' & I & M & SE).
  exists w'. eexists. exists r. split; [exact E|]. split; [by exists (mset svc r rs)|]. split; [by split|].
  intros q N. destruct (getCredential_ok url_hostname dir q svc en w' _ O' N) as [w2 ->]. simpl.
  unfold lookup. by rewrite obj_lookup_mset, bool_decide_eq_true_2.
Defined.
End Instance.

#[local] Existing Instance plain_cipher.
Definition sample_service : VaultService world :=
  vault_service sample_hostname "/ws" sample_entropy eq_refl ltac:(discriminate).

Lemma setup_flow_saves_witness :
  exists ps' w' r,
    @run world sample_service "chat1" ["/setup " +:+ "Example.com"; " bob"; "PASSWORD"; "hunter2 "] []
      (mkWorld [] None) None = Ok (ps', w', Some (completionText "example.com" password)) /\
    identifier r = "bob" /\ secret r = "hunter2 ".
Proof.
  destruct (@setup_flow_saves world sample_service "chat1" "Example.com" "example.com" " bob" "PASSWORD" password "hunter2 "
    [] (mkWorld [] None)) as (ps' & w' & r & R & _ & _ & _ & I & _ & S & _).
  - exists []. apply opens_empty.
  - split; [discriminate|reflexivity].
  - apply (bool_decide_eq_false_1 _). reflexivity.
  - reflexivity.
  - reflexivity.
  - discriminate.
  - split; [discriminate|reflexivity].
  - split; [discriminate|reflexivity].
  - split; [discriminate|reflexivity].
  - reflexivity.
  - discriminate.
  - exists ps', w', r. split; [exact R|]. split; [exact I|exact S].
Defined.

Lemma mode_skips_identifier_witness :
  exists ps', @run world sample_service "chat1" ["/setup mode password"; "bob"]
      [("chat1", mkSetup "example.com" AskIdentifier None None)] (mkWorld [] None) None =
      Ok (ps', mkWorld [] None, Some "Setup flow reset due to missing identifier. Run /setup <service-or-site> again.") /\
    mget "chat1" ps' = None.
Proof.
  apply (@mode_skips_identifier world sample_service "chat1" "example.com" "bob"); [reflexivity|].
  split; [discriminate|reflexivity].
Defined.
