(* ===== verification/ExecTool.v ===== *)
(** * The exec tool

    [src/src/agents/bash-tools.exec.ts]: runs a shell command for the model after the
    checks of [SelfProtection] and [Vault].  Node's [child_process.exec] is the
    parameter [shell]: from the command and its options to the error message of a
    failed run, if any, and the two outputs. *)

From stdpp Require Import base list sets strings.
From Stdlib Require Import Ascii Lia ZArith.
From S2P Require Import Prelude JsString JsMap JsValue SelfProtection Vault.

Record ExecToolDefaults := mkExecDefaults {
  d_cwd : option string;
  d_timeoutSec : option num;
  d_allowBackground : option bool;
  d_selfProtection : option SelfProtectionPolicy;
}.

(** What is handed to [exec]. *)
Record exec_call := mkExec { x_command : string; x_cwd : string; x_timeout_ms : num }.
Record exec_outcome := mkExecOutcome { x_error : option string; x_stdout : string; x_stderr : string }.

Definition nl : string := String (ascii_of_nat 10) EmptyString.

(** [error.message || String(error)] of an [Error] is its message, or ["Error"]. *)
Definition toErrorMessage (message : string) : string := if truthy message then message else "Error".

(** [n * 1000] *)
Definition times_1000 (n : num) : num :=
  match n with NFin m k => NFin (m * 1000) k | n => n end.

Section Exec.
Variables (pcwd home : string).
Variable shell : exec_call -> exec_outcome.

Definition failure_text (base out err : string) : string :=
  join (nl +:+ nl) (List.filter truthy
    [base;
     (if truthy (trim err) then "stderr:" +:+ nl +:+ trim err else "");
     (if truthy (trim out) then "stdout:" +:+ nl +:+ trim out else "")]).

(** The calls made and the result. *)
Definition execute (defaults : option ExecToolDefaults) (params : value) : list exec_call * result value :=
  let defaultCwd := default pcwd (defaults ≫= d_cwd) in
  let timeoutSec := match defaults ≫= d_timeoutSec with
                    | Some n => if num_lt (NInt 0) n then n else NInt 180
                    | None => NInt 180
                    end in
  let allowBackground := negb (bool_decide ((defaults ≫= d_allowBackground) = Some false)) in
  let command := trim (to_string (nullish (get_prop "command" params) (VStr ""))) in
  if negb (truthy command) then ([], Throw "Provide a command to run.")
  else
    let cwd0 := trim (to_string (nullish (get_prop "workdir" params) (VStr defaultCwd))) in
    let cwd := if truthy cwd0 then cwd0 else defaultCwd in
    let timeout := match get_prop "timeout" params with
                   | VNum t => if isFinite t && num_lt (NInt 0) t then num_floor t else timeoutSec
                   | _ => timeoutSec
                   end in
    let background := match get_prop "background" params with VBool b => b | _ => false end in
    let guard := match defaults ≫= d_selfProtection with
                 | Some policy => assertExecCommandAllowed pcwd home cwd policy command
                 | None => Ok tt
                 end in
    match guard with
    | Throw e => ([], Throw e)
    | Ok _ =>
        if commandTouchesSensitivePath command
        then ([], Throw "Command blocked: direct access to .env or vault credential paths is not allowed.")
        else if background && negb allowBackground then ([], Throw "Background execution is disabled.")
        else
          let call := mkExec command cwd (times_1000 timeout) in
          let o := shell call in
          ([call],
           match x_error o with
           | Some e => Throw (failure_text (toErrorMessage e) (x_stdout o) (x_stderr o))
           | None => Ok (VObj [("status", VStr "completed"); ("command", VStr command); ("cwd", VStr cwd);
                               ("background", VBool background); ("stdout", VStr (x_stdout o));
                               ("stderr", VStr (x_stderr o))])
           end)
    end.
End Exec.

(** ** Properties *)

(** the tool runs nothing unchecked.  Whatever the model passes, at most one
    command reaches the shell; it is the trimmed text of the call, it was
    accepted by the configured protection policy in the very directory it runs
    in, and it names no [.env] file and no vault file; when nothing runs, the
    tool fails. *)
Theorem execute_checked pcwd home shell defaults params :
  let '(calls, r) := execute pcwd home shell defaults params in
  (calls = [] /\ is_ok r = false) \/
  exists call, calls = [call] /\ x_command call <> "" /\ trim (x_command call) = x_command call /\
    commandTouchesSensitivePath (x_command call) = false /\
    (forall policy, (defaults ≫= d_selfProtection) = Some policy ->
       assertExecCommandAllowed pcwd home (x_cwd call) policy (x_command call) = Ok tt) /\
    (is_ok r = true <-> x_error (shell call) = None).
Proof.
  unfold execute. cbv zeta. set (command := trim _). destruct (truthy command) eqn:T; [|by left]. cbn [negb].
  set (cwd := if truthy _ then _ else _).
  destruct (match defaults ≫= d_selfProtection with Some _ => _ | None => _ end) as [u|e] eqn:G; [|by left].
  destruct (commandTouchesSensitivePath command) eqn:S; [by left|].
  destruct (_ && negb _); [by left|]. right. eexists. split; [reflexivity|]. cbn [x_command x_cwd].
  split; [by apply truthy_true|]. split; [apply trim_idemp|]. split; [done|]. split.
  - intros policy P. rewrite P in G. by destruct u.
  - by destruct (x_error _).
Qed.
