(* ===== verification/EditableRegions.v ===== *)
(** * Editable regions of files

    [src/src/agents/tools/fs-tools.ts], first part: a file that holds the markers
    [T560_EDITABLE_START] and [T560_EDITABLE_END] may only be changed between
    them.  The file tools check a replacement ([edit]) and a whole new content
    ([write]) against the regions; [FsTools] models the tools themselves.

    Texts are lists of characters here; positions are indices into them, as in
    the source.  The specification of the checks is about the protected chunks
    ([gaps]), the pieces of the text before, between and after the regions. *)

From stdpp Require Import base list sets strings.
From Stdlib Require Import Ascii Lia.
From S2P Require Import Prelude JsString.

Definition EDITABLE_START_MARKER : string := "T560_EDITABLE_START".
Definition EDITABLE_END_MARKER : string := "T560_EDITABLE_END".
Definition start_marker : list ascii := chars EDITABLE_START_MARKER.
Definition end_marker : list ascii := chars EDITABLE_END_MARKER.
Definition line_feed : ascii := ascii_of_nat 10.

(** Also the type of the match ranges. *)
Record EditableRange := mkRange { r_start : nat; r_end : nat }.

(** [content.slice(a, b)] for [a <= b]. *)
Definition piece (l : list ascii) (a b : nat) : list ascii := firstn (b - a) (skipn a l).

(** [content.indexOf(p, pos)] for a needle that is not empty. *)
Definition index_from (p l : list ascii) (pos : nat) : option nat :=
  option_map (Nat.add pos) (list_index p (skipn pos l)).

(** The loop of [parseEditableRanges].  Every iteration moves the cursor past an
    end marker, so the length of the text is enough fuel. *)
Fixpoint parse_ranges (fuel : nat) (content : list ascii) (cursor : nat) : list EditableRange :=
  match fuel with
  | O => []
  | S fuel' =>
      if (cursor <? length content)%nat then
        match index_from start_marker content cursor with
        | None => []
        | Some startMarker =>
            let editableStart := match index_from [line_feed] content startMarker with
                                 | Some startLineBreak => startLineBreak + 1
                                 | None => length content
                                 end in
            match index_from end_marker content editableStart with
            | None => []
            | Some endMarker =>
                mkRange editableStart endMarker :: parse_ranges fuel' content (endMarker + length end_marker)
            end
        end
      else []
  end.
Definition parseEditableRanges (content : list ascii) : list EditableRange :=
  parse_ranges (S (length content)) content 0.

Definition isWithinEditableRanges (ranges : list EditableRange) (start finish : nat) : bool :=
  existsb (fun r => (r_start r <=? start)%nat && (finish <=? r_end r)%nat) ranges.

(** The loop of [collectMatchRanges], for a needle that is not empty. *)
Fixpoint collect_matches (fuel : nat) (content needle : list ascii) (cursor : nat) : list EditableRange :=
  match fuel with
  | O => []
  | S fuel' =>
      if (cursor <=? length content)%nat then
        match index_from needle content cursor with
        | None => []
        | Some idx => mkRange idx (idx + length needle)
                        :: collect_matches fuel' content needle (idx + length needle)
        end
      else []
  end.
Definition collectMatchRanges (content needle : list ascii) : list EditableRange :=
  collect_matches (S (length content)) content needle 0.

(** The chunks of [projectNonEditableContent]. *)
Fixpoint gaps (content : list ascii) (cursor : nat) (ranges : list EditableRange) : list (list ascii) :=
  match ranges with
  | [] => [skipn cursor content]
  | r :: ranges' => piece content cursor (r_start r) :: gaps content (r_end r) ranges'
  end.
Definition projectNonEditableContent (content : list ascii) (ranges : list EditableRange) : list ascii :=
  match ranges with [] => content | _ => concat (gaps content 0 ranges) end.

Definition edit_blocked : string :=
  "Edit blocked: file has editable-region markers (" +:+ EDITABLE_START_MARKER +:+ "/" +:+ EDITABLE_END_MARKER
  +:+ ") and this change touches protected content.".

Definition assertEditWithinAllowedRanges (content findText : list ascii) (replaceAll : bool) : result unit :=
  match parseEditableRanges content with
  | [] => Ok tt
  | ranges =>
      match collectMatchRanges content findText with
      | [] => Ok tt
      | first :: others =>
          for_each (fun m => if isWithinEditableRanges ranges (r_start m) (r_end m) then Ok tt
                             else Throw edit_blocked)
            (if replaceAll then first :: others else [first])
      end
  end.

Definition assertWriteWithinAllowedRanges (existingContent nextContent : list ascii) : result unit :=
  match parseEditableRanges existingContent with
  | [] => Ok tt
  | beforeRanges =>
      match parseEditableRanges nextContent with
      | [] => Throw ("Write blocked: files with " +:+ EDITABLE_START_MARKER +:+ "/" +:+ EDITABLE_END_MARKER
                     +:+ " must preserve markers and only change text between them.")
      | afterRanges =>
          if bool_decide (projectNonEditableContent existingContent beforeRanges =
                          projectNonEditableContent nextContent afterRanges)
          then Ok tt
          else Throw ("Write blocked: only content between " +:+ EDITABLE_START_MARKER +:+ "/"
                      +:+ EDITABLE_END_MARKER +:+ " can change.")
      end
  end.

(** ** Replacing text *)

(** [content.split(needle)] for a needle that is not empty; every piece but the
    last is followed by an occurrence, so the length is enough fuel. *)
Fixpoint split_text (fuel : nat) (needle l : list ascii) : list (list ascii) :=
  match fuel with
  | O => [l]
  | S fuel' =>
      match list_index needle l with
      | None => [l]
      | Some i => firstn i l :: split_text fuel' needle (skipn (i + length needle) l)
      end
  end.
(** [parts.join(sep)] *)
Fixpoint join_text (sep : list ascii) (parts : list (list ascii)) : list ascii :=
  match parts with
  | [] => []
  | [p] => p
  | p :: parts' => p ++ sep ++ join_text sep parts'
  end.
Definition replace_all (needle replacement l : list ascii) : list ascii :=
  join_text replacement (split_text (S (length l)) needle l).

(** [GetSubstitution] of ECMAScript for a string pattern: [$$], [$&], [$`] and
    [$'] in the replacement stand for a dollar, the match, the text before it
    and the text after it. *)
Fixpoint substitution (matched before after template : list ascii) : list ascii :=
  match template with
  | [] => []
  | c :: rest =>
      match rest with
      | d :: rest' =>
          if (code c =? 36)%nat then
            if (code d =? 36)%nat then c :: substitution matched before after rest'
            else if (code d =? 38)%nat then matched ++ substitution matched before after rest'
            else if (code d =? 96)%nat then before ++ substitution matched before after rest'
            else if (code d =? 39)%nat then after ++ substitution matched before after rest'
            else c :: substitution matched before after rest
          else c :: substitution matched before after rest
      | [] => [c]
      end
  end.
(** [content.replace(needle, replacement)] *)
Definition replace_first (needle replacement l : list ascii) : list ascii :=
  match list_index needle l with
  | None => l
  | Some i =>
      let before := firstn i l in
      let after := skipn (i + length needle) l in
      before ++ substitution needle before after replacement ++ after
  end.

(** The new content of [edit]. *)
Definition edited (content findText replaceText : list ascii) (replaceAll : bool) : list ascii :=
  if replaceAll then replace_all findText replaceText content else replace_first findText replaceText content.

(** ** Searching in a text *)

Lemma list_index_char c a r :
  c ∉ a -> list_index [c] (a ++ r) = option_map (Nat.add (length a)) (list_index [c] r).
Proof.
  induction a as [|d a IH]; intros N; simpl; [by destruct (list_index [c] r)|].
  rewrite bool_decide_eq_false_2 by set_solver. simpl. rewrite IH by set_solver.
  by destruct (list_index [c] r).
Qed.

Lemma list_prefix_cut p l k x : length p <= k -> k <= length l -> list_prefix p (firstn k l ++ x) = list_prefix p l.
Proof.
  revert l k. induction p as [|c p IH]; intros l k P L; simpl; [by destruct (firstn k l ++ x)|].
  destruct k as [|k]; simpl in *; [lia|]. destruct l as [|d l]; simpl in *; [lia|].
  by rewrite IH by lia.
Qed.

(** An occurrence is still the first one when the text behind it changes. *)
Lemma list_index_cut p l k x i :
  list_index p l = Some i -> i + length p <= k -> k <= length l -> list_index p (firstn k l ++ x) = Some i.
Proof.
  revert k i. induction l as [|c l IH]; intros k i E P L.
  - simpl in *. assert (k = 0) as -> by lia. assert (length p = 0) as Z by lia. apply nil_length_inv in Z as ->.
    simpl in E. injection E as <-. by destruct x.
  - pose proof (list_prefix_cut p (c :: l) k x ltac:(lia) L) as C. simpl in E.
    destruct (list_prefix p (c :: l)) eqn:F.
    + injection E as <-. destruct (firstn k (c :: l) ++ x); simpl; by rewrite C.
    + destruct (list_index p l) as [j|] eqn:G; [|done]. simpl in E. injection E as <-.
      destruct k as [|k]; [lia|]. simpl in *. rewrite C. rewrite (IH k j) by (done || lia). done.
Qed.

Lemma list_index_bound p l i : list_index p l = Some i -> i + length p <= length l.
Proof. intros (a & b & -> & <-)%list_index_Some. rewrite !length_app. lia. Qed.

Lemma list_index_here p l : list_index p (p ++ l) = Some 0.
Proof.
  assert (list_prefix p (p ++ l) = true) as E by (apply list_prefix_spec; eauto).
  destruct (p ++ l); simpl; by rewrite E.
Qed.

Lemma piece_skipn l a b : a <= b -> piece l a b ++ skipn b l = skipn a l.
Proof.
  intros L. unfold piece. replace b with (a + (b - a)) at 2 by lia.
  rewrite <- skipn_skipn_add. apply firstn_skipn.
Qed.

Lemma piece_piece l a b c : a <= b -> b <= c -> piece l a b ++ piece l b c = piece l a c.
Proof.
  intros L M. unfold piece. replace (skipn b l) with (skipn (b - a) (skipn a l))
    by (rewrite skipn_skipn_add; f_equal; lia).
  replace (c - a) with ((b - a) + (c - b)) by lia. apply take_take_drop.
Qed.

(** ** Regions of a suffix *)

(** The first region of a text: where it starts and ends. *)
Definition next_region (l : list ascii) : option (nat * nat) :=
  match list_index start_marker l with
  | None => None
  | Some s =>
      match list_index [line_feed] (skipn s l) with
      | None => None
      | Some n =>
          match list_index end_marker (skipn (s + n + 1) l) with
          | None => None
          | Some e => Some (s + n + 1, s + n + 1 + e)
          end
      end
  end.

Lemma next_region_bounds l es em :
  next_region l = Some (es, em) -> 0 < es /\ es <= em /\ em + length end_marker <= length l /\ es <= length l.
Proof.
  unfold next_region. destruct (list_index start_marker l) as [s|]; [|done].
  destruct (list_index [line_feed] _) as [n|]; [|done].
  destruct (list_index end_marker _) as [e|] eqn:E; [|done]. intros [= <- <-].
  pose proof (list_index_bound _ _ _ E) as B. rewrite length_skipn in B.
  assert (0 < length end_marker) by (vm_compute; lia). lia.
Qed.

Lemma index_from_skipn p l a b : index_from p l (a + b) = option_map (Nat.add a) (index_from p (skipn a l) b).
Proof.
  unfold index_from. rewrite skipn_skipn_add. destruct (list_index _ _); simpl; [f_equal; lia|done].
Qed.

Lemma parse_ranges_step fuel l cursor :
  parse_ranges (S fuel) l cursor =
  match next_region (skipn cursor l) with
  | None => []
  | Some (es, em) => mkRange (cursor + es) (cursor + em) :: parse_ranges fuel l (cursor + em + length end_marker)
  end.
Proof.
  cbn [parse_ranges]. destruct (Nat.ltb_spec cursor (length l)) as [L|L];
    [|rewrite (skipn_all2 l) by lia; done].
  unfold next_region, index_from. destruct (list_index start_marker (skipn cursor l)) as [s|]; cbn [option_map]; [|done].
  rewrite (skipn_skipn_add l). destruct (list_index [line_feed] (skipn (cursor + s) l)) as [n|]; cbn [option_map].
  - replace (cursor + s + n + 1) with (cursor + (s + n + 1)) by lia.
    rewrite (skipn_skipn_add l). destruct (list_index end_marker _) as [e|]; cbn [option_map]; [|done].
    f_equal; f_equal; lia.
  - by rewrite skipn_all.
Qed.

Lemma parse_ranges_fuel fuel fuel' l cursor :
  length l < cursor + fuel -> length l < cursor + fuel' -> parse_ranges fuel l cursor = parse_ranges fuel' l cursor.
Proof.
  revert fuel' cursor. induction fuel as [|fuel IH]; intros fuel' cursor F F'.
  - destruct fuel' as [|fuel']; [done|]. rewrite parse_ranges_step, skipn_all2 by lia. done.
  - rewrite parse_ranges_step. destruct fuel' as [|fuel']; [by rewrite skipn_all2 by lia|].
    rewrite parse_ranges_step. destruct (next_region _) as [[es em]|] eqn:E; [|done].
    f_equal. apply next_region_bounds in E. apply IH; lia.
Qed.

(** The protected chunks of a text that follows the protected text [lead]. *)
Fixpoint chunks (fuel : nat) (lead l : list ascii) : list (list ascii) :=
  match fuel with
  | O => [lead ++ l]
  | S fuel' =>
      match next_region l with
      | None => [lead ++ l]
      | Some (es, em) => (lead ++ firstn es l) :: chunks fuel' end_marker (skipn (em + length end_marker) l)
      end
  end.

Lemma skipn_lead {A} (l : list A) e lead rest : skipn e l = lead ++ rest -> skipn (e + length lead) l = rest.
Proof. intros H. rewrite <- skipn_skipn_add, H. apply drop_app_length. Qed.

Lemma next_region_end l es em :
  next_region l = Some (es, em) -> skipn em l = end_marker ++ skipn (em + length end_marker) l.
Proof.
  unfold next_region. destruct (list_index start_marker l) as [s|]; [|done].
  destruct (list_index [line_feed] _) as [n|]; [|done].
  destruct (list_index end_marker _) as [e|] eqn:E; [|done]. intros [= <- <-].
  apply list_index_Some in E as (a & b & E & <-). apply skipn_lead in E. rewrite E. f_equal.
  symmetry. by apply skipn_lead.
Qed.

Lemma gaps_chunks fuel l e lead rest :
  skipn e l = lead ++ rest -> gaps l e (parse_ranges fuel l (e + length lead)) = chunks fuel lead rest.
Proof.
  revert e lead rest. induction fuel as [|fuel IH]; intros e lead rest H; [simpl; by rewrite H|].
  rewrite parse_ranges_step. pose proof (skipn_lead _ _ _ _ H) as R. rewrite R. cbn [chunks].
  destruct (next_region rest) as [[es em]|] eqn:E; [|simpl; by rewrite H]. cbn [gaps r_start r_end]. f_equal.
  - unfold piece. rewrite H. replace (e + length lead + es - e) with (length lead + es) by lia.
    by rewrite firstn_app_2.
  - rewrite <- (IH (e + length lead + em) end_marker); [done|].
    rewrite <- skipn_skipn_add, R. by apply next_region_end in E.
Qed.

(** ** The protected text determines the chunks *)

Lemma next_region_cut l es em x :
  next_region l = Some (es, em) -> next_region (firstn es l ++ end_marker ++ x) = Some (es, es).
Proof.
  intros H. pose proof (next_region_bounds _ _ _ H) as B. revert H. unfold next_region.
  destruct (list_index start_marker l) as [s|] eqn:S; [|done].
  destruct (list_index [line_feed] (skipn s l)) as [n|] eqn:N; [|done].
  destruct (list_index end_marker (skipn (s + n + 1) l)) as [e|]; [|done]. intros [= <- <-].
  assert (length start_marker <= n) as LN.
  { apply list_index_Some in S as (a & b & -> & <-). rewrite drop_app_length in N.
    rewrite list_index_char in N by (apply (bool_decide_eq_true_1 _); vm_compute; reflexivity).
    destruct (list_index [line_feed] b) as [k|]; [|done]. cbn [option_map] in N.
    assert (length start_marker + k = n) by congruence. lia. }
  rewrite (list_index_cut _ _ _ _ s S) by lia.
  rewrite skipn_app, firstn_length_le, skipn_firstn_comm by lia.
  replace (s - (s + n + 1)) with 0 by lia. replace (s + n + 1 - s) with (n + 1) by lia. rewrite drop_0.
  rewrite (list_index_cut _ _ _ _ n N) by (simpl; rewrite ?length_skipn; lia).
  rewrite skipn_app, firstn_length_le, skipn_firstn_comm, Nat.sub_diag by lia. rewrite firstn_O, drop_0, app_nil_l, list_index_here. f_equal. f_equal. lia.
Qed.

(** The protected text behind [lead]. *)
Fixpoint protected (fuel : nat) (l : list ascii) : list ascii :=
  match fuel with
  | O => l
  | S fuel' =>
      match next_region l with
      | None => l
      | Some (es, em) => firstn es l ++ end_marker ++ protected fuel' (skipn (em + length end_marker) l)
      end
  end.

Lemma concat_chunks fuel lead l : concat (chunks fuel lead l) = lead ++ protected fuel l.
Proof.
  revert lead l. induction fuel as [|fuel IH]; intros lead l; simpl; [by rewrite app_nil_r|].
  destruct (next_region l) as [[es em]|]; simpl; [|by rewrite app_nil_r].
  by rewrite IH, <- app_assoc.
Qed.

Lemma next_region_protected fuel l :
  length l < fuel -> next_region (protected fuel l) = match next_region l with
                                                      | None => None
                                                      | Some (es, _) => Some (es, es)
                                                      end.
Proof.
  destruct fuel as [|fuel]; [lia|]. intros _. cbn [protected].
  destruct (next_region l) as [[es em]|] eqn:E; [|done]. by eapply next_region_cut.
Qed.

Lemma protected_chunks fuel fuel' lead l l' :
  length l < fuel -> length l' < fuel' -> protected fuel l = protected fuel' l' ->
  chunks fuel lead l = chunks fuel' lead l'.
Proof.
  revert fuel' lead l l'. induction fuel as [|fuel IH]; intros fuel' lead l l' F F' E; [lia|].
  destruct fuel' as [|fuel']; [lia|]. pose proof (next_region_protected _ _ F) as N.
  rewrite E, (next_region_protected _ _ F') in N. cbn [protected] in E. cbn [chunks].
  destruct (next_region l) as [[es em]|] eqn:R; destruct (next_region l') as [[es' em']|] eqn:R';
    [|done|done|by rewrite E]. injection N as ->.
  pose proof (next_region_bounds _ _ _ R) as B. pose proof (next_region_bounds _ _ _ R') as B'.
  apply app_inj_1 in E as [E1 E2]; [|rewrite !firstn_length_le; lia].
  apply app_inv_head in E2. rewrite E1. f_equal.
  apply IH; [rewrite length_skipn; lia..|done].
Qed.

Lemma project_parse l :
  projectNonEditableContent l (parseEditableRanges l) = concat (gaps l 0 (parseEditableRanges l)).
Proof.
  unfold projectNonEditableContent. destruct (parseEditableRanges l); [|done]. simpl. by rewrite app_nil_r.
Qed.

Lemma gaps_parse l : gaps l 0 (parseEditableRanges l) = chunks (S (length l)) [] l.
Proof. exact (gaps_chunks (S (length l)) l 0 [] l eq_refl). Qed.

Lemma length_gaps l p rs : length (gaps l p rs) = S (length rs).
Proof. revert p. induction rs as [|r rs IH]; intros p; simpl; [done|]. by rewrite IH. Qed.

(** A write to a file with regions is let through exactly when the protected
    chunks stay the same. *)
Lemma assertWrite_spec old new :
  parseEditableRanges old <> [] ->
  assertWriteWithinAllowedRanges old new = Ok tt <->
  gaps new 0 (parseEditableRanges new) = gaps old 0 (parseEditableRanges old).
Proof.
  intros N. assert (projectNonEditableContent old (parseEditableRanges old) =
          projectNonEditableContent new (parseEditableRanges new) <->
          gaps new 0 (parseEditableRanges new) = gaps old 0 (parseEditableRanges old)) as E.
  { rewrite !project_parse. split; [|by intros ->]. rewrite !gaps_parse, !concat_chunks. intros E.
    symmetry. apply protected_chunks; [lia..|done]. }
  rewrite <- E. unfold assertWriteWithinAllowedRanges.
  destruct (parseEditableRanges old) as [|r rs] eqn:P; [done|].
  destruct (parseEditableRanges new) as [|r' rs'] eqn:P'; [|by case_bool_decide].
  split; [done|]. rewrite E. intros G. apply (f_equal length) in G. rewrite !length_gaps in G. simpl in G. lia.
Qed.

(** ** Replacements inside regions *)

(** The text with each of the given ranges, in order, replaced by [rep]. *)
Fixpoint render (rep l : list ascii) (cursor : nat) (ms : list EditableRange) : list ascii :=
  match ms with
  | [] => skipn cursor l
  | m :: ms' => piece l cursor (r_start m) ++ rep ++ render rep l (r_end m) ms'
  end.

(** Protected chunks with the given texts between them. *)
Fixpoint weave (chunks mids : list (list ascii)) : list ascii :=
  match chunks, mids with
  | g :: chunks', m :: mids' => g ++ m ++ weave chunks' mids'
  | g :: _, [] => g
  | [], _ => []
  end.

(** Ranges in order from a position on; nonempty ranges. *)
Fixpoint in_order (p : nat) (rs : list EditableRange) : Prop :=
  match rs with
  | [] => True
  | r :: rs' => p <= r_start r /\ r_start r <= r_end r /\ in_order (r_end r) rs'
  end.
Definition nonempty_range (m : EditableRange) : Prop := r_start m < r_end m.
Definition inside (rs : list EditableRange) (m : EditableRange) : Prop :=
  exists r, r ∈ rs /\ r_start r <= r_start m /\ r_end m <= r_end r.

Lemma isWithin_spec rs m : isWithinEditableRanges rs (r_start m) (r_end m) = true <-> inside rs m.
Proof.
  unfold isWithinEditableRanges, inside. rewrite existsb_exists. split; intros (r & H & K).
  - bool_prop. exists r. by rewrite list_elem_of_In.
  - exists r. rewrite <- list_elem_of_In, andb_true_iff, !Nat.leb_le. tauto.
Qed.

Lemma in_order_le p q rs : q <= p -> in_order p rs -> in_order q rs.
Proof. destruct rs; simpl; [done|]. intuition lia. Qed.

Lemma in_order_bound p rs r : in_order p rs -> r ∈ rs -> p <= r_start r.
Proof.
  revert p. induction rs as [|r' rs IH]; intros p; simpl; [set_solver|].
  intros (A & B & C) [->|H]%elem_of_cons; [done|]. specialize (IH _ C H). lia.
Qed.

Lemma render_shift rep l a b ms : a <= b -> in_order b ms -> render rep l a ms = piece l a b ++ render rep l b ms.
Proof.
  intros L H. destruct ms as [|m ms]; simpl in *; [by rewrite piece_skipn|].
  rewrite <- (piece_piece l a b (r_start m)) by lia. by rewrite <- !app_assoc.
Qed.

Lemma render_nil l p rs : in_order p rs -> exists mids, length mids = length rs /\ skipn p l = weave (gaps l p rs) mids.
Proof.
  revert p. induction rs as [|r rs IH]; intros p; simpl; [by exists []|].
  intros (A & B & C). destruct (IH _ C) as (mids & L & E). exists (piece l (r_start r) (r_end r) :: mids).
  simpl. split; [by rewrite L|]. by rewrite <- E, !piece_skipn by lia.
Qed.

Lemma inside_rest r rs m p :
  in_order p (r :: rs) -> inside (r :: rs) m -> nonempty_range m -> r_end r <= r_start m -> inside rs m.
Proof.
  unfold nonempty_range. intros O (q & [->|H]%elem_of_cons & A & B) N L; [lia|]. by exists q.
Qed.

(** From a point inside the first region on. *)
Lemma render_region rep l r rs ms c p :
  (forall ms, in_order (r_end r) ms -> Forall nonempty_range ms -> Forall (inside rs) ms ->
     exists mids, length mids = length rs /\ render rep l (r_end r) ms = weave (gaps l (r_end r) rs) mids) ->
  in_order p (r :: rs) -> in_order c ms -> Forall nonempty_range ms -> Forall (inside (r :: rs)) ms ->
  r_start r <= c -> c <= r_end r ->
  exists mid mids, length mids = length rs /\ render rep l c ms = mid ++ weave (gaps l (r_end r) rs) mids.
Proof.
  intros IH O. revert c. induction ms as [|m ms IHm]; intros c Om Ne In S E.
  - destruct (render_nil l (r_end r) rs) as (mids & L & W); [apply O|].
    exists (piece l c (r_end r)), mids. split; [done|]. simpl. by rewrite <- W, piece_skipn.
  - simpl in Om. destruct Om as (A & B & C). apply Forall_cons in Ne as [Nm Ne]. apply Forall_cons in In as [Im In].
    destruct (decide (r_end r <= r_start m)) as [G|G].
    + destruct (IH (m :: ms)) as (mids & L & W).
      * simpl. auto.
      * by constructor.
      * constructor; [by eapply inside_rest|].
        rewrite Forall_forall in *. intros m' H. eapply inside_rest; [done|by apply In|by apply Ne|].
        pose proof (in_order_bound _ _ _ C H). unfold nonempty_range in Nm. lia.
      * exists (piece l c (r_end r)), mids. split; [done|]. rewrite <- W. apply render_shift; [done|]. simpl. auto.
    + assert (r_end m <= r_end r) as Em.
      { destruct Im as (q & [->|H]%elem_of_cons & Q & Q'); [done|].
        destruct O as (_ & _ & O). pose proof (in_order_bound _ _ _ O H). lia. }
      destruct (IHm (r_end m)) as (mid & mids & L & W); [done..|lia|done|].
      exists (piece l c (r_start m) ++ rep ++ mid), mids. split; [done|]. simpl. by rewrite W, <- !app_assoc.
Qed.

Lemma render_weave rep l p rs ms :
  in_order p rs -> in_order p ms -> Forall nonempty_range ms -> Forall (inside rs) ms ->
  exists mids, length mids = length rs /\ render rep l p ms = weave (gaps l p rs) mids.
Proof.
  revert p ms. induction rs as [|r rs IH]; intros p ms O Om Ne In.
  - destruct ms as [|m ms]; [by exists []|]. apply Forall_cons in In as [(q & H & _) _]. set_solver.
  - assert (in_order (r_start r) ms) as Os.
    { destruct ms as [|m ms]; simpl in *; [done|]. split; [|tauto].
      apply Forall_cons in In as [(q & [->|H]%elem_of_cons & Q & _) _]; [done|].
      destruct O as (? & ? & O). pose proof (in_order_bound _ _ _ O H). lia. }
    destruct (render_region rep l r rs ms (r_start r) p) as (mid & mids & L & W); [|done..|apply O|].
    + intros ms' O'. apply IH; [apply O|done].
    + exists (mid :: mids). simpl. split; [by rewrite L|]. rewrite <- W. apply render_shift; [apply O|done].
Qed.

(** ** The two loops, and the replacements as renderings *)

Lemma parse_ranges_order fuel l cursor p : p <= cursor -> in_order p (parse_ranges fuel l cursor).
Proof.
  revert cursor p. induction fuel as [|fuel IH]; intros cursor p P; [done|]. rewrite parse_ranges_step.
  destruct (next_region _) as [[es em]|] eqn:E; [|done]. apply next_region_bounds in E. simpl.
  repeat split; [lia..|]. apply IH. lia.
Qed.

Lemma collect_matches_step fuel l needle cursor :
  needle <> [] ->
  collect_matches (S fuel) l needle cursor =
  match list_index needle (skipn cursor l) with
  | None => []
  | Some i => mkRange (cursor + i) (cursor + i + length needle)
                :: collect_matches fuel l needle (cursor + i + length needle)
  end.
Proof.
  intros N. cbn [collect_matches]. unfold index_from.
  destruct (Nat.leb_spec cursor (length l)); [by destruct (list_index _ _)|].
  rewrite (skipn_all2 l) by lia. by destruct needle.
Qed.

Lemma collect_matches_ok fuel l needle cursor p :
  needle <> [] -> p <= cursor ->
  in_order p (collect_matches fuel l needle cursor) /\ Forall nonempty_range (collect_matches fuel l needle cursor).
Proof.
  intros N. assert (0 < length needle) as Z by (destruct needle; simpl; [done|lia]).
  revert cursor p. induction fuel as [|fuel IH]; intros cursor p P; [done|].
  rewrite collect_matches_step by done. destruct (list_index _ _) as [i|]; [|done].
  destruct (IH (cursor + i + length needle) (cursor + i + length needle)) as [O F]; [lia|].
  split; simpl; [repeat split; (done || lia)|]. constructor; [|done]. unfold nonempty_range. simpl. lia.
Qed.

Lemma split_text_nonempty fuel needle l : split_text fuel needle l <> [].
Proof. destruct fuel; simpl; [done|]. by destruct (list_index _ _). Qed.

(** Splitting at the needle and joining is replacing each of the matches. *)
Lemma replace_all_render fuel needle rep l cursor :
  needle <> [] -> length l < cursor + fuel ->
  join_text rep (split_text fuel needle (skipn cursor l)) = render rep l cursor (collect_matches fuel l needle cursor).
Proof.
  intros N. assert (0 < length needle) as Z by (destruct needle; simpl; [done|lia]).
  revert cursor. induction fuel as [|fuel IH]; intros cursor F; [done|].
  rewrite collect_matches_step by done. cbn [split_text].
  destruct (list_index needle (skipn cursor l)) as [i|] eqn:E; [|done].
  pose proof (list_index_bound _ _ _ E) as B. rewrite length_skipn in B.
  rewrite skipn_skipn_add. cbn [render r_start r_end].
  rewrite <- (IH (cursor + i + length needle)) by lia. rewrite (Nat.add_assoc cursor i).
  unfold piece. replace (cursor + i - cursor) with i by lia. simpl join_text.
  pose proof (split_text_nonempty fuel needle (skipn (cursor + i + length needle) l)).
  by destruct (split_text _ _ _).
Qed.

Lemma replace_first_render needle rep l i :
  list_index needle l = Some i ->
  replace_first needle rep l =
  render (substitution needle (firstn i l) (skipn (i + length needle) l) rep) l 0 [mkRange i (i + length needle)].
Proof. intros E. unfold replace_first. rewrite E. simpl. unfold piece. by rewrite Nat.sub_0_r. Qed.

(** An edit that is let through keeps the protected chunks, in order; only the
    texts between them change. *)
Lemma assertEdit_ok content find rep all :
  find <> [] -> parseEditableRanges content <> [] ->
  assertEditWithinAllowedRanges content find all = Ok tt ->
  exists mids, length mids = length (parseEditableRanges content) /\
    edited content find rep all = weave (gaps content 0 (parseEditableRanges content)) mids.
Proof.
  intros N R A. pose proof (parse_ranges_order (S (length content)) content 0 0 (le_n 0)) as O.
  destruct (collect_matches_ok (S (length content)) content find 0 0 N (le_n 0)) as [Om Ne].
  fold (parseEditableRanges content) in O. fold (collectMatchRanges content find) in Om, Ne.
  assert (exists rep' ms, edited content find rep all = render rep' content 0 ms /\
    in_order 0 ms /\ Forall nonempty_range ms /\ Forall (inside (parseEditableRanges content)) ms)
    as (rep' & ms & -> & Oms & Nms & Ims); [|by apply render_weave].
  unfold assertEditWithinAllowedRanges in A. destruct (parseEditableRanges content) as [|r0 rs] eqn:P; [done|].
  rewrite <- P in *. clear P R.
  assert (forall ms, for_each (fun m => if isWithinEditableRanges (parseEditableRanges content) (r_start m) (r_end m)
    then Ok tt else Throw edit_blocked) ms = Ok tt -> Forall (inside (parseEditableRanges content)) ms) as K.
  { intros ms. rewrite for_each_ok, Forall_forall. intros H m Hm%list_elem_of_In. specialize (H m Hm).
    apply isWithin_spec. by destruct (isWithinEditableRanges _ _ _). }
  unfold edited. destruct all.
  - exists rep, (collectMatchRanges content find). split; [|split; [done|split; [done|]]].
    + unfold replace_all. rewrite <- (drop_0 content) at 2. by apply replace_all_render; [|lia].
    + destruct (collectMatchRanges content find) eqn:C; [done|]. rewrite <- C in *. by apply K.
  - destruct (list_index find content) as [i|] eqn:I.
    + eexists _, _. split; [by apply replace_first_render|].
      unfold collectMatchRanges in *. rewrite collect_matches_step, drop_0, I in * by done. simpl in Om, Ne, A.
      apply Forall_cons in Ne as [Ne _]. simpl. split; [split; [lia|split; [lia|done]]|]. split; [by constructor|].
      apply K. exact A.
    + exists rep, []. unfold replace_first. rewrite I. simpl. split; [done|]. split; [done|]. split; constructor.
Qed.
