(* ===== verification/FsTools.v ===== *)
(** * The file tools

    [src/src/agents/tools/fs-tools.ts], second part: the tools [read], [write],
    [edit], [ls], [find] and [exists] over an explicit directory tree.

    A node of the tree is a file with its text, a directory with its entries in
    the order [readdir] lists them, or something else (a device, a link: the
    model does not follow links and does not read or write such nodes).  An
    error of the file system is [Throw] with its code.  Every tool gives back
    the tree, the paths it accessed and its result. *)

From stdpp Require Import base list sets strings.
From Stdlib Require Import Ascii Lia ZArith.
From S2P Require Import Prelude JsString JsMap JsValue NodePath Vault EditableRegions.

Inductive node : Type :=
| File (content : string)
| Dir (entries : list (string * node))
| Special.

(** ** The file system *)

Fixpoint node_at (path : list string) (n : node) : option node :=
  match path with
  | [] => Some n
  | s :: path' =>
      match n with
      | Dir es => match mget s es with Some c => node_at path' c | None => None end
      | _ => None
      end
  end.

Definition read_file (path : list string) (n : node) : result string :=
  match node_at path n with
  | Some (File c) => Ok c
  | Some (Dir _) => Throw "EISDIR"
  | Some Special => Throw "EINVAL"
  | None => Throw "ENOENT"
  end.

Definition read_dir (path : list string) (n : node) : result (list (string * node)) :=
  match node_at path n with
  | Some (Dir es) => Ok es
  | Some _ => Throw "ENOTDIR"
  | None => Throw "ENOENT"
  end.

Fixpoint write_file (path : list string) (content : string) (n : node) : result node :=
  match path with
  | [] => match n with File _ => Ok (File content) | Dir _ => Throw "EISDIR" | Special => Throw "EINVAL" end
  | s :: path' =>
      match n with
      | Dir es =>
          match mget s es with
          | Some c => let? c' := write_file path' content c in Ok (Dir (mset s c' es))
          | None => match path' with
                    | [] => Ok (Dir (mset s (File content) es))
                    | _ => Throw "ENOENT"
                    end
          end
      | _ => Throw "ENOTDIR"
      end
  end.

(** [mkdir(path, { recursive: true })] *)
Fixpoint make_dirs (path : list string) (n : node) : result node :=
  match path with
  | [] => match n with Dir _ => Ok n | _ => Throw "EEXIST" end
  | s :: path' =>
      match n with
      | Dir es => let? c := make_dirs path' (default (Dir []) (mget s es)) in Ok (Dir (mset s c es))
      | _ => Throw "ENOTDIR"
      end
  end.

(** ** The tools *)

Inductive access := Read (p : string) | Write (p : string) | Mkdir (p : string) | ReadDir (p : string)
  | Stat (p : string).
Record outcome := mkOutcome { o_tree : node; o_log : list access; o_result : result value }.

(** [a >= b] for a length [a]. *)
Definition reached (a : nat) (b : num) : bool :=
  negb (isNaN b) && negb (num_lt (NInt (Z.of_nat a)) b).
Definition times_5 (n : num) : num := match n with NFin m k => NFin (m * 5) k | n => n end.

(** [path.dirname(p)] of a resolved path. *)
Definition dirname (p : string) : string := of_segments (removelast (raw_segments p)).

Definition param (k : string) (dflt : value) (params : value) : value := nullish (get_prop k params) dflt.

Section Tools.
Variables (pcwd : string) (workspaceDir0 : string) (workspaceOnly : bool).

Definition workspaceDir : string := resolve pcwd workspaceDir0.

Definition isPathInside (root target : string) : bool := relative_inside (relative pcwd root target).

Definition assertPathIsNotSensitive (targetPath : string) : result unit :=
  if isSensitivePath pcwd targetPath workspaceDir
  then Throw "Access to sensitive credential files is blocked." else Ok tt.

Definition resolveToolPath (rawPath : string) : result string :=
  let input := trim rawPath in
  if negb (truthy input) then Throw "Path is required."
  else
    let resolved := resolve2 pcwd workspaceDir input in
    if workspaceOnly && negb (isPathInside workspaceDir resolved)
    then Throw ("Path '" +:+ input +:+ "' is outside workspace root.")
    else let? _ := assertPathIsNotSensitive resolved in Ok resolved.

(** The files collected so far and the directories read. *)
Fixpoint walkFiles (limit : num) (basePath : string) (n : node) (acc : list string) {struct n}
  : list string * list access :=
  if reached (length acc) limit then (acc, [])
  else match n with
       | Dir es =>
           let '(acc', log) :=
             (fix loop (es : list (string * node)) (acc : list string) : list string * list access :=
                match es with
                | [] => (acc, [])
                | (name, c) :: rest =>
                    if reached (length acc) limit then (acc, [])
                    else
                      let fullPath := join2 basePath name in
                      if isSensitivePath pcwd fullPath workspaceDir then loop rest acc
                      else match c with
                           | Dir _ => let '(acc1, log1) := walkFiles limit fullPath c acc in
                                      let '(acc2, log2) := loop rest acc1 in (acc2, log1 ++ log2)
                           | File _ => loop rest (acc ++ [fullPath])
                           | Special => loop rest acc
                           end
                end) es acc in
           (acc', ReadDir basePath :: log)
       | _ => (acc, [])
       end.

(** Runs [k] on the path the parameter names, when it may be used. *)
Definition with_path (dflt : string) (params : value) (tree : node) (k : string -> outcome) : outcome :=
  match resolveToolPath (to_string (param "path" (VStr dflt) params)) with
  | Throw e => mkOutcome tree [] (Throw e)
  | Ok p => k p
  end.

Definition readTool (params : value) (tree : node) : outcome :=
  with_path "" params tree (fun targetPath =>
    let maxBytes := to_number (param "maxBytes" (VNum (NInt 250000)) params) in
    mkOutcome tree [Read targetPath]
      (let? content := read_file (raw_segments targetPath) tree in
       if num_lt maxBytes (NInt (Z.of_nat (slen content)))
       then Ok (VObj [("path", VStr targetPath); ("truncated", VBool true);
                      ("content", VStr (slice_to (slice_index maxBytes (slen content)) content))])
       else Ok (VObj [("path", VStr targetPath); ("truncated", VBool false); ("content", VStr content)]))).

Definition writeTool (params : value) (tree : node) : outcome :=
  with_path "" params tree (fun targetPath =>
    let content := to_string (param "content" (VStr "") params) in
    let createDirs := match get_prop "createDirs" params with VBool false => false | _ => true end in
    let checked := match read_file (raw_segments targetPath) tree with
                   | Ok existing => assertWriteWithinAllowedRanges (chars existing) (chars content)
                   | Throw _ => Ok tt
                   end in
    match checked with
    | Throw e => mkOutcome tree [Read targetPath] (Throw e)
    | Ok _ =>
        let log := Read targetPath :: (if createDirs then [Mkdir (dirname targetPath)] else []) in
        match (if createDirs then make_dirs (raw_segments (dirname targetPath)) tree else Ok tree) with
        | Throw e => mkOutcome tree log (Throw e)
        | Ok tree1 =>
            match write_file (raw_segments targetPath) content tree1 with
            | Throw e => mkOutcome tree1 (log ++ [Write targetPath]) (Throw e)
            | Ok tree2 =>
                mkOutcome tree2 (log ++ [Write targetPath])
                  (Ok (VObj [("path", VStr targetPath); ("bytes", VNum (NInt (Z.of_nat (utf8_length content))))]))
            end
        end
    end).

Definition editTool (params : value) (tree : node) : outcome :=
  with_path "" params tree (fun targetPath =>
    let findText := to_string (param "find" (VStr "") params) in
    let replaceText := to_string (param "replace" (VStr "") params) in
    let replaceAll := to_bool (get_prop "replaceAll" params) in
    if negb (truthy findText) then mkOutcome tree [] (Throw "find must not be empty.")
    else
      match read_file (raw_segments targetPath) tree with
      | Throw e => mkOutcome tree [Read targetPath] (Throw e)
      | Ok content =>
          if negb (includes findText content)
          then mkOutcome tree [Read targetPath] (Throw "find text was not found in target file.")
          else
            match assertEditWithinAllowedRanges (chars content) (chars findText) replaceAll with
            | Throw e => mkOutcome tree [Read targetPath] (Throw e)
            | Ok _ =>
                let next := of_chars (edited (chars content) (chars findText) (chars replaceText) replaceAll) in
                match write_file (raw_segments targetPath) next tree with
                | Throw e => mkOutcome tree [Read targetPath; Write targetPath] (Throw e)
                | Ok tree' =>
                    mkOutcome tree' [Read targetPath; Write targetPath]
                      (Ok (VObj [("path", VStr targetPath); ("replaceAll", VBool replaceAll);
                                 ("changed", VBool true)]))
                end
            end
      end).

Definition kind_of (n : node) : string :=
  match n with Dir _ => "dir" | File _ => "file" | Special => "other" end.

Definition lsTool (params : value) (tree : node) : outcome :=
  with_path "." params tree (fun rootPath =>
    mkOutcome tree [ReadDir rootPath]
      (let? entries := read_dir (raw_segments rootPath) tree in
       let includeHidden := to_bool (get_prop "includeHidden" params) in
       let items := List.filter (fun e =>
         if isSensitivePath pcwd (join2 rootPath e.1) workspaceDir then false
         else includeHidden || negb (startsWith "." e.1)) entries in
       Ok (VObj [("path", VStr rootPath);
                 ("items", VArr (map (fun e => VObj [("name", VStr e.1); ("type", VStr (kind_of e.2))]) items))]))).

Definition findTool (params : value) (tree : node) : outcome :=
  with_path "." params tree (fun rootPath =>
    match node_at (raw_segments rootPath) tree with
    | None => mkOutcome tree [Stat rootPath] (Throw "ENOENT")
    | Some (Dir es) =>
        let limit := to_number (param "limit" (VNum (NInt 200)) params) in
        let pattern := toLowerCase (to_string (param "pattern" (VStr "") params)) in
        let '(scanned, log) := walkFiles (times_5 limit) rootPath (Dir es) [] in
        let hits := List.filter (fun f => if truthy pattern then includes pattern (toLowerCase f) else true) scanned in
        let matched := map (fun f => let rel := relative pcwd workspaceDir f in if truthy rel then rel else f)
                         (firstn (slice_index limit (length hits)) hits) in
        mkOutcome tree (Stat rootPath :: log)
          (Ok (VObj [("path", VStr rootPath); ("count", VNum (NInt (Z.of_nat (length matched))));
                     ("files", VArr (map VStr matched))]))
    | Some _ => mkOutcome tree [Stat rootPath] (Throw "find path must be a directory.")
    end).

Definition existsTool (params : value) (tree : node) : outcome :=
  with_path "" params tree (fun targetPath =>
    mkOutcome tree [Stat targetPath]
      (Ok (VObj [("path", VStr targetPath);
                 ("exists", VBool (match node_at (raw_segments targetPath) tree with Some _ => true | None => false end))]))).

Definition createFilesystemTools : list (string * (value -> node -> outcome)) :=
  [("read", readTool); ("write", writeTool); ("edit", editTool); ("ls", lsTool); ("find", findTool);
   ("exists", existsTool)].
End Tools.

(** ** The file system keeps what is not written *)

Lemma write_file_at path content n n' : write_file path content n = Ok n' -> node_at path n' = Some (File content).
Proof.
  revert n n'. induction path as [|s path IH]; intros n n'; simpl; [by destruct n; intros [= <-]|].
  destruct n as [|es|]; [done| |done]. destruct (mget s es) as [c|].
  - intros (c' & E & [= <-])%rbind_ok_inv. rewrite mget_mset_eq. by eapply IH.
  - destruct path; [|done]. intros [= <-]. by rewrite mget_mset_eq.
Qed.

Lemma write_file_frame path content n n' q c :
  write_file path content n = Ok n' -> node_at q n = Some (File c) -> q <> path -> node_at q n' = Some (File c).
Proof.
  revert n n' q. induction path as [|s path IH]; intros n n' q W Q N.
  - destruct q as [|s q]; [done|]. simpl in *. by destruct n.
  - simpl in W. destruct n as [|es|]; [done| |done]. destruct q as [|s' q]; [done|]. simpl in Q.
    destruct (mget s es) as [ch|] eqn:M.
    + apply rbind_ok_inv in W as (c' & E & [= <-]). simpl. rewrite mget_mset. case_bool_decide; subst; [|done].
      rewrite M in Q. eapply IH; [done..|congruence].
    + destruct path; [|done]. injection W as <-. simpl. rewrite mget_mset. case_bool_decide; subst; [|done].
      by rewrite M in Q.
Qed.

Lemma make_dirs_frame path n n' q c :
  make_dirs path n = Ok n' -> node_at q n = Some (File c) -> node_at q n' = Some (File c).
Proof.
  revert n n' q. induction path as [|s path IH]; intros n n' q W Q; simpl in W; [destruct n; by simplify_eq|].
  destruct n as [|es|]; [done| |done]. apply rbind_ok_inv in W as (c' & E & [= <-]).
  destruct q as [|s' q]; [done|]. simpl in *. rewrite mget_mset. case_bool_decide; subst; [|done].
  destruct (mget s es) as [ch|] eqn:M; [|done]. simpl in E. by eapply IH.
Qed.

(** ** Paths *)

(** The names of the entries of a directory tree. *)
Fixpoint tree_ok (n : node) : Prop :=
  match n with
  | Dir es => (fix all (es : list (string * node)) : Prop :=
                 match es with [] => True | (s, c) :: rest => file_name s /\ tree_ok c /\ all rest end) es
  | _ => True
  end.

Fixpoint node_ind' (P : node -> Prop) (HF : forall c, P (File c))
    (HD : forall es, Forall (fun e => P e.2) es -> P (Dir es)) (HS : P Special) (n : node) : P n :=
  match n with
  | File c => HF c
  | Special => HS
  | Dir es =>
      HD es ((fix go (es : list (string * node)) : Forall (fun e => P e.2) es :=
                match es with
                | [] => List.Forall_nil _
                | (s, c) :: rest => List.Forall_cons _ (s, c) rest (node_ind' P HF HD HS c) (go rest)
                end) es)
  end.

Definition rooted (p : string) : Prop := exists l, Forall plain_seg l /\ p = of_segments l.

Section Props.
Variables (pcwd : string) (workspaceDir0 : string) (workspaceOnly : bool).
Notation workspaceDir := (workspaceDir pcwd workspaceDir0).

(** What the tools may access. *)
Definition allowed (p : string) : Prop :=
  isSensitivePath pcwd p workspaceDir = false /\
  (workspaceOnly = true -> segments pcwd workspaceDir `prefix_of` segments pcwd p).

Lemma segments_of l : Forall plain_seg l -> segments pcwd (of_segments l) = l.
Proof.
  intros F. unfold segments. assert (isAbsolute (of_segments l) = true) as -> by done. simpl.
  by rewrite raw_segments_of_segments, normalize_segments_id.
Qed.

Lemma resolve2_rooted a b : rooted (resolve2 pcwd a b).
Proof.
  unfold resolve2, resolve. destruct (isAbsolute b); eexists; split; try reflexivity;
    [apply segments_plain|]. apply normalize_segments_plain, Forall_app.
  split; [destruct (isAbsolute a); [constructor|]|apply Forall_app; split]; apply raw_segments_plain.
Qed.

Lemma resolveToolPath_ok raw p :
  resolveToolPath pcwd workspaceDir0 workspaceOnly raw = Ok p -> rooted p /\ allowed p.
Proof.
  unfold resolveToolPath. destruct (negb (truthy (trim raw))); [done|].
  destruct (workspaceOnly && _) eqn:W; [done|]. intros ([] & A & [= <-])%rbind_ok_inv.
  split; [apply resolve2_rooted|]. unfold assertPathIsNotSensitive in A.
  split; [by destruct (isSensitivePath _ _ _)|]. intros O. rewrite O in W. simpl in W. bool_prop.
  unfold isPathInside in W. apply relative_inside_spec in W as (rest & E & _). by exists rest.
Qed.

Lemma join_entry base name :
  rooted base -> allowed base -> file_name name -> isSensitivePath pcwd (join2 base name) workspaceDir = false ->
  rooted (join2 base name) /\ allowed (join2 base name).
Proof.
  intros (l & F & ->) [_ A] N S. assert (join2 (of_segments l) name = of_segments (l ++ [name])) as J.
  { by rewrite join2_file, raw_segments_of_segments, normalize_segments_id. }
  assert (Forall plain_seg (l ++ [name])) as F'.
  { apply Forall_app. split; [done|]. constructor; [|done]. destruct N as (K & ? & ? & ?). done. }
  split; [by exists (l ++ [name])|]. split; [done|]. intros O. specialize (A O).
  rewrite J, segments_of by done. rewrite segments_of in A by done. by apply prefix_app_r.
Qed.

(** ** The walk *)

Definition walk_entries (limit : num) (base : string) : list (string * node) -> list string -> list string * list access :=
  fix loop es acc :=
  match es with
  | [] => (acc, [])
  | (name, c) :: rest =>
      if reached (length acc) limit then (acc, [])
      else
        let fullPath := join2 base name in
        if isSensitivePath pcwd fullPath workspaceDir then loop rest acc
        else match c with
             | Dir _ => let '(acc1, log1) := walkFiles pcwd workspaceDir0 limit fullPath c acc in
                        let '(acc2, log2) := loop rest acc1 in (acc2, log1 ++ log2)
             | File _ => loop rest (acc ++ [fullPath])
             | Special => loop rest acc
             end
  end.

Lemma walkFiles_Dir limit base es acc :
  walkFiles pcwd workspaceDir0 limit base (Dir es) acc =
  if reached (length acc) limit then (acc, [])
  else let '(acc', log) := walk_entries limit base es acc in (acc', ReadDir base :: log).
Proof. reflexivity. Qed.

Definition walk_ok (r : list string * list access) : Prop :=
  Forall allowed r.1 /\ Forall (fun a => exists d, a = ReadDir d /\ allowed d) r.2.

Lemma walk_ok_nil acc : Forall allowed acc -> walk_ok (acc, []).
Proof. intros F. by split; [|constructor]. Qed.

Lemma walk_entries_ok limit base es :
  Forall (fun e => forall base acc, tree_ok e.2 -> rooted base -> allowed base -> Forall allowed acc ->
    walk_ok (walkFiles pcwd workspaceDir0 limit base e.2 acc)) es ->
  tree_ok (Dir es) -> rooted base -> allowed base ->
  forall acc, Forall allowed acc -> walk_ok (walk_entries limit base es acc).
Proof.
  intros IH T R A. induction es as [|[name c] es IHes]; intros acc F; [by apply walk_ok_nil|].
  simpl in T. destruct T as (N & Tc & T). apply Forall_cons in IH as [IHc IH]. specialize (IHes IH T).
  unfold walk_entries; fold (walk_entries limit base). destruct (reached _ _); [by apply walk_ok_nil|].
  destruct (isSensitivePath _ _ _) eqn:S; [by apply IHes|].
  destruct (join_entry base name R A N S) as [Rn An]. destruct c as [content|ces|]; [| |by apply IHes].
  - apply IHes, Forall_app. by split; [|constructor].
  - specialize (IHc (join2 base name) acc Tc Rn An F). cbn [snd] in IHc.
    destruct (walkFiles _ _ _ _ _ _) as [acc1 log1]. destruct IHc as [K1 K2]. specialize (IHes acc1 K1).
    destruct (walk_entries _ _ _ acc1) as [acc2 log2]. destruct IHes as [L1 L2].
    split; [done|]. by apply Forall_app.
Qed.

Lemma walkFiles_ok limit n : forall base acc,
  tree_ok n -> rooted base -> allowed base -> Forall allowed acc ->
  walk_ok (walkFiles pcwd workspaceDir0 limit base n acc).
Proof.
  induction n as [c|es IH|] using node_ind'; intros base acc T R A F;
    [simpl; destruct (reached _ _); by apply walk_ok_nil| |simpl; destruct (reached _ _); by apply walk_ok_nil].
  rewrite walkFiles_Dir. destruct (reached _ _); [by apply walk_ok_nil|].
  pose proof (walk_entries_ok limit base es IH T R A acc F) as [K1 K2].
  destruct (walk_entries limit base es acc). split; [done|]. constructor; [eauto|done].
Qed.

(** ** The tools *)

Definition access_ok (a : access) : Prop :=
  match a with
  | Read p | Write p | ReadDir p | Stat p => allowed p
  | Mkdir d => exists p, allowed p /\ d = dirname p
  end.

(** What every run of a tool satisfies: it accesses what is allowed, and the
    files it does not write keep their text. *)
Record confined (tree : node) (o : outcome) : Prop := {
  cf_log : Forall access_ok (o_log o);
  cf_frame : forall q c, node_at q tree = Some (File c) ->
    (forall p, Write p ∈ o_log o -> raw_segments p <> q) -> node_at q (o_tree o) = Some (File c);
}.

Lemma confined_same tree log r : Forall access_ok log -> confined tree (mkOutcome tree log r).
Proof. intros F. by split. Qed.

Lemma with_path_confined dflt params tree k :
  (forall p, rooted p -> allowed p -> confined tree (k p)) ->
  confined tree (with_path pcwd workspaceDir0 workspaceOnly dflt params tree k).
Proof.
  intros K. unfold with_path. destruct (resolveToolPath _ _ _ _) as [p|e] eqn:E; [|by apply confined_same].
  apply resolveToolPath_ok in E as [R A]. by apply K.
Qed.

Lemma write_confined tree tree1 tree2 log p content r :
  (forall q c, node_at q tree = Some (File c) -> node_at q tree1 = Some (File c)) ->
  Forall access_ok log -> allowed p -> write_file (raw_segments p) content tree1 = Ok tree2 ->
  confined tree (mkOutcome tree2 (log ++ [Write p]) r).
Proof.
  intros Fr F A W. split; simpl; [apply Forall_app; by split; [|constructor]|].
  intros q c Q N. eapply write_file_frame; [done|by apply Fr|]. intros ->. eapply (N p); [|done]. set_solver.
Qed.

Lemma writeTool_confined params tree : confined tree (writeTool pcwd workspaceDir0 workspaceOnly params tree).
Proof.
  apply with_path_confined. intros p R A. cbv beta zeta.
  match goal with |- confined _ (match ?x with Ok _ => _ | Throw _ => _ end) => destruct x end;
    [|apply confined_same; by constructor].
  set (create := match get_prop "createDirs" params with VBool false => false | _ => true end).
  assert (Forall access_ok (Read p :: (if create then [Mkdir (dirname p)] else []))) as L.
  { constructor; [done|]. destruct create; constructor; [by exists p|constructor]. }
  destruct (if create then make_dirs _ _ else _) as [tree1|e] eqn:M; [|by apply confined_same].
  assert (forall q c, node_at q tree = Some (File c) -> node_at q tree1 = Some (File c)) as Fr.
  { destruct create; [intros q c; by apply make_dirs_frame with (1 := M)|by injection M as ->]. }
  destruct (write_file _ _ tree1) as [tree2|e] eqn:W; [by eapply write_confined|].
  split; simpl; [|by intros; apply Fr]. constructor; [done|]. apply Forall_cons in L as [_ L].
  apply Forall_app. by split; [|constructor].
Qed.

Lemma editTool_confined params tree : confined tree (editTool pcwd workspaceDir0 workspaceOnly params tree).
Proof.
  apply with_path_confined. intros p R A. cbv beta zeta. destruct (negb _); [by apply confined_same|].
  assert (Forall access_ok [Read p]) as L by (by constructor).
  destruct (read_file _ _); [|by apply confined_same]. destruct (negb _); [by apply confined_same|].
  destruct (assertEditWithinAllowedRanges _ _ _); [|by apply confined_same].
  destruct (write_file _ _ _) eqn:W; [by eapply (write_confined tree tree _ [Read p])|].
  apply confined_same. constructor; [done|]. by constructor.
Qed.

Lemma findTool_confined params tree :
  tree_ok tree -> confined tree (findTool pcwd workspaceDir0 workspaceOnly params tree).
Proof.
  intros T. apply with_path_confined. intros p R A. cbv beta zeta. destruct (node_at _ _) as [[|es|]|] eqn:N;
    [by apply confined_same; constructor| |by apply confined_same; constructor..].
  assert (tree_ok (Dir es)) as Te.
  { clear -T N. revert tree T N. generalize (raw_segments p) as q.
    induction q as [|s q IH]; intros tree T N; simpl in N; [by injection N as <-|].
    destruct tree as [|es'|]; [done| |done]. destruct (mget s es') as [c|] eqn:M; [|done].
    apply (IH c); [|done]. clear -T M. induction es' as [|[s' c'] es' IH]; [done|]. simpl in *.
    case_bool_decide; [by simplify_eq; apply T|]. apply IH; [apply T|done]. }
  pose proof (walkFiles_ok (times_5 (to_number (param "limit" (VNum (NInt 200)) params))) (Dir es) p [] Te R A
    (List.Forall_nil _)) as [_ K]. destruct (walkFiles _ _ _ _ _ _) as [scanned log].
  apply confined_same. constructor; [done|]. rewrite Forall_forall in *. intros a (d & -> & D)%K. exact D.
Qed.
End Props.

(** ** Writing to an existing file *)

Lemma write_file_ok q content n c : node_at q n = Some (File c) -> exists n', write_file q content n = Ok n'.
Proof.
  revert n. induction q as [|s q IH]; intros n; simpl; [intros [= ->]; eauto|].
  destruct n as [|es|]; [done| |done]. destruct (mget s es) as [ch|]; [|done]. intros [n' E]%IH.
  rewrite E. simpl. eauto.
Qed.

Lemma make_dirs_ok q n c : node_at q n = Some (File c) -> q <> [] -> exists n', make_dirs (removelast q) n = Ok n'.
Proof.
  revert n. induction q as [|s q IH]; intros n Q N; [done|]. simpl in Q. destruct n as [|es|]; [done| |done].
  destruct (mget s es) as [ch|] eqn:M; [|done]. destruct q as [|s' q]; [simpl; eauto|].
  destruct (IH ch Q) as [n' E]; [done|]. change (removelast (s :: s' :: q)) with (s :: removelast (s' :: q)).
  clear IH. generalize dependent (removelast (s' :: q)). intros r E. simpl. rewrite M. simpl. rewrite E. simpl. eauto.
Qed.

Lemma raw_segments_dirname p : rooted p -> raw_segments (dirname p) = removelast (raw_segments p).
Proof.
  intros (l & F & ->). unfold dirname. rewrite (raw_segments_of_segments l) by done.
  apply raw_segments_of_segments. by apply removelast_Forall.
Qed.

Lemma read_file_at q n c : read_file q n = Ok c <-> node_at q n = Some (File c).
Proof. unfold read_file. destruct (node_at q n) as [[]|]; naive_solver. Qed.

(** ** Properties *)

(** C28: the tools stay where they may.  On any directory tree and any
    parameters, every path a file tool reads, writes, lists or tests is not a
    sensitive one and, when the tools are confined to the workspace, is below
    the workspace; directories are made only above such a path; [find] collects
    only such files; and a file that the tool does not write keeps its text. *)
Theorem tools_confined pcwd ws only name tool params tree :
  tree_ok tree -> (name, tool) ∈ createFilesystemTools pcwd ws only ->
  confined pcwd ws only tree (tool params tree) /\
  (forall raw root limit, resolveToolPath pcwd ws only raw = Ok root ->
     Forall (allowed pcwd ws only) (walkFiles pcwd ws limit root tree []).1).
Proof.
  intros T E. split.
  - unfold createFilesystemTools in E. rewrite !elem_of_cons in E.
    destruct E as [[= -> ->]|[[= -> ->]|[[= -> ->]|[[= -> ->]|[[= -> ->]|[[= -> ->]|[]%not_elem_of_nil]]]]]].
    + apply with_path_confined. intros p _ A. apply confined_same. by constructor.
    + apply writeTool_confined.
    + apply editTool_confined.
    + apply with_path_confined. intros p _ A. apply confined_same. by constructor.
    + by apply findTool_confined.
    + apply with_path_confined. intros p _ A. apply confined_same. by constructor.
  - intros raw root limit [R A]%resolveToolPath_ok. by apply walkFiles_ok.
Qed.

(** C29: writing keeps the protected text.  A write to a file with editable
    regions succeeds exactly when the new content has the same protected chunks,
    marker lines included, in the same order; the file then holds the new
    content.  Otherwise the write fails and nothing changes. *)
Theorem write_keeps_protected pcwd ws only params es p old :
  let tree := Dir es in
  let new := to_string (param "content" (VStr "") params) in
  let o := writeTool pcwd ws only params tree in
  resolveToolPath pcwd ws only (to_string (param "path" (VStr "") params)) = Ok p ->
  read_file (raw_segments p) tree = Ok old -> parseEditableRanges (chars old) <> [] ->
  if bool_decide (gaps (chars new) 0 (parseEditableRanges (chars new)) =
                  gaps (chars old) 0 (parseEditableRanges (chars old)))
  then is_ok (o_result o) = true /\ read_file (raw_segments p) (o_tree o) = Ok new
  else is_ok (o_result o) = false /\ o_tree o = tree.
Proof.
  intros tree new o P R N. subst o. unfold writeTool, with_path. rewrite P. cbv beta zeta. rewrite R. fold new.
  pose proof (assertWrite_spec (chars old) (chars new) N) as S.
  case_bool_decide as G.
  - apply S in G as ->. apply resolveToolPath_ok in P as [RO _]. apply read_file_at in R.
    rewrite (raw_segments_dirname p RO).
    assert (exists tree1 : node, (if match get_prop "createDirs" params with VBool false => false | _ => true end
      then make_dirs (removelast (raw_segments p)) tree else Ok tree) = Ok tree1 /\
      node_at (raw_segments p) tree1 = Some (File old)) as (tree1 & -> & F).
    { destruct (match get_prop "createDirs" params with VBool false => false | _ => true end); [|eauto].
      destruct (make_dirs_ok _ _ _ R) as [tree1 M]; [by intros X; rewrite X in R|].
      exists tree1. split; [done|]. by eapply make_dirs_frame. }
    destruct (write_file_ok _ new _ _ F) as [tree2 W]. rewrite W. simpl. split; [done|].
    apply read_file_at. by eapply write_file_at.
  - destruct (assertWriteWithinAllowedRanges _ _) as [[]|]; [|done]. by destruct G; apply S.
Qed.

(** editing keeps the protected text.  An edit of a file with editable
    regions that succeeds leaves every protected chunk in the file, in order,
    with some text between each two of them; the file holds the content with the
    text replaced.  An edit that fails changes nothing. *)
Theorem edit_keeps_protected pcwd ws only params tree p old :
  let find := to_string (param "find" (VStr "") params) in
  let rep := to_string (param "replace" (VStr "") params) in
  let all := to_bool (get_prop "replaceAll" params) in
  let o := editTool pcwd ws only params tree in
  resolveToolPath pcwd ws only (to_string (param "path" (VStr "") params)) = Ok p ->
  read_file (raw_segments p) tree = Ok old -> parseEditableRanges (chars old) <> [] ->
  if is_ok (o_result o)
  then exists mids, length mids = length (parseEditableRanges (chars old)) /\
    edited (chars old) (chars find) (chars rep) all =
      weave (gaps (chars old) 0 (parseEditableRanges (chars old))) mids /\
    read_file (raw_segments p) (o_tree o) = Ok (of_chars (edited (chars old) (chars find) (chars rep) all))
  else o_tree o = tree.
Proof.
  intros find rep all o P R N. subst o. unfold editTool, with_path. rewrite P. cbv beta zeta. rewrite R.
  fold find rep all. destruct (truthy find) eqn:T; simpl negb; cbv iota; [|done].
  destruct (negb (includes find old)); [done|].
  destruct (assertEditWithinAllowedRanges _ _ _) as [[]|] eqn:A; [|done].
  destruct (write_file _ _ _) as [tree'|] eqn:W; [|done]. simpl.
  destruct (assertEdit_ok (chars old) (chars find) (chars rep) all) as (mids & L & E); [|done..|].
  - intros X%chars_nil. apply truthy_true in T. done.
  - exists mids. split; [done|]. split; [done|]. apply read_file_at. by eapply write_file_at.
Qed.

(** ** Samples *)

Definition lines (l : list string) : string := join (String line_feed EmptyString) l.
Definition marked (first second third : string) : string :=
  lines ["// T560_EDITABLE_START"; first; "// T560_EDITABLE_END"; second; "// T560_EDITABLE_START"; third;
         "// T560_EDITABLE_END"; ""].
Definition sample_entries (content : string) : list (string * node) :=
  [("w", Dir [("f.ts", File content); (".env", File "KEY=1"); ("src", Dir [("a.ts", File "a")])])].
Definition sample_tree : node := Dir (sample_entries (marked "a" "keep" "b")).
Definition write_args (content : string) : value := VObj [("path", VStr "f.ts"); ("content", VStr content)].
Definition edit_args (find replace : string) : value :=
  VObj [("path", VStr "f.ts"); ("find", VStr find); ("replace", VStr replace)].

Lemma sample_tree_ok : tree_ok sample_tree.
Proof.
  assert (forall s, (truthy s && negb (bool_decide (slash ∈ chars s)) && negb (s =? ".")%string
    && negb (s =? "..")%string && negb (endsWith "/" s)) = true -> file_name s) as K.
  { intros s H. bool_prop. unfold file_name, seg_ok. repeat split; try done. by apply truthy_true. }
  unfold sample_tree, sample_entries. simpl. repeat split; apply K; vm_compute; reflexivity.
Qed.

Lemma tools_confined_witness :
  confined "/w" "/w" true sample_tree (findTool "/w" "/w" true (VObj []) sample_tree) /\
  (forall raw root limit, resolveToolPath "/w" "/w" true raw = Ok root ->
     Forall (allowed "/w" "/w" true) (walkFiles "/w" "/w" limit root sample_tree []).1).
Proof.
  apply (tools_confined "/w" "/w" true "find" (findTool "/w" "/w" true) (VObj []) sample_tree).
  - exact sample_tree_ok.
  - unfold createFilesystemTools. set_solver.
Defined.

(** What [find] answers on the sample: the secret file is not listed. *)
Example find_sample :
  o_result (findTool "/w" "/w" true (VObj []) sample_tree) =
  Ok (VObj [("path", VStr "/w"); ("count", VNum (NInt 2)); ("files", VArr [VStr "f.ts"; VStr "src/a.ts"])]).
Proof. vm_compute. reflexivity. Qed.

Lemma write_keeps_protected_witness :
  is_ok (o_result (writeTool "/w" "/w" true (write_args (marked "new" "keep" "text")) sample_tree)) = true /\
  read_file ["w"; "f.ts"] (o_tree (writeTool "/w" "/w" true (write_args (marked "new" "keep" "text")) sample_tree)) =
    Ok (marked "new" "keep" "text").
Proof.
  exact (write_keeps_protected "/w" "/w" true (write_args (marked "new" "keep" "text"))
           (sample_entries (marked "a" "keep" "b")) "/w/f.ts" (marked "a" "keep" "b")
           ltac:(vm_compute; reflexivity) ltac:(vm_compute; reflexivity) ltac:(vm_compute; discriminate)).
Defined.

Lemma edit_keeps_protected_witness :
  exists mids, length mids = 2 /\
    marked "x = 1" "keep" "b" = of_chars (weave (gaps (chars (marked "a" "keep" "b")) 0
      (parseEditableRanges (chars (marked "a" "keep" "b")))) mids).
Proof.
  pose proof (edit_keeps_protected "/w" "/w" true (edit_args (lines ["a"; ""]) (lines ["x = 1"; ""])) sample_tree
    "/w/f.ts" (marked "a" "keep" "b") ltac:(vm_compute; reflexivity) ltac:(vm_compute; reflexivity)
    ltac:(vm_compute; discriminate)) as H.
  match type of H with if ?b then _ else _ => replace b with true in H by (vm_compute; reflexivity) end.
  destruct H as (mids & L & E & _). exists mids. split; [rewrite L; vm_compute; reflexivity|].
  rewrite <- E. vm_compute. reflexivity.
Defined.

(** two edits change protected text.  Markers in a replacement are not
    looked at: the edit that changes a protected line is refused, but after an
    accepted edit that writes an end marker and a start marker before the
    region's own end marker, the same edit is accepted and the line is gone. *)
Theorem edit_adds_markers :
  let edit find replace := editTool "/w" "/w" true (edit_args find replace) in
  let opened := edit (lines ["a"; "// "]) (lines ["a"; "T560_EDITABLE_END T560_EDITABLE_START "]) sample_tree in
  o_result (edit "keep" "gone" sample_tree) = Throw edit_blocked /\
  is_ok (o_result opened) = true /\
  is_ok (o_result (edit "keep" "gone" (o_tree opened))) = true /\
  exists content, read_file ["w"; "f.ts"] (o_tree (edit "keep" "gone" (o_tree opened))) = Ok content /\
    includes "keep" content = false.
Proof.
  cbv zeta. split; [vm_compute; reflexivity|]. split; [vm_compute; reflexivity|]. split; [vm_compute; reflexivity|].
  eexists. split; vm_compute; reflexivity.
Qed.

(** A replacement is a template: [$$] is written as one dollar, unless all
    occurrences are replaced. *)
Example dollar_replacement :
  edited (chars "cost: X") (chars "X") (chars "$$5") false = chars "cost: $5" /\
  edited (chars "cost: X") (chars "X") (chars "$$5") true = chars "cost: $$5".
Proof. vm_compute. done. Qed.
