(* ===== verification/MemoryStore.v ===== *)
(** * The memory store

    [src/src/agents/tools/memory-tools.ts], first part: entries, scopes, quotas
    and the file [memory.jsonl], a log of JSON lines to which entries and delete
    markers are appended.  The file is its text, [None] when it is missing;
    [Date.parse] is the argument [date_parse]. *)

From stdpp Require Import base list sets strings pretty.
From Stdlib Require Import Ascii Lia ZArith Permutation.
From S2P Require Import Prelude JsString JsMap JsValue Json JsDate NodePath.

(** ** Data *)

Definition MAX_STORE_SCAN : nat := 2000.
Definition DEFAULT_IMPORTANCE : num := NInt 3.
Definition DEFAULT_CONFIDENCE : num := NFin 8 1.
Definition DEFAULT_NAMESPACE : string := "global".
Definition DEFAULT_NAMESPACE_MAX_ENTRIES : num := NInt 2000.
Definition DEFAULT_NAMESPACE_MAX_BYTES : num := NInt 4000000.

Inductive MemoryTrustTier := unverified | observed | verified | system.
#[export] Instance tier_eq_dec : EqDecision MemoryTrustTier.
Proof. solve_decision. Defined.
Definition TRUST_TIERS : list MemoryTrustTier := [unverified; observed; verified; system].
Definition tier_name (t : MemoryTrustTier) : string :=
  match t with unverified => "unverified" | observed => "observed" | verified => "verified" | system => "system" end.
Definition DEFAULT_MIN_TRUST_TIER : MemoryTrustTier := unverified.

Inductive MemoryEvictionPolicy := stale_low_signal | low_signal_first | oldest.
Definition EVICTION_POLICIES : list MemoryEvictionPolicy := [stale_low_signal; low_signal_first; oldest].
Definition policy_name (p : MemoryEvictionPolicy) : string :=
  match p with
  | stale_low_signal => "stale_low_signal" | low_signal_first => "low_signal_first" | oldest => "oldest"
  end.

Record MemoryStoreEntry := mkEntry {
  m_id : string;
  m_title : string;
  m_content : string;
  m_tags : list string;
  m_createdAt : string;
  m_updatedAt : string;
  m_lastAccessedAt : string;
  m_reinforceCount : num;
  m_importance : num;
  m_confidence : num;
  m_source : string;
  m_namespace : string;
  m_trustTier : MemoryTrustTier;
}.
Record MemoryStoreDeleteMarker := mkMarker { d_id : string; d_deletedAt : string; d_reason : option string }.

Record MemoryScope := mkScope { sc_namespace : string; minTrustTier : MemoryTrustTier }.
Record NamespaceQuota := mkQuota { maxEntries : num; maxBytes : num; evictionPolicy : MemoryEvictionPolicy }.
Record NamespaceQuotaConfig := mkQuotaConfig { q_defaults : NamespaceQuota; perNamespace : list (string * NamespaceQuota) }.

(** ** Normalisation *)

Definition isRecord (v : value) : bool := is_object v && negb (is_array v).
(** [String(v ?? "").trim()] *)
Definition text_of (v : value) : string := trim (to_string (nullish v (VStr ""))).

Definition clampInt (v : value) (low high : Z) (fallback : num) : num :=
  let parsed := to_number v in
  if negb (isFinite parsed) then fallback
  else num_max (NInt low) (num_min (NInt high) (num_floor parsed)).
Definition clampNumber (v : value) (low high fallback : num) : num :=
  let parsed := to_number v in
  if negb (isFinite parsed) then fallback else num_max low (num_min high parsed).
Definition MIN_CONFIDENCE : num := NFin 5 2.

(** The loop stops at twenty tags. *)
Definition normalizeTags (v : value) : list string :=
  match v with
  | VArr rows => firstn 20 (dedup (List.filter truthy (map (fun row => toLowerCase (text_of row)) rows)))
  | _ => []
  end.

(** [/^[a-z0-9._/-]{low,high}$/] *)
Definition label_char (c : ascii) : bool := is_lower c || is_digit c || bool_decide (c ∈ chars "._/-").
Definition label (low high : nat) (s : string) : bool :=
  (low <=? slen s)%nat && (slen s <=? high)%nat && forallb label_char (chars s).
Definition normalizeSource (v : value) (fallback : string) : string :=
  let normalized := toLowerCase (text_of v) in
  if negb (truthy normalized) then fallback
  else if label 2 32 normalized then normalized else fallback.
Definition normalizeNamespace (v : value) (fallback : string) : string :=
  let normalized := toLowerCase (text_of v) in
  if negb (truthy normalized) then fallback
  else if label 1 64 normalized then normalized else fallback.

Definition normalizeTrustTier (v : value) (fallback : MemoryTrustTier) : MemoryTrustTier :=
  let normalized := toLowerCase (text_of v) in
  default fallback (List.find (fun t => (tier_name t =? normalized)%string) TRUST_TIERS).
Definition trustTierRank (t : MemoryTrustTier) : nat :=
  match t with unverified => 0 | observed => 1 | verified => 2 | system => 3 end.
Definition normalizeEvictionPolicy (v : value) (fallback : MemoryEvictionPolicy) : MemoryEvictionPolicy :=
  let normalized := toLowerCase (text_of v) in
  default fallback (List.find (fun p => (policy_name p =? normalized)%string) EVICTION_POLICIES).

(** A variable of the environment as a value. *)
Definition env_value (env : list (string * string)) (k : string) : value :=
  match mget k env with Some s => VStr s | None => VUndef end.
Definition resolveDefaultNamespaceFromEnv (env : list (string * string)) : string :=
  normalizeNamespace (env_value env "T560_MEMORY_NAMESPACE") DEFAULT_NAMESPACE.
Definition resolveDefaultMinTrustTierFromEnv (env : list (string * string)) : MemoryTrustTier :=
  normalizeTrustTier (env_value env "T560_MEMORY_MIN_TRUST_TIER") DEFAULT_MIN_TRUST_TIER.

Definition parseNamespaceQuotaValue (raw : value) (defaults : NamespaceQuota) : NamespaceQuota :=
  let row := if isRecord raw then raw else VObj [] in
  {| maxEntries := clampInt (get_prop "maxEntries" row) 1 100000 (maxEntries defaults);
     maxBytes := clampInt (get_prop "maxBytes" row) 8000 200000000 (maxBytes defaults);
     evictionPolicy := normalizeEvictionPolicy (get_prop "evictionPolicy" row) (evictionPolicy defaults) |}.

Definition resolveNamespaceQuotaConfigFromEnv (env : list (string * string)) : NamespaceQuotaConfig :=
  let defaults :=
    {| maxEntries := clampInt (env_value env "T560_MEMORY_MAX_ENTRIES") 1 100000 DEFAULT_NAMESPACE_MAX_ENTRIES;
       maxBytes := clampInt (env_value env "T560_MEMORY_MAX_BYTES") 8000 200000000 DEFAULT_NAMESPACE_MAX_BYTES;
       evictionPolicy := normalizeEvictionPolicy (env_value env "T560_MEMORY_EVICTION_POLICY") stale_low_signal |} in
  let raw := text_of (env_value env "T560_MEMORY_NAMESPACE_LIMITS") in
  if negb (truthy raw) then mkQuotaConfig defaults []
  else match JSON_parse raw with
       | Some parsed =>
           if negb (isRecord parsed) then mkQuotaConfig defaults []
           else mkQuotaConfig defaults
                  (fold_left (fun acc e =>
                     let ns := normalizeNamespace (VStr e.1) "" in
                     if negb (truthy ns) then acc else assign ns (parseNamespaceQuotaValue e.2 defaults) acc)
                     (object_entries parsed) [])
       | None => mkQuotaConfig defaults []
       end.

(** [None] is a function that [Object.prototype] provides: it has no limits. *)
Definition resolveNamespaceQuota (config : NamespaceQuotaConfig) (namespace : string) : option NamespaceQuota :=
  match obj_lookup namespace (perNamespace config) with
  | Own q => Some q
  | Inherited => None
  | Missing => Some (q_defaults config)
  end.

(** ** Entries as JSON *)

Definition entry_value (e : MemoryStoreEntry) : value :=
  VObj [("id", VStr (m_id e)); ("title", VStr (m_title e)); ("content", VStr (m_content e));
        ("tags", VArr (map VStr (m_tags e))); ("createdAt", VStr (m_createdAt e)); ("updatedAt", VStr (m_updatedAt e));
        ("lastAccessedAt", VStr (m_lastAccessedAt e)); ("reinforceCount", VNum (m_reinforceCount e));
        ("importance", VNum (m_importance e)); ("confidence", VNum (m_confidence e)); ("source", VStr (m_source e));
        ("namespace", VStr (m_namespace e)); ("trustTier", VStr (tier_name (m_trustTier e)))].
Definition marker_value (d : MemoryStoreDeleteMarker) : value :=
  VObj ([("type", VStr "delete"); ("id", VStr (d_id d)); ("deletedAt", VStr (d_deletedAt d))] ++
        match d_reason d with Some r => [("reason", VStr r)] | None => [] end).

Definition parseStoreEntry (raw : value) : option MemoryStoreEntry :=
  if negb (isRecord raw) then None
  else
    let id := text_of (get_prop "id" raw) in
    let title := text_of (get_prop "title" raw) in
    let content := text_of (get_prop "content" raw) in
    let createdAt := text_of (get_prop "createdAt" raw) in
    let updatedAt := trim (to_string (nullish (get_prop "updatedAt" raw) (VStr createdAt))) in
    let lastAccessedAt := trim (to_string (nullish (get_prop "lastAccessedAt" raw) (VStr updatedAt))) in
    if negb (truthy id) || negb (truthy title) || negb (truthy content) || negb (truthy createdAt) then None
    else Some
      {| m_id := id; m_title := title; m_content := content;
         m_tags := normalizeTags (get_prop "tags" raw);
         m_createdAt := createdAt;
         m_updatedAt := if truthy updatedAt then updatedAt else createdAt;
         m_lastAccessedAt := if truthy lastAccessedAt then lastAccessedAt else if truthy updatedAt then updatedAt else createdAt;
         m_reinforceCount := clampInt (get_prop "reinforceCount" raw) 0 10000 (NInt 0);
         m_importance := clampInt (get_prop "importance" raw) 1 5 DEFAULT_IMPORTANCE;
         m_confidence := clampNumber (get_prop "confidence" raw) MIN_CONFIDENCE (NInt 1) DEFAULT_CONFIDENCE;
         m_source := normalizeSource (get_prop "source" raw) "user";
         m_namespace := normalizeNamespace (get_prop "namespace" raw) DEFAULT_NAMESPACE;
         m_trustTier := normalizeTrustTier (get_prop "trustTier" raw) verified |}.

Definition parseStoreDeleteMarker (raw : value) : option MemoryStoreDeleteMarker :=
  if negb (isRecord raw) then None
  else if negb (toLowerCase (text_of (get_prop "type" raw)) =? "delete")%string then None
  else
    let id := text_of (get_prop "id" raw) in
    let deletedAt := text_of (get_prop "deletedAt" raw) in
    let reason := text_of (get_prop "reason" raw) in
    if negb (truthy id) || negb (truthy deletedAt) then None
    else Some (mkMarker id deletedAt (if truthy reason then Some reason else None)).

(** ** The log *)

Definition file := option string.

Definition normalizeLineBreaks (s : string) : list string := split_lines s.

(** What one line of the file means. *)
Inductive line_record := Put (e : MemoryStoreEntry) | Del (id : string) | Skip.
Definition value_record (parsed : value) : line_record :=
  match parseStoreDeleteMarker parsed with
  | Some d => Del (d_id d)
  | None => match parseStoreEntry parsed with Some e => Put e | None => Skip end
  end.
Definition read_line (line : string) : line_record :=
  let trimmed := trim line in
  if negb (truthy trimmed) then Skip
  else match JSON_parse trimmed with Some parsed => value_record parsed | None => Skip end.

(** The loop of [loadStoreEntries] from the last line to the first; [out] holds
    what was pushed, the last entry first, as [out.reverse()] returns it.
    [limit] is [None] for [Number.POSITIVE_INFINITY]. *)
Fixpoint load_lines (limit : option nat) (lines : list string) (seenIds deletedIds : list string)
    (out : list MemoryStoreEntry) : list MemoryStoreEntry :=
  match lines with
  | [] => out
  | line :: rest =>
      match read_line line with
      | Del id => load_lines limit rest seenIds (id :: deletedIds) out
      | Put e =>
          if bool_decide (m_id e ∈ deletedIds) || bool_decide (m_id e ∈ seenIds)
          then load_lines limit rest seenIds deletedIds out
          else
            let out := e :: out in
            if match limit with Some n => (n <=? length out)%nat | None => false end then out
            else load_lines limit rest (m_id e :: seenIds) deletedIds out
      | Skip => load_lines limit rest seenIds deletedIds out
      end
  end.
Definition loadStoreEntries (limit : option nat) (f : file) : list MemoryStoreEntry :=
  match f with
  | None => []
  | Some raw => load_lines limit (rev (normalizeLineBreaks raw)) [] [] []
  end.

Definition resolveScope (namespace tier : value) (defaults : MemoryScope) : MemoryScope :=
  mkScope (normalizeNamespace namespace (sc_namespace defaults)) (normalizeTrustTier tier (minTrustTier defaults)).
Definition entryMatchesScope (e : MemoryStoreEntry) (scope : MemoryScope) : bool :=
  (m_namespace e =? sc_namespace scope)%string && (trustTierRank (minTrustTier scope) <=? trustTierRank (m_trustTier e))%nat.

Fixpoint find_lines (targetId : string) (scope : MemoryScope) (lines : list string) : option MemoryStoreEntry :=
  match lines with
  | [] => None
  | line :: rest =>
      match read_line line with
      | Del id => if (id =? targetId)%string then None else find_lines targetId scope rest
      | Put e => if (m_id e =? targetId)%string then (if entryMatchesScope e scope then Some e else None)
                 else find_lines targetId scope rest
      | Skip => find_lines targetId scope rest
      end
  end.
Definition findStoreEntryById (f : file) (targetId : string) (scope : MemoryScope) : option MemoryStoreEntry :=
  match f with
  | None => None
  | Some raw => find_lines targetId scope (rev (normalizeLineBreaks raw))
  end.

Definition nl : string := of_chars [chr 10].
Definition appendFile (text : string) (f : file) : file := Some (default "" f +:+ text).
Definition appendStoreEntry (e : MemoryStoreEntry) (f : file) : file :=
  appendFile (JSON_stringify (entry_value e) +:+ nl) f.
Definition appendStoreDeleteMarker (d : MemoryStoreDeleteMarker) (f : file) : file :=
  appendFile (JSON_stringify (marker_value d) +:+ nl) f.
Definition appendStoreDeleteMarkers (ds : list MemoryStoreDeleteMarker) (f : file) : file :=
  match ds with
  | [] => f
  | _ => appendFile (join nl (map (fun d => JSON_stringify (marker_value d)) ds) +:+ nl) f
  end.

(** [/[^a-z0-9]+/g] replaced by a space *)
Definition normalizeTitleKey (s : string) : string :=
  trim (replace_runs (fun c => negb (is_lower c || is_digit c)) [" "%char] (toLowerCase s)).

(** ** Quotas *)

Definition estimateEntryBytes (e : MemoryStoreEntry) : Z :=
  Z.of_nat (utf8_length (JSON_stringify (entry_value e) +:+ nl)).

Section Dates.
Variable date_parse : string -> num.

Definition parseIsoMillis (s : string) : num :=
  let millis := date_parse (trim s) in
  if isFinite millis then millis else NInt 0.

(** The order by date of [findStoreEntryByTitle]: a date that does not parse is
    neither before nor after another. *)
Definition findStoreEntryByTitle (f : file) (title : string) (scope : MemoryScope) : option MemoryStoreEntry :=
  let titleKey := normalizeTitleKey title in
  if negb (truthy titleKey) then None
  else
    let matches := List.filter (fun e => (normalizeTitleKey (m_title e) =? titleKey)%string) (loadStoreEntries None f) in
    let scoped := List.filter (fun e => entryMatchesScope e scope) matches in
    head (stable_sort (fun a b => num_lt (date_parse (m_updatedAt b)) (date_parse (m_updatedAt a))) scoped).

Definition or_text (a b : string) : string := if truthy a then a else b.
Definition age_days (now : Z) (ms : num) : num := num_max (NInt 0) (num_floor_div (num_sub (NInt now) ms) 86400000).
Definition rank_num (t : MemoryTrustTier) : num := NInt (Z.of_nat (trustTierRank t)).

Definition computeEntrySignalScore (now : Z) (e : MemoryStoreEntry) : num :=
  let updatedMs := parseIsoMillis (or_text (m_updatedAt e) (m_createdAt e)) in
  let lastAccessMs := parseIsoMillis (or_text (m_lastAccessedAt e) (or_text (m_updatedAt e) (m_createdAt e))) in
  let ageDays := if num_lt (NInt 0) updatedMs then age_days now updatedMs else NInt 0 in
  let accessAgeDays := if num_lt (NInt 0) lastAccessMs then age_days now lastAccessMs else ageDays in
  num_sub (num_sub
    (num_add (num_add (num_add (num_mul (m_importance e) (NInt 24)) (num_mul (m_confidence e) (NInt 40)))
                      (num_mul (m_reinforceCount e) (NInt 4)))
             (num_mul (rank_num (m_trustTier e)) (NInt 10)))
    (num_mul ageDays (NFin 4 1))) (num_mul accessAgeDays (NFin 6 1)).

Definition eviction_score (now : Z) (policy : MemoryEvictionPolicy) (e : MemoryStoreEntry) : num :=
  match policy with
  | low_signal_first =>
      num_add (num_add (num_add (num_mul (m_importance e) (NInt 20)) (num_mul (m_confidence e) (NInt 30)))
                       (num_mul (m_reinforceCount e) (NInt 5)))
              (num_mul (rank_num (m_trustTier e)) (NInt 6))
  | _ => computeEntrySignalScore now e
  end.
Definition updated_ms (e : MemoryStoreEntry) : num := parseIsoMillis (or_text (m_updatedAt e) (m_createdAt e)).
Definition pickEvictionCandidate (now : Z) (entries : list MemoryStoreEntry) (policy : MemoryEvictionPolicy)
  : option MemoryStoreEntry :=
  match policy with
  | oldest => head (stable_sort (fun a b => num_lt (updated_ms a) (updated_ms b)) entries)
  | _ =>
      let score := eviction_score now policy in
      head (stable_sort (fun a b => num_lt (score a) (score b) ||
                                    (num_eq (score a) (score b) && num_lt (updated_ms a) (updated_ms b))) entries)
  end.

(** [active.splice(idx, 1)] at the first entry with the id *)
Fixpoint remove_id (id : string) (l : list MemoryStoreEntry) : list MemoryStoreEntry :=
  match l with
  | [] => []
  | e :: l' => if (m_id e =? id)%string then l' else e :: remove_id id l'
  end.
(** The condition of the loop; comparisons with a missing limit are false. *)
Definition over_quota (quota : option NamespaceQuota) (active : list MemoryStoreEntry) (totalBytes : Z) : bool :=
  match quota with
  | Some q => num_lt (maxEntries q) (NInt (Z.of_nat (length active))) || num_lt (maxBytes q) (NInt totalBytes)
  | None => false
  end.
(** Every round takes one entry out of [active]: the fuel is its length. *)
Fixpoint evict (fuel : nat) (now : Z) (quota : option NamespaceQuota) (protectedIds : list string)
    (active : list MemoryStoreEntry) (totalBytes : Z) : list MemoryStoreEntry * list MemoryStoreEntry :=
  match fuel with
  | 0 => (active, [])
  | S fuel =>
      if negb (over_quota quota active totalBytes) then (active, [])
      else
        let candidates := List.filter (fun e => negb (bool_decide (m_id e ∈ protectedIds))) active in
        match pickEvictionCandidate now candidates (match quota with Some q => evictionPolicy q | None => stale_low_signal end) with
        | None => (active, [])
        | Some victim =>
            let '(kept, evicted) := evict fuel now quota protectedIds (remove_id (m_id victim) active)
                                      (totalBytes - estimateEntryBytes victim)%Z in
            (kept, victim :: evicted)
        end
  end.
Definition total_bytes (l : list MemoryStoreEntry) : Z := fold_right (fun e n => estimateEntryBytes e + n)%Z 0%Z l.

(** The file after the evictions, the ids that were evicted and the quota. *)
Definition enforceNamespaceQuota (now : Z) (config : NamespaceQuotaConfig) (namespace : string)
    (protectedIds : list string) (f : file) : file * list string * option NamespaceQuota :=
  let quota := resolveNamespaceQuota config namespace in
  let scoped := List.filter (fun e => (m_namespace e =? namespace)%string) (loadStoreEntries None f) in
  let protected := List.filter truthy protectedIds in
  let '(_, evicted) := evict (length scoped) now quota protected scoped (total_bytes scoped) in
  let policy := match quota with Some q => policy_name (evictionPolicy q) | None => "undefined" end in
  let markers := map (fun e => mkMarker (m_id e) (toISOString now) (Some ("Namespace quota eviction (" +:+ policy +:+ ")"))) evicted in
  (appendStoreDeleteMarkers markers f, map m_id evicted, quota).
End Dates.

(** ** The log replayed *)

Definition without (id : string) (l : list MemoryStoreEntry) : list MemoryStoreEntry :=
  List.filter (fun e => negb (m_id e =? id)%string) l.
(** The abstract store: the entries by the time they were last written. *)
Definition apply_record (l : list MemoryStoreEntry) (r : line_record) : list MemoryStoreEntry :=
  match r with
  | Put e => without (m_id e) l ++ [e]
  | Del id => without id l
  | Skip => l
  end.
Definition replay (rs : list line_record) : list MemoryStoreEntry := fold_left apply_record rs [].
Definition records (f : file) : list line_record := map read_line (normalizeLineBreaks (default "" f)).

Lemma filter_filter {A} (p q : A -> bool) l : List.filter p (List.filter q l) = List.filter (fun x => q x && p x) l.
Proof. induction l as [|x l IH]; [done|]. cbn. destruct (q x); cbn; [destruct (p x)|]; by rewrite IH. Qed.

Lemma load_lines_replay lines seen deleted out :
  load_lines None lines seen deleted out =
  List.filter (fun e => negb (bool_decide (m_id e ∈ deleted) || bool_decide (m_id e ∈ seen)))
    (replay (map read_line (rev lines))) ++ out.
Proof.
  revert seen deleted out. induction lines as [|line rest IH]; intros seen deleted out; [done|].
  cbn [load_lines rev]. unfold replay. rewrite map_app, fold_left_app. fold (replay (map read_line (rev rest))).
  cbn [map fold_left apply_record]. destruct (read_line line) as [e|id|]; cbn [apply_record]; [|rewrite IH; f_equal|apply IH].
  - rewrite List.filter_app. unfold without. rewrite filter_filter. cbn [List.filter].
    destruct (_ || _) eqn:B; cbn [negb]; rewrite IH, <- app_assoc; f_equal; apply filter_ext; intros x.
    + destruct (String.eqb_spec (m_id x) (m_id e)) as [->|]; [by rewrite B|done].
    + destruct (String.eqb_spec (m_id x) (m_id e)) as [->|N]; cbn [negb andb].
      * rewrite (bool_decide_eq_true_2 (m_id e ∈ m_id e :: seen)) by (by left). by rewrite orb_true_r.
      * f_equal. f_equal. apply bool_decide_ext. rewrite elem_of_cons. naive_solver.
  - unfold without. rewrite filter_filter. apply filter_ext. intros x.
    destruct (String.eqb_spec (m_id x) id) as [->|N]; cbn [negb andb].
    + by rewrite bool_decide_eq_true_2 by (by left).
    + f_equal. f_equal. apply bool_decide_ext. rewrite elem_of_cons. naive_solver.
Qed.
Lemma load_replay f : loadStoreEntries None f = replay (records f).
Proof.
  destruct f as [raw|]; [|done]. cbn [loadStoreEntries]. rewrite load_lines_replay, rev_involutive, app_nil_r.
  rewrite (filter_ext _ (fun _ => true)); [by induction (replay _) as [|? ? IH]; cbn; [|rewrite IH]|].
  intros e. by rewrite !bool_decide_eq_false_2 by apply not_elem_of_nil.
Qed.

(** *** One entry for an id *)

Lemma without_elem id l e : e ∈ without id l <-> e ∈ l /\ m_id e <> id.
Proof.
  unfold without. rewrite !list_elem_of_In, filter_In, negb_true_iff, String.eqb_neq. done.
Qed.
Lemma map_filter_sub {A B} (g : A -> B) p (l : list A) : sublist (map g (List.filter p l)) (map g l).
Proof. induction l as [|x l IH]; [done|]. cbn. destruct (p x); by constructor. Qed.
Lemma apply_NoDup l r : NoDup (map m_id l) -> NoDup (map m_id (apply_record l r)).
Proof.
  intros N. assert (forall id, NoDup (map m_id (without id l))) as W.
  { intros id. eapply sublist_NoDup; [exact N|]. apply map_filter_sub. }
  destruct r as [e|id|]; cbn; auto. rewrite map_app. apply NoDup_app. split; [apply W|]. split; [|apply NoDup_singleton].
  intros x (e' & -> & E)%list_elem_of_fmap S%list_elem_of_singleton. by apply without_elem in E as [_ ?].
Qed.
Lemma replay_NoDup rs : NoDup (map m_id (replay rs)).
Proof.
  unfold replay. assert (NoDup (map m_id [])) as N by constructor. revert N. generalize (@nil MemoryStoreEntry).
  induction rs as [|r rs IH]; intros l N; [done|]. by apply IH, apply_NoDup.
Qed.
Lemma load_NoDup f : NoDup (map m_id (loadStoreEntries None f)).
Proof. rewrite load_replay. apply replay_NoDup. Qed.

Definition lookup_id (id : string) (l : list MemoryStoreEntry) : option MemoryStoreEntry :=
  List.find (fun e => (m_id e =? id)%string) l.
Lemma lookup_without id id' l : lookup_id id (without id' l) = if (id =? id')%string then None else lookup_id id l.
Proof.
  unfold lookup_id, without. induction l as [|e l IH]; cbn; [by destruct (_ =? _)%string|].
  destruct (String.eqb_spec (m_id e) id') as [E|E]; cbn; rewrite IH.
  - destruct (String.eqb_spec id id') as [->|N]; [done|].
    by destruct (String.eqb_spec (m_id e) id) as [<-|].
  - destruct (String.eqb_spec (m_id e) id) as [<-|N]; [|done]. by destruct (String.eqb_spec (m_id e) id').
Qed.
Lemma lookup_app id l l' : lookup_id id (l ++ l') = match lookup_id id l with Some e => Some e | None => lookup_id id l' end.
Proof. unfold lookup_id. induction l as [|e l IH]; cbn; [done|]. by destruct (m_id e =? id)%string. Qed.

Lemma find_lines_replay id scope lines :
  find_lines id scope lines =
  match lookup_id id (replay (map read_line (rev lines))) with
  | Some e => if entryMatchesScope e scope then Some e else None
  | None => None
  end.
Proof.
  induction lines as [|line rest IH]; [done|]. cbn [find_lines rev]. unfold replay.
  rewrite map_app, fold_left_app. fold (replay (map read_line (rev rest))). cbn [map fold_left].
  destruct (read_line line) as [e|id'|]; cbn [apply_record]; [| |exact IH].
  - rewrite lookup_app, lookup_without. unfold lookup_id at 2. cbn [List.find]. rewrite (String.eqb_sym id).
    destruct (m_id e =? id)%string; [done|]. rewrite IH. by destruct (lookup_id id _).
  - rewrite lookup_without, (String.eqb_sym id). by destruct (id' =? id)%string.
Qed.

Lemma find_by_id f id scope :
  findStoreEntryById f id scope =
  match lookup_id id (loadStoreEntries None f) with
  | Some e => if entryMatchesScope e scope then Some e else None
  | None => None
  end.
Proof.
  rewrite load_replay. destruct f as [raw|]; [|done]. cbn [findStoreEntryById].
  by rewrite find_lines_replay, rev_involutive.
Qed.

(** *** The type of entries *)

Definition full (s : string) : Prop := truthy s = true /\ trim s = s.
Definition int_between (low high : Z) (n : num) : Prop := exists z, n = NInt z /\ (low <= z <= high)%Z.
Definition num_between (low high n : num) : Prop := isFinite n = true /\ num_lt n low = false /\ num_lt high n = false.
Record entry_ok (e : MemoryStoreEntry) : Prop := {
  ok_id : full (m_id e);
  ok_title : full (m_title e);
  ok_content : full (m_content e);
  ok_created : full (m_createdAt e);
  ok_updated : full (m_updatedAt e);
  ok_accessed : full (m_lastAccessedAt e);
  ok_tags : normalizeTags (VArr (map VStr (m_tags e))) = m_tags e /\ length (m_tags e) <= 20;
  ok_reinforce : int_between 0 10000 (m_reinforceCount e);
  ok_importance : int_between 1 5 (m_importance e);
  ok_confidence : num_between MIN_CONFIDENCE (NInt 1) (m_confidence e);
  ok_source : label 2 32 (m_source e) = true;
  ok_namespace : label 1 64 (m_namespace e) = true;
}.

Lemma text_trim v : trim (text_of v) = text_of v.
Proof. apply trim_idemp. Qed.
Lemma clampInt_ok v low high fallback :
  (low <= high)%Z -> int_between low high fallback -> int_between low high (clampInt v low high fallback).
Proof.
  intros L F. unfold clampInt. destruct (to_number v) as [|[]|m k]; cbn [isFinite negb]; try exact F.
  cbn [num_floor]. rewrite num_min_int, num_max_int. eexists. split; [reflexivity|lia].
Qed.
Lemma clampNumber_ok v low high fallback :
  isFinite low = true -> isFinite high = true -> num_lt high low = false -> num_between low high fallback ->
  num_between low high (clampNumber v low high fallback).
Proof.
  intros Fl Fh L F. unfold clampNumber. destruct (isFinite (to_number v)) eqn:E; [|exact F]. cbn [negb].
  generalize dependent (to_number v). intros n E.
  assert (forall x, isFinite x = true -> isNaN x = false) as NN by (by intros []).
  unfold num_between, num_max, num_min. rewrite !(NN high), (NN n) by done. cbn [orb].
  destruct (num_lt n high) eqn:A; rewrite (NN low) by done; [rewrite (NN n) by done|rewrite (NN high) by done]; cbn [orb];
    [destruct (num_lt low n) eqn:B|destruct (num_lt low high) eqn:B]; auto using num_lt_irrefl, num_lt_asym.
Qed.
Lemma label_source v fallback : label 2 32 fallback = true -> label 2 32 (normalizeSource v fallback) = true.
Proof. unfold normalizeSource. intros F. destruct (negb _); [done|]. by destruct (label 2 32 (toLowerCase (text_of v))) eqn:E. Qed.
Lemma label_namespace v fallback : label 1 64 fallback = true -> label 1 64 (normalizeNamespace v fallback) = true.
Proof. unfold normalizeNamespace. intros F. destruct (negb _); [done|]. by destruct (label 1 64 (toLowerCase (text_of v))) eqn:E. Qed.

Lemma filter_truthy l : Forall (fun s => truthy s = true) l -> List.filter truthy l = l.
Proof. induction 1 as [|s l H _ IH]; [done|]. cbn. by rewrite H, IH. Qed.
Lemma normalizeTags_ok v :
  normalizeTags (VArr (map VStr (normalizeTags v))) = normalizeTags v /\ length (normalizeTags v) <= 20.
Proof.
  destruct v as [| | | | |rows|]; try (cbn; split; [done|lia]). cbn [normalizeTags].
  set (l := List.filter truthy (map (fun row => toLowerCase (text_of row)) rows)). split; [|rewrite length_firstn; lia].
  assert (Forall (fun s => toLowerCase (trim s) = s /\ truthy s = true) l) as F.
  { apply Forall_forall. intros s [(row & <- & _)%in_map_iff T]%list_elem_of_In%filter_In. split; [|done].
    unfold text_of. by rewrite trim_toLowerCase, trim_idemp, toLowerCase_idemp. }
  assert (Forall (fun s => toLowerCase (trim s) = s /\ truthy s = true) (firstn 20 (dedup l))) as F'.
  { apply Forall_forall. intros s H. rewrite Forall_forall in F. apply F, elem_of_dedup. eapply elem_of_take in H as (? & H & _).
    by eapply list_elem_of_lookup_2. }
  pose proof (NoDup_dedup l) as N. revert F' N. generalize (dedup l) as d. intros d F' N.
  rewrite map_map, (map_ext_in _ id).
  - rewrite map_id, filter_truthy by (eapply Forall_impl; [exact F'|]; naive_solver).
    rewrite dedup_id by (eapply sublist_NoDup; [exact N|]; apply sublist_take). by rewrite firstn_firstn.
  - intros s H%list_elem_of_In. rewrite Forall_forall in F'. by apply F'.
Qed.

Lemma parseStoreEntry_ok raw e : parseStoreEntry raw = Some e -> entry_ok e.
Proof.
  unfold parseStoreEntry. destruct (negb (isRecord raw)); [done|].
  destruct (negb (truthy (text_of (get_prop "id" raw)))) eqn:I; [done|].
  destruct (negb (truthy (text_of (get_prop "title" raw)))) eqn:T; [done|].
  destruct (negb (truthy (text_of (get_prop "content" raw)))) eqn:C; [done|].
  destruct (negb (truthy (text_of (get_prop "createdAt" raw)))) eqn:K; [done|]. cbn [orb]. intros [= <-].
  apply negb_false_iff in I, T, C, K.
  assert (forall s t, full t -> full (if truthy (trim s) then trim s else t)) as O.
  { intros s t H. destruct (truthy (trim s)) eqn:E; [|done]. split; [done|apply trim_idemp]. }
  assert (full (text_of (get_prop "createdAt" raw))) as Fc by (split; [done|apply text_trim]).
  split; cbn [m_id m_title m_content m_createdAt m_updatedAt m_lastAccessedAt m_tags m_reinforceCount m_importance
              m_confidence m_source m_namespace]; auto using normalizeTags_ok, label_source, label_namespace; try (split; [done|apply text_trim]).
  - apply clampInt_ok; [lia|]. exists 0%Z. split; [done|lia].
  - apply clampInt_ok; [lia|]. exists 3%Z. split; [done|lia].
  - by apply clampNumber_ok.
Qed.

(** *** Lines *)

(** A file whose last line is complete. *)
Definition whole (f : file) : Prop := match f with None | Some "" => True | Some t => exists t', t = t' +:+ nl end.
Definition one_line (s : string) : Prop := Forall (fun c => (code c =? 10)%nat = false) (chars s).

Lemma whole_nl t : whole (Some (t +:+ nl)).
Proof. unfold whole. destruct (t +:+ nl) as [|c u] eqn:E; [done|]. by exists t. Qed.
Lemma strip_cr_snoc l : strip_all_but_last (l ++ [[]]) = map strip_cr l ++ [[]].
Proof.
  induction l as [|x l IH]; [done|]. cbn [app map]. rewrite <- IH. by destruct l.
Qed.
Lemma read_strip_cr l : read_line (of_chars (strip_cr l)) = read_line (of_chars l).
Proof.
  unfold read_line. assert (trim (of_chars (strip_cr l)) = trim (of_chars l)) as ->; [|done].
  unfold strip_cr. destruct (rev l) as [|c r] eqn:E; [by apply (f_equal (@rev ascii)) in E; rewrite rev_involutive in E; subst l|].
  destruct (code c =? 13)%nat eqn:C; [|done]. apply (f_equal (@rev ascii)) in E. rewrite rev_involutive in E. subst l. cbn [rev].
  unfold trim. rewrite !chars_of_chars, trim_list_snoc_ws; [done|]. by destruct c as [[] [] [] [] [] [] [] []].
Qed.

Lemma records_complete t : map read_line (normalizeLineBreaks (t +:+ nl)) = map read_line (map of_chars (split_list (fun c => (code c =? 10)%nat) (chars t))) ++ [Skip].
Proof.
  unfold normalizeLineBreaks, split_lines. rewrite chars_app. change (chars nl) with [chr 10].
  rewrite split_list_app by done. change (split_list _ []) with [@nil ascii]. rewrite strip_cr_snoc, !map_app. f_equal.
  rewrite !map_map. apply map_ext. intros l. apply read_strip_cr.
Qed.
Lemma replay_snoc rs r : replay (rs ++ [r]) = apply_record (replay rs) r.
Proof. unfold replay. by rewrite fold_left_app. Qed.

(** Appending a line to a complete file is one step of the store. *)
Lemma load_append f line :
  whole f -> one_line line ->
  loadStoreEntries None (appendFile (line +:+ nl) f) = apply_record (loadStoreEntries None f) (read_line line) /\
  whole (appendFile (line +:+ nl) f).
Proof.
  intros W L. rewrite !load_replay. unfold records, appendFile. cbn [default]. split.
  - assert (split_list (fun c => (code c =? 10)%nat) (chars line) = [chars line]) as S by (by apply split_list_single).
    destruct f as [[|c t]|]; cbn [default from_option id].
    + change ("" +:+ line +:+ nl) with (line +:+ nl). rewrite records_complete, S. cbn [map]. by rewrite of_chars_chars, replay_snoc.
    + destruct W as [t' W]. rewrite W. replace ((t' +:+ nl) +:+ line +:+ nl) with ((t' +:+ nl +:+ line) +:+ nl) by (by rewrite !str_app_assoc).
      rewrite !records_complete, !chars_app. change (chars nl) with [chr 10]. cbn [app].
      rewrite split_list_app, S, !map_app by done. cbn [map]. rewrite of_chars_chars, !replay_snoc. done.
    + change ("" +:+ line +:+ nl) with (line +:+ nl). rewrite records_complete, S. cbn [map]. by rewrite of_chars_chars, replay_snoc.
  - rewrite str_app_assoc. apply whole_nl.
Qed.

Lemma load_append_lines f lines :
  whole f -> Forall one_line lines -> lines <> [] ->
  loadStoreEntries None (appendFile (join nl lines +:+ nl) f) =
    fold_left apply_record (map read_line lines) (loadStoreEntries None f) /\
  whole (appendFile (join nl lines +:+ nl) f).
Proof.
  intros W F. revert f W. induction F as [|x lines Hx F IH]; intros f W N; [done|].
  destruct (load_append f x W Hx) as [E W']. destruct lines as [|y lines].
  - cbn [join String.concat map fold_left]. by rewrite E.
  - specialize (IH _ W' ltac:(done)). rewrite E in IH.
    replace (appendFile (join nl (y :: lines) +:+ nl) (appendFile (x +:+ nl) f))
      with (appendFile (join nl (x :: y :: lines) +:+ nl) f) in IH; [exact IH|].
    unfold appendFile. change (join nl (x :: y :: lines)) with (x +:+ nl +:+ join nl (y :: lines)). by rewrite !str_app_assoc.
Qed.

(** *** What is appended is read back *)

Definition norm_entry (e : MemoryStoreEntry) : MemoryStoreEntry :=
  mkEntry (m_id e) (m_title e) (m_content e) (m_tags e) (m_createdAt e) (m_updatedAt e) (m_lastAccessedAt e)
    (m_reinforceCount e) (m_importance e) (num_norm (m_confidence e)) (m_source e) (m_namespace e) (m_trustTier e).

Lemma stringify_line v : one_line (JSON_stringify v).
Proof.
  unfold one_line, JSON_stringify. rewrite chars_of_chars. pose proof (print_visible v) as P. rewrite forallb_forall in P.
  apply Forall_forall. intros c H%list_elem_of_In%P. unfold visible in H. bool_prop. apply Nat.eqb_neq. lia.
Qed.
Lemma read_stringify ps : distinct (VObj ps) -> read_line (JSON_stringify (VObj ps)) = value_record (json_norm (VObj ps)).
Proof.
  intros D. unfold read_line. rewrite print_obj_trim, parse_stringify by done.
  assert (truthy (JSON_stringify (VObj ps)) = true) as ->; [|done]. apply truthy_true. discriminate.
Qed.
Lemma full_text s : full s -> text_of (VStr s) = s.
Proof. by intros [_ ?]. Qed.
Lemma label_lower low high s : label low high s = true -> toLowerCase (trim s) = s.
Proof.
  intros [_ F]%andb_true_iff. rewrite trim_no_ws.
  - unfold toLowerCase. rewrite <- (of_chars_chars s) at 2. f_equal. rewrite <- (map_id (chars s)) at 2. apply map_ext_in.
    intros c H. rewrite forallb_forall in F. specialize (F c H). by destruct c as [[] [] [] [] [] [] [] []].
  - rewrite forallb_forall in *. intros c H. specialize (F c H). by destruct c as [[] [] [] [] [] [] [] []].
Qed.
Lemma label_truthy low high s : label (S low) high s = true -> truthy s = true.
Proof. unfold label. rewrite truthy_true. by intros L ->. Qed.
Lemma normalizeSource_id s fallback : label 2 32 s = true -> normalizeSource (VStr s) fallback = s.
Proof.
  intros L. unfold normalizeSource, text_of. cbn [nullish to_string]. rewrite (label_lower 2 32 s L).
  by rewrite (label_truthy 1 32 s L), L.
Qed.
Lemma normalizeNamespace_id s fallback : label 1 64 s = true -> normalizeNamespace (VStr s) fallback = s.
Proof.
  intros L. unfold normalizeNamespace, text_of. cbn [nullish to_string]. rewrite (label_lower 1 64 s L).
  by rewrite (label_truthy 0 64 s L), L.
Qed.
Lemma normalizeTrustTier_id t fallback : normalizeTrustTier (VStr (tier_name t)) fallback = t.
Proof. by destruct t. Qed.
Lemma clampInt_id low high n fallback : int_between low high n -> clampInt (VNum n) low high fallback = n.
Proof.
  intros (z & -> & L). unfold clampInt. cbn [to_number isFinite NInt negb num_floor]. change (pow10 0) with 1%Z.
  rewrite Z.div_1_r, num_min_int, num_max_int. f_equal. lia.
Qed.
Lemma clampNumber_id low high n fallback :
  num_norm low = low -> num_norm high = high -> isFinite low = true -> isFinite high = true -> num_between low high n ->
  clampNumber (VNum (num_norm n)) low high fallback = num_norm n.
Proof.
  intros Nl Nh Fl Fh (F & L & H). unfold clampNumber. cbn [to_number]. rewrite num_norm_finite, F. cbn [negb].
  assert (forall x, isFinite x = true -> isNaN x = false) as NN by (by intros []).
  assert (num_min high (num_norm n) = num_norm n) as ->.
  { unfold num_min. rewrite !NN by (by rewrite ?num_norm_finite). cbn [orb]. rewrite (proj1 (num_norm_lt _ _)).
    destruct (num_lt n high) eqn:E; [done|]. rewrite <- Nh. by apply num_norm_unique. }
  unfold num_max. rewrite !NN by (by rewrite ?num_norm_finite). cbn [orb]. rewrite (proj2 (num_norm_lt _ _)).
  destruct (num_lt low n) eqn:E; [done|]. rewrite <- Nl. by apply num_norm_unique.
Qed.

Lemma entry_distinct e : distinct (entry_value e).
Proof.
  cbn [entry_value distinct fold_right snd]. split; [by_decide|]. repeat split; try done.
  by induction (m_tags e).
Qed.
(** What is read of an entry that was written. *)
Lemma parse_entry_value e :
  entry_ok e -> parseStoreEntry (json_norm (entry_value e)) = Some (norm_entry e).
Proof.
  intros [I T C K U A [G _] (z & R & Rz) (w & Im & Iw) Co S Ns].
  assert (json_norm (entry_value e) = entry_value (norm_entry e)) as ->.
  { unfold entry_value, norm_entry. rewrite R, Im. destruct Co as [F _].
    cbn [json_norm flat_map is_undef snd fst app m_id m_title m_content m_tags m_createdAt m_updatedAt m_lastAccessedAt
         m_reinforceCount m_importance m_confidence m_source m_namespace m_trustTier isFinite NInt num_norm strip_zeros].
    rewrite F. by rewrite map_map. }
  unfold parseStoreEntry, entry_value, norm_entry. cbn [isRecord is_object is_array negb andb]. lookups.
  cbn [m_id m_title m_content m_tags m_createdAt m_updatedAt m_lastAccessedAt
         m_reinforceCount m_importance m_confidence m_source m_namespace m_trustTier].
  rewrite !full_text by done. cbn [nullish to_string]. destruct I as [I _], T as [T _], C as [C _], K as [K _], U as [U U'], A as [A A'].
  rewrite U', A', I, T, C, K, U, A, G. cbn [negb orb].
  rewrite R, Im, !clampInt_id, clampNumber_id, normalizeSource_id, normalizeNamespace_id, normalizeTrustTier_id; try done.
  - by exists w.
  - by exists z.
Qed.
Lemma read_entry e : entry_ok e -> read_line (JSON_stringify (entry_value e)) = Put (norm_entry e).
Proof.
  intros O. unfold entry_value. rewrite read_stringify by apply entry_distinct. fold (entry_value e). unfold value_record.
  by rewrite parse_entry_value.
Qed.
Lemma read_marker d : full (d_id d) -> full (d_deletedAt d) -> read_line (JSON_stringify (marker_value d)) = Del (d_id d).
Proof.
  intros [I I'] [A A']. destruct d as [i a r]. cbn [d_id d_deletedAt] in *.
  assert (distinct (marker_value (mkMarker i a r))) as D.
  { destruct r; cbn; (split; [by_decide|by repeat split]). }
  unfold marker_value in *. rewrite read_stringify by done. unfold value_record, parseStoreDeleteMarker.
  assert (exists ps, json_norm (VObj ([("type", VStr "delete"); ("id", VStr i); ("deletedAt", VStr a)] ++
            match r with Some r => [("reason", VStr r)] | None => [] end)) =
          VObj (("type", VStr "delete") :: ("id", VStr i) :: ("deletedAt", VStr a) :: ps)) as [ps E].
  { destruct r; cbn; by eexists. }
  cbn [d_id d_deletedAt d_reason]. rewrite E. cbn [isRecord is_object is_array negb andb]. lookups.
  unfold text_of. cbn [nullish to_string]. rewrite I', A', I, A. done.
Qed.

Lemma without_fold ids l :
  fold_left apply_record (map Del ids) l = List.filter (fun e => negb (bool_decide (m_id e ∈ ids))) l.
Proof.
  revert l. induction ids as [|i ids IH]; intros l; cbn [map fold_left].
  - rewrite (filter_ext _ (fun _ => true)); [by induction l as [|? ? IH]; cbn; [|rewrite <- IH]|].
    intros e. by rewrite bool_decide_eq_false_2 by apply not_elem_of_nil.
  - rewrite IH. unfold apply_record, without. rewrite filter_filter. apply filter_ext. intros e.
    destruct (String.eqb_spec (m_id e) i) as [->|N]; cbn [negb andb].
    + by rewrite bool_decide_eq_true_2 by (by left).
    + f_equal. apply bool_decide_ext. rewrite elem_of_cons. naive_solver.
Qed.

(** The operations of the store: writing an entry and deleting some. *)
Lemma store_put f e :
  whole f -> entry_ok e ->
  loadStoreEntries None (appendStoreEntry e f) = without (m_id e) (loadStoreEntries None f) ++ [norm_entry e] /\
  whole (appendStoreEntry e f).
Proof.
  intros W O. unfold appendStoreEntry. destruct (load_append f (JSON_stringify (entry_value e)) W (stringify_line _)) as [E W'].
  split; [|done]. rewrite E, read_entry by done. done.
Qed.
Definition marker_ok (d : MemoryStoreDeleteMarker) : Prop := full (d_id d) /\ full (d_deletedAt d).
Definition delete_all (ids : list string) (l : list MemoryStoreEntry) : list MemoryStoreEntry :=
  List.filter (fun e => negb (bool_decide (m_id e ∈ ids))) l.
Lemma store_delete f ds :
  whole f -> Forall marker_ok ds ->
  loadStoreEntries None (appendStoreDeleteMarkers ds f) = delete_all (map d_id ds) (loadStoreEntries None f) /\
  whole (appendStoreDeleteMarkers ds f).
Proof.
  intros W O. destruct ds as [|d ds].
  { split; [apply (without_fold [])|done]. }
  destruct (load_append_lines f (map (fun d => JSON_stringify (marker_value d)) (d :: ds)) W) as [E W']; [|done|].
  { apply Forall_map, Forall_true. intros. apply stringify_line. }
  split; [|exact W']. cbn [appendStoreDeleteMarkers]. rewrite E, map_map.
  rewrite (map_ext_in _ (fun d => Del (d_id d))); [by rewrite <- (map_map d_id Del), without_fold|].
  intros x H%list_elem_of_In. rewrite Forall_forall in O. destruct (O x H). by apply read_marker.
Qed.
Lemma store_delete1 f d :
  whole f -> marker_ok d ->
  loadStoreEntries None (appendStoreDeleteMarker d f) = without (d_id d) (loadStoreEntries None f) /\
  whole (appendStoreDeleteMarker d f).
Proof.
  intros W [I A]. destruct (load_append f (JSON_stringify (marker_value d)) W (stringify_line _)) as [E W'].
  split; [|done]. unfold appendStoreDeleteMarker. by rewrite E, read_marker.
Qed.

Lemma load_ok f : Forall entry_ok (loadStoreEntries None f).
Proof.
  rewrite load_replay. unfold replay, records.
  assert (Forall entry_ok []) as N by constructor. revert N. generalize (@nil MemoryStoreEntry).
  induction (normalizeLineBreaks (default "" f)) as [|line rest IH]; intros l N; [done|]. cbn [map fold_left]. apply IH.
  assert (forall id, Forall entry_ok (without id l)) as W by (intros id; eapply incl_Forall; [apply incl_filter|done]).
  unfold read_line. destruct (negb _); [done|]. destruct (JSON_parse _) as [v|]; [|done]. unfold value_record.
  destruct (parseStoreDeleteMarker v) as [d|]; [apply W|]. destruct (parseStoreEntry v) as [e|] eqn:E; [|done].
  apply Forall_app. split; [apply W|]. constructor; [by eapply parseStoreEntry_ok|constructor].
Qed.

(** ** Eviction *)

Section Eviction.
Variable date_parse : string -> num.

Lemma head_sort {A} (lt : A -> A -> bool) l x : head (stable_sort lt l) = Some x -> x ∈ l.
Proof.
  intros H. pose proof (stable_sort_perm lt l) as P. destruct (stable_sort lt l) as [|y l']; [done|]. injection H as ->.
  rewrite P. by left.
Qed.
Lemma head_sort_None {A} (lt : A -> A -> bool) l : head (stable_sort lt l) = None -> l = [].
Proof.
  intros H. pose proof (stable_sort_perm lt l) as P. destruct (stable_sort lt l) as [|y l']; [|done].
  by apply Permutation_nil_r in P.
Qed.
Lemma pick_some now l p x : pickEvictionCandidate date_parse now l p = Some x -> x ∈ l.
Proof. unfold pickEvictionCandidate. destruct p; apply head_sort. Qed.
Lemma pick_none now l p : pickEvictionCandidate date_parse now l p = None -> l = [].
Proof. unfold pickEvictionCandidate. destruct p; apply head_sort_None. Qed.

Lemma remove_without id l : NoDup (map m_id l) -> remove_id id l = without id l.
Proof.
  induction l as [|e l IH]; [done|]. cbn [map remove_id without List.filter]. intros [N ND]%NoDup_cons.
  destruct (String.eqb_spec (m_id e) id) as [E|E]; cbn [negb]; [|f_equal; by apply IH].
  symmetry. unfold without. rewrite (filter_ext_in _ (fun _ => true)); [by clear; induction l as [|? ? IH]; cbn; [|rewrite IH]|].
  intros x H%list_elem_of_In. rewrite negb_true_iff, String.eqb_neq. intros X. apply N. rewrite E, <- X.
  by apply (list_elem_of_fmap_2 m_id).
Qed.
Lemma bytes_without e l : NoDup (map m_id l) -> e ∈ l -> (total_bytes (without (m_id e) l) = total_bytes l - estimateEntryBytes e)%Z.
Proof.
  intros ND H. rewrite <- remove_without by done. induction l as [|x l IH]; [by apply not_elem_of_nil in H|].
  cbn [map] in ND. apply NoDup_cons in ND as [N ND]. cbn [remove_id total_bytes fold_right] in *.
  destruct (String.eqb_spec (m_id x) (m_id e)) as [E|E].
  - apply elem_of_cons in H as [->|H]; [unfold total_bytes; lia|]. destruct N. rewrite E. by apply (list_elem_of_fmap_2 m_id).
  - apply elem_of_cons in H as [->|H]; [done|]. specialize (IH ND H). unfold total_bytes in *. cbn [fold_right]. lia.
Qed.

Lemma without_shorter e l : e ∈ l -> length (without (m_id e) l) < length l.
Proof.
  intros H. apply list_elem_of_In in H. unfold without. induction l as [|x l IH]; [done|]. cbn [List.filter length].
  pose proof (List.filter_length_le (fun x => negb (m_id x =? m_id e)%string) l).
  destruct H as [->|H]; [rewrite String.eqb_refl; simpl; lia|]. specialize (IH H). destruct (negb _); simpl; lia.
Qed.
(** The loop ends within the quota or with only protected entries left; it takes
    out unprotected entries only. *)
Lemma evict_spec now quota protected fuel active :
  NoDup (map m_id active) -> length active <= fuel ->
  let '(kept, evicted) := evict date_parse fuel now quota protected active (total_bytes active) in
  kept = delete_all (map m_id evicted) active /\
  Forall (fun e => e ∈ active /\ m_id e ∉ protected) evicted /\
  (over_quota quota kept (total_bytes kept) = false \/ Forall (fun e => m_id e ∈ protected) kept).
Proof.
  revert active. induction fuel as [|fuel IH]; intros active ND L.
  - destruct active; [|simpl in L; lia]. cbn. split; [done|]. split; [constructor|by right].
  - cbn [evict]. destruct (over_quota quota active (total_bytes active)) eqn:O; cbn [negb].
    2: { split; [apply (without_fold [])|]. split; [constructor|by left]. }
    destruct (pickEvictionCandidate _ _ _ _) as [v|] eqn:P.
    + apply pick_some in P. apply list_elem_of_In, filter_In in P as [Hv%list_elem_of_In Pv]. bool_prop.
      rewrite remove_without, <- bytes_without by done.
      assert (NoDup (map m_id (without (m_id v) active))) as ND' by (eapply sublist_NoDup; [exact ND|apply map_filter_sub]).
      assert (length (without (m_id v) active) <= fuel) as L'.
      { assert (length (without (m_id v) active) < length active); [|lia]. by apply without_shorter. }
      specialize (IH _ ND' L'). destruct (evict _ _ _ _ _ _ _) as [kept evicted]. destruct IH as (-> & F & S). split; [|split; [|done]].
      * unfold delete_all, without. rewrite filter_filter. apply filter_ext. intros x. cbn [map].
        destruct (String.eqb_spec (m_id x) (m_id v)) as [->|N]; cbn [negb andb]; [by rewrite bool_decide_eq_true_2 by (by left)|].
        f_equal. apply bool_decide_ext. rewrite elem_of_cons. naive_solver.
      * constructor; [done|]. eapply Forall_impl; [exact F|]. intros x [Hx ?]. split; [|done]. by apply without_elem in Hx as [? _].
    + apply pick_none in P. split; [apply (without_fold [])|]. split; [constructor|]. right.
      apply Forall_forall. intros x Hx. destruct (decide (m_id x ∈ protected)) as [|N]; [done|exfalso].
      assert (x ∈ @nil MemoryStoreEntry) as X; [|by apply not_elem_of_nil in X]. rewrite <- P.
      apply list_elem_of_In, filter_In. split; [by apply list_elem_of_In|]. by rewrite bool_decide_eq_false_2.
Qed.
Lemma delete_filter ids (p : MemoryStoreEntry -> bool) l : List.filter p (delete_all ids l) = delete_all ids (List.filter p l).
Proof. unfold delete_all. rewrite !filter_filter. apply filter_ext. intros e. apply andb_comm. Qed.
Definition in_namespace (ns : string) (l : list MemoryStoreEntry) : list MemoryStoreEntry :=
  List.filter (fun e => (m_namespace e =? ns)%string) l.

(** Enforcing a quota deletes unprotected entries of the namespace, and nothing
    else, until the quota holds or only protected entries are left. *)
Lemma enforce_spec now config ns ids0 f f' ids quota :
  whole f -> enforceNamespaceQuota date_parse now config ns ids0 f = (f', ids, quota) ->
  whole f' /\ quota = resolveNamespaceQuota config ns /\
  loadStoreEntries None f' = delete_all ids (loadStoreEntries None f) /\
  (forall id, id ∈ ids -> id ∉ ids0 /\ exists e, e ∈ in_namespace ns (loadStoreEntries None f) /\ m_id e = id) /\
  (over_quota quota (in_namespace ns (loadStoreEntries None f')) (total_bytes (in_namespace ns (loadStoreEntries None f'))) = false \/
   Forall (fun e => m_id e ∈ ids0) (in_namespace ns (loadStoreEntries None f'))).
Proof.
  intros W. unfold enforceNamespaceQuota. fold (in_namespace ns (loadStoreEntries None f)).
  set (scoped := in_namespace ns (loadStoreEntries None f)). set (prot := List.filter truthy ids0).
  assert (NoDup (map m_id scoped)) as ND by (eapply sublist_NoDup; [apply load_NoDup|apply map_filter_sub]).
  pose proof (evict_spec now (resolveNamespaceQuota config ns) prot (length scoped) scoped ND (le_n _)) as E.
  destruct (evict _ _ _ _ _ _ _) as [kept evicted]. destruct E as (-> & F & S). intros [= <- <- <-].
  assert (Forall entry_ok scoped) as O by (eapply incl_Forall; [apply incl_filter|apply load_ok]).
  destruct (store_delete f (map (fun e => mkMarker (m_id e) (toISOString now) (Some ("Namespace quota eviction (" +:+
    match resolveNamespaceQuota config ns with Some q => policy_name (evictionPolicy q) | None => "undefined" end +:+ ")"))) evicted) W) as [L W'].
  { apply Forall_map. eapply Forall_impl; [exact F|]. intros e [He _]. rewrite Forall_forall in O. split; [by apply O|].
    split; [apply toISOString_truthy|apply toISOString_trim]. }
  rewrite map_map in L. cbn [d_id] in L. split; [exact W'|]. split; [done|]. split; [exact L|]. split.
  - intros id (e & -> & He)%list_elem_of_fmap. rewrite Forall_forall in F, O. destruct (F e He) as [Hs Hp]. split; [|by exists e].
    intros X. apply Hp. apply list_elem_of_In, filter_In. split; [by apply list_elem_of_In|]. by apply O.
  - rewrite L. unfold in_namespace. rewrite delete_filter. fold (in_namespace ns (loadStoreEntries None f)). fold scoped.
    destruct S as [S|S]; [by left|right]. eapply Forall_impl; [exact S|]. intros e [H _]%list_elem_of_In%filter_In. by apply list_elem_of_In.
Qed.
End Eviction.

(** ** Equivalence with the replay of the log *)

Lemma load_lines_out lines seen deleted out : exists more, load_lines None lines seen deleted out = more ++ out.
Proof.
  revert seen deleted out. induction lines as [|line rest IH]; intros seen deleted out; [by exists []|]. cbn [load_lines].
  destruct (read_line line) as [e|id|]; try apply IH. destruct (_ || _); [apply IH|].
  destruct (IH (m_id e :: seen) deleted (e :: out)) as [more ->]. exists (more ++ [e]). by rewrite <- app_assoc.
Qed.
Lemma load_lines_limit n lines seen deleted out :
  length out < n ->
  load_lines (Some n) lines seen deleted out =
  (let all := load_lines None lines seen deleted out in drop (length all - n) all).
Proof.
  revert seen deleted out. induction lines as [|line rest IH]; intros seen deleted out L; cbn [load_lines].
  - cbv zeta. replace (length out - n) with 0 by lia. done.
  - destruct (read_line line) as [e|id|]; try by apply IH. destruct (_ || _); [by apply IH|].
    destruct (Nat.leb_spec n (length (e :: out))) as [H|H]; [|by apply IH].
    destruct (load_lines_out rest (m_id e :: seen) deleted (e :: out)) as [more E]. cbv zeta. rewrite E, length_app.
    assert (n = length (e :: out)) as -> by (simpl in *; lia). rewrite Nat.add_sub. by rewrite drop_app_length.
Qed.

(** C14: reading the log backwards, with the sets of ids seen and deleted, gives
    what replaying it forwards gives, line by line: an entry replaces the one of
    its id, a marker deletes it, and any other line means nothing.  With a limit,
    it gives the entries written last. *)
Theorem log_replayed f :
  loadStoreEntries None f = fold_left apply_record (map read_line (normalizeLineBreaks (default "" f))) [] /\
  forall n, loadStoreEntries (Some (S n)) f =
    drop (length (loadStoreEntries None f) - S n) (loadStoreEntries None f).
Proof.
  split; [apply load_replay|]. intros n. destruct f as [raw|]; [|done]. cbn [loadStoreEntries].
  rewrite load_lines_limit by (simpl; lia). done.
Qed.
