(* ===== verification/MemorySearch.v ===== *)
(** * Searching and comparing memories

    [src/src/agents/tools/memory-tools.ts], second part: tokens, scores,
    previews, similarity, conflicts and the test for secrets.  Similarities are
    exact: a Jaccard index is a fraction, a cosine is the pair of its numerator
    and the square of its denominator. *)

From stdpp Require Import base list sets strings pretty.
From Stdlib Require Import Ascii Lia ZArith QArith Qround Permutation.
From S2P Require Import Prelude JsString JsMap JsValue JsRegex Json JsDate NodePath MemoryStore.
#[local] Open Scope nat_scope.

(** ** Tokens *)

Definition aliases : list (string * string) :=
  [("automate", "automation"); ("automating", "automation"); ("automation", "automation"); ("deploy", "deployment");
   ("deploying", "deployment"); ("deployment", "deployment"); ("auth", "authentication");
   ("authenticate", "authentication"); ("authentication", "authentication"); ("prefs", "preference");
   ("prefer", "preference"); ("preferred", "preference"); ("like", "preference"); ("likes", "preference");
   ("pipeline", "workflow"); ("pipelines", "workflow")].
(** [None] is the function [aliases] inherits for [constructor]. *)
Definition canonicalizeToken (token : string) : option string :=
  let raw := toLowerCase (trim token) in
  if negb (truthy raw) then Some ""
  else match obj_lookup raw aliases with
       | Own a => Some a
       | Inherited => None
       | Missing =>
           Some (if endsWith "ing" raw && (5 <? slen raw) then slice_to (slen raw - 3) raw
                 else if endsWith "ed" raw && (4 <? slen raw) then slice_to (slen raw - 2) raw
                 else if endsWith "s" raw && (3 <? slen raw) then slice_to (slen raw - 1) raw
                 else raw)
       end.
(** The tokens of a text longer than [n]; the inherited function has length 1. *)
Definition tokens_over (n : nat) (s : string) : list string :=
  List.filter (fun t => n <? slen t)
    (omap canonicalizeToken (words (replace_outside (fun c => is_lower c || is_digit c || is_ws c) [" "%char] (toLowerCase s)))).
Definition tokenizeQuery (query : string) : list string := firstn 24 (dedup (tokens_over 1 query)).
Definition tokenizeForSimilarity (s : string) : list string := dedup (firstn 80 (tokens_over 2 s)).

Definition computeScore (haystack query : string) (tokens : list string) : Z :=
  let source := toLowerCase haystack in
  ((if truthy query && includes query source then 70 else 0) +
   8 * Z.of_nat (length (List.filter (fun t => includes t source) tokens)))%Z.
Definition countMatchedTokens (haystack : string) (tokens : list string) : nat :=
  length (List.filter (fun t => includes t (toLowerCase haystack)) tokens).

(** ** Previews *)

Definition clipText (text : string) (maxChars : nat) : string * bool :=
  if slen text <=? maxChars then (text, false)
  else (slice_to maxChars text +:+ nl +:+ nl +:+ "[truncated]", true).

(** [s.replace(/\s+/g, " ").trim()] *)
Definition compact (s : string) : string := trim (replace_runs is_ws [" "%char] s).
Definition compactPreview (text : string) (maxChars : nat) : string :=
  let c := compact text in
  if negb (truthy c) then ""
  else if slen c <=? maxChars then c
  else
    let stop := match lastIndexOf_char " " (slice_to maxChars c) with
                | Some cut => if maxChars * 6 / 10 <=? cut then cut else maxChars - 1
                | None => maxChars - 1
                end in
    trim (slice_to stop c) +:+ "...".

Definition buildPreviewAroundQuery (content query : string) : string :=
  let c := compact content in
  if negb (truthy c) then ""
  else if negb (truthy query) then compactPreview c 280
  else match indexOf query (toLowerCase c) with
       | None => compactPreview c 280
       | Some idx =>
           let start := idx - 90 in
           let stop := Nat.min (slen c) (idx + Nat.max 140 (slen query + 90)) in
           (if 0 <? start then "..." else "") +:+ slice_to (stop - start) (slice_from start c) +:+
           (if stop <? slen c then "..." else "")
       end.

(** ** Similarity *)

Definition to_int32 (z : Z) : Z := let m := (z mod 4294967296)%Z in if (m <? 2147483648)%Z then m else (m - 4294967296)%Z.
Definition hash_step (hash : Z) (c : ascii) : Z :=
  to_int32 (Z.lxor (to_int32 hash) (Z.of_nat (code c)) * 16777619).
Definition VECTOR_DIM : Z := 128.
Definition bucket (token : string) : Z := (Z.abs (fold_left hash_step (chars token) 2166136261) mod VECTOR_DIM)%Z.
Definition embedTokens (tokens : list string) : list (Z * Z) :=
  fold_left (fun vec t => if negb (truthy t) then vec
                          else mset (bucket t) (default 0 (mget (bucket t) vec) + 1)%Z vec) tokens [].

Definition norm2 (a : list (Z * Z)) : Z := fold_right (fun p n => p.2 * p.2 + n)%Z 0%Z a.
Definition dot (a b : list (Z * Z)) : Z :=
  fold_right (fun p n => (let v := default 0 (mget p.1 b) in if (0 <? v) then p.2 * v else 0) + n)%Z 0%Z a.
(** The cosine is the first component over the root of the second. *)
Definition cosineSimilarity (a b : list (Z * Z)) : Z * Z :=
  if ((length a =? 0) || (length b =? 0)) || ((norm2 a <=? 0) || (norm2 b <=? 0))%Z then (0, 1)%Z
  else (dot a b, norm2 a * norm2 b)%Z.
(** [Math.round(cosine * 30)]: the largest n with (2n - 1)^2 * s <= (60 * d)^2. *)
Definition semantic_points (c : Z * Z) : Z := ((Z.sqrt (3600 * (c.1 * c.1) / c.2) + 1) / 2)%Z.

Definition jaccardSimilarity (left right : list string) : Q :=
  if (length left =? 0) || (length right =? 0) then 0%Q
  else
    let intersection := length (List.filter (fun t => bool_decide (t ∈ right)) left) in
    let union := length left + length right - intersection in
    if union <=? 0 then 0%Q else Qmake (Z.of_nat intersection) (Pos.of_nat union).
(** [Number(q.toFixed(3))] *)
Definition fixed3 (q : Q) : num := NFin (Qfloor (q * 1000 + 1 / 2)) 3.

(** ** Merging *)

Definition mergeMemoryTags (existing incoming : list string) : list string :=
  normalizeTags (VArr (map VStr (existing ++ incoming))).
Definition mergeMemoryContent (now : Z) (existing incoming : string) : string :=
  let oldText := trim existing in
  let newText := trim incoming in
  if negb (truthy oldText) then newText
  else if negb (truthy newText) then oldText
  else if (oldText =? newText)%string then oldText
  else if includes oldText newText then newText
  else if includes newText oldText then oldText
  else oldText +:+ nl +:+ nl +:+ "Update (" +:+ slice_to 10 (toISOString now) +:+ "): " +:+ newText.

(** ** Conflicts *)

Definition normalizeComparablePhrase (s : string) : string :=
  compact (replace_outside (fun c => is_word c || is_ws c || (code c =? 45)) [" "%char] (toLowerCase s)).

(** [/\b(?:w1|w2|...)\s+([^.;\n]{2,120})/] on a comparable phrase, in which spaces
    are single and no character is a dot, a semicolon or a newline: the first
    place where one of the words begins and is followed by a space and two more
    characters. *)
Fixpoint captured (ws : list string) (prev : prev_t) (s : list ascii) : option string :=
  match (if word_at prev then None
         else List.find (fun w => list_prefix (chars w ++ [" "%char]) s && (slen w + 3 <=? length s)) ws) with
  | Some w => Some (of_chars (firstn 120 (skipn (slen w + 1) s)))
  | None => match s with [] => None | c :: s' => captured ws (Some c) s' end
  end.
Definition preference_words : list string :=
  ["prefers"; "preferred"; "prefer"; "likes"; "liked"; "like"; "loves"; "loved"; "love"; "uses"; "used"; "use"].
Definition extractPreferenceTarget (content : string) : string :=
  let source := normalizeComparablePhrase content in
  if negb (truthy source) then ""
  else match captured preference_words None (chars source) with
       | Some t => normalizeComparablePhrase t
       | None => match captured ["switched to"; "moved to"] None (chars source) with
                 | Some t => normalizeComparablePhrase t
                 | None => ""
                 end
       end.
Definition hasNegativePreferenceSignal (content : string) : bool :=
  re_test (rwords ["dislike"; "dislikes"; "disliked"; "hate"; "hates"; "hated"; "avoid"; "avoids"; "avoided";
                   "no longer"; "stopped using"; "switched from"]) (normalizeComparablePhrase content).

Definition Qlt_bool (a b : Q) : bool := negb (Qle_bool b a).
Definition detectConflictReason (existingContent incomingContent : string) : option string :=
  let existing := normalizeComparablePhrase existingContent in
  let incoming := normalizeComparablePhrase incomingContent in
  if negb (truthy existing) || negb (truthy incoming) then None
  else if (existing =? incoming)%string || includes incoming existing || includes existing incoming then None
  else
    let existingTarget := extractPreferenceTarget existing in
    let incomingTarget := extractPreferenceTarget incoming in
    let differ := truthy existingTarget && truthy incomingTarget && negb (existingTarget =? incomingTarget)%string in
    if differ && (includes incomingTarget existingTarget || includes existingTarget incomingTarget) then None
    else if differ && Qlt_bool (jaccardSimilarity (tokenizeForSimilarity existingTarget) (tokenizeForSimilarity incomingTarget)) (75 # 100)
    then Some ("Preference target changed from " +:+ of_chars [chr 34] +:+ existingTarget +:+ of_chars [chr 34] +:+
               " to " +:+ of_chars [chr 34] +:+ incomingTarget +:+ of_chars [chr 34] +:+ ".")
    else if xorb (hasNegativePreferenceSignal existing) (hasNegativePreferenceSignal incoming)
    then Some "Preference polarity appears to have changed (positive vs negative)."
    else if Qle_bool (jaccardSimilarity (tokenizeForSimilarity existing) (tokenizeForSimilarity incoming)) (25 # 100)
    then Some "New memory content diverges strongly from the existing entry."
    else None.

Record MemoryConflictHint := mkHint { ch_id : string; ch_title : string; ch_reason : string; ch_similarity : num }.
Definition title_and_content (title content : string) : string := title +:+ nl +:+ content.
Definition findPotentialConflicts (entries : list MemoryStoreEntry) (title content : string) : list MemoryConflictHint :=
  let titleKey := normalizeTitleKey title in
  let incomingTokens := tokenizeForSimilarity (title_and_content title content) in
  let hint e :=
    let similarity := jaccardSimilarity incomingTokens (tokenizeForSimilarity (title_and_content (m_title e) (m_content e))) in
    if negb (normalizeTitleKey (m_title e) =? titleKey)%string && Qlt_bool similarity (65 # 100) then None
    else option_map (fun reason => mkHint (m_id e) (m_title e) reason (fixed3 similarity))
           (detectConflictReason (m_content e) content) in
  firstn 8 (stable_sort (fun a b => num_lt (ch_similarity b) (ch_similarity a)) (omap hint entries)).

Fixpoint best_match (incomingTokens : list string) (entries : list MemoryStoreEntry) (best : option (MemoryStoreEntry * Q))
  : option MemoryStoreEntry :=
  match entries with
  | [] => option_map fst best
  | e :: rest =>
      let score := jaccardSimilarity incomingTokens (tokenizeForSimilarity (title_and_content (m_title e) (m_content e))) in
      if Qlt_bool score (72 # 100) then best_match incomingTokens rest best
      else best_match incomingTokens rest
             (match best with
              | Some (_, s) => if Qlt_bool s score then Some (e, score) else best
              | None => Some (e, score)
              end)
  end.
Definition pickStoreEntryForUpsert (entries : list MemoryStoreEntry) (title content : string) : option MemoryStoreEntry :=
  let titleKey := normalizeTitleKey title in
  if negb (truthy titleKey) then None
  else match List.find (fun e => (normalizeTitleKey (m_title e) =? titleKey)%string) entries with
       | Some e => Some e
       | None =>
           let incomingTokens := tokenizeForSimilarity (title_and_content title content) in
           if length incomingTokens =? 0 then None else best_match incomingTokens entries None
       end.

(** ** Secrets *)

(** [r{n,}] *)
Definition ratleast (n : nat) (r : re) : re := RSeq (rseqs (replicate n r)) (RStar r).
Definition ralnum : re := RChr is_alnum.
Definition token_char (c : ascii) : bool := is_word c || (code c =? 45).
Definition secret_patterns : list re :=
  [ RSeq (rlit "-----BEGIN ") (RSeq (RStar (RChr (fun c => is_upper c || (code c =? 32)))) (rlit "PRIVATE KEY-----"));
    rseqs [RWordB; ralts [rlit "sk"; rlit "pk"]; rlit "_"; ratleast 16 ralnum; RWordB];
    rseqs [RWordB; rlit "gh"; RChr (any_of "pousr"); rlit "_"; ratleast 20 ralnum; RWordB];
    rseqs [RWordB; rlit "AKIA"; rseqs (replicate 16 (RChr (fun c => is_digit c || is_upper c))); RWordB];
    rseqs [RWordB; rlit "ASIA"; rseqs (replicate 16 (RChr (fun c => is_digit c || is_upper c))); RWordB];
    rseqs [RWordB; rlit "xox"; RChr (any_of "baprs"); rlit "-"; ratleast 10 (RChr (fun c => is_alnum c || (code c =? 45))); RWordB];
    rseqs [RWordB; rlit "AIza"; ratleast 30 (RChr token_char); RWordB];
    rseqs [RWordB; rlit "eyJ"; ratleast 10 (RChr token_char); rlit "."; ratleast 10 (RChr token_char); rlit ".";
           ratleast 10 (RChr token_char); RWordB] ].
Definition long_token : re :=
  rseqs [RWordB; ratleast 32 (RChr (fun c => is_alnum c || any_of "+/_=-" c)); RWordB].
Definition secret_word : re :=
  rseqs [RWordB; ralts [rlit_i "secret"; rlit_i "token"; rlit_i "password";
                        rseqs [rlit_i "api"; ropt (RChr (any_of "-_ ")); rlit_i "key"]; rlit_i "passcode"]; RWordB].
Definition containsLikelySecret (text : string) : bool :=
  truthy (trim text) &&
  (existsb (fun r => re_test r text) secret_patterns || (re_test long_token text && re_test secret_word text)).

(** ** Bounds *)

Section Vectors.
#[local] Open Scope Z_scope.

(** One bucket against the others: the step of the Cauchy-Schwarz inequality. *)
Lemma square_step p q P Q D : 0 <= P -> 0 <= Q -> D * D <= P * Q -> (p * q + D) * (p * q + D) <= (p * p + P) * (q * q + Q).
Proof.
  intros HP HQ H.
  assert (2 * (p * q) * D <= p * p * Q + q * q * P) as K.
  { assert ((2 * (p * q) * D) * (2 * (p * q) * D) <= (p * p * Q + q * q * P) * (p * p * Q + q * q * P)) as S.
    { assert (4 * ((p * q) * (p * q)) * (D * D) <= 4 * ((p * q) * (p * q)) * (P * Q)) as A.
      { apply Z.mul_le_mono_nonneg_l; [|done]. pose proof (Z.square_nonneg (p * q)). lia. }
      pose proof (Z.square_nonneg (p * p * Q - q * q * P)) as B. lia. }
    assert (0 <= p * p * Q + q * q * P) as N.
    { pose proof (Z.square_nonneg p). pose proof (Z.square_nonneg q). apply Z.add_nonneg_nonneg; by apply Z.mul_nonneg_nonneg. }
    revert S N. generalize (2 * (p * q) * D) (p * p * Q + q * q * P). intros x y S N. nia. }
  replace ((p * q + D) * (p * q + D)) with (p * p * (q * q) + 2 * (p * q) * D + D * D) by ring.
  replace ((p * p + P) * (q * q + Q)) with (p * p * (q * q) + (p * p * Q + q * q * P) + P * Q) by ring. lia.
Qed.

Lemma norm2_nonneg a : 0 <= norm2 a.
Proof. unfold norm2. induction a as [|[k v] a IH]; cbn [fold_right snd]; [lia|]. pose proof (Z.square_nonneg v). lia. Qed.
Definition entry_at (k : Z) (b : list (Z * Z)) : Z := default 0 (mget k b).
Lemma norm2_mdelete k b : NoDup (keys b) -> norm2 b = entry_at k b * entry_at k b + norm2 (mdelete k b).
Proof.
  unfold entry_at, norm2, mdelete. induction b as [|[j v] b IH]; intros N; [done|]. cbn [keys map fst] in N. apply NoDup_cons in N as [Nj N].
  cbn [mget List.filter fst snd fold_right]. case_bool_decide as E; cbn [negb default from_option].
  - subst j. fold (mdelete k b). rewrite mdelete_absent by (by apply mget_None_keys). unfold id. lia.
  - cbn [fold_right snd]. specialize (IH N). lia.
Qed.
Lemma dot_mdelete k a b : k ∉ keys a -> dot a b = dot a (mdelete k b).
Proof.
  unfold dot. induction a as [|[j v] a IH]; intros N; [done|]. cbn [keys map fst] in N. apply not_elem_of_cons in N as [Nj N].
  cbn [fold_right fst snd]. rewrite IH by done. by rewrite mget_mdelete_ne.
Qed.
(** The cosine is at most one. *)
Lemma cauchy_schwarz a b : NoDup (keys a) -> NoDup (keys b) -> Forall (fun p => 0 <= p.2) a -> 0 <= dot a b /\ dot a b * dot a b <= norm2 a * norm2 b.
Proof.
  revert b. induction a as [|[k v] a IH]; intros b Na Nb F.
  - cbn. lia.
  - cbn [keys map fst] in Na. apply NoDup_cons in Na as [Nk Na]. apply Forall_cons in F as [Fv F]. cbn [snd] in Fv.
    destruct (IH (mdelete k b) Na (NoDup_mdelete _ _ Nb) F) as [P C]. rewrite (norm2_mdelete k b Nb).
    assert (dot ((k, v) :: a) b = (if 0 <? entry_at k b then v * entry_at k b else 0) + dot a (mdelete k b)) as ->.
    { unfold dot at 1. cbn [fold_right fst snd]. fold (dot a b). by rewrite (dot_mdelete k). }
    change (norm2 ((k, v) :: a)) with (v * v + norm2 a).
    pose proof (norm2_nonneg a) as Pa. pose proof (norm2_nonneg (mdelete k b)) as Pb.
    destruct (Z.ltb_spec 0 (entry_at k b)); [split; [nia|by apply square_step]|]. split; [lia|].
    pose proof (square_step 0 0 (norm2 a) (norm2 (mdelete k b)) (dot a (mdelete k b)) Pa Pb C).
    pose proof (Z.square_nonneg v). pose proof (Z.square_nonneg (entry_at k b)).
    assert (0 <= v * v * (entry_at k b * entry_at k b + norm2 (mdelete k b))) by (apply Z.mul_nonneg_nonneg; lia).
    assert (0 <= norm2 a * (entry_at k b * entry_at k b)) by (apply Z.mul_nonneg_nonneg; lia). lia.
Qed.
Lemma embed_ok tokens vec :
  NoDup (keys vec) -> Forall (fun p => 0 <= p.2) vec ->
  let v := fold_left (fun vec t => if negb (truthy t) then vec else mset (bucket t) (default 0 (mget (bucket t) vec) + 1) vec) tokens vec in
  NoDup (keys v) /\ Forall (fun p => 0 <= p.2) v.
Proof.
  revert vec. induction tokens as [|t tokens IH]; intros vec N F; [done|]. cbn [fold_left]. apply IH.
  - destruct (negb _); [done|by apply NoDup_mset].
  - destruct (negb _); [done|]. apply Forall_mset; [|done]. cbn [snd]. destruct (mget _ vec) as [z|] eqn:G; [|done].
    cbn [default from_option]. apply mget_In in G. rewrite List.Forall_forall in F. specialize (F _ G). cbn [snd] in F. unfold id. lia.
Qed.
(** The points a search gives for similarity are between 0 and 30. *)
Lemma semantic_bound tokens tokens' :
  0 <= semantic_points (cosineSimilarity (embedTokens tokens) (embedTokens tokens')) <= 30.
Proof.
  unfold embedTokens. destruct (embed_ok tokens [] ltac:(constructor) ltac:(constructor)) as [Na Fa].
  destruct (embed_ok tokens' [] ltac:(constructor) ltac:(constructor)) as [Nb _].
  set (a := fold_left _ tokens []) in *. set (b := fold_left _ tokens' []) in *. unfold cosineSimilarity.
  destruct (_ || _) eqn:E; [by vm_compute|]. bool_prop. unfold semantic_points. cbn [fst snd].
  destruct (cauchy_schwarz a b Na Nb Fa) as [D C]. set (n := norm2 a * norm2 b) in *.
  assert (0 < n) by (subst n; by apply Z.mul_pos_pos). set (q := 3600 * (dot a b * dot a b) / n).
  assert (0 <= q) as Q0 by (apply Z.div_pos; [pose proof (Z.square_nonneg (dot a b)); lia|done]).
  assert (q <= 3600) as Q1 by (apply Z.div_le_upper_bound; lia).
  assert (Z.sqrt q <= 60) as S by (apply (Z.sqrt_le_mono q 3600) in Q1; exact Q1).
  pose proof (Z.sqrt_nonneg q). split; [apply Z.div_pos; lia|]. apply Z.lt_succ_r, Z.div_lt_upper_bound; lia.
Qed.
End Vectors.
