(* ===== verification/MemoryTools.v ===== *)
(** * The memory tools

    [src/src/agents/tools/memory-tools.ts], third part: the tools
    that change or list it.  A tool call happens at one instant [now]; [uuid] is
    what [randomUUID()] gives. *)

From stdpp Require Import base list sets strings pretty.
From Stdlib Require Import Ascii Lia ZArith QArith Permutation.
From S2P Require Import Prelude JsString JsMap JsValue JsRegex Json JsDate NodePath MemoryStore MemorySearch.
#[local] Open Scope nat_scope.

(** ** Context *)

Record context := mkContext {
  ctx_workspaceDir : string;
  defaultNamespace : string;
  defaultMinTrustTier : MemoryTrustTier;
  quotaConfig : NamespaceQuotaConfig;
}.
Definition buildMemoryToolsContext (pcwd workspaceDir : string) (env : list (string * string)) : context :=
  mkContext (resolve pcwd workspaceDir) (resolveDefaultNamespaceFromEnv env) (resolveDefaultMinTrustTierFromEnv env)
    (resolveNamespaceQuotaConfigFromEnv env).

Definition resolveStateDirFromEnv (pcwd home : string) (env : list (string * string)) : string :=
  let raw := text_of (env_value env "T560_STATE_DIR") in
  if negb (truthy raw) then join2 home ".t560"
  else if (raw =? "~")%string then home
  else if startsWith "~/" raw then join2 home (slice_from 2 raw)
  else resolve pcwd raw.
Definition resolveMemoryStorePath (pcwd home : string) (env : list (string * string)) (stateDir : option string) : string :=
  let given := default "" (option_map trim stateDir) in
  let stateRoot := if truthy given then given else resolveStateDirFromEnv pcwd home env in
  join2 (resolve pcwd stateRoot) "memory.jsonl".

(** ** Results *)

Definition vnat (n : nat) : value := VNum (NInt (Z.of_nat n)).
Definition vstrs (l : list string) : value := VArr (map VStr l).
Definition vtier (t : MemoryTrustTier) : value := VStr (tier_name t).
Definition or_null (s : string) : value := if truthy s then VStr s else VNull.
Definition ref_of (id : string) : string := "store:" +:+ id.
Definition prop_text (k : string) (params : value) : string := text_of (get_prop k params).
(** [params.k !== false] *)
Definition not_false (v : value) : bool := match v with VBool b => b | _ => true end.
Definition is_true (v : value) : bool := match v with VBool b => b | _ => false end.
Definition int_nat (n : num) : nat := match n with NFin m k => Z.to_nat (m / pow10 k) | _ => 0 end.
Definition quota_value (q : option NamespaceQuota) : list (string * value) :=
  match q with
  | Some q => [("maxEntries", VNum (maxEntries q)); ("maxBytes", VNum (maxBytes q)); ("evictionPolicy", VStr (policy_name (evictionPolicy q)))]
  | None => []
  end.

Section Tools.
Variable date_parse : string -> num.
Variable ctx : context.
Variable now : Z.

Definition iso : string := toISOString now.
Definition scope_of (params : value) : MemoryScope :=
  resolveScope (get_prop "namespace" params) (get_prop "minTrustTier" params)
    (mkScope (defaultNamespace ctx) (defaultMinTrustTier ctx)).
(** The id given as [id] or [ref], with or without the prefix. *)
Definition target_id (params : value) : string :=
  let ref := prop_text "ref" params in
  let explicitId := prop_text "id" params in
  let idFromRef := if startsWith "store:" ref then trim (slice_from 6 ref) else "" in
  if startsWith "store:" explicitId then trim (slice_from 6 explicitId)
  else if truthy explicitId then explicitId else idFromRef.

(** ** [memory_save] *)

Definition save_tier (source : string) (params : value) : MemoryTrustTier :=
  let trustTier := normalizeTrustTier (get_prop "trustTier" params) (if (source =? "user")%string then verified else observed) in
  if negb (source =? "system")%string && bool_decide (trustTier = system) then verified else trustTier.
Definition on_conflict (params : value) : string :=
  let s := toLowerCase (trim (to_string (nullish (get_prop "onConflict" params) (VStr "upsert")))) in
  if truthy s then s else "upsert".
Definition new_entry (uuid namespace : string) (params : value) : MemoryStoreEntry :=
  let source := normalizeSource (get_prop "source" params) "user" in
  {| m_id := uuid; m_title := prop_text "title" params; m_content := prop_text "content" params;
     m_tags := normalizeTags (get_prop "tags" params); m_createdAt := iso; m_updatedAt := iso; m_lastAccessedAt := iso;
     m_reinforceCount := NInt 0;
     m_importance := clampInt (get_prop "importance" params) 1 5 DEFAULT_IMPORTANCE;
     m_confidence := clampNumber (get_prop "confidence" params) MIN_CONFIDENCE (NInt 1) DEFAULT_CONFIDENCE;
     m_source := source; m_namespace := namespace; m_trustTier := save_tier source params |}.
(** [existing] brought up to date with the incoming entry *)
Definition merged_entry (existing incoming : MemoryStoreEntry) : MemoryStoreEntry :=
  {| m_id := m_id existing; m_title := m_title incoming;
     m_content := mergeMemoryContent now (m_content existing) (m_content incoming);
     m_tags := mergeMemoryTags (m_tags existing) (m_tags incoming);
     m_createdAt := m_createdAt existing; m_updatedAt := iso; m_lastAccessedAt := m_lastAccessedAt existing;
     m_reinforceCount := m_reinforceCount existing;
     m_importance := num_max (m_importance existing) (m_importance incoming);
     m_confidence := clampNumber (VNum (num_add (num_mul (num_add (m_confidence existing) (m_confidence incoming)) (NFin 5 1)) (NFin 5 2)))
                       MIN_CONFIDENCE (NInt 1) (m_confidence incoming);
     m_source := if (m_source incoming =? "user")%string then m_source existing else m_source incoming;
     m_namespace := m_namespace existing;
     m_trustTier := if (trustTierRank (m_trustTier incoming) <=? trustTierRank (m_trustTier existing))%nat
                    then m_trustTier existing else m_trustTier incoming |}.
Definition conflict_value (c : MemoryConflictHint) : value :=
  VObj [("ref", VStr (ref_of (ch_id c))); ("id", VStr (ch_id c)); ("title", VStr (ch_title c));
        ("reason", VStr (ch_reason c)); ("similarity", VNum (ch_similarity c))].
Definition saved_value (e : MemoryStoreEntry) (onConflict : string) (upserted : bool) (conflicts : list MemoryConflictHint)
    (replacedIds evictedIds : list string) (quota : option NamespaceQuota) (suggest : bool) : value :=
  VObj ([("ok", VBool true); ("ref", VStr (ref_of (m_id e))); ("id", VStr (m_id e)); ("title", VStr (m_title e));
         ("tags", vstrs (m_tags e)); ("createdAt", VStr (m_createdAt e)); ("updatedAt", VStr (m_updatedAt e));
         ("importance", VNum (m_importance e)); ("confidence", VNum (m_confidence e)); ("memorySource", VStr (m_source e));
         ("namespace", VStr (m_namespace e)); ("trustTier", vtier (m_trustTier e)); ("onConflict", VStr onConflict);
         ("upserted", VBool upserted); ("conflictDetected", VBool (0 <? length conflicts));
         ("conflicts", VArr (map conflict_value conflicts)); ("replacedIds", vstrs replacedIds);
         ("quota", VObj (("namespace", VStr (m_namespace e)) :: quota_value quota)); ("evictedIds", vstrs evictedIds)] ++
        if suggest then [("conflictSuggestion", VStr "Potential contradiction detected. Use onConflict='replace' to supersede older entry.")]
        else []).
Definition replaced_reason (title : string) : string :=
  "Replaced by newer conflicting memory for " +:+ of_chars [chr 34] +:+ title +:+ of_chars [chr 34].

Definition memory_save (uuid : string) (params : value) (f : file) : file * result value :=
  let title := prop_text "title" params in
  let content := prop_text "content" params in
  let tags := normalizeTags (get_prop "tags" params) in
  let namespace := normalizeNamespace (get_prop "namespace" params) (defaultNamespace ctx) in
  let onConflict := on_conflict params in
  if negb (truthy title) then (f, Throw "title is required.")
  else if negb (truthy content) then (f, Throw "content is required.")
  else if negb (bool_decide (onConflict ∈ ["upsert"; "replace"])) then (f, Throw "onConflict must be one of: upsert, replace.")
  else if containsLikelySecret (title +:+ nl +:+ content +:+ nl +:+ join " " tags)
  then (f, Throw "memory_save blocked: suspected secret/credential content. Do not store secrets in memory.")
  else
    let scopedEntries := in_namespace namespace (loadStoreEntries None f) in
    let existing := pickStoreEntryForUpsert scopedEntries title content in
    let conflicts := findPotentialConflicts scopedEntries title content in
    let conflictIds := dedup (map ch_id conflicts) in
    let replace := (onConflict =? "replace")%string && (0 <? length conflictIds) in
    let f1 := if replace
              then appendStoreDeleteMarkers (map (fun id => mkMarker id iso (Some (replaced_reason title))) conflictIds) f
              else f in
    let incoming := new_entry uuid namespace params in
    let entry := match existing with
                 | Some e => if replace then incoming else merged_entry e incoming
                 | None => incoming
                 end in
    let f2 := appendStoreEntry entry f1 in
    let '(f3, evictedIds, quota) := enforceNamespaceQuota date_parse now (quotaConfig ctx) (m_namespace entry) [m_id entry] f2 in
    (f3, Ok (saved_value entry onConflict (bool_decide (existing <> None) && negb replace) conflicts
               (if replace then conflictIds else []) evictedIds quota ((0 <? length conflicts) && negb replace))).

(** ** [memory_delete], [memory_feedback] and the store part of [memory_get] *)

Definition optional_reason (reason : string) : option string := if truthy reason then Some reason else None.
Definition memory_delete (params : value) (f : file) : file * result value :=
  let title := prop_text "title" params in
  let reason := prop_text "reason" params in
  let scope := scope_of params in
  if startsWith "file:" (prop_text "ref" params)
  then (f, Throw "memory_delete only supports durable store entries (store:<id>), not file refs.")
  else
    let targetId := target_id params in
    let found := if truthy targetId then Ok (findStoreEntryById f targetId scope)
                 else if truthy title then Ok (findStoreEntryByTitle date_parse f title scope)
                 else Throw "Provide one of: ref, id, or title." in
    match found with
    | Throw m => (f, Throw m)
    | Ok None => (f, Throw "Memory entry not found or already deleted.")
    | Ok (Some e) =>
        (appendStoreDeleteMarker (mkMarker (m_id e) iso (optional_reason reason)) f,
         Ok (VObj ([("ok", VBool true); ("deleted", VBool true); ("ref", VStr (ref_of (m_id e))); ("id", VStr (m_id e));
                    ("title", VStr (m_title e)); ("namespace", VStr (m_namespace e)); ("trustTier", vtier (m_trustTier e));
                    ("deletedAt", VStr iso)] ++ if truthy reason then [("reason", VStr reason)] else [])))
    end.

(** An entry after feedback of a weight. *)
Definition reinforced (useful : bool) (weight : num) (e : MemoryStoreEntry) : MemoryStoreEntry :=
  {| m_id := m_id e; m_title := m_title e; m_content := m_content e; m_tags := m_tags e; m_createdAt := m_createdAt e;
     m_updatedAt := iso; m_lastAccessedAt := iso;
     m_reinforceCount := if useful then num_min (NInt 10000) (num_add (m_reinforceCount e) weight)
                         else num_max (NInt 0) (num_sub (m_reinforceCount e) weight);
     m_importance := clampInt (VNum (if useful then num_add (m_importance e) weight else num_sub (m_importance e) weight))
                       1 5 (m_importance e);
     m_confidence := clampNumber (VNum (if useful then num_add (m_confidence e) (num_mul (NFin 7 2) weight)
                                        else num_sub (m_confidence e) (num_mul (NFin 8 2) weight)))
                       MIN_CONFIDENCE (NInt 1) (m_confidence e);
     m_source := m_source e; m_namespace := m_namespace e; m_trustTier := m_trustTier e |}.
Definition memory_feedback (params : value) (f : file) : file * result value :=
  let signal := toLowerCase (prop_text "signal" params) in
  let weight := clampInt (get_prop "weight" params) 1 3 (NInt 1) in
  let note := prop_text "note" params in
  if negb (signal =? "useful")%string && negb (signal =? "not_useful")%string
  then (f, Throw "signal must be one of: useful, not_useful.")
  else
    let targetId := target_id params in
    if negb (truthy targetId) then (f, Throw "Provide one of: ref or id.")
    else match findStoreEntryById f targetId (scope_of params) with
         | None => (f, Throw ("Memory entry not found: " +:+ targetId))
         | Some e =>
             let u := reinforced (signal =? "useful")%string weight e in
             (appendStoreEntry u f,
              Ok (VObj [("ok", VBool true); ("ref", VStr (ref_of (m_id u))); ("id", VStr (m_id u)); ("title", VStr (m_title u));
                        ("signal", VStr signal); ("weight", VNum weight); ("note", or_null note);
                        ("updatedAt", VStr (m_updatedAt u)); ("lastAccessedAt", VStr (m_lastAccessedAt u));
                        ("reinforceCount", VNum (m_reinforceCount u)); ("importance", VNum (m_importance u));
                        ("confidence", VNum (m_confidence u))]))
         end.

(** An entry after it was recalled. *)
Definition recalled (e : MemoryStoreEntry) : MemoryStoreEntry :=
  {| m_id := m_id e; m_title := m_title e; m_content := m_content e; m_tags := m_tags e; m_createdAt := m_createdAt e;
     m_updatedAt := iso; m_lastAccessedAt := iso;
     m_reinforceCount := num_min (NInt 10000) (num_add (m_reinforceCount e) (NInt 1));
     m_importance := m_importance e;
     m_confidence := clampNumber (VNum (num_add (m_confidence e) (NFin 2 2))) MIN_CONFIDENCE (NInt 1) (m_confidence e);
     m_source := m_source e; m_namespace := m_namespace e; m_trustTier := m_trustTier e |}.
Definition get_entry (targetId : string) (params : value) (f : file) : file * result value :=
  let maxChars := int_nat (clampInt (get_prop "maxChars" params) 200 60000 (NInt 12000)) in
  let reinforce := not_false (get_prop "reinforce" params) in
  match findStoreEntryById f targetId (scope_of params) with
  | None => (f, Throw ("Memory entry not found: " +:+ targetId))
  | Some e =>
      let m := if reinforce then recalled e else e in
      let clipped := clipText (m_content e) maxChars in
      (if reinforce then appendStoreEntry m f else f,
       Ok (VObj [("source", VStr "store"); ("ref", VStr (ref_of (m_id e))); ("id", VStr (m_id e)); ("title", VStr (m_title e));
                 ("content", VStr clipped.1); ("truncated", VBool clipped.2); ("tags", vstrs (m_tags e));
                 ("createdAt", VStr (m_createdAt e)); ("updatedAt", VStr (m_updatedAt m));
                 ("lastAccessedAt", VStr (m_lastAccessedAt m)); ("reinforceCount", VNum (m_reinforceCount m));
                 ("importance", VNum (m_importance m)); ("confidence", VNum (m_confidence m));
                 ("memorySource", VStr (m_source m)); ("namespace", VStr (m_namespace m)); ("trustTier", vtier (m_trustTier m));
                 ("reinforced", VBool reinforce)]))
  end.

(** ** [memory_list] *)

Definition haystack (e : MemoryStoreEntry) : string := m_title e +:+ nl +:+ m_content e +:+ nl +:+ join " " (m_tags e).
Definition list_order (order : string) (a b : MemoryStoreEntry) : bool :=
  let ms := parseIsoMillis date_parse in
  if (order =? "updated_asc")%string then num_lt (ms (m_updatedAt a)) (ms (m_updatedAt b))
  else if (order =? "created_desc")%string then num_lt (ms (m_createdAt b)) (ms (m_createdAt a))
  else if (order =? "created_asc")%string then num_lt (ms (m_createdAt a)) (ms (m_createdAt b))
  else num_lt (ms (m_updatedAt b)) (ms (m_updatedAt a)).
Definition list_filter (scope : MemoryScope) (tags : list string) (importanceAtLeast : num) (sourceFilter query : string)
    (e : MemoryStoreEntry) : bool :=
  entryMatchesScope e scope && forallb (fun t => bool_decide (t ∈ m_tags e)) tags &&
  negb (num_lt (m_importance e) importanceAtLeast) &&
  (negb (truthy sourceFilter) || (m_source e =? sourceFilter)%string) &&
  (negb (truthy query) || (0 <? computeScore (haystack e) query (tokenizeQuery query))%Z).
Definition list_row (includeContent : bool) (maxContentChars : nat) (e : MemoryStoreEntry) : value :=
  let clipped := clipText (m_content e) maxContentChars in
  VObj ([("ref", VStr (ref_of (m_id e))); ("id", VStr (m_id e)); ("title", VStr (m_title e));
         ("preview", VStr (compactPreview (m_content e) 240)); ("tags", vstrs (m_tags e)); ("createdAt", VStr (m_createdAt e));
         ("updatedAt", VStr (m_updatedAt e)); ("lastAccessedAt", VStr (m_lastAccessedAt e));
         ("reinforceCount", VNum (m_reinforceCount e)); ("importance", VNum (m_importance e));
         ("confidence", VNum (m_confidence e)); ("memorySource", VStr (m_source e)); ("namespace", VStr (m_namespace e));
         ("trustTier", vtier (m_trustTier e))] ++
        if includeContent then [("content", VStr clipped.1); ("truncated", VBool clipped.2)] else []).
Definition memory_list (params : value) (f : file) : result value :=
  let query := toLowerCase (prop_text "query" params) in
  let tags := normalizeTags (get_prop "tags" params) in
  let limit := clampInt (get_prop "limit" params) 1 500 (NInt 50) in
  let importanceAtLeast := clampInt (get_prop "importanceAtLeast" params) 1 5 (NInt 1) in
  let sourceFilter := normalizeSource (get_prop "source" params) "" in
  let scope := scope_of params in
  let includeContent := is_true (get_prop "includeContent" params) in
  let maxContentChars := int_nat (clampInt (get_prop "maxContentChars" params) 200 60000 (NInt 12000)) in
  let order := toLowerCase (trim (to_string (nullish (get_prop "order" params) (VStr "updated_desc")))) in
  if negb (bool_decide (order ∈ ["updated_desc"; "updated_asc"; "created_desc"; "created_asc"]))
  then Throw "order must be one of: updated_desc, updated_asc, created_desc, created_asc."
  else
    let scanned := loadStoreEntries None f in
    let filtered := stable_sort (list_order order)
                      (List.filter (list_filter scope tags importanceAtLeast sourceFilter query) scanned) in
    Ok (VObj [("limit", VNum limit); ("total", vnat (length filtered)); ("scanned", vnat (length scanned));
              ("results", VArr (map (list_row includeContent maxContentChars) (firstn (int_nat limit) filtered)));
              ("filters", VObj [("query", or_null query); ("tags", vstrs tags); ("importanceAtLeast", VNum importanceAtLeast);
                                ("source", or_null sourceFilter); ("namespace", VStr (sc_namespace scope));
                                ("minTrustTier", vtier (minTrustTier scope)); ("order", VStr order);
                                ("includeContent", VBool includeContent)])]).

(** ** [memory_prune] and [memory_compact] *)

Definition prune_candidates (maxEntries olderThanDays : option num) (sorted : list MemoryStoreEntry) : list MemoryStoreEntry :=
  let threshold := option_map (fun d => num_sub (NInt now) (num_mul d (NInt 86400000))) olderThanDays in
  let over (idx : nat) (e : MemoryStoreEntry) :=
    let updatedMs := updated_ms date_parse e in
    match maxEntries with Some n => negb (num_lt (NInt (Z.of_nat idx)) n) | None => false end ||
    match threshold with Some t => num_lt (NInt 0) updatedMs && negb (num_lt t updatedMs) | None => false end in
  omap (fun p => if over p.1 p.2 then Some p.2 else None) (imap pair sorted).
Definition memory_prune (params : value) (f : file) : file * result value :=
  let given k := isFinite (to_number (get_prop k params)) in
  if negb (given "maxEntries") && negb (given "olderThanDays")
  then (f, Throw "Provide at least one prune criterion: maxEntries or olderThanDays.")
  else
    let maxEntries := if given "maxEntries" then Some (clampInt (get_prop "maxEntries" params) 1 10000 (NInt 1000)) else None in
    let olderThanDays := if given "olderThanDays" then Some (clampInt (get_prop "olderThanDays" params) 1 3650 (NInt 365)) else None in
    let dryRun := not_false (get_prop "dryRun" params) in
    let reason := or_text (prop_text "reason" params) "Pruned by retention policy" in
    let scope := scope_of params in
    let sorted := stable_sort (fun a b => num_lt (parseIsoMillis date_parse (m_updatedAt b)) (parseIsoMillis date_parse (m_updatedAt a)))
                    (List.filter (fun e => entryMatchesScope e scope) (loadStoreEntries None f)) in
    let candidates := prune_candidates maxEntries olderThanDays sorted in
    (if dryRun then f
     else appendStoreDeleteMarkers (map (fun e => mkMarker (m_id e) iso (Some reason)) candidates) f,
     Ok (VObj [("ok", VBool true); ("dryRun", VBool dryRun); ("scanned", vnat (length sorted));
               ("kept", vnat (length sorted - length candidates));
               ("pruned", if dryRun then vnat 0 else vnat (length candidates)); ("wouldPrune", vnat (length candidates));
               ("criteria", VObj (match maxEntries with Some n => [("maxEntries", VNum n)] | None => [] end ++
                                  match olderThanDays with Some n => [("olderThanDays", VNum n)] | None => [] end ++
                                  [("namespace", VStr (sc_namespace scope)); ("minTrustTier", vtier (minTrustTier scope))]));
               ("reason", VStr reason);
               ("samples", VArr (map (fun e => VObj [("ref", VStr (ref_of (m_id e))); ("id", VStr (m_id e));
                                                     ("title", VStr (m_title e)); ("updatedAt", VStr (m_updatedAt e))])
                                   (firstn 25 candidates)))])).

Definition count_lines (raw : string) : nat :=
  length (List.filter (fun line => 0 <? slen (trim line)) (normalizeLineBreaks raw)).
Definition compacted_text (entries : list MemoryStoreEntry) : string :=
  let compactBody := join nl (map (fun e => JSON_stringify (entry_value e)) entries) in
  if truthy compactBody then compactBody +:+ nl else "".
Definition scope_value (s : MemoryScope) : value :=
  VObj [("namespace", VStr (sc_namespace s)); ("minTrustTier", vtier (minTrustTier s))].
(** The file is replaced by the text: [writeFile] of a temporary and [rename]. *)
Definition memory_compact (storePath : string) (params : value) (f : file) : file * result value :=
  let dryRun := not_false (get_prop "dryRun" params) in
  let scope := scope_value (scope_of params) in
  let report compacted linesBefore linesAfter bytesBefore bytesAfter :=
    Ok (VObj [("ok", VBool true); ("dryRun", VBool dryRun); ("compacted", VBool compacted); ("storePath", VStr storePath);
              ("linesBefore", vnat linesBefore); ("linesAfter", vnat linesAfter);
              ("reclaimedLines", vnat (linesBefore - linesAfter)); ("bytesBefore", vnat bytesBefore);
              ("bytesAfter", vnat bytesAfter); ("scope", scope)]) in
  match f with
  | None => (f, report false 0 0 0 0)
  | Some raw =>
      let linesBefore := count_lines raw in
      let activeEntries := loadStoreEntries None f in
      let serialized := compacted_text activeEntries in
      let linesAfter := length activeEntries in
      (if dryRun then f else Some serialized,
       report (negb dryRun && negb (linesAfter =? linesBefore)) linesBefore linesAfter (utf8_length raw) (utf8_length serialized))
  end.

(** ** [memory_stats] *)

(** [Number(x.toFixed(d))] *)
Definition to_fixed (d : nat) (x : num) : num :=
  match x with
  | NFin m k => let a := ((2 * Z.abs m * pow10 d + pow10 k) / (2 * pow10 k))%Z in NFin (if (m <? 0)%Z then - a else a)%Z d
  | x => x
  end.
(** [Number((sum / max(1, n)).toFixed(d))] of numbers that are not negative *)
Definition fixed_average (d : nat) (l : list num) : num :=
  match fold_left num_add l (NInt 0) with
  | NFin m k => let n := Z.of_nat (Nat.max 1 (length l)) in NFin ((2 * m * pow10 d + pow10 k * n) / (2 * pow10 k * n)) d
  | x => x
  end.
Definition group_by_namespace (l : list MemoryStoreEntry) : list (string * list MemoryStoreEntry) :=
  fold_left (fun m e => mset (m_namespace e) (default [] (mget (m_namespace e) m) ++ [e]) m) l [].
Definition newest (l : list MemoryStoreEntry) : value :=
  match head (stable_sort (fun a b => num_lt (parseIsoMillis date_parse (m_updatedAt b)) (parseIsoMillis date_parse (m_updatedAt a))) l) with
  | Some e => VStr (m_updatedAt e) | None => VNull
  end.
Definition oldest_of (l : list MemoryStoreEntry) : value :=
  match head (stable_sort (fun a b => num_lt (parseIsoMillis date_parse (m_updatedAt a)) (parseIsoMillis date_parse (m_updatedAt b))) l) with
  | Some e => VStr (m_updatedAt e) | None => VNull
  end.
Definition tier_count (t : MemoryTrustTier) (l : list MemoryStoreEntry) : value :=
  vnat (length (List.filter (fun e => bool_decide (m_trustTier e = t)) l)).
Record namespace_row := mkRow { r_namespace : string; r_entries : list MemoryStoreEntry; r_bytes : Z }.
Definition row_value (r : namespace_row) : value :=
  let entries := r_entries r in
  VObj [("namespace", VStr (r_namespace r)); ("count", vnat (length entries)); ("bytes", VNum (NInt (r_bytes r)));
        ("avgImportance", VNum (fixed_average 2 (map m_importance entries)));
        ("avgConfidence", VNum (fixed_average 3 (map m_confidence entries)));
        ("avgReinforceCount", VNum (fixed_average 2 (map m_reinforceCount entries)));
        ("trustCounts", VObj (map (fun t => (tier_name t, tier_count t entries)) TRUST_TIERS));
        ("newestUpdatedAt", newest entries); ("oldestUpdatedAt", oldest_of entries);
        ("quota", match resolveNamespaceQuota (quotaConfig ctx) (r_namespace r) with
                  | Some q => VObj (quota_value (Some q))
                  | None => VUndef     (* a function: left out of JSON *)
                  end)].
Definition stale_value (e : MemoryStoreEntry) : value :=
  VObj [("ref", VStr (ref_of (m_id e))); ("id", VStr (m_id e)); ("title", VStr (m_title e)); ("namespace", VStr (m_namespace e));
        ("trustTier", vtier (m_trustTier e)); ("importance", VNum (m_importance e)); ("confidence", VNum (m_confidence e));
        ("reinforceCount", VNum (m_reinforceCount e)); ("lastAccessedAt", VStr (m_lastAccessedAt e));
        ("updatedAt", VStr (m_updatedAt e)); ("score", VNum (to_fixed 3 (computeEntrySignalScore date_parse now e)))].
Definition memory_stats (storePath : string) (params : value) (f : file) : result value :=
  let namespace := get_prop "namespace" params in
  let given := to_bool namespace in
  let scope := resolveScope namespace (get_prop "minTrustTier" params)
                 (mkScope (if given then normalizeNamespace namespace (defaultNamespace ctx) else "") (defaultMinTrustTier ctx)) in
  let includeStale := not_false (get_prop "includeStaleCandidates" params) in
  let staleLimit := int_nat (clampInt (get_prop "staleLimit" params) 1 50 (NInt 12)) in
  let limitNamespaces := int_nat (clampInt (get_prop "limitNamespaces" params) 1 200 (NInt 40)) in
  let historyLines := count_lines (default "" f) in
  let activeEntries := loadStoreEntries None f in
  let filtered := List.filter (fun e => (negb given || (m_namespace e =? sc_namespace scope)%string) &&
                                        (trustTierRank (minTrustTier scope) <=? trustTierRank (m_trustTier e))) activeEntries in
  let groups := group_by_namespace filtered in
  let rows := firstn limitNamespaces
    (stable_sort (fun a b => (length (r_entries b) <? length (r_entries a)) ||
                             ((length (r_entries b) =? length (r_entries a)) && (r_bytes b <? r_bytes a)%Z))
       (map (fun g => mkRow g.1 g.2 (total_bytes g.2)) groups)) in
  let score := computeEntrySignalScore date_parse now in
  let stale := if includeStale then firstn staleLimit (stable_sort (fun a b => num_lt (score a) (score b)) filtered) else [] in
  Ok (VObj [("ok", VBool true); ("storePath", VStr storePath);
            ("totals", VObj [("activeEntries", vnat (length activeEntries)); ("filteredEntries", vnat (length filtered));
                             ("namespaces", vnat (length groups)); ("historyLines", vnat historyLines);
                             ("reclaimedLinesPotential", vnat (historyLines - length activeEntries));
                             ("estimatedActiveBytes", VNum (NInt (total_bytes filtered)))]);
            ("filters", VObj [("namespace", if given then VStr (sc_namespace scope) else VNull);
                              ("minTrustTier", vtier (minTrustTier scope)); ("includeStaleCandidates", VBool includeStale)]);
            ("namespaces", VArr (map row_value rows)); ("staleCandidates", VArr (map stale_value stale))]).
End Tools.

(** ** The entries the tools write *)

Lemma iso_full now : full (iso now).
Proof. split; [apply toISOString_truthy|apply toISOString_trim]. Qed.
Lemma marker_now now id r : full id -> marker_ok (mkMarker id (iso now) r).
Proof. intros F. split; [done|apply iso_full]. Qed.
Lemma prop_full k params : truthy (prop_text k params) = true -> full (prop_text k params).
Proof. intros T. split; [done|apply text_trim]. Qed.

Lemma fresh_entry_ok now uuid namespace params :
  full uuid -> label 1 64 namespace = true -> truthy (prop_text "title" params) = true ->
  truthy (prop_text "content" params) = true -> entry_ok (new_entry now uuid namespace params).
Proof.
  intros U N T C. split; cbn [new_entry m_id m_title m_content m_createdAt m_updatedAt m_lastAccessedAt m_tags m_reinforceCount
    m_importance m_confidence m_source m_namespace]; auto using iso_full, prop_full, normalizeTags_ok, label_source.
  - exists 0%Z. split; [done|lia].
  - apply clampInt_ok; [lia|]. exists 3%Z. split; [done|lia].
  - by apply clampNumber_ok.
Qed.

Lemma merge_content_full now a b : full a -> full b -> full (mergeMemoryContent now a b).
Proof.
  intros [Ta Ea] [Tb Eb]. unfold mergeMemoryContent. rewrite Ea, Eb, Ta, Tb. cbn [negb].
  destruct (a =? b)%string; [done|]. destruct (includes a b); [done|]. destruct (includes b a); [done|]. split.
  - apply truthy_true. intros E. apply (f_equal chars) in E. rewrite !chars_app in E. apply app_eq_nil in E as [E _].
    apply truthy_true in Ta. apply Ta. by apply chars_inj.
  - apply truthy_true in Ta, Tb. rewrite !str_app_assoc. rewrite <- !str_app_assoc.
    rewrite (str_app_assoc nl), (str_app_assoc (nl +:+ nl)), (str_app_assoc ((nl +:+ nl) +:+ _)), (str_app_assoc (((nl +:+ nl) +:+ _) +:+ _)).
    by apply trim_wrap.
Qed.
Lemma num_max_between low high a b : int_between low high a -> int_between low high b -> int_between low high (num_max a b).
Proof. intros (x & -> & X) (y & -> & Y). rewrite num_max_int. eexists. split; [done|lia]. Qed.

Lemma merged_entry_ok now e n : entry_ok e -> entry_ok n -> entry_ok (merged_entry now e n).
Proof.
  intros E N. destruct E, N. split; cbn [merged_entry m_id m_title m_content m_createdAt m_updatedAt m_lastAccessedAt m_tags
    m_reinforceCount m_importance m_confidence m_source m_namespace];
    auto using iso_full, merge_content_full, num_max_between.
  - apply normalizeTags_ok.
  - by apply clampNumber_ok.
  - by destruct (_ =? _)%string.
Qed.
Lemma reinforced_ok now useful weight e : entry_ok e -> int_between 1 3 weight -> entry_ok (reinforced now useful weight e).
Proof.
  intros [] (w & -> & W). split; cbn [reinforced m_id m_title m_content m_createdAt m_updatedAt m_lastAccessedAt m_tags
    m_reinforceCount m_importance m_confidence m_source m_namespace]; auto using iso_full.
  - destruct ok_reinforce as (z & -> & Z). destruct useful.
    + change (num_add (NInt z) (NInt w)) with (NInt (z * 1 + w * 1)). rewrite num_min_int. eexists. split; [done|lia].
    + change (num_sub (NInt z) (NInt w)) with (NInt (z * 1 - w * 1)). rewrite num_max_int. eexists. split; [done|lia].
  - apply clampInt_ok; [lia|done].
  - by apply clampNumber_ok.
Qed.
Lemma recalled_ok now e : entry_ok e -> entry_ok (recalled now e).
Proof.
  intros []. split; cbn [recalled m_id m_title m_content m_createdAt m_updatedAt m_lastAccessedAt m_tags
    m_reinforceCount m_importance m_confidence m_source m_namespace]; auto using iso_full.
  - destruct ok_reinforce as (z & -> & Z). change (num_add (NInt z) (NInt 1)) with (NInt (z * 1 + 1 * 1)). rewrite num_min_int.
    eexists. split; [done|lia].
  - by apply clampNumber_ok.
Qed.

(** ** Saving *)

Lemma best_match_in tokens l best e :
  best_match tokens l best = Some e -> e ∈ l \/ exists q, best = Some (e, q).
Proof.
  revert best. induction l as [|x l IH]; intros best; cbn [best_match].
  - destruct best as [[y q]|]; [|done]. intros [= <-]. eauto.
  - destruct (Qlt_bool _ _); intros H%IH.
    + destruct H as [H|H]; [left; by right|by right].
    + destruct H as [H|[q H]]; [left; by right|]. destruct best as [[y s]|]; [destruct (Qlt_bool _ _)|]; simplify_eq;
        try (left; by left). right. eauto.
Qed.
Lemma pick_upsert_in l title content e : pickStoreEntryForUpsert l title content = Some e -> e ∈ l.
Proof.
  unfold pickStoreEntryForUpsert. destruct (negb _); [done|]. destruct (List.find _ l) as [x|] eqn:F.
  - intros [= <-]. apply find_some in F as [F _]. by apply list_elem_of_In.
  - destruct (_ =? 0); [done|]. intros H%best_match_in. by destruct H as [?|[? ?]].
Qed.
Lemma conflicts_in l title content c :
  c ∈ findPotentialConflicts l title content -> exists e, e ∈ l /\ m_id e = ch_id c.
Proof.
  unfold findPotentialConflicts. intros H. eapply elem_of_take in H as (i & H & _). apply list_elem_of_lookup_2 in H.
  rewrite <- stable_sort_perm in H. apply list_elem_of_omap in H as (e & He & H). exists e. split; [done|].
  destruct (_ && _); [done|]. destruct (detectConflictReason _ _); [|done]. by injection H as <-.
Qed.

Lemma id_inj l e e' : NoDup (map m_id l) -> e ∈ l -> e' ∈ l -> m_id e = m_id e' -> e = e'.
Proof.
  induction l as [|x l IH]; [by intros _ ?%not_elem_of_nil|]. cbn [map]. intros [N ND]%NoDup_cons.
  rewrite !elem_of_cons. intros [->|H] [->|H'] E; [done| | |by apply IH]; destruct N.
  - rewrite E. by apply (list_elem_of_fmap_2 m_id).
  - rewrite <- E. by apply (list_elem_of_fmap_2 m_id).
Qed.
(** Deleting entries of one namespace leaves the others as they are. *)
Definition ids_of_namespace (ns : string) (ids : list string) (l : list MemoryStoreEntry) : Prop :=
  forall id, id ∈ ids -> exists e, e ∈ in_namespace ns l /\ m_id e = id.
Lemma in_namespace_elem ns l e : e ∈ in_namespace ns l <-> e ∈ l /\ m_namespace e = ns.
Proof. unfold in_namespace. by rewrite !list_elem_of_In, filter_In, String.eqb_eq. Qed.
Lemma delete_other ns ns' ids l :
  NoDup (map m_id l) -> ids_of_namespace ns ids l -> ns' <> ns -> in_namespace ns' (delete_all ids l) = in_namespace ns' l.
Proof.
  intros ND I N. unfold in_namespace, delete_all. rewrite filter_filter. apply filter_ext_in. intros e He%list_elem_of_In.
  destruct (String.eqb_spec (m_namespace e) ns') as [E|E]; [|by rewrite andb_false_r]. rewrite andb_true_r.
  apply negb_true_iff, bool_decide_eq_false. intros (x & [Hx Nx]%in_namespace_elem & Ex)%I.
  assert (x = e) as -> by (by eapply id_inj). congruence.
Qed.
Lemma without_delete id l : without id l = delete_all [id] l.
Proof. exact (without_fold [id] l). Qed.
Lemma without_absent id l : id ∉ map m_id l -> without id l = l.
Proof.
  intros N. unfold without. rewrite (filter_ext_in _ (fun _ => true)); [by clear; induction l as [|? ? IH]; cbn; [|rewrite IH]|].
  intros e He%list_elem_of_In. apply negb_true_iff, String.eqb_neq. intros <-. by apply N, (list_elem_of_fmap_2 m_id).
Qed.
Lemma in_namespace_app ns l l' : in_namespace ns (l ++ l') = in_namespace ns l ++ in_namespace ns l'.
Proof. apply List.filter_app. Qed.
Lemma delete_all_elem ids l e : e ∈ delete_all ids l <-> e ∈ l /\ m_id e ∉ ids.
Proof. unfold delete_all. rewrite list_elem_of_In, filter_In, negb_true_iff, bool_decide_eq_false, <- list_elem_of_In. done. Qed.
Lemma lookup_delete id ids l : id ∉ ids -> lookup_id id (delete_all ids l) = lookup_id id l.
Proof.
  intros N. unfold lookup_id, delete_all. induction l as [|e l IH]; [done|]. cbn.
  destruct (String.eqb_spec (m_id e) id) as [<-|E].
  - rewrite bool_decide_eq_false_2 by done. cbn. by rewrite String.eqb_refl.
  - destruct (negb _); cbn; [by destruct (String.eqb_spec (m_id e) id)|done].
Qed.
Lemma lookup_absent id l : id ∉ map m_id l -> lookup_id id l = None.
Proof.
  intros N. unfold lookup_id. destruct (List.find _ l) as [e|] eqn:F; [|done]. apply find_some in F as [H E].
  apply String.eqb_eq in E as <-. destruct N. apply (list_elem_of_fmap_2 m_id). by apply list_elem_of_In.
Qed.

Lemma ok_outcome {A B} (a a' : A) (b b' : B) : (a, Ok b) = (a', Ok b') -> a = a' /\ b = b'.
Proof. by intros [= -> ->]. Qed.

Lemma lookup_elem l e : NoDup (map m_id l) -> e ∈ l -> lookup_id (m_id e) l = Some e.
Proof.
  intros N H. unfold lookup_id. destruct (List.find _ l) as [x|] eqn:F.
  - apply find_some in F as [Hx E%String.eqb_eq]. f_equal. by eapply id_inj; [exact N|apply list_elem_of_In| |].
  - apply list_elem_of_In in H. pose proof (find_none _ _ F _ H) as X. cbn in X. by rewrite String.eqb_refl in X.
Qed.

Section SaveFacts.
Variables (date_parse : string -> num) (ctx : context) (now : Z).
Notation save := (memory_save date_parse ctx now).

(** The trust the arguments of a save ask for. *)
Definition saved_tier (params : value) : MemoryTrustTier := save_tier (normalizeSource (get_prop "source" params) "user") params.
(** What a successful [memory_save] did: the entry [e] went to the store. *)
Record saved (params : value) (f f' : file) (e : MemoryStoreEntry) : Prop := {
  sv_whole : whole f';
  sv_ok : entry_ok e;
  sv_found : lookup_id (m_id e) (loadStoreEntries None f') = Some (norm_entry e);
  sv_namespace : m_namespace e = normalizeNamespace (get_prop "namespace" params) (defaultNamespace ctx);
  sv_title : m_title e = prop_text "title" params;
  sv_asked : full (prop_text "content" params);
  sv_tier : trustTierRank (saved_tier params) <= trustTierRank (m_trustTier e);
  sv_content :
    m_content e = prop_text "content" params \/
    exists old, old ∈ loadStoreEntries None f /\ m_id old = m_id e /\ m_namespace old = m_namespace e /\
      m_content e = mergeMemoryContent now (m_content old) (prop_text "content" params);
  sv_others : forall ns, ns <> m_namespace e ->
    in_namespace ns (loadStoreEntries None f') = in_namespace ns (loadStoreEntries None f);
  sv_quota :
    let l := in_namespace (m_namespace e) (loadStoreEntries None f') in
    over_quota (resolveNamespaceQuota (quotaConfig ctx) (m_namespace e)) l (total_bytes l) = false \/ l = [norm_entry e];
}.

(** The store after the entry was appended, before quotas are enforced. *)
Lemma save_put ns ids e f :
  whole f -> entry_ok e -> m_namespace e = ns -> ids_of_namespace ns ids (loadStoreEntries None f) ->
  (m_id e ∉ map m_id (loadStoreEntries None f) \/ exists old, old ∈ in_namespace ns (loadStoreEntries None f) /\ m_id old = m_id e) ->
  let f1 := appendStoreDeleteMarkers (map (fun id => mkMarker id (iso now) (Some (replaced_reason (m_title e)))) ids) f in
  let f2 := appendStoreEntry e f1 in
  whole f2 /\ lookup_id (m_id e) (loadStoreEntries None f2) = Some (norm_entry e) /\
  forall ns', ns' <> ns -> in_namespace ns' (loadStoreEntries None f2) = in_namespace ns' (loadStoreEntries None f).
Proof.
  intros W O N I D. cbv zeta.
  assert (Forall marker_ok (map (fun id => mkMarker id (iso now) (Some (replaced_reason (m_title e)))) ids)) as M.
  { apply Forall_map, Forall_forall. intros id Hid. destruct (I id Hid) as (x & [Hx _]%in_namespace_elem & <-).
    apply marker_now. pose proof (load_ok f) as L. rewrite Forall_forall in L. by apply L. }
  destruct (store_delete f _ W M) as [E1 W1]. rewrite map_map in E1. cbn [d_id] in E1. rewrite map_id in E1.
  destruct (store_put _ e W1 O) as [E2 W2]. split; [done|]. rewrite E2. split.
  - rewrite lookup_app, lookup_without, String.eqb_refl. unfold lookup_id. cbn [List.find norm_entry m_id]. by rewrite String.eqb_refl.
  - intros ns' N'. rewrite in_namespace_app.
    assert (in_namespace ns' [norm_entry e] = []) as ->.
    { unfold in_namespace. cbn [List.filter norm_entry m_namespace]. rewrite N. by destruct (String.eqb_spec ns ns') as [->|]. }
    rewrite app_nil_r, E1. pose proof (load_NoDup f) as ND.
    assert (NoDup (map m_id (delete_all ids (loadStoreEntries None f)))) as ND'.
    { eapply sublist_NoDup; [exact ND|apply map_filter_sub]. }
    rewrite <- (delete_other ns ns' ids (loadStoreEntries None f)) by done. destruct (decide (m_id e ∈ map m_id (delete_all ids (loadStoreEntries None f)))) as [H|H].
    + rewrite without_delete. apply (delete_other ns); [done| |done]. intros id ->%list_elem_of_singleton.
      apply list_elem_of_fmap in H as (x & Ex & [Hx Hi]%delete_all_elem). exists x. split; [|done]. apply in_namespace_elem.
      split; [by apply delete_all_elem|]. destruct D as [D|(old & [Ho No]%in_namespace_elem & Eo)].
      * destruct D. rewrite Ex. by apply (list_elem_of_fmap_2 m_id).
      * rewrite <- No. f_equal. eapply id_inj; [exact ND|done..|congruence].
    + by rewrite without_absent.
Qed.

Lemma save_saved uuid params f f' v :
  whole f -> full uuid -> uuid ∉ map m_id (loadStoreEntries None f) -> label 1 64 (defaultNamespace ctx) = true ->
  save uuid params f = (f', Ok v) ->
  exists e, saved params f f' e /\ get_prop "id" v = VStr (m_id e) /\
    containsLikelySecret (prop_text "title" params +:+ nl +:+ prop_text "content" params +:+ nl +:+
                          join " " (normalizeTags (get_prop "tags" params))) = false.
Proof.
  intros W U Fr Lb. unfold memory_save. set (ns := normalizeNamespace _ _).
  destruct (truthy (prop_text "title" params)) eqn:T; cbn [negb]; [|done].
  destruct (truthy (prop_text "content" params)) eqn:C; cbn [negb]; [|done].
  destruct (negb (bool_decide _)); [done|]. destruct (containsLikelySecret _) eqn:S; [done|].
  set (l := in_namespace ns (loadStoreEntries None f)). set (existing := pickStoreEntryForUpsert l _ _).
  set (conflicts := findPotentialConflicts l _ _). set (ids := dedup (map ch_id conflicts)).
  set (replace := ((on_conflict params =? "replace")%string && (0 <? length ids))).
  set (incoming := new_entry now uuid ns params). set (e := match existing with Some x => _ | None => _ end).
  assert (label 1 64 ns = true) as Ln by (by apply label_namespace).
  assert (entry_ok incoming) as Oi by (by apply fresh_entry_ok).
  assert (forall x, existing = Some x -> x ∈ loadStoreEntries None f /\ m_namespace x = ns) as Ex.
  { intros x H. apply pick_upsert_in in H. by apply in_namespace_elem in H. }
  assert (entry_ok e /\ m_namespace e = ns /\ m_title e = prop_text "title" params /\
    trustTierRank (saved_tier params) <= trustTierRank (m_trustTier e) /\
    (m_id e ∉ map m_id (loadStoreEntries None f) \/ exists old, old ∈ l /\ m_id old = m_id e) /\
    (m_content e = prop_text "content" params \/ exists old, old ∈ loadStoreEntries None f /\ m_id old = m_id e /\ m_namespace old = ns /\
      m_content e = mergeMemoryContent now (m_content old) (prop_text "content" params))) as (Oe & Ne & Te & Re & De & Ce).
  { subst e. destruct existing as [x|] eqn:X; [destruct replace|].
    1, 3: split; [done|]; split; [done|]; split; [done|]; split; [done|]; split; by left.
    destruct (Ex x eq_refl) as [Hx Nx].
    split; [|split; [done|split; [done|split; [|split]]]].
    2: { cbn [merged_entry m_trustTier]. destruct (Nat.leb_spec (trustTierRank (m_trustTier incoming)) (trustTierRank (m_trustTier x))) as [L|L]; [exact L|done]. }
    - apply merged_entry_ok; [|done]. pose proof (load_ok f) as L. rewrite Forall_forall in L. by apply L.
    - right. exists x. split; [|done]. by apply in_namespace_elem.
    - right. exists x. done. }
  set (f1 := if replace then _ else f).
  set (ids' := if replace then ids else []).
  assert (f1 = appendStoreDeleteMarkers (map (fun id => mkMarker id (iso now) (Some (replaced_reason (m_title e)))) ids') f) as Ef1.
  { subst f1 ids'. rewrite Te. by destruct replace. }
  assert (ids_of_namespace ns ids' (loadStoreEntries None f)) as Ids.
  { intros id H. subst ids'. destruct replace; [|by apply not_elem_of_nil in H].
    apply elem_of_dedup, list_elem_of_fmap in H as (c & -> & H). apply conflicts_in in H as (x & Hx & Ei). by exists x. }
  destruct (save_put ns ids' e f W Oe Ne Ids De) as (W2 & L2 & O2). rewrite <- Ef1 in *.
  destruct (enforceNamespaceQuota _ _ _ _ _ _) as [[f3 evicted] quota] eqn:Q. intros [<- <-]%ok_outcome.
  apply enforce_spec in Q as (W3 & -> & L3 & Ev & Qt); [|done]. exists e. split; [|split; reflexivity].
  split; try assumption.
  - rewrite L3, lookup_delete; [done|]. intros H. destruct (Ev _ H) as [X _]. by apply X, list_elem_of_singleton.
  - by apply prop_full.
  - by rewrite Ne.
  - intros ns' N'. rewrite L3, <- O2 by congruence. apply (delete_other (m_namespace e)); [apply load_NoDup| |done].
    intros id H. destruct (Ev id H) as (_ & x & Hx & Ei). exists x. exact (conj Hx Ei).
  - cbv zeta. rewrite L3 in *. destruct Qt as [Qt|Qt]; [by left|right].
    set (k := in_namespace (m_namespace e) (delete_all evicted (loadStoreEntries None (appendStoreEntry e f1)))) in *.
    assert (NoDup (map m_id k)) as NDk.
    { eapply sublist_NoDup; [|apply map_filter_sub]. eapply sublist_NoDup; [apply load_NoDup|apply map_filter_sub]. }
    assert (norm_entry e ∈ k) as Hk.
    { apply in_namespace_elem. split; [|done]. apply delete_all_elem. apply find_some in L2 as [L2 _]. split; [by apply list_elem_of_In|].
      intros H. destruct (Ev _ H) as [X _]. by apply X, list_elem_of_singleton. }
    clearbody k. destruct k as [|x [|y k]]; [destruct (not_elem_of_nil _ Hk)|apply list_elem_of_singleton in Hk; by rewrite Hk|exfalso].
    apply Forall_cons in Qt as [Q1 Qt]. apply Forall_cons in Qt as [Q2 _]. apply list_elem_of_singleton in Q1, Q2.
    cbn [map] in NDk. apply NoDup_cons in NDk as [N1 _]. apply N1. rewrite Q1, <- Q2. by left.
Qed.
End SaveFacts.

(** ** Recall, deletion, pruning, compaction *)

Lemma includes_refl s : includes s s = true.
Proof. apply includes_spec. exists "", "". apply chars_inj. by rewrite !chars_app, app_nil_r. Qed.
Lemma includes_app a s b : includes s (a +:+ s +:+ b) = true.
Proof. apply includes_spec. by exists a, b. Qed.
(** Merging keeps the new text. *)
Lemma merge_includes now a b : full a -> full b -> includes b (mergeMemoryContent now a b) = true.
Proof.
  intros [Ta Ea] [Tb Eb]. unfold mergeMemoryContent. rewrite Ea, Eb, Ta, Tb. cbn [negb].
  destruct (String.eqb_spec a b) as [->|]; [apply includes_refl|]. destruct (includes a b); [apply includes_refl|].
  destruct (includes b a) eqn:I; [done|].
  pose proof (includes_app (a +:+ nl +:+ nl +:+ "Update (" +:+ slice_to 10 (toISOString now) +:+ "): ") b "") as H.
  replace (b +:+ "") with b in H by (apply chars_inj; by rewrite chars_app, app_nil_r). by rewrite <- !str_app_assoc in H.
Qed.

Section ToolFacts.
Variables (date_parse : string -> num) (ctx : context).

(** The store after a successful [get_entry], and what it returned. *)
Lemma get_entry_found now id params f e :
  lookup_id id (loadStoreEntries None f) = Some e -> entryMatchesScope e (scope_of ctx params) = true ->
  exists f' v, get_entry ctx now id params f = (f', Ok v) /\
    get_prop "title" v = VStr (m_title e) /\
    get_prop "content" v = VStr (clipText (m_content e) (int_nat (clampInt (get_prop "maxChars" params) 200 60000 (NInt 12000)))).1.
Proof.
  intros L S. unfold get_entry. rewrite find_by_id, L, S. eexists _, _. split; [done|]. by lookups.
Qed.

Lemma delete_found now params f f' v :
  whole f -> memory_delete date_parse ctx now params f = (f', Ok v) ->
  exists e, e ∈ loadStoreEntries None f /\ entryMatchesScope e (scope_of ctx params) = true /\
    get_prop "id" v = VStr (m_id e) /\ whole f' /\
    loadStoreEntries None f' = without (m_id e) (loadStoreEntries None f).
Proof.
  intros W. unfold memory_delete. destruct (startsWith "file:" _); [done|].
  assert (forall e, e ∈ loadStoreEntries None f -> entryMatchesScope e (scope_of ctx params) = true ->
    (appendStoreDeleteMarker (mkMarker (m_id e) (iso now) (optional_reason (prop_text "reason" params))) f,
     Ok (VObj ([("ok", VBool true); ("deleted", VBool true); ("ref", VStr (ref_of (m_id e))); ("id", VStr (m_id e));
                    ("title", VStr (m_title e)); ("namespace", VStr (m_namespace e)); ("trustTier", vtier (m_trustTier e));
                    ("deletedAt", VStr (iso now))] ++
                if truthy (prop_text "reason" params) then [("reason", VStr (prop_text "reason" params))] else []))) = (f', Ok v) ->
    exists e, e ∈ loadStoreEntries None f /\ entryMatchesScope e (scope_of ctx params) = true /\
      get_prop "id" v = VStr (m_id e) /\ whole f' /\ loadStoreEntries None f' = without (m_id e) (loadStoreEntries None f)) as K.
  { intros e He Se [<- <-]%ok_outcome. exists e. split; [done|]. split; [done|]. split; [by lookups|].
    pose proof (load_ok f) as O. rewrite Forall_forall in O.
    destruct (store_delete1 f (mkMarker (m_id e) (iso now) (optional_reason (prop_text "reason" params))) W) as [E W'].
    { apply marker_now. by apply O. }
    done. }
  destruct (truthy (target_id params)).
  - rewrite find_by_id. destruct (lookup_id _ _) as [e|] eqn:L; [|done]. destruct (entryMatchesScope e _) eqn:S; [|done].
    apply K; [|done]. apply find_some in L as [L _]. by apply list_elem_of_In.
  - destruct (truthy (prop_text "title" params)); [|done]. destruct (findStoreEntryByTitle _ _ _ _) as [e|] eqn:T; [|done].
    unfold findStoreEntryByTitle in T. destruct (negb _) in T; [done|]. apply head_sort in T.
    apply list_elem_of_In, filter_In in T as [T S]. apply filter_In in T as [T _]. by apply K; [apply list_elem_of_In|].
Qed.

Lemma feedback_found now params f f' v :
  whole f -> memory_feedback ctx now params f = (f', Ok v) ->
  exists e u, e ∈ loadStoreEntries None f /\ entryMatchesScope e (scope_of ctx params) = true /\
    u = reinforced now (toLowerCase (prop_text "signal" params) =? "useful")%string (clampInt (get_prop "weight" params) 1 3 (NInt 1)) e /\
    whole f' /\ loadStoreEntries None f' = without (m_id e) (loadStoreEntries None f) ++ [norm_entry u].
Proof.
  intros W. unfold memory_feedback. destruct (_ && _); [done|]. destruct (negb _); [done|]. rewrite find_by_id.
  destruct (lookup_id _ _) as [e|] eqn:L; [|done]. destruct (entryMatchesScope e _) eqn:S; [|done]. intros [<- _]%ok_outcome.
  apply find_some in L as [L _]. apply list_elem_of_In in L. eexists e, _. split; [done|]. split; [done|]. split; [reflexivity|].
  pose proof (load_ok f) as O. rewrite Forall_forall in O.
  match goal with |- whole (appendStoreEntry ?u _) /\ _ => destruct (store_put f u W) as [E W'] end; [|by split].
  apply reinforced_ok; [by apply O|]. apply clampInt_ok; [lia|]. exists 1%Z. split; [done|lia].
Qed.
Lemma get_entry_whole now id params f f' r : whole f -> get_entry ctx now id params f = (f', r) -> whole f'.
Proof.
  intros W. unfold get_entry. rewrite find_by_id. destruct (lookup_id _ _) as [e|] eqn:L; [|by intros [= <- _]].
  destruct (entryMatchesScope _ _); [|by intros [= <- _]]. intros E. apply (f_equal fst) in E. cbn [fst] in E. subst f'.
  destruct (not_false _); [|done]. apply find_some in L as [L _]. apply list_elem_of_In in L.
  pose proof (load_ok f) as O. rewrite Forall_forall in O. by apply store_put, recalled_ok, O.
Qed.
End ToolFacts.

Section MoreFacts.
Variables (date_parse : string -> num) (ctx : context).

Lemma prune_candidates_in now n d l e : e ∈ prune_candidates date_parse now n d l -> e ∈ l.
Proof.
  unfold prune_candidates. intros ([i x] & H & E)%list_elem_of_omap. cbn [fst snd] in E. destruct (_ || _); [|done].
  injection E as <-. apply elem_of_lookup_imap in H as (j & y & [= <- <-] & H). by eapply list_elem_of_lookup_2.
Qed.
(** Every entry from the position [n] on is a candidate. *)
Lemma prune_beyond now n d l i e :
  l !! i = Some e -> (n <= Z.of_nat i)%Z -> e ∈ prune_candidates date_parse now (Some (NInt n)) d l.
Proof.
  intros H L. unfold prune_candidates. apply list_elem_of_omap. exists (i, e). split; [apply elem_of_lookup_imap; eauto|].
  cbn [fst snd]. rewrite num_lt_int. by destruct (Z.ltb_spec (Z.of_nat i) n); [lia|].
Qed.
Lemma filter_all_false {A} (p : A -> bool) l : (forall x, In x l -> p x = false) -> List.filter p l = [].
Proof. intros H. induction l as [|x l IH]; [done|]. cbn. rewrite (H x) by (by left). apply IH. intros y Hy. apply H. by right. Qed.
Lemma delete_skip ids l n :
  (forall i e, l !! i = Some e -> n <= i -> m_id e ∈ ids) -> length (delete_all ids l) <= n.
Proof.
  intros H. rewrite <- (take_drop n l). unfold delete_all. rewrite List.filter_app, length_app.
  assert (List.filter (fun e => negb (bool_decide (m_id e ∈ ids))) (drop n l) = []) as ->.
  { apply filter_all_false. intros e (i & Hi)%list_elem_of_In%list_elem_of_lookup. rewrite lookup_drop in Hi.
    apply negb_false_iff, bool_decide_eq_true. apply (H (n + i)); [done|lia]. }
  pose proof (List.filter_length_le (fun e => negb (bool_decide (m_id e ∈ ids))) (take n l)). rewrite length_take in *. simpl. lia.
Qed.
Lemma filter_permutation {A} (p : A -> bool) l l' : Permutation l l' -> Permutation (List.filter p l) (List.filter p l').
Proof.
  induction 1 as [|x l l' _ IH|x y l|]; cbn; [done| | |by etrans].
  - destruct (p x); [by constructor|done].
  - destruct (p x), (p y); try done. constructor.
Qed.
Definition in_scope (scope : MemoryScope) (l : list MemoryStoreEntry) : list MemoryStoreEntry :=
  List.filter (fun e => entryMatchesScope e scope) l.
(** Pruning deletes entries of the scope only, and with a maximal count keeps at
    most so many of them. *)
Lemma prune_spec now params f f' v :
  whole f -> memory_prune date_parse ctx now params f = (f', Ok v) ->
  whole f' /\ exists ids, loadStoreEntries None f' = delete_all ids (loadStoreEntries None f) /\
    (forall id, id ∈ ids -> exists e, e ∈ in_scope (scope_of ctx params) (loadStoreEntries None f) /\ m_id e = id) /\
    (not_false (get_prop "dryRun" params) = true -> f' = f) /\
    (not_false (get_prop "dryRun" params) = false -> isFinite (to_number (get_prop "maxEntries" params)) = true ->
     length (in_scope (scope_of ctx params) (loadStoreEntries None f')) <=
     int_nat (clampInt (get_prop "maxEntries" params) 1 10000 (NInt 1000))).
Proof.
  intros W. unfold memory_prune. destruct (_ && _); [done|]. fold (in_scope (scope_of ctx params) (loadStoreEntries None f)).
  set (lt := fun a b : MemoryStoreEntry => num_lt _ _). set (l := in_scope (scope_of ctx params) (loadStoreEntries None f)).
  set (n := if isFinite (to_number (get_prop "maxEntries" params)) then _ else _). set (days := if isFinite _ then _ else _).
  set (cands := prune_candidates date_parse now n days (stable_sort lt l)). intros [<- _]%ok_outcome.
  assert (forall e, e ∈ cands -> e ∈ l) as Hc.
  { intros e H%prune_candidates_in. by rewrite <- stable_sort_perm in H. }
  destruct (not_false (get_prop "dryRun" params)) eqn:D.
  { split; [done|]. exists []. split; [apply (without_fold [])|]. split; [by intros ? ?%not_elem_of_nil|done]. }
  destruct (store_delete f (map (fun e => mkMarker (m_id e) (iso now) (Some (or_text (prop_text "reason" params) "Pruned by retention policy"))) cands) W) as [E W'].
  { apply Forall_map, Forall_forall. intros e He%Hc. apply marker_now. pose proof (load_ok f) as O. rewrite Forall_forall in O. apply O.
    by apply list_elem_of_In, filter_In in He as [He%list_elem_of_In _]. }
  rewrite map_map in E. cbn [d_id] in E. split; [done|]. exists (map m_id cands). split; [done|]. split; [|split; [done|]].
  - intros id (e & -> & He)%list_elem_of_fmap. eauto.
  - intros _ F. rewrite E. unfold in_scope. rewrite delete_filter. change (length (delete_all (map m_id cands) l) <= int_nat (clampInt (get_prop "maxEntries" params) 1 10000 (NInt 1000))).
    assert (n = Some (clampInt (get_prop "maxEntries" params) 1 10000 (NInt 1000))) as En by (subst n; by rewrite F).
    assert (length (delete_all (map m_id cands) l) = length (delete_all (map m_id cands) (stable_sort lt l))) as ->.
    { apply Permutation_length, filter_permutation, stable_sort_perm. }
    assert (int_between 1 10000 (clampInt (get_prop "maxEntries" params) 1 10000 (NInt 1000))) as (z & Ez & Lz).
    { apply clampInt_ok; [lia|]. exists 1000%Z. split; [done|lia]. }
    apply delete_skip. intros i e Hi Li. apply (list_elem_of_fmap_2 m_id). subst cands. rewrite En, Ez. rewrite Ez in Li.
    apply (prune_beyond now z days _ i e Hi). cbn in Li. change (pow10 0) with 1%Z in Li. rewrite Z.div_1_r in Li. lia.
Qed.

Lemma replay_puts l acc :
  NoDup (map m_id acc ++ map m_id l) ->
  fold_left apply_record (map (fun e => Put (norm_entry e)) l) acc = acc ++ map norm_entry l.
Proof.
  revert acc. induction l as [|e l IH]; intros acc N; cbn [map fold_left]; [by rewrite app_nil_r|].
  cbn [apply_record norm_entry m_id]. rewrite without_absent, IH.
  - by rewrite <- app_assoc.
  - rewrite map_app. cbn [map norm_entry m_id]. by rewrite <- app_assoc.
  - apply NoDup_app in N as (_ & N & _). intros H. apply (N _ H). by left.
Qed.
Lemma join_nonempty_truthy l x : truthy x = true -> truthy (join nl (x :: l)) = true.
Proof. destruct (join_cons nl x l) as [t ->]. rewrite !truthy_true. intros N E. apply N. by destruct x. Qed.
Lemma load_compacted l :
  NoDup (map m_id l) -> Forall entry_ok l ->
  loadStoreEntries None (Some (compacted_text l)) = map norm_entry l /\ whole (Some (compacted_text l)).
Proof.
  intros N O. unfold compacted_text. destruct l as [|e l]; [done|].
  assert (truthy (join nl (map (fun e => JSON_stringify (entry_value e)) (e :: l))) = true) as ->.
  { apply join_nonempty_truthy. apply truthy_true. discriminate. }
  destruct (load_append_lines None (map (fun e => JSON_stringify (entry_value e)) (e :: l))) as [E W]; [done| |done|].
  { apply Forall_map, Forall_true. intros. apply stringify_line. }
  split; [|exact W]. etrans; [exact E|]. rewrite map_map, (map_ext_in _ (fun e => Put (norm_entry e))).
  - by rewrite replay_puts.
  - intros x H%list_elem_of_In. rewrite Forall_forall in O. by apply read_entry, O.
Qed.
Lemma num_to_string_norm n : num_to_string (num_norm n) = num_to_string n.
Proof.
  destruct n as [| |m k]; try done. pose proof (num_norm_idem (NFin m k)) as I. unfold num_norm, num_to_string in *.
  destruct (strip_zeros k m k) as [m' k']. cbn in I. destruct (strip_zeros k' m' k') as [m'' k'']. by injection I as -> ->.
Qed.
Lemma stringify_norm e : JSON_stringify (entry_value (norm_entry e)) = JSON_stringify (entry_value e).
Proof.
  unfold JSON_stringify, entry_value, norm_entry.
  cbn [print flat_map is_undef snd fst m_id m_title m_content m_tags m_createdAt m_updatedAt m_lastAccessedAt
       m_reinforceCount m_importance m_confidence m_source m_namespace m_trustTier].
  by rewrite num_norm_finite, num_to_string_norm.
Qed.
Lemma compacted_norm l : compacted_text (map norm_entry l) = compacted_text l.
Proof.
  unfold compacted_text. rewrite map_map.
  by rewrite (map_ext (fun x => JSON_stringify (entry_value (norm_entry x))) _ stringify_norm).
Qed.

(** ** Any sequence of calls *)

Inductive call :=
| Save (uuid : string) (params : value)
| Delete (params : value)
| Feedback (params : value)
| Get (id : string) (params : value)
| Prune (params : value)
| Compact (params : value).
Definition run_call (now : Z) (c : call) (f : file) : file :=
  match c with
  | Save uuid params => (memory_save date_parse ctx now uuid params f).1
  | Delete params => (memory_delete date_parse ctx now params f).1
  | Feedback params => (memory_feedback ctx now params f).1
  | Get id params => (get_entry ctx now id params f).1
  | Prune params => (memory_prune date_parse ctx now params f).1
  | Compact params => (memory_compact ctx "" params f).1
  end.
(** A fresh id is one that no entry has. *)
Definition fresh_call (c : call) (f : file) : Prop :=
  match c with Save uuid _ => full uuid /\ uuid ∉ map m_id (loadStoreEntries None f) | _ => True end.
Inductive reachable : file -> Prop :=
| reach_start : reachable None
| reach_call f now c : reachable f -> fresh_call c f -> reachable (run_call now c f).

Lemma throw_unchanged uuid now params f m f' : memory_save date_parse ctx now uuid params f = (f', Throw m) -> f' = f.
Proof.
  unfold memory_save. do 4 (case_match; [by intros [= <- _]|]). destruct (enforceNamespaceQuota _ _ _ _ _ _) as [[? ?] ?].
  intros X. apply (f_equal snd) in X. discriminate X.
Qed.
Lemma delete_throws now params f m f' : memory_delete date_parse ctx now params f = (f', Throw m) -> f' = f.
Proof.
  unfold memory_delete. intros E. destruct (startsWith _ _); [by injection E|].
  destruct (truthy (target_id params)); [|destruct (truthy _)]; repeat (case_match; simplify_eq; try done); by injection E.
Qed.
Lemma feedback_throws now params f m f' : memory_feedback ctx now params f = (f', Throw m) -> f' = f.
Proof. unfold memory_feedback. intros E. repeat (case_match; simplify_eq; try done). Qed.
Lemma prune_throws now params f m f' : memory_prune date_parse ctx now params f = (f', Throw m) -> f' = f.
Proof. unfold memory_prune. intros E. case_match; by simplify_eq. Qed.
Lemma run_whole now c f : label 1 64 (defaultNamespace ctx) = true -> whole f -> fresh_call c f -> whole (run_call now c f).
Proof.
  intros Lb W Fr. destruct c as [uuid params|params|params|id params|params|params]; cbn [run_call].
  - destruct (memory_save _ _ _ _ _ _) as [f' [v|m]] eqn:E; cbn [fst].
    + destruct Fr as [U Fr]. destruct (save_saved _ _ _ _ _ _ _ _ W U Fr Lb E) as (e & [] & _). done.
    + apply throw_unchanged in E. by rewrite E.
  - destruct (memory_delete _ _ _ _ _) as [f' [v|m]] eqn:E; cbn [fst].
    + by destruct (delete_found _ _ _ _ _ _ _ W E) as (e & _ & _ & _ & ? & _).
    + apply delete_throws in E. by rewrite E.
  - destruct (memory_feedback _ _ _ _) as [f' [v|m]] eqn:E; cbn [fst].
    + by destruct (feedback_found _ _ _ _ _ _ W E) as (e & u & _ & _ & _ & ? & _).
    + apply feedback_throws in E. by rewrite E.
  - destruct (get_entry _ _ _ _ _) as [f' r] eqn:E. by eapply get_entry_whole.
  - destruct (memory_prune _ _ _ _ _) as [f' [v|m]] eqn:E; cbn [fst].
    + by destruct (prune_spec _ _ _ _ _ W E).
    + apply prune_throws in E. by rewrite E.
  - unfold memory_compact. destruct f as [raw|]; [|done]. destruct (not_false _); [done|]. cbn [fst].
    apply load_compacted; [apply load_NoDup|apply load_ok].
Qed.
Lemma reachable_whole f : label 1 64 (defaultNamespace ctx) = true -> reachable f -> whole f.
Proof. intros L. induction 1 as [|f now c R IH Fr]; [done|]. by apply run_whole. Qed.
End MoreFacts.

(** ** What the tools promise *)

Lemma context_label pcwd ws env : label 1 64 (defaultNamespace (buildMemoryToolsContext pcwd ws env)) = true.
Proof. cbn [buildMemoryToolsContext defaultNamespace]. unfold resolveDefaultNamespaceFromEnv. apply label_namespace. vm_compute. reflexivity. Qed.

Section Promises.
Variables (date_parse : string -> num) (pcwd ws : string) (env : list (string * string)).
Notation ctx := (buildMemoryToolsContext pcwd ws env).

(** C13: whatever tools are called, in any order and with any arguments, the file
    of the store consists of complete lines (so that what is appended is a line
    of its own), every entry read from it is well formed, no id is there twice,
    and a search for an id from the end of the file finds what the whole file
    holds for it. *)
Theorem store_invariant f :
  reachable date_parse ctx f ->
  whole f /\ Forall entry_ok (loadStoreEntries None f) /\ NoDup (map m_id (loadStoreEntries None f)) /\
  forall id scope, findStoreEntryById f id scope =
    match lookup_id id (loadStoreEntries None f) with
    | Some e => if entryMatchesScope e scope then Some e else None
    | None => None
    end.
Proof.
  intros R. split; [by eapply reachable_whole, R; apply context_label|]. split; [apply load_ok|]. split; [apply load_NoDup|].
  intros. apply find_by_id.
Qed.

(** C12: what is saved is recalled.  After a successful [memory_save] the store holds
    an entry under the id it returned; [memory_get] with that id, in the namespace
    of the save and with a least trust no higher than the one of the save, returns
    the title and the content of the entry, clipped to the length asked for; the
    content holds the text that was saved, merged or not. *)
Theorem save_then_get now uuid params f f' v :
  reachable date_parse ctx f -> full uuid -> uuid ∉ map m_id (loadStoreEntries None f) ->
  memory_save date_parse ctx now uuid params f = (f', Ok v) ->
  exists id content, get_prop "id" v = VStr id /\ includes (prop_text "content" params) content = true /\
    (exists e, e ∈ loadStoreEntries None f' /\ m_id e = id /\ m_content e = content) /\
    forall now' params',
      sc_namespace (scope_of ctx params') = normalizeNamespace (get_prop "namespace" params) (defaultNamespace ctx) ->
      trustTierRank (minTrustTier (scope_of ctx params')) <= trustTierRank (saved_tier params) ->
      exists f'' w, get_entry ctx now' id params' f' = (f'', Ok w) /\
        get_prop "title" w = VStr (prop_text "title" params) /\
        get_prop "content" w = VStr (clipText content (int_nat (clampInt (get_prop "maxChars" params') 200 60000 (NInt 12000)))).1.
Proof.
  intros R U Fr S. pose proof (reachable_whole _ _ f (context_label pcwd ws env) R) as W.
  destruct (save_saved _ _ _ _ _ _ _ _ W U Fr (context_label pcwd ws env) S) as (e & Sv & I & _).
  destruct Sv as [_ _ Found Ns Title Asked Tier Content _ _]. exists (m_id e), (m_content e). split; [done|]. split; [|split].
  - destruct Content as [->|(old & Ho & Io & _ & ->)]; [apply includes_refl|]. apply merge_includes; [|done].
    pose proof (load_ok f) as O. rewrite Forall_forall in O. by apply O.
  - exists (norm_entry e). apply find_some in Found as [H _]. split; [by apply list_elem_of_In|done].
  - intros now' params' N T. assert (entryMatchesScope (norm_entry e) (scope_of ctx params') = true) as M.
    { unfold entryMatchesScope. cbn [norm_entry m_namespace m_trustTier]. rewrite N, Ns, String.eqb_refl. apply Nat.leb_le. lia. }
    destruct (get_entry_found ctx now' (m_id e) params' f' (norm_entry e) Found M) as (f'' & w & G & T' & C).
    exists f'', w. split; [done|]. by rewrite T', C, <- Title.
Qed.

(** C27: a save stays in its namespace.  It changes no entry of another namespace;
    in its own, the quota holds afterwards, unless the saved entry alone exceeds
    it and is the only one left: the entry just saved is never evicted. *)
Theorem save_confined now uuid params f f' v :
  reachable date_parse ctx f -> full uuid -> uuid ∉ map m_id (loadStoreEntries None f) ->
  memory_save date_parse ctx now uuid params f = (f', Ok v) ->
  let ns := normalizeNamespace (get_prop "namespace" params) (defaultNamespace ctx) in
  let l := in_namespace ns (loadStoreEntries None f') in
  (forall ns', ns' <> ns -> in_namespace ns' (loadStoreEntries None f') = in_namespace ns' (loadStoreEntries None f)) /\
  (exists e, e ∈ l /\ get_prop "id" v = VStr (m_id e)) /\
  (over_quota (resolveNamespaceQuota (quotaConfig ctx) ns) l (total_bytes l) = false \/ length l = 1).
Proof.
  intros R U Fr S ns. pose proof (reachable_whole _ _ f (context_label pcwd ws env) R) as W.
  destruct (save_saved _ _ _ _ _ _ _ _ W U Fr (context_label pcwd ws env) S) as (e & Sv & I & _).
  destruct Sv as [_ _ Found Ns _ _ _ _ Others Quota]. fold ns in Ns. rewrite Ns in Others, Quota. cbv zeta in *. split; [done|]. split.
  - exists (norm_entry e). split; [|done]. apply in_namespace_elem. apply find_some in Found as [H _].
    split; [by apply list_elem_of_In|done].
  - destruct Quota as [Q|Q]; [by left|right]. by rewrite Q.
Qed.

(** a deleted entry is forgotten: no scope finds it any more; it was in the
    scope of the call, and every other entry stays as it was. *)
Theorem delete_forgets now params f f' v :
  reachable date_parse ctx f -> memory_delete date_parse ctx now params f = (f', Ok v) ->
  exists e, findStoreEntryById f (m_id e) (scope_of ctx params) = Some e /\ get_prop "id" v = VStr (m_id e) /\
    (forall scope, findStoreEntryById f' (m_id e) scope = None) /\
    forall id scope, id <> m_id e -> findStoreEntryById f' id scope = findStoreEntryById f id scope.
Proof.
  intros R D. pose proof (reachable_whole _ _ f (context_label pcwd ws env) R) as W.
  destruct (delete_found _ _ _ _ _ _ _ W D) as (e & He & Se & I & _ & L). exists e. split; [|split; [done|split]].
  - rewrite find_by_id. assert (lookup_id (m_id e) (loadStoreEntries None f) = Some e) as ->; [|by rewrite Se].
    apply lookup_elem; [apply load_NoDup|done].
  - intros scope. by rewrite find_by_id, L, lookup_without, String.eqb_refl.
  - intros id scope N. rewrite !find_by_id, L, lookup_without. by destruct (String.eqb_spec id (m_id e)).
Qed.

(** compaction changes nothing that is read: the file rewritten by
    [memory_compact] holds the same entries in the same order (numbers in lowest
    terms), and compacting it again leaves it as it is. *)
Theorem compact_preserves raw storePath params :
  get_prop "dryRun" params = VBool false ->
  let f' := (memory_compact ctx storePath params (Some raw)).1 in
  loadStoreEntries None f' = map norm_entry (loadStoreEntries None (Some raw)) /\
  (memory_compact ctx storePath params f').1 = f'.
Proof.
  intros D. unfold memory_compact. rewrite D. cbn [not_false fst].
  destruct (load_compacted (loadStoreEntries None (Some raw))) as [L _]; [apply load_NoDup|apply load_ok|].
  split; [done|]. by rewrite L, compacted_norm.
Qed.

(** pruning with a maximal count leaves at most so many entries in the scope,
    deletes entries of the scope only, and a dry run changes nothing. *)
Theorem prune_bounded now params f f' v :
  reachable date_parse ctx f -> memory_prune date_parse ctx now params f = (f', Ok v) ->
  let scope := scope_of ctx params in
  (forall e, e ∈ loadStoreEntries None f' -> e ∈ loadStoreEntries None f) /\
  (forall e, e ∈ loadStoreEntries None f -> entryMatchesScope e scope = false -> e ∈ loadStoreEntries None f') /\
  (not_false (get_prop "dryRun" params) = true -> f' = f) /\
  (not_false (get_prop "dryRun" params) = false -> isFinite (to_number (get_prop "maxEntries" params)) = true ->
   length (in_scope scope (loadStoreEntries None f')) <= int_nat (clampInt (get_prop "maxEntries" params) 1 10000 (NInt 1000))).
Proof.
  intros R P. pose proof (reachable_whole _ _ f (context_label pcwd ws env) R) as W.
  destruct (prune_spec _ _ _ _ _ _ _ W P) as (_ & ids & L & I & D & B). cbv zeta. split; [|split; [|done]]; rewrite L; intros e.
  - by intros [? _]%delete_all_elem.
  - intros He N. apply delete_all_elem. split; [done|]. intros (x & [Hx Mx]%list_elem_of_In%filter_In & Ex)%I.
    apply list_elem_of_In in Hx. assert (x = e) as -> by (eapply id_inj; [apply load_NoDup|done..]). congruence.
Qed.

(** The texts [memory_save] tests for secrets. *)
Definition save_text (params : value) : string :=
  prop_text "title" params +:+ nl +:+ prop_text "content" params +:+ nl +:+ join " " (normalizeTags (get_prop "tags" params)).

(** [memory_save] refuses exactly a call without title or content, with an
    unknown strategy or with a text that looks like a secret; when it refuses, and
    when any other tool throws, the store is unchanged. *)
Theorem errors_change_nothing now uuid params id f :
  (is_ok (memory_save date_parse ctx now uuid params f).2 = true <->
   prop_text "title" params <> "" /\ prop_text "content" params <> "" /\
   (on_conflict params = "upsert" \/ on_conflict params = "replace") /\ containsLikelySecret (save_text params) = false) /\
  Forall (fun out : file * result value => is_ok out.2 = false -> out.1 = f)
    [memory_save date_parse ctx now uuid params f; memory_delete date_parse ctx now params f; memory_feedback ctx now params f;
     get_entry ctx now id params f; memory_prune date_parse ctx now params f].
Proof.
  split.
  - unfold memory_save. fold (save_text params). rewrite <- !truthy_true.
    destruct (truthy (prop_text "title" params)); cbn [negb]; [|naive_solver].
    destruct (truthy (prop_text "content" params)); cbn [negb]; [|naive_solver].
    case_bool_decide as B; cbn [negb]; rewrite elem_of_cons, list_elem_of_singleton in B; [|naive_solver].
    destruct (containsLikelySecret (save_text params)); [naive_solver|].
    destruct (enforceNamespaceQuota _ _ _ _ _ _) as [[? ?] ?]. naive_solver.
  - repeat constructor; intros H.
    + destruct (memory_save _ _ _ _ _ _) as [f' [v|m]] eqn:E; [done|]. by apply throw_unchanged in E.
    + destruct (memory_delete _ _ _ _ _) as [f' [v|m]] eqn:E; [done|]. by apply delete_throws in E.
    + destruct (memory_feedback _ _ _ _) as [f' [v|m]] eqn:E; [done|]. by apply feedback_throws in E.
    + unfold get_entry in *. by destruct (findStoreEntryById _ _ _).
    + destruct (memory_prune _ _ _ _ _) as [f' [v|m]] eqn:E; [done|]. by apply prune_throws in E.
Qed.
End Promises.

(** ** Examples *)

Definition no_dates (s : string) : num := NInt 0.
Definition sample_ctx : context := buildMemoryToolsContext "/" "/w" [].
Definition note (title content : string) (more : list (string * value)) : value :=
  VObj ([("title", VStr title); ("content", VStr content)] ++ more).
Definition sample_save (uuid : string) (params : value) (f : file) : file * result value :=
  memory_save no_dates sample_ctx 0 uuid params f.
Definition tea : file := (sample_save "id-1" (note "drink" "user prefers tea" []) None).1.
Definition tea_value : value := match (sample_save "id-1" (note "drink" "user prefers tea" []) None).2 with Ok v => v | _ => VNull end.
Lemma tea_saved : sample_save "id-1" (note "drink" "user prefers tea" []) None = (tea, Ok tea_value).
Proof. vm_compute. reflexivity. Qed.
Lemma tea_reachable : reachable no_dates sample_ctx tea.
Proof. apply (reach_call no_dates sample_ctx None 0 (Save "id-1" (note "drink" "user prefers tea" [])) (reach_start _ _)). split; [done|]. vm_compute. by intros ?%not_elem_of_nil. Qed.

(** A file whose last line was cut off takes the next entry with it: the save
    reports success and the entry is not there. *)
Example torn_line_loses :
  let torn := Some "{" in
  let out := sample_save "id-2" (note "drink" "user prefers tea" []) torn in
  is_ok out.2 = true /\ loadStoreEntries None out.1 = [].
Proof. vm_compute. done. Qed.

(** Two texts that pass the test for secrets one by one are merged into one that
    does not. *)
Example merged_secret :
  let f1 := (sample_save "id-3" (note "mail login" "the password" []) None).1 in
  let out := sample_save "id-4" (note "mail login" "abcdefghijklmnopqrstuvwxyz0123456789" []) f1 in
  is_ok out.2 = true /\ map (fun e => containsLikelySecret (m_content e)) (loadStoreEntries None out.1) = [true].
Proof. vm_compute. done. Qed.

(** An entry of the highest trust takes up text saved as unverified and keeps its
    tier. *)
Example merged_tier :
  let f1 := (sample_save "id-5" (note "policy" "ask before deleting" [("source", VStr "system"); ("trustTier", VStr "system")]) None).1 in
  let f2 := (sample_save "id-6" (note "Policy" "deleting is always fine" [("source", VStr "web"); ("trustTier", VStr "unverified")]) f1).1 in
  map (fun e => (m_id e, tier_name (m_trustTier e), includes "always fine" (m_content e))) (loadStoreEntries None f2) =
  [("id-5", "system", true)].
Proof. vm_compute. reflexivity. Qed.

(** The namespace [constructor] has no quota: its limits are looked up on an
    object literal. *)
Example constructor_unlimited :
  let config := resolveNamespaceQuotaConfigFromEnv [("T560_MEMORY_MAX_ENTRIES", "1")] in
  normalizeNamespace (VStr "constructor") "" = "constructor" /\ resolveNamespaceQuota config "constructor" = None /\
  option_map maxEntries (resolveNamespaceQuota config "other") = Some (NInt 1).
Proof. vm_compute. done. Qed.

Lemma store_invariant_witness : whole tea /\ NoDup (map m_id (loadStoreEntries None tea)).
Proof. destruct (store_invariant no_dates "/" "/w" [] tea tea_reachable) as (W & _ & N & _). exact (conj W N). Defined.
Lemma save_then_get_witness :
  exists id content f'' w, get_prop "id" tea_value = VStr id /\ includes "user prefers tea" content = true /\
    get_entry sample_ctx 7 id (VObj []) tea = (f'', Ok w) /\ get_prop "title" w = VStr "drink" /\
    get_prop "content" w = VStr (clipText content 12000).1.
Proof.
  destruct (save_then_get no_dates "/" "/w" [] 0 "id-1" (note "drink" "user prefers tea" []) None tea tea_value) as (i & c & I & C & _ & G).
  - apply reach_start.
  - vm_compute. split; reflexivity.
  - vm_compute. apply not_elem_of_nil.
  - exact tea_saved.
  - destruct (G 7%Z (VObj [])) as (f'' & w & E & T & K); [vm_compute; reflexivity|vm_compute; repeat constructor|].
    exists i, c, f'', w. exact (conj I (conj C (conj E (conj T K)))).
Defined.
Lemma save_confined_witness :
  in_namespace "work" (loadStoreEntries None tea) = [] /\
  (exists e, e ∈ in_namespace "global" (loadStoreEntries None tea) /\ get_prop "id" tea_value = VStr (m_id e)) /\
  (over_quota (resolveNamespaceQuota (quotaConfig sample_ctx) "global") (in_namespace "global" (loadStoreEntries None tea))
     (total_bytes (in_namespace "global" (loadStoreEntries None tea))) = false \/
   length (in_namespace "global" (loadStoreEntries None tea)) = 1).
Proof.
  destruct (save_confined no_dates "/" "/w" [] 0 "id-1" (note "drink" "user prefers tea" []) None tea tea_value) as (O & X).
  - apply reach_start.
  - vm_compute. split; reflexivity.
  - vm_compute. apply not_elem_of_nil.
  - exact tea_saved.
  - split; [rewrite (O "work"); [reflexivity|discriminate]|exact X].
Defined.
Definition forget : value := VObj [("title", VStr "Drink")].
Definition forgotten : file := (memory_delete no_dates sample_ctx 0 forget tea).1.
Definition forget_value : value := match (memory_delete no_dates sample_ctx 0 forget tea).2 with Ok v => v | _ => VNull end.
Lemma delete_forgets_witness : findStoreEntryById forgotten "id-1" (mkScope "global" unverified) = None.
Proof.
  destruct (delete_forgets no_dates "/" "/w" [] 0 forget tea forgotten forget_value tea_reachable) as (e & _ & I & F & _).
  - vm_compute. reflexivity.
  - assert (m_id e = "id-1") as <-; [|apply F]. assert (VStr (m_id e) = VStr "id-1") as X; [|injection X; done].
    rewrite <- I. vm_compute. reflexivity.
Defined.
Lemma compact_preserves_witness :
  loadStoreEntries None (memory_compact sample_ctx "" (VObj [("dryRun", VBool false)]) forgotten).1 = [].
Proof.
  destruct (compact_preserves "/" "/w" [] (default "" forgotten) "" (VObj [("dryRun", VBool false)])) as [L _]; [reflexivity|].
  etrans; [exact L|]. vm_compute. reflexivity.
Defined.
Definition prune_one : value := VObj [("maxEntries", VNum (NInt 1)); ("dryRun", VBool false)].
Definition pruned : file := (memory_prune no_dates sample_ctx 0 prune_one tea).1.
Definition prune_value : value := match (memory_prune no_dates sample_ctx 0 prune_one tea).2 with Ok v => v | _ => VNull end.
Lemma prune_bounded_witness : length (in_scope (mkScope "global" unverified) (loadStoreEntries None pruned)) <= 1.
Proof.
  destruct (prune_bounded no_dates "/" "/w" [] 0 prune_one tea pruned prune_value tea_reachable) as (_ & _ & _ & B).
  - vm_compute. reflexivity.
  - apply B; reflexivity.
Defined.
Lemma errors_change_nothing_witness :
  (memory_save no_dates sample_ctx 0 "id-7" (note "key" "token sk_abcdefghijklmnop1234" []) tea).1 = tea.
Proof.
  destruct (errors_change_nothing no_dates "/" "/w" [] 0 "id-7" (note "key" "token sk_abcdefghijklmnop1234" []) "x" tea) as [_ F].
  apply Forall_cons in F as [F _]. apply F. vm_compute. reflexivity.
Defined.
