(* ===== verification/MemoryDocs.v ===== *)
(** * Memory documents and search

    [src/src/agents/tools/memory-tools.ts], fourth part: [memory_search] and
    [memory_get], which read the store and the memory documents of the workspace.
    The workspace is the directory tree of [FsTools], from the root; the
    result of [localeCompare] is the argument [locale_lt]. *)

From stdpp Require Import base list sets strings pretty sorting.
From Stdlib Require Import Ascii Lia ZArith QArith Permutation.
From S2P Require Import Prelude JsString JsMap JsValue Json JsDate NodePath Vault FsTools MemoryStore MemorySearch MemoryTools.
#[local] Open Scope nat_scope.

Definition MAX_MEMORY_FILE_BYTES : nat := 1000 * 1000.
Definition MAX_FILE_SCAN : nat := 200.
Definition SURROUNDING_FILENAMES : list string :=
  ["AGENTS.md"; "SOUL.md"; "TOOLS.md"; "IDENTITY.md"; "USER.md"; "HEARTBEAT.md"; "BOOTSTRAP.md"; "README.md"].

Section Docs.
Variable pcwd : string.
Variable locale_lt : string -> string -> bool.
Variable tree : node.

(** ** Which files are memory documents *)

Definition normalizeRelativePath (workspaceDir targetPath : string) : string :=
  replace_outside (fun c => negb (code c =? 92)) ["/"%char] (relative pcwd workspaceDir targetPath).
(** The relative path of a target inside the workspace. *)
Definition inside_path (workspaceDir targetPath : string) : option string :=
  let rel := normalizeRelativePath (resolve pcwd workspaceDir) (resolve pcwd targetPath) in
  if negb (truthy rel) || startsWith ".." rel || isAbsolute rel then None else Some rel.
Definition isMemoryFilePath (workspaceDir targetPath : string) : bool :=
  match inside_path workspaceDir targetPath with
  | None => false
  | Some rel =>
      let lowered := toLowerCase rel in
      (lowered =? "memory.md")%string || (startsWith "memory/" lowered && endsWith ".md" lowered)
  end.
Definition isSurroundingFilePath (workspaceDir targetPath : string) : bool :=
  match inside_path workspaceDir targetPath with
  | None => false
  | Some rel => negb (includes "/" rel) && bool_decide (rel ∈ SURROUNDING_FILENAMES)
  end.
Definition isMemorySourceFilePath (workspaceDir targetPath : string) : bool :=
  isMemoryFilePath workspaceDir targetPath || isSurroundingFilePath workspaceDir targetPath.

Definition node_of (p : string) : option node := node_at (segments pcwd p) tree.
Definition pathExists (p : string) : bool := match node_of p with Some _ => true | None => false end.
Definition is_file (n : option node) : bool := match n with Some (File _) => true | _ => false end.

(** [found] is a [Set]: adding what is there changes nothing. *)
Definition add_found (p : string) (found : list string) : list string :=
  if bool_decide (p ∈ found) then found else found ++ [p].
Definition addIfMemoryFile (root candidate : string) (found : list string) : list string :=
  if negb (isMemorySourceFilePath root candidate) then found
  else if isSensitivePath pcwd candidate root then found
  else if negb (is_file (node_of candidate)) then found
  else add_found (resolve pcwd candidate) found.

(** The entries of one directory: the files found and the directories pushed. *)
Fixpoint scan_entries (root current : string) (entries : list (string * node)) (found : list string)
    (stack : list (string * node)) : list string * list (string * node) :=
  match entries with
  | [] => (found, stack)
  | (name, n) :: rest =>
      if MAX_FILE_SCAN <=? length found then (found, stack)
      else if negb (truthy name) || startsWith "." name then scan_entries root current rest found stack
      else
        let absolute := join2 current name in
        match n with
        | Dir _ => scan_entries root current rest found ((absolute, n) :: stack)
        | File _ => scan_entries root current rest
                      (if endsWith ".md" (toLowerCase name) then addIfMemoryFile root absolute found else found) stack
        | Special => scan_entries root current rest found stack
        end
  end.
(** The loop over the stack, its top first. *)
Fixpoint walk_stack (fuel : nat) (root : string) (stack : list (string * node)) (found : list string) : list string :=
  match fuel, stack with
  | S fuel, (current, n) :: stack' =>
      if MAX_FILE_SCAN <=? length found then found
      else match n with
           | Dir es => let '(found, stack) := scan_entries root current es found stack' in walk_stack fuel root stack found
           | _ => walk_stack fuel root stack' found
           end
  | _, _ => found
  end.
Fixpoint node_size (n : node) : nat :=
  match n with Dir es => S (fold_right (fun e s => node_size e.2 + s) 0 es) | _ => 1 end.

Definition collectMemoryFiles (workspaceDir : string) (includeSurrounding : bool) : list string :=
  let root := resolve pcwd workspaceDir in
  let found := addIfMemoryFile root (join2 root "memory.md") (addIfMemoryFile root (join2 root "MEMORY.md") []) in
  let found := if includeSurrounding
               then fold_left (fun found name => addIfMemoryFile root (join2 root name) found) SURROUNDING_FILENAMES found
               else found in
  let memoryDir := join2 root "memory" in
  let found := match node_of memoryDir with
               | Some n => walk_stack (node_size n) root [(memoryDir, n)] found
               | None => found
               end in
  stable_sort locale_lt found.

(** ** Searching *)

Definition buildFileContextSnippet (lines : list string) (lineIndex contextLines : nat) : string :=
  let start := lineIndex - contextLines in
  let stop := Nat.min (length lines) (lineIndex + contextLines + 1) in
  trim (join nl (imap (fun i line => pretty (start + i + 1) +:+ ": " +:+ line) (firstn (stop - start) (skipn start lines)))).

Record hit := mkHit { h_store : bool; h_score : Z; h_value : value }.
Record line_match := mkMatch { lm_index : nat; lm_score : Z; lm_exact : bool; lm_tokens : nat }.
Definition line_matches (query : string) (tokens : list string) (lines : list string) : list line_match :=
  omap (fun p => let line := p.2 in
          let score := computeScore line query tokens in
          if negb (truthy (trim line)) || (score <=? 0)%Z then None
          else Some (mkMatch p.1 score (truthy query && includes query (toLowerCase line)) (countMatchedTokens line tokens)))
       (imap pair lines).
Definition file_hits (relativePath query : string) (tokens lines : list string) : list hit :=
  let sorted := stable_sort (fun a b => (lm_score b <? lm_score a)%Z || ((lm_score b =? lm_score a)%Z && (lm_index a <? lm_index b)))
                  (line_matches query tokens lines) in
  map (fun m =>
    mkHit false (lm_score m + 6)
      (VObj [("kind", VStr "file"); ("ref", VStr ("file:" +:+ relativePath +:+ "#L" +:+ pretty (lm_index m + 1)));
             ("path", VStr relativePath); ("line", vnat (lm_index m + 1));
             ("preview", VStr (compactPreview (buildFileContextSnippet lines (lm_index m) 3) 320));
             ("score", VNum (NInt (lm_score m + 6))); ("exactMatch", VBool (lm_exact m)); ("matchedTokens", vnat (lm_tokens m))]))
    (firstn 2 sorted).
Definition searchMemoryFiles (workspaceDir query : string) (tokens : list string) (includeSurrounding : bool) : list hit * nat :=
  let files := collectMemoryFiles workspaceDir includeSurrounding in
  (flat_map (fun p =>
     match node_of p with
     | Some (File text) =>
         if MAX_MEMORY_FILE_BYTES <? utf8_length text then []
         else file_hits (normalizeRelativePath workspaceDir p) query tokens (normalizeLineBreaks text)
     | _ => []
     end) files, length files).

Section Search.
Variable date_parse : string -> num.
Variable ctx : context.
Variable now : Z.

Definition days_since (s : string) : option Z :=
  match date_parse s with
  | NFin m k => match age_days now (NFin m k) with NFin d 0 => Some d | _ => None end
  | _ => None
  end.
Definition num_int (n : num) : Z := match n with NFin m k => (m / pow10 k)%Z | _ => 0%Z end.
Definition store_score (query : string) (tokens : list string) (queryEmbedding : list (Z * Z)) (e : MemoryStoreEntry) : Z :=
  let updated := match days_since (or_text (m_updatedAt e) (m_createdAt e)) with
                 | Some d => Z.max 0 (18 - d / 14) | None => 0%Z end in
  let accessed := match days_since (or_text (m_lastAccessedAt e) (or_text (m_updatedAt e) (m_createdAt e))) with
                  | Some d => Z.max 0 (12 - d / 21) | None => 0%Z end in
  (computeScore (haystack e) query tokens + updated + accessed + num_int (m_importance e) * 6 +
   num_int (num_round (num_mul (m_confidence e) (NInt 10))) + Z.min 24 (num_int (m_reinforceCount e) * 3) +
   Z.of_nat (trustTierRank (m_trustTier e)) * 2 +
   semantic_points (cosineSimilarity queryEmbedding (embedTokens (tokenizeForSimilarity (haystack e)))))%Z.
Definition searchStoreEntries (entries : list MemoryStoreEntry) (query : string) (tokens : list string)
    (queryEmbedding : list (Z * Z)) : list hit :=
  omap (fun e =>
    if (computeScore (haystack e) query tokens <=? 0)%Z then None
    else
      let score := store_score query tokens queryEmbedding e in
      Some (mkHit true score
        (VObj [("kind", VStr "store"); ("ref", VStr (ref_of (m_id e))); ("id", VStr (m_id e)); ("title", VStr (m_title e));
               ("preview", VStr (buildPreviewAroundQuery (m_content e) query)); ("tags", vstrs (m_tags e));
               ("createdAt", VStr (m_createdAt e)); ("updatedAt", VStr (m_updatedAt e)); ("importance", VNum (m_importance e));
               ("confidence", VNum (m_confidence e)); ("source", VStr (m_source e)); ("namespace", VStr (m_namespace e));
               ("trustTier", vtier (m_trustTier e)); ("score", VNum (NInt score));
               ("exactMatch", VBool (truthy query && includes query (toLowerCase (haystack e))));
               ("matchedTokens", vnat (countMatchedTokens (haystack e) tokens))]))) entries.

Definition memory_search (params : value) (f : file) : result value :=
  let query := toLowerCase (prop_text "query" params) in
  if negb (truthy query) then Throw "query is required."
  else
    let limit := clampInt (get_prop "limit" params) 1 20 (NInt 8) in
    let includeStore := not_false (get_prop "includeStore" params) in
    let includeFiles := not_false (get_prop "includeFiles" params) in
    let includeSurrounding := includeFiles && not_false (get_prop "includeSurrounding" params) in
    let tokens := tokenizeQuery query in
    let scope := scope_of ctx params in
    let entries := if includeStore then loadStoreEntries (Some MAX_STORE_SCAN) f else [] in
    let storeHits := searchStoreEntries (List.filter (fun e => entryMatchesScope e scope) entries) query tokens (embedTokens tokens) in
    let '(fileHits, filesScanned) := if includeFiles then searchMemoryFiles (ctx_workspaceDir ctx) query tokens includeSurrounding
                                     else ([], 0) in
    let allHits := stable_sort (fun a b => (h_score b <? h_score a)%Z) (storeHits ++ fileHits) in
    Ok (VObj [("query", VStr query); ("limit", VNum limit); ("results", VArr (map h_value (firstn (int_nat limit) allHits)));
              ("searched", VObj [("includeStore", VBool includeStore); ("includeFiles", VBool includeFiles);
                                 ("includeSurrounding", VBool includeSurrounding); ("namespace", VStr (sc_namespace scope));
                                 ("minTrustTier", vtier (minTrustTier scope)); ("storeEntriesScanned", vnat (length entries));
                                 ("storeEntriesMatchedScope",
                                   if includeStore then vnat (length (List.filter h_store allHits)) else vnat 0);
                                 ("filesScanned", vnat filesScanned)])]).

(** ** [memory_get] *)

(** [/^(.*?)(?:#L(\d+))?$/]: the text before a final [#L] with digits. *)
Fixpoint split_ref (l : list ascii) : list ascii * option (list ascii) :=
  match l with
  | [] => ([], None)
  | c :: l' =>
      if list_prefix (chars "#L") l && negb (length l =? 2) && forallb is_digit (skipn 2 l) then ([], Some (skipn 2 l))
      else let '(p, d) := split_ref l' in (c :: p, d)
  end.
Definition parseFileRef (ref : string) : option (string * option num) :=
  let trimmed := trim ref in
  if negb (startsWith "file:" trimmed) then None
  else
    let body := chars (slice_from 5 trimmed) in
    if existsb (fun c => (code c =? 10) || (code c =? 13)) body then None
    else
      let '(p, d) := split_ref body in
      let filePath := trim (of_chars p) in
      if negb (truthy filePath) then None
      else Some (filePath, option_map (fun d => clampInt (VStr (of_chars d)) 1 1000000 (NInt 1)) d).

Definition get_document (params : value) : result value :=
  let contextLines := int_nat (clampInt (get_prop "contextLines" params) 0 20 (NInt 3)) in
  let maxChars := int_nat (clampInt (get_prop "maxChars" params) 200 60000 (NInt 12000)) in
  let pathFromRef := parseFileRef (prop_text "ref" params) in
  let rawPath := trim (to_string (nullish (get_prop "path" params)
                   (VStr (match pathFromRef with Some (p, _) => p | None => "" end)))) in
  let line := int_nat (clampInt (nullish (get_prop "line" params)
                (match pathFromRef with Some (_, Some n) => VNum n | _ => VUndef end)) 1 1000000 (NInt 1)) in
  if negb (truthy rawPath) then Throw "Provide one of: ref, id, or path."
  else
    let absolutePath := resolve2 pcwd (ctx_workspaceDir ctx) rawPath in
    if negb (isMemorySourceFilePath (ctx_workspaceDir ctx) absolutePath)
    then Throw "memory_get path must target memory docs (MEMORY.md, memory.md, memory/*.md) or surrounding context files (AGENTS.md, USER.md, SOUL.md, TOOLS.md, IDENTITY.md, HEARTBEAT.md, BOOTSTRAP.md, README.md)."
    else if isSensitivePath pcwd absolutePath (ctx_workspaceDir ctx) then Throw "Access to sensitive credential files is blocked."
    else if negb (pathExists absolutePath) then Throw ("Memory file not found: " +:+ rawPath)
    else
      let? text := read_file (segments pcwd absolutePath) tree in
      let lines := normalizeLineBreaks text in
      let lineIndex := Nat.min (length lines - 1) (line - 1) in
      let clipped := clipText (buildFileContextSnippet lines lineIndex contextLines) maxChars in
      let relativePath := normalizeRelativePath (ctx_workspaceDir ctx) absolutePath in
      Ok (VObj [("source", VStr "file"); ("ref", VStr ("file:" +:+ relativePath +:+ "#L" +:+ pretty (lineIndex + 1)));
                ("path", VStr relativePath); ("lineStart", vnat (Nat.max 1 (lineIndex + 1 - contextLines)));
                ("lineEnd", vnat (Nat.min (length lines) (lineIndex + 1 + contextLines))); ("content", VStr clipped.1);
                ("truncated", VBool clipped.2)]).
Definition memory_get (params : value) (f : file) : file * result value :=
  let targetId := target_id params in
  if truthy targetId then get_entry ctx now targetId params f else (f, get_document params).
End Search.
End Docs.

(** ** What is read *)

Section DocFacts.
Variables (pcwd : string) (locale_lt : string -> string -> bool) (tree : node).

Definition to_slash (c : ascii) : list ascii := if negb (code c =? 92) then [c] else ["/"%char].
Lemma replace_prefix p l :
  forallb (fun c => negb (code c =? 92)) p = true -> list_prefix p l = true -> list_prefix p (flat_map to_slash l) = true.
Proof.
  revert l. induction p as [|c p IH]; intros l H; [done|]. destruct l as [|d l]; [done|]. cbn in H. apply andb_true_iff in H as [Hc H].
  cbn [list_prefix flat_map]. intros [E L]%andb_true_iff. apply bool_decide_eq_true in E as <-. unfold to_slash. rewrite Hc. cbn.
  rewrite bool_decide_eq_true_2 by done. by apply IH.
Qed.
Lemma inside_below root p rel :
  inside_path pcwd root p = Some rel -> below (segments pcwd root) (segments pcwd p).
Proof.
  unfold inside_path. destruct (_ || _) eqn:O; [done|]. intros _. rewrite <- (segments_resolve pcwd root), <- (segments_resolve pcwd p).
  apply relative_inside_spec. unfold normalizeRelativePath in O. bool_prop.
  set (r := relative pcwd (resolve pcwd root) (resolve pcwd p)) in *. unfold relative_inside. apply orb_true_iff. right.
  apply andb_true_iff. unfold isAbsolute, startsWith, replace_outside in *. rewrite chars_of_chars in *.
  split; apply negb_true_iff; destruct (list_prefix _ (chars r)) eqn:P; try done.
  all: apply replace_prefix in P; [unfold to_slash in P; congruence|done].
Qed.
(** A memory document lies below the workspace and is not a file of secrets. *)
Record document (root p : string) : Prop := {
  doc_below : below (segments pcwd root) (segments pcwd p);
  doc_source : isMemorySourceFilePath pcwd root p = true;
  doc_public : isSensitivePath pcwd p root = false;
}.
Lemma source_below root p : isMemorySourceFilePath pcwd root p = true -> below (segments pcwd root) (segments pcwd p).
Proof.
  unfold isMemorySourceFilePath, isMemoryFilePath, isSurroundingFilePath. destruct (inside_path pcwd root p) eqn:I; [|done].
  intros _. by eapply inside_below.
Qed.

(** The files collected: documents that are files, each once. *)
Definition found_ok (root : string) (found : list string) : Prop :=
  NoDup found /\ Forall (fun p => exists c text, document root c /\ p = resolve pcwd c /\ node_of pcwd tree c = Some (File text)) found.
Lemma add_ok root c found : found_ok root found -> found_ok root (addIfMemoryFile pcwd tree root c found).
Proof.
  intros [N F]. unfold addIfMemoryFile. destruct (isMemorySourceFilePath _ _ _) eqn:M; cbn [negb]; [|done].
  destruct (isSensitivePath _ _ _) eqn:S; [done|]. destruct (node_of pcwd tree c) as [[text| |]|] eqn:K; cbn [is_file negb]; try done.
  unfold add_found. case_bool_decide; [done|]. split.
  - apply NoDup_app. split; [done|]. split; [|apply NoDup_singleton]. by intros x Hx ->%list_elem_of_singleton.
  - apply Forall_app. split; [done|]. constructor; [|constructor]. exists c, text. split; [|done]. split; auto using source_below.
Qed.
Lemma add_length root c found : length (addIfMemoryFile pcwd tree root c found) <= S (length found).
Proof. unfold addIfMemoryFile, add_found. repeat case_match; rewrite ?length_app; simpl; lia. Qed.

Lemma scan_ok root current es found stack :
  found_ok root found -> length found <= MAX_FILE_SCAN ->
  found_ok root (scan_entries pcwd tree root current es found stack).1 /\
  length (scan_entries pcwd tree root current es found stack).1 <= MAX_FILE_SCAN.
Proof.
  revert found stack. induction es as [|[name n] es IH]; intros found stack F L; [done|]. cbn [scan_entries].
  destruct (Nat.leb_spec MAX_FILE_SCAN (length found)) as [|B]; [done|]. destruct (_ || _); [by apply IH|].
  destruct n; try by apply IH. apply IH; destruct (endsWith _ _); auto using add_ok.
  pose proof (add_length root (join2 current name) found). lia.
Qed.
Lemma walk_ok fuel root stack found :
  found_ok root found -> length found <= MAX_FILE_SCAN ->
  found_ok root (walk_stack pcwd tree fuel root stack found) /\ length (walk_stack pcwd tree fuel root stack found) <= MAX_FILE_SCAN.
Proof.
  revert stack found. induction fuel as [|fuel IH]; intros stack found F L; [done|]. cbn [walk_stack].
  destruct stack as [|[current n] stack]; [done|]. destruct (_ <=? _); [done|]. destruct n as [|es|]; try by apply IH.
  destruct (scan_ok root current es found stack F L) as [F' L'].
  destruct (scan_entries _ _ _ _ _ _ _) as [found' stack']. by apply IH.
Qed.
Lemma collect_ok ws surrounding :
  found_ok (resolve pcwd ws) (collectMemoryFiles pcwd locale_lt tree ws surrounding) /\
  length (collectMemoryFiles pcwd locale_lt tree ws surrounding) <= MAX_FILE_SCAN.
Proof.
  unfold collectMemoryFiles. set (root := resolve pcwd ws). set (f1 := addIfMemoryFile _ _ _ _ []). set (f2 := addIfMemoryFile _ _ _ _ f1).
  assert (found_ok root f2) as F2 by (apply add_ok, add_ok; split; constructor).
  assert (length f2 <= 2) as L2.
  { subst f2 f1. etrans; [apply add_length|]. apply le_n_S, add_length. }
  set (f3 := if surrounding then _ else _).
  assert (found_ok root f3 /\ length f3 <= 10) as [F3 L3].
  { subst f3. destruct surrounding; [|split; [done|lia]]. clearbody f2. clear f1.
    assert (forall names f, found_ok root f ->
      found_ok root (fold_left (fun found name => addIfMemoryFile pcwd tree root (join2 root name) found) names f) /\
      length (fold_left (fun found name => addIfMemoryFile pcwd tree root (join2 root name) found) names f) <= length names + length f) as K.
    { induction names as [|x names IH]; intros f Ff; [done|]. cbn [fold_left length]. destruct (IH _ (add_ok root (join2 root x) f Ff)).
      split; [done|]. pose proof (add_length root (join2 root x) f). lia. }
    destruct (K SURROUNDING_FILENAMES f2 F2) as [K1 K2]. split; [exact K1|]. etrans; [exact K2|]. cbn [SURROUNDING_FILENAMES length]. lia. }
  set (f4 := match node_of _ _ _ with Some n => _ | None => _ end).
  assert (found_ok root f4 /\ length f4 <= MAX_FILE_SCAN) as [[N4 F4] L4].
  { subst f4. destruct (node_of _ _ _); [apply walk_ok|split]; try done; unfold MAX_FILE_SCAN; lia. }
  pose proof (stable_sort_perm locale_lt f4) as P. split; [split|].
  - by rewrite <- P.
  - by rewrite <- P.
  - by rewrite <- P.
Qed.

(** *** The walk needs no more fuel than the tree has nodes *)

Definition stack_size (stack : list (string * node)) : nat := fold_right (fun e s => node_size e.2 + s) 0 stack.
Lemma scan_size root current es found stack :
  stack_size (scan_entries pcwd tree root current es found stack).2 <= stack_size es + stack_size stack.
Proof.
  revert found stack. induction es as [|[name n] es IH]; intros found stack; [done|]. cbn [scan_entries].
  assert (stack_size ((name, n) :: es) = node_size n + stack_size es) as -> by done.
  destruct (_ <=? _); [cbn [snd]; lia|]. destruct (_ || _); [etrans; [apply IH|lia]|].
  destruct n as [|ds|]; try (etrans; [apply IH|lia]). etrans; [apply IH|]. cbn [stack_size fold_right snd]. fold (stack_size stack). lia.
Qed.
Lemma walk_fuel fuel root stack found :
  stack_size stack <= fuel ->
  walk_stack pcwd tree fuel root stack found = walk_stack pcwd tree (stack_size stack) root stack found.
Proof.
  remember (stack_size stack) as m eqn:E. assert (stack_size stack <= m) as B by lia. clear E. revert fuel stack found B.
  induction m as [|m IH]; intros fuel stack found B L.
  - destruct stack as [|[c n] stack]; [by destruct fuel|]. cbn in B. destruct n; cbn in B; lia.
  - destruct fuel as [|fuel]; [lia|]. destruct stack as [|[current n] stack]; [done|]. cbn [walk_stack]. destruct (_ <=? _); [done|].
    cbn [stack_size fold_right snd] in B. fold (stack_size stack) in B.
    destruct n as [|es|]; cbn [node_size] in B; try (apply IH; lia). fold (stack_size es) in B.
    pose proof (scan_size root current es found stack). destruct (scan_entries _ _ _ _ _ _ _) as [f' s']. cbn [snd] in *. apply IH; lia.
Qed.

(** C34: what the memory tools read as documents are files below the workspace,
    with the names of memory documents, none of them a file of secrets; a search
    reads each once and at most two hundred, and its walk through the directories
    ends within the size of the tree; what [memory_get] returns is the path of such
    a file and some lines of its text. *)
Theorem documents_confined ctx params :
  (forall surrounding p, p ∈ collectMemoryFiles pcwd locale_lt tree (ctx_workspaceDir ctx) surrounding ->
     exists c text, document (resolve pcwd (ctx_workspaceDir ctx)) c /\ p = resolve pcwd c /\ node_of pcwd tree c = Some (File text)) /\
  (forall surrounding, NoDup (collectMemoryFiles pcwd locale_lt tree (ctx_workspaceDir ctx) surrounding) /\
     length (collectMemoryFiles pcwd locale_lt tree (ctx_workspaceDir ctx) surrounding) <= 200) /\
  (forall v, get_document pcwd tree ctx params = Ok v ->
     exists p text at_line around limit, document (ctx_workspaceDir ctx) p /\ node_of pcwd tree p = Some (File text) /\
       get_prop "path" v = VStr (normalizeRelativePath pcwd (ctx_workspaceDir ctx) p) /\
       get_prop "content" v = VStr (clipText (buildFileContextSnippet (normalizeLineBreaks text) at_line around) limit).1) /\
  (forall n root dir found fuel, node_size n <= fuel ->
     walk_stack pcwd tree fuel root [(dir, n)] found = walk_stack pcwd tree (node_size n) root [(dir, n)] found).
Proof.
  split; [|split; [|split]].
  - intros surrounding p H. destruct (collect_ok (ctx_workspaceDir ctx) surrounding) as [[_ F] _]. rewrite Forall_forall in F. by apply F.
  - intros surrounding. destruct (collect_ok (ctx_workspaceDir ctx) surrounding) as [[N _] L]. done.
  - intros v. unfold get_document. destruct (negb (truthy _)); [done|]. set (p := resolve2 _ _ _).
    destruct (isMemorySourceFilePath _ _ p) eqn:M; cbn [negb]; [|done]. destruct (isSensitivePath _ p _) eqn:S; [done|].
    destruct (negb (pathExists _ _ _)); [done|]. intros (text & R & V)%rbind_ok_inv. eexists p, text, _, _, _.
    split; [split; auto using source_below|]. split.
    + unfold read_file in R. unfold node_of. destruct (node_at _ _) as [[]|]; try done. by injection R as ->.
    + apply (f_equal (fun r => match r with Ok x => x | Throw _ => VNull end)) in V. cbv beta iota in V. rewrite <- V.
      split; lookups; reflexivity.
  - intros n root dir found fuel L. rewrite (walk_fuel fuel); cbn [stack_size fold_right snd]; rewrite Nat.add_0_r; done.
Qed.

Lemma sorted_impl {A} (R R' : A -> A -> Prop) l : (forall a b, R a b -> R' a b) -> StronglySorted R l -> StronglySorted R' l.
Proof. intros I. induction 1 as [|x l S IH F]; constructor; [done|]. eapply Forall_impl; [exact F|]. auto. Qed.

Lemma file_hit_in ws query tokens surrounding h :
  h ∈ (searchMemoryFiles pcwd locale_lt tree ws query tokens surrounding).1 ->
  exists p, p ∈ collectMemoryFiles pcwd locale_lt tree ws surrounding /\
    get_prop "path" (h_value h) = VStr (normalizeRelativePath pcwd ws p).
Proof.
  unfold searchMemoryFiles. cbn [fst]. generalize (collectMemoryFiles pcwd locale_lt tree ws surrounding) as files. intros files H.
  apply list_elem_of_In in H. apply in_flat_map in H as (p & Hp & Hh). exists p. split; [by apply list_elem_of_In|].
  destruct (node_of pcwd tree p) as [[text| |]|]; try done. destruct (MAX_MEMORY_FILE_BYTES <? utf8_length text); [done|].
  unfold file_hits in Hh. apply in_map_iff in Hh as (m & <- & _). cbn [h_value]. by lookups.
Qed.
Lemma store_hit_in date_parse now l query tokens v h :
  h ∈ searchStoreEntries date_parse now l query tokens v -> exists e, e ∈ l /\ get_prop "id" (h_value h) = VStr (m_id e).
Proof.
  unfold searchStoreEntries. intros (e & He & Hh)%list_elem_of_omap. exists e. split; [done|].
  destruct (computeScore _ _ _ <=? 0)%Z; [discriminate Hh|]. apply (f_equal (fun o => match o with Some x => h_value x | None => VNull end)) in Hh.
  cbv beta iota in Hh. rewrite <- Hh. cbn [h_value]. by lookups.
Qed.
Lemma Ok_inj {A} (a b : A) : Ok a = Ok b -> a = b.
Proof. congruence. Qed.

(** a search returns at most twenty hits, the best first; those of the store
    are entries of the scope, and those of files are in collected documents. *)
Theorem search_scoped date_parse ctx now params f v :
  memory_search pcwd locale_lt tree date_parse ctx now params f = Ok v ->
  exists hits, get_prop "results" v = VArr (map h_value hits) /\ length hits <= 20 /\
    StronglySorted (fun a b => (h_score b <= h_score a)%Z) hits /\
    Forall (fun h =>
      (exists e, e ∈ loadStoreEntries (Some MAX_STORE_SCAN) f /\ entryMatchesScope e (scope_of ctx params) = true /\
         get_prop "id" (h_value h) = VStr (m_id e)) \/
      (exists surrounding p, p ∈ collectMemoryFiles pcwd locale_lt tree (ctx_workspaceDir ctx) surrounding /\
         get_prop "path" (h_value h) = VStr (normalizeRelativePath pcwd (ctx_workspaceDir ctx) p))) hits.
Proof.
  unfold memory_search. destruct (negb _); [done|]. set (query := toLowerCase _). set (limit := clampInt _ _ _ _).
  set (entries := if not_false (get_prop "includeStore" params) then _ else _). set (store := searchStoreEntries _ _ _ _ _ _).
  set (both := if not_false (get_prop "includeFiles" params) then _ else _). destruct both as [files scanned] eqn:B. intros <-%Ok_inj.
  set (all := stable_sort _ (store ++ files)). exists (firstn (int_nat limit) all).
  assert (int_between 1 20 limit) as (z & Ez & Lz) by (apply clampInt_ok; [lia|]; exists 8%Z; split; [done|lia]).
  split; [by lookups|]. split; [|split].
  - rewrite length_firstn, Ez. cbn. change (pow10 0) with 1%Z. rewrite Z.div_1_r. lia.
  - assert (StronglySorted (fun a b => (h_score b <= h_score a)%Z) all) as S.
    { eapply sorted_impl, stable_sort_sorted; [cbn; intros a b; rewrite Z.ltb_ge; lia|..]; cbn; intros *; rewrite ?Z.ltb_lt, ?Z.ltb_ge; lia. }
    rewrite <- (take_drop (int_nat limit) all) in S. by apply StronglySorted_app_1_l in S.
  - apply Forall_forall. intros h H. eapply elem_of_take in H as (i & H & _). apply list_elem_of_lookup_2 in H.
    unfold all in H. rewrite <- stable_sort_perm in H. apply elem_of_app in H as [H|H].
    + left. apply store_hit_in in H as (e & He & I). apply list_elem_of_In, filter_In in He as [He M]. apply list_elem_of_In in He.
      exists e. split; [|done]. subst entries. destruct (not_false (get_prop "includeStore" params)); [done|by apply not_elem_of_nil in He].
    + right. assert (files = both.1) as Ef by (by rewrite B). rewrite Ef in H. unfold both in H.
      destruct (not_false (get_prop "includeFiles" params)); [|by apply not_elem_of_nil in H]. apply file_hit_in in H as (p & Hp & I). eauto.
Qed.
End DocFacts.

(** ** Examples *)

Definition sample_tree : node :=
  Dir [("w", Dir [("MEMORY.md", File "tea is preferred"); ("secret.md", File "x");
                  ("memory", Dir [("a.md", File "green tea"); (".hidden.md", File "tea"); ("sub", Dir [("b.MD", File "none")])])])].
Definition by_code (a b : string) : bool := String.ltb a b.
Example collected :
  collectMemoryFiles "/" by_code sample_tree "/w" true = ["/w/MEMORY.md"; "/w/memory/a.md"; "/w/memory/sub/b.MD"].
Proof. vm_compute. reflexivity. Qed.
Definition ask_tea : value := VObj [("query", VStr "Tea")].
Definition tea_hits : value :=
  match memory_search "/" by_code sample_tree no_dates sample_ctx 0 ask_tea tea with Ok v => v | Throw _ => VNull end.
Lemma tea_search : memory_search "/" by_code sample_tree no_dates sample_ctx 0 ask_tea tea = Ok tea_hits.
Proof. vm_compute. reflexivity. Qed.
Example tea_found : map (get_prop "ref") (array_items (get_prop "results" tea_hits)) =
  [VStr "store:id-1"; VStr "file:MEMORY.md#L1"; VStr "file:memory/a.md#L1"].
Proof. vm_compute. reflexivity. Qed.
Lemma search_scoped_witness :
  exists hits, get_prop "results" tea_hits = VArr (map h_value hits) /\ length hits <= 20.
Proof.
  destruct (search_scoped "/" by_code sample_tree no_dates sample_ctx 0 ask_tea tea tea_hits tea_search) as (hits & R & L & _).
  exact (ex_intro _ hits (conj R L)).
Defined.
Lemma documents_confined_witness :
  exists c text, document "/" (resolve "/" "/w") c /\ "/w/MEMORY.md" = resolve "/" c /\ node_of "/" sample_tree c = Some (File text).
Proof.
  apply (proj1 (documents_confined "/" by_code sample_tree sample_ctx VNull) true "/w/MEMORY.md"). vm_compute. apply list_elem_of_here.
Defined.
