(* ===== verification/ToolResultContract.v ===== *)
(** * Shapes of tool results

    [src/src/agents/tool-result-contract.ts]: what the browser, the web tools and
    the mail tool return is brought to a fixed shape before the model sees it.
    A small type system of values ([ty], [has_ty]) states the shapes. *)

From stdpp Require Import base list sets strings.
From Stdlib Require Import Ascii Lia ZArith.
From S2P Require Import Prelude JsString JsMap JsValue.

Definition toStringValue (v : value) : string := to_string (nullish v (VStr "")).

Definition toNumberValue (v : value) (fallback : num) : num :=
  let parsed := to_number v in if isFinite parsed then parsed else fallback.

Definition toBooleanValue (v : value) (fallback : bool) : bool :=
  match v with
  | VBool b => b
  | VNull | VUndef => fallback
  | _ =>
      let normalized := toLowerCase (trim (to_string v)) in
      if (normalized =? "true")%string then true
      else if (normalized =? "false")%string then false
      else fallback
  end.

(** [toStringValue(row.k).trim()] and the other fields of a row. *)
Definition trimmed_prop (k : string) (row : value) : string := trim (toStringValue (get_prop k row)).
Definition field_trim (k : string) (row : value) : string * value := (k, VStr (trimmed_prop k row)).
Definition field_text (k : string) (row : value) : string * value := (k, VStr (toStringValue (get_prop k row))).
Definition field_num (k : string) (fallback : num) (row : value) : string * value :=
  (k, VNum (toNumberValue (get_prop k row) fallback)).
Definition field_bool (k : string) (row : value) : string * value :=
  (k, VBool (toBooleanValue (get_prop k row) false)).
(** [...(text ? { k: text } : {})] *)
Definition field_opt (k : string) (row : value) : list (string * value) :=
  if truthy (trimmed_prop k row) then [field_trim k row] else [].

Definition normalizeLink (entry : value) : option value :=
  if negb (is_object entry) then None
  else if negb (truthy (trimmed_prop "url" entry)) then None
  else Some (VObj [field_num "index" (NInt 0) entry; field_trim "text" entry; field_trim "url" entry]).

Definition normalizeRef (entry : value) : option value :=
  if negb (is_object entry) then None
  else if negb (truthy (trimmed_prop "ref" entry)) then None
  else Some (VObj ([field_trim "ref" entry; field_trim "kind" entry; field_trim "role" entry;
                    field_trim "name" entry] ++
                   field_opt "url" entry ++
                   (if isFinite (to_number (get_prop "formIndex" entry))
                    then [("formIndex", VNum (to_number (get_prop "formIndex" entry)))] else []) ++
                   field_opt "fieldName" entry ++ field_opt "method" entry ++ field_opt "selector" entry)).

(** [Array.isArray(v) ? v.map(f).filter(Boolean) : []] *)
Definition rows (f : value -> option value) (v : value) : list value := omap f (array_items v).
(** [Array.isArray(v) ? v.map((x) => toStringValue(x).trim()).filter(Boolean) : []] *)
Definition texts (v : value) : list value :=
  map VStr (List.filter truthy (map (fun x => trim (toStringValue x)) (array_items v))).

Section Contract.
(** [Date.now()] *)
Variable now : Z.

Definition normalizeSnapshot (snapshot : value) : value :=
  if negb (is_object snapshot) then VNull
  else VObj [field_num "capturedAt" (NInt now) snapshot; field_trim "url" snapshot; field_trim "title" snapshot;
             field_num "status" (NInt 0) snapshot; field_bool "ok" snapshot; field_trim "contentType" snapshot;
             field_bool "truncated" snapshot; field_num "bytes" (NInt 0) snapshot; field_text "text" snapshot;
             ("links", VArr (rows normalizeLink (get_prop "links" snapshot)));
             ("refs", VArr (rows normalizeRef (get_prop "refs" snapshot)))].

Definition normalizeBrowserResult (result : value) : value :=
  if negb (is_object result) then result
  else
    let out := spread result [] in
    let out := if has_prop "snapshot" out
               then with_prop "snapshot" (normalizeSnapshot (get_prop "snapshot" out)) out else out in
    let out := if has_prop "openedSnapshot" out
               then with_prop "openedSnapshot" (normalizeSnapshot (get_prop "openedSnapshot" out)) out else out in
    if is_array (get_prop "refs" out)
    then with_prop "refs" (VArr (rows normalizeRef (get_prop "refs" out))) out else out.

Definition search_item (entry : value) : option value :=
  if negb (is_object entry) then None
  else if negb (truthy (trimmed_prop "url" entry)) then None
  else Some (VObj [field_trim "title" entry; field_trim "url" entry; field_trim "description" entry]).

Definition product_price (price : value) : value :=
  VObj [field_num "amount" (NInt 0) price; field_trim "currency" price; field_trim "display" price].
Definition product_item (entry : value) : option value :=
  if negb (is_object entry) then None
  else if negb (truthy (trimmed_prop "url" entry)) then None
  else Some (VObj ([field_trim "title" entry; field_trim "url" entry; field_trim "description" entry;
                    field_num "relevanceScore" (NInt 0) entry] ++
                   (if is_object (get_prop "price" entry)
                    then [("price", product_price (get_prop "price" entry))] else []))).

Definition normalizeWebSearchResult (row : value) : value :=
  if negb (is_object row) then row
  else
    let results := rows search_item (get_prop "results" row) in
    let products := rows product_item (get_prop "products" row) in
    spread row ([field_trim "provider" row; field_trim "query" row; field_trim "queryUsed" row;
                 field_num "count" (NInt (Z.of_nat (length results))) row; ("results", VArr results)] ++
                (if (0 <? length products)%nat then [("products", VArr products)] else [])).

Definition normalizeWebFetchResult (row : value) : value :=
  if negb (is_object row) then row
  else spread row [field_bool "ok" row; field_num "status" (NInt 0) row; field_trim "url" row;
                   field_trim "contentType" row; field_bool "truncated" row; field_num "bytes" (NInt 0) row;
                   field_text "text" row].

Definition normalizeEmailMessage (row : value) : option value :=
  if negb (is_object row) then None
  else Some (VObj [field_num "sequence" (NInt 0) row; field_num "uid" (NInt 0) row; field_trim "subject" row;
                   field_trim "from" row; field_trim "to" row; field_trim "date" row; field_text "snippet" row;
                   field_trim "messageId" row; field_trim "inReplyTo" row; field_trim "threadKey" row;
                   ("references", VArr (texts (get_prop "references" row)));
                   ("flags", VArr (texts (get_prop "flags" row))); field_num "size" (NInt 0) row]).

Definition normalizeEmailResult (row : value) : value :=
  if negb (is_object row) then row
  else
    let messages := rows normalizeEmailMessage (get_prop "messages" row) in
    spread row [field_bool "ok" row; field_trim "action" row; field_trim "service" row; field_trim "provider" row;
                field_trim "reason" row; field_trim "nextStep" row; field_trim "loginUrl" row;
                field_bool "requiresBrowserLogin" row; field_num "count" (NInt (Z.of_nat (length messages))) row;
                field_num "acceptedCount" (NInt 0) row; ("messages", VArr messages);
                ("accepted", VArr (texts (get_prop "accepted" row))); ("to", VArr (texts (get_prop "to" row)));
                ("cc", VArr (texts (get_prop "cc" row))); ("bcc", VArr (texts (get_prop "bcc" row)))].

Definition applyToolResultContract (toolName : string) (result : value) : value :=
  let normalizedName := toLowerCase (trim toolName) in
  if (normalizedName =? "browser")%string then normalizeBrowserResult result
  else if (normalizedName =? "web_search")%string then normalizeWebSearchResult result
  else if (normalizedName =? "web_fetch")%string then normalizeWebFetchResult result
  else if (normalizedName =? "email")%string then normalizeEmailResult result
  else result.
End Contract.

(** ** Types of values *)

Inductive ty : Type :=
| TStr                                    (* a string *)
| TTrim                                   (* a string without outer white space *)
| TFull                                   (* the same, and not empty *)
| TNum                                    (* a finite number *)
| TBool
| TNullable (t : ty)
| TArr (t : ty)
| TIfArr (t : ty)                         (* if it is an array, one of such items *)
| TRec (required optional : list (string * ty)).   (* an object; other fields are free *)

Fixpoint has_ty (t : ty) (v : value) {struct t} : bool :=
  match t with
  | TStr => match v with VStr _ => true | _ => false end
  | TTrim => match v with VStr s => (trim s =? s)%string | _ => false end
  | TFull => match v with VStr s => (trim s =? s)%string && truthy s | _ => false end
  | TNum => match v with VNum n => isFinite n | _ => false end
  | TBool => match v with VBool _ => true | _ => false end
  | TNullable t => match v with VNull => true | _ => has_ty t v end
  | TArr t => match v with VArr l => forallb (has_ty t) l | _ => false end
  | TIfArr t => match v with VArr l => forallb (has_ty t) l | _ => true end
  | TRec required optional =>
      match v with
      | VObj _ =>
          (fix all (fs : list (string * ty)) : bool :=
             match fs with [] => true | (k, t) :: fs' => has_ty t (get_prop k v) && all fs' end) required &&
          (fix all (fs : list (string * ty)) : bool :=
             match fs with
             | [] => true
             | (k, t) :: fs' => (negb (has_prop k v) || has_ty t (get_prop k v)) && all fs'
             end) optional
      | _ => false
      end
  end.

Definition link_ty : ty := TRec [("index", TNum); ("text", TTrim); ("url", TFull)] [].
Definition ref_ty : ty :=
  TRec [("ref", TFull); ("kind", TTrim); ("role", TTrim); ("name", TTrim)]
       [("url", TFull); ("formIndex", TNum); ("fieldName", TFull); ("method", TFull); ("selector", TFull)].
Definition snapshot_ty : ty :=
  TRec [("capturedAt", TNum); ("url", TTrim); ("title", TTrim); ("status", TNum); ("ok", TBool);
        ("contentType", TTrim); ("truncated", TBool); ("bytes", TNum); ("text", TStr);
        ("links", TArr link_ty); ("refs", TArr ref_ty)] [].
Definition browser_ty : ty :=
  TRec [] [("snapshot", TNullable snapshot_ty); ("openedSnapshot", TNullable snapshot_ty); ("refs", TIfArr ref_ty)].
Definition search_ty : ty :=
  TRec [("provider", TTrim); ("query", TTrim); ("queryUsed", TTrim); ("count", TNum);
        ("results", TArr (TRec [("title", TTrim); ("url", TFull); ("description", TTrim)] []))] [].
Definition product_ty : ty :=
  TRec [("title", TTrim); ("url", TFull); ("description", TTrim); ("relevanceScore", TNum)]
       [("price", TRec [("amount", TNum); ("currency", TTrim); ("display", TTrim)] [])].
Definition fetch_ty : ty :=
  TRec [("ok", TBool); ("status", TNum); ("url", TTrim); ("contentType", TTrim); ("truncated", TBool);
        ("bytes", TNum); ("text", TStr)] [].
Definition message_ty : ty :=
  TRec [("sequence", TNum); ("uid", TNum); ("subject", TTrim); ("from", TTrim); ("to", TTrim); ("date", TTrim);
        ("snippet", TStr); ("messageId", TTrim); ("inReplyTo", TTrim); ("threadKey", TTrim);
        ("references", TArr TFull); ("flags", TArr TFull); ("size", TNum)] [].
Definition email_ty : ty :=
  TRec [("ok", TBool); ("action", TTrim); ("service", TTrim); ("provider", TTrim); ("reason", TTrim);
        ("nextStep", TTrim); ("loginUrl", TTrim); ("requiresBrowserLogin", TBool); ("count", TNum);
        ("acceptedCount", TNum); ("messages", TArr message_ty); ("accepted", TArr TFull); ("to", TArr TFull);
        ("cc", TArr TFull); ("bcc", TArr TFull)] [].

(** The type of a tool's results, for the tools under contract. *)
Definition result_ty (toolName : string) : option ty :=
  mget (toLowerCase (trim toolName))
    [("browser", browser_ty); ("web_search", search_ty); ("web_fetch", fetch_ty); ("email", email_ty)].

(** ** Spread objects *)

Lemma mset_same {A} (k : string) (a : A) m : mget k m = Some a -> mset k a m = m.
Proof.
  induction m as [|[j u] m IH]; simpl; [done|]. case_bool_decide; subst; [by intros [= ->]|].
  intros G. f_equal. by apply IH.
Qed.

Lemma spread_get_ne k v fields : k ∉ map fst fields -> mget k (object_entries (spread v fields)) = mget k (object_entries v).
Proof.
  unfold spread. simpl. generalize (object_entries v) as ps. induction fields as [|[j u] fields IH]; intros ps N; [done|].
  simpl in *. rewrite IH by set_solver. apply mget_mset_ne. set_solver.
Qed.

Lemma spread_get k w v fields :
  NoDup (map fst fields) -> (k, w) ∈ fields -> mget k (object_entries (spread v fields)) = Some w.
Proof.
  unfold spread. simpl. generalize (object_entries v) as ps. induction fields as [|[j u] fields IH]; intros ps N E.
  - by apply not_elem_of_nil in E.
  - simpl in *. apply NoDup_cons in N as [Nj N]. apply elem_of_cons in E as [[= -> ->]|E]; [|by apply IH].
    pose proof (spread_get_ne j (VObj (mset j u ps)) fields Nj) as G. unfold spread in G. simpl in G.
    rewrite G. apply mget_mset_eq.
Qed.

Lemma spread_prop k w v fields : NoDup (map fst fields) -> (k, w) ∈ fields -> get_prop k (spread v fields) = w.
Proof. intros N E. pose proof (spread_get k w v fields N E) as G. simpl in *. by rewrite G. Qed.

(** Writing the same fields twice changes nothing. *)
Lemma spread_twice v fields : NoDup (map fst fields) -> spread (spread v fields) fields = spread v fields.
Proof.
  intros N. assert (forall f, f ∈ fields -> mget f.1 (object_entries (spread v fields)) = Some f.2) as G.
  { intros [k w] E. by apply spread_get. }
  unfold spread at 1. unfold spread in G |- *. simpl in *. f_equal. clear N.
  revert G. generalize (fold_left (fun ps f => mset f.1 f.2 ps) fields (object_entries v)) as ps. intros ps G.
  induction fields as [|f fields IH]; simpl; [done|].
  rewrite (mset_same f.1 f.2 ps) by (apply G; set_solver). apply IH. intros f' E. apply G. set_solver.
Qed.

(** ** Fields *)

Lemma toStringValue_str s : toStringValue (VStr s) = s.
Proof. done. Qed.
Lemma toNumberValue_finite v d : isFinite d = true -> isFinite (toNumberValue v d) = true.
Proof. intros D. unfold toNumberValue. by destruct (isFinite (to_number v)) eqn:E. Qed.
Lemma toNumberValue_num n d : isFinite n = true -> toNumberValue (VNum n) d = n.
Proof. intros F. unfold toNumberValue. simpl. by rewrite F. Qed.
Lemma trim_typed s : has_ty TTrim (VStr (trim s)) = true.
Proof. simpl. by rewrite trim_idemp, String.eqb_refl. Qed.
Lemma full_typed s : truthy (trim s) = true -> has_ty TFull (VStr (trim s)) = true.
Proof. intros T. simpl. by rewrite trim_idemp, String.eqb_refl, T. Qed.
Lemma texts_typed v : has_ty (TArr TFull) (VArr (texts v)) = true.
Proof.
  cbn [has_ty]. apply forallb_forall. unfold texts. intros y (s & <- & [H T]%filter_In)%in_map_iff.
  apply in_map_iff in H as (x & <- & _). by apply full_typed.
Qed.
Lemma rows_typed f t v : (forall x y, f x = Some y -> has_ty t y = true) -> has_ty (TArr t) (VArr (rows f v)) = true.
Proof.
  intros K. cbn [has_ty]. apply forallb_forall. intros y H. apply list_elem_of_In in H.
  unfold rows in H. apply list_elem_of_omap in H as (x & _ & E). by eapply K.
Qed.

Lemma trimmed_prop_trim k x : trim (trimmed_prop k x) = trimmed_prop k x.
Proof. apply trim_idemp. Qed.

(** Decides the type of an object built from fields. *)
Ltac typed_fields :=
  cbn [has_ty]; lookups; rewrite ?trimmed_prop_trim, ?String.eqb_refl, ?toNumberValue_finite by done; cbn [andb orb negb].

(** A normaliser of rows whose results have a type and are left alone by it. *)
Record normal (f : value -> option value) (t : ty) : Prop := {
  nm_ty : forall x y, f x = Some y -> has_ty t y = true;
  nm_id : forall x y, f x = Some y -> f y = Some y;
}.

(** Forgets where the fields of a normalised row come from, keeping that texts
    are trimmed and numbers finite. *)
Ltac forget_fields x :=
  repeat match goal with
  | |- context [trimmed_prop ?k x] =>
      let E := fresh "E" in let s := fresh "s" in
      pose proof (trimmed_prop_trim k x) as E; set (s := trimmed_prop k x) in *; clearbody s
  | |- context [toNumberValue (get_prop ?k x) ?d] =>
      let E := fresh "E" in let n := fresh "n" in
      pose proof (toNumberValue_finite (get_prop k x) d eq_refl) as E;
      set (n := toNumberValue (get_prop k x) d) in *; clearbody n
  end.
(** Normalising a normalised row again. *)
Ltac normal_again :=
  unfold trimmed_prop; lookups; unfold toStringValue; cbn [nullish to_string];
  repeat match goal with
  | H : trim ?s = ?s |- _ => rewrite !H; clear H
  | H : isFinite ?n = true |- _ => rewrite (toNumberValue_num n _ H); clear H
  | H : truthy ?s = true |- _ => rewrite H; clear H
  end; cbn [negb is_object].

(** Proves a normaliser normal once its conditions are decided. *)
Ltac solve_normal x :=
  intros [= <-]; unfold field_num, field_trim, field_text;
  first [ typed_fields; repeat match goal with H : ?b = true |- _ => rewrite H; clear H end; done
        | forget_fields x; normal_again; done ].

Lemma link_normal : normal normalizeLink link_ty.
Proof.
  unfold normalizeLink, link_ty. split; intros x y; destruct (negb (is_object x)); try done;
    destruct (truthy (trimmed_prop "url" x)) eqn:T; try done; solve_normal x.
Qed.

Lemma search_normal : normal search_item (TRec [("title", TTrim); ("url", TFull); ("description", TTrim)] []).
Proof.
  unfold search_item. split; intros x y; destruct (negb (is_object x)); try done;
    destruct (truthy (trimmed_prop "url" x)) eqn:T; try done; solve_normal x.
Qed.

Lemma product_normal : normal product_item product_ty.
Proof.
  unfold product_item, product_ty, product_price. split; intros x y; destruct (negb (is_object x)); try done;
    destruct (truthy (trimmed_prop "url" x)) eqn:T; try done;
    destruct (is_object (get_prop "price" x)) eqn:O; cbn [app].
  - intros [= <-]; unfold field_num, field_trim, field_text. typed_fields. by rewrite T.
  - intros [= <-]; unfold field_num, field_trim, field_text. typed_fields. by rewrite T.
  - intros [= <-]. unfold field_num, field_trim, field_text. generalize (get_prop "price" x) as p. intros p.
    forget_fields x. forget_fields p. normal_again. done.
  - solve_normal x.
Qed.

Lemma texts_again v : texts (VArr (texts v)) = texts v.
Proof.
  unfold texts. cbn [array_items]. rewrite map_map. f_equal.
  set (l := List.filter truthy (map (fun x => trim (toStringValue x)) (array_items v))).
  assert (forall s, In s l -> trim s = s /\ truthy s = true) as K.
  { intros s [(x & <- & _)%in_map_iff T]%filter_In. by rewrite trim_idemp. }
  clearbody l. induction l as [|s l IH]; [done|]. simpl. destruct (K s (or_introl eq_refl)) as [E T].
  rewrite toStringValue_str, E, T. f_equal. apply IH. intros s' I. apply K. by right.
Qed.

Lemma rows_again f t v : normal f t -> rows f (VArr (rows f v)) = rows f v.
Proof.
  intros [_ K]. unfold rows. cbn [array_items]. induction (array_items v) as [|x l IH]; [done|].
  simpl. destruct (f x) as [y|] eqn:E; simpl; [|done]. rewrite (K x y E). f_equal. exact IH.
Qed.

Lemma normal_typed f t v : normal f t -> has_ty (TArr t) (VArr (rows f v)) = true.
Proof. intros [K _]. by apply rows_typed. Qed.

Lemma message_normal : normal normalizeEmailMessage message_ty.
Proof.
  unfold normalizeEmailMessage, message_ty. split; intros x y; destruct (negb (is_object x)); try done.
  - intros [= <-]; unfold field_num, field_trim, field_text. typed_fields.
    pose proof (texts_typed (get_prop "references" x)) as R. pose proof (texts_typed (get_prop "flags" x)) as F.
    cbn [has_ty] in R, F. rewrite R, F. done.
  - intros [= <-]; unfold field_num, field_trim, field_text. forget_fields x. normal_again.
    by rewrite !texts_again.
Qed.

(** The optional fields of a reference. *)
Lemma mget_app {A} (k : string) (a b : list (string * A)) :
  mget k (a ++ b) = match mget k a with Some v => Some v | None => mget k b end.
Proof. induction a as [|[j u] a IH]; simpl; [done|]. by case_bool_decide. Qed.

Lemma mget_field_opt k j x :
  mget k (field_opt j x) =
  if bool_decide (k = j) then (if truthy (trimmed_prop j x) then Some (VStr (trimmed_prop j x)) else None) else None.
Proof. unfold field_opt. destruct (truthy _); [simpl; by case_bool_decide|by case_bool_decide]. Qed.

Lemma mget_if {A} (b : bool) (k j : string) (v : A) :
  mget k (if b then [(j, v)] else []) = if bool_decide (k = j) then (if b then Some v else None) else None.
Proof. destruct b; [simpl; by case_bool_decide|by case_bool_decide]. Qed.

Ltac in_fields := repeat first [apply list_elem_of_here | apply list_elem_of_further].
Ltac ref_lookups :=
  cbn [app]; lookups; rewrite ?mget_app, ?mget_field_opt, ?mget_if; lookups.

Lemma ref_typed x y : normalizeRef x = Some y -> has_ty ref_ty y = true.
Proof.
  unfold normalizeRef, ref_ty. destruct (negb (is_object x)); [done|].
  destruct (truthy (trimmed_prop "ref" x)) eqn:T; [|done]. cbn [negb]. intros [= <-]. cbn [has_ty].
  unfold field_trim. ref_lookups. rewrite ?trimmed_prop_trim, ?String.eqb_refl, T. cbn [andb].
  rewrite !andb_true_iff. repeat split;
    match goal with
    | |- context [if truthy (trimmed_prop ?k x) then _ else _] => destruct (truthy (trimmed_prop k x)) eqn:T'
    | |- context [if isFinite ?n then _ else _] => destruct (isFinite n) eqn:T'
    end; try done; cbn [default from_option id negb orb]; by rewrite ?trimmed_prop_trim, ?String.eqb_refl, ?T'.
Qed.

Lemma ref_again x y : normalizeRef x = Some y -> normalizeRef y = Some y.
Proof.
  intros H. rewrite <- H. revert H. unfold normalizeRef at 1. destruct (negb (is_object x)) eqn:O; [done|].
  destruct (truthy (trimmed_prop "ref" x)) eqn:T; [|done]. cbn [negb]. intros [= <-].
  match goal with |- normalizeRef ?z = _ => set (y := z) in * end.
  assert (forall k, k ∈ ["ref"; "kind"; "role"; "name"; "url"; "fieldName"; "method"; "selector"] ->
    trimmed_prop k y = trimmed_prop k x) as P.
  { intros k. subst y. rewrite !elem_of_cons. intros K.
    destruct K as [->|[->|[->|[->|[->|[->|[->|[->|K%not_elem_of_nil]]]]]]]]; [..|done];
      unfold trimmed_prop at 1, field_trim; ref_lookups; unfold trimmed_prop;
      try match goal with |- context [truthy ?s] => destruct (truthy s) eqn:T' end;
      cbn [default from_option id]; rewrite ?toStringValue_str, ?trim_idemp; try done;
      apply truthy_false in T'; by rewrite T'. }
  assert (isFinite (to_number (get_prop "formIndex" y)) = isFinite (to_number (get_prop "formIndex" x)) /\
    (isFinite (to_number (get_prop "formIndex" x)) = true ->
     to_number (get_prop "formIndex" y) = to_number (get_prop "formIndex" x))) as [F1 F2].
  { subst y. unfold field_trim. ref_lookups. destruct (isFinite (to_number (get_prop "formIndex" x))) eqn:F; [|done].
    cbn [default from_option id to_number]. by rewrite ?F. }
  unfold normalizeRef, field_opt, field_trim. rewrite O, !P, F1 by in_fields. change (is_object y) with true. cbn [negb].
  destruct (isFinite (to_number (get_prop "formIndex" x))); [|done]. by rewrite F2.
Qed.

Lemma ref_normal : normal normalizeRef ref_ty.
Proof. split; [apply ref_typed|apply ref_again]. Qed.

(** ** Snapshots and results *)

Lemma snapshot_typed now v : has_ty (TNullable snapshot_ty) (normalizeSnapshot now v) = true.
Proof.
  unfold normalizeSnapshot, snapshot_ty. destruct (negb (is_object v)); [done|].
  unfold field_num, field_trim, field_text, field_bool. typed_fields.
  pose proof (normal_typed _ _ (get_prop "links" v) link_normal) as L.
  pose proof (normal_typed _ _ (get_prop "refs" v) ref_normal) as R.
  cbn [has_ty] in L, R. rewrite L, R. done.
Qed.

Lemma snapshot_again now now' v : normalizeSnapshot now (normalizeSnapshot now' v) = normalizeSnapshot now' v.
Proof.
  unfold normalizeSnapshot. destruct (negb (is_object v)) eqn:O; [done|].
  unfold field_num, field_trim, field_text, field_bool. forget_fields v. normal_again.
  by rewrite (rows_again _ _ _ link_normal), (rows_again _ _ _ ref_normal).
Qed.

(** ** Results *)

Lemma has_rec req opt ps :
  has_ty (TRec req opt) (VObj ps) = true <->
  (forall k t, (k, t) ∈ req -> has_ty t (get_prop k (VObj ps)) = true) /\
  (forall k t, (k, t) ∈ opt -> has_prop k (VObj ps) = true -> has_ty t (get_prop k (VObj ps)) = true).
Proof.
  cbn [has_ty]. rewrite andb_true_iff. f_equiv.
  - induction req as [|[k t] req IH]; [set_solver|]. rewrite andb_true_iff, IH. set_solver.
  - induction opt as [|[k t] opt IH]; [set_solver|]. rewrite andb_true_iff, orb_true_iff, negb_true_iff, IH.
    split; [intros [H K] j u; rewrite elem_of_cons; intros [[= -> ->]|E] P; [destruct H; congruence|by apply K]|].
    intros H. split; [|intros j u E; apply H; set_solver].
    destruct (has_prop k (VObj ps)) eqn:P; [right; apply H; set_solver|by left].
Qed.

Lemma spread_typed req v fields :
  NoDup (map fst fields) -> forallb (fun k => bool_decide (k ∈ map fst fields)) (map fst req) = true ->
  has_ty (TRec req []) (VObj fields) = true -> has_ty (TRec req []) (spread v fields) = true.
Proof.
  intros N K. unfold spread. rewrite !has_rec. intros [H _]. split; [|set_solver]. intros k t E.
  specialize (H k t E). assert (k ∈ map fst fields) as F.
  { rewrite forallb_forall in K. apply (bool_decide_eq_true_1 _), K. apply in_map_iff. exists (k, t).
    split; [done|]. by apply list_elem_of_In. }
  apply list_elem_of_fmap in F as ([j w] & -> & F). cbn [fst] in *.
  assert (get_prop j (VObj fields) = w) as G.
  { cbn [get_prop]. by rewrite (In_mget j w fields N) by (by apply list_elem_of_In). }
  rewrite G in H. pose proof (spread_prop j w v fields N F) as G'. unfold spread in G'. by rewrite G'.
Qed.

Section Spread.
Context (v : value) (fs : list (string * value)) (N : NoDup (map fst fs)).

Lemma field_trim_spread k : field_trim k v ∈ fs -> field_trim k (spread v fs) = field_trim k v.
Proof.
  intros E. unfold field_trim, trimmed_prop at 1. rewrite (spread_prop k _ v fs N E).
  by rewrite toStringValue_str, trimmed_prop_trim.
Qed.
Lemma field_text_spread k : field_text k v ∈ fs -> field_text k (spread v fs) = field_text k v.
Proof. intros E. unfold field_text at 1. by rewrite (spread_prop k _ v fs N E). Qed.
Lemma field_bool_spread k : field_bool k v ∈ fs -> field_bool k (spread v fs) = field_bool k v.
Proof. intros E. unfold field_bool at 1. by rewrite (spread_prop k _ v fs N E). Qed.
Lemma field_num_spread k d d' :
  isFinite d = true -> field_num k d v ∈ fs -> field_num k d' (spread v fs) = field_num k d v.
Proof.
  intros F E. unfold field_num at 1. rewrite (spread_prop k _ v fs N E).
  by rewrite toNumberValue_num by (by apply toNumberValue_finite).
Qed.
Lemma rows_spread k f t :
  normal f t -> (k, VArr (rows f (get_prop k v))) ∈ fs -> rows f (get_prop k (spread v fs)) = rows f (get_prop k v).
Proof. intros M E. rewrite (spread_prop k _ v fs N E). by eapply rows_again. Qed.
Lemma texts_spread k :
  (k, VArr (texts (get_prop k v))) ∈ fs -> texts (get_prop k (spread v fs)) = texts (get_prop k v).
Proof. intros E. rewrite (spread_prop k _ v fs N E). apply texts_again. Qed.
End Spread.

Ltac field_keys := unfold field_num, field_trim, field_text, field_bool; cbn [map fst app]; vm_compute; reflexivity.
Ltac distinct_fields := apply (bool_decide_eq_true_1 _); field_keys.
Ltac fields_again :=
  repeat first [ rewrite field_trim_spread by (assumption || in_fields)
               | rewrite field_text_spread by (assumption || in_fields)
               | rewrite field_bool_spread by (assumption || in_fields)
               | rewrite texts_spread by (assumption || in_fields)
               | match goal with
                 | |- context [field_num ?k ?d (spread ?v ?fs)] =>
                     rewrite (field_num_spread v fs ltac:(assumption) k d d eq_refl ltac:(in_fields))
                 end ].

Lemma fetch_typed v : is_object v = true -> has_ty fetch_ty (normalizeWebFetchResult v) = true.
Proof.
  intros O. unfold normalizeWebFetchResult. rewrite O. cbn [negb]. apply spread_typed; [distinct_fields|field_keys|].
  unfold field_num, field_trim, field_text, field_bool. by typed_fields.
Qed.
Lemma fetch_again v : normalizeWebFetchResult (normalizeWebFetchResult v) = normalizeWebFetchResult v.
Proof.
  unfold normalizeWebFetchResult at 2 3. destruct (negb (is_object v)) eqn:O; [unfold normalizeWebFetchResult; by rewrite O|].
  match goal with |- normalizeWebFetchResult (spread v ?f) = _ => set (fs := f) end.
  assert (NoDup (map fst fs)) as N by (subst fs; distinct_fields).
  unfold normalizeWebFetchResult. change (is_object (spread v fs)) with true. cbn [negb].
  subst fs. fields_again. by apply spread_twice.
Qed.

Lemma email_typed v : is_object v = true -> has_ty email_ty (normalizeEmailResult v) = true.
Proof.
  intros O. unfold normalizeEmailResult. rewrite O. cbn [negb]. apply spread_typed; [distinct_fields|field_keys|].
  unfold field_num, field_trim, field_text, field_bool.
  pose proof (normal_typed _ _ (get_prop "messages" v) message_normal) as M.
  pose proof (fun k => texts_typed (get_prop k v)) as X. cbn [has_ty] in M, X.
  typed_fields. by rewrite M, !X.
Qed.
Lemma email_again v : normalizeEmailResult (normalizeEmailResult v) = normalizeEmailResult v.
Proof.
  unfold normalizeEmailResult at 2 3. destruct (negb (is_object v)) eqn:O; [unfold normalizeEmailResult; by rewrite O|].
  match goal with |- normalizeEmailResult (spread v ?f) = _ => set (fs := f) end.
  assert (NoDup (map fst fs)) as N by (subst fs; distinct_fields).
  unfold normalizeEmailResult. change (is_object (spread v fs)) with true. cbn [negb].
  subst fs. rewrite (rows_spread _ _ N "messages" _ _ message_normal) by in_fields.
  fields_again. by apply spread_twice.
Qed.

Lemma search_typed v : is_object v = true -> has_ty search_ty (normalizeWebSearchResult v) = true.
Proof.
  intros O. unfold normalizeWebSearchResult. rewrite O. cbn [negb].
  pose proof (normal_typed _ _ (get_prop "results" v) search_normal) as M. cbn [has_ty] in M.
  destruct (0 <? _)%nat; cbn [app]; (apply spread_typed; [distinct_fields|field_keys|]);
    unfold field_num, field_trim, field_text, field_bool; typed_fields; by rewrite M.
Qed.
Lemma search_again v : normalizeWebSearchResult (normalizeWebSearchResult v) = normalizeWebSearchResult v.
Proof.
  unfold normalizeWebSearchResult at 2 3.
  destruct (negb (is_object v)) eqn:O; [unfold normalizeWebSearchResult; by rewrite O|]. cbv zeta.
  set (products := rows product_item (get_prop "products" v)).
  destruct (0 <? length products)%nat eqn:P; cbn [app];
    match goal with |- normalizeWebSearchResult (spread v ?f) = _ => set (fs := f) end;
    assert (NoDup (map fst fs)) as N by (subst fs; distinct_fields);
    unfold normalizeWebSearchResult; change (is_object (spread v fs)) with true; cbn [negb]; cbv zeta.
  - subst fs products. rewrite (rows_spread _ _ N "results" _ _ search_normal) by in_fields.
    rewrite (rows_spread _ _ N "products" _ _ product_normal) by in_fields.
    rewrite P. cbn [app]. fields_again. by apply spread_twice.
  - assert (rows product_item (get_prop "products" (spread v fs)) = products) as ->.
    { subst products. f_equal. rewrite <- !object_entries_prop by done. f_equal. apply spread_get_ne.
      apply (bool_decide_eq_true_1 _). subst fs. field_keys. }
    rewrite P. subst fs. rewrite (rows_spread _ _ N "results" _ _ search_normal) by in_fields.
    cbn [app]. fields_again. by apply spread_twice.
Qed.

(** The browser's result: only the snapshots and the references change. *)
Definition replace_if (b : bool) (k : string) (f : value -> value) (v : value) : value :=
  if b then with_prop k (f (get_prop k v)) v else v.

Lemma normalizeBrowser_eq now v :
  is_object v = true ->
  normalizeBrowserResult now v =
  (let out := VObj (object_entries v) in
   let out := replace_if (has_prop "snapshot" out) "snapshot" (normalizeSnapshot now) out in
   let out := replace_if (has_prop "openedSnapshot" out) "openedSnapshot" (normalizeSnapshot now) out in
   replace_if (is_array (get_prop "refs" out)) "refs" (fun r => VArr (rows normalizeRef r)) out).
Proof. intros O. unfold normalizeBrowserResult, replace_if, spread. rewrite O. reflexivity. Qed.

Lemma replace_has b k j f ps :
  k <> j -> has_prop j (replace_if b k f (VObj ps)) = has_prop j (VObj ps) /\
  get_prop j (replace_if b k f (VObj ps)) = get_prop j (VObj ps).
Proof.
  intros N. unfold replace_if. destruct b; [|done].
  by rewrite has_prop_with_prop_ne, get_prop_with_prop_ne by done.
Qed.
Lemma replace_obj b k f ps : exists ps', replace_if b k f (VObj ps) = VObj ps'.
Proof. unfold replace_if. destruct b; simpl; eauto. Qed.

Record browser_normal (now : Z) (v : value) : Prop := {
  bn_obj : exists ps, v = VObj ps;
  bn_snap : has_prop "snapshot" v = true -> exists w, get_prop "snapshot" v = normalizeSnapshot now w;
  bn_open : has_prop "openedSnapshot" v = true -> exists w, get_prop "openedSnapshot" v = normalizeSnapshot now w;
  bn_refs : is_array (get_prop "refs" v) = true -> exists w, get_prop "refs" v = VArr (rows normalizeRef w);
}.

Lemma replace_self b k f ps :
  (b = true -> exists w, get_prop k (VObj ps) = w /\ has_prop k (VObj ps) = true /\ f w = w) ->
  replace_if b k f (VObj ps) = VObj ps.
Proof.
  intros H. unfold replace_if. destruct b; [|done]. destruct (H eq_refl) as (w & <- & P & E).
  rewrite E. by apply with_prop_same.
Qed.

Lemma browser_normal_id now now' v : browser_normal now v -> normalizeBrowserResult now' v = v.
Proof.
  intros [[ps ->] S O R]. rewrite normalizeBrowser_eq by done. cbn [object_entries]. cbv zeta.
  rewrite (replace_self _ "snapshot"), (replace_self _ "openedSnapshot"), (replace_self _ "refs"); [done|..].
  - intros A. destruct (R A) as [w E]. eexists. split; [reflexivity|]. rewrite E.
    split; [apply (has_prop_get _ _ _ E); done|]. f_equal. apply (rows_again _ _ _ ref_normal).
  - intros P. destruct (O P) as [w E]. eexists. split; [reflexivity|]. rewrite E.
    split; [done|]. apply snapshot_again.
  - intros P. destruct (S P) as [w E]. eexists. split; [reflexivity|]. rewrite E. split; [done|]. apply snapshot_again.
Qed.

Lemma replace_get b k f ps :
  get_prop k (replace_if b k f (VObj ps)) = (if b then f (get_prop k (VObj ps)) else get_prop k (VObj ps)).
Proof. unfold replace_if. destruct b; [apply get_prop_with_prop_eq|done]. Qed.
Lemma replace_has_self b k f ps :
  has_prop k (replace_if b k f (VObj ps)) = b || has_prop k (VObj ps).
Proof.
  unfold replace_if. destruct b; [|done]. cbn [with_prop has_prop]. unfold mhas. by rewrite mget_mset_eq.
Qed.

Lemma browser_after now v : is_object v = true -> browser_normal now (normalizeBrowserResult now v).
Proof.
  intros O. rewrite normalizeBrowser_eq by done. cbv zeta. generalize (object_entries v) as ps. intros ps.
  set (o1 := replace_if _ "snapshot" _ _). destruct (replace_obj (has_prop "snapshot" (VObj ps)) "snapshot" (normalizeSnapshot now) ps) as [p1 E1].
  fold o1 in E1. rewrite E1.
  set (o2 := replace_if _ "openedSnapshot" _ _).
  destruct (replace_obj (has_prop "openedSnapshot" (VObj p1)) "openedSnapshot" (normalizeSnapshot now) p1) as [p2 E2].
  fold o2 in E2. rewrite E2.
  destruct (replace_obj (is_array (get_prop "refs" (VObj p2))) "refs" (fun r => VArr (rows normalizeRef r)) p2) as [p3 E3].
  split; [eauto|..].
  - destruct (replace_has (is_array (get_prop "refs" (VObj p2))) "refs" "snapshot" (fun r => VArr (rows normalizeRef r)) p2) as [Ha G]; [done|].
    rewrite Ha, G, <- E2. subst o2.
    destruct (replace_has (has_prop "openedSnapshot" (VObj p1)) "openedSnapshot" "snapshot" (normalizeSnapshot now) p1) as [Hb G']; [done|].
    rewrite Hb, G', <- E1. subst o1. rewrite replace_has_self, replace_get.
    destruct (has_prop "snapshot" (VObj ps)); [eauto|done].
  - destruct (replace_has (is_array (get_prop "refs" (VObj p2))) "refs" "openedSnapshot" (fun r => VArr (rows normalizeRef r)) p2) as [Ha G]; [done|].
    rewrite Ha, G, <- E2. subst o2. rewrite replace_has_self, replace_get.
    destruct (has_prop "openedSnapshot" (VObj p1)); [eauto|done].
  - rewrite replace_get. destruct (is_array (get_prop "refs" (VObj p2))) eqn:A; [eauto|congruence].
Qed.

Lemma browser_typed now v : is_object v = true -> has_ty browser_ty (normalizeBrowserResult now v) = true.
Proof.
  intros O. destruct (browser_after now v O) as [[ps E] HS P R]. rewrite E in *. apply has_rec.
  split; [set_solver|]. intros k t. rewrite !elem_of_cons. intros [[= -> ->]|[[= -> ->]|[[= -> ->]|K%not_elem_of_nil]]] Has; [..|done].
  - destruct (HS Has) as [w ->]. apply snapshot_typed.
  - destruct (P Has) as [w ->]. apply snapshot_typed.
  - destruct (get_prop "refs" (VObj ps)) eqn:G; try done. destruct (R eq_refl) as [w W].
    rewrite W. apply (normal_typed _ _ _ ref_normal).
Qed.
Lemma browser_again now now' v :
  normalizeBrowserResult now' (normalizeBrowserResult now v) = normalizeBrowserResult now v.
Proof.
  destruct (is_object v) eqn:O; [by apply (browser_normal_id now), browser_after|].
  unfold normalizeBrowserResult. rewrite O. cbn [negb]. by rewrite O.
Qed.

(** ** The contract *)

(** C31: a tool under contract (browser, web_search, web_fetch, email, in any case
    and with spaces around) that returns an object hands the model a value of the
    tool's result type, whatever fields the tool wrote; a result of these tools
    that is not an object, and every result of any other tool, is passed on
    unchanged. *)
Theorem contract_typed now toolName v :
  (toLowerCase (trim toolName) ∈ ["browser"; "web_search"; "web_fetch"; "email"] <-> is_Some (result_ty toolName)) /\
  match result_ty toolName with
  | Some t => if is_object v then has_ty t (applyToolResultContract now toolName v) = true
              else applyToolResultContract now toolName v = v
  | None => applyToolResultContract now toolName v = v
  end.
Proof.
  unfold result_ty, applyToolResultContract. generalize (toLowerCase (trim toolName)) as n. intros n. cbn [mget]. split.
  { repeat case_bool_decide; subst; (split; [|by (intros; set_solver)]); try by eexists. intros I. exfalso. set_solver. }
  repeat case_bool_decide; subst; cbn [String.eqb Ascii.eqb Bool.eqb].
  all: try (destruct (is_object v) eqn:O;
    first [ by apply browser_typed | by apply search_typed | by apply fetch_typed | by apply email_typed
          | unfold normalizeBrowserResult; by rewrite O | unfold normalizeWebSearchResult; by rewrite O
          | unfold normalizeWebFetchResult; by rewrite O | unfold normalizeEmailResult; by rewrite O ]).
  repeat match goal with |- context [(n =? ?s)%string] => destruct (String.eqb_spec n s); [done|] end. done.
Qed.
Lemma contract_typed_witness :
  has_ty fetch_ty (applyToolResultContract 7 " Web_Fetch" (VObj [("status", VStr "404"); ("extra", VNull)])) = true /\
  applyToolResultContract 7 "read" (VObj [("text", VStr "x")]) = VObj [("text", VStr "x")].
Proof.
  split.
  - exact (proj2 (contract_typed 7 " Web_Fetch" (VObj [("status", VStr "404"); ("extra", VNull)]))).
  - exact (proj2 (contract_typed 7 "read" (VObj [("text", VStr "x")]))).
Defined.

(** the contract is idempotent: a result that went through it once is left
    alone by a second pass, also at a later time, for every tool and value. *)
Theorem contract_idempotent now later toolName v :
  applyToolResultContract later toolName (applyToolResultContract now toolName v) =
  applyToolResultContract now toolName v.
Proof.
  unfold applyToolResultContract. repeat case_match; auto using browser_again, search_again, fetch_again, email_again.
Qed.

(** when no entry of [products] is usable the raw list is passed on: the
    empty normalised list is not written over it. *)
Theorem raw_products_pass v :
  is_object v = true -> rows product_item (get_prop "products" v) = [] ->
  get_prop "products" (normalizeWebSearchResult v) = get_prop "products" v.
Proof.
  intros O E. unfold normalizeWebSearchResult. rewrite O, E. cbn [negb length Nat.ltb Nat.leb app].
  rewrite <- (object_entries_prop "products" v) by done. cbn [spread get_prop].
  match goal with |- context [fold_left _ ?f _] => pose proof (spread_get_ne "products" v f) as G end.
  unfold spread in G. cbn [object_entries] in G. rewrite G; [done|].
  apply (bool_decide_eq_true_1 _). field_keys.
Qed.
Lemma raw_products_pass_witness :
  has_ty (TRec [] [("products", TArr product_ty)])
    (applyToolResultContract 0 "web_search" (VObj [("products", VArr [VStr "free text"])])) = false.
Proof.
  pose proof (raw_products_pass (VObj [("products", VArr [VStr "free text"])]) eq_refl eq_refl) as E.
  vm_compute. reflexivity.
Defined.
