(* ===== verification/Config.v ===== *)
(** * Configuration and state

    [src/src/config/state.ts]: the configuration file, its normalisation, the
    routing of the three model slots, and the check that the program is set up.

    A configuration is a record whose optional fields are [option]s; the object
    the code builds has every field, [undefined] where the record has [None]
    ([config_value]).  Files are named by the segments of their resolved path;
    a file holds a JSON document ([Json]) or another text.  Permissions and
    links are not modelled. *)

From stdpp Require Import base list sets strings.
From Stdlib Require Import Ascii Lia ZArith.
From S2P Require Import Prelude JsString JsMap JsValue NodePath.

(** ** Data *)

Record ModelPresets := mkPresets { mp_default : option string; mp_planning : option string; mp_coding : option string }.

Inductive ProviderAuthMode := api_key | oauth | auth_token.

Record ProviderProfile := mkProfile {
  enabled : option bool;
  provider : string;
  authMode : ProviderAuthMode;
  apiKey : option string;
  oauthToken : option string;
  token : option string;
  baseUrl : option string;
  api : option string;
  headers : option (list (string * string));
  compat : option value;
  models : option (list string);
}.

Record RoutingTarget := mkTarget { t_provider : option string; t_model : option string }.
Record RoutingConfig := mkRouting {
  r_default : option RoutingTarget;
  r_planning : option RoutingTarget;
  r_coding : option RoutingTarget;
}.

Inductive TelegramDmPolicy := pairing | allowlist | open | disabled.
Record TelegramChannelConfig := mkTelegram {
  botToken : option string;
  dmPolicy : option TelegramDmPolicy;
  allowFrom : option (list string);
  allowedChatIds : option (list num);
}.
Record ChannelConfig := mkChannels { telegram : option TelegramChannelConfig }.

Record ToolPolicyConfig := mkToolPolicy { tp_allow : option (list string); tp_deny : option (list string) }.
Inductive ToolProfileId := p_minimal | p_coding | p_messaging | p_full.
Inductive WebSearchProvider := brave | duckduckgo.
Record WebSearchToolConfig := mkSearch {
  ws_enabled : option bool;
  ws_provider : option WebSearchProvider;
  ws_apiKey : option string;
  ws_timeoutMs : option num;
  ws_maxResults : option num;
  ws_region : option string;
  ws_fetchTop : option num;
  ws_fetchMaxBytes : option num;
}.
Record WebFetchToolConfig := mkFetch { wf_enabled : option bool; wf_timeoutMs : option num; wf_maxBytes : option num }.
Record WebToolsConfig := mkWeb { w_search : option WebSearchToolConfig; w_fetch : option WebFetchToolConfig }.
Record FsConfig := mkFs { workspaceOnly : option bool }.
Record ExecConfig := mkExec { timeoutSec : option num; allowBackground : option bool }.
Record SelfProtectionConfig := mkSelf {
  sp_enabled : option bool;
  sp_installRoot : option string;
  sp_protectedPaths : option (list string);
}.
Record ToolsConfig := mkTools {
  dangerouslyUnrestricted : option bool;
  profile : option ToolProfileId;
  tl_allow : option (list string);
  alsoAllow : option (list string);
  tl_deny : option (list string);
  byProvider : option (list (string * ToolPolicyConfig));
  runtime : option ToolPolicyConfig;
  tl_fs : option FsConfig;
  tl_exec : option ExecConfig;
  tl_web : option WebToolsConfig;
  selfProtection : option SelfProtectionConfig;
}.
Record SkillsEntryConfig := mkSkillEntry { se_enabled : option bool }.
Record SkillsConfig := mkSkills {
  sk_allow : option (list string);
  sk_dirs : option (list string);
  sk_entries : option (list (string * SkillsEntryConfig));
}.
Record UsageConfig := mkUsage { tokenBudget : option num; costBudgetUsd : option num }.
Record AgentDefaultsConfig := mkDefaults { bootstrapMaxChars : option num }.
Record AgentsConfig := mkAgents { ag_defaults : option AgentDefaultsConfig }.

Record T560Config := mkConfig {
  c_provider : option string;
  c_models : option ModelPresets;
  c_providers : option (list (string * ProviderProfile));
  c_routing : option RoutingConfig;
  c_channels : option ChannelConfig;
  c_tools : option ToolsConfig;
  c_skills : option SkillsConfig;
  c_usage : option UsageConfig;
  c_agents : option AgentsConfig;
}.

(** ** Values of single fields *)

(** [typeof v === "string" ? v : undefined], and the same for booleans *)
Definition opt_str (v : value) : option string := match v with VStr s => Some s | _ => None end.
Definition opt_bool (v : value) : option bool := match v with VBool b => Some b | _ => None end.
(** [typeof v === "string" ? (v.trim() || undefined) : undefined] *)
Definition opt_trim (v : value) : option string :=
  match v with VStr s => if truthy (trim s) then Some (trim s) else None | _ => None end.
(** [typeof v === "number" ? Number(v) : undefined] *)
Definition opt_num (v : value) : option num := match v with VNum n => Some n | _ => None end.
(** [typeof v === "number" && Number.isFinite(v) ? Math.max(low, Math.floor(v)) : undefined] *)
Definition opt_floor (low : Z) (v : value) : option num :=
  match v with
  | VNum n => if isFinite n then Some (num_max (NInt low) (num_floor n)) else None
  | _ => None
  end.
(** [v && typeof v === "object" ? f(v) : undefined] *)
Definition opt_obj {A} (f : value -> A) (v : value) : option A := if is_object v then Some (f v) else None.
(** [for (const [k, v] of Object.entries(raw)) { ... obj[k] = g(k, v) }], where
    [None] stands for an entry that is skipped *)
Definition entries_map {A} (g : string -> value -> option A) (raw : value) : list (string * A) :=
  fold_left (fun acc e => match g e.1 e.2 with Some x => assign e.1 x acc | None => acc end) (object_entries raw) [].
(** [Object.keys(obj).length > 0 ? obj : undefined], and the same for lists *)
Definition non_empty {A} (l : list A) : option (list A) := if (0 <? length l)%nat then Some l else None.

(** The same when there may be no object to go through. *)
Definition opt_entries {A} (g : string -> value -> option A) (raw : value) : option (list (string * A)) :=
  if is_object raw then non_empty (entries_map g raw) else None.

Definition hasRealValue (v : option string) : bool :=
  match v with
  | None => false
  | Some s =>
      if negb (truthy s) then false
      else
        let normalized := toLowerCase (trim s) in
        if negb (truthy normalized) then false
        else negb (normalized =? "set-me")%string && negb (normalized =? "change-me")%string &&
             negb (normalized =? "todo")%string
  end.

Definition hasRealModelRef (v : option string) : bool :=
  if negb (hasRealValue v) then false
  else
    let trimmed := trim (default "undefined" v) in
    includes "/" trimmed && forallb (fun part => hasRealValue (Some part)) (split_char slash trimmed).

Definition parseModelRef (v : option string) : option RoutingTarget :=
  if negb (hasRealModelRef v) then None
  else
    match split_char slash (default "undefined" v) with
    | [] => None
    | prov :: rest =>
        let model := trim (join "/" rest) in
        if negb (hasRealValue (Some prov)) || negb (hasRealValue (Some model)) then None
        else Some (mkTarget (Some (trim prov)) (Some model))
    end.

Definition parseTelegramDmPolicy (v : value) : TelegramDmPolicy :=
  let normalized := toLowerCase (trim (to_string (nullish v (VStr "pairing")))) in
  if (normalized =? "allowlist")%string then allowlist
  else if (normalized =? "open")%string then open
  else if (normalized =? "disabled")%string then disabled
  else pairing.

Definition normalizeStringList (raw : value) : option (list string) :=
  match raw with
  | VArr l => non_empty (List.filter truthy (map (fun v => trim (to_string v)) l))
  | _ => None
  end.

Definition normalizeToolPolicy (raw : value) : option ToolPolicyConfig :=
  if negb (is_object raw) then None
  else
    let allow := normalizeStringList (get_prop "allow" raw) in
    let deny := normalizeStringList (get_prop "deny" raw) in
    match allow, deny with
    | None, None => None
    | _, _ => Some (mkToolPolicy allow deny)
    end.

(** ** Normalisation of the sections *)

Definition normalizeAuthMode (v : value) : ProviderAuthMode :=
  let authModeRaw := trim (to_string (nullish v (VStr "api_key"))) in
  if (authModeRaw =? "oauth")%string then oauth
  else if (authModeRaw =? "token")%string then auth_token else api_key.

Definition normalizeHeaders (v : value) : list (string * string) :=
  fold_left (fun acc e => mset e.1 e.2 acc)
    (List.filter (fun e => truthy (trim e.1) && truthy (trim e.2))
       (map (fun e => (e.1, to_string e.2)) (object_entries v))) [].

Definition normalizeProfile (providerId : string) (obj : value) : ProviderProfile :=
  {| enabled := Some (match get_prop "enabled" obj with VBool false => false | _ => true end);
     provider := default providerId (opt_trim (get_prop "provider" obj));
     authMode := normalizeAuthMode (get_prop "authMode" obj);
     apiKey := opt_str (get_prop "apiKey" obj);
     oauthToken := opt_str (get_prop "oauthToken" obj);
     token := opt_str (get_prop "token" obj);
     baseUrl := opt_trim (get_prop "baseUrl" obj);
     api := opt_trim (get_prop "api" obj);
     headers := if is_object (get_prop "headers" obj)
                then non_empty (normalizeHeaders (get_prop "headers" obj)) else None;
     compat := opt_obj id (get_prop "compat" obj);
     models := match get_prop "models" obj with
               | VArr l => Some (List.filter truthy (map (fun e => trim (to_string e)) l))
               | _ => None
               end |}.

Definition normalizeProviders (raw : value) : option (list (string * ProviderProfile)) :=
  opt_entries (fun providerId v => opt_obj (normalizeProfile providerId) v) raw.

Definition parseSlot (v : value) : option RoutingTarget :=
  if negb (is_object v) then None
  else
    let prov := trim (default "" (opt_str (get_prop "provider" v))) in
    let model := trim (default "" (opt_str (get_prop "model" v))) in
    if negb (hasRealValue (Some prov)) || negb (hasRealValue (Some model)) then None
    else Some (mkTarget (Some prov) (Some model)).

Definition normalizeRouting (raw : value) : option RoutingConfig :=
  if negb (is_object raw) then None
  else
    let d := parseSlot (get_prop "default" raw) in
    let p := parseSlot (get_prop "planning" raw) in
    let c := parseSlot (get_prop "coding" raw) in
    match d, p, c with
    | None, None, None => None
    | _, _, _ => Some (mkRouting d p c)
    end.

Definition normalizeProfileId (v : value) : option ToolProfileId :=
  let profileRaw := toLowerCase (trim (to_string (nullish v (VStr "")))) in
  if (profileRaw =? "minimal")%string then Some p_minimal
  else if (profileRaw =? "coding")%string then Some p_coding
  else if (profileRaw =? "messaging")%string then Some p_messaging
  else if (profileRaw =? "full")%string then Some p_full
  else None.

Definition normalizeSearchProvider (v : value) : option WebSearchProvider :=
  let providerRaw := toLowerCase (trim (to_string (nullish v (VStr "")))) in
  if (providerRaw =? "duckduckgo")%string then Some duckduckgo
  else if (providerRaw =? "brave")%string then Some brave
  else None.

Definition normalizeSearch (searchRaw : value) : WebSearchToolConfig :=
  {| ws_enabled := opt_bool (get_prop "enabled" searchRaw);
     ws_provider := normalizeSearchProvider (get_prop "provider" searchRaw);
     ws_apiKey := opt_trim (get_prop "apiKey" searchRaw);
     ws_timeoutMs := opt_floor 1000 (get_prop "timeoutMs" searchRaw);
     ws_maxResults := opt_floor 1 (get_prop "maxResults" searchRaw);
     ws_region := opt_trim (get_prop "region" searchRaw);
     ws_fetchTop := opt_floor 0 (get_prop "fetchTop" searchRaw);
     ws_fetchMaxBytes := opt_floor 10000 (get_prop "fetchMaxBytes" searchRaw) |}.

Definition normalizeFetch (fetchRaw : value) : WebFetchToolConfig :=
  {| wf_enabled := opt_bool (get_prop "enabled" fetchRaw);
     wf_timeoutMs := opt_floor 1000 (get_prop "timeoutMs" fetchRaw);
     wf_maxBytes := opt_floor 10000 (get_prop "maxBytes" fetchRaw) |}.

Definition normalizeWeb (webObj : value) : WebToolsConfig :=
  {| w_search := opt_obj normalizeSearch (get_prop "search" webObj);
     w_fetch := opt_obj normalizeFetch (get_prop "fetch" webObj) |}.

Definition normalizeByProvider (byProviderRaw : value) : option (list (string * ToolPolicyConfig)) :=
  opt_entries (fun _ v => normalizeToolPolicy v) byProviderRaw.

Definition normalizeTools (raw : value) : option ToolsConfig :=
  if negb (is_object raw) then None
  else Some
    {| dangerouslyUnrestricted := opt_bool (get_prop "dangerouslyUnrestricted" raw);
       profile := normalizeProfileId (get_prop "profile" raw);
       tl_allow := normalizeStringList (get_prop "allow" raw);
       alsoAllow := normalizeStringList (get_prop "alsoAllow" raw);
       tl_deny := normalizeStringList (get_prop "deny" raw);
       byProvider := normalizeByProvider (get_prop "byProvider" raw);
       runtime := normalizeToolPolicy (get_prop "runtime" raw);
       tl_fs := opt_obj (fun fs => mkFs (opt_bool (get_prop "workspaceOnly" fs))) (get_prop "fs" raw);
       tl_exec := opt_obj (fun exec => mkExec (opt_num (get_prop "timeoutSec" exec))
                                              (opt_bool (get_prop "allowBackground" exec))) (get_prop "exec" raw);
       tl_web := opt_obj normalizeWeb (get_prop "web" raw);
       selfProtection :=
         opt_obj (fun sp => mkSelf (opt_bool (get_prop "enabled" sp)) (opt_trim (get_prop "installRoot" sp))
                                   (normalizeStringList (get_prop "protectedPaths" sp)))
                 (get_prop "selfProtection" raw) |}.

Definition normalizeSkillEntries (entriesRaw : value) : option (list (string * SkillsEntryConfig)) :=
  opt_entries (fun _ v => opt_obj (fun e => mkSkillEntry (opt_bool (get_prop "enabled" e))) v) entriesRaw.

Definition normalizeSkills (raw : value) : option SkillsConfig :=
  if negb (is_object raw) then None
  else
    Some {| sk_allow := normalizeStringList (get_prop "allow" raw);
            sk_dirs := normalizeStringList (get_prop "dirs" raw);
            sk_entries := normalizeSkillEntries (get_prop "entries" raw) |}.

(** [Number.isFinite(n) && n > 0] *)
Definition positive (n : num) : bool := isFinite n && num_lt (NInt 0) n.
(** [!n] for an optional number *)
Definition falsy_num (o : option num) : bool := match o with Some n => negb (to_bool (VNum n)) | None => true end.

Definition normalizeUsage (raw : value) : option UsageConfig :=
  if negb (is_object raw) || is_array raw then None
  else
    let tokenBudgetNum := to_number (get_prop "tokenBudget" raw) in
    let costBudgetUsdNum := to_number (get_prop "costBudgetUsd" raw) in
    let tokenBudget := if positive tokenBudgetNum then Some (num_floor tokenBudgetNum) else None in
    let costBudgetUsd := if positive costBudgetUsdNum then Some costBudgetUsdNum else None in
    if falsy_num tokenBudget && falsy_num costBudgetUsd then None
    else Some (mkUsage tokenBudget costBudgetUsd).

Definition normalizeAgents (raw : value) : option AgentsConfig :=
  if negb (is_object raw) then None
  else
    let defaultsRaw := get_prop "defaults" raw in
    if negb (is_object defaultsRaw) then None
    else
      let bootstrapMaxCharsNum := to_number (get_prop "bootstrapMaxChars" defaultsRaw) in
      let bootstrapMaxChars :=
        if positive bootstrapMaxCharsNum then Some (num_floor bootstrapMaxCharsNum) else None in
      if falsy_num bootstrapMaxChars then None
      else Some (mkAgents (Some (mkDefaults bootstrapMaxChars))).

(** [s.replace(/^(telegram|tg):/i, "").trim()] *)
Definition strip_channel (s : string) : string :=
  let lower := toLowerCase s in
  trim (if startsWith "telegram:" lower then slice_from 9 s
        else if startsWith "tg:" lower then slice_from 3 s else s).

Definition normalizeChannels (raw : value) : option ChannelConfig :=
  if negb (is_object raw) then None
  else
    let obj := get_prop "telegram" raw in
    if negb (is_object obj) then None
    else
      let allowFrom := match get_prop "allowFrom" obj with
                       | VArr l => List.filter truthy (map (fun e => strip_channel (to_string e)) l)
                       | _ => []
                       end in
      let allowedChatIds := match get_prop "allowedChatIds" obj with
                            | VArr l => List.filter isInteger (map to_number l)
                            | _ => []
                            end in
      Some (mkChannels (Some
        {| botToken := opt_str (get_prop "botToken" obj);
           dmPolicy := Some (parseTelegramDmPolicy (get_prop "dmPolicy" obj));
           allowFrom := non_empty allowFrom;
           allowedChatIds := non_empty allowedChatIds |})).

Definition normalizeModels (v : value) : ModelPresets :=
  {| mp_default := opt_str (get_prop "default" v); mp_planning := opt_str (get_prop "planning" v);
     mp_coding := opt_str (get_prop "coding" v) |}.

Definition empty_config : T560Config := mkConfig None None None None None None None None None.

Definition normalizeConfig (v : value) : T560Config :=
  if negb (is_object v) then empty_config
  else
    {| c_provider := opt_str (get_prop "provider" v);
       c_models := opt_obj normalizeModels (get_prop "models" v);
       c_providers := normalizeProviders (get_prop "providers" v);
       c_routing := normalizeRouting (get_prop "routing" v);
       c_channels := normalizeChannels (get_prop "channels" v);
       c_tools := normalizeTools (get_prop "tools" v);
       c_skills := normalizeSkills (get_prop "skills" v);
       c_usage := normalizeUsage (get_prop "usage" v);
       c_agents := normalizeAgents (get_prop "agents" v) |}.

(** ** The object a configuration is *)

Definition opt_v {A} (f : A -> value) (o : option A) : value := match o with Some x => f x | None => VUndef end.
Definition strs_v (l : list string) : value := VArr (map VStr l).
Definition map_v {A} (f : A -> value) (m : list (string * A)) : value := VObj (map (fun e => (e.1, f e.2)) m).

Definition presets_v (m : ModelPresets) : value :=
  VObj [("default", opt_v VStr (mp_default m)); ("planning", opt_v VStr (mp_planning m));
        ("coding", opt_v VStr (mp_coding m))].
Definition authMode_v (m : ProviderAuthMode) : value :=
  VStr (match m with api_key => "api_key" | oauth => "oauth" | auth_token => "token" end).
Definition profile_v (p : ProviderProfile) : value :=
  VObj [("enabled", opt_v VBool (enabled p)); ("provider", VStr (provider p)); ("authMode", authMode_v (authMode p));
        ("apiKey", opt_v VStr (apiKey p)); ("oauthToken", opt_v VStr (oauthToken p)); ("token", opt_v VStr (token p));
        ("baseUrl", opt_v VStr (baseUrl p)); ("api", opt_v VStr (api p)); ("headers", opt_v (map_v VStr) (headers p));
        ("compat", opt_v id (compat p)); ("models", opt_v strs_v (models p))].
Definition target_v (t : RoutingTarget) : value :=
  VObj [("provider", opt_v VStr (t_provider t)); ("model", opt_v VStr (t_model t))].
Definition routing_v (r : RoutingConfig) : value :=
  VObj [("default", opt_v target_v (r_default r)); ("planning", opt_v target_v (r_planning r));
        ("coding", opt_v target_v (r_coding r))].
Definition dmPolicy_v (p : TelegramDmPolicy) : value :=
  VStr (match p with pairing => "pairing" | allowlist => "allowlist" | open => "open" | disabled => "disabled" end).
Definition telegram_v (t : TelegramChannelConfig) : value :=
  VObj [("botToken", opt_v VStr (botToken t)); ("dmPolicy", opt_v dmPolicy_v (dmPolicy t));
        ("allowFrom", opt_v strs_v (allowFrom t));
        ("allowedChatIds", opt_v (fun l => VArr (map VNum l)) (allowedChatIds t))].
Definition channels_v (c : ChannelConfig) : value := VObj [("telegram", opt_v telegram_v (telegram c))].
Definition toolPolicy_v (p : ToolPolicyConfig) : value :=
  VObj [("allow", opt_v strs_v (tp_allow p)); ("deny", opt_v strs_v (tp_deny p))].
Definition profileId_v (p : ToolProfileId) : value :=
  VStr (match p with p_minimal => "minimal" | p_coding => "coding" | p_messaging => "messaging" | p_full => "full" end).
Definition searchProvider_v (p : WebSearchProvider) : value :=
  VStr (match p with brave => "brave" | duckduckgo => "duckduckgo" end).
Definition search_v (s : WebSearchToolConfig) : value :=
  VObj [("enabled", opt_v VBool (ws_enabled s)); ("provider", opt_v searchProvider_v (ws_provider s));
        ("apiKey", opt_v VStr (ws_apiKey s)); ("timeoutMs", opt_v VNum (ws_timeoutMs s));
        ("maxResults", opt_v VNum (ws_maxResults s)); ("region", opt_v VStr (ws_region s));
        ("fetchTop", opt_v VNum (ws_fetchTop s)); ("fetchMaxBytes", opt_v VNum (ws_fetchMaxBytes s))].
Definition fetch_v (f : WebFetchToolConfig) : value :=
  VObj [("enabled", opt_v VBool (wf_enabled f)); ("timeoutMs", opt_v VNum (wf_timeoutMs f));
        ("maxBytes", opt_v VNum (wf_maxBytes f))].
Definition web_v (w : WebToolsConfig) : value :=
  VObj [("search", opt_v search_v (w_search w)); ("fetch", opt_v fetch_v (w_fetch w))].
Definition fs_v (f : FsConfig) : value := VObj [("workspaceOnly", opt_v VBool (workspaceOnly f))].
Definition exec_v (e : ExecConfig) : value :=
  VObj [("timeoutSec", opt_v VNum (timeoutSec e)); ("allowBackground", opt_v VBool (allowBackground e))].
Definition selfProtection_v (s : SelfProtectionConfig) : value :=
  VObj [("enabled", opt_v VBool (sp_enabled s)); ("installRoot", opt_v VStr (sp_installRoot s));
        ("protectedPaths", opt_v strs_v (sp_protectedPaths s))].
Definition tools_v (t : ToolsConfig) : value :=
  VObj [("dangerouslyUnrestricted", opt_v VBool (dangerouslyUnrestricted t)); ("profile", opt_v profileId_v (profile t));
        ("allow", opt_v strs_v (tl_allow t)); ("alsoAllow", opt_v strs_v (alsoAllow t));
        ("deny", opt_v strs_v (tl_deny t)); ("byProvider", opt_v (map_v toolPolicy_v) (byProvider t));
        ("runtime", opt_v toolPolicy_v (runtime t)); ("fs", opt_v fs_v (tl_fs t)); ("exec", opt_v exec_v (tl_exec t));
        ("web", opt_v web_v (tl_web t)); ("selfProtection", opt_v selfProtection_v (selfProtection t))].
Definition skillEntry_v (e : SkillsEntryConfig) : value := VObj [("enabled", opt_v VBool (se_enabled e))].
Definition skills_v (s : SkillsConfig) : value :=
  VObj [("allow", opt_v strs_v (sk_allow s)); ("dirs", opt_v strs_v (sk_dirs s));
        ("entries", opt_v (map_v skillEntry_v) (sk_entries s))].
Definition usage_v (u : UsageConfig) : value :=
  VObj [("tokenBudget", opt_v VNum (tokenBudget u)); ("costBudgetUsd", opt_v VNum (costBudgetUsd u))].
Definition defaults_v (d : AgentDefaultsConfig) : value :=
  VObj [("bootstrapMaxChars", opt_v VNum (bootstrapMaxChars d))].
Definition agents_v (a : AgentsConfig) : value := VObj [("defaults", opt_v defaults_v (ag_defaults a))].
Definition config_value (c : T560Config) : value :=
  VObj [("provider", opt_v VStr (c_provider c)); ("models", opt_v presets_v (c_models c));
        ("providers", opt_v (map_v profile_v) (c_providers c)); ("routing", opt_v routing_v (c_routing c));
        ("channels", opt_v channels_v (c_channels c)); ("tools", opt_v tools_v (c_tools c));
        ("skills", opt_v skills_v (c_skills c)); ("usage", opt_v usage_v (c_usage c));
        ("agents", opt_v agents_v (c_agents c))].

(** ** Files *)

Inductive node := Dir | Text (s : string) | Json (v : value).
Definition disk := list (list string * node).

Inductive slot := Default | Planning | Coding.
#[export] Instance slot_eq_dec : EqDecision slot.
Proof. solve_decision. Defined.

Record OnboardingStatus := mkStatus { onboarded : bool; missing : list string; st_config : T560Config; st_configPath : string }.

Definition lf : string := of_chars [ascii_of_nat 10].
Definition DEFAULT_SOUL : string := join lf
  ["# T560 Soul"; "";
   "Pretend you are an AI assistant named T560. You are friendly, concise, and helpful. You always try your best to answer the user's request."].
Definition DEFAULT_USERS : string := join lf
  ["# User Profile"; "";
   "I am Nick, my favorite hobby is coding, and I need an assistant for everyday tasks."].

Section State.
(** [process.env], [process.cwd()] and [os.homedir()] *)
Variables (env : list (string * string)) (pcwd home : string).

Definition env_var (k : string) : string := default "" (mget k env).

Definition resolveStateDir : string :=
  let raw := trim (env_var "T560_STATE_DIR") in
  if negb (truthy raw) then join2 home ".t560"
  else if (raw =? "~")%string then home
  else if startsWith "~/" raw then join2 home (slice_from 2 raw)
  else resolve pcwd raw.

Definition resolveConfigPath : string := join2 resolveStateDir "config.json".
Definition resolvePairingPath : string := join2 resolveStateDir "pairing.json".
Definition resolveSoulPath : string := join2 resolveStateDir "soul.md".
Definition resolveUsersPath : string := join2 resolveStateDir "users.md".
Definition resolveLegacyUserPath : string := join2 resolveStateDir "user.md".
Definition resolveUserPath : string := resolveLegacyUserPath.

Definition node_at (p : string) (d : disk) : option node :=
  match segments pcwd p with [] => Some Dir | segs => mget segs d end.

Definition fileExists (p : string) (d : disk) : bool := match node_at p d with Some _ => true | None => false end.

Definition readJsonIfExists (p : string) (d : disk) : value :=
  match node_at p d with Some (Json v) => v | _ => VNull end.

(** [writeFile(p, n)] *)
Definition writeFile (p : string) (n : node) (d : disk) : result disk :=
  match node_at p d with
  | Some Dir => Throw "EISDIR"
  | _ => match mget (removelast (segments pcwd p)) (([], Dir) :: d) with
         | Some Dir => Ok (mset (segments pcwd p) n d)
         | _ => Throw "ENOENT"
         end
  end.

(** [mkdir(p, { recursive: true })]: the directories on the way are created. *)
Fixpoint mkdirs (above below : list string) (d : disk) : result disk :=
  match below with
  | [] => Ok d
  | s :: below' =>
      let here := above ++ [s] in
      match mget here d with
      | None => mkdirs here below' (mset here Dir d)
      | Some Dir => mkdirs here below' d
      | Some _ => Throw "ENOTDIR"
      end
  end.
Definition mkdir (p : string) (d : disk) : result disk := mkdirs [] (segments pcwd p) d.

Definition ensureStateDir (d : disk) : result disk :=
  let? d := mkdir resolveStateDir d in
  let? d := if fileExists resolveSoulPath d then Ok d
            else writeFile resolveSoulPath (Text (DEFAULT_SOUL +:+ lf)) d in
  if fileExists resolveUsersPath d then Ok d
  else writeFile resolveUsersPath (Text (DEFAULT_USERS +:+ lf)) d.

Definition readConfig (d : disk) : result (T560Config * disk) :=
  let? d := ensureStateDir d in
  Ok (normalizeConfig (readJsonIfExists resolveConfigPath d), d).

Definition writeConfig (config : T560Config) (d : disk) : result disk :=
  let? d := ensureStateDir d in
  let normalized := normalizeConfig (config_value config) in
  writeFile resolveConfigPath (Json (json_image (config_value normalized))) d.

(** ** Routing and credentials *)

Definition hasProviderCredential (p : ProviderProfile) : bool :=
  hasRealValue (apiKey p) || hasRealValue (oauthToken p) || hasRealValue (token p).

Definition providerCanRunWithoutCredential (providerId : string) (p : ProviderProfile) : bool :=
  if negb (hasRealValue (option_map trim (baseUrl p))) then false
  else (toLowerCase (trim (provider p)) =? "openai")%string ||
       (toLowerCase (trim providerId) =? "local-openai")%string.

Definition resolveSelfProtectionInstallRoot (raw : option string) : option string :=
  if negb (hasRealValue raw) then None
  else
    let trimmed := trim (default "undefined" raw) in
    if negb (truthy trimmed) then None
    else if (trimmed =? "~")%string then Some home
    else if startsWith "~/" trimmed then Some (resolve pcwd (join2 home (slice_from 2 trimmed)))
    else Some (resolve pcwd trimmed).

Definition preset (c : T560Config) (s : slot) : option string :=
  m ← c_models c; match s with Default => mp_default m | Planning => mp_planning m | Coding => mp_coding m end.
Definition route (c : T560Config) (s : slot) : option RoutingTarget :=
  r ← c_routing c; match s with Default => r_default r | Planning => r_planning r | Coding => r_coding r end.
(** [t?.provider && t.model] *)
Definition complete_target (t : option RoutingTarget) : bool :=
  match t with
  | Some t => truthy (default "" (t_provider t)) && truthy (default "" (t_model t))
  | None => false
  end.

Definition resolveRouteFromModelPreset (config : T560Config) (s : slot) : option RoutingTarget :=
  let modelPreset := preset config s in
  if negb (hasRealValue modelPreset) then None
  else
    let direct := parseModelRef modelPreset in
    if complete_target direct then direct
    else
      let providerId := option_map trim (c_provider config) in
      if negb (hasRealValue providerId) then None
      else Some (mkTarget providerId (Some (trim (default "undefined" modelPreset)))).

Definition resolveBootstrapMaxChars (config : T560Config) : option num :=
  let envRaw := trim (env_var "T560_BOOTSTRAP_MAX_CHARS") in
  let envValue := if truthy envRaw then num_of_string envRaw else NNaN in
  if positive envValue then Some (num_floor envValue)
  else
    let configValue := match a ← c_agents config; d ← ag_defaults a; bootstrapMaxChars d with
                       | Some n => n
                       | None => NNaN
                       end in
    if positive configValue then Some (num_floor configValue) else None.

Definition resolveRoutingTarget (config : T560Config) (s : slot) : option RoutingTarget :=
  let fromRouting := route config s in
  if complete_target fromRouting then fromRouting
  else
    match resolveRouteFromModelPreset config s with
    | Some fromPreset => Some fromPreset
    | None =>
        if bool_decide (s = Default) then None
        else
          let fallback := route config Default in
          if complete_target fallback then fallback
          else resolveRouteFromModelPreset config Default
    end.

Definition telegram_config (config : T560Config) : option TelegramChannelConfig :=
  c ← c_channels config; telegram c.

Definition resolveTelegramBotToken (config : T560Config) : option string :=
  let first := trim (env_var "T560_TELEGRAM_BOT_TOKEN") in
  let envToken := if truthy first then Some first else option_map trim (mget "TELEGRAM_BOT_TOKEN" env) in
  if hasRealValue envToken then envToken
  else
    let configToken := t ← telegram_config config; option_map trim (botToken t) in
    if hasRealValue configToken then configToken else None.

Definition isAllowedTelegramSender (config : T560Config) (sender : value) : bool :=
  let normalized := strip_channel (to_string sender) in
  if negb (truthy normalized) then false
  else if existsb (fun entry => (strip_channel entry =? normalized)%string)
            (default [] (t ← telegram_config config; allowFrom t)) then true
  else
    let asNumber := num_of_string normalized in
    isInteger asNumber &&
    existsb (num_eq asNumber) (default [] (t ← telegram_config config; allowedChatIds t)).

(** ** Is the program set up? *)

Definition missing_if (b : bool) (what : string) : list string := if b then [what] else [].

Definition missing_provider (providers : list (string * ProviderProfile)) (providerId : string) : list string :=
  match obj_lookup providerId providers with
  | Missing => ["providers." +:+ providerId]
  | Inherited => ["providers." +:+ providerId +:+ ".credentials"]
  | Own profile =>
      missing_if (negb (hasProviderCredential profile) && negb (providerCanRunWithoutCredential providerId profile))
        ("providers." +:+ providerId +:+ ".credentials")
  end.

Definition readOnboardingStatus (d : disk) : result (OnboardingStatus * disk) :=
  let? d := ensureStateDir d in
  let configPath := resolveConfigPath in
  let? read := readConfig d in
  let '(config, d) := read in
  let providers := default [] (c_providers config) in
  let missing_providers :=
    if negb (0 <? length providers)%nat then ["providers"]
    else missing_if (negb (existsb (fun e => hasProviderCredential e.2) providers)) "providers.credentials" in
  let defaultRoute := resolveRoutingTarget config Default in
  let planningRoute := resolveRoutingTarget config Planning in
  let codingRoute := resolveRoutingTarget config Coding in
  let missing_routes :=
    missing_if (negb (complete_target defaultRoute)) "routing.default" ++
    missing_if (negb (complete_target planningRoute)) "routing.planning" ++
    missing_if (negb (complete_target codingRoute)) "routing.coding" in
  let routedProviders :=
    dedup (List.filter truthy
      (map (fun r => trim (default "" (t ← r; t_provider t))) [defaultRoute; planningRoute; codingRoute])) in
  let missing_credentials := flat_map (missing_provider providers) routedProviders in
  let sp := t ← c_tools config; selfProtection t in
  let installRoot := resolveSelfProtectionInstallRoot (s ← sp; sp_installRoot s) in
  let protectedPaths := List.filter truthy (map trim (default [] (s ← sp; sp_protectedPaths s))) in
  let missing_protection :=
    missing_if (match s ← sp; sp_enabled s with Some true => false | _ => true end) "tools.selfProtection.enabled" ++
    match installRoot with
    | Some root => if negb (truthy root) then ["tools.selfProtection.installRoot"]
                   else missing_if (negb (fileExists root d)) "tools.selfProtection.installRoot.exists"
    | None => ["tools.selfProtection.installRoot"]
    end ++
    missing_if (length protectedPaths =? 0)%nat "tools.selfProtection.protectedPaths" in
  let missing_files :=
    missing_if (negb (fileExists resolveSoulPath d)) "soul.md" ++
    missing_if (negb (fileExists resolveUsersPath d)) "users.md" ++
    missing_if (negb (fileExists resolveLegacyUserPath d)) "user.md" in
  let missing := missing_providers ++ missing_routes ++ missing_credentials ++ missing_protection ++ missing_files in
  Ok (mkStatus (length missing =? 0)%nat missing config configPath, d).
End State.

(** ** Writing a normalised configuration and reading it back

    [img true] is the effect of the file on a property, [img false] none: the
    code normalises the object itself before it writes it. *)

Definition img (j : bool) (v : value) : value := if j then json_field v else v.

Lemma img_get j k ps : NoDup (keys ps) -> get_prop k (img j (VObj ps)) = img j (default VUndef (mget k ps)).
Proof. intros N. destruct j; [by apply json_get|done]. Qed.
Lemma img_obj j ps : is_object (img j (VObj ps)) = true.
Proof. by destruct j. Qed.

(** A normaliser whose results are left alone by it, through the file too. *)
Class Again {A} (enc : A -> value) (dec : value -> option A) (P : A -> Prop) : Prop := {
  ag_undef : dec VUndef = None;
  ag_again : forall j v x, json_stable v -> P x -> dec v = Some x -> dec (img j (enc x)) = Some x;
}.
Definition always {A} (_ : A) : Prop := True.

Lemma again_field {A} {enc dec} {P : A -> Prop} `{!Again enc dec P} j v :
  json_stable v -> (forall x, dec v = Some x -> P x) -> dec (img j (opt_v enc (dec v))) = dec v.
Proof.
  intros S H. destruct (dec v) as [x|] eqn:E; cbn [opt_v].
  - eapply ag_again; eauto.
  - destruct j; apply ag_undef.
Qed.
Lemma always_field {A} {enc : A -> value} {dec} `{!Again enc dec always} j v :
  json_stable v -> dec (img j (opt_v enc (dec v))) = dec v.
Proof. intros S. by apply again_field. Qed.

Ltac again := split; [done|]; intros j v x S _ H.

#[export] Instance again_str : Again VStr opt_str always.
Proof. again. by destruct v, j; simplify_eq/=. Qed.
#[export] Instance again_bool : Again VBool opt_bool always.
Proof. again. by destruct v, j; simplify_eq/=. Qed.
#[export] Instance again_trim : Again VStr opt_trim always.
Proof.
  again. destruct v as [| | | |s| |]; simplify_eq/=. destruct (truthy (trim s)) eqn:T; simplify_eq/=.
  assert (opt_trim (VStr (trim s)) = Some (trim s)) by (simpl; by rewrite trim_idemp, T). by destruct j.
Qed.
Lemma stable_num n : json_stable (VNum n) -> isFinite n = true.
Proof. unfold json_stable. simpl. by destruct (isFinite n). Qed.
Lemma img_num j n : isFinite n = true -> img j (VNum n) = VNum n.
Proof. intros F. destruct j; simpl; by rewrite ?F. Qed.
#[export] Instance again_num : Again VNum opt_num always.
Proof. again. destruct v; simplify_eq/=. by rewrite img_num by (by apply stable_num). Qed.

Lemma floor_int n : isFinite n = true -> exists z, num_floor n = NInt z.
Proof. destruct n; simpl; try done. eauto. Qed.
Lemma num_floor_int z : num_floor (NInt z) = NInt z.
Proof. simpl. unfold pow10. simpl. by rewrite Z.div_1_r. Qed.
Lemma opt_floor_Some low v x :
  opt_floor low v = Some x -> exists z, x = NInt z /\ (low <= z)%Z /\ opt_floor low (VNum x) = Some x.
Proof.
  destruct v; simpl; try done. destruct (isFinite n) eqn:F; [|done]. intros [= <-].
  destruct (floor_int n F) as [z ->]. rewrite num_max_int. eexists. split; [done|]. split; [lia|].
  cbn [opt_floor isFinite NInt]. rewrite num_floor_int, num_max_int. by replace (Z.max low (Z.max low z)) with (Z.max low z) by lia.
Qed.
#[export] Instance again_floor low : Again VNum (opt_floor low) always.
Proof. again. apply opt_floor_Some in H as (z & -> & _ & H). by rewrite img_num. Qed.

(** Lists of texts. *)
Lemma img_strs j l : img j (strs_v l) = strs_v l.
Proof.
  destruct j; [|done]. unfold strs_v, img, json_field. rewrite json_image_arr, map_map. f_equal.
Qed.
Definition trimmed_texts (l : list string) : Prop := Forall (fun s => trim s = s /\ s <> "") l.
Lemma filter_texts (f : value -> string) l :
  (forall v, trim (f v) = f v) -> trimmed_texts (List.filter truthy (map f l)).
Proof.
  intros F. apply Forall_forall. intros s [E T]%list_elem_of_In%filter_In.
  apply in_map_iff in E as (v & <- & _). split; [apply F|by apply truthy_true].
Qed.
Lemma trimmed_again l :
  trimmed_texts l -> List.filter truthy (map (fun v => trim (to_string v)) (map VStr l)) = l.
Proof.
  induction 1 as [|s l [E N] F IH]; [done|]. cbn [map to_string List.filter]. rewrite E.
  apply truthy_true in N. rewrite N. by f_equal.
Qed.
Lemma non_empty_Some {A} (l k : list A) : non_empty l = Some k -> k = l /\ l <> [].
Proof. unfold non_empty. destruct l; simpl; naive_solver. Qed.
Lemma non_empty_ne {A} (l : list A) : l <> [] -> non_empty l = Some l.
Proof. by destruct l. Qed.

Lemma normalizeStringList_texts v l : normalizeStringList v = Some l -> trimmed_texts l /\ l <> [].
Proof.
  destruct v; simpl; try done. intros [-> N]%non_empty_Some. split; [|done].
  apply filter_texts. intros. apply trim_idemp.
Qed.
#[export] Instance again_strings : Again strs_v normalizeStringList always.
Proof.
  again. apply normalizeStringList_texts in H as [T N]. rewrite img_strs. unfold strs_v. cbn [normalizeStringList].
  rewrite trimmed_again by done. by apply non_empty_ne.
Qed.
#[export] Instance again_models :
  Again strs_v (fun v => match v with
                         | VArr l => Some (List.filter truthy (map (fun e => trim (to_string e)) l))
                         | _ => None
                         end) always.
Proof.
  again. destruct v; try done. injection H as <-. rewrite img_strs. unfold strs_v.
  rewrite trimmed_again; [done|]. apply filter_texts. intros. apply trim_idemp.
Qed.

(** Objects of optional fields. *)
Lemma again_obj {A} (enc : A -> value) (f : value -> A) (P : A -> Prop) :
  (forall x, exists ps, enc x = VObj ps) ->
  (forall j v, json_stable v -> P (f v) -> f (img j (enc (f v))) = f v) -> Again enc (opt_obj f) P.
Proof.
  intros O H. split; [done|]. intros j v x S Px. unfold opt_obj. destruct (is_object v); [|done]. intros [= <-].
  destruct (O (f v)) as [ps E]. rewrite E, img_obj, <- E. f_equal. by apply H.
Qed.

Ltac distinct_keys := apply (bool_decide_eq_true_1 _); vm_compute; reflexivity.
(** The fields of an object literal, after [img]. *)
Ltac img_fields := rewrite !img_get by distinct_keys; lookups.
#[export] Hint Resolve json_stable_get : t560.
Ltac record_again := apply again_obj; [eexists; reflexivity|]; intros j v S _.

#[export] Instance again_presets : Again presets_v (opt_obj normalizeModels) always.
Proof.
  record_again. unfold normalizeModels at 1. unfold presets_v. img_fields. cbn [mp_default mp_planning mp_coding normalizeModels].
  unfold normalizeModels. by rewrite !always_field by auto with t560.
Qed.
#[export] Instance again_fs : Again fs_v (opt_obj (fun fs => mkFs (opt_bool (get_prop "workspaceOnly" fs)))) always.
Proof. record_again. unfold fs_v. img_fields. cbn [workspaceOnly]. by rewrite !always_field by auto with t560. Qed.
#[export] Instance again_exec :
  Again exec_v (opt_obj (fun exec => mkExec (opt_num (get_prop "timeoutSec" exec))
                                            (opt_bool (get_prop "allowBackground" exec)))) always.
Proof. record_again. unfold exec_v. img_fields. cbn [timeoutSec allowBackground]. by rewrite !always_field by auto with t560. Qed.
#[export] Instance again_self :
  Again selfProtection_v
    (opt_obj (fun sp => mkSelf (opt_bool (get_prop "enabled" sp)) (opt_trim (get_prop "installRoot" sp))
                               (normalizeStringList (get_prop "protectedPaths" sp)))) always.
Proof.
  record_again. unfold selfProtection_v. img_fields. cbn [sp_enabled sp_installRoot sp_protectedPaths].
  by rewrite !always_field by auto with t560.
Qed.

#[export] Instance again_searchProvider : Again searchProvider_v normalizeSearchProvider always.
Proof. again. by destruct x, j. Qed.
#[export] Instance again_profileId : Again profileId_v normalizeProfileId always.
Proof. again. by destruct x, j. Qed.
#[export] Instance again_search : Again search_v (opt_obj normalizeSearch) always.
Proof.
  record_again. unfold normalizeSearch at 1. unfold search_v. img_fields.
  cbn [normalizeSearch ws_enabled ws_provider ws_apiKey ws_timeoutMs ws_maxResults ws_region ws_fetchTop ws_fetchMaxBytes].
  unfold normalizeSearch. by rewrite !always_field by auto with t560.
Qed.
#[export] Instance again_fetch : Again fetch_v (opt_obj normalizeFetch) always.
Proof.
  record_again. unfold normalizeFetch at 1. unfold fetch_v. img_fields.
  cbn [normalizeFetch wf_enabled wf_timeoutMs wf_maxBytes]. unfold normalizeFetch.
  by rewrite !always_field by auto with t560.
Qed.
#[export] Instance again_web : Again web_v (opt_obj normalizeWeb) always.
Proof.
  record_again. unfold normalizeWeb at 1. unfold web_v. img_fields. cbn [normalizeWeb w_search w_fetch].
  unfold normalizeWeb. by rewrite !always_field by auto with t560.
Qed.

#[export] Instance again_toolPolicy : Again toolPolicy_v normalizeToolPolicy always.
Proof.
  split; [done|]. intros j v x S _. unfold normalizeToolPolicy at 1. destruct (negb (is_object v)); [done|].
  intros H. set (a := normalizeStringList (get_prop "allow" v)) in *. set (d := normalizeStringList (get_prop "deny" v)) in *.
  assert (x = mkToolPolicy a d) as -> by (destruct a, d; congruence).
  unfold normalizeToolPolicy, toolPolicy_v. rewrite img_obj. cbn [negb]. img_fields. cbn [tp_allow tp_deny].
  subst a d. rewrite !always_field by auto with t560. exact H.
Qed.

(** Routes. *)
Definition real (s : string) : Prop := trim s = s /\ hasRealValue (Some s) = true.
Lemma real_truthy s : hasRealValue (Some s) = true -> truthy s = true.
Proof. simpl. by destruct (truthy s). Qed.

Lemma parseSlot_real v t :
  parseSlot v = Some t -> exists p m, t = mkTarget (Some p) (Some m) /\ real p /\ real m.
Proof.
  unfold parseSlot. destruct (negb (is_object v)); [done|].
  set (p := trim _). set (m := trim _). destruct (hasRealValue (Some p)) eqn:P; [|done].
  destruct (hasRealValue (Some m)) eqn:M; [|done]. intros [= <-]. exists p, m.
  split; [done|]. split; (split; [apply trim_idemp|done]).
Qed.
#[export] Instance again_slot : Again target_v parseSlot always.
Proof.
  again. apply parseSlot_real in H as (p & m & -> & [Tp Rp] & [Tm Rm]). unfold parseSlot, target_v.
  rewrite img_obj. cbn [negb]. img_fields. cbn [t_provider t_model opt_v].
  replace (img j (VStr p)) with (VStr p) by (by destruct j). replace (img j (VStr m)) with (VStr m) by (by destruct j).
  cbn [opt_str default from_option id]. by rewrite Tp, Tm, Rp, Rm.
Qed.
#[export] Instance again_routing : Again routing_v normalizeRouting always.
Proof.
  split; [done|]. intros j v x S _. unfold normalizeRouting at 1. destruct (negb (is_object v)); [done|]. intros H.
  set (d := parseSlot (get_prop "default" v)) in *. set (p := parseSlot (get_prop "planning" v)) in *.
  set (c := parseSlot (get_prop "coding" v)) in *.
  assert (x = mkRouting d p c) as -> by (destruct d, p, c; congruence).
  unfold normalizeRouting, routing_v. rewrite img_obj. cbn [negb]. img_fields. cbn [r_default r_planning r_coding].
  subst d p c. rewrite !always_field by auto with t560. exact H.
Qed.

(** Objects with computed keys. *)
Definition keyed {A} (g : string -> value -> option A) (m : list (string * A)) : Prop :=
  NoDup (keys m) /\ "__proto__" ∉ keys m /\
  Forall (fun e => exists v, json_stable v /\ g e.1 v = Some e.2) m.

Lemma entries_map_keyed {A} (g : string -> value -> option A) raw :
  json_stable raw -> keyed g (entries_map g raw).
Proof.
  intros S. pose proof (json_stable_entries raw S) as F. unfold entries_map.
  assert (keyed g []) as K by (repeat split; [constructor|set_solver|constructor]).
  revert K. generalize (@nil (string * A)) as acc. induction F as [|[k w] es [Sw _] F IH]; intros acc K; [done|].
  cbn [fold_left fst snd] in *. apply IH. destruct (g k w) as [x|] eqn:G; [|done].
  unfold assign. destruct (k =? "__proto__")%string eqn:E; [done|]. apply String.eqb_neq in E.
  destruct K as (N & P & H). repeat split.
  - by apply NoDup_mset.
  - rewrite elem_of_keys_mset. naive_solver.
  - apply Forall_mset; [|done]. exists w. by split.
Qed.

Lemma entries_fold_id {A} (g : string -> value -> option A) es m acc :
  Forall2 (fun e x => e.1 = x.1 /\ g e.1 e.2 = Some x.2) es m ->
  NoDup (keys (acc ++ m)) -> "__proto__" ∉ keys m ->
  fold_left (fun acc e => match g e.1 e.2 with Some x => assign e.1 x acc | None => acc end) es acc = acc ++ m.
Proof.
  intros F. revert acc. induction F as [|[k w] [k' x] es m [E G] F IH]; intros acc N P; [by rewrite app_nil_r|].
  cbn [fst snd fold_left] in *. subst k'. rewrite G.
  assert (k ∉ keys acc) as K.
  { unfold keys in *. rewrite map_app in N. cbn [map fst] in N. apply NoDup_app in N as (_ & D & _).
    intros K. apply (D k K). set_solver. }
  assert (assign k x acc = acc ++ [(k, x)]) as ->.
  { unfold assign. replace (k =? "__proto__")%string with false by (symmetry; apply String.eqb_neq; set_solver).
    by apply mset_new. }
  rewrite (IH (acc ++ [(k, x)])); [by rewrite <- app_assoc| |set_solver].
  by rewrite <- app_assoc.
Qed.

Lemma img_map {A} (enc : A -> value) j m :
  (forall x, enc x <> VUndef) -> img j (map_v enc m) = VObj (map (fun e => (e.1, img j (enc e.2))) m).
Proof.
  intros D. destruct j; [|done]. unfold map_v, img, json_field. rewrite json_image_obj. f_equal.
  induction m as [|[k x] m IH]; [done|]. cbn [map fst snd json_props]. rewrite <- IH.
  specialize (D x). by destruct (enc x).
Qed.

Lemma entries_map_again {A} (g : string -> value -> option A) (enc : A -> value) (P : string -> A -> Prop) raw j :
  json_stable raw -> (forall x, enc x <> VUndef) ->
  (forall k v x, json_stable v -> P k x -> g k v = Some x -> g k (img j (enc x)) = Some x) ->
  Forall (fun e => P e.1 e.2) (entries_map g raw) ->
  entries_map g (img j (map_v enc (entries_map g raw))) = entries_map g raw.
Proof.
  intros S D H F. destruct (entries_map_keyed g raw S) as (N & Pr & K). revert N Pr K F.
  generalize (entries_map g raw) as m. intros m N Pr K F. rewrite img_map by done. unfold entries_map.
  cbn [object_entries]. rewrite (entries_fold_id g _ m []); [done| |done|done].
  clear N Pr. induction m as [|[k x] m IH]; [constructor|]. apply Forall_cons in K as [(v & Sv & E) K].
  apply Forall_cons in F as [Px F]. constructor; [|by apply IH]. cbn [fst snd] in *. split; [done|]. eauto.
Qed.

Lemma again_entries {A} (g : string -> value -> option A) (enc : A -> value) (P : string -> A -> Prop) :
  (forall x, enc x <> VUndef) ->
  (forall j k v x, json_stable v -> P k x -> g k v = Some x -> g k (img j (enc x)) = Some x) ->
  Again (map_v enc) (opt_entries g) (Forall (fun e => P e.1 e.2)).
Proof.
  intros D H. split; [done|]. intros j raw m S F. unfold opt_entries at 1. destruct (is_object raw); [|done].
  intros [-> N]%non_empty_Some. unfold opt_entries.
  replace (is_object (img j (map_v enc (entries_map g raw)))) with true by (unfold map_v; by rewrite img_obj).
  rewrite (entries_map_again g enc P) by eauto. by apply non_empty_ne.
Qed.
Lemma again_entries_all {A} (dec : value -> option A) (enc : A -> value) :
  (forall x, enc x <> VUndef) -> Again enc dec always ->
  Again (map_v enc) (opt_entries (fun _ v => dec v)) always.
Proof.
  intros D [U H]. pose proof (again_entries (fun _ v => dec v) enc (fun _ _ => True) D) as G.
  destruct G as [G1 G2]; [by eauto|]. split; [done|]. intros j v x S _. apply G2; [done|]. by apply Forall_true.
Qed.

#[export] Instance again_byProvider : Again (map_v toolPolicy_v) normalizeByProvider always.
Proof. apply again_entries_all; [done|apply _]. Qed.
#[export] Instance again_skillEntry :
  Again skillEntry_v (opt_obj (fun e => mkSkillEntry (opt_bool (get_prop "enabled" e)))) always.
Proof. record_again. unfold skillEntry_v. img_fields. cbn [se_enabled]. by rewrite !always_field by auto with t560. Qed.
#[export] Instance again_skillEntries : Again (map_v skillEntry_v) normalizeSkillEntries always.
Proof. apply again_entries_all; [done|apply _]. Qed.

#[export] Instance again_tools : Again tools_v normalizeTools always.
Proof.
  again. unfold normalizeTools in H. destruct (negb (is_object v)); [done|]. injection H as <-.
  unfold normalizeTools, tools_v. rewrite img_obj. cbn [negb]. img_fields.
  cbn [dangerouslyUnrestricted profile tl_allow alsoAllow tl_deny byProvider runtime tl_fs tl_exec tl_web selfProtection].
  by rewrite !always_field by auto with t560.
Qed.
#[export] Instance again_skills : Again skills_v normalizeSkills always.
Proof.
  again. unfold normalizeSkills in H. destruct (negb (is_object v)); [done|]. injection H as <-.
  unfold normalizeSkills, skills_v. rewrite img_obj. cbn [negb]. img_fields. cbn [sk_allow sk_dirs sk_entries].
  by rewrite !always_field by auto with t560.
Qed.

(** Budgets. *)
Lemma positive_int z : positive (NInt z) = (0 <? z)%Z.
Proof. unfold positive, num_lt, NInt. cbn [isFinite andb]. change (pow10 0) with 1%Z. by rewrite !Z.mul_1_r. Qed.
Lemma positive_finite n : positive n = true -> isFinite n = true.
Proof. unfold positive. by intros [F _]%andb_true_iff. Qed.
Lemma positive_floor n : positive n = true -> exists z, num_floor n = NInt z /\ (0 <= z)%Z.
Proof.
  intros P. destruct n as [| |m k]; try done. unfold positive in P. simpl in P.
  apply Z.ltb_lt in P. unfold pow10 in P. simpl in P. exists (m / pow10 k)%Z. split; [done|].
  apply Z.div_pos; [lia|]. unfold pow10. lia.
Qed.
(** [n > 0 ? Math.floor(n) : undefined] and [n > 0 ? n : undefined] for [n = Number(v)] *)
Definition floored (v : value) : option num :=
  if positive (to_number v) then Some (num_floor (to_number v)) else None.
Definition kept (v : value) : option num := if positive (to_number v) then Some (to_number v) else None.

#[export] Instance again_floored : Again VNum floored (fun n => to_bool (VNum n) = true).
Proof.
  split; [done|]. intros j v x S T. unfold floored at 1. destruct (positive (to_number v)) eqn:P; [|done].
  intros [= <-]. destruct (positive_floor _ P) as (z & E & Z0). rewrite E in *. rewrite img_num by done.
  unfold floored. cbn [to_number]. rewrite positive_int, num_floor_int.
  cbn in T. destruct (Z.ltb_spec 0 z); [done|]. assert (z = 0%Z) as -> by lia. done.
Qed.
#[export] Instance again_kept : Again VNum kept always.
Proof.
  again. unfold kept in H. destruct (positive (to_number v)) eqn:P; [|done]. injection H as <-.
  rewrite img_num by (by apply positive_finite). unfold kept. cbn [to_number]. by rewrite P.
Qed.
Lemma falsy_true n : falsy_num (Some n) = false <-> to_bool (VNum n) = true.
Proof. cbn. destruct n; simpl; try (split; congruence). destruct (m =? 0)%Z; simpl; split; congruence. Qed.

Definition budget_ok (u : UsageConfig) : Prop := forall n, tokenBudget u = Some n -> to_bool (VNum n) = true.
Lemma normalizeUsage_eq raw :
  normalizeUsage raw =
  (if negb (is_object raw) || is_array raw then None
   else let t := floored (get_prop "tokenBudget" raw) in let c := kept (get_prop "costBudgetUsd" raw) in
        if falsy_num t && falsy_num c then None else Some (mkUsage t c)).
Proof. reflexivity. Qed.
#[export] Instance again_usage : Again usage_v normalizeUsage budget_ok.
Proof.
  split; [done|]. intros j v x S B. rewrite !normalizeUsage_eq. destruct (negb (is_object v) || is_array v); [done|].
  cbv zeta. destruct (falsy_num _ && falsy_num _) eqn:F; [done|]. intros [= <-].
  unfold usage_v. rewrite img_obj. replace (is_array (img j (VObj _))) with false by (by destruct j). cbn [negb orb].
  img_fields. cbn [tokenBudget costBudgetUsd]. rewrite (again_field (P := fun n => to_bool (VNum n) = true)) by eauto with t560.
  rewrite always_field by auto with t560. by rewrite F.
Qed.

Lemma normalizeAgents_eq raw :
  normalizeAgents raw =
  (if negb (is_object raw) then None
   else let defaultsRaw := get_prop "defaults" raw in
        if negb (is_object defaultsRaw) then None
        else let b := floored (get_prop "bootstrapMaxChars" defaultsRaw) in
             if falsy_num b then None else Some (mkAgents (Some (mkDefaults b)))).
Proof. reflexivity. Qed.
#[export] Instance again_agents : Again agents_v normalizeAgents always.
Proof.
  again. rewrite !normalizeAgents_eq in *. destruct (negb (is_object v)); [done|]. cbv zeta in H.
  destruct (negb (is_object (get_prop "defaults" v))); [done|]. destruct (falsy_num _) eqn:F; [done|]. injection H as <-.
  unfold agents_v. rewrite img_obj. cbn [negb]. cbv zeta. img_fields. cbn [ag_defaults opt_v].
  unfold defaults_v. rewrite img_obj. cbn [negb]. img_fields. cbn [bootstrapMaxChars].
  rewrite (again_field (P := fun n => to_bool (VNum n) = true)); [by rewrite F|by auto with t560|].
  intros n E. rewrite E in F. by apply falsy_true.
Qed.

(** The channel. *)
Lemma dmPolicy_again j p : parseTelegramDmPolicy (img j (dmPolicy_v p)) = p.
Proof. by destruct p, j. Qed.

Definition unprefixed (l : list string) : Prop := Forall (fun s => strip_channel s = s) l.
Definition allow_list (v : value) : option (list string) :=
  match v with
  | VArr l => non_empty (List.filter truthy (map (fun e => strip_channel (to_string e)) l))
  | _ => None
  end.
#[export] Instance again_allowFrom : Again strs_v allow_list unprefixed.
Proof.
  split; [done|]. intros j v x S U. destruct v; try done. cbn [allow_list]. intros [E N]%non_empty_Some.
  rewrite img_strs. unfold strs_v, allow_list. rewrite map_map. cbn [to_string].
  assert (forall s, s ∈ x -> truthy s = true) as T.
  { intros s Hs. rewrite E in Hs. apply list_elem_of_In, filter_In in Hs. tauto. }
  replace (List.filter truthy (map (fun s => strip_channel s) x)) with x; [apply non_empty_ne; congruence|].
  clear E N. induction U as [|s x E U IH]; [done|]. cbn [map List.filter]. rewrite E, T by set_solver.
  f_equal. apply IH. set_solver.
Qed.

Definition chat_ids (v : value) : option (list num) :=
  match v with VArr l => non_empty (List.filter isInteger (map to_number l)) | _ => None end.
Lemma isInteger_finite n : isInteger n = true -> isFinite n = true.
Proof. by destruct n. Qed.
#[export] Instance again_chatIds : Again (fun l => VArr (map VNum l)) chat_ids always.
Proof.
  again. destruct v; try done. cbn [chat_ids] in H. apply non_empty_Some in H as [E N].
  assert (Forall (fun n => isInteger n = true) x) as F.
  { rewrite E. apply Forall_forall. intros n Hn. apply list_elem_of_In, filter_In in Hn. tauto. }
  assert (img j (VArr (map VNum x)) = VArr (map VNum x)) as ->.
  { destruct j; [|done]. unfold img, json_field. rewrite json_image_arr, map_map. f_equal.
    apply map_ext_in. intros n Hn%list_elem_of_In. rewrite Forall_forall in F. simpl. by rewrite isInteger_finite by auto. }
  unfold chat_ids. rewrite map_map. cbn [to_number]. rewrite map_id.
  replace (List.filter isInteger x) with x; [apply non_empty_ne; congruence|]. clear E N.
  induction F as [|n x I F IH]; [done|]. cbn [List.filter]. rewrite I. by rewrite <- IH.
Qed.

Definition channels_ok (c : ChannelConfig) : Prop :=
  forall t l, telegram c = Some t -> allowFrom t = Some l -> unprefixed l.
Lemma normalizeChannels_eq raw :
  normalizeChannels raw =
  (if negb (is_object raw) then None
   else let obj := get_prop "telegram" raw in
        if negb (is_object obj) then None
        else Some (mkChannels (Some
          (mkTelegram (opt_str (get_prop "botToken" obj)) (Some (parseTelegramDmPolicy (get_prop "dmPolicy" obj)))
             (allow_list (get_prop "allowFrom" obj)) (chat_ids (get_prop "allowedChatIds" obj)))))).
Proof. unfold normalizeChannels, allow_list, chat_ids. repeat (case_match; try done). Qed.
#[export] Instance again_channels : Again channels_v normalizeChannels channels_ok.
Proof.
  split; [done|]. intros j v x S C. rewrite !normalizeChannels_eq. destruct (negb (is_object v)); [done|]. cbv zeta.
  destruct (negb (is_object (get_prop "telegram" v))); [done|]. intros [= <-].
  unfold channels_v. rewrite img_obj. cbn [negb]. img_fields. cbn [telegram opt_v].
  unfold telegram_v. rewrite img_obj. cbn [negb]. img_fields. cbn [botToken dmPolicy allowFrom allowedChatIds opt_v].
  rewrite !always_field by auto with t560. rewrite (again_field (P := unprefixed)); [|by auto with t560|].
  - rewrite dmPolicy_again, (always_field (dec := chat_ids)) by auto with t560. done.
  - intros l E. eapply C; [reflexivity|exact E].
Qed.

(** Providers. *)
#[export] Instance again_compat : Again id (opt_obj id) always.
Proof.
  again. unfold opt_obj in *. destruct (is_object v) eqn:O; [|done]. injection H as <-. unfold id.
  replace (img j v) with v by (by destruct j). by rewrite O.
Qed.

Lemma mset_fold_id {A} (m acc : list (string * A)) :
  NoDup (keys (acc ++ m)) -> fold_left (fun acc e => mset e.1 e.2 acc) m acc = acc ++ m.
Proof.
  revert acc. induction m as [|[k x] m IH]; intros acc N; [by rewrite app_nil_r|]. cbn [fold_left fst snd].
  assert (k ∉ keys acc) as K.
  { unfold keys in *. rewrite map_app in N. cbn [map fst] in N. apply NoDup_app in N as (_ & D & _).
    intros K. apply (D k K). set_solver. }
  rewrite mset_new by done. rewrite IH; rewrite <- app_assoc; done.
Qed.

Definition header_ok (e : string * string) : bool := truthy (trim e.1) && truthy (trim e.2).
Lemma normalizeHeaders_ok v :
  NoDup (keys (normalizeHeaders v)) /\ Forall (fun e => header_ok e = true) (normalizeHeaders v).
Proof.
  unfold normalizeHeaders. fold header_ok.
  assert (Forall (fun e => header_ok e = true)
    (List.filter header_ok (map (fun e => (e.1, to_string e.2)) (object_entries v)))) as F.
  { apply Forall_forall. intros e [_ E]%list_elem_of_In%filter_In. exact E. }
  assert (NoDup (keys (@nil (string * string))) /\ Forall (fun e => header_ok e = true) []) as K by (split; constructor).
  revert K. generalize (@nil (string * string)) as acc. revert F.
  generalize (List.filter header_ok (map (fun e => (e.1, to_string e.2)) (object_entries v))) as es.
  induction 1 as [|[k x] es E F IH]; intros acc [N K]; [done|]. cbn [fold_left fst snd]. apply IH.
  split; [by apply NoDup_mset|by apply Forall_mset].
Qed.
Definition normal_headers (v : value) : option (list (string * string)) :=
  if is_object v then non_empty (normalizeHeaders v) else None.
#[export] Instance again_headers : Again (map_v VStr) normal_headers always.
Proof.
  again. unfold normal_headers in *. destruct (is_object v); [|done]. apply non_empty_Some in H as [-> Ne].
  destruct (normalizeHeaders_ok v) as [N F]. revert N F Ne. generalize (normalizeHeaders v) as m. intros m N F Ne.
  replace (is_object (img j (map_v VStr m))) with true by (unfold map_v; by rewrite img_obj).
  rewrite img_map by done. replace (normalizeHeaders _) with m; [by apply non_empty_ne|].
  unfold normalizeHeaders. cbn [object_entries]. rewrite map_map. cbn [fst snd]. fold header_ok.
  assert (map (fun e => (e.1, to_string (img j (VStr e.2)))) m = m) as ->.
  { rewrite <- (map_id m) at 2. apply map_ext. intros [k x]. by destruct j. }
  assert (List.filter header_ok m = m) as ->.
  { clear - F. induction F as [|e m E F IH]; [done|]. cbn [List.filter]. by rewrite E, IH. }
  by rewrite mset_fold_id.
Qed.

Definition named (_ : string) (p : ProviderProfile) : Prop := trim (provider p) = provider p.
Lemma authMode_again j m : normalizeAuthMode (img j (authMode_v m)) = m.
Proof. by destruct m, j. Qed.

Lemma normalizeProfile_again j id v :
  json_stable v -> named id (normalizeProfile id v) ->
  normalizeProfile id (img j (profile_v (normalizeProfile id v))) = normalizeProfile id v.
Proof.
  intros S Nm. unfold normalizeProfile at 1. unfold profile_v. img_fields.
  cbn [enabled provider authMode apiKey oauthToken token baseUrl api headers compat models normalizeProfile].
  rewrite authMode_again. unfold normalizeProfile. f_equal.
  - cbn [opt_v]. by destruct (get_prop "enabled" v) as [| |[]| | | |], j.
  - unfold named in Nm. cbn [provider normalizeProfile] in Nm. revert Nm.
    set (p := default id (opt_trim (get_prop "provider" v))). intros Nm.
    replace (img j (VStr p)) with (VStr p) by (by destruct j). cbn [opt_trim]. rewrite Nm.
    destruct (truthy p) eqn:T; [done|]. cbn [default from_option]. subst p.
    destruct (opt_trim (get_prop "provider" v)) as [s|] eqn:E; [|done]. cbn [default from_option] in T. exfalso.
    destruct (get_prop "provider" v) as [| | | |u| |]; simpl in E; try done.
    destruct (truthy (trim u)) eqn:U; [|done]. injection E as <-.
    unfold Datatypes.id in T. congruence.
  - apply always_field. auto with t560.
  - apply always_field. auto with t560.
  - apply always_field. auto with t560.
  - apply always_field. auto with t560.
  - apply always_field. auto with t560.
  - apply (always_field (enc := map_v VStr) (dec := normal_headers)). auto with t560.
  - apply always_field. auto with t560.
  - apply (always_field (dec := fun v => match v with VArr l => Some _ | _ => None end)). auto with t560.
Qed.
#[export] Instance again_providers :
  Again (map_v profile_v) normalizeProviders (Forall (fun e => named e.1 e.2)).
Proof.
  apply again_entries; [done|]. intros j k v x S Nm. unfold opt_obj. destruct (is_object v); [|done]. intros [= <-].
  unfold profile_v at 1. rewrite img_obj. f_equal. by apply normalizeProfile_again.
Qed.

(** What a normalised configuration needs for a second pass to leave it alone:
    no padded provider name, no channel prefix left, no budget of zero tokens. *)
Record settled (c : T560Config) : Prop := {
  se_providers : forall ps, c_providers c = Some ps -> Forall (fun e => named e.1 e.2) ps;
  se_channels : forall ch, c_channels c = Some ch -> channels_ok ch;
  se_usage : forall u, c_usage c = Some u -> budget_ok u;
}.

Lemma normalizeConfig_again j v :
  json_stable v -> settled (normalizeConfig v) ->
  normalizeConfig (img j (config_value (normalizeConfig v))) = normalizeConfig v.
Proof.
  intros S [P C U]. unfold normalizeConfig in P, C, U |- * at 1. unfold config_value. rewrite img_obj. cbn [negb]. img_fields.
  unfold normalizeConfig. destruct (negb (is_object v)) eqn:O; [by destruct j|].
  cbn [c_provider c_models c_providers c_routing c_channels c_tools c_skills c_usage c_agents] in *.
  rewrite !always_field by auto with t560.
  rewrite (again_field (dec := normalizeProviders)), (again_field (dec := normalizeChannels)),
    (again_field (dec := normalizeUsage)) by auto with t560.
  by rewrite (always_field (dec := normalizeRouting)), (always_field (dec := normalizeTools)),
    (always_field (dec := normalizeSkills)), (always_field (dec := normalizeAgents)) by auto with t560.
Qed.

(** ** The state directory *)

Section Disk.
Variables (env : list (string * string)) (pcwd home : string).

Lemma segments_abs p : isAbsolute p = true -> segments pcwd p = normalize_segments (raw_segments p).
Proof. intros A. unfold segments. by rewrite A. Qed.
Lemma isAbsolute_of_segments l : isAbsolute (of_segments l) = true.
Proof. apply startsWith_spec. by eexists. Qed.
Lemma isAbsolute_join2 a b : isAbsolute (join2 a b) = true.
Proof.
  unfold join2. cbv zeta. destruct (_ && _); [|apply isAbsolute_of_segments].
  reflexivity.
Qed.
Lemma segments_file dir f :
  isAbsolute dir = true -> file_name f -> segments pcwd (join2 dir f) = segments pcwd dir ++ [f].
Proof.
  intros A F. rewrite join2_file by done. rewrite !segments_abs by (done || apply isAbsolute_of_segments).
  pose proof (segments_plain pcwd dir) as P. rewrite segments_abs in P by done.
  assert (Forall plain_seg (normalize_segments (raw_segments dir) ++ [f])) as P'.
  { apply Forall_app. split; [done|]. destruct F as (? & ? & ? & ?). by apply Forall_singleton. }
  rewrite raw_segments_of_segments by done. by apply normalize_segments_id.
Qed.
Context (home_abs : isAbsolute home = true).
Notation stateDir := (resolveStateDir env pcwd home).
Notation root := (segments pcwd stateDir).

Lemma stateDir_abs : isAbsolute stateDir = true.
Proof.
  unfold resolveStateDir. repeat case_match; auto using isAbsolute_join2, isAbsolute_of_segments.
Qed.
Lemma segments_state f : file_name f -> segments pcwd (join2 stateDir f) = root ++ [f].
Proof. apply segments_file, stateDir_abs. Qed.

(** Every directory on the way is there. *)
Fixpoint dirs (above below : list string) (d : disk) : Prop :=
  match below with
  | [] => True
  | s :: below' => mget (above ++ [s]) d = Some Dir /\ dirs (above ++ [s]) below' d
  end.
Lemma dirs_id below : forall above d, dirs above below d -> mkdirs above below d = Ok d.
Proof. induction below as [|s below IH]; intros above d; simpl; [done|]. intros [-> H]. by apply IH. Qed.
Lemma dirs_mset below : forall above d p n,
  length above + length below < length p -> dirs above below d -> dirs above below (mset p n d).
Proof.
  induction below as [|s below IH]; intros above d p n L; simpl in *; [done|]. intros [H K]. split.
  - rewrite mget_mset_ne; [done|]. intros E. subst p. rewrite length_app in L. simpl in L. lia.
  - apply IH; [rewrite length_app; simpl; lia|done].
Qed.
Lemma dirs_last below : forall above d, dirs above below d -> below <> [] -> mget (above ++ below) d = Some Dir.
Proof.
  induction below as [|s below IH]; intros above d; simpl; [done|]. intros [H K] _.
  destruct (decide (below = [])) as [->|N]; [done|]. specialize (IH _ _ K N). by rewrite <- app_assoc in IH.
Qed.
(** [d'] has what [d] has, and no document more. *)
Definition grown (d d' : disk) : Prop :=
  (forall p n, mget p d = Some n -> mget p d' = Some n) /\ (forall p v, mget p d' = Some (Json v) -> mget p d = Some (Json v)).
Lemma grown_refl d : grown d d.
Proof. by split. Qed.
Lemma grown_trans d d' d'' : grown d d' -> grown d' d'' -> grown d d''.
Proof. intros [A B] [C D]. split; eauto. Qed.
Lemma grown_mset p n d : mget p d = None -> (forall v, n <> Json v) -> grown d (mset p n d).
Proof. intros N J. split; intros q m; rewrite mget_mset; case_bool_decide; subst; naive_solver. Qed.

Lemma mkdirs_grown below : forall above d d',
  mkdirs above below d = Ok d' -> grown d d' /\ dirs above below d'.
Proof.
  induction below as [|s below IH]; intros above d d'; simpl; [intros [= <-]; split; [apply grown_refl|done]|].
  destruct (mget (above ++ [s]) d) as [[| |]|] eqn:G; try done; intros H; destruct (IH _ _ _ H) as [[A B] D].
  - split; [done|]. split; auto.
  - pose proof (grown_mset (above ++ [s]) Dir d G ltac:(done)) as W. split; [by eapply grown_trans|].
    split; [|done]. apply A, mget_mset_eq.
Qed.

Lemma root_parent d : dirs [] root d -> mget root (([], Dir) :: d) = Some Dir.
Proof.
  intros D. simpl. case_bool_decide as E; [done|]. pose proof (dirs_last root [] d D) as L. by apply L.
Qed.
Lemma writeFile_state f n d :
  file_name f -> dirs [] root d -> node_at pcwd (join2 stateDir f) d <> Some Dir ->
  writeFile pcwd (join2 stateDir f) n d = Ok (mset (root ++ [f]) n d).
Proof.
  intros F D N. unfold writeFile. rewrite segments_state by done. rewrite removelast_last, root_parent by done.
  destruct (node_at pcwd (join2 stateDir f) d) as [[| |]|]; done.
Qed.
Lemma node_at_state f d : file_name f -> node_at pcwd (join2 stateDir f) d = mget (root ++ [f]) d.
Proof. intros F. unfold node_at. rewrite segments_state by done. by destruct root. Qed.

Lemma file_names : file_name "config.json" /\ file_name "soul.md" /\ file_name "users.md" /\ file_name "user.md".
Proof. unfold file_name, seg_ok. repeat split; by_decide. Qed.
Definition config_file : file_name "config.json" := proj1 file_names.
Definition soul_file : file_name "soul.md" := proj1 (proj2 file_names).
Definition users_file : file_name "users.md" := proj1 (proj2 (proj2 file_names)).
Definition user_file : file_name "user.md" := proj2 (proj2 (proj2 file_names)).

Record ready (d : disk) : Prop := {
  rd_dirs : dirs [] root d;
  rd_soul : mget (root ++ ["soul.md"]) d <> None;
  rd_users : mget (root ++ ["users.md"]) d <> None;
}.
Lemma exists_state f d : file_name f -> fileExists pcwd (join2 stateDir f) d = true <-> mget (root ++ [f]) d <> None.
Proof. intros F. unfold fileExists. rewrite node_at_state by done. destruct (mget _ d); split; congruence. Qed.

Lemma ready_ensure d : ready d -> ensureStateDir env pcwd home d = Ok d.
Proof.
  intros [D S U]. unfold ensureStateDir, mkdir. rewrite dirs_id by done. cbn [rbind].
  apply (exists_state _ d soul_file) in S. apply (exists_state _ d users_file) in U.
  unfold resolveSoulPath, resolveUsersPath. rewrite S. cbn [rbind]. by rewrite U.
Qed.

Lemma create_if_absent f n d :
  file_name f -> dirs [] root d -> (forall v, n <> Json v) ->
  exists d', (if fileExists pcwd (join2 stateDir f) d then Ok d else writeFile pcwd (join2 stateDir f) n d) = Ok d' /\
    grown d d' /\ dirs [] root d' /\ mget (root ++ [f]) d' <> None.
Proof.
  intros F D J. destruct (fileExists pcwd (join2 stateDir f) d) eqn:E.
  - exists d. repeat split; try done. by apply exists_state.
  - assert (mget (root ++ [f]) d = None) as G.
    { unfold fileExists in E. rewrite node_at_state in E by done. by destruct (mget (root ++ [f]) d). }
    eexists. split; [apply writeFile_state; [done|done|]|].
    + rewrite node_at_state by done. congruence.
    + split; [by apply grown_mset|]. split; [apply dirs_mset; [rewrite length_app; simpl; lia|done]|].
      by rewrite mget_mset_eq.
Qed.

(** Making the state directory ready fails only when a file is in the way; it
    adds the two default texts where they are missing and changes nothing else. *)
Lemma ensure_spec d :
  match mkdir pcwd stateDir d with
  | Ok _ => exists d', ensureStateDir env pcwd home d = Ok d' /\ grown d d' /\ ready d'
  | Throw e => ensureStateDir env pcwd home d = Throw e
  end.
Proof.
  unfold ensureStateDir. destruct (mkdir pcwd stateDir d) as [d1|] eqn:M; [|done]. cbn [rbind].
  apply mkdirs_grown in M as [G1 D1].
  destruct (create_if_absent "soul.md" (Text (DEFAULT_SOUL +:+ lf)) d1 soul_file D1 ltac:(done)) as (d2 & E2 & G2 & D2 & S2).
  unfold resolveSoulPath. rewrite E2. cbn [rbind].
  destruct (create_if_absent "users.md" (Text (DEFAULT_USERS +:+ lf)) d2 users_file D2 ltac:(done)) as (d3 & E3 & G3 & D3 & S3).
  exists d3. unfold resolveUsersPath. rewrite E3. split; [done|]. split; [eauto using grown_trans|].
  split; [done| |done]. destruct (mget (root ++ ["soul.md"]) d2) eqn:E; [|done]. apply G3 in E. congruence.
Qed.
Lemma ensure_ok d d' : ensureStateDir env pcwd home d = Ok d' -> grown d d' /\ ready d'.
Proof.
  intros E. pose proof (ensure_spec d) as H. destruct (mkdir pcwd stateDir d); [|congruence].
  destruct H as (d'' & E' & K). assert (d'' = d') as -> by congruence. done.
Qed.

Lemma readConfig_ok d c d1 :
  readConfig env pcwd home d = Ok (c, d1) ->
  grown d d1 /\ ready d1 /\ c = normalizeConfig (readJsonIfExists pcwd (resolveConfigPath env pcwd home) d1).
Proof.
  unfold readConfig. destruct (ensureStateDir env pcwd home d) as [d2|] eqn:E; [|done]. intros [= <- <-].
  apply ensure_ok in E as [G R]. done.
Qed.

Lemma ready_write n d : ready d -> ready (mset (root ++ ["config.json"]) n d).
Proof.
  intros [D S U]. split; [by apply dirs_mset; [rewrite length_app; simpl; lia|]|..]; rewrite mget_mset;
    case_bool_decide; done.
Qed.

Lemma config_written d c :
  ready d -> node_at pcwd (resolveConfigPath env pcwd home) d <> Some Dir ->
  writeConfig env pcwd home c d =
  Ok (mset (root ++ ["config.json"]) (Json (json_image (config_value (normalizeConfig (config_value c))))) d).
Proof.
  intros R N. unfold writeConfig. rewrite ready_ensure by done. cbn [rbind]. unfold resolveConfigPath.
  apply writeFile_state; [apply config_file|apply R|apply N].
Qed.

Lemma img_config c : img true (config_value c) = json_image (config_value c).
Proof. reflexivity. Qed.

(** Documents on the disk are JSON. *)
Definition json_disk (d : disk) : Prop := forall p v, mget p d = Some (Json v) -> json_image v = v.

Lemma read_stable d : json_disk d -> json_stable (readJsonIfExists pcwd (resolveConfigPath env pcwd home) d).
Proof.
  intros J. unfold readJsonIfExists, resolveConfigPath. rewrite node_at_state by apply config_file.
  destruct (mget (root ++ ["config.json"]) d) as [[| |v]|] eqn:E; try done. apply json_image_stable. by eapply J.
Qed.

Lemma other_file p n d :
  segments pcwd p <> root ++ ["config.json"] -> node_at pcwd p (mset (root ++ ["config.json"]) n d) = node_at pcwd p d.
Proof. intros N. unfold node_at. destruct (segments pcwd p) eqn:E; [done|]. by rewrite mget_mset_ne. Qed.

(** C9: a configuration that was read can be written and read again: nothing is
    lost, no other file changes, and reading changes nothing.  The configuration
    must be settled, the path must not be a directory, and what the disk holds
    as JSON must be JSON. *)
Theorem config_roundtrip d c d1 :
  json_disk d -> readConfig env pcwd home d = Ok (c, d1) -> settled c ->
  node_at pcwd (resolveConfigPath env pcwd home) d1 <> Some Dir ->
  exists d2, writeConfig env pcwd home c d1 = Ok d2 /\ readConfig env pcwd home d2 = Ok (c, d2) /\
    forall p, segments pcwd p <> segments pcwd (resolveConfigPath env pcwd home) ->
      node_at pcwd p d2 = node_at pcwd p d1.
Proof.
  intros J R S N. apply readConfig_ok in R as ([_ G] & Rd & E).
  assert (json_stable (readJsonIfExists pcwd (resolveConfigPath env pcwd home) d1)) as St.
  { apply read_stable. intros p v H. by eapply J, G. }
  pose proof (normalizeConfig_again false _ St) as A0. pose proof (normalizeConfig_again true _ St) as A1.
  rewrite <- E in *. specialize (A0 S). specialize (A1 S). rewrite img_config in A1. unfold img in A0.
  eexists. split; [by apply config_written|]. split.
  - unfold readConfig. rewrite ready_ensure by (by apply ready_write). cbn [rbind]. do 2 f_equal.
    unfold readJsonIfExists, resolveConfigPath. rewrite node_at_state, mget_mset_eq by apply config_file.
    rewrite A0. exact A1.
  - intros p P. unfold resolveConfigPath in P. rewrite segments_state in P by apply config_file. by apply other_file.
Qed.
End Disk.

(** ** Well-formed configurations *)

Definition texts_ok (o : option (list string)) : Prop := forall l, o = Some l -> trimmed_texts l /\ l <> [].
Definition at_least (low : Z) (o : option num) : Prop := forall n, o = Some n -> exists z, n = NInt z /\ (low <= z)%Z.
Definition real_target (t : RoutingTarget) : Prop :=
  exists p m, t = mkTarget (Some p) (Some m) /\ real p /\ real m.
Definition policy_ok (p : ToolPolicyConfig) : Prop :=
  texts_ok (tp_allow p) /\ texts_ok (tp_deny p) /\ (tp_allow p <> None \/ tp_deny p <> None).
Definition text_ok (o : option string) : Prop := forall s, o = Some s -> trim s = s /\ s <> "".

Record profile_ok (p : ProviderProfile) : Prop := {
  po_enabled : enabled p <> None;
  po_urls : text_ok (baseUrl p) /\ text_ok (api p);
  po_headers : forall h, headers p = Some h -> h <> [] /\ NoDup (keys h) /\ Forall (fun e => header_ok e = true) h;
  po_models : forall l, models p = Some l -> trimmed_texts l;
}.
Record tools_ok (t : ToolsConfig) : Prop := {
  to_lists : texts_ok (tl_allow t) /\ texts_ok (alsoAllow t) /\ texts_ok (tl_deny t);
  to_policies : (forall m, byProvider t = Some m -> m <> [] /\ NoDup (keys m) /\ Forall (fun e => policy_ok e.2) m) /\
                (forall p, runtime t = Some p -> policy_ok p);
  to_search : forall w s, tl_web t = Some w -> w_search w = Some s ->
    at_least 1000 (ws_timeoutMs s) /\ at_least 1 (ws_maxResults s) /\ at_least 0 (ws_fetchTop s) /\
    at_least 10000 (ws_fetchMaxBytes s);
  to_fetch : forall w f, tl_web t = Some w -> w_fetch w = Some f ->
    at_least 1000 (wf_timeoutMs f) /\ at_least 10000 (wf_maxBytes f);
  to_self : forall s, selfProtection t = Some s -> text_ok (sp_installRoot s) /\ texts_ok (sp_protectedPaths s);
}.
Record well_formed (c : T560Config) : Prop := {
  wf_providers : forall ps, c_providers c = Some ps -> ps <> [] /\ NoDup (keys ps) /\ Forall (fun e => profile_ok e.2) ps;
  wf_routes : forall s t, route c s = Some t -> real_target t;
  wf_tools : forall t, c_tools c = Some t -> tools_ok t;
  wf_skills : forall s, c_skills c = Some s -> texts_ok (sk_allow s) /\ texts_ok (sk_dirs s);
  wf_budget : forall u n, c_usage c = Some u -> costBudgetUsd u = Some n -> positive n = true;
  wf_bootstrap : forall a d, c_agents c = Some a -> ag_defaults a = Some d ->
    bootstrapMaxChars d <> None /\ at_least 1 (bootstrapMaxChars d);
  wf_telegram : forall t, telegram_config c = Some t ->
    dmPolicy t <> None /\ texts_ok (allowFrom t) /\
    (forall l, allowedChatIds t = Some l -> l <> [] /\ Forall (fun n => isInteger n = true) l);
}.

Lemma string_list_ok v : texts_ok (normalizeStringList v).
Proof. intros l. apply normalizeStringList_texts. Qed.
Lemma opt_trim_ok v : text_ok (opt_trim v).
Proof.
  intros s. destruct v as [| | | |u| |]; simpl; try done. destruct (truthy (trim u)) eqn:T; [|done].
  intros [= <-]. split; [apply trim_idemp|by apply truthy_true].
Qed.
Lemma opt_floor_ok low v : at_least low (opt_floor low v).
Proof. intros n (z & -> & L & _)%opt_floor_Some. eauto. Qed.
Lemma opt_obj_Some {A} (f : value -> A) v x : opt_obj f v = Some x -> x = f v.
Proof. unfold opt_obj. destruct (is_object v); [by intros [= <-]|done]. Qed.
#[export] Hint Resolve string_list_ok opt_trim_ok opt_floor_ok : t560.

Lemma entries_map_ok {A} (g : string -> value -> option A) (P : A -> Prop) raw :
  (forall k v x, g k v = Some x -> P x) ->
  NoDup (keys (entries_map g raw)) /\ Forall (fun e => P e.2) (entries_map g raw).
Proof.
  intros H. unfold entries_map. assert (NoDup (keys (@nil (string * A))) /\ Forall (fun e => P e.2) (@nil (string * A))) as K
    by (split; constructor).
  revert K. generalize (@nil (string * A)) as acc. induction (object_entries raw) as [|[k w] es IH]; intros acc [N F]; [done|].
  cbn [fold_left fst snd]. apply IH. destruct (g k w) as [x|] eqn:G; [|done]. unfold assign.
  destruct (k =? "__proto__")%string; [done|]. split; [by apply NoDup_mset|]. apply Forall_mset; [|done]. by eapply H.
Qed.
Lemma opt_entries_ok {A} (g : string -> value -> option A) (P : A -> Prop) raw m :
  (forall k v x, g k v = Some x -> P x) -> opt_entries g raw = Some m -> m <> [] /\ NoDup (keys m) /\ Forall (fun e => P e.2) m.
Proof.
  intros H. unfold opt_entries. destruct (is_object raw); [|done]. intros [-> N]%non_empty_Some. split; [done|].
  by apply entries_map_ok.
Qed.

Lemma normalizeProfile_ok id v : profile_ok (normalizeProfile id v).
Proof.
  split; cbn [normalizeProfile enabled baseUrl api headers models]; [done|split; auto with t560|..].
  - intros h. destruct (is_object (get_prop "headers" v)); [|done]. intros [-> N]%non_empty_Some.
    split; [done|]. apply normalizeHeaders_ok.
  - intros l. destruct (get_prop "models" v); try done. intros [= <-]. apply filter_texts. intros. apply trim_idemp.
Qed.
Lemma normalizeToolPolicy_ok v p : normalizeToolPolicy v = Some p -> policy_ok p.
Proof.
  unfold normalizeToolPolicy. destruct (negb (is_object v)); [done|].
  pose proof (string_list_ok (get_prop "allow" v)) as A. pose proof (string_list_ok (get_prop "deny" v)) as D.
  destruct (normalizeStringList (get_prop "allow" v)), (normalizeStringList (get_prop "deny" v));
    intros [= <-]; (split; [done|]; split; [done|]); cbn; naive_solver.
Qed.

Lemma normalizeTools_ok v t : normalizeTools v = Some t -> tools_ok t.
Proof.
  unfold normalizeTools. destruct (negb (is_object v)); [done|]. intros [= <-]. split;
    cbn [tl_allow alsoAllow tl_deny byProvider runtime tl_web selfProtection].
  - auto with t560.
  - split; [|apply normalizeToolPolicy_ok]. intros m. apply opt_entries_ok. intros k w x. apply normalizeToolPolicy_ok.
  - intros w s ->%opt_obj_Some. intros ->%opt_obj_Some. cbn. auto with t560.
  - intros w f ->%opt_obj_Some. intros ->%opt_obj_Some. cbn. auto with t560.
  - intros s ->%opt_obj_Some. cbn. auto with t560.
Qed.
Lemma normalizeAgents_ok v a d :
  normalizeAgents v = Some a -> ag_defaults a = Some d -> bootstrapMaxChars d <> None /\ at_least 1 (bootstrapMaxChars d).
Proof.
  rewrite normalizeAgents_eq. destruct (negb (is_object v)); [done|]. cbv zeta.
  destruct (negb (is_object _)); [done|]. unfold floored. set (n := to_number _).
  destruct (positive n) eqn:P; [|done]. destruct (falsy_num _) eqn:F; [done|]. intros [= <-] [= <-]. cbn [bootstrapMaxChars].
  split; [done|]. intros m [= <-]. destruct (positive_floor n P) as (z & E & Z0). rewrite E in *. exists z. split; [done|].
  cbn in F. destruct (z =? 0)%Z eqn:Ez; [done|]. apply Z.eqb_neq in Ez. lia.
Qed.
Lemma strip_channel_trim s : trim (strip_channel s) = strip_channel s.
Proof. apply trim_idemp. Qed.
Lemma normalizeChannels_ok v c t :
  normalizeChannels v = Some c -> telegram c = Some t ->
  dmPolicy t <> None /\ texts_ok (allowFrom t) /\
  (forall l, allowedChatIds t = Some l -> l <> [] /\ Forall (fun n => isInteger n = true) l).
Proof.
  rewrite normalizeChannels_eq. destruct (negb (is_object v)); [done|]. cbv zeta.
  destruct (negb (is_object _)); [done|]. intros [= <-] [= <-]. cbn [dmPolicy allowFrom allowedChatIds].
  split; [done|]. split.
  - intros l. unfold allow_list. destruct (get_prop "allowFrom" _); try done. intros [-> N]%non_empty_Some.
    split; [|done]. apply filter_texts. intros. apply strip_channel_trim.
  - intros l. unfold chat_ids. destruct (get_prop "allowedChatIds" _); try done. intros [-> N]%non_empty_Some.
    split; [done|]. apply Forall_forall. intros n Hn. apply list_elem_of_In, filter_In in Hn. tauto.
Qed.

Lemma normalizeRouting_slots raw r :
  normalizeRouting raw = Some r ->
  r = mkRouting (parseSlot (get_prop "default" raw)) (parseSlot (get_prop "planning" raw)) (parseSlot (get_prop "coding" raw)).
Proof.
  unfold normalizeRouting. destruct (negb (is_object _)); [done|]. cbv zeta.
  destruct (parseSlot (get_prop "default" raw)), (parseSlot (get_prop "planning" raw)), (parseSlot (get_prop "coding" raw));
    congruence.
Qed.

Lemma normalizeConfig_wf v : well_formed (normalizeConfig v).
Proof.
  unfold normalizeConfig. destruct (negb (is_object v)); [by split|].
  split; cbn [c_providers c_routing c_tools c_skills c_usage c_agents route telegram_config c_channels].
  - intros ps. apply opt_entries_ok. intros k w p ->%opt_obj_Some. apply normalizeProfile_ok.
  - intros s t. unfold route. cbn [c_routing]. destruct (normalizeRouting _) as [r|] eqn:R; [|done].
    apply normalizeRouting_slots in R as ->. simpl. destruct s; apply parseSlot_real.
  - intros t. apply normalizeTools_ok.
  - intros s. unfold normalizeSkills. destruct (negb (is_object _)); [done|]. intros [= <-]. cbn. auto with t560.
  - intros u n. rewrite normalizeUsage_eq. destruct (negb _ || _); [done|]. cbv zeta. destruct (_ && _); [done|].
    intros [= <-]. cbn [costBudgetUsd]. unfold kept. destruct (positive _) eqn:P; [by intros [= <-]|done].
  - intros a d. apply normalizeAgents_ok.
  - intros t. unfold telegram_config. cbn [c_channels]. destruct (normalizeChannels _) as [c|] eqn:E; [|done].
    simpl. intros T. by eapply normalizeChannels_ok.
Qed.

(** C26: every configuration the program reads is well formed, whatever the file
    holds: lists of texts are trimmed and, a provider's list of models apart, not
    empty, routes name a real provider and a real model, keys are distinct, limits respect their minima. *)
Theorem readConfig_well_formed env pcwd home d c d1 :
  readConfig env pcwd home d = Ok (c, d1) -> well_formed c.
Proof.
  unfold readConfig. destruct (ensureStateDir env pcwd home d); [|done]. intros [= <- _]. apply normalizeConfig_wf.
Qed.

(** ** Routes *)

Lemma hasRealValue_trim s : hasRealValue (Some (trim s)) = hasRealValue (Some s).
Proof.
  unfold hasRealValue. rewrite trim_idemp. destruct (truthy s) eqn:T.
  - cbn [negb]. destruct (truthy (trim s)) eqn:T'; [done|]. cbn [negb]. apply truthy_false in T'. by rewrite T'.
  - apply truthy_false in T as ->. done.
Qed.
Lemma real_trim s : hasRealValue (Some s) = true -> real (trim s).
Proof. intros H. split; [apply trim_idemp|by rewrite hasRealValue_trim]. Qed.

Lemma parseModelRef_real v t : parseModelRef v = Some t -> real_target t.
Proof.
  unfold parseModelRef. destruct (hasRealModelRef v); [|done]. cbn [negb].
  destruct (split_char slash _) as [|p rest]; [done|]. destruct (hasRealValue (Some p)) eqn:P; [|done].
  destruct (hasRealValue (Some (trim _))) eqn:M; [|done]. intros [= <-]. eexists _, _. split; [done|].
  split; [by apply real_trim|]. split; [apply trim_idemp|done].
Qed.
Lemma real_complete t : real_target t -> complete_target (Some t) = true.
Proof. intros (p & m & -> & [_ P%real_truthy] & [_ M%real_truthy]). cbn. unfold id. by rewrite P, M. Qed.

Lemma preset_real c s t : resolveRouteFromModelPreset c s = Some t -> real_target t.
Proof.
  unfold resolveRouteFromModelPreset. destruct (preset c s) as [m|]; [|done].
  destruct (hasRealValue (Some m)) eqn:M; [|done]. cbn [negb].
  destruct (complete_target (parseModelRef (Some m))); [apply parseModelRef_real|].
  destruct (c_provider c) as [p|]; [|done]. cbn [option_map].
  destruct (hasRealValue (Some (trim p))) eqn:P; [|done]. intros [= <-]. eexists _, _. split; [done|].
  split; [split; [apply trim_idemp|done]|by apply real_trim].
Qed.

Lemma resolve_real c s t : well_formed c -> resolveRoutingTarget c s = Some t -> real_target t.
Proof.
  intros W. unfold resolveRoutingTarget.
  destruct (complete_target (route c s)); [apply (wf_routes c W)|].
  destruct (resolveRouteFromModelPreset c s) eqn:E; [intros [= <-]; by eapply preset_real|].
  case_bool_decide; [done|]. destruct (complete_target (route c Default)); [apply (wf_routes c W)|apply preset_real].
Qed.

(** in a well-formed configuration the route of a slot is a real provider
    with a real model; the slot's own route comes first, then its model preset,
    and once the default slot has a route every slot has one. *)
Theorem routing_total c t0 :
  well_formed c -> resolveRoutingTarget c Default = Some t0 ->
  forall s, exists t, resolveRoutingTarget c s = Some t /\ real_target t /\
    (forall t', route c s = Some t' -> t = t') /\
    (route c s = None -> forall t', resolveRouteFromModelPreset c s = Some t' -> t = t') /\
    (route c s = None -> resolveRouteFromModelPreset c s = None -> t = t0).
Proof.
  intros W D s. assert (exists t, resolveRoutingTarget c s = Some t /\
    (forall t', route c s = Some t' -> t = t') /\
    (route c s = None -> forall t', resolveRouteFromModelPreset c s = Some t' -> t = t') /\
    (route c s = None -> resolveRouteFromModelPreset c s = None -> t = t0)) as (t & E & H).
  { unfold resolveRoutingTarget in *. destruct (route c s) as [t|] eqn:R.
    - rewrite real_complete by (by eapply wf_routes). exists t. repeat split; congruence.
    - cbn [complete_target]. destruct (resolveRouteFromModelPreset c s) as [t|] eqn:P.
      + exists t. repeat split; congruence.
      + destruct (decide (s = Default)) as [->|S].
        * rewrite R, P in D. cbn [complete_target] in D. by rewrite bool_decide_eq_true_2 in D.
        * exists t0. rewrite bool_decide_eq_false_2 by done. rewrite bool_decide_eq_true_2 in D by done. split; [|repeat split; congruence].
          destruct (complete_target (route c Default)); [done|].
          by destruct (resolveRouteFromModelPreset c Default). }
  exists t. split; [done|]. split; [by eapply resolve_real|done].
Qed.

(** ** Onboarding *)

Definition runnable (providerId : string) (p : ProviderProfile) : bool :=
  hasProviderCredential p || providerCanRunWithoutCredential providerId p.

Section Onboarding.
Variables (env : list (string * string)) (pcwd home : string).
Context (home_abs : isAbsolute home = true).

(** What has to be there for the program to count as set up. *)
Record set_up (c : T560Config) (d : disk) : Prop := {
  su_credential : exists e, e ∈ default [] (c_providers c) /\ hasProviderCredential e.2 = true;
  su_routes : forall s, exists p m prof,
    resolveRoutingTarget c s = Some (mkTarget (Some p) (Some m)) /\
    mget p (default [] (c_providers c)) = Some prof /\ runnable p prof = true;
  su_self : exists t sp root l,
    c_tools c = Some t /\ selfProtection t = Some sp /\ sp_enabled sp = Some true /\
    resolveSelfProtectionInstallRoot pcwd home (sp_installRoot sp) = Some root /\ fileExists pcwd root d = true /\
    sp_protectedPaths sp = Some l;
  su_user : fileExists pcwd (resolveLegacyUserPath env pcwd home) d = true;
}.

Lemma ok_pair {A B} (a a' : A) (b b' : B) : Ok (a, b) = Ok (a', b') -> a = a' /\ b = b'.
Proof. intros [= -> ->]. done. Qed.
Lemma missing_if_nil b w : missing_if b w = [] <-> b = false.
Proof. destruct b; simpl; split; congruence. Qed.
Lemma flat_map_nil {A B} (f : A -> list B) l : flat_map f l = [] <-> (forall x, x ∈ l -> f x = []).
Proof.
  induction l as [|x l IH]; simpl; [set_solver|]. rewrite app_nil, IH. set_solver.
Qed.
Lemma missing_provider_nil ps id :
  missing_provider ps id = [] <-> exists prof, mget id ps = Some prof /\ runnable id prof = true.
Proof.
  unfold missing_provider, obj_lookup, runnable. destruct (mget id ps) as [prof|].
  - rewrite missing_if_nil, <- negb_orb, negb_false_iff. naive_solver.
  - case_bool_decide; split; try done; naive_solver.
Qed.

Lemma credential_nil ps :
  (if negb (0 <? length ps)%nat then ["providers"]
   else missing_if (negb (existsb (fun e => hasProviderCredential e.2) ps)) "providers.credentials") = [] <->
  exists e : string * ProviderProfile, e ∈ ps /\ hasProviderCredential e.2 = true.
Proof.
  destruct ps as [|e ps]; [simpl; split; [done|set_solver]|]. cbn [length Nat.ltb Nat.leb negb].
  rewrite missing_if_nil, negb_false_iff, existsb_exists. setoid_rewrite list_elem_of_In. done.
Qed.

Definition slots : list slot := [Default; Planning; Coding].
Lemma in_slots s : s ∈ slots.
Proof. destruct s; set_solver. Qed.

Lemma routes_nil c (ps : list (string * ProviderProfile)) :
  well_formed c ->
  let r := resolveRoutingTarget c in
  (missing_if (negb (complete_target (r Default))) "routing.default" ++
   missing_if (negb (complete_target (r Planning))) "routing.planning" ++
   missing_if (negb (complete_target (r Coding))) "routing.coding" = [] /\
   flat_map (missing_provider ps)
     (dedup (List.filter truthy (map (fun r => trim (default "" (t ← r; t_provider t))) [r Default; r Planning; r Coding]))) = []) <->
  (forall s, exists p m prof, r s = Some (mkTarget (Some p) (Some m)) /\ mget p ps = Some prof /\ runnable p prof = true).
Proof.
  intros W r. rewrite !app_nil, !missing_if_nil, !negb_false_iff, flat_map_nil.
  assert (forall s t, r s = Some t -> real_target t) as Real by (intros s t; by apply resolve_real).
  assert (forall s, complete_target (r s) = true <-> exists p m, r s = Some (mkTarget (Some p) (Some m)) /\ real p) as C.
  { intros s. split.
    - destruct (r s) as [t|] eqn:E; [|done]. intros _. destruct (Real s t E) as (p & m & -> & P & M). eauto.
    - intros (p & m & E & P). rewrite E. apply real_complete. by eapply Real. }
  assert (forall x, x ∈ dedup (List.filter truthy (map (fun r => trim (default "" (t ← r; t_provider t))) [r Default; r Planning; r Coding]))
    <-> truthy x = true /\ exists s, x = trim (default "" (t ← r s; t_provider t))) as In.
  { intros x. rewrite elem_of_dedup, list_elem_of_In, filter_In, in_map_iff. split.
    - intros [(y & <- & H) T]. split; [done|]. destruct H as [<-|[<-|[<-|[]]]]; eauto.
    - intros [T [s ->]]. split; [|done]. exists (r s). split; [done|]. destruct s; simpl; auto. }
  split.
  - intros [(Cd & Cp & Cc) M] s. assert (complete_target (r s) = true) as K by (by destruct s).
    apply C in K as (p & m & E & [Tp Rp]). destruct (proj1 (missing_provider_nil ps p)) as (prof & G & R); [|eauto 6].
    apply M, In. split; [by apply real_truthy|]. exists s. rewrite E. simpl. by rewrite Tp.
  - intros H. assert (forall s, complete_target (r s) = true) as K.
    { intros s. destruct (H s) as (p & m & prof & E & _). rewrite E. apply real_complete. by eapply Real. }
    split; [by rewrite !K|]. intros x [T [s ->]]%In. destruct (H s) as (p & m & prof & E & G & R).
    destruct (Real s _ E) as (p' & m' & [= <- <-] & [Tp _] & _). rewrite E. simpl. rewrite Tp.
    apply missing_provider_nil. eauto.
Qed.

Lemma install_root_truthy raw root : resolveSelfProtectionInstallRoot pcwd home raw = Some root -> truthy root = true.
Proof.
  assert (forall p, isAbsolute p = true -> truthy p = true) as A by (intros [|c p]; done).
  unfold resolveSelfProtectionInstallRoot. repeat (case_match; try done); intros [= <-]; apply A; auto using isAbsolute_of_segments.
  all: apply isAbsolute_of_segments.
Qed.

Lemma self_nil c d :
  well_formed c ->
  let sp := t ← c_tools c; selfProtection t in
  missing_if (match s ← sp; sp_enabled s with Some true => false | _ => true end) "tools.selfProtection.enabled" ++
  match resolveSelfProtectionInstallRoot pcwd home (s ← sp; sp_installRoot s) with
  | Some root => if negb (truthy root) then ["tools.selfProtection.installRoot"]
                 else missing_if (negb (fileExists pcwd root d)) "tools.selfProtection.installRoot.exists"
  | None => ["tools.selfProtection.installRoot"]
  end ++
  missing_if (length (List.filter truthy (map trim (default [] (s ← sp; sp_protectedPaths s)))) =? 0)%nat
    "tools.selfProtection.protectedPaths" = [] <->
  exists t sp root l, c_tools c = Some t /\ selfProtection t = Some sp /\ sp_enabled sp = Some true /\
    resolveSelfProtectionInstallRoot pcwd home (sp_installRoot sp) = Some root /\ fileExists pcwd root d = true /\
    sp_protectedPaths sp = Some l.
Proof.
  intros W. cbv zeta. rewrite !app_nil, !missing_if_nil.
  destruct (c_tools c) as [t|] eqn:T; cbn [mbind option_bind]; [|split; [by intros [? _]|naive_solver]].
  destruct (selfProtection t) as [sp|] eqn:S; cbn [mbind option_bind]; [|split; [by intros [? _]|naive_solver]].
  destruct (to_self t (wf_tools c W t T) sp S) as [_ P].
  destruct (resolveSelfProtectionInstallRoot pcwd home (sp_installRoot sp)) as [root|] eqn:R;
    [|split; [by intros (_ & ? & _)|naive_solver]].
  rewrite (install_root_truthy _ _ R). cbn [negb]. rewrite missing_if_nil, negb_false_iff.
  assert ((length (List.filter truthy (map trim (default [] (sp_protectedPaths sp)))) =? 0)%nat = false <->
    exists l, sp_protectedPaths sp = Some l) as L.
  { destruct (sp_protectedPaths sp) as [l|] eqn:E; cbn [default from_option id]; [|split; [done|naive_solver]].
    split; [eauto|]. intros _. destruct (P l eq_refl) as [F N]. apply Nat.eqb_neq. destruct F as [|s l [Tr Ne] F]; [done|].
    cbn [map List.filter]. rewrite Tr. apply truthy_true in Ne. rewrite Ne. done. }
  rewrite L. destruct (sp_enabled sp) as [[]|] eqn:E; split; naive_solver.
Qed.

(** the program counts as set up exactly when some provider has a
    credential, every slot has a route to a configured provider that has a
    credential or is local, self-protection is enabled with an existing root and
    a list of paths, and the user file is there. *)
Theorem onboarded_spec d st d1 :
  readOnboardingStatus env pcwd home d = Ok (st, d1) ->
  onboarded st = true <-> set_up (st_config st) d1.
Proof.
  unfold readOnboardingStatus. destruct (ensureStateDir env pcwd home d) as [d2|] eqn:E; [|done]. cbn [rbind].
  destruct (readConfig env pcwd home d2) as [[c d3]|] eqn:R; [|done]. cbn [rbind].
  pose proof (readConfig_well_formed _ _ _ _ _ _ R) as W. apply (readConfig_ok env pcwd home home_abs) in R as (_ & Rd & _).
  cbv zeta. intros [<- <-]%ok_pair. cbn [onboarded st_config].
  rewrite Nat.eqb_eq, length_zero_iff_nil, !(app_nil _ (_ ++ _)).
  pose proof (rd_soul _ _ _ _ Rd) as So. pose proof (rd_users _ _ _ _ Rd) as Us.
  apply (exists_state env pcwd home home_abs _ d3 soul_file) in So. apply (exists_state env pcwd home home_abs _ d3 users_file) in Us.
  unfold resolveSoulPath, resolveUsersPath. rewrite So, Us. cbn [negb missing_if app].
  rewrite (missing_if_nil _ "user.md"), (negb_false_iff (fileExists _ _ _)), credential_nil.
  pose proof (routes_nil c (default [] (c_providers c)) W) as Ro. cbv zeta in Ro.
  pose proof (self_nil c d3 W) as Se. cbv zeta in Se.
  rewrite !app_nil in *. split.
  - intros H.
    split; [tauto|apply Ro; tauto|apply Se; tauto|tauto].
  - intros [C R S U]. apply Ro in R. apply Se in S. tauto.
Qed.
End Onboarding.

(** ** Model references *)

Lemma join_split c s : join (of_chars [c]) (split_char c s) = s.
Proof.
  unfold split_char. rewrite <- (of_chars_chars s) at 2. generalize (chars s) as l.
  induction l as [|x l IH]; [done|]. cbn [split_list]. pose proof (split_list_nonempty (fun d => bool_decide (d = c)) l) as N.
  case_bool_decide as E.
  - subst x. change (of_chars (c :: l)) with (of_chars [c] +:+ of_chars l). rewrite <- IH. by destruct (split_list _ l).
  - destruct (split_list _ l) as [|w ws]; [done|]. cbn [map] in *.
    change (of_chars (x :: l)) with (String x (of_chars l)). rewrite <- IH. by destruct ws.
Qed.

(** a provider without a slash and a model whose parts are real are read
    back from the text that joins them, so the model may contain slashes. *)
Theorem model_ref_roundtrip p m :
  real p -> slash ∉ chars p -> trim m = m ->
  forallb (fun part => hasRealValue (Some part)) (split_char slash m) = true -> hasRealValue (Some m) = true ->
  parseModelRef (Some (p +:+ "/" +:+ m)) = Some (mkTarget (Some p) (Some m)).
Proof.
  intros [Tp Rp] Np Tm Pm Rm. pose proof (real_truthy _ Rp) as Hp. pose proof (real_truthy _ Rm) as Hm.
  assert (trim (p +:+ "/" +:+ m) = p +:+ "/" +:+ m) as T.
  { apply trim_wrap; [by apply truthy_true|by apply truthy_true|done|done]. }
  assert (split_char slash (p +:+ "/" +:+ m) = p :: split_char slash m) as S.
  { unfold split_char. rewrite !chars_app. change (chars "/") with [slash]. cbn [app].
    rewrite split_list_app by (by apply bool_decide_eq_true). rewrite map_app, split_list_single.
    - cbn [map app]. by rewrite of_chars_chars.
    - apply Forall_forall. intros c Hc. apply bool_decide_eq_false. by intros ->. }
  assert (includes "/" (p +:+ "/" +:+ m) = true) as I by (apply includes_spec; eauto).
  assert (hasRealValue (Some (p +:+ "/" +:+ m)) = true) as R.
  { unfold hasRealValue. rewrite T. assert (includes "/" (toLowerCase (p +:+ "/" +:+ m)) = true) as L.
    { apply includes_spec. exists (toLowerCase p), (toLowerCase m). unfold toLowerCase.
      by rewrite !chars_app, !map_app, !of_chars_app. }
    destruct (truthy (p +:+ "/" +:+ m)) eqn:Tr; [|apply truthy_false in Tr; by rewrite Tr in I].
    cbn [negb]. destruct (truthy (toLowerCase _)) eqn:Tr'; [|apply truthy_false in Tr'; by rewrite Tr' in L].
    cbn [negb]. rewrite !andb_true_iff, !negb_true_iff, !String.eqb_neq.
    repeat split; intros E; rewrite E in L; done. }
  unfold parseModelRef, hasRealModelRef. cbn [default from_option id]. rewrite R, T, S, I. cbn [negb andb forallb].
  rewrite Rp, Pm. cbn [negb andb]. rewrite (join_split slash m : join "/" (split_char slash m) = m), Tm, Rm. cbn. by rewrite Tp.
Qed.

(** ** Examples *)

Definition sample_doc (profile : value) (extra : list (string * value)) : value :=
  VObj ([("providers", VObj [("local-openai", profile)]);
         ("routing", VObj [("default", VObj [("provider", VStr " local-openai"); ("model", VStr "qwen")])]);
         ("tools", VObj [("selfProtection", VObj [("enabled", VBool true); ("installRoot", VStr "/srv/t560");
                                                  ("protectedPaths", VArr [VStr "src "])])])] ++ extra).
Definition sample_disk (doc : value) : disk :=
  [(["home"], Dir); (["home"; "u"], Dir); (["home"; "u"; ".t560"], Dir); (["srv"], Dir); (["srv"; "t560"], Dir);
   (["home"; "u"; ".t560"; "config.json"], Json doc); (["home"; "u"; ".t560"; "user.md"], Text "me")].
Definition local_profile : value := VObj [("baseUrl", VStr "http://127.0.0.1:8080/v1")].
Definition keyed_profile : value := VObj [("apiKey", VStr "k"); ("provider", VStr "openai")].
Definition keyed_disk : disk := sample_disk (sample_doc keyed_profile []).
Definition read_config (d : disk) : T560Config :=
  match readConfig [] "/" "/home/u" d with Ok (c, _) => c | Throw _ => empty_config end.
Definition read_disk (d : disk) : disk :=
  match readConfig [] "/" "/home/u" d with Ok (_, d') => d' | Throw _ => [] end.

Lemma keyed_read : readConfig [] "/" "/home/u" keyed_disk = Ok (read_config keyed_disk, read_disk keyed_disk).
Proof. vm_compute. reflexivity. Qed.
Lemma keyed_settled : settled (read_config keyed_disk).
Proof.
  split; vm_compute.
  - intros ps [= <-]. by repeat constructor.
  - intros ch. done.
  - intros u. done.
Qed.

Lemma config_roundtrip_witness :
  exists d2, writeConfig [] "/" "/home/u" (read_config keyed_disk) (read_disk keyed_disk) = Ok d2 /\
    readConfig [] "/" "/home/u" d2 = Ok (read_config keyed_disk, d2).
Proof.
  destruct (config_roundtrip [] "/" "/home/u" eq_refl keyed_disk (read_config keyed_disk) (read_disk keyed_disk))
    as (d2 & W & R & _).
  - intros p v H%mget_In. unfold keyed_disk, sample_disk in H. cbn [In] in H.
    repeat (destruct H as [[= <- <-]|H]); [reflexivity|done].
  - apply keyed_read.
  - apply keyed_settled.
  - vm_compute. discriminate.
  - exact (ex_intro _ d2 (conj W R)).
Defined.

Lemma readConfig_well_formed_witness : well_formed (read_config keyed_disk).
Proof. apply (readConfig_well_formed [] "/" "/home/u" keyed_disk (read_config keyed_disk) (read_disk keyed_disk)), keyed_read. Defined.

Lemma routing_total_witness :
  exists t, resolveRoutingTarget (read_config keyed_disk) Coding = Some t /\ real_target t.
Proof.
  destruct (routing_total (read_config keyed_disk) (mkTarget (Some "local-openai") (Some "qwen"))) with (s := Coding)
    as (t & E & R & _).
  - eapply readConfig_well_formed, keyed_read.
  - vm_compute. reflexivity.
  - exact (ex_intro _ t (conj E R)).
Defined.

Lemma onboarded_spec_witness :
  exists st, readOnboardingStatus [] "/" "/home/u" keyed_disk = Ok (st, read_disk keyed_disk) /\
    set_up [] "/" "/home/u" (st_config st) (read_disk keyed_disk).
Proof.
  exists (mkStatus true [] (read_config keyed_disk) "/home/u/.t560/config.json").
  assert (readOnboardingStatus [] "/" "/home/u" keyed_disk =
    Ok (mkStatus true [] (read_config keyed_disk) "/home/u/.t560/config.json", read_disk keyed_disk)) as E
    by (vm_compute; reflexivity).
  split; [exact E|]. apply (onboarded_spec [] "/" "/home/u" eq_refl keyed_disk _ _ E). reflexivity.
Defined.

Lemma model_ref_roundtrip_witness :
  parseModelRef (Some "openrouter/meta/llama-3") = Some (mkTarget (Some "openrouter") (Some "meta/llama-3")).
Proof.
  apply (model_ref_roundtrip "openrouter" "meta/llama-3");
    [by split|apply (bool_decide_eq_true_1 _); vm_compute; reflexivity|reflexivity..].
Defined.

(** a local provider that needs no key leaves the program not set up for
    ever: all that is missing is a credential of some provider. *)
Theorem local_only_not_onboarded :
  exists st d1, readOnboardingStatus [] "/" "/home/u" (sample_disk (sample_doc local_profile [])) = Ok (st, d1) /\
    onboarded st = false /\ missing st = ["providers.credentials"].
Proof. eexists _, _. split; [vm_compute; reflexivity|]. done. Qed.

Definition unsettled_doc : value :=
  VObj [("providers", VObj [(" x ", VObj [])]); ("usage", VObj [("tokenBudget", VNum (NFin 5 1)); ("costBudgetUsd", VNum (NInt 2))]);
        ("channels", VObj [("telegram", VObj [("allowFrom", VArr [VStr "tg:tg:5"])])])].
(** The three conditions of [settled] are needed: a padded provider id without a
    name, a prefix inside a prefix and a budget below one token are read
    differently after being written once. *)
Example unsettled_changes :
  let c := normalizeConfig unsettled_doc in
  let c' := normalizeConfig (json_image (config_value c)) in
  c_providers c <> c_providers c' /\ c_channels c <> c_channels c' /\ c_usage c <> c_usage c'.
Proof. vm_compute. repeat split; discriminate. Qed.
