(* ===== verification/ChatService.v ===== *)
(** * Chat service

    [src/src/agent/chat-service.ts]: one turn of a chat.  The message first goes
    to the setup dialogue; what it does not handle is routed to one of the three
    model slots and sent to the provider, under a time limit, with at most one
    fallback or one resumption.

    [chatWithProvider] is a parameter: for the n-th call of a turn and its
    request it says when the call settles, if ever, and with what.  A call that
    settles when the timer fires loses the race.  So is the host of a URL
    ([new URL(u).hostname], [None] when the constructor throws).  What is done
    is recorded in a trace: the status event and the calls. *)

From stdpp Require Import base list sets strings pretty.
From Stdlib Require Import Ascii Lia ZArith.
From S2P Require Import Prelude JsString JsMap JsValue JsRegex NodePath SetupFlow Config.

(** ** Data *)

Inductive GatewayChannelId := webchat | telegram_channel | terminal.
Definition channel_name (c : GatewayChannelId) : string :=
  match c with webchat => "webchat" | telegram_channel => "telegram" | terminal => "terminal" end.

Record GatewayInboundMessage := mkInbound {
  channel : GatewayChannelId;
  message : string;
  sessionId : string;
  externalUserId : string;
  receivedAt : Z;
}.

Inductive chat_mode := foundation | provider_mode.
Record ChatResponse := mkResponse {
  cr_message : string;
  thinking : option string;
  toolCalls : list string;
  mode : chat_mode;
  cr_provider : option string;
  cr_model : option string;
  onboardingRequired : bool;
  cr_missing : list string;
}.

Definition DEFAULT_CHAT_TIMEOUT_MS : Z := 15 * 60000.
Definition MIN_CHAT_TIMEOUT_MS : Z := 5000.
Definition MAX_CHAT_TIMEOUT_MS : Z := 24 * 60 * 60000.
Definition DEFAULT_LOCAL_CHAT_TIMEOUT_MS : Z := 30 * 60000.
Definition MIN_LOCAL_CHAT_TIMEOUT_MS : Z := 60000.

Definition quote : string := of_chars [ascii_of_nat 34].
Definition foundationMessage (input : string) (source : GatewayChannelId) (missing : list string) : string :=
  join " "
    ["Foundation mode (" +:+ channel_name source +:+ ") is active.";
     "You said: " +:+ quote +:+ input +:+ quote;
     "To unlock provider inference, complete onboarding fields: " +:+ join ", " missing +:+ "."].

(** ** Which slot a message is for *)

Record RouteSignal := mkSignal { label : string; pattern : re; weight : nat; strong : bool }.
Record RouteIntentAnalysis := mkAnalysis {
  ra_slot : slot;
  planningScore : nat;
  codingScore : nat;
  planningSignals : list string;
  codingSignals : list string;
}.

(** [[-\s]?] and [.{0,n}] *)
Definition rgap : re := ropt (RChr (fun c => (code c =? 45)%nat || is_ws c)).
Definition rnear (n : nat) (a b : list string) : re := rseqs [rwords a; rupto n rdot; rwords b].

Definition PLANNING_SIGNALS : list RouteSignal :=
  [mkSignal "architecture" (rwords ["architecture"; "design doc"; "technical design"; "system design"; "design proposal"]) 3 true;
   mkSignal "roadmap" (rwords ["roadmap"; "migration plan"; "rollout plan"; "implementation plan"]) 3 true;
   mkSignal "planning" (rnear 40 ["plan"; "strategy"]
     ["feature"; "project"; "migration"; "rollout"; "approach"; "implementation"; "build"]) 2 false;
   mkSignal "options" (rseqs [RWordB; ralts [rlit "compare"; rseqs [rlit "trade"; rgap; rlit "off"; ropt (rlit "s")];
     rlit "pros and cons"; rlit "evaluate options"; rlit "decision matrix"]; RWordB]) 2 false;
   mkSignal "step-plan" (rseqs [RWordB; rlit "step"; rgap; rlit "by"; rgap; rlit "step plan"; RWordB]) 2 false;
   mkSignal "task-list" (rseqs [RWordB; ralts [rlit "list of tasks"; rlit "task list"; rlit "task breakdown"; rlit "todo list";
     rlit "checklist"; RSeq (rlit "milestone") (ropt (rlit "s"))]; RWordB]) 3 true;
   mkSignal "plan-request" (rseqs [rwords ["plan"; "planning"]; rupto 40 rdot; RWordB;
     ralts [rlit "first"; rlit "before coding"; rlit "before implementation"; RSeq (rlit "next step") (ropt (rlit "s"))];
     RWordB]) 3 true].

Definition CODING_SIGNALS : list RouteSignal :=
  [mkSignal "fenced-code" (rlit "```") 3 true;
   mkSignal "repo-path" (rwords ["src/"; "package.json"; "tsconfig.json"; "dockerfile"; "makefile"; "requirements.txt"; "pom.xml"]) 3 true;
   mkSignal "code-file" (rseqs [RWordB; rplus (RChr is_word); rlit "."; ralts (map rlit
     ["ts"; "tsx"; "js"; "jsx"; "py"; "go"; "rs"; "java"; "c"; "cpp"; "cs"; "rb"; "php"; "swift"; "kt"]); RWordB]) 3 true;
   mkSignal "coding-action" (rnear 70 ["write"; "implement"; "refactor"; "debug"; "fix"; "patch"; "add"; "update"; "remove"]
     ["code"; "function"; "class"; "module"; "script"; "test"; "bug"; "error"; "compile"; "build"]) 2 false;
   mkSignal "script-request" (rnear 35 ["write"; "create"; "build"] ["script"; "program"; "automation"]) 2 false;
   mkSignal "test-debug" (rwords ["unit test"; "integration test"; "test case"; "failing test"; "stack trace"; "compile error";
     "type error"; "eslint"; "tsc"; "pytest"]) 2 false;
   mkSignal "review" (rwords ["code review"; "pr review"; "pull request"]) 2 false].

Definition explicit_tasks : re :=
  rseqs [RWordB; ralts [rlit "list of tasks"; rlit "task list"; rlit "task breakdown"; rlit "todo list"; rlit "checklist";
                        rlit "roadmap"; rlit "implementation plan"; RSeq (rlit "next step") (ropt (rlit "s"))]; RWordB].
Definition explicit_verbs : re :=
  rwords ["plan"; "planning"; "create"; "draft"; "build"; "make"; "come up with"; "outline"].

Definition hits (signals : list RouteSignal) (text : string) : list RouteSignal :=
  List.filter (fun s => re_test (pattern s) text) signals.
Definition score (l : list RouteSignal) : nat := foldr (fun s n => weight s + n) 0 l.

Definition analyzeRouteIntent (msg : string) : RouteIntentAnalysis :=
  let text := toLowerCase msg in
  if negb (truthy (trim text)) then mkAnalysis Default 0 0 [] []
  else
    let p := hits PLANNING_SIGNALS text in
    let c := hits CODING_SIGNALS text in
    let ps := score p in
    let cs := score c in
    let planningStrong := existsb strong p in
    let codingStrong := existsb strong c in
    let answer s := mkAnalysis s ps cs (map label p) (map label c) in
    if re_test explicit_tasks text && re_test explicit_verbs text
    then mkAnalysis Planning (Nat.max ps 3) cs (if (0 <? length p)%nat then map label p else ["task-list"]) (map label c)
    else if codingStrong && (3 <=? cs)%nat && (ps <=? cs)%nat then answer Coding
    else if (4 <=? cs)%nat && (ps + 1 <=? cs)%nat then answer Coding
    else if planningStrong && (3 <=? ps)%nat && (cs <=? ps)%nat then answer Planning
    else if (3 <=? ps)%nat && (cs <=? ps)%nat then answer Planning
    else if (2 <=? cs)%nat && (ps =? 0)%nat then answer Coding
    else answer Default.

Definition chooseRouteSlot (msg : string) : slot := ra_slot (analyzeRouteIntent msg).
Definition slot_name (s : slot) : string :=
  match s with Default => "default" | Planning => "planning" | Coding => "coding" end.

(** ** Errors *)

Definition formatProviderError (route : option RoutingTarget) (s : slot) (c : GatewayChannelId) (msg : string) : string :=
  "Provider error (" +:+ channel_name c +:+ ") route=" +:+ slot_name s +:+ " via " +:+
  default "unknown" (t ← route; t_provider t) +:+ "/" +:+ default "unknown" (t ← route; t_model t) +:+ ". " +:+ msg.

Definition mentions (l : list string) (text : string) : bool := existsb (fun p => includes p text) l.

Definition isLikelyTokenExhaustion (msg : string) : bool :=
  mentions ["context length"; "context window"; "maximum context"; "too many tokens"; "token limit"] (toLowerCase msg).
Definition isNonRecoverableProviderError (msg : string) : bool :=
  mentions ["not configured"; "credentials missing"; "model '"; "not supported by the provider runtime"; "permission denied";
            "eacces"; "eperm"; "read-only file system"; "enospc"; "connection refused"; "econnrefused"; "enotfound";
            "network"; "fetch failed"; "timed out"; "timeout"; "aborted"] (toLowerCase msg).
Definition shouldAutoResumeAfterProviderError (msg : string) : bool :=
  let text := toLowerCase msg in
  if isNonRecoverableProviderError msg then false
  else if isLikelyTokenExhaustion msg then false
  else mentions ["empty response"; "non-empty response"; "did not return an assistant response";
                 "assistant response was empty"] text.
Definition isConnectivityProviderError (msg : string) : bool :=
  mentions ["timed out"; "timeout"; "connection refused"; "econnrefused"; "enotfound"; "network"; "fetch failed"; "aborted"]
    (toLowerCase msg).
Definition isTimeoutLikeError (msg : string) : bool := mentions ["timed out"; "timeout"] (toLowerCase msg).

(** ** Local routes *)

(** [(\d{1,3})] and its number *)
Definition octet (s : string) : option Z :=
  if between 1 3 (slen s) && forallb is_digit (chars s)
  then let '(z, _, _) := scan_digits 0 0 (chars s) in Some z else None.

Definition hostLooksLocal (hostname : string) : bool :=
  let host := toLowerCase (trim hostname) in
  if negb (truthy host) then false
  else if (host =? "localhost")%string || (host =? "::1")%string || endsWith ".local" host then true
  else if startsWith "127." host then true
  else
    match map octet (split_char "." host) with
    | [Some a; Some b; Some _; Some _] =>
        ((a =? 10) || (a =? 192) && (b =? 168) || (a =? 172) && (16 <=? b) && (b <=? 31) ||
         (a =? 100) && (64 <=? b) && (b <=? 127))%Z
    | _ => false
    end.

Definition routeKey (route : option RoutingTarget) : string :=
  let prov := trim (default "" (t ← route; t_provider t)) in
  let model := trim (default "" (t ← route; t_model t)) in
  if negb (truthy prov) || negb (truthy model) then ""
  else toLowerCase prov +:+ "::" +:+ toLowerCase model.

Definition provider_key (route : RoutingTarget) : string := toLowerCase (trim (default "" (t_provider route))).

Definition chooseFallbackRoute (config : T560Config) (failedRoute : RoutingTarget) : option RoutingTarget :=
  let failedKey := routeKey (Some failedRoute) in
  let failedProvider := provider_key failedRoute in
  let candidates := omap (fun s => let r := resolveRoutingTarget config s in
                                   if complete_target r then r else None) [Default; Planning; Coding] in
  let unique := List.filter (fun r => truthy (routeKey (Some r)) && negb (routeKey (Some r) =? failedKey)%string)
                  (values (fold_left (fun m r => mset (routeKey (Some r)) r m) candidates [])) in
  match List.find (fun r => negb (provider_key r =? failedProvider)%string) unique with
  | Some r => Some r
  | None => head unique
  end.

Definition messageLikelyLongRunning (msg : string) : bool :=
  let text := toLowerCase msg in
  if negb (truthy (trim text)) then false
  else
    let into := rseqs [RStar rspace; rlit "in"; ropt (rlit "to"); RWordB] in
    existsb (fun r => re_test r text)
      [rwords ["login"]; rseqs [RWordB; rlit "log"; into]; rseqs [RWordB; rlit "sign"; into]; rwords ["mfa"]; rwords ["2fa"];
       rseqs [RWordB; rlit "one"; rgap; rlit "time code"; RWordB]; rwords ["otp"]; rwords ["dashboard"]; rwords ["balance"];
       rwords ["account"]; rwords ["portfolio"]; rwords ["website"]; rwords ["web app"]].

Definition parseExplicitBoolean (v : string) : option bool :=
  let normalized := toLowerCase (trim v) in
  if negb (truthy normalized) then None
  else if bool_decide (normalized ∈ ["1"; "true"; "yes"; "on"]) then Some true
  else if bool_decide (normalized ∈ ["0"; "false"; "no"; "off"]) then Some false
  else None.

(** [Math.floor(n)] and [Math.floor(n * 1000)] of a finite number, [Math.round(z / 1000)] *)
Definition floor_z (n : num) : Z := match n with NFin m k => (m / pow10 k)%Z | _ => 0%Z end.
Definition floor_thousand (n : num) : Z := match n with NFin m k => (m * 1000 / pow10 k)%Z | _ => 0%Z end.
Definition seconds (ms : Z) : Z := ((ms + 500) / 1000)%Z.
Definition clamp (low z : Z) : Z := Z.min MAX_CHAT_TIMEOUT_MS (Z.max low z).

(** ** Calls to the provider *)

Record ProviderReply := mkReply {
  pr_message : string;
  pr_thinking : option string;
  pr_toolCalls : list string;
  pr_provider : string;
  pr_model : string;
}.
Record request := mkRequest {
  rq_target : RoutingTarget;
  rq_message : string;
  rq_session : string;
  rq_user : string;
  rq_channel : GatewayChannelId;
}.
(** When the promise settles, if ever, and what with. *)
Record attempt := mkAttempt { settled_at : option Z; outcome_of : result ProviderReply }.

(** The time taken and the result. *)
Definition runWithTimeout (operation : attempt) (timeoutMs : Z) (timeoutMessage : string) : Z * result ProviderReply :=
  match settled_at operation with
  | Some t => if (t <? timeoutMs)%Z then (t, outcome_of operation) else (timeoutMs, Throw timeoutMessage)
  | None => (timeoutMs, Throw timeoutMessage)
  end.

Inductive action :=
| Routed (s : slot) (intent : RouteIntentAnalysis) (route : option RoutingTarget)
| Called (r : request) (timeoutMs : Z).

Section Chat.
Context {W : Type} `{VaultService W}.
Variables (env : list (string * string)) (pcwd home : string).
Variable hostname_of : string -> option string.
Variable chatWithProvider : nat -> request -> attempt.

Definition isLikelyLocalRoute (config : T560Config) (route : RoutingTarget) : bool :=
  let providerId := provider_key route in
  if negb (truthy providerId) then false
  else if (providerId =? "local-openai")%string || includes "local" providerId then true
  else
    let baseUrl := match obj_lookup (default "" (t_provider route)) (default [] (c_providers config)) with
                   | Own profile => trim (default "" (baseUrl profile))
                   | _ => ""
                   end in
    if negb (truthy baseUrl) then false
    else match hostname_of baseUrl with Some hostname => hostLooksLocal hostname | None => false end.

Definition timeout_from (sec_var ms_var : string) (low fallback : Z) : Z :=
  let rawSec := num_of_string (env_var env sec_var) in
  if positive rawSec then clamp low (floor_thousand rawSec)
  else
    let rawMs := num_of_string (env_var env ms_var) in
    if positive rawMs then clamp low (floor_z rawMs) else fallback.
Definition resolveChatTimeoutMs : Z :=
  timeout_from "T560_CHAT_TIMEOUT_SEC" "T560_CHAT_TIMEOUT_MS" MIN_CHAT_TIMEOUT_MS DEFAULT_CHAT_TIMEOUT_MS.
Definition resolveLocalChatTimeoutMs : Z :=
  timeout_from "T560_CHAT_TIMEOUT_LOCAL_SEC" "T560_CHAT_TIMEOUT_LOCAL_MS" MIN_LOCAL_CHAT_TIMEOUT_MS
    DEFAULT_LOCAL_CHAT_TIMEOUT_MS.

Definition resolveChatTimeoutForMessage (msg : string) (route : RoutingTarget) (config : T560Config) : Z :=
  let localRoute := isLikelyLocalRoute config route in
  let base := if localRoute then resolveLocalChatTimeoutMs else resolveChatTimeoutMs in
  if negb (messageLikelyLongRunning msg) then base
  else Z.min MAX_CHAT_TIMEOUT_MS (Z.max base ((if localRoute then 60 else 30) * 60000)).

Definition allowFallbackFromLocal : bool := default false (parseExplicitBoolean (env_var env "T560_ALLOW_FALLBACK_FROM_LOCAL")).
Definition allowCrossSlotFallback : bool := default false (parseExplicitBoolean (env_var env "T560_ALLOW_CROSS_SLOT_FALLBACK")).

(** ** A turn *)

Record state := mkState { s_disk : disk; s_pending : pendings; s_vault : W }.
Record turn := mkTurn { tn_response : ChatResponse; tn_state : state; tn_trace : list action; tn_elapsed : Z }.

Definition RESUME_MESSAGE : string :=
  "Continue from the current session state and finish the user's previous request. Do not ask them to restate it.".

(** The answers that come without the provider, from it, and after its failure. *)
Definition local_answer (status : OnboardingStatus) (msg : string) : ChatResponse :=
  mkResponse msg None [] (if onboarded status then provider_mode else foundation) None None (negb (onboarded status))
    (if onboarded status then [] else missing status).
Definition provider_answer (msg : string) (r : ProviderReply) : ChatResponse :=
  mkResponse msg (pr_thinking r) (pr_toolCalls r) provider_mode (Some (pr_provider r)) (Some (pr_model r)) false [].
Definition error_answer (route : option RoutingTarget) (msg : string) : ChatResponse :=
  mkResponse msg None [] provider_mode (t ← route; t_provider t) (t ← route; t_model t) false [].

Definition call_text (t : RoutingTarget) : string :=
  default "undefined" (t_provider t) +:+ "/" +:+ default "undefined" (t_model t).

(** The calls of a turn: the answer, the calls made and the time they took. *)
Definition run_provider (input : GatewayInboundMessage) (config : T560Config) (s : slot) (route : RoutingTarget)
  : ChatResponse * list action * Z :=
  let ask target msg := mkRequest target msg (sessionId input) (externalUserId input) (channel input) in
  let limit target := resolveChatTimeoutForMessage (message input) target config in
  let first := ask route (message input) in
  match runWithTimeout (chatWithProvider 0 first) (limit route)
          ("Chat request timed out after " +:+ pretty (seconds (limit route)) +:+ "s.") with
  | (t, Ok response) => (provider_answer (pr_message response) response, [Called first (limit route)], t)
  | (t, Throw errorMessage) =>
      let localRoute := isLikelyLocalRoute config route in
      let skipFallbackForLocalTimeout :=
        localRoute && isTimeoutLikeError errorMessage &&
        negb (trim (env_var env "T560_ALLOW_FALLBACK_ON_LOCAL_TIMEOUT") =? "1")%string in
      let skipFallbackForLocalRoute := localRoute && negb allowFallbackFromLocal in
      let fallbackRoute :=
        if isConnectivityProviderError errorMessage && negb skipFallbackForLocalTimeout &&
           negb skipFallbackForLocalRoute && allowCrossSlotFallback
        then chooseFallbackRoute config route else None in
      match fallbackRoute with
      | Some other =>
          let second := ask other (message input) in
          let calls := [Called first (limit route); Called second (limit other)] in
          match runWithTimeout (chatWithProvider 1 second) (limit other)
                  ("Fallback chat request timed out after " +:+ pretty (seconds (limit other)) +:+ "s.") with
          | (t', Ok fallback) =>
              (provider_answer (join lf ["Primary route " +:+ call_text route +:+ " failed (" +:+ errorMessage +:+ ").";
                                         "Used fallback " +:+ call_text other +:+ "."; ""; pr_message fallback]) fallback,
               calls, (t + t')%Z)
          | (t', Throw fallbackMessage) =>
              (error_answer (Some route) (formatProviderError (Some route) s (channel input)
                 ("Primary route failed (" +:+ errorMessage +:+ "); fallback " +:+ call_text other +:+ " failed (" +:+
                  fallbackMessage +:+ ").")), calls, (t + t')%Z)
          end
      | None =>
          if shouldAutoResumeAfterProviderError errorMessage then
            let second := ask route RESUME_MESSAGE in
            let calls := [Called first (limit route); Called second (limit route)] in
            match runWithTimeout (chatWithProvider 1 second) (limit route)
                    ("Auto-resume request timed out after " +:+ pretty (seconds (limit route)) +:+ "s.") with
            | (t', Ok resumed) => (provider_answer (pr_message resumed) resumed, calls, (t + t')%Z)
            | (t', Throw resumeMessage) =>
                (error_answer (Some route) (formatProviderError (Some route) s (channel input)
                   ("Primary run failed (" +:+ errorMessage +:+ "); auto-resume failed (" +:+ resumeMessage +:+ ").")),
                 calls, (t + t')%Z)
            end
          else (error_answer (Some route) (formatProviderError (Some route) s (channel input) errorMessage),
                [Called first (limit route)], t)
      end
  end.

Definition processChatMessage (input : GatewayInboundMessage) (st : state) : result turn :=
  let? r := readOnboardingStatus env pcwd home (s_disk st) in
  let '(status, d) := r in
  match handleSecureSetupFlow (sessionId input) (message input) (s_pending st) (s_vault st) with
  | Throw setupError =>
      Ok (mkTurn (local_answer status ("Secure setup error: " +:+ setupError)) (mkState d (s_pending st) (s_vault st)) [] 0)
  | Ok (ps, w, Some text) => Ok (mkTurn (local_answer status text) (mkState d ps w) [] 0)
  | Ok (ps, w, None) =>
      let st := mkState d ps w in
      if negb (onboarded status)
      then Ok (mkTurn (local_answer status (foundationMessage (message input) (channel input) (missing status))) st [] 0)
      else
        let intent := analyzeRouteIntent (message input) in
        let s := ra_slot intent in
        let route := match resolveRoutingTarget (st_config status) s with
                     | Some t => Some t
                     | None => resolveRoutingTarget (st_config status) Default
                     end in
        match route with
        | Some t =>
            if complete_target route then
              let '(response, calls, elapsed) := run_provider input (st_config status) s t in
              Ok (mkTurn response st (Routed s intent route :: calls) elapsed)
            else Ok (mkTurn (error_answer route (formatProviderError route s (channel input) "Routing configuration is incomplete."))
                       st [Routed s intent route] 0)
        | None => Ok (mkTurn (error_answer route (formatProviderError route s (channel input) "Routing configuration is incomplete."))
                       st [Routed s intent route] 0)
        end
  end.
End Chat.

(** ** Limits *)

Fixpoint calls_of (l : list action) : list (request * Z) :=
  match l with
  | [] => []
  | Called r t :: l' => (r, t) :: calls_of l'
  | Routed _ _ _ :: l' => calls_of l'
  end.
Definition total (l : list (request * Z)) : Z := foldr (fun c n => c.2 + n)%Z 0%Z l.

Lemma clamp_bounds low z : (low <= MAX_CHAT_TIMEOUT_MS)%Z -> (low <= clamp low z <= MAX_CHAT_TIMEOUT_MS)%Z.
Proof. unfold clamp. lia. Qed.

Section ChatFacts.
Context {W : Type} `{VaultService W}.
Variables (env : list (string * string)) (pcwd home : string).
Variable hostname_of : string -> option string.
Variable chatWithProvider : nat -> request -> attempt.
Notation process := (processChatMessage env pcwd home hostname_of chatWithProvider).
Notation provider_run := (run_provider env hostname_of chatWithProvider).
Notation limit := (resolveChatTimeoutForMessage env hostname_of).

Lemma timeout_from_bounds a b low d :
  (low <= MAX_CHAT_TIMEOUT_MS)%Z -> (low <= d <= MAX_CHAT_TIMEOUT_MS)%Z ->
  (low <= timeout_from env a b low d <= MAX_CHAT_TIMEOUT_MS)%Z.
Proof. intros L D. unfold timeout_from. repeat case_match; auto using clamp_bounds. Qed.

Lemma limit_bounds msg route config : (MIN_CHAT_TIMEOUT_MS <= limit msg route config <= MAX_CHAT_TIMEOUT_MS)%Z.
Proof.
  unfold resolveChatTimeoutForMessage, resolveChatTimeoutMs, resolveLocalChatTimeoutMs.
  pose proof (timeout_from_bounds "T560_CHAT_TIMEOUT_SEC" "T560_CHAT_TIMEOUT_MS" MIN_CHAT_TIMEOUT_MS DEFAULT_CHAT_TIMEOUT_MS) as A.
  pose proof (timeout_from_bounds "T560_CHAT_TIMEOUT_LOCAL_SEC" "T560_CHAT_TIMEOUT_LOCAL_MS" MIN_LOCAL_CHAT_TIMEOUT_MS
    DEFAULT_LOCAL_CHAT_TIMEOUT_MS) as B.
  unfold MIN_CHAT_TIMEOUT_MS, MIN_LOCAL_CHAT_TIMEOUT_MS, DEFAULT_CHAT_TIMEOUT_MS, DEFAULT_LOCAL_CHAT_TIMEOUT_MS, MAX_CHAT_TIMEOUT_MS in *.
  destruct (isLikelyLocalRoute _ _ _), (negb _); cbv zeta in *; lia.
Qed.

Lemma run_bounded a t msg : ((runWithTimeout a t msg).1 <= t)%Z.
Proof. unfold runWithTimeout. destruct (settled_at a); [|simpl; lia]. destruct (Z.ltb_spec z t); simpl; lia. Qed.

(** ** The calls of a turn *)

(** Why a second call is made. *)
Inductive second_call (input : GatewayInboundMessage) (config : T560Config) (route : RoutingTarget) : request -> Prop :=
| SecondFallback other errorMessage :
    isConnectivityProviderError errorMessage = true -> allowCrossSlotFallback env = true ->
    (isLikelyLocalRoute hostname_of config route = true -> allowFallbackFromLocal env = true) ->
    chooseFallbackRoute config route = Some other ->
    second_call input config route (mkRequest other (message input) (sessionId input) (externalUserId input) (channel input))
| SecondResume errorMessage :
    shouldAutoResumeAfterProviderError errorMessage = true ->
    second_call input config route (mkRequest route RESUME_MESSAGE (sessionId input) (externalUserId input) (channel input)).

(** The route of a slot; the one of the default slot stands in for a slot without. *)
Definition routed (config : T560Config) (s : slot) (route : RoutingTarget) : Prop :=
  resolveRoutingTarget config s = Some route \/
  resolveRoutingTarget config s = None /\ resolveRoutingTarget config Default = Some route.
Definition first_request (input : GatewayInboundMessage) (route : RoutingTarget) : request :=
  mkRequest route (message input) (sessionId input) (externalUserId input) (channel input).

(** The second call of a turn, by the constructor [C]. *)
Ltac second_of C :=
  match goal with |- context [runWithTimeout ?a ?t ?m] =>
    pose proof (run_bounded a t m); destruct (runWithTimeout a t m) as [? [?|?]] end;
  cbn [calls_of total foldr fst snd] in *;
  (split; [lia|]); right; eexists (mkRequest _ _ _ _ _); (split; [|reflexivity]); eapply C.

Lemma run_provider_calls input config s route :
  let '(response, calls, elapsed) := provider_run input config s route in
  (elapsed <= total (calls_of calls))%Z /\
  (calls = [Called (first_request input route) (limit (message input) route config)] \/
   exists r, second_call input config route r /\
     calls = [Called (first_request input route) (limit (message input) route config);
              Called r (limit (message input) (rq_target r) config)]).
Proof.
  unfold run_provider, first_request. cbv zeta.
  match goal with |- context [runWithTimeout ?a ?t ?m] =>
    pose proof (run_bounded a t m) as B; destruct (runWithTimeout a t m) as [e [reply|error]] eqn:R end.
  { cbn in *. split; [lia|by left]. }
  destruct (_ && _ && _ && _) eqn:G; [destruct (chooseFallbackRoute config route) as [other|] eqn:F|].
  - rewrite !andb_true_iff, !negb_true_iff in G. destruct G as (((G1 & _) & G2) & G3).
    second_of SecondFallback; try eassumption; intros L; rewrite L in G2; by destruct (allowFallbackFromLocal env).
  - destruct (shouldAutoResumeAfterProviderError error) eqn:A; [|cbn in *; split; [lia|by left]].
    second_of SecondResume; exact A.
  - destruct (shouldAutoResumeAfterProviderError error) eqn:A; [|cbn in *; split; [lia|by left]].
    second_of SecondResume; exact A.
Qed.

(** Everything a turn can do. *)
Inductive turn_shape (input : GatewayInboundMessage) (st : @state W) (status : OnboardingStatus) (t : @turn W) : Prop :=
| ShapeSetup :
    (forall ps w, handleSecureSetupFlow (sessionId input) (message input) (s_pending st) (s_vault st) <> Ok (ps, w, None)) ->
    tn_trace t = [] -> tn_elapsed t = 0%Z -> turn_shape input st status t
| ShapeFoundation :
    onboarded status = false -> tn_trace t = [] -> tn_elapsed t = 0%Z -> turn_shape input st status t
| ShapeUnrouted intent route :
    mget (sessionId input) (s_pending st) = None -> startsWith "/setup" (trim (message input)) = false ->
    complete_target route = false -> tn_trace t = [Routed (ra_slot intent) intent route] -> tn_elapsed t = 0%Z ->
    turn_shape input st status t
| ShapeProvider route response calls :
    mget (sessionId input) (s_pending st) = None -> startsWith "/setup" (trim (message input)) = false ->
    onboarded status = true ->
    routed (st_config status) (chooseRouteSlot (message input)) route ->
    provider_run input (st_config status) (chooseRouteSlot (message input)) route = (response, calls, tn_elapsed t) ->
    tn_response t = response ->
    tn_trace t = Routed (chooseRouteSlot (message input)) (analyzeRouteIntent (message input)) (Some route) :: calls ->
    turn_shape input st status t.

(** A session in the middle of the dialogue: every message is the dialogue's. *)
Lemma handled_Some ps (w : W) m ps' w' : handled ps w m <> Ok (ps', w', None).
Proof. by intros [=]. Qed.
Lemma slash_unhandled sid text ps (w : W) ps' w' :
  handleSlashSetupCommand sid text ps w = Ok (ps', w', None) ->
  ps' = ps /\ w' = w /\ startsWith "/setup" (trim text) = false.
Proof.
  unfold handleSlashSetupCommand. destruct (startsWith "/setup" (trim text)); cbn [negb]; [|by intros [= -> ->]]. cbv zeta.
  repeat (match goal with
          | |- handled _ _ _ = _ -> _ => by intros E%handled_Some
          | |- context [match ?x with _ => _ end] => destruct x
          | |- context [rbind ?x _] => destruct x; cbn [rbind]
          end); done.
Qed.
Lemma command_handled sid text ps (w : W) :
  startsWith "/setup" (trim text) = true -> forall ps' w', handleSecureSetupFlow sid text ps w <> Ok (ps', w', None).
Proof.
  intros G ps' w'. unfold handleSecureSetupFlow.
  destruct (handleSlashSetupCommand sid text ps w) as [[[ps1 w1] [m|]]|] eqn:E; cbn [rbind]; [by intros [=]| |done].
  apply slash_unhandled in E as (_ & _ & E). congruence.
Qed.
Lemma pending_handled sid text ps (w : W) p :
  mget sid ps = Some p -> forall ps' w', handleSecureSetupFlow sid text ps w <> Ok (ps', w', None).
Proof.
  intros G ps' w'. unfold handleSecureSetupFlow.
  destruct (handleSlashSetupCommand sid text ps w) as [[[ps1 w1] [m|]]|] eqn:E; cbn [rbind]; [by intros [=]| |done].
  apply slash_unhandled in E as (-> & -> & _). unfold handlePendingSetupInput. rewrite G. cbv zeta.
  repeat (match goal with
          | |- handled _ _ _ <> _ => apply handled_Some
          | |- context [match ?x with _ => _ end] => destruct x
          end).
Qed.

Lemma turn_shapes input st status d t :
  readOnboardingStatus env pcwd home (s_disk st) = Ok (status, d) -> process input st = Ok t ->
  turn_shape input st status t.
Proof.
  intros R. unfold processChatMessage. rewrite R. cbn [rbind].
  destruct (handleSecureSetupFlow (sessionId input) (message input) (s_pending st) (s_vault st)) as [[[ps w] [text|]]|] eqn:F.
  - intros [= <-]. apply ShapeSetup; [congruence|done|done].
  - destruct (onboarded status) eqn:O; cbn [negb]; cbv zeta; [|intros [= <-]; by apply ShapeFoundation].
    set (s := ra_slot (analyzeRouteIntent (message input))).
    assert (mget (sessionId input) (s_pending st) = None) as Np.
    { destruct (mget (sessionId input) (s_pending st)) as [p|] eqn:G; [|done].
      by destruct (pending_handled _ (message input) _ (s_vault st) p G ps w). }
    assert (startsWith "/setup" (trim (message input)) = false) as Nc.
    { destruct (startsWith "/setup" (trim (message input))) eqn:G; [|done].
      by destruct (command_handled (sessionId input) _ (s_pending st) (s_vault st) G ps w). }
    destruct (match resolveRoutingTarget (st_config status) s with Some _ => _ | None => _ end) as [route|] eqn:Ro;
      [|intros [= <-]; by apply (ShapeUnrouted _ _ _ _ (analyzeRouteIntent (message input)) None)].
    destruct (complete_target (Some route)) eqn:C;
      [|intros [= <-]; by apply (ShapeUnrouted _ _ _ _ (analyzeRouteIntent (message input)) (Some route))].
    destruct (provider_run input (st_config status) s route) as [[response calls] elapsed] eqn:P. intros [= <-].
    eapply ShapeProvider; try reflexivity; try done.
    unfold chooseRouteSlot. fold s. unfold routed. destruct (resolveRoutingTarget (st_config status) s) as [r|]; [left|right]; [congruence|done].
  - intros [= <-]. apply ShapeSetup; [congruence|done|done].
Qed.

Lemma process_total input st status d :
  readOnboardingStatus env pcwd home (s_disk st) = Ok (status, d) -> exists t, process input st = Ok t.
Proof.
  intros R. unfold processChatMessage. rewrite R. cbn [rbind]. repeat (case_match; try by eexists).
Qed.

(** C19: a turn always answers, once the onboarding status can be read.  Whatever the provider does, also when it never
    settles, the turn makes at most two calls, each with a limit between five
    seconds and a day, and takes no longer than the sum of the limits. *)
Theorem chat_turn_bounded input st status d :
  readOnboardingStatus env pcwd home (s_disk st) = Ok (status, d) ->
  exists t, process input st = Ok t /\ length (calls_of (tn_trace t)) <= 2 /\
    (tn_elapsed t <= total (calls_of (tn_trace t)) <= 2 * MAX_CHAT_TIMEOUT_MS)%Z /\
    Forall (fun c => (MIN_CHAT_TIMEOUT_MS <= c.2 <= MAX_CHAT_TIMEOUT_MS)%Z) (calls_of (tn_trace t)).
Proof.
  intros R. destruct (process_total input st status d R) as [t E]. exists t. split; [done|].
  destruct (turn_shapes input st status d t R E) as [_ T El|_ T El|intent route _ _ _ T El|route response calls _ _ _ _ P _ T].
  1-3: rewrite T, El; cbn; unfold MAX_CHAT_TIMEOUT_MS; split; [lia|split; [lia|constructor]].
  pose proof (run_provider_calls input (st_config status) (chooseRouteSlot (message input)) route) as C.
  rewrite P in C. rewrite T. cbn [calls_of].
  pose proof (fun r => limit_bounds (message input) r (st_config status)) as L.
  destruct C as [El [->|(r & _ & ->)]]; cbn [calls_of length total foldr fst snd] in *.
  all: assert (0 <= MAX_CHAT_TIMEOUT_MS)%Z by done.
  - pose proof (L route). split; [lia|]. split; [lia|]. by repeat constructor; cbn; apply L.
  - pose proof (L route). pose proof (L (rq_target r)). split; [lia|]. split; [lia|].
    repeat constructor; cbn; apply L.
Qed.

(** while a setup dialogue is open in the session, and for every message that
    starts with [/setup], nothing is sent to the provider: what the user types
    there, the secret included, stays in the dialogue. *)
Theorem setup_not_sent input st t :
  mget (sessionId input) (s_pending st) <> None \/ startsWith "/setup" (trim (message input)) = true ->
  processChatMessage env pcwd home hostname_of chatWithProvider input st = Ok t -> tn_trace t = [].
Proof.
  intros S E. destruct (readOnboardingStatus env pcwd home (s_disk st)) as [[status d]|] eqn:R;
    [|unfold processChatMessage in E; by rewrite R in E].
  destruct (turn_shapes input st status d t R E) as [_ T El|_ T El|intent route N C _ T El|route response calls N C _ _ P _ T]; try done.
  all: destruct S as [S|S]; congruence.
Qed.

(** ** Fallback *)

Lemma complete_real config s r :
  (if complete_target (resolveRoutingTarget config s) then resolveRoutingTarget config s else None) = Some r ->
  resolveRoutingTarget config s = Some r /\ complete_target (Some r) = true.
Proof. destruct (complete_target _) eqn:C; [|done]. intros E. rewrite E in C. done. Qed.

Lemma values_fold (f : RoutingTarget -> string) l m r :
  r ∈ values (fold_left (fun m r => mset (f r) r m) l m) -> r ∈ l \/ r ∈ values m.
Proof.
  revert m. induction l as [|x l IH]; intros m; simpl; [by right|]. intros [K|K]%IH; [left; set_solver|].
  assert (r ∈ values (mset (f x) x m) -> r = x \/ r ∈ values m) as A.
  { clear. unfold values. induction m as [|[k y] m IH]; simpl; [set_solver|]. case_bool_decide; simpl; set_solver. }
  apply A in K as [->|K]; [left; set_solver|by right].
Qed.

Lemma find_elem {A} (p : A -> bool) l x : List.find p l = Some x -> x ∈ l /\ p x = true.
Proof. intros [E P]%find_some. by split; [apply list_elem_of_In|]. Qed.

(** A fallback is the route of some slot with another key, and with another
    provider when there is one. *)
Lemma chooseFallbackRoute_spec config failed r :
  chooseFallbackRoute config failed = Some r ->
  (exists s, resolveRoutingTarget config s = Some r) /\ routeKey (Some r) <> routeKey (Some failed).
Proof.
  unfold chooseFallbackRoute. cbv zeta. set (unique := List.filter _ _). intros E.
  assert (r ∈ unique) as K.
  { destruct (List.find _ unique) as [x|] eqn:F; [apply find_elem in F as [F _]; congruence|].
    destruct unique as [|y u]; [done|]. injection E as ->. set_solver. }
  subst unique. apply list_elem_of_In, filter_In in K as [K N]. apply list_elem_of_In in K.
  apply andb_true_iff in N as [_ N]. apply negb_true_iff, String.eqb_neq in N. split; [|done].
  apply values_fold in K as [K|K]; [|set_solver]. apply list_elem_of_omap in K as (s & _ & G). exists s.
  by apply complete_real in G as [G _].
Qed.

(** C20: where a message goes.  The first call of a turn carries the message to the
    route of its slot, the default route standing in only for a slot without one;
    a second call asks the same route to continue or, when fallback between slots
    is switched on and the route is not a local one or fallback from local routes
    is switched on, carries the message to another configured route.  A turn whose
    message is not for the setup dialogue and whose route is complete makes the
    first call. *)
Theorem message_destination input st status d t :
  readOnboardingStatus env pcwd home (s_disk st) = Ok (status, d) -> process input st = Ok t ->
  let config := st_config status in
  (calls_of (tn_trace t) = [] \/ exists route rest,
     routed config (chooseRouteSlot (message input)) route /\
     map fst (calls_of (tn_trace t)) = first_request input route :: rest /\
     (rest = [] \/
      rest = [mkRequest route RESUME_MESSAGE (sessionId input) (externalUserId input) (channel input)] \/
      exists other slot', rest = [first_request input other] /\ allowCrossSlotFallback env = true /\
        (isLikelyLocalRoute hostname_of config route = true -> allowFallbackFromLocal env = true) /\
        resolveRoutingTarget config slot' = Some other /\ routeKey (Some other) <> routeKey (Some route))) /\
  (forall ps w route, handleSecureSetupFlow (sessionId input) (message input) (s_pending st) (s_vault st) = Ok (ps, w, None) ->
     onboarded status = true -> routed config (chooseRouteSlot (message input)) route -> complete_target (Some route) = true ->
     calls_of (tn_trace t) <> []).
Proof.
  intros R E config. split.
  - destruct (turn_shapes input st status d t R E) as [_ T El|_ T El|intent route _ _ _ T El|route response calls _ _ _ Ro P _ T];
      rewrite T; cbn [calls_of]; [by left..|right].
    pose proof (run_provider_calls input config (chooseRouteSlot (message input)) route) as C. subst config. rewrite P in C.
    destruct C as [_ [->|(r & S & ->)]]; cbn [calls_of map fst].
    + exists route, []. split; [exact Ro|]. split; [done|by left].
    + exists route, [r]. split; [exact Ro|]. split; [done|]. right. destruct S as [other error _ X L F|error _]; [right|by left].
      apply chooseFallbackRoute_spec in F as [[s' F] N]. by exists other, s'.
  - intros ps w route Su On Ro Co. revert E. unfold processChatMessage. rewrite R. cbn [rbind]. rewrite Su, On. cbn [negb].
    change (ra_slot (analyzeRouteIntent (message input))) with (chooseRouteSlot (message input)).
    assert (match resolveRoutingTarget (st_config status) (chooseRouteSlot (message input)) with
            | Some t => Some t | None => resolveRoutingTarget (st_config status) Default end = Some route) as ->.
    { subst config. destruct Ro as [->|[-> ->]]; done. }
    rewrite Co. pose proof (run_provider_calls input (st_config status) (chooseRouteSlot (message input)) route) as C.
    destruct (provider_run _ _ _ _) as [[response calls] elapsed]. intros [= <-]. cbn [tn_trace calls_of].
    destruct C as [_ [->|(r & _ & ->)]]; done.
Qed.

(** a message only goes to providers that are configured, with a credential
    or at a local address: the check of the configuration and the calls agree. *)
Theorem calls_configured input st status d t c :
  isAbsolute home = true -> readOnboardingStatus env pcwd home (s_disk st) = Ok (status, d) -> process input st = Ok t ->
  c ∈ calls_of (tn_trace t) ->
  exists p m prof, rq_target c.1 = mkTarget (Some p) (Some m) /\
    mget p (default [] (c_providers (st_config status))) = Some prof /\ runnable p prof = true.
Proof.
  intros A R E K. destruct (onboarded status) eqn:O.
  - apply (onboarded_spec env pcwd home A _ _ _ R) in O as S.
    assert (exists s, resolveRoutingTarget (st_config status) s = Some (rq_target c.1)) as [s F].
    { destruct (turn_shapes input st status d t R E) as [_ T El|_ T El|intent route _ _ _ T El|route response calls _ _ _ Ro P _ T];
        rewrite T in K; cbn [calls_of] in K; try by apply not_elem_of_nil in K.
      pose proof (run_provider_calls input (st_config status) (chooseRouteSlot (message input)) route) as C. rewrite P in C.
      assert (exists s, resolveRoutingTarget (st_config status) s = Some route) as [s Rs] by (destruct Ro as [?|[_ ?]]; eauto).
      destruct C as [_ [->|(r & S2 & ->)]]; cbn [calls_of] in K; rewrite !elem_of_cons in K.
      - destruct K as [->|K%not_elem_of_nil]; [|done]. eauto.
      - destruct K as [->|[->|K%not_elem_of_nil]]; [eauto| |done].
        destruct S2 as [other error _ X L F|error _]; [|eauto]. by apply chooseFallbackRoute_spec in F as [F _]. }
    destruct (su_routes _ _ _ _ _ S s) as (p & m & prof & E' & G & Rn). exists p, m, prof. split; [congruence|done].
  - destruct (turn_shapes input st status d t R E) as [_ T El|_ T El|intent route _ _ _ T El|route response calls _ _ O' _ P _ T];
      [..|congruence]; rewrite T in K; by apply not_elem_of_nil in K.
Qed.
End ChatFacts.

(** ** Classification *)

(** how a slot is chosen: a coding turn has coding signals and no heavier
    planning signals, a planning turn has planning weight at least three, and
    otherwise neither side wins. *)
Theorem analyzeRouteIntent_spec msg :
  let a := analyzeRouteIntent msg in
  match ra_slot a with
  | Coding => 2 <= codingScore a /\ planningScore a <= codingScore a /\ codingSignals a <> []
  | Planning => 3 <= planningScore a /\ planningSignals a <> []
  | Default => codingScore a < 4 \/ codingScore a < planningScore a + 1
  end.
Proof.
  assert (forall signals text, 1 <= score (hits signals text) -> map label (hits signals text) <> []) as N.
  { intros signals text. destruct (hits signals text); simpl; [lia|done]. }
  unfold analyzeRouteIntent. cbv zeta. destruct (negb _); [simpl; lia|].
  set (p := hits PLANNING_SIGNALS _). set (c := hits CODING_SIGNALS _).
  destruct (_ && _).
  { cbn [ra_slot planningScore planningSignals]. split; [lia|]. destruct p; [done|]. done. }
  destruct (existsb strong c && _ && _) eqn:E1.
  { cbn [ra_slot planningScore codingScore planningSignals codingSignals]. rewrite !andb_true_iff, !Nat.leb_le in E1. split; [lia|]. split; [lia|]. apply N. fold c. lia. }
  destruct ((4 <=? score c)%nat && _) eqn:E2.
  { cbn [ra_slot planningScore codingScore planningSignals codingSignals]. rewrite !andb_true_iff, !Nat.leb_le in E2. split; [lia|]. split; [lia|]. apply N. fold c. lia. }
  destruct (existsb strong p && _ && _) eqn:E3.
  { cbn [ra_slot planningScore codingScore planningSignals codingSignals]. rewrite !andb_true_iff, !Nat.leb_le in E3. split; [lia|]. apply N. fold p. lia. }
  destruct ((3 <=? score p)%nat && _) eqn:E4.
  { cbn [ra_slot planningScore codingScore planningSignals codingSignals]. rewrite !andb_true_iff, !Nat.leb_le in E4. split; [lia|]. apply N. fold p. lia. }
  destruct ((2 <=? score c)%nat && _) eqn:E5.
  { cbn [ra_slot planningScore codingScore planningSignals codingSignals]. rewrite andb_true_iff, Nat.leb_le, Nat.eqb_eq in E5. split; [lia|]. split; [lia|]. apply N. fold c. lia. }
  cbn [ra_slot planningScore codingScore]. apply andb_false_iff in E2. rewrite !Nat.leb_gt in E2. lia.
Qed.

(** ** Examples *)

(** A host that is a name below [127.] counts as local; the host of an IPv6
    loopback address is written in brackets by [URL] and does not. *)
Example hostLooksLocal_examples :
  map hostLooksLocal ["localhost"; "127.0.0.1"; "192.168.1.9"; "172.32.0.1"; "100.64.0.9"; "127.example.com"; "[::1]"] =
  [true; true; true; false; true; true; false].
Proof. vm_compute. reflexivity. Qed.

Example analyzeRouteIntent_examples :
  map chooseRouteSlot ["fix the failing test in src/app.ts"; "draft a roadmap"; "hello"; "compare the options and fix the bug";
                       "write a script"] = [Coding; Planning; Default; Default; Coding].
Proof. vm_compute. reflexivity. Qed.

Definition sample_status : OnboardingStatus :=
  mkStatus true [] (read_config keyed_disk) "/home/u/.t560/config.json".
Lemma sample_status_read : readOnboardingStatus [] "/" "/home/u" keyed_disk = Ok (sample_status, read_disk keyed_disk).
Proof. vm_compute. reflexivity. Qed.

Definition sample_input (text : string) : GatewayInboundMessage := mkInbound terminal text "chat1" "me" 0.
Definition sample_state (ps : pendings) : @state Vault.world := mkState keyed_disk ps (Vault.mkWorld [] None).
(** A provider that never answers. *)
Definition silent (_ : nat) (_ : request) : attempt := mkAttempt None (Throw "unused").
Definition sample_turn (text : string) (ps : pendings) : result (@turn Vault.world) :=
  @processChatMessage Vault.world sample_service [] "/" "/home/u" (fun _ => None) silent (sample_input text) (sample_state ps).
Definition sample_call (text : string) : request * Z :=
  (mkRequest (mkTarget (Some "local-openai") (Some "qwen")) text "chat1" "me" terminal, 1800000%Z).

Lemma chat_turn_bounded_witness :
  exists t, sample_turn "hello" [] = Ok t /\ length (calls_of (tn_trace t)) <= 2.
Proof.
  destruct (@chat_turn_bounded Vault.world sample_service [] "/" "/home/u" (fun _ => None) silent (sample_input "hello")
    (sample_state []) sample_status (read_disk keyed_disk) sample_status_read) as (t & E & L & _).
  exact (ex_intro _ t (conj E L)).
Defined.

Definition result_get {A} (d : A) (r : result A) : A := match r with Ok a => a | Throw _ => d end.
Definition no_turn : @turn Vault.world := mkTurn (local_answer sample_status "") (sample_state []) [] 0.
Lemma setup_not_sent_witness :
  tn_trace (result_get no_turn (sample_turn "hunter2" [("chat1", mkSetup "example.com" AskSecret None (Some "bob"))])) = [].
Proof.
  apply (@setup_not_sent Vault.world sample_service [] "/" "/home/u" (fun _ => None) silent (sample_input "hunter2")
    (sample_state [("chat1", mkSetup "example.com" AskSecret None (Some "bob"))])).
  - left. discriminate.
  - vm_compute. reflexivity.
Defined.

Lemma sample_turn_hello : sample_turn "hello" [] = Ok (result_get no_turn (sample_turn "hello" [])).
Proof. vm_compute. reflexivity. Qed.
Lemma sample_call_made : sample_call "hello" ∈ calls_of (tn_trace (result_get no_turn (sample_turn "hello" []))).
Proof.
  assert (calls_of (tn_trace (result_get no_turn (sample_turn "hello" []))) = [sample_call "hello"]) as E
    by (vm_compute; reflexivity).
  rewrite E. constructor.
Qed.

Lemma message_destination_witness :
  exists route, routed (st_config sample_status) (chooseRouteSlot "hello") route /\
    rq_target (sample_call "hello").1 = route /\ rq_message (sample_call "hello").1 = "hello".
Proof.
  destruct (@message_destination Vault.world sample_service [] "/" "/home/u" (fun _ => None) silent (sample_input "hello")
    (sample_state []) sample_status (read_disk keyed_disk) _ sample_status_read sample_turn_hello) as [[D|(route & rest & Ro & M & _)] _].
  - exfalso. pose proof sample_call_made as K. rewrite D in K. by apply not_elem_of_nil in K.
  - exists route. split; [exact Ro|].
    assert (map fst (calls_of (tn_trace (result_get no_turn (sample_turn "hello" [])))) = [(sample_call "hello").1]) as X by (vm_compute; reflexivity).
    rewrite X in M. injection M as M _. split; [exact M|reflexivity].
Defined.

Lemma calls_configured_witness :
  exists p m prof, rq_target (sample_call "hello").1 = mkTarget (Some p) (Some m) /\ runnable p prof = true.
Proof.
  destruct (@calls_configured Vault.world sample_service [] "/" "/home/u" (fun _ => None) silent (sample_input "hello")
    (sample_state []) sample_status (read_disk keyed_disk) _ (sample_call "hello") eq_refl sample_status_read sample_turn_hello
    sample_call_made) as (p & m & prof & E & _ & R).
  exact (ex_intro _ p (ex_intro _ m (ex_intro _ prof (conj E R)))).
Defined.
