(* ===== verification/TelegramRelay.v ===== *)
(** * Progress relay of the Telegram channel

    [createTelegramProgressRelay] of [src/src/channels/telegram.ts]: while a
    message is handled, the texts of the agent are collected and sent in batches,
    and screenshots of captcha pages are forwarded.

    The relay is asynchronous.  Its state holds the timers that are running, the
    variable [flushTimer], and the chain of sends that are not settled yet; what
    [flush] does after its send is a job of the same chain.  A run is a sequence
    of events: an event of the agent, a timer that fires, the first job of the
    chain settling (with success or not), and [close]. *)

From stdpp Require Import base list sets strings.
From Stdlib Require Import Ascii Lia ZArith.
From S2P Require Import Prelude JsString JsMap JsValue JsRegex Config.

(** ** Data *)

Inductive tool_phase := PStart | PUpdate | PEnd | PError.
Inductive AgentEvent :=
| ToolEvent (phase : tool_phase) (toolCallId name : string) (args result : value)
| AssistantEvent (text : string)
| StatusEvent.

Inductive message :=
| Progress (first : bool) (lines : list string)
| Notice (text : string)
| Photo (path : string).

(** The text of a progress message. *)
Definition progress_text (first : bool) (lines : list string) : string :=
  (if first then "Working update:" else "Update:") +:+ lf +:+ join lf (map (fun line => "- " +:+ line) lines).

Inductive job :=
| Send (m : message)
| AfterFlush.
Inductive timer_kind := Scheduled | Continued.

Record relay := mkRelay {
  queue : list string;
  sentCount : nat;
  lastText : string;
  lastSentAt : Z;
  flushTimer : option nat;
  timers : list (nat * timer_kind);
  next_timer : nat;
  closed : bool;
  chain : list job;
  tracked : list string;
  outbox : list message;
}.
Definition initial : relay := mkRelay [] 0 "" 0 None [] 0 false [] [] [].

Definition MAX_PROGRESS_MESSAGES : nat := 8.
Definition BATCH_LINES : nat := 3.

(** ** Records in tool results *)

Section Relay.
(** [JSON.parse], [None] when it throws *)
Variable JSON_parse : string -> option value.

Definition asRecord (v : value) : option value := match v with VObj _ => Some v | _ => None end.

Definition parseToolResultRecord (result : value) : option value :=
  match asRecord result with
  | Some direct => Some direct
  | None => match result with
            | VStr s => parsed ← JSON_parse s; asRecord parsed
            | _ => None
            end
  end.

Definition extractScreenshotPathFromToolResult (result : value) : option string :=
  parsed ← parseToolResultRecord result;
  let field o := match o with
                 | Some v => trim (to_string (nullish (get_prop "path" v) (VStr "")))
                 | None => ""
                 end in
  let fromScreenshot := field (asRecord (get_prop "screenshot" parsed)) in
  if truthy fromScreenshot then Some fromScreenshot
  else let fromRoot := field (Some parsed) in if truthy fromRoot then Some fromRoot else None.

Definition progressTextFromAgentEvent (e : AgentEvent) : option string :=
  match e with
  | AssistantEvent text => if truthy (trim text) then Some (trim text) else None
  | _ => None
  end.

(** ** The relay *)

Definition enqueueSend (jobs : list job) (r : relay) : relay :=
  mkRelay (queue r) (sentCount r) (lastText r) (lastSentAt r) (flushTimer r) (timers r) (next_timer r) (closed r)
    (chain r ++ jobs) (tracked r) (outbox r).

(** A new timer in [flushTimer]. *)
Definition start_timer (k : timer_kind) (r : relay) : relay :=
  mkRelay (queue r) (sentCount r) (lastText r) (lastSentAt r) (Some (next_timer r)) (timers r ++ [(next_timer r, k)])
    (S (next_timer r)) (closed r) (chain r) (tracked r) (outbox r).

Definition flush (r : relay) : relay :=
  if (length (queue r) =? 0)%nat || (MAX_PROGRESS_MESSAGES <=? sentCount r)%nat
  then mkRelay [] (sentCount r) (lastText r) (lastSentAt r) (flushTimer r) (timers r) (next_timer r) (closed r) (chain r)
         (tracked r) (outbox r)
  else
    let lines := firstn BATCH_LINES (queue r) in
    let r := mkRelay (skipn BATCH_LINES (queue r)) (S (sentCount r)) (lastText r) (lastSentAt r) (flushTimer r) (timers r)
               (next_timer r) (closed r) (chain r) (tracked r) (outbox r) in
    enqueueSend [Send (Progress (sentCount r =? 1)%nat lines); AfterFlush] r.

(** The rest of [flush], after its send. *)
Definition after_flush (r : relay) : relay :=
  if negb (closed r) && (0 <? length (queue r))%nat && (sentCount r <? MAX_PROGRESS_MESSAGES)%nat
  then start_timer Continued r else r.

Definition scheduleFlush (r : relay) : relay :=
  match flushTimer r with
  | Some _ => r
  | None => if closed r then r else start_timer Scheduled r
  end.

Definition challenge_pattern : re :=
  rseqs [RWordB; ralts [rlit "captcha"; rlit "challenge";
                        rseqs [rlit "human"; ropt (RChr (fun c => (code c =? 45)%nat || (code c =? 95)%nat || is_ws c)); rlit "verification"]];
         RWordB].

Definition set_tracked (l : list string) (r : relay) : relay :=
  mkRelay (queue r) (sentCount r) (lastText r) (lastSentAt r) (flushTimer r) (timers r) (next_timer r) (closed r) (chain r) l (outbox r).

Definition on_tool (phase : tool_phase) (toolCallId name : string) (args result : value) (r : relay) : relay :=
  let toolName := toLowerCase (trim name) in
  match phase with
  | PStart =>
      if (toolName =? "browser")%string then
        let args := default (VObj []) (asRecord args) in
        let action := of_chars (map (fun c => if (code c =? 45)%nat then "_"%char else c)
                        (chars (toLowerCase (trim (to_string (nullish (get_prop "action" args) (VStr ""))))))) in
        let reason := toLowerCase (trim (to_string (nullish (get_prop "reason" args) (VStr "")))) in
        if (action =? "screenshot")%string && re_test challenge_pattern reason
        then set_tracked (if bool_decide (toolCallId ∈ tracked r) then tracked r else tracked r ++ [toolCallId]) r
        else r
      else r
  | PUpdate => r
  | PEnd | PError =>
      if negb (toolName =? "browser")%string then r
      else if negb (bool_decide (toolCallId ∈ tracked r)) then r
      else
        let r := set_tracked (List.filter (fun t => negb (t =? toolCallId)%string) (tracked r)) r in
        match phase, extractScreenshotPathFromToolResult result with
        | PError, _ => enqueueSend [Send (Notice
            "Captcha challenge detected, but screenshot capture failed. Solve it on the site and send me any code shown.")] r
        | _, None => enqueueSend [Send (Notice
            "Captcha challenge detected, but no screenshot file path was returned. Solve it on the site and send me any code shown.")] r
        | _, Some path => enqueueSend [Send (Photo path)] r
        end
  end.

Definition on_text (text : string) (now : Z) (r : relay) : relay :=
  if (text =? lastText r)%string then r
  else if (now - lastSentAt r <? 450)%Z then r
  else
    scheduleFlush (mkRelay (queue r ++ [text]) (sentCount r) text (lastSentAt r) (flushTimer r) (timers r) (next_timer r)
                     (closed r) (chain r) (tracked r) (outbox r)).

Definition onEvent (e : AgentEvent) (now : Z) (r : relay) : relay :=
  if closed r then r
  else
    match e with
    | ToolEvent phase id name args result => on_tool phase id name args result r
    | _ =>
        if (MAX_PROGRESS_MESSAGES <=? sentCount r)%nat then r
        else match progressTextFromAgentEvent e with
             | Some text => on_text text now r
             | None => r
             end
    end.

Definition drop_timer (id : nat) (r : relay) : relay :=
  mkRelay (queue r) (sentCount r) (lastText r) (lastSentAt r) (flushTimer r)
    (List.filter (fun t => negb (t.1 =? id)%nat) (timers r)) (next_timer r) (closed r) (chain r) (tracked r) (outbox r).
Definition clear_flushTimer (r : relay) : relay :=
  mkRelay (queue r) (sentCount r) (lastText r) (lastSentAt r) None (timers r) (next_timer r) (closed r) (chain r) (tracked r) (outbox r).

Definition on_timer (id : nat) (r : relay) : relay :=
  match mget id (timers r) with
  | None => r
  | Some Scheduled => flush (clear_flushTimer (drop_timer id r))
  | Some Continued => flush (drop_timer id r)
  end.

(** The first job of the chain settles; [ok] and [ok'] tell whether its calls
    succeed (a photo that cannot be sent is replaced by a text). *)
Definition on_settled (ok ok' : bool) (now : Z) (r : relay) : relay :=
  let next out sent_at := mkRelay (queue r) (sentCount r) (lastText r) sent_at (flushTimer r) (timers r) (next_timer r)
                            (closed r) (tail (chain r)) (tracked r) out in
  match chain r with
  | [] => r
  | AfterFlush :: _ => after_flush (next (outbox r) (lastSentAt r))
  | Send (Progress first lines) :: _ =>
      if ok then next (outbox r ++ [Progress first lines]) now else next (outbox r) (lastSentAt r)
  | Send (Notice text) :: _ => next (if ok then outbox r ++ [Notice text] else outbox r) (lastSentAt r)
  | Send (Photo path) :: _ =>
      next (if ok then outbox r ++ [Photo path]
            else if ok' then outbox r ++ [Notice ("Captcha challenge detected. I could not upload the image from " +:+ path +:+
                                                  ". Solve it on the site and send me any code shown.")]
            else outbox r) (lastSentAt r)
  end.

Definition close (r : relay) : relay :=
  if closed r then r
  else
    let r := mkRelay (queue r) (sentCount r) (lastText r) (lastSentAt r) (flushTimer r) (timers r) (next_timer r) true
               (chain r) (tracked r) (outbox r) in
    let r := match flushTimer r with Some id => clear_flushTimer (drop_timer id r) | None => r end in
    flush r.

Inductive event :=
| EAgent (e : AgentEvent) (now : Z)
| ETimer (id : nat)
| ESettled (ok ok' : bool) (now : Z)
| EClose.
Definition relay_step (e : event) (r : relay) : relay :=
  match e with
  | EAgent e now => onEvent e now r
  | ETimer id => on_timer id r
  | ESettled ok ok' now => on_settled ok ok' now r
  | EClose => close r
  end.
Definition run (es : list event) (r : relay) : relay := fold_left (fun r e => relay_step e r) es r.
End Relay.

(** ** What has been and will be sent *)

Definition msg_progress (m : message) : list (list string) := match m with Progress _ lines => [lines] | _ => [] end.
Definition job_progress (j : job) : list (list string) := match j with Send m => msg_progress m | AfterFlush => [] end.
(** The batches of lines sent or about to be sent, in order. *)
Definition sent_batches (r : relay) : list (list string) := flat_map msg_progress (outbox r).
Definition batches (r : relay) : list (list string) := sent_batches r ++ flat_map job_progress (chain r).
(** The texts the agent produced, in order. *)
Definition event_texts (es : list event) : list string :=
  omap (fun e => match e with EAgent a _ => progressTextFromAgentEvent a | _ => None end) es.

Record relay_ok (texts : list string) (r : relay) : Prop := {
  ro_count : length (batches r) <= sentCount r <= MAX_PROGRESS_MESSAGES;
  ro_lines : Forall (fun l => 1 <= length l <= BATCH_LINES) (batches r);
  ro_order : sublist (concat (batches r) ++ queue r) texts;
}.

Section RelayFacts.
Variable JSON_parse : string -> option value.

Lemma relay_ok_more texts text r : relay_ok texts r -> relay_ok (texts ++ text) r.
Proof. intros [C L O]. split; [done|done|]. by apply sublist_inserts_r. Qed.

(** Steps that touch neither the batches nor the queue. *)
Lemma relay_ok_same texts r r' :
  batches r' = batches r -> sentCount r' = sentCount r -> queue r' = queue r -> relay_ok texts r -> relay_ok texts r'.
Proof. intros B S Q [C L O]. split; rewrite ?B, ?S, ?Q; done. Qed.

Lemma tracked_same texts l r : relay_ok texts r -> relay_ok texts (set_tracked l r).
Proof. by apply relay_ok_same. Qed.
Lemma enqueue_same texts jobs r : flat_map job_progress jobs = [] -> relay_ok texts r -> relay_ok texts (enqueueSend jobs r).
Proof.
  intros E. apply relay_ok_same; [|done|done]. unfold batches, sent_batches, enqueueSend. cbn.
  by rewrite flat_map_app, E, app_nil_r.
Qed.

Lemma relay_flush_ok texts r : relay_ok texts r -> relay_ok texts (flush r).
Proof.
  intros [C L O]. unfold flush. destruct (_ || _) eqn:E.
  - split; [done|done|]. cbn. unfold batches, sent_batches in *. cbn in *. rewrite app_nil_r.
    etrans; [|exact O]. by apply sublist_inserts_r.
  - apply orb_false_iff in E as [Q M]. apply Nat.eqb_neq in Q. apply Nat.leb_gt in M.
    assert (batches (enqueueSend [Send (Progress (S (sentCount r) =? 1)%nat (firstn BATCH_LINES (queue r))); AfterFlush] r) =
      batches r ++ [firstn BATCH_LINES (queue r)]) as B.
    { unfold batches, sent_batches, enqueueSend. cbn. by rewrite flat_map_app, app_assoc. }
    split; cbn in *.
    + unfold batches, sent_batches in *. cbn in *. rewrite B, length_app. cbn. lia.
    + unfold batches, sent_batches in *. cbn in *. rewrite B. apply Forall_app. split; [done|]. apply Forall_singleton.
      rewrite length_firstn. unfold BATCH_LINES. lia.
    + unfold batches, sent_batches in *. cbn in *. rewrite B, concat_app. cbn. rewrite app_nil_r, <- app_assoc.
      by rewrite (take_drop 3 (queue r)).
Qed.
Lemma schedule_ok texts r : relay_ok texts r -> relay_ok texts (scheduleFlush r).
Proof. unfold scheduleFlush. destruct (flushTimer r), (closed r); try done. by apply relay_ok_same. Qed.
Lemma after_ok texts r : relay_ok texts r -> relay_ok texts (after_flush r).
Proof. unfold after_flush. destruct (_ && _ && _); [|done]. by apply relay_ok_same. Qed.

Lemma tool_ok texts phase id name args result r :
  relay_ok texts r -> relay_ok texts (on_tool JSON_parse phase id name args result r).
Proof.
  intros I. unfold on_tool. cbv zeta.
  repeat (match goal with
          | |- relay_ok _ (enqueueSend _ _) => apply enqueue_same; [reflexivity|]
          | |- relay_ok _ (set_tracked _ _) => apply tracked_same; exact I
          | |- relay_ok _ (match ?x with _ => _ end) => destruct x
          end); exact I.
Qed.
Lemma text_ok texts text now r : relay_ok texts r -> relay_ok (texts ++ [text]) (on_text text now r).
Proof.
  intros I. unfold on_text. destruct (_ =? _)%string; [by apply relay_ok_more|]. destruct (_ <? _)%Z; [by apply relay_ok_more|].
  apply schedule_ok. destruct I as [C L O]. split; [done|done|]. cbn. unfold batches, sent_batches in *. cbn.
  rewrite app_assoc. by apply sublist_app.
Qed.

Lemma settled_ok texts ok ok' now r : relay_ok texts r -> relay_ok texts (on_settled ok ok' now r).
Proof.
  intros [C L O]. unfold on_settled. cbv zeta. destruct (chain r) as [|[[first lines|text|path]|] rest] eqn:E; [done|..].
  - assert (batches r = sent_batches r ++ lines :: flat_map job_progress rest) as B by (unfold batches; by rewrite E).
    destruct ok.
    + eapply (relay_ok_same texts r); [|done|done|done]. rewrite B. unfold batches, sent_batches. cbn.
      by rewrite flat_map_app, <- app_assoc.
    + rewrite B in C, L, O. split; cbn; unfold batches, sent_batches in *; cbn.
      * rewrite length_app in *. cbn in C. lia.
      * apply Forall_app in L as [L1 L2%Forall_cons]. apply Forall_app. tauto.
      * etrans; [|exact O]. rewrite !concat_app. cbn. apply sublist_app; [|done]. apply sublist_app; [done|].
        by apply sublist_inserts_l.
  - eapply (relay_ok_same texts r); [|done|done|done]. unfold batches, sent_batches. rewrite E. cbn.
    destruct ok; by rewrite ?flat_map_app, ?app_nil_r.
  - eapply (relay_ok_same texts r); [|done|done|done]. unfold batches, sent_batches. rewrite E. cbn.
    destruct ok, ok'; by rewrite ?flat_map_app, ?app_nil_r.
  - apply after_ok. eapply (relay_ok_same texts r); [|done|done|done]. unfold batches, sent_batches. by rewrite E.
Qed.

Lemma relay_step_ok texts e r : relay_ok texts r -> relay_ok (texts ++ event_texts [e]) (relay_step JSON_parse e r).
Proof.
  intros I. destruct e as [a now|id|ok ok' now|]; cbn [relay_step event_texts omap list_omap]; rewrite ?app_nil_r.
  - unfold onEvent. destruct (closed r); [by apply relay_ok_more|]. destruct a as [phase id name args result|text|].
    + cbn. rewrite app_nil_r. by apply tool_ok.
    + destruct (_ <=? _)%nat; [by apply relay_ok_more|]. destruct (progressTextFromAgentEvent (AssistantEvent text)) as [t|] eqn:T.
      * by apply text_ok.
      * by rewrite app_nil_r.
    + destruct (MAX_PROGRESS_MESSAGES <=? sentCount r)%nat; cbn; by rewrite app_nil_r.
  - unfold on_timer. destruct (mget id (timers r)) as [[]|]; [..|done]; apply relay_flush_ok; by eapply relay_ok_same; [..|exact I].
  - by apply settled_ok.
  - unfold close. destruct (closed r); [done|]. apply relay_flush_ok. cbn. destruct (flushTimer r); by eapply relay_ok_same; [..|exact I].
Qed.

Lemma run_ok es : forall texts r, relay_ok texts r -> relay_ok (texts ++ event_texts es) (run JSON_parse es r).
Proof.
  induction es as [|e es IH]; intros texts r I; [cbn; by rewrite app_nil_r|]. cbn [run fold_left].
  replace (texts ++ event_texts (e :: es)) with ((texts ++ event_texts [e]) ++ event_texts es).
  - apply IH. by apply relay_step_ok.
  - rewrite <- app_assoc. f_equal. unfold event_texts. cbn. by destruct (match e with EAgent a _ => _ | _ => None end).
Qed.

(** in every run at most eight progress messages are sent, each with one to
    three lines, and the lines are texts of the agent in the order it produced
    them. *)
Theorem progress_bounded es :
  let r := run JSON_parse es initial in
  length (sent_batches r) <= MAX_PROGRESS_MESSAGES /\
  Forall (fun l => 1 <= length l <= BATCH_LINES) (sent_batches r) /\
  sublist (concat (sent_batches r)) (event_texts es).
Proof.
  cbv zeta. destruct (run_ok es [] initial) as [C L O]; [split; [cbn; lia|constructor|constructor]|].
  unfold batches in *. rewrite length_app in C. apply Forall_app in L as [L _]. rewrite concat_app in O. split; [lia|].
  split; [done|]. etrans; [|exact O]. rewrite <- app_assoc. by apply sublist_inserts_r.
Qed.

(** ** A relay that stalls *)

(** [flushTimer] still holds a timer that has fired, and nothing is left that
    could call [flush]. *)
Record stalled (r : relay) : Prop := {
  st_open : closed r = false;
  st_timer : flushTimer r <> None;
  st_timers : timers r = [];
  st_chain : AfterFlush ∉ chain r;
}.

Lemma enqueue_stalled m r :
  msg_progress m = [] -> stalled r -> stalled (enqueueSend [Send m] r) /\ batches (enqueueSend [Send m] r) = batches r.
Proof.
  intros E [O T Ts C]. split; [split; try done; cbn; set_solver|]. unfold batches, sent_batches. cbn.
  rewrite flat_map_app. cbn. by rewrite E, !app_nil_r.
Qed.
Lemma tool_stalled phase id name args result r :
  stalled r -> stalled (on_tool JSON_parse phase id name args result r) /\
    batches (on_tool JSON_parse phase id name args result r) = batches r.
Proof.
  intros I. unfold on_tool. cbv zeta.
  assert (forall l, stalled (set_tracked l r)) as J by (by intros l; destruct I).
  repeat (match goal with
          | |- stalled (enqueueSend [Send ?m] ?q) /\ _ =>
              destruct (enqueue_stalled m q eq_refl (J _)) as [? ->]; split; [assumption|reflexivity]
          | |- stalled (match ?x with _ => _ end) /\ _ => destruct x
          end); (split; [exact I || apply J|reflexivity]).
Qed.
Lemma text_stalled text now r : stalled r -> stalled (on_text text now r) /\ batches (on_text text now r) = batches r.
Proof.
  intros [O T Ts C]. unfold on_text. destruct (_ =? _)%string; [by repeat split|]. destruct (_ <? _)%Z; [by repeat split|].
  unfold scheduleFlush. cbn. destruct (flushTimer r); [|done]. by repeat split.
Qed.

Lemma step_stalled e r :
  stalled r -> e <> EClose -> stalled (relay_step JSON_parse e r) /\ sublist (batches (relay_step JSON_parse e r)) (batches r).
Proof.
  intros I N. assert (forall r', stalled r' /\ batches r' = batches r -> stalled r' /\ sublist (batches r') (batches r)) as Eq
    by (intros r' [A ->]; done).
  destruct e as [a now|id|ok ok' now|]; [..|done]; cbn [relay_step].
  - apply Eq. unfold onEvent. destruct (closed r); [done|]. destruct a as [phase id name args result|text|].
    + by apply tool_stalled.
    + destruct (_ <=? _)%nat; [done|]. destruct (progressTextFromAgentEvent _); [by apply text_stalled|done].
    + by destruct (_ <=? _)%nat.
  - unfold on_timer. rewrite (st_timers r I). done.
  - destruct I as [O T Ts C]. unfold on_settled. cbv zeta. destruct (chain r) as [|[[first lines|text|path]|] rest] eqn:E.
    + split; [by split; rewrite ?E|done].
    + assert (batches r = sent_batches r ++ lines :: flat_map job_progress rest) as B by (unfold batches; by rewrite E).
      destruct ok; (split; [split; try done; cbn; set_solver|]); rewrite B; unfold batches, sent_batches; cbn.
      * by rewrite flat_map_app, <- app_assoc.
      * apply sublist_app; [done|]. by apply sublist_cons.
    + split; [split; try done; cbn; set_solver|]. unfold batches, sent_batches. rewrite E. cbn.
      destruct ok; by rewrite ?flat_map_app, ?app_nil_r.
    + split; [split; try done; cbn; set_solver|]. unfold batches, sent_batches. rewrite E. cbn.
      destruct ok, ok'; by rewrite ?flat_map_app, ?app_nil_r.
    + set_solver.
Qed.

(** once the timer of a continued batch has fired and nothing is queued, no
    text is ever sent again before the relay is closed: [flushTimer] is not reset
    and keeps new texts from being scheduled. *)
Theorem relay_stalls es : forall r,
  stalled r -> EClose ∉ es -> stalled (run JSON_parse es r) /\ sublist (batches (run JSON_parse es r)) (batches r).
Proof.
  induction es as [|e es IH]; intros r I N; [done|]. cbn [run fold_left].
  destruct (step_stalled e r I ltac:(set_solver)) as [I' S]. destruct (IH _ I' ltac:(set_solver)) as [I'' S'].
  split; [done|]. by etrans.
Qed.
End RelayFacts.

(** Four texts: three go out with the first batch, the fourth with the second;
    the fifth stays in the queue. *)
Definition texts_run : list event :=
  [EAgent (AssistantEvent "a") 1000; EAgent (AssistantEvent "b") 1100; EAgent (AssistantEvent "c") 1200;
   EAgent (AssistantEvent "d") 1300; ETimer 0; ESettled true true 2000; ESettled true true 2000; ETimer 1;
   ESettled true true 4000; ESettled true true 4000].
Definition no_json (_ : string) : option value := None.
Lemma relay_stalls_witness :
  sent_batches (run no_json texts_run initial) = [["a"; "b"; "c"]; ["d"]] /\
  sublist (batches (run no_json [EAgent (AssistantEvent "e") 9000] (run no_json texts_run initial))) [["a"; "b"; "c"]; ["d"]].
Proof.
  split; [vm_compute; reflexivity|].
  apply (relay_stalls no_json [EAgent (AssistantEvent "e") 9000] (run no_json texts_run initial)).
  - split; vm_compute; [reflexivity|discriminate|reflexivity|]. intros X. inversion X.
  - intros X. apply list_elem_of_singleton in X. discriminate X.
Defined.
(** What is queued when the relay is closed is cut to one batch. *)
Example close_cuts :
  sent_batches (run no_json (texts_run ++
    [EAgent (AssistantEvent "e") 9000; EAgent (AssistantEvent "f") 9001; EAgent (AssistantEvent "g") 9002;
     EAgent (AssistantEvent "h") 9003; EClose; ESettled true true 9100; ESettled true true 9100]) initial) =
  [["a"; "b"; "c"]; ["d"]; ["e"; "f"; "g"]].
Proof. vm_compute. reflexivity. Qed.
