(* ===== verification/Telegram.v ===== *)
(** * Telegram channel

    [src/src/channels/telegram.ts] without the progress relay (see
    [TelegramRelay]) and [src/src/gateway/heartbeat.ts]: who may talk to the
    agent, what happens to one update, and the polling loop.

    The Bot API is the environment: [b_net] says which of the next calls to
    [sendMessage] fail, and a poll returns some of the updates that are not
    confirmed, oldest first, an update being confirmed by a poll with a higher
    offset.  The pairing store is used through the class [PairingService]; the
    handler of messages and the formatter of replies are parameters. *)

From stdpp Require Import base list sets strings relations sorting.
From Stdlib Require Import Ascii Lia ZArith Sorted.
From S2P Require Import Prelude JsString JsMap JsValue NodePath SessionStore Pairing Config ChatService.

(** ** The interface to the pairing store *)

Class PairingService (P : Type) := {
  pg_approved : identity -> Z -> P -> result bool;
  pg_request : identity -> Z -> (nat -> string) -> P -> P * (string * bool);
  pg_approve : string -> string -> Z -> P -> P * result (option PendingPairing);
  (** the states the store can be in, and the codes that can be drawn in one *)
  pg_ok : P -> Prop;
  pg_draws : P -> Z -> (nat -> string) -> Prop;
  (** a requested code, typed by the operator, approves who asked for it *)
  pg_grants : forall w p now draw, pg_ok w -> valid p -> pg_draws w now draw ->
    let '(w1, (code, _)) := pg_request p now draw w in
    forall typed now', toUpperCase (trim typed) = code -> exists w2 e,
      pg_approve (i_channel p) typed now' w1 = (w2, Ok (Some e)) /\ forall now'', pg_approved p now'' w2 = Ok true;
}.

Lemma pairing_grants w p now draw :
  Pairing.reachable w -> valid p -> draws_ok draw (map p_code (Pairing.pending (readStore now w).1)) ->
  let '(w1, (code, _)) := requestPairingCode p now draw w in
  forall typed now', toUpperCase (trim typed) = code -> exists w2 e,
    approvePairingCode (i_channel p) typed now' w1 = (w2, Ok (Some e)) /\ forall now'', isPairingApproved p now'' w2 = Ok true.
Proof.
  intros R V D. pose proof (fun typed => pairing_round w p now draw typed R V D) as F.
  destruct (requestPairingCode p now draw w) as [w1 [code created]]. intros typed now' T.
  destruct (F typed) as [_ G]. destruct (G T now') as (w2 & e & A & _ & B). eauto.
Qed.
#[export] Instance pairing_service : PairingService Pairing.world := {
  pg_approved := isPairingApproved;
  pg_request := requestPairingCode;
  pg_approve := approvePairingCode;
  pg_ok := Pairing.reachable;
  pg_draws w now draw := draws_ok draw (map p_code (Pairing.pending (readStore now w).1));
  pg_grants := pairing_grants;
}.

(** ** Data *)

Definition HEARTBEAT_MESSAGES : list string :=
  ["heartbeat"; "heart beat"; "heart-beat"; "/heartbeat"; "ping"; "/ping"; "healthcheck"; "health check"; "health-check";
   "/health"].
Definition isHeartbeatCheckMessage (v : string) : bool := bool_decide (toLowerCase (trim v) ∈ HEARTBEAT_MESSAGES).

(** The fields of an update the bridge reads. *)
Record TelegramUpdate := mkUpdate {
  update_id : Z;
  u_text : option string;
  u_from : option num;
  u_chat : option num;
}.

Inductive effect :=
| Sent (chatId : num) (text : string) (html : bool)
| Cleared (sessionId : string)
| Handled (input : GatewayInboundMessage).

Record acceptance := mkAcceptance { allowed : bool; ac_policy : TelegramDmPolicy; pairingCode : option string }.

Definition policy_name (p : TelegramDmPolicy) : string :=
  match p with pairing => "pairing" | allowlist => "allowlist" | open => "open" | disabled => "disabled" end.
Definition current_policy (config : T560Config) : TelegramDmPolicy :=
  default pairing (t ← telegram_config config; dmPolicy t).
Definition telegram_session (chatId : num) : string := "telegram:" +:+ num_to_string chatId.
Definition sender (userId chatId : num) : identity :=
  mkIdentity "telegram" (num_to_string userId) (num_to_string chatId).

Section Bridge.
Context {P : Type} `{PairingService P} {S : Type}.
Variables (env : list (string * string)) (pcwd home : string).
Variable handleMessage : GatewayInboundMessage -> S -> S * result ChatResponse.
Variable formatTelegramResponse : ChatResponse -> string.
(** The clock and the random codes while an update is handled. *)
Variables (clock : Z -> Z) (codes : Z -> nat -> string).

Record bridge := mkBridge {
  b_disk : disk;
  b_pairing : P;
  b_sessions : SessionStore.fs;
  b_app : S;
  b_net : list bool;
}.

(** ** State, effects and exceptions *)

Definition M (A : Type) : Type := bridge -> bridge * list effect * result A.
#[export] Instance M_ret : MRet M := fun A a b => (b, [], Ok a).
#[export] Instance M_bind : MBind M := fun A B k m b =>
  match m b with
  | (b1, l1, Ok a) => let '(b2, l2, r) := k a b1 in (b2, l1 ++ l2, r)
  | (b1, l1, Throw e) => (b1, l1, Throw e)
  end.

Definition sendTelegramMessage (chatId : num) (text : string) (html : bool) : M unit := fun b =>
  match b_net b with
  | false :: net => (mkBridge (b_disk b) (b_pairing b) (b_sessions b) (b_app b) net, [],
                     Throw "Telegram API sendMessage failed")
  | net => (mkBridge (b_disk b) (b_pairing b) (b_sessions b) (b_app b) (tail net), [Sent chatId text html], Ok tt)
  end.
(** What reads the state directory may prepare it. *)
Definition on_disk {A} (f : disk -> result (A * disk)) : M A := fun b =>
  match f (b_disk b) with
  | Ok (a, d) => (mkBridge d (b_pairing b) (b_sessions b) (b_app b) (b_net b), [], Ok a)
  | Throw e => (b, [], Throw e)
  end.
Definition clear_session (id : string) : M unit := fun b =>
  (mkBridge (b_disk b) (b_pairing b) (clearSessionMessages (resolveStateDir env pcwd home) id (b_sessions b)) (b_app b) (b_net b),
   [Cleared id], Ok tt).
Definition approved_now (i : identity) (now : Z) : M bool := fun b => (b, [], pg_approved i now (b_pairing b)).
Definition request_code (i : identity) (now : Z) (draw : nat -> string) : M string := fun b =>
  let '(w, (code, _)) := pg_request i now draw (b_pairing b) in
  (mkBridge (b_disk b) w (b_sessions b) (b_app b) (b_net b), [], Ok code).
Definition handle (input : GatewayInboundMessage) : M ChatResponse := fun b =>
  let '(s, r) := handleMessage input (b_app b) in
  (mkBridge (b_disk b) (b_pairing b) (b_sessions b) s (b_net b), [Handled input], r).

(** ** One update *)

Definition resolveDmPolicy : M TelegramDmPolicy :=
  config ← on_disk (readConfig env pcwd home);
  mret (current_policy config).

Definition shouldAcceptMessage (userId chatId : num) (now : Z) (draw : nat -> string) : M acceptance :=
  config ← on_disk (readConfig env pcwd home);
  let policy := current_policy config in
  let listed := isAllowedTelegramSender config (VNum userId) || isAllowedTelegramSender config (VNum chatId) in
  match policy with
  | disabled => mret (mkAcceptance false policy None)
  | open => mret (mkAcceptance true policy None)
  | allowlist => mret (mkAcceptance listed policy None)
  | pairing =>
      if listed then mret (mkAcceptance true policy None)
      else
        paired ← approved_now (sender userId chatId) now;
        if paired : bool then mret (mkAcceptance true policy None)
        else
          code ← request_code (sender userId chatId) now draw;
          mret (mkAcceptance false policy (Some code))
  end.

Definition START_TEXT : string :=
  "t560 connected. Send a message and I will reply. Use /status for mode + onboarding status.".
Definition status_text (onboarded : bool) (policy : TelegramDmPolicy) (missing : list string) : string :=
  "t560 status: " +:+ (if onboarded then "provider" else "foundation") +:+ ". dmPolicy=" +:+ policy_name policy +:+
  ". Missing: " +:+ (let m := join ", " missing in if truthy m then m else "none") +:+ ".".
Definition pairing_text (code : option string) : string :=
  join lf ["Pairing required before I can respond in this chat.";
           "Your pairing code: " +:+ default "(unknown)" code; "Owner command:";
           "t560 pairing approve telegram " +:+ default "<code>" code].

Definition handle_update (u : TelegramUpdate) : M unit :=
  match option_map trim (u_text u), u_chat u with
  | Some text, Some chatId =>
      let fromId := default chatId (u_from u) in
      if negb (truthy text) then mret tt
      else if isHeartbeatCheckMessage text then mret tt
      else if (text =? "/start")%string then sendTelegramMessage chatId START_TEXT false
      else if (text =? "/status")%string then
        latest ← on_disk (readOnboardingStatus env pcwd home);
        policy ← resolveDmPolicy;
        sendTelegramMessage chatId (status_text (onboarded latest) policy (missing latest)) false
      else if (text =? "/new")%string || (text =? "/reset")%string then
        clear_session (telegram_session chatId) ;;
        sendTelegramMessage chatId "Started a fresh chat session for this conversation." false
      else
        auth ← shouldAcceptMessage fromId chatId (clock (update_id u)) (codes (update_id u));
        if negb (allowed auth) then
          match ac_policy auth with
          | disabled => sendTelegramMessage chatId "Telegram DMs are disabled for this bot." false
          | allowlist => sendTelegramMessage chatId
              "This chat is not allowed. Ask the owner to allowlist your Telegram user/chat ID." false
          | _ => sendTelegramMessage chatId (pairing_text (pairingCode auth)) false
          end
        else
          reply ← handle (mkInbound telegram_channel text (telegram_session chatId) (num_to_string fromId)
                            (clock (update_id u)));
          sendTelegramMessage chatId (formatTelegramResponse reply) true
  | _, _ => mret tt
  end.

(** ** The loop *)

(** The updates of a poll, until one throws: the new offset, the state and what
    each update begun did. *)
Fixpoint process_batch (us : list TelegramUpdate) (offset : Z) (b : bridge) : Z * bridge * list (Z * list effect) :=
  match us with
  | [] => (offset, b, [])
  | u :: us' =>
      let offset := Z.max offset (update_id u + 1) in
      let '(b1, done, r) := handle_update u b in
      match r with
      | Ok _ => let '(o, b2, log) := process_batch us' offset b1 in (o, b2, (update_id u, done) :: log)
      | Throw _ => (offset, b1, [(update_id u, done)])
      end
  end.

Record loop_state := mkLoop {
  running : bool;
  inbox : list TelegramUpdate;           (* every update sent to the bot *)
  l_offset : Z;
  l_bridge : bridge;
  l_log : list (Z * list effect);        (* the updates begun, in order *)
}.
Definition unconfirmed (l : loop_state) : list TelegramUpdate :=
  List.filter (fun u => (l_offset l <=? update_id u)%Z) (inbox l).
Definition poll (n : nat) (l : loop_state) : loop_state :=
  let '(o, b, log) := process_batch (firstn n (unconfirmed l)) (l_offset l) (l_bridge l) in
  mkLoop (running l) (inbox l) o b (l_log l ++ log).

Inductive loop_step : loop_state -> loop_state -> Prop :=
| Arrive l u : (0 <= update_id u)%Z -> Forall (fun v => update_id v < update_id u)%Z (inbox l) ->
    loop_step l (mkLoop (running l) (inbox l ++ [u]) (l_offset l) (l_bridge l) (l_log l))
| Poll l n : running l = true -> loop_step l (poll n l)
| PollFails l : loop_step l l
| Close l : loop_step l (mkLoop false (inbox l) (l_offset l) (l_bridge l) (l_log l)).

(** [startTelegramBridge]: without a token nothing runs. *)
Definition startTelegramBridge (b : bridge) : result (loop_state * string) :=
  let? r := readOnboardingStatus env pcwd home (b_disk b) in
  let '(status, d) := r in
  let b := mkBridge d (b_pairing b) (b_sessions b) (b_app b) (b_net b) in
  match resolveTelegramBotToken env (st_config status) with
  | None => Ok (mkLoop false [] 0 b [],
                "Telegram disabled (missing token). Set T560_TELEGRAM_BOT_TOKEN or channels.telegram.botToken.")
  | Some _ => Ok (mkLoop true [] 0 b [], "Telegram bridge active via long polling.")
  end.
End Bridge.

(** ** Who is heard *)

(** A message for the agent: not empty, no heartbeat, no command. *)
Definition ordinary (text : string) : bool :=
  truthy text && negb (isHeartbeatCheckMessage text) && negb (text =? "/start")%string && negb (text =? "/status")%string &&
  negb (text =? "/new")%string && negb (text =? "/reset")%string.

Section BridgeFacts.
Context {P : Type} `{PairingService P} {S : Type}.
Variables (env : list (string * string)) (pcwd home : string).
Variable handleMessage : GatewayInboundMessage -> S -> S * result ChatResponse.
Variable formatTelegramResponse : ChatResponse -> string.
Variables (clock : Z -> Z) (codes : Z -> nat -> string).
Notation update := (handle_update env pcwd home handleMessage formatTelegramResponse clock codes).
Notation bridge := (@bridge P S).

Record addressed (u : TelegramUpdate) (text : string) (chatId fromId : num) : Prop := {
  ad_text : option_map trim (u_text u) = Some text;
  ad_chat : u_chat u = Some chatId;
  ad_from : fromId = default chatId (u_from u);
}.

(** The sender may talk to the agent, by the configuration and the pairings. *)
Definition authorised (fromId chatId : num) (now : Z) (b : bridge) : Prop :=
  exists config d, readConfig env pcwd home (b_disk b) = Ok (config, d) /\
    let listed := isAllowedTelegramSender config (VNum fromId) || isAllowedTelegramSender config (VNum chatId) in
    match current_policy config with
    | disabled => False
    | open => True
    | allowlist => listed = true
    | pairing => listed = true \/ pg_approved (sender fromId chatId) now (b_pairing b) = Ok true
    end.

Lemma send_effects chatId text html (b : bridge) :
  exists b' r, sendTelegramMessage chatId text html b = (b', (if r : bool then [Sent chatId text html] else []),
    if r then Ok tt else Throw "Telegram API sendMessage failed") /\
    r = default true (head (b_net b)).
Proof. unfold sendTelegramMessage. destruct (b_net b) as [|[] net]; eexists _, _; by split; [|reflexivity]. Qed.

(** What the handler was given, in order. *)
Definition heard (l : list effect) : list GatewayInboundMessage :=
  omap (fun e => match e with Handled input => Some input | _ => None end) l.
(** The agent is not called and its state stays. *)
Definition unheard (r : bridge * list effect * result unit) (b : bridge) : Prop := heard r.1.2 = [] /\ b_app r.1.1 = b_app b.
Lemma send_unheard chatId text html (b : bridge) : unheard (sendTelegramMessage chatId text html b) b.
Proof. unfold sendTelegramMessage. by destruct (b_net b) as [|[] net]. Qed.

Lemma authorised_config fromId chatId now (b : bridge) config d :
  readConfig env pcwd home (b_disk b) = Ok (config, d) ->
  authorised fromId chatId now b <->
  let listed := isAllowedTelegramSender config (VNum fromId) || isAllowedTelegramSender config (VNum chatId) in
  match current_policy config with
  | disabled => False
  | open => True
  | allowlist => listed = true
  | pairing => listed = true \/ pg_approved (sender fromId chatId) now (b_pairing b) = Ok true
  end.
Proof.
  intros R. unfold authorised. split.
  - intros (c & d' & E & A). assert (c = config) as -> by congruence. exact A.
  - intros A. by exists config, d.
Qed.

(** The outcome of the authorisation. *)
Lemma shouldAccept_spec fromId chatId now draw (b : bridge) :
  let '(b', l, r) := shouldAcceptMessage env pcwd home fromId chatId now draw b in
  l = [] /\ b_net b' = b_net b /\ b_app b' = b_app b /\ b_sessions b' = b_sessions b /\
  match r with
  | Ok a => allowed a = true <-> authorised fromId chatId now b
  | Throw _ => ~ authorised fromId chatId now b
  end.
Proof.
  clear handleMessage formatTelegramResponse clock codes. unfold shouldAcceptMessage, mbind, M_bind, on_disk.
  destruct (readConfig env pcwd home (b_disk b)) as [[config d]|e] eqn:R.
  2: { repeat (split; [done|]). intros (c & d & E & _). congruence. }
  pose proof (authorised_config fromId chatId now b config d R) as X.
  cbv zeta in X. set (listed := isAllowedTelegramSender _ _ || _) in *.
  destruct (current_policy config) eqn:Po; cbn; try (repeat (split; [done|]); rewrite X; intuition congruence).
  destruct listed eqn:Ls; cbn; [repeat (split; [done|]); rewrite X; tauto|]. unfold approved_now. cbn.
  destruct (pg_approved (sender fromId chatId) now (b_pairing b)) as [[]|e] eqn:A; cbn; [repeat (split; [done|]); rewrite X; tauto| |].
  - unfold request_code. cbn. destruct (pg_request _ _ _ _) as [w [code c]]. cbn.
    rewrite X. intuition congruence.
  - rewrite X. intuition congruence.
Qed.

Lemma status_unheard chatId (b : bridge) :
  unheard ((latest ← on_disk (readOnboardingStatus env pcwd home);
    policy ← resolveDmPolicy env pcwd home;
    sendTelegramMessage chatId (status_text (onboarded latest) policy (missing latest)) false) b) b.
Proof.
  unfold mbind, M_bind, on_disk, resolveDmPolicy. destruct (readOnboardingStatus env pcwd home (b_disk b)) as [[st d]|]; [|done].
  unfold mbind, M_bind, on_disk. cbn [b_disk]. destruct (readConfig env pcwd home d) as [[c d']|]; [|done].
  cbn [mret M_ret]. match goal with |- context [sendTelegramMessage ?a ?t ?h ?b'] => pose proof (send_unheard a t h b') as X;
    destruct (sendTelegramMessage a t h b') as [[? ?] ?] end. exact X.
Qed.
Lemma clear_unheard chatId id (b : bridge) :
  unheard ((clear_session env pcwd home id ;;
    sendTelegramMessage chatId "Started a fresh chat session for this conversation." false) b) b.
Proof.
  unfold mbind, M_bind, clear_session.
  match goal with |- context [sendTelegramMessage ?a ?t ?h ?b'] => pose proof (send_unheard a t h b') as X;
    destruct (sendTelegramMessage a t h b') as [[? ?] ?] end. exact X.
Qed.

(** What the bridge does with a message for the agent. *)
Definition chat_update (u : TelegramUpdate) (text : string) (chatId fromId : num) : M unit :=
  auth ← shouldAcceptMessage env pcwd home fromId chatId (clock (update_id u)) (codes (update_id u));
  if negb (allowed auth) then
    match ac_policy auth with
    | disabled => sendTelegramMessage chatId "Telegram DMs are disabled for this bot." false
    | allowlist => sendTelegramMessage chatId
        "This chat is not allowed. Ask the owner to allowlist your Telegram user/chat ID." false
    | _ => sendTelegramMessage chatId (pairing_text (pairingCode auth)) false
    end
  else
    reply ← handle handleMessage (mkInbound telegram_channel text (telegram_session chatId) (num_to_string fromId) (clock (update_id u)));
    sendTelegramMessage chatId (formatTelegramResponse reply) true.

Lemma chat_heard u text chatId fromId (b : bridge) :
  let r := chat_update u text chatId fromId b in
  let input := mkInbound telegram_channel text (telegram_session chatId) (num_to_string fromId) (clock (update_id u)) in
  authorised fromId chatId (clock (update_id u)) b /\ heard r.1.2 = [input] /\ b_app r.1.1 = (handleMessage input (b_app b)).1 \/
  ~ authorised fromId chatId (clock (update_id u)) b /\ unheard r b.
Proof.
  cbv zeta. unfold chat_update, mbind, M_bind.
  pose proof (shouldAccept_spec fromId chatId (clock (update_id u)) (codes (update_id u)) b) as A.
  destruct (shouldAcceptMessage env pcwd home fromId chatId _ _ b) as [[b1 l] [a|e]]; destruct A as (-> & _ & Ap & _ & A).
  2: { right. split; [done|]. by split. }
  destruct (allowed a) eqn:Al; cbn [negb app].
  - left. split; [by apply A|]. unfold handle. rewrite Ap. destruct (handleMessage _ (b_app b)) as [s [reply|e]]; [|done].
    match goal with |- context [sendTelegramMessage ?x ?t ?h ?b'] => pose proof (send_unheard x t h b') as X;
      destruct (sendTelegramMessage x t h b') as [[? ?] ?] end. destruct X as [X Y]. cbn in X, Y |- *. by rewrite X.
  - right. split; [rewrite <- A; done|]. unfold unheard. rewrite <- Ap.
    destruct (ac_policy a); match goal with |- context [sendTelegramMessage ?x ?t ?h ?b'] =>
      pose proof (send_unheard x t h b') as X; destruct (sendTelegramMessage x t h b') as [[? ?] ?] end; exact X.
Qed.

Lemma ordinary_branches text :
  ordinary text = true -> truthy text = true /\ isHeartbeatCheckMessage text = false /\ (text =? "/start")%string = false /\
  (text =? "/status")%string = false /\ (text =? "/new")%string || (text =? "/reset")%string = false.
Proof.
  unfold ordinary. rewrite !andb_true_iff, !negb_true_iff. intros (((((A & B) & C) & D) & E) & F).
  by rewrite E, F.
Qed.

Definition the_input (u : TelegramUpdate) (text : string) (chatId fromId : num) : GatewayInboundMessage :=
  mkInbound telegram_channel text (telegram_session chatId) (num_to_string fromId) (clock (update_id u)).

(** An update for the agent: an ordinary message of an authorised sender. *)
Definition for_agent (u : TelegramUpdate) (b : bridge) (input : GatewayInboundMessage) : Prop :=
  exists text chatId fromId, addressed u text chatId fromId /\ ordinary text = true /\
    authorised fromId chatId (clock (update_id u)) b /\ input = the_input u text chatId fromId.
Lemma heard_core u (b : bridge) :
  (exists input, for_agent u b input /\ heard (update u b).1.2 = [input] /\ b_app (update u b).1.1 = (handleMessage input (b_app b)).1) \/
  ((forall input, ~ for_agent u b input) /\ unheard (update u b) b).
Proof.
  assert (forall text chatId, option_map trim (u_text u) = Some text -> u_chat u = Some chatId -> ordinary text = false ->
    forall input, ~ for_agent u b input) as N.
  { intros text chatId T C O input (t & c & f & [T' _ _] & O' & _). congruence. }
  unfold handle_update. destruct (option_map trim (u_text u)) as [text|] eqn:T.
  2: { right. split; [|done]. intros input (t & c & f & [T' _ _] & _). congruence. }
  destruct (u_chat u) as [chatId|] eqn:C.
  2: { right. split; [|done]. intros input (t & c & f & [_ C' _] & _). congruence. }
  cbv zeta. set (fromId := default chatId (u_from u)). specialize (N text chatId eq_refl eq_refl). unfold ordinary in N.
  destruct (truthy text) eqn:E1; cbn [negb andb] in N |- *; [|by right; split; [apply N|]].
  destruct (isHeartbeatCheckMessage text) eqn:E2; cbn [negb andb] in N; [by right; split; [apply N|]|].
  destruct (text =? "/start")%string eqn:E3; cbn [negb andb] in N; [right; split; [by apply N|apply send_unheard]|].
  destruct (text =? "/status")%string eqn:E4; cbn [negb andb] in N; [right; split; [by apply N|apply status_unheard]|].
  destruct ((text =? "/new")%string || (text =? "/reset")%string) eqn:E5.
  { right. split; [|apply clear_unheard]. apply N. apply orb_true_iff in E5 as [->| ->]; [done|by rewrite andb_false_r]. }
  clear N. apply orb_false_iff in E5 as [E5 E6].
  assert (ordinary text = true) as O by (unfold ordinary; by rewrite E1, E2, E3, E4, E5, E6).
  destruct (chat_heard u text chatId fromId b) as [(A & E & S1)|(A & E)].
  - left. exists (the_input u text chatId fromId). split; [|done]. exists text, chatId, fromId. by repeat split.
  - right. split; [|exact E]. intros input (t & c & f & [T' C' F] & _ & A' & _).
    rewrite C in C'. injection C' as <-. subst f. done.
Qed.
Lemma heard_for_agent u (b : bridge) input : for_agent u b input -> heard (update u b).1.2 = [input].
Proof.
  intros F. destruct (heard_core u b) as [(i & G & E & _)|[N _]]; [|by destruct (N input)]. rewrite E. f_equal.
  destruct F as (t & c & f & [T C F] & _ & _ & ->), G as (t' & c' & f' & [T' C' F'] & _ & _ & ->). congruence.
Qed.
Lemma handled_heard l input : Handled input ∈ l <-> input ∈ heard l.
Proof. unfold heard. rewrite list_elem_of_omap. split; [by exists (Handled input)|]. intros ([] & I & [= ->]); done. Qed.

(** C10: the agent hears exactly the ordinary messages of authorised senders, once
    each.  An update leads to one call of the handler if its text is an ordinary
    message and its sender is authorised when it is handled, and to none
    otherwise; the handler then gets that text, under the session of the chat and
    the sender's id, and the state of the agent is what these calls make it. *)
Theorem heard_iff_authorised u (b : bridge) input :
  (heard (update u b).1.2 = [input] <->
   exists text chatId fromId, addressed u text chatId fromId /\ ordinary text = true /\
     authorised fromId chatId (clock (update_id u)) b /\ input = the_input u text chatId fromId) /\
  length (heard (update u b).1.2) <= 1 /\
  b_app (update u b).1.1 = fold_left (fun s i => (handleMessage i s).1) (heard (update u b).1.2) (b_app b).
Proof.
  fold (for_agent u b input). split.
  - split; [|apply heard_for_agent]. destruct (heard_core u b) as [(i & G & -> & _)|[N [-> _]]]; [by intros [= ->]|done].
  - destruct (heard_core u b) as [(i & G & -> & S1)|[N [-> S1]]]; cbn; (split; [lia|done]).
Qed.

(** ** Pairing through the chat *)

Lemma readConfig_again d c d1 :
  isAbsolute home = true -> readConfig env pcwd home d = Ok (c, d1) -> readConfig env pcwd home d1 = Ok (c, d1).
Proof.
  intros A R. apply (readConfig_ok env pcwd home A) in R as (_ & Rd & ->). unfold readConfig.
  by rewrite (ready_ensure env pcwd home A d1 Rd).
Qed.

(** pairing works through the chat.  With the pairing policy, an ordinary
    message of a sender who is neither listed nor paired is answered with a code
    and not heard; once the operator approves that code, typed in any case, every
    ordinary message of that sender in that chat is heard. *)
Theorem pairing_opens_chat u u' text chatId fromId text' (b : bridge) config d typed now' :
  isAbsolute home = true ->
  addressed u text chatId fromId -> ordinary text = true -> addressed u' text' chatId fromId -> ordinary text' = true ->
  readConfig env pcwd home (b_disk b) = Ok (config, d) -> current_policy config = pairing ->
  isAllowedTelegramSender config (VNum fromId) || isAllowedTelegramSender config (VNum chatId) = false ->
  pg_approved (sender fromId chatId) (clock (update_id u)) (b_pairing b) = Ok false ->
  pg_ok (b_pairing b) -> valid (sender fromId chatId) -> pg_draws (b_pairing b) (clock (update_id u)) (codes (update_id u)) ->
  head (b_net b) <> Some false ->
  exists b1 code, update u b = (b1, [Sent chatId (pairing_text (Some code)) false], Ok tt) /\
    (toUpperCase (trim typed) = code -> exists w2 e,
       pg_approve "telegram" typed now' (b_pairing b1) = (w2, Ok (Some e)) /\
       Handled (the_input u' text' chatId fromId) ∈
         (update u' (mkBridge (b_disk b1) w2 (b_sessions b1) (b_app b1) (b_net b1))).1.2).
Proof.
  intros Ha Ad O Ad' O' R Po Ls Ap Wok V Dr Net.
  pose proof (pg_grants (b_pairing b) (sender fromId chatId) (clock (update_id u)) (codes (update_id u)) Wok V Dr) as G.
  destruct (pg_request (sender fromId chatId) (clock (update_id u)) (codes (update_id u)) (b_pairing b)) as [w1 [code created]] eqn:Rq.
  assert (update u b = (mkBridge d w1 (b_sessions b) (b_app b) (tail (b_net b)), [Sent chatId (pairing_text (Some code)) false], Ok tt)) as U.
  { destruct Ad as [T C ->]. unfold handle_update. rewrite T, C. cbv zeta.
    apply ordinary_branches in O as (E1 & E2 & E3 & E4 & E5). rewrite E1, E2, E3, E4, E5. cbn [negb].
    unfold shouldAcceptMessage, mbind, M_bind, on_disk. rewrite R, Po, Ls. unfold approved_now. cbn [b_pairing].
    rewrite Ap. unfold request_code. cbn [b_pairing]. rewrite Rq. cbn. unfold sendTelegramMessage. cbn.
    destruct (b_net b) as [|[] net]; done. }
  eexists _, code. split; [exact U|]. intros Ty. destruct (G typed now' Ty) as (w2 & e & A & B). exists w2, e.
  split; [exact A|]. apply handled_heard. rewrite (heard_for_agent _ _ (the_input u' text' chatId fromId)); [by left|]. exists text', chatId, fromId. repeat (split; [done|]). split; [|done].
  cbn [b_disk]. rewrite (authorised_config fromId chatId _ _ config d); cbn [b_disk b_pairing].
  - rewrite Po. right. apply B.
  - by apply (readConfig_again (b_disk b)).
Qed.

(** the commands come before the policy: with any policy, also when direct
    messages are disabled, anyone can clear the session of the chat and ask for
    the status. *)
Theorem commands_skip_policy u chatId fromId (b : bridge) :
  head (b_net b) <> Some false ->
  (addressed u "/reset" chatId fromId -> exists b1, update u b =
     (b1, [Cleared (telegram_session chatId); Sent chatId "Started a fresh chat session for this conversation." false], Ok tt) /\
     b_sessions b1 = clearSessionMessages (resolveStateDir env pcwd home) (telegram_session chatId) (b_sessions b)) /\
  (forall status d config d', readOnboardingStatus env pcwd home (b_disk b) = Ok (status, d) ->
     readConfig env pcwd home d = Ok (config, d') -> addressed u "/status" chatId fromId ->
     exists b1, update u b = (b1, [Sent chatId (status_text (onboarded status) (current_policy config) (missing status)) false], Ok tt)).
Proof.
  intros Net. split.
  - intros [T C ->]. unfold handle_update. rewrite T, C. change (isHeartbeatCheckMessage "/reset") with false. cbn.
    unfold mbind, M_bind, clear_session, sendTelegramMessage. cbn.
    destruct (b_net b) as [|[] net]; [..|done]; eexists; split; reflexivity.
  - intros status d config d' R Rc [T C ->]. unfold handle_update. rewrite T, C. change (isHeartbeatCheckMessage "/status") with false. cbn.
    unfold resolveDmPolicy. unfold mbind, M_bind, on_disk. cbn. rewrite R. cbn. rewrite Rc. cbn. unfold sendTelegramMessage. cbn.
    destruct (b_net b) as [|[] net]; [..|done]; eexists; reflexivity.
Qed.

(** ** The loop serves every update, once and in order *)

Notation batch := (process_batch env pcwd home handleMessage formatTelegramResponse clock codes).
Notation poll := (poll env pcwd home handleMessage formatTelegramResponse clock codes).
Notation step := (loop_step env pcwd home handleMessage formatTelegramResponse clock codes).
Notation loop_state := (@loop_state P S).
Notation id_lt := (fun u v => (update_id u < update_id v)%Z).

(** The updates begun by a batch are a prefix of it, and the offset is one past
    the last of them. *)
Lemma batch_prefix us offset (b : bridge) :
  StronglySorted id_lt us -> Forall (fun u => offset <= update_id u)%Z us ->
  exists k, k <= length us /\ (us <> [] -> 1 <= k) /\
    map fst (batch us offset b).2 = map update_id (firstn k us) /\
    (batch us offset b).1.1 = match last (firstn k us) with Some u => update_id u + 1 | None => offset end%Z.
Proof.
  intros So. revert offset b. induction So as [|u us So IH Hu]; intros offset b F.
  { exists 0. simpl. split; [lia|]. by split. }
  apply Forall_cons in F as [Hoff F]. cbn [process_batch]. cbv zeta.
  assert (Z.max offset (update_id u + 1) = update_id u + 1)%Z as -> by lia.
  destruct (handle_update _ _ _ _ _ _ _ u b) as [[b1 done] [[]|e]].
  - destruct (IH (update_id u + 1)%Z b1) as (k & L & K1 & M & O).
    { eapply Forall_impl; [exact Hu|]. intros v. simpl. lia. }
    destruct (batch us (update_id u + 1) b1) as [[o b2] log]. cbn [fst snd] in *.
    exists (Datatypes.S k). cbn [length firstn map fst]. rewrite M. split; [lia|]. split; [lia|]. split; [done|].
    rewrite O. rewrite last_cons. by destruct (last (firstn k us)).
  - exists 1. cbn. split; [lia|]. split; [lia|]. by rewrite take_0.
Qed.

Definition begun (l : loop_state) : list TelegramUpdate :=
  List.filter (fun u => (update_id u <? l_offset l)%Z) (inbox l).
Record loop_ok (l : loop_state) : Prop := {
  lo_sorted : StronglySorted id_lt (inbox l);
  lo_ids : Forall (fun u => 0 <= update_id u)%Z (inbox l);
  lo_offset : (0 <= l_offset l)%Z /\ (l_offset l = 0%Z \/ exists u, u ∈ inbox l /\ l_offset l = (update_id u + 1)%Z);
  lo_log : map fst (l_log l) = map update_id (begun l);
}.

(** In a sorted list the updates below an offset come first. *)
Lemma split_at us (offset : Z) :
  StronglySorted id_lt us ->
  us = List.filter (fun u => (update_id u <? offset)%Z) us ++ List.filter (fun u => (offset <=? update_id u)%Z) us.
Proof.
  induction 1 as [|u us So IH Hu]; [done|]. cbn [List.filter].
  destruct (Z.ltb_spec (update_id u) offset), (Z.leb_spec offset (update_id u)); try lia; [by rewrite IH at 1|].
  assert (List.filter (fun u => (update_id u <? offset)%Z) us = []) as E.
  { clear IH So. induction Hu as [|v us Hv Hu IHu]; [done|]. cbn [List.filter].
    destruct (Z.ltb_spec (update_id v) offset); [lia|done]. }
  rewrite E in *. cbn [app] in *. by rewrite <- IH.
Qed.
Lemma sorted_filter (p : TelegramUpdate -> bool) us : StronglySorted id_lt us -> StronglySorted id_lt (List.filter p us).
Proof.
  induction 1 as [|u us So IH Hu]; [constructor|]. cbn [List.filter]. destruct (p u); [|done]. constructor; [done|].
  clear - Hu. induction Hu as [|v us Hv Hu IH]; [constructor|]. cbn [List.filter]. destruct (p v); [by constructor|done].
Qed.
Lemma unconfirmed_ge (l : loop_state) : Forall (fun u => l_offset l <= update_id u)%Z (unconfirmed l).
Proof.
  apply Forall_forall. intros u Hu. unfold unconfirmed in Hu. apply list_elem_of_In, filter_In in Hu as [_ Hu]. lia.
Qed.
Lemma begun_lt (l : loop_state) : Forall (fun u => update_id u < l_offset l)%Z (begun l).
Proof.
  apply Forall_forall. intros u Hu. unfold begun in Hu. apply list_elem_of_In, filter_In in Hu as [_ Hu]. lia.
Qed.

Definition next_offset (us : list TelegramUpdate) (o : Z) : Z :=
  match last us with Some u => update_id u + 1 | None => o end%Z.
Lemma filter_split us vs o :
  Forall (fun u => update_id u < o)%Z us -> Forall (fun u => o <= update_id u)%Z vs ->
  List.filter (fun u => (update_id u <? o)%Z) (us ++ vs) = us /\ List.filter (fun u => (o <=? update_id u)%Z) (us ++ vs) = vs.
Proof.
  intros U V. rewrite !List.filter_app. split.
  - rewrite <- (app_nil_r us) at 2. f_equal.
    + induction U as [|u us E U IH]; [done|]. cbn. destruct (Z.ltb_spec (update_id u) o); [by rewrite IH|lia].
    + induction V as [|v vs E V IH]; [done|]. cbn. destruct (Z.ltb_spec (update_id v) o); [lia|done].
  - rewrite <- (app_nil_l vs) at 2. f_equal.
    + induction U as [|u us E U IH]; [done|]. cbn. destruct (Z.leb_spec o (update_id u)); [lia|done].
    + induction V as [|v vs E V IH]; [done|]. cbn. destruct (Z.leb_spec o (update_id v)); [by rewrite IH|lia].
Qed.
Lemma offset_splits us ms vs o :
  StronglySorted id_lt (us ++ ms ++ vs) -> Forall (fun u => update_id u < o)%Z us -> Forall (fun u => o <= update_id u)%Z (ms ++ vs) ->
  Forall (fun u => update_id u < next_offset ms o)%Z (us ++ ms) /\ Forall (fun u => next_offset ms o <= update_id u)%Z vs.
Proof.
  intros So U V. unfold next_offset. destruct (last ms) as [m|] eqn:La.
  - apply last_Some in La as [ms' ->]. rewrite <- !app_assoc in So. cbn [app] in So.
    rewrite (app_assoc us ms') in So. apply StronglySorted_app in So as (X & _ & So). apply StronglySorted_inv in So as [_ F].
    rewrite (app_assoc us). split; [apply Forall_app; split|].
    + apply Forall_forall. intros u Hu. specialize (X u m Hu ltac:(set_solver)). simpl in X. lia.
    + apply Forall_singleton. lia.
    + eapply Forall_impl; [exact F|]. intros v. simpl. lia.
  - apply last_None in La as ->. cbn [app] in *. by rewrite app_nil_r.
Qed.

Lemma poll_spec (l : loop_state) n :
  loop_ok l -> exists k, k <= length (unconfirmed l) /\ (0 < n -> unconfirmed l <> [] -> 1 <= k) /\
    inbox (poll n l) = inbox l /\ l_offset (poll n l) = next_offset (firstn k (unconfirmed l)) (l_offset l) /\
    map fst (l_log (poll n l)) = map fst (l_log l) ++ map update_id (firstn k (unconfirmed l)).
Proof.
  intros [So _ _ _].
  assert (StronglySorted id_lt (firstn n (unconfirmed l))) as Sf.
  { assert (StronglySorted id_lt (unconfirmed l)) as Su by (by apply sorted_filter).
    rewrite <- (take_drop n (unconfirmed l)) in Su. by eapply StronglySorted_app_1_l. }
  destruct (batch_prefix (firstn n (unconfirmed l)) (l_offset l) (l_bridge l) Sf) as (k & Lk & K1 & M & O).
  { apply Forall_take, unconfirmed_ge. }
  rewrite firstn_firstn in M, O. rewrite length_firstn in Lk. rewrite (Nat.min_l k n) in M, O by lia.
  exists k. split; [lia|]. split; [intros N U; apply K1; destruct (unconfirmed l); [done|]; by destruct n; [lia|]|].
  unfold Telegram.poll. destruct (process_batch _ _ _ _ _ _ _ _ _ _) as [[o b2] log]. cbn in *.
  split; [done|]. split; [done|]. by rewrite map_app, M.
Qed.

(** A poll begins a prefix of what is not confirmed. *)
Lemma poll_begun (l : loop_state) n :
  loop_ok l -> loop_ok (poll n l) /\ exists k, k <= length (unconfirmed l) /\ (0 < n -> unconfirmed l <> [] -> 1 <= k) /\
    unconfirmed (poll n l) = skipn k (unconfirmed l) /\ inbox (poll n l) = inbox l.
Proof.
  intros Ok0. destruct (poll_spec l n Ok0) as (k & Lk & K1 & Ei & Eo & El). destruct Ok0 as [So Ids [Of Of'] Lg].
  pose proof (split_at (inbox l) (l_offset l) So) as Sp. fold (begun l) in Sp. fold (unconfirmed l) in Sp.
  assert (inbox l = begun l ++ firstn k (unconfirmed l) ++ skipn k (unconfirmed l)) as Ein by (by rewrite take_drop).
  pose proof So as So'. rewrite Ein in So'. destruct (offset_splits _ _ _ (l_offset l) So' (begun_lt l)) as [Lo Hi].
  { rewrite take_drop. apply unconfirmed_ge. }
  rewrite <- Eo in Lo, Hi. destruct (filter_split _ _ _ Lo Hi) as [Bg Un]. rewrite <- app_assoc, <- Ein, <- Ei in Bg, Un.
  fold (begun (poll n l)) in Bg. fold (unconfirmed (poll n l)) in Un. split; [|by exists k]. split; rewrite ?Ei; [done|done| |].
  - rewrite Eo. unfold next_offset. destruct (last (firstn k (unconfirmed l))) as [u|] eqn:La; [|done].
    apply last_Some_elem_of in La. assert (u ∈ inbox l) as Hu by (rewrite Ein; set_solver).
    rewrite Forall_forall in Ids. specialize (Ids u Hu). split; [lia|]. right. eauto.
  - by rewrite El, Bg, Lg, map_app.
Qed.

Lemma start_ok r (b : bridge) : loop_ok (mkLoop r [] 0 b []).
Proof. split; [constructor|constructor|cbn; split; [lia|by left]|done]. Qed.
Lemma loop_step_ok l l' : step l l' -> loop_ok l -> loop_ok l'.
Proof.
  intros [l0 u H0 Hu|l0 n R|l0|l0] Inv; [|by apply poll_begun|done|by destruct Inv].
  destruct Inv as [So Ids [Of Of'] Lg]. split; cbn.
  - apply StronglySorted_app_2; [|done|repeat constructor]. intros x y Hx ->%list_elem_of_singleton.
    rewrite Forall_forall in Hu. by apply Hu.
  - apply Forall_app. split; [done|by apply Forall_singleton].
  - split; [done|]. destruct Of' as [E|(v & Hv & E)]; [by left|right; exists v; set_solver].
  - rewrite Lg. unfold begun. cbn. rewrite List.filter_app. cbn. rewrite Forall_forall in Hu.
    destruct (Z.ltb_spec (update_id u) (l_offset l0)) as [Lt|_]; [|by rewrite app_nil_r].
    destruct Of' as [E|(v & Hv & E)]; [lia|]. specialize (Hu v Hv). lia.
Qed.
Lemma steps_ok l l' : rtc step l l' -> loop_ok l -> loop_ok l'.
Proof. induction 1; eauto using loop_step_ok. Qed.

Lemma ok_log l : loop_ok l -> map fst (l_log l) ++ map update_id (unconfirmed l) = map update_id (inbox l).
Proof.
  intros [So _ _ Lg]. rewrite Lg, <- map_app. f_equal. symmetry. by apply (split_at (inbox l) (l_offset l)).
Qed.

(** C24: however polls, failures, arrivals and the end of the bridge interleave,
    the updates that were begun and the ones still to be fetched are the updates
    sent to the bot, in order: none is begun twice and none is passed over. *)
Theorem updates_in_order r (b : bridge) l :
  rtc step (mkLoop r [] 0 b []) l ->
  map fst (l_log l) ++ map update_id (unconfirmed l) = map update_id (inbox l) /\
  StronglySorted Z.lt (map update_id (inbox l)).
Proof.
  intros R%steps_ok; [|apply start_ok]. split; [by apply ok_log|]. destruct R as [So _ _ _].
  induction So as [|u us So IH Hu]; cbn; constructor; [done|]. by apply Forall_map.
Qed.

(** C25: the loop makes progress: as many polls as there are unfetched updates,
    each returning at least one when there is one, are enough to begin them all,
    whatever fails while they are handled. *)
Theorem updates_served r (b : bridge) l ns :
  rtc step (mkLoop r [] 0 b []) l -> Forall (fun n => 0 < n) ns -> length (unconfirmed l) <= length ns ->
  let l' := fold_left (fun l n => poll n l) ns l in
  map fst (l_log l') = map update_id (inbox l).
Proof.
  intros R%steps_ok; [|apply start_ok]. clear b r. intros F. revert l R. induction F as [|n ns N F IH]; intros l R L; cbn [fold_left].
  - pose proof (ok_log l R) as E. cbn in L. destruct (unconfirmed l); [|simpl in L; lia]. by rewrite app_nil_r in E.
  - destruct (poll_begun l n R) as [R' (k & Lk & K1 & Un & Ei)]. cbn [length] in L. rewrite <- Ei. apply IH; [done|].
    rewrite Un, length_skipn. destruct (decide (unconfirmed l = [])) as [E|E]; [rewrite E; simpl; lia|]. specialize (K1 N E). lia.
Qed.
End BridgeFacts.

(** ** Examples *)

Definition sample_bridge (ids : list value) : @bridge Pairing.world nat :=
  mkBridge (sample_disk (sample_doc keyed_profile
              [("channels", VObj [("telegram", VObj [("dmPolicy", VStr "pairing"); ("allowFrom", VArr ids)])])]))
    (start None) [] 0 [].
Definition count_messages (_ : GatewayInboundMessage) (n : nat) : nat * result ChatResponse := (S n, Throw "busy").
Definition sample_update (id : Z) (text : string) : TelegramUpdate := mkUpdate id (Some text) (Some (NInt 7)) (Some (NInt 42)).
Definition update_of (u : TelegramUpdate) (b : @bridge Pairing.world nat) :=
  handle_update [] "/" "/home/u" count_messages cr_message (fun _ => 5%Z) (fun _ => sample_draw) u b.
Definition sample_config : T560Config := read_config (b_disk (sample_bridge [])).
Lemma sample_bridge_read :
  readConfig [] "/" "/home/u" (b_disk (sample_bridge [])) = Ok (sample_config, read_disk (b_disk (sample_bridge []))).
Proof. vm_compute. reflexivity. Qed.

Lemma pairing_opens_chat_witness :
  exists b1 code, update_of (sample_update 1 "hello") (sample_bridge []) =
      (b1, [Sent (NInt 42) (pairing_text (Some code)) false], Ok tt) /\
    (toUpperCase (trim " abcdefg9") = code -> exists w2 e,
       approvePairingCode "telegram" " abcdefg9" 9 (b_pairing b1) = (w2, Ok (Some e)) /\
       Handled (the_input (fun _ => 5%Z) (sample_update 2 "hi") "hi" (NInt 42) (NInt 7)) ∈
         (update_of (sample_update 2 "hi") (mkBridge (b_disk b1) w2 (b_sessions b1) (b_app b1) (b_net b1))).1.2).
Proof.
  apply (@pairing_opens_chat Pairing.world pairing_service nat [] "/" "/home/u" count_messages cr_message (fun _ => 5%Z)
    (fun _ => sample_draw) (sample_update 1 "hello") (sample_update 2 "hi") "hello" (NInt 42) (NInt 7) "hi" (sample_bridge [])
    sample_config (read_disk (b_disk (sample_bridge []))) " abcdefg9" 9).
  - reflexivity.
  - split; reflexivity.
  - vm_compute. reflexivity.
  - split; reflexivity.
  - vm_compute. reflexivity.
  - apply sample_bridge_read.
  - vm_compute. reflexivity.
  - vm_compute. reflexivity.
  - vm_compute. reflexivity.
  - apply reach_start.
  - apply sample_valid.
  - apply sample_draws.
  - discriminate.
Defined.

Lemma commands_skip_policy_witness :
  exists b1, update_of (sample_update 3 " /reset ") (sample_bridge []) =
    (b1, [Cleared "telegram:42"; Sent (NInt 42) "Started a fresh chat session for this conversation." false], Ok tt).
Proof.
  destruct (proj1 (@commands_skip_policy Pairing.world pairing_service nat [] "/" "/home/u" count_messages cr_message (fun _ => 5%Z)
    (fun _ => sample_draw) (sample_update 3 " /reset ") (NInt 42) (NInt 7) (sample_bridge []) ltac:(discriminate))) as (b1 & E & _).
  - split; vm_compute; reflexivity.
  - exact (ex_intro _ b1 E).
Defined.

Definition sample_loop : @loop_state Pairing.world nat :=
  mkLoop true [sample_update 1 "hello"; sample_update 4 "/start"; sample_update 9 "hi"] 0 (sample_bridge [VNum (NInt 7)]) [].
Lemma sample_loop_reached :
  rtc (loop_step [] "/" "/home/u" count_messages cr_message (fun _ => 5%Z) (fun _ => sample_draw))
    (mkLoop true [] 0 (sample_bridge [VNum (NInt 7)]) []) sample_loop.
Proof.
  eapply rtc_l; [apply (Arrive _ _ _ _ _ _ _ _ (sample_update 1 "hello")); [done|constructor]|].
  eapply rtc_l; [apply (Arrive _ _ _ _ _ _ _ _ (sample_update 4 "/start")); [done|by repeat constructor]|].
  eapply rtc_l; [apply (Arrive _ _ _ _ _ _ _ _ (sample_update 9 "hi")); [done|by repeat constructor]|].
  apply rtc_refl.
Qed.
Lemma updates_in_order_witness :
  map fst (l_log sample_loop) ++ map update_id (unconfirmed sample_loop) = [1; 4; 9]%Z.
Proof.
  apply (@updates_in_order Pairing.world pairing_service nat [] "/" "/home/u" count_messages cr_message (fun _ => 5%Z)
    (fun _ => sample_draw) true (sample_bridge [VNum (NInt 7)]) sample_loop), sample_loop_reached.
Defined.
Lemma updates_served_witness :
  map fst (l_log (fold_left (fun l n => poll [] "/" "/home/u" count_messages cr_message (fun _ => 5%Z) (fun _ => sample_draw) n l)
    [100; 100; 100] sample_loop)) = [1; 4; 9]%Z.
Proof.
  apply (@updates_served Pairing.world pairing_service nat [] "/" "/home/u" count_messages cr_message (fun _ => 5%Z)
    (fun _ => sample_draw) true (sample_bridge [VNum (NInt 7)]) sample_loop [100; 100; 100] sample_loop_reached).
  - repeat constructor; lia.
  - cbn. lia.
Defined.
