(* ===== verification/Gateway.v ===== *)
(** * Gateway

    [src/src/gateway/runtime.ts] and [router.ts]: messages of every channel go to
    the chat service under the gateway's own time limit.  The Telegram bridge of
    [Telegram] is put on top of it. *)

From stdpp Require Import base list sets strings pretty.
From Stdlib Require Import Ascii Lia ZArith.
From S2P Require Import Prelude JsString JsMap JsValue JsRegex NodePath SetupFlow Config ChatService Telegram.

Definition DEFAULT_GATEWAY_MESSAGE_TIMEOUT_MS : Z := 15 * 60000.
Definition MIN_GATEWAY_MESSAGE_TIMEOUT_MS : Z := 5000.
Definition MAX_GATEWAY_MESSAGE_TIMEOUT_MS : Z := 24 * 60 * 60000.

Definition messageLikelyLongRunning (msg : string) : bool :=
  let text := toLowerCase msg in
  if negb (truthy (trim text)) then false
  else
    let into := rseqs [RStar rspace; rlit "in"; ropt (rlit "to"); RWordB] in
    existsb (fun r => re_test r text)
      [rwords ["login"]; rseqs [RWordB; rlit "log"; into]; rseqs [RWordB; rlit "sign"; into]; rwords ["mfa"]; rwords ["2fa"];
       rseqs [RWordB; rlit "one"; rgap; rlit "time code"; RWordB]; rwords ["otp"]; rwords ["dashboard"]; rwords ["balance"];
       rwords ["account"]; rwords ["portfolio"]; rwords ["website"]; rwords ["web app"]].

(** A promise that settles after some time, if ever. *)
Record pending_call (A : Type) := mkCall { pc_at : option Z; pc_result : result A }.
Arguments mkCall {A}. Arguments pc_at {A}. Arguments pc_result {A}.
Definition runWithTimeout {A} (operation : pending_call A) (timeoutMs : Z) (onTimeout : A) : Z * result A :=
  match pc_at operation with
  | Some t => if (t <? timeoutMs)%Z then (t, pc_result operation) else (timeoutMs, Ok onTimeout)
  | None => (timeoutMs, Ok onTimeout)
  end.

Section Gateway.
Context {W : Type} `{VaultService W}.
Variables (env : list (string * string)) (pcwd home : string).
Variable hostname_of : string -> option string.
(** The provider's answers, for each message the gateway has handled before. *)
Variable provider : nat -> nat -> request -> attempt.

Definition resolveGatewayMessageTimeoutMs : Z :=
  let limit z := Z.min MAX_GATEWAY_MESSAGE_TIMEOUT_MS (Z.max MIN_GATEWAY_MESSAGE_TIMEOUT_MS z) in
  let rawSec := num_of_string (env_var env "T560_GATEWAY_MESSAGE_TIMEOUT_SEC") in
  if positive rawSec then limit (floor_thousand rawSec)
  else
    let rawMs := num_of_string (env_var env "T560_GATEWAY_MESSAGE_TIMEOUT_MS") in
    if positive rawMs then limit (floor_z rawMs) else DEFAULT_GATEWAY_MESSAGE_TIMEOUT_MS.

Definition resolveGatewayTimeoutForMessage (msg : string) : Z :=
  let base := resolveGatewayMessageTimeoutMs in
  if negb (messageLikelyLongRunning msg) then base
  else Z.min MAX_GATEWAY_MESSAGE_TIMEOUT_MS (Z.max base (45 * 60000)).

Definition timeout_answer (timeoutMs : Z) (c : GatewayChannelId) : ChatResponse :=
  mkResponse ("Gateway timeout: request exceeded " +:+ pretty (ChatService.seconds timeoutMs) +:+ "s on channel=" +:+ channel_name c +:+ ".")
    None [] provider_mode None None false [].

(** The state behind the gateway: the chat's, the messages handled, and what was
    done for them. *)
Record app := mkApp { a_chat : @ChatService.state W; a_count : nat; a_trace : list action }.

(** [routeGatewayMessage(input)]: the promise, and the state it leaves. *)
Definition routeGatewayMessage (input : GatewayInboundMessage) (a : app) : app * pending_call ChatResponse :=
  match processChatMessage env pcwd home hostname_of (provider (a_count a)) input (a_chat a) with
  | Ok t => (mkApp (tn_state t) (S (a_count a)) (a_trace a ++ tn_trace t), mkCall (Some (tn_elapsed t)) (Ok (tn_response t)))
  | Throw e => (mkApp (a_chat a) (S (a_count a)) (a_trace a), mkCall (Some 0%Z) (Throw e))
  end.

(** The answer after some time. *)
Definition timed_message (input : GatewayInboundMessage) (a : app) : app * (Z * result ChatResponse) :=
  let timeoutMs := resolveGatewayTimeoutForMessage (message input) in
  let '(a', operation) := routeGatewayMessage input a in
  (a', runWithTimeout operation timeoutMs (timeout_answer timeoutMs (channel input))).
Definition handleMessage (input : GatewayInboundMessage) (a : app) : app * result ChatResponse :=
  let '(a', (_, r)) := timed_message input a in (a', r).

(** What [startGatewayRuntime] reports. *)
Record GatewayRuntime := mkRuntime {
  gr_mode : chat_mode;
  providerLabel : string;
  onboardingMissing : list string;
  gr_unrestricted : bool;
}.
Definition startGatewayRuntime (d : disk) : result (GatewayRuntime * disk) :=
  let? r := readOnboardingStatus env pcwd home d in
  let '(onboarding, d) := r in
  let defaultRoute := resolveRoutingTarget (st_config onboarding) Default in
  Ok (mkRuntime (if onboarded onboarding then provider_mode else foundation)
        (match defaultRoute with
         | Some t => if onboarded onboarding && complete_target defaultRoute
                     then default "" (t_provider t) +:+ "/" +:+ default "" (t_model t) else "not-configured"
         | None => "not-configured"
         end)
        (missing onboarding)
        (match t ← c_tools (st_config onboarding); dangerouslyUnrestricted t with Some b => b | None => false end), d).

(** ** Properties *)

Lemma gateway_limit_bounds msg :
  (MIN_GATEWAY_MESSAGE_TIMEOUT_MS <= resolveGatewayTimeoutForMessage msg <= MAX_GATEWAY_MESSAGE_TIMEOUT_MS)%Z.
Proof.
  unfold resolveGatewayTimeoutForMessage, resolveGatewayMessageTimeoutMs, MIN_GATEWAY_MESSAGE_TIMEOUT_MS,
    MAX_GATEWAY_MESSAGE_TIMEOUT_MS, DEFAULT_GATEWAY_MESSAGE_TIMEOUT_MS. cbv zeta.
  repeat case_match; lia.
Qed.

(** C35: the gateway answers every message within its limit, between five seconds
    and a day, whatever the provider does.  When the turn of the chat service
    takes less than the limit, its answer is given, when it is there; otherwise
    the answer, at the limit, is that the limit was exceeded.  The gateway fails
    only when the state directory cannot be prepared. *)
Theorem gateway_answers input (a : app) :
  let timeoutMs := resolveGatewayTimeoutForMessage (message input) in
  let '(a', (t, r)) := timed_message input a in
  (t <= timeoutMs)%Z /\ (MIN_GATEWAY_MESSAGE_TIMEOUT_MS <= timeoutMs <= MAX_GATEWAY_MESSAGE_TIMEOUT_MS)%Z /\
  match r with
  | Ok response =>
      exists turn, processChatMessage env pcwd home hostname_of (provider (a_count a)) input (a_chat a) = Ok turn /\
        ((tn_elapsed turn < timeoutMs)%Z /\ t = tn_elapsed turn /\ response = tn_response turn /\ a_chat a' = tn_state turn \/
         (timeoutMs <= tn_elapsed turn)%Z /\ t = timeoutMs /\ response = timeout_answer timeoutMs (channel input))
  | Throw e => readOnboardingStatus env pcwd home (s_disk (a_chat a)) = Throw e
  end.
Proof.
  cbv zeta. unfold timed_message. pose proof (gateway_limit_bounds (message input)) as B.
  destruct (routeGatewayMessage input a) as [a' operation] eqn:R. unfold routeGatewayMessage in R.
  assert (0 <= resolveGatewayTimeoutForMessage (message input))%Z as B0 by (unfold MIN_GATEWAY_MESSAGE_TIMEOUT_MS in B; lia).
  destruct (processChatMessage _ _ _ _ _ input (a_chat a)) as [turn|e] eqn:P; injection R as <- <-; unfold runWithTimeout; cbn [pc_at pc_result].
  - destruct (Z.ltb_spec (tn_elapsed turn) (resolveGatewayTimeoutForMessage (message input))) as [L|L].
    + split; [lia|]. split; [done|]. exists turn. split; [done|by left].
    + split; [lia|]. split; [done|]. exists turn. split; [done|by right].
  - destruct (Z.ltb_spec 0 (resolveGatewayTimeoutForMessage (message input))) as [L|L]; [|unfold MIN_GATEWAY_MESSAGE_TIMEOUT_MS in B; lia].
    split; [lia|]. split; [done|]. unfold processChatMessage in P.
    destruct (readOnboardingStatus env pcwd home (s_disk (a_chat a))) as [[st d]|e'] eqn:O; [|by injection P as ->].
    destruct (process_total env pcwd home hostname_of (provider (a_count a)) input (a_chat a) st d O) as [t T].
    unfold processChatMessage in T. rewrite O in T. congruence.
Qed.

End Gateway.

(** without settings in the environment the gateway's limit is shorter than
    the chat service's limit for a local model: an answer that takes longer than
    the one and less than the other is thrown away. *)
Theorem local_limit_unreachable hostname_of msg config route :
  isLikelyLocalRoute hostname_of config route = true ->
  (resolveGatewayTimeoutForMessage [] msg < resolveChatTimeoutForMessage [] hostname_of msg route config)%Z.
Proof.
  intros L. unfold resolveChatTimeoutForMessage, resolveGatewayTimeoutForMessage. rewrite L.
  change (ChatService.messageLikelyLongRunning msg) with (messageLikelyLongRunning msg).
  destruct (messageLikelyLongRunning msg); vm_compute; reflexivity.
Qed.
Lemma local_limit_unreachable_witness :
  (resolveGatewayTimeoutForMessage [] "summarise this" = 900000)%Z /\
  (900000 < resolveChatTimeoutForMessage [] (fun _ => None) "summarise this" (mkTarget (Some "local-openai") (Some "qwen")) empty_config)%Z.
Proof.
  split; [vm_compute; reflexivity|].
  apply (local_limit_unreachable (fun _ => None) "summarise this" empty_config (mkTarget (Some "local-openai") (Some "qwen"))).
  vm_compute. reflexivity.
Defined.

(** ** The bridge on the gateway *)

(** whoever is not authorised does not reach the agent: the update changes
    nothing behind the gateway, no setup dialogue, no session and no call to a
    provider. *)
Theorem stranger_reaches_nothing {P W} `{PairingService P} `{VaultService W} env pcwd home hostname_of provider format clock codes
    u text chatId fromId (b : @bridge P (@app W)) :
  addressed u text chatId fromId -> ~ authorised env pcwd home fromId chatId (clock (update_id u)) b ->
  b_app (handle_update env pcwd home (handleMessage env pcwd home hostname_of provider) format clock codes u b).1.1 = b_app b.
Proof.
  intros [T C F] N. destruct (heard_core env pcwd home (handleMessage env pcwd home hostname_of provider) format clock codes u b)
    as [(input & (text' & chatId' & fromId' & [T' C' F'] & _ & A & _) & _)|[_ [_ S]]]; [|exact S].
  exfalso. assert (chatId' = chatId) as -> by congruence. assert (fromId' = fromId) as -> by congruence. done.
Qed.

Definition sample_app : @app Vault.world := mkApp (sample_state []) 0 [].
Definition stack_bridge : @bridge Pairing.world (@app Vault.world) :=
  mkBridge (b_disk (sample_bridge [])) (Pairing.start None) [] sample_app [].
Lemma stranger_reaches_nothing_witness :
  b_app (@handle_update Pairing.world pairing_service (@app Vault.world) [] "/" "/home/u"
    (@handleMessage Vault.world sample_service [] "/" "/home/u" (fun _ => None) (fun _ => silent)) cr_message
    (fun _ => 5%Z) (fun _ => Pairing.sample_draw) (sample_update 1 "hello") stack_bridge).1.1 = sample_app.
Proof.
  apply (@stranger_reaches_nothing Pairing.world Vault.world pairing_service sample_service [] "/" "/home/u" (fun _ => None)
    (fun _ => silent) cr_message (fun _ => 5%Z) (fun _ => Pairing.sample_draw) (sample_update 1 "hello") "hello" (NInt 42) (NInt 7)
    stack_bridge).
  - split; reflexivity.
  - intros A. apply (authorised_config [] "/" "/home/u" (NInt 7) (NInt 42) 5 stack_bridge sample_config
      (read_disk (b_disk (sample_bridge []))) sample_bridge_read) in A.
    vm_compute in A. destruct A as [A|A]; discriminate.
Defined.
