(* ===== verification/HtmlFormat.v ===== *)
(** * Messages as HTML

    src/src/format/message-formatter.ts, the part for the Telegram channel and
    for the web chat: Markdown becomes HTML.  The text comes from the model and
    from whatever the model has read, so the question is what markup it can
    bring along.

    A renderer is a fold over the lines with the state of the code block
    ([block]); inline formatting is the sequence of replacements of the source,
    run by [JsRegexExec].  Characters beyond Latin-1 are their UTF-8 bytes. *)

From stdpp Require Import base list sets strings.
From Stdlib Require Import Ascii Lia ZArith.
From S2P Require Import Prelude JsString JsMap JsValue JsRegex JsRegexExec Config ChatService.

(** ** The texts of the formatter *)

Definition dquote : string := of_chars [ascii_of_nat 34].
Definition lf1 : string := of_chars [ascii_of_nat 10].
(** A tag with one attribute: [<name attr="value">]. *)
Definition attr_open (name attr : string) : string := "<" +:+ name +:+ " " +:+ attr +:+ "=" +:+ dquote.
Definition attr_tag (name attr v : string) : string := attr_open name attr +:+ v +:+ dquote +:+ ">".

Definition trimStart (s : string) : string := of_chars (drop_while is_ws (chars s)).
(** [s.replace(/c/g, t)] *)
Definition replace_char (c : ascii) (t : string) (s : string) : string :=
  of_chars (flat_map (fun d => if bool_decide (d = c) then chars t else [d]) (chars s)).
Definition escapeHtml (text : string) : string :=
  replace_char ">" "&gt;" (replace_char "<" "&lt;" (replace_char "&" "&amp;" text)).

(** ** Inline formatting *)

Definition BOLD : rx := re_ "\*\*(.+?)\*\*".
Definition ITALIC : rx := re_ "(?<!\*)\*([^*]+?)\*(?!\*)".
Definition CODE : rx := re_ "`([^`]+)`".
Definition LINK : rx := re_ "\[([^\]]+)\]\(([^)]+)\)".
Definition STRIKE : rx := re_ "~~(.+?)~~".
(** [s.replace(r, "<open>$1<close>")] *)
Definition wrap_group (open close : string) (m : found) : string := open +:+ group 1 m +:+ close.

Definition telegram_link (m : found) : string := attr_tag "a" "href" (group 2 m) +:+ group 1 m +:+ "</a>".
Definition telegramInlineFormat (text : string) : string :=
  let r := escapeHtml text in
  let r := replaceAll BOLD (wrap_group "<b>" "</b>") r in
  let r := replaceAll ITALIC (wrap_group "<i>" "</i>") r in
  let r := replaceAll CODE (wrap_group "<code>" "</code>") r in
  let r := replaceAll LINK telegram_link r in
  replaceAll STRIKE (wrap_group "<s>" "</s>") r.

Definition web_link (m : found) : string :=
  attr_open "a" "href" +:+ group 2 m +:+ dquote +:+ " target=" +:+ dquote +:+ "_blank" +:+ dquote +:+ ">" +:+ group 1 m +:+ "</a>".
Definition webInlineFormat (text : string) : string :=
  let r := escapeHtml text in
  let r := replaceAll BOLD (wrap_group "<strong>" "</strong>") r in
  let r := replaceAll ITALIC (wrap_group "<em>" "</em>") r in
  let r := replaceAll CODE (wrap_group "<code>" "</code>") r in
  let r := replaceAll LINK web_link r in
  replaceAll STRIKE (wrap_group "<s>" "</s>") r.

(** ** Lines and code blocks *)

Record block := mkBlock { inCodeBlock : bool; codeBuffer : list string; codeLang : string; output : list string }.
Definition no_block : block := mkBlock false [] "" [].
Definition is_fence (line : string) : bool := startsWith "```" (trimStart line).
Definition fence_lang (line : string) : string := trim (slice_from 3 (trimStart line)).
(** One line: [render_block lang lines] is a closed code block, [render_line] any
    other line. *)
Definition block_step (render_block : string -> list string -> string) (render_line : string -> string) (line : string) (b : block) : block :=
  if is_fence line then
    if inCodeBlock b then mkBlock false (codeBuffer b) "" (output b ++ [render_block (codeLang b) (codeBuffer b)])
    else mkBlock true [] (fence_lang line) (output b)
  else if inCodeBlock b then mkBlock true (codeBuffer b ++ [line]) (codeLang b) (output b)
  else mkBlock false (codeBuffer b) (codeLang b) (output b ++ [render_line line]).
(** The whole text; a block that is not closed is rendered without its language. *)
Definition render_lines (render_block : string -> list string -> string) (render_line : string -> string) (lines : list string) : list string :=
  let b := fold_left (fun b line => block_step render_block render_line line b) lines no_block in
  if inCodeBlock b && (0 <? length (codeBuffer b)) then output b ++ [render_block "" (codeBuffer b)] else output b.

(** ** Telegram *)

Definition telegram_block (lang : string) (lines : list string) : string :=
  let langAttr := if truthy lang then " class=" +:+ dquote +:+ "language-" +:+ escapeHtml lang +:+ dquote else "" in
  "<pre><code" +:+ langAttr +:+ ">" +:+ escapeHtml (join lf1 lines) +:+ "</code></pre>".
Definition is_quote (line : string) : bool := startsWith "> " (trimStart line).
Definition quote_text (line : string) : string := replaceFirst (re_ "^>\s?") "" line.
Definition markdownLineToTelegramHtml (line : string) : string :=
  match capture 1 (re_ "^#{1,3}\s+(.+)$") line with
  | Some title => "<b>" +:+ escapeHtml title +:+ "</b>"
  | None =>
      if is_quote line then "<blockquote>" +:+ telegramInlineFormat (quote_text line) +:+ "</blockquote>"
      else telegramInlineFormat line
  end.
Definition markdownToTelegramHtml (text : string) : string :=
  join lf1 (render_lines telegram_block markdownLineToTelegramHtml (split_char (ascii_of_nat 10) text)).
Definition given_text (o : option string) : option string := t ← o; if truthy t then Some t else None.
Definition formatTelegramResponse (reply : ChatResponse) : string :=
  join (lf1 +:+ lf1)
    (match given_text (thinking reply) with
     | Some t => ["<blockquote expandable>" +:+ "💭 <b>Thinking</b>" +:+ lf1 +:+ escapeHtml t +:+ "</blockquote>"]
     | None => []
     end ++ (if truthy (cr_message reply) then [markdownToTelegramHtml (cr_message reply)] else [])).

(** ** Web chat *)

Definition web_block (lang : string) (lines : list string) : string :=
  let langLabel := if truthy lang then attr_tag "span" "class" "code-lang" +:+ escapeHtml lang +:+ "</span>" else "" in
  attr_tag "div" "class" "code-block" +:+ langLabel +:+ "<pre><code>" +:+ escapeHtml (join lf1 lines) +:+ "</code></pre></div>".
Definition nat_text (n : nat) : string := num_to_string (NInt (Z.of_nat n)).
Definition HEADING : rx := re_ "^(#{1,3})\s+(.+)$".
Definition web_line (line : string) : string :=
  match exec HEADING line with
  | Some m =>
      let level := nat_text (S (slen (group 1 m))) in
      "<h" +:+ level +:+ ">" +:+ webInlineFormat (group 2 m) +:+ "</h" +:+ level +:+ ">"
  | None =>
      if is_quote line then "<blockquote>" +:+ webInlineFormat (quote_text line) +:+ "</blockquote>"
      else if test (re_ "^[-*_]{3,}\s*$") (trim line) then "<hr />"
      else match capture 3 (re_ "^(\s*)([-*+]|\d+\.)\s+(.+)$") line with
           | Some item => attr_tag "div" "class" "list-item" +:+ webInlineFormat item +:+ "</div>"
           | None => if truthy (trim line) then "<p>" +:+ webInlineFormat line +:+ "</p>" else "<br />"
           end
  end.
Definition markdownToWebHtml (text : string) : string :=
  join lf1 (render_lines web_block web_line (split_char (ascii_of_nat 10) text)).
Record WebchatMessage := mkWebchat { html : string; thinkingHtml : option string }.
Definition formatWebchatMessage (reply : ChatResponse) : WebchatMessage :=
  mkWebchat (markdownToWebHtml (cr_message reply))
    (t ← given_text (thinking reply);
     Some (attr_tag "details" "class" "thinking-block" +:+ "<summary>" +:+ "💭 Thinking</summary>" +:+
           attr_tag "pre" "class" "thinking-content" +:+ escapeHtml t +:+ "</pre></details>")).

Example sample_web :
  markdownToWebHtml ("## Hi **you**" +:+ lf1 +:+ "1. see [x](http://a.b) & `<y>`") =
  "<h3>Hi <strong>you</strong></h3>" +:+ lf1 +:+ attr_tag "div" "class" "list-item" +:+ "see " +:+
  attr_open "a" "href" +:+ "http://a.b" +:+ dquote +:+ " target=" +:+ dquote +:+ "_blank" +:+ dquote +:+ ">x</a> &amp; <code>&lt;y&gt;</code></div>".
Proof. vm_compute. reflexivity. Qed.
Example sample_telegram :
  markdownToTelegramHtml (join lf1 ["# T"; "```js"; "a<b"; "```"; "> *q* ~~s~~"; "```"; "open"]) =
  join lf1 ["<b>T</b>"; "<pre><code class=" +:+ dquote +:+ "language-js" +:+ dquote +:+ ">a&lt;b</code></pre>";
            "<blockquote><i>q</i> <s>s</s></blockquote>"; "<pre><code>open</code></pre>"].
Proof. vm_compute. reflexivity. Qed.

(** ** Markup *)

(** Characters that no tag of the formatter contains. *)
Definition mark_char (c : ascii) : bool := bool_decide (c ∈ chars "*`[]()~").

Section Markup.
Variable tags : list string.

(** Every [<] of the text begins one of the tags. *)
Fixpoint only_tags (l : list ascii) : bool :=
  match l with
  | [] => true
  | c :: l' =>
      (negb (bool_decide (c = "<"%char)) || existsb (fun t => list_prefix (chars t) l) tags) && only_tags l'
  end.

Lemma prefix_app p l k : list_prefix p l = true -> list_prefix p (l ++ k) = true.
Proof. intros [m ->]%list_prefix_spec. apply list_prefix_spec. exists (m ++ k). by rewrite app_assoc. Qed.
Lemma only_tags_app a b : only_tags a = true -> only_tags b = true -> only_tags (a ++ b) = true.
Proof.
  intros A B. induction a as [|c a IH]; [done|]. cbn [only_tags app] in *. bool_prop. rewrite IH, andb_true_r by done.
  apply orb_true_iff in H as [->|E]; [done|]. apply orb_true_iff. right. apply existsb_exists in E as (t & I & P).
  apply existsb_exists. exists t. split; [done|]. by apply (prefix_app _ (c :: a)).
Qed.
Lemma only_tags_plain l : forallb (fun c => negb (bool_decide (c = "<"%char))) l = true -> only_tags l = true.
Proof. induction l as [|c l IH]; [done|]. cbn. intros H. bool_prop. by rewrite bool_decide_eq_false_2, IH by done. Qed.

(** A character that is in no tag separates texts. *)
Hypothesis tags_plain : forallb (fun t => forallb (fun c => negb (mark_char c)) (chars t)) tags = true.
Lemma tag_prefix_cut t w x b : mark_char x = true -> t ∈ tags -> list_prefix (chars t) (w ++ x :: b) = true -> list_prefix (chars t) w = true.
Proof.
  intros X T [k E]%list_prefix_spec. rewrite forallb_forall in tags_plain. apply list_elem_of_In, tags_plain in T.
  rewrite forallb_forall in T. apply list_prefix_spec. apply app_eq_app in E as [l [[E1 E2]|[E1 E2]]]; [by exists l|].
  destruct l as [|y l]; [exists []; by rewrite E1, !app_nil_r|]. injection E2 as <- E2.
  assert (In x (chars t)) as I by (rewrite E1; apply in_or_app; right; by left). apply T in I. by rewrite X in I.
Qed.
Lemma only_tags_cut a x b : mark_char x = true -> only_tags (a ++ x :: b) = true -> only_tags a = true /\ only_tags b = true.
Proof.
  intros X. induction a as [|c a IH]; cbn [only_tags app].
  - intros H. bool_prop. done.
  - intros H. bool_prop. destruct (IH ltac:(done)) as [-> ->]. split; [|done]. rewrite andb_true_r.
    apply orb_true_iff in H as [->|E]; [done|]. apply orb_true_iff. right. apply existsb_exists in E as (t & I & P).
    apply existsb_exists. exists t. split; [done|]. apply (tag_prefix_cut t (c :: a) x b X); [by apply list_elem_of_In|done].
Qed.

(** A replacement whose matches begin and end with such a character. *)
Definition tag_safe (r : rx) (f : found -> string) : Prop := forall p m,
  walks r p (text m ++ after m) [] (after_prev m) (after m) (groups m) ->
  exists x mid y, text m = x :: mid ++ [y] /\ mark_char x = true /\ mark_char y = true /\
    (only_tags mid = true -> only_tags (chars (f m)) = true).
Lemma replace_only_tags r f fuel p s : tag_safe r f ->
  only_tags s = true -> only_tags (replace_list fuel r (fun m => chars (f m)) p s) = true.
Proof.
  intros R. revert p s. induction fuel as [|fuel IH]; intros p s S; cbn [replace_list]; [done|].
  destruct (exec_from r p s) as [m|] eqn:E; [|done]. apply exec_from_walks in E as [-> M].
  destruct (R _ _ M) as (x & mid & y & T & X & Y & F). rewrite T in *. cbn [app] in S.
  apply only_tags_cut in S as [B S]; [|done]. rewrite <- app_assoc in S. cbn [app] in S. apply only_tags_cut in S as [C A]; [|done].
  apply only_tags_app; [done|]. apply only_tags_app; [by apply F|]. by apply IH.
Qed.
Lemma replaceAll_tags r f s : tag_safe r f -> only_tags (chars s) = true -> only_tags (chars (replaceAll r f s)) = true.
Proof. intros R S. unfold replaceAll. rewrite chars_of_chars. by apply replace_only_tags. Qed.

End Markup.

(** ** The patterns of the formatter *)

Definition lit (c : ascii) : rx := xchar (mkFlags false false) (is_char c).
Lemma folded_char a c : folded (mkFlags false false) (is_char a) c = true -> c = a.
Proof. unfold folded, is_char. cbn. rewrite orb_false_r. intros H. by bool_prop. Qed.

(** Reads the steps of a walk over a concrete pattern. *)
Ltac read_walk :=
  repeat match goal with
  | H : walks (XSeq _ _) _ _ _ _ _ _ |- _ => apply walks_seq in H as (? & ? & ? & ? & ?)
  | H : walks XEps _ _ _ _ _ _ |- _ => apply walks_eps in H as (? & ? & ?)
  | H : walks XBol _ _ _ _ _ _ |- _ => apply walks_bol in H as (? & ? & ? & ?)
  | H : walks XEol _ _ _ _ _ _ |- _ => apply walks_eol in H as (? & ? & ? & ?)
  | H : walks (XAlt _ _) _ _ _ _ _ _ |- _ => apply walks_alt in H as [H|H]
  | H : walks (lit _) _ _ _ _ _ _ |- _ => apply walks_chr in H as (? & ? & ?%folded_char & ? & ?)
  | H : walks (XChr _) _ _ _ _ _ _ |- _ => apply walks_chr in H as (? & ? & ? & ? & ?)
  | H : walks (XStar _ (XChr _)) _ _ _ _ _ _ |- _ => apply walks_class in H as (? & ? & ? & ?)
  | H : walks (XGroup _ _) _ _ _ _ _ _ |- _ => apply walks_group in H as (? & ? & ? & ? & ?)
  | H : walks (XNotPrev _) _ _ _ _ _ _ |- _ => apply walks_not_prev in H as (? & ? & ? & ?)
  | H : walks (XNotNext _) _ _ _ _ _ _ |- _ => apply walks_not_next in H as (? & ? & ? & ?)
  end.

Definition some_of (p : ascii -> bool) (greedy : bool) : rx := XSeq XEps (XSeq (XChr p) (XStar greedy (XChr p))).
Lemma group_walk n p gr pr s g pr' s' g' : walks (XGroup n (some_of p gr)) pr s g pr' s' g' -> exists t, s = t ++ s' /\ g' = (n, t) :: g.
Proof. intros H. unfold some_of in H. read_walk. subst. eauto. Qed.

(** A pattern that doubles its mark, as in bold and struck out text. *)
Definition doubled (c : ascii) (p : ascii -> bool) : rx :=
  XSeq (XSeq (XSeq (XSeq (XSeq XEps (lit c)) (lit c)) (XGroup 1 (some_of p false))) (lit c)) (lit c).
Lemma bold_doubled : BOLD = doubled "*" (fun c => negb (line_end c)).
Proof. reflexivity. Qed.
Lemma strike_doubled : STRIKE = doubled "~" (fun c => negb (line_end c)).
Proof. reflexivity. Qed.
Lemma italic_shape :
  ITALIC = XSeq (XSeq (XSeq (XSeq (XSeq XEps (XNotPrev (folded (mkFlags false false) (is_char "*")))) (lit "*"))
                         (XGroup 1 (some_of (fun c => negb (folded (mkFlags false false) (either none (is_char "*")) c)) false)))
                   (lit "*")) (XNotNext (folded (mkFlags false false) (is_char "*"))).
Proof. reflexivity. Qed.
Lemma code_shape :
  CODE = XSeq (XSeq (XSeq XEps (lit "`")) (XGroup 1 (some_of (fun c => negb (folded (mkFlags false false) (either none (is_char "`")) c)) true))) (lit "`").
Proof. reflexivity. Qed.
Lemma link_shape :
  LINK = XSeq (XSeq (XSeq (XSeq (XSeq (XSeq XEps (lit "["))
    (XGroup 1 (some_of (fun c => negb (folded (mkFlags false false) (either none (is_char "]")) c)) true))) (lit "]")) (lit "("))
    (XGroup 2 (some_of (fun c => negb (folded (mkFlags false false) (either none (is_char ")")) c)) true))) (lit ")").
Proof. reflexivity. Qed.

(** What stays of a match when its tags are put around its group. *)
Lemma group_one m t : groups m = [(1, t)] -> chars (group 1 m) = t.
Proof. intros G. unfold group. rewrite G. cbn. by rewrite chars_of_chars. Qed.

Section Inline.
Variable tags : list string.
Hypothesis tags_plain : forallb (fun t => forallb (fun c => negb (mark_char c)) (chars t)) tags = true.
Notation safe := (tag_safe tags).
Notation ok l := (only_tags tags l = true).

Lemma wrap_ok open close m t : ok (chars open) -> ok (chars close) -> groups m = [(1, t)] -> ok t -> ok (chars (wrap_group open close m)).
Proof. intros O C G T. unfold wrap_group. rewrite !chars_app, (group_one m t G). auto using only_tags_app. Qed.

(** The text of a match, and its groups. *)
Ltac read_match H m T G :=
  repeat (apply walks_seq in H as (? & ? & ? & H & ?));
  repeat match goal with K : walks (XGroup _ _) _ _ _ _ _ _ |- _ => apply group_walk in K as (? & ? & ?) end; read_walk; subst;
  match goal with E : text m ++ _ = _, F : groups m = _ |- _ => rename E into T; rename F into G end.
Ltac same_text m T := apply (app_inv_tail (after m)); rewrite T; cbn; by rewrite <- ?app_assoc; cbn; rewrite <- ?app_assoc.

Lemma doubled_safe c p open close : mark_char c = true -> ok (chars open) -> ok (chars close) -> safe (doubled c p) (wrap_group open close).
Proof.
  intros M O C pr m H. unfold doubled in H. read_match H m T G.
  match type of T with _ = c :: c :: ?t ++ _ => set (u := t) in *; exists c, (c :: u ++ [c]), c end.
  split; [same_text m T|]. split; [done|]. split; [done|].
  intros K. apply (only_tags_cut tags tags_plain []) in K as [_ K]; [|done]. apply only_tags_cut in K as [K _]; [|done|done].
  by apply (wrap_ok open close m u).
Qed.
Lemma italic_safe open close : ok (chars open) -> ok (chars close) -> safe ITALIC (wrap_group open close).
Proof.
  intros O C pr m H. rewrite italic_shape in H. read_match H m T G.
  match type of T with _ = _ :: ?t ++ _ => exists "*"%char, t, "*"%char end. split; [same_text m T|]. split; [done|]. split; [done|].
  intros K. by eapply wrap_ok.
Qed.
Lemma code_safe open close : ok (chars open) -> ok (chars close) -> safe CODE (wrap_group open close).
Proof.
  intros O C pr m H. rewrite code_shape in H. read_match H m T G.
  match type of T with _ = _ :: ?t ++ _ => exists "`"%char, t, "`"%char end. split; [same_text m T|]. split; [done|]. split; [done|].
  intros K. by eapply wrap_ok.
Qed.
(** A link puts its second group into the opening tag. *)
Lemma link_safe f : (forall m t u, groups m = [(2, u); (1, t)] -> ok t -> ok u -> ok (chars (f m))) -> safe LINK f.
Proof.
  intros F pr m H. rewrite link_shape in H. read_match H m T G.
  match type of T with _ = "["%char :: ?t ++ "]"%char :: "("%char :: ?u ++ _ => exists "["%char, (t ++ "]"%char :: "("%char :: u), ")"%char end.
  split; [same_text m T|]. split; [done|]. split; [done|]. intros K. apply only_tags_cut in K as [K1 K2]; [|done|done].
  apply (only_tags_cut tags tags_plain []) in K2 as [_ K2]; [|done]. by eapply F.
Qed.
Lemma inline_ok b_open b_close i_open i_close link s :
  Forall (fun t => ok (chars t)) [b_open; b_close; i_open; i_close; "<code>"; "</code>"; "<s>"; "</s>"] ->
  (forall m t u, groups m = [(2, u); (1, t)] -> ok t -> ok u -> ok (chars (link m))) -> ok (chars s) ->
  ok (chars (replaceAll STRIKE (wrap_group "<s>" "</s>") (replaceAll LINK link (replaceAll CODE (wrap_group "<code>" "</code>")
    (replaceAll ITALIC (wrap_group i_open i_close) (replaceAll BOLD (wrap_group b_open b_close) s)))))).
Proof.
  intros F L S. rewrite !Forall_cons in F. destruct F as (B1 & B2 & I1 & I2 & C1 & C2 & S1 & S2 & _).
  rewrite bold_doubled, strike_doubled.
  repeat (apply replaceAll_tags; [done| |]); auto using doubled_safe, italic_safe, code_safe, link_safe.
  all: by apply doubled_safe.
Qed.
End Inline.

(** ** Documents *)

Lemma heading_shape : HEADING =
  XSeq (XSeq (XSeq (XSeq (XSeq XEps XBol) (XGroup 1 (XSeq XEps (XSeq (times 1 (lit "#")) (upto true 2 (lit "#"))))))
    (XSeq (XChr (folded (mkFlags false false) is_ws)) (XStar true (XChr (folded (mkFlags false false) is_ws)))))
    (XGroup 2 (some_of (fun c => negb (line_end c)) true))) XEol.
Proof. reflexivity. Qed.
Lemma heading_level line m : exec HEADING line = Some m -> slen (group 1 m) ∈ [1; 2; 3].
Proof.
  intros E. apply exec_from_walks in E as [_ H]. rewrite heading_shape in H. repeat (apply walks_seq in H as (? & ? & ? & H & ?)).
  match goal with K : walks (XGroup 2 _) _ _ _ _ _ _ |- _ => apply group_walk in K as (u & ? & ?) end.
  cbn [times upto] in *. read_walk; subst; unfold group, slen;
    match goal with K : groups m = _ |- _ => rewrite K end; cbn; rewrite chars_of_chars;
    repeat match goal with K : text m ++ _ = _ |- _ => apply (f_equal length) in K; rewrite !length_app in K; cbn [length] in K; rewrite ?length_app in K end;
    match goal with |- length ?t ∈ _ => assert (1 <= length t <= 3) by lia; destruct (length t) as [|[|[|[|?]]]]; [lia|set_solver..|lia] end.
Qed.

Lemma escape_plain s : forallb (fun c => negb (bool_decide (c = "<"%char))) (chars (escapeHtml s)) = true.
Proof.
  unfold escapeHtml, replace_char. rewrite !chars_of_chars. apply forallb_forall. intros c I.
  apply in_flat_map in I as (d & I & C). apply in_flat_map in I as (e & _ & D).
  destruct (bool_decide (e = "<"%char)) eqn:E; bool_prop.
  - cbn in D. destruct (bool_decide (d = ">"%char)) eqn:X; bool_prop; [subst d; repeat (destruct D as [D|D]; [done|]); done|].
    destruct C as [<-|[]]. repeat (destruct D as [<-|D]; [done|]). done.
  - destruct D as [<-|[]]. destruct (bool_decide (e = ">"%char)) eqn:X; bool_prop.
    + cbn in C. repeat (destruct C as [<-|C]; [done|]). done.
    + destruct C as [<-|[]]. apply negb_true_iff. by apply bool_decide_eq_false.
Qed.

Section Documents.
Variable tags : list string.
Notation ok l := (only_tags tags l = true).
Lemma escape_ok s : ok (chars (escapeHtml s)).
Proof. apply only_tags_plain, escape_plain. Qed.
Lemma join_ok sep l : ok (chars sep) -> Forall (fun t => ok (chars t)) l -> ok (chars (join sep l)).
Proof.
  intros S F. induction F as [|x l X F IH]; [done|]. destruct l as [|y l]; [done|]. cbn [join String.concat] in *.
  rewrite !chars_app. by repeat apply only_tags_app.
Qed.
Lemma render_ok render_block render_line lines :
  (forall lang body, ok (chars (render_block lang body))) -> (forall line, ok (chars (render_line line))) ->
  Forall (fun t => ok (chars t)) (render_lines render_block render_line lines).
Proof.
  intros B L. unfold render_lines. set (b := fold_left _ lines no_block).
  assert (Forall (fun t => ok (chars t)) (output b)) as F.
  { subst b. assert (Forall (fun t => ok (chars t)) (output no_block)) as F by constructor. revert F. generalize no_block.
    induction lines as [|line lines IH]; intros b F; [done|]. cbn [fold_left]. apply IH. unfold block_step.
    destruct (is_fence line), (inCodeBlock b); cbn; try done; apply Forall_app; split; try done; by apply Forall_singleton. }
  destruct (_ && _); [|done]. apply Forall_app. split; [done|]. by apply Forall_singleton.
Qed.
End Documents.

(** The tags the two formats are made of. *)
Definition telegram_tags : list string :=
  ["<b>"; "</b>"; "<i>"; "</i>"; "<code>"; "</code>"; attr_open "code" "class"; attr_open "a" "href"; "</a>"; "<s>"; "</s>";
   "<pre>"; "</pre>"; "<blockquote>"; "<blockquote expandable>"; "</blockquote>"].
Definition web_tags : list string :=
  ["<strong>"; "</strong>"; "<em>"; "</em>"; "<code>"; "</code>"; attr_open "a" "href"; "</a>"; "<s>"; "</s>";
   "<h2>"; "</h2>"; "<h3>"; "</h3>"; "<h4>"; "</h4>"; "<blockquote>"; "</blockquote>"; "<hr />"; "<br />"; "<p>"; "</p>";
   attr_tag "div" "class" "list-item"; attr_tag "div" "class" "code-block"; "</div>"; "<pre>"; "</pre>";
   attr_tag "span" "class" "code-lang"; "</span>"; attr_tag "details" "class" "thinking-block"; "</details>";
   "<summary>"; "</summary>"; attr_tag "pre" "class" "thinking-content"].

(** A text made of tags, escaped texts and rendered parts. *)
Ltac markup_with L :=
  rewrite ?chars_app; repeat apply only_tags_app;
  first [assumption | simple apply escape_ok | simple apply L | vm_compute; reflexivity].
Ltac markup := markup_with escape_ok.
Lemma pair_groups m t u : groups m = [(2, u); (1, t)] -> chars (group 1 m) = t /\ chars (group 2 m) = u.
Proof. intros G. unfold group. rewrite G. cbn. by rewrite !chars_of_chars. Qed.
Lemma telegram_inline s : only_tags telegram_tags (chars (telegramInlineFormat s)) = true.
Proof.
  apply inline_ok; [by vm_compute|repeat (apply Forall_cons_2; [by vm_compute|]); apply Forall_nil_2; done| |apply escape_ok].
  intros m t u G T U. destruct (pair_groups m t u G) as [G1 G2]. unfold telegram_link, attr_tag. rewrite !chars_app, G1, G2. markup.
Qed.
Lemma web_inline s : only_tags web_tags (chars (webInlineFormat s)) = true.
Proof.
  apply inline_ok; [by vm_compute|repeat (apply Forall_cons_2; [by vm_compute|]); apply Forall_nil_2; done| |apply escape_ok].
  intros m t u G T U. destruct (pair_groups m t u G) as [G1 G2]. unfold web_link. rewrite !chars_app, G1, G2. markup.
Qed.
Lemma telegram_line_ok line : only_tags telegram_tags (chars (markdownLineToTelegramHtml line)) = true.
Proof. unfold markdownLineToTelegramHtml. repeat case_match; markup_with telegram_inline. Qed.
Lemma telegram_block_ok lang body : only_tags telegram_tags (chars (telegram_block lang body)) = true.
Proof.
  unfold telegram_block. destruct (truthy lang); [|change (only_tags telegram_tags (chars ("<pre><code>" +:+ escapeHtml (join lf1 body) +:+ "</code></pre>")) = true); markup].
  change ("<pre><code" +:+ (" class=" +:+ dquote +:+ "language-" +:+ escapeHtml lang +:+ dquote) +:+ ">" +:+ escapeHtml (join lf1 body) +:+ "</code></pre>")
    with ("<pre>" +:+ attr_open "code" "class" +:+ ("language-" +:+ escapeHtml lang +:+ dquote) +:+ ">" +:+ escapeHtml (join lf1 body) +:+ "</code></pre>").
  markup.
Qed.
Lemma web_block_ok lang body : only_tags web_tags (chars (web_block lang body)) = true.
Proof. unfold web_block. destruct (truthy lang); markup. Qed.
Lemma web_line_ok line : only_tags web_tags (chars (web_line line)) = true.
Proof.
  unfold web_line. destruct (exec HEADING line) as [m|] eqn:E.
  - apply heading_level in E. assert (exists level, nat_text (S (slen (group 1 m))) = level /\ level ∈ ["2"; "3"; "4"]) as (level & -> & L).
    { eexists. split; [reflexivity|]. repeat (apply elem_of_cons in E as [->|E]; [vm_compute; by constructor; constructor; constructor|]).
      by apply elem_of_nil in E. }
    set (body := webInlineFormat (group 2 m)).
    assert ("<h" +:+ level +:+ ">" +:+ body +:+ "</h" +:+ level +:+ ">" = ("<h" +:+ level +:+ ">") +:+ body +:+ ("</h" +:+ level +:+ ">")) as ->
      by (by rewrite <- !str_app_assoc).
    rewrite (chars_app _ (body +:+ _)), (chars_app body). repeat apply only_tags_app; [|apply web_inline|].
    all: repeat (apply elem_of_cons in L as [->|L]; [vm_compute; reflexivity|]); by apply elem_of_nil in L.
  - repeat case_match; markup_with web_inline.
Qed.

(** ** Escaping *)

(** The reading of escaped text. *)
Fixpoint unescape (l : list ascii) : list ascii :=
  match l with
  | "&"%char :: "a"%char :: "m"%char :: "p"%char :: ";"%char :: l' => "&"%char :: unescape l'
  | "&"%char :: "l"%char :: "t"%char :: ";"%char :: l' => "<"%char :: unescape l'
  | "&"%char :: "g"%char :: "t"%char :: ";"%char :: l' => ">"%char :: unescape l'
  | c :: l' => c :: unescape l'
  | [] => []
  end.
Definition escaped_char (c : ascii) : list ascii :=
  if bool_decide (c = "&"%char) then chars "&amp;"
  else if bool_decide (c = "<"%char) then chars "&lt;" else if bool_decide (c = ">"%char) then chars "&gt;" else [c].
Lemma escape_flat s : chars (escapeHtml s) = flat_map escaped_char (chars s).
Proof.
  unfold escapeHtml, replace_char. rewrite !chars_of_chars. induction (chars s) as [|c l IH]; [done|]. cbn [flat_map]. rewrite !flat_map_app, IH. f_equal.
  unfold escaped_char. destruct (bool_decide (c = "&"%char)) eqn:A; [done|]. destruct (bool_decide (c = "<"%char)) eqn:L; cbn [flat_map]; rewrite L; [done|].
  cbn [flat_map app]. destruct (bool_decide (c = ">"%char)) eqn:G; cbn; by rewrite ?G.
Qed.
Lemma unescape_escape s : unescape (chars (escapeHtml s)) = chars s.
Proof.
  rewrite escape_flat. induction (chars s) as [|c l IH]; [done|]. cbn [flat_map]. revert IH. generalize (flat_map escaped_char l) as k. intros k IH. unfold escaped_char.
  destruct (bool_decide (c = "&"%char)) eqn:A; bool_prop; [subst c; cbn; by rewrite IH|].
  destruct (bool_decide (c = "<"%char)) eqn:L; bool_prop; [subst c; cbn; by rewrite IH|].
  destruct (bool_decide (c = ">"%char)) eqn:G; bool_prop; [subst c; cbn; by rewrite IH|].
  cbn [app]. transitivity (c :: unescape k); [|by rewrite IH].
  destruct c as [[] [] [] [] [] [] [] []]; done.
Qed.
Lemma split_join lines : Forall (fun s => forallb (fun c => negb (bool_decide (c = ascii_of_nat 10))) (chars s) = true) lines -> lines <> [] ->
  split_char (ascii_of_nat 10) (join lf1 lines) = lines.
Proof.
  intros F N. unfold split_char.
  assert (forall l k, forallb (fun c => negb (bool_decide (c = ascii_of_nat 10))) l = true ->
    split_list (fun d => bool_decide (d = ascii_of_nat 10)) (l ++ ascii_of_nat 10 :: k) = l :: split_list (fun d => bool_decide (d = ascii_of_nat 10)) k) as S1.
  { induction l as [|c l IH]; intros k H; [done|]. cbn [forallb] in H. bool_prop. cbn [app split_list].
    rewrite bool_decide_eq_false_2, IH by done. done. }
  assert (forall l, forallb (fun c => negb (bool_decide (c = ascii_of_nat 10))) l = true -> split_list (fun d => bool_decide (d = ascii_of_nat 10)) l = [l]) as S2.
  { induction l as [|c l IH]; intros H; [done|]. cbn [forallb] in H. bool_prop. cbn [split_list]. by rewrite bool_decide_eq_false_2, IH by done. }
  induction F as [|x l X F IH]; [done|]. destruct l as [|y l].
  - cbn [join String.concat]. rewrite (S2 _ X). cbn. by rewrite of_chars_chars.
  - change (join lf1 (x :: y :: l)) with (x +:+ lf1 +:+ join lf1 (y :: l)). rewrite !chars_app.
    change (chars lf1 ++ chars (join lf1 (y :: l))) with (ascii_of_nat 10 :: chars (join lf1 (y :: l))). rewrite (S1 _ _ X). cbn [map].
    rewrite of_chars_chars. f_equal. by apply IH.
Qed.

(** ** Properties *)

(** No markup of a message, of what the model thought or of anything quoted in
    them reaches a channel: every [<] of the Telegram text and of the web page
    begins a tag that the formatter itself writes. *)
Theorem markup_is_own reply :
  only_tags telegram_tags (chars (formatTelegramResponse reply)) = true /\
  only_tags web_tags (chars (html (formatWebchatMessage reply))) = true /\
  (forall t, thinkingHtml (formatWebchatMessage reply) = Some t -> only_tags web_tags (chars t) = true).
Proof.
  split; [|split].
  - unfold formatTelegramResponse. apply join_ok; [by vm_compute|]. apply Forall_app. split.
    + destruct (given_text _); [|constructor]. apply Forall_singleton. markup.
    + destruct (truthy _); [|constructor]. apply Forall_singleton. apply join_ok; [by vm_compute|]. apply render_ok; [apply telegram_block_ok|apply telegram_line_ok].
  - apply join_ok; [by vm_compute|]. apply render_ok; [apply web_block_ok|apply web_line_ok].
  - unfold formatWebchatMessage. cbn [thinkingHtml]. destruct (given_text _); [|done]. intros t [= <-]. markup.
Qed.

(** A closed code block is one element with the text of its lines, which can be
    read back from the page, whatever the lines hold. *)
Theorem code_block_shown lang body :
  let plain s := forallb (fun c => negb (bool_decide (c = ascii_of_nat 10))) (chars s) = true in
  plain lang -> Forall plain body -> Forall (fun line => is_fence line = false) body ->
  markdownToTelegramHtml (join lf1 (("```" +:+ lang) :: body ++ ["```"])) = telegram_block (trim lang) body /\
  markdownToWebHtml (join lf1 (("```" +:+ lang) :: body ++ ["```"])) = web_block (trim lang) body /\
  unescape (chars (escapeHtml (join lf1 body))) = chars (join lf1 body).
Proof.
  intros plain PL PB NF.
  assert (forall rb rl, render_lines rb rl (("```" +:+ lang) :: body ++ ["```"]) = [rb (trim lang) body]) as R.
  { intros rb rl. unfold render_lines. cbn [fold_left]. rewrite fold_left_app. cbn [fold_left].
    assert (block_step rb rl ("```" +:+ lang) no_block = mkBlock true [] (trim lang) []) as ->.
    { unfold block_step, is_fence, fence_lang, startsWith, slice_from, trimStart. rewrite !chars_app, !chars_of_chars. 
      transitivity (mkBlock true [] (trim (of_chars (chars lang))) []); [reflexivity|by rewrite of_chars_chars]. }
    assert (forall buf, fold_left (fun b line => block_step rb rl line b) body (mkBlock true buf (trim lang) []) = mkBlock true (buf ++ body) (trim lang) []) as ->.
    { clear PL PB. induction NF as [|x l X F IH]; intros buf; [by rewrite app_nil_r|]. cbn [fold_left]. unfold block_step at 2. rewrite X. cbn.
      rewrite IH, <- app_assoc. done. }
    reflexivity. }
  assert (split_char (ascii_of_nat 10) (join lf1 (("```" +:+ lang) :: body ++ ["```"])) = ("```" +:+ lang) :: body ++ ["```"]) as S.
  { apply split_join; [|done]. constructor; [rewrite chars_app, forallb_app; by rewrite PL|]. apply Forall_app. split; [done|]. by repeat constructor. }
  unfold markdownToTelegramHtml, markdownToWebHtml. rewrite S, !R. split; [done|]. split; [done|]. apply unescape_escape.
Qed.
Lemma code_block_shown_witness :
  unescape (chars (escapeHtml (join lf1 ["if (a < b && b > c)"; " {}"]))) = chars (join lf1 ["if (a < b && b > c)"; " {}"]).
Proof.
  apply (code_block_shown "ts" ["if (a < b && b > c)"; " {}"]);
    [vm_compute; reflexivity|repeat constructor; vm_compute; reflexivity|repeat constructor; vm_compute; reflexivity].
Defined.

(** The address of a link is not escaped for its attribute: a quote in it ends
    the attribute, and what follows is read as further attributes. *)
Example quote_ends_attribute :
  webInlineFormat ("[x](" +:+ dquote +:+ " onmouseover=" +:+ dquote +:+ "go)") =
  "<a href=" +:+ dquote +:+ dquote +:+ " onmouseover=" +:+ dquote +:+ "go" +:+ dquote +:+ " target=" +:+ dquote +:+ "_blank" +:+ dquote +:+ ">x</a>".
Proof. vm_compute. reflexivity. Qed.
(** The scheme of a link is not looked at. *)
Example script_link :
  telegramInlineFormat "[x](javascript:go)" = attr_tag "a" "href" "javascript:go" +:+ "x</a>".
Proof. vm_compute. reflexivity. Qed.
