(* ===== verification/TerminalFormat.v ===== *)
(** * Messages on the terminal

    src/src/cli/theme.ts and the part of src/src/format/message-formatter.ts for
    the terminal: colours, messages, tool events, Markdown, the waiting line.

    [columns] is the width of the terminal, [tty] whether it is one; the three
    styles of the picocolors package are arguments.  Box characters, bullets and
    the like are their UTF-8 bytes; where the source counts them (one code unit
    each), the count is written out. *)

From stdpp Require Import base list sets strings.
From Stdlib Require Import Ascii Lia ZArith.
From S2P Require Import Prelude JsString JsMap JsValue Json JsRegex JsRegexExec Config ChatService HtmlFormat.

(** ** Colours *)

Definition esc : string := of_chars [ascii_of_nat 27].
Definition hex_pair (s : string) (i : nat) : string :=
  match skipn i (chars s) with
  | a :: b :: _ => num_to_string (NInt (Z.of_nat (16 * hex_digit a + hex_digit b)))
  | _ => ""
  end.
Definition colour_code (value : string) (kind input : string) : string :=
  let normalized := match indexOf "#" value with Some i => slice_to i value +:+ slice_from (S i) value | None => value end in
  if test (re_ "^[0-9a-fA-F]{6}$") normalized
  then esc +:+ "[" +:+ kind +:+ ";2;" +:+ hex_pair normalized 0 +:+ ";" +:+ hex_pair normalized 2 +:+ ";" +:+ hex_pair normalized 4 +:+ "m" +:+ input +:+ esc +:+ "[0m"
  else input.
Definition hexFg (value input : string) : string := colour_code value "38" input.
Definition hexBg (value input : string) : string := colour_code value "48" input.

Definition palette : list (string * string) :=
  [("text", "#E8E3D5"); ("dim", "#7B7F87"); ("systemText", "#9BA3B2"); ("accent", "#F6C453"); ("accentSoft", "#F2A65A");
   ("accentBright", "#FF7A3D"); ("accentDim", "#D14A22"); ("info", "#FF8A5B"); ("success", "#7DD3A5"); ("warn", "#FFB020");
   ("error", "#F97066"); ("userBg", "#2B2F36"); ("userText", "#F3EEE0"); ("toolTitle", "#F6C453"); ("toolOutput", "#E1DACB");
   ("toolPendingBg", "#1F2A2F"); ("toolSuccessBg", "#1E2D23"); ("toolErrorBg", "#2F1F1F"); ("code", "#F0C987"); ("codeBlock", "#1E232A");
   ("codeBorder", "#343A45"); ("link", "#7DD3A5"); ("quote", "#8CC8FF"); ("quoteBorder", "#3B4D6B"); ("border", "#3C414B")].

Section Terminal.
Variable tty : bool.
Variable env : list (string * string).
Variable columns : nat.
Variables pc_bold pc_italic pc_strikethrough : string -> string.

Definition hasForceColor : bool :=
  match mget "FORCE_COLOR" env with Some v => (0 <? slen (trim v)) && negb (trim v =? "0")%string | None => false end.
Definition isRich : bool :=
  tty && (hasForceColor || negb (match mget "NO_COLOR" env with Some v => truthy v | None => false end)).
Definition styled (f : string -> string) (v : string) : string := if isRich then f v else v.
Definition fg (name : string) : string -> string := styled (hexFg (default "" (mget name palette))).
Definition bg (name : string) : string -> string := styled (hexBg (default "" (mget name palette))).
Definition heading : string -> string := styled (fun v => pc_bold (hexFg (default "" (mget "accent" palette)) v)).
Definition bold : string -> string := styled pc_bold.
Definition italic : string -> string := styled pc_italic.
Definition strikethrough : string -> string := styled pc_strikethrough.

Definition spaces (n : nat) : string := of_chars (repeat " "%char n).
(** [s.padEnd(columns)] for a text of [units] code units. *)
Definition padEnd (units : nat) (s : string) : string := s +:+ spaces (columns - units).

(** ** Messages *)

Definition lines_of (s : string) : list string := split_char (ascii_of_nat 10) s.
Definition formatTerminalUserMessage (message : string) : string :=
  if negb isRich then "> " +:+ message
  else join lf1 ("" :: map (fun line => bg "userBg" (fg "userText" (padEnd (S (slen line)) (" " +:+ line)))) (lines_of message)).
Definition formatThinkingBlock (t : string) (rich : bool) : string :=
  if negb rich then "[thinking]" +:+ lf1 +:+ t
  else join lf1 (fg "accent" "[thinking]" :: map (fun line => fg "dim" (" " +:+ line)) (lines_of t)).

(** ** Inline Markdown *)

Definition renderInlineMarkdown (text : string) (rich : bool) : string :=
  if negb rich then text
  else
    let r := replaceAll BOLD (fun m => bold (group 1 m)) text in
    let r := replaceAll ITALIC (fun m => italic (group 1 m)) r in
    let r := replaceAll CODE (fun m => fg "code" (group 1 m)) r in
    let r := replaceAll LINK (fun m => fg "link" (group 1 m) +:+ fg "dim" (" (" +:+ group 2 m +:+ ")")) r in
    replaceAll STRIKE (fun m => strikethrough (group 1 m)) r.

(** ** Markdown *)

Fixpoint times_text (n : nat) (s : string) : string := match n with 0 => "" | S n' => s +:+ times_text n' s end.
Definition bar (n : nat) : string := times_text n "─".
Definition LIST_ITEM : rx := re_ "^(\s*)([-*+]|\d+\.)\s+(.+)$".
(** A line outside a code block. *)
Definition terminal_line (rich : bool) (line : string) : string :=
  match capture 2 HEADING line with
  | Some title => " " +:+ (if rich then heading title else title)
  | None =>
      if test (re_ "^[-*_]{3,}\s*$") (trim line) then (if rich then fg "border" (" " +:+ bar 50) else " " +:+ bar 50)
      else if is_quote line then
        (if rich then fg "quoteBorder" " ▎ " +:+ fg "quote" (quote_text line) else " ▎ " +:+ quote_text line)
      else match exec LIST_ITEM line with
           | Some m =>
               let content := renderInlineMarkdown (group 3 m) rich in
               " " +:+ group 1 m +:+ (if rich then fg "accentSoft" "•" else "•") +:+ " " +:+ content
           | None => if truthy (trim line) then " " +:+ renderInlineMarkdown line rich else ""
           end
  end.
Definition open_fence (rich : bool) (lang : string) : string :=
  let borderLen := 48 - slen lang - 2 in
  if rich then
    fg "codeBorder" " ┌─" +:+ (if truthy lang then fg "code" (" " +:+ lang +:+ " ") else fg "codeBorder" "─") +:+ fg "codeBorder" (bar borderLen)
  else " ┌─" +:+ (if truthy lang then " " +:+ lang +:+ " " else "─") +:+ bar borderLen.
Definition close_fence (rich : bool) : string :=
  if rich then fg "codeBorder" (" └" +:+ bar 50) else " └" +:+ bar 50.
Definition code_line (rich : bool) (line : string) : string :=
  if rich then fg "codeBorder" " │" +:+ fg "code" (" " +:+ line) else " │ " +:+ line.
(** The loop over the lines, with [inCodeBlock]. *)
Fixpoint terminal_lines (rich : bool) (inCode : bool) (lines : list string) : list string :=
  match lines with
  | [] => []
  | line :: rest =>
      if is_fence line then
        if inCode then close_fence rich :: terminal_lines rich false rest
        else open_fence rich (fence_lang line) :: terminal_lines rich true rest
      else (if inCode then code_line rich line else terminal_line rich line) :: terminal_lines rich inCode rest
  end.
Definition renderTerminalMarkdown (text : string) (rich : bool) : string := join lf1 (terminal_lines rich false (lines_of text)).
Definition formatTerminalResponse (reply : ChatResponse) : string :=
  join lf1 ([""] ++ match given_text (thinking reply) with Some t => [formatThinkingBlock t isRich; ""] | None => [] end ++
            (if truthy (cr_message reply) then [renderTerminalMarkdown (cr_message reply) isRich] else [])).

(** ** Tool events *)

Definition TOOL_PREVIEW_LINES : nat := 12.
Definition TOOL_LINE_MAX : nat := 180.
Definition truncateLine (text : string) (max : nat) : string :=
  if slen text <=? max then text
  else
    let head := max * 6 / 10 in
    let tail := max - head - 3 in
    slice_to head text +:+ "..." +:+ slice_from (slen text - tail) text.

Inductive tool_state := running | ok | failed.
Definition renderToolHeader (toolName : string) (state : tool_state) : string :=
  let label := toolName +:+ match state with running => " (running)" | failed => " (error)" | ok => " (done)" end in
  if negb isRich then "⚡ " +:+ label
  else
    bg (match state with running => "toolPendingBg" | failed => "toolErrorBg" | ok => "toolSuccessBg" end)
       (fg "toolTitle" (padEnd (3 + slen label) (" ⚡ " +:+ label))).

Definition string_prop (k : string) (v : value) : option string := match get_prop k v with VStr s => Some s | _ => None end.
(** [typeof x === "string"] and [if (x)] *)
Definition shown (o : option string) (f : string -> string) : list string :=
  match given_text o with Some s => [f s] | None => [] end.
Definition formatToolArgs (args : value) : list string :=
  if negb (to_bool args) then []
  else
    let command := string_prop "command" args in
    let workdir := match string_prop "workdir" args with Some w => Some w | None => string_prop "cwd" args end in
    let lines := shown command (fun c => "command: " +:+ truncateLine c TOOL_LINE_MAX) ++ shown workdir (fun w => "cwd: " +:+ truncateLine w 120) in
    let extra := mdelete "cwd" (mdelete "workdir" (mdelete "command" (object_entries args))) in
    if (0 <? length extra) && (length lines =? 0) then lines ++ ["args: " +:+ truncateLine (JSON_stringify (VObj extra)) TOOL_LINE_MAX] else lines.

Definition extractToolText (result : value) : string :=
  if negb (is_object result) then ""
  else match get_prop "content" result with
       | VArr content =>
           trim (join lf1 (omap (fun entry => if is_object entry && is_str "text" (get_prop "type" entry) then string_prop "text" entry else None) content))
       | _ =>
           match string_prop "stdout" result, string_prop "stderr" result with
           | None, None => ""
           | o, e => trim (join lf1 (List.filter truthy [default "" o; default "" e]))
           end
       end.
(** The first lines of a text, and a mark when there are more. *)
Definition preview (text : string) : list string :=
  let l := lines_of text in firstn TOOL_PREVIEW_LINES l ++ (if TOOL_PREVIEW_LINES <? length l then ["…"] else []).
Definition stream_lines (title : string) (o : option string) : list string :=
  match o with Some s => if truthy (trim s) then title :: preview (trim s) else [] | None => [] end.
Definition detail_lines (d : value) : list string :=
  if negb (is_object d) then []
  else
    shown (string_prop "status" d) (fun s => "status: " +:+ s) ++
    match get_prop "exitCode" d with VNum n => ["exit: " +:+ num_to_string n] | _ => [] end ++
    shown (string_prop "cwd" d) (fun s => "cwd: " +:+ truncateLine s 120) ++
    shown (string_prop "command" d) (fun s => "command: " +:+ truncateLine s TOOL_LINE_MAX) ++
    stream_lines "stdout:" (string_prop "stdout" d) ++ stream_lines "stderr:" (string_prop "stderr" d).
Definition formatToolResultSummary (result : value) (error : option string) : list string :=
  let failure := shown error (fun e => "error: " +:+ truncateLine e 220) in
  if negb (is_object result) then failure
  else
    let lines := detail_lines (get_prop "details" result) in
    let text := extractToolText result in
    lines ++ (if truthy text && (length lines =? 0) then preview text else []) ++ failure.

Definition indented (line : string) : string := if isRich then fg "dim" ("  " +:+ line) else "  " +:+ line.
Definition dimmed (text : string) : string := if isRich then fg "dim" text else text.
Definition or_unknown (k : string) (data : value) : string := default "unknown" (string_prop k data).
(** An event by its stream and its data. *)
Definition formatTerminalToolEvent (stream : string) (data : value) : option string :=
  let phase := get_prop "phase" data in
  if (stream =? "assistant")%string then
    let text := trim (default "" (string_prop "text" data)) in
    if negb (truthy text) then None
    else
      let prefix := if is_str "pretool" phase then "🧠" else "↳" in
      Some (if isRich then fg "info" prefix +:+ " " +:+ fg "dim" text else prefix +:+ " " +:+ text)
  else if (stream =? "status")%string then
    if is_str "route" phase then
      Some (dimmed ("route: " +:+ default "default" (string_prop "slot" data) +:+ " -> " +:+ or_unknown "provider" data +:+ "/" +:+ or_unknown "model" data))
    else if is_str "provider" phase then Some (dimmed ("provider: " +:+ or_unknown "provider" data +:+ "/" +:+ or_unknown "model" data))
    else None
  else if negb (stream =? "tool")%string then None
  else
    let toolName := default "tool" (given_text (string_prop "name" data)) in
    let partial := get_prop "partialResult" data in
    let error := string_prop "error" data in
    if is_str "update" phase && is_object partial then
      let chunk := default "" (string_prop "chunk" partial) in
      if truthy chunk then
        let name := default "" (string_prop "stream" partial) in
        let prefix := if truthy name then name +:+ ": " else "" in
        Some ((if isRich then fg "dim" "  ↳ " else "  ↳ ") +:+ truncateLine (prefix +:+ trim chunk) 160)
      else None
    else if is_str "start" phase then
      Some (join lf1 (renderToolHeader toolName running :: map indented (formatToolArgs (get_prop "args" data))))
    else if is_str "end" phase || is_str "error" phase then
      let state := if is_str "error" phase then failed else match given_text error with Some _ => failed | None => ok end in
      Some (join lf1 (renderToolHeader toolName state :: map indented (formatToolResultSummary (get_prop "result" data) error)))
    else None.

(** ** Waiting and footer *)

Definition WAITING_PHRASES : list string :=
  ["flibbertigibbeting"; "kerfuffling"; "dillydallying"; "twiddling thumbs"; "noodling"; "bamboozling"; "moseying"; "hobnobbing"; "pondering"; "conjuring"].
Definition pickWaitingPhrase (tick : nat) : string := default "waiting" (WAITING_PHRASES !! (tick / 10 mod length WAITING_PHRASES)).
(** The text as its code units. *)
Definition shimmerText (units : list string) (tick : nat) : string :=
  if negb isRich then join "" units
  else
    let width := 6 in
    let pos := tick mod (length units + width) in
    let start := pos - width in
    let stop := Nat.min (length units - 1) pos in
    join "" (imap (fun i ch => if (start <=? i) && (i <=? stop) then bold (fg "accentSoft" ch) else fg "dim" ch) units).
Definition formatWaitingStatus (tick : nat) (elapsed : string) : string :=
  let phrase := pickWaitingPhrase tick in
  shimmerText (map (fun c => of_chars [c]) (chars phrase) ++ ["…"]) tick +:+ " " +:+ fg "dim" "•" +:+ " " +:+ fg "dim" elapsed.
Definition formatElapsed (startMs now : Z) : string :=
  let totalSeconds := Z.max 0 ((now - startMs) / 1000) in
  let text z := num_to_string (NInt z) in
  if (totalSeconds <? 60)%Z then text totalSeconds +:+ "s"
  else
    let s := text (totalSeconds mod 60)%Z in
    text (totalSeconds / 60)%Z +:+ "m" +:+ (if slen s <? 2 then "0" +:+ s else s) +:+ "s".
Definition formatFooter (mode_text : string) (provider model : option string) : string :=
  let route := match given_text provider, given_text model with Some p, Some m => [p +:+ "/" +:+ m] | _, _ => [] end in
  let joined := join " | " (["t560"; mode_text] ++ route) in
  if isRich then fg "dim" joined else joined.

(** ** Lemmas *)

Lemma terminal_lines_length rich inCode lines : length (terminal_lines rich inCode lines) = length lines.
Proof. revert inCode. induction lines as [|l ls IH]; intros c; [done|]. cbn [terminal_lines]. destruct (is_fence l), c; cbn [length]; by rewrite IH. Qed.
Lemma truncate_length text max : 10 <= max -> slen (truncateLine text max) <= max.
Proof.
  intros M. unfold truncateLine. destruct (_ <=? _) eqn:E; bool_prop; [done|]. rewrite !slen_app. unfold slice_to, slice_from.
  rewrite !slen_of_chars, length_firstn, length_skipn. change (slen "...") with 3. change (length (chars text)) with (slen text).
  assert (max * 6 / 10 + 3 <= max) by (pose proof (Nat.div_mod_eq (max * 6) 10); lia). lia.
Qed.
Lemma preview_length text : length (preview text) <= S TOOL_PREVIEW_LINES.
Proof. unfold preview. rewrite length_app, length_firstn. case_match; cbn [length]; lia. Qed.
Lemma shown_length o f : length (shown o f) <= 1.
Proof. unfold shown. case_match; cbn; lia. Qed.
Lemma stream_length title o : length (stream_lines title o) <= 2 + TOOL_PREVIEW_LINES.
Proof. unfold stream_lines. pose proof preview_length. repeat case_match; cbn [length]; try lia. specialize (H (trim s)). lia. Qed.

(** ** Properties *)

(** A message keeps its lines: each line of the text is one line on the terminal,
    and without colours a line of a code block is shown as it is behind a bar. *)
Theorem terminal_keeps_lines rich inCode lines :
  length (terminal_lines rich inCode lines) = length lines /\
  (Forall (fun l => is_fence l = false) lines -> terminal_lines false true lines = map (fun l => " │ " +:+ l) lines).
Proof.
  split; [apply terminal_lines_length|]. induction 1 as [|l ls F _ IH]; [done|]. cbn [terminal_lines map]. by rewrite F, IH.
Qed.

(** What a finished call shows is bounded, whatever the tool returned: at most 33
    lines, of which those that quote a command, a directory or an error are cut
    to their maximal length. *)
Theorem tool_summary_bounded result error :
  length (formatToolResultSummary result error) <= 33 /\
  (forall s, slen (truncateLine s TOOL_LINE_MAX) <= TOOL_LINE_MAX).
Proof.
  split; [|intros s; apply truncate_length; unfold TOOL_LINE_MAX; lia]. unfold formatToolResultSummary.
  pose proof (shown_length error (fun e => "error: " +:+ truncateLine e 220)) as E. destruct (negb _); [lia|].
  set (d := get_prop "details" result). pose proof (preview_length (extractToolText result)) as P.
  assert (length (detail_lines d) <= 32) as D.
  { unfold detail_lines. destruct (negb _); [cbn; lia|]. rewrite !length_app.
    pose proof (shown_length (string_prop "status" d) (fun s => "status: " +:+ s)). pose proof (shown_length (string_prop "cwd" d) (fun s => "cwd: " +:+ truncateLine s 120)).
    pose proof (shown_length (string_prop "command" d) (fun s => "command: " +:+ truncateLine s TOOL_LINE_MAX)).
    pose proof (stream_length "stdout:" (string_prop "stdout" d)). pose proof (stream_length "stderr:" (string_prop "stderr" d)).
    assert (length (match get_prop "exitCode" d with VNum n => ["exit: " +:+ num_to_string n] | _ => [] end) <= 1) by (case_match; cbn; lia).
    unfold TOOL_PREVIEW_LINES in *. lia. }
  rewrite !length_app. destruct (truthy _ && (length (detail_lines d) =? 0)) eqn:T; bool_prop; unfold TOOL_PREVIEW_LINES in *; cbn [length]; lia.
Qed.
End Terminal.

Example plain_answer :
  formatTerminalResponse false [] (fun s => s) (fun s => s) (fun s => s)
    (mkResponse (join lf1 ["# Done"; "- **a**"; "> q"]) (Some "hm") [] foundation None None false []) =
  join lf1 [""; "[thinking]"; "hm"; ""; " Done"; " • **a**"; " ▎ q"].
Proof. vm_compute. reflexivity. Qed.
Example elapsed_minutes : formatElapsed 0 65000 = "1m05s".
Proof. vm_compute. reflexivity. Qed.
