(* ===== verification/MailText.v ===== *)
(** * The texts of mail

    src/src/agents/tools/email-tool.ts, the functions between text and text:
    normalisation of the arguments, header values, the message that is sent, the
    headers that are read.  Text is Latin-1, so its UTF-8 form is exact; reading
    UTF-8 and base64 is Node's and an argument ([from_utf8], [from_base64]). *)

From stdpp Require Import base list strings pretty.
From Stdlib Require Import ZArith Ascii Lia.
From S2P Require Import Prelude JsString JsMap JsValue JsDate JsRegex JsRegexExec MemoryStore.

Definition CR : ascii := ascii_of_nat 13.
Definition LF : ascii := ascii_of_nat 10.
Definition crlf : string := of_chars [CR; LF].
Definition quote_mark : string := of_chars [ascii_of_nat 34].
Definition is_newline (c : ascii) : bool := bool_decide (c = CR) || bool_decide (c = LF).

(** ** Arguments *)

(** [String(value ?? "")] of a string. *)
Definition sanitizeHeaderValue (value : string) : string := trim (replace_runs is_newline [" "%char] value).

Definition maskIdentifier (identifier : string) : string :=
  let value := trim identifier in
  if negb (truthy value) then "(empty)"
  else
    let short := if slen value <=? 3 then slice_to 1 value +:+ "**" else slice_to 2 value +:+ "***" +:+ last_chars 1 value in
    match indexOf "@" value with
    | Some at_ => if 1 <? at_ then slice_to 1 value +:+ "***" +:+ slice_from at_ value else short
    | None => short
    end.

Definition normalizeHost (value : value) : string :=
  let raw := toLowerCase (text_of value) in
  if negb (truthy raw) then ""
  else replaceFirst (re_ "^www\.") "" (replaceFirst (re_ "/.*$") "" (replaceFirst (re_i "^https?://") "" raw)).

Definition domain_char (c : ascii) : bool := is_lower c || is_digit c || bool_decide (c ∈ chars ".-").
Definition parseDomainFromEmailAddress (value : string) : string :=
  let source := toLowerCase (trim value) in
  match lastIndexOf_char "@" source with
  | None => ""
  | Some at_ => if slen source <=? at_ + 1 then "" else replace_outside domain_char [] (slice_from (at_ + 1) source)
  end.

Definition parseAddresses (value : value) : list string :=
  match value with
  | VArr entries => List.filter truthy (map text_of entries)
  | _ => let raw := text_of value in
         if negb (truthy raw) then []
         else List.filter truthy (map (fun e => trim (of_chars e))
                (split_list (fun c => bool_decide (c ∈ chars ";,")) (chars raw)))
  end.

Definition toBoolean (value : value) (fallback : bool) : bool :=
  match value with
  | VBool b => b
  | _ => let normalized := toLowerCase (text_of value) in
         if (normalized =? "true")%string then true else if (normalized =? "false")%string then false else fallback
  end.

Definition compactText (value : string) (maxChars : nat) : string :=
  let text := trim (replace_runs is_ws [" "%char] value) in
  if negb (truthy text) then ""
  else if slen text <=? maxChars then text
  else trim (slice_to (maxChars - 3) text) +:+ "...".

(** Also [parseFlags]. *)
Definition parseReferences (value : string) : list string := words (trim value).
Definition parseFlags (raw : string) : list string := words (trim raw).

(** ** UTF-8 and base64 *)

Definition to_utf8 (s : string) : list ascii :=
  flat_map (fun c => if code c <? 128 then [c] else [ascii_of_nat (192 + code c / 64); ascii_of_nat (128 + code c mod 64)]) (chars s).
Definition base64_char (n : nat) : ascii :=
  nth n (chars "ABCDEFGHIJKLMNOPQRSTUVWXYZabcdefghijklmnopqrstuvwxyz0123456789+/") "="%char.
Fixpoint base64_list (l : list ascii) : list ascii :=
  match l with
  | [] => []
  | [a] => let n := code a in [base64_char (n / 4); base64_char (n mod 4 * 16); "="; "="]%char
  | [a; b] =>
      let n := code a in let m := code b in
      [base64_char (n / 4); base64_char (n mod 4 * 16 + m / 16); base64_char (m mod 16 * 4); "="%char]
  | a :: b :: c :: l' =>
      let n := code a in let m := code b in let k := code c in
      [base64_char (n / 4); base64_char (n mod 4 * 16 + m / 16); base64_char (m mod 16 * 4 + k / 64); base64_char (k mod 64)] ++
      base64_list l'
  end.
Definition to_base64 (l : list ascii) : string := of_chars (base64_list l).

Example base64_samples : map (fun s => to_base64 (chars s)) ["Man"; "Ma"; "M"; "light work."] = ["TWFu"; "TWE="; "TQ=="; "bGlnaHQgd29yay4="].
Proof. reflexivity. Qed.

(** ** Header values *)

Definition plain_char (c : ascii) : bool := between 32 126 (code c).
Definition encodeHeaderValue (value : string) : string :=
  let safe := sanitizeHeaderValue value in
  if negb (truthy safe) then ""
  else if forallb plain_char (chars safe) then safe
  else "=?UTF-8?B?" +:+ to_base64 (to_utf8 safe) +:+ "?=".

Section Codec.
Variables (from_utf8 : list ascii -> string) (from_base64 : string -> list ascii).

Definition hex_text (h : string) : string :=
  match map hex_digit (chars h) with [a; b] => of_chars [ascii_of_nat (16 * a + b)] | _ => "" end.
Definition decode_word (m : found) : string :=
  if (toUpperCase (group 2 m) =? "B")%string then from_utf8 (from_base64 (group 3 m))
  else from_utf8 (chars (replaceAll (re_ "=([A-Fa-f0-9]{2})") (fun h => hex_text (group 1 h))
                           (replaceAll (re_ "_") (fun _ => " ") (group 3 m)))).
Definition ENCODED_WORD : rx := re_ "=\?([^?]+)\?([bBqQ])\?([^?]+)\?=".
Definition decodeMimeEncodedWords (input : string) : string := replaceAll ENCODED_WORD decode_word input.

(** *** The headers of a message *)

Definition is_fold (line : string) : bool := match chars line with c :: _ => bool_decide (c = " "%char) || (code c =? 9) | [] => false end.
(** [unfolded], the last line first. *)
Definition unfold_step (line : string) (unfolded : list string) : list string :=
  match unfolded with
  | last :: before => if is_fold line then (last +:+ " " +:+ trim line) :: before else line :: unfolded
  | [] => [line]
  end.
Definition unfold_lines (lines : list string) : list string := rev (fold_left (fun u line => unfold_step line u) lines []).

Definition Headers := list (string * list string).
(** A name that every object inherits has a value, which is not a list. *)
Definition push_header (key value : string) (headers : Headers) : result Headers :=
  match obj_lookup key headers with
  | Own vs => Ok (mset key (vs ++ [value]) headers)
  | Missing => Ok (mset key [value] headers)
  | Inherited => Throw "headers[key].push is not a function"
  end.
Definition header_step (line : string) (headers : Headers) : result Headers :=
  let trimmed := trim line in
  if negb (truthy trimmed) then Ok headers
  else match indexOf ":" trimmed with
       | Some (S i) =>
           push_header (toLowerCase (trim (slice_to (S i) trimmed)))
             (decodeMimeEncodedWords (trim (slice_from (S (S i)) trimmed))) headers
       | _ => Ok headers
       end.
Fixpoint parse_headers (lines : list string) (headers : Headers) : result Headers :=
  match lines with
  | [] => Ok headers
  | line :: rest => let? h := header_step line headers in parse_headers rest h
  end.
Definition parseRfc822Headers (raw : string) : result Headers := parse_headers (unfold_lines (split_lines raw)) [].
End Codec.

(** [headers[name]?.[0]] *)
Definition first_header (name : string) (headers : Headers) : option string := vs ← mget name headers; head vs.
Definition messageThreadKey (headers : Headers) : string :=
  let inReplyTo := default "" (first_header "in-reply-to" headers) in
  if truthy (trim inReplyTo) then trim inReplyTo
  else match last (parseReferences (default "" (first_header "references" headers))) with
       | Some r => r
       | None => default "" (first_header "message-id" headers)
       end.

(** ** The message that is sent *)

(** [s.replace(/\r?\n/g, "\r\n")] *)
Fixpoint crlf_list (l : list ascii) : list ascii :=
  match l with
  | [] => []
  | c :: l' =>
      if bool_decide (c = LF) then CR :: LF :: crlf_list l'
      else match l' with
           | d :: l'' => if bool_decide (c = CR) && bool_decide (d = LF) then CR :: LF :: crlf_list l'' else c :: crlf_list l'
           | [] => [c]
           end
  end.
Definition to_crlf (s : string) : string := of_chars (crlf_list (chars s)).
(** [s.split("\r\n")] *)
Definition put_first (c : ascii) (ws : list (list ascii)) : list (list ascii) :=
  match ws with [] => [[c]] | w :: ws' => (c :: w) :: ws' end.
Fixpoint split_crlf (l : list ascii) : list (list ascii) :=
  match l with
  | [] => [[]]
  | c :: l' =>
      match l' with
      | d :: l'' => if bool_decide (c = CR) && bool_decide (d = LF) then [] :: split_crlf l'' else put_first c (split_crlf l')
      | [] => [[c]]
      end
  end.

Definition stuff_line (line : list ascii) : list ascii := match line with "."%char :: _ => "."%char :: line | _ => line end.
Definition dotStuffSmtpBody (body : string) : string :=
  join crlf (map of_chars (map stuff_line (split_crlf (chars (to_crlf body))))).

(** [new Date(now).toUTCString()] *)
Definition toUTCString (now : Z) : string :=
  let '(y, m, d) := civil (now / day_ms) in
  let ms := (now mod day_ms)%Z in
  nth (Z.to_nat ((now / day_ms + 4) mod 7)) ["Sun"; "Mon"; "Tue"; "Wed"; "Thu"; "Fri"; "Sat"] "" +:+ ", " +:+ padded 2 d +:+ " " +:+
  nth (Z.to_nat (m - 1)) ["Jan"; "Feb"; "Mar"; "Apr"; "May"; "Jun"; "Jul"; "Aug"; "Sep"; "Oct"; "Nov"; "Dec"] "" +:+ " " +:+
  (if (y <? 0)%Z then "-" else "") +:+ padded (if (y <? 0)%Z then 6 else 4) y +:+ " " +:+
  padded 2 (ms / 3600000) +:+ ":" +:+ padded 2 (ms / 60000 mod 60) +:+ ":" +:+ padded 2 (ms / 1000 mod 60) +:+ " GMT".
Example utc_samples : map toUTCString [0%Z; 1700000000123%Z] = ["Thu, 01 Jan 1970 00:00:00 GMT"; "Tue, 14 Nov 2023 22:13:20 GMT"].
Proof. vm_compute. reflexivity. Qed.

Record Mail := mkMail {
  mail_from : string; mail_to : list string; mail_cc : list string; mail_subject : string; mail_text : string;
  mail_html : string; mail_inReplyTo : string; mail_references : list string; mail_messageId : string }.

Definition field_line (name value : string) : string := name +:+ ": " +:+ value.
Definition mime_headers (now : Z) (p : Mail) : list string :=
  [field_line "Date" (toUTCString now);
   field_line "From" (sanitizeHeaderValue (mail_from p));
   field_line "To" (join ", " (map sanitizeHeaderValue (mail_to p)));
   field_line "Subject" (encodeHeaderValue (if truthy (mail_subject p) then mail_subject p else "(no subject)"));
   field_line "Message-ID" (sanitizeHeaderValue (mail_messageId p));
   field_line "MIME-Version" "1.0"] ++
  (if 0 <? length (mail_cc p) then [field_line "Cc" (join ", " (map sanitizeHeaderValue (mail_cc p)))] else []) ++
  (if truthy (trim (mail_inReplyTo p)) then [field_line "In-Reply-To" (sanitizeHeaderValue (mail_inReplyTo p))] else []) ++
  (if 0 <? length (mail_references p) then [field_line "References" (join " " (map sanitizeHeaderValue (mail_references p)))] else []).
Definition part_headers (type : string) : list string :=
  [field_line "Content-Type" ("text/" +:+ type +:+ "; charset=utf-8"); field_line "Content-Transfer-Encoding" "8bit"].
Definition or_text (s fallback : string) : string := if truthy s then s else fallback.
(** The boundary is made from [uuid]. *)
Definition buildMimeMessage (now : Z) (uuid : string) (p : Mail) : string :=
  let headers := mime_headers now p in
  let textBody := to_crlf (mail_text p) in
  let htmlBody := to_crlf (mail_html p) in
  let boundary := "t560-" +:+ uuid in
  join crlf
    (headers ++
     if truthy htmlBody && truthy textBody then
       [field_line "Content-Type" ("multipart/alternative; boundary=" +:+ quote_mark +:+ boundary +:+ quote_mark); ""; "--" +:+ boundary] ++
       part_headers "plain" ++ [""; or_text textBody "(no content)"; ""; "--" +:+ boundary] ++
       part_headers "html" ++ [""; htmlBody; ""; "--" +:+ boundary +:+ "--"; ""]
     else if truthy htmlBody then part_headers "html" ++ [""; htmlBody; ""]
     else part_headers "plain" ++ [""; or_text textBody "(no content)"; ""]).

(** ** Lines *)

Fixpoint join_lines (ls : list (list ascii)) : list ascii :=
  match ls with
  | [] => []
  | [w] => w
  | w :: ws => w ++ CR :: LF :: join_lines ws
  end.
Lemma chars_join_crlf ls : chars (join crlf ls) = join_lines (map chars ls).
Proof.
  unfold join. induction ls as [|w [|v ls] IH]; [done|done|].
  change (String.concat crlf (w :: v :: ls)) with (w +:+ (crlf +:+ String.concat crlf (v :: ls))).
  by rewrite !chars_app, IH.
Qed.

Lemma join_lines_cons w ls : ls <> [] -> join_lines (w :: ls) = w ++ CR :: LF :: join_lines ls.
Proof. by destruct ls. Qed.

(** A text without a line end is its only line. *)
Definition one_line (w : list ascii) : Prop := split_crlf w = [w].

Lemma split_crlf_cons c l : split_crlf (c :: l) =
  match l with
  | d :: l'' => if bool_decide (c = CR) && bool_decide (d = LF) then [] :: split_crlf l'' else put_first c (split_crlf l)
  | [] => [[c]]
  end.
Proof. reflexivity. Qed.
Lemma split_crlf_nonempty l : split_crlf l <> [].
Proof.
  destruct l as [|c [|d l]]; [done|done|]. rewrite split_crlf_cons. case_match; [done|].
  unfold put_first. by destruct (split_crlf (d :: l)).
Qed.
Lemma one_line_cons c w : one_line (c :: w) -> one_line w.
Proof.
  unfold one_line. rewrite split_crlf_cons. destruct w as [|d w]; [done|]. case_match.
  - intros E. injection E as E _. done.
  - unfold put_first. destruct (split_crlf (d :: w)) as [|v vs]; [done|]. intros E. by injection E as -> ->.
Qed.
Lemma split_app_line w rest : one_line w -> split_crlf (w ++ CR :: LF :: rest) = w :: split_crlf rest.
Proof.
  induction w as [|c w IH]; [done|]. intros O. pose proof (IH (one_line_cons _ _ O)) as E.
  cbn [app]. rewrite split_crlf_cons. destruct w as [|d w].
  - cbn [app]. rewrite (bool_decide_eq_false_2 (CR = LF)), andb_false_r by done. cbn [app] in E. by rewrite E.
  - cbn [app] in *. unfold one_line in O. rewrite split_crlf_cons in O.
    destruct (bool_decide (c = CR) && bool_decide (d = LF)); [done|]. by rewrite E.
Qed.
Lemma split_join_lines ls : ls <> [] -> Forall one_line ls -> split_crlf (join_lines ls) = ls.
Proof.
  induction ls as [|w [|v ls] IH]; [done|by intros _ [O _]%Forall_cons|].
  intros _ [O F]%Forall_cons. rewrite join_lines_cons, split_app_line by done. by rewrite IH.
Qed.
Lemma put_first_lines c ws : c <> CR -> Forall one_line ws -> Forall one_line (put_first c ws).
Proof.
  intros C F. destruct ws as [|w ws]; [repeat constructor|]. cbn. apply Forall_cons in F as [O F]. constructor; [|done].
  unfold one_line in *. rewrite split_crlf_cons. destruct w as [|d w]; [done|].
  by rewrite (bool_decide_eq_false_2 (c = CR)), O by done.
Qed.
Lemma split_crlf_head l w ws : split_crlf l = w :: ws -> match w with [] => True | d :: _ => head l = Some d end.
Proof.
  destruct l as [|c [|d l]]; [by intros [= <- <-]|by intros [= <- <-]|].
  rewrite split_crlf_cons. case_match; [by intros [= <- <-]|].
  unfold put_first. case_match; by intros [= <- <-].
Qed.
Lemma split_lines_one n l : length l <= n -> Forall one_line (split_crlf l) /\ join_lines (split_crlf l) = l.
Proof.
  revert l. induction n as [|n IH]; intros l L; (destruct l as [|c l]; [split; [repeat constructor|done]|]); [cbn in L; lia|].
  cbn in L. rewrite split_crlf_cons. destruct l as [|d l]; [split; [repeat constructor|done]|]. case_match eqn:B.
  - bool_prop. destruct (IH l ltac:(cbn in L; lia)) as [F J]. split; [by constructor|].
    destruct (split_crlf l) as [|v vs] eqn:E; [by apply split_crlf_nonempty in E|]. rewrite join_lines_cons, J by done. by subst.
  - destruct (IH (d :: l) ltac:(lia)) as [F J]. destruct (split_crlf (d :: l)) as [|w ws] eqn:E; [by apply split_crlf_nonempty in E|].
    cbn [put_first]. apply Forall_cons in F as [O F]. split; [constructor; [|done]|].
    + unfold one_line in *. rewrite split_crlf_cons. destruct w as [|x w]; [done|].
      apply split_crlf_head in E. cbn in E. injection E as <-. by rewrite B, O.
    + destruct ws; cbn [join_lines app] in *; by rewrite <- J.
Qed.
Lemma split_crlf_lines l : Forall one_line (split_crlf l).
Proof. by apply (split_lines_one (length l)). Qed.

Lemma no_newline_line w : forallb (fun c => negb (is_newline c)) w = true -> one_line w.
Proof.
  induction w as [|c w IH]; [done|]. cbn. intros H. apply andb_true_iff in H as [C W]. unfold one_line in *. rewrite split_crlf_cons.
  destruct w as [|d w]; [done|]. unfold is_newline in C. bool_prop. rewrite bool_decide_eq_false_2 by done. cbn [andb]. by rewrite IH.
Qed.

(** ** What the SMTP server receives *)

(** A server reads lines until the one that is a single dot, and takes a leading
    dot away from every other (RFC 5321, 4.5.2). *)
Definition unstuff (line : list ascii) : list ascii := match line with "."%char :: l => l | _ => line end.
Fixpoint smtp_receive (lines : list (list ascii)) : option (list (list ascii) * list (list ascii)) :=
  match lines with
  | [] => None
  | line :: rest =>
      if bool_decide (line = ["."%char]) then Some ([], rest)
      else '(message, next) ← smtp_receive rest; Some (unstuff line :: message, next)
  end.

Lemma stuff_line_one w : one_line w -> one_line (stuff_line w).
Proof.
  intros O. unfold stuff_line. destruct w as [|c w]; [done|].
  assert (Forall one_line (put_first "."%char [c :: w])) as F by (apply put_first_lines; [done|by constructor]).
  apply Forall_cons in F as [F _]. by destruct c as [[] [] [] [] [] [] [] []].
Qed.
Lemma unstuff_stuff w : unstuff (stuff_line w) = w.
Proof. destruct w as [|[[] [] [] [] [] [] [] []] w]; done. Qed.
Lemma stuffed_not_dot w : stuff_line w <> ["."%char].
Proof. destruct w as [|[[] [] [] [] [] [] [] []] w]; done. Qed.
Lemma smtp_receive_stuffed ls next : smtp_receive (map stuff_line ls ++ ["."%char] :: next) = Some (ls, next).
Proof.
  induction ls as [|w ls IH]; [done|]. cbn [map app smtp_receive].
  rewrite bool_decide_eq_false_2, IH by apply stuffed_not_dot. cbn. by rewrite unstuff_stuff.
Qed.

(** what the tool writes after DATA is received as exactly the lines of the
    message, with line ends as CR LF, and the reading of the server ends where the
    tool stops: a line of the message that is a single dot does not end it, and
    nothing of the message is left over to be taken for a command. *)
Theorem smtp_data_received body :
  smtp_receive (split_crlf (chars (dotStuffSmtpBody body +:+ crlf +:+ "." +:+ crlf))) =
  Some (split_crlf (chars (to_crlf body)), [[]]).
Proof.
  unfold dotStuffSmtpBody. set (ls := split_crlf (chars (to_crlf body))).
  rewrite !chars_app, chars_join_crlf. rewrite map_map. rewrite (map_ext _ id) by (intros; apply chars_of_chars). rewrite map_id.
  assert (Forall one_line (map stuff_line ls)) as F.
  { apply Forall_map, (Forall_impl _ _ _ (split_crlf_lines _)), stuff_line_one. }
  assert (map stuff_line ls <> []) as N by (unfold ls; intros E%map_eq_nil; by apply split_crlf_nonempty in E).
  transitivity (smtp_receive (map stuff_line ls ++ [["."%char]; []])); [|apply smtp_receive_stuffed]. f_equal.
  assert (forall k, k <> [] -> join_lines k ++ CR :: LF :: ["."%char; CR; LF] = join_lines (k ++ [["."%char]; []])) as J.
  { intros k. induction k as [|w [|v k] IH]; [done|done|]. intros _. change ((w :: v :: k) ++ [["."%char]; []]) with (w :: ((v :: k) ++ [["."%char]; []])).
    rewrite (join_lines_cons w (v :: k)), (join_lines_cons w ((v :: k) ++ _)), <- IH by done. by rewrite <- app_assoc. }
  change (chars crlf ++ chars "." ++ chars crlf) with (CR :: LF :: ["."%char; CR; LF]). rewrite J by done.
  apply split_join_lines; [by destruct ls|]. apply Forall_app. split; [done|]. repeat constructor.
Qed.

(** ** The headers of the message *)

(** What a reader takes for the headers: the lines before the first empty one. *)
Fixpoint take_until {A} (stop : A -> bool) (l : list A) : list A :=
  match l with [] => [] | x :: l' => if stop x then [] else x :: take_until stop l' end.
Definition header_section (message : string) : list string :=
  map of_chars (take_until (fun w => bool_decide (w = [])) (split_crlf (chars message))).
Definition field_name (line : string) : string := of_chars (take_until (fun c => bool_decide (c = ":"%char)) (chars line)).

Definition flat (s : string) : Prop := forallb (fun c => negb (is_newline c)) (chars s) = true.
Lemma flat_app s t : flat s -> flat t -> flat (s +:+ t).
Proof. unfold flat. intros S T. by rewrite chars_app, forallb_app, S, T. Qed.
Lemma flat_trim s : flat s -> flat (trim s).
Proof.
  unfold flat, trim, trim_list. rewrite chars_of_chars, !forallb_forall. intros F c I. apply F.
  apply in_rev in I. destruct (drop_while_suffix is_ws (rev (drop_while is_ws (chars s)))) as (w & E & _).
  destruct (drop_while_suffix is_ws (chars s)) as (v & E' & _). rewrite E'. apply in_or_app. right.
  apply in_rev. rewrite E. apply in_or_app. by right.
Qed.
Lemma flat_sanitized value : flat (sanitizeHeaderValue value).
Proof.
  apply flat_trim. unfold flat, replace_runs. rewrite chars_of_chars.
  enough (forall b, forallb (fun c => negb (is_newline c)) (replace_runs_list is_newline [" "%char] b (chars value)) = true) as H by apply H.
  induction (chars value) as [|c l IH]; intros b; cbn [replace_runs_list]; [done|].
  destruct (is_newline c) eqn:N; [|cbn [forallb]; by rewrite N, IH]. rewrite forallb_app, IH. by destruct b.
Qed.
Lemma flat_join sep l : flat sep -> Forall flat l -> flat (join sep l).
Proof.
  intros S. unfold join. induction l as [|x [|y l] IH]; intros F; [done|by apply Forall_cons in F as [X _]|].
  apply Forall_cons in F as [X F]. change (flat (x +:+ (sep +:+ String.concat sep (y :: l)))). auto using flat_app.
Qed.
Lemma flat_sanitized_list l sep : flat sep -> flat (join sep (map sanitizeHeaderValue l)).
Proof. intros S. apply flat_join; [done|]. apply Forall_map, Forall_forall. intros x _. apply flat_sanitized. Qed.
Lemma flat_padded w z : flat (padded w z).
Proof.
  unfold flat. pose proof (padded_chars w z) as P. rewrite forallb_forall in *. intros c I. apply P in I.
  by destruct c as [[] [] [] [] [] [] [] []].
Qed.
Lemma flat_nth n l : Forall flat l -> flat (nth n l "").
Proof. revert n. induction l as [|x l IH]; intros [|n] F; try done; apply Forall_cons in F as [X F]; [done|by apply IH]. Qed.
Lemma flat_base64_char n : negb (is_newline (base64_char n)) = true.
Proof. do 64 (destruct n as [|n]; [reflexivity|]). unfold base64_char. rewrite nth_overflow; [reflexivity|cbn; lia]. Qed.
Lemma flat_base64 n l : length l <= n -> forallb (fun c => negb (is_newline c)) (base64_list l) = true.
Proof.
  revert l. induction n as [|n IH]; intros [|a [|b [|c l]]] L; cbn in L; try done; try lia.
  all: cbn [base64_list app forallb]; rewrite !flat_base64_char; try reflexivity. cbn [andb]. apply IH. lia.
Qed.
Lemma flat_encoded value : flat (encodeHeaderValue value).
Proof.
  unfold encodeHeaderValue. case_match; [done|]. case_match; [apply flat_sanitized|].
  apply flat_app; [done|]. apply flat_app; [|done]. unfold flat, to_base64. rewrite chars_of_chars. by eapply flat_base64.
Qed.
Lemma flat_date now : flat (toUTCString now).
Proof.
  unfold toUTCString. destruct (civil _) as [[y m] d].
  repeat apply flat_app; try apply flat_padded; try reflexivity; try by case_match.
  all: apply flat_nth; repeat constructor; reflexivity.
Qed.
#[export] Hint Resolve flat_sanitized flat_sanitized_list flat_encoded flat_date : t560.

Lemma flat_field name value : flat name -> flat value -> flat (field_line name value).
Proof. intros N V. unfold field_line. apply flat_app; [done|]. by apply flat_app. Qed.
Lemma flat_headers now p : Forall flat (mime_headers now p).
Proof.
  unfold mime_headers. repeat (apply Forall_app; split).
  - repeat (apply Forall_cons; split); try apply Forall_nil_2; apply flat_field; try reflexivity; auto with t560.
    by apply flat_sanitized_list.
  - case_match; [|by constructor]. apply Forall_singleton, flat_field; [done|]. by apply flat_sanitized_list.
  - case_match; [|by constructor]. apply Forall_singleton, flat_field; [done|]. auto with t560.
  - case_match; [|by constructor]. apply Forall_singleton, flat_field; [done|]. by apply flat_sanitized_list.
Qed.

Lemma split_join_app hs ls : Forall one_line hs -> ls <> [] ->
  split_crlf (join_lines (hs ++ ls)) = hs ++ split_crlf (join_lines ls).
Proof.
  intros F N. induction hs as [|w hs IH]; [done|]. apply Forall_cons in F as [O F]. cbn [app].
  rewrite join_lines_cons, split_app_line, IH; [done|done|done|]. by destruct hs.
Qed.
Lemma take_until_stop {A} (stop : A -> bool) hs x ls : Forall (fun h => stop h = false) hs -> stop x = true ->
  take_until stop (hs ++ x :: ls) = hs.
Proof. intros F X. induction hs as [|h hs IH]; cbn; [by rewrite X|]. apply Forall_cons in F as [-> F]. by rewrite IH. Qed.
Lemma header_section_join hs body : Forall flat hs -> Forall (fun h => h <> "") hs -> body <> [] ->
  header_section (join crlf (hs ++ "" :: body)) = hs.
Proof.
  intros F N B. unfold header_section. rewrite chars_join_crlf, map_app, split_join_app.
  - cbn [map]. rewrite join_lines_cons by (by destruct body). rewrite (split_app_line []) by done.
    rewrite take_until_stop; [|apply Forall_map, (Forall_impl _ _ _ N)|done].
    + rewrite map_map. rewrite (map_ext _ id) by (intros; apply of_chars_chars). apply map_id.
    + intros h H. apply bool_decide_eq_false_2. by rewrite chars_nil.
  - apply Forall_map, (Forall_impl _ _ _ F). intros h. apply no_newline_line.
  - done.
Qed.

(** The fields of a message, by what it has. *)
Definition expected_fields (p : Mail) : list string :=
  ["Date"; "From"; "To"; "Subject"; "Message-ID"; "MIME-Version"] ++
  (if 0 <? length (mail_cc p) then ["Cc"] else []) ++
  (if truthy (trim (mail_inReplyTo p)) then ["In-Reply-To"] else []) ++
  (if 0 <? length (mail_references p) then ["References"] else []) ++
  ["Content-Type"] ++ (if truthy (mail_html p) && truthy (mail_text p) then [] else ["Content-Transfer-Encoding"]).

Lemma truthy_crlf s : truthy (to_crlf s) = truthy s.
Proof.
  destruct s as [|c s]; [done|]. unfold to_crlf. apply eq_iff_eq_true. rewrite !truthy_true. split; [done|]. intros _.
  intros E. apply (f_equal chars) in E. rewrite chars_of_chars in E. cbn in E. case_match; [done|].
  destruct (String.list_ascii_of_string s); [done|]. by case_match.
Qed.
Lemma field_line_name name value : forallb (fun c => negb (bool_decide (c = ":"%char))) (chars name) = true ->
  field_name (field_line name value) = name.
Proof.
  intros H. unfold field_name, field_line. rewrite !chars_app. change (chars ": ") with [":"; " "]%char. cbn [app].
  rewrite take_until_stop; [apply of_chars_chars| |done]. apply Forall_forall. intros c I.
  rewrite forallb_forall in H. apply list_elem_of_In, H in I. by apply negb_true_iff.
Qed.

(** whatever the text of its parts, a message has exactly the header fields
    the tool gives it, once each and in this order: a line break in a subject, an
    address or a reference adds no field and does not end the headers. *)
Theorem mail_fields_fixed now uuid p : flat uuid ->
  map field_name (header_section (buildMimeMessage now uuid p)) = expected_fields p /\
  mime_headers now p `prefix_of` header_section (buildMimeMessage now uuid p).
Proof.
  intros U. assert (exists content body, buildMimeMessage now uuid p = join crlf ((mime_headers now p ++ content) ++ "" :: body) /\
    body <> [] /\ Forall flat content /\
    map field_name content = ["Content-Type"] ++ (if truthy (mail_html p) && truthy (mail_text p) then [] else ["Content-Transfer-Encoding"]) /\
    Forall (fun h => h <> "") content) as (content & body & E & B & F & N & X).
  { unfold buildMimeMessage. rewrite !truthy_crlf. destruct (truthy (mail_html p)); [destruct (truthy (mail_text p))|].
    - eexists [_], _. rewrite <- app_assoc. split; [reflexivity|]. repeat split; try done.
      + apply Forall_singleton, flat_field; [done|]. repeat (apply flat_app; try done).
      + by constructor.
    - eexists (part_headers "html"), _. rewrite <- app_assoc. split; [reflexivity|]. repeat split; try done. all: by repeat constructor.
    - eexists (part_headers "plain"), _. rewrite <- app_assoc. split; [reflexivity|]. repeat split; try done. all: by repeat constructor. }
  rewrite E, header_section_join; [|apply Forall_app; split; [apply flat_headers|done]| |done].
  - split; [|by eexists]. rewrite map_app, N. unfold expected_fields, mime_headers. rewrite !map_app. cbn [map].
    rewrite !field_line_name by reflexivity.
    repeat case_match; cbn [map]; rewrite ?field_line_name by reflexivity; reflexivity.
  - apply Forall_app. split; [|done]. unfold mime_headers. repeat (apply Forall_app; split); repeat case_match; by repeat constructor.
Qed.
Lemma mail_fields_fixed_witness :
  let p := mkMail "a@b.c" ["x@y.z"] [] (of_chars (chars "Hi" ++ [CR; LF] ++ chars "Bcc: all@y.z" ++ [CR; LF; CR; LF] ++ chars "body")) "t" "" "" [] "<1@b.c>" in
  map field_name (header_section (buildMimeMessage 0 "u" p)) =
  ["Date"; "From"; "To"; "Subject"; "Message-ID"; "MIME-Version"; "Content-Type"; "Content-Transfer-Encoding"].
Proof. intros p. apply (mail_fields_fixed 0 "u" p). reflexivity. Defined.
