(* ===== verification/MailWire.v ===== *)
(** * Mail connections

    src/src/agents/tools/email-tool.ts, the classes [BufferedSocket],
    [ImapSession] and [SmtpSession].  A connection is its receive buffer, what is
    still going to arrive ([incoming], any list of events: a silent peer is an
    empty one, which is where a wait times out) and the log of what was written,
    each write with whether the channel was encrypted; the counter of IMAP tags is
    kept with it.  Data that arrives before
    it is waited for is part of the event before it.

    Methods are computations [io] over the connection that return or throw. *)

From stdpp Require Import base list strings pretty.
From Stdlib Require Import ZArith Ascii Lia.
From S2P Require Import Prelude JsString JsMap JsValue JsRegex JsRegexExec MemoryStore MailText.

Definition MAX_IMAP_COMMAND_LINES : nat := 2000.
Definition MAX_IMAP_LITERAL_BYTES : Z := 8000000.
Definition MAX_SMTP_RESPONSE_LINES : nat := 500.

(** ** Connections *)

Inductive event := Data (chunk : list ascii) | Ended | Failed (message : string).
Record write := mkWrite { encrypted : bool; written : string }.
Record conn := mkConn {
  buffer : list ascii; ended : bool; failed : option string; incoming : list event;
  secure_now : bool; log : list write; closed : bool; tagCounter : nat }.
(** [new BufferedSocket(socket)] *)
Definition open_conn (secure : bool) (incoming : list event) (log : list write) : conn :=
  mkConn [] false None incoming secure log false 1.

Definition set_buffer (b : list ascii) (c : conn) : conn :=
  mkConn b (ended c) (failed c) (incoming c) (secure_now c) (log c) (closed c) (tagCounter c).
(** The listeners of the socket. *)
Definition deliver (e : event) (rest : list event) (c : conn) : conn :=
  match e with
  | Data chunk => mkConn (buffer c ++ chunk) (ended c) (failed c) rest (secure_now c) (log c) (closed c) (tagCounter c)
  | Ended => mkConn (buffer c) true (failed c) rest (secure_now c) (log c) (closed c) (tagCounter c)
  | Failed m => mkConn (buffer c) true (Some m) rest (secure_now c) (log c) (closed c) (tagCounter c)
  end.

Definition io (A : Type) : Type := conn -> result A * conn.
Definition ret {A} (a : A) : io A := fun c => (Ok a, c).
Definition throw {A} (m : string) : io A := fun c => (Throw m, c).
Definition iobind {A B} (m : io A) (k : A -> io B) : io B := fun c =>
  match m c with (Ok a, c') => k a c' | (Throw e, c') => (Throw e, c') end.
Notation "'do' x <- m ; k" := (iobind m (fun x => k)) (at level 60, x pattern, m at level 55, k at level 60, right associativity) : t560_scope.
(** [try m finally f], for an [f] that does not throw. *)
Definition finally {A} (m : io A) (f : conn -> conn) : io A := fun c => let '(r, c') := m c in (r, f c').
(** [m.catch(() => undefined)] *)
Definition ignore {A} (m : io A) : io unit := fun c => (Ok tt, (m c).2).

Definition writeRaw (raw : string) : io unit := fun c =>
  (Ok tt, mkConn (buffer c) (ended c) (failed c) (incoming c) (secure_now c) (log c ++ [mkWrite (secure_now c) raw]) (closed c) (tagCounter c)).
Definition writeLine (line : string) : io unit := writeRaw (line +:+ crlf).
Definition close (c : conn) : conn :=
  mkConn (buffer c) (ended c) (failed c) (incoming c) (secure_now c) (log c) true (tagCounter c).

Definition waitForData (minBufferLength : Z) : io unit := fun c =>
  if (Z.max 0 minBufferLength <=? Z.of_nat (length (buffer c)))%Z || ended c || (if failed c then true else false) then (Ok tt, c)
  else match incoming c with
       | [] => (Throw "Timed out waiting for remote server response.", c)
       | e :: rest => let c' := deliver e rest c in
                      match failed c' with Some m => (Throw m, c') | None => (Ok tt, c') end
       end.

Section Wire.
Variable from_utf8 : list ascii -> string.

(** Each wait that returns has taken an event, so the loop ends. *)
Fixpoint read_line (fuel : nat) : io string := fun c =>
  match list_index [CR; LF] (buffer c) with
  | Some idx => (Ok (from_utf8 (firstn idx (buffer c))), set_buffer (skipn (idx + 2) (buffer c)) c)
  | None =>
      match failed c with
      | Some m => (Throw m, c)
      | None =>
          if ended c then
            if bool_decide (buffer c = []) then (Throw "Connection closed by remote server.", c)
            else (Ok (from_utf8 (buffer c)), set_buffer [] c)
          else (do _ <- waitForData (Z.of_nat (length (buffer c)) + 1);
                match fuel with 0 => throw "" | S fuel => read_line fuel end) c
      end
  end.
Definition readLine : io string := fun c => read_line (length (incoming c)) c.

Fixpoint read_bytes (fuel : nat) (need : Z) : io (list ascii) := fun c =>
  if (need <=? Z.of_nat (length (buffer c)))%Z then
    (Ok (firstn (Z.to_nat need) (buffer c)), set_buffer (skipn (Z.to_nat need) (buffer c)) c)
  else match failed c with
       | Some m => (Throw m, c)
       | None =>
           if ended c then (Throw "Connection closed before literal data was fully received.", c)
           else (do _ <- waitForData need; match fuel with 0 => throw "" | S fuel => read_bytes fuel need end) c
       end.
Definition readBytes (length_ : Z) : io (list ascii) := fun c => read_bytes (length (incoming c)) (Z.max 0 length_) c.
Definition consumeOptionalCrlf : io unit := fun c =>
  (Ok tt, match buffer c with
          | a :: b :: rest => if bool_decide (a = CR) && bool_decide (b = LF) then set_buffer rest c else c
          | _ => c
          end).

(** ** IMAP *)

Inductive ImapResponsePart := Line (line : string) | Literal (line : string) (data : list ascii).
Definition part_line (p : ImapResponsePart) : string := match p with Line l => l | Literal l _ => l end.
Record ImapResponse := mkResponse { status : string; statusLine : string; parts : list ImapResponsePart }.

Definition num_Z (n : num) : Z := match num_floor n with NFin z _ => z | _ => 0 end.
Definition LITERAL : rx := re_ "\{(\d+)\}$".
Definition literal_length (line : string) : option Z :=
  option_map (fun digits => num_Z (clampInt (VStr digits) 0 50000000 (NInt 0))) (capture 1 LITERAL line).

(** One turn of the loop: a line and the literal it announces. *)
Definition read_part (command : string) (got : list ImapResponsePart) (literalBytesRead : Z) : io (string * list ImapResponsePart * Z) :=
  do line <- readLine;
  let got := got ++ [Line line] in
  match literal_length line with
  | None => ret (line, got, literalBytesRead)
  | Some n =>
      let total := (literalBytesRead + n)%Z in
      if (MAX_IMAP_LITERAL_BYTES <? total)%Z then throw ("IMAP " +:+ command +:+ " response exceeded 8000000 literal bytes.")
      else
        do data <- readBytes n;
        do _ <- consumeOptionalCrlf;
        ret (line, got ++ [Literal line data], total)
  end.
(** The loop over the lines; the fuel is the number of lines it allows. *)
Fixpoint read_response (fuel : nat) (tag command : string) (got : list ImapResponsePart) (literalBytesRead : Z) : io ImapResponse :=
  match fuel with
  | 0 => throw ("IMAP " +:+ command +:+ " response exceeded 2000 lines.")
  | S fuel =>
      do (line, got, total) <- read_part command got literalBytesRead;
      if startsWith (tag +:+ " ") line then
        ret (mkResponse (toUpperCase (default "" (head (words (trim (slice_from (slen tag + 1) line)))))) line got)
      else read_response fuel tag command got total
  end.
Definition imap_tag (n : nat) : string := let s := pretty n in "A" +:+ pad_zeros (4 - slen s) s.
Definition nextTag : io string := fun c =>
  (Ok (imap_tag (tagCounter c)),
   mkConn (buffer c) (ended c) (failed c) (incoming c) (secure_now c) (log c) (closed c) (S (tagCounter c))).
Definition imap_command (command : string) : io ImapResponse :=
  do tag <- nextTag;
  do _ <- writeLine (tag +:+ " " +:+ command);
  read_response MAX_IMAP_COMMAND_LINES tag command [] 0.
(** [command] and [assertOk] *)
Definition imap_ok (command context : string) : io ImapResponse :=
  do r <- imap_command command;
  if (status r =? "OK")%string then ret r else throw ("IMAP " +:+ context +:+ " failed: " +:+ statusLine r).

Definition quoteImapString (value : string) : string :=
  quote_mark +:+ of_chars (flat_map (fun c => if bool_decide (c = "\"%char) then [c; c]
                                             else if bool_decide (c = ascii_of_nat 34) then ["\"%char; c] else [c]) (chars value)) +:+ quote_mark.

Definition GREETING : rx := re_i "^\*\s+(OK|PREAUTH)\b".
Definition imap_connect (host : string) (port : Z) : io unit :=
  do greeting <- readLine;
  if test GREETING greeting then ret tt
  else fun c => (Throw ("Unexpected IMAP greeting from " +:+ host +:+ ":" +:+ pretty port +:+ "."), close c).

Definition imap_login (identifier secret : string) : io ImapResponse :=
  imap_ok ("LOGIN " +:+ quoteImapString identifier +:+ " " +:+ quoteImapString secret) "LOGIN".
Definition imap_select (mailbox : string) : io ImapResponse := imap_ok ("SELECT " +:+ quoteImapString mailbox) "SELECT".

Definition SEARCH : rx := re_i "^\*\s+SEARCH\s*(.*)$".
Definition positive_int (s : string) : option Z :=
  let n := num_of_string s in if isInteger n && num_lt (NInt 0) n then Some (num_Z n) else None.
Definition line_ids (p : ImapResponsePart) : list Z :=
  match p with
  | Literal _ _ => []
  | Line line => match capture 1 SEARCH line with Some nums => omap positive_int (splitBy (re_ "\s+") nums) | None => [] end
  end.
Definition search_ids (ps : list ImapResponsePart) : list Z := stable_sort Z.ltb (dedup (flat_map line_ids ps)).
Definition imap_search (criteria : string) : io (list Z) :=
  do r <- imap_ok ("SEARCH " +:+ criteria) "SEARCH"; ret (search_ids (parts r)).

(** *** Fetched messages *)

Record ParsedMessage := mkParsed {
  sequence : Z; uid : option Z; msg_flags : list string; internalDate : string; size : Z; headersRaw : string; bodyRaw : string }.
Definition new_message (seq : Z) : ParsedMessage := mkParsed seq None [] "" 0 "" "".
Definition set_uid (o : option Z) (m : ParsedMessage) : ParsedMessage :=
  match o with Some _ => mkParsed (sequence m) o (msg_flags m) (internalDate m) (size m) (headersRaw m) (bodyRaw m) | None => m end.
Definition set_size (o : option Z) (m : ParsedMessage) : ParsedMessage :=
  match o with Some z => mkParsed (sequence m) (uid m) (msg_flags m) (internalDate m) z (headersRaw m) (bodyRaw m) | None => m end.
Definition set_date (o : option string) (m : ParsedMessage) : ParsedMessage :=
  match o with Some d => mkParsed (sequence m) (uid m) (msg_flags m) d (size m) (headersRaw m) (bodyRaw m) | None => m end.
Definition set_flags (o : option (list string)) (m : ParsedMessage) : ParsedMessage :=
  match o with Some f => mkParsed (sequence m) (uid m) f (internalDate m) (size m) (headersRaw m) (bodyRaw m) | None => m end.
Definition set_headers (h : string) (m : ParsedMessage) : ParsedMessage :=
  mkParsed (sequence m) (uid m) (msg_flags m) (internalDate m) (size m) h (bodyRaw m).
Definition set_body (b : string) (m : ParsedMessage) : ParsedMessage :=
  mkParsed (sequence m) (uid m) (msg_flags m) (internalDate m) (size m) (headersRaw m) b.

Definition FETCH : rx := re_i "^\*\s+(\d+)\s+FETCH\b".
Definition extractFetchSequence (line : string) : option Z := d ← capture 1 FETCH line; positive_int d.
Definition ensureParsedMessage (rows : list (Z * ParsedMessage)) (seq : Z) : ParsedMessage := default (new_message seq) (mget seq rows).
Definition INTERNALDATE : rx := re_i ("\bINTERNALDATE\s+" +:+ quote_mark +:+ "([^" +:+ quote_mark +:+ "]+)" +:+ quote_mark).
(** A size is a text of digits, hence an integer that is not negative. *)
Definition read_attributes (line : string) (m : ParsedMessage) : ParsedMessage :=
  set_flags (option_map parseFlags (capture 1 (re_i "\bFLAGS\s+\(([^)]*)\)") line))
    (set_date (capture 1 INTERNALDATE line)
      (set_size (option_map (fun d => num_Z (num_of_string d)) (capture 1 (re_i "\bRFC822\.SIZE\s+(\d+)\b") line))
        (set_uid (d ← capture 1 (re_i "\bUID\s+(\d+)\b") line; positive_int d) m))).
Definition read_literal (p : ImapResponsePart) (m : ParsedMessage) : ParsedMessage :=
  match p with
  | Line _ => m
  | Literal line data =>
      if test (re_i "BODY\[HEADER") line then set_headers (from_utf8 data) m
      else if test (re_i "BODY\[(TEXT|\])") line || test (re_i "\bRFC822\b") line then set_body (from_utf8 data) m
      else m
  end.
Definition fetch_step (p : ImapResponsePart) (rows : list (Z * ParsedMessage)) : list (Z * ParsedMessage) :=
  match extractFetchSequence (part_line p) with
  | None => rows
  | Some seq => mset seq (read_literal p (read_attributes (part_line p) (ensureParsedMessage rows seq))) rows
  end.
Definition newest_first (l : list ParsedMessage) : list ParsedMessage := stable_sort (fun a b => (sequence b <? sequence a)%Z) l.
Definition parseFetchedMessages (ps : list ImapResponsePart) : list ParsedMessage :=
  newest_first (values (fold_left (fun rows p => fetch_step p rows) ps [])).

Definition imap_fetchHeaders (seqSet : string) : io (list ParsedMessage) :=
  do r <- imap_ok ("FETCH " +:+ seqSet +:+ " (UID FLAGS INTERNALDATE RFC822.SIZE BODY.PEEK[HEADER.FIELDS (SUBJECT FROM TO DATE MESSAGE-ID IN-REPLY-TO REFERENCES)])") "FETCH headers";
  ret (parseFetchedMessages (parts r)).
Definition imap_fetchBodies (seqSet : string) (bodyChars : nat) : io (list ParsedMessage) :=
  do r <- imap_ok ("FETCH " +:+ seqSet +:+ " (BODY.PEEK[TEXT]<0." +:+ pretty bodyChars +:+ ">)") "FETCH body";
  ret (parseFetchedMessages (parts r)).
Definition imap_markSeen (seqSet : string) : io ImapResponse := imap_ok ("STORE " +:+ seqSet +:+ " +FLAGS (\Seen)") "STORE".
Definition imap_logout : io ImapResponse := finally (imap_command "LOGOUT") close.

(** ** SMTP *)

Record SmtpResponse := mkReply { reply_code : Z; reply_lines : list string }.
Definition REPLY : rx := re_ "^(\d{3})([\s-])(.*)$".
Fixpoint read_reply (fuel : nat) (got : list string) : io SmtpResponse :=
  match fuel with
  | 0 => throw "SMTP response exceeded 500 lines."
  | S fuel =>
      do line <- readLine;
      let got := got ++ [line] in
      match exec REPLY line with
      | Some m => if (group 2 m =? " ")%string then ret (mkReply (num_Z (num_of_string (group 1 m))) got) else read_reply fuel got
      | None => read_reply fuel got
      end
  end.
Definition readResponse : io SmtpResponse := read_reply MAX_SMTP_RESPONSE_LINES [].
Definition smtp_command (command : string) (expectedCodes : list Z) : io SmtpResponse :=
  do _ <- writeLine command;
  do r <- readResponse;
  if bool_decide (reply_code r ∈ expectedCodes) then ret r
  else throw ("SMTP command failed (" +:+ pretty (reply_code r) +:+ "): " +:+ join " | " (reply_lines r)).

(** [tls.connect] over the connection: the reader starts with an empty buffer. *)
Definition upgradeToTls (handshake : result (list event)) : io unit := fun c =>
  match handshake with
  | Throw m => (Throw m, c)
  | Ok incoming => (Ok tt, open_conn true incoming (log c))
  end.
Definition smtp_connect (secure startTls : bool) (handshake : result (list event)) : io unit :=
  do greeting <- readResponse;
  if negb (reply_code greeting =? 220)%Z then fun c => (Throw ("SMTP greeting failed (" +:+ pretty (reply_code greeting) +:+ ")."), close c)
  else
    do _ <- smtp_command "EHLO localhost" [250%Z];
    if negb secure && startTls then
      do _ <- smtp_command "STARTTLS" [220%Z];
      do _ <- upgradeToTls handshake;
      do _ <- smtp_command "EHLO localhost" [250%Z];
      ret tt
    else ret tt.
(** [Buffer.from(text, "utf-8")]; a credential without the field has no text. *)
Definition buffer_from (text : option string) : io (list ascii) :=
  match text with
  | Some s => ret (to_utf8 s)
  | None => throw "The first argument must be of type string or an instance of Buffer, ArrayBuffer, or Array or an Array-like Object. Received undefined"
  end.
Definition authenticateLogin (identifier secret : option string) : io unit :=
  do _ <- smtp_command "AUTH LOGIN" [334%Z];
  do user <- buffer_from identifier;
  do _ <- smtp_command (to_base64 user) [334%Z];
  do pass <- buffer_from secret;
  do _ <- smtp_command (to_base64 pass) [235%Z];
  ret tt.

Fixpoint each_recipient (recipients : list string) : io unit :=
  match recipients with
  | [] => ret tt
  | r :: rest => do _ <- smtp_command ("RCPT TO:<" +:+ r +:+ ">") [250%Z; 251%Z]; each_recipient rest
  end.
Definition message_id (uuid from : string) : string := "<" +:+ uuid +:+ "@" +:+ or_text (parseDomainFromEmailAddress from) "t560.local" +:+ ">".
(** [id_uuid] and [part_uuid] are the two calls of [randomUUID]. *)
Definition sendMail (now : Z) (id_uuid part_uuid from : string) (to cc bcc : list string) (subject text html inReplyTo : string)
    (references : list string) : io (string * list string) :=
  let recipients := to ++ cc ++ bcc in
  if length recipients =? 0 then throw "At least one recipient is required."
  else
    do _ <- smtp_command ("MAIL FROM:<" +:+ from +:+ ">") [250%Z];
    do _ <- each_recipient recipients;
    do _ <- smtp_command "DATA" [354%Z];
    let messageId := message_id id_uuid from in
    let data := buildMimeMessage now part_uuid (mkMail from to cc subject text html inReplyTo references messageId) in
    do _ <- writeRaw (dotStuffSmtpBody data +:+ crlf +:+ "." +:+ crlf);
    do r <- readResponse;
    if negb (reply_code r =? 250)%Z then throw ("SMTP DATA failed (" +:+ pretty (reply_code r) +:+ "): " +:+ join " | " (reply_lines r))
    else ret (messageId, recipients).
Definition smtp_quit : io SmtpResponse := finally (smtp_command "QUIT" [221%Z; 250%Z]) close.
End Wire.

(** ** Reasoning about connections *)

(** [m] keeps [P]. *)
Definition keeps {A} (P : conn -> Prop) (m : io A) : Prop := forall c, P c -> P (m c).2.
Section Keeps.
Context (P : conn -> Prop).
Lemma wire_keeps_ret {A} (a : A) : keeps P (ret a).
Proof. by intros c. Qed.
Lemma wire_keeps_throw {A} m : keeps P (throw (A := A) m).
Proof. by intros c. Qed.
Lemma wire_keeps_bind {A B} (m : io A) (k : A -> io B) : keeps P m -> (forall a, keeps P (k a)) -> keeps P (iobind m k).
Proof. intros M K c H. unfold iobind. specialize (M c H). destruct (m c) as [[a|e] c']; cbn in *; [by apply K|done]. Qed.
Lemma keeps_finally {A} (m : io A) f : keeps P m -> (forall c, P c -> P (f c)) -> keeps P (finally m f).
Proof. intros M F c H. unfold finally. specialize (M c H). destruct (m c) as [r c']. by apply F. Qed.
End Keeps.
#[export] Hint Resolve wire_keeps_ret wire_keeps_throw : t560.
(** Goes through the binds of a computation. *)
Ltac keep_step :=
  first [ apply wire_keeps_ret | apply wire_keeps_throw
        | apply wire_keeps_bind; [|intros ?]
        | match goal with |- keeps _ (match ?x with _ => _ end) => destruct x end ].

(** Reading does not write, close or change the channel. *)
Record reads_only (c c' : conn) : Prop := {
  ro_log : log c' = log c; ro_closed : closed c' = closed c; ro_secure : secure_now c' = secure_now c; ro_tag : tagCounter c' = tagCounter c }.
Definition reader {A} (m : io A) : Prop := forall c, reads_only c (m c).2.
#[export] Instance reads_only_pre : PreOrder reads_only.
Proof. split; [by intros c; split|]. intros a b c [] []. split; congruence. Qed.
Lemma reader_bind {A B} (m : io A) (k : A -> io B) : reader m -> (forall a, reader (k a)) -> reader (iobind m k).
Proof. intros M K c. unfold iobind. specialize (M c). destruct (m c) as [[a|e] c']; cbn in *; [|done]. etrans; [done|apply K]. Qed.
Lemma reader_ret {A} (a : A) : reader (ret a).
Proof. by intros c; split. Qed.
Lemma reader_throw {A} m : reader (throw (A := A) m).
Proof. by intros c; split. Qed.
Lemma reader_wait n : reader (waitForData n).
Proof.
  intros c. unfold waitForData. destruct (_ || _); [by split|]. destruct (incoming c) as [|[] rest]; [by split|..]; cbn.
  all: by destruct (failed c); split.
Qed.

Section Readers.
Variable from_utf8 : list ascii -> string.
Notation read_line := (read_line from_utf8).
Lemma reader_read_line fuel : reader (read_line fuel).
Proof.
  induction fuel as [|fuel IH]; intros c; cbn [MailWire.read_line];
    (case_match; [by split|]); (case_match; [by split|]); (case_match; [by case_match; split|]);
    apply reader_bind; try apply reader_wait; intros _; [apply reader_throw|exact IH].
Qed.
Lemma reader_readLine : reader (readLine from_utf8).
Proof. intros c. apply reader_read_line. Qed.
Lemma reader_read_bytes fuel need : reader (read_bytes fuel need).
Proof.
  induction fuel as [|fuel IH]; intros c; cbn [read_bytes];
    (case_match; [by split|]); (case_match; [by split|]); (case_match; [by split|]);
    apply reader_bind; try apply reader_wait; intros _; [apply reader_throw|exact IH].
Qed.
Lemma reader_consume : reader consumeOptionalCrlf.
Proof. intros c. unfold consumeOptionalCrlf. cbn. repeat case_match; by split. Qed.
Lemma reader_part command got n : reader (read_part from_utf8 command got n).
Proof.
  apply reader_bind; [apply reader_readLine|]. intros line. cbv zeta. case_match; [|apply reader_ret].
  case_match; [apply reader_throw|].
  apply reader_bind; [intros c; apply reader_read_bytes|]. intros data. apply reader_bind; [apply reader_consume|]. intros _. apply reader_ret.
Qed.
Lemma reader_response fuel tag command got n : reader (read_response from_utf8 fuel tag command got n).
Proof.
  revert got n. induction fuel as [|fuel IH]; intros got n; [apply reader_throw|].
  apply reader_bind; [apply reader_part|]. intros [[line got'] total]. case_match; [apply reader_ret|apply IH].
Qed.
Lemma reader_reply fuel got : reader (read_reply from_utf8 fuel got).
Proof.
  revert got. induction fuel as [|fuel IH]; intros got; [apply reader_throw|].
  apply reader_bind; [apply reader_readLine|]. intros line. cbv zeta. case_match; [case_match|]; [apply reader_ret|apply IH|apply IH].
Qed.
End Readers.

(** *** What is written *)

(** Every write is over TLS or is allowed in the clear; the channel is now
    encrypted, if [now_secure]. *)
Record guarded (clear : list string) (now_secure : bool) (c : conn) : Prop := {
  gd_log : Forall (fun w => encrypted w = true \/ written w ∈ clear) (log c);
  gd_now : now_secure = true -> secure_now c = true }.
Lemma guarded_reads clear b c c' : reads_only c c' -> guarded clear b c -> guarded clear b c'.
Proof. intros [L _ S _] [F N]. split; [by rewrite L|by rewrite S]. Qed.
Lemma guarded_reader {A} (m : io A) clear b : reader m -> keeps (guarded clear b) m.
Proof. intros R c. apply guarded_reads, R. Qed.
Lemma guarded_write clear b raw : b = true \/ raw ∈ clear -> keeps (guarded clear b) (writeRaw raw).
Proof.
  intros H c [F N]. split; [|done]. cbn. apply Forall_app. split; [done|]. apply Forall_singleton. cbn.
  destruct H as [->|H]; [left; by apply N|by right].
Qed.
Lemma guarded_close clear b c : guarded clear b c -> guarded clear b (close c).
Proof. intros [F N]. by split. Qed.
Lemma guarded_tag clear b : keeps (guarded clear b) nextTag.
Proof. intros c [F N]. by split. Qed.

Section Guarded.
Variable from_utf8 : list ascii -> string.
Variable clear : list string.
Notation safe := (guarded clear true).
Lemma safe_imap_command command : keeps safe (imap_command from_utf8 command).
Proof.
  apply wire_keeps_bind; [apply guarded_tag|]. intros tag. apply wire_keeps_bind; [apply guarded_write; by left|]. intros _.
  apply guarded_reader, reader_response.
Qed.
Lemma safe_imap_ok command context : keeps safe (imap_ok from_utf8 command context).
Proof. apply wire_keeps_bind; [apply safe_imap_command|]. intros r. case_match; auto with t560. Qed.
Lemma guarded_smtp_command b command codes : b = true \/ (command +:+ crlf) ∈ clear ->
  keeps (guarded clear b) (smtp_command from_utf8 command codes).
Proof.
  intros H. apply wire_keeps_bind; [by apply guarded_write|]. intros _. apply wire_keeps_bind; [apply guarded_reader, reader_reply|].
  intros r. case_match; auto with t560.
Qed.
Lemma safe_recipients rs : keeps safe (each_recipient from_utf8 rs).
Proof.
  induction rs as [|r rs IH]; [apply wire_keeps_ret|]. apply wire_keeps_bind; [|by intros _]. apply guarded_smtp_command. by left.
Qed.
End Guarded.
#[export] Hint Resolve safe_imap_ok safe_imap_command safe_recipients : t560.
