(* ===== verification/EmailTool.v ===== *)
(** * The email tool

    src/src/agents/tools/email-tool.ts: which server a mailbox has, which
    credential is used, and the tool's handler, over the sessions of [MailWire].
    The vault is used through [VaultService].  The network is an argument: what
    connecting to a server gives, and what the TLS upgrade of a connection gives
    ([Network]). *)

From stdpp Require Import base list strings pretty.
From Stdlib Require Import ZArith Ascii Lia.
From S2P Require Import Prelude JsString JsMap JsValue JsRegex JsRegexExec Vault SetupFlow MemoryStore MemoryTools.
From S2P Require Import MailText MailWire.

Inductive EmailAction := status_ | list_unread | read_unread | read_recent | send.
#[export] Instance EmailAction_eq : EqDecision EmailAction.
Proof. solve_decision. Defined.
Definition action_name (a : EmailAction) : string :=
  match a with status_ => "status" | list_unread => "list_unread" | read_unread => "read_unread" | read_recent => "read_recent" | send => "send" end.

Definition DEFAULT_TIMEOUT_MS : Z := 20000.
Definition DEFAULT_IMAP_BODY_PREVIEW_CHARS : Z := 2500.
Definition DEFAULT_LIST_LIMIT : Z := 10.
Definition MAX_LIST_LIMIT : Z := 50.
Definition MAX_BODY_PREVIEW_CHARS : Z := 16000.

Record TransportSettings := mkTransport { host : string; port : Z; secure : bool; startTls : bool }.
Record ResolvedProviderConfig := mkProvider {
  providerId : string; label : string; loginUrl : string; protocolSupported : bool; notes : list string;
  imap : option TransportSettings; smtp : option TransportSettings }.

(** The fields of a credential; none of them is there on an object that is found
    on the prototype of the vault's table. *)
Record Credential := mkCredential {
  k_identifier : option string; k_secret : option string; k_authMode : option CredentialAuthMode; k_websiteUrl : option string }.
Definition of_record (r : StoredCredentialRecord) : Credential :=
  mkCredential (Some (identifier r)) (Some (secret r)) (Some (authMode r)) (websiteUrl r).
Definition hollow : Credential := mkCredential None None None None.

Definition isAuthErrorMessage (message : string) : bool :=
  let text := toLowerCase message in
  includes "auth" text || includes "authentication" text || includes "invalid credentials" text ||
  includes "login failed" text || includes "535" text.

Definition mapAction (v : value) : EmailAction :=
  let normalized := toLowerCase (trim (to_string (nullish v (VStr "status")))) in
  if bool_decide (normalized ∈ ["list_unread"; "unread"; "inbox"; "list"]) then list_unread
  else if bool_decide (normalized ∈ ["read_unread"; "read"]) then read_unread
  else if bool_decide (normalized ∈ ["read_recent"; "recent"]) then read_recent
  else if bool_decide (normalized ∈ ["send"; "send_email"; "compose"]) then send
  else status_.

(** ** The provider of a mailbox *)

Section Provider.
Variables (service : string) (credential : Credential) (overrides : value).
Notation given k := (get_prop k overrides).

Definition readPort (v : value) (fallback : Z) : Z := num_Z (clampInt v 1 65535 (NInt fallback)).
Definition site : string := default "" (k_websiteUrl credential).
Definition overrideImapHost : string := normalizeHost (given "imapHost").
Definition overrideSmtpHost : string := normalizeHost (given "smtpHost").
Definition imap_settings (h : string) : TransportSettings :=
  mkTransport h (readPort (given "imapPort") 993) (toBoolean (given "imapSecure") true) false.
Definition smtp_settings (h : string) (p : Z) (implicit_tls upgrade : bool) : TransportSettings :=
  mkTransport h (readPort (given "smtpPort") p) (toBoolean (given "smtpSecure") implicit_tls) (toBoolean (given "smtpStartTls") upgrade).

Definition buildCustom (domainHint : string) : ResolvedProviderConfig :=
  let domain := normalizeHost (VStr domainHint) in
  let imapHost := or_text overrideImapHost (if truthy domain then "imap." +:+ domain else "") in
  let smtpHost := or_text overrideSmtpHost (if truthy domain then "smtp." +:+ domain else "") in
  if negb (truthy imapHost) || negb (truthy smtpHost) then
    mkProvider "custom" "Custom" site false
      ["Cannot infer IMAP/SMTP hosts for this mailbox. Provide imapHost and smtpHost in the tool call, or configure a supported provider."]
      None None
  else mkProvider "custom" "Custom" site true [] (Some (imap_settings imapHost)) (Some (smtp_settings smtpHost 465 true false)).
Definition known (id lbl url imapHost smtpHost : string) (p : Z) (implicit_tls upgrade : bool) : ResolvedProviderConfig :=
  mkProvider id lbl url true [] (Some (imap_settings (or_text overrideImapHost imapHost)))
    (Some (smtp_settings (or_text overrideSmtpHost smtpHost) p implicit_tls upgrade)).

Definition resolveProviderConfig : ResolvedProviderConfig :=
  let service := normalizeHost (VStr service) in
  let websiteHost := normalizeHost (VStr site) in
  let emailDomain := parseDomainFromEmailAddress (default "" (k_identifier credential)) in
  let hint := toLowerCase (service +:+ " " +:+ websiteHost +:+ " " +:+ emailDomain) in
  let mentions := existsb (fun name => includes name hint) in
  let on_site name := (service =? name)%string in
  if mentions ["gmail"; "googlemail"] || on_site "mail.google.com" then
    known "gmail" "Gmail" "https://mail.google.com" "imap.gmail.com" "smtp.gmail.com" 465 true false
  else if mentions ["outlook"; "hotmail"; "live.com"; "office365"] || on_site "outlook.live.com" || on_site "outlook.office.com" then
    known "outlook" "Outlook/Microsoft" "https://outlook.live.com" "imap-mail.outlook.com" "smtp-mail.outlook.com" 587 false true
  else if mentions ["yahoo"] || on_site "mail.yahoo.com" then
    known "yahoo" "Yahoo Mail" "https://mail.yahoo.com" "imap.mail.yahoo.com" "smtp.mail.yahoo.com" 465 true false
  else if mentions ["icloud"; "me.com"; "mac.com"] then
    known "icloud" "iCloud Mail" "https://www.icloud.com/mail" "imap.mail.me.com" "smtp.mail.me.com" 587 false true
  else if mentions ["proton"] then
    if (0 <? slen overrideImapHost) && (0 <? slen overrideSmtpHost) then buildCustom overrideImapHost
    else mkProvider "proton" "Proton Mail" "https://mail.proton.me" false
           ["Direct IMAP/SMTP access requires Proton Bridge. Configure bridge host/ports via imapHost/smtpHost overrides, or use browser login."]
           None None
  else buildCustom (or_text websiteHost (or_text emailDomain service)).
End Provider.

(** ** The credential *)

Section Mailbox.
Context {W : Type} `{VaultService W}.

Definition seeds : list string := ["mail.google.com"; "outlook.live.com"; "mail.yahoo.com"; "mail.proton.me"; "icloud.com"; "email"].
Fixpoint first_mailbox (candidates : list string) (w : W) : result (string * Credential) :=
  match candidates with
  | [] => Throw "No mailbox credential found in vault. Add one in Setup -> Vault (type: Email inbox)."
  | s :: rest =>
      let? f := vs_get s w in
      match f with
      | NoRecord => first_mailbox rest w
      | Hollow => Throw "Cannot read properties of undefined (reading 'includes')"
      | Found r => if includes "@" (identifier r) then Ok (s, of_record r) else first_mailbox rest w
      end
  end.
Definition search_mailboxes (w : W) : result (string * Credential) * W :=
  match vs_list w with
  | Throw m => (Throw m, w)
  | Ok (w1, services) => (first_mailbox (dedup (List.filter truthy (omap vs_normalize seeds) ++ services)) w1, w1)
  end.
Definition resolveMailboxCredential (serviceRaw : value) (w : W) : result (string * Credential) * W :=
  match vs_normalize (to_string (nullish serviceRaw (VStr ""))) with
  | Some explicit =>
      match vs_get explicit w with
      | Throw m => (Throw m, w)
      | Ok (Found r) => (Ok (explicit, of_record r), w)
      | Ok Hollow => (Ok (explicit, hollow), w)
      | Ok NoRecord => search_mailboxes w
      end
  | None => search_mailboxes w
  end.

(** ** Answers *)

Definition text_or (o : option string) : string := default "" o.
Definition strings (l : list string) : value := VArr (map VStr l).
Definition buildBrowserFallback (action : EmailAction) (service : string) (credential : Credential) (provider : ResolvedProviderConfig)
    (reason : string) : value :=
  VObj [("ok", VBool false); ("action", VStr (action_name action)); ("requiresBrowserLogin", VBool true); ("reason", VStr reason);
        ("service", VStr service); ("identifier", VStr (maskIdentifier (text_or (k_identifier credential))));
        ("loginUrl", VStr (or_text (text_or (k_websiteUrl credential)) (loginUrl provider)));
        ("nextStep", VStr "Open the mailbox login page in browser (engine=live), then run browser action=login with this service. If prompted for MFA, run browser action=mfa with the code.")].
Definition int (z : Z) : value := VNum (NInt z).

Variables (from_utf8 : list ascii -> string) (from_base64 : string -> list ascii).

Definition shape_message (includeBody : bool) (maxSnippet : nat) (entry : ParsedMessage) : result value :=
  let? headers := parseRfc822Headers from_utf8 from_base64 (headersRaw entry) in
  let field name fallback := VStr (default fallback (first_header name headers)) in
  Ok (VObj [("sequence", int (sequence entry)); ("uid", match uid entry with Some z => int z | None => VNull end);
            ("flags", strings (msg_flags entry)); ("size", int (size entry)); ("date", field "date" (internalDate entry));
            ("from", field "from" ""); ("to", field "to" ""); ("subject", field "subject" "(no subject)");
            ("messageId", field "message-id" ""); ("inReplyTo", field "in-reply-to" "");
            ("references", strings (parseReferences (text_or (first_header "references" headers))));
            ("threadKey", VStr (messageThreadKey headers));
            ("snippet", VStr (if includeBody then compactText (bodyRaw entry) maxSnippet else ""))]).
Fixpoint shapeMessages (messages : list ParsedMessage) (includeBody : bool) (maxSnippet : nat) : result (list value) :=
  match messages with
  | [] => Ok []
  | m :: rest => let? v := shape_message includeBody maxSnippet m in let? vs := shapeMessages rest includeBody maxSnippet in Ok (v :: vs)
  end.

(** ** Reading a mailbox *)

Definition merge_body (row : ParsedMessage) (merged : list (Z * ParsedMessage)) : list (Z * ParsedMessage) :=
  match mget (sequence row) merged with
  | Some existing => mset (sequence row) (set_body (or_text (bodyRaw row) (bodyRaw existing)) existing) merged
  | None => mset (sequence row) row merged
  end.
Definition merge_headers (rows : list ParsedMessage) : list (Z * ParsedMessage) := fold_left (fun m row => mset (sequence row) row m) rows [].
Definition lift {A} (r : result A) : io A := fun c => (r, c).
Definition newest (limit : nat) (ids : list Z) : list Z := skipn (length ids - limit) ids.
Definition seq_set (ids : list Z) : string := join "," (map pretty ids).

Definition fetch_rows (ids : list Z) (includeBody markSeen : bool) (bodyMaxChars : nat) : io (list ParsedMessage) :=
  let seqSet := seq_set ids in
  do headerRows <- imap_fetchHeaders from_utf8 seqSet;
  let merged := merge_headers headerRows in
  do merged <- (if includeBody then
       do bodyRows <- imap_fetchBodies from_utf8 seqSet bodyMaxChars;
       ret (fold_left (fun m row => merge_body row m) bodyRows merged)
     else ret merged);
  do _ <- (if markSeen then do _ <- imap_markSeen from_utf8 seqSet; ret tt else ret tt);
  ret (newest_first (values merged)).

Record MailboxCall := mkCall {
  mc_action : EmailAction; mc_service : string; mc_provider : string; mc_mailbox : string; mc_limit : nat;
  mc_includeBody : bool; mc_markSeen : bool; mc_bodyMaxChars : nat }.
Definition read_mailbox (call : MailboxCall) (identifier secret : string) : io value :=
  do _ <- imap_login from_utf8 identifier secret;
  do _ <- imap_select from_utf8 (mc_mailbox call);
  do ids <- imap_search from_utf8 (if bool_decide (mc_action call = read_recent) then "ALL" else "UNSEEN");
  let head := [("ok", VBool true); ("action", VStr (action_name (mc_action call))); ("service", VStr (mc_service call));
               ("mailbox", VStr (mc_mailbox call)); ("provider", VStr (mc_provider call))] in
  if length ids =? 0 then ret (VObj (head ++ [("count", int 0); ("messages", VArr [])]))
  else
    do rows <- fetch_rows (newest (mc_limit call) ids) (mc_includeBody call) (mc_markSeen call) (mc_bodyMaxChars call);
    do shaped <- lift (shapeMessages rows (mc_includeBody call) (mc_bodyMaxChars call));
    ret (VObj (head ++ [("count", int (Z.of_nat (length rows))); ("markSeen", VBool (mc_markSeen call)); ("messages", VArr shaped)])).

(** ** The handler *)

(** [dial host port secure rejectUnauthorized] is what the new connection will
    receive, [handshake host rejectUnauthorized] what it will receive after the
    upgrade. *)
Record Network := mkNetwork {
  dial : string -> Z -> bool -> bool -> result (list event); handshake : string -> bool -> result (list event) }.
Variables (net : Network) (now : Z) (id_uuid part_uuid : string).

Definition toErrorMessage (message : string) : string :=
  if truthy (trim message) then trim message else if truthy message then "Error: " +:+ message else "Error".
(** The answer and the connection, if one was opened. *)
Definition outcome : Type := result value * option conn.
Definition answer (v : value) : outcome := (Ok v, None).
Definition fail (m : string) : outcome := (Throw m, None).

(** [try { body } catch { ... } finally { leave }] on a connection. *)
Definition session (connect : io unit) (body : io value) (leave : conn -> conn) (on_error : string -> result value) (c : conn) : outcome :=
  match connect c with
  | (Throw m, c1) => (Throw m, Some c1)
  | (Ok _, c1) =>
      let '(r, c2) := body c1 in
      (match r with Ok v => Ok v | Throw e => on_error (toErrorMessage e) end, Some (leave c2))
  end.

Section Call.
Variables (params : value) (service : string) (credential : Credential).
Notation given k := (get_prop k params).
Notation force := (toBoolean (given "forceProtocolLogin") false).
Notation fallback := (fun provider action reason => buildBrowserFallback action service credential provider reason).

Definition protocolAllowed : bool := bool_decide (k_authMode credential = Some password) || force.
Definition rejectUnauthorized : bool := toBoolean (given "tlsRejectUnauthorized") true.
Definition status_answer (provider : ResolvedProviderConfig) : value :=
  VObj [("ok", VBool true); ("action", VStr "status"); ("service", VStr service);
        ("identifier", VStr (maskIdentifier (text_or (k_identifier credential))));
        ("authMode", match k_authMode credential with Some m => VStr (auth_string m) | None => VUndef end);
        ("provider", VStr (providerId provider)); ("providerLabel", VStr (label provider));
        ("protocolSupported", VBool (protocolSupported provider)); ("protocolAllowed", VBool protocolAllowed);
        ("loginUrl", VStr (or_text (text_or (k_websiteUrl credential)) (loginUrl provider))); ("notes", strings (notes provider));
        ("imap", match imap provider with
                 | Some t => VObj [("host", VStr (host t)); ("port", int (port t)); ("secure", VBool (secure t))]
                 | None => VNull end);
        ("smtp", match smtp provider with
                 | Some t => VObj [("host", VStr (host t)); ("port", int (port t)); ("secure", VBool (secure t)); ("startTls", VBool (startTls t))]
                 | None => VNull end);
        ("requiresBrowserLogin", VBool (negb protocolAllowed || negb (protocolSupported provider)))].

Definition recover (what reason : string) (action : EmailAction) (provider : ResolvedProviderConfig) (message : string) : result value :=
  if negb force && isAuthErrorMessage message then Ok (fallback provider action reason)
  else Throw (what +:+ " failed for " +:+ service +:+ ": " +:+ message).

Definition mailbox_call (action : EmailAction) (provider : ResolvedProviderConfig) : MailboxCall :=
  mkCall action service (providerId provider)
    (or_text (trim (to_string (nullish (given "mailbox") (VStr "INBOX")))) "INBOX")
    (int_nat (clampInt (given "limit") 1 MAX_LIST_LIMIT (NInt DEFAULT_LIST_LIMIT)))
    (toBoolean (given "includeBody") (negb (bool_decide (action = list_unread))))
    (toBoolean (given "markSeen") false)
    (int_nat (clampInt (given "bodyMaxChars") 200 MAX_BODY_PREVIEW_CHARS (NInt DEFAULT_IMAP_BODY_PREVIEW_CHARS))).
Definition read_inbox (action : EmailAction) (provider : ResolvedProviderConfig) : outcome :=
  match imap provider with
  | None => answer (fallback provider action "IMAP settings are not configured for this mailbox.")
  | Some t =>
      match dial net (host t) (port t) (secure t) rejectUnauthorized with
      | Throw m => fail m
      | Ok incoming =>
          session (imap_connect from_utf8 (host t) (port t))
            (read_mailbox (mailbox_call action provider) (text_or (k_identifier credential)) (text_or (k_secret credential)))
            (fun c => (imap_logout from_utf8 c).2)
            (recover "Email inbox access"
               "Mailbox auth failed using direct protocol login. If this account requires interactive sign-in/MFA, use browser login flow."
               action provider)
            (open_conn (secure t) incoming [])
      end
  end.

Record Draft := mkDraft {
  d_from : string; d_to : list string; d_cc : list string; d_bcc : list string; d_subject : string; d_text : string; d_html : string;
  d_inReplyTo : string; d_references : list string }.
Definition draft : result Draft :=
  let to := parseAddresses (given "to") in
  let cc := parseAddresses (given "cc") in
  let bcc := parseAddresses (given "bcc") in
  if length (to ++ cc ++ bcc) =? 0 then Throw "Send requires at least one recipient in to/cc/bcc."
  else
    let from := trim (to_string (nullish (given "from") (match k_identifier credential with Some s => VStr s | None => VUndef end))) in
    if negb (truthy from) || negb (includes "@" from) then Throw "A valid from email address is required."
    else
      let text := text_of (given "text") in
      let html := text_of (given "html") in
      if negb (truthy text) && negb (truthy html) then Throw "Send requires text and/or html content."
      else
        Ok (mkDraft from to cc bcc (or_text (text_of (given "subject")) "(no subject)") text html (text_of (given "inReplyTo"))
              (match given "references" with
               | VArr entries => List.filter truthy (map text_of entries)
               | v => parseReferences (to_string (nullish v (VStr "")))
               end)).
Definition send_draft (provider : ResolvedProviderConfig) (d : Draft) : io value :=
  do _ <- authenticateLogin from_utf8 (k_identifier credential) (k_secret credential);
  do (messageId, accepted) <- sendMail from_utf8 now id_uuid part_uuid (d_from d) (d_to d) (d_cc d) (d_bcc d) (d_subject d) (d_text d)
                                (d_html d) (d_inReplyTo d) (d_references d);
  ret (VObj [("ok", VBool true); ("action", VStr "send"); ("service", VStr service); ("provider", VStr (providerId provider));
             ("from", VStr (d_from d)); ("to", strings (d_to d)); ("cc", strings (d_cc d)); ("bcc", strings (d_bcc d));
             ("subject", VStr (d_subject d)); ("acceptedCount", int (Z.of_nat (length accepted))); ("accepted", strings accepted);
             ("messageId", VStr messageId)]).
Definition send_mail (provider : ResolvedProviderConfig) : outcome :=
  match smtp provider with
  | None => answer (fallback provider send "SMTP settings are not configured for this mailbox.")
  | Some t =>
      match draft with
      | Throw m => fail m
      | Ok d =>
          match dial net (host t) (port t) (secure t) rejectUnauthorized with
          | Throw m => fail m
          | Ok incoming =>
              session (smtp_connect from_utf8 (secure t) (startTls t) (handshake net (host t) rejectUnauthorized))
                (send_draft provider d)
                (fun c => (smtp_quit from_utf8 c).2)
                (recover "Email send"
                   "SMTP auth failed using direct protocol login. If this account requires interactive sign-in/MFA, use browser login flow."
                   send provider)
                (open_conn (secure t) incoming [])
          end
      end
  end.

(** After the credential and the provider are known. *)
Definition run_action (action : EmailAction) : outcome :=
  let provider := resolveProviderConfig service credential params in
  if bool_decide (action = status_) then answer (status_answer provider)
  else if negb (protocolSupported provider) then
    answer (fallback provider action
      (or_text (default "" (head (notes provider))) "Direct mail protocol access is not configured for this provider."))
  else if negb protocolAllowed then
    answer (fallback provider action
      "Vault credential is configured as password_with_mfa. Use browser login flow so MFA can be completed interactively.")
  else if bool_decide (action = send) then send_mail provider
  else read_inbox action provider.
End Call.

Definition execute (params : value) (w : W) : outcome * W :=
  match resolveMailboxCredential (get_prop "service" params) w with
  | (Throw m, w') => (fail m, w')
  | (Ok (service, credential), w') => (run_action params service credential (mapAction (get_prop "action" params)), w')
  end.
End Mailbox.

(** ** What goes over the wire *)

(** Nothing else is written before the channel is encrypted. *)
Definition clear_text : list string := ["EHLO localhost" +:+ crlf; "STARTTLS" +:+ crlf].
Notation safe := (guarded clear_text true).
Notation careful := (guarded clear_text false).
Definition channel_ok (c : conn) : Prop := Forall (fun w => encrypted w = true \/ written w ∈ clear_text) (log c).

Section Channel.
Context (from_utf8 : list ascii -> string) (from_base64 : string -> list ascii).
Lemma safe_careful c : safe c -> careful c.
Proof. intros [F N]. by split. Qed.

Lemma ehlo_clear : ("EHLO localhost" +:+ crlf) ∈ clear_text.
Proof. apply list_elem_of_In. by left. Qed.
Lemma starttls_clear : ("STARTTLS" +:+ crlf) ∈ clear_text.
Proof. apply list_elem_of_In. right. by left. Qed.

(** The upgrade is done, or the connection is given up. *)
Lemma smtp_connect_guard secure startTls hs c : secure || startTls = true -> guarded clear_text secure c ->
  match smtp_connect from_utf8 secure startTls hs c with (Ok _, c') => safe c' | (Throw _, c') => careful c' end.
Proof.
  intros T G. unfold smtp_connect, iobind at 1.
  pose proof (guarded_reader (readResponse from_utf8) clear_text secure (reader_reply _ _ _) c G) as G1.
  destruct (readResponse from_utf8 c) as [[greeting|m] c1]; cbn [snd] in G1; [|by destruct secure; [apply safe_careful|]].
  destruct (negb _); [apply guarded_close; by destruct secure; [apply safe_careful|]|].
  unfold iobind at 1.
  pose proof (guarded_smtp_command from_utf8 clear_text secure "EHLO localhost" [250%Z] (or_intror ehlo_clear) c1 G1) as G2.
  destruct (smtp_command _ "EHLO localhost" _ c1) as [[r|m] c2]; cbn [snd] in G2; [|by destruct secure; [apply safe_careful|]].
  destruct secure; [done|]. cbn in T. subst. cbn [negb andb]. unfold iobind at 1.
  pose proof (guarded_smtp_command from_utf8 clear_text false "STARTTLS" [220%Z] (or_intror starttls_clear) c2 G2) as G3.
  destruct (smtp_command _ "STARTTLS" _ c2) as [[r3|m] c3]; cbn [snd] in G3; [|done].
  unfold iobind at 1, upgradeToTls. destruct hs as [incoming|m]; [|done].
  assert (safe (open_conn true incoming (log c3))) as G4 by (destruct G3; by split).
  unfold iobind. pose proof (guarded_smtp_command from_utf8 clear_text true "EHLO localhost" [250%Z] (or_introl eq_refl) _ G4) as G5.
  destruct (smtp_command _ "EHLO localhost" _ _) as [[r5|m] c5]; cbn in *; [done|by apply safe_careful].
Qed.

Lemma safe_read_mailbox call i s : keeps safe (read_mailbox from_utf8 from_base64 call i s).
Proof.
  assert (forall cmd ctx, keeps safe (imap_ok from_utf8 cmd ctx)) as O by (intros; apply safe_imap_ok).
  assert (forall A (r : result A), keeps safe (lift r)) as L by (intros A r c H; exact H).
  unfold read_mailbox, fetch_rows, imap_login, imap_select, imap_search, imap_fetchHeaders, imap_fetchBodies, imap_markSeen.
  cbv zeta. repeat first [apply O | apply L | keep_step].
Qed.
Lemma safe_send_draft now u1 u2 service credential provider d : keeps safe (send_draft from_utf8 now u1 u2 service credential provider d).
Proof.
  assert (forall cmd codes, keeps safe (smtp_command from_utf8 cmd codes)) as C by (intros; apply guarded_smtp_command; by left).
  assert (forall o, keeps safe (buffer_from o)) as B by (intros [s|]; [apply wire_keeps_ret|apply wire_keeps_throw]).
  assert (forall raw, keeps safe (writeRaw raw)) as R by (intros; apply guarded_write; by left).
  assert (forall rs, keeps safe (each_recipient from_utf8 rs)) as E by (intros; apply safe_recipients).
  assert (keeps safe (readResponse from_utf8)) as P by apply guarded_reader, reader_reply.
  unfold send_draft, authenticateLogin, sendMail. cbv zeta. repeat first [apply C | apply B | apply R | apply E | apply P | keep_step].
Qed.

Lemma session_channel connect body leave on_error c0 r c :
  match connect c0 with (Ok _, c') => safe c' | (Throw _, c') => careful c' end ->
  keeps safe body -> (forall c, safe c -> safe (leave c)) ->
  session connect body leave on_error c0 = (r, Some c) -> channel_ok c.
Proof.
  intros C B L. unfold session. destruct (connect c0) as [[u|m] c1]; [|intros [= <- <-]; by destruct C].
  specialize (B c1 C). destruct (body c1) as [r2 c2]. intros [= <- <-]. by destruct (L c2 B).
Qed.
End Channel.

(** The caller leaves the encryption as it is. *)
Definition tls_kept (params : value) : Prop :=
  get_prop "imapSecure" params = VUndef /\ get_prop "smtpSecure" params = VUndef /\ get_prop "smtpStartTls" params = VUndef.
Definition config_encrypts (p : ResolvedProviderConfig) : Prop :=
  (forall t, imap p = Some t -> secure t = true) /\ (forall t, smtp p = Some t -> secure t || startTls t = true).
Lemma known_encrypts params id lbl url ih sh p a b : tls_kept params -> a || b = true -> config_encrypts (known params id lbl url ih sh p a b).
Proof.
  intros (I & S & T) E. unfold known, imap_settings, smtp_settings. rewrite I, S, T.
  split; cbn [imap smtp]; intros t [= <-]; cbn [secure startTls]; [reflexivity|exact E].
Qed.
Lemma nothing_encrypts id lbl url sup ns : config_encrypts (mkProvider id lbl url sup ns None None).
Proof. by split. Qed.
Lemma custom_encrypts credential params d : tls_kept params -> config_encrypts (buildCustom credential params d).
Proof.
  intros (I & S & T). unfold buildCustom. cbv zeta. destruct (_ || _); [apply nothing_encrypts|].
  unfold imap_settings, smtp_settings. rewrite I, S, T. split; cbn [imap smtp]; intros t [= <-]; reflexivity.
Qed.
Lemma tls_default service credential params : tls_kept params -> config_encrypts (resolveProviderConfig service credential params).
Proof.
  intros T. unfold resolveProviderConfig. cbv zeta.
  destruct (_ || _); [by apply known_encrypts|]. destruct (_ || _); [by apply known_encrypts|].
  destruct (_ || _); [by apply known_encrypts|]. destruct (existsb _ _); [by apply known_encrypts|].
  destruct (existsb _ _); [|by apply custom_encrypts]. destruct (_ && _); [by apply custom_encrypts|apply nothing_encrypts].
Qed.

(** unless the call itself turns the encryption off, all that a call of the
    tool writes, the credential first of all, goes over an encrypted channel; in
    the clear the tool says EHLO and STARTTLS and nothing else, and a failed
    upgrade ends the call. *)
Theorem mail_secrets_encrypted {W} `{VaultService W} from_utf8 from_base64 net now u1 u2 params (w : W) r c w' :
  tls_kept params -> execute from_utf8 from_base64 net now u1 u2 params w = ((r, Some c), w') -> channel_ok c.
Proof.
  intros T. unfold execute. destruct (resolveMailboxCredential _ w) as [[[service credential]|m] w1]; [|done].
  intros [= E _]. revert E. destruct (tls_default service credential params T) as [TI TS].
  unfold run_action. cbv zeta. repeat (case_match; [done|]). case_match.
  - unfold send_mail. destruct (smtp _) as [t|] eqn:P; [|done]. case_match; [|done]. case_match; [|done].
    apply session_channel.
    + apply smtp_connect_guard; [by apply TS|]. split; [by constructor|done].
    + apply safe_send_draft.
    + apply (keeps_finally safe); [apply guarded_smtp_command; by left|]. intros; by apply guarded_close.
  - unfold read_inbox. destruct (imap _) as [t|] eqn:P; [|done]. case_match; [|done].
    assert (safe (open_conn (secure t) a [])) as S0 by (split; [by apply Forall_nil_2|intros _; by apply TI]).
    apply session_channel.
    + unfold imap_connect, iobind. pose proof (guarded_reader _ _ _ (reader_readLine from_utf8) _ S0) as G.
      destruct (readLine _ _) as [[line|m] c1]; cbn [snd] in G; [|by apply safe_careful].
      destruct (test _ _); [done|by apply safe_careful, guarded_close].
    + apply safe_read_mailbox.
    + apply (keeps_finally safe); [apply safe_imap_command|]. intros; by apply guarded_close.
Qed.

(** a connection is opened, and so the credential given to a mail server, only
    when the vault has it as a plain password or the call insists on the direct
    login, and only for an action that needs the server. *)
Theorem protocol_login_allowed {W} `{VaultService W} from_utf8 from_base64 net now u1 u2 params (w : W) r c w' :
  execute from_utf8 from_base64 net now u1 u2 params w = ((r, Some c), w') ->
  mapAction (get_prop "action" params) <> status_ /\
  exists service credential, (resolveMailboxCredential (get_prop "service" params) w).1 = Ok (service, credential) /\
    (k_authMode credential = Some password \/ toBoolean (get_prop "forceProtocolLogin" params) false = true).
Proof.
  unfold execute. destruct (resolveMailboxCredential _ w) as [[[service credential]|m] w1]; [|done].
  intros [= E _]. revert E. unfold run_action. cbv zeta. case_match eqn:A; [done|]. case_match; [done|]. case_match eqn:P; [done|].
  intros _. split; [by bool_prop|]. exists service, credential. split; [done|]. apply negb_false_iff in P. unfold protocolAllowed in P.
  apply orb_true_iff in P as [P|P]; [left; by bool_prop|by right].
Qed.

(** ** A mailbox to try *)

Definition mailbox_input : CredentialInput := mkInput "mail.google.com" "bob@gmail.com" "hunter2" (Some password) None None None None.
Definition sample_vault : world :=
  match @vs_set world sample_service mailbox_input (mkWorld [] None) with Ok (w, _) => w | Throw _ => mkWorld [] None end.
(** What a server sends at once. *)
Definition said (lines : list string) : event := Data (chars (join crlf (lines ++ [""]))).
Definition imap_talk : list event :=
  [said ["* OK ready"]; said ["A0001 OK"]; said ["A0002 OK"]; said ["* SEARCH 3 1 2"; "A0003 OK"];
   said ["* 3 FETCH (UID 7 FLAGS (\Seen) RFC822.SIZE 12 BODY[HEADER.FIELDS (SUBJECT)] {15}"; "Subject: Hello"; ")"; "A0004 OK"];
   said ["* 3 FETCH (BODY[TEXT] {4}"; "hi"; ")"; "A0005 OK"]; said ["A0006 OK"]].
Definition smtp_talk : list event := map (fun code => said [code +:+ " ok"]) ["220"; "250"; "334"; "334"; "235"; "250"; "250"; "250"; "354"; "250"; "221"].
Definition talking (talk : list event) : Network := mkNetwork (fun _ _ _ _ => Ok talk) (fun _ _ => Throw "SMTP STARTTLS upgrade timed out.").
Definition run_sample (talk : list event) (params : list (string * value)) : outcome :=
  (@execute world sample_service of_chars chars (talking talk) 0 "u" "v" (VObj params) sample_vault).1.
Definition lines_written (o : outcome) : list string := match o.2 with Some c => map written (log c) | None => [] end.

Example sample_read :
  (run_sample imap_talk [("action", VStr "read_recent"); ("limit", VNum (NInt 1))]).1 =
  Ok (VObj [("ok", VBool true); ("action", VStr "read_recent"); ("service", VStr "mail.google.com"); ("mailbox", VStr "INBOX");
            ("provider", VStr "gmail"); ("count", int 1); ("markSeen", VBool false);
            ("messages", VArr [VObj [("sequence", int 3); ("uid", int 7); ("flags", strings ["\Seen"]); ("size", int 12); ("date", VStr "");
               ("from", VStr ""); ("to", VStr ""); ("subject", VStr "Hello"); ("messageId", VStr ""); ("inReplyTo", VStr "");
               ("references", VArr []); ("threadKey", VStr ""); ("snippet", VStr "hi")]])]).
Proof. vm_compute. reflexivity. Qed.

Lemma mail_secrets_encrypted_witness :
  exists r c w', @execute world sample_service of_chars chars (talking imap_talk) 0 "u" "v" (VObj [("action", VStr "read")]) sample_vault = ((r, Some c), w') /\
    length (log c) = 6 /\ channel_ok c.
Proof.
  eexists _, _, _. split; [vm_compute; reflexivity|]. split; [reflexivity|].
  eapply (@mail_secrets_encrypted world sample_service of_chars chars (talking imap_talk) 0 "u" "v" (VObj [("action", VStr "read")]) sample_vault).
  - repeat split.
  - vm_compute. reflexivity.
Defined.
Lemma protocol_login_allowed_witness :
  exists r c w', @execute world sample_service of_chars chars (talking imap_talk) 0 "u" "v" (VObj [("action", VStr "read")]) sample_vault = ((r, Some c), w') /\
    exists service credential, (@resolveMailboxCredential world sample_service VUndef sample_vault).1 = Ok (service, credential) /\
      (k_authMode credential = Some password \/ toBoolean VUndef false = true).
Proof.
  eexists _, _, _. split; [vm_compute; reflexivity|].
  eapply (@protocol_login_allowed world sample_service of_chars chars (talking imap_talk) 0 "u" "v" (VObj [("action", VStr "read")]) sample_vault).
  vm_compute. reflexivity.
Defined.

(** ** What texts can do to the session *)

(** A mailbox name with a line break is two commands. *)
Example mailbox_adds_command :
  exists rest, nth 1 (lines_written (run_sample imap_talk [("action", VStr "read"); ("mailbox", VStr ("a" +:+ crlf +:+ "X1 DELETE INBOX"))])) "" =
    "A0002 SELECT " +:+ quote_mark +:+ "a" +:+ crlf +:+ "X1 DELETE INBOX" +:+ rest.
Proof. exists (quote_mark +:+ crlf). vm_compute. reflexivity. Qed.
(** So is a recipient of a message, or its sender. *)
Example recipient_adds_command :
  "RCPT TO:<a@b.c>" +:+ crlf +:+ "RCPT TO:<all@b.c>" +:+ crlf ∈
  lines_written (run_sample smtp_talk [("action", VStr "send"); ("text", VStr "t"); ("to", VArr [VStr ("a@b.c>" +:+ crlf +:+ "RCPT TO:<all@b.c")])]).
Proof. apply (bool_decide_eq_true_1 _). vm_compute. reflexivity. Qed.
(** The error of a login whose answer is too long has the secret in it. *)
Example secret_in_error :
  (run_sample [said ["* OK"]; said (replicate 2001 "* x")] [("action", VStr "read")]).1 =
  Throw ("Email inbox access failed for mail.google.com: IMAP LOGIN " +:+ quote_mark +:+ "bob@gmail.com" +:+ quote_mark +:+ " " +:+
         quote_mark +:+ "hunter2" +:+ quote_mark +:+ " response exceeded 2000 lines.").
Proof. vm_compute. reflexivity. Qed.
(** A session that fails before it is returned is not closed. *)
Example smtp_left_open :
  (run_sample [said ["220 hi"]; said ["500 no"]] [("action", VStr "send"); ("text", VStr "t"); ("to", VStr "a@b.c")]).1 =
    Throw "SMTP command failed (500): 500 no" /\
  option_map closed (run_sample [said ["220 hi"]; said ["500 no"]] [("action", VStr "send"); ("text", VStr "t"); ("to", VStr "a@b.c")]).2 = Some false.
Proof. vm_compute. split; reflexivity. Qed.
(** A header whose name every object inherits makes the whole reading fail. *)
Example inherited_header_fails :
  parseRfc822Headers of_chars chars ("Subject: a" +:+ crlf +:+ "Constructor: b") = Throw "headers[key].push is not a function".
Proof. vm_compute. reflexivity. Qed.
