(* ===== verification/MailFacts.v ===== *)
(** * What mail connections guarantee

    Facts about the sessions of [MailWire] and the handler of [EmailTool]: a
    connection reads its stream however it is cut into chunks, an answer of the
    server has bounded size, the secret of a credential does not reach the answer
    of the tool, and which messages are read. *)

From stdpp Require Import base list sets strings pretty.
From Stdlib Require Import ZArith Ascii Lia Sorted.
From S2P Require Import Prelude JsString JsMap JsValue JsRegex JsRegexExec Vault SetupFlow MemoryStore MemoryTools.
From S2P Require Import MailText MailWire EmailTool.

(** ** Streams *)

(** A connection on which data arrives and nothing else happens. *)
Record streaming (c : conn) (chunks : list (list ascii)) : Prop := {
  sg_incoming : incoming c = map Data chunks; sg_ended : ended c = false; sg_failed : failed c = None }.
Definition pending (c : conn) (chunks : list (list ascii)) : list ascii := buffer c ++ concat chunks.

Lemma streaming_buffer c chunks b : streaming c chunks -> streaming (set_buffer b c) chunks.
Proof. intros []. by split. Qed.
Lemma streaming_deliver c chunk chunks : streaming c (chunk :: chunks) -> streaming (deliver (Data chunk) (map Data chunks) c) chunks.
Proof. intros []. by split. Qed.
Lemma wait_streaming c chunks n : (Z.of_nat (length (buffer c)) < n)%Z -> streaming c chunks ->
  waitForData n c = match chunks with
                    | [] => (Throw "Timed out waiting for remote server response.", c)
                    | chunk :: rest => (Ok tt, deliver (Data chunk) (map Data rest) c)
                    end.
Proof.
  intros N [I E F]. unfold waitForData. rewrite E, F, I. rewrite (proj2 (Z.leb_gt _ _)) by lia. cbn.
  destruct chunks; cbn; [done|]. by rewrite F.
Qed.

Lemma list_index_line w rest : one_line w -> list_index [CR; LF] (w ++ CR :: LF :: rest) = Some (length w).
Proof.
  induction w as [|c w IH]; [done|]. intros O. pose proof (IH (one_line_cons _ _ O)) as E.
  cbn [app list_index length]. rewrite E. unfold list_prefix. unfold one_line in O. rewrite split_crlf_cons in O.
  destruct w as [|d w]; cbn [app].
  - by rewrite (bool_decide_eq_false_2 (LF = CR)), andb_false_r.
  - destruct (bool_decide (c = CR) && bool_decide (d = LF)) eqn:B; [done|].
    rewrite andb_true_r, (bool_decide_ext (CR = c) (c = CR)), (bool_decide_ext (LF = d) (d = LF)), B by done. done.
Qed.
Lemma prefix_cut p m n : length p <= length m -> list_prefix p (m ++ n) = list_prefix p m.
Proof. revert m. induction p as [|c p IH]; intros [|d m] L; cbn in *; try done; [lia|]. by rewrite IH by lia. Qed.
Lemma list_index_app p l k i : list_index p l = Some i -> list_index p (l ++ k) = Some i.
Proof.
  revert i. induction l as [|c l IH]; intros i; cbn [list_index app].
  - destruct p; [|done]. by destruct k.
  - intros H. destruct (list_index p l) as [j|] eqn:J.
    + rewrite (IH j eq_refl). apply list_index_Some in J as (a & b & E & _).
      change (c :: l ++ k) with ((c :: l) ++ k). by rewrite prefix_cut by (rewrite E; cbn; rewrite !length_app; lia).
    + destruct (list_prefix p (c :: l)) eqn:E; [|done]. injection H as <-.
      apply list_prefix_spec in E as [x E]. change (c :: l ++ k) with ((c :: l) ++ k). rewrite E, <- app_assoc.
      by rewrite (proj2 (list_prefix_spec p (p ++ x ++ k))) by eauto.
Qed.

Section Streams.
Variable from_utf8 : list ascii -> string.

Lemma read_line_stream chunks c line rest : streaming c chunks -> one_line line -> pending c chunks = line ++ CR :: LF :: rest ->
  exists chunks' c', read_line from_utf8 (length chunks) c = (Ok (from_utf8 line), c') /\ streaming c' chunks' /\ pending c' chunks' = rest.
Proof.
  revert c. induction chunks as [|chunk chunks IH]; intros c S O P; cbn [read_line length].
  all: pose proof (list_index_line line rest O) as X; rewrite <- P in X; unfold pending in P, X.
  all: destruct (list_index [CR; LF] (buffer c)) as [i|] eqn:I.
  2: { cbn [concat] in X. rewrite app_nil_r in X. congruence. }
  1,2: pose proof (list_index_app _ _ (concat (@nil (list ascii))) _ I) as Y; pose proof I as J; apply list_index_Some in J as (a & b & B & L).
  1: assert (i = length line) as -> by congruence.
  2: assert (i = length line) as -> by (pose proof (list_index_app _ _ (concat (chunk :: chunks)) _ I); congruence).
  1,2: rewrite B in P; cbn [app] in P; rewrite <- app_assoc in P; apply app_inj_1 in P as [-> P]; [|done]; cbn [app] in P; injection P as P;
       rewrite B, firstn_app, firstn_all, Nat.sub_diag, app_nil_r; eexists _, _; split; [reflexivity|]; split; [by apply streaming_buffer|];
       unfold pending, set_buffer; cbn [buffer]; rewrite skipn_app, skipn_all2 by lia; cbn [app];
       replace (length line + 2 - length line) with 2 by lia; exact P.
  rewrite (sg_failed _ _ S), (sg_ended _ _ S). unfold iobind. rewrite (wait_streaming c (chunk :: chunks)) by (done || lia).
  apply IH; [by apply streaming_deliver|done|]. unfold pending. cbn [deliver buffer]. by rewrite <- app_assoc.
Qed.
Lemma read_bytes_stream chunks c n : streaming c chunks -> n <= length (pending c chunks) ->
  exists chunks' c', read_bytes (length chunks) (Z.of_nat n) c = (Ok (firstn n (pending c chunks)), c') /\ streaming c' chunks' /\
    pending c' chunks' = skipn n (pending c chunks).
Proof.
  revert c. induction chunks as [|chunk chunks IH]; intros c S L; cbn [read_bytes length]; unfold pending in *.
  all: destruct (Z.leb_spec (Z.of_nat n) (Z.of_nat (length (buffer c)))) as [B|B].
  1,3: rewrite Nat2Z.id; eexists _, _; split; [rewrite firstn_app; replace (n - length (buffer c)) with 0 by lia; by rewrite app_nil_r|];
       split; [by apply streaming_buffer|]; cbn [set_buffer buffer]; rewrite skipn_app; by replace (n - length (buffer c)) with 0 by lia.
  - cbn [concat] in L. rewrite app_nil_r in L. lia.
  - rewrite (sg_failed _ _ S), (sg_ended _ _ S). unfold iobind. rewrite (wait_streaming c (chunk :: chunks)) by (done || lia).
    destruct (IH (deliver (Data chunk) (map Data chunks) c)) as (chunks' & c' & E & S' & P).
    + by apply streaming_deliver.
    + cbn [deliver buffer concat] in *. by rewrite <- app_assoc.
    + exists chunks', c'. rewrite E. cbn [deliver buffer concat] in *. by rewrite P, <- app_assoc.
Qed.
End Streams.

(** reading a connection is reading its stream: a line is what comes before
    the next CR LF and a literal the next [n] bytes, however the network cut the
    data into chunks (also between CR and LF), and what follows is left for the
    next read. *)
Theorem mail_stream from_utf8 c chunks : streaming c chunks ->
  (forall line rest, one_line line -> pending c chunks = line ++ CR :: LF :: rest ->
     exists chunks' c', readLine from_utf8 c = (Ok (from_utf8 line), c') /\ streaming c' chunks' /\ pending c' chunks' = rest) /\
  (forall n, n <= length (pending c chunks) ->
     exists chunks' c', readBytes (Z.of_nat n) c = (Ok (firstn n (pending c chunks)), c') /\ streaming c' chunks' /\
       pending c' chunks' = skipn n (pending c chunks)).
Proof.
  intros S. assert (length (incoming c) = length chunks) as L by (by rewrite (sg_incoming _ _ S), length_map). split.
  - intros line rest O P. unfold readLine. rewrite L. by apply read_line_stream.
  - intros n N. unfold readBytes. rewrite L, Z.max_r by lia. by apply read_bytes_stream.
Qed.
Lemma mail_stream_witness :
  exists chunks' c', readLine of_chars (open_conn true [Data (chars "A1 O"); Data ["K"%char; CR]; Data [LF; "x"%char]] []) = (Ok "A1 OK", c') /\
    streaming c' chunks' /\ pending c' chunks' = ["x"%char].
Proof.
  destruct (mail_stream of_chars (open_conn true [Data (chars "A1 O"); Data ["K"%char; CR]; Data [LF; "x"%char]] [])
    [chars "A1 O"; ["K"%char; CR]; [LF; "x"%char]] ltac:(by split)) as [R _].
  exact (R (chars "A1 OK") ["x"%char] eq_refl eq_refl).
Defined.

(** ** The size of an answer *)

Fixpoint literal_bytes (ps : list ImapResponsePart) : Z :=
  match ps with
  | [] => 0
  | Line _ :: ps => literal_bytes ps
  | Literal _ data :: ps => Z.of_nat (length data) + literal_bytes ps
  end.
Lemma literal_bytes_app a b : literal_bytes (a ++ b) = (literal_bytes a + literal_bytes b)%Z.
Proof. induction a as [|[l|l d] a IH]; cbn [app literal_bytes]; [lia|lia|lia]. Qed.

Lemma iobind_ok {A B} (m : io A) (k : A -> io B) c b c' : iobind m k c = (Ok b, c') ->
  exists a c1, m c = (Ok a, c1) /\ k a c1 = (Ok b, c').
Proof. unfold iobind. destruct (m c) as [[a|e] c1]; [|done]. eauto. Qed.

Lemma read_bytes_length fuel need c data c' : (0 <= need)%Z -> read_bytes fuel need c = (Ok data, c') -> Z.of_nat (length data) = need.
Proof.
  intros N. revert c. induction fuel as [|fuel IH]; intros c; cbn [read_bytes].
  all: destruct (Z.leb_spec need (Z.of_nat (length (buffer c)))) as [B|B]; [intros [= <- _]; rewrite length_firstn; lia|].
  all: destruct (failed c); [done|]; destruct (ended c); [done|]; intros (u & c1 & _ & E)%iobind_ok; first [done | by apply (IH c1)].
Qed.
Lemma literal_length_nonneg line n : literal_length line = Some n -> (0 <= n)%Z.
Proof.
  unfold literal_length. destruct (capture 1 LITERAL line) as [d|]; [|done]. cbn [option_map]. intros [= <-].
  destruct (clampInt_ok (VStr d) 0 50000000 (NInt 0)) as (z & -> & Z); [lia|by exists 0%Z|].
  unfold num_Z, NInt, num_floor, pow10. cbn. rewrite ?Z.div_1_r. lia.
Qed.

Section Bounds.
Variable from_utf8 : list ascii -> string.
Definition bounded (lines : nat) (ps : list ImapResponsePart) (total : Z) : Prop :=
  length ps <= 2 * lines /\ (literal_bytes ps <= total <= MAX_IMAP_LITERAL_BYTES)%Z.
Lemma read_part_bounded k command got n c line got' total c' : bounded k got n ->
  read_part from_utf8 command got n c = (Ok (line, got', total), c') -> bounded (S k) got' total.
Proof.
  intros [L B]. unfold read_part. intros (l & c1 & _ & E)%iobind_ok. cbv zeta in E. destruct (literal_length l) as [z|] eqn:Z.
  - destruct (Z.ltb_spec MAX_IMAP_LITERAL_BYTES (n + z)) as [O|O]; [done|].
    apply iobind_ok in E as (data & c2 & R & E). apply iobind_ok in E as (u & c3 & _ & E). injection E as <- <- <- <-.
    apply literal_length_nonneg in Z. apply read_bytes_length in R; [|lia].
    split; [rewrite !length_app; cbn; lia|]. rewrite !literal_bytes_app. cbn. lia.
  - injection E as <- <- <- <-. split; [rewrite length_app; cbn; lia|]. rewrite literal_bytes_app. cbn. lia.
Qed.
Lemma read_response_bounded fuel k tag command got n c r c' : bounded k got n ->
  read_response from_utf8 fuel tag command got n c = (Ok r, c') -> exists total, bounded (k + fuel) (parts r) total.
Proof.
  revert k got n c. induction fuel as [|fuel IH]; intros k got n c B; cbn [read_response]; [done|].
  intros ([[line got'] total] & c1 & P & E)%iobind_ok. apply (read_part_bounded k) in P; [|done].
  destruct (startsWith _ line).
  - injection E as <- _. exists total. destruct P as [P1 P2]. split; [cbn [parts]; lia|done].
  - apply (IH (S k)) in E; [|done]. by rewrite Nat.add_succ_r.
Qed.
End Bounds.

(** an IMAP answer that is returned has at most 2000 lines, each with at most
    one literal, and at most eight million bytes of literals in all.  (The length
    of a line is not limited.) *)
Theorem imap_answer_bounded from_utf8 command c r c' : imap_command from_utf8 command c = (Ok r, c') ->
  length (parts r) <= 2 * MAX_IMAP_COMMAND_LINES /\ (literal_bytes (parts r) <= MAX_IMAP_LITERAL_BYTES)%Z.
Proof.
  unfold imap_command. intros (tag & c1 & _ & E)%iobind_ok. apply iobind_ok in E as (u & c2 & _ & E).
  apply (read_response_bounded from_utf8 _ 0) in E as (total & L & B); [|split; [done|cbn; unfold MAX_IMAP_LITERAL_BYTES; lia]].
  split; [exact L|lia].
Qed.

(** ** Which messages are read *)

Lemma search_ids_sorted ps : StronglySorted Z.le (search_ids ps) /\ NoDup (search_ids ps).
Proof.
  split.
  - unfold search_ids. assert (StronglySorted (fun a b => (b <? a)%Z = false) (stable_sort Z.ltb (dedup (flat_map line_ids ps)))) as S.
    { apply stable_sort_sorted; intros *; rewrite ?Z.ltb_lt, ?Z.ltb_ge; lia. }
    induction S as [|x l S IH F]; constructor; [done|]. apply (Forall_impl _ _ _ F). intros y. by rewrite Z.ltb_ge.
  - unfold search_ids. rewrite <- stable_sort_perm. apply NoDup_dedup.
Qed.
Lemma sorted_split (l : list Z) k : StronglySorted Z.le l -> NoDup l -> forall x y, x ∈ drop k l -> y ∈ take k l -> (y < x)%Z.
Proof.
  intros S N x y X Y. rewrite <- (take_drop k l) in S, N. apply NoDup_app in N as (_ & D & _).
  assert (y <= x)%Z as L.
  { revert S Y. generalize (take k l). intros a. induction a as [|z a IH]; [set_solver|]. cbn [app]. intros S. inversion S as [|? ? S' F]; subst.
    rewrite elem_of_cons. intros [->|Y]; [|by apply IH]. rewrite Forall_forall in F. apply F. set_solver. }
  assert (y <> x) by (intros ->; by apply (D x)). lia.
Qed.

(** of the messages a search finds, the tool reads the newest: as many as the
    limit allows (between 1 and 50, whatever is asked for), and every message that is
    left out has a smaller number than each that is read. *)
Theorem newest_messages_read params service action provider ps :
  let limit := mc_limit (mailbox_call params service action provider) in
  let chosen := newest limit (search_ids ps) in
  1 <= limit <= 50 /\ length chosen = Nat.min limit (length (search_ids ps)) /\
  forall x y, x ∈ chosen -> y ∈ search_ids ps -> y ∉ chosen -> (y < x)%Z.
Proof.
  cbv zeta. destruct (search_ids_sorted ps) as [S N]. split; [|split].
  - cbn [mc_limit mailbox_call]. unfold mailbox_call. cbn [mc_limit].
    destruct (clampInt_ok (get_prop "limit" params) 1 MAX_LIST_LIMIT (NInt DEFAULT_LIST_LIMIT)) as (z & -> & Z);
      [unfold MAX_LIST_LIMIT; lia|by exists DEFAULT_LIST_LIMIT|].
    unfold int_nat, NInt, pow10, MAX_LIST_LIMIT in *. cbn. rewrite Z.div_1_r. lia.
  - unfold newest. rewrite length_skipn. lia.
  - unfold newest. intros x y X Y NY. apply (sorted_split _ _ S N x y X).
    rewrite <- (take_drop (length (search_ids ps) - mc_limit (mailbox_call params service action provider)) (search_ids ps)) in Y.
    apply elem_of_app in Y as [Y|Y]; [done|by destruct NY].
Qed.

(** ** The secret *)

(** Connections that differ in what was written. *)
Definition set_log (l : list write) (c : conn) : conn :=
  mkConn (buffer c) (ended c) (failed c) (incoming c) (secure_now c) l (closed c) (tagCounter c).
Definition alike (c c' : conn) : Prop := exists l, c' = set_log l c.
#[export] Instance alike_equiv : Equivalence alike.
Proof.
  split.
  - intros []. by eexists.
  - intros [] c' [l ->]. by eexists.
  - intros a b c [l ->] [l' ->]. by exists l'.
Qed.
Ltac both_same := split; [reflexivity|eexists; reflexivity].
(** Two computations that return the same on such connections. *)
Definition agree {A} (m m' : io A) : Prop := forall c c', alike c c' -> (m c).1 = (m' c').1 /\ alike (m c).2 (m' c').2.
Lemma agree_bind {A B} (m m' : io A) (k k' : A -> io B) : agree m m' -> (forall a, agree (k a) (k' a)) -> agree (iobind m k) (iobind m' k').
Proof.
  intros M K c c' E. unfold iobind. destruct (M c c' E) as [R C]. destruct (m c) as [r c1], (m' c') as [r' c1']. cbn [fst snd] in *. subst r'.
  destruct r as [a|e]; [by apply K|done].
Qed.
Lemma agree_bind_ret {A B} (a b : A) (k k' : A -> io B) : agree (k a) (k' b) -> agree (iobind (ret a) k) (iobind (ret b) k').
Proof. intros K. exact K. Qed.
Lemma agree_ret {A} (a : A) : agree (ret a) (ret a).
Proof. by intros c c'. Qed.
Lemma agree_throw {A} m : agree (throw (A := A) m) (throw m).
Proof. by intros c c'. Qed.
Lemma agree_write a b : agree (writeRaw a) (writeRaw b).
Proof. intros c c' [l ->]. split; [done|]. by eexists. Qed.
Lemma agree_lift {A} (r : result A) : agree (lift r) (lift r).
Proof. by intros c c'. Qed.
Lemma agree_tag : agree nextTag nextTag.
Proof. intros c c' [l ->]. split; [done|]. by eexists. Qed.
Lemma agree_wait n : agree (waitForData n) (waitForData n).
Proof.
  intros [b e f inc sec lg cl t] c' [l ->]. unfold waitForData, set_log. cbn [buffer ended failed incoming secure_now closed tagCounter].
  destruct (_ || _); [both_same|]. destruct inc as [|[] rest]; [both_same|..]; cbn [deliver failed]; destruct f; both_same.
Qed.

Section Agree.
Variable from_utf8 : list ascii -> string.
Lemma agree_read_line fuel : agree (read_line from_utf8 fuel) (read_line from_utf8 fuel).
Proof.
  induction fuel as [|fuel IH]; intros c c' E; destruct c as [b e f inc sec lg cl t]; pose proof E as [l ->]; cbn [read_line set_log buffer ended failed].
  all: destruct (list_index _ _); [both_same|]; destruct f; [both_same|]; destruct e; [case_match; both_same|].
  all: apply agree_bind; [apply agree_wait|intros _; first [apply agree_throw | exact IH]|exact E].
Qed.
Lemma agree_readLine : agree (readLine from_utf8) (readLine from_utf8).
Proof. intros c c' E. pose proof E as [l ->]. unfold readLine. cbn [set_log incoming]. by apply agree_read_line. Qed.
Lemma agree_read_bytes fuel need : agree (read_bytes fuel need) (read_bytes fuel need).
Proof.
  induction fuel as [|fuel IH]; intros c c' E; destruct c as [b e f inc sec lg cl t]; pose proof E as [l ->]; cbn [read_bytes set_log buffer ended failed].
  all: destruct (Z.leb _ _); [both_same|]; destruct f; [both_same|]; destruct e; [both_same|].
  all: apply agree_bind; [apply agree_wait|intros _; first [apply agree_throw | exact IH]|exact E].
Qed.
Lemma agree_readBytes n : agree (readBytes n) (readBytes n).
Proof. intros c c' E. pose proof E as [l ->]. unfold readBytes. cbn [set_log incoming]. by apply agree_read_bytes. Qed.
Lemma agree_consume : agree consumeOptionalCrlf consumeOptionalCrlf.
Proof. intros c c' [l ->]. unfold consumeOptionalCrlf. cbn. repeat case_match; both_same. Qed.
Lemma agree_reply fuel got : agree (read_reply from_utf8 fuel got) (read_reply from_utf8 fuel got).
Proof.
  revert got. induction fuel as [|fuel IH]; intros got; [apply agree_throw|]. cbn [read_reply].
  apply agree_bind; [apply agree_readLine|]. intros line. cbv zeta. destruct (exec _ _); [destruct (String.eqb _ _)|]; [apply agree_ret|apply IH|apply IH].
Qed.
Lemma agree_smtp a b codes : agree (smtp_command from_utf8 a codes) (smtp_command from_utf8 b codes).
Proof.
  apply agree_bind; [apply agree_write|intros _]. apply agree_bind; [apply agree_reply|intros r]. case_match; [apply agree_ret|apply agree_throw].
Qed.
Lemma agree_part command got n : agree (read_part from_utf8 command got n) (read_part from_utf8 command got n).
Proof.
  apply agree_bind; [apply agree_readLine|]. intros line. cbv zeta. case_match; [|apply agree_ret]. case_match; [apply agree_throw|].
  apply agree_bind; [apply agree_readBytes|intros data]. apply agree_bind; [apply agree_consume|intros _]. apply agree_ret.
Qed.
Lemma agree_response fuel tag command got n : agree (read_response from_utf8 fuel tag command got n) (read_response from_utf8 fuel tag command got n).
Proof.
  revert got n. induction fuel as [|fuel IH]; intros got n; [apply agree_throw|]. cbn [read_response].
  apply agree_bind; [apply agree_part|]. intros [[line got'] total]. case_match; [apply agree_ret|apply IH].
Qed.
Lemma agree_imap_ok command context : agree (imap_ok from_utf8 command context) (imap_ok from_utf8 command context).
Proof.
  apply agree_bind; [|intros r; case_match; [apply agree_ret|apply agree_throw]].
  apply agree_bind; [apply agree_tag|intros tag]. apply agree_bind; [apply agree_write|intros _]. apply agree_response.
Qed.
End Agree.

(** An answer beyond the limits; the message of the error has the command. *)
Definition over {A} (command : string) (r : result A) : Prop :=
  r = Throw ("IMAP " +:+ command +:+ " response exceeded 2000 lines.") \/
  r = Throw ("IMAP " +:+ command +:+ " response exceeded 8000000 literal bytes.").
Definition relabelled {A} (l1 l2 : string) (x y : result A * conn) : Prop := x.2 = y.2 /\ (x.1 = y.1 \/ over l1 x.1 /\ over l2 y.1).
Lemma relabelled_refl {A} l1 l2 (x : result A * conn) : relabelled l1 l2 x x.
Proof. split; auto. Qed.
Lemma relabelled_bind {A B} l1 l2 (m m' : io A) (k k' : A -> io B) c : relabelled l1 l2 (m c) (m' c) ->
  (forall a c1, relabelled l1 l2 (k a c1) (k' a c1)) -> relabelled l1 l2 (iobind m k c) (iobind m' k' c).
Proof.
  intros [C R] K. unfold iobind. destruct (m c) as [r c1], (m' c) as [r' c1']. cbn [fst snd] in *. subst c1'.
  destruct R as [<-|[O1 O2]]; [destruct r; [apply K|apply relabelled_refl]|].
  destruct O1 as [->| ->], O2 as [->| ->]; (split; [done|right; split; unfold over; auto]).
Qed.
Lemma part_relabelled from_utf8 l1 l2 got n c : relabelled l1 l2 (read_part from_utf8 l1 got n c) (read_part from_utf8 l2 got n c).
Proof.
  apply relabelled_bind; [apply relabelled_refl|]. intros line c1. cbv zeta. destruct (literal_length line); [|apply relabelled_refl].
  destruct (_ <? _)%Z; [|apply relabelled_refl]. split; [done|]. right. split; by right.
Qed.
Lemma response_relabelled from_utf8 fuel tag l1 l2 got n c :
  relabelled l1 l2 (read_response from_utf8 fuel tag l1 got n c) (read_response from_utf8 fuel tag l2 got n c).
Proof.
  revert got n c. induction fuel as [|fuel IH]; intros got n c; cbn [read_response]; [split; [done|right; split; by left]|].
  apply relabelled_bind; [apply part_relabelled|]. intros [[line got'] total] c1. case_match; [apply relabelled_refl|apply IH].
Qed.

Section Secret.
Variable from_utf8 : list ascii -> string.
(** The server answers the next command beyond the limits. *)
Definition flooded (c : conn) : Prop := over "" (imap_command from_utf8 "" c).1.

Definition asked (command : string) (c : conn) : conn :=
  mkConn (buffer c) (ended c) (failed c) (incoming c) (secure_now c)
    (log c ++ [mkWrite (secure_now c) ((imap_tag (tagCounter c) +:+ " " +:+ command) +:+ crlf)]) (closed c) (S (tagCounter c)).
Lemma command_asked command c :
  imap_command from_utf8 command c = read_response from_utf8 MAX_IMAP_COMMAND_LINES (imap_tag (tagCounter c)) command [] 0 (asked command c).
Proof. reflexivity. Qed.
Lemma command_same command c : ~ flooded c ->
  (imap_command from_utf8 command c).1 = (imap_command from_utf8 "" c).1 /\
  alike (imap_command from_utf8 "" c).2 (imap_command from_utf8 command c).2.
Proof.
  unfold flooded. rewrite !command_asked. generalize (imap_tag (tagCounter c)) as tag, MAX_IMAP_COMMAND_LINES as lines. intros tag lines N.
  destruct (agree_response from_utf8 lines tag "" [] 0 (asked "" c) (asked command c)) as [R C]; [by eexists|].
  destruct (response_relabelled from_utf8 lines tag command "" [] 0 (asked command c)) as [C2 [R2|[_ O]]].
  - rewrite R2, C2. split; [symmetry; exact R|exact C].
  - destruct N. rewrite R. exact O.
Qed.

(** The same, for two commands. *)
Lemma login_same identifier s1 s2 c : ~ flooded c ->
  (imap_login from_utf8 identifier s1 c).1 = (imap_login from_utf8 identifier s2 c).1 /\
  alike (imap_login from_utf8 identifier s1 c).2 (imap_login from_utf8 identifier s2 c).2.
Proof.
  intros N. unfold imap_login, imap_ok, iobind.
  set (l1 := "LOGIN " +:+ quoteImapString identifier +:+ " " +:+ quoteImapString s1).
  set (l2 := "LOGIN " +:+ quoteImapString identifier +:+ " " +:+ quoteImapString s2).
  destruct (command_same l1 c N) as [R1 C1], (command_same l2 c N) as [R2 C2].
  destruct (imap_command from_utf8 l1 c) as [r1 c1], (imap_command from_utf8 l2 c) as [r2 c2], (imap_command from_utf8 "" c) as [r0 c0].
  cbn [fst snd] in *. subst r1 r2. assert (alike c1 c2) by (by rewrite <- C1, <- C2).
  destruct r0; [case_match|]; done.
Qed.
Lemma bind_at {A B} (m m' : io A) (k k' : A -> io B) c c' :
  (m c).1 = (m' c').1 /\ alike (m c).2 (m' c').2 -> (forall a, agree (k a) (k' a)) ->
  (iobind m k c).1 = (iobind m' k' c').1 /\ alike (iobind m k c).2 (iobind m' k' c').2.
Proof.
  intros [R C] K. unfold iobind. destruct (m c) as [r c1], (m' c') as [r' c1']. cbn [fst snd] in *. subst r'.
  destruct r as [a|e]; [by apply K|done].
Qed.

Variable from_base64 : string -> list ascii.
(** Goes through the binds of two computations that are the same. *)
Ltac agree_step :=
  first [ apply agree_ret | apply agree_throw | apply agree_lift | apply agree_imap_ok
        | apply agree_bind; [|intros ?]
        | match goal with |- agree (match ?x with _ => _ end) _ => destruct x end ].
Lemma read_mailbox_same call identifier s1 s2 c : ~ flooded c ->
  (read_mailbox from_utf8 from_base64 call identifier s1 c).1 = (read_mailbox from_utf8 from_base64 call identifier s2 c).1.
Proof.
  intros N. unfold read_mailbox. apply bind_at; [by apply login_same|]. intros _.
  unfold fetch_rows, imap_select, imap_search, imap_fetchHeaders, imap_fetchBodies, imap_markSeen. cbv zeta. repeat agree_step.
Qed.

Definition with_secret (s : string) (k : Credential) : Credential := mkCredential (k_identifier k) (Some s) (k_authMode k) (k_websiteUrl k).
Lemma send_draft_same now u1 u2 service credential provider d s1 s2 :
  agree (send_draft from_utf8 now u1 u2 service (with_secret s1 credential) provider d)
        (send_draft from_utf8 now u1 u2 service (with_secret s2 credential) provider d).
Proof.
  assert (forall rs, agree (each_recipient from_utf8 rs) (each_recipient from_utf8 rs)) as E.
  { induction rs as [|r rs IH]; [apply agree_ret|]. apply agree_bind; [apply agree_smtp|by intros _]. }
  unfold send_draft, authenticateLogin, sendMail. cbn [with_secret k_identifier k_secret buffer_from]. cbv zeta. unfold buffer_from.
  repeat first [match goal with |- agree (iobind (ret _) _) (iobind (ret _) _) => apply agree_bind_ret end | apply agree_smtp | apply agree_write | apply agree_reply | apply E | agree_step].
Qed.
End Secret.

(** the secret of a credential has no part in what the tool answers: with the
    same network, two credentials that differ in the secret give the same answer or
    the same error, unless the mail server answers the login beyond the limits (whose
    error quotes the command). *)
Theorem secret_not_in_answer from_utf8 from_base64 net now u1 u2 params service credential action s1 s2 :
  (forall t incoming c, imap (resolveProviderConfig service credential params) = Some t ->
     dial net (host t) (port t) (secure t) (rejectUnauthorized params) = Ok incoming ->
     imap_connect from_utf8 (host t) (port t) (open_conn (secure t) incoming []) = (Ok tt, c) -> ~ flooded from_utf8 c) ->
  (run_action from_utf8 from_base64 net now u1 u2 params service (with_secret s1 credential) action).1 =
  (run_action from_utf8 from_base64 net now u1 u2 params service (with_secret s2 credential) action).1.
Proof.
  intros N. unfold run_action.
  change (resolveProviderConfig service (with_secret s1 credential) params) with (resolveProviderConfig service credential params).
  change (resolveProviderConfig service (with_secret s2 credential) params) with (resolveProviderConfig service credential params).
  change (protocolAllowed params (with_secret s1 credential)) with (protocolAllowed params credential).
  change (protocolAllowed params (with_secret s2 credential)) with (protocolAllowed params credential).
  revert N. generalize (resolveProviderConfig service credential params) as provider. intros provider N. cbv zeta.
  destruct (bool_decide (action = status_)); [reflexivity|]. destruct (negb _); [reflexivity|]. destruct (negb _); [reflexivity|].
  destruct (bool_decide (action = send)).
  - unfold send_mail. destruct (smtp provider) as [t|]; [|reflexivity].
    change (draft params (with_secret s1 credential)) with (draft params credential).
    change (draft params (with_secret s2 credential)) with (draft params credential).
    destruct (draft params credential) as [d|]; [|reflexivity]. destruct (dial _ _ _ _ _) as [incoming|]; [|reflexivity].
    unfold session. destruct (smtp_connect _ _ _ _ _) as [[u|m] c1]; [|reflexivity].
    destruct (send_draft_same from_utf8 now u1 u2 service credential provider d s1 s2 c1 c1) as [R _]; [reflexivity|].
    destruct (send_draft _ _ _ _ _ (with_secret s1 _) _ _ c1) as [r1 c2], (send_draft _ _ _ _ _ (with_secret s2 _) _ _ c1) as [r2 c3].
    cbn [fst] in *. subst r2. reflexivity.
  - unfold read_inbox. destruct (imap provider) as [t|]; [|reflexivity]. destruct (dial _ _ _ _ _) as [incoming|] eqn:D; [|reflexivity].
    unfold session. destruct (imap_connect _ _ _ _) as [[[]|m] c1] eqn:C; [|reflexivity].
    pose proof (read_mailbox_same from_utf8 from_base64 (mailbox_call params service action provider) (text_or (k_identifier credential)) s1 s2 c1
      (N t incoming c1 eq_refl D C)) as R.
    change (text_or (k_secret (with_secret s1 credential))) with s1. change (text_or (k_secret (with_secret s2 credential))) with s2.
    change (k_identifier (with_secret s1 credential)) with (k_identifier credential).
    change (k_identifier (with_secret s2 credential)) with (k_identifier credential).
    destruct (read_mailbox _ _ _ _ s1 c1) as [r1 c2], (read_mailbox _ _ _ _ s2 c1) as [r2 c3]. cbn [fst] in *.
    subst r2.
    reflexivity.
Qed.

Definition bob : Credential := mkCredential (Some "bob@gmail.com") None (Some password) None.
Definition recent_call : value := VObj [("action", VStr "read_recent"); ("limit", VNum (NInt 1))].
Lemma secret_not_in_answer_witness :
  (run_action of_chars chars (talking imap_talk) 0 "u" "v" recent_call "mail.google.com" (with_secret "hunter2" bob) read_recent).1 =
  (run_action of_chars chars (talking imap_talk) 0 "u" "v" recent_call "mail.google.com" (with_secret "other" bob) read_recent).1.
Proof.
  apply (secret_not_in_answer of_chars chars (talking imap_talk) 0 "u" "v" recent_call "mail.google.com" bob read_recent "hunter2" "other").
  intros t incoming c T D C. vm_compute in T. injection T as <-. cbn [talking dial] in D. injection D as <-.
  vm_compute in C. injection C as <-. unfold flooded, over. intros [H|H]; vm_compute in H; discriminate H.
Defined.
Lemma imap_answer_bounded_witness :
  exists r c', imap_command of_chars "NOOP" (open_conn true [said ["* 1 FETCH (X {3}"; "abc)"; "A0001 OK"]] []) = (Ok r, c') /\
    length (parts r) = 4 /\ (literal_bytes (parts r) <= MAX_IMAP_LITERAL_BYTES)%Z.
Proof.
  eexists _, _. split; [vm_compute; reflexivity|]. split; [reflexivity|].
  eapply (imap_answer_bounded of_chars "NOOP" (open_conn true [said ["* 1 FETCH (X {3}"; "abc)"; "A0001 OK"]] [])). vm_compute. reflexivity.
Defined.
