(* ===== verification/UsageSummary.v ===== *)
(** * Usage summary

    [src/src/provider/usage-summary.ts]: token and cost totals over the saved
    sessions.  A session file is a name with the document it holds, [None] when it
    cannot be read or parsed.  [val] is the value of a finite number. *)

From stdpp Require Import base list sets strings.
From Stdlib Require Import Ascii Lia ZArith QArith Qround Lqa.
From S2P Require Import Prelude JsString JsMap JsValue Config.
Open Scope Z_scope.
Open Scope nat_scope.

(** ** Data *)

Record ProviderUsageTotals := mkTotals {
  messages : nat;
  inputTokens : num;
  outputTokens : num;
  totalTokens : num;
  costUsd : num;
}.
Record UsageStatusSummary := mkSummary {
  sessionsScanned : nat;
  messagesScanned : nat;
  assistantMessagesWithUsage : nat;
  su_input : num;
  su_output : num;
  su_total : num;
  su_cost : num;
  byProvider : list (string * ProviderUsageTotals);
  su_tokenBudget : option num;
  tokensRemaining : option num;
  su_costBudgetUsd : option num;
  costRemainingUsd : option num;
}.

Definition asFiniteNumber (v : value) : num := let n := to_number v in if isFinite n then n else NInt 0.

Definition toBudgetOrNull (raw : option string) : option num :=
  let n := num_of_string (default "" raw) in
  if negb (isFinite n) || negb (num_lt (NInt 0) n) then None else Some n.

(** [Math.round(value * 1_000_000) / 1_000_000] *)
Definition toFixedUsd (n : num) : num :=
  match n with
  | NFin m k => NFin ((2 * m * 10 ^ 6 + pow10 k) / (2 * pow10 k))%Z 6
  | n => n
  end.

Definition isAssistantWithUsage (msg : value) : bool :=
  is_object msg && is_str "assistant" (get_prop "role" msg) && is_object (get_prop "usage" msg).

(** ** Scanning *)

(** What one message adds. *)
Record entry := mkEntry { e_key : string; e_in : num; e_out : num; e_all : num; e_cost : num }.
Definition entry_of (msg : value) : entry :=
  let usage := get_prop "usage" msg in
  let inTokens := asFiniteNumber (get_prop "input" usage) in
  let outTokens := asFiniteNumber (get_prop "output" usage) in
  let all := asFiniteNumber (get_prop "totalTokens" usage) in
  let providerKeyRaw := match get_prop "provider" msg with VStr s => trim s | _ => "" end in
  mkEntry (if truthy providerKeyRaw then providerKeyRaw else "unknown") inTokens outTokens
    (if to_bool (VNum all) then all else num_add inTokens outTokens)
    (asFiniteNumber (get_prop "total" (get_prop "cost" usage))).

Definition no_totals : ProviderUsageTotals := mkTotals 0 (NInt 0) (NInt 0) (NInt 0) (NInt 0).
Definition add_entry (e : entry) (t : ProviderUsageTotals) : ProviderUsageTotals :=
  mkTotals (S (messages t)) (num_add (inputTokens t) (e_in e)) (num_add (outputTokens t) (e_out e))
    (num_add (totalTokens t) (e_all e)) (toFixedUsd (num_add (costUsd t) (e_cost e))).

Record scan := mkScan {
  sc_count : nat;
  sc_in : num;
  sc_out : num;
  sc_all : num;
  sc_cost : num;
  sc_by : list (string * ProviderUsageTotals);
}.
(** A key that [Object.prototype] has is found there: the counts are written to
    what is found and not to the summary. *)
Definition scan_entry (s : scan) (e : entry) : scan :=
  mkScan (S (sc_count s)) (num_add (sc_in s) (e_in e)) (num_add (sc_out s) (e_out e)) (num_add (sc_all s) (e_all e))
    (num_add (sc_cost s) (e_cost e))
    (match obj_lookup (e_key e) (sc_by s) with
     | Own t => mset (e_key e) (add_entry e t) (sc_by s)
     | Missing => mset (e_key e) (add_entry e no_totals) (sc_by s)
     | Inherited => sc_by s
     end).
Definition no_scan : scan := mkScan 0 (NInt 0) (NInt 0) (NInt 0) (NInt 0) [].

(** The messages of the files that hold an array. *)
Definition scanned (files : list (string * option value)) : list value :=
  flat_map (fun f => match f.2 with Some (VArr l) => l | _ => [] end) files.
Definition usage_entries (files : list (string * option value)) : list entry :=
  map entry_of (List.filter isAssistantWithUsage (scanned files)).

Section Summary.
Variable env : list (string * string).

Definition budget (var : string) (configured : option num) : option num :=
  match toBudgetOrNull (mget var env) with
  | Some n => Some n
  | None => toBudgetOrNull (option_map num_to_string configured)
  end.

(** [sessions] is what [readdir] finds, [None] when it throws. *)
Definition summarizeSavedUsage (sessions : option (list (string * option value))) (tokens cost : option num) : UsageStatusSummary :=
  let files := List.filter (fun f => endsWith ".json" f.1) (default [] sessions) in
  let s := fold_left scan_entry (usage_entries files) no_scan in
  let tokenBudget := budget "T560_USAGE_TOKEN_BUDGET" tokens in
  let costBudget := budget "T560_USAGE_COST_BUDGET_USD" cost in
  {| sessionsScanned := length files;
     messagesScanned := length (scanned files);
     assistantMessagesWithUsage := sc_count s;
     su_input := sc_in s;
     su_output := sc_out s;
     su_total := sc_all s;
     su_cost := toFixedUsd (sc_cost s);
     byProvider := sc_by s;
     su_tokenBudget := tokenBudget;
     tokensRemaining := option_map (fun b => num_max (NInt 0) (num_sub b (sc_all s))) tokenBudget;
     su_costBudgetUsd := costBudget;
     costRemainingUsd := option_map (fun b => toFixedUsd (num_max (NInt 0) (num_sub b (sc_cost s)))) costBudget |}.
End Summary.

(** ** Values *)

Definition val (n : num) : Q := match n with NFin m k => (m # Z.to_pos (pow10 k))%Q | _ => 0%Q end.
Lemma pow10_pos k : (0 < pow10 k)%Z.
Proof. unfold pow10. lia. Qed.
Lemma val_add a b : isFinite a = true -> isFinite b = true -> isFinite (num_add a b) = true /\ (val (num_add a b) == val a + val b)%Q.
Proof.
  destruct a as [| |m k], b as [| |m' k']; try done. intros _ _. split; [done|]. cbn.
  pose proof (pow10_pos k). pose proof (pow10_pos k'). unfold Qeq. cbn.
  rewrite !Pos2Z.inj_mul, !Z2Pos.id by (try apply pow10_pos; lia).
  assert (pow10 (k + k') = pow10 k * pow10 k')%Z as -> by (unfold pow10; rewrite Nat2Z.inj_add, Z.pow_add_r by lia; done). ring.
Qed.
Lemma asFiniteNumber_finite v : isFinite (asFiniteNumber v) = true.
Proof. unfold asFiniteNumber. by destruct (isFinite (to_number v)) eqn:E. Qed.

Record entry_finite (e : entry) : Prop := {
  ef_in : isFinite (e_in e) = true; ef_out : isFinite (e_out e) = true;
  ef_all : isFinite (e_all e) = true; ef_cost : isFinite (e_cost e) = true;
}.
Lemma entry_of_finite msg : entry_finite (entry_of msg).
Proof.
  split; cbn [entry_of e_in e_out e_all e_cost]; try apply asFiniteNumber_finite. destruct (to_bool _); [apply asFiniteNumber_finite|].
  apply val_add; apply asFiniteNumber_finite.
Qed.

Definition sum (l : list Q) : Q := foldr Qplus 0%Q l.
Lemma sum_app l k : (sum (l ++ k) == sum l + sum k)%Q.
Proof.
  induction l as [|x l IH]; cbn [app]; [change (sum []) with 0%Q; ring|].
  change (sum (x :: l)) with (x + sum l)%Q. change (sum (x :: l ++ k)) with (x + sum (l ++ k))%Q. rewrite IH. ring.
Qed.

(** Messages of providers whose name is not on [Object.prototype]. *)
Definition plain (e : entry) : bool := negb (bool_decide (e_key e ∈ object_prototype_keys)).

Definition totals_finite (t : ProviderUsageTotals) : Prop :=
  isFinite (inputTokens t) = true /\ isFinite (outputTokens t) = true /\ isFinite (totalTokens t) = true /\ isFinite (costUsd t) = true.

Definition all_tokens (l : list (string * ProviderUsageTotals)) : Q := sum (map (fun p => val (totalTokens p.2)) l).
Lemma mset_tokens k t by_ t0 :
  mget k by_ = Some t0 -> (all_tokens (mset k t by_) == all_tokens by_ - val (totalTokens t0) + val (totalTokens t))%Q.
Proof.
  assert (forall j u by_, all_tokens ((j, u) :: by_) = val (totalTokens u) + all_tokens by_)%Q as Cons by done.
  induction by_ as [|[j u] by_ IH]; [done|]. cbn [mget mset]. case_bool_decide; subst; rewrite !Cons.
  - intros [= ->]. ring.
  - intros G. rewrite IH by done. ring.
Qed.

Lemma mset_messages (k : string) t by_ t0 :
  mget k by_ = Some t0 ->
  (sum_list_with (fun p => messages p.2) (mset k t by_) + messages t0 = sum_list_with (fun p => messages p.2) by_ + messages t)%nat.
Proof.
  induction by_ as [|[j u] by_ IH]; [done|]. cbn [mget mset]. case_bool_decide; subst; cbn.
  - intros [= ->]. lia.
  - intros G. specialize (IH G). lia.
Qed.

(** The rows of the summary. *)
Record rows_ok (by_ : list (string * ProviderUsageTotals)) : Prop := {
  rw_keys : NoDup (keys by_);
  rw_plain : Forall (fun p => p.1 ∉ object_prototype_keys) by_;
  rw_finite : Forall (fun p => isFinite (totalTokens p.2) = true) by_;
}.
Definition message_count (by_ : list (string * ProviderUsageTotals)) : nat := sum_list_with (fun p => messages p.2) by_.

Definition add_row (e : entry) (by_ : list (string * ProviderUsageTotals)) : list (string * ProviderUsageTotals) :=
  match obj_lookup (e_key e) by_ with
  | Own t => mset (e_key e) (add_entry e t) by_
  | Missing => mset (e_key e) (add_entry e no_totals) by_
  | Inherited => by_
  end.

Lemma add_row_ok e by_ :
  entry_finite e -> rows_ok by_ ->
  rows_ok (add_row e by_) /\
  (all_tokens (add_row e by_) == all_tokens by_ + (if plain e then val (e_all e) else 0))%Q /\
  message_count (add_row e by_) = message_count by_ + (if plain e then 1 else 0).
Proof.
  intros [_ _ Fe _] [K Pl F]. unfold add_row, obj_lookup, plain. destruct (mget (e_key e) by_) as [t|] eqn:G.
  - pose proof (mget_In _ _ _ G) as In%list_elem_of_In. rewrite Forall_forall in Pl, F.
    pose proof (Pl _ In) as Pe. pose proof (F _ In) as Ft. cbn in Pe, Ft. rewrite bool_decide_eq_false_2 by done. cbn [negb].
    destruct (val_add _ _ Ft Fe) as [Fa V]. split; [split|split].
    + by apply NoDup_mset.
    + apply Forall_mset; [done|]. by apply Forall_forall.
    + apply Forall_mset; [done|]. by apply Forall_forall.
    + rewrite (mset_tokens _ _ _ t) by done. cbn [add_entry totalTokens]. rewrite V. ring.
    + pose proof (mset_messages (e_key e) (add_entry e t) by_ t G) as X. cbn [add_entry messages] in X. unfold message_count. lia.
  - case_bool_decide as Pe; cbn [negb].
    + split; [by split|]. split; [ring|lia].
    + destruct (val_add (NInt 0) (e_all e) eq_refl Fe) as [Fa V].
      assert (mset (e_key e) (add_entry e no_totals) by_ = by_ ++ [(e_key e, add_entry e no_totals)]) as Ms
        by (apply mset_new; by apply mget_None_keys).
      split; [split|split].
      * by apply NoDup_mset.
      * by apply Forall_mset.
      * by apply Forall_mset.
      * rewrite Ms. unfold all_tokens. rewrite map_app, sum_app. cbn [map snd add_entry totalTokens no_totals].
        change (sum [?x]) with (x + 0)%Q. rewrite V. change (val (NInt 0)) with (0 # 1)%Q. ring.
      * rewrite Ms. unfold message_count. rewrite sum_list_with_app. cbn. lia.
Qed.

(** The summary so far and the messages it covers. *)
Record scan_ok (s : scan) (es : list entry) : Prop := {
  so_count : sc_count s = length es;
  so_finite : isFinite (sc_all s) = true;
  so_total : (val (sc_all s) == sum (map (fun e => val (e_all e)) es))%Q;
  so_rows : rows_ok (sc_by s);
  so_tokens : (all_tokens (sc_by s) == sum (map (fun e => val (e_all e)) (List.filter plain es)))%Q;
  so_messages : message_count (sc_by s) = length (List.filter plain es);
}.

Lemma scan_entry_ok s es e : entry_finite e -> scan_ok s es -> scan_ok (scan_entry s e) (es ++ [e]).
Proof.
  intros Fe [C F T R A M]. destruct (val_add (sc_all s) (e_all e) F (ef_all _ Fe)) as [F' V].
  destruct (add_row_ok e (sc_by s) Fe R) as (R' & A' & M').
  split; cbn [scan_entry sc_count sc_all sc_by]; fold (add_row e (sc_by s)); rewrite ?List.filter_app; cbn [List.filter].
  - rewrite length_app. cbn. lia.
  - done.
  - rewrite V, map_app, sum_app, T. cbn [map]. change (sum [?x]) with (x + 0)%Q. ring.
  - done.
  - rewrite A', map_app, sum_app, A. destruct (plain e); cbn [map]; [change (sum [?x]) with (x + 0)%Q|change (sum []) with 0%Q]; ring.
  - rewrite M', length_app, M. by destruct (plain e).
Qed.
Lemma scan_ok_all es : forall s seen, Forall entry_finite es -> scan_ok s seen -> scan_ok (fold_left scan_entry es s) (seen ++ es).
Proof.
  induction es as [|e es IH]; intros s seen F I; [cbn; by rewrite app_nil_r|]. apply Forall_cons in F as [Fe F].
  cbn [fold_left]. replace (seen ++ e :: es) with ((seen ++ [e]) ++ es) by (by rewrite <- app_assoc).
  apply IH; [done|]. by apply scan_entry_ok.
Qed.
Lemma no_scan_ok : scan_ok no_scan [].
Proof. split; try done. split; constructor. Qed.

Definition session_files (sessions : option (list (string * option value))) : list (string * option value) :=
  List.filter (fun f => endsWith ".json" f.1) (default [] sessions).

(** C40: the summary adds up.  It counts every saved message with usage, its token
    total is the sum over those messages, and the rows of the providers sum to
    the same total and the same number of messages, except for providers named
    like a property of [Object.prototype], which have no row. *)
Theorem usage_adds_up env sessions tokens cost :
  let u := summarizeSavedUsage env sessions tokens cost in
  let es := usage_entries (session_files sessions) in
  assistantMessagesWithUsage u = length es /\
  (val (su_total u) == sum (map (fun e => val (e_all e)) es))%Q /\
  NoDup (keys (byProvider u)) /\
  (all_tokens (byProvider u) == sum (map (fun e => val (e_all e)) (List.filter plain es)))%Q /\
  message_count (byProvider u) = length (List.filter plain es).
Proof.
  cbv zeta. assert (Forall entry_finite (usage_entries (session_files sessions))) as F.
  { apply Forall_map, Forall_true. intros. apply entry_of_finite. }
  destruct (scan_ok_all _ no_scan [] F no_scan_ok) as [C _ T [K _ _] A M]. by split_and!.
Qed.

(** what remains of a budget is never negative, and a configured budget
    counts only when the environment sets none. *)
Theorem remaining_not_negative env sessions tokens cost :
  let u := summarizeSavedUsage env sessions tokens cost in
  (forall n, tokensRemaining u = Some n -> num_lt n (NInt 0) = false /\ exists b, su_tokenBudget u = Some b /\ num_lt (NInt 0) b = true) /\
  (toBudgetOrNull (mget "T560_USAGE_TOKEN_BUDGET" env) <> None ->
     su_tokenBudget u = toBudgetOrNull (mget "T560_USAGE_TOKEN_BUDGET" env)).
Proof.
  cbv zeta. cbn [tokensRemaining su_tokenBudget summarizeSavedUsage]. split.
  - intros n. destruct (budget env "T560_USAGE_TOKEN_BUDGET" tokens) as [b|] eqn:B; [|done]. cbn [option_map]. intros [= <-].
    assert (num_lt (NInt 0) b = true) as P.
    { assert (forall r, toBudgetOrNull r = Some b -> num_lt (NInt 0) b = true) as X.
      { intros r. unfold toBudgetOrNull. destruct (_ || _) eqn:O; [done|]. intros [= <-]. apply orb_false_iff in O as [_ O].
        by apply negb_false_iff in O. }
      unfold budget in B. destruct (toBudgetOrNull (mget _ env)) eqn:E; [injection B as ->|]; eauto. }
    split; [|eauto]. unfold num_max. destruct (_ || _) eqn:N; [done|].
    destruct (num_lt (NInt 0) (num_sub b _)) eqn:L; [|done]. revert L. generalize (num_sub b (sc_all (fold_left scan_entry
      (usage_entries (List.filter (fun f => endsWith ".json" f.1) (default [] sessions))) no_scan))) as d. intros d.
    destruct d as [|[]|m k]; cbn; try done. pose proof (pow10_pos k). change (pow10 0) with 1%Z. lia.
  - intros H. unfold budget. by destruct (toBudgetOrNull _).
Qed.

(** A provider called [constructor] is counted and has no row. *)
Definition lost_session : list (string * option value) :=
  [("a.json", Some (VArr [VObj [("role", VStr "assistant"); ("provider", VStr "constructor");
                                ("usage", VObj [("input", VNum (NInt 3)); ("output", VNum (NInt 4))])]]))].
Example inherited_provider_lost :
  let u := summarizeSavedUsage [] (Some lost_session) None None in
  su_total u = NInt 7 /\ byProvider u = [].
Proof. vm_compute. done. Qed.

(** The rows round the cost at every message, the total once: three costs below
    half a millionth are lost in the row. *)
Definition small_costs : list (string * option value) :=
  [("a.json", Some (VArr (replicate 3 (VObj [("role", VStr "assistant"); ("provider", VStr "p");
     ("usage", VObj [("cost", VObj [("total", VNum (NFin 4 7))])])]))))].
Example row_costs_rounded :
  let u := summarizeSavedUsage [] (Some small_costs) None None in
  su_cost u = NFin 1 6 /\ map (fun p => costUsd p.2) (byProvider u) = [NFin 0 6].
Proof. vm_compute. done. Qed.

(** With 7 tokens used of a configured budget of 5, nothing remains. *)
Lemma remaining_not_negative_witness :
  tokensRemaining (summarizeSavedUsage [] (Some lost_session) (Some (NInt 5)) None) = Some (NInt 0) /\
  num_lt (NInt 0) (NInt 0) = false.
Proof.
  assert (tokensRemaining (summarizeSavedUsage [] (Some lost_session) (Some (NInt 5)) None) = Some (NInt 0)) as E by (vm_compute; reflexivity).
  exact (conj E (proj1 (proj1 (remaining_not_negative [] (Some lost_session) (Some (NInt 5)) None) _ E))).
Defined.
