(* ===== verification/ProviderRoute.v ===== *)
(** * Routes to the provider

    [src/src/provider/run.ts], first part: the settings read from the
    environment, which provider, endpoint, key and model a route means, the
    models a local server offers and the choice among them.

    [getProviders], [getModels] and [getModel] of the provider library, the
    answers of [fetch], and the host name of a URL are arguments. *)

From stdpp Require Import base list sets strings pretty.
From Stdlib Require Import Ascii Lia ZArith Sorting.Sorted.
From S2P Require Import Prelude JsString JsMap JsValue JsRegex JsRegexExec NodePath Config.
#[local] Open Scope nat_scope.

(** ** Constants *)

Definition OPENAI_RUNTIME_PROVIDER : string := "openai".
Definition LOCAL_OPENAI_DUMMY_API_KEY : string := "local-no-key".
Definition PROVIDER_RUNTIME_ALIASES : list (string * string) := [("deepseek", "openai"); ("local-openai", "openai")].
Definition DEEPSEEK_MODEL_ALIAS_MAP : list (string * string) :=
  [("deepseek-chat", "deepseek-chat"); ("deepseek-v3", "deepseek-chat"); ("deepseek-v3-0324", "deepseek-chat");
   ("deepseek-v3.1", "deepseek-chat"); ("deepseek-v3.1-terminus", "deepseek-chat"); ("deepseek-v3.2", "deepseek-chat");
   ("deepseek-v3.2-exp", "deepseek-chat"); ("deepseek-reasoner", "deepseek-reasoner");
   ("deepseek-r1", "deepseek-reasoner"); ("deepseek-r1-0528", "deepseek-reasoner")].
Definition MAX_TOOL_ROUNDS : nat := 20.
Definition COMPACT_MODE_MAX_TOOL_ROUNDS : nat := 8.
Definition TOOL_ERROR_PREVIEW_MAX_CHARS : nat := 240.
Definition EMPTY_REPLY_URL_SCAN_LIMIT : nat := 20.
Definition DEFAULT_TOOL_RESULT_CONTEXT_MAX_CHARS : Z := 12000.
Definition DEFAULT_COMPACT_TOOL_RESULT_CONTEXT_MAX_CHARS : Z := 2500.
Definition DEFAULT_COMPACT_HISTORY_MESSAGES : Z := 10.
Definition MIN_COMPACT_HISTORY_MESSAGES : Z := 2.
Definition MAX_COMPACT_HISTORY_MESSAGES : Z := 20.
Definition DEFAULT_PROVIDER_TIMEOUT_MS : Z := 10 * 60000.
Definition MIN_PROVIDER_TIMEOUT_MS : Z := 5000.
Definition MAX_PROVIDER_TIMEOUT_MS : Z := 24 * 60 * 60000.
Definition DEFAULT_LOCAL_PROVIDER_TIMEOUT_MS : Z := 30 * 60000.
Definition MIN_LOCAL_PROVIDER_TIMEOUT_MS : Z := 60000.
Definition DEFAULT_TOOL_TIMEOUT_MS : Z := 180000.
Definition MIN_TOOL_TIMEOUT_MS : Z := 5000.
Definition MAX_TOOL_TIMEOUT_MS : Z := 30 * 60000.
Definition LOCAL_MODEL_DISCOVERY_TTL_MS : Z := 30000.

(** ** Local endpoints *)

(** [/^(\d{1,3})\.(\d{1,3})\.(\d{1,3})\.(\d{1,3})$/] and the numbers of its first two groups *)
Definition ipv4 : rx := re_ "^(\d{1,3})\.(\d{1,3})\.(\d{1,3})\.(\d{1,3})$".
Definition hostLooksLocal (hostname : string) : bool :=
  let host := toLowerCase (trim hostname) in
  if negb (truthy host) then false
  else if (host =? "localhost")%string || (host =? "::1")%string || endsWith ".local" host then true
  else if startsWith "127." host then true
  else
    match exec ipv4 host with
    | None => false
    | Some m =>
        let a := num_of_string (group 1 m) in
        let b := num_of_string (group 2 m) in
        let le x y := negb (num_lt y x) in
        if num_eq a (NInt 10) then true
        else if num_eq a (NInt 192) && num_eq b (NInt 168) then true
        else if num_eq a (NInt 172) && le (NInt 16) b && le b (NInt 31) then true
        else if num_eq a (NInt 100) && le (NInt 64) b && le b (NInt 127) then true
        else false
    end.

Section Settings.
Variable env : list (string * string).
(** [new URL(s).hostname], [None] when the constructor throws *)
Variable hostname_of : string -> option string.

Definition isLikelyLocalProviderEndpoint (routeProviderId : string) (baseUrl : option string) : bool :=
  let providerId := toLowerCase (trim routeProviderId) in
  if (providerId =? "local-openai")%string || includes "local" providerId then true
  else
    let rawBaseUrl := trim (default "" baseUrl) in
    if negb (truthy rawBaseUrl) then false
    else match hostname_of rawBaseUrl with Some hostname => hostLooksLocal hostname | None => false end.

(** [Math.floor(n)] and [Math.floor(n * 1000)] of a finite number *)
Definition floored (n : num) : Z := match n with NFin m k => (m / pow10 k)%Z | _ => 0%Z end.
Definition floored_thousand (n : num) : Z := match n with NFin m k => (m * 1000 / pow10 k)%Z | _ => 0%Z end.
Definition env_number (k : string) : num := num_of_string (env_var env k).
Definition clamped (low high z : Z) : Z := Z.min high (Z.max low z).
(** A limit in seconds, else in milliseconds, else [fallback]. *)
Definition limit_from (sec_var ms_var : string) (low high fallback : Z) : Z :=
  let rawSec := env_number sec_var in
  if positive rawSec then clamped low high (floored_thousand rawSec)
  else
    let rawMs := env_number ms_var in
    if positive rawMs then clamped low high (floored rawMs) else fallback.

Definition resolveProviderTimeoutMs (routeProviderId : string) (baseUrl : option string) : Z :=
  limit_from "T560_PROVIDER_TIMEOUT_SEC" "T560_PROVIDER_TIMEOUT_MS" MIN_PROVIDER_TIMEOUT_MS MAX_PROVIDER_TIMEOUT_MS
    (if isLikelyLocalProviderEndpoint routeProviderId baseUrl
     then limit_from "T560_PROVIDER_TIMEOUT_LOCAL_SEC" "T560_PROVIDER_TIMEOUT_LOCAL_MS" MIN_LOCAL_PROVIDER_TIMEOUT_MS
            MAX_PROVIDER_TIMEOUT_MS DEFAULT_LOCAL_PROVIDER_TIMEOUT_MS
     else DEFAULT_PROVIDER_TIMEOUT_MS).
Definition resolveToolExecutionTimeoutMs : Z :=
  limit_from "T560_TOOL_TIMEOUT_SEC" "T560_TOOL_TIMEOUT_MS" MIN_TOOL_TIMEOUT_MS MAX_TOOL_TIMEOUT_MS DEFAULT_TOOL_TIMEOUT_MS.

Definition parseExplicitBoolean (v : string) : option bool :=
  let normalized := toLowerCase (trim v) in
  if negb (truthy normalized) then None
  else if bool_decide (normalized ∈ ["1"; "true"; "yes"; "on"]) then Some true
  else if bool_decide (normalized ∈ ["0"; "false"; "no"; "off"]) then Some false
  else None.
Definition isCompactModeEnabled (routeProviderId : string) (baseUrl : option string) : bool :=
  match parseExplicitBoolean (env_var env "T560_SMALL_MODEL_MODE") with
  | Some explicit => explicit
  | None => isLikelyLocalProviderEndpoint routeProviderId baseUrl
  end.
Definition resolveCompactHistoryMessages : Z :=
  let raw := env_number "T560_SMALL_MODEL_HISTORY_MESSAGES" in
  if positive raw then clamped MIN_COMPACT_HISTORY_MESSAGES MAX_COMPACT_HISTORY_MESSAGES (floored raw)
  else DEFAULT_COMPACT_HISTORY_MESSAGES.
Definition above_200 (n : num) : bool := isFinite n && num_lt (NInt 200) n.
Definition resolveToolResultContextMaxChars (compactMode : bool) : Z :=
  let raw := env_number "T560_TOOL_RESULT_CONTEXT_MAX_CHARS" in
  if above_200 raw then floored raw
  else
    let rawCompact := env_number "T560_TOOL_RESULT_CONTEXT_COMPACT_MAX_CHARS" in
    if compactMode && above_200 rawCompact then floored rawCompact
    else if compactMode then DEFAULT_COMPACT_TOOL_RESULT_CONTEXT_MAX_CHARS else DEFAULT_TOOL_RESULT_CONTEXT_MAX_CHARS.
End Settings.

Definition newline : string := of_chars [ascii_of_nat 10].
Definition clampTextForModelContext (text : string) (maxChars : Z) : string :=
  if (Z.of_nat (slen text) <=? maxChars)%Z then text
  else slice_to (Z.to_nat (Z.max 0 (maxChars - 42))) text +:+ newline +:+ newline +:+ "[truncated for model context]".

(** ** Providers *)

Definition defaultBaseUrlForProviderAlias (providerId : string) : option string :=
  let normalized := toLowerCase (trim providerId) in
  if (normalized =? "deepseek")%string then Some "https://api.deepseek.com/v1"
  else if (normalized =? "local-openai")%string then Some "http://127.0.0.1:8080/v1"
  else None.

Definition normalizeBaseUrl (v : option string) : option string :=
  let trimmed := trim (default "" v) in
  if negb (truthy trimmed) then None
  else Some (if endsWith "/" trimmed then slice_to (slen trimmed - 1) trimmed else trimmed).
Definition normalizeOpenAICompatibleBaseUrl (v : option string) : option string :=
  match normalizeBaseUrl v with
  | None => None
  | Some normalized =>
      if negb (truthy normalized) then None
      else Some (replaceFirst (re_i "/v1/chat$") "/v1" (replaceFirst (re_i "/chat/completions$") "" normalized))
  end.
(** [Boolean(s)] of an optional string *)
Definition truthy_opt (o : option string) : bool := truthy (default "" o).
Definition isCustomOpenAIBaseUrl (baseUrl : option string) : bool :=
  truthy_opt baseUrl && negb (test (re_i "^https?://api\.openai\.com(?:/v1)?/?$") (default "" baseUrl)).

Record RuntimeProvider := mkRuntime {
  requestedProvider : string;
  runtimeProvider : string;
  baseUrlOverride : option string;
}.

Section Providers.
(** [getProviders()] *)
Variable SUPPORTED_PROVIDERS : list string.
Definition supported (p : string) : bool := bool_decide (p ∈ SUPPORTED_PROVIDERS).

Definition resolveRuntimeProvider (routeProviderId0 : string) (profile : ProviderProfile) : result RuntimeProvider :=
  let routeProviderId := toLowerCase (trim routeProviderId0) in
  let profileProvider := toLowerCase (trim (provider profile)) in
  let requested := if truthy profileProvider then profileProvider else routeProviderId in
  if negb (truthy requested) then Throw ("Provider route '" +:+ routeProviderId0 +:+ "' does not specify a runtime provider.")
  else if supported requested then Ok (mkRuntime requested requested None)
  else
    let custom :=
      if truthy_opt (normalizeBaseUrl (baseUrl profile)) && supported OPENAI_RUNTIME_PROVIDER
      then Ok (mkRuntime requested OPENAI_RUNTIME_PROVIDER None)
      else Throw ("Provider '" +:+ requested +:+ "' is not supported by the provider runtime.") in
    match obj_lookup requested PROVIDER_RUNTIME_ALIASES with
    | Own alias =>
        if supported alias then Ok (mkRuntime requested alias (defaultBaseUrlForProviderAlias requested)) else custom
    | _ => custom
    end.
End Providers.

(** [profile.apiKey || profile.token || profile.oauthToken] *)
Definition extractCredential (profile : ProviderProfile) : option string :=
  if truthy_opt (apiKey profile) then apiKey profile
  else if truthy_opt (token profile) then token profile
  else if truthy_opt (oauthToken profile) then oauthToken profile
  else None.

(** ** Model definitions *)

(** An inherited member of the map stands as its text. *)
Definition inherited_text (k : string) : string :=
  if (k =? "constructor")%string then "function Object() { [native code] }" else "[object Object]".
Definition resolveModelAlias (runtime requested modelId : string) : string :=
  let trimmed := trim modelId in
  if negb (truthy trimmed) then modelId
  else
    let canonical := toLowerCase trimmed in
    let plain :=
      if (runtime =? "openai-codex")%string && bool_decide (canonical ∈ ["gpt-5-mini"; "gpt-s-mini"; "gpt-5"; "gpt-5-codex"])
      then "gpt-5.1-codex-mini" else trimmed in
    if (requested =? "deepseek")%string
    then match obj_lookup canonical DEEPSEEK_MODEL_ALIAS_MAP with
         | Own deepseekAlias => deepseekAlias
         | Inherited => inherited_text canonical
         | Missing => plain
         end
    else plain.

Definition resolveModelApi (runtime : string) (profile : ProviderProfile) (templateApi : value) (baseUrl : option string) : value :=
  let configuredApi := trim (default "" (api profile)) in
  if truthy configuredApi then VStr configuredApi
  else if (runtime =? "openai")%string && isCustomOpenAIBaseUrl baseUrl then VStr "openai-completions"
  else templateApi.

Definition headers_value (o : option (list (string * string))) : value :=
  match o with Some h => VObj (map (fun x => (x.1, VStr x.2)) h) | None => VUndef end.
Definition compat_value (o : option value) : value := default VUndef o.
Definition when (b : bool) (fields : list (string * value)) : list (string * value) := if b then fields else [].

Definition applyProfileModelOverrides (runtime : string) (profile : ProviderProfile) (modelDef : value) : value :=
  let url := normalizeBaseUrl (baseUrl profile) in
  let modelApi := resolveModelApi runtime profile
                    (VStr (to_string (nullish (get_prop "api" modelDef) (VStr "openai-responses")))) url in
  let modelCompat := nullish (compat_value (compat profile)) (get_prop "compat" modelDef) in
  let modelHeaders := nullish (headers_value (headers profile)) (get_prop "headers" modelDef) in
  if negb (truthy_opt url) && negb (truthy_opt (api profile)) && negb (to_bool modelHeaders) &&
     negb (to_bool (compat_value (compat profile)))
  then modelDef
  else spread modelDef
         (when (truthy_opt url) [("baseUrl", VStr (default "" url))] ++ [("api", modelApi)] ++
          when (to_bool modelHeaders) [("headers", modelHeaders)] ++ when (to_bool modelCompat) [("compat", modelCompat)]).

Section Models.
(** [getModels(provider)], [None] when it throws *)
Variable getModels : string -> option (list value).

Definition getModelsSafe (p : string) : list string :=
  map (fun m => to_string (get_prop "id" m)) (default [] (getModels p)).

(** The template's own URL is a value: [normalizeBaseUrl(...) ?? template.baseUrl]. *)
Definition buildCustomModelDefinition (runtime : string) (profile : ProviderProfile) (modelId : string) : result (option value) :=
  match getModels runtime with
  | None => Throw "getModels"
  | Some [] => Ok None
  | Some (template :: _) =>
      let url := match normalizeBaseUrl (baseUrl profile) with Some u => VStr u | None => get_prop "baseUrl" template end in
      let modelApi := resolveModelApi runtime profile (get_prop "api" template)
                        (match url with VStr u => Some u | _ => None end) in
      Ok (Some (spread template
        ([("id", VStr modelId); ("name", VStr modelId); ("provider", VStr runtime); ("baseUrl", url); ("api", modelApi)] ++
         when (to_bool (headers_value (headers profile))) [("headers", headers_value (headers profile))] ++
         when (to_bool (compat_value (compat profile))) [("compat", compat_value (compat profile))])))
  end.
End Models.

(** ** Models of a local server *)

Definition hasHeaderCaseInsensitive (hs : list (string * string)) (name : string) : bool :=
  let target := toLowerCase (trim name) in
  existsb (fun key => (toLowerCase (trim key) =? target)%string) (keys hs).

Record discovery := mkDiscovery { expiresAt : Z; discovered : list string }.
Definition cache := list (string * discovery).

(** The headers of the request: [{accept, ...headers}] and the key. *)
Definition request_headers (apiKey : option string) (hs : option (list (string * string))) : list (string * string) :=
  let all := fold_left (fun h x => mset x.1 x.2 h) (default [] hs) [("accept", "application/json")] in
  if truthy_opt apiKey && negb (hasHeaderCaseInsensitive all "authorization")
  then mset "authorization" ("Bearer " +:+ default "" apiKey) all else all.
(** [payload.data.map(entry => String(entry?.id ?? "").trim()).filter(Boolean)] *)
Definition offered (payload : value) : list string :=
  match get_prop "data" payload with
  | VArr rows => List.filter truthy (map (fun e => trim (to_string (nullish (get_prop "id" e) (VStr "")))) rows)
  | _ => []
  end.

(** [fetch url headers] is the JSON of a response that is ok, [None] for any
    other, an abort after the time limit or an error.  [asked] and [answered] are
    the times of the two readings of the clock. *)
Definition discoverLocalOpenAIModels (fetch : string -> list (string * string) -> option value) (asked answered : Z)
    (url : option string) (apiKey : option string) (hs : option (list (string * string))) (c : cache) : list string * cache :=
  match normalizeBaseUrl url with
  | None => ([], c)
  | Some base =>
      if negb (truthy base) then ([], c)
      else
        let fetched :=
          match fetch (base +:+ "/models") (request_headers apiKey hs) with
          | None => ([], c)
          | Some payload =>
              (offered payload, mset base (mkDiscovery (answered + LOCAL_MODEL_DISCOVERY_TTL_MS) (offered payload)) c)
          end in
        match mget base c with
        | Some d => if (asked <? expiresAt d)%Z then (discovered d, c) else fetched
        | None => fetched
        end
  end.

(** ** The choice of a model *)

Definition key_char (c : ascii) : bool := is_lower c || is_digit c.
Definition normalizeModelLookupKey (v : string) : string := replace_outside key_char [] (toLowerCase v).
Definition modelIdTail (v : string) : string :=
  let trimmed := trim v in
  if negb (truthy trimmed) then "" else trim (default "" (last (split_char "/" trimmed))).
Definition modelTokens (v : string) : list string :=
  List.filter (fun token => 2 <=? slen token)
    (map (fun w => trim (of_chars w)) (split_list (fun c => negb (key_char c)) (chars (toLowerCase v)))).
(** Either text includes the other. *)
Definition overlaps (a b : string) : bool := includes b a || includes a b.
Definition points (b : bool) (n : nat) : nat := if b then n else 0.

Definition scoreModelSimilarity (requested candidate : string) : nat :=
  let req := trim requested in
  let cand := trim candidate in
  if negb (truthy req) || negb (truthy cand) then 0
  else
    let reqLower := toLowerCase req in
    let candLower := toLowerCase cand in
    if (reqLower =? candLower)%string then 100
    else
      let reqKey := normalizeModelLookupKey req in
      let candKey := normalizeModelLookupKey cand in
      let reqTail := modelIdTail req in
      let candTail := modelIdTail cand in
      let reqTailLower := toLowerCase reqTail in
      let candTailLower := toLowerCase candTail in
      let reqTailKey := normalizeModelLookupKey reqTail in
      let candTailKey := normalizeModelLookupKey candTail in
      let reqTokens := dedup (modelTokens (if truthy reqTail then reqTail else req)) in
      let candTokens := modelTokens (if truthy candTail then candTail else cand) in
      points (truthy reqTailLower && (reqTailLower =? candTailLower)%string) 40 +
      points (truthy reqTailKey && (reqTailKey =? candTailKey)%string) 35 +
      (if truthy reqKey && truthy candKey
       then if (reqKey =? candKey)%string then 30 else points (overlaps reqKey candKey) 20
       else 0) +
      points (overlaps reqLower candLower) 10 +
      points (truthy reqTailLower && truthy candTailLower && overlaps reqTailLower candTailLower) 10 +
      2 * length (List.filter (fun token => bool_decide (token ∈ candTokens)) reqTokens).

(** [l.length === 1 ? l[0] : otherwise] *)
Definition single {A} (l : list A) : option A := match l with [x] => Some x | _ => None end.
Definition ranking (requested : string) (available : list string) : list (string * nat) :=
  stable_sort (fun a b => b.2 <? a.2) (map (fun e => (e, scoreModelSimilarity requested e)) available).
Definition best_ranked (ranked : list (string * nat)) : option string :=
  match ranked with
  | [] => None
  | (best, n) :: rest =>
      if (8 <=? n) && match rest with [] => true | (_, n2) :: _ => n2 + 4 <=? n end then Some best else None
  end.

Definition first_some {A} (a b : option A) : option A := match a with Some _ => a | None => b end.
Definition by_tail (requested : string) (available : list string) : option string :=
  let tail := modelIdTail requested in
  if negb (truthy tail) then None
  else first_some (single (List.filter (fun e => (toLowerCase (modelIdTail e) =? toLowerCase tail)%string) available))
         (single (List.filter (fun e => (normalizeModelLookupKey (modelIdTail e) =? normalizeModelLookupKey tail)%string) available)).

Definition remapModelIdFromAvailable (requested : string) (available : list string) : string :=
  let trimmed := trim requested in
  if negb (truthy trimmed) || (length available =? 0) then trimmed
  else
    match List.find (fun e => (toLowerCase e =? toLowerCase trimmed)%string) available with
    | Some (String _ _ as e) => e
    | _ =>
        let key := normalizeModelLookupKey trimmed in
        if negb (truthy key) then trimmed
        else
          default trimmed
            (first_some (single (List.filter (fun e => (normalizeModelLookupKey e =? key)%string) available))
            (first_some (by_tail trimmed available)
            (first_some (best_ranked (ranking trimmed available)) (single available))))
    end.

(** ** Messages about failures *)

Definition oneLineError (v : string) (maxChars : nat) : string :=
  let compact := trim (replace_runs is_ws [" "%char] v) in
  if negb (truthy compact) then "unknown provider error"
  else if slen compact <=? maxChars then compact
  else trim (slice_to (maxChars - 3) compact) +:+ "...".
Definition formatProviderRuntimeFailure (prov model : string) (endpoint : option string) (rawError : string)
    (availableModels : list string) : string :=
  let errorText := oneLineError rawError 320 in
  let endpointHint := if truthy_opt endpoint then " endpoint=" +:+ default "" endpoint else "" in
  let availableModelsHint :=
    if 0 <? length availableModels then " Available local models: " +:+ join ", " (firstn 8 availableModels) +:+ "." else "" in
  let lower := toLowerCase errorText in
  let head := "Provider request failed (" +:+ prov +:+ "/" +:+ model +:+ ")." in
  if includes "405" lower
  then head +:+ " Received HTTP 405." +:+ endpointHint +:+ " Check the base URL: use an API root like .../v1, not .../v1/chat."
  else if includes "openai api key is required" lower
  then head +:+ " The OpenAI-compatible client requires a non-empty API key value for this request path." +:+ endpointHint
  else if includes "no instance found for model" lower || includes "model" lower && includes "not found" lower
  then head +:+ " Model id is not available on the local server." +:+ endpointHint +:+ availableModelsHint +:+
       " Use an exact model id from GET /v1/models."
  else head +:+ " " +:+ errorText +:+ endpointHint.

(** ** Lemmas *)

Lemma truthy_lower s : truthy (toLowerCase s) = truthy s.
Proof.
  apply eq_true_iff_eq. by rewrite !truthy_slen, slen_toLowerCase.
Qed.
Lemma lookup_key_lower s : normalizeModelLookupKey (toLowerCase s) = normalizeModelLookupKey s.
Proof. unfold normalizeModelLookupKey. by rewrite toLowerCase_idemp. Qed.
Lemma modelTokens_lower s : modelTokens (toLowerCase s) = modelTokens s.
Proof. unfold modelTokens. by rewrite toLowerCase_idemp. Qed.
Lemma split_slash_lower l :
  split_list (fun d => bool_decide (d = slash)) (map lower_char l) =
  map (map lower_char) (split_list (fun d => bool_decide (d = slash)) l).
Proof.
  induction l as [|c l IH]; [done|]. cbn [map split_list].
  assert (bool_decide (lower_char c = slash) = bool_decide (c = slash)) as -> by by_ascii c.
  rewrite IH. destruct (bool_decide (c = slash)); [done|].
  by destruct (split_list _ l).
Qed.
Lemma modelIdTail_lower s : modelIdTail (toLowerCase s) = toLowerCase (modelIdTail s).
Proof.
  unfold modelIdTail. rewrite trim_toLowerCase, truthy_lower. destruct (truthy (trim s)); [|done]. cbn [negb].
  assert (split_char "/" (toLowerCase (trim s)) = map toLowerCase (split_char "/" (trim s))) as ->.
  { unfold split_char, toLowerCase at 1. rewrite chars_of_chars, split_slash_lower, !map_map.
    apply map_ext. intros w. unfold toLowerCase. by rewrite chars_of_chars. }
  rewrite fmap_last. destruct (last _); [|done]. apply trim_toLowerCase.
Qed.

(** The score looks at a candidate in lower case only. *)
Lemma score_lower req cand : scoreModelSimilarity req (toLowerCase cand) = scoreModelSimilarity req cand.
Proof.
  unfold scoreModelSimilarity. rewrite !trim_toLowerCase, !truthy_lower, !toLowerCase_idemp, !lookup_key_lower.
  rewrite !modelIdTail_lower, !toLowerCase_idemp, !truthy_lower, !lookup_key_lower.
  assert (forall a b : string, modelTokens (if truthy a then toLowerCase a else toLowerCase b)
            = modelTokens (if truthy a then a else b)) as T by (intros a b; destruct (truthy a); apply modelTokens_lower).
  by rewrite T.
Qed.
Lemma score_same_lower req a b : toLowerCase a = toLowerCase b -> scoreModelSimilarity req a = scoreModelSimilarity req b.
Proof. intros E. by rewrite <- (score_lower req a), E, score_lower. Qed.

Lemma single_some {A} (l : list A) x : single l = Some x <-> l = [x].
Proof. destruct l as [|y [|]]; simpl; naive_solver. Qed.
Lemma single_filter {A} (p : A -> bool) l x :
  single (List.filter p l) = Some x -> x ∈ l /\ p x = true /\ forall y, y ∈ l -> p y = true -> y = x.
Proof.
  intros H%single_some. assert (forall y, y ∈ l -> p y = true -> y = x) as U.
  { intros y Hy Py. assert (y ∈ List.filter p l) as I by (apply list_elem_of_In, filter_In; by rewrite <- list_elem_of_In).
    rewrite H in I. by apply list_elem_of_singleton in I. }
  assert (x ∈ List.filter p l) as I by (rewrite H; set_solver).
  apply list_elem_of_In, filter_In in I as [I%list_elem_of_In P]. done.
Qed.

(** A model is chosen by rank only when no other has its score. *)
Lemma best_ranked_unique req av m : best_ranked (ranking req av) = Some m ->
  m ∈ av /\ forall e, e ∈ av -> scoreModelSimilarity req e = scoreModelSimilarity req m -> e = m.
Proof.
  unfold best_ranked, ranking. set (rows := map (fun e => (e, scoreModelSimilarity req e)) av).
  pose proof (stable_sort_perm (fun a b : string * nat => b.2 <? a.2) rows) as P.
  assert (StronglySorted (fun a b : string * nat => (a.2 <? b.2) = false) (stable_sort (fun a b => b.2 <? a.2) rows)) as S.
  { apply (stable_sort_sorted (fun a b : string * nat => b.2 <? a.2)); intros; bool_prop; apply Nat.ltb_ge; lia. }
  assert (forall e n, (e, n) ∈ stable_sort (fun a b : string * nat => b.2 <? a.2) rows <-> e ∈ av /\ n = scoreModelSimilarity req e) as M.
  { intros e n. rewrite <- P. unfold rows. rewrite list_elem_of_fmap. naive_solver. }
  destruct (stable_sort _ rows) as [|[x n] rest]; [done|]. destruct (_ && _) eqn:B; [|done]. intros [= ->]. bool_prop.
  assert ((m, n) ∈ (m, n) :: rest) as Mm by set_solver. apply M in Mm as [Im ->]. split; [done|].
  intros e Ie E. assert ((e, scoreModelSimilarity req e) ∈ (m, scoreModelSimilarity req m) :: rest) as Me by (by apply M).
  apply elem_of_cons in Me as [[= ->]|Me]; [done|]. exfalso.
  destruct rest as [|[x2 n2] rest]; [by apply elem_of_nil in Me|]. apply StronglySorted_inv in S as [S _].
  apply StronglySorted_inv in S as [_ F]. rewrite Forall_forall in F. bool_prop.
  apply elem_of_cons in Me as [[= _ X]|Me]; [lia|]. apply F in Me. cbn [snd] in Me. bool_prop. lia.
Qed.

Lemma find_lower e l : (exists x, x ∈ l /\ toLowerCase x = e) ->
  exists y, List.find (fun x => (toLowerCase x =? e)%string) l = Some y /\ y ∈ l /\ toLowerCase y = e.
Proof.
  intros (x & I & E). destruct (List.find _ l) as [y|] eqn:F.
  - apply find_some in F as [J%list_elem_of_In Q]. bool_prop. by exists y.
  - apply list_elem_of_In in I. eapply find_none in F; [|exact I]. rewrite E in F. bool_prop. done.
Qed.

(** A name the server offers, in any case, is taken. *)
Lemma remap_offered req av : truthy (trim req) = true ->
  (exists e, e ∈ av /\ toLowerCase e = toLowerCase (trim req)) ->
  exists m, remapModelIdFromAvailable req av = m /\
    List.find (fun x => (toLowerCase x =? toLowerCase (trim req))%string) av = Some m.
Proof.
  intros T Ex. destruct (find_lower _ _ Ex) as (m & F & I & E). exists m. split; [|done].
  unfold remapModelIdFromAvailable. rewrite T, F. cbn [negb orb].
  destruct av; [by apply elem_of_nil in I|]. simpl. destruct m; [|done].
  exfalso. rewrite <- truthy_lower, <- E in T. done.
Qed.

Lemma first_some_or {A} (a b : option A) x : first_some a b = Some x -> a = Some x \/ b = Some x.
Proof. destruct a; simpl; auto. Qed.

(** What stands when no name is the same in any case: one of the four later
    choices, each of which no other name of the same lower case could be. *)
Lemma remap_other req av :
  (forall e, e ∈ av -> toLowerCase e <> toLowerCase (trim req)) ->
  remapModelIdFromAvailable req av = trim req \/
  exists m, remapModelIdFromAvailable req av = m /\ m ∈ av /\ forall e, e ∈ av -> toLowerCase e = toLowerCase m -> e = m.
Proof.
  intros N. unfold remapModelIdFromAvailable. destruct (_ || _); [by left|].
  destruct (List.find _ av) as [y|] eqn:F.
  { apply find_some in F as [J%list_elem_of_In Q]. bool_prop. by destruct (N y J). }
  destruct (negb _); [by left|]. set (choice := first_some _ _).
  assert (forall m, choice = Some m -> m ∈ av /\ forall e, e ∈ av -> toLowerCase e = toLowerCase m -> e = m) as C.
  { intros m. assert (forall p, single (List.filter p av) = Some m -> (forall e, toLowerCase e = toLowerCase m -> p e = p m) ->
      m ∈ av /\ forall e, e ∈ av -> toLowerCase e = toLowerCase m -> e = m) as U.
    { intros p (I & P & U)%single_filter Pl. split; [done|]. intros e Ie E. apply U; [done|]. by rewrite (Pl _ E). }
    assert (forall e, toLowerCase e = toLowerCase m -> normalizeModelLookupKey e = normalizeModelLookupKey m) as K
      by (intros e E; by rewrite <- lookup_key_lower, E, lookup_key_lower).
    assert (forall e, toLowerCase e = toLowerCase m -> toLowerCase (modelIdTail e) = toLowerCase (modelIdTail m)) as T
      by (intros e E; by rewrite <- !modelIdTail_lower, E).
    intros [H|[H|[H|H]%first_some_or]%first_some_or]%first_some_or.
    - eapply U; [exact H|]. intros e E. cbv beta. by rewrite (K e E).
    - unfold by_tail in H. destruct (negb _); [done|]. apply first_some_or in H as [H|H]; (eapply U; [exact H|]); intros e E; cbv beta.
      + by rewrite (T e E).
      + by rewrite <- (lookup_key_lower (modelIdTail e)), (T e E), lookup_key_lower.
    - apply best_ranked_unique in H as [I Q]. split; [done|]. intros e Ie E. apply Q; [done|]. by apply score_same_lower.
    - apply single_some in H as ->. split; [by apply list_elem_of_singleton|]. intros e Ie _. by apply list_elem_of_singleton in Ie. }
  destruct choice as [m|]; [|by left]. right. exists m. split; [done|]. by apply C.
Qed.

(** ** Properties *)

(** The model asked of a local server is one it offers or the name that was
    given; a name the server offers in some case is chosen; and choosing again
    with the chosen name changes nothing. *)
Theorem remap_stable req av :
  Forall (fun e => trim e = e) av ->
  let m := remapModelIdFromAvailable req av in
  (m ∈ av \/ m = trim req) /\
  (truthy (trim req) = true -> (exists e, e ∈ av /\ toLowerCase e = toLowerCase (trim req)) ->
     m ∈ av /\ toLowerCase m = toLowerCase (trim req)) /\
  remapModelIdFromAvailable m av = m.
Proof.
  intros T m. destruct (truthy (trim req)) eqn:R.
  2: { assert (m = trim req) as -> by (unfold m, remapModelIdFromAvailable; by rewrite R).
       split; [by right|]. split; [done|]. unfold remapModelIdFromAvailable. by rewrite trim_idemp, R. }
  destruct (List.find (fun x => (toLowerCase x =? toLowerCase (trim req))%string) av) as [y|] eqn:F.
  - pose proof F as F'. apply find_some in F' as [J%list_elem_of_In Q]. bool_prop.
    destruct (remap_offered req av R) as (m' & E & F''); [by exists y|]. rewrite F in F''. injection F'' as <-.
    assert (m = y) as -> by done. split; [by left|]. split; [done|].
    rewrite Forall_forall in T. pose proof (T y J) as Ty.
    destruct (remap_offered y av) as (m' & E' & F'); [by rewrite Ty, <- truthy_lower, Q, truthy_lower|by exists y; rewrite Ty|].
    rewrite Ty, Q, F in F'. congruence.
  - assert (forall e, e ∈ av -> toLowerCase e <> toLowerCase (trim req)) as N.
    { intros e I%list_elem_of_In E. eapply find_none in F; [|exact I]. rewrite E in F. bool_prop. done. }
    destruct (remap_other req av N) as [E|(m' & E & I & U)].
    + assert (m = trim req) as -> by done. split; [by right|]. split; [intros _ (e & I & X); by destruct (N e I)|].
      rewrite <- E at 2. unfold remapModelIdFromAvailable. by rewrite trim_idemp.
    + assert (m = m') as -> by done. split; [by left|]. split; [intros _ (e & Ie & X); by destruct (N e Ie)|].
      rewrite Forall_forall in T. pose proof (T m' I) as Tm. destruct (truthy m') eqn:Tr.
      * destruct (remap_offered m' av) as (m2 & E2 & F2); [by rewrite Tm|by exists m'; rewrite Tm|].
        apply find_some in F2 as [J%list_elem_of_In Q]. bool_prop. rewrite E2. apply U; [done|]. by rewrite Q, Tm.
      * unfold remapModelIdFromAvailable. by rewrite Tm, Tr.
Qed.

Lemma limit_from_bounds env sec ms low high fallback :
  (low <= high)%Z -> (low <= fallback <= high)%Z -> (low <= limit_from env sec ms low high fallback <= high)%Z.
Proof. intros H F. unfold limit_from, clamped. repeat case_match; lia. Qed.

(** The limits of a request to the provider and of a tool call: whatever the
    environment holds, a request waits between five seconds and a day (a local
    one that sets no general limit at least a minute) and a tool between five
    seconds and half an hour. *)
Theorem timeouts_bounded env hostname_of route url :
  (MIN_PROVIDER_TIMEOUT_MS <= resolveProviderTimeoutMs env hostname_of route url <= MAX_PROVIDER_TIMEOUT_MS)%Z /\
  (isLikelyLocalProviderEndpoint hostname_of route url = true ->
   positive (env_number env "T560_PROVIDER_TIMEOUT_SEC") = false ->
   positive (env_number env "T560_PROVIDER_TIMEOUT_MS") = false ->
   (MIN_LOCAL_PROVIDER_TIMEOUT_MS <= resolveProviderTimeoutMs env hostname_of route url)%Z) /\
  (MIN_TOOL_TIMEOUT_MS <= resolveToolExecutionTimeoutMs env <= MAX_TOOL_TIMEOUT_MS)%Z /\
  (MIN_COMPACT_HISTORY_MESSAGES <= resolveCompactHistoryMessages env <= MAX_COMPACT_HISTORY_MESSAGES)%Z.
Proof.
  assert (forall f, (MIN_LOCAL_PROVIDER_TIMEOUT_MS <= limit_from env "T560_PROVIDER_TIMEOUT_LOCAL_SEC" f MIN_LOCAL_PROVIDER_TIMEOUT_MS
            MAX_PROVIDER_TIMEOUT_MS DEFAULT_LOCAL_PROVIDER_TIMEOUT_MS <= MAX_PROVIDER_TIMEOUT_MS)%Z) as L
    by (intros f; apply limit_from_bounds; by vm_compute).
  split; [|split; [|split]].
  - apply limit_from_bounds; [by vm_compute|]. case_match; [|by vm_compute].
    pose proof (L "T560_PROVIDER_TIMEOUT_LOCAL_MS") as X. cbv [MIN_LOCAL_PROVIDER_TIMEOUT_MS MIN_PROVIDER_TIMEOUT_MS] in *. lia.
  - intros Lo S M. unfold resolveProviderTimeoutMs, limit_from at 1. rewrite S, M, Lo. apply L.
  - apply limit_from_bounds; by vm_compute.
  - unfold resolveCompactHistoryMessages, clamped. case_match; [|by vm_compute].
    cbv [MIN_COMPACT_HISTORY_MESSAGES MAX_COMPACT_HISTORY_MESSAGES]. lia.
Qed.

Lemma floored_above n : above_200 n = true -> (200 <= floored n)%Z.
Proof.
  unfold above_200, num_lt, floored, NInt, isFinite. destruct n; try done. cbn [andb]. intros H. bool_prop.
  apply Z.div_le_lower_bound; unfold pow10 in *; [apply Z.pow_pos_nonneg; lia|]. simpl in H. lia.
Qed.
(** The text of a tool result in the model's context is within the limit of the
    settings, which is at least 200, and short texts are unchanged. *)
Theorem context_text_bounded env compactMode text :
  let maxChars := resolveToolResultContextMaxChars env compactMode in
  (200 <= maxChars)%Z /\ (Z.of_nat (slen (clampTextForModelContext text maxChars)) <= maxChars)%Z /\
  ((Z.of_nat (slen text) <= maxChars)%Z -> clampTextForModelContext text maxChars = text).
Proof.
  intros maxChars. assert (200 <= maxChars)%Z as H.
  { unfold maxChars, resolveToolResultContextMaxChars. case_match eqn:A; [by apply floored_above|].
    case_match eqn:B; [bool_prop; by apply floored_above|]. by destruct compactMode; vm_compute. }
  split; [done|]. unfold clampTextForModelContext. destruct (_ <=? _)%Z eqn:E; bool_prop.
  - split; [done|by intros _].
  - split; [|lia]. rewrite !slen_app. unfold slice_to. rewrite slen_of_chars, length_firstn.
    replace (slen newline) with 1 by done. replace (slen "[truncated for model context]") with 29 by done. lia.
Qed.

(** A name without outer white space that is not empty. *)
Definition clean (m : string) : Prop := trim m = m /\ truthy m = true.
Definition clean_cache (c : cache) : Prop := Forall (fun d => Forall clean (discovered d.2)) c.
Lemma offered_clean payload : Forall clean (offered payload).
Proof.
  unfold offered. destruct (get_prop "data" payload); try constructor. apply Forall_forall.
  intros m [I T]%list_elem_of_In%filter_In. apply in_map_iff in I as (e & <- & _). split; [by rewrite trim_idemp|done].
Qed.

(** The models of a local server are names without outer white space, so that
    the choice among them is stable.  An answer is kept for thirty seconds: until
    then no request is made and the same models are returned; an answer that
    failed is not kept. *)
Theorem discovery_cached fetch asked answered url base key hs c models c' :
  normalizeBaseUrl url = Some base -> truthy base = true -> clean_cache c ->
  discoverLocalOpenAIModels fetch asked answered url key hs c = (models, c') ->
  Forall clean models /\ clean_cache c' /\
  (c' = c \/
   forall fetch' asked' answered' key' hs', (asked' < answered + LOCAL_MODEL_DISCOVERY_TTL_MS)%Z ->
     discoverLocalOpenAIModels fetch' asked' answered' url key' hs' c' = (models, c')) /\
  (fetch (base +:+ "/models") (request_headers key hs) = None -> c' = c).
Proof.
  intros B T C. unfold discoverLocalOpenAIModels. rewrite B, T. cbn [negb].
  set (fetched := match fetch _ _ with Some _ => _ | None => _ end). intros H.
  assert ((exists d, mget base c = Some d /\ (models, c') = (discovered d, c)) \/ (models, c') = fetched) as [(d & M & [= -> ->])|E].
  { destruct (mget base c) as [d|]; [|by right]. destruct (_ <? _)%Z; [left; by exists d|by right]. }
  - split; [|by eauto]. apply mget_In, list_elem_of_In in M. unfold clean_cache in C. rewrite Forall_forall in C. by apply C in M.
  - clear H. unfold fetched in E. destruct (fetch _ _) as [payload|]; injection E as -> ->; [|by eauto].
    split; [apply offered_clean|]. split; [apply Forall_mset; [apply offered_clean|done]|]. split; [|done]. right.
    intros f a a' k h L. rewrite mget_mset_eq. cbn [expiresAt discovered]. apply Z.ltb_lt in L as ->. done.
Qed.

(** A route runs with a provider the library supports: the one the profile (or,
    without it, the route) names, the one an alias stands for, or the
    OpenAI-compatible one when the profile gives an endpoint; any other is refused. *)
Theorem runtime_supported sup route profile :
  match resolveRuntimeProvider sup route profile with
  | Ok r =>
      runtimeProvider r ∈ sup /\ truthy (requestedProvider r) = true /\
      (runtimeProvider r = requestedProvider r \/
       requestedProvider r ∉ sup /\ runtimeProvider r = OPENAI_RUNTIME_PROVIDER /\
       (requestedProvider r ∈ keys PROVIDER_RUNTIME_ALIASES /\ baseUrlOverride r <> None \/
        truthy_opt (normalizeBaseUrl (baseUrl profile)) = true))
  | Throw _ =>
      trim (provider profile) = "" /\ trim route = "" \/
      OPENAI_RUNTIME_PROVIDER ∉ sup \/ truthy_opt (normalizeBaseUrl (baseUrl profile)) = false
  end.
Proof.
  unfold resolveRuntimeProvider. set (requested := if truthy _ then _ else _). destruct (truthy requested) eqn:T; cbn [negb].
  2: { left. unfold requested in T. rewrite truthy_lower in T. destruct (truthy (trim (provider profile))) eqn:P; [by rewrite truthy_lower, P in T|].
       rewrite truthy_lower in T. split; by apply truthy_false. }
  unfold supported. case_bool_decide as S; [by split_and!; [| |left]|].
  set (custom := if truthy_opt _ && _ then _ else _).
  assert (match custom with
          | Ok r => r = mkRuntime requested OPENAI_RUNTIME_PROVIDER None /\ OPENAI_RUNTIME_PROVIDER ∈ sup /\
                    truthy_opt (normalizeBaseUrl (baseUrl profile)) = true
          | Throw _ => OPENAI_RUNTIME_PROVIDER ∉ sup \/ truthy_opt (normalizeBaseUrl (baseUrl profile)) = false
          end) as Cu.
  { unfold custom. destruct (truthy_opt _) eqn:U; [|by right]. cbn [andb]. case_bool_decide as O; [done|by left]. }
  assert (match custom with
          | Ok r => runtimeProvider r ∈ sup /\ truthy (requestedProvider r) = true /\
                    (runtimeProvider r = requestedProvider r \/ requestedProvider r ∉ sup /\ runtimeProvider r = OPENAI_RUNTIME_PROVIDER /\
                     (requestedProvider r ∈ keys PROVIDER_RUNTIME_ALIASES /\ baseUrlOverride r <> None \/
                      truthy_opt (normalizeBaseUrl (baseUrl profile)) = true))
          | Throw _ => trim (provider profile) = "" /\ trim route = "" \/ OPENAI_RUNTIME_PROVIDER ∉ sup \/
                       truthy_opt (normalizeBaseUrl (baseUrl profile)) = false
          end) as Cu'.
  { destruct custom as [r|]; [|by right]. destruct Cu as (-> & O & U). cbn. split; [done|]. split; [done|]. right. auto. }
  destruct (obj_lookup requested PROVIDER_RUNTIME_ALIASES) as [alias| |] eqn:L; try exact Cu'.
  case_bool_decide as A; [|exact Cu']. cbn. split; [done|]. split; [done|]. right. split; [done|].
  unfold obj_lookup in L. destruct (mget requested _) as [x|] eqn:M; [|by case_bool_decide]. injection L as ->.
  apply mget_In in M. simpl in M. destruct M as [[= <- <-]|[[= <- <-]|[]]]; (split; [done|]); left; split; try by_decide; by vm_compute.
Qed.

Example inherited_model : resolveModelAlias "openai" "deepseek" "constructor" = "function Object() { [native code] }".
Proof. reflexivity. Qed.
Example remap_local :
  remapModelIdFromAvailable "Qwen2.5 7B" ["llama-3"; "lmstudio/qwen2.5-7b"; "qwen2.5-coder"] = "lmstudio/qwen2.5-7b".
Proof. vm_compute. reflexivity. Qed.

Lemma remap_stable_witness :
  let av := ["llama-3"; "lmstudio/qwen2.5-7b"; "qwen2.5-coder"] in
  let m := remapModelIdFromAvailable "QWEN2.5-coder" av in
  m = "qwen2.5-coder" /\ remapModelIdFromAvailable m av = m.
Proof.
  intros av m. split; [by vm_compute|].
  apply (remap_stable "QWEN2.5-coder" av). repeat constructor.
Defined.

Definition sample_fetch (url : string) (_ : list (string * string)) : option value :=
  if (url =? "http://127.0.0.1:8080/v1/models")%string
  then Some (VObj [("data", VArr [VObj [("id", VStr " llama-3 ")]; VNull])]) else None.
Lemma discovery_cached_witness :
  exists c, discoverLocalOpenAIModels sample_fetch 0 5 (Some "http://127.0.0.1:8080/v1/") None None [] = (["llama-3"], c) /\
  Forall clean ["llama-3"] /\ clean_cache c.
Proof.
  eexists. split; [vm_compute; reflexivity|].
  destruct (discovery_cached sample_fetch 0 5 (Some "http://127.0.0.1:8080/v1/") "http://127.0.0.1:8080/v1" None None [] ["llama-3"] _
    eq_refl eq_refl (Forall_nil_2 _) eq_refl) as (A & B & _).
  split; [exact A|exact B].
Defined.
