(* ===== verification/Ecommerce.v ===== *)
(** * Product candidates

    [src/src/agents/ecommerce.ts]: product links, prices and their order,
    collected from the results of tools.

    [canonical_url] stands for what [normalizeUrl] does with the URL object of a
    text (the protocol, and the text of the URL without fragment and tracking
    parameters), [None] when the constructor throws. *)

From stdpp Require Import base list sets strings pretty.
From Stdlib Require Import Ascii Lia ZArith Sorting.Sorted Permutation.
From S2P Require Import Prelude JsString JsMap JsValue JsRegex JsRegexExec Json.
#[local] Open Scope nat_scope.

Record PriceQuote := mkPrice { amount : num; currency : string; display : string }.
Record RawCandidate := mkRaw { rc_title : string; rc_description : string; rc_url : string; rc_sourceTool : string }.
Record EcommerceCandidate := mkCandidate { ec_raw : RawCandidate; ec_price : option PriceQuote; relevanceScore : nat }.
(** The protocol and the text a URL object is turned into. *)
Record url_parts := mkUrl { protocol : string; href : string }.

Definition MAX_EXTRACTED_CANDIDATES : nat := 120.
Definition money : string := "[0-9]{1,3}(?:,[0-9]{3})*(?:\.[0-9]{2})?".
(** The sign of the euro is outside the text of the model. *)
Definition PRICE_TOKEN : rx := re_i ("(?:C\$|CA\$|CAD\$|US\$|USD\$|\$|\xa3)\s*" +:+ money).
Definition PRICE_SIGN : rx := re_i "C\$|CA\$|CAD\$|US\$|USD\$|\$|\xa3".
Definition PRICE_TRAILING : rx := re_i ("(" +:+ money +:+ ")\s*(CAD|USD|EUR|GBP)\b").
Definition STOP_WORDS : list string :=
  ["the"; "and"; "for"; "with"; "from"; "that"; "this"; "what"; "find"; "look"; "into"; "about"; "your"; "please";
   "cheapest"; "cheap"].

(** ** Prices *)

(** [amount.toFixed(2)] *)
Definition toFixed2 (n : num) : string :=
  match n with
  | NFin m k =>
      let cents := ((m * 100 * 2 + pow10 k) / (2 * pow10 k))%Z in
      let frac := pretty (Z.abs cents mod 100)%Z in
      pretty (cents / 100)%Z +:+ "." +:+ pad_zeros (2 - slen frac) frac
  | _ => ""
  end.
Definition toDisplayPrice (cur : string) (n : num) : string :=
  if negb (isFinite n) then "" else if (cur =? "$")%string then "$" +:+ toFixed2 n else cur +:+ toFixed2 n.
(** [Number.isFinite(n) && n > 0 && n < 1_000_000] *)
Definition plausible (n : num) : bool := isFinite n && num_lt (NInt 0) n && num_lt n (NInt 1000000).
Definition quote_of (cur : string) (n : num) : PriceQuote := mkPrice n cur (toDisplayPrice cur n).

Definition prefixed_price (source : string) : option PriceQuote :=
  match exec PRICE_TOKEN source with
  | None => None
  | Some m =>
      let token := trim (of_chars (text m)) in
      let n := num_of_string (replace_outside (fun c => is_digit c || (code c =? 46)) [] token) in
      if plausible n then
        let raw := match exec PRICE_SIGN token with Some s => toUpperCase (of_chars (text s)) | None => "$" end in
        let cur := if (raw =? "CAD$")%string || (raw =? "CA$")%string then "C$"
                   else if (raw =? "US$")%string || (raw =? "USD$")%string then "US$" else raw in
        Some (quote_of cur n)
      else None
  end.
Definition trailing_price (source : string) : option PriceQuote :=
  match exec PRICE_TRAILING source with
  | None => None
  | Some m =>
      let n := num_of_string (replace_outside (fun c => negb (code c =? 44)) [] (group 1 m)) in
      if plausible n then
        let raw := toUpperCase (group 2 m) in
        let cur := if (raw =? "CAD")%string then "C$" else if (raw =? "USD")%string then "US$"
                   else if (raw =? "EUR")%string then "EUR " else if (raw =? "GBP")%string then "GBP " else raw in
        Some (quote_of cur n)
      else None
  end.
Definition parsePrice (source : string) : option PriceQuote :=
  match prefixed_price source with Some p => Some p | None => trailing_price source end.

(** ** Relevance *)

Definition tokenizeQuery (message : string) : list string :=
  let parts := words (replace_outside (fun c => is_lower c || is_digit c || is_ws c) [" "%char] (toLowerCase message)) in
  firstn 24 (dedup (List.filter (fun w => (1 <? slen w) && negb (bool_decide (w ∈ STOP_WORDS))) parts)).
Definition includesAny (text : string) (terms : list string) : nat :=
  2 * length (List.filter (fun term => includes term text) terms).
Definition bonus (b : bool) (n : nat) : nat := if b then n else 0.
Definition scoreCandidate (c : RawCandidate) (queryTokens : list string) : nat :=
  let combined := toLowerCase (rc_title c +:+ " " +:+ rc_description c) in
  includesAny combined queryTokens + includesAny (toLowerCase (rc_url c)) queryTokens +
  bonus (includes "/dp/" (rc_url c) || includes "/gp/product/" (rc_url c)) 8 +
  bonus (test (re_i "amazon\.") (rc_url c)) 5 +
  bonus (test (re_i "\b16\s*gb\b") combined) 4 +
  bonus (test (re_i "\braspberry\s*pi\b") combined) 6.

(** ** Collection *)

Section Collect.
Variable canonical_url : string -> option url_parts.

Definition text_or_empty (v : value) : string := to_string (nullish v (VStr "")).
Definition one_line (v : value) : string := trim (replace_runs is_ws [" "%char] (text_or_empty v)).
Definition normalizeUrl (v : value) : string :=
  let raw := trim (text_or_empty v) in
  if negb (truthy raw) then ""
  else match canonical_url raw with
       | None => ""
       | Some u =>
           if negb (test (re_i "^https?:$") (protocol u)) then ""
           else if endsWith "/" (href u) then slice_to (slen (href u) - 1) (href u) else href u
       end.

(** The set of seen URLs is that of the rows: both grow together. *)
Definition pushCandidate (tool : string) (title url description : value) (out : list RawCandidate) : list RawCandidate :=
  let u := normalizeUrl url in
  if negb (truthy u) || bool_decide (u ∈ map rc_url out) then out
  else out ++ [mkRaw (one_line title) (one_line description) u tool].

Definition coalesce (l : list value) : value := fold_right nullish VUndef l.
Definition push_rows (tool : string) (title : value -> value) (description : value -> value) (rows : list value)
    (out : list RawCandidate) : list RawCandidate :=
  fold_left (fun o row => if is_object row then pushCandidate tool (title row) (get_prop "url" row) (description row) o else o)
    rows out.
Definition full (out : list RawCandidate) : bool := MAX_EXTRACTED_CANDIDATES <=? length out.

(** The candidates an object gives itself: its own, its results', its snapshot's links. *)
Definition own_candidates (tool : string) (obj : value) (out : list RawCandidate) : list RawCandidate :=
  let out1 := match get_prop "url" obj with
              | VUndef => out
              | url => pushCandidate tool (coalesce [get_prop "title" obj; get_prop "name" obj; get_prop "text" obj]) url
                         (get_prop "description" obj) out
              end in
  let out2 := match get_prop "results" obj with
              | VArr rows => push_rows tool (fun r => nullish (get_prop "title" r) (get_prop "name" r)) (get_prop "description")
                               (firstn 60 rows) out1
              | _ => out1
              end in
  let snapshot := get_prop "snapshot" obj in
  match (if is_object snapshot then get_prop "links" snapshot else VUndef) with
  | VArr rows => push_rows tool (fun r => nullish (get_prop "text" r) (get_prop "name" r)) (fun _ => get_prop "text" snapshot)
                   (firstn 80 rows) out2
  | _ => out2
  end.

(** The state is the rows and the budget, which every call lowers: it is the fuel. *)
Fixpoint collectCandidatesFromObject (fuel : nat) (tool : string) (v : value) (st : list RawCandidate * nat)
    : list RawCandidate * nat :=
  match fuel with
  | 0 => st
  | S fuel =>
      let '(out, budget) := st in
      if (budget =? 0) || full out then st
      else
        let each := each_until (collectCandidatesFromObject fuel tool) (fun st => full st.1) in
        match v with
        | VArr l => each (firstn 100 l) (out, budget - 1)
        | VObj ps => each (firstn 80 (values ps)) (own_candidates tool v out, budget - 1)
        | _ => (out, budget - 1)
        end
  end.

Record outcome := mkOutcome { oc_toolName : string; oc_content : string }.
Definition collect_outcomes : list outcome -> list RawCandidate * nat -> list RawCandidate * nat :=
  each_until (fun o st =>
    let parsed := match JSON_parse (oc_content o) with Some v => v | None => VObj [("text", VStr (oc_content o))] end in
    collectCandidatesFromObject (st.2) (oc_toolName o) parsed st) (fun st => full st.1).

(** ** Order *)

Definition shape (queryTokens : list string) (row : RawCandidate) : EcommerceCandidate :=
  let price := parsePrice (trim (rc_title row +:+ " " +:+ rc_description row)) in
  mkCandidate row price (scoreCandidate row queryTokens + match price with Some _ => 6 | None => 0 end).
Definition worth (c : EcommerceCandidate) : bool :=
  (0 <? relevanceScore c) || match ec_price c with Some _ => true | None => false end.
(** The comparison is negative. *)
Definition before_candidate (a b : EcommerceCandidate) : bool :=
  match ec_price a, ec_price b with
  | Some p, Some q =>
      if negb (num_eq (amount p) (amount q)) then num_lt (amount p) (amount q) else relevanceScore b <? relevanceScore a
  | Some _, None => true
  | None, Some _ => false
  | None, None => relevanceScore b <? relevanceScore a
  end.
Definition shaped_rows (query : string) (outcomes : list outcome) : list EcommerceCandidate :=
  List.filter worth (map (shape (tokenizeQuery query)) (collect_outcomes outcomes ([], 800)).1).
(** [limit] is between 1 and 20. *)
Definition extractEcommerceCandidates (query : string) (outcomes : list outcome) (limit : nat) : list EcommerceCandidate :=
  firstn (Nat.max 1 (Nat.min 20 limit)) (stable_sort before_candidate (shaped_rows query outcomes)).

(** [priced.reduce(...)]: the first of the cheapest, by relevance. *)
Definition cheaper (best row : EcommerceCandidate) : EcommerceCandidate :=
  match ec_price best, ec_price row with
  | Some p, Some q =>
      if num_lt (amount q) (amount p) then row
      else if num_eq (amount q) (amount p) && (relevanceScore best <? relevanceScore row) then row
      else best
  | _, _ => row
  end.
Definition has_price (c : EcommerceCandidate) : bool := match ec_price c with Some _ => true | None => false end.
Definition pickCheapestCandidate (l : list EcommerceCandidate) : option EcommerceCandidate :=
  match List.filter has_price l with
  | [] => None
  | c :: rest => Some (fold_left cheaper rest c)
  end.
End Collect.

(** ** Lemmas *)

Lemma pow10_positive k : (0 < pow10 k)%Z.
Proof. apply Z.pow_pos_nonneg; lia. Qed.
(** The order of finite numbers. *)
Lemma num_lt_negtrans a b c :
  isFinite a = true -> isFinite b = true -> isFinite c = true ->
  num_lt b a = false -> num_lt c b = false -> num_lt c a = false.
Proof.
  destruct a as [| |m k], b as [| |m' k'], c as [| |m'' k'']; cbn; try done. intros _ _ _. rewrite !Z.ltb_ge. intros A B.
  pose proof (pow10_positive k). pose proof (pow10_positive k'). pose proof (pow10_positive k'').
  apply (Z.mul_le_mono_pos_r _ _ (pow10 k')); [done|].
  assert (m * pow10 k' * pow10 k'' <= m' * pow10 k * pow10 k'')%Z by (apply Z.mul_le_mono_nonneg_r; lia).
  assert (m' * pow10 k'' * pow10 k <= m'' * pow10 k' * pow10 k)%Z by (apply Z.mul_le_mono_nonneg_r; lia). lia.
Qed.
Lemma num_trichotomy a b : isFinite a = true -> isFinite b = true ->
  num_lt a b = false -> num_lt b a = false -> num_eq a b = true.
Proof. destruct a, b; cbn; try done. rewrite !Z.ltb_ge, Z.eqb_eq. lia. Qed.
Lemma num_eq_not_lt a b : num_eq a b = true -> num_lt a b = false /\ num_lt b a = false.
Proof. destruct a as [|[]|], b as [|[]|]; cbn; try done. rewrite !Z.ltb_ge, Z.eqb_eq. lia. Qed.

Definition finite_price (c : EcommerceCandidate) : Prop :=
  match ec_price c with Some p => isFinite (amount p) = true | None => True end.
Lemma parsePrice_finite s p : parsePrice s = Some p -> isFinite (amount p) = true.
Proof.
  unfold parsePrice, prefixed_price, trailing_price. intros H.
  assert (forall cur n, plausible n = true -> isFinite (amount (quote_of cur n)) = true) as Q
    by (intros cur n P; unfold plausible in P; by bool_prop).
  repeat case_match; simplify_eq; by apply Q.
Qed.
Lemma shaped_finite url query outcomes : Forall finite_price (shaped_rows url query outcomes).
Proof.
  apply Forall_forall. intros c [I _]%list_elem_of_In%filter_In. apply in_map_iff in I as (row & <- & _).
  unfold finite_price, shape. simpl. case_match eqn:E; [|done]. by eapply parsePrice_finite.
Qed.

Lemma before_asym a b : before_candidate a b = true -> before_candidate b a = false.
Proof.
  unfold before_candidate. destruct (ec_price a) as [p|], (ec_price b) as [q|]; try done.
  - destruct (num_eq (amount p) (amount q)) eqn:E; cbn [negb].
    + assert (num_eq (amount q) (amount p) = true) as ->; [|cbn [negb]; intros; bool_prop; apply Nat.ltb_ge; lia].
      revert E. destruct (amount p) as [|[]|], (amount q) as [|[]|]; cbn; try done. rewrite !Z.eqb_eq. lia.
    + intros L%num_lt_asym. destruct (num_eq (amount q) (amount p)) eqn:E'; cbn [negb]; [|done].
      exfalso. revert E E'. destruct (amount p) as [|[]|], (amount q) as [|[]|]; cbn; try done. rewrite Z.eqb_eq, Z.eqb_neq. lia.
  - intros H. bool_prop. apply Nat.ltb_ge. lia.
Qed.
Lemma not_before_price a b p q : ec_price a = Some p -> ec_price b = Some q ->
  before_candidate b a = false -> num_lt (amount q) (amount p) = false.
Proof.
  intros A B. unfold before_candidate. rewrite A, B. destruct (num_eq (amount q) (amount p)) eqn:E; cbn [negb]; [|done].
  intros _. by apply num_eq_not_lt in E as [].
Qed.
Lemma before_negtrans a b c : finite_price a -> finite_price b -> finite_price c ->
  before_candidate b a = false -> before_candidate c b = false -> before_candidate c a = false.
Proof.
  unfold finite_price. intros Fa Fb Fc Ba Cb.
  destruct (ec_price a) as [p|] eqn:A, (ec_price b) as [q|] eqn:B, (ec_price c) as [r|] eqn:C;
    try (by unfold before_candidate in *; rewrite ?A, ?B, ?C in *);
    try (unfold before_candidate in *; rewrite A, B, C in *; bool_prop; apply Nat.ltb_ge; lia).
  pose proof (not_before_price _ _ _ _ A B Ba) as L1. pose proof (not_before_price _ _ _ _ B C Cb) as L2.
  pose proof (num_lt_negtrans _ _ _ Fa Fb Fc L1 L2) as L3. unfold before_candidate in *. rewrite A, B, C in *.
  destruct (num_eq (amount r) (amount p)) eqn:Erp; cbn [negb]; [|done].
  apply num_eq_not_lt in Erp as [R1 R2].
  assert (num_eq (amount q) (amount p) = true) as Eqp.
  { apply num_trichotomy; [done|done|done|]. by apply (num_lt_negtrans _ (amount r) _). }
  assert (num_eq (amount r) (amount q) = true) as Erq.
  { apply num_trichotomy; [done|done|done|]. by apply (num_lt_negtrans _ (amount p) _). }
  rewrite Eqp in Ba. rewrite Erq in Cb. cbn [negb] in *. bool_prop. apply Nat.ltb_ge. lia.
Qed.

Lemma sorted_rows url query outcomes :
  StronglySorted (fun a b => before_candidate b a = false) (stable_sort before_candidate (shaped_rows url query outcomes)).
Proof.
  apply (stable_sort_sorted_on finite_price); [by eauto using before_asym|by eauto using before_negtrans|apply shaped_finite].
Qed.

(** What the reduction keeps: a priced row of the list, none cheaper. *)
Lemma fold_cheaper c l p : ec_price c = Some p -> Forall finite_price (c :: l) -> Forall (fun r => has_price r = true) l ->
  exists b q, fold_left cheaper l c = b /\ ec_price b = Some q /\ b ∈ c :: l /\
    forall r s, r ∈ c :: l -> ec_price r = Some s -> num_lt (amount s) (amount q) = false.
Proof.
  revert c p. induction l as [|x l IH]; intros c p C F H.
  - exists c, p. split; [done|]. split; [done|]. split; [set_solver|]. intros r s ->%list_elem_of_singleton E.
    rewrite C in E. injection E as <-. apply num_lt_irrefl.
  - inversion H as [|? ? Hx Hl]; subst. inversion F as [|? ? Fc F']; subst. inversion F' as [|? ? Fx Fl]; subst.
    unfold has_price in Hx. destruct (ec_price x) as [px|] eqn:X; [|done].
    assert (exists y py, cheaper c x = y /\ (y = c \/ y = x) /\ ec_price y = Some py /\
      num_lt (amount p) (amount py) = false /\ num_lt (amount px) (amount py) = false) as (y & py & Y & Y' & Py & L1 & L2).
    { unfold cheaper. rewrite C, X. destruct (num_lt (amount px) (amount p)) eqn:E1.
      - exists x, px. split_and!; try done; [by right|by apply num_lt_asym|apply num_lt_irrefl].
      - destruct (_ && _) eqn:E2; [|exists c, p; split_and!; try done; [by left|apply num_lt_irrefl]].
        bool_prop. exists x, px. split_and!; try done; [by right| |apply num_lt_irrefl].
        by match goal with H : num_eq _ _ = true |- _ => apply num_eq_not_lt in H as [] end. }
    destruct (IH y py) as (b & q & B & Q & I & M); [done|constructor; [by destruct Y' as [->| ->]|done]|done|].
    unfold finite_price in Fc, Fx. rewrite C in Fc. rewrite X in Fx.
    assert (isFinite (amount py) = true) as Fy by (destruct Y' as [->| ->]; congruence).
    assert (isFinite (amount q) = true) as Fq.
    { rewrite Forall_forall in Fl. apply elem_of_cons in I as [->|I]; [congruence|]. apply Fl in I. unfold finite_price in I. by rewrite Q in I. }
    exists b, q. split; [cbn [fold_left]; by rewrite Y|]. split; [done|].
    split; [destruct Y' as [->| ->]; set_solver|]. intros r s I' E.
    assert (num_lt (amount py) (amount q) = false) as My by (apply (M y py); [set_solver|done]).
    apply elem_of_cons in I' as [->|[->|I']%elem_of_cons].
    + rewrite C in E. injection E as <-. by eapply num_lt_negtrans; [| | |exact My|exact L1].
    + rewrite X in E. injection E as <-. by eapply num_lt_negtrans; [| | |exact My|exact L2].
    + apply (M r s); [set_solver|done].
Qed.

Definition distinct_urls (out : list RawCandidate) : Prop := NoDup (map rc_url out) /\ Forall (fun c => truthy (rc_url c) = true) out.
Lemma push_distinct url tool t u d out : distinct_urls out -> distinct_urls (pushCandidate url tool t u d out).
Proof.
  intros [N T]. unfold pushCandidate. destruct (_ || _) eqn:E; [done|]. bool_prop. split.
  - rewrite map_app. apply NoDup_app. split; [done|]. split; [|apply NoDup_singleton]. cbn. set_solver.
  - apply Forall_app. split; [done|]. by repeat constructor.
Qed.
Lemma push_rows_distinct url tool t d rows out : distinct_urls out -> distinct_urls (push_rows url tool t d rows out).
Proof.
  unfold push_rows. revert out. induction rows as [|r rows IH]; intros out D; [done|]. cbn [fold_left]. apply IH.
  case_match; [by apply push_distinct|done].
Qed.
Lemma own_distinct url tool obj out : distinct_urls out -> distinct_urls (own_candidates url tool obj out).
Proof. intros D. unfold own_candidates. repeat case_match; auto using push_distinct, push_rows_distinct. Qed.
Lemma collect_distinct url fuel tool v st :
  distinct_urls st.1 -> distinct_urls (collectCandidatesFromObject url fuel tool v st).1.
Proof.
  revert v st. induction fuel as [|fuel IH]; intros v [out budget] D; [done|]. cbn [collectCandidatesFromObject].
  destruct (_ || _); [done|].
  assert (forall l st, distinct_urls st.1 ->
    distinct_urls (each_until (collectCandidatesFromObject url fuel tool) (fun st => full st.1) l st).1) as E
    by (intros l st; apply (each_until_ind (fun st => distinct_urls st.1)); intros; by apply IH).
  destruct v; try done; apply E; [done|by apply own_distinct].
Qed.
Lemma outcomes_distinct url l st : distinct_urls st.1 -> distinct_urls (collect_outcomes url l st).1.
Proof.
  apply (each_until_ind (fun st => distinct_urls st.1)). intros. by apply collect_distinct.
Qed.

(** ** Properties *)

(** C39: The candidates shown are at most [limit] (twenty at most), have distinct
    URLs and come from the collected rows; the cheapest of them is the cheapest
    of all rows: it has a price, no collected row is cheaper, and there is none
    only when no row has a price. *)
Theorem cheapest_of_all url query outcomes limit :
  let shown := extractEcommerceCandidates url query outcomes limit in
  let rows := shaped_rows url query outcomes in
  length shown <= 20 /\ NoDup (map (fun c => rc_url (ec_raw c)) shown) /\ (forall c, c ∈ shown -> c ∈ rows) /\
  match pickCheapestCandidate shown with
  | Some c => c ∈ shown /\ exists p, ec_price c = Some p /\
                forall r q, r ∈ rows -> ec_price r = Some q -> num_lt (amount q) (amount p) = false
  | None => forall r, r ∈ rows -> ec_price r = None
  end.
Proof.
  intros shown rows. unfold shown, extractEcommerceCandidates. fold rows. set (n := Nat.max 1 _).
  pose proof (sorted_rows url query outcomes) as S. fold rows in S.
  pose proof (stable_sort_perm before_candidate rows) as P. pose proof (shaped_finite url query outcomes) as F. fold rows in F.
  assert (Forall finite_price (stable_sort before_candidate rows)) as F' by (by rewrite <- P).
  split; [rewrite length_firstn; lia|]. split; [|split].
  - assert (NoDup (map (fun c => rc_url (ec_raw c)) rows)) as N.
    { destruct (outcomes_distinct url outcomes ([], 800)) as [N _]; [by split; constructor|].
      unfold rows, shaped_rows. revert N. generalize (collect_outcomes url outcomes ([], 800)).1. intros out N.
      induction out as [|c out IH]; [constructor|]. cbn in N |- *. inversion N as [|? ? N1 N2]; subst.
      case_match; [|by apply IH]. cbn. constructor; [|by apply IH]. intros I. apply N1.
      apply list_elem_of_fmap in I as (x & E & [I _]%list_elem_of_In%filter_In). apply in_map_iff in I as (y & <- & I).
      cbn in E. rewrite E. apply list_elem_of_fmap. exists y. split; [done|]. by apply list_elem_of_In. }
    apply (Permutation_map (fun c => rc_url (ec_raw c))) in P. rewrite P in N. eapply sublist_NoDup; [exact N|].
    rewrite <- firstn_map. apply sublist_take.
  - intros c I. rewrite P. eapply elem_of_sublist; [exact I|apply sublist_take].
  - unfold pickCheapestCandidate. destruct (stable_sort before_candidate rows) as [|h t] eqn:Srt.
    { rewrite firstn_nil. cbn. intros r I. rewrite P in I. by apply elem_of_nil in I. }
    assert (n = Datatypes.S (n - 1)) as -> by lia. cbn [firstn List.filter]. apply StronglySorted_inv in S as [_ Sh].
    rewrite Forall_forall in Sh. rewrite Forall_forall in F'. unfold has_price at 1.
    assert (forall c, c ∈ firstn (n - 1) t -> c ∈ t) as Ft by (intros c I; eapply elem_of_sublist; [exact I|apply sublist_take]).
    destruct (ec_price h) as [p|] eqn:H.
    + destruct (fold_cheaper h (List.filter has_price (firstn (n - 1) t)) p H) as (b & q & B & Q & I & M).
      * apply Forall_forall. intros c [->|I]%elem_of_cons; [apply F'; set_solver|].
        apply list_elem_of_In, filter_In in I as [I%list_elem_of_In _]. apply F'. apply elem_of_cons. by right; apply Ft.
      * apply Forall_forall. intros c I. by apply list_elem_of_In, filter_In in I as [_ I].
      * rewrite B. split.
        { apply elem_of_cons in I as [->|I]; apply elem_of_cons; [by left|right].
          by apply list_elem_of_In, filter_In in I as [I%list_elem_of_In _]. }
        exists q. split; [done|]. intros r s Ir Er.
        assert (num_lt (amount p) (amount q) = false) as Lpq by (apply (M h p); [set_solver|done]).
        rewrite P in Ir. apply elem_of_cons in Ir as [->|Ir]; [rewrite H in Er; by injection Er as <-|].
        pose proof (not_before_price _ _ _ _ H Er (Sh r Ir)) as L.
        assert (forall c x, c ∈ h :: t -> ec_price c = Some x -> isFinite (amount x) = true) as Fin
          by (intros c x Ic Ex; pose proof (F' c Ic) as Y; unfold finite_price in Y; by rewrite Ex in Y).
        eapply (num_lt_negtrans _ (amount p)); [|eapply (Fin h); [set_solver|done]|eapply (Fin r); [set_solver|done]|exact Lpq|exact L].
        eapply (Fin b); [|exact Q]. apply elem_of_cons in I as [->|I]; [set_solver|].
        apply list_elem_of_In, filter_In in I as [I%list_elem_of_In _]. apply elem_of_cons. right. by apply Ft.
    + assert (forall r, r ∈ t -> ec_price r = None) as None_t.
      { intros r Ir. pose proof (Sh r Ir) as X. unfold before_candidate in X. rewrite H in X. by destruct (ec_price r). }
      destruct (List.filter has_price (firstn (n - 1) t)) as [|c l] eqn:Fl.
      * intros r Ir. rewrite P in Ir. apply elem_of_cons in Ir as [->|Ir]; [done|by apply None_t].
      * exfalso. assert (In c (List.filter has_price (firstn (n - 1) t))) as I by (rewrite Fl; by left).
        apply filter_In in I as [I%list_elem_of_In Hc]. apply Ft, None_t in I. unfold has_price in Hc. by rewrite I in Hc.
Qed.

(** The number of a price without separators is cut after three digits. *)
Example long_price : option_map display (parsePrice "Laptop $1299.99") = Some "$129.00".
Proof. vm_compute. reflexivity. Qed.
Example separated_price : option_map display (parsePrice "Laptop $1,299.99") = Some "$1299.99".
Proof. vm_compute. reflexivity. Qed.
