(* ===== verification/WebSearch.v ===== *)
(** * Searching and fetching

    src/src/web/brave_search.js, duckduckgo_search.js and fetch.js: the requests
    to the search services and to a page, and how their answers become rows and
    text.  The network is an argument ([request]), and so are the URL parser, which
    gives a URL in its parts, [decodeURIComponent] and the decoding of UTF-8. *)

From stdpp Require Import base list strings pretty.
From Stdlib Require Import ZArith Ascii Lia.
From S2P Require Import Prelude JsString JsMap JsValue Json JsRegex JsRegexExec.

(** A parsed URL; [print] is [toString] without the fragment, with the query as it
    was or, after a parameter was deleted, from these. *)
Record web_url := mkWebUrl {
  w_protocol : string; w_hostname : string; w_pathname : string; w_params : list (string * string); w_href : string;
  w_print : option (list (string * string)) -> string }.
Record http_response := mkHttp { h_ok : bool; h_status : Z; h_url : string; h_contentType : option string; h_body : list ascii }.
Record SearchResult := mkResult { r_title : string; r_url : string; r_description : string }.
Record Fetched := mkFetched {
  f_ok : bool; f_status : Z; f_url : string; f_contentType : string; f_truncated : bool; f_bytes : nat; f_text : string }.

Definition dq : string := of_chars [ascii_of_nat 34].
Definition newline : string := of_chars [ascii_of_nat 10].
(** [s.replace(r, t)] with the flag [g], for a [t] without [$]. *)
Definition replace_with (r : rx) (t s : string) : string := replaceAll r (fun _ => t) s.

(** ** HTML as text *)

Definition decodeHtmlEntities (value : string) : string :=
  fold_left (fun s p => replace_with (re_ (fst p)) (snd p) s)
    [("&quot;", dq); ("&#39;", "'"); ("&apos;", "'"); ("&amp;", "&"); ("&lt;", "<"); ("&gt;", ">"); ("&#x2F;", "/"); ("&#47;", "/"); ("&nbsp;", " ")]
    value.
Definition squeeze (s : string) : string := trim (replace_runs is_ws [" "%char] s).
Definition stripTags (value : string) : string :=
  squeeze (decodeHtmlEntities (replace_with (re_ "<[^>]+>") " " (replace_with (re_i "<style[\s\S]*?</style>") " "
    (replace_with (re_i "<script[\s\S]*?</script>") " " value)))).

Definition htmlToReadableText (html : string) : string :=
  let without := fold_left (fun s p => replace_with p " " s)
    [re_ "<!--[\s\S]*?-->"; re_i "<script[\s\S]*?</script>"; re_i "<style[\s\S]*?</style>"; re_i "<noscript[\s\S]*?</noscript>"] html in
  let blocks := replace_with (re_i "</(p|div|section|article|header|footer|li|ul|ol|h[1-6]|table|tr)>") newline
                  (replace_with (re_i "<(br|hr)\s*/?>") newline without) in
  trim (replace_with (re_ "[ \t]{2,}") " " (replace_with (re_ "\n{3,}") (newline +:+ newline)
    (replace_with (re_ "[ \t]+\n") newline (decodeHtmlEntities (replace_with (re_ "<[^>]+>") " " blocks))))).
Definition chooseReadableText (contentType decodedText : string) : string :=
  let ct := toLowerCase contentType in
  if includes "text/html" ct || includes "application/xhtml+xml" ct then htmlToReadableText decodedText else decodedText.

Section Web.
Variables (url_of : string -> option web_url) (decodeURIComponent : string -> option string) (from_utf8 : list ascii -> string).
(** [request url headers] *)
Variable request : string -> list (string * string) -> result http_response.

(** ** Fetching a page *)

(** [limit] is the number of bytes that are kept. *)
Definition webFetch (url : string) (maxBytes : Z) : result Fetched :=
  let u := trim url in
  if negb (truthy u) then Throw "Missing url."
  else if negb (test (re_i "^https?://") u) then Throw "Only http(s) URLs are allowed."
  else
    let limit := Z.to_nat (Z.max 10000 (Z.min 500000 (if (maxBytes =? 0)%Z then 200000 else maxBytes))) in
    let? res := request u [("User-Agent", "t560-web-fetch")] in
    let contentType := default "" (h_contentType res) in
    let slice := firstn limit (h_body res) in
    Ok (mkFetched (h_ok res) (h_status res) (if truthy (h_url res) then h_url res else u) contentType (limit <? length (h_body res)) (length slice)
          (chooseReadableText contentType (from_utf8 slice))).

(** ** Brave *)

(** [Math.max(1, Math.min(top, Number(n) || fallback))] *)
Definition wanted (top fallback n : Z) : nat := Z.to_nat (Z.max 1 (Z.min top (if (n =? 0)%Z then fallback else n))).
Definition safeText (v : value) : string := match v with VUndef | VNull => "" | v => to_string v end.
Definition prop_or_undef (k : string) (v : value) : value := match v with VUndef | VNull => VUndef | v => get_prop k v end.
(** [a || b] *)
Definition either_value (a b : value) : value := if to_bool a then a else b.
(** The request line is the argument [brave_url q count]. *)
Variable brave_url : string -> nat -> string.
Definition braveWebSearch (apiKey query : string) (count : Z) : result (list SearchResult) :=
  let key := trim apiKey in
  if negb (truthy key) then Throw "Missing BRAVE_API_KEY."
  else
    let q := trim query in
    if negb (truthy q) then Throw "Missing query."
    else
      let n := wanted 10 5 count in
      let? res := request (brave_url q n) [("Accept", "application/json"); ("X-Subscription-Token", key)] in
      let text := from_utf8 (h_body res) in
      let json := default VNull (JSON_parse text) in
      if negb (h_ok res) then
        Throw (to_string (fold_right either_value (VStr ("Brave search error (status " +:+ pretty (h_status res) +:+ ")"))
          [prop_or_undef "message" json; prop_or_undef "message" (prop_or_undef "error" json); VStr text]))
      else
        let items := match prop_or_undef "results" (prop_or_undef "web" json) with VArr l => l | _ => [] end in
        Ok (map (fun r => mkResult (safeText (prop_or_undef "title" r)) (safeText (prop_or_undef "url" r)) (safeText (prop_or_undef "description" r)))
              (firstn n items)).

(** ** DuckDuckGo *)

Definition toAbsoluteDuckUrl (href : string) : string :=
  let raw := trim href in
  if negb (truthy raw) then ""
  else if startsWith "//" raw then "https:" +:+ raw
  else if startsWith "/" raw then "https://duckduckgo.com" +:+ raw
  else raw.
Definition is_http (protocol : string) : bool := test (re_i "^https?:$") protocol.
(** The address of a result: what the service redirects to, or itself. *)
Definition resolveResultUrl (href : string) : string :=
  let raw := trim href in
  if negb (truthy raw) then ""
  else match url_of (toAbsoluteDuckUrl raw) with
       | None => ""
       | Some url =>
           let direct := if is_http (w_protocol url) then w_href url else "" in
           if includes "duckduckgo.com" (toLowerCase (w_hostname url)) then
             let leave := if bool_decide (w_pathname url ∈ ["/l/"; "/l"]) then "" else direct in
             match mget "uddg" (w_params url) with
             | Some redirected =>
                 if truthy redirected then
                   match decodeURIComponent redirected with
                   | None => ""
                   | Some decoded => if test (re_i "^https?://") decoded then decoded else leave
                   end
                 else leave
             | None => leave
             end
           else direct
       end.

Definition snippet_pattern (name : string) : rx :=
  re_i ("class=" +:+ dq +:+ "[^" +:+ dq +:+ "]*" +:+ name +:+ "[^" +:+ dq +:+ "]*" +:+ dq +:+ "[^>]*>([\s\S]*?)</[^>]+>").
Fixpoint first_snippet (patterns : list rx) (nearby : string) : option string :=
  match patterns with
  | [] => None
  | p :: rest =>
      match capture 1 p nearby with
      | Some g => let text := stripTags g in if truthy g && truthy text then Some text else first_snippet rest nearby
      | None => first_snippet rest nearby
      end
  end.
Definition extractSnippetNear (html : string) (startIdx endIdx : nat) : string :=
  let nearby := slice_from (startIdx - 220) (slice_to (Nat.min (slen html) (endIdx + 900)) html) in
  match first_snippet (map snippet_pattern ["result__snippet"; "result-snippet"; "snippet"]) nearby with
  | Some text => text
  | None => let generic := stripTags nearby in if 280 <? slen generic then slice_to 280 generic +:+ "..." else generic
  end.

Definition ANCHOR : rx := re_i ("<a\b([^>]*?)href=" +:+ dq +:+ "([^" +:+ dq +:+ "]+)" +:+ dq +:+ "([^>]*)>([\s\S]*?)</a>").
(** The rows so far, and where the search goes on. *)
Definition anchor_step (source : string) (max : nat) (m : found) (st : list SearchResult * nat) : list SearchResult * nat :=
  let '(out, pos) := st in
  let start := pos + length (before m) in
  let stop := start + length (text m) in
  if max <=? length out then st
  else
    let title := stripTags (group 4 m) in
    let url := resolveResultUrl (group 2 m) in
    if (slen title <? 2) || negb (truthy url) || bool_decide (url ∈ map r_url out) then (out, stop)
    else (out ++ [mkResult title url (extractSnippetNear source start stop)], stop).
Definition parseDuckDuckGoHtml (source : string) (count : nat) : list SearchResult :=
  (fold_left (fun st m => anchor_step source (wanted 20 8 (Z.of_nat count)) m st) (matchAll ANCHOR source) ([], 0)).1.

Definition fetchSearchHtml (url : string) : result string :=
  let? res := request url
    [("Accept", "text/html,application/xhtml+xml"); ("Accept-Language", "en-US,en;q=0.9");
     ("User-Agent", "Mozilla/5.0 (X11; Linux x86_64) AppleWebKit/537.36 (KHTML, like Gecko) t560/1.0 Safari/537.36")] in
  let text := from_utf8 (h_body res) in
  if h_ok res then Ok text else Throw (if truthy text then text else "DuckDuckGo search error (status " +:+ pretty (h_status res) +:+ ")").
(** The two addresses that are asked, with the query and the region. *)
Variable duck_urls : string -> string -> list string.
Fixpoint ask (endpoints : list string) (n : nat) (lastError : option string) : result (list SearchResult) :=
  match endpoints with
  | [] => match lastError with Some m => Throw m | None => Ok [] end
  | e :: rest =>
      match fetchSearchHtml e with
      | Throw m => ask rest n (Some m)
      | Ok html => match parseDuckDuckGoHtml html n with [] => ask rest n lastError | parsed => Ok (firstn n parsed) end
      end
  end.
Definition duckDuckGoSearch (query : string) (count : Z) (region : string) : result (list SearchResult) :=
  let q := trim query in
  if negb (truthy q) then Throw "Missing query."
  else ask (duck_urls q (let kl := trim region in if truthy kl then kl else "wt-wt")) (wanted 20 8 count) None.
End Web.

(** An entity that stands for an entity is decoded twice. *)
Example entity_decoded_twice : decodeHtmlEntities "&amp;lt;b&amp;gt;" = "<b>".
Proof. vm_compute. reflexivity. Qed.
Example readable_sample : htmlToReadableText "<p>Hi <b>you</b></p><script>x</script>a<br/>b" = "Hi you" +:+ newline +:+ " a" +:+ newline +:+ "b".
Proof. vm_compute. reflexivity. Qed.
