(* ===== verification/WebTools.v ===== *)
(** * The web tools

    src/src/agents/tools/web-tools.ts: the tools [web_search] and [web_fetch] over
    the services of [WebSearch].  The year is that of the clock, an argument. *)

From stdpp Require Import base list sets strings pretty.
From Stdlib Require Import ZArith Ascii Lia Sorted.
From S2P Require Import Prelude JsString JsMap JsValue Json JsRegex JsRegexExec MemoryStore MemoryTools.
From S2P Require Import Config Ecommerce WebSearch.

Definition MAX_FETCH_TEXT_CHARS : nat := Z.to_nat 40000.
Definition MAX_DOMAIN_FILTERS : nat := 10.
Definition num_int (n : num) : Z := match n with NFin m k => (m / pow10 k)%Z | _ => 0%Z end.
Definition clamp (v : value) (low high fallback : Z) : Z := num_int (clampInt v low high (NInt fallback)).
Definition opt_num (o : option num) : value := match o with Some n => VNum n | None => VUndef end.

Definition truncation_note : string := newline +:+ newline +:+ "[truncated for model context]".
Definition clampFetchText (text : string) : string * bool :=
  if slen text <=? MAX_FETCH_TEXT_CHARS then (text, false) else (slice_to MAX_FETCH_TEXT_CHARS text +:+ truncation_note, true).
Definition toTextPreview (v : string) : string :=
  let text := trim v in
  if negb (truthy text) then "" else if slen text <=? 2500 then text else slice_to 2500 text +:+ "...".

Definition normalizeSearchProvider (v : value) : option WebSearchProvider :=
  let normalized := toLowerCase (text_of v) in
  if (normalized =? "duckduckgo")%string then Some duckduckgo else if (normalized =? "brave")%string then Some brave else None.
Definition host_char (c : ascii) : bool := is_lower c || is_digit c || bool_decide (c ∈ chars ".-").
Definition normalizeDomain (v : value) : option string :=
  let raw := toLowerCase (text_of v) in
  if negb (truthy raw) then None
  else
    let host := default "" (head (split_char "/" (replaceFirst (re_ "^www\.") "" (replaceFirst (re_i "^https?://") "" raw)))) in
    if negb (truthy host) || negb (forallb host_char (chars host)) then None else Some host.
(** The set is full at ten. *)
Definition normalizeDomainList (v : value) : list string := firstn MAX_DOMAIN_FILTERS (dedup (omap normalizeDomain (array_items v))).

Definition applyRecencyHint (query : string) (recencyDays : Z) : string :=
  if (recencyDays <=? 0)%Z then query
  else if (recencyDays <=? 1)%Z then query +:+ " past 24 hours"
  else if (recencyDays <=? 7)%Z then query +:+ " past week"
  else if (recencyDays <=? 31)%Z then query +:+ " past month"
  else query +:+ " past year".

Definition YEAR_PATTERN : rx := re_ "\b(20\d{2})\b".
Definition extractYears (text : string) : list Z := dedup (map (fun m => num_int (num_of_string (group 1 m))) (matchAll YEAR_PATTERN text)).
Definition TEMPORAL : rx :=
  re_i "\b(current|latest|today|right now|now|live|standings|score|scores|medal|table|ranking|rankings|this year|happening)\b".
Definition hasTemporalIntent (query : string) : bool := test TEMPORAL query.
Definition hasExplicitYear (query : string) : bool := test (re_ "\b20\d{2}\b") query.
Record Temporal := mkTemporal { queryUsed : string; temporalIntent : bool; anchorYear : option Z; anchored : bool }.
Definition buildTemporalAnchoredQuery (year : Z) (query : string) : Temporal :=
  let intent := hasTemporalIntent query in
  let anchor := if intent then Some year else None in
  if negb intent || hasExplicitYear query then mkTemporal query intent anchor false
  else mkTemporal (query +:+ " " +:+ pretty year) intent anchor true.

Definition plain_or_space (c : ascii) : bool := is_lower c || is_digit c || is_ws c.
Definition queryTerms (query : string) : list string :=
  firstn 24 (dedup (List.filter (fun t => 1 <? slen t) (words (replace_outside plain_or_space [" "%char] (toLowerCase query))))).

Section Rank.
Variable url_of : string -> option web_url.

Definition is_tracking (key : string) : bool :=
  let lowered := toLowerCase key in startsWith "utm_" lowered || bool_decide (lowered ∈ ["fbclid"; "gclid"]).
Definition canonicalizeResultUrl (raw : string) : string :=
  let v := trim raw in
  if negb (truthy v) then ""
  else match url_of v with
       | None => ""
       | Some u =>
           if negb (is_http (w_protocol u)) then ""
           else
             let href := w_print u (if existsb (fun p => is_tracking (fst p)) (w_params u)
                                    then Some (List.filter (fun p => negb (is_tracking (fst p))) (w_params u)) else None) in
             if endsWith "/" href then slice_to (slen href - 1) href else href
       end.
(** [host] is one of the domains or under it. *)
Definition within (host : string) (domain : string) : bool := (host =? domain)%string || endsWith ("." +:+ domain) host.
Definition host_of (u : web_url) : string := replaceFirst (re_ "^www\.") "" (toLowerCase (w_hostname u)).
Definition resultMatchesDomains (url : string) (domains : list string) : bool :=
  match domains with
  | [] => true
  | _ => match url_of url with Some u => existsb (within (host_of u)) domains | None => false end
  end.

Definition score_when (b : bool) (z : Z) : Z := if b then z else 0%Z.
Definition year_score (year : Z) (years : list Z) : Z :=
  if bool_decide (year ∈ years) then 10
  else match years with
       | [] => 1
       | _ => let nearest := fold_left (fun best y => Z.min best (Z.abs (y - year))) years 100%Z in
              - Z.min 12 (nearest * 3) - score_when (existsb (fun y => y <=? year - 2)%Z years) 6
       end.
Definition scoreResult (query : string) (t : Temporal) (domains : list string) (r : SearchResult) : Z :=
  let haystack := toLowerCase (r_title r +:+ " " +:+ r_description r) in
  let url := toLowerCase (r_url r) in
  (fold_left (fun score term => score + score_when (includes term haystack) 2 + score_when (includes term url) 1) (queryTerms query) 0 +
   score_when (resultMatchesDomains (r_url r) domains) 5 +
   score_when (test (re_i "/dp/|/gp/product/") (r_url r)) 2 +
   match anchorYear t with
   | Some year => score_when (temporalIntent t) (year_score year (extractYears (r_title r +:+ " " +:+ r_description r +:+ " " +:+ r_url r)))
   | None => 0
   end)%Z.

Record Ranked := mkRanked { rk_row : SearchResult; rk_score : Z; rk_years : list Z }.
(** The rows, and the URLs seen. *)
Definition rank_step (query : string) (domains : list string) (t : Temporal) (row : SearchResult) (st : list Ranked * list string)
    : list Ranked * list string :=
  let '(deduped, seen) := st in
  let url := canonicalizeResultUrl (r_url row) in
  if negb (truthy url) || bool_decide (url ∈ seen) then st
  else if negb (resultMatchesDomains url domains) then (deduped, seen ++ [url])
  else
    let shaped := mkResult (trim (r_title row)) url (trim (r_description row)) in
    (deduped ++ [mkRanked shaped (scoreResult query t domains shaped) (extractYears (r_title shaped +:+ " " +:+ r_description shaped +:+ " " +:+ url))],
     seen ++ [url]).
Definition dedupe_rows (query : string) (domains : list string) (t : Temporal) (rows : list SearchResult) : list Ranked :=
  (fold_left (fun st row => rank_step query domains t row st) rows ([], [])).1.
Definition year_filter (t : Temporal) (rows : list Ranked) : list Ranked :=
  match anchorYear t with
  | Some year =>
      if temporalIntent t then
        match List.filter (fun e => bool_decide (year ∈ rk_years e)) rows with
        | [] => rows
        | matching => matching ++ List.filter (fun e => length (rk_years e) =? 0) rows
        end
      else rows
  | None => rows
  end.
Definition better (a b : Ranked) : bool := (rk_score b <? rk_score a)%Z.
Definition shapeAndRankResults (query : string) (rows : list SearchResult) (domains : list string) (count : nat) (t : Temporal) : list SearchResult :=
  map rk_row (firstn count (stable_sort better (year_filter t (dedupe_rows query domains t rows)))).
End Rank.

(** ** Configuration *)

Record ResolvedWebSearchConfig := mkSearchConfig {
  s_enabled : bool; s_provider : WebSearchProvider; s_configuredProvider : WebSearchProvider; s_apiKey : option string; s_defaultCount : Z;
  s_timeoutMs : Z; s_region : string; s_fetchTop : Z; s_fetchMaxBytes : Z }.
Definition no_search : WebSearchToolConfig := mkSearch None None None None None None None None.
Definition is_brave (p : WebSearchProvider) : bool := match p with brave => true | duckduckgo => false end.
Definition nonempty_text (s : string) : option string := if truthy s then Some s else None.
(** A provider that is given is one of the two; [braveKey] is [env.BRAVE_API_KEY]. *)
Definition resolveWebSearchConfig (search : option WebSearchToolConfig) (braveKey : string) : ResolvedWebSearchConfig :=
  let s := default no_search search in
  let configured := default brave (ws_provider s) in
  let key := match nonempty_text (trim (default "" (ws_apiKey s))) with Some k => Some k | None => nonempty_text (trim braveKey) end in
  let has_key := match key with Some _ => true | None => false end in
  let provider := if bool_decide (ws_provider s = None) && is_brave configured && negb has_key then duckduckgo else configured in
  let region := trim (default "wt-wt" (ws_region s)) in
  mkSearchConfig (default (if is_brave provider then has_key else true) (ws_enabled s)) provider configured key
    (clamp (opt_num (ws_maxResults s)) 1 (if is_brave provider then 10 else 20) 8)
    (clamp (opt_num (ws_timeoutMs s)) 1000 120000 15000)
    (if truthy region then region else "wt-wt")
    (clamp (opt_num (ws_fetchTop s)) 0 5 0)
    (clamp (opt_num (ws_fetchMaxBytes s)) 10000 400000 120000).
Record ResolvedWebFetchConfig := mkFetchConfig { fc_enabled : bool; fc_maxBytes : Z; fc_timeoutMs : Z }.
Definition resolveWebFetchConfig (fetch : option WebFetchToolConfig) : ResolvedWebFetchConfig :=
  let o {A} (f : WebFetchToolConfig -> option A) : option A := match fetch with Some c => f c | None => None end in
  mkFetchConfig (default true (o wf_enabled)) (clamp (opt_num (o wf_maxBytes)) 10000 500000 200000)
    (clamp (opt_num (o wf_timeoutMs)) 1000 120000 20000).

(** ** The tools *)

(** What the tools use of the world. *)
Record Web := mkWebWorld {
  web_url_of : string -> option web_url;
  web_canonical : string -> option url_parts;
  web_fetch : string -> Z -> result Fetched;
  web_brave : string -> string -> Z -> result (list SearchResult);
  web_duck : string -> Z -> string -> result (list SearchResult);
  web_year : Z }.

Section Tools.
Variable web : Web.

Definition optional (k : string) (v : option value) : list (string * value) := match v with Some x => [(k, x)] | None => [] end.
Definition provider_name (p : WebSearchProvider) : value := VStr (match p with brave => "brave" | duckduckgo => "duckduckgo" end).
Definition result_value (r : SearchResult) : value :=
  VObj [("title", VStr (r_title r)); ("url", VStr (r_url r)); ("description", VStr (r_description r))].
Definition page_fields (f : Fetched) : list (string * value) :=
  [("ok", VBool (f_ok f)); ("status", VNum (NInt (f_status f))); ("url", VStr (f_url f)); ("contentType", VStr (f_contentType f));
   ("truncated", VBool (f_truncated f)); ("bytes", VNum (NInt (Z.of_nat (f_bytes f))))].

(** [fetchSearchPagePreview], and the row of a page that could not be fetched. *)
Definition page_preview (maxBytes : Z) (row : SearchResult) : value :=
  match web_fetch web (r_url row) maxBytes with
  | Ok f => VObj (("title", VStr (r_title row)) :: page_fields f ++ [("textPreview", VStr (toTextPreview (f_text f)))])
  | Throw m => VObj [("title", VStr (r_title row)); ("url", VStr (r_url row)); ("error", VStr m)]
  end.

(** The arguments of a search, after the defaults. *)
Record SearchPlan := mkPlan {
  p_query : string; p_requested : option WebSearchProvider; p_provider : WebSearchProvider; p_key : string; p_count : Z; p_region : string;
  p_fetchTop : Z; p_fetchMaxBytes : Z; p_recency : Z; p_domains : list string; p_temporal : Temporal }.
Definition p_runQuery (p : SearchPlan) : string := applyRecencyHint (queryUsed (p_temporal p)) (p_recency p).
Definition search_plan (config : ResolvedWebSearchConfig) (params : value) : result SearchPlan :=
  let query := text_of (get_prop "query" params) in
  let given := get_prop "provider" params in
  let requested := normalizeSearchProvider given in
  let provider := default (s_provider config) requested in
  let asked_region := trim (to_string (nullish (get_prop "region" params) (VStr (s_region config)))) in
  if negb (truthy query) then Throw "query is required."
  else if match given, requested with VUndef, _ => false | _, None => true | _, _ => false end
  then Throw ("provider must be " +:+ dq +:+ "brave" +:+ dq +:+ " or " +:+ dq +:+ "duckduckgo" +:+ dq +:+ ".")
  else if is_brave provider && bool_decide (s_apiKey config = None) then Throw "Brave provider requires BRAVE_API_KEY."
  else
    Ok (mkPlan query requested provider (default "" (s_apiKey config))
          (clamp (get_prop "count" params) 1 (if is_brave provider then 10 else 20) (s_defaultCount config))
          (if truthy asked_region then asked_region else s_region config)
          (clamp (get_prop "fetchTop" params) 0 5 (s_fetchTop config))
          (clamp (get_prop "fetchMaxBytes" params) 10000 400000 (s_fetchMaxBytes config))
          (clamp (get_prop "recency" params) 1 365 0)
          (normalizeDomainList (get_prop "domains" params))
          (buildTemporalAnchoredQuery (web_year web) query)).

(** The rows, the service that gave them, and the error of the one that did not. *)
Record SearchFound := mkSearchFound { fd_rows : list SearchResult; fd_provider : WebSearchProvider; fd_error : option string }.
Definition run_search (p : SearchPlan) : result SearchFound :=
  let duck error := let? rows := web_duck web (p_runQuery p) (p_count p) (p_region p) in Ok (mkSearchFound rows duckduckgo error) in
  match p_provider p with
  | duckduckgo => duck None
  | brave =>
      match web_brave web (p_key p) (p_runQuery p) (p_count p) with
      | Ok rows => Ok (mkSearchFound rows brave None)
      | Throw m => match p_requested p with None => duck (Some m) | Some _ => Throw m end
      end
  end.

Record SearchAnswer := mkAnswer {
  a_provider : WebSearchProvider; a_providerError : option string; a_query : string; a_runQuery : string; a_temporal : Temporal;
  a_recency : Z; a_domains : list string; a_region : string; a_results : list SearchResult; a_products : list EcommerceCandidate;
  a_pages : list value }.
Definition finish_search (p : SearchPlan) (f : SearchFound) : SearchAnswer :=
  let results := shapeAndRankResults (web_url_of web) (p_runQuery p) (fd_rows f) (p_domains p) (Z.to_nat (p_count p)) (p_temporal p) in
  let products := extractEcommerceCandidates (web_canonical web) (p_query p)
    [mkOutcome "web_search" (JSON_stringify (VObj [("results", VArr (map result_value results))]))] 8 in
  mkAnswer (fd_provider f) (fd_error f) (p_query p) (p_runQuery p) (p_temporal p) (p_recency p) (p_domains p) (p_region p) results products
    (map (page_preview (p_fetchMaxBytes p)) (firstn (Z.to_nat (p_fetchTop p)) results)).
Definition search_answer (config : ResolvedWebSearchConfig) (params : value) : result SearchAnswer :=
  let? p := search_plan config params in
  let? f := run_search p in
  Ok (finish_search p f).

Definition price_value (p : PriceQuote) : value :=
  VObj [("amount", VNum (amount p)); ("currency", VStr (currency p)); ("display", VStr (display p))].
Definition candidate_value (c : EcommerceCandidate) : value :=
  VObj ([("title", VStr (rc_title (ec_raw c))); ("url", VStr (rc_url (ec_raw c))); ("description", VStr (rc_description (ec_raw c)));
         ("sourceTool", VStr (rc_sourceTool (ec_raw c)))] ++
        [("price", match ec_price c with Some p => price_value p | None => VNull end); ("relevanceScore", VNum (NInt (Z.of_nat (relevanceScore c))))]).
Definition when (b : bool) (v : value) : option value := if b then Some v else None.
Definition answer_value (configured : WebSearchProvider) (a : SearchAnswer) : value :=
  VObj ([("provider", provider_name (a_provider a)); ("configuredProvider", provider_name configured)] ++
        optional "fallbackFrom" (match a_providerError a with
                                 | Some _ => Some (provider_name brave)
                                 | None => when (negb (Bool.eqb (is_brave (a_provider a)) (is_brave configured))) (provider_name configured)
                                 end) ++
        optional "providerError" (option_map VStr (a_providerError a)) ++
        [("query", VStr (a_query a)); ("queryUsed", VStr (a_runQuery a)); ("temporalIntent", VBool (temporalIntent (a_temporal a)))] ++
        optional "anchorYear" (option_map (fun y => VNum (NInt y)) (anchorYear (a_temporal a))) ++
        optional "queryAnchoredToCurrentYear" (when (anchored (a_temporal a)) (VBool true)) ++
        optional "recencyDays" (when (0 <? a_recency a)%Z (VNum (NInt (a_recency a)))) ++
        optional "domains" (when (0 <? length (a_domains a)) (VArr (map VStr (a_domains a)))) ++
        optional "region" (when (negb (is_brave (a_provider a))) (VStr (a_region a))) ++
        [("count", VNum (NInt (Z.of_nat (length (a_results a))))); ("results", VArr (map result_value (a_results a)))] ++
        optional "products" (when (0 <? length (a_products a)) (VArr (map candidate_value (a_products a)))) ++
        optional "cheapest" (c ← pickCheapestCandidate (a_products a); p ← ec_price c;
          Some (VObj [("title", VStr (rc_title (ec_raw c))); ("url", VStr (rc_url (ec_raw c))); ("price", price_value p);
                      ("sourceTool", VStr (rc_sourceTool (ec_raw c)))])) ++
        [("fetchedPages", VNum (NInt (Z.of_nat (length (a_pages a))))); ("pages", VArr (a_pages a))]).
(** The tool is there when it is enabled and has its key. *)
Definition web_search_tool (config : ResolvedWebSearchConfig) : option (value -> result value) :=
  if negb (s_enabled config) then None
  else if is_brave (s_provider config) && bool_decide (s_apiKey config = None) then None
  else Some (fun params => let? a := search_answer config params in Ok (answer_value (s_configuredProvider config) a)).

Definition fetch_answer (config : ResolvedWebFetchConfig) (params : value) : result value :=
  let url := text_of (get_prop "url" params) in
  if negb (truthy url) then Throw "url is required."
  else
    let? f := web_fetch web url (clamp (get_prop "maxBytes" params) 10000 500000 (fc_maxBytes config)) in
    let '(text, cut) := clampFetchText (f_text f) in
    Ok (VObj (page_fields f ++ [("truncatedForModel", VBool cut); ("text", VStr text)])).
Definition web_fetch_tool (config : ResolvedWebFetchConfig) : option (value -> result value) :=
  if fc_enabled config then Some (fetch_answer config) else None.
End Tools.

(** ** Ranking *)

Section RankFacts.
Variable url_of : string -> option web_url.
Variables (query : string) (domains : list string) (t : Temporal).
Notation row_ok := (fun e => truthy (r_url (rk_row e)) = true /\ resultMatchesDomains url_of (r_url (rk_row e)) domains = true /\
                             rk_score e = scoreResult url_of query t domains (rk_row e)).
Notation url_in := (fun e => r_url (rk_row e)).

(** The rows are distinct, within the domains, and their URLs were seen. *)
Record rows_ok (st : list Ranked * list string) : Prop := {
  ro_distinct : NoDup (map url_in st.1); ro_seen : map url_in st.1 ⊆ st.2; ro_rows : Forall row_ok st.1 }.
Lemma rank_step_ok row st : rows_ok st -> rows_ok (rank_step url_of query domains t row st).
Proof.
  intros [D S R]. destruct st as [rows seen]. unfold rank_step. cbn [fst snd] in *. set (url := canonicalizeResultUrl url_of (r_url row)).
  destruct (negb (truthy url) || bool_decide (url ∈ seen)) eqn:E; [by split|]. apply orb_false_iff in E as [T N]. apply negb_false_iff in T.
  apply bool_decide_eq_false_1 in N.
  destruct (resultMatchesDomains url_of url domains) eqn:M; cbn [negb].
  - split; cbn [fst snd].
    + rewrite map_app. apply NoDup_app. split; [done|]. split; [|apply NoDup_singleton]. intros x X. cbn. set_solver.
    + rewrite map_app. cbn. set_solver.
    + apply Forall_app. split; [done|]. by apply Forall_singleton.
  - split; cbn [fst snd]; [done|set_solver|done].
Qed.
Lemma dedupe_rows_ok rows : NoDup (map url_in (dedupe_rows url_of query domains t rows)) /\ Forall row_ok (dedupe_rows url_of query domains t rows).
Proof.
  unfold dedupe_rows. assert (forall st, rows_ok st -> rows_ok (fold_left (fun st row => rank_step url_of query domains t row st) rows st)) as H.
  { induction rows as [|row rows IH]; intros st O; [done|]. cbn [fold_left]. by apply IH, rank_step_ok. }
  destruct (H ([], [])) as [D _ R]; [|done]. split; cbn; [constructor|set_solver|constructor].
Qed.
Lemma filter_elem {A} (p : A -> bool) l x : x ∈ List.filter p l <-> x ∈ l /\ p x = true.
Proof. by rewrite !list_elem_of_In, filter_In. Qed.
Lemma NoDup_map_filter {A B} (f : A -> B) (p : A -> bool) l : NoDup (map f l) -> NoDup (map f (List.filter p l)).
Proof.
  induction l as [|x l IH]; cbn; [done|]. intros [X N]%NoDup_cons. destruct (p x); cbn; [|auto]. constructor; [|auto].
  intros (y & E & Y)%list_elem_of_fmap. apply X. apply list_elem_of_fmap. exists y. split; [done|]. by apply filter_elem in Y as [Y _].
Qed.
Lemma NoDup_map_same {A B} (f : A -> B) l a b : NoDup (map f l) -> a ∈ l -> b ∈ l -> f a = f b -> a = b.
Proof.
  induction l as [|x l IH]; cbn; [set_solver|]. intros [X N]%NoDup_cons. rewrite !elem_of_cons. intros [->|A'] [->|B'] E; [done| | |auto].
  - destruct X. rewrite E. by apply list_elem_of_fmap_2.
  - destruct X. rewrite <- E. by apply list_elem_of_fmap_2.
Qed.
Lemma year_filter_ok rows : NoDup (map url_in rows) -> Forall row_ok rows ->
  NoDup (map url_in (year_filter t rows)) /\ Forall row_ok (year_filter t rows).
Proof.
  intros D R. unfold year_filter. destruct (anchorYear t) as [y|]; [|done]. destruct (temporalIntent t); [|done].
  destruct (List.filter _ rows) as [|m ms] eqn:M; [done|]. rewrite <- M. clear M m ms. split.
  - rewrite map_app. apply NoDup_app.
    split; [by apply NoDup_map_filter|]. split; [|by apply NoDup_map_filter].
    intros x (a & -> & A)%list_elem_of_fmap (b & E & B)%list_elem_of_fmap. apply filter_elem in A as [A1 A2], B as [B1 B2].
    assert (a = b) as -> by (by apply (NoDup_map_same url_in rows)).
    apply bool_decide_eq_true_1 in A2. apply Nat.eqb_eq, length_zero_iff_nil in B2. rewrite B2 in A2. set_solver.
  - rewrite Forall_forall in *. intros x. rewrite elem_of_app, !filter_elem. intros [[X _]|[X _]]; by apply R.
Qed.
End RankFacts.

Lemma rank_results_ok url_of query rows domains count t :
  let results := shapeAndRankResults url_of query rows domains count t in
  NoDup (map r_url results) /\ Forall (fun r => resultMatchesDomains url_of (r_url r) domains = true) results /\
  StronglySorted (fun a b => (scoreResult url_of query t domains b <= scoreResult url_of query t domains a)%Z) results /\ length results <= count.
Proof.
  cbv zeta. unfold shapeAndRankResults. destruct (dedupe_rows_ok url_of query domains t rows) as [D R].
  destruct (year_filter_ok url_of query domains t _ D R) as [D' R']. clear D R.
  set (kept := year_filter t _) in *. clearbody kept.
  assert (StronglySorted (fun a b => better b a = false) (stable_sort better kept)) as S.
  { apply stable_sort_sorted; unfold better; intros *; rewrite ?Z.ltb_lt, ?Z.ltb_ge; lia. }
  rewrite (stable_sort_perm better kept) in D', R'. revert D' R' S. generalize (stable_sort better kept). intros l D R S.
  rewrite <- (firstn_skipn count l) in D, R, S. revert D R S. generalize (skipn count l). intros rest.
  pose proof (length_firstn count l) as L. revert L. generalize (firstn count l). intros best L.
  rewrite map_app. intros [D _]%NoDup_app [R _]%Forall_app S. rewrite length_map.
  split; [by rewrite map_map|]. split; [|split; [|lia]].
  - apply Forall_map, (Forall_impl _ _ _ R). by intros e (_ & M & _).
  - clear D L. induction best as [|e best IH]; cbn; [constructor|]. cbn [app] in S. inversion S as [|? ? S' F]; subst.
    apply Forall_cons in R as [(_ & _ & E) R]. constructor; [by apply IH|].
    apply Forall_map, Forall_forall. intros x X. rewrite Forall_forall in F, R. destruct (R x X) as (_ & _ & Ex).
    assert (better x e = false) as B by (apply F; set_solver). unfold better in B. rewrite Z.ltb_ge in B. lia.
Qed.

Lemma clamp_between v low high fallback : (low <= high)%Z -> (low <= fallback <= high)%Z -> (low <= clamp v low high fallback <= high)%Z.
Proof.
  intros L F. unfold clamp. destruct (clampInt_ok v low high (NInt fallback)) as (z & -> & Z); [done|by exists fallback|].
  unfold num_int, NInt, pow10. cbn. by rewrite Z.div_1_r.
Qed.
Lemma clamp_top v low high fallback m : (low <= high <= m)%Z -> (fallback <= m)%Z -> (clamp v low high fallback <= m)%Z.
Proof.
  intros L F. unfold clamp, clampInt. destruct (to_number v) as [|[]|x k]; cbn [isFinite negb].
  1-3: unfold num_int, NInt, pow10; cbn; rewrite Z.div_1_r; lia.
  cbn [num_floor]. rewrite num_min_int, num_max_int. unfold num_int, NInt, pow10. cbn. rewrite Z.div_1_r. lia.
Qed.

(** the results of a search are distinct pages, all within the domains that were
    asked for, the best first, at most twenty; at most five of them are fetched.  This
    holds whichever service answered, and whatever it answered. *)
Theorem search_results_ok search braveKey web params a :
  search_answer web (resolveWebSearchConfig search braveKey) params = Ok a ->
  let score := scoreResult (web_url_of web) (a_runQuery a) (a_temporal a) (a_domains a) in
  NoDup (map r_url (a_results a)) /\
  Forall (fun r => resultMatchesDomains (web_url_of web) (r_url r) (a_domains a) = true) (a_results a) /\
  StronglySorted (fun x y => (score y <= score x)%Z) (a_results a) /\
  length (a_results a) <= 20 /\ length (a_pages a) <= 5.
Proof.
  set (config := resolveWebSearchConfig search braveKey).
  assert (1 <= s_defaultCount config <= 20 /\ 0 <= s_fetchTop config <= 5)%Z as [C T].
  { split; [|apply clamp_between; lia]. cbn [config resolveWebSearchConfig s_defaultCount].
    destruct (is_brave _); [pose proof (clamp_between (opt_num (ws_maxResults (default no_search search))) 1 10 8)|
      pose proof (clamp_between (opt_num (ws_maxResults (default no_search search))) 1 20 8)]; lia. }
  clearbody config. unfold search_answer. intros (p & P & (f & _ & [= <-])%rbind_ok_inv)%rbind_ok_inv.
  assert (p_count p <= 20 /\ p_fetchTop p <= 5)%Z as [B F].
  { revert P. unfold search_plan. cbv zeta. destruct (negb _); [done|]. destruct (match get_prop "provider" params with VUndef => _ | _ => _ end); [done|].
    destruct (_ && _); [done|]. intros [= <-]. cbn [p_count p_fetchTop].
    split; apply clamp_top; try lia. destruct (is_brave _); lia. }
  cbv zeta. cbn [finish_search a_results a_pages a_domains a_runQuery a_temporal]. rewrite length_map, length_firstn.
  destruct (rank_results_ok (web_url_of web) (p_runQuery p) (fd_rows f) (p_domains p) (Z.to_nat (p_count p)) (p_temporal p)) as (D & W & S & L).
  split; [exact D|]. split; [exact W|]. split; [exact S|]. lia.
Qed.

(** when Brave fails, a search that did not ask for it is answered by
    DuckDuckGo, with the error reported beside the results, and fails only if that
    fails too; a search that asked for Brave fails with Brave's error. *)
Theorem brave_failure_handled web config params p m :
  search_plan web config params = Ok p -> p_provider p = brave -> web_brave web (p_key p) (p_runQuery p) (p_count p) = Throw m ->
  match p_requested p, web_duck web (p_runQuery p) (p_count p) (p_region p) with
  | Some _, _ => search_answer web config params = Throw m
  | None, Throw e => search_answer web config params = Throw e
  | None, Ok rows => exists a, search_answer web config params = Ok a /\ a_provider a = duckduckgo /\ a_providerError a = Some m /\
      a_results a = shapeAndRankResults (web_url_of web) (p_runQuery p) rows (p_domains p) (Z.to_nat (p_count p)) (p_temporal p)
  end.
Proof.
  intros P B E. unfold search_answer, run_search. rewrite P. cbn [rbind]. rewrite B, E.
  destruct (p_requested p); [done|]. destruct (web_duck web _ _ _) as [rows|e]; [|done]. cbn [rbind]. eexists. split; [reflexivity|]. done.
Qed.

Lemma clampFetchText_bound t : slen (clampFetchText t).1 <= MAX_FETCH_TEXT_CHARS + slen truncation_note.
Proof.
  unfold clampFetchText. generalize MAX_FETCH_TEXT_CHARS as n. intros n. destruct (slen t <=? n) eqn:S; cbn [fst].
  - apply Nat.leb_le in S. lia.
  - rewrite slen_app. unfold slice_to. rewrite slen_of_chars, length_firstn. lia.
Qed.

(** what the fetch tool gives to the model is bounded, whatever the server sends:
    at most 500000 bytes are kept and at most 40000 characters shown, before the note
    that says so; and only HTTP URLs are requested. *)
Theorem fetch_bounded from_utf8 request web config params v :
  (0 <= fc_maxBytes config)%Z ->
  web_fetch web = webFetch from_utf8 request -> fetch_answer web config params = Ok v ->
  test (re_i "^https?://") (text_of (get_prop "url" params)) = true /\
  exists n text, get_prop "bytes" v = VNum (NInt n) /\ (0 <= n <= 500000)%Z /\
    get_prop "text" v = VStr text /\ slen text <= MAX_FETCH_TEXT_CHARS + slen truncation_note.
Proof.
  intros C W. unfold fetch_answer. cbv zeta. destruct (negb _); [done|]. rewrite W. intros (f & F & E)%rbind_ok_inv.
  unfold webFetch in F. cbv zeta in F. destruct (negb (truthy _)); [done|]. rewrite text_trim in F.
  destruct (test _ _) eqn:T; cbn [negb] in F; [|done]. split; [done|]. apply rbind_ok_inv in F as (res & _ & [= <-]).
  match type of E with context [firstn ?n (h_body res)] => set (limit := n) in E end.
  assert (Z.of_nat limit <= 500000)%Z as L by (unfold limit; lia). clearbody limit. clear C.
  destruct (clampFetchText _) as [text cut] eqn:K. injection E as <-.
  exists (Z.of_nat (length (firstn limit (h_body res)))), text. split; [reflexivity|].
  split; [rewrite length_firstn; lia|]. split; [reflexivity|]. rewrite <- (f_equal fst K : _ = text). apply clampFetchText_bound.
Qed.

(** ** A web to try *)

(** URLs of the form [https://host/path]. *)
Definition sample_url (s : string) : option web_url :=
  if startsWith "https://" s then
    let rest := slice_from 8 s in
    let h := default "" (head (split_char "/" rest)) in
    Some (mkWebUrl "https:" h (slice_from (slen h) rest) [] s (fun _ => s))
  else None.
Definition sample_rows : list SearchResult :=
  [mkResult "Pi" "https://www.shop.ca/pi/" "2019"; mkResult "Pi again" "https://www.shop.ca/pi" ""; mkResult "Bad" "https://notshop.ca/" "";
   mkResult " Pi latest" "https://a.shop.ca/x" "2024"].
Definition sample_web : Web :=
  mkWebWorld sample_url (fun _ => None) (webFetch of_chars (fun u _ => Ok (mkHttp true 200 u (Some "text/html") (chars "<p>hi</p>"))))
    (fun _ _ _ => Throw "quota") (fun _ _ _ => Ok sample_rows) 2024.
Definition sample_search : value := VObj [("query", VStr "latest pi"); ("domains", VArr [VStr "https://www.Shop.ca/x"])].
Definition keyed : ResolvedWebSearchConfig := resolveWebSearchConfig None "key".

Lemma search_results_ok_witness :
  exists a, search_answer sample_web keyed sample_search = Ok a /\ map r_url (a_results a) = ["https://a.shop.ca/x"] /\
    NoDup (map r_url (a_results a)) /\ length (a_results a) <= 20.
Proof.
  eexists. split; [vm_compute; reflexivity|]. split; [reflexivity|].
  destruct (search_results_ok None "key" sample_web sample_search _ eq_refl) as (D & _ & _ & L & _). split; [exact D|exact L].
Defined.
Lemma brave_failure_handled_witness :
  exists p, search_plan sample_web keyed sample_search = Ok p /\
    exists a, search_answer sample_web keyed sample_search = Ok a /\ a_provider a = duckduckgo /\ a_providerError a = Some "quota".
Proof.
  eexists. split; [vm_compute; reflexivity|].
  destruct (brave_failure_handled sample_web keyed sample_search _ "quota" eq_refl eq_refl eq_refl) as (a & A & P & E & _). eauto.
Defined.
Lemma fetch_bounded_witness :
  exists v, fetch_answer sample_web (resolveWebFetchConfig None) (VObj [("url", VStr " https://a.b ")]) = Ok v /\ get_prop "text" v = VStr "hi" /\
    exists n, get_prop "bytes" v = VNum (NInt n) /\ (0 <= n <= 500000)%Z.
Proof.
  eassert (fetch_answer sample_web (resolveWebFetchConfig None) (VObj [("url", VStr " https://a.b ")]) = Ok _) as E by (vm_compute; reflexivity).
  destruct (fetch_bounded of_chars _ sample_web (resolveWebFetchConfig None) (VObj [("url", VStr " https://a.b ")]) _ ltac:(vm_compute; discriminate) eq_refl E)
    as (_ & n & _ & B & N & _). eexists. split; [exact E|]. split; [reflexivity|]. exists n. split; [exact B|exact N].
Defined.
