(* ===== verification/ProviderCatalog.v ===== *)
(** * Provider catalog

    [src/src/onboarding/provider-catalog.ts]: the providers the program offers,
    and the normal form of a list of model ids.  The alias table is an object
    literal: a name it inherits from [Object.prototype] gives a value that has no
    [toLowerCase], and the normalisation throws. *)

From stdpp Require Import base list sets strings.
From Stdlib Require Import Ascii Lia.
From S2P Require Import Prelude JsString JsMap JsValue Config.

(** ** Data *)

Record ProviderCatalogEntry := mkCatalogEntry {
  ce_id : string;
  ce_label : string;
  ce_description : string;
  ce_authModes : list ProviderAuthMode;
  ce_authHint : option string;
  ce_models : list string;
  ce_defaultModel : string;
  ce_planningModel : string;
  ce_codingModel : string;
}.

Definition DEEPSEEK_CHAT_MODEL_ID : string := "deepseek-chat".
Definition DEEPSEEK_REASONER_MODEL_ID : string := "deepseek-reasoner".
Definition DEEPSEEK_CANONICAL_MODEL_IDS : list string := [DEEPSEEK_CHAT_MODEL_ID; DEEPSEEK_REASONER_MODEL_ID].

Definition DEEPSEEK_MODEL_ALIAS_MAP : list (string * string) :=
  [("deepseek-chat", DEEPSEEK_CHAT_MODEL_ID);
   ("deepseek-v3", DEEPSEEK_CHAT_MODEL_ID);
   ("deepseek-v3-0324", DEEPSEEK_CHAT_MODEL_ID);
   ("deepseek-v3.1", DEEPSEEK_CHAT_MODEL_ID);
   ("deepseek-v3.1-terminus", DEEPSEEK_CHAT_MODEL_ID);
   ("deepseek-v3.2", DEEPSEEK_CHAT_MODEL_ID);
   ("deepseek-v3.2-exp", DEEPSEEK_CHAT_MODEL_ID);
   ("deepseek-reasoner", DEEPSEEK_REASONER_MODEL_ID);
   ("deepseek-r1", DEEPSEEK_REASONER_MODEL_ID);
   ("deepseek-r1-0528", DEEPSEEK_REASONER_MODEL_ID)].

(** ** Operations *)

Fixpoint uniq_from (seen values : list string) : list string :=
  match values with
  | [] => []
  | raw :: values' =>
      let modelId := trim raw in
      if negb (truthy modelId) then uniq_from seen values'
      else
        let key := toLowerCase modelId in
        if bool_decide (key ∈ seen) then uniq_from seen values'
        else modelId :: uniq_from (key :: seen) values'
  end.
Definition uniqModelIds (values : list string) : list string := uniq_from [] values.

(** The loop of [normalizeProviderModels] over the ids of a DeepSeek profile. *)
Fixpoint deepseek_from (seen compact : list string) : result (list string) :=
  match compact with
  | [] => Ok []
  | modelId :: compact' =>
      let? normalized :=
        match obj_lookup (toLowerCase modelId) DEEPSEEK_MODEL_ALIAS_MAP with
        | Own canonical => Ok canonical
        | Missing => Ok modelId
        | Inherited => Throw "normalized.toLowerCase is not a function"
        end in
      let key := toLowerCase normalized in
      if bool_decide (key ∈ seen) then deepseek_from seen compact'
      else let? rest := deepseek_from (key :: seen) compact' in Ok (normalized :: rest)
  end.

Definition normalizeProviderModels (providerId : string) (models : list string) : result (list string) :=
  let normalizedProviderId := toLowerCase (trim providerId) in
  let compact := uniqModelIds models in
  if negb (normalizedProviderId =? "deepseek")%string then Ok compact
  else
    let out := DEEPSEEK_CANONICAL_MODEL_IDS in
    let? more := deepseek_from (map toLowerCase out) compact in
    Ok (out ++ more).

Definition CATALOG : list ProviderCatalogEntry :=
  [mkCatalogEntry "openai-codex" "OpenAI Codex" "OpenAI Codex OAuth/API provider" [oauth; api_key]
     (Some "Use OAuth for OpenAI Codex, or provide an API key.")
     ["gpt-5.1-codex-mini"; "gpt-5.1-codex"; "gpt-5.2-codex"; "gpt-5.3-codex"]
     "gpt-5.1-codex-mini" "gpt-5.1-codex-mini" "gpt-5.1-codex";
   mkCatalogEntry "openai" "OpenAI-Compatible" "OpenAI API or compatible endpoint" [api_key]
     (Some "You can set a custom API endpoint URL during onboarding.")
     ["gpt-4o-mini"; "gpt-4.1-mini"; "gpt-5-mini"] "gpt-4o-mini" "gpt-4o-mini" "gpt-4.1-mini";
   mkCatalogEntry "local-openai" "Local Model"
     "Local AI server: llama.cpp, exo, ollama, or any OpenAI-compatible endpoint on your machine" [api_key]
     (Some "Enter your server URL (e.g. http://127.0.0.1:8080/v1 for llama.cpp, http://127.0.0.1:52415/v1 for exo, http://127.0.0.1:11434/v1 for ollama). API key is optional — most local servers don't require one.")
     ["local-model"] "local-model" "local-model" "local-model";
   mkCatalogEntry "anthropic" "Anthropic" "Claude models via Claude Code CLI auth token or API key" [auth_token; api_key; oauth]
     (Some "Recommended: get a Claude Code auth token by running 'claude setup-token' in your terminal (requires Claude Code CLI installed and logged in via 'claude auth login'). Or use an API key from console.anthropic.com/settings/keys.")
     ["claude-sonnet-4-5"; "claude-opus-4-6"] "claude-sonnet-4-5" "claude-sonnet-4-5" "claude-sonnet-4-5";
   mkCatalogEntry "openrouter" "OpenRouter" "OpenRouter model gateway" [api_key] None
     ["openai/gpt-4o-mini"; "anthropic/claude-3.5-sonnet"] "openai/gpt-4o-mini" "openai/gpt-4o-mini" "openai/gpt-4o-mini";
   mkCatalogEntry "deepseek" "DeepSeek" "DeepSeek API (V3.2 chat + reasoning modes)" [api_key] None
     DEEPSEEK_CANONICAL_MODEL_IDS DEEPSEEK_CHAT_MODEL_ID DEEPSEEK_REASONER_MODEL_ID DEEPSEEK_CHAT_MODEL_ID].

(** The copies the function makes are equal to the entries. *)
Definition listProviderCatalog : list ProviderCatalogEntry := CATALOG.
Definition getProviderCatalogEntry (id : string) : option ProviderCatalogEntry :=
  List.find (fun entry => (ce_id entry =? id)%string) CATALOG.

(** ** Lemmas *)

(** [uniq_from] keeps trimmed, non-empty ids whose keys are new and different. *)
Record fresh_ids (seen l : list string) : Prop := {
  fi_new : Forall (fun s => toLowerCase s ∉ seen) l;
  fi_nodup : NoDup (map toLowerCase l);
}.
Definition clean_id (s : string) : Prop := trim s = s /\ s <> "".

Lemma fresh_nil seen : fresh_ids seen [].
Proof. split; constructor. Qed.
Lemma fresh_cons seen s l :
  toLowerCase s ∉ seen -> fresh_ids (toLowerCase s :: seen) l -> fresh_ids seen (s :: l).
Proof.
  intros N [F D]. split; [constructor; [done|]|cbn [map]; constructor; [|done]].
  - eapply Forall_impl; [exact F|]. cbn. set_solver.
  - intros (t & E & H)%list_elem_of_fmap. rewrite Forall_forall in F. apply F in H. set_solver.
Qed.
#[export] Hint Resolve fresh_nil fresh_cons : t560.

Lemma uniq_from_ok values : forall seen, fresh_ids seen (uniq_from seen values) /\ Forall clean_id (uniq_from seen values).
Proof.
  induction values as [|v values IH]; intros seen; cbn [uniq_from]; [auto with t560|].
  destruct (truthy (trim v)) eqn:T; [|apply IH]. cbn [negb]. case_bool_decide as S; [apply IH|].
  destruct (IH (toLowerCase (trim v) :: seen)) as [F C]. split; [auto with t560|].
  constructor; [|done]. split; [apply trim_idemp|by apply truthy_true].
Qed.
Lemma uniq_from_id l : forall seen, fresh_ids seen l -> Forall clean_id l -> uniq_from seen l = l.
Proof.
  induction l as [|s l IH]; intros seen [F D] C; [done|]. cbn [uniq_from map] in *.
  apply Forall_cons in F as [N F]. apply Forall_cons in C as [[T E] C]. apply NoDup_cons in D as [D1 D2].
  rewrite T. apply truthy_true in E. rewrite E. cbn [negb]. rewrite bool_decide_false by done. f_equal.
  apply IH; [|done]. split; [|done]. rewrite Forall_forall in F |- *. intros t H [K|K]%elem_of_cons; [|by eapply F].
  apply D1. rewrite <- K. by apply list_elem_of_fmap_2.
Qed.

(** An id that is no alias and no inherited name, or one of the two real ids. *)
Definition canonical_id (s : string) : Prop :=
  obj_lookup (toLowerCase s) DEEPSEEK_MODEL_ALIAS_MAP = Missing \/ In s DEEPSEEK_CANONICAL_MODEL_IDS.

Lemma alias_canonical k a : mget k DEEPSEEK_MODEL_ALIAS_MAP = Some a -> In a DEEPSEEK_CANONICAL_MODEL_IDS.
Proof. intros G%mget_In. simpl in G. repeat destruct G as [[= <- <-]|G]; done || ((by left) || (right; by left)). Qed.
Lemma canonical_clean s : In s DEEPSEEK_CANONICAL_MODEL_IDS -> clean_id s.
Proof. intros [<-|[<-|[]]]; by split. Qed.

Lemma deepseek_from_ok compact : forall seen more,
  deepseek_from seen compact = Ok more -> Forall clean_id compact ->
  fresh_ids seen more /\ Forall clean_id more /\ Forall canonical_id more.
Proof.
  induction compact as [|m compact IH]; intros seen more; cbn [deepseek_from]; intros E Cs.
  { injection E as <-. auto with t560. }
  apply Forall_cons in Cs as [M C].
  assert (exists n, clean_id n /\ canonical_id n /\
    (if bool_decide (toLowerCase n ∈ seen) then deepseek_from seen compact
     else let? rest := deepseek_from (toLowerCase n :: seen) compact in Ok (n :: rest)) = Ok more) as (n & Cn & An & K).
  { destruct (obj_lookup (toLowerCase m) DEEPSEEK_MODEL_ALIAS_MAP) as [a| |] eqn:L; cbn [rbind] in E; [|done|].
    - unfold obj_lookup in L. destruct (mget _ _) as [a'|] eqn:G; [|by destruct (bool_decide _)]. injection L as ->.
      apply alias_canonical in G. exists a. split; [by apply canonical_clean|]. split; [by right|done].
    - exists m. split; [done|]. split; [by left|done]. }
  case_bool_decide as S; [by apply IH|]. apply rbind_ok_inv in K as (rest & K & [= <-]).
  apply IH in K as (F & Cr & Ar); [|done]. auto 6 with t560.
Qed.

(** A list in normal form is left alone. *)
Lemma deepseek_from_id l : forall seen,
  fresh_ids seen l -> Forall (fun s => obj_lookup (toLowerCase s) DEEPSEEK_MODEL_ALIAS_MAP = Missing) l ->
  deepseek_from seen l = Ok l.
Proof.
  induction l as [|s l IH]; intros seen [F D] A; [done|]. cbn [deepseek_from map] in *.
  apply Forall_cons in F as [N F]. apply Forall_cons in A as [A1 A]. apply NoDup_cons in D as [D1 D2].
  rewrite A1. cbn [rbind]. rewrite bool_decide_false by done. rewrite IH; [done| |done]. split; [|done].
  rewrite Forall_forall in F |- *. intros t T [K|K]%elem_of_cons; [|by eapply F].
  apply D1. rewrite <- K. by apply list_elem_of_fmap_2.
Qed.
Lemma fresh_app seen a l : fresh_ids seen a -> fresh_ids (map toLowerCase a ++ seen) l -> fresh_ids seen (a ++ l).
Proof.
  intros [F D] [F' D']. rewrite Forall_forall in F'. split.
  - apply Forall_app. split; [done|]. apply Forall_forall. intros t T. specialize (F' t T). set_solver.
  - rewrite map_app. apply NoDup_app. split_and!; [done| |done]. intros k K (t & -> & T)%list_elem_of_fmap.
    apply (F' t T). set_solver.
Qed.
Lemma fresh_canonical seen : (forall s, In s DEEPSEEK_CANONICAL_MODEL_IDS -> s ∉ seen) -> fresh_ids seen DEEPSEEK_CANONICAL_MODEL_IDS.
Proof.
  intros H. split; [|by_decide]. repeat constructor; apply H; by simpl; auto.
Qed.

Lemma deepseek_canonical l :
  deepseek_from (map toLowerCase DEEPSEEK_CANONICAL_MODEL_IDS) (DEEPSEEK_CANONICAL_MODEL_IDS ++ l) =
  deepseek_from (map toLowerCase DEEPSEEK_CANONICAL_MODEL_IDS) l.
Proof. reflexivity. Qed.

(** ** Properties *)

(** the normal form of a list of model ids is trimmed, has no empty id and no
    id twice (whatever the case), starts with the two real ids for DeepSeek, where
    no other alias is left, and normalising it again changes nothing. *)
Theorem models_normal providerId models l :
  normalizeProviderModels providerId models = Ok l ->
  Forall clean_id l /\ NoDup (map toLowerCase l) /\ normalizeProviderModels providerId l = Ok l /\
  (toLowerCase (trim providerId) = "deepseek" ->
   exists more, l = DEEPSEEK_CANONICAL_MODEL_IDS ++ more /\
     Forall (fun s => obj_lookup (toLowerCase s) DEEPSEEK_MODEL_ALIAS_MAP = Missing) more).
Proof.
  unfold normalizeProviderModels. cbv zeta. destruct (uniq_from_ok models []) as [F C].
  destruct (toLowerCase (trim providerId) =? "deepseek")%string eqn:P; cbn [negb]; bool_prop.
  - intros (more & E & Q)%rbind_ok_inv. assert (l = DEEPSEEK_CANONICAL_MODEL_IDS ++ more) as -> by congruence. clear Q.
    apply deepseek_from_ok in E as (Fm & Cm & Am); [|done].
    assert (Forall (fun s => obj_lookup (toLowerCase s) DEEPSEEK_MODEL_ALIAS_MAP = Missing) more) as A.
    { destruct Fm as [Fm _]. rewrite !Forall_forall in *. intros s S. destruct (Am s S) as [|[<-|[<-|[]]]]; [done|..];
        exfalso; apply (Fm _ S); by_decide. }
    assert (fresh_ids [] (DEEPSEEK_CANONICAL_MODEL_IDS ++ more)) as W.
    { apply fresh_app; [apply fresh_canonical; intros; apply not_elem_of_nil|by rewrite app_nil_r]. }
    assert (Forall clean_id (DEEPSEEK_CANONICAL_MODEL_IDS ++ more)) as W'.
    { apply Forall_app. split; [repeat constructor; done|done]. }
    split_and!; [done|by destruct W| |eauto].
    unfold uniqModelIds. rewrite uniq_from_id by done.
    rewrite deepseek_canonical. by rewrite deepseek_from_id.
  - intros [= <-]. split_and!; [done|by destruct F| |done]. f_equal. by apply uniq_from_id.
Qed.
Lemma models_normal_witness : exists l,
  normalizeProviderModels " DeepSeek" ["DeepSeek-R1"; " my-model "; "MY-MODEL"; "deepseek-v3.2"] = Ok l /\
  l = ["deepseek-chat"; "deepseek-reasoner"; "my-model"] /\ NoDup (map toLowerCase l).
Proof.
  eexists. split; [vm_compute; reflexivity|]. split; [done|].
  exact (proj1 (proj2 (models_normal " DeepSeek" ["DeepSeek-R1"; " my-model "; "MY-MODEL"; "deepseek-v3.2"] _ ltac:(vm_compute; reflexivity)))).
Defined.

(** Every entry of the catalog is in normal form, can be found by its id, and
    offers the models it routes to. *)
Definition entry_ok (e : ProviderCatalogEntry) : bool :=
  match normalizeProviderModels (ce_id e) (ce_models e) with
  | Ok l => bool_decide (l = ce_models e)
  | Throw _ => false
  end &&
  forallb (fun m => bool_decide (m ∈ ce_models e)) [ce_defaultModel e; ce_planningModel e; ce_codingModel e] &&
  match getProviderCatalogEntry (ce_id e) with Some e' => (ce_label e' =? ce_label e)%string | None => false end.
Example catalog_ok : forallb entry_ok CATALOG = true.
Proof. vm_compute. reflexivity. Qed.

(** A DeepSeek model called like a property of [Object.prototype] makes the
    normalisation throw; other providers accept the name. *)
Example inherited_model_fails :
  normalizeProviderModels "deepseek" ["constructor"] = Throw "normalized.toLowerCase is not a function" /\
  normalizeProviderModels "openai" ["constructor"] = Ok ["constructor"].
Proof. vm_compute. done. Qed.
