(* ===== verification/BootstrapContext.v ===== *)
(** * Bootstrap context

    [src/src/agents/bootstrap-context.ts]: the files of the workspace that are put
    before the model, each cut to a bound, with the profile texts of the state
    directory in place of a missing [SOUL.md] or [USER.md]. *)

From stdpp Require Import base list sets strings pretty.
From Stdlib Require Import Ascii Lia ZArith.
From S2P Require Import Prelude JsString JsMap JsValue JsonIndent NodePath Config.

(** ** Data *)

Definition T560_BOOTSTRAP_FILENAMES : list string :=
  ["AGENTS.md"; "SOUL.md"; "TOOLS.md"; "IDENTITY.md"; "USER.md"; "HEARTBEAT.md"; "BOOTSTRAP.md"].
Definition DEFAULT_BOOTSTRAP_MAX_CHARS : Z := 20000.

Inductive InjectedContextSource := from_workspace | fallback_soul | fallback_user | from_missing.
#[export] Instance InjectedContextSource_eq : EqDecision InjectedContextSource.
Proof. solve_decision. Defined.
Definition source_name (s : InjectedContextSource) : string :=
  match s with
  | from_workspace => "workspace" | fallback_soul => "fallback:soul"
  | fallback_user => "fallback:user" | from_missing => "missing"
  end.

Record InjectedContextFile := mkInjected {
  ic_name : string;
  ic_path : string;
  ic_content : string;
  ic_missing : bool;
  ic_truncated : bool;
  ic_source : InjectedContextSource;
  ic_rawChars : nat;
  ic_injectedChars : nat;
}.
Record FallbackProfileFile := mkFallback { fb_path : string; fb_content : option string }.

(** ** Operations *)

(** The text of a file: a document is written with two spaces of indentation and
    a line feed. *)
Definition node_text (n : node) : option string :=
  match n with
  | Dir => None
  | Text s => Some s
  | Json v => Some (JSON_stringify2 v +:+ lf)
  end.
(** [readFile(p, "utf-8")], [None] when it throws *)
Definition text_at (pcwd p : string) (d : disk) : option string := node_at pcwd p d ≫= node_text.

Definition normalizeMaxChars (v : option num) : Z :=
  match v with
  | Some (NFin m k) => if (m <=? 0)%Z then DEFAULT_BOOTSTRAP_MAX_CHARS else Z.max 500 (m / pow10 k)
  | _ => DEFAULT_BOOTSTRAP_MAX_CHARS
  end.

Definition readText (pcwd filePath : string) (d : disk) : option string :=
  raw ← text_at pcwd filePath d; if truthy (trim raw) then Some raw else None.

Definition truncation_note (maxChars : Z) : string :=
  lf +:+ lf +:+ "[TRUNCATED: file exceeds " +:+ pretty maxChars +:+ " characters; remaining content omitted]".
Definition truncateForPrompt (content : string) (maxChars : Z) : string * bool :=
  if (Z.of_nat (slen content) <=? maxChars)%Z then (content, false)
  else (slice_to (Z.to_nat maxChars) content +:+ truncation_note maxChars, true).

(** [!content && name === ... && fallback?.content] *)
Definition use_fallback (fallback : option FallbackProfileFile) : option (string * string) :=
  f ← fallback; c ← fb_content f; if truthy c then Some (fb_path f, c) else None.

Section Load.
Variables (pcwd : string) (d : disk).
Variables (workspaceDir : string) (maxChars : Z).
Variables (soulFallback userFallback : option FallbackProfileFile).

(** The body of the loop: where the text of [name] comes from. *)
Definition locate (name : string) : string * option string * InjectedContextSource :=
  let workspacePath := join2 workspaceDir name in
  match readText pcwd workspacePath d with
  | Some content => (workspacePath, Some content, from_workspace)
  | None =>
      match (if (name =? "SOUL.md")%string then use_fallback soulFallback else None),
            (if (name =? "USER.md")%string then use_fallback userFallback else None) with
      | Some (p, c), _ => (p, Some c, fallback_soul)
      | None, Some (p, c) => (p, Some c, fallback_user)
      | None, None => (workspacePath, None, from_missing)
      end
  end.

Definition inject (name : string) : InjectedContextFile :=
  let '(sourcePath, content, source) := locate name in
  match content with
  | None => mkInjected name sourcePath "(missing file)" true false from_missing 0 0
  | Some content =>
      let '(text, truncated) := truncateForPrompt content maxChars in
      mkInjected name sourcePath text false truncated source (slen content) (slen text)
  end.
End Load.

Definition selected_files (includeFiles : option (list string)) : list string :=
  let requestedFiles :=
    List.filter (fun name => bool_decide (name ∈ T560_BOOTSTRAP_FILENAMES)) (map trim (default [] includeFiles)) in
  if (0 <? length requestedFiles)%nat then dedup requestedFiles else T560_BOOTSTRAP_FILENAMES.

Definition loadT560BootstrapContext (pcwd workspaceDir : string) (maxChars : option num) (includeFiles : option (list string))
    (soulFallback userFallback : option FallbackProfileFile) (d : disk) : list InjectedContextFile :=
  map (inject pcwd d (resolve pcwd workspaceDir) (normalizeMaxChars maxChars) soulFallback userFallback)
    (selected_files includeFiles).

(** ** Lemmas *)

Lemma normalizeMaxChars_pos v : (500 <= normalizeMaxChars v)%Z.
Proof. unfold normalizeMaxChars, DEFAULT_BOOTSTRAP_MAX_CHARS. destruct v as [[| |m k]|]; try lia. destruct (_ <=? _)%Z; lia. Qed.

Lemma truncate_spec content maxChars text truncated :
  (0 <= maxChars)%Z -> truncateForPrompt content maxChars = (text, truncated) ->
  (truncated = false /\ text = content /\ (Z.of_nat (slen text) <= maxChars)%Z) \/
  (truncated = true /\ (maxChars < Z.of_nat (slen content))%Z /\
   exists kept rest, content = kept +:+ rest /\ Z.of_nat (slen kept) = maxChars /\ text = kept +:+ truncation_note maxChars).
Proof.
  intros P. unfold truncateForPrompt. destruct (_ <=? _)%Z eqn:L; intros [= <- <-]; bool_prop; [by left|right].
  split; [done|]. split; [done|]. exists (slice_to (Z.to_nat maxChars) content), (of_chars (skipn (Z.to_nat maxChars) (chars content))).
  split_and!; [|unfold slice_to; rewrite slen_of_chars, length_firstn; unfold slen in L; lia|done].
  unfold slice_to. by rewrite <- of_chars_app, firstn_skipn, of_chars_chars.
Qed.

Lemma selected_files_ok includeFiles :
  NoDup (selected_files includeFiles) /\ selected_files includeFiles <> [] /\
  forall f, f ∈ selected_files includeFiles -> f ∈ T560_BOOTSTRAP_FILENAMES.
Proof.
  unfold selected_files. cbv zeta. set (l := List.filter _ _). destruct (0 <? length l)%nat eqn:N; bool_prop.
  - split; [apply NoDup_dedup_with|]. split.
    + destruct l as [|x l']; [simpl in N; lia|]. cbn. unfold dedup. cbn. by rewrite bool_decide_false by apply not_elem_of_nil.
    + intros f F. rewrite elem_of_dedup in F. unfold l in F. apply list_elem_of_In, filter_In in F as [_ F]. by bool_prop.
  - split; [by_decide|]. split; [done|auto].
Qed.

(** ** Properties *)

(** the context has one entry for each selected file, in their order, and the
    selected files are distinct names of the fixed list.  An entry that is not
    missing holds the file of the workspace if that is not blank, and otherwise
    the profile text given for [SOUL.md] or [USER.md]; it holds the whole text, or
    its first [maxChars] characters followed by the note that says so. *)
Theorem context_bounded pcwd workspaceDir maxChars includeFiles soul user d :
  let files := loadT560BootstrapContext pcwd workspaceDir maxChars includeFiles soul user d in
  let bound := normalizeMaxChars maxChars in
  map ic_name files = selected_files includeFiles /\ NoDup (map ic_name files) /\ files <> [] /\
  forall f, f ∈ files ->
    ic_name f ∈ T560_BOOTSTRAP_FILENAMES /\
    if ic_missing f then ic_content f = "(missing file)" /\ readText pcwd (ic_path f) d = None
    else exists text,
      match ic_source f with
      | from_workspace => ic_path f = join2 (resolve pcwd workspaceDir) (ic_name f) /\ readText pcwd (ic_path f) d = Some text
      | fallback_soul => ic_name f = "SOUL.md" /\ use_fallback soul = Some (ic_path f, text)
      | fallback_user => ic_name f = "USER.md" /\ use_fallback user = Some (ic_path f, text)
      | from_missing => False
      end /\
      if ic_truncated f
      then exists kept rest, text = kept +:+ rest /\ Z.of_nat (slen kept) = bound /\ ic_content f = kept +:+ truncation_note bound
      else ic_content f = text /\ (Z.of_nat (slen text) <= bound)%Z.
Proof.
  cbv zeta. destruct (selected_files_ok includeFiles) as (D & N & S). unfold loadT560BootstrapContext.
  pose proof (normalizeMaxChars_pos maxChars) as P. revert P. generalize (normalizeMaxChars maxChars) as bound. intros bound P.
  set (ws := resolve pcwd workspaceDir).
  assert (map ic_name (map (inject pcwd d ws bound soul user) (selected_files includeFiles)) = selected_files includeFiles) as M.
  { rewrite map_map. etransitivity; [|apply map_id]. apply map_ext. intros n. unfold inject.
    destruct (locate _ _ _ _ _ _) as [[p [c|]] s]; [|done]. by destruct (truncateForPrompt c bound). }
  rewrite M. split_and!; [done|done|by destruct (selected_files includeFiles)|].
  intros f (n & -> & F)%list_elem_of_fmap. apply S in F. unfold inject.
  destruct (locate pcwd d ws soul user n) as [[p c] s] eqn:L. unfold locate in L.
  assert (match c with
    | None => readText pcwd p d = None
    | Some text => match s with
      | from_workspace => p = join2 ws n /\ readText pcwd p d = Some text
      | fallback_soul => n = "SOUL.md" /\ use_fallback soul = Some (p, text)
      | fallback_user => n = "USER.md" /\ use_fallback user = Some (p, text)
      | from_missing => False
      end end) as K.
  { cbv zeta in L. destruct (readText pcwd (join2 ws n) d) eqn:R; [by simplify_eq|].
    destruct (n =? "SOUL.md")%string eqn:E1, (n =? "USER.md")%string eqn:E2; bool_prop; subst; try done;
      repeat case_match; by simplify_eq. }
  clear L. destruct c as [c|]; [|done]. destruct (truncateForPrompt c bound) as [text tr] eqn:T.
  cbn [ic_name ic_path ic_content ic_missing ic_truncated ic_source]. split; [done|]. exists c. split; [done|].
  apply truncate_spec in T as [(-> & -> & ?)|(-> & _ & ?)]; [done|done|lia].
Qed.
