(* ===== verification/DashboardInput.v ===== *)
(** * What the dashboard accepts

    [src/src/web/dashboard.ts], the parts that need no state: the parsers of
    settings and request bodies, the texts of answers, and the files of the web
    interface.  A body is a [value]; what the code reads of [new URL(s)] is the
    argument [URL], [None] when the constructor throws. *)

From stdpp Require Import base list sets strings pretty.
From Stdlib Require Import Ascii Lia ZArith.
From S2P Require Import Prelude JsString JsMap JsValue JsRegexExec Json NodePath Config Vault ChatService ProviderCatalog BootstrapContext.
#[local] Open Scope nat_scope.

(** ** Answers *)

Inductive rbody := NoBody | JsonBody (v : value) | TextBody (s : string).
Record response := mkRes { r_status : Z; r_headers : list (string * string); r_body : rbody }.

Definition sendJson (status : Z) (payload : value) : response :=
  mkRes status [("content-type", "application/json; charset=utf-8")] (JsonBody payload).
Definition setSecurityHeaders (r : response) : response :=
  mkRes (r_status r)
    (fold_left (fun hs h => mset h.1 h.2 hs) (r_headers r)
       [("X-Frame-Options", "DENY"); ("X-Content-Type-Options", "nosniff"); ("Referrer-Policy", "no-referrer")])
    (r_body r).

(** [{ error: e, message: m }] *)
Definition failure (status : Z) (e m : string) : response :=
  sendJson status (VObj [("error", VStr e); ("message", VStr m)]).
Definition invalid_json : response := failure 400 "invalid_json" "Request body must be valid JSON.".
Definition invalid_body : response := failure 400 "invalid_body" "Body must be an object.".
(** [{ ok: false, error: e }] *)
Definition refusal (status : Z) (e : string) : response :=
  sendJson status (VObj [("ok", VBool false); ("error", VStr e)]).

(** ** Settings *)

Definition parsePort (portRaw : option string) : num :=
  match portRaw with
  | None => NInt 5600
  | Some s =>
      if negb (truthy s) then NInt 5600
      else
        let v := num_of_string s in
        if negb (isInteger v) || num_lt v (NInt 1) || num_lt (NInt 65535) v then NInt 5600 else v
  end.

Definition parseBindHost (raw : option string) : string :=
  let v := trim (default "" raw) in if truthy v then v else "0.0.0.0".

(** ** Files of the web interface *)

Definition MIME_TYPES : list (string * string) :=
  [(".html", "text/html; charset=utf-8"); (".css", "text/css; charset=utf-8");
   (".js", "application/javascript; charset=utf-8"); (".json", "application/json; charset=utf-8");
   (".svg", "image/svg+xml"); (".png", "image/png"); (".jpg", "image/jpeg"); (".jpeg", "image/jpeg");
   (".ico", "image/x-icon"); (".woff", "font/woff"); (".woff2", "font/woff2"); (".ttf", "font/ttf");
   (".map", "application/json")].

Definition dot : ascii := ".".
(** [s.replace(/\.\./g, "")] *)
Fixpoint remove_dotdot (l : list ascii) : list ascii :=
  match l with
  | [] => []
  | c :: l' =>
      match l' with
      | c' :: l'' => if bool_decide (c = dot) && bool_decide (c' = dot) then remove_dotdot l'' else c :: remove_dotdot l'
      | [] => [c]
      end
  end.
Definition is_slash (c : ascii) : bool := bool_decide (c = slash).
Definition safe_path (pathname : string) : string :=
  of_chars (drop_while is_slash (chars (replace_runs is_slash [slash] (of_chars (remove_dotdot (chars pathname)))))).

(** [path.extname(p)] *)
Definition extname (p : string) : string :=
  let b := basename p in
  match lastIndexOf_char dot b with
  | None | Some 0 => ""
  | Some i => if (b =? "..")%string then "" else slice_from i b
  end.

(** [statSync(p)], [None] when it throws: a path with a slash at its end names a
    directory. *)
Definition stat (pcwd p : string) (d : disk) : option node :=
  match node_at pcwd p d with
  | Some Dir => Some Dir
  | Some n => if endsWith "/" p then None else Some n
  | None => None
  end.

Definition serveStaticFile (pcwd : string) (d : disk) (uiRoot pathname : string) : option response :=
  let filePath := join2 uiRoot (safe_path pathname) in
  match stat pcwd filePath d with
  | None => None
  | Some n =>
      let filePath := match n with Dir => join2 filePath "index.html" | _ => filePath end in
      match stat pcwd filePath d ≫= node_text with
      | None => None
      | Some content =>
          let ext := toLowerCase (extname filePath) in
          let contentType := default "application/octet-stream" (mget ext MIME_TYPES) in
          Some (setSecurityHeaders (mkRes 200 [("content-type", contentType); ("cache-control", "no-cache")] (TextBody content)))
      end
  end.

(** [resolveUiRoot]: the first candidate with an [index.html]; [__dirname] is the
    directory of the module. *)
Definition ui_candidates (dirname pcwd : string) : list string :=
  [join2 (join2 dirname "..") "control-ui"; join2 (join2 (join2 dirname "../..") "dist") "control-ui";
   join2 (join2 pcwd "dist") "control-ui"].
Definition resolveUiRoot (dirname pcwd : string) (d : disk) : option string :=
  List.find (fun root => fileExists pcwd (join2 root "index.html") d) (ui_candidates dirname pcwd).
Definition resolveProjectRootFromDashboardFile (dirname pcwd : string) (d : disk) : string :=
  let guessed := join2 dirname "../.." in
  if fileExists pcwd (join2 guessed "package.json") d && fileExists pcwd (join2 (join2 guessed "ui") "package.json") d
  then guessed else pcwd.

(** ** Chat *)

Definition summarizeErrorMessage (raw : string) : string :=
  let oneLine := trim (replace_runs is_ws [" "%char] raw) in
  if negb (truthy oneLine) then "Unknown error."
  else if (240 <? slen oneLine)%nat then slice_to 240 oneLine +:+ "..." else oneLine.

Definition buildFallbackChatResponse (error : string) : ChatResponse :=
  mkResponse ("I hit an internal error while processing that request: " +:+ summarizeErrorMessage error)
    None [] provider_mode None None false [].

Definition or_null (o : option string) : value := match o with Some s => VStr s | None => VNull end.
Definition SAFE_MESSAGE : string :=
  "I could not generate a non-empty response for this request. Please retry and I will continue from the current session state.".
(** [uuid] and [now] are the identifier and the clock of the message. *)
Definition toWsAssistantChatPayload (uuid : string) (now : Z) (reply : ChatResponse) : value :=
  let trimmedMessage := trim (cr_message reply) in
  let safeMessage := if truthy trimmedMessage then trimmedMessage else SAFE_MESSAGE in
  VObj [("id", VStr uuid); ("role", VStr "assistant"); ("message", VStr safeMessage);
        ("thinking", or_null (thinking reply)); ("toolCalls", VArr (map VStr (toolCalls reply)));
        ("provider", or_null (cr_provider reply)); ("model", or_null (cr_model reply)); ("timestamp", VNum (NInt now))].
(** The answer as the HTTP interface gives it. *)
Definition chat_value (reply : ChatResponse) : value :=
  VObj [("role", VStr "assistant"); ("message", VStr (cr_message reply)); ("thinking", or_null (thinking reply));
        ("toolCalls", VArr (map VStr (toolCalls reply)));
        ("mode", VStr (match mode reply with foundation => "foundation" | provider_mode => "provider" end));
        ("provider", or_null (cr_provider reply)); ("model", or_null (cr_model reply));
        ("onboardingRequired", VBool (onboardingRequired reply)); ("missing", VArr (map VStr (cr_missing reply)))].

Definition normalizeHistoryLimit (v : value) : nat :=
  match to_number v with
  | NFin m k => Z.to_nat (Z.max 1 (Z.min 200 (m / pow10 k)))
  | _ => 80
  end.

Definition block_text (block : value) : string :=
  if negb (is_object block) then ""
  else match get_prop "text" block with
       | VStr s => s
       | _ => if is_str "text" (get_prop "type" block)
              then match get_prop "content" block with VStr s => s | _ => "" end
              else ""
       end.
Definition extractTextContent (content : value) : string :=
  match content with
  | VStr s => s
  | VArr l => trim (join lf (List.filter truthy (map block_text l)))
  | _ => ""
  end.

(** ** Request bodies *)

Definition parseConfigObjectFromBody (body : value) : result value :=
  match body with
  | VObj _ =>
      match get_prop "raw" body with
      | VStr raw =>
          match JSON_parse raw with
          | None => Throw "Unexpected token in JSON"
          | Some (VObj ps) => Ok (VObj ps)
          | Some _ => Throw "raw must parse to a JSON object."
          end
      | _ => match get_prop "config" body with VObj ps => Ok (VObj ps) | _ => Ok body end
      end
  | _ => Throw "Request body must be an object."
  end.

(** [String(v ?? "").trim()] *)
Definition text_of (v : value) : string := trim (to_string (nullish v (VStr ""))).
Definition choice_of (v : value) : string := toLowerCase (text_of v).

Definition parseRoutingSlot (slotRaw : value) : option (string * string) :=
  match slotRaw with
  | VObj _ =>
      let provider := text_of (get_prop "provider" slotRaw) in
      let model := text_of (get_prop "model" slotRaw) in
      if negb (truthy provider) || negb (truthy model) then None else Some (provider, model)
  | _ => None
  end.

Definition sanitizeProviderId (raw : value) : option string :=
  let v := choice_of raw in
  if negb (truthy v) then None
  else nonempty (strip_dashes (replace_runs (fun c => negb (service_char c)) ["-"%char] v)).

Definition parseProviderAuthMode (raw : value) : ProviderAuthMode :=
  let v := choice_of raw in
  if (v =? "oauth")%string then oauth else if (v =? "token")%string then auth_token else api_key.

Definition slot_model (s : slot) (e : ProviderCatalogEntry) : string :=
  match s with Default => ce_defaultModel e | Planning => ce_planningModel e | Coding => ce_codingModel e end.
Definition resolveCatalogRouteModel (providerId : string) (s : slot) : option string :=
  match List.find (fun item => (ce_id item =? providerId)%string) listProviderCatalog with
  | None => None
  | Some entry => if truthy (slot_model s entry) then Some (slot_model s entry) else head (ce_models entry)
  end.

(** [rawModels] is [profile?.models]; the catalog's model wins whether or not the
    profile lists it. *)
Definition resolveProviderRouteModel (providerId : string) (rawModels : option (list string)) (s : slot) : result (option string) :=
  let catalogModel := resolveCatalogRouteModel providerId s in
  let? providerModels := normalizeProviderModels providerId (List.filter truthy (map trim (default [] rawModels))) in
  match catalogModel with
  | Some m => if truthy m then Ok catalogModel else Ok (head providerModels)
  | None => Ok (head providerModels)
  end.

Definition parseTelegramDmPolicy (raw : value) : TelegramDmPolicy :=
  let v := choice_of raw in
  if (v =? "allowlist")%string then allowlist else if (v =? "open")%string then open
  else if (v =? "disabled")%string then disabled else pairing.

Definition parseCredentialAuthMode (raw : value) : CredentialAuthMode :=
  let v := choice_of raw in
  if bool_decide (v ∈ ["password_with_mfa"; "password+mfa"; "password_and_mfa"; "mfa_required"]) then password_with_mfa
  else if bool_decide (v ∈ ["mfa"; "passwordless"; "passwordless_mfa_code"; "mfa-code"]) then passwordless_mfa_code
  else password.

Definition parseCredentialMfaStrategy (raw : value) : CredentialMfaStrategy :=
  let v := choice_of raw in
  if (v =? "email_or_user")%string || (v =? "email")%string then email_or_user else user_prompt.

Definition parseStringArray (raw : value) : list string :=
  match raw with
  | VStr s => List.filter truthy (map trim (split_char "," s))
  | VArr l => List.filter truthy (map text_of l)
  | _ => []
  end.
Definition parseIntegerArray (raw : value) : list num :=
  match raw with
  | VStr s => List.filter isInteger (map (fun entry => num_of_string (trim entry)) (split_char "," s))
  | VArr l => List.filter isInteger (map to_number l)
  | _ => []
  end.

(** ** Addresses *)

(** What the code reads of a URL object. *)
Record url := mkUrl { protocol : string; href : string }.

Definition strip_slashes (s : string) : string := of_chars (rev (drop_while is_slash (rev (chars s)))).
Definition normalizeOpenAICompatibleBaseUrl (v : string) : string :=
  let trimmed := trim v in
  if negb (truthy trimmed) then ""
  else
    let n := if test (re_i "^https?://") trimmed then trimmed else "http://" +:+ trimmed in
    let n := strip_slashes n in
    let n := replaceFirst (re_i "/chat/completions$") "" n in
    let n := replaceFirst (re_i "/v1/chat$") "/v1" n in
    if test (re_i "/v1$") n then n else n +:+ "/v1".

Section Addresses.
Variable URL : string -> option url.

Fixpoint first_web_url (candidates : list string) : option string :=
  match candidates with
  | [] => None
  | c :: candidates' =>
      match URL c with
      | Some parsed =>
          if test (re_i "^https?:$") (protocol parsed)
          then Some (if endsWith "/" (href parsed) then slice_to (slen (href parsed) - 1) (href parsed) else href parsed)
          else first_web_url candidates'
      | None => first_web_url candidates'
      end
  end.
Definition normalizeWebsiteUrlInput (raw : value) : result string :=
  let input := text_of raw in
  if negb (truthy input) then Ok ""
  else
    let candidates := if includes "://" input then [input] else ["https://" +:+ input; input] in
    match first_web_url candidates with
    | Some s => Ok s
    | None => Throw "websiteUrl must be a valid http(s) URL or domain."
    end.

Definition isLikelyHttpUrl (v : string) : bool :=
  let trimmed := trim v in
  if negb (truthy trimmed) then false
  else match URL trimmed with
       | Some parsed => (protocol parsed =? "http:")%string || (protocol parsed =? "https:")%string
       | None => false
       end.
End Addresses.

(** ** Profiles *)

Definition has_text (o : option string) : bool := (0 <? slen (trim (default "" o)))%nat.
Definition hasProviderCredential (p : ProviderProfile) : bool :=
  has_text (apiKey p) || has_text (oauthToken p) || has_text (token p).
Definition isLocalModelReady (providerId : string) (p : ProviderProfile) : bool :=
  if negb (providerId =? "local-openai")%string then false else has_text (baseUrl p).

Definition redactIdentifier (ident : string) : string :=
  let trimmed := trim ident in
  if negb (truthy trimmed) then "(empty)"
  else
    match indexOf "@" trimmed with
    | Some (S (S n)) => slice_to 1 trimmed +:+ "***" +:+ slice_from (S (S n)) trimmed
    | _ =>
        if (slen trimmed <=? 3)%nat then slice_to 1 trimmed +:+ "**"
        else slice_to 2 trimmed +:+ "***" +:+ last_chars 1 trimmed
    end.

(** ** Confinement of the served files *)

(** No two dots in a row. *)
Definition dd_free (l : list ascii) : Prop := forall a b, l <> a ++ dot :: dot :: b.
Lemma dd_free_cons c l : dd_free (c :: l) <-> (c = dot -> head l <> Some dot) /\ dd_free l.
Proof.
  split.
  - intros H. split.
    + intros -> E. destruct l as [|c l]; [done|]. injection E as ->. by apply (H [] l).
    + intros a b ->. by apply (H (c :: a) b).
  - intros [H K] [|x a] b; intros [= -> E].
    + apply H; [done|]. by rewrite E.
    + by apply (K a b).
Qed.
Lemma dd_free_suffix a l : dd_free (a ++ l) -> dd_free l.
Proof. intros H x b ->. apply (H (a ++ x) b). by rewrite app_assoc. Qed.

Lemma remove_dotdot_head c l : c <> dot -> head (remove_dotdot (c :: l)) = Some c.
Proof. intros N. destruct l as [|c' l]; [done|]. cbn. by rewrite bool_decide_false. Qed.
Lemma remove_dotdot_free l : dd_free (remove_dotdot l).
Proof.
  cut (dd_free (remove_dotdot l) /\ forall c, dd_free (remove_dotdot (c :: l))); [by intros []|].
  induction l as [|c' l [IH1 IH2]]; split.
  - by intros [].
  - intros c. intros [|? []]; intros; by intros [=].
  - apply IH2.
  - intros c. cbn [remove_dotdot]. destruct (bool_decide (c = dot) && bool_decide (c' = dot)) eqn:E; [done|].
    change (dd_free (c :: remove_dotdot (c' :: l))). apply dd_free_cons. split; [|apply IH2].
    intros ->. rewrite bool_decide_true in E by done. cbn [andb] in E. bool_prop. rewrite remove_dotdot_head by done. congruence.
Qed.

Lemma runs_free l : forall b, dd_free l ->
  dd_free (replace_runs_list is_slash [slash] b l) /\
  (head (replace_runs_list is_slash [slash] b l) = Some dot -> b = true \/ head l = Some dot).
Proof.
  induction l as [|c l IH]; intros b F; [done|]. apply dd_free_cons in F as [D F].
  cbn [replace_runs_list]. destruct (is_slash c) eqn:S.
  - destruct (IH true F) as [IH1 _]. destruct b; cbn [app].
    + split; [done|by left].
    + split; [|done]. apply dd_free_cons. by split.
  - destruct (IH false F) as [IH1 IH2]. split; [|by intros [= ->]; right]. apply dd_free_cons. split; [|done].
    intros -> E. apply IH2 in E as [|E]; [done|]. by apply D.
Qed.
Lemma safe_path_free pathname : dd_free (chars (safe_path pathname)).
Proof.
  unfold safe_path, replace_runs. rewrite !chars_of_chars.
  destruct (runs_free (remove_dotdot (chars pathname)) false (remove_dotdot_free _)) as [F _].
  destruct (drop_while_suffix is_slash (replace_runs_list is_slash [slash] false (remove_dotdot (chars pathname)))) as (a & E & _).
  rewrite E in F. by apply dd_free_suffix in F.
Qed.

Lemma raw_segments_free s : dd_free (chars s) -> Forall plain_seg (raw_segments s).
Proof.
  intros F. pose proof (raw_segments_plain s) as P. rewrite Forall_forall in *. intros x X.
  destruct (P x X) as [S D]. split; [done|]. split; [done|]. intros ->.
  apply list_elem_of_In, filter_In in X as [X _]. apply in_map_iff in X as (w & E & W).
  apply list_elem_of_In in W. apply split_infix in W as (a & b & W). apply (F a b). rewrite W.
  apply (f_equal chars) in E. rewrite chars_of_chars in E. by rewrite E.
Qed.

Lemma normalize_segments_app l k : Forall plain_seg k -> normalize_segments (l ++ k) = normalize_segments l ++ k.
Proof.
  intros F. unfold normalize_segments. rewrite fold_left_app. generalize (fold_left push_segment l []) as acc.
  induction F as [|s k (S & D & DD) F IH]; intros acc; [by rewrite app_nil_r|]. cbn [fold_left].
  rewrite IH. unfold push_segment. apply String.eqb_neq in DD. rewrite DD. by rewrite <- app_assoc.
Qed.
Lemma segments_trailing pcwd l : Forall plain_seg l ->
  segments pcwd (of_segments l) = l /\ segments pcwd (of_segments l +:+ "/") = l.
Proof.
  intros F. assert (raw_segments (of_segments l) = l) as E by (by apply raw_segments_of_segments). split.
  - rewrite segments_abs by apply isAbsolute_of_segments. rewrite E. by apply normalize_segments_id.
  - unfold segments. replace (isAbsolute (of_segments l +:+ "/")) with true by done. cbn [app].
    replace (of_segments l +:+ "/") with (of_segments l +:+ "/" +:+ "") by done. rewrite raw_segments_app, E. cbn. rewrite app_nil_r. by apply normalize_segments_id.
Qed.
(** Joining a path without [..] goes down. *)
Lemma segments_join2 pcwd a b :
  isAbsolute a = true -> Forall plain_seg (raw_segments b) ->
  segments pcwd (join2 a b) = segments pcwd a ++ raw_segments b.
Proof.
  intros A F. unfold join2. cbv zeta. rewrite raw_segments_app, normalize_segments_app by done.
  rewrite (segments_abs pcwd a) by done.
  assert (Forall plain_seg (normalize_segments (raw_segments a) ++ raw_segments b)) as P.
  { apply Forall_app. split; [apply normalize_segments_plain, raw_segments_plain|done]. }
  destruct (segments_trailing pcwd _ P) as [E1 E2]. by destruct (_ && _).
Qed.

(** whatever path is asked for, the file that is served lies below the
    directory of the web interface: its segments are those of the directory, then
    segments without [..]; the answer is its text with the type of its extension
    and the security headers. *)
Theorem static_confined pcwd d uiRoot pathname r :
  isAbsolute uiRoot = true -> serveStaticFile pcwd d uiRoot pathname = Some r ->
  exists file rel content,
    segments pcwd file = segments pcwd uiRoot ++ rel /\ Forall plain_seg rel /\
    text_at pcwd file d = Some content /\ r_status r = 200%Z /\ r_body r = TextBody content /\
    mget "content-type" (r_headers r) = Some (default "application/octet-stream" (mget (toLowerCase (extname file)) MIME_TYPES)) /\
    mget "X-Frame-Options" (r_headers r) = Some "DENY" /\ mget "X-Content-Type-Options" (r_headers r) = Some "nosniff".
Proof.
  intros A. unfold serveStaticFile. cbv zeta. set (f0 := join2 uiRoot (safe_path pathname)).
  assert (Forall plain_seg (raw_segments (safe_path pathname))) as P by (apply raw_segments_free, safe_path_free).
  assert (segments pcwd f0 = segments pcwd uiRoot ++ raw_segments (safe_path pathname)) as S0 by (by apply segments_join2).
  destruct (stat pcwd f0 d) as [n|] eqn:N; [|done]. set (f := match n with Dir => _ | _ => _ end).
  assert (exists rel, segments pcwd f = segments pcwd uiRoot ++ rel /\ Forall plain_seg rel) as (rel & S & Pr).
  { assert (Forall plain_seg ["index.html"]) as I by (constructor; [unfold plain_seg, seg_ok; by_decide|constructor]).
    destruct n; [|by eexists..]. exists (raw_segments (safe_path pathname) ++ ["index.html"]).
    split; [|by apply Forall_app]. unfold f. rewrite segments_join2; [|apply isAbsolute_join2|done].
    rewrite S0. by rewrite app_assoc. }
  destruct (stat pcwd f d ≫= node_text) as [content|] eqn:C; [|done]. intros [= <-].
  exists f, rel, content. split_and!; try done.
  unfold stat in C. unfold text_at. destruct (node_at pcwd f d) as [[| |]|]; try done; by destruct (endsWith "/" f).
Qed.
Definition ui_disk : disk :=
  [(["ui"], Dir); (["ui"; "index.html"], Text "<html>"); (["secret"], Text "key")].
Lemma static_confined_witness :
  exists r, serveStaticFile "/" ui_disk "/ui" "/" = Some r /\ r_status r = 200%Z /\
    serveStaticFile "/" ui_disk "/ui" "/../secret" = None.
Proof.
  eexists. split; [vm_compute; reflexivity|]. split; [|vm_compute; reflexivity].
  destruct (static_confined "/" ui_disk "/ui" "/" _ eq_refl ltac:(vm_compute; reflexivity)) as (? & ? & ? & ? & ? & ? & H & _).
  exact H.
Defined.
