(* ===== verification/Dashboard.v ===== *)
(** * Web dashboard

    [src/src/web/dashboard.ts]: the handlers of the HTTP interface and the router.

    A handler is a computation over the world the server shares with the rest of
    the program (the files of the state and work directories, the sessions, the
    vault, the sign-in jobs), which may throw: the server answers 500 then.  One
    request is handled at a time, with the clock [now] and the random identifiers
    [uuid].  What the code calls outside the repository are arguments: [fetch], the
    command [claude setup-token], the sign-in library.  The text of a [TypeError]
    is abbreviated. *)

From stdpp Require Import base list sets strings pretty.
From Stdlib Require Import Ascii Lia ZArith.
From S2P Require Import Prelude JsString JsMap JsValue JsRegexExec Json NodePath SessionStore Config Vault SetupFlow ChatService Telegram UsageSummary ProviderCatalog BootstrapContext DashboardInput.
#[local] Open Scope nat_scope.

(** ** State *)

Inductive job_status := starting | awaiting_signin | job_done | job_error.
#[export] Instance job_status_eq : EqDecision job_status.
Proof. solve_decision. Defined.
Definition status_name (s : job_status) : string :=
  match s with
  | starting => "starting" | awaiting_signin => "awaiting_signin" | job_done => "done" | job_error => "error"
  end.
(** [j_code] is what the promise behind [resolveManualCode] was resolved with. *)
Record CodexOAuthJob := mkJob {
  j_status : job_status;
  j_url : option string;
  j_code : option string;
  j_error : option string;
}.

Record world (V : Type) := mkWorld {
  w_disk : disk;
  w_sessions : SessionStore.fs;
  w_vault : V;
  w_jobs : list (string * CodexOAuthJob);      (* [codexOAuthJobs] *)
  w_expiring : list string;                    (* jobs whose removal is scheduled *)
  w_subscriptions : list string;               (* session ids with an event stream *)
}.
Arguments mkWorld {V}.
Arguments w_disk {V}.
Arguments w_sessions {V}.
Arguments w_vault {V}.
Arguments w_jobs {V}.
Arguments w_expiring {V}.
Arguments w_subscriptions {V}.

Definition set_disk {V} (d : disk) (w : world V) : world V :=
  mkWorld d (w_sessions w) (w_vault w) (w_jobs w) (w_expiring w) (w_subscriptions w).
Definition set_sessions {V} (s : SessionStore.fs) (w : world V) : world V :=
  mkWorld (w_disk w) s (w_vault w) (w_jobs w) (w_expiring w) (w_subscriptions w).
Definition set_vault {V} (v : V) (w : world V) : world V :=
  mkWorld (w_disk w) (w_sessions w) v (w_jobs w) (w_expiring w) (w_subscriptions w).
Definition set_jobs {V} (j : list (string * CodexOAuthJob)) (w : world V) : world V :=
  mkWorld (w_disk w) (w_sessions w) (w_vault w) j (w_expiring w) (w_subscriptions w).

(** ** Computations *)

Definition web (V A : Type) : Type := world V -> world V * result A.
Definition ret {V A} (a : A) : web V A := fun w => (w, Ok a).
Definition throw {V A} (m : string) : web V A := fun w => (w, Throw m).
Definition wbind {V A B} (m : web V A) (k : A -> web V B) : web V B := fun w =>
  let '(w', r) := m w in match r with Ok a => k a w' | Throw e => (w', Throw e) end.
Definition lift {V A} (r : result A) : web V A := fun w => (w, r).
(** [try { m } catch (e) { h(e) }] *)
Definition catch {V A} (m : web V A) (h : string -> web V A) : web V A := fun w =>
  let '(w', r) := m w in match r with Ok a => (w', Ok a) | Throw e => h e w' end.
Notation "'let!' x := e 'in' k" := (wbind e (fun x => k))
  (at level 10, x pattern, e at level 100, k at level 200) : t560_scope.

(** Operations on the files: a failure leaves them as they were. *)
Definition on_disk {V A} (f : disk -> result (A * disk)) : web V A := fun w =>
  match f (w_disk w) with Ok (a, d) => (set_disk d w, Ok a) | Throw e => (w, Throw e) end.
Definition write_disk {V} (f : disk -> result disk) : web V unit :=
  on_disk (fun d => let? d' := f d in Ok (tt, d')).
Definition asks {V A} (f : world V -> A) : web V A := fun w => (w, Ok (f w)).
(** Operations on the vault. *)
Definition on_vault {V A} (f : V -> result (V * A)) : web V A := fun w =>
  match f (w_vault w) with Ok (v, a) => (set_vault v w, Ok a) | Throw e => (w, Throw e) end.

Fixpoint map_result {A B} (f : A -> result B) (l : list A) : result (list B) :=
  match l with
  | [] => Ok []
  | x :: l' => let? y := f x in let? ys := map_result f l' in Ok (y :: ys)
  end.

(** ** Values *)

Definition opt_null {A} (f : A -> value) (o : option A) : value := match o with Some a => f a | None => VNull end.
Definition strings_v (l : list string) : value := VArr (map VStr l).
Definition nat_v (n : nat) : value := VNum (NInt (Z.of_nat n)).
Definition totals_v (t : ProviderUsageTotals) : value :=
  VObj [("messages", nat_v (UsageSummary.messages t)); ("inputTokens", VNum (inputTokens t));
        ("outputTokens", VNum (outputTokens t)); ("totalTokens", VNum (totalTokens t)); ("costUsd", VNum (costUsd t))].
Definition QUOTA_MESSAGE : string :=
  "Provider-side remaining quota is not exposed in a reliable, universal API for all providers/models.".
Definition USAGE_NOTE : string :=
  "Usage totals are estimated from locally saved recent session history (session files keep recent messages only).".
Definition usage_summary_v (provider model : option string) (u : UsageStatusSummary) : value :=
  VObj [("sessionsScanned", nat_v (sessionsScanned u)); ("messagesScanned", nat_v (messagesScanned u));
        ("assistantMessagesWithUsage", nat_v (assistantMessagesWithUsage u));
        ("totals", VObj [("inputTokens", VNum (su_input u)); ("outputTokens", VNum (su_output u));
                         ("totalTokens", VNum (su_total u)); ("costUsd", VNum (su_cost u))]);
        ("byProvider", VObj (map (fun e => (e.1, totals_v e.2)) (byProvider u)));
        ("budget", VObj [("tokenBudget", opt_null VNum (su_tokenBudget u)); ("tokensRemaining", opt_null VNum (tokensRemaining u));
                         ("costBudgetUsd", opt_null VNum (su_costBudgetUsd u));
                         ("costRemainingUsd", opt_null VNum (costRemainingUsd u))]);
        ("quota", VObj [("provider", or_null provider); ("model", or_null model); ("available", VBool false);
                        ("message", VStr QUOTA_MESSAGE)]);
        ("note", VStr USAGE_NOTE)].
Definition catalog_v (e : ProviderCatalogEntry) : value :=
  VObj [("id", VStr (ce_id e)); ("label", VStr (ce_label e)); ("description", VStr (ce_description e));
        ("authModes", VArr (map authMode_v (ce_authModes e))); ("authHint", opt_v VStr (ce_authHint e));
        ("models", strings_v (ce_models e)); ("defaultModel", VStr (ce_defaultModel e));
        ("planningModel", VStr (ce_planningModel e)); ("codingModel", VStr (ce_codingModel e))].
Definition injected_v (f : InjectedContextFile) : value :=
  VObj [("name", VStr (ic_name f)); ("path", VStr (ic_path f)); ("content", VStr (ic_content f));
        ("missing", VBool (ic_missing f)); ("truncated", VBool (ic_truncated f)); ("source", VStr (source_name (ic_source f)));
        ("rawChars", nat_v (ic_rawChars f)); ("injectedChars", nat_v (ic_injectedChars f))].

(** [body.k] where [body] may be [null] *)
Definition read_prop {V} (k : string) (body : value) : web V value :=
  match body with
  | VUndef | VNull => throw ("Cannot read properties of null (reading '" +:+ k +:+ "')")
  | _ => ret (get_prop k body)
  end.
(** The start of the handlers that want an object: [JSON.parse] and the check. *)
Definition with_object {V} (raw : string) (k : value -> web V response) : web V response :=
  match JSON_parse raw with
  | None => ret invalid_json
  | Some (VObj ps) => k (VObj ps)
  | Some _ => ret invalid_body
  end.
(** The same without the check. *)
Definition with_body {V} (raw : string) (k : value -> web V response) : web V response :=
  match JSON_parse raw with None => ret invalid_json | Some body => k body end.

(** ** Requests and the outside *)

(** [q_url] is the path and the parameters of [new URL(req.url ?? "/", base)],
    [None] when it throws. *)
Record http_request := mkHttp {
  q_method : option string;
  q_url : option (string * list (string * string));
  q_body : string;
}.
(** [h_text] is [None] when the body cannot be read. *)
Record http_reply := mkReply { h_ok : bool; h_status : Z; h_text : option string }.
Record spawned := mkSpawned { sp_error : option string; sp_status : option Z; sp_stdout : option string; sp_stderr : option string }.
(** What the sign-in library does to a job. *)
Inductive oauth_event := OnAuth (url : string) | Signed | Failed (msg : string).
Definition oauth_step (e : oauth_event) (j : CodexOAuthJob) : CodexOAuthJob :=
  match e with
  | OnAuth url => mkJob awaiting_signin (Some url) (j_code j) (j_error j)
  | Signed => mkJob job_done (j_url j) (j_code j) (j_error j)
  | Failed msg => mkJob job_error (j_url j) (j_code j) (Some msg)
  end.
Definition waiting_over (j : CodexOAuthJob) : bool :=
  match j_url j with Some u => truthy u | None => false end || bool_decide (j_status j = job_error).

(** ** Handlers *)

Inductive profile_type := soul | users.

Section Handlers.
Context {V : Type} `{VaultService V}.
Variables (env : list (string * string)) (pcwd home : string).
Variables (now : Z) (uuid : nat -> string).
Variable URL : string -> option url.
Variable fetch : string -> list (string * string) -> result http_reply.
Variable claude : result spawned.
(** What the sign-in library does within eight seconds. *)
Variable signin : list oauth_event.
Variable handleMessage : GatewayInboundMessage -> web V ChatResponse.
(** [opts.subscribeEvents] is given *)
Variable subscribeEvents : bool.

Notation stateDir := (resolveStateDir env pcwd home).
Notation M := (web V).

Definition read_config : M T560Config := on_disk (readConfig env pcwd home).
(** [writeConfig(config)] of any value *)
Definition write_value (config : value) : M unit := write_disk (fun d =>
  let? d := ensureStateDir env pcwd home d in
  writeFile pcwd (resolveConfigPath env pcwd home) (Config.Json (json_image (config_value (normalizeConfig config)))) d).
Definition write_config (config : T560Config) : M unit := write_disk (writeConfig env pcwd home config).
Definition read_status : M OnboardingStatus := on_disk (readOnboardingStatus env pcwd home).
Definition read_text (p : string) : M (option string) := asks (fun w => text_at pcwd p (w_disk w)).

(** The files [readdir] finds in the directory of the sessions. *)
Definition sessions_path : string := join2 stateDir SESSIONS_DIRNAME.
Definition session_entries (w : world V) : list (string * option value) :=
  omap (fun e => if startsWith (sessions_path +:+ "/") e.1
                 then let name := slice_from (S (slen sessions_path)) e.1 in
                      if includes "/" name then None else Some (name, e.2)
                 else None) (w_sessions w).

Definition route_v (t : option RoutingTarget) : value := opt_null target_v t.

Definition handleStatus : M response :=
  let! status := read_status in
  let config := st_config status in
  let defaultRoute := resolveRoutingTarget config Default in
  let planningRoute := resolveRoutingTarget config Planning in
  let codingRoute := resolveRoutingTarget config Coding in
  let! files := asks session_entries in
  let usage := summarizeSavedUsage env (Some files) (u ← c_usage config; tokenBudget u) (u ← c_usage config; costBudgetUsd u) in
  let provider := t ← defaultRoute; t_provider t in
  let model := t ← defaultRoute; t_model t in
  ret (sendJson 200 (VObj
    [("onboarded", VBool (onboarded status));
     ("mode", VStr (if onboarded status then "provider" else "foundation"));
     ("missing", strings_v (missing status));
     ("provider", or_null provider); ("model", or_null model);
     ("routing", VObj [("default", route_v defaultRoute); ("planning", route_v planningRoute); ("coding", route_v codingRoute)]);
     ("providers", strings_v (keys (default [] (c_providers config))));
     ("configPath", VStr (st_configPath status));
     ("usage", usage_summary_v provider model usage)])).

Definition profile_path (t : profile_type) : string :=
  match t with soul => resolveSoulPath env pcwd home | users => resolveUsersPath env pcwd home end.

Definition handleGetProfile (t : profile_type) : M response :=
  let! content := read_text (profile_path t) in
  ret (sendJson 200 (VObj [("content", VStr (default "" content))])).

Definition handleGetConfig : M response :=
  let! config := read_config in
  ret (sendJson 200 (VObj [("config", config_value config); ("configPath", VStr (resolveConfigPath env pcwd home))])).

(** *** Providers *)

Definition model_ids (payload : value) : list string :=
  match get_prop "data" payload with
  | VArr l => List.filter truthy (map (fun entry => text_of (get_prop "id" entry)) l)
  | _ => []
  end.
Definition fetchOpenAICompatibleModels (baseUrl : string) (apiKey : option string) : result (list string) :=
  let normalizedBaseUrl := normalizeOpenAICompatibleBaseUrl baseUrl in
  if negb (isLikelyHttpUrl URL normalizedBaseUrl) then Throw "Invalid local model server URL. Use http://host:port/v1."
  else
    let headers := ("accept", "application/json") ::
      (if has_text apiKey then [("authorization", "Bearer " +:+ trim (default "" apiKey))] else []) in
    let unreachable msg := Throw ("Could not connect to local model server: " +:+ msg) in
    match fetch (normalizedBaseUrl +:+ "/models") headers with
    | Throw msg => unreachable msg
    | Ok reply =>
        if negb (h_ok reply) then
          let detail := slice_to 220 (replace_runs is_ws [" "%char] (trim (default "" (h_text reply)))) in
          Throw ("Model discovery failed (" +:+ pretty (h_status reply) +:+ ")" +:+ (if truthy detail then ": " +:+ detail else ""))
        else
          match h_text reply with
          | None => unreachable "terminated"
          | Some text =>
              match JSON_parse text with
              | None => unreachable "Unexpected token in JSON"
              | Some payload =>
                  let models := model_ids payload in
                  if (length models =? 0)%nat then Throw "Connected, but /v1/models returned no model ids."
                  else Ok (dedup models)
              end
          end
    end.

Definition provider_v (providerId : string) (p : ProviderProfile) : result value :=
  let? models := normalizeProviderModels providerId (default [] (Config.models p)) in
  Ok (VObj
    [("enabled", VBool (default true (enabled p)));
     ("provider", VStr (Config.provider p)); ("authMode", authMode_v (Config.authMode p)); ("models", strings_v models);
     ("baseUrl", VStr (default "" (baseUrl p))); ("api", VStr (default "" (api p)));
     ("hasCredential", VBool (hasProviderCredential p || isLocalModelReady providerId p))]).

Definition buildSetupPayload (config : T560Config) : M value :=
  let routing := VObj [("default", route_v (resolveRoutingTarget config Default));
                       ("planning", route_v (resolveRoutingTarget config Planning));
                       ("coding", route_v (resolveRoutingTarget config Coding))] in
  let! providers := lift (map_result (fun e => let? v := provider_v e.1 e.2 in Ok (e.1, v)) (default [] (c_providers config))) in
  let telegram := telegram_config config in
  let! vaultServices := on_vault vs_list in
  ret (VObj
    [("catalog", VArr (map catalog_v listProviderCatalog));
     ("providers", VObj providers);
     ("routing", routing);
     ("telegram", VObj
        [("dmPolicy", dmPolicy_v (default pairing (t ← telegram; dmPolicy t)));
         ("allowFrom", strings_v (default [] (t ← telegram; allowFrom t)));
         ("allowedChatIds", VArr (map VNum (default [] (t ← telegram; allowedChatIds t))));
         ("hasBotToken", VBool (has_text (t ← telegram; botToken t)))]);
     ("vault", VObj [("services", strings_v vaultServices)])]).

Definition handleGetCcSetupToken : M response :=
  match claude with
  | Throw msg => ret (refusal 200 ("Error running claude setup-token: " +:+ msg))
  | Ok result =>
      let failed := match sp_error result, sp_status result with None, Some 0%Z => false | _, _ => true end in
      if failed then
        let errDetail := match sp_error result with Some m => m | None => trim (default "" (sp_stderr result)) end in
        ret (refusal 200 ("claude setup-token failed: " +:+ errDetail +:+
          ". Make sure Claude Code CLI is installed and you are logged in (run: claude auth login)."))
      else
        match exec (re_ "sk-ant-oat01-[\w-]+") (trim (default "" (sp_stdout result))) with
        | None => ret (refusal 200 "No setup token found in output. Make sure you are logged in to Claude Code (run: claude auth login).")
        | Some m => ret (sendJson 200 (VObj [("ok", VBool true); ("token", VStr (group 0 m))]))
        end
  end.

Definition CREDENTIALS_NOT_FOUND : string :=
  "Claude Code credentials not found. Make sure you are logged in to the Claude Code CLI.".
Definition handleGetCcToken : M response :=
  let credPath := join2 (join2 home ".claude") ".credentials.json" in
  let! raw := read_text credPath in
  match raw ≫= JSON_parse with
  | None | Some VNull => ret (refusal 200 CREDENTIALS_NOT_FOUND)
  | Some data =>
      let oauth := get_prop "claudeAiOauth" data in
      let accessToken := match get_prop "accessToken" oauth with VStr s => trim s | _ => "" end in
      if negb (truthy accessToken) then ret (refusal 200 "No Claude Code OAuth token found.")
      else
        let expiresAt := match get_prop "expiresAt" oauth with VNum n => n | _ => NInt 0 end in
        ret (sendJson 200 (VObj [("ok", VBool true); ("token", VStr accessToken); ("expiresAt", VNum expiresAt)]))
  end.

Definition handleGetSetup : M response :=
  let! config := read_config in
  let! setup := buildSetupPayload config in
  ret (sendJson 200 setup).

Definition handlePostSetupProviderModels (raw : string) : M response :=
  match JSON_parse raw with
  | None => ret (sendJson 400 (VObj [("ok", VBool false); ("error", VStr "invalid_json"); ("message", VStr "Request body must be valid JSON.")]))
  | Some (VObj ps) =>
      let obj := VObj ps in
      let providerId := default "local-openai" (sanitizeProviderId (nullish (get_prop "providerId" obj) (VStr "local-openai"))) in
      if negb (providerId =? "local-openai")%string then
        ret (sendJson 400 (VObj [("ok", VBool false); ("error", VStr "invalid_provider");
          ("message", VStr "Model discovery endpoint currently supports local-openai only.")]))
      else
        let baseUrlRaw := text_of (get_prop "baseUrl" obj) in
        let apiKey := match get_prop "apiKey" obj with VStr s => trim s | _ => "" end in
        let normalizedBaseUrl := normalizeOpenAICompatibleBaseUrl baseUrlRaw in
        if negb (truthy normalizedBaseUrl) || negb (isLikelyHttpUrl URL normalizedBaseUrl) then
          ret (sendJson 400 (VObj [("ok", VBool false); ("error", VStr "invalid_base_url");
            ("message", VStr "baseUrl is required and must be a valid http(s) URL.")]))
        else
          match fetchOpenAICompatibleModels normalizedBaseUrl (nonempty apiKey) with
          | Throw error =>
              ret (sendJson 200 (VObj [("ok", VBool false); ("normalizedBaseUrl", VStr normalizedBaseUrl); ("error", VStr error)]))
          | Ok models =>
              ret (sendJson 200 (VObj [("ok", VBool true); ("normalizedBaseUrl", VStr normalizedBaseUrl); ("models", strings_v models)]))
          end
  | Some _ => ret (sendJson 400 (VObj [("ok", VBool false); ("error", VStr "invalid_body"); ("message", VStr "Body must be an object.")]))
  end.

(** [providers[id]] where an inherited object has none of the fields *)
Definition existing_profile (id : string) (providers : list (string * ProviderProfile)) : option ProviderProfile :=
  match obj_lookup id providers with Own p => Some p | _ => None end.
(** [obj.k === undefined ? old : String(obj.k ?? "").trim() || undefined] *)
Definition updated_text (v : value) (old : option string) : option string :=
  match v with VUndef => old | v => nonempty (text_of v) end.

(** The profile [handlePutSetupProvider] stores. *)
Definition next_profile (providerId : string) (obj : value) (existing : option ProviderProfile) (models : list string) : ProviderProfile :=
  let authMode := parseProviderAuthMode (nullish (get_prop "authMode" obj)
    (match existing with Some p => authMode_v (Config.authMode p) | None => VStr "api_key" end)) in
  let credential := match get_prop "credential" obj with VStr s => trim s | _ => "" end in
  let clearCredential := match get_prop "clearCredential" obj with VBool b => b | _ => false end in
  let '(key, oauthToken, token) :=
    if clearCredential then (None, None, None)
    else if truthy credential then
      match authMode with
      | oauth => (None, Some credential, None)
      | auth_token => (None, None, Some credential)
      | api_key => (Some credential, None, None)
      end
    else (p ← existing; apiKey p, p ← existing; oauthToken p, p ← existing; token p) in
  mkProfile
    (Some (match get_prop "enabled" obj with VBool b => b | _ => default true (p ← existing; enabled p) end))
    providerId authMode key oauthToken token
    (updated_text (get_prop "baseUrl" obj) (p ← existing; baseUrl p))
    (updated_text (get_prop "api" obj) (p ← existing; api p))
    None None
    (Some (if (0 <? length models)%nat then models else default [] (p ← existing; Config.models p))).

Definition with_providers (providers : list (string * ProviderProfile)) (c : T560Config) : T560Config :=
  mkConfig (c_provider c) (c_models c) (Some providers) (c_routing c) (c_channels c) (c_tools c) (c_skills c) (c_usage c) (c_agents c).
Definition with_routes (provider : option string) (models : option ModelPresets) (routing : option RoutingConfig) (c : T560Config) : T560Config :=
  mkConfig provider models (c_providers c) routing (c_channels c) (c_tools c) (c_skills c) (c_usage c) (c_agents c).

(** The answer of the handlers that change the setup. *)
Definition setup_answer (fields : list (string * value)) : M response :=
  let! config := read_config in
  let! setup := buildSetupPayload config in
  ret (sendJson 200 (VObj (("ok", VBool true) :: fields ++ [("setup", setup)]))).

Definition invalid_provider : response := failure 400 "invalid_provider" "providerId is required.".

Definition handlePutSetupProvider (raw : string) : M response :=
  with_object raw (fun obj =>
    match sanitizeProviderId (get_prop "providerId" obj) with
    | None => ret invalid_provider
    | Some providerId =>
        let! config := read_config in
        let providers := default [] (c_providers config) in
        let existing := existing_profile providerId providers in
        let! models := lift (normalizeProviderModels providerId (dedup (parseStringArray (get_prop "models" obj)))) in
        let next := next_profile providerId obj existing models in
        let! _ := write_config (with_providers (assign providerId next providers) config) in
        setup_answer [("providerId", VStr providerId)]
    end).

(** [Boolean(providers[id])] *)
Definition has_profile (id : string) (providers : list (string * ProviderProfile)) : bool :=
  match obj_lookup id providers with Missing => false | _ => true end.

Definition fallbackRoute (providerId : string) (providers : list (string * ProviderProfile)) (current : option RoutingTarget) (s : slot)
  : result (option (string * string)) :=
  let currentProvider := trim (default "" (t ← current; t_provider t)) in
  let currentModel := trim (default "" (t ← current; t_model t)) in
  if truthy currentProvider && truthy currentModel && negb (currentProvider =? providerId)%string && has_profile currentProvider providers
  then Ok (Some (currentProvider, currentModel))
  else
    match providers with
    | [] => Ok None
    | (fallbackProvider, profile) :: _ =>
        if negb (truthy fallbackProvider) then Ok None
        else
          let? model := resolveProviderRouteModel fallbackProvider (Config.models profile) s in
          match model with
          | Some m => Ok (if truthy m then Some (fallbackProvider, m) else None)
          | None => Ok None
          end
    end.

Definition target_of (r : string * string) : RoutingTarget := mkTarget (Some r.1) (Some r.2).
Definition ref_of (r : string * string) : string := r.1 +:+ "/" +:+ r.2.
(** The routes of the three slots in the configuration: in [models] and in
    [routing], left out when there is none. *)
Definition route_presets (d p c : option (string * string)) : option ModelPresets :=
  match d, p, c with
  | None, None, None => None
  | _, _, _ => Some (mkPresets (option_map ref_of d) (option_map ref_of p) (option_map ref_of c))
  end.
Definition route_config (d p c : option (string * string)) : option RoutingConfig :=
  match d, p, c with
  | None, None, None => None
  | _, _, _ => Some (mkRouting (option_map target_of d) (option_map target_of p) (option_map target_of c))
  end.

(** The configuration without [providerId]. *)
Definition without_provider (providerId : string) (config : T560Config) : result T560Config :=
  let providers := mdelete providerId (default [] (c_providers config)) in
  let? d := fallbackRoute providerId providers (resolveRoutingTarget config Default) Default in
  let? p := fallbackRoute providerId providers (resolveRoutingTarget config Planning) Planning in
  let? c := fallbackRoute providerId providers (resolveRoutingTarget config Coding) Coding in
  Ok (with_routes (option_map fst d) (route_presets d p c) (route_config d p c) (with_providers providers config)).

Definition handleDeleteSetupProvider (raw : string) : M response :=
  with_object raw (fun obj =>
    match sanitizeProviderId (get_prop "providerId" obj) with
    | None => ret invalid_provider
    | Some providerId =>
        let! config := read_config in
        if negb (has_profile providerId (default [] (c_providers config)))
        then ret (failure 404 "provider_not_found" (providerId +:+ " is not configured."))
        else
          let! next := lift (without_provider providerId config) in
          let! _ := write_config next in
          setup_answer [("providerId", VStr providerId); ("removed", VBool true)]
    end).

Definition handlePutSetupRouting (raw : string) : M response :=
  with_object raw (fun obj =>
    match parseRoutingSlot (get_prop "default" obj), parseRoutingSlot (get_prop "planning" obj), parseRoutingSlot (get_prop "coding" obj) with
    | Some d, Some p, Some c =>
        let! config := read_config in
        let! _ := write_config (with_routes (Some d.1) (route_presets (Some d) (Some p) (Some c))
                                  (route_config (Some d) (Some p) (Some c)) config) in
        setup_answer []
    | _, _, _ => ret (failure 400 "invalid_routing" "default, planning, and coding routes are required.")
    end).

(** *** Telegram *)

(** [entry.replace(/^(telegram|tg):/i, "")] *)
Definition strip_prefix (s : string) : string :=
  let lower := toLowerCase s in
  if startsWith "telegram:" lower then slice_from 9 s else if startsWith "tg:" lower then slice_from 3 s else s.

Definition next_telegram (obj : value) (current : option TelegramChannelConfig) : TelegramChannelConfig :=
  let policy := parseTelegramDmPolicy (nullish (get_prop "dmPolicy" obj)
    (match t ← current; dmPolicy t with Some p => dmPolicy_v p | None => VStr "pairing" end)) in
  let senders := dedup (map strip_prefix (parseStringArray (get_prop "allowFrom" obj))) in
  let chats := map num_of_string (dedup (map num_to_string (parseIntegerArray (get_prop "allowedChatIds" obj)))) in
  mkTelegram (updated_text (get_prop "botToken" obj) (t ← current; botToken t)) (Some policy)
    (if (0 <? length senders)%nat then Some senders else match policy with open => Some ["*"] | _ => None end)
    (if (0 <? length chats)%nat then Some chats else None).

Definition with_telegram (t : TelegramChannelConfig) (c : T560Config) : T560Config :=
  mkConfig (c_provider c) (c_models c) (c_providers c) (c_routing c) (Some (mkChannels (Some t)))
    (c_tools c) (c_skills c) (c_usage c) (c_agents c).

Definition handlePutSetupTelegram (raw : string) : M response :=
  with_object raw (fun obj =>
    let! config := read_config in
    let! _ := write_config (with_telegram (next_telegram obj (telegram_config config)) config) in
    setup_answer []).

(** *** The vault *)

Definition vault_row (r : StoredCredentialRecord) : value :=
  VObj [("service", VStr (Vault.service r)); ("websiteUrl", VStr (default "" (websiteUrl r)));
        ("identifier", VStr (identifier r)); ("identifierMasked", VStr (redactIdentifier (identifier r)));
        ("identifierVisibleToAgent", VBool true); ("secretStored", VBool true); ("secretVisibleToAgent", VBool false);
        ("authMode", VStr (auth_string (Vault.authMode r)));
        ("mfaStrategy", VStr (mfa_string (default user_prompt (mfaStrategy r))));
        ("mfaSourceService", VStr (default "" (mfaSourceService r)));
        ("hasMfaCode", VBool (truthy (default "" (mfaCode r))));
        ("createdAt", VNum (NInt (createdAt r))); ("updatedAt", VNum (NInt (updatedAt r)))].

Fixpoint vault_rows (services : list string) : M (list value) :=
  match services with
  | [] => ret []
  | svc :: services' =>
      let! record := (fun w => (w, vs_get svc (w_vault w))) in
      match record with
      | NoRecord => vault_rows services'
      | Hollow => throw "Cannot read properties of undefined (reading 'trim')"
      | Found r => let! rows := vault_rows services' in ret (vault_row r :: rows)
      end
  end.
Definition buildVaultEntries : M value :=
  let! services := on_vault vs_list in
  let! rows := vault_rows services in
  ret (VArr rows).

Definition handleGetVault : M response :=
  let! entries := buildVaultEntries in
  ret (sendJson 200 (VObj [("entries", entries)])).

Definition handlePutVaultCredential (raw : string) : M response :=
  with_object raw (fun obj =>
    match normalizeWebsiteUrlInput URL (get_prop "websiteUrl" obj) with
    | Throw msg => ret (failure 400 "invalid_website_url" msg)
    | Ok websiteUrl =>
        let named := vs_normalize (to_string (nullish (get_prop "service" obj) (VStr ""))) in
        match or_else named (vs_normalize websiteUrl) with
        | None => ret (failure 400 "invalid_service" "service or websiteUrl is required.")
        | Some service =>
            let identifierInput := text_of (get_prop "identifier" obj) in
            let! known :=
              if truthy identifierInput then ret (Some identifierInput)
              else
                let! existing := (fun w => (w, vs_get service (w_vault w))) in
                ret (match existing with Found r => nonempty (trim (identifier r)) | _ => None end) in
            match known with
            | None =>
                ret (failure 400 "invalid_identifier"
                  "identifier is required for new services. For existing services you may leave it blank.")
            | Some ident =>
                let mode := parseCredentialAuthMode (get_prop "authMode" obj) in
                let strategy := parseCredentialMfaStrategy (get_prop "mfaStrategy" obj) in
                let source := vs_normalize (to_string (nullish (get_prop "mfaSourceService" obj) (VStr ""))) in
                let secretRaw := to_string (nullish (get_prop "secret" obj) (VStr "")) in
                let secret := match mode with passwordless_mfa_code => "" | _ => secretRaw end in
                if match mode with passwordless_mfa_code => false | _ => negb (truthy secret) end
                then ret (failure 400 "invalid_secret" "secret is required for password and password_with_mfa modes.")
                else
                  let mfaCode := match get_prop "mfaCode" obj with VStr s => trim s | _ => "" end in
                  let! result := on_vault (vs_set (mkInput service ident secret (Some mode) (nonempty websiteUrl)
                    (match mode with password => None | _ => Some strategy end) source (nonempty mfaCode))) in
                  let! entries := buildVaultEntries in
                  ret (sendJson 200 (VObj
                    [("ok", VBool true); ("service", VStr result.1); ("created", VBool result.2);
                     ("identifierReused", VBool (negb (truthy identifierInput))); ("entries", entries)]))
            end
        end
    end).

Definition handleDeleteVaultCredential (raw : string) : M response :=
  with_object raw (fun obj =>
    match vs_normalize (to_string (nullish (get_prop "service" obj) (VStr ""))) with
    | None => ret (failure 400 "invalid_service" "service is required.")
    | Some service =>
        let! removed := on_vault (vs_delete service) in
        let! entries := buildVaultEntries in
        ret (sendJson 200 (VObj
          [("ok", VBool true); ("removed", VBool removed); ("service", VStr service); ("entries", entries)]))
    end).

(** *** Configuration, profiles and context files *)

Definition handlePutConfig (raw : string) : M response :=
  with_body raw (fun body =>
    match parseConfigObjectFromBody body with
    | Throw msg => ret (failure 400 "invalid_config_payload" msg)
    | Ok nextConfig =>
        catch
          (let! _ := write_value nextConfig in
           let! saved := read_config in
           ret (sendJson 200 (VObj
             [("ok", VBool true); ("config", config_value saved); ("configPath", VStr (resolveConfigPath env pcwd home))])))
          (fun msg => ret (failure 500 "config_write_failed" msg))
    end).

Definition missing_content : response := failure 400 "missing_content" "The content field is required.".

Definition handlePutProfile (raw : string) (t : profile_type) : M response :=
  with_body raw (fun body =>
    let! content := read_prop "content" body in
    match content with
    | VStr content =>
        let! _ := write_disk (ensureStateDir env pcwd home) in
        let filePath := profile_path t in
        let! _ := write_disk (writeFile pcwd filePath (Text content)) in
        let! _ :=
          match t with
          | users =>
              let legacyUserPath := resolveLegacyUserPath env pcwd home in
              if negb (legacyUserPath =? filePath)%string then write_disk (writeFile pcwd legacyUserPath (Text content)) else ret tt
          | soul => ret tt
          end in
        ret (sendJson 200 (VObj [("ok", VBool true)]))
    | _ => ret missing_content
    end).

Definition readTextIfPresent (filePath : string) : M (option string) :=
  let! raw := read_text filePath in
  ret (s ← raw; nonempty (trim s)).

Definition resolveUsersFallbackFile : M FallbackProfileFile :=
  let usersPath := resolveUsersPath env pcwd home in
  let! usersContent := readTextIfPresent usersPath in
  match usersContent with
  | Some c => ret (mkFallback usersPath (Some c))
  | None =>
      let legacyPath := resolveLegacyUserPath env pcwd home in
      let! legacyContent := readTextIfPresent legacyPath in
      ret (mkFallback (match legacyContent with Some _ => legacyPath | None => usersPath end) legacyContent)
  end.

Definition handleGetBootstrapContext : M response :=
  let! status := read_status in
  let soulPath := resolveSoulPath env pcwd home in
  let! soulContent := readTextIfPresent soulPath in
  let! usersFallback := resolveUsersFallbackFile in
  let maxChars := resolveBootstrapMaxChars env (st_config status) in
  let! files := asks (fun w => loadT560BootstrapContext pcwd pcwd maxChars None
                                 (Some (mkFallback soulPath soulContent)) (Some usersFallback) (w_disk w)) in
  ret (sendJson 200 (VObj
    [("workspaceDir", VStr pcwd); ("maxChars", opt_null VNum maxChars); ("files", VArr (map injected_v files))])).

Definition handlePutBootstrapFile (raw : string) : M response :=
  with_body raw (fun body =>
    let! nameRaw := read_prop "name" body in
    let name := text_of nameRaw in
    if negb (truthy name) || negb (bool_decide (name ∈ T560_BOOTSTRAP_FILENAMES))
    then ret (failure 400 "invalid_bootstrap_name" ("name must be one of: " +:+ join ", " T560_BOOTSTRAP_FILENAMES))
    else
      match get_prop "content" body with
      | VStr content =>
          let filePath := join2 pcwd name in
          let! _ := write_disk (writeFile pcwd filePath (Text content)) in
          ret (sendJson 200 (VObj [("ok", VBool true); ("name", VStr name); ("path", VStr filePath)]))
      | _ => ret missing_content
      end).

(** *** Memory *)

(** [rm(sessionsPath, { recursive: true, force: true })] *)
Definition remove_sessions (w : world V) : world V * result unit :=
  (set_sessions (List.filter (fun e => negb (startsWith (sessions_path +:+ "/") e.1)) (w_sessions w)) w, Ok tt).

Definition handleDeleteMemoryStore : M response :=
  let! _ := write_disk (ensureStateDir env pcwd home) in
  let storePath := join2 stateDir "memory.jsonl" in
  let! raw := read_text storePath in
  let clearedEntries := match raw with Some raw => length (List.filter truthy (map trim (split_lines raw))) | None => 0 end in
  let! files := asks session_entries in
  let clearedSessionFiles := length (List.filter (fun e => endsWith ".json" e.1) files) in
  catch
    (let! _ := write_disk (writeFile pcwd storePath (Text "")) in
     let! _ := remove_sessions in
     ret (sendJson 200 (VObj
       [("ok", VBool true); ("storePath", VStr storePath); ("clearedEntries", nat_v clearedEntries);
        ("sessionsPath", VStr sessions_path); ("clearedSessionFiles", nat_v clearedSessionFiles)])))
    (fun msg => ret (failure 500 "memory_reset_failed" msg)).

(** *** Chat *)

(** [(v ?? "").trim()] *)
Definition trim_value (v : value) : M string :=
  match nullish v (VStr "") with VStr s => ret (trim s) | _ => throw "trim is not a function" end.

Definition handleChat (raw : string) : M response :=
  with_body raw (fun body =>
    let! messageRaw := read_prop "message" body in
    let! message := trim_value messageRaw in
    if negb (truthy message) then ret (failure 400 "missing_message" "The message field is required.")
    else if isHeartbeatCheckMessage message then ret (mkRes 204 [] NoBody)
    else
      let sessionKey := get_prop "sessionKey" body in
      let sessionId := if to_bool sessionKey then "webchat:" +:+ to_string sessionKey else "webchat:local" in
      let! reply := catch (handleMessage (mkInbound webchat message sessionId "webchat-user" now))
                      (fun msg => ret (buildFallbackChatResponse msg)) in
      ret (sendJson 200 (chat_value reply))).

Definition handleEventStream (query : list (string * string)) : M response :=
  if negb subscribeEvents then ret (sendJson 404 (VObj [("error", VStr "events_unavailable")]))
  else fun w =>
    let given := trim (default "" (mget "sessionKey" query)) in
    let sessionKey := if truthy given then given else "local" in
    (mkWorld (w_disk w) (w_sessions w) (w_vault w) (w_jobs w) (w_expiring w) (("webchat:" +:+ sessionKey) :: w_subscriptions w),
     Ok (mkRes 200 [("content-type", "text/event-stream; charset=utf-8"); ("cache-control", "no-cache, no-transform");
                    ("connection", "keep-alive"); ("x-accel-buffering", "no")] (TextBody (": connected" +:+ lf +:+ lf)))).

(** *** Signing in *)

Definition handleStartCodexOAuth : M response := fun w =>
  let jobId := uuid 0 in
  let job := each_until oauth_step waiting_over signin (mkJob starting None None None) in
  match j_url job with
  | Some url =>
      if truthy url
      then (set_jobs (mset jobId job (w_jobs w)) w,
            Ok (sendJson 200 (VObj [("ok", VBool true); ("jobId", VStr jobId); ("url", VStr url)])))
      else (set_jobs (mdelete jobId (w_jobs w)) w,
            Ok (refusal 500 (default "OAuth flow failed to generate a URL." (j_error job))))
  | None => (set_jobs (mdelete jobId (w_jobs w)) w,
             Ok (refusal 500 (default "OAuth flow failed to generate a URL." (j_error job))))
  end.

Definition job_not_found : response := refusal 404 "OAuth job not found.".

Definition handleCodexOAuthCode (raw : string) : M response :=
  match JSON_parse raw with
  | None => ret (refusal 400 "invalid_json")
  | Some obj => fun w =>
      let jobId := text_of (get_prop "jobId" obj) in
      let redirectUrl := text_of (get_prop "redirectUrl" obj) in
      if negb (truthy jobId) || negb (truthy redirectUrl) then (w, Ok (refusal 400 "jobId and redirectUrl are required."))
      else
        match mget jobId (w_jobs w) with
        | None => (w, Ok job_not_found)
        | Some job =>
            let job' := mkJob (j_status job) (j_url job) (or_else (j_code job) (Some redirectUrl)) (j_error job) in
            (set_jobs (mset jobId job' (w_jobs w)) w, Ok (sendJson 200 (VObj [("ok", VBool true)])))
        end
  end.

Definition handleCodexOAuthStatus (query : list (string * string)) : M response := fun w =>
  let jobId := default "" (mget "jobId" query) in
  match mget jobId (w_jobs w) with
  | None => (w, Ok job_not_found)
  | Some job =>
      let w' := match j_status job with
                | job_done | job_error =>
                    mkWorld (w_disk w) (w_sessions w) (w_vault w) (w_jobs w) (jobId :: w_expiring w) (w_subscriptions w)
                | _ => w
                end in
      (w', Ok (sendJson 200 (VObj [("ok", VBool true); ("status", VStr (status_name (j_status job))); ("error", or_null (j_error job))])))
  end.
(** The timers: thirty seconds later the job is gone. *)
Definition expire_jobs (w : world V) : world V :=
  mkWorld (w_disk w) (w_sessions w) (w_vault w) (foldr mdelete (w_jobs w) (w_expiring w)) [] (w_subscriptions w).
(** The sign-in library goes on after the answer. *)
Definition oauth_progress (jobId : string) (e : oauth_event) (w : world V) : world V :=
  match mget jobId (w_jobs w) with
  | Some job => set_jobs (mset jobId (oauth_step e job) (w_jobs w)) w
  | None => w
  end.

(** ** The router *)

Variable uiRoot : option string.

Definition UI_UNAVAILABLE : string :=
  "<!doctype html>" +:+ "<html><head><meta charset='utf-8'/>" +:+
  "<meta name='viewport' content='width=device-width,initial-scale=1'/>" +:+
  "<title>t560 UI unavailable</title></head>" +:+ "<body style='font-family:system-ui,sans-serif;padding:24px'>" +:+
  "<h1>t560 UI unavailable</h1>" +:+ "<p>The web UI bundle is not available yet.</p>" +:+
  "<p>Run: <code>cd ui && npm install && npm run build</code></p>" +:+ "<p>Then restart t560.</p>" +:+ "</body></html>".

Definition not_found : response := sendJson 404 (VObj [("error", VStr "not_found")]).

(** The files of the interface, and what is left. *)
Definition serve_interface (method pathname : string) : M response := fun w =>
  let get := (method =? "GET")%string in
  let static :=
    match uiRoot with
    | Some root =>
        if get then
          match serveStaticFile pcwd (w_disk w) root pathname with
          | Some r => Some r
          | None => if negb (includes "." pathname) then serveStaticFile pcwd (w_disk w) root "/index.html" else None
          end
        else None
    | None => None
    end in
  match static with
  | Some r => (w, Ok r)
  | None =>
      if get && ((pathname =? "/")%string || (pathname =? "/index.html")%string) && match uiRoot with None => true | Some _ => false end
      then (w, Ok (mkRes 503 [("content-type", "text/html; charset=utf-8")] (TextBody UI_UNAVAILABLE)))
      else (w, Ok not_found)
  end.

(** The routes in the order of the source. *)
Definition routes (query : list (string * string)) (raw : string) : list (string * string * M response) :=
  [("GET", "/api/status", handleStatus);
   ("GET", "/api/events", handleEventStream query);
   ("POST", "/api/chat", handleChat raw);
   ("GET", "/api/profile/soul", handleGetProfile soul);
   ("PUT", "/api/profile/soul", handlePutProfile raw soul);
   ("GET", "/api/profile/users", handleGetProfile users);
   ("PUT", "/api/profile/users", handlePutProfile raw users);
   ("GET", "/api/config", handleGetConfig);
   ("PUT", "/api/config", handlePutConfig raw);
   ("GET", "/api/context/bootstrap", handleGetBootstrapContext);
   ("PUT", "/api/context/bootstrap", handlePutBootstrapFile raw);
   ("DELETE", "/api/memory/store", handleDeleteMemoryStore);
   ("POST", "/api/setup/oauth/codex/start", handleStartCodexOAuth);
   ("POST", "/api/setup/oauth/codex/code", handleCodexOAuthCode raw);
   ("GET", "/api/setup/oauth/codex/status", handleCodexOAuthStatus query);
   ("GET", "/api/setup/cc-token", handleGetCcToken);
   ("GET", "/api/setup/cc-setup-token", handleGetCcSetupToken);
   ("GET", "/api/setup", handleGetSetup);
   ("PUT", "/api/setup/provider", handlePutSetupProvider raw);
   ("POST", "/api/setup/provider/models", handlePostSetupProviderModels raw);
   ("DELETE", "/api/setup/provider", handleDeleteSetupProvider raw);
   ("PUT", "/api/setup/routing", handlePutSetupRouting raw);
   ("PUT", "/api/setup/telegram", handlePutSetupTelegram raw);
   ("GET", "/api/vault", handleGetVault);
   ("PUT", "/api/vault", handlePutVaultCredential raw);
   ("DELETE", "/api/vault", handleDeleteVaultCredential raw);
   ("GET", "/health", ret (sendJson 200 (VObj [("ok", VBool true)])));
   ("GET", "/control-ui-bootstrap-config.json",
     ret (sendJson 200 (VObj [("basePath", VStr "/"); ("assistantName", VStr "t560")])))].

Definition routeRequest (req : http_request) : M response :=
  let method := default "GET" (q_method req) in
  match q_url req with
  | None => throw "Invalid URL"
  | Some (pathname, query) =>
      match List.find (fun r => (method =? r.1.1)%string && (pathname =? r.1.2)%string) (routes query (q_body req)) with
      | Some (_, handler) => handler
      | None => serve_interface method pathname
      end
  end.

(** The callback of the server: an error that a handler does not catch becomes an
    answer; the headers set before it are kept. *)
Definition serve (req : http_request) (w : world V) : world V * response :=
  let '(w', r) := routeRequest req w in
  let headers r := match q_url req with Some _ => setSecurityHeaders r | None => r end in
  (w', headers (match r with Ok r => r | Throw msg => failure 500 "internal_error" msg end)).
End Handlers.
