(* ===== verification/DashboardFacts.v ===== *)
(** * Facts about the dashboard

    What the answers of [src/src/web/dashboard.ts] depend on, and what its requests
    change: requests with [GET] store nothing and give out no secret of the vault,
    the setup page gives out no credential of the configuration, and a provider that
    is removed is not routed to any more. *)

From stdpp Require Import base list sets strings relations.
From Stdlib Require Import Ascii Lia ZArith.
From S2P Require Import Prelude JsString JsMap JsValue Json NodePath SessionStore Config Vault SetupFlow ChatService ProviderCatalog BootstrapContext DashboardInput Dashboard.

Section Facts.
Context {V : Type} `{VaultService V}.
Variables (env : list (string * string)) (pcwd home : string).
Context (home_abs : isAbsolute home = true).
Variables (now : Z) (uuid : nat -> string).
Variable URL : string -> option url.
Variable fetch : string -> list (string * string) -> result http_reply.
Variable claude : result spawned.
Variable signin : list oauth_event.
Variable handleMessage : GatewayInboundMessage -> web V ChatResponse.
Variable subscribeEvents : bool.
Variable uiRoot : option string.
Notation serve := (serve env pcwd home now uuid URL fetch claude signin handleMessage subscribeEvents uiRoot).
Notation routes := (routes env pcwd home now uuid URL fetch claude signin handleMessage subscribeEvents).

(** ** Requests that only read *)

(** The vaults [vs_list] leads to: listing the services may create the key. *)
Definition listed (v v' : V) : Prop := exists l, vs_list v = Ok (v', l).
(** Nothing stored is changed: files are at most added, with no document among
    them, and the sessions and the sign-in jobs stay. *)
Record kept (w w' : world V) : Prop := {
  kp_disk : grown (w_disk w) (w_disk w');
  kp_sessions : w_sessions w' = w_sessions w;
  kp_vault : rtc listed (w_vault w) (w_vault w');
  kp_jobs : w_jobs w' = w_jobs w;
}.
Definition reads {A} (m : web V A) : Prop := forall w, kept w (m w).1.

Lemma kept_refl w : kept w w.
Proof. split; [apply grown_refl|done|done|done]. Qed.
Lemma kept_trans w1 w2 w3 : kept w1 w2 -> kept w2 w3 -> kept w1 w3.
Proof. intros [] []. split; [eauto using grown_trans|congruence|by etransitivity|congruence]. Qed.
Lemma reads_ret {A} (a : A) : reads (ret a).
Proof. intros w. apply kept_refl. Qed.
Lemma reads_throw {A} m : reads (@throw V A m).
Proof. intros w. apply kept_refl. Qed.
Lemma reads_lift {A} (r : result A) : reads (lift r).
Proof. intros w. apply kept_refl. Qed.
Lemma reads_asks {A} (f : world V -> A) : reads (asks f).
Proof. intros w. apply kept_refl. Qed.
Lemma reads_bind {A B} (m : web V A) (k : A -> web V B) : reads m -> (forall a, reads (k a)) -> reads (wbind m k).
Proof.
  intros M K w. unfold wbind. specialize (M w). destruct (m w) as [w' [a|e]]; [|done].
  eapply kept_trans; [exact M|apply K].
Qed.
Lemma reads_disk {A} (f : disk -> result (A * disk)) :
  (forall d a d', f d = Ok (a, d') -> grown d d') -> reads (on_disk f).
Proof.
  intros F w. unfold on_disk. destruct (f (w_disk w)) as [[a d]|] eqn:E; [|apply kept_refl].
  split; [by eapply F|done|done|done].
Qed.
Lemma reads_list : reads (on_vault vs_list).
Proof.
  intros w. unfold on_vault. destruct (vs_list (w_vault w)) as [[v l]|] eqn:E; [|apply kept_refl].
  split; [apply grown_refl|done| |done]. eapply rtc_once. by exists l.
Qed.
Lemma reads_get {A} (f : V -> result A) : reads (fun w => (w, f (w_vault w))).
Proof. intros w. apply kept_refl. Qed.
Hint Resolve reads_ret reads_throw reads_lift reads_asks reads_list reads_get : dash.

Lemma config_grown d c d' : readConfig env pcwd home d = Ok (c, d') -> grown d d'.
Proof.
  unfold readConfig. destruct (ensureStateDir env pcwd home d) as [d1|] eqn:E; [|done]. intros [= _ <-].
  by apply (ensure_ok env pcwd home home_abs) in E as [G _].
Qed.
Lemma status_grown d s d' : readOnboardingStatus env pcwd home d = Ok (s, d') -> grown d d'.
Proof.
  unfold readOnboardingStatus. destruct (ensureStateDir env pcwd home d) as [d1|] eqn:E; [|done]. cbn [rbind].
  destruct (readConfig env pcwd home d1) as [[c d2]|] eqn:R; [|done]. cbn [rbind].
  cbv beta iota zeta. match goal with |- Ok (?x, _) = _ -> _ => generalize x end. intros ? [= _ <-].
  apply (ensure_ok env pcwd home home_abs) in E as [G _]. apply config_grown in R. eauto using grown_trans.
Qed.
Lemma reads_config : reads (read_config env pcwd home).
Proof. apply reads_disk, config_grown. Qed.
Lemma reads_status : reads (read_status env pcwd home).
Proof. apply reads_disk, status_grown. Qed.
Hint Resolve reads_config reads_status : dash.
Ltac reads_tac := repeat first [apply reads_bind; intros | case_match | by auto with dash].

Lemma reads_setup c : reads (buildSetupPayload c).
Proof. unfold buildSetupPayload. reads_tac. Qed.
Lemma reads_rows l : reads (vault_rows l).
Proof. induction l as [|s l IH]; cbn [vault_rows]; reads_tac; intros w; apply IH. Qed.
Hint Resolve reads_setup reads_rows : dash.

(** The handlers of the routes with [GET]. *)
Definition getter (query : list (string * string)) (raw : string) (m : web V response) : Prop :=
  exists p, In ("GET", p, m) (routes query raw).
Lemma getter_reads query raw m : getter query raw m -> reads m.
Proof.
  intros [p I]. cbn [Dashboard.routes In] in I.
  repeat (destruct I as [I|I]; [try discriminate I; injection I as _ <-|]); try done;
    unfold handleStatus, handleEventStream, handleGetProfile, handleGetConfig, handleGetBootstrapContext, resolveUsersFallbackFile,
      readTextIfPresent, handleCodexOAuthStatus, handleGetCcToken, handleGetCcSetupToken, handleGetSetup, handleGetVault,
      buildVaultEntries, read_text; reads_tac.
  intros w. repeat case_match; (apply kept_refl || (split; [apply grown_refl|done..])).
Qed.

Lemma serve_routes req w :
  (exists m pathname query, q_url req = Some (pathname, query) /\
     In (default "GET" (q_method req), pathname, m) (routes query (q_body req)) /\
     serve req w = (let '(w', r) := m w in (w', setSecurityHeaders (match r with Ok r => r | Throw msg => failure 500 "internal_error" msg end)))) \/
  (serve req w).1 = w.
Proof.
  unfold Dashboard.serve, routeRequest. destruct (q_url req) as [[pathname query]|]; [|by right].
  destruct (List.find _ _) as [[[me p] m]|] eqn:F.
  - left. apply List.find_some in F as [I E]. cbn [fst snd] in E. bool_prop. subst me p. exists m, pathname, query. by split_and!.
  - right. unfold serve_interface. repeat case_match; simplify_eq; done.
Qed.

(** a request with [GET], also one without a method, changes nothing that is
    stored: the sessions and the sign-in jobs are as before, files are only added
    (the default profile texts), never changed or removed, and the vault changes at
    most as listing its services changes it. *)
Theorem get_stores_nothing req w :
  default "GET" (q_method req) = "GET" -> kept w (serve req w).1.
Proof.
  intros G. destruct (serve_routes req w) as [(m & p & q & _ & I & ->)| -> ]; [|apply kept_refl].
  rewrite G in I. assert (reads m) as R by (eapply getter_reads; by exists p). specialize (R w). by destruct (m w).
Qed.

(** ** Secrets of the vault *)

(** What a record shows: not the secret, and of the code whether there is one. *)
Definition public (r : StoredCredentialRecord) : StoredCredentialRecord :=
  mkRecord (Vault.service r) (identifier r) "" (Vault.authMode r) (websiteUrl r) (mfaStrategy r) (mfaSourceService r)
    (if truthy (default "" (mfaCode r)) then Some "*" else None) (createdAt r) (updatedAt r).
Definition public_found (r : result found) : result found :=
  match r with Ok (Found r) => Ok (Found (public r)) | r => r end.
(** Two vaults with the same services, whose records show the same. *)
Definition alike (v1 v2 : V) : Prop :=
  match vs_list v1, vs_list v2 with
  | Ok (v1', l1), Ok (v2', l2) => l1 = l2 /\ forall svc, In svc l1 -> public_found (vs_get svc v1') = public_found (vs_get svc v2')
  | Throw e1, Throw e2 => e1 = e2
  | _, _ => False
  end.

(** The computation does not look at the vault. *)
Definition blind {A} (m : web V A) : Prop := forall v w, m (set_vault v w) = (set_vault v (m w).1, (m w).2).
Lemma blind_ret {A} (a : A) : blind (ret a).
Proof. done. Qed.
Lemma blind_throw {A} m : blind (@throw V A m).
Proof. done. Qed.
Lemma blind_lift {A} (r : result A) : blind (lift r).
Proof. done. Qed.
Lemma blind_text p : blind (@read_text V pcwd p).
Proof. done. Qed.
Lemma blind_disk {A} (f : disk -> result (A * disk)) : blind (on_disk f).
Proof. intros v w. unfold on_disk. cbn [w_disk set_vault]. by destruct (f (w_disk w)) as [[a d]|]. Qed.
Lemma blind_asks_disk {A} (f : disk -> A) : blind (asks (fun w : world V => f (w_disk w))).
Proof. done. Qed.
Lemma blind_sessions : blind (asks (@session_entries V env pcwd home)).
Proof. done. Qed.
Lemma blind_bind {A B} (m : web V A) (k : A -> web V B) : blind m -> (forall a, blind (k a)) -> blind (wbind m k).
Proof. intros M K v w. unfold wbind. rewrite (M v w). destruct (m w) as [w' [a|e]]; cbn [fst snd]; [apply K|done]. Qed.
Lemma blind_config : blind (@read_config V env pcwd home).
Proof. apply blind_disk. Qed.
Lemma blind_status : blind (@read_status V env pcwd home).
Proof. apply blind_disk. Qed.
Ltac blind_tac := repeat first [apply blind_bind; intros | case_match | by auto with dash].
Hint Resolve blind_ret blind_throw blind_lift blind_text blind_asks_disk blind_sessions blind_config blind_status : dash.

(** Two worlds that differ in the vault only get the same answer. *)
Definition answers_same {A} (m : web V A) : Prop := forall v1 v2 w, alike v1 v2 -> (m (set_vault v1 w)).2 = (m (set_vault v2 w)).2.
Lemma blind_same {A} (m : web V A) : blind m -> answers_same m.
Proof. intros B v1 v2 w _. by rewrite !B. Qed.
Lemma same_after {A B} (m : web V A) (k : A -> web V B) : blind m -> (forall a, answers_same (k a)) -> answers_same (wbind m k).
Proof. intros Bl K v1 v2 w L. unfold wbind. rewrite !Bl. destruct (m w) as [w' [a|e]]; cbn [fst snd]; [by apply K|done]. Qed.
Lemma same_list {A} (k : list string -> web V A) :
  (forall v1 v2 l w, (forall svc, In svc l -> public_found (vs_get svc v1) = public_found (vs_get svc v2)) ->
     (k l (set_vault v1 w)).2 = (k l (set_vault v2 w)).2) ->
  answers_same (wbind (on_vault vs_list) k).
Proof.
  intros K v1 v2 w L. unfold wbind, on_vault. cbn [w_vault set_vault]. unfold alike in L.
  destruct (vs_list v1) as [[v1' l1]|e1], (vs_list v2) as [[v2' l2]|e2]; try done; [|by subst].
  destruct L as [-> L]. apply (K v1' v2' l2 (set_vault v1' w) L).
Qed.

Lemma row_public r : vault_row r = vault_row (public r).
Proof. unfold vault_row, public. cbn [mfaCode Vault.service websiteUrl identifier Vault.authMode mfaStrategy mfaSourceService createdAt updatedAt].
  by destruct (truthy (default "" (mfaCode r))). Qed.
Lemma rows_same l v1 v2 w :
  (forall svc, In svc l -> public_found (vs_get svc v1) = public_found (vs_get svc v2)) ->
  (vault_rows l (set_vault v1 w)).2 = (vault_rows l (set_vault v2 w)).2.
Proof.
  induction l as [|s l IH]; intros L; [done|]. cbn [vault_rows]. unfold wbind. cbn [w_vault set_vault].
  pose proof (L s (or_introl eq_refl)) as E. specialize (IH (fun svc I => L svc (or_intror I))).
  destruct (vs_get s v1) as [[|r1|]|], (vs_get s v2) as [[|r2|]|]; cbn [public_found] in E; try discriminate E; try done.
  - assert (public r1 = public r2) as P by congruence. destruct (vault_rows l (set_vault v1 w)) as [w1 x1], (vault_rows l (set_vault v2 w)) as [w2 x2].
    cbn [snd] in IH. subst x2. destruct x1; [|done]. unfold ret. cbn [snd]. do 2 f_equal.
    rewrite (row_public r1), (row_public r2). by rewrite P.
  - by injection E as ->.
Qed.

Lemma same_setup c : answers_same (buildSetupPayload c).
Proof. unfold buildSetupPayload. cbv zeta. apply same_after; [auto with dash|]. intros ps. by apply same_list. Qed.
Lemma same_entries : answers_same buildVaultEntries.
Proof.
  unfold buildVaultEntries. apply same_list. intros v1 v2 l w L. pose proof (rows_same l v1 v2 w L) as E. unfold wbind.
  destruct (vault_rows l (set_vault v1 w)) as [w1 x1], (vault_rows l (set_vault v2 w)) as [w2 x2]. cbn [snd] in E. subst x2.
  by destruct x1.
Qed.
Lemma same_then {A B} (m : web V A) (f : A -> B) : answers_same m -> answers_same (let! a := m in ret (f a)).
Proof.
  intros M v1 v2 w L. specialize (M v1 v2 w L). unfold wbind. destruct (m (set_vault v1 w)) as [w1 x1], (m (set_vault v2 w)) as [w2 x2].
  cbn [snd] in M. subst x2. by destruct x1.
Qed.

Lemma getter_same query raw m : getter query raw m -> answers_same m.
Proof.
  intros [p I]. cbn [Dashboard.routes In] in I.
  repeat (destruct I as [I|I]; [try discriminate I; injection I as _ <-|]); try done.
  all: try (apply blind_same;
    unfold handleStatus, handleGetProfile, handleGetConfig, handleGetBootstrapContext, resolveUsersFallbackFile,
      readTextIfPresent, handleGetCcToken, handleGetCcSetupToken; by blind_tac).
  - apply blind_same. intros v w. unfold handleEventStream. by destruct subscribeEvents.
  - apply blind_same. intros v w. unfold handleCodexOAuthStatus. cbn [w_jobs set_vault]. by repeat case_match.
  - unfold handleGetSetup. apply same_after; [auto with dash|]. intros c. apply same_then, same_setup.
  - unfold handleGetVault. apply same_then, same_entries.
Qed.

(** C37: no answer to a [GET] request gives out a secret or a code of the vault: on
    two vaults that have the same services, and records that differ in the secrets
    and in the texts of the codes only, every such request is answered alike. *)
Theorem vault_secrets_not_served req w v1 v2 :
  default "GET" (q_method req) = "GET" -> alike v1 v2 ->
  (serve req (set_vault v1 w)).2 = (serve req (set_vault v2 w)).2.
Proof.
  intros G L. unfold Dashboard.serve, routeRequest. rewrite G. destruct (q_url req) as [[p q]|]; [|done].
  destruct (List.find _ _) as [[[me p'] m]|] eqn:F.
  - apply List.find_some in F as [I E]. cbn [fst snd] in E. bool_prop. subst me p'.
    assert (getter q (q_body req) m) as Gm by (by exists p). pose proof (getter_same _ _ _ Gm v1 v2 w L) as E.
    destruct (m (set_vault v1 w)) as [w1 x1], (m (set_vault v2 w)) as [w2 x2]. cbn [snd] in *. by subst x2.
  - unfold serve_interface. cbn [w_disk set_vault]. repeat case_match; by simplify_eq.
Qed.
End Facts.

(** ** Examples *)

#[local] Existing Instance sample_service.
Definition no_fetch (_ : string) (_ : list (string * string)) : result http_reply := Throw "offline".
Definition no_chat (_ : GatewayInboundMessage) : web Vault.world ChatResponse := throw "unused".
Definition sample_serve : http_request -> world Vault.world -> world Vault.world * response :=
  Dashboard.serve [] "/" "/home/u" 0 (fun _ => "id") (fun _ => None) no_fetch (Throw "none") [] no_chat false None.
Definition get (path : string) : http_request := mkHttp None (Some (path, [])) "".
(** A vault with one service whose secret is [s]. *)
Definition vault_with (s : string) : Vault.world :=
  match @vs_set Vault.world sample_service (Vault.mkInput "example.com" "bob" s None None None None None) (Vault.mkWorld [] None) with
  | Ok (w, _) => w
  | Throw _ => Vault.mkWorld [] None
  end.
Definition page_world : world Vault.world := mkWorld keyed_disk [] (vault_with "hunter2") [] [] [].

Lemma get_stores_nothing_witness : kept page_world (sample_serve (get "/api/setup") page_world).1 /\
  r_status (sample_serve (get "/api/setup") page_world).2 = 200%Z.
Proof.
  split; [|vm_compute; reflexivity]. unfold sample_serve.
  exact (get_stores_nothing [] "/" "/home/u" eq_refl 0 (fun _ => "id") (fun _ => None) no_fetch (Throw "none") [] no_chat false None
    (get "/api/setup") page_world eq_refl).
Defined.
Lemma vault_secrets_not_served_witness :
  (sample_serve (get "/api/vault") (set_vault (vault_with "hunter2") page_world)).2 =
  (sample_serve (get "/api/vault") (set_vault (vault_with "other") page_world)).2.
Proof.
  unfold sample_serve. apply (vault_secrets_not_served [] "/" "/home/u" 0 (fun _ => "id") (fun _ => None) no_fetch (Throw "none") [] no_chat false None
    (get "/api/vault") page_world); [reflexivity|].
  unfold alike. change (vs_list (vault_with "hunter2")) with (Ok (vault_with "hunter2", ["example.com"])).
  change (vs_list (vault_with "other")) with (Ok (vault_with "other", ["example.com"])).
  split; [reflexivity|]. intros svc [<-|[]]. vm_compute. reflexivity.
Defined.
