(* ===== verification/DashboardSetup.v ===== *)
(** * Facts about the setup page

    What the handlers of [src/src/web/dashboard.ts] that change the setup leave in
    the configuration file: the configuration that is read after one was written
    ([saved]), the routes after a provider was removed and after routes were put,
    the credentials of a provider that was put, and what the payload of the page
    depends on. *)

From stdpp Require Import base list sets strings.
From Stdlib Require Import Ascii Lia ZArith.
From S2P Require Import Prelude JsString JsMap JsValue Json NodePath Config Vault SetupFlow ChatService ProviderCatalog BootstrapContext DashboardInput Dashboard.

(** ** Configurations that are written and read *)

(** One pass: the object itself ([false]), or what the file makes of it. *)
Definition pass (j : bool) (c : T560Config) : T560Config := normalizeConfig (img j (config_value c)).
Definition saved (c : T560Config) : T560Config := pass true (pass false c).

Definition norm_target (t : RoutingTarget) : option RoutingTarget :=
  let p := trim (default "" (t_provider t)) in
  let m := trim (default "" (t_model t)) in
  if negb (hasRealValue (Some p)) || negb (hasRealValue (Some m)) then None else Some (mkTarget (Some p) (Some m)).

Lemma img_opt_str j o : opt_str (img j (opt_v VStr o)) = o.
Proof. by destruct o, j. Qed.
Lemma parseSlot_pass j o : parseSlot (img j (opt_v target_v o)) = o ≫= norm_target.
Proof.
  destruct o as [[p m]|]; [|by destruct j]. cbn [opt_v mbind option_bind]. unfold parseSlot, target_v. rewrite img_obj. cbn [negb].
  rewrite !img_get by (apply (bool_decide_eq_true_1 _); vm_compute; reflexivity).
  change (default VUndef (mget "provider" _)) with (opt_v VStr p). change (default VUndef (mget "model" _)) with (opt_v VStr m).
  by rewrite !img_opt_str.
Qed.
Lemma norm_target_idemp (o : option RoutingTarget) : (o ≫= norm_target) ≫= norm_target = o ≫= norm_target.
Proof.
  destruct o as [t|]; [|done]. change ((norm_target t ≫= norm_target) = norm_target t).
  unfold norm_target at 2 3. cbv zeta. generalize (trim_idemp (default "" (t_provider t))), (trim_idemp (default "" (t_model t))).
  generalize (trim (default "" (t_provider t))), (trim (default "" (t_model t))). intros p m P M.
  destruct (negb _ || negb _) eqn:R; [done|]. change (norm_target (mkTarget (Some p) (Some m)) = Some (mkTarget (Some p) (Some m))).
  unfold norm_target. cbv zeta. cbn [t_provider t_model default from_option id]. by rewrite P, M, R.
Qed.

Lemma pass_fields j c :
  c_provider (pass j c) = c_provider c /\ c_models (pass j c) = c_models c /\
  c_routing (pass j c) = normalizeRouting (img j (opt_v routing_v (c_routing c))) /\
  c_providers (pass j c) = normalizeProviders (img j (opt_v (map_v profile_v) (c_providers c))).
Proof.
  unfold pass, normalizeConfig, config_value. rewrite img_obj. cbn [negb c_provider c_models c_routing c_providers].
  rewrite !img_get by (apply (bool_decide_eq_true_1 _); vm_compute; reflexivity).
  split_and!.
  - change (default VUndef (mget "provider" _)) with (opt_v VStr (c_provider c)). apply img_opt_str.
  - change (default VUndef (mget "models" _)) with (opt_v presets_v (c_models c)).
    destruct (c_models c) as [[d p q]|]; [|by destruct j]. cbn [opt_v]. unfold opt_obj, presets_v. rewrite img_obj. f_equal.
    unfold normalizeModels. rewrite !img_get by (apply (bool_decide_eq_true_1 _); vm_compute; reflexivity). f_equal; apply img_opt_str.
  - done.
  - done.
Qed.
Lemma preset_pass j c s : preset (pass j c) s = preset c s.
Proof. unfold preset. by destruct (pass_fields j c) as (_ & -> & _). Qed.
Lemma route_pass j c s : route (pass j c) s = route c s ≫= norm_target.
Proof.
  unfold route. destruct (pass_fields j c) as (_ & _ & -> & _). destruct (c_routing c) as [[d p q]|]; [|by destruct j].
  cbn [opt_v]. unfold normalizeRouting, routing_v. rewrite img_obj. cbn [negb].
  rewrite !img_get by (apply (bool_decide_eq_true_1 _); vm_compute; reflexivity).
  change (default VUndef (mget "default" _)) with (opt_v target_v d). change (default VUndef (mget "planning" _)) with (opt_v target_v p).
  change (default VUndef (mget "coding" _)) with (opt_v target_v q). rewrite !parseSlot_pass.
  cbn [mbind option_bind r_default r_planning r_coding].
  destruct s, (d ≫= norm_target), (p ≫= norm_target), (q ≫= norm_target); done.
Qed.
Lemma saved_preset c s : preset (saved c) s = preset c s.
Proof. unfold saved. by rewrite !preset_pass. Qed.
Lemma saved_route c s : route (saved c) s = route c s ≫= norm_target.
Proof. unfold saved. by rewrite !route_pass, norm_target_idemp. Qed.
Lemma saved_provider c : c_provider (saved c) = c_provider c.
Proof. unfold saved. destruct (pass_fields true (pass false c)) as [-> _]. by destruct (pass_fields false c) as [-> _]. Qed.

Lemma entries_map_keys {A} (g : string -> value -> option A) raw k :
  k ∈ keys (entries_map g raw) -> k ∈ keys (object_entries raw).
Proof.
  unfold entries_map. assert (forall acc, k ∈ keys (fold_left (fun acc e => match g e.1 e.2 with Some x => assign e.1 x acc | None => acc end)
    (object_entries raw) acc) -> k ∈ keys acc \/ k ∈ keys (object_entries raw)) as K.
  { generalize (object_entries raw) as es. induction es as [|[k' v] es IH]; intros acc; [by left|]. cbn [fold_left fst snd].
    intros [H|H]%IH; [|right; set_solver]. destruct (g k' v) as [x|]; [|by left]. unfold assign in H.
    destruct (k' =? "__proto__")%string; [by left|]. apply elem_of_keys_mset in H as [->|H]; [right; set_solver|by left]. }
  intros H. by destruct (K _ H) as [H'%elem_of_nil|].
Qed.
Lemma pass_keys j c k : k ∈ keys (default [] (c_providers (pass j c))) -> k ∈ keys (default [] (c_providers c)).
Proof.
  destruct (pass_fields j c) as (_ & _ & _ & ->). destruct (c_providers c) as [m|]; [|by destruct j]. cbn [opt_v].
  unfold normalizeProviders, opt_entries. unfold map_v at 1. rewrite img_obj. unfold non_empty.
  destruct (0 <? _)%nat; [|intros []%elem_of_nil]. cbn [default from_option]. intros H%entries_map_keys. revert H. unfold id.
  destruct j; cbn [img].
  - unfold map_v, json_field. rewrite json_image_obj. cbn [object_entries]. unfold keys. clear.
    induction m as [|[k' p] m IH]; [done|]. cbn. set_solver.
  - cbn [object_entries map_v]. unfold keys. by rewrite map_map.
Qed.
Lemma saved_keys c k : k ∈ keys (default [] (c_providers (saved c))) -> k ∈ keys (default [] (c_providers c)).
Proof. unfold saved. generalize (pass_keys true (pass false c) k) (pass_keys false c k). auto. Qed.

(** The profiles of a configuration. *)
Lemma entries_map_nodup {A} (g : string -> value -> option A) raw : NoDup (keys (entries_map g raw)).
Proof.
  unfold entries_map. assert (NoDup (keys (@nil (string * A)))) as N by constructor. revert N. generalize (@nil (string * A)) as acc.
  induction (object_entries raw) as [|[k v] es IH]; intros acc N; [done|]. cbn [fold_left fst snd]. apply IH.
  destruct (g k v); [|done]. unfold assign. destruct (_ =? _)%string; [done|]. by apply NoDup_mset.
Qed.
Lemma entries_map_get {A} (g : string -> value -> option A) ps k :
  NoDup (keys ps) -> k <> "__proto__" -> mget k (entries_map g (VObj ps)) = mget k ps ≫= g k.
Proof.
  intros N K. unfold entries_map. cbn [object_entries].
  assert (forall acc, mget k acc = None \/ k ∉ keys ps -> mget k (fold_left (fun acc e => match g e.1 e.2 with Some x => assign e.1 x acc | None => acc end) ps acc) =
    match mget k ps with Some v => g k v | None => mget k acc end) as L; [|rewrite L; [by destruct (mget k ps)|by left]].
  apply String.eqb_neq in K. induction ps as [|[k' v] ps IH]; intros acc Ac; [done|]. cbn [keys map fst snd fold_left] in *.
  apply NoDup_cons in N as [N1 N]. rewrite IH; [|done|].
  - cbn [mget]. case_bool_decide as E; [subst k'|].
    + destruct (mget k ps) eqn:G; [exfalso; apply N1; apply mget_In in G; apply list_elem_of_In, in_map_iff; by eexists (_, _)|].
      destruct (g k v); [unfold assign; rewrite K; apply mget_mset_eq|]. destruct Ac as [Ac|Ac]; [done|set_solver].
    + destruct (mget k ps); [done|]. destruct (g k' v); [|done]. unfold assign. destruct (k' =? _)%string; [done|]. by apply mget_mset_ne.
  - destruct (decide (k = k')) as [->|E]; [by right|]. destruct Ac as [Ac|Ac]; [left|right; set_solver].
    destruct (g k' v); [|done]. unfold assign. destruct (k' =? _)%string; [done|]. by rewrite mget_mset_ne.
Qed.
Lemma keys_map_value {A B} (f : A -> B) (m : list (string * A)) : keys (map (fun e => (e.1, f e.2)) m) = keys m.
Proof. unfold keys. by rewrite map_map. Qed.
Lemma mget_map_value {A B} (f : A -> B) (m : list (string * A)) k : mget k (map (fun e => (e.1, f e.2)) m) = option_map f (mget k m).
Proof. induction m as [|[k' v] m IH]; [done|]. cbn. by case_bool_decide. Qed.
Lemma pass_profile j c k :
  NoDup (keys (default [] (c_providers c))) -> k <> "__proto__" ->
  mget k (default [] (c_providers (pass j c))) =
  option_map (fun p => normalizeProfile k (img j (profile_v p))) (mget k (default [] (c_providers c))).
Proof.
  destruct (pass_fields j c) as (_ & _ & _ & ->). destruct (c_providers c) as [m|]; [|by destruct j]. cbn [opt_v default from_option]. unfold id.
  intros N K. unfold normalizeProviders, opt_entries. rewrite img_map by done. cbn [is_object]. unfold non_empty.
  set (l := entries_map _ _).
  assert (mget k l = option_map (fun p => normalizeProfile k (img j (profile_v p))) (mget k m)) as L.
  { unfold l. rewrite entries_map_get; [|by rewrite (keys_map_value (fun p => img j (profile_v p)))|done]. rewrite (mget_map_value (fun p => img j (profile_v p))).
    destruct (mget k m); [|done]. cbn [option_map mbind option_bind]. unfold opt_obj, profile_v. by rewrite img_obj. }
  destruct (0 <? length l)%nat eqn:Z; [done|]. rewrite <- L. by destruct l.
Qed.
Lemma pass_nodup j c : NoDup (keys (default [] (c_providers (pass j c)))).
Proof.
  destruct (pass_fields j c) as (_ & _ & _ & ->). unfold normalizeProviders, opt_entries, non_empty.
  destruct (is_object _); [|constructor]. destruct (0 <? _)%nat; [|constructor]. apply entries_map_nodup.
Qed.
(** What a pass keeps of a profile. *)
Lemma profile_pass j k p : let p' := normalizeProfile k (img j (profile_v p)) in
  apiKey p' = apiKey p /\ oauthToken p' = oauthToken p /\ token p' = token p /\ Config.authMode p' = Config.authMode p.
Proof.
  cbv zeta. unfold normalizeProfile, profile_v. cbn [apiKey oauthToken token Config.authMode].
  rewrite !img_get by (apply (bool_decide_eq_true_1 _); vm_compute; reflexivity).
  change (default VUndef (mget "apiKey" _)) with (opt_v VStr (apiKey p)). change (default VUndef (mget "oauthToken" _)) with (opt_v VStr (oauthToken p)).
  change (default VUndef (mget "token" _)) with (opt_v VStr (token p)). change (default VUndef (mget "authMode" _)) with (authMode_v (Config.authMode p)).
  rewrite !img_opt_str, authMode_again. done.
Qed.
Lemma saved_profile c k p :
  NoDup (keys (default [] (c_providers c))) -> k <> "__proto__" -> mget k (default [] (c_providers c)) = Some p ->
  exists p', mget k (default [] (c_providers (saved c))) = Some p' /\
    apiKey p' = apiKey p /\ oauthToken p' = oauthToken p /\ token p' = token p /\ Config.authMode p' = Config.authMode p.
Proof.
  intros N K G. unfold saved. rewrite pass_profile by (done || apply pass_nodup). rewrite pass_profile by done. rewrite G. cbn [option_map].
  eexists. split; [done|]. set (p1 := normalizeProfile k (img false (profile_v p))).
  destruct (profile_pass true k p1) as (-> & -> & -> & ->). destruct (profile_pass false k p) as (E1 & E2 & E3 & E4). done.
Qed.

(** Where the provider of a route comes from. *)
Inductive route_source (c : T560Config) (p : string) : Prop :=
| FromRouting s t : route c s = Some t -> p = trim (default "" (t_provider t)) -> route_source c p
| FromPreset s ref : preset c s = Some ref -> p = trim (default "" (head (split_char slash ref))) -> route_source c p
| FromProvider q : c_provider c = Some q -> p = trim q -> route_source c p.

Lemma complete_provider t : complete_target (Some t) = true -> exists p, t_provider t = Some p.
Proof. cbn. destruct (t_provider t); [by eexists|done]. Qed.
Lemma saved_route_source c s p :
  complete_target (route (saved c) s) = true -> (t ← route (saved c) s; t_provider t) = Some p -> route_source c p.
Proof.
  rewrite saved_route. destruct (route c s) as [t|] eqn:R; [|done]. cbn [mbind option_bind]. unfold norm_target. cbv zeta.
  destruct (negb _ || negb _); [done|]. intros _ [= <-]. by eapply FromRouting.
Qed.
Lemma saved_preset_source c s p :
  (t ← resolveRouteFromModelPreset (saved c) s; t_provider t) = Some p -> route_source c p.
Proof.
  unfold resolveRouteFromModelPreset. cbv zeta. rewrite saved_preset, saved_provider.
  destruct (preset c s) as [ref|] eqn:P; [|done]. destruct (negb (hasRealValue (Some ref))); [done|].
  destruct (complete_target (parseModelRef (Some ref))) eqn:C.
  - unfold parseModelRef in C |- *. destruct (negb (hasRealModelRef (Some ref))); [done|]. cbn [default from_option] in *. unfold id in *.
    destruct (split_char slash ref) as [|q rest] eqn:E; [done|]. cbv zeta. destruct (negb _ || negb _); [done|].
    intros [= <-]. eapply FromPreset; [exact P|]. by rewrite E.
  - destruct (c_provider c) as [q|] eqn:Q; [|done]. cbn [option_map]. destruct (negb _); [done|]. intros [= <-]. by eapply FromProvider.
Qed.
Lemma saved_source c s t p : resolveRoutingTarget (saved c) s = Some t -> t_provider t = Some p -> route_source c p.
Proof.
  unfold resolveRoutingTarget. cbv zeta. intros R T.
  destruct (complete_target (route (saved c) s)) eqn:C1.
  { eapply saved_route_source; [exact C1|]. by rewrite R. }
  destruct (resolveRouteFromModelPreset (saved c) s) as [t1|] eqn:P1.
  { eapply (saved_preset_source c s). rewrite P1. injection R as ->. done. }
  destruct (bool_decide (s = Default)); [done|].
  destruct (complete_target (route (saved c) Default)) eqn:C2.
  { eapply saved_route_source; [exact C2|]. by rewrite R. }
  eapply (saved_preset_source c Default). by rewrite R.
Qed.

Section Setup.
Context {V : Type} `{VaultService V}.
Variables (env : list (string * string)) (pcwd home : string).
Context (home_abs : isAbsolute home = true).
Notation handleDelete := (@handleDeleteSetupProvider V _ env pcwd home).
Notation handleRouting := (@handlePutSetupRouting V _ env pcwd home).
Notation handleProvider := (@handlePutSetupProvider V _ env pcwd home).

Lemma reread_written v d : ready env pcwd home d ->
  readConfig env pcwd home (mset (segments pcwd (resolveStateDir env pcwd home) ++ ["config.json"]) (Config.Json v) d) =
  Ok (normalizeConfig v, mset (segments pcwd (resolveStateDir env pcwd home) ++ ["config.json"]) (Config.Json v) d).
Proof.
  intros R. unfold readConfig. rewrite ready_ensure by (exact home_abs || by apply ready_write). cbn [rbind].
  unfold readJsonIfExists, resolveConfigPath. rewrite node_at_state by (exact home_abs || apply config_file). by rewrite mget_mset_eq.
Qed.
Lemma write_state v d d' : ready env pcwd home d ->
  writeFile pcwd (resolveConfigPath env pcwd home) (Config.Json v) d = Ok d' ->
  d' = mset (segments pcwd (resolveStateDir env pcwd home) ++ ["config.json"]) (Config.Json v) d.
Proof.
  intros R W. unfold resolveConfigPath in W. rewrite writeFile_state in W; [by injection W|exact home_abs|apply config_file|apply R|].
  intros N. unfold writeFile in W. by rewrite N in W.
Qed.
Lemma saved_normal c : saved c = normalizeConfig (json_image (config_value (normalizeConfig (config_value c)))).
Proof. unfold saved, pass. cbn [img]. f_equal. Qed.
Lemma write_then_read c d d' : writeConfig env pcwd home c d = Ok d' -> readConfig env pcwd home d' = Ok (saved c, d').
Proof.
  unfold writeConfig. cbv zeta. rewrite saved_normal. generalize (json_image (config_value (normalizeConfig (config_value c)))) as v. intros v.
  destruct (ensureStateDir env pcwd home d) as [d1|] eqn:E; [|done]. cbn [rbind].
  apply (ensure_ok env pcwd home home_abs) in E as [_ R]. intros ->%write_state; [|done]. by apply reread_written.
Qed.

(** Inversion of the handlers. *)
Lemma with_object_inv raw (k : value -> web V response) w w' r :
  with_object raw k w = (w', Ok r) -> r_status r = 200%Z -> exists ps, JSON_parse raw = Some (VObj ps) /\ k (VObj ps) w = (w', Ok r).
Proof.
  unfold with_object. destruct (JSON_parse raw) as [[]|]; try (intros [= <- <-]; done). eauto.
Qed.
Lemma wbind_inv {A B} (m : web V A) (k : A -> web V B) w w' b :
  wbind m k w = (w', Ok b) -> exists w1 a, m w = (w1, Ok a) /\ k a w1 = (w', Ok b).
Proof. unfold wbind. destruct (m w) as [w1 [a|e]]; [eauto|done]. Qed.
Lemma read_config_inv (w w' : world V) c : read_config env pcwd home w = (w', Ok c) ->
  readConfig env pcwd home (w_disk w) = Ok (c, w_disk w').
Proof. unfold read_config, on_disk. destruct (readConfig _ _ _ _) as [[c' d]|]; [|done]. by intros [= <- ->]. Qed.
Lemma write_config_inv c (w w' : world V) : write_config env pcwd home c w = (w', Ok tt) ->
  writeConfig env pcwd home c (w_disk w) = Ok (w_disk w').
Proof. unfold write_config, write_disk, on_disk. destruct (writeConfig _ _ _ _ _) as [d|]; [|done]. by intros [= <-]. Qed.
Lemma setup_answer_inv fields (w w' : world V) r : setup_answer env pcwd home fields w = (w', Ok r) ->
  exists c d, readConfig env pcwd home (w_disk w) = Ok (c, d) /\ w_disk w' = d.
Proof.
  unfold setup_answer. intros (w1 & c & R & K)%wbind_inv. apply read_config_inv in R. exists c, (w_disk w1). split; [done|].
  apply wbind_inv in K as (w2 & v & B & [= <- _]). unfold buildSetupPayload in B. apply wbind_inv in B as (w3 & ps & L & B).
  injection L as <- _. apply wbind_inv in B as (w4 & l & L & [= <- _]). unfold on_vault in L.
  destruct (vs_list _) as [[]|]; [|done]. by injection L as <- _.
Qed.
(** ** Removing a provider *)

Definition plain_id (k : string) : Prop := trim k = k /\ slash ∉ chars k.
Definition plain_ids (c : T560Config) : Prop := Forall plain_id (keys (default [] (c_providers c))).

Lemma inherited_plain k : k ∈ object_prototype_keys -> plain_id k.
Proof.
  assert (forallb (fun k => bool_decide (trim k = k) && bool_decide (slash ∉ chars k)) object_prototype_keys = true) as F by (vm_compute; reflexivity).
  rewrite forallb_forall in F. intros I%list_elem_of_In%F. bool_prop. by split.
Qed.
Lemma has_profile_plain k ps : has_profile k ps = true -> Forall plain_id (keys ps) -> plain_id k.
Proof.
  unfold has_profile, obj_lookup. intros P F. destruct (mget k ps) as [p|] eqn:G.
  - rewrite Forall_forall in F. apply F. apply mget_In in G. apply list_elem_of_In, in_map_iff. by exists (k, p).
  - case_bool_decide; [by apply inherited_plain|done].
Qed.
Lemma fallback_other providerId ps current s r :
  fallbackRoute providerId ps current s = Ok (Some r) -> Forall plain_id (keys ps) -> providerId ∉ keys ps ->
  plain_id r.1 /\ r.1 <> providerId.
Proof.
  unfold fallbackRoute. cbv zeta. destruct (_ && _ && _ && _) eqn:C; intros E F N.
  - injection E as <-. cbn [fst]. bool_prop. split; [by eapply has_profile_plain|done].
  - destruct ps as [|[k p] ps]; [done|]. destruct (negb (truthy k)); [done|]. apply rbind_ok_inv in E as ([m|] & _ & E); [|done].
    destruct (truthy m); [|done]. injection E as <-. cbn [fst]. cbn [keys map] in F, N. apply Forall_cons in F as [P _].
    split; [done|]. set_solver.
Qed.
Lemma ref_head r : slash ∉ chars r.1 -> head (split_char slash (ref_of r)) = Some r.1.
Proof.
  intros N. unfold split_char, ref_of. rewrite chars_app. change (chars ("/" +:+ r.2)) with (slash :: chars r.2).
  rewrite split_list_app by (by apply bool_decide_eq_true). rewrite split_list_single.
  - cbn. by rewrite of_chars_chars.
  - apply Forall_forall. intros c C. apply bool_decide_eq_false. intros ->. done.
Qed.

(** The routes a configuration made from three routes can give. *)
Lemma routes_source d p q c0 x :
  (forall r, Some r = d \/ Some r = p \/ Some r = q -> plain_id r.1) ->
  route_source (with_routes (option_map fst d) (route_presets d p q) (route_config d p q) c0) x ->
  exists r, (Some r = d \/ Some r = p \/ Some r = q) /\ x = r.1.
Proof.
  intros P [s t R ->|s ref R ->|y R ->].
  - assert (exists r, (Some r = d \/ Some r = p \/ Some r = q) /\ t = target_of r) as (r & I & ->).
    { unfold route, with_routes, route_config in R. cbn [c_routing] in R.
      destruct s, d as [d|], p as [p|], q as [q|]; cbn in R; try discriminate R; injection R as <-; eauto. }
    exists r. split; [done|]. apply (P r I).
  - assert (exists r, (Some r = d \/ Some r = p \/ Some r = q) /\ ref = ref_of r) as (r & I & ->).
    { unfold preset, with_routes, route_presets in R. cbn [c_models] in R.
      destruct s, d as [d|], p as [p|], q as [q|]; cbn in R; try discriminate R; injection R as <-; eauto. }
    exists r. split; [done|]. rewrite ref_head by apply (P r I). apply (P r I).
  - cbn [c_provider with_routes] in R. destruct d as [r|]; [|done]. injection R as <-. exists r. split; [by left|].
    apply (P r). by left.
Qed.

Lemma mdelete_keys {A} k (m : list (string * A)) x : x ∈ keys (mdelete k m) -> x ∈ keys m /\ x <> k.
Proof.
  intros X. split.
  - apply list_elem_of_fmap in X as (e & -> & E). apply list_elem_of_In, filter_In in E as [E _]. by apply list_elem_of_fmap_2, list_elem_of_In.
  - intros ->. by apply (mget_None_keys k (mdelete k m)); [apply mget_mdelete_eq|].
Qed.
Lemma without_provider_ok providerId c next :
  plain_ids c -> without_provider providerId c = Ok next ->
  providerId ∉ keys (default [] (c_providers next)) /\ forall x, route_source next x -> x <> providerId.
Proof.
  intros P. unfold without_provider. cbv zeta. set (ps := mdelete providerId _).
  assert (Forall plain_id (keys ps)) as F.
  { unfold plain_ids in P. rewrite Forall_forall in *. intros k [K _]%mdelete_keys. by apply P. }
  assert (providerId ∉ keys ps) as N by (by intros [_ []]%mdelete_keys).
  intros (d & D & (p & E & (q & G & [= <-])%rbind_ok_inv)%rbind_ok_inv)%rbind_ok_inv. split; [done|].
  assert (forall r, Some r = d \/ Some r = p \/ Some r = q -> plain_id r.1 /\ r.1 <> providerId) as K.
  { intros r [<-|[<-|<-]]; by eapply fallback_other. }
  intros x (r & I & ->)%routes_source; [by apply K|]. intros r I. by apply K.
Qed.

(** after a provider was removed, the configuration that is read has no such
    provider, and none of the three slots is routed to it: a slot that was goes to
    the first provider that is left, or has no route.  The ids of the providers
    have no white space around them and no slash, as those have that the program
    makes itself. *)
Theorem provider_removed raw w w' r c d :
  readConfig env pcwd home (w_disk w) = Ok (c, d) -> plain_ids c ->
  handleDelete raw w = (w', Ok r) -> r_status r = 200%Z ->
  exists obj providerId c', JSON_parse raw = Some obj /\ sanitizeProviderId (get_prop "providerId" obj) = Some providerId /\
    readConfig env pcwd home (w_disk w') = Ok (c', w_disk w') /\
    providerId ∉ keys (default [] (c_providers c')) /\
    forall s t, resolveRoutingTarget c' s = Some t -> t_provider t <> Some providerId.
Proof.
  intros R P D St. apply with_object_inv in D as (ps & J & D); [|done]. exists (VObj ps).
  destruct (sanitizeProviderId _) as [providerId|] eqn:S; [|by injection D as <- <-].
  apply wbind_inv in D as (w1 & c1 & R1 & D). apply read_config_inv in R1. rewrite R in R1. injection R1 as <- ->.
  destruct (negb _); [by injection D as <- <-|]. apply wbind_inv in D as (w2 & next & L & D). injection L as <- L.
  apply wbind_inv in D as (w3 & [] & W & D). apply write_config_inv, write_then_read in W.
  apply setup_answer_inv in D as (c' & d' & R' & E). rewrite W in R'. injection R' as <- <-. rewrite E.
  exists providerId, (saved next). apply without_provider_ok in L as [K L]; [|done]. split_and!; [done|done|done| |].
  - intros X%saved_keys. by apply K.
  - intros s t T Y. eapply L; [|reflexivity]. by eapply saved_source.
Qed.
(** ** Saving routes *)

Definition slot_field (s : slot) : string := match s with Default => "default" | Planning => "planning" | Coding => "coding" end.

Lemma parseRoutingSlot_trim v r : parseRoutingSlot v = Some r -> trim r.1 = r.1 /\ trim r.2 = r.2.
Proof.
  unfold parseRoutingSlot. destruct v; try done. cbv zeta. destruct (negb _ || negb _); [done|]. intros [= <-]. cbn [fst snd].
  unfold text_of. by rewrite !trim_idemp.
Qed.
Lemma real_route c s r : trim r.1 = r.1 -> trim r.2 = r.2 ->
  hasRealValue (Some r.1) = true -> hasRealValue (Some r.2) = true ->
  route c s = Some (target_of r) -> resolveRoutingTarget (saved c) s = Some (target_of r).
Proof.
  intros T1 T2 R1 R2 R. unfold resolveRoutingTarget. cbv zeta. rewrite saved_route, R. cbn [mbind option_bind].
  unfold norm_target. cbv zeta. cbn [t_provider t_model target_of default from_option id]. rewrite T1, T2, R1, R2. cbn [negb orb].
  cbn [complete_target t_provider t_model default from_option id]. by rewrite (real_truthy r.1), (real_truthy r.2).
Qed.

(** routes that were put are the routes of the configuration that is read: for
    each slot whose provider and model are real names (not a placeholder such as
    [todo]), the route is the one of the request, trimmed. *)
Theorem routing_saved raw w w' r :
  handleRouting raw w = (w', Ok r) -> r_status r = 200%Z ->
  exists obj c', JSON_parse raw = Some obj /\ readConfig env pcwd home (w_disk w') = Ok (c', w_disk w') /\
    forall s, exists x, parseRoutingSlot (get_prop (slot_field s) obj) = Some x /\
      (hasRealValue (Some x.1) = true -> hasRealValue (Some x.2) = true -> resolveRoutingTarget c' s = Some (target_of x)).
Proof.
  intros D St. apply with_object_inv in D as (ps & J & D); [|done]. exists (VObj ps).
  destruct (parseRoutingSlot (get_prop "default" (VObj ps))) as [d|] eqn:Pd; [|by injection D as <- <-].
  destruct (parseRoutingSlot (get_prop "planning" (VObj ps))) as [p|] eqn:Pp; [|by injection D as <- <-].
  destruct (parseRoutingSlot (get_prop "coding" (VObj ps))) as [q|] eqn:Pq; [|by injection D as <- <-].
  apply wbind_inv in D as (w1 & c & _ & D). apply wbind_inv in D as (w2 & [] & W & D). apply write_config_inv, write_then_read in W.
  apply setup_answer_inv in D as (c' & d' & R' & E). rewrite W in R'. injection R' as <- <-. rewrite E.
  eexists. split; [done|]. split; [exact W|].
  intros []; eexists; (split; [eassumption|]); intros R1 R2;
    (apply real_route; [by eapply parseRoutingSlot_trim|by eapply parseRoutingSlot_trim|done|done|done]).
Qed.

(** ** Saving a provider *)

(** a provider that was put with a credential has that credential, trimmed,
    under the name its mode says, and no other one; the id is not the name
    [__proto__], which an object literal does not store. *)
Theorem credential_stored raw w w' r obj providerId cred c d :
  readConfig env pcwd home (w_disk w) = Ok (c, d) -> NoDup (keys (default [] (c_providers c))) ->
  handleProvider raw w = (w', Ok r) -> r_status r = 200%Z ->
  JSON_parse raw = Some obj -> sanitizeProviderId (get_prop "providerId" obj) = Some providerId -> providerId <> "__proto__" ->
  get_prop "credential" obj = VStr cred -> trim cred <> "" -> get_prop "clearCredential" obj <> VBool true ->
  exists c' p, readConfig env pcwd home (w_disk w') = Ok (c', w_disk w') /\ mget providerId (default [] (c_providers c')) = Some p /\
    (apiKey p, oauthToken p, token p) =
    match Config.authMode p with
    | oauth => (None, Some (trim cred), None)
    | auth_token => (None, None, Some (trim cred))
    | api_key => (Some (trim cred), None, None)
    end.
Proof.
  intros R N D St J S K C T Cl. apply with_object_inv in D as (ps & J' & D); [|done]. rewrite J in J'. injection J' as ->.
  rewrite S in D. apply wbind_inv in D as (w1 & c1 & R1 & D). apply read_config_inv in R1. rewrite R in R1. injection R1 as <- _.
  apply wbind_inv in D as (w2 & models & L & D). injection L as <- L.
  apply wbind_inv in D as (w3 & [] & W & D). apply write_config_inv, write_then_read in W.
  apply setup_answer_inv in D as (c' & d' & R' & E). rewrite W in R'. injection R' as <- <-. rewrite E.
  set (next := next_profile providerId (VObj ps) (existing_profile providerId (default [] (c_providers c))) models) in *.
  destruct (saved_profile (with_providers (assign providerId next (default [] (c_providers c))) c) providerId next)
    as (p & G & E1 & E2 & E3 & E4).
  - unfold assign. destruct (_ =? _)%string; [done|]. by apply NoDup_mset.
  - done.
  - unfold assign. apply String.eqb_neq in K. rewrite K. apply mget_mset_eq.
  - eexists _, p. split; [exact W|]. split; [exact G|]. rewrite E1, E2, E3, E4. unfold next, next_profile. cbv zeta.
    rewrite C. apply truthy_true in T. rewrite T.
    assert ((match get_prop "clearCredential" (VObj ps) with VBool b => b | _ => false end) = false) as -> by (destruct (get_prop "clearCredential" (VObj ps)) as [| |[]| | | |]; congruence).
    by destruct (parseProviderAuthMode _).
Qed.

(** ** What the page shows *)

(** A text that is there or not. *)
Definition veil_text (o : option string) : option string := if has_text o then Some "*" else None.
Definition veil (p : ProviderProfile) : ProviderProfile :=
  mkProfile (enabled p) (Config.provider p) (Config.authMode p) (veil_text (apiKey p)) (veil_text (oauthToken p)) (veil_text (token p))
    (baseUrl p) (api p) None None (Config.models p).
Definition veil_telegram (t : TelegramChannelConfig) : TelegramChannelConfig :=
  mkTelegram (veil_text (botToken t)) (dmPolicy t) (allowFrom t) (allowedChatIds t).
(** The configuration without its credentials, headers and bot token. *)
Definition veil_config (c : T560Config) : T560Config :=
  mkConfig (c_provider c) (c_models c) (option_map (map (fun e => (e.1, veil e.2))) (c_providers c)) (c_routing c)
    (option_map (fun ch => mkChannels (option_map veil_telegram (telegram ch))) (c_channels c))
    (c_tools c) (c_skills c) (c_usage c) (c_agents c).

Lemma has_text_veil o : has_text (veil_text o) = has_text o.
Proof. unfold veil_text. by destruct (has_text o). Qed.
Lemma provider_v_veil id p : provider_v id (veil p) = provider_v id p.
Proof.
  unfold provider_v, DashboardInput.hasProviderCredential, isLocalModelReady, veil.
  cbn [enabled Config.provider Config.authMode apiKey oauthToken token baseUrl api Config.models]. by rewrite !has_text_veil.
Qed.
Lemma map_result_map {A B C} (f : B -> result C) (g : A -> B) l : map_result f (map g l) = map_result (fun x => f (g x)) l.
Proof. induction l as [|x l IH]; [done|]. cbn [map map_result]. by rewrite IH. Qed.
Lemma map_result_ext {A B} (f g : A -> result B) l : (forall x, f x = g x) -> map_result f l = map_result g l.
Proof. intros E. induction l as [|x l IH]; [done|]. cbn [map_result]. by rewrite E, IH. Qed.

(** the payload of the setup page, which [GET /api/setup] and every change of
    the setup answer with, gives out no credential: it is the payload of the
    configuration in which each key, each token and the bot token is replaced by a
    mark when it is there, and the headers are dropped. *)
Theorem setup_hides_credentials c (w : world V) : buildSetupPayload c w = buildSetupPayload (veil_config c) w.
Proof.
  unfold buildSetupPayload. cbv zeta. cbn [c_providers veil_config].
  change (resolveRoutingTarget (veil_config c)) with (resolveRoutingTarget c).
  replace (default [] (option_map (map (fun e => (e.1, veil e.2))) (c_providers c)))
    with (map (fun e => (e.1, veil e.2)) (default [] (c_providers c))) by (by destruct (c_providers c)).
  rewrite map_result_map.
  rewrite (map_result_ext (fun x => let? v := provider_v (x.1, veil x.2).1 (x.1, veil x.2).2 in Ok ((x.1, veil x.2).1, v))
    (fun e => let? v := provider_v e.1 e.2 in Ok (e.1, v))) by (intros [id p]; cbn [fst snd]; by rewrite provider_v_veil).
  unfold telegram_config. cbn [c_channels veil_config].
  destruct (c_channels c) as [[[t|]]|]; cbn [option_map mbind option_bind telegram]; try done.
  cbn [veil_telegram botToken dmPolicy allowFrom allowedChatIds]. by rewrite has_text_veil.
Qed.
End Setup.

(** ** Examples *)

#[local] Existing Instance sample_service.
Definition two_doc : value :=
  VObj [("providers", VObj [("openai", VObj [("apiKey", VStr "k"); ("headers", VObj [("x-org", VStr "1")])]);
                            ("deepseek", VObj [("apiKey", VStr "d")])]);
        ("routing", VObj [("default", VObj [("provider", VStr "openai"); ("model", VStr "gpt-4o-mini")])])].
Definition dash_world (doc : value) : world Vault.world := mkWorld (sample_disk doc) [] (Vault.mkWorld [] None) [] [] [].
Definition delete_body : string := JSON_stringify (VObj [("providerId", VStr " OpenAI")]).
Definition answer_status {V} (x : world V * result response) : Z := match x.2 with Ok r => r_status r | Throw _ => 0 end.
(** What is read after a handler. *)
Definition config_after {V} (x : world V * result response) : T560Config := Config.read_config (w_disk x.1).

Lemma provider_removed_witness :
  let x := handleDeleteSetupProvider [] "/" "/home/u" delete_body (dash_world two_doc) in
  answer_status x = 200%Z /\ exists c', readConfig [] "/" "/home/u" (w_disk x.1) = Ok (c', w_disk x.1) /\
    forall s t, resolveRoutingTarget c' s = Some t -> t_provider t <> Some "openai".
Proof.
  destruct (provider_removed [] "/" "/home/u" eq_refl delete_body (dash_world two_doc)
    (handleDeleteSetupProvider [] "/" "/home/u" delete_body (dash_world two_doc)).1
    (match (handleDeleteSetupProvider [] "/" "/home/u" delete_body (dash_world two_doc)).2 with Ok r => r | Throw _ => invalid_json end)
    (Config.read_config (sample_disk two_doc)) (read_disk (sample_disk two_doc)))
    as (obj & providerId & c' & J & S & R & _ & K).
  - vm_compute. reflexivity.
  - apply Forall_forall. intros k I. vm_compute in I. apply (list_elem_of_In _ _) in I. destruct I as [<-|[<-|[]]]; split;
      try reflexivity; apply (bool_decide_eq_true_1 _); vm_compute; reflexivity.
  - vm_compute. reflexivity.
  - vm_compute. reflexivity.
  - split; [vm_compute; reflexivity|]. exists c'. split; [exact R|]. intros s t T. specialize (K s t T).
    assert (providerId = "openai") as <-; [|exact K]. assert (obj = VObj [("providerId", VStr " OpenAI")]) as ->.
    { change (JSON_parse delete_body) with (Some (VObj [("providerId", VStr " OpenAI")])) in J. by injection J. }
    vm_compute in S. by injection S.
Defined.
(** The removed provider's slots go to the provider that is left, with the model of the catalog. *)
Example routes_after_removal :
  map (resolveRoutingTarget (config_after (handleDeleteSetupProvider [] "/" "/home/u" delete_body (dash_world two_doc)))) [Default; Planning] =
  [Some (mkTarget (Some "deepseek") (Some "deepseek-chat")); Some (mkTarget (Some "deepseek") (Some "deepseek-reasoner"))].
Proof. vm_compute. reflexivity. Qed.

Definition slot_body (m : string) : value := VObj [("provider", VStr " openai "); ("model", VStr m)].
Definition routing_body (m : string) : string :=
  JSON_stringify (VObj [("default", slot_body "a"); ("planning", slot_body m); ("coding", slot_body "b")]).
Lemma routing_saved_witness :
  let x := handlePutSetupRouting [] "/" "/home/u" (routing_body "gpt-5-mini") (dash_world two_doc) in
  exists c', readConfig [] "/" "/home/u" (w_disk x.1) = Ok (c', w_disk x.1) /\
    exists r, resolveRoutingTarget c' Planning = Some (target_of r).
Proof.
  destruct (routing_saved [] "/" "/home/u" eq_refl (routing_body "gpt-5-mini") (dash_world two_doc)
    (handlePutSetupRouting [] "/" "/home/u" (routing_body "gpt-5-mini") (dash_world two_doc)).1
    (match (handlePutSetupRouting [] "/" "/home/u" (routing_body "gpt-5-mini") (dash_world two_doc)).2 with Ok r => r | Throw _ => invalid_json end))
    as (obj & c' & J & R & K).
  - vm_compute. reflexivity.
  - vm_compute. reflexivity.
  - exists c'. split; [exact R|]. destruct (K Planning) as (r & S & T). exists r.
    assert (Some r = Some ("openai", "gpt-5-mini")) as E.
    { rewrite <- S. change (JSON_parse (routing_body "gpt-5-mini")) with
        (Some (VObj [("default", slot_body "a"); ("planning", slot_body "gpt-5-mini"); ("coding", slot_body "b")])) in J.
      injection J as <-. vm_compute. reflexivity. }
    injection E as ->. apply T; vm_compute; reflexivity.
Defined.
(** A placeholder is accepted, and the slot goes to the default provider with the
    whole reference as its model. *)
Example placeholder_route :
  let x := handlePutSetupRouting [] "/" "/home/u" (routing_body "todo") (dash_world two_doc) in
  answer_status x = 200%Z /\
  resolveRoutingTarget (config_after x) Planning = Some (mkTarget (Some "openai") (Some "openai/todo")).
Proof. vm_compute. done. Qed.

Definition put_body : string :=
  JSON_stringify (VObj [("providerId", VStr "openai"); ("authMode", VStr "token"); ("credential", VStr " t1 ")]).
Lemma credential_stored_witness :
  let x := handlePutSetupProvider [] "/" "/home/u" put_body (dash_world two_doc) in
  exists c' p, readConfig [] "/" "/home/u" (w_disk x.1) = Ok (c', w_disk x.1) /\ mget "openai" (default [] (c_providers c')) = Some p /\
    (apiKey p, oauthToken p, token p) =
    match Config.authMode p with
    | oauth => (None, Some (trim " t1 "), None)
    | auth_token => (None, None, Some (trim " t1 "))
    | api_key => (Some (trim " t1 "), None, None)
    end.
Proof.
  apply (credential_stored [] "/" "/home/u" eq_refl put_body (dash_world two_doc)
    (handlePutSetupProvider [] "/" "/home/u" put_body (dash_world two_doc)).1
    (match (handlePutSetupProvider [] "/" "/home/u" put_body (dash_world two_doc)).2 with Ok r => r | Throw _ => invalid_json end)
    (VObj [("providerId", VStr "openai"); ("authMode", VStr "token"); ("credential", VStr " t1 ")]) "openai" " t1 "
    (Config.read_config (sample_disk two_doc)) (read_disk (sample_disk two_doc))); try (vm_compute; reflexivity); try discriminate.
  apply (bool_decide_eq_true_1 _). vm_compute. reflexivity.
Defined.
(** Saving a provider drops the headers its profile had. *)
Example headers_lost :
  let before := mget "openai" (default [] (c_providers (Config.read_config (sample_disk two_doc)))) in
  let after := mget "openai" (default [] (c_providers (config_after (handlePutSetupProvider [] "/" "/home/u" put_body (dash_world two_doc))))) in
  (p ← before; headers p) = Some [("x-org", "1")] /\ (p ← after; headers p) = None.
Proof. vm_compute. done. Qed.
(** A provider that was never configured is removed when its name is inherited,
    and one called [__proto__] is put without being stored. *)
Example inherited_provider_removed :
  answer_status (handleDeleteSetupProvider [] "/" "/home/u" (JSON_stringify (VObj [("providerId", VStr "constructor")])) (dash_world two_doc)) = 200%Z /\
  let x := handlePutSetupProvider [] "/" "/home/u" (JSON_stringify (VObj [("providerId", VStr "__proto__")])) (dash_world two_doc) in
  answer_status x = 200%Z /\ keys (default [] (c_providers (config_after x))) = ["openai"; "deepseek"].
Proof. vm_compute. done. Qed.
(** A DeepSeek model named like an inherited property makes the page fail. *)
Example setup_page_fails :
  answer_status (handleGetSetup [] "/" "/home/u" (dash_world
    (VObj [("providers", VObj [("deepseek", VObj [("models", VArr [VStr "constructor"])])])]))) = 0%Z.
Proof. vm_compute. reflexivity. Qed.
(** The configuration itself is given out with its keys. *)
Example config_gives_keys : exists c,
  handleGetConfig [] "/" "/home/u" (dash_world two_doc) =
    (set_disk (read_disk (sample_disk two_doc)) (dash_world two_doc),
     Ok (sendJson 200 (VObj [("config", config_value c); ("configPath", VStr "/home/u/.t560/config.json")]))) /\
  (p ← mget "openai" (default [] (c_providers c)); apiKey p) = Some "k".
Proof. exists (Config.read_config (sample_disk two_doc)). vm_compute. done. Qed.
