(* ===== verification/DashboardSocket.v ===== *)
(** * The dashboard's web socket

    [src/src/web/dashboard.ts]: the client's state, the frames the server sends, and
    [handleWsMessage].  Frames are handled one at a time; what is sent is the list of
    frames, in order, and nothing is sent to a socket that is not open.  A rejected
    promise is dropped by the caller ([.catch(() => ...)]): the result is a [Throw]
    and no frame. *)

From stdpp Require Import base list sets strings.
From Stdlib Require Import Ascii Lia ZArith.
From S2P Require Import Prelude JsString JsMap JsValue Json NodePath ToolCallId TranscriptRepair SessionStore Config Vault SetupFlow ChatService Telegram DashboardInput Dashboard.
#[local] Open Scope nat_scope.

(** ** Data *)

(** [cl_open]: [readyState === 1]; [cl_events]: the session whose events the client
    gets. *)
Record WsClient := mkClient { cl_open : bool; cl_sessionKey : value; cl_events : option string }.
Record socket (V : Type) := mkSocket { s_world : world V; s_client : WsClient; s_sent : list value }.
Arguments mkSocket {V}.
Arguments s_world {V}.
Arguments s_client {V}.
Arguments s_sent {V}.

Definition sendWsFrame {V} (frame : value) (s : socket V) : socket V :=
  if cl_open (s_client s) then mkSocket (s_world s) (s_client s) (s_sent s ++ [frame]) else s.
Definition error_v (code message : string) : value := VObj [("code", VStr code); ("message", VStr message)].
Definition response_frame (id : value) (ok : bool) (payload error : value) : value :=
  VObj [("type", VStr "res"); ("id", id); ("ok", VBool ok); ("payload", payload); ("error", error)].
Definition event_frame (event : string) (payload : value) : value :=
  VObj [("type", VStr "event"); ("event", VStr event); ("payload", payload)].
Definition sendWsResponse {V} (id : value) (ok : bool) (payload error : value) : socket V -> socket V :=
  sendWsFrame (response_frame id ok payload error).
Definition sendWsEvent {V} (event : string) (payload : value) : socket V -> socket V := sendWsFrame (event_frame event payload).

(** [`webchat:${key}`] *)
Definition webchat_id (key : value) : string := "webchat:" +:+ to_string key.

(** ** Operations *)

Section Socket.
Context {V : Type}.
Variables (env : list (string * string)) (pcwd home : string).
Variables (now : Z) (uuid : nat -> string).
Variable handleMessage : GatewayInboundMessage -> web V ChatResponse.
Variable subscribeEvents : bool.
Notation stateDir := (resolveStateDir env pcwd home).

Definition bindClientEvents (c : WsClient) : WsClient :=
  mkClient (cl_open c) (cl_sessionKey c) (if subscribeEvents then Some (webchat_id (cl_sessionKey c)) else None).
(** The connection of a client. *)
Definition connect : WsClient := bindClientEvents (mkClient true (VStr (slice_to 8 (uuid 1))) None).

(** [if (params?.sessionKey) { client.sessionKey = ...; bindClientEvents(...) }] *)
Definition switch_session (params : value) (s : socket V) : socket V :=
  let key := get_prop "sessionKey" params in
  if to_bool key
  then mkSocket (s_world s) (bindClientEvents (mkClient (cl_open (s_client s)) key (cl_events (s_client s)))) (s_sent s)
  else s.

Definition history_entry (i : nat) (entry : value) : value * string :=
  let role := if is_str "assistant" (get_prop "role" entry) then "assistant" else "user" in
  let message := trim (extractTextContent (get_prop "content" entry)) in
  let timestamp := match get_prop "timestamp" entry with VNum n => VNum n | _ => VNum (NInt now) end in
  (VObj [("id", VStr (uuid i)); ("role", VStr role); ("message", VStr message); ("timestamp", timestamp)], message).
Definition chat_role (entry : value) : bool :=
  is_str "user" (get_prop "role" entry) || is_str "assistant" (get_prop "role" entry).
Definition readWebchatHistory (sessionKey : value) (limit : nat) (w : world V) : list value :=
  let all := loadSessionMessages stateDir (webchat_id sessionKey) (w_sessions w) in
  let filtered := List.filter chat_role all in
  let tail := if (limit <? length filtered)%nat then skipn (length filtered - limit) filtered else filtered in
  map fst (List.filter (fun e => (0 <? slen (trim e.2))%nat) (imap history_entry tail)).

Definition zero : value := VNum (NInt 0).
Definition injected_message (message : string) : value :=
  VObj [("role", VStr "assistant"); ("content", VArr [VObj [("type", VStr "text"); ("text", VStr message)]]);
        ("api", VStr "openai-responses"); ("provider", VStr "webchat"); ("model", VStr "manual-inject");
        ("usage", VObj [("input", zero); ("output", zero); ("cacheRead", zero); ("cacheWrite", zero); ("totalTokens", zero);
                        ("cost", VObj [("input", zero); ("output", zero); ("cacheRead", zero); ("cacheWrite", zero); ("total", zero)])]);
        ("stopReason", VStr "stop"); ("timestamp", VNum (NInt now))].

(** [case "connect"] *)
Definition ws_connect (id : value) (s : socket V) : socket V :=
  match readOnboardingStatus env pcwd home (w_disk (s_world s)) with
  | Throw msg => sendWsResponse id false VUndef (error_v "connect_failed" msg) s
  | Ok (status, d) =>
      let s := mkSocket (set_disk d (s_world s)) (s_client s) (s_sent s) in
      let defaultRoute := resolveRoutingTarget (st_config status) Default in
      sendWsResponse id true
        (VObj [("snapshot", VObj
          [("status", VObj
             [("mode", VStr (if onboarded status then "provider" else "foundation"));
              ("provider", or_null (t ← defaultRoute; t_provider t)); ("model", or_null (t ← defaultRoute; t_model t));
              ("onboardingRequired", VBool (negb (onboarded status))); ("missing", strings_v (missing status));
              ("config", VObj [("configPath", VStr (st_configPath status));
                               ("providers", strings_v (keys (default [] (c_providers (st_config status)))))])]);
           ("sessionKey", cl_sessionKey (s_client s))])]) VUndef s
  end.

(** [case "chat.send"] *)
Definition ws_chat_send (id params : value) (s : socket V) : socket V * result unit :=
  match nullish (get_prop "message" params) (VStr "") with
  | VStr raw =>
      let message := trim raw in
      if negb (truthy message)
      then (sendWsResponse id false VUndef (error_v "missing_message" "The message field is required.") s, Ok tt)
      else
        let s := switch_session params s in
        let s := sendWsResponse id true VUndef VUndef s in
        let s := sendWsEvent "chat.sending" VUndef s in
        if isHeartbeatCheckMessage message then (sendWsEvent "chat.done" VUndef s, Ok tt)
        else
          let input := mkInbound webchat message (webchat_id (cl_sessionKey (s_client s))) "webchat-user" now in
          let '(w, reply) := handleMessage input (s_world s) in
          let s := mkSocket w (s_client s) (s_sent s) in
          let answer := match reply with Ok r => r | Throw msg => buildFallbackChatResponse msg end in
          let s := sendWsEvent "chat" (toWsAssistantChatPayload (uuid 2) now answer) s in
          (sendWsEvent "chat.done" VUndef s, Ok tt)
  | _ => (s, Throw "trim is not a function")
  end.

(** [case "chat.history"] *)
Definition ws_chat_history (id params : value) (s : socket V) : socket V :=
  let s := switch_session params s in
  let limit := normalizeHistoryLimit (get_prop "limit" params) in
  let messages := readWebchatHistory (cl_sessionKey (s_client s)) limit (s_world s) in
  sendWsResponse id true (VObj [("sessionKey", cl_sessionKey (s_client s)); ("messages", VArr messages)]) VUndef s.

(** [case "chat.inject"] *)
Definition ws_chat_inject (id params : value) (s : socket V) : socket V :=
  let message := text_of (get_prop "message" params) in
  if negb (truthy message)
  then sendWsResponse id false VUndef (error_v "missing_message" "The message field is required.") s
  else
    let s := switch_session params s in
    let sessionId := webchat_id (cl_sessionKey (s_client s)) in
    let history := loadSessionMessages stateDir sessionId (w_sessions (s_world s)) ++ [injected_message message] in
    let w := set_sessions (saveSessionMessages stateDir sessionId history (w_sessions (s_world s))) (s_world s) in
    let s := mkSocket w (s_client s) (s_sent s) in
    let s := sendWsResponse id true (VObj [("ok", VBool true); ("sessionKey", cl_sessionKey (s_client s))]) VUndef s in
    sendWsEvent "chat"
      (VObj [("id", VStr (uuid 2)); ("role", VStr "assistant"); ("message", VStr message); ("thinking", VNull); ("toolCalls", VArr []);
             ("provider", VNull); ("model", VNull); ("timestamp", VNum (NInt now)); ("injected", VBool true)]) s.

Definition handleWsMessage (frame : value) (s : socket V) : socket V * result unit :=
  match frame with
  | VUndef | VNull => (s, Throw "Cannot read properties of null (reading 'type')")
  | _ =>
      let method := get_prop "method" frame in
      let id := get_prop "id" frame in
      let params := get_prop "params" frame in
      if negb (is_str "req" (get_prop "type" frame)) || negb (to_bool method) || negb (to_bool id) then (s, Ok tt)
      else if is_str "connect" method then (ws_connect id s, Ok tt)
      else if is_str "chat.send" method then ws_chat_send id params s
      else if is_str "chat.history" method then (ws_chat_history id params s, Ok tt)
      else if is_str "chat.inject" method then (ws_chat_inject id params s, Ok tt)
      else if is_str "chat.abort" method then
        (sendWsEvent "chat.done" VUndef (sendWsResponse id true VUndef VUndef s), Ok tt)
      else (sendWsResponse id false VUndef (error_v "unknown_method" ("Unknown method: " +:+ to_string method)) s, Ok tt)
  end.

(** [ws.on("message", ...)]: malformed frames and rejections are ignored. *)
Definition on_message (data : string) (s : socket V) : socket V :=
  match JSON_parse data with Some frame => (handleWsMessage frame s).1 | None => s end.
(** [ws.on("close", ...)] and [ws.on("error", ...)] *)
Definition on_close (s : socket V) : socket V :=
  mkSocket (s_world s) (mkClient false (cl_sessionKey (s_client s)) None) (s_sent s).
End Socket.

(** ** The protocol *)

(** An event that says something. *)
Definition spoken (payload : value) : Prop :=
  is_str "assistant" (get_prop "role" payload) = true /\ exists m, get_prop "message" payload = VStr m /\ trim m = m /\ m <> "".

(** What a request is answered with: one response with its id, first; a chat
    message is announced, said at most once and always concluded. *)
Inductive exchange (id : value) : list value -> Prop :=
| Answered ok payload error : exchange id [response_frame id ok payload error]
| Concluded : exchange id [response_frame id true VUndef VUndef; event_frame "chat.done" VUndef]
| Injected payload said : spoken said -> exchange id [response_frame id true payload VUndef; event_frame "chat" said]
| Silent : exchange id
    [response_frame id true VUndef VUndef; event_frame "chat.sending" VUndef; event_frame "chat.done" VUndef]
| Chatted said : spoken said -> exchange id
    [response_frame id true VUndef VUndef; event_frame "chat.sending" VUndef; event_frame "chat" said; event_frame "chat.done" VUndef].
#[export] Hint Constructors exchange : t560.

Section Facts.
Context {V : Type}.
Variables (env : list (string * string)) (pcwd home : string).
Variables (now : Z) (uuid : nat -> string).
Variable handleMessage : GatewayInboundMessage -> web V ChatResponse.
Variable subscribeEvents : bool.
Notation handle := (handleWsMessage env pcwd home now uuid handleMessage subscribeEvents).
Notation stateDir := (resolveStateDir env pcwd home).

Lemma sent_open frame (s : socket V) : cl_open (s_client s) = true ->
  sendWsFrame frame s = mkSocket (s_world s) (s_client s) (s_sent s ++ [frame]).
Proof. intros O. unfold sendWsFrame. by rewrite O. Qed.
Lemma sent_client frame (s : socket V) : s_client (sendWsFrame frame s) = s_client s.
Proof. unfold sendWsFrame. by destruct (cl_open _). Qed.
Lemma sent_world frame (s : socket V) : s_world (sendWsFrame frame s) = s_world s.
Proof. unfold sendWsFrame. by destruct (cl_open _). Qed.
Lemma switch_open params (s : socket V) : cl_open (s_client (switch_session subscribeEvents params s)) = cl_open (s_client s).
Proof. unfold switch_session. by destruct (to_bool _). Qed.
Lemma switch_sent params (s : socket V) : s_sent (switch_session subscribeEvents params s) = s_sent s.
Proof. unfold switch_session. by destruct (to_bool _). Qed.
Lemma switch_world params (s : socket V) : s_world (switch_session subscribeEvents params s) = s_world s.
Proof. unfold switch_session. by destruct (to_bool _). Qed.

Lemma payload_spoken u reply : spoken (toWsAssistantChatPayload u now reply).
Proof.
  split; [done|]. unfold toWsAssistantChatPayload. cbv zeta. eexists. split; [reflexivity|].
  destruct (truthy (trim (cr_message reply))) eqn:T; [|by vm_compute].
  split; [apply trim_idemp|by apply truthy_true].
Qed.

(** A request the server understands: of the right type, with a method and an id;
    the text to send, if it is given, is a text. *)
Record request_frame (frame : value) : Prop := {
  rf_type : get_prop "type" frame = VStr "req";
  rf_method : to_bool (get_prop "method" frame) = true;
  rf_id : to_bool (get_prop "id" frame) = true;
  rf_text : get_prop "method" frame = VStr "chat.send" ->
    match nullish (get_prop "message" (get_prop "params" frame)) (VStr "") with VStr _ => True | _ => False end;
}.
Ltac sends := cbn [fst]; repeat (rewrite sent_open by (cbn [s_client]; rewrite ?sent_client; cbn [s_client]; rewrite ?switch_open; done)); cbn [s_sent s_client s_world]; rewrite ?switch_sent, <- ?app_assoc.

Lemma send_exchange id params (s : socket V) : cl_open (s_client s) = true ->
  (match nullish (get_prop "message" params) (VStr "") with VStr _ => True | _ => False end) ->
  exists new, s_sent (ws_chat_send now uuid handleMessage subscribeEvents id params s).1 = s_sent s ++ new /\ exchange id new.
Proof.
  intros O T. unfold ws_chat_send. destruct (nullish _ _); try done. cbv zeta. unfold sendWsResponse, sendWsEvent.
  destruct (negb _); [sends; eauto with t560|]. destruct (isHeartbeatCheckMessage _); [sends; eauto with t560|].
  match goal with |- context [handleMessage ?i ?w] => destruct (handleMessage i w) as [w' r] end. sends. eexists. split; [reflexivity|]. apply Chatted, payload_spoken.
Qed.

(** an open socket answers every request the server understands: first one
    response with the request's id, then, when text is sent, [chat.sending], at most
    one message of the assistant that is never blank, and [chat.done], which is
    always the last, whatever the handler of messages does. *)
Theorem requests_answered frame (s : socket V) :
  request_frame frame -> cl_open (s_client s) = true ->
  exists new, s_sent (handle frame s).1 = s_sent s ++ new /\ exchange (get_prop "id" frame) new.
Proof.
  intros [T M I X] O. unfold handleWsMessage. destruct frame as [| | | | | |ps]; try discriminate T.
  rewrite T, M, I. cbn [is_str negb orb String.eqb Ascii.eqb Bool.eqb].
  destruct (is_str "connect" _).
  { unfold ws_connect, sendWsResponse. destruct (readOnboardingStatus _ _ _ _) as [[status d]|]; cbv zeta; sends; eauto with t560. }
  destruct (is_str "chat.send" _) eqn:S.
  { apply is_str_true in S. by apply send_exchange, X. }
  destruct (is_str "chat.history" _).
  { unfold ws_chat_history, sendWsResponse. cbv zeta. sends. eauto with t560. }
  destruct (is_str "chat.inject" _).
  { unfold ws_chat_inject, sendWsResponse, sendWsEvent. cbv zeta. destruct (truthy (text_of _)) eqn:E; cbn [negb fst]; [|sends; eauto with t560].
    sends. eexists. split; [reflexivity|]. apply Injected. split; [done|]. eexists. split; [reflexivity|].
    split; [apply trim_idemp|by apply truthy_true]. }
  destruct (is_str "chat.abort" _); cbn [fst]; unfold sendWsResponse, sendWsEvent; sends; eauto with t560.
Qed.

(** ** Injected messages *)

Lemma injected_plain m : truthy m = true ->
  is_result (injected_message now m) = false /\ isProviderErrorAssistantStub (injected_message now m) = false /\
  repaired_message (injected_message now m) = Some (injected_message now m) /\ expects (injected_message now m) = [].
Proof. intros T. split_and!; reflexivity. Qed.

(** The last message stays the last when a transcript is cleaned, if it calls no tool. *)
Lemma anchored_last ids pre m post :
  is_result m = false -> is_role "assistant" m = true -> expects m = [] -> anchored ids (pre ++ m :: post) ->
  Forall (fun x => is_result x = true) post -> post = [].
Proof.
  intros R A E. revert ids. induction pre as [|x pre IH]; intros ids; cbn [app anchored].
  - rewrite R, A, E. destruct post as [|y post]; [done|]. intros K F. apply Forall_cons in F as [Y _]. cbn [anchored] in K.
    rewrite Y in K. destruct K as [(i & _ & []%elem_of_nil) _].
  - destruct (is_result x); [intros [_ K]; by eapply IH|]. destruct (is_role "assistant" x); by apply IH.
Qed.
Lemma filter_last {A} (p : A -> bool) l k x : List.filter p l = k ++ [x] ->
  exists pre post, l = pre ++ x :: post /\ Forall (fun y => p y = false) post.
Proof.
  revert k. induction l as [|y l IH]; intros k; cbn [List.filter]; [by destruct k|].
  destruct (p y) eqn:P.
  - destruct k as [|z k].
    + intros [= -> E]. exists [], l. split; [done|]. clear IH P. induction l as [|z l IH]; [done|]. cbn in E.
      destruct (p z) eqn:Z; [done|]. constructor; auto.
    + intros [= <- E]. destruct (IH _ E) as (pre & post & -> & F). by exists (y :: pre), post.
  - intros E. destruct (IH _ E) as (pre & post & -> & F). by exists (y :: pre), post.
Qed.
Lemma sanitize_last l m : truthy m = true ->
  exists l', sanitizeSessionTranscript (l ++ [injected_message now m]) = l' ++ [injected_message now m].
Proof.
  intros T. destruct (injected_plain m T) as (R & S & P & E). unfold sanitizeSessionTranscript.
  rewrite List.filter_app. cbn [List.filter]. rewrite S. cbn [negb]. rewrite repairToolCallInputs_omap, omap_app. cbn [omap list_omap].
  rewrite P. destruct (repair_report no_clock false (omap repaired_message (List.filter (fun m => negb (isProviderErrorAssistantStub m)) l) ++
    [injected_message now m])) as (F & A & _). rewrite anchored_drop_while by done. revert F A.
  generalize (messages (repairToolUseResultPairing no_clock false
    (omap repaired_message (List.filter (fun m => negb (isProviderErrorAssistantStub m)) l) ++ [injected_message now m]))) as out.
  intros out F A. rewrite List.filter_app in F. cbn [List.filter] in F. unfold other at 3 in F. rewrite R in F. cbn [negb] in F.
  apply filter_last in F as (pre & post & -> & F). exists pre.
  apply anchored_last in A; [by rewrite A|done|done|done|]. eapply Forall_impl; [exact F|]. intros x. cbn. unfold other. by destruct (is_result x).
Qed.
Lemma persisted_last l m : truthy m = true -> exists l', persisted (l ++ [injected_message now m]) = l' ++ [injected_message now m].
Proof.
  intros T. unfold persisted. cbv zeta. destruct (sanitize_last l m T) as [k ->]. destruct (_ <? _)%nat eqn:L; [|by apply sanitize_last].
  rewrite skipn_app. rewrite length_app in *. cbn [length] in *. apply Nat.ltb_lt in L.
  replace (length k + 1 - MAX_SESSION_MESSAGES - length k) with 0 by (unfold MAX_SESSION_MESSAGES; lia).
  by apply sanitize_last.
Qed.
Lemma image_injected m : json_image (injected_message now m) = injected_message now m.
Proof. reflexivity. Qed.
Lemma load_injected dir id l m disk : truthy m = true ->
  exists l', loadSessionMessages dir id (saveSessionMessages dir id (l ++ [injected_message now m]) disk) = l' ++ [injected_message now m].
Proof.
  intros T. unfold loadSessionMessages, saveSessionMessages. rewrite mget_mset_eq. destruct (persisted_last l m T) as [k ->].
  rewrite json_image_arr, map_app. cbn [map coerceMessageArray]. rewrite image_injected, List.filter_app.
  change (List.filter _ [injected_message now m]) with [injected_message now m]. by apply sanitize_last.
Qed.
Lemma skipn_last {A} n (l : list A) x : n <= length l -> exists k, skipn n (l ++ [x]) = k ++ [x].
Proof. intros L. rewrite skipn_app. replace (n - length l) with 0 by lia. by eexists. Qed.
Lemma history_limit_pos v : 1 <= normalizeHistoryLimit v.
Proof. unfold normalizeHistoryLimit. destruct (to_number v); lia. Qed.

(** a message that is injected is the last of the history that is read next,
    said by the assistant, whatever limit is asked for and however long the history
    was. *)
Theorem injected_shown id params (s : socket V) limit :
  let s' := ws_chat_inject env pcwd home now uuid subscribeEvents id params s in
  let m := text_of (get_prop "message" params) in
  truthy m = true ->
  exists before shown,
    readWebchatHistory env pcwd home now uuid (cl_sessionKey (s_client s')) (normalizeHistoryLimit limit) (s_world s') = before ++ [shown] /\
    get_prop "role" shown = VStr "assistant" /\ get_prop "message" shown = VStr m.
Proof.
  cbv zeta. unfold ws_chat_inject. cbv zeta. set (m := text_of _). intros T. rewrite T. cbn [negb].
  unfold sendWsEvent, sendWsResponse. rewrite !sent_client, !sent_world. set (s1 := switch_session _ _ _).
  unfold readWebchatHistory. cbv zeta. cbn [w_sessions set_sessions s_client s_world].
  destruct (load_injected stateDir (webchat_id (cl_sessionKey (s_client s1)))
    (loadSessionMessages stateDir (webchat_id (cl_sessionKey (s_client s1))) (w_sessions (s_world s1))) m (w_sessions (s_world s1)) T) as [l ->].
  rewrite List.filter_app. change (List.filter chat_role [injected_message now m]) with [injected_message now m].
  set (k := List.filter chat_role l). pose proof (history_limit_pos limit) as P. generalize dependent (normalizeHistoryLimit limit). intros n P.
  assert (exists k', (if (n <? length (k ++ [injected_message now m]))%nat
     then skipn (length (k ++ [injected_message now m]) - n) (k ++ [injected_message now m]) else k ++ [injected_message now m]) =
     k' ++ [injected_message now m]) as [k' ->].
  { destruct (_ <? _)%nat; [|by eexists]. apply skipn_last. rewrite length_app. cbn [length]. lia. }
  rewrite imap_app, List.filter_app, map_app. cbn [imap].
  assert (trim m = m) as Tm by apply trim_idemp.
  assert (forall i, (history_entry now uuid i (injected_message now m)).2 = m) as E2.
  { intros i. unfold history_entry. cbv zeta. cbn [snd]. change (trim (trim (join lf (List.filter truthy [m]))) = m).
    cbn [List.filter]. rewrite T. cbn [join]. change (trim (trim m) = m). by rewrite !Tm. }
  cbn [List.filter]. unfold compose. rewrite E2, Tm. apply truthy_slen, Nat.ltb_lt in T. rewrite T. cbn [map].
  eexists _, _. split; [reflexivity|]. split; [done|]. cbn [fst]. specialize (E2 (length k' + 0)). unfold history_entry in *. cbv zeta in *.
  cbn [fst snd] in *. rewrite E2. done.
Qed.
End Facts.

(** ** Examples *)

Definition chatty (input : GatewayInboundMessage) : web unit ChatResponse := throw "the model is gone".
Definition socket0 : socket unit := mkSocket (mkWorld [] [] tt [] [] []) (mkClient true (VStr "k") None) [].
Definition frame_of (method : string) (params : value) : value :=
  VObj [("type", VStr "req"); ("id", VStr "1"); ("method", VStr method); ("params", params)].
Definition run_frame (frame : value) (s : socket unit) : socket unit :=
  (handleWsMessage [] "/" "/home/u" 0 (fun _ => "id") chatty true frame s).1.

Lemma requests_answered_witness :
  exists new, s_sent (run_frame (frame_of "chat.send" (VObj [("message", VStr "hi")])) socket0) = s_sent socket0 ++ new /\
    exchange (VStr "1") new /\ length new = 4.
Proof.
  destruct (requests_answered [] "/" "/home/u" 0 (fun _ => "id") chatty true (frame_of "chat.send" (VObj [("message", VStr "hi")])) socket0)
    as (new & E & X).
  - split; reflexivity.
  - reflexivity.
  - exists new. split; [exact E|]. split; [exact X|]. apply (f_equal length) in E. vm_compute in E. cbn in E. by symmetry.
Defined.
Lemma injected_shown_witness :
  exists before shown,
    readWebchatHistory [] "/" "/home/u" 0 (fun _ => "id") (VStr "k") (normalizeHistoryLimit VUndef)
      (s_world (ws_chat_inject [] "/" "/home/u" 0 (fun _ => "id") true (VStr "1") (VObj [("message", VStr " note ")]) socket0)) = before ++ [shown] /\
    get_prop "message" shown = VStr "note".
Proof.
  destruct (injected_shown [] "/" "/home/u" 0 (fun _ => "id") true (VStr "1") (VObj [("message", VStr " note ")]) socket0 VUndef eq_refl)
    as (before & shown & E & _ & M).
  exists before, shown. split; [exact E|exact M].
Defined.
(** A request whose text is not a text is never answered, though the caller says
    that the error was handled. *)
Example text_not_answered :
  s_sent (run_frame (frame_of "chat.send" (VObj [("message", VNum (NInt 5))])) socket0) = [].
Proof. vm_compute. reflexivity. Qed.
