(* ===== verification/DashboardStart.v ===== *)
(** * Starting the dashboard

    [src/src/network/tailscale.ts] and the start of [src/src/web/dashboard.ts]: the
    port and the host the server listens on, the address in the private network, and
    the build of the web interface.  Commands and the operating system's [listen] are
    arguments. *)

From stdpp Require Import base list sets strings pretty.
From Stdlib Require Import Ascii Lia ZArith.
From S2P Require Import Prelude JsString JsMap JsValue JsRegexExec NodePath Config DashboardInput Dashboard.
#[local] Open Scope nat_scope.

(** ** The private network *)

Record TailscaleStatus := mkTailscale { ts_ip : option string; ts_error : option string }.

Definition is_ipv4 (line : string) : bool := test (re_ "^\d{1,3}(?:\.\d{1,3}){3}$") line.
Definition parseFirstIpv4 (v : string) : option string :=
  let lines := List.filter truthy (map trim (split_lines v)) in
  List.find (fun line => is_ipv4 line && negb (startsWith "127." line)) lines.

Section Start.
Variables (env : list (string * string)) (pcwd : string).
(** [spawnSync("tailscale", ["ip", "-4"])] *)
Variable tailscale : spawned.

Definition resolveTailscaleStatus : TailscaleStatus :=
  let first := trim (env_var env "T560_TAILSCALE_IP") in
  let envIp := if truthy first then first else trim (env_var env "TAILSCALE_IP") in
  if truthy envIp then mkTailscale (Some envIp) None
  else
    match sp_error tailscale with
    | Some _ => mkTailscale None (Some "Tailscale CLI not available.")
    | None =>
        match parseFirstIpv4 (default "" (sp_stdout tailscale)) with
        | Some ip => mkTailscale (Some ip) None
        | None =>
            let stderr := trim (default "" (sp_stderr tailscale)) in
            mkTailscale None (Some (if truthy stderr then stderr else "Tailscale is not connected."))
        end
    end.

(** ** Listening *)

(** [server.listen(port, host)]: the port, or the code and the message of the error. *)
Variable listen : num -> string -> num + (string * string).

Definition startListening (preferredPort : num) (host : string) : result num :=
  match listen preferredPort host with
  | inl port => Ok port
  | inr (code, msg) =>
      if negb (code =? "EADDRINUSE")%string then Throw msg
      else match listen (NInt 0) host with inl port => Ok port | inr (_, msg) => Throw msg end
  end.

(** ** The web interface *)

Variable dirname : string.
(** [spawnSync(cmd, args, { cwd })]: what it does to the files, and whether the status is 0 *)
Variable run : string -> list string -> string -> disk -> disk * bool.

Definition ensureControlUiBuilt (d : disk) : disk * (option string * bool) :=
  match resolveUiRoot dirname pcwd d with
  | Some root => (d, (Some root, false))
  | None =>
      if bool_decide (mget "T560_AUTO_BUILD_UI" env = Some "0") then (d, (None, false))
      else
        let uiDir := join2 (resolveProjectRootFromDashboardFile dirname pcwd d) "ui" in
        if negb (fileExists pcwd (join2 uiDir "package.json") d) then (d, (None, false))
        else
          let '(d, installed) :=
            if fileExists pcwd (join2 uiDir "node_modules") d then (d, true) else run "npm" ["install"] uiDir d in
          if negb installed then (d, (None, true))
          else
            let '(d, built) := run "npm" ["run"; "build"] uiDir d in
            if negb built then (d, (None, true)) else (d, (resolveUiRoot dirname pcwd d, true))
  end.

Record DashboardServer := mkServer {
  ds_port : num; ds_url : string; ds_localUrl : string; ds_tailscaleUrl : option string; ds_bindHost : string; ds_uiRoot : option string }.

Definition startDashboardServer (d : disk) : disk * result DashboardServer :=
  let preferredPort := parsePort (mget "T560_WEB_PORT" env) in
  let bindHost := parseBindHost (mget "T560_WEB_HOST" env) in
  let '(d, (uiRoot, _)) := ensureControlUiBuilt d in
  (d,
   let? port := startListening preferredPort bindHost in
   let localUrl := "http://127.0.0.1:" +:+ num_to_string port in
   let loopbackOnly := bool_decide (bindHost ∈ ["127.0.0.1"; "localhost"; "::1"]) in
   let tailscaleUrl :=
     match ts_ip resolveTailscaleStatus with
     | Some ip => if negb loopbackOnly && truthy ip then Some ("http://" +:+ ip +:+ ":" +:+ num_to_string port) else None
     | None => None
     end in
   Ok (mkServer port localUrl localUrl tailscaleUrl bindHost uiRoot)).
End Start.

(** ** Properties *)

Lemma parsePort_range raw : isInteger (parsePort raw) = true /\ num_lt (parsePort raw) (NInt 1) = false /\ num_lt (NInt 65535) (parsePort raw) = false.
Proof.
  unfold parsePort. destruct raw as [s|]; [|by vm_compute]. destruct (negb (truthy s)); [by vm_compute|].
  destruct (_ || _ || _) eqn:E; [by vm_compute|]. bool_prop. by split_and!.
Qed.
Lemma parseFirstIpv4_ok v ip : parseFirstIpv4 v = Some ip ->
  is_ipv4 ip = true /\ startsWith "127." ip = false /\ ip <> "" /\ exists line, In line (split_lines v) /\ ip = trim line.
Proof.
  unfold parseFirstIpv4. intros [I E]%List.find_some. bool_prop. apply filter_In in I as [I T].
  apply in_map_iff in I as (line & <- & I). split_and!; [done|done|by apply truthy_true|eauto].
Qed.

(** the server listens on the port of the environment if that is a number from 1
    to 65535, and otherwise on 5600; on another port only when this one is taken.
    It offers an address in the private network only when it does not listen on the
    loopback interface alone, and one that the command printed is an IPv4 address
    that is not a loopback one. *)
Theorem server_addresses env pcwd tailscale listen dirname run d d' server :
  startDashboardServer env pcwd tailscale listen dirname run d = (d', Ok server) ->
  let preferred := parsePort (mget "T560_WEB_PORT" env) in
  isInteger preferred = true /\ num_lt preferred (NInt 1) = false /\ num_lt (NInt 65535) preferred = false /\
  (listen preferred (ds_bindHost server) = inl (ds_port server) \/
   exists msg, listen preferred (ds_bindHost server) = inr ("EADDRINUSE", msg) /\ listen (NInt 0) (ds_bindHost server) = inl (ds_port server)) /\
  forall url, ds_tailscaleUrl server = Some url ->
    ~ ds_bindHost server ∈ ["127.0.0.1"; "localhost"; "::1"] /\
    exists ip, url = "http://" +:+ ip +:+ ":" +:+ num_to_string (ds_port server) /\
      (trim (env_var env "T560_TAILSCALE_IP") = "" -> trim (env_var env "TAILSCALE_IP") = "" ->
       is_ipv4 ip = true /\ startsWith "127." ip = false).
Proof.
  unfold startDashboardServer. cbv zeta. destruct (ensureControlUiBuilt _ _ _ _ _) as [d1 [uiRoot b]].
  intros [= _ E]. apply rbind_ok_inv in E as (port & L & [= <-]). cbn [ds_port ds_bindHost ds_tailscaleUrl].
  destruct (parsePort_range (mget "T560_WEB_PORT" env)) as (P1 & P2 & P3). split_and!; [done|done|done| |].
  - unfold startListening in L. destruct (listen _ _) as [p|[c m]]; [injection L as <-; by left|right].
    destruct (negb (c =? "EADDRINUSE")%string) eqn:C; [done|]. bool_prop. subst c. exists m. split; [done|].
    destruct (listen (NInt 0) _) as [p|[c m']]; [by injection L as <-|done].
  - intros url. destruct (ts_ip _) as [ip|] eqn:T; [|done]. destruct (negb _ && truthy ip) eqn:B; [|done]. intros [= <-].
    bool_prop. split; [done|]. exists ip. split; [done|]. intros E1 E2. revert T. unfold resolveTailscaleStatus. cbv zeta.
    rewrite E1, E2. change (truthy "") with false. cbn iota. destruct (sp_error tailscale); [done|].
    destruct (parseFirstIpv4 _) as [x|] eqn:F; [|done]. intros [= ->]. by destruct (parseFirstIpv4_ok _ _ F) as (? & ? & _).
Qed.

Definition taken (p : num) (_ : string) : num + (string * string) :=
  if num_eq p (NInt 5600) then inr ("EADDRINUSE", "in use") else inl (NInt 40123).
Definition tailscale_says (out : string) : spawned := mkSpawned None (Some 0%Z) (Some out) None.
Lemma server_addresses_witness :
  exists server, startDashboardServer [] "/" (tailscale_says "100.64.0.7") taken "/app/dist/web" (fun _ _ _ d => (d, false)) [] = ([], Ok server) /\
    ds_port server = NInt 40123 /\ exists ip, Some ("http://" +:+ ip +:+ ":40123") = ds_tailscaleUrl server /\ is_ipv4 ip = true.
Proof.
  eexists. split; [vm_compute; reflexivity|]. split; [reflexivity|].
  destruct (server_addresses [] "/" (tailscale_says "100.64.0.7") taken "/app/dist/web" (fun _ _ _ d => (d, false)) [] [] _ ltac:(vm_compute; reflexivity))
    as (_ & _ & _ & _ & K).
  destruct (K _ eq_refl) as (_ & ip & E & I). exists ip. split; [by rewrite E|]. by apply I.
Defined.
(** Without a setting the server listens on every interface. *)
Example listens_everywhere : parseBindHost None = "0.0.0.0".
Proof. reflexivity. Qed.
