(* ===== verification/BrowserPage.v ===== *)
(** * Browser tool: pages

    src/src/agents/tools/browser-tool.ts, the part that reads a page without a
    browser engine: the arguments of a call, addresses, links, forms, cookies and
    the request behind a snapshot.

    The URL parser, [Date.parse], the decoding of UTF-8 and the network are
    arguments.  An answer of the network comes with the time it took; the timeout
    travels with the request, and an aborted request is an error. *)

From stdpp Require Import base list sets strings pretty.
From Stdlib Require Import ZArith Ascii Lia.
From S2P Require Import Prelude JsString JsMap JsValue JsRegex JsRegexExec MemoryStore WebSearch WebTools.
#[local] Open Scope nat_scope.

(** ** Data *)

Record BrowserLink := mkLink { l_index : Z; l_text : string; l_url : string }.
Record BrowserFormField := mkField { fd_name : string; fd_type : string; fd_value : string; fd_required : bool }.
Inductive form_method := m_get | m_post.
#[export] Instance form_method_eq : EqDecision form_method.
Proof. solve_decision. Defined.
Record BrowserForm := mkForm { fm_index : nat; fm_method : form_method; fm_action : string; fm_fields : list BrowserFormField }.
Inductive ref_kind := k_link | k_form | k_field | k_submit | k_button.
#[export] Instance ref_kind_eq : EqDecision ref_kind.
Proof. solve_decision. Defined.
Record BrowserElementRef := mkRef {
  rf_ref : string; rf_kind : ref_kind; rf_role : string; rf_name : string; rf_url : option string; rf_formIndex : option nat;
  rf_fieldName : option string; rf_method : option form_method; rf_selector : option string }.
Record BrowserSnapshot := mkSnapshot {
  sn_capturedAt : Z; sn_url : string; sn_title : string; sn_status : Z; sn_ok : bool; sn_contentType : string; sn_truncated : bool;
  sn_bytes : nat; sn_text : string; sn_links : list BrowserLink; sn_refs : list BrowserElementRef }.
Record BrowserFetchResult := mkFetchResult { fr_snapshot : BrowserSnapshot; fr_html : string; fr_setCookies : list string }.

Definition DEFAULT_TIMEOUT_MS : Z := 20000.
Definition DEFAULT_MAX_BYTES : Z := 300000.
Definition DEFAULT_MAX_CHARS : Z := 12000.
Definition DEFAULT_MAX_LINKS : Z := 40.
Definition DEFAULT_SEARCH_COUNT : Z := 8.
Definition DEFAULT_SCREENSHOT_WIDTH : Z := 1440.
Definition DEFAULT_SCREENSHOT_HEIGHT : Z := 900.
Definition DEFAULT_WAIT_MS : Z := 1200.
Definition DEFAULT_ACTION_MAX_RETRIES : Z := 1.

(** ** The arguments of a call *)

Inductive engine_mode := e_auto | e_fetch | e_live.
#[export] Instance engine_mode_eq : EqDecision engine_mode.
Proof. solve_decision. Defined.
Definition engine_name (e : engine_mode) : string := match e with e_auto => "auto" | e_fetch => "fetch" | e_live => "live" end.
Definition normalizeEngineParam (v : value) : result engine_mode :=
  let raw := toLowerCase (trim (to_string (nullish v (VStr "auto")))) in
  if negb (truthy raw) || (raw =? "auto")%string then Ok e_auto
  else if (raw =? "fetch")%string then Ok e_fetch
  else if (raw =? "live")%string then Ok e_live
  else Throw "engine must be one of: auto|fetch|live".
(** [v !== false] and [v === true] *)
Definition not_false (v : value) : bool := match v with VBool false => false | _ => true end.
Definition is_true (v : value) : bool := match v with VBool true => true | _ => false end.
Definition shouldAllowEngineFallback (params : value) : bool := not_false (get_prop "allowEngineFallback" params).

Definition is_undef (v : value) : bool := match v with VUndef => true | _ => false end.
(** [if (params.k === undefined && v !== undefined) params.k = v] *)
Definition fill_in (k : string) (v : value) (params : value) : value :=
  if is_undef (get_prop k params) && negb (is_undef v) then with_prop k v params else params.
(** An alias counts when its text is not blank, and gives that text. *)
Definition text_alias (params : value) (kd : string * string) : value :=
  let given := text_of (get_prop kd.2 params) in
  if truthy given && is_undef (get_prop kd.1 params) then with_prop kd.1 (VStr given) params else params.
Definition own_aliases : list (string * string) :=
  [("networkIdle", "network_idle"); ("networkIdleTimeoutMs", "network_idle_timeout_ms"); ("networkIdleTimeoutMs", "networkIdleTimeout");
   ("networkIdleTimeoutMs", "network_idle_timeout")].
(** The parameter and the property of [request] it is taken from, in order. *)
Definition request_aliases : list (string * string) :=
  [("target", "target"); ("node", "node"); ("profile", "profile"); ("kind", "kind"); ("tabId", "targetId"); ("url", "targetUrl");
   ("ref", "ref"); ("ref", "inputRef"); ("selector", "selector"); ("selector", "element"); ("button", "button");
   ("doubleClick", "doubleClick"); ("modifiers", "modifiers"); ("value", "text"); ("submit", "submit"); ("slowly", "slowly");
   ("key", "key"); ("startRef", "startRef"); ("endRef", "endRef"); ("values", "values"); ("fields", "fields");
   ("formIndex", "formIndex"); ("fieldName", "fieldName"); ("value", "value"); ("path", "path"); ("paths", "paths");
   ("linkIndex", "linkIndex"); ("width", "width"); ("height", "height"); ("timeMs", "timeMs");
   ("allowEngineFallback", "allowEngineFallback"); ("maxRetries", "maxRetries"); ("expression", "fn"); ("accept", "accept");
   ("once", "once"); ("promptText", "promptText"); ("format", "format"); ("printBackground", "printBackground");
   ("deltaX", "deltaX"); ("deltaY", "deltaY"); ("toTop", "toTop"); ("toBottom", "toBottom"); ("waitForSelector", "waitForSelector");
   ("networkIdle", "networkIdle"); ("networkIdle", "network_idle"); ("networkIdleTimeoutMs", "networkIdleTimeoutMs");
   ("networkIdleTimeoutMs", "network_idle_timeout_ms"); ("networkIdleTimeoutMs", "networkIdleTimeout");
   ("networkIdleTimeoutMs", "network_idle_timeout"); ("waitForRequestUrl", "waitForRequestUrl");
   ("waitForRequestMethod", "waitForRequestMethod"); ("waitForStatus", "waitForStatus");
   ("waitForRequestBodyIncludes", "waitForRequestBodyIncludes"); ("waitForResponseBodyIncludes", "waitForResponseBodyIncludes");
   ("urlContains", "urlContains"); ("state", "state"); ("clear", "clear"); ("level", "level"); ("limit", "limit")].
Definition normalizeBrowserActionParams (input : value) : value :=
  let params := fold_left text_alias [("tabId", "targetId"); ("url", "targetUrl"); ("selector", "element"); ("ref", "inputRef")] input in
  let params := fold_left (fun p kd => fill_in kd.1 (get_prop kd.2 p) p) own_aliases params in
  match get_prop "request" params with
  | VObj rs =>
      let req := VObj rs in
      let params := fold_left (fun p kd => fill_in kd.1 (get_prop kd.2 req) p) request_aliases params in
      let params := if (toLowerCase (text_of (get_prop "kind" req)) =? "wait")%string
                    then fill_in "waitForText" (get_prop "text" req) params else params in
      fill_in "textGone" (get_prop "textGone" req) params
  | _ => params
  end.

(** ** Addresses *)

(** A parsed URL; [u_append] is [toString] after [searchParams.append] of these. *)
Record page_url := mkPageUrl { u_protocol : string; u_hostname : string; u_href : string; u_append : list (string * string) -> string }.

Section Page.
(** [new URL(s)], [new URL(s, base)] *)
Variable URL : string -> option string -> option page_url.

(** [baseUrl ? new URL(raw, baseUrl) : new URL(raw)] *)
Definition given_base (base : option string) : option string :=
  match base with Some b => if truthy b then Some b else None | None => None end.
Definition normalizeHttpUrl (v : value) (base : option string) : result string :=
  let raw := text_of v in
  if negb (truthy raw) then Throw "url is required."
  else match URL raw (given_base base) with
       | None => Throw "invalid url."
       | Some parsed => if is_http (u_protocol parsed) then Ok (u_href parsed) else Throw "only http(s) URLs are supported."
       end.
Definition summarizeTitleFromUrl (url : string) : string :=
  match URL url None with Some parsed => if truthy (u_hostname parsed) then u_hostname parsed else url | None => url end.

(** ** HTML *)

Definition TITLE : rx := re_i "<title[^>]*>([\s\S]*?)</title>".
Definition extractHtmlTitle (html : string) : string :=
  match capture 1 TITLE html with
  | Some t => if truthy t then squeeze (decodeHtmlEntities t) else ""
  | None => ""
  end.
Definition trimText (text : string) (maxChars : nat) : string :=
  if slen text <=? maxChars then text else slice_to maxChars text +:+ truncation_note.
(** The text of a piece of markup. *)
Definition inner_text (html : string) : string := squeeze (decodeHtmlEntities (replace_with (re_ "<[^>]+>") " " html)).

Definition LINK : rx :=
  re_i ("<a\b([^>]*?)href\s*=\s*(?:" +:+ dq +:+ "([^" +:+ dq +:+ "]+)" +:+ dq +:+ "|'([^']+)'|([^\s" +:+ dq +:+ "'<>`]+))([^>]*)>([\s\S]*?)</a>").
(** [match[2] ?? match[3] ?? match[4] ?? ""]: at most one of the groups took part. *)
Definition one_group (ns : list nat) (m : found) : string := join "" (map (fun n => group n m) ns).
Definition link_step (pageUrl : string) (m : found) (st : list BrowserLink * list string) : list BrowserLink * list string :=
  let '(out, seen) := st in
  let href := trim (one_group [2; 3; 4] m) in
  if negb (truthy href) then st
  else match normalizeHttpUrl (VStr href) (Some pageUrl) with
       | Throw _ => st
       | Ok resolved =>
           if bool_decide (resolved ∈ seen) then st
           else
             let text := inner_text (group 6 m) in
             (if slen text <? 2 then out else out ++ [mkLink (Z.of_nat (S (length out))) text resolved], resolved :: seen)
       end.
Definition extractLinks (html pageUrl : string) (maxLinks : nat) : list BrowserLink :=
  (fold_left (fun st m => if length st.1 <? maxLinks then link_step pageUrl m st else st) (matchAll LINK html) ([], [])).1.

(** ** Forms *)

Definition ATTRIBUTE : rx :=
  let word := "[^\s" +:+ dq +:+ "'=<>`]+" in
  re_ ("(" +:+ word +:+ ")(?:\s*=\s*(?:" +:+ dq +:+ "([^" +:+ dq +:+ "]*)" +:+ dq +:+ "|'([^']*)'|(" +:+ word +:+ ")))?").
Definition parseHtmlAttributes (raw : string) : list (string * string) :=
  fold_left (fun attrs m =>
      let key := toLowerCase (trim (group 1 m)) in
      if truthy key then assign key (one_group [2; 3; 4] m) attrs else attrs)
    (matchAll ATTRIBUTE raw) [].
(** [attrs.k ?? d] *)
Definition attr (k d : string) (attrs : list (string * string)) : string := default d (mget k attrs).

Definition OPTION : rx := re_i "<option\b([^>]*)>([\s\S]*?)</option>".
Fixpoint select_value (options : list found) (fallback : string) : string :=
  match options with
  | [] => fallback
  | m :: rest =>
      let attrs := parseHtmlAttributes (group 1 m) in
      let value := attr "value" (inner_text (group 2 m)) attrs in
      if mhas "selected" attrs then value else select_value rest (if truthy fallback then fallback else value)
  end.
Definition parseSelectValue (selectHtml : string) : string := select_value (matchAll OPTION selectHtml) "".

Definition INPUT : rx := re_i "<input\b([^>]*)/?>".
Definition TEXTAREA : rx := re_i "<textarea\b([^>]*)>([\s\S]*?)</textarea>".
Definition SELECT : rx := re_i "<select\b([^>]*)>([\s\S]*?)</select>".
Definition not_a_value : list string := ["submit"; "button"; "image"; "reset"; "file"].
Definition input_field (m : found) : option BrowserFormField :=
  let attrs := parseHtmlAttributes (group 1 m) in
  let name := trim (attr "name" "" attrs) in
  if negb (truthy name) then None
  else
    let given := toLowerCase (trim (attr "type" "text" attrs)) in
    let type := if truthy given then given else "text" in
    if bool_decide (type ∈ not_a_value) then None else Some (mkField name type (attr "value" "" attrs) (mhas "required" attrs)).
Definition block_field (type : string) (contents : string -> string) (m : found) : option BrowserFormField :=
  let attrs := parseHtmlAttributes (group 1 m) in
  let name := trim (attr "name" "" attrs) in
  if negb (truthy name) then None else Some (mkField name type (contents (group 2 m)) (mhas "required" attrs)).
Definition parseFormFields (formHtml : string) : list BrowserFormField :=
  omap input_field (matchAll INPUT formHtml)
  ++ omap (block_field "textarea" decodeHtmlEntities) (matchAll TEXTAREA formHtml)
  ++ omap (block_field "select" parseSelectValue) (matchAll SELECT formHtml).

Definition FORM : rx := re_i "<form\b([^>]*)>([\s\S]*?)</form>".
Definition parse_form (pageUrl : string) (i : nat) (m : found) : BrowserForm :=
  let attrs := parseHtmlAttributes (group 1 m) in
  let method := if (toLowerCase (trim (attr "method" "get" attrs)) =? "post")%string then m_post else m_get in
  let given := attr "action" "" attrs in
  let action := match normalizeHttpUrl (VStr (if truthy given then given else pageUrl)) (Some pageUrl) with Ok a => a | Throw _ => pageUrl end in
  mkForm (S i) method action (parseFormFields (group 2 m)).
Definition parseForms (html pageUrl : string) : list BrowserForm := imap (parse_form pageUrl) (matchAll FORM html).
Definition default_row (form : BrowserForm) : list (string * string) :=
  fold_left (fun row f => assign (fd_name f) (fd_value f) row) (fm_fields form) [].
Definition buildDefaultFormValues (forms : list BrowserForm) : list (nat * list (string * string)) :=
  fold_left (fun values form => mset (fm_index form) (default_row form) values) forms [].

(** ** Cookies *)

Definition EXPIRES : list ascii := chars "expires=".
(** The loop over the characters; [skip] of them were read ahead, [cur] is what the
    current part has so far, last character first. *)
Fixpoint split_cookies (l cur : list ascii) (inExpires : bool) (skip : nat) : list (list ascii) :=
  match l with
  | [] => [rev cur]
  | c :: l' =>
      match skip with
      | S k => split_cookies l' (c :: cur) inExpires k
      | 0 =>
          if negb inExpires && bool_decide (map lower_char (firstn 8 l) = EXPIRES) then split_cookies l' (c :: cur) true 7
          else
            let inside := inExpires && negb (is_char ";" c) in
            if negb inside && is_char "," c then rev cur :: split_cookies l' [] inside 0
            else split_cookies l' (c :: cur) inside 0
      end
  end.
Definition splitSetCookieHeader (header : string) : list string :=
  List.filter truthy (map (fun l => trim (of_chars l)) (split_cookies (chars (trim header)) [] false 0)).

(** What the headers of an answer say of cookies: the result of [getSetCookie], of
    [raw()["set-cookie"]], and of [get("set-cookie")], where there are such. *)
Record cookie_headers := mkCookieHeaders {
  ch_getSetCookie : option (list string); ch_raw : option (option (list string)); ch_combined : option string }.
Definition readSetCookieHeaders (h : cookie_headers) : list string :=
  let keep := List.filter (fun v => truthy (trim v)) in
  let combined := match ch_combined h with Some c => if truthy c then splitSetCookieHeader c else [] | None => [] end in
  match ch_getSetCookie h with
  | Some values => keep values
  | None => match ch_raw h with Some (Some values) => keep values | _ => combined end
  end.

Variable Date_parse : string -> option Z.
(** One attribute of a cookie: does it say that the cookie is over? *)
Definition expired (now : Z) (attribute : string) : bool :=
  let parts := split_char "=" (trim attribute) in
  let key := toLowerCase (trim (default "" (head parts))) in
  let valuePart := trim (default "" (parts !! 1)) in
  if (key =? "max-age")%string then
    let maxAge := num_of_string valuePart in isFinite maxAge && negb (num_lt (NInt 0) maxAge)
  else if (key =? "expires")%string then
    match Date_parse valuePart with Some expiresAt => (expiresAt <=? now)%Z | None => false end
  else false.
Definition upsert_cookie (now : Z) (cookies : list (string * string)) (raw : string) : list (string * string) :=
  let parts := split_char ";" raw in
  let pair := default "" (head parts) in
  match indexOf "=" pair with
  | None | Some 0 => cookies
  | Some eq =>
      let name := trim (slice_to eq pair) in
      let value := trim (slice_from (S eq) pair) in
      if negb (truthy name) then cookies
      else if existsb (expired now) (tail parts) then mdelete name cookies
      else assign name value cookies
  end.
Definition upsertTabCookies (now : Z) (setCookies : list string) (cookies : list (string * string)) : list (string * string) :=
  fold_left (upsert_cookie now) setCookies cookies.

(** [Object.entries]: the names that are array indices come first, in their order. *)
Definition array_index (k : string) : option N :=
  match num_of_string k with
  | NFin m 0 => if (0 <=? m)%Z && (m <? 4294967295)%Z && (pretty m =? k)%string then Some (Z.to_N m) else None
  | _ => None
  end.
Definition own_entries {A} (m : list (string * A)) : list (string * A) :=
  let indexed := omap (fun e => option_map (fun n => (n, e)) (array_index e.1)) m in
  map snd (stable_sort (fun a b => (a.1 <? b.1)%N) indexed) ++ List.filter (fun e => bool_decide (array_index e.1 = None)) m.
Definition buildCookieHeader (cookies : list (string * string)) : string :=
  join "; " (map (fun e => e.1 +:+ "=" +:+ e.2) (own_entries cookies)).

(** ** The request *)

Record fetch_request := mkRequest {
  rq_url : string; rq_method : form_method; rq_headers : list (string * string); rq_body : option string; rq_timeoutMs : Z }.
Record fetch_answer := mkAnswer {
  an_url : string; an_status : Z; an_ok : bool; an_contentType : option string; an_cookies : cookie_headers; an_body : list ascii }.
Record fetch_limits := mkLimits { lm_timeoutMs : Z; lm_maxBytes : nat; lm_maxChars : nat; lm_maxLinks : nat }.
(** The method, the address and the body of a request that is not the page itself. *)
Record page_request := mkPageRequest { pr_method : form_method; pr_url : string; pr_body : option string }.

Definition ACCEPT : string := "text/html,application/xhtml+xml,text/plain;q=0.9,*/*;q=0.8".
Definition USER_AGENT : string := "Mozilla/5.0 (X11; Linux x86_64) AppleWebKit/537.36 (KHTML, like Gecko) t560-browser/1.0 Safari/537.36".
Definition snapshot_request (r : page_request) (timeoutMs : Z) (cookieHeader : string) : fetch_request :=
  let headers := [("Accept", ACCEPT); ("User-Agent", USER_AGENT)] in
  let headers := if truthy cookieHeader then headers ++ [("Cookie", cookieHeader)] else headers in
  match pr_method r with
  | m_get => mkRequest (pr_url r) m_get headers None timeoutMs
  | m_post => mkRequest (pr_url r) m_post (headers ++ [("Content-Type", "application/x-www-form-urlencoded")]) (Some (default "" (pr_body r))) timeoutMs
  end.

Variable from_utf8 : list ascii -> string.
(** What [fetchSnapshot] makes of the answer, read at the time [now]. *)
Definition read_answer (url : string) (lim : fetch_limits) (now : Z) (res : fetch_answer) : result BrowserFetchResult :=
  let contentType := default "" (an_contentType res) in
  let setCookies := readSetCookieHeaders (an_cookies res) in
  let truncated := lm_maxBytes lim <? length (an_body res) in
  let slice := firstn (lm_maxBytes lim) (an_body res) in
  let decoded := from_utf8 slice in
  let? finalUrl := normalizeHttpUrl (VStr (if truthy (an_url res) then an_url res else url)) None in
  let text := trimText (chooseReadableText contentType decoded) (lm_maxChars lim) in
  let title := extractHtmlTitle decoded in
  let links := if test (re_i "html|xml") contentType then extractLinks decoded finalUrl (lm_maxLinks lim) else [] in
  Ok (mkFetchResult
        (mkSnapshot now finalUrl (if truthy title then title else summarizeTitleFromUrl finalUrl) (an_status res) (an_ok res) contentType
           truncated (length slice) text links []) decoded setCookies).
End Page.

(** ** Facts *)

Section PageFacts.
Variable URL : string -> option string -> option page_url.
(** What holds of every address that [normalizeHttpUrl] gives. *)
Variable good : string -> Prop.
Definition normalized_good : Prop := forall v base u, normalizeHttpUrl URL v base = Ok u -> good u.
Hypothesis normalized : normalized_good.

Record links_made (st : list BrowserLink * list string) : Prop := {
  lm_indices : map l_index st.1 = map Z.of_nat (seq 1 (length st.1));
  lm_distinct : NoDup (map l_url st.1);
  lm_seen : forall u, u ∈ map l_url st.1 -> u ∈ st.2;
  lm_good : Forall (fun l => good (l_url l) /\ 2 <= slen (l_text l)) st.1 }.

Lemma link_step_cases pageUrl m out seen :
  link_step URL pageUrl m (out, seen) = (out, seen) \/
  exists u, good u /\ u ∉ seen /\
    (link_step URL pageUrl m (out, seen) = (out, u :: seen) \/
     exists text, 2 <= slen text /\ link_step URL pageUrl m (out, seen) = (out ++ [mkLink (Z.of_nat (S (length out))) text u], u :: seen)).
Proof using normalized.
  unfold link_step. generalize (inner_text (group 6 m)) (trim (one_group [2; 3; 4] m)). intros text href.
  case_goal; [by left|]. destruct (normalizeHttpUrl _ _ _) as [u|] eqn:N; [|by left]. case_bool_decide as U; [by left|]. right. exists u.
  split; [by eapply normalized|]. split; [done|]. destruct (slen text <? 2) eqn:T; [by left|]. right. exists text.
  apply Nat.ltb_ge in T. done.
Qed.
Lemma link_step_made pageUrl m st : links_made st -> links_made (link_step URL pageUrl m st) /\ length (link_step URL pageUrl m st).1 <= S (length st.1).
Proof using normalized.
  destruct st as [out seen]. intros [I D S G].
  destruct (link_step_cases pageUrl m out seen) as [-> | (u & Gu & Nu & [-> | (text & T & ->)])];
    cbn [fst snd] in *; rewrite ?length_app, ?map_app; cbn [length map l_url l_index]; split; try lia; split; cbn [fst snd]; try done.
  - set_solver.
  - rewrite length_app, map_app, I. cbn [length map l_index]. rewrite seq_app, map_app. f_equal.
  - rewrite map_app. cbn. apply NoDup_app. split; [done|]. split; [set_solver|apply NoDup_singleton].
  - rewrite map_app. set_solver.
  - rewrite Forall_app. split; [done|]. by repeat constructor.
Qed.
Lemma links_loop pageUrl maxLinks ms st :
  links_made st -> length st.1 <= maxLinks ->
  let st' := fold_left (fun st m => if length st.1 <? maxLinks then link_step URL pageUrl m st else st) ms st in
  links_made st' /\ length st'.1 <= maxLinks.
Proof using normalized.
  revert st. induction ms as [|m ms IH]; intros st M L; simpl; [done|]. destruct (length st.1 <? maxLinks) eqn:F; [|by apply IH].
  apply Nat.ltb_lt in F. destruct (link_step_made pageUrl m st M) as [M' L']. apply IH; [done|lia].
Qed.
Lemma links_extracted html pageUrl maxLinks :
  exists seen, links_made (extractLinks URL html pageUrl maxLinks, seen) /\ length (extractLinks URL html pageUrl maxLinks) <= maxLinks.
Proof using normalized.
  unfold extractLinks. generalize (matchAll LINK html). intros ms.
  destruct (links_loop pageUrl maxLinks ms ([], [])) as [M L]; [split; simpl; [done|constructor|set_solver|constructor]|simpl; lia|].
  destruct (fold_left _ ms _) as [out seen]. by exists seen.
Qed.
End PageFacts.

(** An address the tool made: http or https. *)
Definition http_address (URL : string -> option string -> option page_url) (u : string) : Prop :=
  exists v base, normalizeHttpUrl URL v base = Ok u.

(** the links of a page: at most as many as asked for, numbered from one, with
    different addresses, which are those of http(s) URLs, and a text of two
    characters at least. *)
Theorem page_links URL html pageUrl maxLinks :
  let links := extractLinks URL html pageUrl maxLinks in
  length links <= maxLinks /\ map l_index links = map Z.of_nat (seq 1 (length links)) /\ NoDup (map l_url links) /\
  Forall (fun l => http_address URL (l_url l) /\ 2 <= slen (l_text l)) links.
Proof.
  destruct (links_extracted URL (http_address URL)) with (html := html) (pageUrl := pageUrl) (maxLinks := maxLinks) as (seen & [I D _ G] & L).
  { intros v base u H. by exists v, base. }
  by cbn [fst snd] in *.
Qed.

(** The cookies of a combined header: the comma of a date does not separate, and
    neither does the one after a date at the end of its cookie. *)
Example cookie_swallowed :
  splitSetCookieHeader "a=1; Expires=Thu, 01 Jan 2030 00:00:00 GMT; Path=/, b=2; Expires=Thu, 01 Jan 2030 00:00:00 GMT, c=3" =
  ["a=1; Expires=Thu, 01 Jan 2030 00:00:00 GMT; Path=/"; "b=2; Expires=Thu, 01 Jan 2030 00:00:00 GMT, c=3"].
Proof. vm_compute. reflexivity. Qed.
(** The slash of a closed tag belongs to the last attribute: [required] is lost. *)
Example required_lost :
  map fd_required (parseFormFields "<input name=a required><input name=b required />  <input name=c required/>") = [true; true; false].
Proof. vm_compute. reflexivity. Qed.
