(* ===== verification/BrowserTabs.v ===== *)
(** * Browser tool: tabs

    src/src/agents/tools/browser-tool.ts: the tabs of the tool and what is looked up
    in the page of a tab: references, forms, links, the sign-in pages the tool
    refuses to follow, human checks, and the credential for a page.

    [browserState] is one object shared by all calls; a tab is known by its id. *)

From stdpp Require Import base list sets strings pretty.
From Stdlib Require Import ZArith Ascii Lia.
From S2P Require Import Prelude JsString JsMap JsValue JsRegex JsRegexExec NodePath MemoryStore Vault WebSearch WebTools BrowserPage.
#[local] Open Scope nat_scope.

(** ** State *)

Record BrowserTab := mkTab {
  t_id : string; t_url : string; t_title : string; t_createdAt : Z; t_updatedAt : Z; t_history : list string; t_historyIndex : nat;
  t_lastSnapshot : option BrowserSnapshot; t_lastHtml : string; t_forms : list BrowserForm;
  t_formValues : list (nat * list (string * string)); t_cookies : list (string * string);
  t_localStorage : list (string * string); t_sessionStorage : list (string * string) }.
Record BrowserState := mkState { s_createdAt : Z; s_nextTabIndex : nat; s_activeTabId : option string; s_tabs : list BrowserTab }.

Definition touch (now : Z) (t : BrowserTab) : BrowserTab :=
  mkTab (t_id t) (t_url t) (t_title t) (t_createdAt t) now (t_history t) (t_historyIndex t) (t_lastSnapshot t) (t_lastHtml t) (t_forms t)
    (t_formValues t) (t_cookies t) (t_localStorage t) (t_sessionStorage t).
(** The address, the title and the history. *)
Definition at_page (url title : string) (history : list string) (i : nat) (t : BrowserTab) : BrowserTab :=
  mkTab (t_id t) url title (t_createdAt t) (t_updatedAt t) history i (t_lastSnapshot t) (t_lastHtml t) (t_forms t)
    (t_formValues t) (t_cookies t) (t_localStorage t) (t_sessionStorage t).
(** What is known of the page. *)
Definition with_page (snap : option BrowserSnapshot) (html : string) (forms : list BrowserForm) (vals : list (nat * list (string * string)))
    (t : BrowserTab) : BrowserTab :=
  mkTab (t_id t) (t_url t) (t_title t) (t_createdAt t) (t_updatedAt t) (t_history t) (t_historyIndex t) snap html forms
    vals (t_cookies t) (t_localStorage t) (t_sessionStorage t).
Definition with_cookies (cookies : list (string * string)) (t : BrowserTab) : BrowserTab :=
  mkTab (t_id t) (t_url t) (t_title t) (t_createdAt t) (t_updatedAt t) (t_history t) (t_historyIndex t) (t_lastSnapshot t) (t_lastHtml t)
    (t_forms t) (t_formValues t) cookies (t_localStorage t) (t_sessionStorage t).

Definition with_tabs (active : option string) (tabs : list BrowserTab) (s : BrowserState) : BrowserState :=
  mkState (s_createdAt s) (s_nextTabIndex s) active tabs.
Definition update_tab (id : string) (f : BrowserTab -> BrowserTab) (s : BrowserState) : BrowserState :=
  with_tabs (s_activeTabId s) (map (fun t => if (t_id t =? id)%string then f t else t) (s_tabs s)) s.

Section Tabs.
Variable URL : string -> option string -> option page_url.

Definition buildTabRecord (now : Z) (url : string) (s : BrowserState) : BrowserTab * BrowserState :=
  let id := "tab-" +:+ pretty (s_nextTabIndex s) in
  (mkTab id url (summarizeTitleFromUrl URL url) now now [url] 0 None "" [] [] [] [] [],
   mkState (s_createdAt s) (S (s_nextTabIndex s)) (s_activeTabId s) (s_tabs s)).
Definition createTab (now : Z) (url : string) (s : BrowserState) : BrowserTab * BrowserState :=
  let '(tab, s1) := buildTabRecord now url s in
  (tab, with_tabs (Some (t_id tab)) (s_tabs s1 ++ [tab]) s1).
Definition createBackgroundTab (now : Z) (url : string) (s : BrowserState) : BrowserTab * BrowserState :=
  let '(tab, s1) := buildTabRecord now url s in
  (tab, with_tabs (s_activeTabId s1) (s_tabs s1 ++ [tab]) s1).
Definition findTabById (tabId : string) (s : BrowserState) : option BrowserTab :=
  let wanted := trim tabId in
  if negb (truthy wanted) then None else List.find (fun t => (t_id t =? wanted)%string) (s_tabs s).
Definition getActiveTab (s : BrowserState) : option BrowserTab :=
  match s_activeTabId s with Some id => if truthy id then findTabById id s else None | None => None end.
Definition resolveTab (tabId : value) (s : BrowserState) : result BrowserTab :=
  let wanted := text_of tabId in
  if truthy wanted then
    match findTabById wanted s with Some t => Ok t | None => Throw ("unknown tab id: " +:+ wanted) end
  else match getActiveTab s with Some t => Ok t | None => Throw "no active tab." end.
Definition setActiveTab (now : Z) (id : string) (s : BrowserState) : BrowserState :=
  update_tab id (touch now) (with_tabs (Some id) (s_tabs s) s).
Definition clearTabTransient (t : BrowserTab) : BrowserTab := with_page None "" [] [] t.

(** The history up to where the tab is, with a new last entry. *)
Definition extended (t : BrowserTab) (url : string) : list string := firstn (S (t_historyIndex t)) (t_history t) ++ [url].
Definition navigateTab (now : Z) (nextUrl : string) (t : BrowserTab) : result BrowserTab :=
  let? normalized := normalizeHttpUrl URL (VStr nextUrl) None in
  let history := if t_historyIndex t <? length (t_history t) - 1 then extended t normalized else t_history t ++ [normalized] in
  Ok (clearTabTransient (touch now (at_page normalized (summarizeTitleFromUrl URL normalized) history (length history - 1) t))).
Definition appendHistoryEntry (url : string) (t : BrowserTab) : result BrowserTab :=
  let? normalized := normalizeHttpUrl URL (VStr url) None in
  if bool_decide (t_history t !! t_historyIndex t = Some normalized) then Ok t
  else
    let history := if t_historyIndex t <? length (t_history t) - 1 then extended t normalized else t_history t ++ [normalized] in
    Ok (at_page (t_url t) (t_title t) history (length history - 1) t).
Definition last_id (tabs : list BrowserTab) : option string := option_map t_id (last tabs).
Definition closeTab (id : string) (s : BrowserState) : BrowserState :=
  let tabs := List.filter (fun t => negb (t_id t =? id)%string) (s_tabs s) in
  with_tabs (if bool_decide (s_activeTabId s = Some id) then last_id tabs else s_activeTabId s) tabs s.

(** ** References *)

Definition method_name (m : form_method) : string := match m with m_get => "get" | m_post => "post" end.
Definition fieldRole (f : BrowserFormField) : string :=
  let type := toLowerCase (fd_type f) in
  if (type =? "checkbox")%string then "checkbox"
  else if (type =? "radio")%string then "radio"
  else if (type =? "select")%string then "combobox"
  else "textbox".
Definition fieldDisplayName (formIndex : nat) (f : BrowserFormField) : string :=
  "form " +:+ pretty formIndex +:+ ": " +:+ (if truthy (fd_name f) then fd_name f else fd_type f +:+ " field").
(** The references of a page, before they are numbered. *)
Definition link_ref (l : BrowserLink) (ref : string) : BrowserElementRef :=
  mkRef ref k_link "link" (l_text l) (Some (l_url l)) None None None None.
Definition form_ref (f : BrowserForm) (ref : string) : BrowserElementRef :=
  mkRef ref k_form "form" ("form " +:+ pretty (fm_index f) +:+ " (" +:+ toUpperCase (method_name (fm_method f)) +:+ " " +:+ fm_action f +:+ ")")
    (Some (fm_action f)) (Some (fm_index f)) None (Some (fm_method f)) None.
Definition field_ref (f : BrowserForm) (d : BrowserFormField) (ref : string) : BrowserElementRef :=
  mkRef ref k_field (fieldRole d) (fieldDisplayName (fm_index f) d) None (Some (fm_index f)) (Some (fd_name d)) None None.
Definition submit_ref (f : BrowserForm) (ref : string) : BrowserElementRef :=
  mkRef ref k_submit "button" ("submit form " +:+ pretty (fm_index f)) (Some (fm_action f)) (Some (fm_index f)) None (Some (fm_method f)) None.
Definition form_refs (f : BrowserForm) : list (string -> BrowserElementRef) := form_ref f :: map (field_ref f) (fm_fields f) ++ [submit_ref f].
Definition buildSnapshotRefs (links : list BrowserLink) (forms : list BrowserForm) : list BrowserElementRef :=
  imap (fun i mk => mk ("e" +:+ pretty (S i))) (map link_ref links ++ flat_map form_refs forms).

Definition resolveSnapshotRef (t : BrowserTab) (refRaw : value) : result (option BrowserElementRef) :=
  let wanted := toLowerCase (text_of refRaw) in
  if negb (truthy wanted) then Ok None
  else match t_lastSnapshot t with
       | None => Throw "no snapshot available for ref lookup. run snapshot first."
       | Some snap =>
           match List.find (fun r => (toLowerCase (rf_ref r) =? wanted)%string) (sn_refs snap) with
           | Some r => Ok (Some r)
           | None => Throw ("ref not found: " +:+ wanted)
           end
       end.

(** ** Forms *)

Definition nullish_b (v : value) : bool := match v with VUndef | VNull => true | _ => false end.
Definition resolveForm (t : BrowserTab) (formIndexRaw refRaw : value) : result BrowserForm :=
  match t_forms t with
  | [] => Throw "no forms available. run snapshot on a page containing a form."
  | _ =>
      let? byRef := resolveSnapshotRef t refRaw in
      let formIndex := match byRef ≫= rf_formIndex with
                       | Some i => i
                       | None => if nullish_b formIndexRaw then 1 else Z.to_nat (clamp formIndexRaw 1 1000000 1)
                       end in
      match List.find (fun f => fm_index f =? formIndex) (t_forms t) with
      | Some f => Ok f
      | None => Throw ("form index " +:+ pretty formIndex +:+ " not found.")
      end
  end.
Definition field_named (name : string) (form : BrowserForm) : option BrowserFormField :=
  List.find (fun d => (fd_name d =? name)%string) (fm_fields form).
Definition resolveFormField (t : BrowserTab) (form : BrowserForm) (fieldNameRaw refRaw : value) : result BrowserFormField :=
  let? byRef := resolveSnapshotRef t refRaw in
  match byRef with
  | Some r =>
      if negb (bool_decide (rf_kind r = k_field)) then Throw ("ref " +:+ rf_ref r +:+ " is not an input field.")
      else
        let name := default "" (rf_fieldName r) in
        if negb (truthy name) || negb (bool_decide (rf_formIndex r = Some (fm_index form)))
        then Throw ("ref " +:+ rf_ref r +:+ " does not belong to form " +:+ pretty (fm_index form) +:+ ".")
        else match field_named name form with
             | Some d => Ok d
             | None => Throw ("field from ref " +:+ rf_ref r +:+ " is no longer available.")
             end
  | None =>
      let fieldName := text_of fieldNameRaw in
      if negb (truthy fieldName) then Throw "fieldName is required (or provide a field ref)."
      else match field_named fieldName form with
           | Some d => Ok d
           | None =>
               match List.find (fun d => (toLowerCase (fd_name d) =? toLowerCase fieldName)%string) (fm_fields form) with
               | Some d => Ok d
               | None => Throw ("field " +:+ dq +:+ fieldName +:+ dq +:+ " not found on form " +:+ pretty (fm_index form) +:+ ".")
               end
           end
  end.
(** What [Object.prototype] gives for a name, as text. *)
Definition inherited_text (k : string) : string :=
  if (k =? "__proto__")%string then "[object Object]"
  else "function " +:+ (if (k =? "constructor")%string then "Object" else k) +:+ "() { [native code] }".
Definition field_text (overrides : list (string * string)) (d : BrowserFormField) : string :=
  match obj_lookup (fd_name d) overrides with
  | Own v => v
  | Inherited => inherited_text (fd_name d)
  | Missing => fd_value d
  end.
Definition collectFormPayload (t : BrowserTab) (form : BrowserForm) : list (string * string) :=
  let overrides := default [] (mget (fm_index form) (t_formValues t)) in
  map (fun d => (fd_name d, field_text overrides d)) (List.filter (fun d => truthy (fd_name d)) (fm_fields form)).
(** [tab.formValues[form.index][name] = value], with the row made when there is none. *)
Definition set_form_value (form : BrowserForm) (name value : string) (t : BrowserTab) : BrowserTab :=
  let row := default [] (mget (fm_index form) (t_formValues t)) in
  with_page (t_lastSnapshot t) (t_lastHtml t) (t_forms t) (mset (fm_index form) (assign name value row) (t_formValues t)) t.

(** [URLSearchParams.toString] *)
Definition upper_hex (n : nat) : ascii := ascii_of_nat (if n <? 10 then 48 + n else 55 + n).
Definition percent (n : nat) : list ascii := ["%"%char; upper_hex (n / 16); upper_hex (n mod 16)].
Definition form_safe (c : ascii) : bool := is_alnum c || bool_decide (c ∈ chars "*-._").
Definition form_char (c : ascii) : list ascii :=
  if form_safe c then [c]
  else if is_char " " c then ["+"%char]
  else if code c <? 128 then percent (code c)
  else percent (192 + code c / 64) ++ percent (128 + code c mod 64).
Definition form_text (s : string) : string := of_chars (flat_map form_char (chars s)).
Definition urlencoded (payload : list (string * string)) : string :=
  join "&" (map (fun e => form_text e.1 +:+ "=" +:+ form_text e.2) payload).

(** ** Clicks *)

Definition findClickTarget (t : BrowserTab) (params : value) : result BrowserLink :=
  match t_lastSnapshot t with
  | None => Throw "no snapshot available for click. run snapshot first."
  | Some snap =>
      let? byRef := resolveSnapshotRef t (get_prop "ref" params) in
      match byRef with
      | Some r =>
          match rf_kind r, default "" (rf_url r) with
          | k_link, url => if truthy url then Ok (mkLink (-1) (rf_name r) url) else Throw ("ref " +:+ rf_ref r +:+ " is not a clickable link.")
          | _, _ => Throw ("ref " +:+ rf_ref r +:+ " is not a clickable link.")
          end
      | None =>
          let links := sn_links snap in
          if length links =? 0 then Throw "snapshot has no clickable links."
          else if negb (nullish_b (get_prop "linkIndex" params)) then
            let index := clamp (get_prop "linkIndex" params) 1 1000000 1 in
            match List.find (fun l => (l_index l =? index)%Z) links with
            | Some l => Ok l
            | None => Throw ("link index " +:+ pretty index +:+ " not found in snapshot.")
            end
          else
            let byText := toLowerCase (text_of (get_prop "linkText" params)) in
            let byHref := toLowerCase (text_of (get_prop "hrefContains" params)) in
            let found_text := if truthy byText then List.find (fun l => includes byText (toLowerCase (l_text l))) links else None in
            let found_href := if truthy byHref then List.find (fun l => includes byHref (toLowerCase (l_url l))) links else None in
            match found_text, found_href with
            | Some l, _ => Ok l
            | None, Some l => Ok l
            | None, None => Throw "click requires ref, linkIndex, linkText, or hrefContains."
            end
      end
  end.

Definition PROVIDER_URL : rx := re_ "\b(accounts\.google\.com|appleid\.apple\.com|microsoftonline\.com|oauth|sso)\b".
Definition AUTH_PATH : rx := re_ "/auth/(google|apple|microsoft|github|facebook|linkedin|twitter|x)\b".
Definition WITH_LABEL : rx := re_ "\b(continue|sign in|log in)\s+with\b".
Definition PROVIDER_SIGNAL : rx := re_ "\b(google|apple|microsoft|github|facebook|linkedin|twitter|x)\b".
Definition AUTH_SIGNAL : rx := re_ "\b(sign in|log in|login|oauth|sso|single sign[-\s]?on|auth)\b".
Definition isSocialAuthUrl (v : string) : bool :=
  let text := toLowerCase (trim v) in truthy text && (test PROVIDER_URL text || test AUTH_PATH text).
Definition isLikelySocialAuthTarget (label href context : string) : bool :=
  let label := toLowerCase (trim label) in
  let href := toLowerCase (trim href) in
  let context := toLowerCase (trim context) in
  let all := label +:+ " " +:+ context +:+ " " +:+ href in
  isSocialAuthUrl href || test WITH_LABEL label || (test PROVIDER_SIGNAL all && test AUTH_SIGNAL all).
Definition assertNotSocialAuthTarget (label href action : string) : result unit :=
  if isLikelySocialAuthTarget label href "" then
    Throw ("Blocked " +:+ action +:+ " because the target appears to be social/OAuth sign-in. Use browser action=login with vault credentials.")
  else Ok tt.

(** ** Helpers of the live engine *)

Definition boundedPush {A} (rows : list A) (v : A) (maxEntries : nat) : list A :=
  let next := rows ++ [v] in skipn (length next - maxEntries) next.
Definition LIVE_DOWNLOAD_MAX_ENTRIES : nat := 80.
(** What the rows are each time they are looked at until the deadline. *)
Fixpoint waitForNewDownloadEntries {A} (polls : list (list A)) (beforeCount : nat) : list A :=
  match polls with
  | [] => []
  | rows :: later => if beforeCount <? length rows then skipn beforeCount rows else waitForNewDownloadEntries later beforeCount
  end.
Definition download_char (c : ascii) : bool := is_word c || bool_decide (c ∈ chars ".-").
Definition sanitizeDownloadFilename (now : Z) (v : string) : string :=
  let raw := trim v in
  let fallback := "download-" +:+ pretty now in
  let base := replace_runs (fun c => negb (download_char c)) ["_"%char] (basename (if truthy raw then raw else fallback)) in
  if truthy base then base else fallback.
Definition escapeCssAttributeValue (v : string) : string :=
  of_chars (flat_map (fun c => if is_char "\" c || (code c =? 34) then ["\"%char; c] else [c]) (chars v)).
Definition in_form (i : nat) (rest : string) : string := "form:nth-of-type(" +:+ pretty i +:+ ")" +:+ rest.
Definition quoted (v : string) : string := dq +:+ escapeCssAttributeValue v +:+ dq.
(** Zero and the empty string count as absent. *)
Definition given_text (o : option string) : option string := match o with Some s => if truthy s then Some s else None | None => None end.
Definition given_index (o : option nat) : option nat := match o with Some 0 => None | o => o end.
Definition selectorForRef (r : BrowserElementRef) : option string :=
  let role := "[role=" +:+ dq +:+ "button" +:+ dq +:+ "]" in
  match given_text (rf_selector r), rf_kind r with
  | Some s, _ => Some s
  | None, k_field =>
      match given_index (rf_formIndex r), given_text (rf_fieldName r) with
      | Some i, Some name => Some (in_form i (" [name=" +:+ quoted name +:+ "]"))
      | _, _ => None
      end
  | None, k_submit =>
      match given_index (rf_formIndex r) with
      | Some i => Some (join ", " (map (in_form i)
          [" button[type=" +:+ dq +:+ "submit" +:+ dq +:+ "]"; " input[type=" +:+ dq +:+ "submit" +:+ dq +:+ "]"; " button"; " " +:+ role]))
      | None => None
      end
  | None, k_link =>
      match given_text (rf_url r), given_text (Some (rf_name r)) with
      | Some url, _ => Some ("a[href=" +:+ quoted url +:+ "]")
      | None, Some name => Some ("a:has-text(" +:+ quoted name +:+ ")")
      | None, None => None
      end
  | None, k_form => option_map (fun i => in_form i "") (given_index (rf_formIndex r))
  | None, k_button =>
      option_map (fun name => "button:has-text(" +:+ quoted name +:+ "), " +:+ role +:+ ":has-text(" +:+ quoted name +:+ ")")
        (given_text (Some (rf_name r)))
  end.
Definition kind_name (k : ref_kind) : string :=
  match k with k_link => "link" | k_form => "form" | k_field => "field" | k_submit => "submit" | k_button => "button" end.
Definition getExplicitSelector (params : value) : string := text_of (get_prop "selector" params).
Definition resolveActionSelector (t : BrowserTab) (params : value) (allowKinds : list ref_kind) : result (string * option BrowserElementRef) :=
  let explicit := getExplicitSelector params in
  if truthy explicit then Ok (explicit, None)
  else
    let? ref := resolveSnapshotRef t (get_prop "ref" params) in
    match ref with
    | None => Throw "selector or ref is required."
    | Some r =>
        if negb (bool_decide (rf_kind r ∈ allowKinds))
        then Throw ("ref " +:+ rf_ref r +:+ " has unsupported kind " +:+ kind_name (rf_kind r) +:+ " for this action.")
        else match given_text (selectorForRef r) with
             | Some selector => Ok (selector, Some r)
             | None => Throw ("could not resolve selector for ref " +:+ rf_ref r +:+ ".")
             end
    end.
Definition normalizeClickButton (v : value) : string :=
  let raw := toLowerCase (trim (to_string (nullish v (VStr "left")))) in
  if bool_decide (raw ∈ ["right"; "middle"]) then raw else "left".
Definition modifier_name (v : value) : option string :=
  mget (toLowerCase (text_of v))
    [("alt", "Alt"); ("control", "Control"); ("ctrl", "Control"); ("meta", "Meta"); ("cmd", "Meta"); ("command", "Meta"); ("shift", "Shift")].
Definition normalizeClickModifiers (v : value) : option (list string) :=
  match dedup (omap modifier_name (array_items v)) with [] => None | out => Some out end.
Definition findLiveLinkRefForClick (t : BrowserTab) (params : value) : result (option BrowserElementRef) :=
  match t_lastSnapshot t with
  | None => Ok None
  | Some snap =>
      let linkRefs := List.filter (fun r => bool_decide (rf_kind r = k_link)) (sn_refs snap) in
      let url_of r := default "" (rf_url r) in
      if length linkRefs =? 0 then Ok None
      else if negb (nullish_b (get_prop "linkIndex" params)) then
        let index := clamp (get_prop "linkIndex" params) 1 1000000 1 in
        match List.find (fun l => (l_index l =? index)%Z) (sn_links snap) with
        | None => Throw ("link index " +:+ pretty index +:+ " not found in snapshot.")
        | Some l =>
            match List.find (fun r => (url_of r =? l_url l)%string) linkRefs with
            | Some r => Ok (Some r)
            | None => Ok (List.find (fun r => (rf_name r =? l_text l)%string) linkRefs)
            end
        end
      else
        let linkText := toLowerCase (text_of (get_prop "linkText" params)) in
        let hrefContains := toLowerCase (text_of (get_prop "hrefContains" params)) in
        let by_text := if truthy linkText then List.find (fun r => includes linkText (toLowerCase (rf_name r))) linkRefs else None in
        let by_href := if truthy hrefContains then List.find (fun r => includes hrefContains (toLowerCase (url_of r))) linkRefs else None in
        Ok (match by_text with Some r => Some r | None => by_href end)
  end.

(** ** Human checks *)

Inductive confidence := c_none | c_low | c_medium | c_high.
Definition confidence_name (c : confidence) : string :=
  match c with c_none => "none" | c_low => "low" | c_medium => "medium" | c_high => "high" end.
Record challenge := mkChallenge { ch_detected : bool; ch_provider : option string; ch_confidence : confidence; ch_signals : list string; ch_url : string }.
(** The first provider whose signs are there, with its signal.  The strings have no
    typographic apostrophe, so that the class of the source is the plain one. *)
Definition classifyChallengeSignals (text0 url0 : string) (hasRecaptcha hasHcaptcha hasTurnstile hasCaptchaSelector : bool) : challenge :=
  let text := toLowerCase text0 in
  let url := toLowerCase url0 in
  let provider :=
    if hasRecaptcha || test (re_ "recaptcha") text || test (re_ "google\.com/recaptcha") url then Some ("recaptcha", "recaptcha")
    else if hasHcaptcha || test (re_ "\bhcaptcha\b") text || test (re_ "hcaptcha\.com") url then Some ("hcaptcha", "hcaptcha")
    else if hasTurnstile || test (re_ "\bturnstile\b") text || test (re_ "challenges\.cloudflare\.com") url
    then Some ("cloudflare-turnstile", "turnstile")
    else if test (re_ "\barkose\b|\bfuncaptcha\b") text then Some ("arkose", "arkose")
    else None in
  let when_ (b : bool) (s : string) := if b then [s] else [] in
  let challenge_page := test (re_ "cdn-cgi/challenge") url in
  let signals :=
    match provider with Some p => [p.2] | None => [] end
    ++ when_ hasCaptchaSelector "captcha-selector"
    ++ when_ (test (re_ "\b(verify you are human|are you human|i[']?m not a robot|security check|prove you are human)\b") text) "human-verification-copy"
    ++ when_ (test (re_ "\b(checking your browser|just a moment|ddos protection)\b") text || challenge_page) "challenge-page-copy" in
  let hardSignals := hasRecaptcha || hasHcaptcha || hasTurnstile || challenge_page
                     || test (re_ "google\.com/recaptcha|hcaptcha\.com|challenges\.cloudflare\.com") url in
  mkChallenge (negb (length signals =? 0)) (option_map fst provider)
    (if length signals =? 0 then c_none else if hardSignals then c_high else if 2 <=? length signals then c_medium else c_low) signals url0.
Definition detectInteractiveChallengeFromFetchSnapshot (t : BrowserTab) : challenge :=
  let parts := List.filter truthy [match t_lastSnapshot t with Some s => sn_text s | None => "" end; t_lastHtml t] in
  let text := slice_to (Z.to_nat 20000) (join newline parts) in
  let url := match t_lastSnapshot t with Some s => sn_url s | None => t_url t end in
  classifyChallengeSignals text url (test (re_i "g-recaptcha|recaptcha") text) (test (re_i "\bhcaptcha\b") text)
    (test (re_i "\bturnstile\b|challenges\.cloudflare\.com") text) (test (re_i "\bcaptcha\b") text).

(** ** The credential for a page *)

Definition url_hostname (s : string) : option string := option_map u_hostname (URL s None).
Notation normalizeSetupService := (Vault.normalizeSetupService url_hostname).
Definition resolveSetupServiceFromBrowserInput (serviceRaw : value) (currentUrl : string) : option string :=
  match normalizeSetupService (to_string (nullish serviceRaw (VStr ""))) with
  | Some explicit => Some explicit
  | None =>
      let url := toLowerCase (trim currentUrl) in
      if negb (truthy url) then None else url_hostname url ≫= normalizeSetupService
  end.
Definition push_candidate (v : string) (candidates : list string) : list string :=
  match normalizeSetupService v with
  | None => candidates
  | Some n => if bool_decide (n ∈ candidates) then candidates else candidates ++ [n]
  end.
Definition first_label (s : string) : string := default "" (head (split_char "." s)).
Definition deriveServiceCandidates (explicitServiceRaw : value) (currentUrl : string) : list string :=
  let explicit := normalizeSetupService (to_string (nullish explicitServiceRaw (VStr ""))) in
  let c1 := match explicit with Some e => push_candidate e [] | None => [] end in
  let c2 := match resolveSetupServiceFromBrowserInput (VStr "") currentUrl with
            | Some live => let c := live :: c1 in if includes "." live then push_candidate (first_label live) c else c
            | None => c1
            end in
  let c3 := match explicit with Some e => if includes "." e then push_candidate (first_label e) c2 else c2 | None => c2 end in
  dedup (List.filter truthy c3).
Definition drop_www (s : string) : string := if startsWith "www." s then slice_from 4 s else s.
Definition normalizeHostFromValue (v : string) : option string :=
  let raw := toLowerCase (trim v) in
  if negb (truthy raw) then None
  else match (if includes "://" raw then url_hostname raw else None) with
       | Some h => let host := drop_www (toLowerCase (trim h)) in if truthy host then Some host else None
       | None => normalizeSetupService raw
       end.
Definition hostsLikelyMatch (a b : option string) : bool :=
  let left := drop_www (toLowerCase (trim (default "" a))) in
  let right := drop_www (toLowerCase (trim (default "" b))) in
  truthy left && truthy right && ((left =? right)%string || endsWith ("." +:+ right) left || endsWith ("." +:+ left) right).

Section Credential.
Context `{Cipher} (dir : string) (en : entropy).
Notation getCredential := (Vault.getCredential url_hostname dir).
Definition website_of (f : found) : string := match f with Found r => default "" (websiteUrl r) | _ => "" end.
Fixpoint first_credential (candidates : list string) (w : world) : result (world * option (string * found)) :=
  match candidates with
  | [] => Ok (w, None)
  | c :: rest =>
      let? st := getCredential c en w in
      match st.2 with
      | NoRecord => first_credential rest st.1
      | cred => Ok (st.1, Some (c, cred))
      end
  end.
Fixpoint matching_credential (currentHost : string) (services : list string) (w : world) : result (world * option (string * found)) :=
  match services with
  | [] => Ok (w, None)
  | s :: rest =>
      let? st := getCredential s en w in
      match st.2 with
      | NoRecord => matching_credential currentHost rest st.1
      | cred =>
          if hostsLikelyMatch (Some currentHost) (Some s)
             || hostsLikelyMatch (Some currentHost) (normalizeHostFromValue (website_of cred))
          then Ok (st.1, Some (s, cred)) else matching_credential currentHost rest st.1
      end
  end.
Definition resolveCredentialForCandidates (serviceCandidates : list string) (currentUrl : string) (w : world)
  : result (world * option (string * found)) :=
  let? st := first_credential serviceCandidates w in
  match st.2 with
  | Some c => Ok (st.1, Some c)
  | None =>
      match normalizeHostFromValue currentUrl with
      | None => Ok (st.1, None)
      | Some currentHost =>
          let? ls := listConfiguredServices url_hostname dir en st.1 in
          matching_credential currentHost ls.2 ls.1
      end
  end.
End Credential.
Definition maskCredentialIdentifier (identifier : string) : string :=
  let v := trim identifier in
  if negb (truthy v) then "(empty)"
  else match indexOf "@" v with
       | Some (S (S n)) => slice_to 1 v +:+ "***" +:+ slice_from (S (S n)) v
       | _ => if slen v <=? 4 then slice_to 1 v +:+ "***" else slice_to 2 v +:+ "***" +:+ last_chars 1 v
       end.
End Tabs.

(** ** References: every one is found under its name *)

Lemma find_unique {A} (p : A -> bool) l i x :
  l !! i = Some x -> p x = true -> (forall j y, l !! j = Some y -> p y = true -> j = i) -> List.find p l = Some x.
Proof.
  revert i. induction l as [|y l IH]; intros i L P U; [done|]. simpl. destruct (p y) eqn:Py.
  - pose proof (U 0 y eq_refl Py) as <-. simpl in L. congruence.
  - destruct i as [|i]; simpl in L; [congruence|]. apply (IH i); [done..|].
    intros j z Lj Pz. assert (S j = S i) by (by apply (U (S j) z)). lia.
Qed.
Lemma digit_plain c : is_digit c = true -> lower_char c = c /\ is_ws c = false.
Proof. destruct c as [[] [] [] [] [] [] [] []]; done. Qed.
Lemma ref_name_plain n : trim (toLowerCase ("e" +:+ pretty (S n))) = "e" +:+ pretty (S n) /\ toLowerCase ("e" +:+ pretty (S n)) = "e" +:+ pretty (S n).
Proof.
  assert (toLowerCase ("e" +:+ pretty (S n)) = "e" +:+ pretty (S n)) as L.
  { apply chars_inj. unfold toLowerCase. rewrite chars_of_chars. rewrite chars_app, map_app. f_equal.
    rewrite <-(map_id (chars (pretty (S n)))) at 2. apply map_ext_in. intros c H. apply digit_plain.
    pose proof (pretty_nat_digits (S n)) as D. rewrite forallb_forall in D. by apply D. }
  split; [|done]. rewrite L. apply trim_no_ws. rewrite chars_app, forallb_app. apply andb_true_iff. split; [done|].
  apply forallb_forall. intros c H. pose proof (pretty_nat_digits (S n)) as D. rewrite forallb_forall in D.
  destruct (digit_plain c (D c H)) as [_ ->]. done.
Qed.
Lemma ref_names links forms i r : buildSnapshotRefs links forms !! i = Some r -> rf_ref r = "e" +:+ pretty (S i).
Proof.
  unfold buildSnapshotRefs. rewrite list_lookup_imap. intros (mk & H & ->)%fmap_Some.
  assert (Forall (fun mk : string -> BrowserElementRef => forall s, rf_ref (mk s) = s) (map link_ref links ++ flat_map form_refs forms)) as F.
  { rewrite Forall_app. split; [by apply Forall_map, Forall_forall|]. apply List.Forall_flat_map, List.Forall_forall. intros f _.
    unfold form_refs. constructor; [done|]. rewrite Forall_app. split; [by apply Forall_map, Forall_forall|by repeat constructor]. }
  rewrite Forall_lookup in F. rewrite (F i mk H). done.
Qed.
Lemma pretty_S_inj i j : "e" +:+ pretty (S i) = "e" +:+ pretty (S j) -> i = j.
Proof. intros E. apply (inj (String.app "e")) in E. apply (inj pretty) in E. lia. Qed.

(** The references of a tab are those of its page. *)
Definition refs_of_page (t : BrowserTab) : Prop :=
  match t_lastSnapshot t with Some s => sn_refs s = buildSnapshotRefs (sn_links s) (t_forms t) | None => True end.
Lemma snapshot_refs_resolve t s i r :
  t_lastSnapshot t = Some s -> refs_of_page t -> sn_refs s !! i = Some r -> resolveSnapshotRef t (VStr (rf_ref r)) = Ok (Some r).
Proof.
  intros S R L. unfold refs_of_page in R. rewrite S in R. pose proof L as N. rewrite R in N. apply ref_names in N.
  unfold resolveSnapshotRef, text_of. cbn [to_string nullish]. rewrite N, <-trim_toLowerCase. destruct (ref_name_plain i) as [-> W].
  destruct (truthy _) eqn:T; [|by apply truthy_false in T]. cbn [negb]. rewrite S.
  rewrite (find_unique _ _ i r L); [done| |].
  - apply String.eqb_eq. by rewrite N.
  - intros j y Ly E. apply String.eqb_eq in E. rewrite R in Ly. apply ref_names in Ly. rewrite Ly in E.
    rewrite (proj2 (ref_name_plain j)) in E. by apply pretty_S_inj.
Qed.

(** ** Forms: what was filled in is what is sent *)

Lemma field_text_assign name v row d :
  name <> "__proto__" -> field_text (assign name v row) d = if (fd_name d =? name)%string then v else field_text row d.
Proof.
  intros N. unfold field_text, obj_lookup, assign. rewrite (proj2 (String.eqb_neq _ _) N), mget_mset.
  destruct (String.eqb_spec (fd_name d) name) as [E|E]; [by rewrite bool_decide_eq_true_2|by rewrite bool_decide_eq_false_2].
Qed.

(** the fields that are sent after one was filled in are those before, with the
    new value under that name; the other forms of the page do not change. *)
Theorem filled_is_sent t form name v :
  name <> "__proto__" ->
  collectFormPayload (set_form_value form name v t) form =
    map (fun e => if (e.1 =? name)%string then (e.1, v) else e) (collectFormPayload t form) /\
  (forall other, fm_index other <> fm_index form -> collectFormPayload (set_form_value form name v t) other = collectFormPayload t other).
Proof.
  intros N. unfold collectFormPayload, set_form_value. cbn [t_formValues with_page]. split.
  - rewrite mget_mset_eq, map_map. apply map_ext. intros d. cbn [fst].
    change (default [] (Some ?x)) with x. rewrite field_text_assign by done. by destruct (_ =? _)%string.
  - intros other O. by rewrite mget_mset_ne.
Qed.
Definition sample_form : BrowserForm := mkForm 1 m_post "https://a.com/go" [mkField "q" "text" "old" false; mkField "r" "hidden" "kept" false].
Definition sample_tab : BrowserTab :=
  mkTab "tab-1" "https://a.com/" "a.com" 0 0 ["https://a.com/"] 0 None "" [sample_form] (buildDefaultFormValues [sample_form]) [] [] [].
Lemma filled_is_sent_witness :
  collectFormPayload (set_form_value sample_form "q" "new" sample_tab) sample_form = [("q", "new"); ("r", "kept")].
Proof.
  assert (("q" : string) <> "__proto__") as N by discriminate.
  exact (eq_trans (proj1 (filled_is_sent sample_tab sample_form "q" "new" N)) eq_refl).
Defined.
(** A field of this name is sent as an object, whatever was filled in. *)
Example proto_field_sent :
  let form := mkForm 1 m_get "https://a.com/" [mkField "__proto__" "text" "v" false] in
  let tab := mkTab "tab-1" "https://a.com/" "a.com" 0 0 ["https://a.com/"] 0 None "" [form] (buildDefaultFormValues [form]) [] [] [] in
  collectFormPayload (set_form_value form "__proto__" "typed" tab) form = [("__proto__", "[object Object]")].
Proof. reflexivity. Qed.

(** ** The logs of the live engine *)

Lemma boundedPush_length {A} (rows : list A) v n : length (boundedPush rows v n) = Nat.min n (S (length rows)).
Proof. unfold boundedPush. rewrite length_skipn, length_app. simpl. lia. Qed.
(** Once the log of downloads is full, a new download is never seen. *)
Lemma full_log_hides {A} (rows : list A) (later : list A) :
  length rows = LIVE_DOWNLOAD_MAX_ENTRIES ->
  waitForNewDownloadEntries (map (fun v => boundedPush rows v LIVE_DOWNLOAD_MAX_ENTRIES) later) (length rows) = [].
Proof.
  generalize LIVE_DOWNLOAD_MAX_ENTRIES. intros n <-. induction later as [|v later IH]; [done|]. cbn [map waitForNewDownloadEntries].
  rewrite boundedPush_length, Nat.min_l, Nat.ltb_irrefl by lia. exact IH.
Qed.

(** ** The credential for a page *)

Section CredentialFacts.
Variable URL : string -> option string -> option page_url.
Context `{Cipher} (dir : string) (en : entropy).

(** the credential that is put into a page is that of one of the services named,
    or of a configured service whose name, or whose website, is the host of the page,
    a domain of it or a host under it. *)
Theorem credential_scope candidates currentUrl w w' service cred :
  resolveCredentialForCandidates URL dir en candidates currentUrl w = Ok (w', Some (service, cred)) ->
  cred <> NoRecord /\
  (service ∈ candidates \/
   exists host, normalizeHostFromValue URL currentUrl = Some host /\
     (hostsLikelyMatch (Some host) (Some service) = true \/
      hostsLikelyMatch (Some host) (normalizeHostFromValue URL (website_of cred)) = true)).
Proof.
  unfold resolveCredentialForCandidates.
  assert (forall cs v v' x, first_credential URL dir en cs v = Ok (v', Some x) -> x.1 ∈ cs /\ x.2 <> NoRecord) as F.
  { induction cs as [|c cs IH]; intros v v' x E; simpl in E; [done|]. destruct (getCredential _ _ _ _ _) as [[v1 f]|] eqn:G; [|done].
    cbn in E. destruct f; [|injection E as <- <-; by split; [left|]..]. apply IH in E. set_solver. }
  assert (forall host ss v v' x, matching_credential URL dir en host ss v = Ok (v', Some x) ->
    x.2 <> NoRecord /\ (hostsLikelyMatch (Some host) (Some x.1) || hostsLikelyMatch (Some host) (normalizeHostFromValue URL (website_of x.2))) = true) as G.
  { intros host. induction ss as [|c ss IH]; intros v v' x E; simpl in E; [done|]. destruct (getCredential _ _ _ _ _) as [[v1 f]|] eqn:G; [|done].
    cbn [rbind snd fst] in E. destruct f; [by eapply IH| |]; (case_hyp E; [injection E as <- <-; done|by eapply IH]). }
  destruct (first_credential _ _ _ _ _) as [[v1 [x|]]|] eqn:E1; cbn [rbind snd fst]; [|..|done].
  - intros [= <- ->]. apply F in E1. simpl in E1. tauto.
  - destruct (normalizeHostFromValue URL currentUrl) as [host|]; [|done].
    destruct (listConfiguredServices _ _ _ _) as [[v2 ls]|]; [|done]. cbn [rbind snd fst]. intros E2.
    apply G in E2 as [N M]. apply orb_true_iff in M. split; [done|]. right. by exists host.
Qed.
End CredentialFacts.

(** ** Witnesses *)

(** A parser for addresses such as [https://host/path], and paths on a page. *)
Definition simple_host (s : string) : string := default "" (head (split_char "/" (slice_from 8 s))).
Definition simple_URL (s : string) (base : option string) : option page_url :=
  let absolute s := Some (mkPageUrl "https:" (simple_host s) s (fun ps => s +:+ "?" +:+ urlencoded ps)) in
  if startsWith "https://" s then absolute s
  else match base with Some b => absolute ("https://" +:+ simple_host b +:+ s) | None => None end.
#[local] Existing Instance plain_cipher.
(** The vault after a login for [service] was saved. *)
Definition vault_with (service : string) : world :=
  match setCredential (url_hostname simple_URL) "/ws" (sample_input service) sample_entropy (mkWorld [] None) with
  | Ok (w, _) => w
  | Throw _ => mkWorld [] None
  end.
Definition chosen (r : result (world * option (string * found))) : option (string * string) :=
  match r with Ok (_, Some (s, Found c)) => Some (s, identifier c) | _ => None end.
Lemma credential_scope_witness :
  exists cred, cred <> NoRecord /\
    (("example.com" : string) ∈ ["shop.example.com"] \/
     exists host, normalizeHostFromValue simple_URL "https://shop.example.com/login" = Some host /\
       (hostsLikelyMatch (Some host) (Some "example.com") = true \/
        hostsLikelyMatch (Some host) (normalizeHostFromValue simple_URL (website_of cred)) = true)).
Proof.
  destruct (resolveCredentialForCandidates simple_URL "/ws" sample_entropy ["shop.example.com"] "https://shop.example.com/login"
    (vault_with "example.com")) as [[w' [[s cred]|]]|e] eqn:E; [|exfalso; revert E; vm_compute; discriminate..].
  exists cred. assert (s = "example.com") as -> by (revert E; vm_compute; congruence).
  exact (credential_scope simple_URL "/ws" sample_entropy _ _ _ _ _ _ E).
Defined.

(** The first label of a host is a candidate, and a service that is named is one on
    any page: the login saved as [github] goes into a page of another site. *)
Example credential_for_another_site :
  let page := "https://github.evil.example/login" in
  deriveServiceCandidates simple_URL VUndef page = ["github.evil.example"; "github"] /\
  chosen (resolveCredentialForCandidates simple_URL "/ws" sample_entropy (deriveServiceCandidates simple_URL VUndef page) page
    (vault_with "github")) = Some ("github", "bob") /\
  chosen (resolveCredentialForCandidates simple_URL "/ws" sample_entropy
    (deriveServiceCandidates simple_URL (VStr "bank.com") "https://evil.example/") "https://evil.example/" (vault_with "bank.com")) =
    Some ("bank.com", "bob").
Proof. vm_compute. done. Qed.
(** The sign-in page of a provider itself counts as a sign-in with that provider. *)
Example own_login_blocked :
  is_ok (assertNotSocialAuthTarget "Login" "https://github.com/login" "click") = false /\
  is_ok (assertNotSocialAuthTarget "Login" "https://example.com/login" "click") = true.
Proof. vm_compute. done. Qed.
