(* ===== verification/BrowserTool.v ===== *)
(** * Browser tool: actions

    src/src/agents/tools/browser-tool.ts, [createBrowserTool]: every action of the
    tool in an installation without the optional package Playwright, where the
    engine that fetches pages does the work: [hasLiveEngine] is false, no tab has a
    live page, and [ensureLiveRuntime] throws.  What an action does with a live page
    is not modelled.

    An action is a computation over the shared tabs, the log of what was sent and
    the clock; it may throw, and keeps what it changed before.  A tab is an object
    the state and the action share: every change of it is put back.  One call runs
    at a time.  The network, the search service, Firefox and the launcher of the
    desktop browser answer according to the number of requests before. *)

From stdpp Require Import base list sets strings pretty.
From Stdlib Require Import ZArith Ascii Lia.
From S2P Require Import Prelude JsString JsMap JsValue Json JsRegex JsRegexExec MemoryStore Ecommerce WebSearch WebTools BrowserPage BrowserTabs.
#[local] Open Scope nat_scope.

(** ** Computations *)

Inductive event :=
| Sent (r : fetch_request)
| Searched (query : string) (count : Z) (region : string)
| Launched (url : string) (timeoutMs : Z)
| Photographed (url : string) (timeoutMs width height : Z)
| Waited (ms : Z).
Record bworld := mkB { b_state : BrowserState; b_log : list event; b_now : Z }.
Definition tool (A : Type) : Type := bworld -> bworld * result A.
Definition ret {A} (a : A) : tool A := fun w => (w, Ok a).
Definition throw {A} (m : string) : tool A := fun w => (w, Throw m).
Definition lift {A} (r : result A) : tool A := fun w => (w, r).
Definition tbind {A B} (m : tool A) (k : A -> tool B) : tool B := fun w =>
  let '(w', r) := m w in match r with Ok a => k a w' | Throw e => (w', Throw e) end.
Notation "'let!' x := e 'in' k" := (tbind e (fun x => k))
  (at level 10, x pattern, e at level 100, k at level 200) : t560_scope.
Definition now : tool Z := fun w => (w, Ok (b_now w)).
Definition state : tool BrowserState := fun w => (w, Ok (b_state w)).
Definition set_state (f : BrowserState -> BrowserState) : tool unit := fun w => (mkB (f (b_state w)) (b_log w) (b_now w), Ok tt).
(** Something is sent and answered after a while. *)
Definition ask {A} (e : event) (answer : nat -> nat * result A) : tool A := fun w =>
  let '(elapsed, r) := answer (length (b_log w)) in
  (mkB (b_state w) (b_log w ++ [e]) (b_now w + Z.of_nat elapsed), r).
(** The object is in the state: a change of it is a change there. *)
Definition put (t : BrowserTab) : tool BrowserTab := let! _ := set_state (update_tab (t_id t) (fun _ => t)) in ret t.

Record browser_options := mkBrowserOptions { op_sandboxBridgeUrl : string; op_allowHostControl : bool; op_allowLiveEngine : bool }.
Record outside := mkOutside {
  platform : string;
  URL : string -> option string -> option page_url;
  canonical : string -> option url_parts;
  Date_parse : string -> option Z;
  from_utf8 : list ascii -> string;
  fetch : fetch_request -> nat -> nat * result fetch_answer;
  duckDuckGo : string -> Z -> string -> nat -> nat * result (list SearchResult);
  launcher : string -> Z -> nat -> nat * result (list string);
  firefox : string -> Z -> Z -> Z -> nat -> nat * result (string * Z) }.

Section Tool.
Variable out : outside.
Variable options : browser_options.
Notation URL := (URL out).

(** ** Snapshots *)

Definition limits (params : value) : fetch_limits :=
  mkLimits (clamp (get_prop "timeoutMs" params) 1000 120000 DEFAULT_TIMEOUT_MS)
    (Z.to_nat (clamp (get_prop "maxBytes" params) 10000 500000 DEFAULT_MAX_BYTES))
    (Z.to_nat (clamp (get_prop "maxChars" params) 500 80000 DEFAULT_MAX_CHARS))
    (Z.to_nat (clamp (get_prop "maxLinks" params) 1 200 DEFAULT_MAX_LINKS)).
Definition timeout (params : value) : Z := clamp (get_prop "timeoutMs" params) 1000 120000 DEFAULT_TIMEOUT_MS.
Definition with_refs (refs : list BrowserElementRef) (s : BrowserSnapshot) : BrowserSnapshot :=
  mkSnapshot (sn_capturedAt s) (sn_url s) (sn_title s) (sn_status s) (sn_ok s) (sn_contentType s) (sn_truncated s) (sn_bytes s) (sn_text s)
    (sn_links s) refs.
(** The tab after its page was read at [at_]. *)
Definition shown (at_ : Z) (f : BrowserFetchResult) (t : BrowserTab) : BrowserTab * BrowserSnapshot :=
  let forms := parseForms URL (fr_html f) (sn_url (fr_snapshot f)) in
  let snap := with_refs (buildSnapshotRefs (sn_links (fr_snapshot f)) forms) (fr_snapshot f) in
  let cookies := upsertTabCookies (Date_parse out) at_ (fr_setCookies f) (t_cookies t) in
  let title := if truthy (sn_title snap) then sn_title snap else t_title t in
  (touch at_ (at_page (sn_url snap) title (<[t_historyIndex t := sn_url snap]> (t_history t)) (t_historyIndex t)
     (with_page (Some snap) (fr_html f) forms (buildDefaultFormValues forms) (with_cookies cookies t))), snap).
Definition captureTabSnapshot (t : BrowserTab) (params : value) (request : option page_request) : tool (BrowserTab * BrowserSnapshot) :=
  let lim := limits params in
  let r := default (mkPageRequest m_get (t_url t) None) request in
  let rq := snapshot_request r (lm_timeoutMs lim) (buildCookieHeader (t_cookies t)) in
  let! res := ask (Sent rq) (fetch out rq) in
  let! at_ := now in
  let! f := lift (read_answer URL (from_utf8 out) (pr_url r) lim at_ res) in
  let '(t', snap) := shown at_ f t in
  let! _ := put t' in
  ret (t', snap).
Fixpoint capture_tries (left attempts : nat) (t : BrowserTab) (params : value) : tool (BrowserTab * BrowserSnapshot * nat) := fun w =>
  match captureTabSnapshot t params None w with
  | (w', Ok (t', snap)) => (w', Ok (t', snap, S attempts))
  | (w', Throw e) => match left with 0 => (w', Throw e) | S left' => capture_tries left' (S attempts) t params w' end
  end.
Definition captureTabSnapshotWithRetries (t : BrowserTab) (params : value) : tool (BrowserTab * BrowserSnapshot * nat) :=
  capture_tries (Z.to_nat (clamp (get_prop "maxRetries" params) 0 4 DEFAULT_ACTION_MAX_RETRIES)) 0 t params.
(** The snapshot an action ends with, where it asks for one. *)
Definition maybe_capture (wanted : bool) (t : BrowserTab) (params : value) (request : option page_request) : tool (BrowserTab * option BrowserSnapshot) :=
  if wanted then let! c := captureTabSnapshot t params request in ret (c.1, Some c.2) else ret (t, None).
Definition maybe_retry (wanted : bool) (t : BrowserTab) (params : value) : tool (BrowserTab * option BrowserSnapshot * nat) :=
  if wanted then let! c := captureTabSnapshotWithRetries t params in ret (c.1.1, Some c.1.2, c.2) else ret (t, None, 1).
(** [if (!tab.lastSnapshot) await captureTabSnapshot(tab, params)] *)
Definition seeded (t : BrowserTab) (params : value) : tool BrowserTab :=
  match t_lastSnapshot t with
  | Some _ => ret t
  | None => let! c := captureTabSnapshot t params None in ret c.1
  end.

(** ** Tabs *)

Definition open_tab (url : string) : tool BrowserTab :=
  let! t0 := now in
  let! s := state in
  let '(tab, s') := createTab URL t0 url s in
  let! _ := set_state (fun _ => s') in
  ret tab.
(** [setActiveTab] *)
Definition activate (t : BrowserTab) : tool BrowserTab :=
  let! t0 := now in
  let! _ := set_state (setActiveTab t0 (t_id t)) in
  ret (touch t0 t).
Definition find_tab (params : value) : tool BrowserTab := let! s := state in lift (resolveTab (get_prop "tabId" params) s).
(** How most actions begin. *)
Definition take_tab (params : value) : tool BrowserTab := let! t := find_tab params in activate t.
Definition navigate_to (url : string) (t : BrowserTab) : tool BrowserTab :=
  let! t0 := now in
  let! t' := lift (navigateTab URL t0 url t) in
  put t'.

(** ** Results *)

Definition num_v (z : Z) : value := VNum (NInt z).
Definition count_v (n : nat) : value := num_v (Z.of_nat n).
Definition or_null {A} (f : A -> value) (o : option A) : value := match o with Some a => f a | None => VNull end.
Definition or_undef {A} (f : A -> value) (o : option A) : value := match o with Some a => f a | None => VUndef end.
Definition serializeTab (t : BrowserTab) : value :=
  VObj [("id", VStr (t_id t)); ("engine", VStr "fetch"); ("url", VStr (t_url t)); ("title", VStr (t_title t));
        ("createdAt", num_v (t_createdAt t)); ("updatedAt", num_v (t_updatedAt t)); ("historyLength", count_v (length (t_history t)));
        ("historyIndex", count_v (t_historyIndex t)); ("hasSnapshot", VBool (bool_decide (is_Some (t_lastSnapshot t))));
        ("formsCount", count_v (length (t_forms t))); ("cookieCount", count_v (length (t_cookies t))); ("consoleCount", count_v 0);
        ("downloadCount", count_v 0); ("dialogArmed", VBool false)].
Definition link_v (l : BrowserLink) : value := VObj [("index", num_v (l_index l)); ("text", VStr (l_text l)); ("url", VStr (l_url l))].
Definition ref_v (r : BrowserElementRef) : value :=
  VObj ([("ref", VStr (rf_ref r)); ("kind", VStr (kind_name (rf_kind r))); ("role", VStr (rf_role r)); ("name", VStr (rf_name r))]
        ++ optional "url" (option_map VStr (rf_url r)) ++ optional "formIndex" (option_map count_v (rf_formIndex r))
        ++ optional "fieldName" (option_map VStr (rf_fieldName r))
        ++ optional "method" (option_map (fun m => VStr (method_name m)) (rf_method r))
        ++ optional "selector" (option_map VStr (rf_selector r))).
Definition refs_v (l : list BrowserElementRef) : value := VArr (map ref_v l).
Definition snapshot_v (s : BrowserSnapshot) : value :=
  VObj [("capturedAt", num_v (sn_capturedAt s)); ("url", VStr (sn_url s)); ("title", VStr (sn_title s)); ("status", num_v (sn_status s));
        ("ok", VBool (sn_ok s)); ("contentType", VStr (sn_contentType s)); ("truncated", VBool (sn_truncated s));
        ("bytes", count_v (sn_bytes s)); ("text", VStr (sn_text s)); ("links", VArr (map link_v (sn_links s))); ("refs", refs_v (sn_refs s))].
Definition snap_v : option BrowserSnapshot -> value := or_null snapshot_v.
Definition field_v (d : BrowserFormField) : value :=
  VObj [("name", VStr (fd_name d)); ("type", VStr (fd_type d)); ("value", VStr (fd_value d)); ("required", VBool (fd_required d))].
Definition form_v (f : BrowserForm) : value :=
  VObj [("index", count_v (fm_index f)); ("method", VStr (method_name (fm_method f))); ("action", VStr (fm_action f));
        ("fields", VArr (map field_v (fm_fields f)))].
Definition row_v (row : list (string * string)) : value := VObj (map (fun e => (e.1, VStr e.2)) row).
Definition formValues_v (vals : list (nat * list (string * string))) : value := VObj (map (fun e => (pretty e.1, row_v e.2)) vals).
Definition row_of (form : BrowserForm) (t : BrowserTab) : list (string * string) := default [] (mget (fm_index form) (t_formValues t)).
Definition active_v (s : BrowserState) : value := or_null VStr (s_activeTabId s).
Definition ok_with (fields : list (string * value)) : value := VObj (("ok", VBool true) :: fields).
Definition tab_fields (t : BrowserTab) (snap : option BrowserSnapshot) : list (string * value) :=
  [("engine", VStr "fetch"); ("activeTabId", VStr (t_id t)); ("tab", serializeTab t); ("snapshot", snap_v snap)].

(** ** The engine *)

Definition resolveEngine (requested : engine_mode) (params : value) : result unit :=
  match requested with
  | e_live => if shouldAllowEngineFallback params then Ok tt
              else Throw "engine=live requested but unavailable, and allowEngineFallback=false."
  | _ => Ok tt
  end.
Definition UNAVAILABLE : string :=
  "live browser engine unavailable: Playwright is not installed. Install with: npm install playwright && npx playwright install chromium".
Definition engine_fields (requested : engine_mode) (retryCount : nat) : list (string * value) :=
  let live := bool_decide (requested = e_live) in
  [("engine", VStr "fetch"); ("requestedEngine", VStr (engine_name requested));
   ("fallbackFrom", if live then VStr "live" else VUndef);
   ("fallbackReason", if live then VStr "live engine unavailable; using fetch fallback." else VUndef);
   ("retryCount", count_v retryCount)].

Section Actions.
(** The call, after its arguments were read. *)
Variables (params : value) (requested : engine_mode) (target profile : string).
Notation given k := (get_prop k params).
Notation snapshotAfter := (not_false (given "snapshotAfter")).
Notation snapshotWanted := (is_true (given "snapshotAfter")).
Notation engine := (lift (resolveEngine requested params)).
Definition defaultTarget : string := if truthy (op_sandboxBridgeUrl options) then "sandbox" else "host".

(** ** The tool itself *)

Definition capabilities : list string :=
  ["start"; "stop"; "profiles"; "tabs"; "snapshot"; "refs"; "search"; "click"; "forms"; "products"; "launch"; "login"; "mfa"; "challenge";
   "fill"; "submit"; "hover"; "press"; "select"; "drag"; "evaluate"; "upload"; "dialog"; "console"; "downloads"; "pdf"; "scroll"; "resize";
   "wait"; "wait_for_request"; "screenshot"; "diagnostics"].
Definition tab_count (s : BrowserState) : list (string * value) :=
  [("activeTabId", active_v s); ("tabCount", count_v (length (s_tabs s)))].
Definition action_status : tool value :=
  let! s := state in
  ret (ok_with ([("engine", VStr "fetch-html"); ("requestedEngine", VStr (engine_name requested)); ("liveAvailable", VBool false);
                 ("allowLiveEngine", VBool (op_allowLiveEngine options)); ("liveRunning", VBool false); ("liveTabCount", count_v 0);
                 ("sharedState", VBool true); ("profile", VStr profile); ("target", VStr target); ("targetDefault", VStr defaultTarget);
                 ("sandboxBridgeConfigured", VBool (truthy (op_sandboxBridgeUrl options)));
                 ("hostControlAllowed", VBool (op_allowHostControl options)); ("nodeProxyAvailable", VBool false);
                 ("capabilities", VArr (map VStr capabilities))] ++ tab_count s ++ [("createdAt", num_v (s_createdAt s))])).
Definition action_launch : tool value :=
  let! url := lift (normalizeHttpUrl URL (nullish (given "url") (VStr "https://www.google.com/")) None) in
  let ms := timeout params in
  let! command := ask (Launched url ms) (launcher out url ms) in
  ret (ok_with [("action", VStr "launch"); ("launched", VBool true); ("url", VStr url); ("command", VArr (map VStr command));
                ("platform", VStr (platform out)); ("visibleToUser", VBool true)]).
Definition action_start : tool value :=
  let! _ := engine in
  let! s := state in
  ret (ok_with ([("started", VBool true); ("profile", VStr profile); ("target", VStr target); ("liveAvailable", VBool false);
                 ("liveRunning", VBool false); ("engine", VStr "fetch"); ("warning", VNull)] ++ tab_count s)).
Definition action_stop : tool value :=
  let! s := state in
  ret (ok_with ([("stopped", VBool true); ("profile", VStr profile); ("target", VStr target); ("liveAvailable", VBool false);
                 ("liveRunning", VBool false)] ++ tab_count s)).
Definition action_profiles : tool value :=
  ret (ok_with [("profile", VStr profile);
                ("profiles", VArr [VObj [("id", VStr "default"); ("label", VStr "Default"); ("engine", VStr "fetch")]])]).
Definition action_tabs : tool value :=
  let! s := state in ret (ok_with [("activeTabId", active_v s); ("tabs", VArr (map serializeTab (s_tabs s)))]).
Definition action_reset : tool value :=
  let! _ := set_state (fun s => mkState (s_createdAt s) 1 None []) in ret (ok_with [("reset", VBool true)]).

(** ** Pages *)

Definition action_open : tool value :=
  let! url := lift (normalizeHttpUrl URL (nullish (given "url") (VStr "https://duckduckgo.com/")) None) in
  let! t := open_tab url in
  let! _ := engine in
  let! (t, snap, n) := maybe_retry snapshotAfter t params in
  let! s := state in
  ret (ok_with (engine_fields requested n ++ [("activeTabId", active_v s); ("tab", serializeTab t); ("snapshot", snap_v snap)])).
Definition action_focus : tool value :=
  let! t := take_tab params in ret (ok_with [("activeTabId", VStr (t_id t)); ("tab", serializeTab t)]).
Definition action_close : tool value :=
  let! t := find_tab params in
  let! _ := set_state (closeTab (t_id t)) in
  let! s := state in
  ret (ok_with [("closedTabId", VStr (t_id t)); ("activeTabId", active_v s); ("tabs", VArr (map serializeTab (s_tabs s)))]).
Definition action_search : tool value :=
  let query := text_of (given "query") in
  if negb (truthy query) then throw "query is required for search."
  else
    let count := clamp (given "count") 1 20 DEFAULT_SEARCH_COUNT in
    let wished := trim (to_string (nullish (given "region") (VStr "wt-wt"))) in
    let region := if truthy wished then wished else "wt-wt" in
    let! results := ask (Searched query count region) (duckDuckGo out query count region) in
    let answer opened engine_ fallbackFrom reason n snap :=
      ok_with [("query", VStr query); ("region", VStr region); ("count", count_v (length results)); ("results", VArr (map result_value results));
               ("openedTab", opened); ("openedEngine", engine_); ("openedFallbackFrom", fallbackFrom); ("openedFallbackReason", reason);
               ("openedRetryCount", count_v n); ("snapshot", snap)] in
    match results with
    | r :: _ =>
        if is_true (given "openFirstResult") then
          let! t := open_tab (r_url r) in
          let! _ := engine in
          let! (t, snap, n) := captureTabSnapshotWithRetries t params in
          let live := bool_decide (requested = e_live) in
          ret (answer (serializeTab t) (VStr "fetch") (if live then VStr "live" else VUndef)
                 (if live then VStr "live engine unavailable; using fetch fallback." else VUndef) n (snapshot_v snap))
        else ret (answer VNull VNull VUndef VUndef 1 VNull)
    | [] => ret (answer VNull VNull VUndef VUndef 1 VNull)
    end.
Definition action_navigate : tool value :=
  let! t := find_tab params in
  let! url := lift (normalizeHttpUrl URL (given "url") None) in
  let! t := navigate_to url t in
  let! t := activate t in
  let! _ := engine in
  let! (t, snap, n) := maybe_retry snapshotAfter t params in
  ret (ok_with (engine_fields requested n ++ [("activeTabId", VStr (t_id t)); ("tab", serializeTab t); ("snapshot", snap_v snap)])).
Definition action_reload : tool value :=
  let! t := take_tab params in
  let! _ := engine in
  let! (t, snap, n) := maybe_retry snapshotAfter t params in
  ret (ok_with (engine_fields requested n ++ [("activeTabId", VStr (t_id t)); ("tab", serializeTab t); ("snapshot", snap_v snap)])).
Definition action_snapshot : tool value :=
  let explicitUrl := text_of (given "url") in
  let! t := if truthy explicitUrl && negb (truthy (text_of (given "tabId")))
            then let! url := lift (normalizeHttpUrl URL (VStr explicitUrl) None) in open_tab url
            else find_tab params in
  let! t := activate t in
  let! _ := engine in
  let! (t, snap, n) := captureTabSnapshotWithRetries t params in
  ret (ok_with (engine_fields requested n ++
    [("activeTabId", VStr (t_id t)); ("tab", serializeTab t); ("snapshot", snapshot_v snap); ("forms", VArr (map form_v (t_forms t)));
     ("refs", refs_v (sn_refs snap))])).
Definition action_forms : tool value :=
  let! t := take_tab params in
  let! t := match t_lastSnapshot t with Some _ => ret t | None => let! _ := engine in seeded t params end in
  ret (ok_with [("activeTabId", VStr (t_id t)); ("tab", serializeTab t); ("forms", VArr (map form_v (t_forms t)));
                ("formValues", formValues_v (t_formValues t));
                ("refs", match t_lastSnapshot t with Some s => refs_v (sn_refs s) | None => VArr [] end)]).
Definition action_products : tool value :=
  let! t := take_tab params in
  let! _ := engine in
  let! t := match t_lastSnapshot t with Some _ => ret t | None => let! c := captureTabSnapshotWithRetries t params in ret c.1.1 end in
  let wished := text_of (given "query") in
  let query := if truthy wished then wished else if truthy (t_title t) then t_title t else t_url t in
  let limit := Z.to_nat (clamp (given "limit") 1 50 12) in
  let content := JSON_stringify (VObj [("snapshot", snap_v (t_lastSnapshot t)); ("html", VStr (t_lastHtml t))]) in
  let candidates := extractEcommerceCandidates (canonical out) query [mkOutcome "browser" content] limit in
  let cheapest := c ← pickCheapestCandidate candidates; p ← ec_price c;
    Some (VObj [("title", VStr (rc_title (ec_raw c))); ("url", VStr (rc_url (ec_raw c))); ("price", price_value p);
                ("sourceTool", VStr (rc_sourceTool (ec_raw c)))]) in
  ret (ok_with [("engine", VStr "fetch"); ("activeTabId", VStr (t_id t)); ("query", VStr query); ("count", count_v (length candidates));
                ("products", VArr (map candidate_value candidates)); ("cheapest", or_null id cheapest); ("tab", serializeTab t);
                ("snapshot", snap_v (t_lastSnapshot t))]).
(** Signing in and one-time codes need a live page. *)
Definition action_live_login : tool value := let! _ := take_tab params in throw UNAVAILABLE.
Definition challenge_v (c : challenge) : value :=
  VObj [("detected", VBool (ch_detected c)); ("provider", or_null VStr (ch_provider c)); ("confidence", VStr (confidence_name (ch_confidence c)));
        ("signals", VArr (map VStr (ch_signals c))); ("url", VStr (ch_url c))].
Definition action_challenge : tool value :=
  let! t := take_tab params in
  let! _ := engine in
  let! t := match t_lastSnapshot t with Some _ => ret t | None => let! c := captureTabSnapshotWithRetries t params in ret c.1.1 end in
  let c := detectInteractiveChallengeFromFetchSnapshot t in
  let! (t, snap) := maybe_capture snapshotWanted t params None in
  ret (ok_with (tab_fields t snap ++ [("humanVerificationRequired", VBool (ch_detected c)); ("challenge", challenge_v c)])).

(** ** Forms *)

Definition action_fill (action : string) : tool value :=
  let! t := take_tab params in
  let! _ := engine in
  if truthy (getExplicitSelector params) then throw "selector-based fill/type requires engine=live."
  else
    let! t := seeded t params in
    let! form := lift (resolveForm t (given "formIndex") (given "ref")) in
    let! field := lift (resolveFormField t form (given "fieldName") (given "ref")) in
    let text := to_string (nullish (given "value") (VStr "")) in
    let! t0 := now in
    let! t := put (touch t0 (set_form_value form (fd_name field) text t)) in
    ret (ok_with [("engine", VStr "fetch"); ("activeTabId", VStr (t_id t)); ("action", VStr action); ("formIndex", count_v (fm_index form));
                  ("fieldName", VStr (fd_name field)); ("value", VStr text); ("formValues", row_v (row_of form t))]).
(** The form is sent: the tab goes to the address with the fields, or to that of the
    form with the fields in the body. *)
Definition send_form (t : BrowserTab) (form : BrowserForm) (wanted : bool) : tool (BrowserTab * option BrowserSnapshot * option string) :=
  let payload := collectFormPayload t form in
  match fm_method form with
  | m_get =>
      match URL (fm_action form) None with
      | None => throw "Invalid URL"
      | Some u =>
          let target := u_append u payload in
          let! t := navigate_to target t in
          let! c := maybe_capture wanted t params None in
          ret (c, Some target)
      end
  | m_post =>
      let! t := navigate_to (fm_action form) t in
      let! c := maybe_capture wanted t params (Some (mkPageRequest m_post (fm_action form) (Some (urlencoded payload)))) in
      ret (c, None)
  end.
Definition action_submit : tool value :=
  let! t := take_tab params in
  let! t := match t_lastSnapshot t with Some _ => ret t | None => let! _ := engine in seeded t params end in
  let! form := lift (resolveForm t (given "formIndex") (given "ref")) in
  let! _ := lift (assertNotSocialAuthTarget "" (fm_action form) "submit") in
  let size := slen (urlencoded (collectFormPayload t form)) in
  let! _ := engine in
  let! (t, snap, submittedUrl) := send_form t form true in
  ret (ok_with (tab_fields t snap ++
    [("method", VStr (method_name (fm_method form))); ("actionUrl", VStr (fm_action form));
     match submittedUrl with Some u => ("submittedUrl", VStr u) | None => ("submittedBytes", count_v size) end;
     ("formIndex", count_v (fm_index form))])).

(** ** Links *)

Definition action_click : tool value :=
  let! t := take_tab params in
  let! t := match t_lastSnapshot t with Some _ => ret t | None => let! _ := engine in seeded t params end in
  let! _ := engine in
  let! byRef := lift (resolveSnapshotRef t (given "ref")) in
  if truthy (getExplicitSelector params) then throw "selector-based click requires engine=live."
  else
    let link := match byRef with
                | Some r => if bool_decide (rf_kind r = k_link) && truthy (default "" (rf_url r))
                            then Ok (mkLink (-1) (rf_name r) (default "" (rf_url r))) else findClickTarget t params
                | None => findClickTarget t params
                end in
    let follow :=
      let! l := lift link in
      let! _ := lift (assertNotSocialAuthTarget (l_text l) (l_url l) "click") in
      let! t := navigate_to (l_url l) t in
      let! (t, snap) := maybe_capture snapshotAfter t params None in
      ret (ok_with (tab_fields t snap ++ [("clicked", link_v l)])) in
    match byRef with
    | Some r =>
        if bool_decide (rf_kind r = k_submit) then
          let! form := lift (resolveForm t (or_undef count_v (rf_formIndex r)) (VStr (rf_ref r))) in
          let! _ := lift (assertNotSocialAuthTarget (rf_name r) (fm_action form) "click submission") in
          let! (t, snap, _) := send_form t form snapshotAfter in
          ret (ok_with (tab_fields t snap ++
            [("clicked", VObj [("ref", VStr (rf_ref r)); ("kind", VStr (kind_name (rf_kind r))); ("name", VStr (rf_name r))]);
             ("method", VStr (method_name (fm_method form)))]))
        else follow
    | None => follow
    end.
Definition action_move (back : bool) : tool value :=
  let! t := take_tab params in
  let! _ := engine in
  let i := t_historyIndex t in
  let nextIndex := if back then i - 1 else Nat.min (length (t_history t) - 1) (S i) in
  if nextIndex =? i then
    ret (ok_with [("engine", VStr "fetch"); ("activeTabId", VStr (t_id t)); ("tab", serializeTab t); ("moved", VBool false);
                  ("reason", VStr (if back then "already at oldest history entry" else "already at latest history entry"))])
  else
    let url := default "" (t_history t !! nextIndex) in
    let! t0 := now in
    let! t := put (touch t0 (clearTabTransient (at_page url (summarizeTitleFromUrl URL url) (t_history t) nextIndex t))) in
    let! (t, snap) := maybe_capture snapshotAfter t params None in
    ret (ok_with (tab_fields t snap ++ [("moved", VBool true)])).

(** ** The rest *)

Definition action_screenshot : tool value :=
  let take := negb (is_undef (given "tabId")) || is_undef (given "url") in
  let! tab := if take then let! t := take_tab params in ret (Some t) else ret None in
  let! _ := engine in
  let requestedType := toLowerCase (text_of (given "type")) in
  let jpeg := bool_decide (requestedType ∈ ["jpeg"; "jpg"]) in
  let! url := match tab with Some t => ret (t_url t) | None => lift (normalizeHttpUrl URL (given "url") None) end in
  let ms := timeout params in
  let width := clamp (given "width") 320 4096 DEFAULT_SCREENSHOT_WIDTH in
  let height := clamp (given "height") 240 4096 DEFAULT_SCREENSHOT_HEIGHT in
  let! (path, bytes) := ask (Photographed url ms width height) (firefox out url ms width height) in
  let! s := state in
  ret (ok_with [("engine", VStr "fetch"); ("activeTabId", match tab with Some t => VStr (t_id t) | None => active_v s end);
                ("screenshot", VObj [("path", VStr path); ("bytes", num_v bytes); ("width", num_v width); ("height", num_v height);
                   ("url", VStr url); ("type", VStr "png"); ("mimeType", VStr "image/png");
                   ("requestedType", if truthy requestedType then VStr requestedType else VUndef);
                   ("warning", if negb (bool_decide (is_Some tab)) && jpeg
                               then VStr "jpeg output requires engine=live; returned png screenshot." else VUndef)])]).
Definition action_wait : tool value :=
  let delayMs := clamp (given "timeMs") 0 120000 DEFAULT_WAIT_MS in
  let! s := state in
  let! tab := if negb (is_undef (given "tabId")) then let! t := find_tab params in ret (Some t) else ret (getActiveTab s) in
  let! _ := engine in
  let! tab := match tab with Some t => let! t := activate t in ret (Some t) | None => ret None end in
  let! _ := ask (Waited delayMs) (fun _ => (Z.to_nat delayMs, Ok tt)) in
  match tab with
  | None => ret (ok_with [("waitedMs", num_v delayMs); ("engine", VStr "fetch")])
  | Some t =>
      let textGone := text_of (given "textGone") in
      let! (t, snap) := maybe_capture snapshotWanted t params None in
      ret (ok_with (tab_fields t snap ++
        [("waitedMs", num_v delayMs); ("textGone", if truthy textGone then VStr textGone else VUndef)]))
  end.
Definition action_live (action : string) : tool value :=
  let! _ := take_tab params in
  let! _ := engine in
  throw (action +:+ " requires engine=live.").
Definition action_log (name : string) : tool value :=
  let! t := take_tab params in
  let! _ := engine in
  ret (ok_with [("engine", VStr "fetch"); ("activeTabId", VStr (t_id t)); (name, VArr []); ("count", count_v 0); ("total", count_v 0)]).
Definition live_only : list string :=
  ["wait_for_request"; "scroll"; "resize"; "hover"; "press"; "select"; "drag"; "evaluate"; "upload"; "dialog"; "pdf"].

(** ** Acting *)

Variable self : value -> tool value.
Definition act_kinds : list string :=
  ["click"; "type"; "fill"; "submit"; "navigate"; "wait"; "wait_for_request"; "hover"; "press"; "select"; "drag"; "evaluate"; "upload";
   "dialog"; "console"; "downloads"; "pdf"; "scroll"; "resize"; "login"; "mfa"; "challenge"; "close"].
(** [{ kind, ...result }] unless the result has a kind. *)
Definition with_kind (extra : list (string * value)) (result : value) : value :=
  if is_object result && negb (has_prop "kind" result) then VObj (fold_left (fun ps f => mset f.1 f.2 ps) (object_entries result) extra) else result.
Definition first_given (ks : list value) : value := fold_right nullish VUndef ks.
Definition fill_params (row : value) : value :=
  let field k := get_prop k row in
  spread params
    [("action", VStr "fill"); ("fields", VUndef); ("ref", first_given [field "ref"; field "fieldRef"; given "ref"]);
     ("selector", first_given [field "selector"; given "selector"]); ("formIndex", first_given [field "formIndex"; given "formIndex"]);
     ("fieldName", first_given [field "fieldName"; field "name"; given "fieldName"]);
     ("value", first_given [field "value"; field "text"; VStr ""])].
Fixpoint fill_rows (rows : list value) (last : value) : tool value :=
  match rows with
  | [] => ret last
  | row :: rest => let! r := self (fill_params row) in fill_rows rest r
  end.
Definition dash_to_underscore (s : string) : string := of_chars (map (fun c => if is_char "-" c then "_"%char else c) (chars s)).
Definition action_act : tool value :=
  let kind := dash_to_underscore (toLowerCase (trim (to_string (nullish (given "kind") (VStr "click"))))) in
  let rows := List.filter is_object (array_items (given "fields")) in
  if (kind =? "fill")%string && negb (length rows =? 0) then
    let! result := fill_rows rows VNull in
    ret (with_kind [("kind", VStr kind); ("batch", VBool true); ("filled", count_v (length rows))] result)
  else if bool_decide (kind ∈ act_kinds) then
    let! result := self (spread params [("action", VStr kind)]) in
    ret (with_kind [("kind", VStr kind)] result)
  else throw ("unsupported act kind: " +:+ kind).

Definition run_action (action : string) : tool value :=
  if bool_decide (action ∈ live_only) then action_live action
  else match action with
  | "status" | "diagnostics" => action_status
  | "launch" => action_launch
  | "start" => action_start
  | "stop" => action_stop
  | "profiles" => action_profiles
  | "tabs" => action_tabs
  | "reset" => action_reset
  | "open" => action_open
  | "focus" => action_focus
  | "close" => action_close
  | "search" => action_search
  | "navigate" => action_navigate
  | "reload" => action_reload
  | "snapshot" => action_snapshot
  | "forms" => action_forms
  | "products" => action_products
  | "login" | "mfa" => action_live_login
  | "challenge" => action_challenge
  | "type" | "fill" => action_fill action
  | "submit" => action_submit
  | "screenshot" => action_screenshot
  | "wait" => action_wait
  | "console" => action_log "messages"
  | "downloads" => action_log "downloads"
  | "click" => action_click
  | "act" => action_act
  | "back" => action_move true
  | "forward" => action_move false
  | _ => throw ("unsupported browser action: " +:+ action)
  end.
End Actions.

(** ** The call *)

Definition actionAliases : list (string * string) :=
  [("wait-for-request", "wait_for_request"); ("waitforrequest", "wait_for_request"); ("wait-for-network", "wait_for_request");
   ("captcha", "challenge"); ("human-check", "challenge"); ("human_check", "challenge"); ("human-verification", "challenge")].
Definition resolve_target (params : value) : result string :=
  let targetRaw := toLowerCase (text_of (get_prop "target" params)) in
  let target := if truthy targetRaw then targetRaw else defaultTarget in
  if truthy targetRaw && negb (bool_decide (targetRaw ∈ ["host"; "sandbox"; "node"])) then Throw "target must be one of: host|sandbox|node"
  else if (target =? "sandbox")%string && negb (truthy (op_sandboxBridgeUrl options)) then
    Throw ("Sandbox browser is unavailable. Enable agents.defaults.sandbox.browser.enabled or use target=" +:+ dq +:+ "host" +:+ dq +:+ " if allowed.")
  else if (target =? "host")%string && negb (op_allowHostControl options) then Throw "Host browser control is disabled by sandbox policy."
  else if (target =? "node")%string || truthy (text_of (get_prop "node" params)) then
    Throw "target=node is not supported in this t560 browser build (browser proxy is unavailable)."
  else Ok target.
Definition execute_with (self : value -> tool value) (rawParams : value) : tool value :=
  let params := normalizeBrowserActionParams rawParams in
  let actionRaw := toLowerCase (text_of (get_prop "action" params)) in
  match obj_lookup actionRaw actionAliases with
  | Inherited =>
      let! _ := lift (resolve_target params) in
      let! _ := lift (normalizeEngineParam (get_prop "engine" params)) in
      throw ("unsupported browser action: " +:+ inherited_text actionRaw)
  | found =>
      let action := match found with Own a => a | _ => actionRaw end in
      if negb (truthy action) then throw "action is required."
      else
        let! target := lift (resolve_target params) in
        let wished := text_of (get_prop "profile" params) in
        let! requested := lift (normalizeEngineParam (get_prop "engine" params)) in
        run_action params requested target (if truthy wished then wished else "default") self action
  end.
(** An act is not an act again: two levels are all there are. *)
Fixpoint execute_depth (n : nat) (rawParams : value) : tool value :=
  match n with
  | 0 => throw "unreachable"
  | S n' => execute_with (execute_depth n') rawParams
  end.
Definition execute : value -> tool value := execute_depth 2.
End Tool.
