(* ===== verification/BrowserFacts.v ===== *)
(** * Browser tool: what every call keeps

    The invariant of the tabs and of the log of requests of [BrowserTool], by a small
    logic of triples over the computations of the tool: [triple P m Q] says that [m],
    started where [P] holds, keeps the invariant, also when it throws, and that [Q]
    holds of its result. *)

From stdpp Require Import base list sets strings pretty.
From Stdlib Require Import ZArith Ascii Lia.
From S2P Require Import Prelude JsString JsMap JsValue JsRegexExec MemoryStore WebSearch WebTools BrowserPage BrowserTabs BrowserTool.
#[local] Open Scope nat_scope.

Section Invariant.
Variable out : outside.
Variable options : browser_options.
(** What is to hold of every address: it holds of those the tool makes, and of those
    the search service gives. *)
Variable good : string -> Prop.
Notation URL := (URL out).
Definition found_good : Prop :=
  forall q c r n rows, (duckDuckGo out q c r n).2 = Ok rows -> Forall (fun row => good (r_url row)) rows.

(** A tab is at its place in its history; what it knows of a page is of that page. *)
Definition page_ok (t : BrowserTab) : Prop :=
  match t_lastSnapshot t with
  | None => t_forms t = []
  | Some s => sn_url s = t_url t /\ sn_refs s = buildSnapshotRefs (sn_links s) (t_forms t) /\ Forall (fun l => good (l_url l)) (sn_links s)
  end.
Record tab_ok (t : BrowserTab) : Prop := {
  to_at : t_history t !! t_historyIndex t = Some (t_url t);
  to_history : Forall good (t_history t);
  to_page : page_ok t;
  to_forms : map fm_index (t_forms t) = seq 1 (length (t_forms t)) /\ Forall (fun f => good (fm_action f)) (t_forms t);
  to_cookies : NoDup (keys (t_cookies t)) }.
(** The tabs have different ids, given before; there is an active one as long as there
    is any. *)
Record state_ok (s : BrowserState) : Prop := {
  so_distinct : NoDup (map t_id (s_tabs s));
  so_given : Forall (fun t => exists k, k < s_nextTabIndex s /\ t_id t = "tab-" +:+ pretty k) (s_tabs s);
  so_tabs : Forall tab_ok (s_tabs s);
  so_active : match s_activeTabId s with None => s_tabs s = [] | Some id => id ∈ map t_id (s_tabs s) end }.
Definition sent_good (e : event) : Prop :=
  match e with Sent r => good (rq_url r) | Launched u _ => good u | Photographed u _ _ _ => good u | _ => True end.
Definition inv (w : bworld) : Prop := state_ok (b_state w) /\ Forall sent_good (b_log w).
Definition held (t : BrowserTab) (w : bworld) : Prop := inv w /\ t ∈ s_tabs (b_state w).

Definition triple {A} (P : bworld -> Prop) (m : tool A) (Q : A -> bworld -> Prop) : Prop :=
  forall w, P w -> inv (m w).1 /\ forall a, (m w).2 = Ok a -> Q a (m w).1.

(** ** The rules *)

Lemma triple_bind {A B} P (m : tool A) Q (k : A -> tool B) R :
  triple P m Q -> (forall a, triple (Q a) (k a) R) -> triple P (tbind m k) R.
Proof.
  intros M K w Pw. unfold tbind. specialize (M w Pw). destruct (m w) as [w' [a|e]]; [|split; [apply M|done]].
  apply K, M. done.
Qed.
Lemma triple_pre {A} (P P' : bworld -> Prop) (m : tool A) Q : triple P' m Q -> (forall w, P w -> P' w) -> triple P m Q.
Proof. intros T I w Pw. by apply T, I. Qed.
Lemma triple_ret {A} (a : A) (P : bworld -> Prop) (Q : A -> bworld -> Prop) : (forall w, P w -> inv w /\ Q a w) -> triple P (ret a) Q.
Proof. intros H w Pw. destruct (H w Pw) as [I q]. split; [done|]. by intros b [= <-]. Qed.
Lemma triple_throw {A} m (P : bworld -> Prop) (Q : A -> bworld -> Prop) : (forall w, P w -> inv w) -> triple P (throw m) Q.
Proof. intros H w Pw. by split; [apply H|]. Qed.
Lemma triple_lift {A} (r : result A) (P : bworld -> Prop) : (forall w, P w -> inv w) -> triple P (lift r) (fun a w => P w /\ r = Ok a).
Proof. intros H w Pw. split; [by apply H|]. intros a E. split; [done|exact E]. Qed.
Lemma triple_now (P : bworld -> Prop) : (forall w, P w -> inv w) -> triple P now (fun _ w => P w).
Proof. intros H w Pw. by split; [apply H|]. Qed.
Lemma triple_state (P : bworld -> Prop) : (forall w, P w -> inv w) -> triple P state (fun s w => P w /\ s = b_state w).
Proof. intros H w Pw. split; [by apply H|]. by intros a [= <-]. Qed.
Lemma triple_if {A} (b : bool) (m m' : tool A) P Q : triple P m Q -> triple P m' Q -> triple P (if b then m else m') Q.
Proof. by destruct b. Qed.
Lemma held_inv t w : held t w -> inv w.
Proof. by intros []. Qed.
(** Asking leaves the tabs alone. *)
Lemma triple_ask {A} e (f : nat -> nat * result A) (P : bworld -> Prop) :
  (forall w, P w -> inv w) -> sent_good e ->
  triple P (ask e f) (fun a w' => exists w n, P w /\ (f n).2 = Ok a /\ inv w' /\ b_state w' = b_state w).
Proof.
  intros H G w Pw. unfold ask. destruct (f (length (b_log w))) as [elapsed r] eqn:E. cbn [fst snd].
  destruct (H w Pw) as [S L]. assert (inv (mkB (b_state w) (b_log w ++ [e]) (b_now w + Z.of_nat elapsed))) as I.
  { split; [done|]. cbn [b_log]. rewrite Forall_app. split; [done|by repeat constructor]. }
  split; [done|]. intros a ->. exists w, (length (b_log w)). by rewrite E.
Qed.

(** ** The tabs *)

Lemma update_ids id f s : (forall t, t_id (f t) = t_id t) -> map t_id (s_tabs (update_tab id f s)) = map t_id (s_tabs s).
Proof. intros F. cbn. rewrite map_map. apply map_ext. intros t. by destruct (_ =? _)%string. Qed.
Lemma updated_tabs_ok id f s :
  state_ok s -> (forall t, t ∈ s_tabs s -> t_id t = id -> tab_ok (f t) /\ t_id (f t) = id) -> state_ok (update_tab id f s).
Proof.
  intros [D G T A] F.
  assert (map t_id (s_tabs (update_tab id f s)) = map t_id (s_tabs s)) as I.
  { cbn. rewrite map_map. apply map_ext_in. intros t Ht. destruct (String.eqb_spec (t_id t) id) as [E|]; [|done].
    rewrite E. apply F; [by apply list_elem_of_In|done]. }
  split; rewrite ?I; try done.
  - cbn [s_tabs update_tab with_tabs s_nextTabIndex]. rewrite Forall_map. rewrite Forall_forall in *. intros t Ht.
    destruct (String.eqb_spec (t_id t) id) as [E|]; [|by apply G]. destruct (F t Ht E) as [_ ->]. rewrite <-E. by apply G.
  - cbn [s_tabs update_tab with_tabs]. rewrite Forall_map. rewrite Forall_forall in *. intros t Ht.
    destruct (String.eqb_spec (t_id t) id) as [E|]; [by apply F|by apply T].
  - cbn [s_activeTabId update_tab with_tabs s_tabs] in *. destruct (s_activeTabId s); [done|]. by rewrite A.
Qed.
Lemma touched_tab_ok t0 t : tab_ok t -> tab_ok (touch t0 t).
Proof. by intros [A H P F C]. Qed.
Lemma same_tab s t t' : state_ok s -> t ∈ s_tabs s -> t' ∈ s_tabs s -> t_id t' = t_id t -> t' = t.
Proof.
  intros [D _ _ _] (i & Hi)%list_elem_of_lookup (j & Hj)%list_elem_of_lookup E. assert (i = j) as <-.
  { eapply NoDup_lookup; [exact D| |]; rewrite list_lookup_fmap; [by rewrite Hi|rewrite Hj; simpl; by rewrite E]. }
  congruence.
Qed.
Lemma updated_in f s t : t ∈ s_tabs s -> f t ∈ s_tabs (update_tab (t_id t) f s).
Proof.
  intros H. cbn. apply list_elem_of_In, in_map_iff. exists t. rewrite String.eqb_refl. split; [done|]. by apply list_elem_of_In.
Qed.

Lemma triple_put t t' : tab_ok t' -> t_id t' = t_id t -> triple (held t) (put t') (fun a w => a = t' /\ held t' w).
Proof.
  intros O E w [[S L] T]. cbn. assert (state_ok (update_tab (t_id t') (fun _ => t') (b_state w))) as S'.
  { apply updated_tabs_ok; [done|]. intros u Hu Eu. done. }
  split; [by split|]. intros a [= <-]. split; [done|]. split; [by split|]. cbn [b_state]. rewrite E. by apply (updated_in (fun _ => t')).
Qed.
Lemma held_ok t w : held t w -> tab_ok t.
Proof. intros [[[_ _ T _] _] H]. rewrite Forall_forall in T. by apply T. Qed.
Lemma triple_replace t t' : (tab_ok t -> tab_ok t') -> t_id t' = t_id t -> triple (held t) (put t') held.
Proof.
  intros O E w H. destruct (triple_put t t' (O (held_ok _ _ H)) E w H) as [I Q]. split; [done|].
  intros a Ea. by destruct (Q a Ea) as [-> ?].
Qed.
Lemma triple_activate t : triple (held t) (activate t) (fun a w => t_id a = t_id t /\ held a w).
Proof.
  intros w [[S L] T]. cbn.
  assert (state_ok (setActiveTab (b_now w) (t_id t) (b_state w))) as S'.
  { unfold setActiveTab. destruct S as [D G O A]. apply updated_tabs_ok.
    - split; try done. cbn. by apply list_elem_of_fmap_2.
    - intros u Hu Eu. cbn in Hu. rewrite Forall_forall in O. split; [by apply touched_tab_ok, O|done]. }
  split; [by split|]. intros a [= <-]. split; [done|]. split; [by split|]. cbn [b_state].
  unfold setActiveTab. by apply (updated_in (touch (b_now w)) (with_tabs (Some (t_id t)) (s_tabs (b_state w)) (b_state w))).
Qed.
Lemma triple_activated t : triple (held t) (activate t) held.
Proof. intros w H. destruct (triple_activate t w H) as [I Q]. split; [done|]. intros a E. by apply Q. Qed.
Lemma found_in_tabs id s t : findTabById id s = Some t -> t ∈ s_tabs s.
Proof. unfold findTabById. case_goal; [done|]. intros [H _]%List.find_some. by apply list_elem_of_In. Qed.
Lemma active_in s t : getActiveTab s = Some t -> t ∈ s_tabs s.
Proof. unfold getActiveTab. repeat case_goal; try done. apply found_in_tabs. Qed.
Lemma triple_find params : triple inv (find_tab params) held.
Proof.
  intros w I. cbn. split; [done|]. unfold resolveTab. intros t R. split; [done|].
  repeat case_hyp R; simplify_eq; eauto using found_in_tabs, active_in.
Qed.
Lemma triple_take params : triple inv (take_tab params) held.
Proof.
  eapply triple_bind; [apply triple_find|]. apply triple_activated.
Qed.
Lemma fresh_id s : state_ok s -> "tab-" +:+ pretty (s_nextTabIndex s) ∉ map t_id (s_tabs s).
Proof.
  intros [_ G _ _] (t & E & H)%list_elem_of_fmap. rewrite Forall_forall in G. destruct (G t H) as (k & L & Ek). rewrite Ek in E.
  apply (inj (String.app "tab-")) in E. apply (inj pretty) in E. lia.
Qed.
Lemma triple_open url : good url -> triple inv (open_tab out url) held.
Proof.
  intros G w [S L]. cbn. set (t := mkTab _ _ _ _ _ _ _ _ _ _ _ _ _ _).
  assert (tab_ok t) as O by (split; simpl; [done|by repeat constructor|done|by split; [|constructor]|constructor]).
  match goal with |- inv (mkB ?s' _ _) /\ _ => assert (state_ok s') as S' end.
  { pose proof (fresh_id _ S) as N. destruct S as [D I T A]. split; cbn [s_tabs with_tabs s_nextTabIndex s_activeTabId].
    - rewrite map_app. apply NoDup_app. split; [done|]. split; [|apply NoDup_singleton]. intros x Hx. cbn. rewrite list_elem_of_singleton.
      by intros ->.
    - rewrite Forall_app. split; [|by repeat constructor; exists (s_nextTabIndex (b_state w)); split; [lia|]].
      eapply Forall_impl; [exact I|]. cbn. intros u (k & K & E). exists k. split; [lia|done].
    - rewrite Forall_app. by split; [|repeat constructor].
    - rewrite map_app. cbn. set_solver. }
  split; [by split|]. intros a [= <-]. split; [by split|]. cbn. set_solver.
Qed.

(** ** Snapshots *)

Hypothesis made : normalized_good URL good.

Lemma forms_made html url : good url ->
  map fm_index (parseForms URL html url) = seq 1 (length (parseForms URL html url)) /\ Forall (fun f => good (fm_action f)) (parseForms URL html url).
Proof using made.
  intros G. unfold parseForms. generalize (matchAll FORM html). intros ms. split.
  - rewrite length_imap. apply list_eq. intros i. rewrite list_lookup_fmap, list_lookup_imap.
    destruct (ms !! i) as [m|] eqn:E; simpl.
    + apply lookup_lt_Some in E. by rewrite lookup_seq_lt.
    + apply lookup_ge_None in E. by rewrite lookup_seq_ge.
  - apply Forall_lookup. intros i f. rewrite list_lookup_imap. intros (m & _ & ->)%fmap_Some. unfold parse_form. cbn [fm_action].
    destruct (normalizeHttpUrl _ _ _) eqn:E; [by eapply made|done].
Qed.
Lemma cookies_distinct now l cookies : NoDup (keys cookies) -> NoDup (keys (upsertTabCookies (Date_parse out) now l cookies)).
Proof.
  unfold upsertTabCookies. revert cookies. induction l as [|raw l IH]; intros cookies N; [done|]. cbn [fold_left]. apply IH.
  unfold upsert_cookie. repeat case_goal; try done; [by apply NoDup_mdelete|]. unfold assign. case_goal; [done|by apply NoDup_mset].
Qed.
Lemma read_made url lim at_ res f : read_answer URL (from_utf8 out) url lim at_ res = Ok f ->
  good (sn_url (fr_snapshot f)) /\ Forall (fun l => good (l_url l)) (sn_links (fr_snapshot f)).
Proof using made.
  unfold read_answer. destruct (normalizeHttpUrl _ _ _) as [u|] eqn:E; [|done]. cbn [rbind]. intros [= <-]. cbn.
  split; [by eapply made|]. destruct (test _ _); [|done].
  destruct (links_extracted URL good made (from_utf8 out (firstn (lm_maxBytes lim) (an_body res))) u (lm_maxLinks lim)) as (seen & M & _).
  eapply Forall_impl; [apply (lm_good _ _ M)|]. by intros l [].
Qed.
Lemma shown_ok at_ f t : tab_ok t -> good (sn_url (fr_snapshot f)) -> Forall (fun l => good (l_url l)) (sn_links (fr_snapshot f)) ->
  tab_ok (shown out at_ f t).1 /\ t_id (shown out at_ f t).1 = t_id t.
Proof using made.
  intros [A H P F C] G L. split; [|done]. unfold shown. cbn [fst]. split; cbn.
  - apply list_lookup_insert_eq. by eapply lookup_lt_Some.
  - by apply Forall_insert.
  - by unfold page_ok.
  - by apply forms_made.
  - by apply cookies_distinct.
Qed.
Definition request_good (r : option page_request) : Prop := match r with Some r => good (pr_url r) | None => True end.
Lemma held_url t w : held t w -> good (t_url t).
Proof. intros H%held_ok. pose proof (to_at _ H) as A. pose proof (to_history _ H) as F. rewrite Forall_lookup in F. by eapply F. Qed.
Lemma triple_capture t params r : request_good r -> triple (held t) (captureTabSnapshot out t params r) (fun a w => held a.1 w).
Proof using made.
  intros G w H. revert w H. assert (forall w, held t w -> good (pr_url (default (mkPageRequest m_get (t_url t) None) r))) as GU.
  { intros w H. destruct r; [done|]. by eapply held_url. }
  intros w H. pose proof (GU w H) as U. revert w H. change (triple (held t) (captureTabSnapshot out t params r) (fun a w => held a.1 w)).
  unfold captureTabSnapshot. eapply triple_bind.
  { apply triple_ask; [apply held_inv|]. unfold snapshot_request. by destruct (pr_method _). }
  intros res. cbn beta. eapply (triple_pre _ (held t)); [|intros w' (w & n & [_ T] & _ & I & E); split; [done|by rewrite E]].
  eapply triple_bind; [apply triple_now, held_inv|]. intros at_. eapply triple_bind; [apply triple_lift, held_inv|]. intros f. cbn beta.
  intros w [H R]. destruct (read_made _ _ _ _ _ R) as [Gu Gl]. pose proof (shown_ok at_ f t (held_ok _ _ H) Gu Gl) as [O E].
  revert w H R. destruct (shown out at_ f t) as [t' snap]. cbn [fst] in *. intros w H _. revert w H.
  change (triple (held t) (tbind (put t') (fun _ => ret (t', snap))) (fun a w => held a.1 w)).
  eapply triple_bind; [by apply (triple_put t)|]. intros a. apply triple_ret. intros w [_ H]. split; [by eapply held_inv|done].
Qed.
(** A page that could not be read changes no tab. *)
Lemma capture_failed t params r w e : (captureTabSnapshot out t params r w).2 = Throw e -> b_state (captureTabSnapshot out t params r w).1 = b_state w.
Proof.
  unfold captureTabSnapshot, tbind, ask, now, lift. destruct (fetch out _ _) as [n [res|e']]; cbn [fst snd b_now]; [|done].
  destruct (read_answer _ _ _ _ _ _) as [f|]; [|done]. by destruct (shown _ _ _ _).
Qed.
Lemma triple_tries left attempts t params : triple (held t) (capture_tries out left attempts t params) (fun a w => held a.1.1 w).
Proof using made.
  revert attempts. induction left as [|left IH]; intros attempts w H; cbn [capture_tries];
    pose proof (triple_capture t params None I w H) as [V Q]; pose proof (capture_failed t params None w) as F;
    destruct (captureTabSnapshot out t params None w) as [w' [[t' snap]|e]]; cbn [fst snd] in *.
  - split; [done|]. intros a [= <-]. by apply Q.
  - done.
  - split; [done|]. intros a [= <-]. by apply Q.
  - apply IH. destruct H as [_ T]. split; [done|]. by rewrite (F e eq_refl).
Qed.
Lemma triple_retries t params : triple (held t) (captureTabSnapshotWithRetries out t params) (fun a w => held a.1.1 w).
Proof using made. apply triple_tries. Qed.
Lemma triple_maybe_capture b t params r : request_good r -> triple (held t) (maybe_capture out b t params r) (fun a w => held a.1 w).
Proof using made.
  intros G. apply triple_if; [|apply triple_ret; intros w H; split; [by eapply held_inv|done]].
  eapply triple_bind; [by apply triple_capture|]. intros a. apply triple_ret. intros w H. split; [by eapply held_inv|done].
Qed.
Lemma triple_maybe_retry b t params : triple (held t) (maybe_retry out b t params) (fun a w => held a.1.1 w).
Proof using made.
  apply triple_if; [|apply triple_ret; intros w H; split; [by eapply held_inv|done]].
  eapply triple_bind; [apply triple_retries|]. intros a. apply triple_ret. intros w H. split; [by eapply held_inv|done].
Qed.
Lemma triple_seeded t params : triple (held t) (seeded out t params) held.
Proof using made.
  unfold seeded. destruct (t_lastSnapshot t); [apply triple_ret; intros w H; split; [by eapply held_inv|done]|].
  eapply triple_bind; [by apply triple_capture|]. intros a. apply triple_ret. intros w H. split; [by eapply held_inv|done].
Qed.
Lemma extended_ok t u : tab_ok t -> good u ->
  let h := if t_historyIndex t <? length (t_history t) - 1 then extended t u else t_history t ++ [u] in
  h !! (length h - 1) = Some u /\ Forall good h.
Proof.
  intros O G. pose proof (to_history _ O) as H.
  assert (forall l : list string, (l ++ [u]) !! (length (l ++ [u]) - 1) = Some u) as L.
  { intros l. rewrite length_app. cbn. rewrite Nat.add_sub. by apply list_lookup_middle. }
  cbn zeta. unfold extended. case_goal; (split; [apply L|]); rewrite Forall_app; (split; [|by repeat constructor]); [by apply Forall_take|done].
Qed.
Lemma triple_navigate url t : triple (held t) (navigate_to out url t) held.
Proof using made.
  eapply triple_bind; [apply triple_now, held_inv|]. intros t0. eapply triple_bind; [apply triple_lift, held_inv|]. intros t' w [H N].
  unfold navigateTab in N. destruct (normalizeHttpUrl _ _ _) as [u|] eqn:E; [|done]. cbn [rbind] in N. injection N as N.
  pose proof (held_ok _ _ H) as O. pose proof (made _ _ _ E) as Gu. destruct (extended_ok t u O Gu) as [A F].
  assert (tab_ok t' /\ t_id t' = t_id t) as [O' I'].
  { subst t'. split; [|done]. destruct O as [_ _ _ _ C]. by split. }
  destruct (triple_put t t' O' I' w H) as [V Q]. split; [done|]. intros a Ea. destruct (Q a Ea) as [-> ?]. done.
Qed.

(** ** The actions *)

Lemma triple_pure {A B} (r : result A) (P : bworld -> Prop) (k : A -> tool B) R :
  (forall w, P w -> inv w) -> (forall a, r = Ok a -> triple P (k a) R) -> triple P (tbind (lift r) k) R.
Proof. intros H K w Pw. unfold tbind, lift. destruct r as [a|e]; [by apply (K a eq_refl)|split; [by apply H|done]]. Qed.
Lemma triple_read {B} (P : bworld -> Prop) (k : BrowserState -> tool B) R :
  (forall w, P w -> triple (fun w' => w' = w) (k (b_state w)) R) -> triple P (tbind state k) R.
Proof. intros K w Pw. by apply (K w Pw). Qed.
Lemma triple_clock {B} (P : bworld -> Prop) (k : Z -> tool B) R : (forall t, triple P (k t) R) -> triple P (tbind now k) R.
Proof. intros K w Pw. by apply (K (b_now w)). Qed.
Lemma triple_look {B} (P : bworld -> Prop) (k : BrowserState -> tool B) R : (forall s, triple P (k s) R) -> triple P (tbind state k) R.
Proof. intros K w Pw. by apply (K (b_state w)). Qed.
(** What holds of the tabs holds after asking. *)
Definition of_tabs (P : bworld -> Prop) : Prop := forall w w', P w -> inv w' -> b_state w' = b_state w -> P w'.
Lemma triple_asked {A B} e (f : nat -> nat * result A) (P : bworld -> Prop) (k : A -> tool B) R :
  (forall w, P w -> inv w) -> of_tabs P -> sent_good e -> (forall a n, (f n).2 = Ok a -> triple P (k a) R) -> triple P (tbind (ask e f) k) R.
Proof.
  intros H S G K. eapply triple_bind; [by apply triple_ask|]. intros a w' (w & n & Pw & E & I & W). apply (K a n E). by eapply S.
Qed.
Lemma of_tabs_inv : of_tabs inv.
Proof. by intros w w'. Qed.
Lemma of_tabs_held t : of_tabs (held t).
Proof. intros w w' [_ T] I E. split; [done|]. by rewrite E. Qed.
Lemma triple_done {A} (m : tool A) P Q : triple P m Q -> triple P m (fun _ _ => True).
Proof. intros T w Pw. split; [by apply T|done]. Qed.
Lemma triple_held_inv {A} t (m : tool A) Q : triple inv m Q -> triple (held t) m Q.
Proof. intros T. eapply triple_pre; [exact T|apply held_inv]. Qed.

Ltac walk1 :=
  match goal with
  | |- triple (fun w => held ?t w) ?m ?Q => change (triple (held t) m Q)
  | |- triple _ (tbind state _) _ => apply triple_look; intros ?
  | |- triple _ (tbind (lift _) _) _ => apply triple_pure; [by eauto using held_inv|intros ? ?]
  | |- triple _ (tbind now _) _ => apply triple_clock; intros ?
  | |- triple inv (tbind (take_tab _) _) _ => eapply triple_bind; [apply triple_take|intros ?]
  | |- triple inv (tbind (find_tab _) _) _ => eapply triple_bind; [apply triple_find|intros ?]
  | |- triple inv (tbind (open_tab _ _) _) _ => eapply triple_bind; [apply triple_open; eauto|intros ?]
  | |- triple (held ?t) (tbind (activate ?t) _) _ => eapply triple_bind; [apply triple_activated|intros ?]
  | |- triple (held ?t) (tbind (navigate_to _ _ ?t) _) _ => eapply triple_bind; [apply triple_navigate|intros ?]
  | |- triple (held ?t) (tbind (maybe_retry _ _ ?t _) _) _ => eapply triple_bind; [apply triple_maybe_retry|intros [[? ?] ?]; cbn [fst snd]]
  | |- triple (held ?t) (tbind (captureTabSnapshotWithRetries _ ?t _) _) _ => eapply triple_bind; [apply triple_retries|intros [[? ?] ?]; cbn [fst snd]]
  | |- triple (held ?t) (tbind (maybe_capture _ _ ?t _ _) _) _ => eapply triple_bind; [apply triple_maybe_capture; try done|intros [? ?]; cbn [fst snd]]
  | |- triple (held ?t) (tbind (seeded _ ?t _) _) _ => eapply triple_bind; [apply triple_seeded|intros ?]
  | |- triple (held ?t) (seeded _ ?t _) _ => apply triple_seeded
  | |- triple _ (ret _) _ => apply triple_ret; intros ? ?; split; [by eauto using held_inv|try done]
  | |- triple _ (throw _) _ => apply triple_throw; by eauto using held_inv
  | |- triple _ (if _ then _ else _) _ => apply triple_if
  end.
Ltac walk := repeat (cbn zeta; walk1).
Notation keeps m := (triple inv m (fun _ _ => True)).

Section Actions.
Variables (params : value) (requested : engine_mode) (target profile : string).

Lemma keeps_open : keeps (action_open out params requested).
Proof using made. unfold action_open. walk. Qed.
Lemma keeps_focus : keeps (action_focus params).
Proof. unfold action_focus. walk. Qed.
Lemma keeps_navigate : keeps (action_navigate out params requested).
Proof using made. unfold action_navigate. walk. Qed.
Lemma keeps_reload : keeps (action_reload out params requested).
Proof using made. unfold action_reload. walk. Qed.
Lemma keeps_snapshot : keeps (action_snapshot out params requested).
Proof using made.
  unfold action_snapshot. cbn zeta. eapply (triple_bind _ _ held); [apply triple_if; [|apply triple_find]|intros; walk].
  apply triple_pure; [done|]. intros u E. apply triple_open. by eapply made.
Qed.
Lemma keeps_forms : keeps (action_forms out params requested).
Proof using made.
  unfold action_forms. walk. eapply (triple_bind _ _ held); [|intros; walk]. destruct (t_lastSnapshot a) eqn:E; walk.
Qed.
Lemma triple_looked t :
  triple (held t) (match t_lastSnapshot t with Some _ => ret t | None => let! c := captureTabSnapshotWithRetries out t params in ret c.1.1 end) held.
Proof using made. destruct (t_lastSnapshot t); walk. Qed.
Lemma keeps_products : keeps (action_products out params requested).
Proof using made. unfold action_products. walk. eapply triple_bind; [apply triple_looked|intros]. walk. Qed.
Lemma keeps_challenge : keeps (action_challenge out params requested).
Proof using made. unfold action_challenge. walk. eapply triple_bind; [apply triple_looked|intros]. walk. Qed.
Lemma keeps_login : keeps (action_live_login params).
Proof. unfold action_live_login. walk. Qed.
Lemma keeps_live name : keeps (action_live params requested name).
Proof. unfold action_live. walk. Qed.
Lemma keeps_log name : keeps (action_log params requested name).
Proof. unfold action_log. walk. Qed.
Lemma triple_asking t :
  triple (held t) (match t_lastSnapshot t with Some _ => ret t | None => let! _ := lift (resolveEngine requested params) in seeded out t params end) held.
Proof using made. destruct (t_lastSnapshot t); walk. Qed.

(** Closing a tab: the last of the others is active then, if it was. *)
Lemma close_ok id s : state_ok s -> state_ok (closeTab id s).
Proof.
  intros [D G T A]. unfold closeTab. set (tabs := List.filter _ (s_tabs s)).
  assert (sublist tabs (s_tabs s)) as L.
  { unfold tabs. clear. induction (s_tabs s) as [|t l IH]; simpl; [constructor|]. destruct (negb _); by constructor. }
  assert (forall P, Forall P (s_tabs s) -> Forall P tabs) as F.
  { intros P. rewrite !List.Forall_forall. intros H t Ht%List.filter_In. apply H, Ht. }
  split; cbn [s_tabs with_tabs s_nextTabIndex s_activeTabId].
  - eapply sublist_NoDup; [exact D|by apply (fmap_sublist t_id)].
  - by apply F.
  - by apply F.
  - case_bool_decide as E.
    + unfold last_id. destruct (last tabs) as [t|] eqn:Z; simpl; [|by apply last_None].
      apply last_Some in Z as [l ->]. rewrite map_app. set_solver.
    + destruct (s_activeTabId s) as [i|] eqn:W; [|unfold tabs; by rewrite A]. apply list_elem_of_fmap in A as (t & -> & Ht).
      apply list_elem_of_fmap_2, list_elem_of_In, List.filter_In. split; [by apply list_elem_of_In|].
      destruct (String.eqb_spec (t_id t) id) as [e|]; [by rewrite e in E|done].
Qed.
Lemma keeps_close : keeps (action_close params).
Proof.
  unfold action_close. walk. eapply (triple_bind _ _ (fun _ => inv)); [|intros; walk].
  intros w [[S L] _]. split; [split; [by apply close_ok|done]|]. intros u _. split; [by apply close_ok|done].
Qed.
Lemma keeps_reset : keeps action_reset.
Proof.
  unfold action_reset. eapply (triple_bind _ _ (fun _ => inv)); [|intros; walk]. intros w [S L].
  assert (state_ok (mkState (s_createdAt (b_state w)) 1 None [])) by (split; cbn; constructor). by split; [|intros].
Qed.
Lemma keeps_launch : keeps (action_launch out params).
Proof using made.
  unfold action_launch. walk. apply triple_asked; [done|apply of_tabs_inv|by eapply made|]. intros; walk.
Qed.
Lemma keeps_search : found_good -> keeps (action_search out params requested).
Proof using made.
  intros F. unfold action_search. walk. apply triple_asked; [done|apply of_tabs_inv|done|]. intros rows n E. pose proof (F _ _ _ _ _ E) as G.
  destruct rows as [|r rows]; [walk|]. inversion_clear G. walk.
Qed.
Lemma keeps_screenshot : keeps (action_screenshot out params requested).
Proof using made.
  unfold action_screenshot. cbn zeta. set (P := fun (o : option BrowserTab) w => match o with Some t => held t w | None => inv w end).
  assert (forall o w, P o w -> inv w) as PI by (intros [t|] w; [apply held_inv|done]).
  eapply (triple_bind _ _ P).
  { apply triple_if; [eapply triple_bind; [apply triple_take|]|]; intros; apply triple_ret; intros w H; (split; [by eauto using held_inv|done]). }
  intros o. apply triple_pure; [by apply PI|]. intros _ _. cbn zeta.
  eapply (triple_bind _ _ (fun u w => P o w /\ good u)).
  { destruct o as [t|]; [apply triple_ret; intros w H; split; [exact (PI _ _ H)|split; [done|by eapply held_url]]|].
    intros w H. split; [done|]. intros u E. split; [done|]. eapply made. exact E. }
  intros u w [H G]. revert w H. 
  match goal with |- forall w, _ -> inv (?m w).1 /\ _ => change (triple (P o) m (fun _ _ => True)) end.
  apply triple_asked; [apply PI| |done|].
  { destruct o; [apply of_tabs_held|apply of_tabs_inv]. }
  intros [path bytes] n _. apply triple_look. intros s. apply triple_ret. intros w H. split; [exact (PI _ _ H)|done].
Qed.
Lemma keeps_wait : keeps (action_wait out params requested).
Proof using made.
  unfold action_wait. cbn zeta. set (P := fun (o : option BrowserTab) w => match o with Some t => held t w | None => inv w end).
  assert (forall o w, P o w -> inv w) as PI by (intros [t|] w; [apply held_inv|done]).
  apply triple_read. intros w0 I0. eapply (triple_bind _ _ P).
  { apply triple_if.
    - eapply triple_pre; [|by intros w ->]. eapply triple_bind; [apply triple_find|]. intros t. apply triple_ret. intros w H. split; [by eapply held_inv|done].
    - apply triple_ret. intros w ->. split; [done|]. unfold P. destruct (getActiveTab _) eqn:E; [|done]. split; [done|]. by apply active_in. }
  intros o. apply triple_pure; [by apply PI|]. intros _ _. eapply (triple_bind _ _ P).
  { destruct o as [t|]; [|by apply triple_ret]. eapply triple_bind; [apply triple_activated|]. intros a. apply triple_ret. intros w H. split; [by eapply held_inv|done]. }
  clear o. intros o. apply triple_asked; [apply PI|destruct o; [apply of_tabs_held|apply of_tabs_inv]|done|]. intros _ _ _.
  destruct o as [t|]; unfold P; walk.
Qed.
Lemma keeps_move back : keeps (action_move out params requested back).
Proof using made.
  unfold action_move. walk. eapply (triple_bind _ _ held); [|intros; walk]. apply triple_replace; [|done].
  intros [A Hh P F C]. pose proof (lookup_lt_Some _ _ _ A) as L.
  set (n := if back then _ else _). destruct (lookup_lt_is_Some_2 (t_history a) n) as [u U]; [unfold n; destruct back; lia|].
  rewrite U. by split.
Qed.
Lemma keeps_fill name : keeps (action_fill out params requested name).
Proof using made.
  unfold action_fill. walk. eapply (triple_bind _ _ held); [|intros; walk]. apply triple_replace; [|done].
  intros [A Hh P F C]. by split.
Qed.
Lemma triple_send t form wanted : good (fm_action form) -> triple (held t) (send_form out params t form wanted) (fun a w => held a.1.1 w).
Proof using made.
  intros G. unfold send_form. cbn zeta. destruct (fm_method form).
  - destruct (URL _ _) as [u|]; [|walk]. cbn zeta. eapply triple_bind; [apply triple_navigate|intros t1].
    eapply triple_bind; [by apply triple_maybe_capture|]. intros c. walk.
  - eapply triple_bind; [apply triple_navigate|intros t1]. eapply triple_bind; [by apply triple_maybe_capture|]. intros c. walk.
Qed.
Lemma form_good t ix ref form : tab_ok t -> resolveForm t ix ref = Ok form -> good (fm_action form).
Proof.
  intros O. unfold resolveForm. pose proof (to_forms _ O) as [_ F]. case_goal; [done|].
  destruct (resolveSnapshotRef _ _); [|done]. cbn [rbind]. destruct (List.find _ _) as [f|] eqn:E; [|done]. intros [= <-].
  apply List.find_some in E as [E _]. rewrite List.Forall_forall in F. apply F. congruence.
Qed.
Lemma keeps_submit : keeps (action_submit out params requested).
Proof using made.
  unfold action_submit. walk. eapply triple_bind; [apply triple_asking|intros t].
  apply triple_pure; [apply held_inv|]. intros form E. intros w H. pose proof (form_good _ _ _ _ (held_ok _ _ H) E) as G. revert w H.
  match goal with |- forall w, _ -> inv (?m w).1 /\ _ => change (triple (held t) m (fun _ _ => True)) end.
  walk. eapply triple_bind; [by apply triple_send|]. intros [[t' snap] u]. walk.
Qed.
Lemma keeps_click : keeps (action_click out params requested).
Proof using made.
  unfold action_click. walk. eapply triple_bind; [apply triple_asking|intros t]. walk.
  match goal with |- triple _ (match ?o with _ => _ end) _ => destruct o as [r|] end; [|walk].
  apply triple_if; [|walk]. apply triple_pure; [apply held_inv|]. intros form E. intros w Hw.
  pose proof (form_good _ _ _ _ (held_ok _ _ Hw) E) as G. revert w Hw.
  match goal with |- forall w, _ -> inv (?m w).1 /\ _ => change (triple (held t) m (fun _ _ => True)) end.
  walk. eapply triple_bind; [by apply triple_send|]. intros [[t' snap] u]. walk.
Qed.
Lemma keeps_look : keeps (action_status options requested target profile) /\ keeps (action_start params requested target profile) /\
  keeps (action_stop target profile) /\ keeps (action_profiles profile) /\ keeps action_tabs.
Proof. unfold action_status, action_start, action_stop, action_profiles, action_tabs. do 4 (split; [walk|]). walk. Qed.

Variable self : value -> tool value.
Hypothesis self_keeps : forall v, keeps (self v).
Lemma triple_self v : triple inv (self v) (fun _ => inv).
Proof using self_keeps. intros w H. destruct (self_keeps v w H) as [I _]. by split. Qed.
Lemma keeps_act : keeps (action_act params self).
Proof using self_keeps.
  unfold action_act. cbn zeta. apply triple_if.
  - eapply (triple_bind _ _ (fun _ => inv)); [|intros; walk].
    match goal with |- triple _ (fill_rows _ _ ?l ?v) _ => generalize v; induction l as [|row rows IH]; intros last; cbn [fill_rows]; [walk|] end.
    eapply triple_bind; [apply triple_self|]. intros r. apply IH.
  - apply triple_if; [|walk]. eapply triple_bind; [apply triple_self|intros; walk].
Qed.
Lemma keeps_run (F : found_good) action : keeps (run_action out options params requested target profile self action).
Proof using made self_keeps.
  unfold run_action. apply triple_if; [apply keeps_live|].
  destruct keeps_look as (? & ? & ? & ? & ?).
  pose proof (fun back => keeps_move back). pose proof keeps_open. pose proof keeps_focus. pose proof keeps_navigate. pose proof keeps_reload.
  pose proof keeps_snapshot. pose proof keeps_forms. pose proof keeps_products. pose proof keeps_challenge. pose proof keeps_login.
  pose proof keeps_log. pose proof keeps_close. pose proof keeps_reset. pose proof keeps_launch. pose proof (keeps_search F).
  pose proof keeps_screenshot. pose proof keeps_wait. pose proof keeps_fill. pose proof keeps_submit. pose proof keeps_click. pose proof keeps_act.
  repeat (match goal with |- triple _ (match ?x with _ => _ end) _ => destruct x end; auto); walk.
Qed.
End Actions.

Lemma keeps_execute (F : found_good) n v : triple inv (execute_depth out options n v) (fun _ _ => True).
Proof using made.
  revert v. induction n as [|n IH]; intros v; cbn [execute_depth]; [walk|]. unfold execute_with. cbn zeta.
  destruct (obj_lookup _ _); walk; by apply keeps_run.
Qed.
End Invariant.

(** ** Sequences of calls *)

(** The tool as it is when the program starts, and after some calls. *)
Definition started (t0 : Z) : bworld := mkB (mkState t0 1 None []) [] t0.
Definition after_calls (out : outside) (options : browser_options) (t0 : Z) (calls : list value) : bworld :=
  fold_left (fun w params => (execute out options params w).1) calls (started t0).
Lemma fold_keeps {A B} (P : A -> Prop) (f : A -> B -> A) l a : (forall a b, P a -> P (f a b)) -> P a -> P (fold_left f l a).
Proof. intros F. revert a. induction l as [|b l IH]; intros a H; [done|]. apply IH, F, H. Qed.
Lemma execute_inv out options good params w :
  normalized_good (URL out) good -> found_good out good -> inv good w -> inv good (execute out options params w).1.
Proof. intros N F I. unfold execute. exact (proj1 (keeps_execute out options good N F 2 params w I)). Qed.
Lemma calls_inv out options good t0 calls :
  normalized_good (URL out) good -> found_good out good -> inv good (after_calls out options t0 calls).
Proof.
  intros N F. unfold after_calls. apply fold_keeps; [intros w v; by apply execute_inv|]. split; [split; cbn; constructor|constructor].
Qed.

(** after any calls, whether they returned or threw, the tabs are consistent: ids
    differ and were given before, some tab is active unless there is none, every tab
    shows the entry of its history where it is, its references, links and forms are
    those of the page it shows, and its cookies have different names. *)
Theorem tabs_consistent out options t0 calls : state_ok (fun _ => True) (b_state (after_calls out options t0 calls)).
Proof. apply calls_inv; [done|]. intros q c r n rows _. by apply Forall_true. Qed.

(** An address the tool may ask for: one it made, http or https, or one of a search. *)
Definition allowed (out : outside) (u : string) : Prop :=
  http_address (URL out) u \/ exists q c r n rows row, (duckDuckGo out q c r n).2 = Ok rows /\ row ∈ rows /\ r_url row = u.
(** whatever the calls and the pages say, every page that is fetched, photographed
    or opened on the desktop has an http(s) address that the URL parser made, or one
    the search service gave. *)
Theorem only_web_addresses out options t0 calls : Forall (sent_good (allowed out)) (b_log (after_calls out options t0 calls)).
Proof.
  apply calls_inv.
  - intros v base u H. left. by exists v, base.
  - intros q c r n rows E. apply Forall_forall. intros row H. right. by exists q, c, r, n, rows, row.
Qed.

(** ** Clicks *)

(** Where [href] may lead: to itself, or to the address of a form with its fields. *)
Definition leads (out : outside) (href u : string) : Prop :=
  u = href \/ normalizeHttpUrl (URL out) (VStr href) None = Ok u \/
  exists p payload, URL out href None = Some p /\ normalizeHttpUrl (URL out) (VStr (u_append p payload)) None = Ok u.
Definition checked (out : outside) (e : event) : Prop :=
  exists r label href, e = Sent r /\ isLikelySocialAuthTarget label href "" = false /\ leads out href (rq_url r).

Section Clicks.
Variable out : outside.
(** At most [n] requests, all of them checked. *)
Definition sends {A} (n : nat) (m : tool A) : Prop := forall w, exists l, b_log (m w).1 = b_log w ++ l /\ length l <= n /\ Forall (checked out) l.
Lemma sends_bind {A B} n k (m : tool A) (f : A -> tool B) : sends n m -> (forall a, sends k (f a)) -> sends (n + k) (tbind m f).
Proof.
  intros M F w. unfold tbind. destruct (M w) as (l & E & L & C). destruct (m w) as [w' [a|e]]; cbn [fst] in *.
  - destruct (F a w') as (l' & E' & L' & C'). exists (l ++ l'). rewrite E', E, app_assoc, length_app, Forall_app. repeat split; try done. lia.
  - exists l. repeat split; try done. lia.
Qed.
Lemma sends_quiet {A} n (m : tool A) : (forall w, b_log (m w).1 = b_log w) -> sends n m.
Proof. intros Q w. exists []. rewrite Q, app_nil_r. cbn. repeat split; [lia|constructor]. Qed.
Lemma sends_lift {A B} n (r : result A) (f : A -> tool B) : (forall a, r = Ok a -> sends n (f a)) -> sends n (tbind (lift r) f).
Proof. intros F. destruct r as [a|e]; [apply (F a eq_refl)|]. by apply sends_quiet. Qed.
Lemma sends_capture t params r label href :
  isLikelySocialAuthTarget label href "" = false -> leads out href (pr_url (default (mkPageRequest m_get (t_url t) None) r)) ->
  sends 1 (captureTabSnapshot out t params r).
Proof.
  intros S L. unfold captureTabSnapshot. apply (sends_bind 1 0).
  - intros w. unfold ask. destruct (fetch _ _ _) as [n res]. cbn. eexists. split; [reflexivity|]. split; [cbn; lia|].
    apply Forall_singleton. eexists _, label, href. split; [reflexivity|]. split; [done|]. unfold snapshot_request. by destruct (pr_method _).
  - intros res. apply sends_quiet. intros w. unfold tbind, now, lift. destruct (read_answer _ _ _ _ _ _); [|done]. by destruct (shown out _ _ _).
Qed.
Lemma navigated url t w t' : (navigate_to out url t w).2 = Ok t' -> normalizeHttpUrl (URL out) (VStr url) None = Ok (t_url t').
Proof.
  unfold navigate_to, tbind, now, lift, navigateTab. cbn. destruct (normalizeHttpUrl _ _ _) as [u|]; [|done]. cbn. by intros [= <-].
Qed.
Lemma sends_navigate {B} n url t (f : BrowserTab -> tool B) :
  (forall t', normalizeHttpUrl (URL out) (VStr url) None = Ok (t_url t') -> sends n (f t')) -> sends n (tbind (navigate_to out url t) f).
Proof.
  intros F w. unfold tbind at 1. pose proof (navigated url t w) as N.
  assert (b_log (navigate_to out url t w).1 = b_log w) as Q.
  { unfold navigate_to, tbind, now, lift. cbn. by destruct (navigateTab _ _ _ _). }
  destruct (navigate_to out url t w) as [w' [t'|e]]; cbn [fst snd] in *; rewrite <-Q.
  - by apply (F t' (N t' eq_refl)).
  - exists []. rewrite app_nil_r. cbn. repeat split; [lia|constructor].
Qed.
Lemma sends_maybe b t params r label href :
  isLikelySocialAuthTarget label href "" = false -> leads out href (pr_url (default (mkPageRequest m_get (t_url t) None) r)) ->
  sends 1 (maybe_capture out b t params r).
Proof.
  intros S L. unfold maybe_capture. destruct b; [|by apply sends_quiet]. apply (sends_bind 1 0); [by eapply sends_capture|].
  intros c. by apply sends_quiet.
Qed.
Lemma not_social label href action u : assertNotSocialAuthTarget label href action = Ok u -> isLikelySocialAuthTarget label href "" = false.
Proof. unfold assertNotSocialAuthTarget. by destruct (isLikelySocialAuthTarget _ _ _). Qed.
Lemma sends_form params t form wanted label : isLikelySocialAuthTarget label (fm_action form) "" = false -> sends 1 (send_form out params t form wanted).
Proof.
  intros S. unfold send_form. cbn zeta. destruct (fm_method form).
  - destruct (URL _ _ _) as [p|] eqn:E; [|by apply sends_quiet]. cbn zeta. apply sends_navigate. intros t' N.
    apply (sends_bind 1 0); [|intros; by apply sends_quiet]. eapply sends_maybe; [exact S|]. right. right. exists p. by eexists.
  - apply sends_navigate. intros t' N. apply (sends_bind 1 0); [|intros; by apply sends_quiet]. eapply sends_maybe; [exact S|]. by left.
Qed.
Lemma sends_follow params t link wanted (g : BrowserTab -> option BrowserSnapshot -> BrowserLink -> value) :
  sends 1 (let! l := lift link in
           let! _ := lift (assertNotSocialAuthTarget (l_text l) (l_url l) "click") in
           let! t := navigate_to out (l_url l) t in
           let! (t, snap) := maybe_capture out wanted t params None in
           ret (g t snap l)).
Proof.
  apply sends_lift. intros l _. apply sends_lift. intros u N%not_social. apply sends_navigate. intros t' N'.
  apply (sends_bind 1 0); [|intros [? ?]; by apply sends_quiet]. eapply sends_maybe; [exact N|]. right. by left.
Qed.
(** The tab an action takes has the snapshot it had. *)
Lemma taken params w t : (take_tab params w).2 = Ok t ->
  b_log (take_tab params w).1 = b_log w /\ exists t0, t0 ∈ s_tabs (b_state w) /\ t_lastSnapshot t = t_lastSnapshot t0.
Proof.
  unfold take_tab, find_tab, tbind, state, lift, activate. cbn. destruct (resolveTab _ _) as [t0|] eqn:E; [|done]. cbn. intros [= <-].
  split; [done|]. exists t0. split; [|done]. unfold resolveTab in E. repeat case_hyp E; simplify_eq; eauto using found_in_tabs, active_in.
Qed.
Lemma sends_taken {A} params (f : BrowserTab -> tool A) w :
  (forall t, t ∈ s_tabs (b_state w) -> is_Some (t_lastSnapshot t)) -> (forall t, is_Some (t_lastSnapshot t) -> sends 1 (f t)) ->
  exists l, b_log ((let! t := take_tab params in f t) w).1 = b_log w ++ l /\ length l <= 1 /\ Forall (checked out) l.
Proof.
  intros H F. unfold tbind. pose proof (taken params w) as T. destruct (take_tab params w) as [w' [t|e]] eqn:E; cbn [fst snd] in T.
  - destruct (T t eq_refl) as (<- & t0 & I & S). apply F. rewrite S. by apply H.
  - exists []. rewrite app_nil_r. cbn. split; [|by split; [lia|constructor]]. revert E.
    unfold take_tab, find_tab, tbind, state, lift, activate. cbn. destruct (resolveTab _ _); cbn; intros [= <-]; done.
Qed.
End Clicks.

(** a click and a submission on pages that were read make one request at most, and
    only to the address, or with the form, of a link or form that does not look like a
    sign-in with another provider. *)
Theorem clicks_checked out params requested w m :
  (forall t, t ∈ s_tabs (b_state w) -> is_Some (t_lastSnapshot t)) ->
  m = action_click out params requested \/ m = action_submit out params requested ->
  exists sent, b_log (m w).1 = b_log w ++ sent /\ length sent <= 1 /\ Forall (checked out) sent.
Proof.
  intros H [-> | ->]; apply sends_taken; try done; intros t [s S]; rewrite S; apply (sends_bind out 0 1); try (by apply sends_quiet); clear t s S; intros t.
  - apply sends_lift. intros _ _. apply sends_lift. intros byRef _. destruct (truthy _); [by apply sends_quiet|]. cbn zeta.
    destruct byRef as [r|]; [case_bool_decide|]; try apply sends_follow. apply sends_lift. intros form _. apply sends_lift. intros u N%not_social.
    apply (sends_bind out 1 0); [by eapply sends_form|]. intros [[? ?] ?]. by apply sends_quiet.
  - apply sends_lift. intros form _. apply sends_lift. intros u N%not_social. cbn zeta. apply sends_lift. intros _ _.
    apply (sends_bind out 1 0); [by eapply sends_form|]. intros [[? ?] ?]. by apply sends_quiet.
Qed.

(** ** Retries *)

Lemma capture_asks_once out t params r w : length (b_log (captureTabSnapshot out t params r w).1) = S (length (b_log w)).
Proof.
  unfold captureTabSnapshot, tbind, ask, now, lift. destruct (fetch out _ _) as [n [res|e]]; cbn [fst snd b_now]; [|cbn; rewrite length_app; cbn; lia].
  destruct (read_answer _ _ _ _ _ _) as [f|]; [|cbn; rewrite length_app; cbn; lia]. destruct (shown out _ _ _). cbn. rewrite length_app. cbn. lia.
Qed.
(** How often a page is asked for at most. *)
Definition max_attempts (params : value) : nat := S (Z.to_nat (clamp (get_prop "maxRetries" params) 0 4 DEFAULT_ACTION_MAX_RETRIES)).
Lemma tries_counted out left attempts t params w :
  let res := capture_tries out left attempts t params w in
  exists asked, length (b_log res.1) = length (b_log w) + asked /\
    match res.2 with
    | Ok (_, snap, n) => n = attempts + asked /\ 1 <= asked <= S left
    | Throw _ => asked = S left
    end.
Proof.
  revert attempts w. induction left as [|left IH]; intros attempts w; cbn [capture_tries]; cbn zeta;
    pose proof (capture_asks_once out t params None w) as L; destruct (captureTabSnapshot out t params None w) as [w' [[t' snap]|e]]; cbn [fst snd] in *.
  - exists 1. lia.
  - exists 1. lia.
  - exists 1. lia.
  - destruct (IH (S attempts) w') as (k & E & M). exists (S k). split; [lia|]. destruct (capture_tries _ _ _ _ _ _) as [w2 [[[t' snap] n]|e']]; cbn [fst snd] in *; lia.
Qed.
(** a page is asked for until it can be read, and no more than [maxRetries] times
    again (five times in all at most): the count in the answer is the number of
    requests that were sent, and an error means that all of them failed. *)
Theorem retries_counted out t params w :
  let res := captureTabSnapshotWithRetries out t params w in
  1 <= max_attempts params <= 5 /\
  exists asked, length (b_log res.1) = length (b_log w) + asked /\
    match res.2 with
    | Ok (_, snap, n) => n = asked /\ 1 <= asked <= max_attempts params
    | Throw _ => asked = max_attempts params
    end.
Proof.
  cbn zeta. split.
  - unfold max_attempts, clamp. destruct (clampInt_ok (get_prop "maxRetries" params) 0 4 (NInt DEFAULT_ACTION_MAX_RETRIES)) as (z & -> & Z);
      [lia|by exists DEFAULT_ACTION_MAX_RETRIES|]. cbn. change (pow10 0) with 1%Z. rewrite Z.div_1_r. lia.
  - unfold captureTabSnapshotWithRetries, max_attempts.
    destruct (tries_counted out (Z.to_nat (clamp (get_prop "maxRetries" params) 0 4 DEFAULT_ACTION_MAX_RETRIES)) 0 t params w) as (k & E & M).
    exists k. split; [exact E|]. exact M.
Qed.

(** ** Witnesses *)

Definition sample_page (url : string) : string :=
  if (url =? "https://a.com/")%string
  then "<a href='/two'>Two</a><a href='https://accounts.google.com/'>Continue with Google</a><form method=post action='/go'><input name=q></form>"
  else "<p>Hello</p>".
Definition sample_cookies (url : string) : list string := if (url =? "https://a.com/")%string then ["sid=secret; Path=/; HttpOnly"] else [].
Definition sample_outside : outside :=
  mkOutside "linux" simple_URL (fun _ => None) (fun _ => None) of_chars
    (fun rq _ => (5, Ok (mkAnswer (rq_url rq) 200 true (Some "text/html") (mkCookieHeaders (Some (sample_cookies (rq_url rq))) None None) (chars (sample_page (rq_url rq))))))
    (fun _ _ _ _ => (1, Ok [])) (fun _ _ _ => (1, Ok [])) (fun _ _ _ _ _ => (1, Throw "no firefox")).
Definition sample_options : browser_options := mkBrowserOptions "" true true.
Definition call (fields : list (string * value)) : value := VObj fields.
Definition opened : bworld := after_calls sample_outside sample_options 1000 [call [("action", VStr "open"); ("url", VStr "https://a.com/")]].
Definition requests (w : bworld) : list (string * string) :=
  omap (fun e => match e with Sent r => Some (rq_url r, default "" (mget "Cookie" (rq_headers r))) | _ => None end) (b_log w).

Lemma clicks_checked_witness :
  (forall t, t ∈ s_tabs (b_state opened) -> is_Some (t_lastSnapshot t)) /\
  exists sent, b_log (action_click sample_outside (call [("ref", VStr "e1")]) e_auto opened).1 = b_log opened ++ sent /\ length sent <= 1 /\
    Forall (checked sample_outside) sent.
Proof.
  assert (forall t, t ∈ s_tabs (b_state opened) -> is_Some (t_lastSnapshot t)) as H.
  { assert (forallb (fun t => bool_decide (is_Some (t_lastSnapshot t))) (s_tabs (b_state opened)) = true) as B by (vm_compute; reflexivity).
    revert B. generalize (s_tabs (b_state opened)). intros l B t Ht. rewrite forallb_forall in B. apply (bool_decide_eq_true_1 _), B. by apply list_elem_of_In. }
  split; [exact H|]. exact (clicks_checked sample_outside (call [("ref", VStr "e1")]) e_auto opened _ H (or_introl eq_refl)).
Defined.

(** A link is followed, a sign-in with another provider is not. *)
Example click_examples :
  let click ref := execute sample_outside sample_options (call [("action", VStr "click"); ("ref", VStr ref)]) opened in
  is_ok (click "e1").2 = true /\ map fst (requests (click "e1").1) = ["https://a.com/"; "https://a.com/two"] /\
  is_ok (click "e2").2 = false /\ map fst (requests (click "e2").1) = ["https://a.com/"].
Proof. vm_compute. done. Qed.
(** The cookies of a tab are sent to every site the tab goes to. *)
Example cookies_cross_sites :
  requests (after_calls sample_outside sample_options 1000
    [call [("action", VStr "open"); ("url", VStr "https://a.com/")]; call [("action", VStr "navigate"); ("url", VStr "https://b.com/")]]) =
  [("https://a.com/", ""); ("https://b.com/", "sid=secret")].
Proof. vm_compute. reflexivity. Qed.
(** What the checks of a click refuse, [navigate] opens. *)
Example navigate_unchecked :
  map fst (requests (after_calls sample_outside sample_options 1000
    [call [("action", VStr "open"); ("url", VStr "https://accounts.google.com/")]])) = ["https://accounts.google.com/"].
Proof. vm_compute. reflexivity. Qed.
(** Filling in a form and sending it. *)
Example form_sent :
  omap (fun e => match e with Sent r => rq_body r | _ => None end)
    (b_log (after_calls sample_outside sample_options 1000
      [call [("action", VStr "open"); ("url", VStr "https://a.com/")];
       call [("action", VStr "act"); ("kind", VStr "fill"); ("fields", VArr [VObj [("name", VStr "Q"); ("value", VStr "a b&c")]])];
       call [("action", VStr "submit")]])) = ["q=a+b%26c"].
Proof. vm_compute. reflexivity. Qed.
