(* ===== verification/ProviderText.v ===== *)
(** * What a message asks for

    [src/src/provider/run.ts], second part: the questions the run asks of a
    message or of a result.  Which intent a message has, which tools it needs,
    which memories it gives, whether a tool call changes or verifies state, the
    one-time codes in a text, identity questions and their answers.

    The patterns are those of the source; characters outside Latin-1, which no
    text of the model holds, are left out of their classes.  [url_of] stands for
    the URL constructor. *)

From stdpp Require Import base list sets strings pretty.
From Stdlib Require Import Ascii Lia ZArith.
From S2P Require Import Prelude JsString JsMap JsValue JsRegex JsRegexExec Json NodePath Config ProviderRoute.
#[local] Open Scope nat_scope.

(** What the sources read of a URL object. *)
Record url := mkURL { u_hostname : string; u_pathname : string; u_href : string }.

(** [l.some(p => p.test(s))] *)
Definition any_of_tests (l : list string) (s : string) : bool := existsb (fun p => test (re_ p) s) l.
Definition blank (s : string) : bool := negb (truthy (trim s)).
(** [s.replace(/\s+/g, " ").trim()] *)
Definition one_space (s : string) : string := trim (replace_runs is_ws [" "%char] s).
Definition name_key (s : string) : string := toLowerCase (trim s).

(** ** Debugging traces *)

Section Trace.
Variables (env : list (string * string)) (pcwd home : string).
Definition isPromptTraceEnabled : bool :=
  bool_decide (toLowerCase (trim (env_var env "T560_DEBUG_PROMPT_TRACE")) ∈ ["1"; "true"; "yes"; "on"]).
Definition resolvePathFromEnv (raw : string) : string :=
  let v := trim raw in
  if negb (truthy v) then v
  else if (v =? "~")%string then home
  else if startsWith "~/" v then join2 home (slice_from 2 v)
  else resolve pcwd v.
Definition resolvePromptTracePath : string :=
  let explicit := trim (env_var env "T560_DEBUG_PROMPT_TRACE_PATH") in
  if truthy explicit then resolvePathFromEnv explicit else join2 (resolveStateDir env pcwd home) "prompt-trace.jsonl".
End Trace.

(** ** Memories in a message *)

Record AutoMemoryCandidate := mkAuto { am_title : string; am_content : string; am_tags : list string }.
Definition AUTO_MEMORY_MAX_CANDIDATES : nat := 2.
Definition isAutoMemoryEnabled (env : list (string * string)) : bool :=
  let raw := toLowerCase (trim (env_var env "T560_MEMORY_AUTO_SAVE")) in
  if negb (truthy raw) then true else negb (bool_decide (raw ∈ ["0"; "false"; "no"; "off"])).
Definition clipAutoMemoryText (v : string) (maxChars : nat) : string :=
  let compact := one_space v in
  if slen compact <=? maxChars then compact else trim (slice_to (maxChars - 3) compact) +:+ "...".

Definition memory_key (c : AutoMemoryCandidate) : string := toLowerCase (am_title c +:+ newline +:+ am_content c).
(** The set of keys is that of the candidates. *)
Definition addCandidate (c : AutoMemoryCandidate) (l : list AutoMemoryCandidate) : list AutoMemoryCandidate :=
  let title := clipAutoMemoryText (am_title c) 80 in
  let content := clipAutoMemoryText (am_content c) 420 in
  let tags := firstn 8 (dedup (List.filter truthy (map (fun t => toLowerCase (trim t)) (am_tags c)))) in
  let c' := mkAuto title content tags in
  if negb (truthy title) || negb (truthy content) then l
  else if bool_decide (memory_key c' ∈ map memory_key l) then l else l ++ [c'].
(** [const m = pattern.exec(source); if (m?.[1]) addCandidate({title, content: f(m[1]), tags})] *)
Definition from_pattern (pat : string) (source title : string) (content : string -> string) (tags : list string)
    (l : list AutoMemoryCandidate) : list AutoMemoryCandidate :=
  match capture 1 (re_i pat) source with
  | Some t => if truthy t then addCandidate (mkAuto title (content t) tags) l else l
  | None => l
  end.
Definition extractAutoMemoryCandidates (message : string) : list AutoMemoryCandidate :=
  let source := trim message in
  if negb (truthy source) || (600 <? slen source) then []
  else if test (re_i "\b(?:don't|do not)\s+remember\b") source then []
  else
    let l1 := from_pattern "\b(?:remember|for future reference|note that)\b[:,-]?\s*(.+)$" source
                "User explicit memory" (fun t => t) ["user"; "explicit"; "memory"] [] in
    let l2 := from_pattern "\b(?:i|we)\s+(?:prefer|like)\s+(.{3,220})$" source
                "User preference" (fun t => "User preference: " +:+ t) ["user"; "preference"] l1 in
    let l3 := from_pattern "\b(?:my name is|call me)\s+([A-Za-z][A-Za-z0-9 _-]{1,40})\b" source
                "User identity" (fun t => "Preferred name: " +:+ trim t) ["user"; "identity"] l2 in
    let l4 := from_pattern "\bmy timezone is\s+([A-Za-z0-9_+/:-]{2,64})\b" source
                "User timezone" (fun t => "Timezone: " +:+ trim t) ["user"; "timezone"] l3 in
    let l5 := from_pattern "\b(?:always|default to)\s+(.{4,220})$" source
                "User workflow preference" (fun t => "Workflow preference: " +:+ t) ["user"; "workflow"; "preference"] l4 in
    firstn AUTO_MEMORY_MAX_CANDIDATES l5.

(** ** Identity files *)

Record ContextFile := mkContextFile { cf_name : string; cf_path : string; cf_content : string; cf_missing : bool; cf_source : string }.
Definition hasInjectedIdentityContent (v : string) : bool := (0 <? slen (trim v)) && negb (trim v =? "(missing file)")%string.
Definition buildInjectedIdentityContextFiles (soulPath soulContent userPath userContent : string) : list ContextFile :=
  [mkContextFile "SOUL.md" soulPath soulContent false "fallback:soul";
   mkContextFile "USER.md" userPath userContent false "fallback:user"].
Definition file_named (name : string) (files : list ContextFile) : option ContextFile :=
  List.find (fun f => (toUpperCase (trim (cf_name f)) =? name)%string) files.
Definition injected (o : option ContextFile) : bool :=
  match o with Some f => negb (cf_missing f) && hasInjectedIdentityContent (cf_content f) | None => false end.
Definition assertIdentityContextFilesInjected (files : list ContextFile) : result unit :=
  if negb (injected (file_named "SOUL.MD" files)) then Throw "SOUL.md must be injected into provider context for every run."
  else if negb (injected (file_named "USER.MD" files)) then Throw "USER.md must be injected into provider context for every run."
  else Ok tt.
Definition assertSystemPromptHasIdentityFiles (prompt : string) : result unit :=
  if negb (test (re_i "<assistant_soul>") prompt) then Throw "Provider system prompt missing injected assistant soul block."
  else if negb (test (re_i "<user_profile>") prompt) then Throw "Provider system prompt missing injected user profile block."
  else Ok tt.
Definition firstNonEmptyLine (v : string) : string :=
  default "" (List.find (fun line => 0 <? slen line) (map trim (split_lines v))).
Definition assertSystemPromptHasIdentityContent (prompt soulContent userContent : string) : result unit :=
  let soulLine := firstNonEmptyLine soulContent in
  let userLine := firstNonEmptyLine userContent in
  if negb (truthy soulLine) || negb (includes soulLine prompt) then Throw "Provider system prompt missing SOUL.md content."
  else if negb (truthy userLine) || negb (includes userLine prompt) then Throw "Provider system prompt missing USER.md content."
  else Ok tt.
(** [String(reminders?.[name] ?? "").trim()]; an inherited member has a text. *)
Definition reminder_text (name : string) (reminders : list (string * string)) : string :=
  match obj_lookup name reminders with Own t => trim t | Inherited => "function" | Missing => "" end.
Definition assertToolSkillCoverage (toolNames : list string) (reminders : list (string * string)) : result unit :=
  let normalized := dedup (List.filter truthy (map name_key toolNames)) in
  let uncovered := List.filter (fun name => negb (truthy (reminder_text name reminders))) normalized in
  if 0 <? length uncovered
  then Throw ("Missing tool skill reminders for enabled tools: " +:+ join ", " uncovered) else Ok tt.

(** ** Intents *)

Definition hasLikelyLogoutIntent (message : string) : bool :=
  let text := toLowerCase message in
  if blank text then false
  else any_of_tests ["\blogout\b"; "\blog\s*out\b"; "\blog\s*iut\b"; "\blog\s*uot\b"; "\blog\s*ot\b"; "\bsign\s*out\b";
                     "\bsignout\b"; "\bsign\s*off\b"] text.
Definition hasLikelyLoginIntent (message : string) : bool :=
  let text := toLowerCase message in
  if blank text then false
  else any_of_tests ["\blogin\b"; "\blog\s*in(?:to)?\b"; "\blog\s+me\s+in\b"; "\bsign\s*in(?:to)?\b"; "\bsign\s+me\s+in\b";
                     "\bauth(?:enticate|entication)?\b"; "\bverification\b"; "\bone[-\s]?time code\b"; "\botp\b"; "\b2fa\b";
                     "\bmfa\b"] text.
Definition looksLikeLoginIntent (message : string) : bool := hasLikelyLoginIntent message.
Definition looksLikeAccountDashboardIntent (message : string) : bool :=
  let text := toLowerCase message in
  if blank text then false
  else any_of_tests ["\bdashboard\b"; "\bbalance\b"; "\baccount\b"; "\bportfolio\b"; "\bstatement\b"] text.

Definition email_words : list string :=
  ["\be-?mails?\b"; "\binbox\b"; "\bmailbox\b"; "\bunread\b"; "\bimap\b"; "\bsmtp\b"].
Definition answers_mail (text : string) : bool :=
  any_of_tests ["\breply\b"; "\brespond\b"] text && any_of_tests ["\be-?mails?\b"; "\binbox\b"; "\bmailbox\b"] text.
Definition requestLikelyNeedsTools (message : string) : bool :=
  let text := toLowerCase message in
  any_of_tests
    ["\b(create|make|write|edit|delete|remove|rename|move|copy)\b";
     "\b(file|folder|directory|desktop|documents|downloads)\b";
     "\b(run|execute|install|uninstall|start|stop|restart)\b";
     "\bterminal|shell|command|bash|cd|ls|pwd|cat|npm|pnpm|yarn|git\b";
     "\b(search|look up|lookup|latest|current|today|news|web|internet|url|website|source)\b";
     "\b(open|click|navigate|browse|tab|page|site|scrape|crawl|visit|access)\b";
     "\bgo\s+to\b"; "\bgoto\b"] text ||
  hasLikelyLoginIntent text ||
  test (re_ "\b(logout|log out|sign out|signout|authenticator|passcode)\b") text ||
  any_of_tests email_words text || answers_mail text || hasLikelyLogoutIntent text || test (re_ "\benter (that )?code\b") text.
Definition requestLikelyNeedsCompletionVerification (message : string) : bool :=
  let text := toLowerCase message in
  if blank text then false
  else any_of_tests
    ["\b(create|make|write|edit|update|change|fix|rename|move|copy)\b"; "\b(delete|remove|wipe|clear|purge|destroy)\b";
     "\b(send|submit|post|publish)\b"; "\b(install|uninstall|upgrade|downgrade|configure|setup)\b";
     "\b(login|log in|logout|log out|sign in|sign out|authenticate|mfa|otp)\b"; "\b(buy|purchase|checkout|order|pay)\b"] text.
Definition messageLikelyNeedsEmailTool (message : string) : bool :=
  let text := toLowerCase message in
  if blank text then false
  else any_of_tests email_words text || test (re_ "\bsend (an )?e-?mails?\b") text ||
       test (re_ "\bcheck (my|the)?\s*inbox\b") text || answers_mail text.
Definition messageLikelyAsksToContinueWithoutCode (message : string) : bool :=
  let text := toLowerCase message in
  if blank text then false
  else test (re_ "\b(continue|proceed|go ahead|keep going|next step|do it|finish)\b") text ||
       looksLikeLoginIntent text || looksLikeAccountDashboardIntent text.
Definition looksLikeMfaRecoveryIntent (message : string) : bool :=
  let text := toLowerCase message in
  if blank text then false
  else if any_of_tests ["\b(what|which)\s+email\b";
                        "\b(email|address)\b[\s\S]{0,40}\b(enter|entered|use|used|fill|filled|typed|typing)\b"] text then true
  else if negb (test (re_ "\b(one[-\s]?time code|otp|verification code|auth code|2fa code|mfa code|code)\b") text) then false
  else any_of_tests ["\b(not getting|not receiving|didn[']?t get|never got|no code|code not|missing)\b";
                     "\b(resend|send again|retry|try again)\b"] text.

(** ** Sites in a message *)

Section Sites.
(** [new URL(s)], [None] when it throws *)
Variable url_of : string -> option url.

Definition extractHttpUrlsFromText (message : string) : list string :=
  if blank message then []
  else dedup (omap (fun raw => let cleaned := trim raw in
                     if truthy cleaned then option_map u_href (url_of cleaned) else None)
                   (all_texts (re_i "https?://[^\s\x22'`<>]+") message)).
Definition join_dotted (text : string) : string :=
  replaceAll (re_i "([a-z0-9])\s*([.-])\s*(?=[a-z0-9])") (fun m => group 1 m +:+ group 2 m) text.
Definition strip_www (host : string) : string := replaceFirst (re_ "^www\.") "" host.
Definition extractLikelyDomainsFromText (message : string) : list string :=
  if blank message then []
  else dedup (List.filter truthy
    (map (fun raw => strip_www (toLowerCase (trim raw)))
       (all_texts (re_i "\b(?:[a-z0-9](?:[a-z0-9-]{0,61}[a-z0-9])?\.)+[a-z]{2,63}\b") (join_dotted message)))).
Definition normalizeServiceFingerprint (v : string) : string := replace_outside key_char [] (toLowerCase v).
Definition hostFromWebsiteUrl (v : string) : option string :=
  let raw := trim v in
  if negb (truthy raw) then None
  else match url_of raw with
       | Some u => let host := strip_www (toLowerCase (trim (u_hostname u))) in if truthy host then Some host else None
       | None => None
       end.
Definition extractTargetUrlFromMessage (message : string) : option string :=
  match extractHttpUrlsFromText message with
  | explicit :: _ => if truthy explicit then Some explicit
                     else option_map (fun d => "https://" +:+ d) (head (extractLikelyDomainsFromText message))
  | [] => option_map (fun d => "https://" +:+ d) (head (extractLikelyDomainsFromText message))
  end.
Definition looksLikeSiteVisitIntent (message : string) : bool :=
  let text := toLowerCase message in
  if blank text then false
  else if negb ((0 <? length (extractHttpUrlsFromText message)) || (0 <? length (extractLikelyDomainsFromText message))) then false
  else test (re_ "\b(go to|goto|open|visit|navigate|check|load|access)\b") text || hasLikelyLoginIntent text ||
       looksLikeAccountDashboardIntent text.
Definition autoAuthSite (message : string) : bool :=
  looksLikeLoginIntent message || looksLikeAccountDashboardIntent message || looksLikeSiteVisitIntent message.

(** ** Tools for a message *)

Definition selectToolsForCompactMode {T} (name_of : T -> string) (tools : list T) (message : string) (pendingMfa : bool) : list T :=
  let needsEmail := messageLikelyNeedsEmailTool message || pendingMfa in
  let needsWeb :=
    looksLikeLoginIntent message || looksLikeSiteVisitIntent message || looksLikeAccountDashboardIntent message ||
    test (re_i "\b(search|look up|lookup|latest|current|today|news|web|internet|url|website|source|open|visit|navigate)\b") message ||
    pendingMfa in
  let needsMemory := test (re_i "\b(memory|remember|recall|forget|preference|store this|save this|past conversation)\b") message in
  List.filter (fun tool =>
    let normalized := name_key (name_of tool) in
    if negb needsMemory && startsWith "memory_" normalized then false
    else if negb needsWeb && bool_decide (normalized ∈ ["browser"; "web_search"; "web_fetch"]) then false
    else if negb needsEmail && (normalized =? "email")%string then false
    else true) tools.
Definition hasTool (names : list string) (wanted : string) : bool :=
  existsb (fun n => (name_key n =? name_key wanted)%string) names.

Record ToolOutcome := mkToolOutcome { to_toolName : string; to_isError : bool; to_content : string }.
Definition outcome_is (err : bool) (tool : string) (o : ToolOutcome) : bool :=
  Bool.eqb (to_isError o) err && (name_key (to_toolName o) =? tool)%string.
Definition shouldAttemptWebRecovery (names : list string) (message : string) (outcomes : list ToolOutcome) (mfaPending : bool) : bool :=
  if mfaPending then false
  else if hasLikelyLoginIntent message || looksLikeSiteVisitIntent message || looksLikeAccountDashboardIntent message then false
  else
    let hasWebSearch := hasTool names "web_search" in
    let hasWebFetch := hasTool names "web_fetch" in
    if negb hasWebSearch && negb hasWebFetch then false
    else if negb (test (re_i "\b(search|look up|lookup|latest|current|today|news|web|internet|url|website|source)\b") message) then false
    else if negb (existsb (outcome_is true "browser") outcomes) then false
    else negb (hasWebSearch && existsb (outcome_is false "web_search") outcomes) &&
         negb (hasWebFetch && existsb (outcome_is false "web_fetch") outcomes).
End Sites.

(** ** Tool calls that change or verify state *)

Definition toToolArgsRecord (args : value) : value := match args with VObj _ => args | _ => VObj [] end.
Definition looksLikeStateMutationCommand (command : string) : bool :=
  let text := toLowerCase command in
  if blank text then false
  else any_of_tests
    ["\b(rm|rmdir|mv|cp|mkdir|touch|chmod|chown|ln)\b"; "\b(sed|awk|perl)\b";
     "\b(npm|pnpm|yarn)\s+(install|remove|add|uninstall|update|upgrade|run)\b";
     "\bgit\s+(add|commit|push|checkout|switch|merge|rebase|reset)\b"; "\b(docker|kubectl|systemctl)\b"; ">>?"] text.
Definition looksLikeStateVerificationCommand (command : string) : bool :=
  let text := toLowerCase command in
  if blank text then false
  else any_of_tests ["\b(test|stat|ls|find|rg|grep|cat|head|tail|wc|du|md5sum|sha256sum)\b"; "\[\s*![^]]*-e"; "\[\s*-e"] text.

(** [String(args.k ?? "")] *)
Definition arg_text (k : string) (args : value) : string := to_string (nullish (get_prop k args) (VStr "")).
Definition arg_key (k : string) (args : value) : string := name_key (arg_text k args).
Definition command_text (args : value) : string :=
  to_string (nullish (get_prop "command" args) (nullish (get_prop "cmd" args) (VStr ""))).
Definition memory_writes : list string := ["memory_save"; "memory_delete"; "memory_prune"; "memory_feedback"; "memory_compact"].
Definition toolCallMutatesState (toolName : string) (args : value) : bool :=
  let tool := name_key toolName in
  if negb (truthy tool) then false
  else if bool_decide (tool ∈ ["write"; "edit"]) then true
  else if bool_decide (tool ∈ memory_writes) then true
  else if (tool =? "email")%string then (arg_key "action" args =? "send")%string
  else if (tool =? "browser")%string
  then bool_decide (arg_key "action" args ∈ ["submit"; "login"; "mfa"; "upload"; "dialog"; "challenge"])
  else if (tool =? "exec")%string then looksLikeStateMutationCommand (command_text args)
  else false.
Definition toolCallVerifiesState (toolName : string) (args : value) : bool :=
  let tool := name_key toolName in
  if negb (truthy tool) then false
  else if bool_decide (tool ∈ ["read"; "ls"; "find"; "exists"; "web_search"; "web_fetch"; "memory_search"; "memory_get"] ++
                               memory_writes ++ ["memory_list"; "memory_stats"]) then true
  else if (tool =? "email")%string
  then bool_decide (arg_key "action" args ∈ ["status"; "list_unread"; "read_unread"; "read_recent"; "send"])
  else if (tool =? "browser")%string
  then bool_decide (arg_key "action" args ∈ ["snapshot"; "wait"; "wait_for_request"; "downloads"; "console"; "pdf"])
  else if (tool =? "exec")%string then looksLikeStateVerificationCommand (command_text args)
  else false.

(** ** One-time codes *)

Definition extractLikelyOneTimeCode (message : string) : option string :=
  let compact := replace_runs is_ws [] (trim message) in
  if negb (truthy compact) then None
  else if test (re_ "^\d{4,10}$") compact then Some compact
  else if test (re_ "^[A-Za-z0-9]{6,10}$") compact && test (re_ "\d") compact then Some compact
  else None.

Definition code_ok (v : string) : bool :=
  truthy v && (4 <=? slen v) && (slen v <=? 10) && test (re_i "^[a-z0-9]+$") v && test (re_ "\d") v.
Definition push_code (v : string) (score : nat) (l : list (string * nat)) : list (string * nat) :=
  let normalized := trim v in if code_ok normalized then l ++ [(normalized, score)] else l.
Definition captures (r : rx) (source : string) : list string := map (fun m => trim (group 1 m)) (matchAll r source).
Definition contextual_codes (source : string) : list (string * nat) :=
  fold_left (fun l v =>
      push_code v (10 + (if test (re_ "^\d+$") v then (if slen v =? 6 then 5 else if slen v =? 8 then 4 else 2) else 0)) l)
    (captures (re_i "(?:verification|one[-\s]?time|security|login|sign[-\s]?in|otp|mfa|2fa|auth(?:entication)?)\D{0,24}([a-z0-9]{4,10})") source) [].
Definition numeric_codes (source : string) (l : list (string * nat)) : list (string * nat) :=
  fold_left (fun l v => push_code v (2 + (if slen v =? 6 then 4 else if slen v =? 8 then 3 else 0)) l)
    (captures (re_ "\b(\d{4,10})\b") source) l.
Definition alnum_codes (source : string) (l : list (string * nat)) : list (string * nat) :=
  fold_left (fun l v => if test (re_ "\d") v then push_code v 1 l else l) (captures (re_i "\b([a-z0-9]{6,10})\b") source) l.
(** The best score of each value, in the order of the first occurrences. *)
Definition best_scores (l : list (string * nat)) : list (string * nat) :=
  fold_left (fun best c => match mget c.1 best with
                           | Some prev => if prev <? c.2 then mset c.1 c.2 best else best
                           | None => mset c.1 c.2 best
                           end) l [].
Definition extractOneTimeCodeCandidatesFromText (source : string) : list string :=
  if blank source then []
  else map fst (stable_sort (fun a b => b.2 <? a.2) (best_scores (alnum_codes source (numeric_codes source (contextual_codes source))))).

(** [JSON.parse] of a record, else [null] *)
Definition parseJsonRecord (content : string) : option value :=
  match JSON_parse content with Some (VObj ps) => Some (VObj ps) | _ => None end.
Definition getNestedRecord (source : value) (key : string) : option value :=
  match get_prop key source with VObj ps => Some (VObj ps) | _ => None end.
Definition first_code (texts : list string) : option string :=
  head (omap (fun t => head (extractOneTimeCodeCandidatesFromText t)) texts).
Definition extractLikelyOneTimeCodeFromEmailOutcome (content : string) : option string :=
  let sourceTexts :=
    match parseJsonRecord content with
    | Some parsed =>
        flat_map (fun row => if is_object row then [arg_text "subject" row; arg_text "snippet" row] else [])
          (array_items (get_prop "messages" parsed)) ++ [arg_text "reason" parsed; arg_text "nextStep" parsed]
    | None => []
    end in
  first_code (if length sourceTexts =? 0 then [content] else sourceTexts).

(** ** Browser results *)

Definition is_true (v : value) : bool := match v with VBool true => true | _ => false end.
(** [record?.k] *)
Definition opt_prop (k : string) (o : option value) : value := match o with Some v => get_prop k v | None => VUndef end.
Definition non_empty (s : string) : option string := if truthy s then Some s else None.
Definition text_field (v : value) : string := trim (to_string (nullish v (VStr ""))).

Definition requires_mfa (parsed : value) : bool :=
  is_true (get_prop "requiresMfa" parsed) || is_true (opt_prop "required" (getNestedRecord parsed "mfa")) ||
  is_true (opt_prop "requiresMfa" (getNestedRecord parsed "mfa")).
Record MfaState := mkMfaState { ms_requiresMfa : bool; ms_sourceService : option string; ms_sourceAvailable : bool }.
Definition parseBrowserMfaState (content : string) : MfaState :=
  match parseJsonRecord content with
  | None => mkMfaState false None false
  | Some parsed =>
      let mfa := getNestedRecord parsed "mfa" in
      mkMfaState (requires_mfa parsed)
        (non_empty (text_field (nullish (get_prop "mfaSourceService" parsed) (opt_prop "sourceService" mfa))))
        (is_true (get_prop "mfaSourceCredentialAvailable" parsed) || is_true (opt_prop "sourceCredentialAvailable" mfa))
  end.
Record LoginState := mkLoginState { ls_submitted : bool; ls_requiresMfa : bool; ls_mfaExpected : bool; ls_identifier : option string }.
Definition parseBrowserLoginState (content : string) : option LoginState :=
  match parseJsonRecord content with
  | None => None
  | Some parsed =>
      let mfa := getNestedRecord parsed "mfa" in
      if negb (has_prop "submitted" parsed || has_prop "requiresMfa" parsed || has_prop "mfaExpected" parsed ||
               has_prop "identifier" parsed || match mfa with Some _ => true | None => false end)
      then None
      else Some (mkLoginState (is_true (get_prop "submitted" parsed)) (requires_mfa parsed)
             (is_true (get_prop "mfaExpected" parsed) || is_true (opt_prop "expected" mfa))
             (non_empty (text_field (nullish (get_prop "identifierFull" parsed)
                (nullish (get_prop "identifier" parsed) (get_prop "identifierMasked" parsed))))))
  end.
Definition normalizeBrowserActionName (v : value) : string :=
  let raw := name_key (to_string (nullish v (VStr ""))) in
  if bool_decide (raw ∈ ["wait-for-request"; "waitforrequest"; "wait-for-network"]) then "wait_for_request"
  else if bool_decide (raw ∈ ["captcha"; "human-check"; "human_check"; "human-verification"]) then "challenge"
  else raw.
Definition active_tab (parsed : value) : string :=
  text_field (nullish (get_prop "activeTabId" parsed) (opt_prop "id" (getNestedRecord parsed "tab"))).
Record ChallengeState := mkChallenge { ch_detected : bool; ch_tabId : option string }.
Definition parseBrowserChallengeState (content : string) : ChallengeState :=
  match parseJsonRecord content with
  | None => mkChallenge false None
  | Some parsed =>
      mkChallenge (is_true (get_prop "humanVerificationRequired" parsed) || is_true (get_prop "challengeDetected" parsed) ||
                   is_true (opt_prop "detected" (getNestedRecord parsed "challenge")))
        (non_empty (active_tab parsed))
  end.
Definition outcomeLooksLikeHumanVerificationError (content : string) : bool :=
  test (re_ "\b(captcha|recaptcha|hcaptcha|turnstile|human verification|verify you are human|security check|cloudflare)\b")
    (toLowerCase content).

(** ** Sessions that wait for a code *)

Record PendingMfaSession := mkPendingMfa {
  pm_service : option string; pm_sourceService : option string; pm_tabId : option string; pm_since : Z }.
Definition MFA_PENDING_SESSION_MAX : nat := 1024.
Definition pending_map := list (string * PendingMfaSession).

(** A map beyond the maximum loses its first entry. *)
Definition drop_oldest (m : pending_map) : pending_map :=
  if MFA_PENDING_SESSION_MAX <? length m
  then match m with (oldest, _) :: _ => if truthy oldest then mdelete oldest m else m | [] => m end
  else m.
Definition updatePendingMfaStateFromBrowserTool (sessionId : string) (toolArgs : value) (content : string) (isError : bool)
    (now : Z) (m : pending_map) : pending_map :=
  let action := arg_key "action" (if is_object toolArgs then toolArgs else VObj []) in
  if (action =? "mfa")%string && negb isError then mdelete sessionId m
  else if isError then m
  else
    match parseJsonRecord content with
    | None => m
    | Some parsed =>
        let mfa := getNestedRecord parsed "mfa" in
        if is_true (get_prop "mfaSubmitted" parsed) || is_true (opt_prop "submitted" mfa) || is_true (opt_prop "handled" mfa)
        then mdelete sessionId m
        else if negb (requires_mfa parsed) then (if (action =? "login")%string then mdelete sessionId m else m)
        else
          let entry := mkPendingMfa (non_empty (text_field (get_prop "service" parsed)))
                         (non_empty (text_field (nullish (get_prop "mfaSourceService" parsed) (opt_prop "sourceService" mfa))))
                         (non_empty (active_tab parsed)) now in
          drop_oldest (mset sessionId entry m)
    end.

(** ** Instructions *)

Definition q : string := of_chars [ascii_of_nat 34].
Definition quoted (s : string) : string := q +:+ s +:+ q.
Definition buildWebRecoveryInstruction (names : list string) : string :=
  if hasTool names "web_search" then
    "System recovery instruction: Browser interaction failed. For this factual lookup, retry using web_search (and web_fetch as needed), then answer from successful tool outputs only."
  else if hasTool names "web_fetch" then
    "System recovery instruction: Browser interaction failed. For this factual lookup, use browser action=search/open to locate a relevant URL, then ground the answer with web_fetch output only."
  else "System recovery instruction: Browser interaction failed. Retry with a simpler browser path and answer only from successful tool outputs.".
Definition buildLogoutToolForceInstruction : string :=
  join " " ["System instruction: this is a logout request for the current website session."; "Use browser tools now.";
    "Steps: 1) capture snapshot of the current tab, 2) locate sign out/log out/logout control, 3) click it, 4) verify logged-out state in the resulting page.";
    "Then provide a concise completion message with verified outcome."].
Definition buildCompletionVerificationInstruction : string :=
  join " " ["System instruction: do not finalize yet.";
    "A state-changing step needs direct post-action verification before any completion claim.";
    "Run verification now (for filesystem use explicit existence/list checks; for web/app use snapshot/readback/status evidence), then summarize only verified results."].
(** [o?.k ? f(o.k) : ""] *)
Definition part_of (o : option string) (f : string -> string) : string :=
  match o with Some s => if truthy s then f s else "" | None => "" end.
Definition buildAutoMfaFromEmailInstruction (sourceService : string) (pending : option PendingMfaSession) : string :=
  let tabPart := part_of (p ← pending; pm_tabId p) (fun t => ", tabId=" +:+ quoted t) in
  let servicePart := part_of (p ← pending; pm_service p) (fun s => ", service=" +:+ quoted s) in
  one_space (join " "
    ["System instruction: login reached MFA challenge and mailbox access is configured.";
     "Use email tool now with action=" +:+ quoted "list_unread" +:+ " and service=" +:+ quoted sourceService +:+
       " to fetch the latest one-time code.";
     "Extract the code, then immediately call browser tool action=" +:+ quoted "mfa" +:+ " with that code";
     tabPart +:+ servicePart +:+ ".";
     "If no usable code is found in email, ask the user for the one-time code in one short line and stop."]).
Definition buildMfaContinuationInstruction (userMessage mfaCode : string) (pending : PendingMfaSession) : string :=
  let actionLine := trim (join " "
    ["System instruction: An earlier browser login is waiting for an MFA code.";
     "Use browser tool immediately with action=" +:+ quoted "mfa" +:+ ", code=" +:+ quoted mfaCode;
     part_of (pm_tabId pending) (fun t => ", tabId=" +:+ quoted t) +:+ ".";
     part_of (pm_service pending) (fun s => "Use service=" +:+ quoted s +:+ " if needed.");
     part_of (pm_sourceService pending) (fun s => "Prefer MFA inbox source service=" +:+ quoted s +:+ " when a retrieval step is needed.");
     "Do not ask the user to repeat this same code."]) in
  actionLine +:+ newline +:+ "Original user message: " +:+ userMessage.

Definition assistantRefusedOtpRelay (text : string) : bool :=
  let normalized := toLowerCase text in
  if blank normalized then false
  else any_of_tests
    ["can(?:not|'t)\s+(?:relay|provide|share|send)\s+(?:any\s+)?(?:one[-\s]?time|otp|verification)\s+(?:password|code|codes)";
     "one[-\s]?time\s+(?:password|code).*treated as sensitive"] normalized.
Definition assistantIsAskingForIdentifier (text : string) : bool :=
  let normalized := toLowerCase (trim text) in
  if negb (truthy normalized) then false
  else any_of_tests
    ["\b(which|what)\s+(email|username)\b"; "\bwhat\s+email\s+address\b"; "\bneed (?:the )?(?:exact )?(email|username)\b";
     "\bjust need (?:your )?(email|username)\b"; "\bneed .* (email|username) .* (enter|use|send)\b";
     "\bemail address (?:to use|you(?:')d like|for this)\b"; "\bemail should i use\b"; "\busername should i use\b";
     "\bwhat (is )?your email\b"; "\bprovide (your )?(email|username)\b"] normalized.

(** ** Small talk and identity *)

Definition SMALL_TALK_MESSAGES : list string :=
  ["hi"; "hello"; "hey"; "hey there"; "hi there"; "hello there"; "yo"; "sup"; "what's up"; "whats up"; "good morning";
   "good afternoon"; "good evening"; "good night"; "how are you"; "thanks"; "thank you"; "thx"; "ok"; "okay"; "cool"; "nice"; "ping"].
Definition SMALL_TALK_PATTERNS : list string :=
  ["^(?:hi|hello|hey)(?: there)?(?: how are you(?: today| doing)?)?$"; "^how are you(?: today| doing)?$";
   "^(?:what's up|whats up|how's it going|hows it going)$"; "^(?:good morning|good afternoon|good evening|good night)$"].
Definition simple_char (c : ascii) : bool := is_lower c || is_digit c || is_ws c || (code c =? 39).
Definition normalizeSimpleMessage (message : string) : string :=
  one_space (replace_outside simple_char [" "%char] (toLowerCase message)).
Definition action_words : string :=
  "\b(?:run|execute|open|search|look up|lookup|write|edit|create|delete|install|navigate|go to|goto|login|sign in|buy|order)\b".
Definition isSmallTalkMessage (message : string) : bool :=
  let normalized := normalizeSimpleMessage message in
  if negb (truthy normalized) then false
  else if 10 <? length (split_char " " normalized) then false
  else if test (re_ "\b(?:can you|could you|please)\b") normalized &&
          test (re_ "\b(?:run|execute|open|search|look up|lookup|write|edit|create|delete|install|navigate|login|sign in)\b") normalized
  then false
  else if test (re_ action_words) normalized then false
  else if bool_decide (normalized ∈ SMALL_TALK_MESSAGES) then true
  else any_of_tests SMALL_TALK_PATTERNS normalized.

Record IdentityAnchors := mkAnchors { assistantName : option string; userName : option string }.
Record IdentityIntent := mkIntent { askAssistant : bool; askUser : bool }.
Definition detectIdentityIntent (message : string) : IdentityIntent :=
  let normalized := normalizeSimpleMessage message in
  if negb (truthy normalized) then mkIntent false false
  else mkIntent
    (any_of_tests ["\bwho are you\b"; "\bwho you are\b"; "\bwhat(?:s| is) your name\b"; "\byour identity\b";
                   "\bdo you know (?:who|what) you\b"] normalized)
    (any_of_tests ["\bwho am i\b"; "\bwho i am\b"; "\bwhat(?:s| is) my name\b"; "\bmy identity\b";
                   "\bdo you know (?:who|what) i\b"] normalized).

Definition not_a_name (s : string) : bool := bool_decide (toLowerCase s ∈ ["a"; "an"; "the"; "ai"; "assistant"]).
(** [m?.[1]] when it is truthy *)
Definition captured (r : rx) (s : string) : option string := t ← capture 1 r s; non_empty t.
Definition parseAssistantNameFromSoul (text : string) : option string :=
  match captured (re_i "\b(?:assistant|ai assistant)\s+named\s+([A-Za-z0-9_-]{2,64})\b") text with
  | Some n => Some n
  | None =>
      match captured (re_i "\bpretend you are\s+(?:an?|the)\s+ai assistant\s+named\s+([A-Za-z0-9_-]{2,64})\b") text with
      | Some n => Some n
      | None =>
          let sentences := List.find (fun c => truthy c && negb (not_a_name c)) (captures (re_i "\bYou are\s+([A-Za-z0-9_-]+)") text) in
          match captured (re_im "##\s*Identity[\s\S]{0,260}?You are\s+([A-Za-z0-9_-]+)") text with
          | Some n => if negb (not_a_name n) then Some n else sentences
          | None => sentences
          end
      end
  end.
Definition parseUserNameFromUserProfile (text : string) : option string :=
  match captured (re_im "^Name:\s*([^\n\r]{1,80})$") text with
  | Some n => Some (trim n)
  | None => option_map trim (captured (re_i "\bI am\s+([A-Z][A-Za-z0-9_-]{1,40})\b") text)
  end.
Definition buildIdentityAnchors (soulContent userContent : string) : IdentityAnchors :=
  mkAnchors (parseAssistantNameFromSoul soulContent) (parseUserNameFromUserProfile userContent).

Definition isIdentityAnswerGrounded (answer : string) (anchors : IdentityAnchors) (intent : IdentityIntent) : bool :=
  let text := toLowerCase answer in
  if negb (truthy text) then false
  else
    let assistant := toLowerCase (default "" (assistantName anchors)) in
    let user := toLowerCase (default "" (userName anchors)) in
    let mentionsAssistant := truthy assistant && includes assistant text in
    let mentionsUser := truthy user && includes user text in
    if askAssistant intent && truthy assistant && negb mentionsAssistant then false
    else if askUser intent && truthy user && negb mentionsUser then false
    else if askAssistant intent && negb (askUser intent) && truthy user && mentionsUser then false
    else if askUser intent && negb (askAssistant intent) && truthy assistant && mentionsAssistant then false
    else if askAssistant intent || askUser intent then true else mentionsAssistant || mentionsUser.
Definition buildIdentityGroundingInstruction (intent : IdentityIntent) (anchors : IdentityAnchors) : string :=
  let hints := match assistantName anchors with
               | Some n => if truthy n then ["assistant identity from SOUL.md: " +:+ n] else [] | None => [] end ++
               match userName anchors with
               | Some n => if truthy n then ["user identity from USER.md: " +:+ n] else [] | None => [] end in
  let hintText := if 0 <? length hints then " Use these anchors: " +:+ join "; " hints +:+ "." else "" in
  if askAssistant intent && negb (askUser intent) then
    "System instruction: answer the user's assistant-identity question naturally using SOUL.md identity content. Do not invent a different assistant name." +:+ hintText
  else if askUser intent && negb (askAssistant intent) then
    "System instruction: answer the user's self-identity question naturally using USER.md identity content. Do not invent a different user name." +:+ hintText
  else "System instruction: answer both assistant and user identity naturally using SOUL.md and USER.md identity content. Do not invent different names." +:+ hintText.

Definition looksLikeLeak (text : string) : bool :=
  let normalized := toLowerCase text in
  startsWith "okay, the user" normalized || startsWith "the user is asking" normalized || includes "let me think" normalized ||
  includes "i need to" normalized || includes "i should" normalized || includes "system instruction" normalized.
Definition stripIdentityReasoningLeak (answer : string) : string :=
  let raw := trim answer in
  if negb (truthy raw) then raw
  else
    let paragraphs := List.filter truthy (map trim (splitBy (re_ "\n\s*\n") raw)) in
    if length paragraphs <? 2 then raw
    else
      let rest := drop_while looksLikeLeak paragraphs in
      if (length rest =? length paragraphs) || (length rest =? 0) then raw
      else join (newline +:+ newline) rest.

(** ** Replies *)

Record FlattenedMessage := mkFlat { fl_text : string; fl_thinking : option string; fl_toolCalls : list string }.
Definition THINK : rx := re_i "<think>([\s\S]*?)</think>".
Definition stripInlineThinking (raw : string) : string * option string :=
  let thinkParts := map (fun m => trim (group 1 m)) (matchAll THINK raw) in
  (trim (replaceAll THINK (fun _ => "") raw),
   if 0 <? length thinkParts then Some (trim (join newline thinkParts)) else None).
(** The blocks of the provider library carry strings. *)
Definition str_prop (k : string) (v : value) : string := match get_prop k v with VStr s => s | _ => "" end.
Definition block_type (b : value) : string := str_prop "type" b.
Definition flattenAssistantMessage (msg : value) : FlattenedMessage :=
  let blocks := array_items (get_prop "content" msg) in
  let textParts := flat_map (fun b => if (block_type b =? "text")%string
                                      then List.filter truthy [(stripInlineThinking (str_prop "text" b)).1] else []) blocks in
  let thinkingParts := flat_map (fun b =>
      if (block_type b =? "text")%string
      then match (stripInlineThinking (str_prop "text" b)).2 with Some t => if truthy t then [t] else [] | None => [] end
      else if (block_type b =? "thinking")%string then [str_prop "thinking" b] else []) blocks in
  let toolCalls := flat_map (fun b => if (block_type b =? "toolCall")%string then [str_prop "name" b] else []) blocks in
  mkFlat (trim (join (newline +:+ newline) textParts))
    (if 0 <? length thinkingParts then Some (trim (join newline thinkingParts)) else None) toolCalls.

Example flatten_thinking :
  flattenAssistantMessage (VObj [("content", VArr [VObj [("type", VStr "text"); ("text", VStr "<think>hm</think> Done. ")];
    VObj [("type", VStr "toolCall"); ("name", VStr "read")]])]) = mkFlat "Done." (Some "hm") ["read"].
Proof. vm_compute. reflexivity. Qed.
Example false_needs_tools : requestLikelyNeedsTools "Is it true or false that tigers purr?" = true.
Proof. vm_compute. reflexivity. Qed.
Example words_as_code : extractLikelyOneTimeCode "try 2 more" = Some "try2more".
Proof. vm_compute. reflexivity. Qed.

(** ** Lemmas *)

(** [/^[...]+$/] *)
Definition whole_class (p : ascii -> bool) : rx := XSeq (XSeq (XSeq XEps XBol) (XSeq (XChr p) (XStar true (XChr p)))) XEol.
Lemma star_class g p l a b q r : covers (XStar g (XChr p)) a l b r -> l = q ++ r -> Forall (fun c => p c = true) q.
Proof.
  intros C. remember (XStar g (XChr p)) as x eqn:E. revert q. induction C; try discriminate; intros t El.
  - assert (t = []) as -> by (apply (f_equal length) in El; rewrite length_app in El; destruct t; [done|simpl in El; lia]). constructor.
  - injection E as -> ->. inversion C1; subst. destruct t as [|d t].
    + constructor.
    + match goal with H : _ :: _ = (d :: t) ++ _ |- _ => injection H as <- H; constructor; [done|by apply IHC2] end.
Qed.
Lemma whole_class_test p s : test (whole_class p) s = true -> s <> "" /\ Forall (fun c => p c = true) (chars s).
Proof.
  intros (a & b & E & (p' & s' & C))%test_spec. unfold whole_class in C.
  apply covers_seq in C as (p1 & s1 & C1 & C2). inversion C2; subst. apply covers_seq in C1 as (p2 & s2 & D1 & D2).
  apply covers_seq in D1 as (p3 & s3 & G1 & G2). inversion G1; subst. inversion G2; subst.
  apply covers_seq in D2 as (p4 & s4 & K1 & K2). inversion K1; subst.
  assert (a = []) as ->.
  { destruct a as [|x a] using rev_ind; [done|]. unfold prev_of in *. rewrite last_snoc in *. congruence. }
  simpl in E. split; [intros ->; done|]. rewrite E. constructor; [done|].
  eapply star_class; [exact K2|]. by rewrite app_nil_r.
Qed.
Lemma alnum_pattern s : test (re_i "^[a-z0-9]+$") s = true -> forallb is_alnum (chars s) = true.
Proof.
  intros H. apply (whole_class_test _ s) in H as [_ F]. apply forallb_forall. rewrite Forall_forall in F.
  intros c I%list_elem_of_In. apply F in I. clear F.
  assert (forall c, implb (folded (mkFlags true false) (either (either none (fun x => between (code "a") (code "z") (code x)))
            (fun x => between (code "0") (code "9") (code x))) c) (is_alnum c) = true) as A
    by (apply ascii_forall; vm_compute; reflexivity).
  exact (proj1 (Bool.implb_true_iff _ _) (A c) I).
Qed.

(** A part of a text. *)
Definition part (t : string) (s : string) : Prop := exists u v, chars s = u ++ chars t ++ v.
Lemma trim_part t s : part t s -> part (trim t) s.
Proof.
  intros (u & v & E). assert (exists a b, chars t = a ++ chars (trim t) ++ b) as (a & b & T).
  { unfold trim. rewrite chars_of_chars. unfold trim_list.
    destruct (drop_while_suffix is_ws (chars t)) as (a & A & _). set (t1 := drop_while is_ws (chars t)) in *.
    destruct (drop_while_suffix is_ws (rev t1)) as (b & B & _). set (t2 := drop_while is_ws (rev t1)) in *.
    exists a, (rev b). rewrite A. f_equal. by rewrite <- rev_app_distr, <- B, rev_involutive. }
  rewrite T in E. exists (u ++ a), (b ++ v). rewrite E, <- !app_assoc. done.
Qed.
Lemma captures_part r s c : c ∈ captures r s -> truthy c = true -> part c s.
Proof.
  intros (m & -> & M)%list_elem_of_fmap T. apply matchAll_occurs in M as [_ G]. apply trim_part.
  destruct (group_held r (chars s) m 1 G) as [E|[(u & v & E) _]]; [by rewrite E in T|]. by exists u, v.
Qed.

Definition coded (s : string) (x : string * nat) : Prop := part x.1 s /\ code_ok x.1 = true.
Lemma push_coded s v n l : (truthy v = true -> part v s) -> Forall (coded s) l -> Forall (coded s) (push_code v n l).
Proof.
  intros P F. unfold push_code. destruct (code_ok (trim v)) eqn:E; [|done]. apply Forall_app. split; [done|].
  constructor; [|done]. split; [|done]. apply trim_part, P. unfold code_ok in E. bool_prop.
  destruct (truthy v) eqn:T; [done|]. by apply truthy_false in T as ->.
Qed.
Lemma fold_coded s (f : list (string * nat) -> string -> list (string * nat)) cs l :
  (forall l v, v ∈ cs -> Forall (coded s) l -> Forall (coded s) (f l v)) ->
  Forall (coded s) l -> Forall (coded s) (fold_left f cs l).
Proof.
  revert l. induction cs as [|c cs IH]; intros l H F; [done|]. cbn. apply IH; [intros; apply H; [set_solver|done]|].
  apply H; [set_solver|done].
Qed.
Lemma all_coded s : Forall (coded s) (alnum_codes s (numeric_codes s (contextual_codes s))).
Proof.
  unfold alnum_codes, numeric_codes, contextual_codes.
  repeat apply fold_coded; try apply Forall_nil_2; intros l v I F;
    repeat match goal with |- Forall _ (if test _ _ then _ else _) => destruct (test _ _); [|done] end;
    (apply push_coded; [by eapply captures_part|done]).
Qed.
Lemma best_coded s l : Forall (coded s) l -> Forall (coded s) (best_scores l) /\ NoDup (keys (best_scores l)).
Proof.
  unfold best_scores. intros F. enough (forall best, Forall (coded s) best /\ NoDup (keys best) ->
    let r := fold_left (fun best c => match mget c.1 best with
                           | Some prev => if prev <? c.2 then mset c.1 c.2 best else best
                           | None => mset c.1 c.2 best
                           end) l best in Forall (coded s) r /\ NoDup (keys r)) as H by (apply H; by split; constructor).
  induction F as [|c l [P C] F IH]; intros best [B N]; [done|]. cbn. apply IH.
  repeat case_match; try done; (split; [by apply Forall_mset|by apply NoDup_mset]).
Qed.

(** ** Properties *)

(** The one-time codes read from a text are distinct parts of it, of four to ten
    letters and digits with at least one digit; a code read from a user's
    message is made of its characters in the same way. *)
Theorem codes_are_parts s c :
  c ∈ extractOneTimeCodeCandidatesFromText s ->
  part c s /\ 4 <= slen c <= 10 /\ forallb is_alnum (chars c) = true /\ test (re_ "\d") c = true /\
  NoDup (extractOneTimeCodeCandidatesFromText s).
Proof.
  unfold extractOneTimeCodeCandidatesFromText. destruct (blank s); [by intros ?%elem_of_nil|].
  set (best := best_scores _). destruct (best_coded s _ (all_coded s)) as [F N]. fold best in F, N.
  pose proof (stable_sort_perm (fun a b : string * nat => b.2 <? a.2) best) as P. intros (x & -> & I)%list_elem_of_fmap.
  rewrite <- P in I. rewrite Forall_forall in F. apply F in I as [Pt C]. unfold code_ok in C. bool_prop.
  split; [done|]. split; [lia|]. split; [by apply alnum_pattern|]. split; [done|].
  apply (Permutation_map fst) in P. unfold keys in N. by rewrite P in N.
Qed.

(** ** Sessions that wait *)

Definition pending_ok (m : pending_map) : Prop :=
  NoDup (keys m) /\ length m <= MFA_PENDING_SESSION_MAX /\ Forall (fun k => truthy k = true) (keys m).
Lemma pending_delete k m : pending_ok m -> pending_ok (mdelete k m).
Proof.
  intros (N & L & T). split; [by apply NoDup_mdelete|]. split.
  - etrans; [apply filter_length_le|done].
  - rewrite Forall_forall in *. intros x [I _]%elem_of_keys_mdelete. by apply T.
Qed.
Lemma mset_known_length (s : string) (e : PendingMfaSession) m : s ∈ keys m -> length (mset s e m) = length m.
Proof.
  induction m as [|[k v] m IH]; intros I; [by apply elem_of_nil in I|].
  cbn. case_bool_decide; [done|]. cbn. f_equal. apply IH. cbn in I. by apply elem_of_cons in I as [->|I].
Qed.
Lemma pending_first (k : string) (v : PendingMfaSession) m : NoDup (keys ((k, v) :: m)) -> mdelete k ((k, v) :: m) = m.
Proof.
  intros N. cbn in N. inversion N as [|? ? N1 N2]; subst.
  change (mdelete k ((k, v) :: m)) with (if negb (bool_decide (k = k)) then (k, v) :: mdelete k m else mdelete k m).
  rewrite bool_decide_true by done. apply mdelete_absent. by apply mget_None_keys.
Qed.

Lemma pending_drop s entry m :
  pending_ok m -> truthy s = true ->
  pending_ok (drop_oldest (mset s entry m)) /\
  forall s', s' <> s -> mget s' (drop_oldest (mset s entry m)) = mget s' m \/
    mget s m = None /\ length m = MFA_PENDING_SESSION_MAX /\ head (keys m) = Some s'.
Proof.
  intros (N & L & T) Ts. assert (NoDup (keys (mset s entry m))) as N' by (by apply NoDup_mset).
  assert (Forall (fun k => truthy k = true) (keys (mset s entry m))) as T'.
  { rewrite Forall_forall in *. intros x [->|I]%elem_of_keys_mset; [done|by apply T]. }
  unfold drop_oldest. destruct (_ <? _) eqn:E; bool_prop; [|split; [by split_and!|intros s' Ne; left; by apply mget_mset_ne]].
  destruct (decide (s ∈ keys m)) as [I|I]; [exfalso; rewrite mset_known_length in E by done; lia|].
  assert (mget s m = None) as M by (by apply mget_None_keys). rewrite mset_new in * by done.
  destruct m as [|[k v] m]; [by cbv in E; lia|]. cbn [app] in *.
  assert (truthy k = true) as -> by (cbn in T'; by inversion T'). rewrite pending_first by done. split.
  - cbn in N', T'. inversion N'; inversion T'; subst. split; [done|]. split; [|done]. cbn in L. rewrite length_app. cbn. lia.
  - intros s' Ne. destruct (decide (s' = k)) as [->|Nk].
    + right. split; [done|]. split; [|done]. cbn in L, E |- *. rewrite length_app in E. cbn in E. lia.
    + left. cbn. rewrite (bool_decide_false (s' = k)) by done.
      rewrite <- (mset_new s entry) by (intros J; apply I; cbn; by right). by apply mget_mset_ne.
Qed.
(** One update deletes the session, enters it or does nothing. *)
Lemma update_cases s args content isError now m :
  let m' := updatePendingMfaStateFromBrowserTool s args content isError now m in
  m' = m \/ m' = mdelete s m \/ exists entry, m' = drop_oldest (mset s entry m).
Proof. intros m'. unfold m', updatePendingMfaStateFromBrowserTool. repeat case_match; eauto. Qed.
Lemma update_pending_ok s args content isError now m :
  truthy s = true -> pending_ok m -> pending_ok (updatePendingMfaStateFromBrowserTool s args content isError now m).
Proof.
  intros T P. destruct (update_cases s args content isError now m) as [->|[->|[e ->]]]; [done|by apply pending_delete|by apply pending_drop].
Qed.

(** C32: The sessions that wait for a code: at most 1024 are kept; a result of the
    browser changes the entry of its own session only, except that one session
    too many drops the one that was entered first; and a code that was accepted
    ends the wait. *)
Theorem pending_bounded s args content isError now m :
  pending_ok m -> truthy s = true ->
  let m' := updatePendingMfaStateFromBrowserTool s args content isError now m in
  pending_ok m' /\
  (forall s', s' <> s -> mget s' m' = mget s' m \/
     mget s m = None /\ length m = MFA_PENDING_SESSION_MAX /\ head (keys m) = Some s') /\
  (arg_key "action" args = "mfa" -> isError = false -> mget s m' = None).
Proof.
  intros P T m'. split; [by apply update_pending_ok|]. split.
  - intros s' Ne. unfold m'. destruct (update_cases s args content isError now m) as [->|[->|[e ->]]].
    + by left.
    + left. by apply mget_mdelete_ne.
    + by apply pending_drop.
  - intros A ->. unfold m', updatePendingMfaStateFromBrowserTool.
    replace (arg_key "action" (if is_object args then args else VObj [])) with (arg_key "action" args) by (by destruct args).
    rewrite A. apply mget_mdelete_eq.
Qed.

(** ** Memories *)

Lemma clip_length v n : 3 <= n -> slen (clipAutoMemoryText v n) <= n.
Proof.
  intros H. unfold clipAutoMemoryText. destruct (_ <=? _) eqn:E; bool_prop; [done|]. rewrite slen_app.
  pose proof (trim_slen (slice_to (n - 3) (one_space v))) as T. unfold slice_to in *. rewrite slen_of_chars, length_firstn in T.
  replace (slen "...") with 3 by done. lia.
Qed.
Definition memory_fits (c : AutoMemoryCandidate) : Prop :=
  truthy (am_title c) = true /\ truthy (am_content c) = true /\ slen (am_title c) <= 80 /\ slen (am_content c) <= 420 /\
  length (am_tags c) <= 8.
Definition memories_ok (l : list AutoMemoryCandidate) : Prop := Forall memory_fits l /\ NoDup (map memory_key l).
Lemma add_candidate_ok c l : memories_ok l -> memories_ok (addCandidate c l).
Proof.
  intros [F N]. unfold addCandidate. destruct (_ || _) eqn:E; [done|]. case_bool_decide as K; [done|]. bool_prop. split.
  - apply Forall_app. split; [done|]. constructor; [|done]. split_and!; try done; [apply clip_length; lia|apply clip_length; lia|].
    cbn [am_tags]. rewrite length_firstn. lia.
  - rewrite map_app. apply NoDup_app. split; [done|]. split; [|apply NoDup_singleton].
    intros x I. cbn. intros ->%list_elem_of_singleton. done.
Qed.
Lemma from_ok pat s t f tags l : memories_ok l -> memories_ok (from_pattern pat s t f tags l).
Proof. intros H. unfold from_pattern. repeat case_match; auto using add_candidate_ok. Qed.

(** The memories taken from a message are at most two, distinct, each with a
    title of at most 80 and a content of at most 420 characters, and there are
    none when the user asks not to remember. *)
Theorem auto_memories_bounded message :
  let l := extractAutoMemoryCandidates message in
  length l <= AUTO_MEMORY_MAX_CANDIDATES /\ memories_ok l /\
  (test (re_i "\b(?:don't|do not)\s+remember\b") (trim message) = true -> l = []).
Proof.
  intros l. unfold l, extractAutoMemoryCandidates. destruct (_ || _); [by split_and!; [cbn; lia|split; constructor|]|].
  destruct (test _ _); [by split_and!; [cbn; lia|split; constructor|]|].
  match goal with |- context [firstn _ ?x] => assert (memories_ok x) as [F N] by (repeat apply from_ok; split; constructor) end.
  split; [rewrite length_firstn; lia|]. split; [|done]. split; [by apply Forall_take|].
  rewrite <- firstn_map. eapply sublist_NoDup; [exact N|]. apply sublist_take.
Qed.

(** ** Identity *)

(** An answer to a question about the assistant alone, when both names are
    known, is accepted exactly when it mentions the assistant's name and not the
    user's; and the other way round for a question about the user. *)
Theorem grounded_spec answer a u intent :
  truthy answer = true -> truthy a = true -> truthy u = true ->
  let says n := includes (toLowerCase n) (toLowerCase answer) in
  isIdentityAnswerGrounded answer (mkAnchors (Some a) (Some u)) intent =
  match askAssistant intent, askUser intent with
  | true, false => says a && negb (says u)
  | false, true => says u && negb (says a)
  | true, true => says a && says u
  | false, false => says a || says u
  end.
Proof.
  intros A Ta Tu says. unfold isIdentityAnswerGrounded. cbn [assistantName userName from_option id]. rewrite !truthy_lower, A, Ta, Tu.
  fold (says a) (says u). destruct intent as [[] []]; cbn [askAssistant askUser andb orb negb]; destruct (says a), (says u); reflexivity.
Qed.

Lemma includes_trans a b s : includes a b = true -> includes b s = true -> includes a s = true.
Proof.
  rewrite !includes_spec. intros (x & y & ->) (x' & y' & ->). exists (x' +:+ x), (y +:+ y'). by rewrite <- !str_app_assoc.
Qed.

(** When the user's name is part of the assistant's, no answer to a question
    about the assistant is accepted: the two retries are always spent. *)
Theorem nested_names_never_grounded answer a u :
  truthy a = true -> truthy u = true -> includes (toLowerCase u) (toLowerCase a) = true ->
  isIdentityAnswerGrounded answer (mkAnchors (Some a) (Some u)) (mkIntent true false) = false.
Proof.
  intros Ta Tu I. destruct (truthy answer) eqn:T; [|unfold isIdentityAnswerGrounded; by rewrite truthy_lower, T].
  rewrite grounded_spec by done. cbn. destruct (includes (toLowerCase a) (toLowerCase answer)) eqn:E; [|done].
  by rewrite (includes_trans _ _ _ I E).
Qed.

Lemma codes_are_parts_witness :
  "482913" ∈ extractOneTimeCodeCandidatesFromText "Your login code: 482913. Ref 20240101" /\
  part "482913" "Your login code: 482913. Ref 20240101".
Proof.
  assert ("482913" ∈ extractOneTimeCodeCandidatesFromText "Your login code: 482913. Ref 20240101") as H by by_decide.
  split; [exact H|]. apply (codes_are_parts _ _ H).
Defined.
Lemma pending_bounded_witness :
  let m := [("a", mkPendingMfa None None None 0)] in
  pending_ok (updatePendingMfaStateFromBrowserTool "b" (VObj [("action", VStr "login")])
    (JSON_stringify (VObj [("requiresMfa", VBool true); ("service", VStr "bank")])) false 7 m).
Proof.
  intros m. apply pending_bounded; [|reflexivity]. split; [by_decide|]. split; [vm_compute; lia|]. by repeat constructor.
Defined.
Lemma grounded_spec_witness :
  isIdentityAnswerGrounded "I am Jarvis." (mkAnchors (Some "Jarvis") (Some "Nick")) (mkIntent true false) = true.
Proof.
  rewrite (grounded_spec "I am Jarvis." "Jarvis" "Nick" (mkIntent true false)); reflexivity.
Defined.
