(* ===== verification/ProviderProgress.v ===== *)
(** * Texts about the progress of a run

    [src/src/provider/run.ts], third part: the lines shown while tools run, the
    links collected from their results and the answer made of them when the
    model gives none. *)

From stdpp Require Import base list sets strings pretty.
From Stdlib Require Import Ascii Lia ZArith.
From S2P Require Import Prelude JsString JsMap JsValue JsRegex JsRegexExec Json ProviderRoute Ecommerce ProviderText.
#[local] Open Scope nat_scope.

Definition LIVE_PROGRESS_LINE_MAX : nat := 420.
Definition LIVE_PROGRESS_LINES_PER_ROUND : nat := 8.

(** ** Lines *)

(** [s.lastIndexOf(p, from)], [None] for -1 *)
Fixpoint last_index_from (p : list ascii) (from : nat) (l : list ascii) : option nat :=
  match (match from, l with
         | S from', _ :: l' => option_map S (last_index_from p from' l')
         | _, _ => None
         end) with
  | Some i => Some i
  | None => if list_prefix p l then Some 0 else None
  end.
Definition lastIndexOf (p : string) (from : nat) (s : string) : option nat := last_index_from (chars p) from (chars s).
(** The indices are compared as numbers, with -1 for none. *)
Definition index_max (a b : option nat) : option nat :=
  match a, b with Some i, Some j => Some (Nat.max i j) | Some i, None => Some i | None, _ => b end.
Definition at_least (n : nat) (o : option nat) : option nat := i ← o; if n <=? i then Some i else None.

Definition clipProgressText (v : string) (max : nat) : string :=
  let compact := one_space v in
  if negb (truthy compact) then ""
  else if slen compact <=? max then compact
  else
    let punctuationCut := index_max (lastIndexOf ". " max compact)
                            (index_max (lastIndexOf "! " max compact) (lastIndexOf "? " max compact)) in
    match at_least (max * 55 / 100) punctuationCut with
    | Some cut => trim (slice_to (cut + 1) compact)
    | None =>
        let cutAt := default (max - 1) (at_least (max * 55 / 100) (lastIndexOf " " (max - 1) compact)) in
        trim (slice_to cutAt compact) +:+ "."
    end.

Definition marker_char (c : ascii) : bool := is_ws c || bool_decide (c ∈ chars ">*-").
Definition cleanProgressLine (v : string) : string := one_space (of_chars (drop_while marker_char (chars v))).
Definition hasConcreteProgressDetail (v : string) : bool :=
  test (re_i "https?://") v || test (re_i "\b[a-z0-9.-]+\.[a-z]{2,}(?:/\S*)?\b") v || test (re_ "[\x22'][^\x22']{2,}[\x22']") v ||
  test (re_ "[/$][A-Za-z0-9_.\-\\/]+") v || test (re_ "\b\d+(?:\.\d+)?%?\b") v ||
  test (re_ "\b(page|site|url|file|folder|path|title|price|value|result|results|entry|entries|line|lines|error|code|mfa|login|logout|source|sources|dashboard|portfolio)\b") (toLowerCase v).
Definition GENERIC_PROGRESS_PATTERNS : list string :=
  ["^i am using the latest findings(?: to choose the next step)?\.?$"; "^using the latest findings(?: to choose the next step)?\.?$";
   "^i am (?:continuing|proceeding|working) (?:on|with) (?:the )?(?:task|request|analysis)\.?$"; "^i will continue from here\.?$";
   "^working on it\.?$"; "^analyzing(?: request)?(?: and planning)?(?: tool steps)?\.?$"].
Definition isGenericProgressLine (v : string) : bool :=
  let text := toLowerCase (cleanProgressLine v) in
  if negb (truthy text) then true
  else if slen text <? 16 then true
  else if existsb (fun p => test (re_i p) text) GENERIC_PROGRESS_PATTERNS then true
  else if negb (hasConcreteProgressDetail text)
  then test (re_ "\b(working|checking|looking|continuing|proceeding|planning|thinking|using|handling)\b") text
  else false.
Definition selectAssistantProgressText (raw : string) : option string :=
  List.find (fun line => negb (isGenericProgressLine line))
    (List.filter truthy (map cleanProgressLine (split_char (ascii_of_nat 10) raw))).

Definition summarizeToolContent (content : string) : string :=
  let line := default "" (List.find truthy (map trim (split_char (ascii_of_nat 10) content))) in
  let first := if truthy line then line else if truthy (trim content) then trim content else "(empty error)" in
  if TOOL_ERROR_PREVIEW_MAX_CHARS <? slen first then slice_to TOOL_ERROR_PREVIEW_MAX_CHARS first +:+ "..." else first.

(** [compact.search(/[.!?](\s|$)/)] *)
Fixpoint sentence_end (l : list ascii) : option nat :=
  match l with
  | [] => None
  | c :: l' =>
      if bool_decide (c ∈ chars ".!?") && match l' with [] => true | d :: _ => is_ws d end then Some 0
      else option_map S (sentence_end l')
  end.
Definition firstSentence (text : string) (max : nat) : string :=
  let compact := one_space text in
  if negb (truthy compact) then ""
  else
    let base := match sentence_end (chars compact) with Some punct => trim (slice_to (punct + 1) compact) | None => compact end in
    if slen base <=? max then base
    else
      let fin := default (max - 1) (at_least (max * 60 / 100) (lastIndexOf " " (max - 1) base)) in
      trim (slice_to fin base) +:+ "...".

(** ** Links *)

Definition link_end (c : ascii) : bool := bool_decide (c ∈ chars ")],.;").
Definition normalizeUrlCandidate (v : string) : option string :=
  let trimmed := of_chars (rev (drop_while link_end (rev (chars (trim v))))) in
  if test (re_i "^https?://") trimmed then Some trimmed else None.

(** The state is the links and the budget; the set of seen links is that of the
    links.  Every call lowers the budget, which is the fuel. *)
Definition enough (st : list string * nat) : bool := EMPTY_REPLY_URL_SCAN_LIMIT <=? length st.1.
Definition add_link (raw : string) (st : list string * nat) : list string * nat :=
  match normalizeUrlCandidate raw with
  | Some u => if negb (truthy u) || bool_decide (u ∈ st.1) then st else (st.1 ++ [u], st.2)
  | None => st
  end.
Fixpoint collectUrlsFromUnknown (fuel : nat) (v : value) (st : list string * nat) : list string * nat :=
  match fuel with
  | 0 => st
  | S fuel =>
      match v with
      | VNull | VUndef => st
      | _ =>
          if st.2 =? 0 then st
          else
            let st1 := (st.1, st.2 - 1) in
            match v with
            | VStr s => each_until add_link enough (all_texts (re_i "https?://[^\s\x22'<>]+") s) st1
            | VArr l => each_until (collectUrlsFromUnknown fuel) enough (firstn 80 l) st1
            | VObj ps =>
                each_until (fun (e : string * value) st => if (e.1 =? "text")%string then st else collectUrlsFromUnknown fuel e.2 st)
                  enough (firstn 80 ps) st1
            | _ => st1
            end
      end
  end.
Definition outcome_urls (content : string) (urls : list string) : list string :=
  match JSON_parse content with
  | Some v => (collectUrlsFromUnknown 500 v (urls, 500)).1
  | None => (collectUrlsFromUnknown 80 (VStr content) (urls, 80)).1
  end.
Definition collectOutcomeUrls (contents : list string) : list string :=
  each_until outcome_urls (fun urls => EMPTY_REPLY_URL_SCAN_LIMIT <=? length urls) contents [].

Definition url_score (u : string) : nat :=
  let amazon := test (re_i "amazon\.") u in
  if test (re_i "/dp/|/gp/product/") u then 100
  else if amazon && (test (re_i "[?&]k=") u || test (re_i "/s\?") u) then 85
  else if amazon && test (re_ "/[^/?#]+") (replaceFirst (re_i "^https?://[^/]+") "" u) then 70
  else if amazon then 50 else 20.
Definition pickBestVerifiedUrl (urls : list string) : option string :=
  head (stable_sort (fun a b => url_score b <? url_score a) urls).

(** ** What a tool call is about to do *)

Section Progress.
Variable url_of : string -> option url.

Definition shortUrlForProgress (raw : string) : string :=
  let v := trim raw in
  if negb (truthy v) then ""
  else match url_of v with
       | Some u =>
           let host := replaceFirst (re_i "^www\.") "" (u_hostname u) in
           let first := default "" (head (List.filter truthy (split_char "/" (u_pathname u)))) in
           if truthy first then host +:+ "/" +:+ slice_to 24 first else host
       | None => if 72 <? slen v then slice_to 69 v +:+ "..." else v
       end.

(** [params.k !== false] *)
Definition not_false (v : value) : bool := match v with VBool b => b | _ => true end.
Definition either_text (a b : value) : string := trim (to_string (nullish a (nullish b (VStr "")))).
Definition summarizeArgsForProgress (tool : string) (args : value) : option string :=
  let params := if is_object args then args else VObj [] in
  let field k := text_field (get_prop k params) in
  let url := either_text (get_prop "url" params) (get_prop "targetUrl" params) in
  let query := field "query" in
  let path := field "path" in
  let service := field "service" in
  let action := toLowerCase (field "action") in
  let command := field "command" in
  let ref := either_text (get_prop "ref" params) (get_prop "id" params) in
  let title := field "title" in
  let dryRun := not_false (get_prop "dryRun" params) in
  let named name := (tool =? name)%string in
  if named "browser" then
    if (action =? "login")%string && truthy service then Some ("I'm attempting sign-in for " +:+ service +:+ " now.")
    else if (action =? "mfa")%string then Some "I'm submitting the one-time code and checking whether access is granted."
    else if truthy query then Some ("I'm searching for " +:+ quoted query +:+ " to find the strongest source.")
    else if truthy url then Some ("I'm opening " +:+ shortUrlForProgress url +:+ " and checking the relevant details.")
    else if (action =? "snapshot")%string then Some "I'm capturing the current page state so I can target the right next click."
    else if (action =? "click")%string then Some "I'm clicking the selected page element and checking where it leads."
    else if (action =? "fill")%string then Some "I'm filling the visible form field and then validating the page response."
    else if (action =? "submit")%string then Some "I'm submitting the current form and checking whether the next page confirms success."
    else if (action =? "open")%string then Some "I'm loading the requested page and checking what is visible there."
    else None
  else if named "web_search" then
    if truthy query then Some ("I'm searching for " +:+ quoted query +:+ " and evaluating the top sources.") else None
  else if named "web_fetch" then
    if truthy url then Some ("I'm reading " +:+ shortUrlForProgress url +:+ " for concrete details.") else None
  else if named "memory_search" then
    if truthy query then Some ("I'm searching saved memory for " +:+ quoted query +:+ " and then I'll pull exact snippets to verify.")
    else Some "I'm searching saved memory for relevant context before I answer."
  else if named "memory_get" then
    if truthy ref then Some ("I'm pulling the exact memory snippet from " +:+ ref +:+ " so I can answer precisely.")
    else if truthy path then Some ("I'm reading " +:+ path +:+ " to pull the exact memory lines we need.")
    else Some "I'm pulling the exact memory snippet needed for this step."
  else if named "memory_save" then
    if truthy title then Some ("I'm saving a durable memory note titled " +:+ quoted title +:+ " so I can reuse it in future tasks.")
    else Some "I'm saving this as durable memory so I can reuse it later."
  else if named "memory_delete" then
    if truthy ref then Some ("I'm deleting the outdated memory entry " +:+ ref +:+ " so future replies don't reuse it.")
    else if truthy title then Some ("I'm deleting the outdated memory entry titled " +:+ quoted title +:+ ".")
    else Some "I'm deleting outdated memory so future replies stay accurate."
  else if named "memory_list" then
    if truthy query then Some ("I'm auditing saved memory entries matching " +:+ quoted query +:+ " to verify what is currently stored.")
    else Some "I'm auditing saved memory entries so we can review memory quality."
  else if named "memory_prune" then
    let maxEntries := field "maxEntries" in
    let olderThanDays := field "olderThanDays" in
    if truthy maxEntries || truthy olderThanDays then
      let clauses := join ", " (List.filter truthy
        [if truthy maxEntries then "keep newest " +:+ maxEntries else "";
         if truthy olderThanDays then "remove older than " +:+ olderThanDays +:+ " days" else ""]) in
      if dryRun then Some ("I'm running a retention dry-run (" +:+ clauses +:+ ") to preview prune impact safely.")
      else Some ("I'm applying retention cleanup (" +:+ clauses +:+ ") to remove stale memory entries.")
    else if dryRun then Some "I'm running a dry-run retention check to preview stale memory cleanup."
    else Some "I'm applying retention cleanup to stale memory."
  else if named "memory_compact" then
    if dryRun then Some "I'm running a storage compaction dry-run to estimate how much memory history can be cleaned."
    else Some "I'm compacting the durable memory store to remove stale history rows and improve performance."
  else if named "memory_feedback" then
    let signal := toLowerCase (field "signal") in
    if truthy ref && truthy signal
    then Some ("I'm applying " +:+ signal +:+ " feedback to " +:+ ref +:+ " so future memory ranking reflects this signal.")
    else Some "I'm applying memory feedback to improve future retrieval quality."
  else if named "memory_stats" then
    let namespace := field "namespace" in
    if truthy namespace
    then Some ("I'm auditing memory quality metrics for namespace " +:+ quoted namespace +:+ " to identify stale or noisy context.")
    else Some "I'm auditing global memory quality metrics to identify stale or noisy context."
  else if named "read" && truthy path then Some ("I'm opening " +:+ path +:+ " to inspect what it contains.")
  else if (named "find" || named "ls" || named "exists") && truthy path then Some ("I'm checking " +:+ path +:+ " to locate the right file or data.")
  else if (named "write" || named "edit") && truthy path then Some ("I'm updating " +:+ path +:+ " and then verifying the change.")
  else if named "exec" && truthy command
  then Some ("I'm running a workspace command and checking the output: " +:+ firstSentence command 120)
  else if named "process" then Some "I'm checking the background task state and output."
  else None.

(** ** What a tool call gave *)

Definition num_text (v : value) : string := num_to_string (to_number (nullish v (VNum (NInt 0)))).
Definition count (v : value) : nat := length (array_items v).
Definition count_text (n : nat) : string := num_to_string (NInt (Z.of_nat n)).

Definition memory_search_progress (parsed : value) : string :=
  let results := array_items (get_prop "results" parsed) in
  let searched := getNestedRecord parsed "searched" in
  let scanned := "(scanned " +:+ num_text (opt_prop "storeEntriesScanned" searched) +:+ " saved entries and " +:+
                 num_text (opt_prop "filesScanned" searched) +:+ " memory files)" in
  let n := count_text (length results) in
  match results with
  | [] => "I searched memory " +:+ scanned +:+ " but didn't find a strong match yet. I'll continue with fresh evidence."
  | top :: _ =>
      let topRef := text_field (get_prop "ref" top) in
      let topPreview := firstSentence (text_field (get_prop "preview" top)) 130 in
      if is_object top && truthy topRef && truthy topPreview
      then "I found " +:+ n +:+ " relevant memory matches " +:+ scanned +:+ ". Top match " +:+ topRef +:+ " says: " +:+ topPreview +:+
           " Next I'll pull the exact lines I need."
      else if is_object top && truthy topRef
      then "I found " +:+ n +:+ " relevant memory matches " +:+ scanned +:+ ", with " +:+ topRef +:+
           " as the strongest lead. Next I'll pull exact lines."
      else "I found " +:+ n +:+ " relevant memory matches. Next I'll pull the exact snippet to ground the answer."
  end.
Definition memory_get_progress (parsed : value) : option string :=
  let source := toLowerCase (text_field (get_prop "source" parsed)) in
  let ref := text_field (get_prop "ref" parsed) in
  let content := firstSentence (text_field (get_prop "content" parsed)) 150 in
  if truthy ref && truthy content
  then Some ("I pulled " +:+ ref +:+ " from " +:+ (if truthy source then source else "memory") +:+ " and it states: " +:+ content +:+
             " I'll use this directly in the answer.")
  else if truthy ref then Some ("I pulled exact memory from " +:+ ref +:+ " and I'm now applying it to your request.")
  else if truthy content then Some ("I pulled exact memory details: " +:+ content +:+ " I'll apply this to your request now.")
  else None.
Definition memory_save_progress (parsed : value) : string :=
  let ref := text_field (get_prop "ref" parsed) in
  let title := text_field (get_prop "title" parsed) in
  let upserted := is_true (get_prop "upserted" parsed) in
  let conflictDetected := is_true (get_prop "conflictDetected" parsed) in
  let replaced := count (get_prop "replacedIds" parsed) in
  let evicted := count (get_prop "evictedIds" parsed) in
  let quota := " and evicted " +:+ count_text evicted +:+ " low-priority entries to satisfy namespace quota." in
  if truthy ref && truthy title then
    let both := "(" +:+ title +:+ ", " +:+ ref +:+ ")" in
    if 0 <? replaced
    then "I replaced " +:+ count_text replaced +:+ " conflicting memory entr" +:+ (if replaced =? 1 then "y" else "ies") +:+
         " and saved the new canonical note " +:+ both +:+ "."
    else if conflictDetected
    then "I saved memory " +:+ both +:+ " and flagged a potential contradiction so we can replace stale context if needed."
    else if 0 <? evicted then "I saved memory " +:+ both +:+ quota
    else if upserted then "I updated durable memory " +:+ both +:+ " so it reflects the latest context."
    else "I saved this as durable memory " +:+ both +:+ " so I can reuse it in future tasks."
  else if truthy ref then
    if 0 <? replaced then "I replaced conflicting memory and saved the new canonical entry (" +:+ ref +:+ ")."
    else if conflictDetected then "I saved memory (" +:+ ref +:+ ") and flagged a potential contradiction for review."
    else if 0 <? evicted then "I saved memory (" +:+ ref +:+ ")" +:+ quota
    else if upserted then "I updated durable memory (" +:+ ref +:+ ") with the latest details."
    else "I saved this as durable memory (" +:+ ref +:+ ") so it's available for future tasks."
  else "I saved this as durable memory so I can recall it later.".

(** The branches for the memory tools; [None] goes on to the other branches. *)
Definition memory_progress (tool : string) (parsed : value) : option string :=
  let n k := num_text (get_prop k parsed) in
  let ref := text_field (get_prop "ref" parsed) in
  let title := text_field (get_prop "title" parsed) in
  let dryRun := not_false (get_prop "dryRun" parsed) in
  let named name := (tool =? name)%string in
  if named "memory_search" then Some (memory_search_progress parsed)
  else if named "memory_get" then memory_get_progress parsed
  else if named "memory_save" then Some (memory_save_progress parsed)
  else if named "memory_delete" then
    Some (if truthy ref && truthy title
          then "I deleted outdated memory (" +:+ title +:+ ", " +:+ ref +:+ ") so it won't influence future replies."
          else if truthy ref then "I deleted outdated memory (" +:+ ref +:+ ") so it won't influence future replies."
          else "I deleted the outdated memory entry.")
  else if named "memory_list" then
    let returned := count (get_prop "results" parsed) in
    Some (if 0 <? returned
          then "I audited durable memory and found " +:+ n "total" +:+ " matching entries (returned " +:+ count_text returned +:+
               ", scanned " +:+ n "scanned" +:+ "). I'll use this to tighten memory quality and recall behavior."
          else "I audited durable memory (scanned " +:+ n "scanned" +:+ ") and found no matching entries for that filter.")
  else if named "memory_prune" then
    Some (if dryRun then "Retention dry-run complete: " +:+ n "wouldPrune" +:+ " of " +:+ n "scanned" +:+ " entries would be pruned."
          else "Retention cleanup complete: pruned " +:+ n "pruned" +:+ " entries (scanned " +:+ n "scanned" +:+ ").")
  else if named "memory_compact" then
    let range := n "linesBefore" +:+ " -> " +:+ n "linesAfter" in
    Some (if dryRun then "Compaction dry-run complete: " +:+ n "reclaimedLines" +:+ " history rows can be removed (" +:+ range +:+ ")."
          else "Memory compaction complete: removed " +:+ n "reclaimedLines" +:+ " stale rows (" +:+ range +:+ ").")
  else if named "memory_feedback" then
    let signal := text_field (get_prop "signal" parsed) in
    Some (if truthy ref && truthy signal
          then "Memory feedback applied (" +:+ signal +:+ ") to " +:+ ref +:+ "; reinforcement score is now " +:+ n "reinforceCount" +:+ "."
          else "Memory feedback applied to improve future retrieval ranking.")
  else if named "memory_stats" then
    let totals := getNestedRecord parsed "totals" in
    Some ("Memory analytics complete: " +:+ num_text (opt_prop "filteredEntries" totals) +:+ " active entries across " +:+
          num_text (opt_prop "namespaces" totals) +:+ " namespace(s), with " +:+ count_text (count (get_prop "staleCandidates" parsed)) +:+
          " stale candidates flagged.")
  else None.

(** [a?.k ?? b?.k ...] *)
Definition page_progress (parsed : value) : option string :=
  let snapshot := first_some (getNestedRecord parsed "snapshot") (getNestedRecord parsed "openedSnapshot") in
  let tab := getNestedRecord parsed "tab" in
  let snapUrl := trim (to_string (nullish (opt_prop "url" snapshot)
                   (nullish (opt_prop "url" tab) (nullish (get_prop "url" parsed) (VStr ""))))) in
  let snapTitle := trim (to_string (nullish (opt_prop "title" snapshot) (nullish (opt_prop "title" tab) (VStr "")))) in
  if truthy snapUrl && truthy snapTitle
  then Some ("I reached " +:+ shortUrlForProgress snapUrl +:+ " and the page shows " +:+ quoted (firstSentence snapTitle 90) +:+
             ". I'm now checking whether this matches your target.")
  else if truthy snapUrl
  then Some ("I reached " +:+ shortUrlForProgress snapUrl +:+ " and captured the latest page state. I'm now validating the key details.")
  else None.
Definition results_progress (parsed : value) : option string :=
  match get_prop "results" parsed with
  | VArr (top :: rest) =>
      let title := firstSentence (text_field (get_prop "title" top)) 90 in
      let link := shortUrlForProgress (text_field (get_prop "url" top)) in
      Some (if is_object top && truthy title && truthy link
            then "I found several sources; the strongest lead right now is " +:+ quoted title +:+ " on " +:+ link +:+
                 ". I'll verify it before finalizing."
            else "I found " +:+ count_text (S (length rest)) +:+ " potential sources and I'm now verifying the strongest one.")
  | _ => None
  end.
Definition file_progress (parsed : value) : option string :=
  let readPath := text_field (get_prop "path" parsed) in
  match truthy readPath, get_prop "content" parsed, get_prop "bytes" parsed, get_prop "entries" parsed with
  | true, VStr _, _, _ => Some ("I found " +:+ readPath +:+ " and reviewed its contents. I'm now checking it against your request.")
  | true, _, VNum n, _ => Some ("I updated " +:+ readPath +:+ " (" +:+ num_to_string n +:+ " bytes). I'm now validating the result.")
  | _, _, _, VArr l => Some ("I checked that location and found " +:+ count_text (length l) +:+ " entries. I'm narrowing to the relevant item now.")
  | _, _, _, _ => None
  end.
Definition fetched_progress (parsed : value) : option string :=
  let fetchedText := text_field (get_prop "text" parsed) in
  if negb (truthy fetchedText) then None
  else
    let summary := firstSentence fetchedText 160 in
    let source := text_field (get_prop "url" parsed) in
    Some (if truthy source
          then "I pulled details from " +:+ shortUrlForProgress source +:+ ": " +:+ summary +:+ " I'm cross-checking this before finalizing."
          else "I pulled a concrete detail: " +:+ summary +:+ " I'm cross-checking this before finalizing.").
Definition record_progress (tool : string) (parsed : value) : option string :=
  first_some (memory_progress tool parsed)
  (first_some (if requires_mfa parsed
               then Some "I found that this sign-in requires a one-time code, so I'm waiting for your code." else None)
  (first_some (page_progress parsed)
  (first_some (results_progress parsed)
  (first_some (file_progress parsed) (fetched_progress parsed))))).

Definition summarizeOutcomeForProgress (tool content : string) (isError : bool) : option string :=
  if isError then
    let err := summarizeToolContent content in
    if (tool =? "browser")%string
    then Some ("The page interaction failed with: " +:+ err +:+ ". I'll try a different navigation path.")
    else if bool_decide (tool ∈ ["read"; "write"; "edit"])
    then Some ("The file step failed with: " +:+ err +:+ ". I'll adjust the approach and retry safely.")
    else Some ("That step failed with: " +:+ err +:+ ". I'll try a different path.")
  else
    let raw := trim content in
    if negb (truthy raw) then None
    else
      let plain :=
        if test (re_ "^[\[{]") raw then None
        else
          let summary := firstSentence raw 170 in
          if negb (truthy summary) || isGenericProgressLine summary then None
          else
            let normalized := if test (re_ "[.!?]$") summary then summary else summary +:+ "." in
            if negb (hasConcreteProgressDetail normalized) then None
            else Some (normalized +:+ " I'll validate this against the other evidence next.") in
      match parseJsonRecord raw with
      | Some parsed => first_some (record_progress tool parsed) plain
      | None => plain
      end.
End Progress.

(** ** The answer when the model gives none *)

Definition is_some_string (o : option string) : list string := match o with Some s => if truthy s then [s] else [] | None => [] end.
Definition buildToolOnlyFallbackMessage (canonical_url : string -> option url_parts) (userMessage : string)
    (successful failed : list ToolOutcome) : string :=
  let urls := collectOutcomeUrls (map to_content successful) in
  let bestUrl := pickBestVerifiedUrl urls in
  let candidates := extractEcommerceCandidates canonical_url userMessage
                      (map (fun o => mkOutcome (to_toolName o) (to_content o)) successful) 6 in
  let cheapest := pickCheapestCandidate candidates in
  let successfulNames := dedup (map to_toolName successful) in
  let cheapestLine :=
    match cheapest with
    | Some c => match ec_price c with
                | Some p => Some ("Cheapest product candidate: " +:+ (if truthy (rc_title (ec_raw c)) then rc_title (ec_raw c) else "item") +:+
                                  " at " +:+ display p +:+ " (" +:+ rc_url (ec_raw c) +:+ ")")
                | None => None
                end
    | None => None
    end in
  let cheapestUrl := default "" (option_map (fun c => rc_url (ec_raw c)) cheapest) in
  let linkLine :=
    if truthy cheapestUrl
    then match bestUrl with
         | Some u => if truthy u && negb (u =? cheapestUrl)%string then Some ("Additional verified link: " +:+ u) else None
         | None => None
         end
    else match bestUrl with
         | Some u => if truthy u then Some ("I found a verified link from browser results: " +:+ u)
                     else Some "I completed browser actions but could not extract a stable product link yet."
         | None => Some "I completed browser actions but could not extract a stable product link yet."
         end in
  join newline
    (is_some_string cheapestLine ++ is_some_string linkLine ++
     (if 0 <? length successfulNames then ["Successful tools: " +:+ join ", " successfulNames] else []) ++
     (if 0 <? length failed then ["Failed tools: " +:+ join ", " (map to_toolName failed)] else []) ++
     ["Tell me to continue and I will keep browsing from the current tab state."]).

(** ** Lemmas *)

Lemma last_index_le p from l i : last_index_from p from l = Some i -> i <= from.
Proof.
  revert l i. induction from as [|from IH]; intros l i H; cbn in H.
  - destruct (list_prefix p l); [by injection H as <-|done].
  - destruct l as [|c l]; [destruct (list_prefix p []); simplify_eq; lia|].
    destruct (last_index_from p from l) as [j|] eqn:E; cbn in H.
    + injection H as <-. apply IH in E. lia.
    + destruct (list_prefix p (c :: l)); [injection H as <-; lia|done].
Qed.
Lemma slice_trim_length n s : slen (trim (slice_to n s)) <= n.
Proof. etrans; [apply trim_slen|]. unfold slice_to. rewrite slen_of_chars, length_firstn. lia. Qed.
Lemma at_least_some n o i : at_least n o = Some i -> o = Some i.
Proof. destruct o as [j|]; cbn; [|done]. by destruct (n <=? j); intros [= ->]. Qed.

Definition links_ok (st : list string * nat) : Prop :=
  length st.1 <= EMPTY_REPLY_URL_SCAN_LIMIT /\ NoDup st.1 /\ Forall (fun u => test (re_i "^https?://") u = true) st.1.
Lemma links_fst st n : links_ok st -> links_ok (st.1, n).
Proof. done. Qed.

(** A loop that stops once there are enough links keeps their number in bounds. *)
Lemma each_links {A} (f : A -> list string * nat -> list string * nat) l st :
  (forall x s, links_ok s -> enough s = false -> links_ok (f x s)) -> links_ok st -> enough st = false ->
  links_ok (each_until f enough l st).
Proof.
  intros H. revert st. induction l as [|x l IH]; intros st Ok E; [done|]. cbn [each_until]. destruct (enough (f x st)) eqn:X; [by apply H|].
  apply IH; [by apply H|done].
Qed.
Lemma add_link_ok raw st : links_ok st -> enough st = false -> links_ok (add_link raw st).
Proof.
  intros (L & N & F) E. unfold add_link. unfold normalizeUrlCandidate.
  set (u := of_chars (rev (drop_while link_end (rev (chars (trim raw)))))).
  destruct (test (re_i "^https?://") u) eqn:T; [|done]. destruct (_ || _) eqn:B; [done|]. bool_prop.
  unfold enough in E. bool_prop. split; [|split]; cbn.
  - rewrite length_app. cbn. lia.
  - apply NoDup_app. split; [done|]. split; [|apply NoDup_singleton]. intros x I ->%list_elem_of_singleton. done.
  - apply Forall_app. split; [done|]. by constructor.
Qed.
Lemma collect_links fuel v st : links_ok st -> enough st = false -> links_ok (collectUrlsFromUnknown fuel v st).
Proof.
  revert v st. induction fuel as [|fuel IH]; intros v st Ok E; [done|].
  assert (links_ok (st.1, st.2 - 1)) as Ok1 by done. assert (enough (st.1, st.2 - 1) = false) as E1 by done.
  cbn [collectUrlsFromUnknown]. destruct v; try done; destruct (st.2 =? 0); try done.
  - apply each_links; [|done|done]. by apply add_link_ok.
  - apply each_links; [|done|done]. intros. by apply IH.
  - apply each_links; [|done|done]. intros [k w] s. cbn. destruct (k =? "text")%string; [done|]. by apply IH.
Qed.

(** ** Properties *)

(** The links found in the results are at most twenty, distinct, and begin like a
    link; the one chosen is among them and none of them scores higher. *)
Theorem links_bounded contents :
  let urls := collectOutcomeUrls contents in
  length urls <= EMPTY_REPLY_URL_SCAN_LIMIT /\ NoDup urls /\ Forall (fun u => test (re_i "^https?://") u = true) urls /\
  match pickBestVerifiedUrl urls with
  | Some u => u ∈ urls /\ forall w, w ∈ urls -> url_score w <= url_score u
  | None => urls = []
  end.
Proof.
  intros urls. assert (links_ok (urls, 0)) as (L & N & F).
  { unfold urls, collectOutcomeUrls. assert (links_ok ([], 0)) as Z by (split; [cbn; lia|split; constructor]). revert Z.
    assert ((EMPTY_REPLY_URL_SCAN_LIMIT <=? @length string []) = false) as E by done. revert E. generalize (@nil string).
    induction contents as [|c cs IH]; intros l E Ok; [done|]. cbn [each_until].
    assert (links_ok (outcome_urls c l, 0)) as Ok'.
    { unfold outcome_urls. destruct (JSON_parse c) as [v|]; apply links_fst, collect_links; assumption. }
    destruct (EMPTY_REPLY_URL_SCAN_LIMIT <=? length (outcome_urls c l)) eqn:X; [done|]. by apply IH. }
  split; [done|]. split; [done|]. split; [done|]. unfold pickBestVerifiedUrl.
  pose proof (stable_sort_perm (fun a b => url_score b <? url_score a) urls) as P.
  assert (Sorted.StronglySorted (fun a b => (url_score a <? url_score b) = false) (stable_sort (fun a b => url_score b <? url_score a) urls)) as S.
  { apply (stable_sort_sorted (fun a b => url_score b <? url_score a)); intros; bool_prop; apply Nat.ltb_ge; lia. }
  destruct (stable_sort _ urls) as [|u rest]; cbn.
  - by apply Permutation_nil, symmetry.
  - split; [rewrite P; set_solver|]. intros w I. rewrite P in I. apply Sorted.StronglySorted_inv in S as [_ Sh].
    rewrite Forall_forall in Sh. apply elem_of_cons in I as [->|I]; [done|]. apply Sh in I. by bool_prop.
Qed.

(** A line of progress is at most one character longer than the maximum. *)
Theorem progress_line_length v max : 0 < max -> slen (clipProgressText v max) <= max + 1.
Proof.
  intros M. unfold clipProgressText. destruct (truthy _); [|cbn; lia]. cbn [negb]. destruct (_ <=? _) eqn:E; bool_prop; [lia|].
  destruct (at_least _ _) as [cut|] eqn:C.
  - etrans; [apply slice_trim_length|]. apply at_least_some in C. revert C. unfold index_max, lastIndexOf.
    repeat case_match; intros C; simplify_eq;
      repeat match goal with H : last_index_from _ _ _ = Some _ |- _ => apply last_index_le in H end; lia.
  - rewrite slen_app. replace (slen ".") with 1 by done.
    match goal with |- context [slice_to ?n _] => pose proof (slice_trim_length n (one_space v)); assert (n <= max); [|lia] end.
    destruct (at_least _ (lastIndexOf " " _ _)) as [i|] eqn:W; cbn; [|lia].
    apply at_least_some in W. unfold lastIndexOf in W. apply last_index_le in W. lia.
Qed.
(** The bound is reached: the cut keeps the full stop at the maximum. *)
Example line_over_maximum :
  slen (clipProgressText (of_chars (replicate 420 "x"%char) +:+ ". More.") LIVE_PROGRESS_LINE_MAX) = 421.
Proof. vm_compute. reflexivity. Qed.
Lemma progress_line_length_witness : slen (clipProgressText "Reading the file now." LIVE_PROGRESS_LINE_MAX) <= 421.
Proof. apply (progress_line_length _ LIVE_PROGRESS_LINE_MAX). vm_compute. lia. Defined.
