(* ===== verification/ToolSchema.v ===== *)
(** * Schemas of the tools

    [src/src/agents/pi-tools.schema.ts] and [src/src/agents/schema/clean-for-gemini.ts]:
    the parameters of a tool as the providers take them.  A schema whose top level
    is a union is flattened into one object schema.

    The objects a schema holds as members of an enumeration are different ones,
    so that two of them are never the same member of a set. *)

From stdpp Require Import base list sets strings.
From Stdlib Require Import Ascii Lia ZArith.
From S2P Require Import Prelude JsString JsMap JsValue.
#[local] Open Scope nat_scope.

Definition cleanSchemaForGemini (schema : value) : value := schema.

(** [{...}.k] when the key is the object's own, else nothing *)
Definition own (k : string) (v : value) : option value := match v with VObj ps => mget k ps | _ => None end.

(** [schema.enum], [schema.const] or those of the variants *)
Fixpoint extractEnumValues (schema : value) : option (list value) :=
  match schema with
  | VArr _ => None
  | VObj ps =>
      let fix under (k : string) (ps : list (string * value)) : option (list value) :=
        match ps with
        | [] => None
        | (k', w) :: ps' =>
            if (k' =? k)%string
            then match w with
                 | VArr l => Some ((fix all (l : list value) : list value :=
                                      match l with
                                      | [] => []
                                      | x :: l' => default [] (extractEnumValues x) ++ all l'
                                      end) l)
                 | _ => None
                 end
            else under k ps'
        end in
      match mget "enum" ps with
      | Some (VArr l) => Some l
      | _ =>
          match mget "const" ps with
          | Some c => Some [c]
          | None =>
              match (match under "anyOf" ps with Some l => Some l | None => under "oneOf" ps end) with
              | Some [] | None => None
              | Some l => Some l
              end
          end
      end
  | _ => None
  end.

(** The same member of a set: [undefined], [null], booleans, numbers and strings. *)
Definition same_member (a b : value) : bool :=
  match a, b with
  | VUndef, VUndef | VNull, VNull => true
  | VBool x, VBool y => Bool.eqb x y
  | VNum x, VNum y => num_eq x y || (isNaN x && isNaN y)
  | VStr x, VStr y => (x =? y)%string
  | _, _ => false
  end.
Definition unique (l : list value) : list value :=
  fold_left (fun out v => if existsb (fun w => same_member w v) out then out else out ++ [v]) l [].
Definition typeof (v : value) : string :=
  match v with
  | VUndef => "undefined"
  | VBool _ => "boolean"
  | VNum _ => "number"
  | VStr _ => "string"
  | VNull | VArr _ | VObj _ => "object"
  end.

(** A property of an object literal that also inherits: a schema, or a function
    of [Object.prototype]. *)
Inductive property := Given (v : value) | Builtin.
Definition schema_of (p : property) : value := match p with Given v => v | Builtin => VUndef end.
Definition given (p : property) : bool := match p with Given v => to_bool v | Builtin => true end.

Definition carried (source : property) (merged : list (string * value)) : list (string * value) :=
  fold_left (fun merged k =>
      match own k (schema_of source) with
      | Some v => if mhas k merged then merged else mset k v merged
      | None => merged
      end) ["title"; "description"; "default"] merged.
Definition mergePropertySchemas (existing : property) (incoming : value) : property :=
  if negb (given existing) then Given incoming
  else if negb (to_bool incoming) then existing
  else
    let existingEnum := extractEnumValues (schema_of existing) in
    let incomingEnum := extractEnumValues incoming in
    match existingEnum, incomingEnum with
    | None, None => existing
    | _, _ =>
        let vals := unique (default [] existingEnum ++ default [] incomingEnum) in
        let merged := carried (Given incoming) (carried existing []) in
        let merged := match dedup (map typeof vals) with [t] => mset "type" (VStr t) merged | _ => merged end in
        Given (VObj (mset "enum" (VArr vals) merged))
    end.

(** What the loop over the variants keeps. *)
Record variants := mkVariants {
  mergedProperties : list (string * property);
  requiredCounts : list (string * nat);
  objectVariants : nat;
}.
(** [key in mergedProperties] and [mergedProperties[key]] *)
Definition known (key : string) (m : list (string * property)) : option property :=
  match obj_lookup key m with Own p => Some p | Inherited => Some Builtin | Missing => None end.
Definition add_property (m : list (string * property)) (entry : string * value) : list (string * property) :=
  assign entry.1 (match known entry.1 m with
                  | None => Given entry.2
                  | Some existing => mergePropertySchemas existing entry.2
                  end) m.
Definition count_key (counts : list (string * nat)) (key : value) : list (string * nat) :=
  match key with
  | VStr k => mset k (default 0 (mget k counts) + 1) counts
  | _ => counts
  end.
Definition add_variant (st : variants) (entry : value) : variants :=
  let props := get_prop "properties" entry in
  if is_object props
  then mkVariants (fold_left add_property (object_entries props) (mergedProperties st))
         (fold_left count_key (array_items (get_prop "required" entry)) (requiredCounts st))
         (S (objectVariants st))
  else st.

Definition flattened (schema : value) (alternatives : list value) : value :=
  let st := fold_left add_variant alternatives (mkVariants [] [] 0) in
  let baseRequired := List.filter (fun k => (typeof k =? "string")%string) (array_items (get_prop "required" schema)) in
  let mergedRequired :=
    if 0 <? length baseRequired then baseRequired
    else map (fun c => VStr c.1) (List.filter (fun c => c.2 =? objectVariants st) (requiredCounts st)) in
  let text k := match get_prop k schema with VStr s => [(k, VStr s)] | _ => [] end in
  VObj ([("type", VStr "object")] ++ text "title" ++ text "description" ++
        [("properties", if 0 <? length (mergedProperties st)
                        then VObj (map (fun p => (p.1, schema_of p.2)) (mergedProperties st))
                        else nullish (get_prop "properties" schema) (VObj []))] ++
        (if 0 <? length mergedRequired then [("required", VArr mergedRequired)] else []) ++
        [("additionalProperties", default (VBool true) (own "additionalProperties" schema))]).

(** The provider's cleaning is the identity in this version. *)
Definition parameters_for (modelProvider : option string) (schema : value) : value :=
  let provider := default "" (option_map toLowerCase modelProvider) in
  let isGeminiProvider := includes "google" provider || includes "gemini" provider in
  let isAnthropicProvider := includes "anthropic" provider || includes "google-antigravity" provider in
  let cleaned s := if isGeminiProvider && negb isAnthropicProvider then cleanSchemaForGemini s else s in
  if has_prop "type" schema && has_prop "properties" schema && negb (is_array (get_prop "anyOf" schema)) then cleaned schema
  else if negb (has_prop "type" schema) &&
          ((typeof (get_prop "properties" schema) =? "object")%string || is_array (get_prop "required" schema)) &&
          negb (is_array (get_prop "anyOf" schema)) && negb (is_array (get_prop "oneOf" schema))
  then cleaned (spread schema [("type", VStr "object")])
  else match get_prop "anyOf" schema, get_prop "oneOf" schema with
       | VArr l, _ => cleaned (flattened schema l)
       | _, VArr l => cleaned (flattened schema l)
       | _, _ => schema
       end.
Definition normalizeToolParametersForTool (modelProvider : option string) (tool : value) : value :=
  match get_prop "parameters" tool with
  | VObj ps => spread tool [("parameters", parameters_for modelProvider (VObj ps))]
  | _ => tool
  end.
Definition normalizeToolParameters (modelProvider : option string) (tools : list value) : list value :=
  map (normalizeToolParametersForTool modelProvider) tools.

(** ** Lemmas *)

(** A variant the flattening reads: an object with an object of properties. *)
Definition is_variant (entry : value) : bool := is_object (get_prop "properties" entry).
Definition required_of (entry : value) : list string :=
  omap (fun k => match k with VStr s => Some s | _ => None end) (array_items (get_prop "required" entry)).
(** A key listed twice counts twice. *)
Definition times (k : string) (l : list string) : nat := length (List.filter (fun x => (x =? k)%string) l).

Lemma count_key_spec k keys counts :
  default 0 (mget k (fold_left count_key keys counts)) =
  default 0 (mget k counts) + times k (omap (fun v => match v with VStr s => Some s | _ => None end) keys).
Proof.
  revert counts. induction keys as [|v keys IH]; intros counts; [cbn; unfold times; cbn; lia|].
  cbn [fold_left]. rewrite IH. destruct v; try done. cbn. unfold times. cbn [List.filter].
  rewrite mget_mset. case_bool_decide as E.
  - subst. rewrite String.eqb_refl. cbn. lia.
  - rewrite (proj2 (String.eqb_neq _ _)) by congruence. done.
Qed.
Lemma count_key_positive keys counts :
  Forall (fun c => 0 < c.2) counts -> NoDup (JsMap.keys counts) ->
  Forall (fun c => 0 < c.2) (fold_left count_key keys counts) /\ NoDup (JsMap.keys (fold_left count_key keys counts)).
Proof.
  revert counts. induction keys as [|v keys IH]; intros counts P N; [done|]. cbn [fold_left].
  apply IH; destruct v; try done; cbn; [|by apply NoDup_mset].
  apply Forall_mset; [cbn; lia|done].
Qed.

(** What the loop over the variants computes. *)
Definition seen_all (l : list value) (st : variants) : Prop :=
  objectVariants st = length (List.filter is_variant l) /\
  (forall k, default 0 (mget k (requiredCounts st)) =
     list_sum (map (fun e => times k (required_of e)) (List.filter is_variant l))) /\
  Forall (fun c => 0 < c.2) (requiredCounts st) /\ NoDup (JsMap.keys (requiredCounts st)).
Lemma add_variant_seen l st e : seen_all l st -> seen_all (l ++ [e]) (add_variant st e).
Proof.
  intros (O & C & P & N). unfold add_variant. fold (is_variant e). unfold seen_all. rewrite List.filter_app. cbn [List.filter].
  destruct (is_variant e) eqn:V; [|by rewrite app_nil_r]. cbn [objectVariants requiredCounts]. split; [|split].
  - rewrite length_app, O. cbn. lia.
  - intros k. rewrite count_key_spec, C, map_app, list_sum_app. cbn. unfold required_of. lia.
  - by apply count_key_positive.
Qed.
Lemma variants_seen l : seen_all l (fold_left add_variant l (mkVariants [] [] 0)).
Proof.
  induction l as [|e l IH] using rev_ind; [|by rewrite fold_left_app; apply add_variant_seen].
  unfold seen_all. cbn. split_and!; [done|done|constructor|constructor].
Qed.

(** In lists without repetitions the count reaches their number exactly when
    each of them has the key. *)
Lemma times_once k l : NoDup l -> times k l = (if bool_decide (k ∈ l) then 1 else 0).
Proof.
  induction 1 as [|x l N D IH]; [done|]. unfold times in *. cbn [List.filter].
  destruct (String.eqb_spec x k) as [->|E].
  - cbn [length]. rewrite IH, bool_decide_eq_false_2, bool_decide_eq_true_2 by set_solver. done.
  - rewrite IH, (bool_decide_ext (k ∈ x :: l) (k ∈ l)) by set_solver. done.
Qed.
Lemma sum_bound {A} (f : A -> nat) (l : list A) : Forall (fun x => f x <= 1) l -> list_sum (map f l) <= length l.
Proof. unfold list_sum. induction 1; simpl in *; lia. Qed.
Lemma sum_full {A} (f : A -> nat) (l : list A) :
  Forall (fun x => f x <= 1) l -> list_sum (map f l) = length l <-> Forall (fun x => f x = 1) l.
Proof.
  intros H. split; [|intros F; clear H; unfold list_sum; induction F; simpl in *; lia].
  induction H as [|x l Hx H IH]; [done|]. apply sum_bound in H. unfold list_sum in *. simpl in *. intros E.
  constructor; [lia|]. apply IH. lia.
Qed.

Lemma known_keys key m : known key m = None -> key ∉ JsMap.keys m.
Proof. unfold known, obj_lookup. destruct (mget key m) eqn:E; [done|]. intros _. by apply mget_None_keys. Qed.
Lemma add_property_keys m e k : k ∈ JsMap.keys (add_property m e) <-> k ∈ JsMap.keys m \/ k = e.1 /\ k <> "__proto__".
Proof.
  unfold add_property, assign. destruct (String.eqb_spec e.1 "__proto__") as [E|E]; [naive_solver congruence|].
  rewrite elem_of_keys_mset. naive_solver congruence.
Qed.
Lemma properties_keys entries m k :
  k ∈ JsMap.keys (fold_left add_property entries m) <-> k ∈ JsMap.keys m \/ k ∈ map fst entries /\ k <> "__proto__".
Proof.
  revert m. induction entries as [|e entries IH]; intros m; cbn [fold_left map]; [set_solver|]. rewrite IH, add_property_keys. set_solver.
Qed.
Lemma variants_keys l st k :
  k ∈ JsMap.keys (mergedProperties (fold_left add_variant l st)) <->
  k ∈ JsMap.keys (mergedProperties st) \/
  exists e, e ∈ l /\ is_variant e = true /\ k ∈ map fst (object_entries (get_prop "properties" e)) /\ k <> "__proto__".
Proof.
  revert st. induction l as [|e l IH]; intros st; cbn [fold_left].
  { split; [auto|]. intros [H|(e & I & _)]; [done|]. by apply elem_of_nil in I. }
  rewrite IH. clear IH. setoid_rewrite elem_of_cons.
  unfold add_variant at 1. fold (is_variant e). destruct (is_variant e) eqn:V; cbn [mergedProperties]; rewrite ?properties_keys;
    naive_solver congruence.
Qed.

Lemma flattened_fields schema l :
  let st := fold_left add_variant l (mkVariants [] [] 0) in
  get_prop "type" (flattened schema l) = VStr "object" /\ get_prop "anyOf" (flattened schema l) = VUndef /\
  has_prop "type" (flattened schema l) = true /\ has_prop "properties" (flattened schema l) = true.
Proof.
  intros st. unfold flattened. fold st.
  destruct (get_prop "title" schema), (get_prop "description" schema); cbn [app];
    match goal with |- context [if ?b then [("required", _)] else _] => destruct b end; done.
Qed.
(** The keys a flattened schema requires. *)
Lemma flattened_required schema l :
  required_of schema = [] -> Forall (fun e => is_variant e = true -> NoDup (required_of e)) l ->
  forall k, k ∈ required_of (flattened schema l) <->
    (exists e, e ∈ l /\ is_variant e = true) /\ (forall e, e ∈ l -> is_variant e = true -> k ∈ required_of e).
Proof.
  intros B D k. destruct (variants_seen l) as (O & C & P & N). set (st := fold_left add_variant l _) in *.
  assert (List.filter (fun k => (typeof k =? "string")%string) (array_items (get_prop "required" schema)) = []) as B'.
  { unfold required_of in B. induction (array_items (get_prop "required" schema)) as [|v r IH]; [done|].
    destruct v; cbn in *; try done; by apply IH. }
  assert (required_of (flattened schema l) =
          map fst (List.filter (fun c => c.2 =? objectVariants st) (requiredCounts st))) as ->.
  { unfold required_of, flattened. fold st. rewrite B'. cbn [length Nat.ltb Nat.leb].
    assert (forall l : list (string * nat), omap (fun k => match k with VStr s => Some s | _ => None end) (map (fun c => VStr c.1) l) = map fst l) as M
      by (intros q; induction q; cbn; congruence).
    match goal with |- context [map (fun c => VStr c.1) ?x] => set (chosen := x) end. rewrite <- M.
    destruct (get_prop "title" schema), (get_prop "description" schema); cbn [app]; destruct chosen; done. }
  assert (forall n, (k, n) ∈ requiredCounts st <-> 0 < n /\ n = default 0 (mget k (requiredCounts st))) as G.
  { intros n. split.
    - intros I. rewrite Forall_forall in P. pose proof (P _ I) as Q. cbn in Q. apply list_elem_of_In, In_mget in I; [|done]. by rewrite I.
    - intros [L E]. destruct (mget k (requiredCounts st)) as [m|] eqn:M; cbn in E; [|lia]. subst n. by apply list_elem_of_In, mget_In. }
  rewrite list_elem_of_In, in_map_iff. transitivity (0 < objectVariants st /\ objectVariants st = default 0 (mget k (requiredCounts st))).
  { split.
    - intros ((k' & n) & E & [I E']%filter_In). cbn in *. subst k'. bool_prop. subst n. by apply G, list_elem_of_In.
    - intros H. exists (k, objectVariants st). split; [done|]. apply filter_In. split; [by apply list_elem_of_In, G|]. cbn. apply Nat.eqb_refl. }
  rewrite C, O. set (vs := List.filter is_variant l).
  assert (forall e, e ∈ vs <-> e ∈ l /\ is_variant e = true) as I by (intros e; unfold vs; by rewrite !list_elem_of_In, filter_In).
  assert (forall e, e ∈ vs -> times k (required_of e) = if bool_decide (k ∈ required_of e) then 1 else 0) as T.
  { intros e [J V]%I. apply times_once. rewrite Forall_forall in D. by apply D. }
  assert (length vs = list_sum (map (fun e => times k (required_of e)) vs) <-> forall e, e ∈ vs -> k ∈ required_of e) as F.
  { transitivity (Forall (fun e => times k (required_of e) = 1) vs).
    - rewrite <- sum_full; [done|]. apply Forall_forall. intros e J. rewrite (T e J). by case_bool_decide; lia.
    - rewrite Forall_forall. split; intros H e J; specialize (H e J); revert H; rewrite (T e J); case_bool_decide; intros; done. }
  rewrite F. split.
  - intros [L H]. split; [|naive_solver]. destruct vs as [|e vs']; [cbn in L; lia|]. exists e. apply I. left.
  - intros [(e & J & V) H]. split; [|naive_solver]. assert (e ∈ vs) as X by (by apply I). destruct vs; [by apply elem_of_nil in X|cbn; lia].
Qed.

(** The result whatever the provider. *)
Definition complete (s : value) : bool := has_prop "type" s && has_prop "properties" s && negb (is_array (get_prop "anyOf" s)).
Definition untyped (s : value) : bool :=
  negb (has_prop "type" s) && ((typeof (get_prop "properties" s) =? "object")%string || is_array (get_prop "required" s)) &&
  negb (is_array (get_prop "anyOf" s)) && negb (is_array (get_prop "oneOf" s)).
Definition shape (s : value) : value :=
  if complete s then s
  else if untyped s then spread s [("type", VStr "object")]
  else match get_prop "anyOf" s, get_prop "oneOf" s with VArr l, _ | _, VArr l => flattened s l | _, _ => s end.
Lemma parameters_shape p s : parameters_for p s = shape s.
Proof.
  unfold parameters_for, shape, complete, untyped, cleanSchemaForGemini. set (b := _ && negb (_ || _)).
  destruct b; repeat (case_match; try done).
Qed.
Lemma shape_typed s : get_prop "anyOf" (spread s [("type", VStr "object")]) = get_prop "anyOf" s ->
  get_prop "oneOf" (spread s [("type", VStr "object")]) = get_prop "oneOf" s -> has_prop "type" (spread s [("type", VStr "object")]) = true ->
  untyped s = true -> shape (spread s [("type", VStr "object")]) = spread s [("type", VStr "object")].
Proof.
  set (s' := spread s _). intros A O T U. unfold untyped in U. bool_prop. unfold shape, complete, untyped. rewrite T, A, O.
  cbn [negb andb]. destruct (get_prop "anyOf" s), (get_prop "oneOf" s); try done; by case_match.
Qed.

Lemma shape_cases s :
  (shape s = s /\ (has_prop "type" s = true \/ is_object (get_prop "properties" s) = false /\ is_array (get_prop "required" s) = false)) \/
  (untyped s = true /\ shape s = spread s [("type", VStr "object")]) \/ exists l, shape s = flattened s l.
Proof.
  unfold shape. destruct (complete s) eqn:C; [left; split; [done|]; unfold complete in C; bool_prop; auto|].
  destruct (untyped s) eqn:U; [auto|].
  destruct (get_prop "anyOf" s) eqn:A, (get_prop "oneOf" s) eqn:O; eauto; left; (split; [done|]);
    unfold untyped in U; rewrite A, O in U; destruct (has_prop "type" s); auto; right; cbn in U;
    destruct (get_prop "properties" s), (is_array (get_prop "required" s)); done.
Qed.

(** ** Properties *)

(** A schema is left as it is when it has a type, properties and no alternatives,
    or neither properties nor required keys nor alternatives; every other one
    becomes an object schema at its top level.  Doing it again changes nothing. *)
Theorem schema_object p p' ps :
  let schema := VObj ps in
  let out := parameters_for p schema in
  (get_prop "type" out = VStr "object" \/
   out = schema /\ (has_prop "type" schema = true \/
     is_object (get_prop "properties" schema) = false /\ is_array (get_prop "required" schema) = false)) /\
  parameters_for p' out = out.
Proof.
  intros schema out. unfold out. rewrite !parameters_shape. clear out p p'.
  assert (forall k, k <> "type" -> get_prop k (spread schema [("type", VStr "object")]) = get_prop k schema) as G.
  { intros k K. cbn. by rewrite mget_mset_ne. }
  assert (get_prop "type" (spread schema [("type", VStr "object")]) = VStr "object") as T by (cbn; by rewrite mget_mset_eq).
  assert (has_prop "type" (spread schema [("type", VStr "object")]) = true) as T' by (cbn; apply mhas_true; rewrite mget_mset_eq; eauto).
  assert (forall l, shape (flattened schema l) = flattened schema l) as F.
  { intros l. destruct (flattened_fields schema l) as (_ & A & X & P). unfold shape, complete. by rewrite A, X, P. }
  destruct (shape_cases schema) as [(E & H)|[(U & E)|(l & E)]]; rewrite E.
  - split; [auto|done].
  - split; [by left|]. apply shape_typed; auto.
  - split; [left; apply flattened_fields|apply F].
Qed.

(** Flattening a union keeps what its object alternatives allow.  Only the
    alternatives that have an object of properties count, and there is one: the
    properties are those of these alternatives (a key [__proto__] apart), and when
    the schema has no required keys of its own and none of these alternatives
    lists a required key twice, the flattened schema requires exactly what all of
    them require, so that arguments with the required keys of one of them have
    those of the flattened schema.  Alternatives without properties are ignored:
    arguments that fit only such a one may miss a required key. *)
Theorem flattening_sound schema l k :
  required_of schema = [] -> Forall (fun e => is_variant e = true -> NoDup (required_of e)) l ->
  existsb is_variant l = true ->
  (k ∈ required_of (flattened schema l) <-> forall e, e ∈ l -> is_variant e = true -> k ∈ required_of e) /\
  ((exists e k', e ∈ l /\ is_variant e = true /\ k' ∈ map fst (object_entries (get_prop "properties" e)) /\ k' <> "__proto__") ->
   (has_prop k (get_prop "properties" (flattened schema l)) = true <->
    exists e, e ∈ l /\ is_variant e = true /\ k ∈ map fst (object_entries (get_prop "properties" e)) /\ k <> "__proto__")).
Proof.
  intros B D X. apply existsb_exists in X as (e0 & I0%list_elem_of_In & V0). split.
  { rewrite flattened_required by done. naive_solver. }
  intros (e & k' & He). pose proof (variants_keys l (mkVariants [] [] 0)) as K. cbn [mergedProperties JsMap.keys map] in K.
  assert (k' ∈ JsMap.keys (mergedProperties (fold_left add_variant l (mkVariants [] [] 0)))) as Y by (apply K; right; by exists e).
  assert (get_prop "properties" (flattened schema l) =
          VObj (map (fun p => (p.1, schema_of p.2)) (mergedProperties (fold_left add_variant l (mkVariants [] [] 0))))) as ->.
  { unfold flattened. set (st := fold_left add_variant l _) in *.
    destruct (get_prop "title" schema), (get_prop "description" schema); cbn [app];
      (destruct (mergedProperties st); [by apply elem_of_nil in Y|done]). }
  set (m := mergedProperties _) in *. cbn [has_prop].
  assert (JsMap.keys (map (fun p => (p.1, schema_of p.2)) m) = JsMap.keys m) as E by (unfold JsMap.keys; by rewrite map_map).
  transitivity (k ∈ JsMap.keys m).
  - rewrite <- E. split; [apply mhas_keys|]. intros H. apply mhas_true.
    destruct (mget k (map _ m)) eqn:G; [eauto|]. by apply mget_None_keys in G.
  - rewrite K. split; [intros [H|H]; [by apply elem_of_nil in H|done]|auto].
Qed.

Definition sample_union : value :=
  VObj [("anyOf", VArr
    [VObj [("properties", VObj [("action", VObj [("const", VStr "open")]); ("url", VObj [("type", VStr "string")])]);
           ("required", VArr [VStr "action"; VStr "url"])];
     VObj [("properties", VObj [("action", VObj [("const", VStr "close")])]); ("required", VArr [VStr "action"])]])].
Example sample_flattened :
  parameters_for None sample_union =
  VObj [("type", VStr "object");
        ("properties", VObj [("action", VObj [("type", VStr "string"); ("enum", VArr [VStr "open"; VStr "close"])]);
                             ("url", VObj [("type", VStr "string")])]);
        ("required", VArr [VStr "action"]); ("additionalProperties", VBool true)].
Proof. reflexivity. Qed.
(** A property named as a member of [Object.prototype] takes that member for a
    schema seen before and is lost. *)
Example constructor_lost :
  get_prop "constructor" (get_prop "properties"
    (parameters_for None (VObj [("anyOf", VArr [VObj [("properties", VObj [("constructor", VObj [("type", VStr "string")])])]])])))
  = VUndef.
Proof. reflexivity. Qed.
(** A key listed twice by one alternative counts as listed by two. *)
Example listed_twice :
  required_of (parameters_for None (VObj [("oneOf", VArr
    [VObj [("properties", VObj []); ("required", VArr [VStr "a"; VStr "a"])]; VObj [("properties", VObj [])]])])) = ["a"].
Proof. reflexivity. Qed.

Lemma flattening_sound_witness :
  let l := array_items (get_prop "anyOf" sample_union) in
  "action" ∈ required_of (flattened sample_union l).
Proof.
  intros l. apply (flattening_sound sample_union l "action").
  - reflexivity.
  - constructor; [intros _; by_decide|]. constructor; [intros _; by_decide|]. constructor.
  - reflexivity.
  - intros e I _. revert e I. apply Forall_forall. constructor; [by_decide|]. constructor; [by_decide|]. constructor.
Defined.
