(* ===== verification/Skills.v ===== *)
(** * Skills

    [src/src/agents/skills.ts]: the SKILL.md files of a workspace, what they say
    about tools, and the texts made of them for the model.

    The directory [skills] of the workspace is an argument: its listing, and for
    each directory in it the text of its SKILL.md when that can be read.
    [locale_lt a b] is [a.localeCompare(b) < 0]. *)

From stdpp Require Import base list sets strings pretty.
From Stdlib Require Import Ascii Lia ZArith.
From S2P Require Import Prelude JsString JsMap JsValue JsRegex JsRegexExec NodePath ProviderRoute ProviderText.
#[local] Open Scope nat_scope.

Record ParsedSkillSummary := mkSummary { sk_name : string; sk_description : string; sk_toolNames : list string }.
Record SkillEntry := mkSkill { sk_summary : ParsedSkillSummary; sk_location : string; sk_content : string }.

Definition DEFAULT_MAX_INJECTED_SKILLS : nat := 10.
Definition DEFAULT_COMPACT_MAX_INJECTED_SKILLS : nat := 6.
Definition DEFAULT_SKILL_CONTENT_MAX_CHARS : nat := 2400.
Definition DEFAULT_COMPACT_SKILL_CONTENT_MAX_CHARS : nat := 900.
Definition DEFAULT_TOOL_REMINDER_MAX_SKILLS : nat := 3.
Definition DEFAULT_COMPACT_TOOL_REMINDER_MAX_SKILLS : nat := 2.
Definition DEFAULT_TOOL_REMINDER_SNIPPET_CHARS : nat := 420.
Definition DEFAULT_COMPACT_TOOL_REMINDER_SNIPPET_CHARS : nat := 220.

(** ** Texts *)

Definition trimEnd (s : string) : string := of_chars (rev (drop_while is_ws (rev (chars s)))).
Definition lowerTrim (s : string) : string := toLowerCase (trim s).
Definition dq : string := of_chars [ascii_of_nat 34].
Definition firstNonEmptyLine (v : string) : string :=
  default "" (List.find (fun line => 0 <? slen line) (map trim (split_lines v))).
Definition extractFrontmatter (raw : string) : option string := capture 1 (re_ "^---\s*\r?\n([\s\S]*?)\r?\n---") raw.
(** [s.replace(/^[quote]|[quote]$/g, "").toLowerCase()] of a trimmed text *)
Definition unquote (s : string) : string := toLowerCase (replaceAll (re_ "^[\x22']|[\x22']$") (fun _ => "") (trim s)).
Definition parseInlineList (v : string) : list string :=
  let trimmed := trim v in
  if negb (startsWith "[" trimmed) || negb (endsWith "]" trimmed) then []
  else
    let inside := trim (slice_to (slen trimmed - 2) (slice_from 1 trimmed)) in
    if negb (truthy inside) then [] else List.filter truthy (map unquote (split_char "," inside)).

(** The set of names seen is that of the names kept. *)
Definition add_name (out : list string) (v : string) : list string :=
  let normalized := unquote v in
  if negb (truthy normalized) || bool_decide (normalized ∈ out) then out else out ++ [normalized].
(** The loop over the lines; [listing] while the lines after an empty [tools:]
    are read as a list. *)
Fixpoint tool_lines (lines : list string) (listing : bool) (out : list string) : list string :=
  match lines with
  | [] => out
  | line :: rest =>
      match (if listing then capture 1 (re_ "^\s*-\s*(.+?)\s*$") line else None) with
      | Some item => tool_lines rest true (add_name out item)
      | None =>
          match capture 1 (re_i "^tools\s*:\s*(.*)$") line with
          | None => tool_lines rest false out
          | Some tail0 =>
              let tail := trim tail0 in
              if 0 <? slen tail
              then let inline := parseInlineList tail in
                   tool_lines rest false (if 0 <? length inline then fold_left add_name inline out else add_name out tail)
              else tool_lines rest true out
          end
      end
  end.
Definition parseToolNamesFromFrontmatter (frontmatter : option string) : list string :=
  match frontmatter with
  | Some f => if truthy f then tool_lines (split_lines f) false [] else []
  | None => []
  end.
Definition clampSkillContent (content : string) (maxChars : nat) : string :=
  if slen content <=? maxChars then content
  else
    let bodyMax := Nat.max 300 (maxChars - 80) in
    trimEnd (slice_to bodyMax content) +:+ newline +:+ newline +:+
      "[TRUNCATED: SKILL.md exceeds " +:+ pretty maxChars +:+ " characters]".
Definition parseSkillSummary (raw fallbackName : string) : ParsedSkillSummary :=
  let frontmatter := extractFrontmatter raw in
  let source := default raw frontmatter in
  let lines := split_lines source in
  let name := match List.find (test (re_i "^name\s*:")) lines with
              | Some line => let n := trim (replaceFirst (re_i "^name\s*:") "" line) in if truthy n then n else fallbackName
              | None => fallbackName
              end in
  let description := match List.find (test (re_i "^description\s*:")) lines with
                     | Some line => trim (replaceFirst (re_i "^description\s*:") "" line)
                     | None => slice_to 160 (firstNonEmptyLine (replaceAll (re_ "---[\s\S]*?---") (fun _ => "") raw))
                     end in
  mkSummary name (if truthy description then description else "No description provided.")
    (parseToolNamesFromFrontmatter frontmatter).
Definition normalizeToolNames (v : list string) : list string := dedup (List.filter truthy (map lowerTrim v)).

Definition buildAvailableSkillsPrompt (summaries : list SkillEntry) (compactMode : bool) : option string :=
  if length summaries =? 0 then None
  else Some (join newline (["<available_skills>"] ++
    map (fun s => if compactMode then "- " +:+ sk_name (sk_summary s) +:+ " (file: " +:+ sk_location s +:+ ")"
                  else "- " +:+ sk_name (sk_summary s) +:+ ": " +:+ sk_description (sk_summary s) +:+ " (file: " +:+ sk_location s +:+ ")")
      (firstn (if compactMode then 10 else 20) summaries) ++ ["</available_skills>"])).
Definition buildInjectedToolSkillsPrompt (skills : list SkillEntry) (compactMode : bool) : option string :=
  if length skills =? 0 then None
  else
    let maxSkills := if compactMode then DEFAULT_COMPACT_MAX_INJECTED_SKILLS else DEFAULT_MAX_INJECTED_SKILLS in
    let maxChars := if compactMode then DEFAULT_COMPACT_SKILL_CONTENT_MAX_CHARS else DEFAULT_SKILL_CONTENT_MAX_CHARS in
    Some (join newline (["<tool_skills>"] ++
      flat_map (fun s =>
        ["<skill name=" +:+ dq +:+ sk_name (sk_summary s) +:+ dq +:+ " tools=" +:+ dq +:+ join "," (sk_toolNames (sk_summary s)) +:+ dq +:+
           " file=" +:+ dq +:+ sk_location s +:+ dq +:+ ">";
         clampSkillContent (sk_content s) maxChars; "</skill>"; ""]) (firstn maxSkills skills) ++ ["</tool_skills>"])).

Definition stripFrontmatter (content : string) : string :=
  trim (replaceFirst (pattern (mkFlags false true) "^---[\s\S]*?---\s*") "" content).
Definition compactWhitespace (v : string) : string := trim (replace_runs is_ws [" "%char] v).
Definition clampChars (v : string) (maxChars : nat) : string :=
  let normalized := compactWhitespace v in
  if slen normalized <=? maxChars then normalized else trimEnd (slice_to (maxChars - 3) normalized) +:+ "...".
Definition buildToolReminderForSkill (s : SkillEntry) (maxChars : nat) : string :=
  let body := stripFrontmatter (sk_content s) in
  if negb (truthy body) then ""
  else
    let lines := List.filter (fun l => (0 <? slen l) && negb (test (re_ "^#{1,6}\s") l)) (map trim (split_lines body)) in
    if length lines =? 0 then "" else clampChars (join " " (firstn 6 lines)) maxChars.

(** ** Files *)

Record listed := mkListed { ls_name : string; ls_isDirectory : bool; ls_skill : option string }.
(** [Absent] when the directory cannot be reached, [Unlisted] when [readdir] throws. *)
Inductive skills_dir := Absent | Unlisted (message : string) | Listing (entries : list listed).

Definition loadSkillEntries (dir : skills_dir) (workspaceDir : string) : result (list SkillEntry) :=
  match dir with
  | Absent => Ok []
  | Unlisted m => Throw m
  | Listing entries =>
      Ok (omap (fun e =>
            if ls_isDirectory e
            then option_map (fun raw => mkSkill (parseSkillSummary raw (ls_name e))
                                          (join2 (join2 (join2 workspaceDir "skills") (ls_name e)) "SKILL.md") (trim raw)) (ls_skill e)
            else None) entries)
  end.

Section Run.
Variables (pcwd : string) (locale_lt : string -> string -> bool) (dir : skills_dir).

Definition skill_lt (a b : SkillEntry) : bool := locale_lt (sk_name (sk_summary a)) (sk_name (sk_summary b)).
Definition tool_brief (compactMode : bool) (summaries : list SkillEntry) (toolName : string) : option string :=
  let maxSkills := if compactMode then DEFAULT_COMPACT_TOOL_REMINDER_MAX_SKILLS else DEFAULT_TOOL_REMINDER_MAX_SKILLS in
  let maxSnippetChars := if compactMode then DEFAULT_COMPACT_TOOL_REMINDER_SNIPPET_CHARS else DEFAULT_TOOL_REMINDER_SNIPPET_CHARS in
  let matches := stable_sort skill_lt (List.filter (fun s => bool_decide (toolName ∈ sk_toolNames (sk_summary s))) summaries) in
  if length matches =? 0 then None
  else Some (join newline (["<tool_brief tool=" +:+ dq +:+ toolName +:+ dq +:+ ">"] ++
    flat_map (fun s =>
      let reminder := buildToolReminderForSkill s maxSnippetChars in
      ("- " +:+ sk_name (sk_summary s) +:+ ": " +:+ sk_description (sk_summary s)) ::
      (if truthy reminder then ["  " +:+ reminder] else [])) (firstn maxSkills matches) ++ ["</tool_brief>"])).
Definition resolveToolSkillRemindersForRun (workspaceDir : string) (compactMode : bool) (toolNames : list string)
    : result (list (string * string)) :=
  let names := normalizeToolNames toolNames in
  if length names =? 0 then Ok []
  else
    let? summaries := loadSkillEntries dir (resolve pcwd workspaceDir) in
    Ok (fold_left (fun out toolName =>
          match tool_brief compactMode summaries toolName with Some t => assign toolName t out | None => out end) names []).

Definition skill_score (names : list string) (s : SkillEntry) : nat :=
  length (List.filter (fun t => bool_decide (t ∈ names)) (sk_toolNames (sk_summary s))).
Definition best_skill_lt (names : list string) (a b : SkillEntry) : bool :=
  (skill_score names b <? skill_score names a) || ((skill_score names a =? skill_score names b) && skill_lt a b).
Definition resolveSkillsPromptForRun (workspaceDir : string) (compactMode : bool) (toolNames : list string) : result (option string) :=
  let? summaries := loadSkillEntries dir (resolve pcwd workspaceDir) in
  if length summaries =? 0 then Ok None
  else
    let names := normalizeToolNames toolNames in
    let matched := if 0 <? length names
                   then stable_sort (best_skill_lt names) (List.filter (fun s => 0 <? skill_score names s) summaries) else [] in
    Ok (match buildInjectedToolSkillsPrompt matched compactMode with
        | Some t => Some t
        | None => buildAvailableSkillsPrompt summaries compactMode
        end).
End Run.

(** ** Lemmas *)

Lemma trimEnd_length s : slen (trimEnd s) <= slen s.
Proof.
  unfold trimEnd. rewrite slen_of_chars, length_rev. destruct (drop_while_suffix is_ws (rev (chars s))) as (pre & D & _).
  apply (f_equal length) in D. rewrite length_app, length_rev in D. unfold slen. lia.
Qed.
Lemma slice_to_length n s : slen (slice_to n s) <= n.
Proof. unfold slice_to. rewrite slen_of_chars, length_firstn. lia. Qed.
Lemma clamped_skill content maxChars :
  380 <= maxChars -> slen (pretty maxChars) <= 30 -> slen (clampSkillContent content maxChars) <= maxChars.
Proof.
  intros L P. unfold clampSkillContent. destruct (_ <=? _) eqn:E; bool_prop; [done|]. rewrite !slen_app.
  pose proof (trimEnd_length (slice_to (Nat.max 300 (maxChars - 80)) content)) as T.
  pose proof (slice_to_length (Nat.max 300 (maxChars - 80)) content) as S.
  replace (slen newline) with 1 by done. replace (slen "[TRUNCATED: SKILL.md exceeds ") with 29 by done.
  replace (slen " characters]") with 12 by done. lia.
Qed.
Lemma clamped_chars v maxChars : 3 <= maxChars -> slen (clampChars v maxChars) <= maxChars.
Proof.
  intros L. unfold clampChars. destruct (_ <=? _) eqn:E; bool_prop; [done|]. rewrite slen_app.
  pose proof (trimEnd_length (slice_to (maxChars - 3) (compactWhitespace v))) as T.
  pose proof (slice_to_length (maxChars - 3) (compactWhitespace v)) as S. replace (slen "...") with 3 by done. lia.
Qed.

(** The briefs by tool. *)
Definition briefs (locale_lt : string -> string -> bool) (compactMode : bool) (summaries : list SkillEntry) (names : list string)
    (out : list (string * string)) : list (string * string) :=
  fold_left (fun out n => match tool_brief locale_lt compactMode summaries n with Some t => assign n t out | None => out end) names out.
Definition covered (summaries : list SkillEntry) (n : string) : Prop :=
  exists s, s ∈ summaries /\ n ∈ sk_toolNames (sk_summary s).
Lemma brief_covered locale_lt c summaries n : tool_brief locale_lt c summaries n <> None <-> covered summaries n.
Proof.
  unfold tool_brief, covered. set (m := stable_sort _ _).
  assert (forall s, s ∈ m <-> s ∈ summaries /\ n ∈ sk_toolNames (sk_summary s)) as M.
  { intros s. unfold m. rewrite <- stable_sort_perm, !list_elem_of_In, filter_In, bool_decide_eq_true, list_elem_of_In. done. }
  clearbody m. destruct m as [|s m]; cbn [length Nat.eqb].
  - split; [done|]. intros (s & I). apply M in I. by apply elem_of_nil in I.
  - split; [|done]. intros _. exists s. apply M. left.
Qed.
Lemma brief_text locale_lt c summaries n t : tool_brief locale_lt c summaries n = Some t -> truthy (trim t) = true.
Proof.
  unfold tool_brief. destruct (_ =? 0); [done|]. intros [= <-]. cbn [app].
  match goal with |- context [match ?l with [] => _ | _ => _ end] => destruct l end; by apply trim_starts.
Qed.
Lemma briefs_get locale_lt c summaries names out n :
  mget n (briefs locale_lt c summaries names out) =
  match tool_brief locale_lt c summaries n with
  | Some t => if bool_decide (n ∈ names /\ n <> "__proto__") then Some t else mget n out
  | None => mget n out
  end.
Proof.
  unfold briefs. revert out. induction names as [|m names IH]; intros out; cbn [fold_left].
  { destruct (tool_brief _ _ _ n); [|done]. rewrite bool_decide_eq_false_2; [done|]. intros [I _]. by apply elem_of_nil in I. }
  rewrite IH. destruct (decide (m = n)) as [->|N].
  - destruct (tool_brief _ _ _ n) as [t|]; [|done]. unfold assign. destruct (String.eqb_spec n "__proto__") as [P|P].
    + by rewrite !bool_decide_eq_false_2 by tauto.
    + rewrite mget_mset_eq, (bool_decide_eq_true_2 (n ∈ n :: names /\ _)) by set_solver. by case_bool_decide.
  - assert (mget n (match tool_brief locale_lt c summaries m with Some t => assign m t out | None => out end) = mget n out) as ->.
    { destruct (tool_brief _ _ _ m); [|done]. unfold assign. destruct (_ =? _)%string; [done|]. by rewrite mget_mset_ne. }
    destruct (tool_brief _ _ _ n); [|done]. by rewrite (bool_decide_ext (n ∈ m :: names /\ _) (n ∈ names /\ n <> "__proto__")) by set_solver.
Qed.

(** ** Properties *)

(** A run is not refused for missing reminders exactly when every tool offered is
    named by some skill of the workspace; a tool named as a member of
    [Object.prototype] passes without one. *)
Theorem reminders_cover pcwd locale_lt dir ws c toolNames summaries reminders :
  loadSkillEntries dir (resolve pcwd ws) = Ok summaries ->
  resolveToolSkillRemindersForRun pcwd locale_lt dir ws c toolNames = Ok reminders ->
  assertToolSkillCoverage toolNames reminders = Ok tt <->
  forall n, n ∈ normalizeToolNames toolNames -> covered summaries n \/ n ∈ object_prototype_keys.
Proof.
  intros L R.
  assert (forall n, n ∈ normalizeToolNames toolNames ->
    (truthy (reminder_text n reminders) = true <-> covered summaries n \/ n ∈ object_prototype_keys)) as T.
  { intros n I. unfold resolveToolSkillRemindersForRun in R.
    destruct (length (normalizeToolNames toolNames) =? 0) eqn:N; bool_prop; [apply nil_length_inv in N; rewrite N in I; by apply elem_of_nil in I|].
    rewrite L in R. cbn [rbind] in R. injection R as <-. fold (briefs locale_lt c summaries (normalizeToolNames toolNames) []).
    unfold reminder_text, obj_lookup. rewrite briefs_get. pose proof (brief_covered locale_lt c summaries n) as C.
    destruct (tool_brief locale_lt c summaries n) as [t|] eqn:B; cbn [mget].
    - case_bool_decide as P; [apply brief_text in B; split; [intros _; left; by apply C|done]|].
      assert (n = "__proto__") as -> by (destruct (decide (n = "__proto__")); tauto). split; [intros _; right; by_decide|done].
    - case_bool_decide as P; [by split; [right|]|]. split; [done|]. intros [H|H]; [by apply C in H|done]. }
  unfold assertToolSkillCoverage. fold name_key. change (dedup (List.filter truthy (map name_key toolNames))) with (normalizeToolNames toolNames).
  set (u := List.filter _ _). assert (u = [] <-> forall n, n ∈ normalizeToolNames toolNames -> truthy (reminder_text n reminders) = true) as U.
  { split.
    - intros E n I. destruct (truthy (reminder_text n reminders)) eqn:X; [done|]. assert (In n u) as J by (apply filter_In; rewrite X; split; [by apply list_elem_of_In|done]).
      by rewrite E in J.
    - intros H. destruct u as [|x u'] eqn:E; [done|]. assert (In x u) as J by (rewrite E; by left). apply filter_In in J as [J%list_elem_of_In X].
      by rewrite (H x J) in X. }
  transitivity (u = []); [destruct u; cbn; split; done|]. rewrite U. split; intros H n I; specialize (H n I); by apply T.
Qed.

(** What the skills add to a prompt and to a reminder is bounded: each injected
    text and each reminder keeps within its limit. *)
Theorem skill_texts_bounded content s :
  slen (clampSkillContent content DEFAULT_SKILL_CONTENT_MAX_CHARS) <= DEFAULT_SKILL_CONTENT_MAX_CHARS /\
  slen (clampSkillContent content DEFAULT_COMPACT_SKILL_CONTENT_MAX_CHARS) <= DEFAULT_COMPACT_SKILL_CONTENT_MAX_CHARS /\
  slen (buildToolReminderForSkill s DEFAULT_TOOL_REMINDER_SNIPPET_CHARS) <= DEFAULT_TOOL_REMINDER_SNIPPET_CHARS /\
  slen (buildToolReminderForSkill s DEFAULT_COMPACT_TOOL_REMINDER_SNIPPET_CHARS) <= DEFAULT_COMPACT_TOOL_REMINDER_SNIPPET_CHARS.
Proof.
  assert (forall maxChars, 3 <= maxChars -> slen (buildToolReminderForSkill s maxChars) <= maxChars) as R.
  { intros m L. unfold buildToolReminderForSkill. repeat (case_match; [cbn; lia|]). by apply clamped_chars. }
  split; [|split; [|split]]; [apply clamped_skill..|apply R|apply R]; apply Nat.leb_le; vm_compute; reflexivity.
Qed.

Definition lines_text (l : list string) : string := join newline l.
Definition sample_skill : string :=
  lines_text ["---"; "name: web"; "description: Pages and searches."; "tools:"; "  - browser"; "  - 'Web_Search'"; "---"; "# Web"; "Open a page first."].
Definition sample_dir : skills_dir := Listing [mkListed "web" true (Some sample_skill); mkListed "notes.txt" false None].
Example sample_entry :
  loadSkillEntries sample_dir "/ws" =
  Ok [mkSkill (mkSummary "web" "Pages and searches." ["browser"; "web_search"]) "/ws/skills/web/SKILL.md" sample_skill].
Proof. vm_compute. reflexivity. Qed.
Example sample_brief :
  resolveToolSkillRemindersForRun "/ws" (fun a b => false) sample_dir "/ws" true ["Browser"] =
  Ok [("browser", lines_text ["<tool_brief tool=" +:+ dq +:+ "browser" +:+ dq +:+ ">"; "- web: Pages and searches.";
                              "  Open a page first."; "</tool_brief>"])].
Proof. vm_compute. reflexivity. Qed.
Lemma reminders_cover_witness :
  exists reminders,
    resolveToolSkillRemindersForRun "/ws" (fun a b => false) sample_dir "/ws" true ["Browser"] = Ok reminders /\
    assertToolSkillCoverage ["Browser"] reminders = Ok tt.
Proof.
  eexists. split; [vm_compute; reflexivity|].
  apply (reminders_cover "/ws" (fun a b => false) sample_dir "/ws" true ["Browser"]
    [mkSkill (mkSummary "web" "Pages and searches." ["browser"; "web_search"]) "/ws/skills/web/SKILL.md" sample_skill]).
  - vm_compute. reflexivity.
  - vm_compute. reflexivity.
  - intros n I. left. exists (mkSkill (mkSummary "web" "Pages and searches." ["browser"; "web_search"]) "/ws/skills/web/SKILL.md" sample_skill).
    split; [by left|]. assert (n = "browser") as -> by (by apply list_elem_of_singleton). by left.
Defined.
