(* ===== verification/SystemPrompt.v ===== *)
(** * The system prompt

    [src/src/agents/system-prompt.ts]: the instructions of a run, as lines.  A
    character of the texts outside Latin-1 (a dash) stands as its bytes in UTF-8.
    [today] is the date of the turn, [new Date().toISOString().slice(0, 10)]. *)

From stdpp Require Import base list sets strings.
From Stdlib Require Import Ascii Lia ZArith.
From S2P Require Import Prelude JsString JsMap JsValue JsRegex JsRegexExec NodePath Vault ProviderRoute ProviderText Skills.
#[local] Open Scope nat_scope.

(** ** Texts *)

Definition identity_lines : list string :=
  ["You are a personal AI assistant. Your name and entire identity are defined by SOUL.md (injected below) — not by your underlying model or training.";
   "";
   "NEVER identify yourself as Qwen, Claude, GPT, or any other model name. You are whoever SOUL.md says you are. Read SOUL.md and adopt that identity completely.";
   "";
   "NEVER reveal the name of the underlying model you run on. If asked, say only what SOUL.md says about your identity.";
   ""].
Definition contract_lines : list string :=
  ["Treat injected project files as authoritative context when present.";
   "";
   "Identity contract: SOUL.md defines who you are; USER.md defines who the user is. Apply both on every response.";
   "";
   "If asked your name/identity, answer from SOUL.md. If asked who the user is, answer from USER.md.";
   ""].
Definition compact_lines : list string :=
  ["## Compact Mode";
   "Use minimal tokens and short replies because this route may use a small local context window.";
   ""].
Definition compact_rules : list string :=
  ["## Core Rules";
   "Never invent results; use only verified tool output.";
   "For greetings/thanks/simple chit-chat, reply directly with one short sentence and do not call tools.";
   "Do not output internal planning or hidden reasoning text.";
   "For state changes: execute action, then run a post-action verification before claiming completion.";
   "Prefer the smallest safe plan: fewer tool calls, fewer steps, and no repeated retries without new evidence.";
   "If blocked, ask one short concrete question.";
   ""].
Definition compact_web : list string :=
  ["## Web Rules";
   "For current/latest/time-sensitive facts, use web tools first and ground final claims in fetched evidence.";
   "For website tasks, prefer one clear browser path and verify final page state before completion claims.";
   ""].
Definition coreToolSummaries : list (string * string) :=
  [("exec", "Run shell commands (supports background via yieldMs/background).");
   ("process", "Manage background exec sessions.");
   ("read", "Read full file content from disk.");
   ("write", "Write file content (files with editable markers allow changes only inside those regions).");
   ("edit", "Find/replace text in files (respects editable markers).");
   ("ls", "List directory contents.");
   ("find", "Search for files by path substring.");
   ("exists", "Check whether a file or directory exists.");
   ("browser", "Stateful browser navigation with tabs/history/snapshot/search/click/forms/fill/submit/login/mfa/hover/press/select/drag/evaluate/upload/dialog/console/pdf/scroll/resize/back/forward; use engine=live for SPA/reactive sites.");
   ("email", "Mailbox access using vault credentials: status/list_unread/read_unread/read_recent/send. Uses IMAP/SMTP for app-password style credentials and returns browser-login fallback steps for MFA/password flows.");
   ("web_search", "Search the web for up-to-date info (Brave when configured, DuckDuckGo fallback) and optionally fetch top results for grounded excerpts.");
   ("web_fetch", "Fetch a URL and return a readable text snapshot.");
   ("memory_search", "Search saved memory entries and workspace memory docs (MEMORY.md/memory/*.md) for prior decisions, preferences, and context.");
   ("memory_get", "Fetch exact memory content by ref/id/path for precise recall.");
   ("memory_save", "Persist durable non-secret memory (preferences, recurring workflows, decisions).");
   ("memory_delete", "Delete outdated or incorrect durable memory entries by id/ref/title.");
   ("memory_list", "List durable memory entries with filters for audit/debug visibility.");
   ("memory_prune", "Apply retention cleanup to stale memory entries (supports dry-run).");
   ("memory_feedback", "Reinforce or down-rank memory entries based on usefulness feedback.");
   ("memory_stats", "Report memory quality analytics (namespace distribution, trust mix, stale candidates).");
   ("memory_compact", "Compact durable memory storage after heavy updates/deletes.")].
Definition toolOrder : list string :=
  ["read";
   "write";
   "edit";
   "ls";
   "find";
   "exists";
   "browser";
   "email";
   "web_search";
   "web_fetch";
   "memory_search";
   "memory_get";
   "memory_save";
   "memory_delete";
   "memory_list";
   "memory_prune";
   "memory_feedback";
   "memory_stats";
   "memory_compact";
   "exec";
   "process"].
Definition style_lines : list string :=
  ["## Tool Call Style";
   "For simple greetings/acknowledgements (for example: hi, hello, thanks), do not call tools; reply directly.";
   "When a file contains T560_EDITABLE_START / T560_EDITABLE_END markers, only modify text between those markers.";
   "Default: do not narrate routine, low-risk tool calls (just call the tool).";
   "Narrate only when it helps: multi-step work, complex problems, or destructive actions.";
   "Communication style: sound like a pragmatic teammate, not a template generator.";
   "During multi-step tasks, include natural-language progress updates while you work, not just at the end.";
   "Each progress update should be 1-2 full sentences and include concrete details: what you checked, what you observed, and what you plan to do next.";
   "When relevant, mention the specific site/page/file you just checked and a concrete observation (for example URL, page title, file path, value, or count).";
   "Avoid generic filler such as 'I am using the latest findings to choose the next step.'";
   "In user-facing updates and final responses, avoid naming internal tools; describe actions in plain language.";
   "Avoid rigid labels such as 'Finding:' or 'Next step:' unless the user explicitly asks for that format.";
   "For non-trivial tasks, structure the final response with short sections: what you did, what you found, and what happens next.";
   "If you are blocked on user input (for example MFA), say exactly what is needed in one short sentence.";
   "Never invent observations; only report what is directly supported by current tool outputs.";
   "Never claim completion unless tool results confirm success.";
   "For any state-changing request (create/update/delete/send/submit/install/uninstall), enforce a two-step completion protocol: 1) perform the action, 2) run an explicit verification step and confirm postconditions.";
   "Use concrete postcondition checks: for file ops use existence/listing checks, for web/app ops use snapshot/readback/status evidence that reflects the requested end state.";
   "If verification was not completed or is inconclusive, say the task is not verified yet and state what verification is still needed.";
   ""].
Definition web_lines : list string :=
  ["## Web Grounding";
   "For time-sensitive facts or external references, use available web tools first, then cite results from tool output.";
   "For requests containing words like current/latest/today/right now/live, verify source dates and do not rely on stale-year pages when newer year pages are available."].
Definition search_and_fetch : string :=
  "For single-step factual lookups (news/checks/quick verification), prefer `web_search` then `web_fetch` for the most relevant URLs.".
Definition search_first : string :=
  "For single-step factual lookups (news/checks/quick verification), use `web_search` first; use `browser` only when interaction is required.".
Definition browse_and_fetch : string :=
  "If `web_search` is unavailable, use `browser` action=`search`/`open` to find URLs, then use `web_fetch` for clean text grounding.".
Definition fetch_given : string :=
  "Use `web_fetch` for user-provided URLs and ground answers from fetched text.".
Definition browser_lines : list string :=
  ["For multi-step website navigation, prefer `browser` (search/open/snapshot/click/forms/fill/submit/back/forward) over ad-hoc URL guessing.";
   "Important: `browser` action=`open` uses an internal tool tab and may not open a visible desktop browser window.";
   "If the user asks to open a browser/window for them on their machine, use `browser` action=`launch` with the target URL.";
   "When a site is JS-heavy (React/Vue/SPA), use `browser` with `engine=live`.";
   "For complex pages, call `browser` snapshot first and use returned element refs (`e1`, `e2`, ...) with `click`/`fill`/`submit`/`hover`/`press`/`select`/`drag`/`act`.";
   "For checkboxes: use `browser` action=`fill` with value=`true`/`false` — the tool auto-detects checkbox type and uses the correct API. For radio buttons: value=`true` clicks to select.";
   "For custom dropdowns (combobox / Radix / Material UI / shadcn): use `browser` action=`select` with value=<option text> — it falls back from native <select> to click-open + type-filter + click-option automatically.";
   "For SPAs that load data after the page shell: add `networkIdle: true` to `snapshot` params to wait for API calls to finish before reading the page.";
   "For login pages with stored credentials, use `browser` action=`login` with `service=<site>` (typically the account website host). This injects secret from vault without exposing password text.";
   "Always open the root URL of a site first (e.g. https://example.com), NEVER guess subpaths like /login, /sign-in, /auth, or /signin — navigate to the login form via the actual UI.";
   "If a snapshot shows an embedded auth frame (e.g. from Privy, Auth0, Clerk), use the refs listed under 'Embedded Auth Frame' in the snapshot — do NOT open the auth provider URL directly or navigate to it.";
   "Preferred auth sequence: 1) open target page, 2) run login, 3) if login returns requiresMfa=true then ask user for code, 4) run mfa with that code.";
   "If login returns submitted=false for passwordless flows, continue by clicking a non-social email/code submit button before checking inbox.";
   "When vault credentials exist for a site, do not choose social/OAuth provider buttons (Google/Apple/Microsoft/GitHub); use the identifier/password or passwordless one-time-code form path instead.";
   "If `browser` login returns `requiresMfa: true`, stop all browser actions immediately and ask for the one-time code in one short sentence. Only say the code was sent when login result also confirms `submitted: true`.";
   "For manual OTP/passwordless flows (user-directed, without vault credentials): after filling the email and clicking send-code, tell the user the code was sent and wait. Do NOT snapshot the page, do NOT navigate, do NOT take any browser action.";
   "CRITICAL — When the user's message contains a numeric one-time code (4–10 digits) after a login/OTP flow: your ABSOLUTE FIRST action must be `browser` action=`mfa` with code=<their code> and tabId=<tabId from the previous browser result>. Do NOT take a snapshot first. Do NOT open the site. Do NOT call login again. Call mfa immediately — the browser session is preserved and the OTP input is waiting.";
   "If `action=mfa` returns an error about the OTP input not being found: the session expired while waiting. Do NOT reuse the user's old code. Re-do action=login to get a fresh code sent, then ask the user for the new code.";
   "The browser session (Playwright tab) persists across chat turns. The OTP input is still on the screen from the previous turn — do NOT navigate away or the session is destroyed.";
   "Never claim the one-time code was sent unless browser login result confirms submission (`submitted: true`); otherwise the submission is not confirmed, retry the send-code step.";
   "When the user sends a likely one-time code (4-10 digits), do not ask them to repeat it; use it directly via `browser` action=`mfa`.";
   "If login or page progression appears blocked by captcha/verification, run `browser` action=`challenge` first and ask the user to complete the human check before retrying.";
   "If credentials are missing, tell the user to add them in Setup -> Vault (or run `/setup <service-or-site>` in chat) rather than asking them to paste passwords directly.";
   "Use `console` to inspect browser logs, `dialog` to arm confirm/prompt handling, `upload` for file inputs, `downloads` to inspect captured downloads, `wait_for_request` for network-level waits, `scroll`/`resize` for viewport control, and `pdf` to export current page.";
   "Before purchase/checkout actions (for example " +:+ dq +:+ "buy now" +:+ dq +:+ ", " +:+ dq +:+ "place order" +:+ dq +:+ ", payment submit), ask for explicit user confirmation phrase: " +:+ dq +:+ "confirm purchase" +:+ dq +:+ "."].
Definition email_lines : list string :=
  ["## Email Ops";
   "When the user asks to check inbox/unread/send/reply over email, use `email` first instead of asking them to manually open an inbox.";
   "Prefer vault-backed mailbox credentials; if email returns browser-login fallback, continue with `browser` action=`open` + `browser` action=`login` for that mailbox service.";
   "For ongoing email conversations, preserve thread context using message-id headers (`inReplyTo`/`references`) returned by prior email reads.";
   ""].
Definition recall_lines : list string :=
  ["Before answering anything about prior work, decisions, dates, people, preferences, or todos: run memory_search first, then use memory_get for exact snippets you need to cite.";
   "Use namespace and minTrustTier parameters to avoid cross-user leakage and low-confidence memory."].
Definition recall_line : string :=
  "Before answering about prior work, preferences, or decisions, run memory_search and ground your response in returned memory snippets.".
Definition save_lines : list string :=
  ["When the user shares durable preferences, recurring workflows, or stable account context, save concise notes with memory_save.";
   "If new facts contradict an existing memory, use memory_save with onConflict='replace' to supersede stale entries.";
   "Use namespace/trustTier on save to keep memory scoped and trustworthy; namespace quotas may evict low-signal entries automatically.";
   "Never store secrets (passwords, one-time codes, private keys, tokens, recovery phrases)."].
Definition delete_line : string :=
  "If the user corrects prior facts or asks to forget stale context, delete the outdated entry with memory_delete.".
Definition list_line : string :=
  "Use memory_list when auditing what durable memory is currently stored.".
Definition prune_line : string :=
  "Use memory_prune (dry-run first) for retention cleanup when memory becomes stale or oversized.".
Definition feedback_line : string :=
  "Use memory_feedback to reinforce memories that proved useful and down-rank ones that were noisy or wrong.".
Definition stats_line : string :=
  "Use memory_stats to audit memory quality and detect stale/noisy namespaces before pruning.".
Definition compact_line : string :=
  "Use memory_compact (dry-run first) after many updates/deletes to keep memory storage fast and clean.".
Definition confidence_line : string :=
  "If memory search is low confidence, say you checked memory and what remained uncertain.".

(** ** The prompt *)

(** [if (text?.trim()) lines.push(...f(text.trim()))] *)
Definition section (o : option string) (f : string -> list string) : list string :=
  let t := trim (default "" o) in if truthy t then f t else [].
Definition workspace_lines (workspaceDir : string) : list string :=
  ["## Workspace"; "Your working directory is: " +:+ workspaceDir;
   "Treat this directory as the single global workspace for file operations unless explicitly instructed otherwise."; ""].
Definition closing_lines (workspaceDir : string) (recentArtifacts toolHint : option string) : list string :=
  section recentArtifacts (fun t => ["## Recent Artifacts"; t; ""]) ++ section toolHint (fun t => ["## Task Hint"; t; ""]) ++
  workspace_lines workspaceDir.
Definition file_key (f : ContextFile) : string := toUpperCase (trim (cf_name f)).
(** The map by name keeps the last file of a name. *)
Definition by_name (name : string) (files : list ContextFile) : option ContextFile :=
  List.find (fun f => (file_key f =? name)%string) (rev files).
Definition profile_text (o : option ContextFile) : string :=
  let t := trim (default "" (option_map cf_content o)) in if truthy t then t else "(missing)".
Definition context_lines (files : list ContextFile) : list string :=
  let extra := List.filter (fun f => negb (file_key f =? "SOUL.MD")%string && negb (file_key f =? "USER.MD")%string) files in
  if 0 <? length files then
    ["## Injected Identity Context"; "The following text is injected directly from profile context and is authoritative."; "";
     "<identity_context>"; "<assistant_soul>"; profile_text (by_name "SOUL.MD" files); "</assistant_soul>";
     "<user_profile>"; profile_text (by_name "USER.MD" files); "</user_profile>"; "</identity_context>"; ""] ++
    (if 0 <? length extra
     then ["## Injected Workspace Context"] ++
       flat_map (fun f => ["<context source=" +:+ dq +:+ trim (cf_name f) +:+ dq +:+ ">";
         if truthy (cf_content f) then cf_content f else if cf_missing f then "(missing)" else ""; "</context>"; ""]) extra
     else [])
  else [].

Definition compact_prompt (workspaceDir : string) (skillsPrompt recentArtifacts toolHint : option string) (toolNames : list string)
    (has : string -> bool) (readToolName : string) : list string :=
  compact_lines ++
  (if 0 <? length toolNames
   then ["## Tooling"; "Call tools only when required."; join newline (map (fun n => "- " +:+ n) toolNames); ""] else []) ++
  compact_rules ++ (if has "web_search" || has "web_fetch" || has "browser" then compact_web else []) ++
  section skillsPrompt (fun t =>
    ["## Skills (mandatory)";
     "If <tool_skills> is present, those SKILL.md files are already injected for active tools and must be followed.";
     "If only <available_skills> is present and one skill clearly applies, read its SKILL.md with `" +:+ readToolName +:+ "` before using that tool."; t; ""]) ++
  closing_lines workspaceDir recentArtifacts toolHint.

(** The first name given for a normalised one. *)
Definition resolveToolName (toolNames : list string) (normalized : string) : string :=
  default normalized (List.find (fun n => (toLowerCase n =? normalized)%string) toolNames).
Definition tool_line (toolNames : list string) (tool : string) : string :=
  let name := resolveToolName toolNames tool in
  match mget tool coreToolSummaries with
  | Some summary => "- " +:+ name +:+ ": " +:+ summary
  | None => "- " +:+ name
  end.
Definition tooling_lines (toolNames : list string) : list string :=
  let normalizedTools := map toLowerCase toolNames in
  let enabledTools := List.filter (fun t => bool_decide (t ∈ normalizedTools)) toolOrder in
  let extraTools := List.filter (fun t => negb (bool_decide (t ∈ toolOrder))) normalizedTools in
  let toolLines := map (tool_line toolNames) enabledTools ++
                   map (fun t => "- " +:+ resolveToolName toolNames t) (sort_strings extraTools) in
  ["## Tooling"; "Tool availability (filtered by policy):"; "Tool names are case-sensitive. Call tools exactly as listed.";
   if 0 <? length toolLines then join newline toolLines else "- (no tools enabled)"; ""] ++ style_lines.
Definition web_section (has : string -> bool) : list string :=
  if has "web_search" || has "web_fetch" || has "browser" then
    web_lines ++
    (if has "web_search" && has "web_fetch" then [search_and_fetch]
     else if has "web_search" then [search_first]
     else if has "web_fetch" && has "browser" then [browse_and_fetch]
     else if has "web_fetch" then [fetch_given] else []) ++
    (if has "browser" then browser_lines else []) ++ [""]
  else [].
Definition memory_section (has : string -> bool) : list string :=
  if existsb has ["memory_search"; "memory_get"; "memory_save"; "memory_delete"; "memory_list"; "memory_prune"; "memory_feedback";
                  "memory_stats"; "memory_compact"] then
    ["## Memory Recall"] ++
    (if has "memory_search" && has "memory_get" then recall_lines else if has "memory_search" then [recall_line] else []) ++
    (if has "memory_save" then save_lines else []) ++ (if has "memory_delete" then [delete_line] else []) ++
    (if has "memory_list" then [list_line] else []) ++ (if has "memory_prune" then [prune_line] else []) ++
    (if has "memory_feedback" then [feedback_line] else []) ++ (if has "memory_stats" then [stats_line] else []) ++
    (if has "memory_compact" then [compact_line] else []) ++ [confidence_line; ""]
  else [].
Definition full_prompt (workspaceDir : string) (skillsPrompt recentArtifacts toolHint : option string) (toolNames : list string)
    (has : string -> bool) (readToolName : string) : list string :=
  (if 0 <? length toolNames
   then tooling_lines toolNames ++ web_section has ++ (if has "email" then email_lines else []) ++ memory_section has else []) ++
  section skillsPrompt (fun t =>
    ["## Skills (mandatory)";
     "If <tool_skills> is present, those SKILL.md files are already injected for active tools and are mandatory.";
     "If only <available_skills> is present: scan entries and choose the single most specific applicable skill.";
     "- Then read that SKILL.md at <location> with `" +:+ readToolName +:+ "` and follow it.";
     "- If none clearly apply: do not read any SKILL.md.";
     "Constraints: never read more than one additional skill up front; only read after selecting."; t; ""]) ++
  closing_lines workspaceDir recentArtifacts toolHint.

Definition buildAgentSystemPrompt (today workspaceDir : string) (skillsPrompt : option string) (files : list ContextFile)
    (toolNames0 : list string) (recentArtifacts toolHint : option string) (compactMode : bool) : string :=
  let toolNames := List.filter truthy (map trim toolNames0) in
  let has t := bool_decide (t ∈ map toLowerCase toolNames) in
  let readToolName := if has "read" then "read" else "exec" in
  join newline
    (identity_lines ++ ["Current date (UTC): " +:+ today +:+ "."; ""] ++ contract_lines ++ context_lines files ++
     (if compactMode then compact_prompt else full_prompt) workspaceDir skillsPrompt recentArtifacts toolHint toolNames has readToolName).

(** ** Lemmas *)

(** A pattern of characters in a row. *)
Fixpoint eats (r : rx) (l : list ascii) : option (list ascii) :=
  match r, l with
  | XEps, _ => Some l
  | XChr q, c :: l' => if q c then Some l' else None
  | XSeq a b, _ => match eats a l with Some l' => eats b l' | None => None end
  | _, _ => None
  end.
Lemma eats_covers r l l' rest p : eats r l = Some l' -> exists p', covers r p (l ++ rest) p' (l' ++ rest).
Proof.
  revert l l' p. induction r; intros l l' p' H; cbn [eats] in H; try done.
  - injection H as <-. eexists. constructor.
  - destruct l as [|c l]; [done|]. destruct (p c) eqn:E; [|done]. injection H as <-. eexists. by constructor.
  - destruct (eats r1 l) as [l1|] eqn:E; [|done]. destruct (IHr1 _ _ p' E) as [p1 C1]. destruct (IHr2 _ _ p1 H) as [p2 C2].
    exists p2. by econstructor.
Qed.
Lemma test_literal r lit s : eats r (chars lit) = Some [] -> part lit s -> test r s = true.
Proof.
  intros C (u & v & E). apply test_spec. exists u, (chars lit ++ v). split; [done|].
  destruct (eats_covers r (chars lit) [] v (prev_of None u) C) as [p' H]. by eexists _, _.
Qed.

(** The lines of a text are parts of it. *)
Lemma part_trans a b s : part a b -> part b s -> part a s.
Proof. intros (u & v & E) (u' & v' & E'). exists (u' ++ u), (v ++ v'). by rewrite E', E, <- !app_assoc. Qed.
Lemma strip_cr_infix l : exists v, l = strip_cr l ++ v.
Proof.
  unfold strip_cr. destruct (rev l) as [|c r] eqn:E; [apply (f_equal (@rev ascii)) in E; rewrite rev_involutive in E; subst; by exists []|].
  destruct (_ =? 13); [|by exists []; rewrite app_nil_r]. exists [c]. by rewrite <- (rev_involutive l), E.
Qed.
Lemma stripped_lines l x : x ∈ strip_all_but_last l -> exists y, y ∈ l /\ exists v, y = x ++ v.
Proof.
  induction l as [|y [|z l] IH]; cbn [strip_all_but_last]; [intros I; by apply elem_of_nil in I| |].
  - intros ->%list_elem_of_singleton. exists y. split; [by left|]. by exists []; rewrite app_nil_r.
  - intros [->|I]%elem_of_cons; [exists y; split; [by left|]; apply strip_cr_infix|].
    destruct (IH I) as (y' & J & V). exists y'. split; [by right|done].
Qed.
Lemma line_part line s : line ∈ split_lines s -> part line s.
Proof.
  intros (x & -> & I)%list_elem_of_fmap. apply stripped_lines in I as (y & J & v & ->).
  apply split_infix in J as (a & b & E). exists a, (v ++ b). by rewrite E, chars_of_chars, <- app_assoc.
Qed.
(** A text without white space at its ends stays in the trimmed text. *)
Lemma part_trim t s : t <> "" -> trim t = t -> part t s -> part t (trim s).
Proof.
  intros N T (u & v & E). assert (trimmed (chars t)) as [H L].
  { rewrite <- T. unfold trim. rewrite chars_of_chars. apply trim_list_trimmed. }
  assert (forall w k, (forall c k', k = c :: k' -> is_ws c = false) -> k <> [] -> exists w', drop_while is_ws (w ++ k) = w' ++ k) as D.
  { induction w as [|c w IH]; intros k Hk Nk; [exists []; by apply drop_while_trimmed|]. simpl.
    destruct (is_ws c); [by apply IH|]. by exists (c :: w). }
  assert (chars t <> []) as N' by (intros X; apply N; by rewrite <- (of_chars_chars t), X).
  assert (forall k', chars t ++ k' <> []) as N2 by (intros k'; by destruct (chars t)).
  assert (forall k' c k, chars t ++ k' = c :: k -> is_ws c = false) as H2.
  { intros k' c k. destruct (chars t) as [|c' t'] eqn:Et; [done|]. intros [= <- _]. by eapply H. }
  unfold part, trim. rewrite chars_of_chars, E. unfold trim_list.
  destruct (D u (chars t ++ v) (H2 v) (N2 v)) as [u' ->].
  rewrite !rev_app_distr, <- app_assoc.
  destruct (D (rev v) (rev (chars t) ++ rev u')) as [v' ->].
  - intros c k X. destruct (rev (chars t)) as [|c' r] eqn:Er; [by apply (f_equal (@rev ascii)) in Er; rewrite rev_involutive in Er|].
    injection X as <- _. apply (L c' (rev r)). by rewrite <- (rev_involutive (chars t)), Er.
  - intros X. apply app_nil in X as [X _]. apply (f_equal (@rev ascii)) in X. by rewrite rev_involutive in X.
  - exists u', (rev v'). by rewrite !rev_app_distr, !rev_involutive, <- app_assoc.
Qed.
Lemma nonblank s : truthy (trim s) = true <-> exists c, c ∈ chars s /\ is_ws c = false.
Proof.
  split.
  - intros T. destruct (forallb is_ws (chars s)) eqn:F.
    + unfold trim in T. by rewrite (trim_list_all_ws _ F) in T.
    + apply not_true_iff_false in F. rewrite forallb_forall in F.
      destruct (List.find (fun c => negb (is_ws c)) (chars s)) as [c|] eqn:X.
      * apply find_some in X as [I W]. exists c. split; [by apply list_elem_of_In|by apply negb_true_iff].
      * exfalso. apply F. intros c I. eapply find_none in X; [|exact I]. by apply negb_false_iff.
  - intros (c & (u & v & E)%list_elem_of_split & W). destruct (part_trim (String c "") s) as (u' & v' & E').
    + done.
    + apply trim_no_ws. cbn. by rewrite W.
    + by exists u, v.
    + apply truthy_slen. unfold slen. rewrite E', !length_app. cbn. lia.
Qed.
Lemma split_elem sep l c : c ∈ l -> sep c = false -> exists w, w ∈ split_list sep l /\ c ∈ w.
Proof.
  induction l as [|x l IH]; intros I S; [by apply elem_of_nil in I|]. simpl. apply elem_of_cons in I as [->|I].
  - rewrite S. destruct (split_list sep l) as [|w ws]; eexists; (split; [by left|by left]).
  - destruct (IH I S) as (w & J & K). destruct (sep x); [exists w; split; [by right|done]|].
    destruct (split_list sep l) as [|w' ws]; [by apply elem_of_nil in J|]. apply elem_of_cons in J as [->|J].
    + exists (x :: w'). split; [by left|by right].
    + exists w. split; [by right|done].
Qed.
Lemma strip_cr_elem l c : c ∈ l -> is_ws c = false -> c ∈ strip_cr l.
Proof.
  intros I W. unfold strip_cr. destruct (rev l) as [|x r] eqn:E; [apply (f_equal (@rev ascii)) in E; rewrite rev_involutive in E; by subst|].
  destruct (code x =? 13) eqn:X; [|done]. rewrite <- (rev_involutive l), E in I. cbn in I. apply elem_of_app in I as [I|I]; [done|].
  apply list_elem_of_singleton in I as ->. unfold is_ws in W. rewrite Nat.eqb_eq in X. by rewrite X in W.
Qed.
Lemma stripped_elem l y c : y ∈ l -> c ∈ y -> is_ws c = false -> exists x, x ∈ strip_all_but_last l /\ c ∈ x.
Proof.
  induction l as [|z [|z' l] IH]; intros I J W; [by apply elem_of_nil in I| |]; cbn [strip_all_but_last].
  - apply list_elem_of_singleton in I as ->. exists z. split; [by left|done].
  - apply elem_of_cons in I as [->|I]; [exists (strip_cr z); split; [by left|by apply strip_cr_elem]|].
    destruct (IH I J W) as (x & K & M). exists x. split; [by right|done].
Qed.
Lemma first_line_part s : truthy (trim s) = true ->
  truthy (ProviderText.firstNonEmptyLine s) = true /\ part (ProviderText.firstNonEmptyLine s) (trim s).
Proof.
  intros (c & I & W)%nonblank. unfold ProviderText.firstNonEmptyLine.
  destruct (List.find _ (map trim (split_lines s))) as [line|] eqn:F; cbn [default].
  - apply find_some in F as [(x & <- & J%list_elem_of_In)%in_map_iff L]. apply Nat.ltb_lt in L. split; [by apply truthy_slen|].
    apply part_trim; [apply truthy_true, truthy_slen; done|apply trim_idemp|]. by apply trim_part, line_part.
  - exfalso. destruct (split_elem (fun c => code c =? 10) (chars s) c I) as (w & J & K).
    { unfold is_ws in W. destruct (code c =? 10) eqn:E; [|done]. apply Nat.eqb_eq in E. by rewrite E in W. }
    destruct (stripped_elem _ w c J K W) as (x & J' & K'). eapply find_none in F.
    2: { apply in_map. apply in_map_iff. exists x. split; [reflexivity|by apply list_elem_of_In]. }
    apply Nat.ltb_ge in F. assert (truthy (trim (of_chars x)) = true) as T by (apply nonblank; exists c; by rewrite chars_of_chars).
    apply truthy_slen in T. lia.
Qed.
Lemma part_join sep l x : x ∈ l -> part x (join sep l).
Proof.
  induction l as [|y [|z l] IH]; intros I; [by apply elem_of_nil in I| |].
  - apply list_elem_of_singleton in I as ->. exists [], []. by rewrite app_nil_r.
  - change (join sep (y :: z :: l)) with (y +:+ sep +:+ join sep (z :: l)). apply elem_of_cons in I as [->|I].
    + exists [], (chars (sep +:+ join sep (z :: l))). by rewrite !chars_app.
    + destruct (IH I) as (u & v & E). exists (chars y ++ chars sep ++ u), v. rewrite !chars_app, E, <- !app_assoc. done.
Qed.

(** ** Properties *)

(** C33: A run is never stopped by the checks of its own system prompt: whatever the
    tools, skills and mode, the prompt built from a soul and a profile that are
    not blank has both blocks, and the first line of each text in it. *)
Theorem prompt_has_identity today ws skills tools recent hint compactMode soulPath soul userPath user :
  truthy (trim soul) = true -> truthy (trim user) = true ->
  let prompt := buildAgentSystemPrompt today ws skills (buildInjectedIdentityContextFiles soulPath soul userPath user) tools recent hint compactMode in
  assertSystemPromptHasIdentityFiles prompt = Ok tt /\ assertSystemPromptHasIdentityContent prompt soul user = Ok tt.
Proof.
  intros S U prompt.
  assert (Forall (fun x => part x prompt) ["<assistant_soul>"; trim soul; "<user_profile>"; trim user]) as P.
  { assert (profile_text (by_name "SOUL.MD" (buildInjectedIdentityContextFiles soulPath soul userPath user)) = trim soul) as E1
      by (unfold profile_text; change (by_name _ _) with (Some (mkContextFile "SOUL.md" soulPath soul false "fallback:soul"));
          change (default "" _) with soul; by rewrite S).
    assert (profile_text (by_name "USER.MD" (buildInjectedIdentityContextFiles soulPath soul userPath user)) = trim user) as E2
      by (unfold profile_text; change (by_name _ _) with (Some (mkContextFile "USER.md" userPath user false "fallback:user"));
          change (default "" _) with user; by rewrite U).
    apply Forall_forall. intros x I. unfold prompt, buildAgentSystemPrompt. apply part_join. apply elem_of_app. right. apply elem_of_app. right.
    apply elem_of_app. right. apply elem_of_app. left. unfold context_lines.
    change (0 <? length (buildInjectedIdentityContextFiles soulPath soul userPath user)) with true. cbv match. rewrite E1, E2. apply elem_of_app. left. set_solver. }
  clearbody prompt. do 4 (apply Forall_cons in P as [?P P]).
  destruct (first_line_part soul S) as [TS PS], (first_line_part user U) as [TU PU]. split.
  - assert (test (re_i "<assistant_soul>") prompt = true) as T1 by (apply (test_literal _ "<assistant_soul>"); [vm_compute; reflexivity|done]).
    assert (test (re_i "<user_profile>") prompt = true) as T2 by (apply (test_literal _ "<user_profile>"); [vm_compute; reflexivity|done]).
    unfold assertSystemPromptHasIdentityFiles. by rewrite T1, T2.
  - unfold assertSystemPromptHasIdentityContent. rewrite TS, TU. cbn [negb orb].
    assert (forall t s, part t s -> includes t s = true) as Inc.
    { intros t s (u & v & E). apply includes_spec. exists (of_chars u), (of_chars v). apply chars_inj. by rewrite !chars_app, !chars_of_chars. }
    by rewrite (Inc _ prompt (part_trans _ _ _ PS P1)), (Inc _ prompt (part_trans _ _ _ PU P3)).
Qed.

Lemma prompt_has_identity_witness :
  let prompt := buildAgentSystemPrompt "2025-01-01" "/ws" None
    (buildInjectedIdentityContextFiles "/s/soul.md" "You are Ada." "/s/users.md" "Name: Bo") ["read"] None None true in
  assertSystemPromptHasIdentityFiles prompt = Ok tt /\ assertSystemPromptHasIdentityContent prompt "You are Ada." "Name: Bo" = Ok tt.
Proof. apply (prompt_has_identity "2025-01-01" "/ws" None ["read"] None None true "/s/soul.md" "You are Ada." "/s/users.md" "Name: Bo"); reflexivity. Defined.
