(* ===== verification/ToolAdapter.v ===== *)
(** * Tool adapter

    [src/src/agents/pi-tool-definition-adapter.ts]: how a tool call of the model
    becomes a call of a tool: the tool is found by its normalised name, the
    arguments are brought to the names the tools use, the result goes through the
    result contract, is shortened for the browser and becomes a text.

    A tool is its policy record with its [execute], a function of a state of the
    world; the partial results it reports come before its result. *)

From stdpp Require Import base list sets strings pretty.
From Stdlib Require Import Ascii Lia ZArith.
From S2P Require Import Prelude JsString JsMap JsValue Json JsonIndent ToolPolicy ToolResultContract ProviderRoute.
#[local] Open Scope nat_scope.

Definition BROWSER_RESULT_MAX_TEXT_CHARS : nat := 3500.
Definition BROWSER_RESULT_MAX_LINKS : nat := 40.
Definition BROWSER_RESULT_MAX_REFS : nat := 60.
Definition BROWSER_RESULT_MAX_FORMS : nat := 24.
Definition BROWSER_RESULT_MAX_FORM_FIELDS : nat := 40.

Definition truncated_mark : string := newline +:+ newline +:+ "[truncated for tool context]".
Definition truncateText (text : string) (maxChars : nat) : string :=
  if slen text <=? maxChars then text else slice_to maxChars text +:+ truncated_mark.

(** ** Arguments *)

(** [normalizeToolName(a) === normalizeToolName(b)]; inherited members are the
    same when the names are. *)
Definition same_tool_name (a b : string) : bool :=
  match normalizeToolName a, normalizeToolName b with
  | TName s, TName t => (s =? t)%string
  | TInherited, TInherited => (toLowerCase (trim a) =? toLowerCase (trim b))%string
  | _, _ => false
  end.
Definition is_tool (name wanted : string) : bool :=
  match normalizeToolName name with TName s => (s =? wanted)%string | TInherited => false end.

Definition fields := list (string * value).
Definition field (k : string) (r : fields) : value := default VUndef (mget k r).
(** [if (from in record && !(to in record)) { record.to = record.from; delete record.from }] *)
Definition rename_field (from to : string) (r : fields) : fields :=
  if mhas from r && negb (mhas to r) then mdelete from (mset to (field from r) r) else r.
(** [a ?? b ?? ...] *)
Definition first_field (ks : list string) (r : fields) : value := fold_right (fun k v => nullish (field k r) v) VUndef ks.
(** [if (record.to === undefined) { const f = ...; if (typeof f === "string") record.to = f }] *)
Definition fill_field (to : string) (ks : list string) (r : fields) : fields :=
  match field to r, first_field ks r with
  | VUndef, VStr s => mset to (VStr s) r
  | _, _ => r
  end.
Definition exec_args (r : fields) : fields :=
  let r1 := fill_field "command" ["cmd"; "bash"; "shell"; "script"; "run"; "input"] r in
  match field "workdir" r1, field "cwd" r1 with
  | VUndef, VUndef => fill_field "workdir" ["dir"; "directory"; "path"] r1
  | _, _ => r1
  end.
Definition browser_args (r : fields) : fields :=
  let actionRaw := toLowerCase (trim (to_string (nullish (field "action" r) (VStr "")))) in
  if (actionRaw =? "go")%string then mset "action" (VStr "navigate") r
  else if (actionRaw =? "goto")%string || (actionRaw =? "visit")%string then mset "action" (VStr "open") r
  else r.

Definition normalizeToolArgs (toolName : string) (args : value) : fields :=
  match args with
  | VNull | VUndef => []
  | VStr s =>
      if is_tool toolName "exec" then [("command", VStr s)]
      else if is_tool toolName "process" then [("action", VStr s)]
      else [("input", VStr s)]
  | VArr _ | VObj _ =>
      let r := rename_field "new_string" "newText" (rename_field "old_string" "oldText"
                 (rename_field "file_path" "path" (object_entries args))) in
      let r1 := if is_tool toolName "exec" then exec_args r else r in
      let r2 := if is_tool toolName "process" then fill_field "action" ["op"; "operation"; "command"] r1 else r1 in
      if is_tool toolName "browser" then browser_args r2 else r2
  | _ => []
  end.

(** ** Results of the browser *)

(** [...(typeof entry.k === "string" ? { k: f(entry.k) } : {})] *)
Definition keep_string (entry : value) (k : string) (f : string -> string) : fields :=
  match get_prop k entry with VStr s => [(k, VStr (f s))] | _ => [] end.
Definition keep_number (entry : value) (k : string) : fields :=
  match get_prop k entry with VNum n => [(k, VNum n)] | _ => [] end.
Definition same (s : string) : string := s.
Definition cut (n : nat) (s : string) : string := truncateText s n.
Definition compactLink (entry : value) : value :=
  if negb (is_object entry) then entry
  else VObj (keep_number entry "index" ++ keep_string entry "text" (cut 160) ++ keep_string entry "url" (cut 240)).
Definition compactRef (entry : value) : value :=
  if negb (is_object entry) then entry
  else VObj (keep_string entry "ref" same ++ keep_string entry "kind" same ++ keep_string entry "role" same ++
             keep_string entry "name" (cut 180) ++ keep_string entry "url" (cut 240) ++ keep_number entry "formIndex" ++
             keep_string entry "fieldName" (cut 120) ++ keep_string entry "method" same ++ keep_string entry "selector" (cut 240)).
Definition compactSnapshot (snapshot : value) : value :=
  if negb (is_object snapshot) then snapshot
  else spread snapshot
    (keep_string snapshot "text" (cut BROWSER_RESULT_MAX_TEXT_CHARS) ++
     match get_prop "links" snapshot with
     | VArr l => [("links", VArr (map compactLink (firstn BROWSER_RESULT_MAX_LINKS l)))]
     | _ => []
     end ++
     match get_prop "refs" snapshot with
     | VArr l => [("refs", VArr (map compactRef (firstn BROWSER_RESULT_MAX_REFS l)))]
     | _ => []
     end).
(** The references of the result itself keep fewer fields. *)
Definition compactOuterRef (entry : value) : value :=
  if negb (is_object entry) then entry
  else VObj (keep_string entry "ref" same ++ keep_string entry "kind" same ++ keep_string entry "role" same ++
             keep_string entry "name" (cut 180) ++ keep_string entry "url" (cut 240) ++ keep_string entry "selector" (cut 240)).
Definition compactForm (entry : value) : value :=
  if negb (is_object entry) then entry
  else match get_prop "fields" entry with
       | VArr l => spread entry [("fields", VArr (firstn BROWSER_RESULT_MAX_FORM_FIELDS l))]
       | _ => entry
       end.
Definition update_field (k : string) (f : value -> value) (r : fields) : fields :=
  match mget k r with Some v => mset k (f v) r | None => r end.
Definition on_array (n : nat) (f : value -> value) (v : value) : value :=
  match v with VArr l => VArr (map f (firstn n l)) | v => v end.
Definition compactBrowserToolResult (result : value) : value :=
  if negb (is_object result) then result
  else VObj (update_field "forms" (on_array BROWSER_RESULT_MAX_FORMS compactForm)
            (update_field "refs" (on_array BROWSER_RESULT_MAX_REFS compactOuterRef)
            (update_field "openedSnapshot" compactSnapshot
            (update_field "snapshot" compactSnapshot (object_entries result))))).

Definition stringifyToolResult (result : value) : string :=
  match result with
  | VStr s => s
  | VNull | VUndef => ""
  | v => JSON_stringify2 v
  end.

(** ** Execution *)

Section Execution.
Context {W : Type}.

(** The partial results of a call, its result and the world after it. *)
Record execution := mkExecution { ex_partial : list value; ex_result : result value; ex_world : W }.
Record Tool := mkRunTool {
  rt_tool : AnyAgentTool;
  rt_description : string;
  rt_parameters : value;
  rt_execute : string -> value -> W -> execution;
}.
Definition rt_name (t : Tool) : string := tool_name (rt_tool t).

Record ToolCall := mkToolCall { tc_id : string; tc_name : string; tc_arguments : value }.
Record ExecuteToolCallResult := mkExecuted { xr_isError : bool; xr_content : string }.

(** What the hooks are told. *)
Inductive event :=
| OnStart (toolCallId toolName : string) (args : value)
| OnUpdate (toolCallId toolName : string) (partialResult : value)
| OnEnd (toolCallId toolName : string) (result : value) (isError : bool) (error : option string).

Definition key_text (name : string) : string :=
  match normalizeToolName name with TName s => s | TInherited => inherited_text (toLowerCase (trim name)) end.
(** The schema has the shape the library takes. *)
Definition toToolDefinitions (tools : list Tool) : list value :=
  map (fun t => VObj [("name", VStr (key_text (if truthy (rt_name t) then rt_name t else "tool")));
                      ("description", VStr (rt_description t)); ("parameters", rt_parameters t)]) tools.

Definition find_tool (tools : list Tool) (name : string) : option Tool :=
  match List.find (fun t => same_tool_name (rt_name t) name) tools with
  | Some t => Some t
  | None => List.find (fun t => (rt_name t =? name)%string) tools
  end.

(** [now] is the time the contract reads.  The hooks do not throw here; in the
    code an exception of the last hook of a call that succeeded, which is told
    inside the [try], would be reported as a failure of the tool.  The contract and
    the compaction do not throw on values without cycles. *)
Definition executeToolCall (now : Z) (tools : list Tool) (call : ToolCall) (w : W)
    : ExecuteToolCallResult * list event * W :=
  let name := key_text (tc_name call) in
  match find_tool tools (tc_name call) with
  | None => (mkExecuted true ("Tool not found: " +:+ tc_name call), [], w)
  | Some tool =>
      let args := VObj (normalizeToolArgs (rt_name tool) (tc_arguments call)) in
      let x := rt_execute tool (tc_id call) args w in
      let begun := OnStart (tc_id call) name args :: map (OnUpdate (tc_id call) name) (ex_partial x) in
      match ex_result x with
      | Ok rawResult =>
          let shaped := applyToolResultContract now name rawResult in
          let res := if (name =? "browser")%string then compactBrowserToolResult shaped else shaped in
          (mkExecuted false (stringifyToolResult res), begun ++ [OnEnd (tc_id call) name res false None], ex_world x)
      | Throw message =>
          (mkExecuted true message, begun ++ [OnEnd (tc_id call) name (VStr message) true (Some message)], ex_world x)
      end
  end.
End Execution.

(** ** Lemmas *)

Lemma field_mset k k' v r : field k (mset k' v r) = if bool_decide (k = k') then v else field k r.
Proof. unfold field. rewrite mget_mset. by case_bool_decide. Qed.
Lemma field_mdelete_ne k k' r : k <> k' -> field k (mdelete k' r) = field k r.
Proof. intros N. unfold field. by rewrite mget_mdelete_ne. Qed.
Lemma has_of_field k r : field k r <> VUndef -> mhas k r = true.
Proof. unfold field, mhas. by destruct (mget k r). Qed.

(** A record on which a renaming has nothing left to do. *)
Definition renamed (from to : string) (r : fields) : Prop := mhas from r = true -> mhas to r = true.
Lemma rename_id from to r : renamed from to r -> rename_field from to r = r.
Proof. unfold renamed, rename_field. destruct (mhas from r), (mhas to r); try done. intros H. by specialize (H eq_refl). Qed.
Lemma mhas_mset k k' v (r : fields) : mhas k (mset k' v r) = bool_decide (k = k') || mhas k r.
Proof. unfold mhas. rewrite mget_mset. by case_bool_decide. Qed.
Lemma mhas_mdelete k k' (r : fields) : mhas k (mdelete k' r) = negb (bool_decide (k = k')) && mhas k r.
Proof. unfold mhas. rewrite mget_mdelete. by case_bool_decide. Qed.
Lemma rename_renamed from to r : from <> to -> renamed from to (rename_field from to r).
Proof.
  intros N. unfold renamed, rename_field. destruct (mhas from r) eqn:F, (mhas to r) eqn:T; cbn [andb negb]; try congruence.
  rewrite !mhas_mdelete, bool_decide_true by done. done.
Qed.
Lemma rename_keeps a b from to r : a <> from -> a <> to -> b <> from -> renamed a b r -> renamed a b (rename_field from to r).
Proof.
  intros N1 N2 N3. unfold renamed, rename_field. destruct (_ && _); [|done].
  rewrite !mhas_mdelete, !mhas_mset, !(bool_decide_false (a = _)), (bool_decide_false (b = from)) by done. cbn [negb andb orb].
  intros H A. rewrite H by done. by rewrite orb_true_r.
Qed.
(** Filling a field again changes nothing, as long as the field is not one of
    its own sources. *)
Definition filled (to : string) (ks : list string) (r : fields) : Prop :=
  field to r <> VUndef \/ (forall s, first_field ks r <> VStr s).
Lemma fill_id to ks r : filled to ks r -> fill_field to ks r = r.
Proof. unfold filled, fill_field. destruct (field to r); try done. intros [H|H]; [done|]. destruct (first_field ks r); try done. by destruct (H s). Qed.
Lemma fill_filled to ks r : filled to ks (fill_field to ks r).
Proof.
  unfold filled, fill_field. destruct (field to r) eqn:E; try (by left; congruence).
  destruct (first_field ks r) eqn:F; try (by right; congruence). left. rewrite field_mset, bool_decide_true by done. done.
Qed.
Lemma first_field_ext ks r r' : Forall (fun k => field k r = field k r') ks -> first_field ks r = first_field ks r'.
Proof. induction 1 as [|k ks E _ IH]; [done|]. unfold first_field in *. cbn. by rewrite E, IH. Qed.
Lemma fill_field_other to ks r k : k <> to -> field k (fill_field to ks r) = field k r.
Proof.
  intros N. unfold fill_field. destruct (field to r); try done. destruct (first_field ks r); try done.
  rewrite field_mset, bool_decide_false; done.
Qed.
Lemma filled_other to ks to' ks' r : to' <> to -> to' ∉ ks -> filled to ks r -> filled to ks (fill_field to' ks' r).
Proof.
  intros N I [H|H].
  - left. by rewrite fill_field_other.
  - right. intros s. rewrite (first_field_ext ks _ r); [apply H|]. apply Forall_forall. intros k K. apply fill_field_other. set_solver.
Qed.

Lemma exec_args_stable r : exec_args (exec_args r) = exec_args r.
Proof.
  unfold exec_args. set (r1 := fill_field "command" _ r). set (c := ["cmd"; "bash"; "shell"; "script"; "run"; "input"]).
  assert (filled "command" c r1) as F by apply fill_filled.
  set (r2 := match field "workdir" r1, field "cwd" r1 with VUndef, VUndef => fill_field "workdir" ["dir"; "directory"; "path"] r1 | _, _ => r1 end).
  assert (filled "command" c r2) as F2.
  { unfold r2. destruct (field "workdir" r1), (field "cwd" r1); try done. apply filled_other; [done|by_decide|done]. }
  rewrite (fill_id "command" c r2 F2). destruct (field "workdir" r2) eqn:W, (field "cwd" r2) eqn:C; try done.
  apply fill_id. unfold r2 in *. destruct (field "workdir" r1) eqn:E1, (field "cwd" r1) eqn:E2; try congruence. apply fill_filled.
Qed.
Lemma browser_args_stable r : browser_args (browser_args r) = browser_args r.
Proof.
  unfold browser_args at 2 3. destruct (_ =? "go")%string eqn:E1; [|destruct (_ || _) eqn:E2]; unfold browser_args.
  - by rewrite field_mset, bool_decide_true.
  - by rewrite field_mset, bool_decide_true.
  - by rewrite E1, E2.
Qed.

Definition renamed_all (r : fields) : Prop :=
  renamed "file_path" "path" r /\ renamed "old_string" "oldText" r /\ renamed "new_string" "newText" r.
Definition rename_all (r : fields) : fields :=
  rename_field "new_string" "newText" (rename_field "old_string" "oldText" (rename_field "file_path" "path" r)).
Lemma rename_all_renamed r : renamed_all (rename_all r).
Proof. unfold rename_all. split_and!; repeat first [by apply rename_renamed | apply rename_keeps; [done|done|done|] ]. Qed.
Lemma rename_all_id r : renamed_all r -> rename_all r = r.
Proof. intros (A & B & C). unfold rename_all. rewrite (rename_id _ _ _ A), (rename_id _ _ _ B). by apply rename_id. Qed.
(** A field that no renaming takes away. *)
Definition other_field (to : string) : bool := negb (bool_decide (to ∈ ["file_path"; "old_string"; "new_string"])).
Lemma other_field_ne to : other_field to = true -> "file_path" <> to /\ "old_string" <> to /\ "new_string" <> to.
Proof. unfold other_field. intros H. split_and!; intros <-; done. Qed.
Lemma renamed_mset1 a b to v r : a <> to -> renamed a b r -> renamed a b (mset to v r).
Proof.
  intros N H. unfold renamed in *. rewrite !mhas_mset, (bool_decide_false (a = to)) by done. cbn [orb].
  intros A. rewrite H by done. by rewrite orb_true_r.
Qed.
Lemma renamed_mset to v r : other_field to = true -> renamed_all r -> renamed_all (mset to v r).
Proof. intros (N1 & N2 & N3)%other_field_ne (A & B & C). split_and!; by apply renamed_mset1. Qed.
Lemma renamed_fill to ks r : other_field to = true -> renamed_all r -> renamed_all (fill_field to ks r).
Proof.
  intros N R. unfold fill_field. destruct (field to r); try done. destruct (first_field ks r); try done. by apply renamed_mset.
Qed.

(** What a tool's own rule does after the renaming. *)
Definition tool_rule (toolName : string) (r : fields) : fields :=
  let r1 := if is_tool toolName "exec" then exec_args r else r in
  let r2 := if is_tool toolName "process" then fill_field "action" ["op"; "operation"; "command"] r1 else r1 in
  if is_tool toolName "browser" then browser_args r2 else r2.
Lemma tool_rule_stable toolName r : tool_rule toolName (tool_rule toolName r) = tool_rule toolName r.
Proof.
  unfold tool_rule, is_tool. destruct (normalizeToolName toolName) as [s|]; [|done].
  destruct (s =? "exec")%string eqn:E; [bool_prop; subst; apply exec_args_stable|].
  destruct (s =? "process")%string eqn:P; [bool_prop; subst; apply fill_id, fill_filled|].
  destruct (s =? "browser")%string; [apply browser_args_stable|done].
Qed.
Lemma tool_rule_renamed toolName r : renamed_all r -> renamed_all (tool_rule toolName r).
Proof.
  assert (forall r, renamed_all r -> renamed_all (exec_args r)) as Ex.
  { intros r0 R. unfold exec_args. set (r1 := fill_field "command" _ r0).
    assert (renamed_all r1) by (apply renamed_fill; [reflexivity|done]). repeat case_match; try done. by apply renamed_fill; [reflexivity|]. }
  intros R. unfold tool_rule, browser_args.
  repeat match goal with |- context [if ?b then _ else _] => destruct b end;
    repeat first [done | apply renamed_mset; [reflexivity|] | apply renamed_fill; [reflexivity|] | apply Ex].
Qed.

(** ** Properties *)

(** Arguments that were brought to the tools' names stay as they are when they
    are normalised again, for every tool and every shape of arguments. *)
Theorem args_normal toolName args :
  normalizeToolArgs toolName (VObj (normalizeToolArgs toolName args)) = normalizeToolArgs toolName args.
Proof.
  assert (forall r, normalizeToolArgs toolName (VObj r) = tool_rule toolName (rename_all r)) as N by done.
  rewrite N. assert (forall r, tool_rule toolName (rename_all (tool_rule toolName (rename_all r))) = tool_rule toolName (rename_all r)) as O.
  { intros r. rewrite (rename_all_id (tool_rule toolName _)); [apply tool_rule_stable|]. apply tool_rule_renamed, rename_all_renamed. }
  assert (tool_rule toolName (rename_all []) = []) as Z.
  { unfold tool_rule. by destruct (is_tool toolName "exec"), (is_tool toolName "process"), (is_tool toolName "browser"). }
  destruct args as [| |b|n|s|l|ps]; [exact Z|exact Z|exact Z|exact Z| |exact (O _)|exact (O _)].
  cbn [normalizeToolArgs]. unfold tool_rule, is_tool. destruct (normalizeToolName toolName) as [k|]; [|done].
  destruct (k =? "exec")%string eqn:E; [bool_prop; by subst|]. destruct (k =? "process")%string eqn:P; [bool_prop; by subst|].
  by destruct (k =? "browser")%string.
Qed.

Lemma canonical_settled s : plain_name s -> toLowerCase (trim (canonical s)) = canonical s.
Proof.
  intros _. unfold canonical. destruct (mget _ TOOL_NAME_ALIASES) as [x|] eqn:E; cbn [default].
  - apply mget_In in E. cbn in E. destruct E as [[= _ <-]|[[= _ <-]|[]]]; done.
  - by rewrite trim_toLowerCase, trim_idemp, toLowerCase_idemp.
Qed.
Lemma contract_other now name v :
  toLowerCase (trim name) ∉ ["browser"; "web_search"; "web_fetch"; "email"] -> applyToolResultContract now name v = v.
Proof.
  unfold applyToolResultContract. generalize (toLowerCase (trim name)) as n. intros n N.
  repeat match goal with |- context [(n =? ?s)%string] => destruct (String.eqb_spec n s) as [->|]; [set_solver|] end. done.
Qed.
Lemma find_first {W} (l1 : list (@Tool W)) t l2 name :
  plain_name name -> Forall (fun u => plain_name (rt_name u)) (l1 ++ [t]) ->
  Forall (fun u => canonical (rt_name u) <> canonical name) l1 -> canonical (rt_name t) = canonical name ->
  find_tool (l1 ++ t :: l2) name = Some t.
Proof.
  intros P [P1 P2]%Forall_app F C. apply Forall_cons_1 in P2 as [P2 _]. unfold find_tool.
  assert (forall u : @Tool W, plain_name (rt_name u) -> same_tool_name (rt_name u) name = (canonical (rt_name u) =? canonical name)%string) as S.
  { intros u Pu. unfold same_tool_name. by rewrite (proj1 (normalizeToolName_plain _ Pu)), (proj1 (normalizeToolName_plain _ P)). }
  assert (List.find (fun u => same_tool_name (rt_name u) name) (l1 ++ t :: l2) = Some t) as ->; [|done].
  induction l1 as [|u l1 IH]; cbn [app List.find].
  - by rewrite S, C, String.eqb_refl.
  - apply Forall_cons_1 in P1 as [Pu P1], F as [Fu F]. rewrite S by done. destruct (String.eqb_spec (canonical (rt_name u)) (canonical name)); [done|].
    by apply IH.
Qed.


(** What a tool returns as an object is what the model, and the run itself, reads
    back from the text of the result. *)
Theorem result_read_back ps :
  distinct (VObj ps) -> JSON_parse (stringifyToolResult (VObj ps)) = Some (json_norm (VObj ps)).
Proof. intros D. by apply parse_stringify2. Qed.

(** ** Bounds of browser results *)

Lemma cut_length n s : slen (cut n s) <= n + 30.
Proof.
  unfold cut, truncateText. destruct (_ <=? _) eqn:E; bool_prop; [lia|]. rewrite slen_app.
  replace (slen truncated_mark) with 30 by done. unfold slice_to. rewrite slen_of_chars, length_firstn. lia.
Qed.
Definition array_at_most (n : nat) (v : value) : Prop := match v with VArr l => length l <= n | _ => True end.
Definition text_at_most (n : nat) (v : value) : Prop := match v with VStr s => slen s <= n | _ => True end.
Definition snapshot_bounded (v : value) : Prop :=
  text_at_most (BROWSER_RESULT_MAX_TEXT_CHARS + 30) (get_prop "text" v) /\
  array_at_most BROWSER_RESULT_MAX_LINKS (get_prop "links" v) /\ array_at_most BROWSER_RESULT_MAX_REFS (get_prop "refs" v).
(** Fields of one key that are written over others. *)
Definition only (k : string) (fs : fields) : Prop := fs = [] \/ exists v, fs = [(k, v)].
Definition write (fs r : fields) : fields := fold_left (fun ps f => mset f.1 f.2 ps) fs r.
Lemma write_get k k' fs r : only k' fs ->
  field k (write fs r) = match fs with (j, v) :: _ => if bool_decide (k = k') then v else field k r | [] => field k r end.
Proof. intros [->|[v ->]]; [done|]. unfold write. cbn [fold_left fst snd]. apply field_mset. Qed.
Lemma write_get_ne k k' fs r : only k' fs -> k <> k' -> field k (write fs r) = field k r.
Proof. intros O N. rewrite (write_get _ k') by done. destruct fs as [|[j v] fs]; [done|]. by rewrite bool_decide_false. Qed.

Lemma compactSnapshot_bounded v : snapshot_bounded (compactSnapshot v).
Proof.
  unfold compactSnapshot. destruct (is_object v) eqn:O; cbn [negb]; [|by destruct v].
  unfold spread, snapshot_bounded. cbn [get_prop]. rewrite !fold_left_app.
  set (texts := keep_string v "text" _). set (links := match get_prop "links" v with VArr _ => _ | _ => _ end).
  set (refs := match get_prop "refs" v with VArr _ => _ | _ => _ end).
  assert (only "text" texts) as Ot by (unfold texts, keep_string; destruct (get_prop "text" v); first [by left|by right; eexists]).
  assert (only "links" links) as Ol by (unfold links; destruct (get_prop "links" v); first [by left|by right; eexists]).
  assert (only "refs" refs) as Or by (unfold refs; destruct (get_prop "refs" v); first [by left|by right; eexists]).
  assert (forall k, forallb is_digit (chars k) = false -> field k (object_entries v) = get_prop k v) as G
    by (intros k; apply object_entries_prop).
  change (text_at_most (BROWSER_RESULT_MAX_TEXT_CHARS + 30) (field "text" (write refs (write links (write texts (object_entries v))))) /\
    array_at_most BROWSER_RESULT_MAX_LINKS (field "links" (write refs (write links (write texts (object_entries v))))) /\
    array_at_most BROWSER_RESULT_MAX_REFS (field "refs" (write refs (write links (write texts (object_entries v)))))).
  split_and!.
  - rewrite (write_get_ne _ "refs"), (write_get_ne _ "links"), (write_get _ "text"), G by done. unfold texts, keep_string.
    destruct (get_prop "text" v); try done. apply cut_length.
  - rewrite (write_get_ne _ "refs"), (write_get _ "links"), (write_get_ne _ "text"), G by done. unfold links.
    destruct (get_prop "links" v); try done. cbn [array_at_most bool_decide]. change (length (map compactLink (firstn BROWSER_RESULT_MAX_LINKS l)) <= BROWSER_RESULT_MAX_LINKS).
    rewrite length_map, length_firstn. lia.
  - rewrite (write_get _ "refs"), (write_get_ne _ "links"), (write_get_ne _ "text"), G by done. unfold refs.
    destruct (get_prop "refs" v); try done. change (length (map compactRef (firstn BROWSER_RESULT_MAX_REFS l)) <= BROWSER_RESULT_MAX_REFS).
    rewrite length_map, length_firstn. lia.
Qed.

Lemma update_get k k' f r : field k (update_field k' f r) =
  if bool_decide (k = k') then match mget k' r with Some v => f v | None => VUndef end else field k r.
Proof.
  unfold update_field. destruct (mget k' r) as [v|] eqn:M; [apply field_mset|].
  case_bool_decide as E; [|done]. subst. unfold field. by rewrite M.
Qed.
Lemma update_mget_ne k k' f r : k <> k' -> mget k (update_field k' f r) = mget k r.
Proof. intros N. unfold update_field. destruct (mget k' r); [|done]. by rewrite mget_mset_ne. Qed.

(** The result of the browser as the model gets it: each snapshot holds at most
    3500 characters of text (and a mark where it was cut), 40 links and 60
    references, the result itself at most 60 references and 24 forms. *)
Theorem browser_result_bounded v :
  let r := compactBrowserToolResult v in
  snapshot_bounded (get_prop "snapshot" r) /\ snapshot_bounded (get_prop "openedSnapshot" r) /\
  array_at_most BROWSER_RESULT_MAX_REFS (get_prop "refs" r) /\ array_at_most BROWSER_RESULT_MAX_FORMS (get_prop "forms" r).
Proof.
  intros r. unfold r, compactBrowserToolResult. destruct (is_object v) eqn:O; cbn [negb]; [|by destruct v].
  assert (forall n f x, array_at_most n (on_array n f x)) as A.
  { intros n f x. destruct x; try done. cbn. rewrite length_map, length_firstn. lia. }
  set (r0 := object_entries v). cbn [get_prop].
  change (snapshot_bounded (field "snapshot" (update_field "forms" (on_array BROWSER_RESULT_MAX_FORMS compactForm)
      (update_field "refs" (on_array BROWSER_RESULT_MAX_REFS compactOuterRef)
      (update_field "openedSnapshot" compactSnapshot (update_field "snapshot" compactSnapshot r0))))) /\
    snapshot_bounded (field "openedSnapshot" (update_field "forms" (on_array BROWSER_RESULT_MAX_FORMS compactForm)
      (update_field "refs" (on_array BROWSER_RESULT_MAX_REFS compactOuterRef)
      (update_field "openedSnapshot" compactSnapshot (update_field "snapshot" compactSnapshot r0))))) /\
    array_at_most BROWSER_RESULT_MAX_REFS (field "refs" (update_field "forms" (on_array BROWSER_RESULT_MAX_FORMS compactForm)
      (update_field "refs" (on_array BROWSER_RESULT_MAX_REFS compactOuterRef)
      (update_field "openedSnapshot" compactSnapshot (update_field "snapshot" compactSnapshot r0))))) /\
    array_at_most BROWSER_RESULT_MAX_FORMS (field "forms" (update_field "forms" (on_array BROWSER_RESULT_MAX_FORMS compactForm)
      (update_field "refs" (on_array BROWSER_RESULT_MAX_REFS compactOuterRef)
      (update_field "openedSnapshot" compactSnapshot (update_field "snapshot" compactSnapshot r0)))))).
  assert (forall k f r, field k (update_field k f r) = match mget k r with Some v => f v | None => VUndef end) as Same
    by (intros; by rewrite update_get, bool_decide_true).
  assert (forall k k' f r, k <> k' -> field k (update_field k' f r) = field k r) as Other
    by (intros; by rewrite update_get, bool_decide_false).
  split_and!.
  - rewrite (Other _ "forms"), (Other _ "refs"), (Other _ "openedSnapshot"), Same by done. case_match; [apply compactSnapshot_bounded|done].
  - rewrite (Other _ "forms"), (Other _ "refs"), Same by done. case_match; [apply compactSnapshot_bounded|done].
  - rewrite (Other _ "forms"), Same by done. case_match; [apply A|done].
  - rewrite Same. case_match; [apply A|done].
Qed.

Definition sample_tool : @Tool nat :=
  mkRunTool (mkTool "bash" false) "run" VNull
    (fun _ args w => mkExecution [VStr "..."] (Ok (VObj [("ran", get_prop "command" args)])) (S w)).
Definition sample_run := executeToolCall 0 [sample_tool] (mkToolCall "c1" " Exec" (VStr "ls")) 4.
Lemma result_read_back_witness :
  JSON_parse (stringifyToolResult (VObj [("ok", VBool true); ("n", VNum (NFin 150 2))])) =
  Some (VObj [("ok", VBool true); ("n", VNum (NFin 15 1))]).
Proof.
  rewrite (result_read_back [("ok", VBool true); ("n", VNum (NFin 150 2))]); [vm_compute; reflexivity|].
  cbn. split; [by_decide|]. done.
Defined.
