(* ===== verification/ProviderState.v ===== *)
(** * State of a turn

    [src/src/provider/run.ts], [chatWithProvider]: what a turn keeps between its
    steps, and the small monad its steps are written in.  The first fields outlive
    the turn (the world of the tools, the maps of the module, the session files);
    the others are the local variables of the function.  [r_trace] records the
    requests to the provider, the calls of tools and the lines shown. *)

From stdpp Require Import base list sets strings.
From Stdlib Require Import Ascii Lia ZArith.
From S2P Require Import Prelude JsString JsMap JsValue Checkout SessionStore ProviderRoute ProviderText ToolAdapter.

(** What the model is given. *)
Record context := mkContext { cx_systemPrompt : string; cx_tools : list value; cx_messages : list value }.

Inductive phase := pretool | progress.
(** [Ran (Some args) call]: the checkout guard saw [args] and let the call pass;
    [Ran None call]: a call the run makes on its own; [Returned call o]: the call
    has the outcome [o], the refusal of the guard included. *)
Inductive action :=
| Asked (cx : context) (model : value) (apiKey : option string)
| Ran (seen : option value) (call : ToolCall)
| Refused (call : ToolCall) (message : string)
| Returned (call : ToolCall) (o : ExecuteToolCallResult)
| Told (e : event)
| Line (p : phase) (text : string)
| Started (provider model : string).

Section State.
Context {W : Type}.
Record run := mkRun {
  r_world : W; (* what the tools and the vault work on *)
  r_pending : pending_map; (* [pendingMfaBySession] *)
  r_checkout : Checkout.states; (* the checkout workflow of every session *)
  r_sessions : SessionStore.fs; (* the session files *)
  r_cache : cache; (* [localOpenAIModelDiscoveryCache] *)
  r_clock : Z; (* [Date.now()] *)
  r_messages : list value; (* [messages] *)
  r_calls : list string; (* [allToolCalls] *)
  r_outcomes : list ToolOutcome; (* [toolOutcomes] *)
  r_needed : bool; (* [completionVerificationNeeded] *)
  r_satisfied : bool; (* [completionVerificationSatisfied] *)
  r_prompted : bool; (* [completionVerificationPromptSent] *)
  r_login : option LoginState; (* [latestBrowserLoginState] *)
  r_recovery : bool; (* [recoveryPromptSent] *)
  r_final : bool; (* [finalizationPromptSent] *)
  r_empty : bool; (* [emptyReplyRecoveryPromptSent] *)
  r_wait : bool; (* [forceWaitForMfaCode] *)
  r_last : option value; (* [lastAssistant] *)
  r_blocked : option string; (* [checkoutBlockedMessage] *)
  r_guard : option string; (* [compactGuardrailMessage] *)
  r_streak : nat; (* [compactFailureStreak] *)
  r_challenges : list string; (* [challengeScreenshotKeys] *)
  r_identity : nat; (* [identityRetryCount] *)
  r_attempt : nat; (* [providerAttempt] *)
  r_synthetic : nat; (* [syntheticToolCounter] *)
  r_lines : nat; (* [roundProgressCount] *)
  r_trace : list action; (* what was done, in order *)
}.

Definition set_world (x : W) (s : run) : run :=
  mkRun
    x (r_pending s) (r_checkout s) (r_sessions s) (r_cache s) (r_clock s) (r_messages s) (r_calls s) (r_outcomes
    s) (r_needed s) (r_satisfied s) (r_prompted s) (r_login s) (r_recovery s) (r_final s) (r_empty s) (r_wait s)
    (r_last s) (r_blocked s) (r_guard s) (r_streak s) (r_challenges s) (r_identity s) (r_attempt s) (r_synthetic
    s) (r_lines s) (r_trace s).
Definition set_pending (x : pending_map) (s : run) : run :=
  mkRun
    (r_world s) x (r_checkout s) (r_sessions s) (r_cache s) (r_clock s) (r_messages s) (r_calls s) (r_outcomes
    s) (r_needed s) (r_satisfied s) (r_prompted s) (r_login s) (r_recovery s) (r_final s) (r_empty s) (r_wait s)
    (r_last s) (r_blocked s) (r_guard s) (r_streak s) (r_challenges s) (r_identity s) (r_attempt s) (r_synthetic
    s) (r_lines s) (r_trace s).
Definition set_checkout (x : Checkout.states) (s : run) : run :=
  mkRun
    (r_world s) (r_pending s) x (r_sessions s) (r_cache s) (r_clock s) (r_messages s) (r_calls s) (r_outcomes s)
    (r_needed s) (r_satisfied s) (r_prompted s) (r_login s) (r_recovery s) (r_final s) (r_empty s) (r_wait s)
    (r_last s) (r_blocked s) (r_guard s) (r_streak s) (r_challenges s) (r_identity s) (r_attempt s) (r_synthetic
    s) (r_lines s) (r_trace s).
Definition set_sessions (x : SessionStore.fs) (s : run) : run :=
  mkRun
    (r_world s) (r_pending s) (r_checkout s) x (r_cache s) (r_clock s) (r_messages s) (r_calls s) (r_outcomes s)
    (r_needed s) (r_satisfied s) (r_prompted s) (r_login s) (r_recovery s) (r_final s) (r_empty s) (r_wait s)
    (r_last s) (r_blocked s) (r_guard s) (r_streak s) (r_challenges s) (r_identity s) (r_attempt s) (r_synthetic
    s) (r_lines s) (r_trace s).
Definition set_cache (x : cache) (s : run) : run :=
  mkRun
    (r_world s) (r_pending s) (r_checkout s) (r_sessions s) x (r_clock s) (r_messages s) (r_calls s) (r_outcomes
    s) (r_needed s) (r_satisfied s) (r_prompted s) (r_login s) (r_recovery s) (r_final s) (r_empty s) (r_wait s)
    (r_last s) (r_blocked s) (r_guard s) (r_streak s) (r_challenges s) (r_identity s) (r_attempt s) (r_synthetic
    s) (r_lines s) (r_trace s).
Definition set_clock (x : Z) (s : run) : run :=
  mkRun
    (r_world s) (r_pending s) (r_checkout s) (r_sessions s) (r_cache s) x (r_messages s) (r_calls s) (r_outcomes
    s) (r_needed s) (r_satisfied s) (r_prompted s) (r_login s) (r_recovery s) (r_final s) (r_empty s) (r_wait s)
    (r_last s) (r_blocked s) (r_guard s) (r_streak s) (r_challenges s) (r_identity s) (r_attempt s) (r_synthetic
    s) (r_lines s) (r_trace s).
Definition set_messages (x : list value) (s : run) : run :=
  mkRun
    (r_world s) (r_pending s) (r_checkout s) (r_sessions s) (r_cache s) (r_clock s) x (r_calls s) (r_outcomes s)
    (r_needed s) (r_satisfied s) (r_prompted s) (r_login s) (r_recovery s) (r_final s) (r_empty s) (r_wait s)
    (r_last s) (r_blocked s) (r_guard s) (r_streak s) (r_challenges s) (r_identity s) (r_attempt s) (r_synthetic
    s) (r_lines s) (r_trace s).
Definition set_calls (x : list string) (s : run) : run :=
  mkRun
    (r_world s) (r_pending s) (r_checkout s) (r_sessions s) (r_cache s) (r_clock s) (r_messages s) x (r_outcomes
    s) (r_needed s) (r_satisfied s) (r_prompted s) (r_login s) (r_recovery s) (r_final s) (r_empty s) (r_wait s)
    (r_last s) (r_blocked s) (r_guard s) (r_streak s) (r_challenges s) (r_identity s) (r_attempt s) (r_synthetic
    s) (r_lines s) (r_trace s).
Definition set_outcomes (x : list ToolOutcome) (s : run) : run :=
  mkRun
    (r_world s) (r_pending s) (r_checkout s) (r_sessions s) (r_cache s) (r_clock s) (r_messages s) (r_calls s) x
    (r_needed s) (r_satisfied s) (r_prompted s) (r_login s) (r_recovery s) (r_final s) (r_empty s) (r_wait s)
    (r_last s) (r_blocked s) (r_guard s) (r_streak s) (r_challenges s) (r_identity s) (r_attempt s) (r_synthetic
    s) (r_lines s) (r_trace s).
Definition set_needed (x : bool) (s : run) : run :=
  mkRun
    (r_world s) (r_pending s) (r_checkout s) (r_sessions s) (r_cache s) (r_clock s) (r_messages s) (r_calls s)
    (r_outcomes s) x (r_satisfied s) (r_prompted s) (r_login s) (r_recovery s) (r_final s) (r_empty s) (r_wait
    s) (r_last s) (r_blocked s) (r_guard s) (r_streak s) (r_challenges s) (r_identity s) (r_attempt s)
    (r_synthetic s) (r_lines s) (r_trace s).
Definition set_satisfied (x : bool) (s : run) : run :=
  mkRun
    (r_world s) (r_pending s) (r_checkout s) (r_sessions s) (r_cache s) (r_clock s) (r_messages s) (r_calls s)
    (r_outcomes s) (r_needed s) x (r_prompted s) (r_login s) (r_recovery s) (r_final s) (r_empty s) (r_wait s)
    (r_last s) (r_blocked s) (r_guard s) (r_streak s) (r_challenges s) (r_identity s) (r_attempt s) (r_synthetic
    s) (r_lines s) (r_trace s).
Definition set_prompted (x : bool) (s : run) : run :=
  mkRun
    (r_world s) (r_pending s) (r_checkout s) (r_sessions s) (r_cache s) (r_clock s) (r_messages s) (r_calls s)
    (r_outcomes s) (r_needed s) (r_satisfied s) x (r_login s) (r_recovery s) (r_final s) (r_empty s) (r_wait s)
    (r_last s) (r_blocked s) (r_guard s) (r_streak s) (r_challenges s) (r_identity s) (r_attempt s) (r_synthetic
    s) (r_lines s) (r_trace s).
Definition set_login (x : option LoginState) (s : run) : run :=
  mkRun
    (r_world s) (r_pending s) (r_checkout s) (r_sessions s) (r_cache s) (r_clock s) (r_messages s) (r_calls s)
    (r_outcomes s) (r_needed s) (r_satisfied s) (r_prompted s) x (r_recovery s) (r_final s) (r_empty s) (r_wait
    s) (r_last s) (r_blocked s) (r_guard s) (r_streak s) (r_challenges s) (r_identity s) (r_attempt s)
    (r_synthetic s) (r_lines s) (r_trace s).
Definition set_recovery (x : bool) (s : run) : run :=
  mkRun
    (r_world s) (r_pending s) (r_checkout s) (r_sessions s) (r_cache s) (r_clock s) (r_messages s) (r_calls s)
    (r_outcomes s) (r_needed s) (r_satisfied s) (r_prompted s) (r_login s) x (r_final s) (r_empty s) (r_wait s)
    (r_last s) (r_blocked s) (r_guard s) (r_streak s) (r_challenges s) (r_identity s) (r_attempt s) (r_synthetic
    s) (r_lines s) (r_trace s).
Definition set_final (x : bool) (s : run) : run :=
  mkRun
    (r_world s) (r_pending s) (r_checkout s) (r_sessions s) (r_cache s) (r_clock s) (r_messages s) (r_calls s)
    (r_outcomes s) (r_needed s) (r_satisfied s) (r_prompted s) (r_login s) (r_recovery s) x (r_empty s) (r_wait
    s) (r_last s) (r_blocked s) (r_guard s) (r_streak s) (r_challenges s) (r_identity s) (r_attempt s)
    (r_synthetic s) (r_lines s) (r_trace s).
Definition set_empty (x : bool) (s : run) : run :=
  mkRun
    (r_world s) (r_pending s) (r_checkout s) (r_sessions s) (r_cache s) (r_clock s) (r_messages s) (r_calls s)
    (r_outcomes s) (r_needed s) (r_satisfied s) (r_prompted s) (r_login s) (r_recovery s) (r_final s) x (r_wait
    s) (r_last s) (r_blocked s) (r_guard s) (r_streak s) (r_challenges s) (r_identity s) (r_attempt s)
    (r_synthetic s) (r_lines s) (r_trace s).
Definition set_wait (x : bool) (s : run) : run :=
  mkRun
    (r_world s) (r_pending s) (r_checkout s) (r_sessions s) (r_cache s) (r_clock s) (r_messages s) (r_calls s)
    (r_outcomes s) (r_needed s) (r_satisfied s) (r_prompted s) (r_login s) (r_recovery s) (r_final s) (r_empty
    s) x (r_last s) (r_blocked s) (r_guard s) (r_streak s) (r_challenges s) (r_identity s) (r_attempt s)
    (r_synthetic s) (r_lines s) (r_trace s).
Definition set_last (x : option value) (s : run) : run :=
  mkRun
    (r_world s) (r_pending s) (r_checkout s) (r_sessions s) (r_cache s) (r_clock s) (r_messages s) (r_calls s)
    (r_outcomes s) (r_needed s) (r_satisfied s) (r_prompted s) (r_login s) (r_recovery s) (r_final s) (r_empty
    s) (r_wait s) x (r_blocked s) (r_guard s) (r_streak s) (r_challenges s) (r_identity s) (r_attempt s)
    (r_synthetic s) (r_lines s) (r_trace s).
Definition set_blocked (x : option string) (s : run) : run :=
  mkRun
    (r_world s) (r_pending s) (r_checkout s) (r_sessions s) (r_cache s) (r_clock s) (r_messages s) (r_calls s)
    (r_outcomes s) (r_needed s) (r_satisfied s) (r_prompted s) (r_login s) (r_recovery s) (r_final s) (r_empty
    s) (r_wait s) (r_last s) x (r_guard s) (r_streak s) (r_challenges s) (r_identity s) (r_attempt s)
    (r_synthetic s) (r_lines s) (r_trace s).
Definition set_guard (x : option string) (s : run) : run :=
  mkRun
    (r_world s) (r_pending s) (r_checkout s) (r_sessions s) (r_cache s) (r_clock s) (r_messages s) (r_calls s)
    (r_outcomes s) (r_needed s) (r_satisfied s) (r_prompted s) (r_login s) (r_recovery s) (r_final s) (r_empty
    s) (r_wait s) (r_last s) (r_blocked s) x (r_streak s) (r_challenges s) (r_identity s) (r_attempt s)
    (r_synthetic s) (r_lines s) (r_trace s).
Definition set_streak (x : nat) (s : run) : run :=
  mkRun
    (r_world s) (r_pending s) (r_checkout s) (r_sessions s) (r_cache s) (r_clock s) (r_messages s) (r_calls s)
    (r_outcomes s) (r_needed s) (r_satisfied s) (r_prompted s) (r_login s) (r_recovery s) (r_final s) (r_empty
    s) (r_wait s) (r_last s) (r_blocked s) (r_guard s) x (r_challenges s) (r_identity s) (r_attempt s)
    (r_synthetic s) (r_lines s) (r_trace s).
Definition set_challenges (x : list string) (s : run) : run :=
  mkRun
    (r_world s) (r_pending s) (r_checkout s) (r_sessions s) (r_cache s) (r_clock s) (r_messages s) (r_calls s)
    (r_outcomes s) (r_needed s) (r_satisfied s) (r_prompted s) (r_login s) (r_recovery s) (r_final s) (r_empty
    s) (r_wait s) (r_last s) (r_blocked s) (r_guard s) (r_streak s) x (r_identity s) (r_attempt s) (r_synthetic
    s) (r_lines s) (r_trace s).
Definition set_identity (x : nat) (s : run) : run :=
  mkRun
    (r_world s) (r_pending s) (r_checkout s) (r_sessions s) (r_cache s) (r_clock s) (r_messages s) (r_calls s)
    (r_outcomes s) (r_needed s) (r_satisfied s) (r_prompted s) (r_login s) (r_recovery s) (r_final s) (r_empty
    s) (r_wait s) (r_last s) (r_blocked s) (r_guard s) (r_streak s) (r_challenges s) x (r_attempt s)
    (r_synthetic s) (r_lines s) (r_trace s).
Definition set_attempt (x : nat) (s : run) : run :=
  mkRun
    (r_world s) (r_pending s) (r_checkout s) (r_sessions s) (r_cache s) (r_clock s) (r_messages s) (r_calls s)
    (r_outcomes s) (r_needed s) (r_satisfied s) (r_prompted s) (r_login s) (r_recovery s) (r_final s) (r_empty
    s) (r_wait s) (r_last s) (r_blocked s) (r_guard s) (r_streak s) (r_challenges s) (r_identity s) x
    (r_synthetic s) (r_lines s) (r_trace s).
Definition set_synthetic (x : nat) (s : run) : run :=
  mkRun
    (r_world s) (r_pending s) (r_checkout s) (r_sessions s) (r_cache s) (r_clock s) (r_messages s) (r_calls s)
    (r_outcomes s) (r_needed s) (r_satisfied s) (r_prompted s) (r_login s) (r_recovery s) (r_final s) (r_empty
    s) (r_wait s) (r_last s) (r_blocked s) (r_guard s) (r_streak s) (r_challenges s) (r_identity s) (r_attempt
    s) x (r_lines s) (r_trace s).
Definition set_lines (x : nat) (s : run) : run :=
  mkRun
    (r_world s) (r_pending s) (r_checkout s) (r_sessions s) (r_cache s) (r_clock s) (r_messages s) (r_calls s)
    (r_outcomes s) (r_needed s) (r_satisfied s) (r_prompted s) (r_login s) (r_recovery s) (r_final s) (r_empty
    s) (r_wait s) (r_last s) (r_blocked s) (r_guard s) (r_streak s) (r_challenges s) (r_identity s) (r_attempt
    s) (r_synthetic s) x (r_trace s).
Definition set_trace (x : list action) (s : run) : run :=
  mkRun
    (r_world s) (r_pending s) (r_checkout s) (r_sessions s) (r_cache s) (r_clock s) (r_messages s) (r_calls s)
    (r_outcomes s) (r_needed s) (r_satisfied s) (r_prompted s) (r_login s) (r_recovery s) (r_final s) (r_empty
    s) (r_wait s) (r_last s) (r_blocked s) (r_guard s) (r_streak s) (r_challenges s) (r_identity s) (r_attempt
    s) (r_synthetic s) (r_lines s) x.

(** ** Steps

    A step changes the state and returns a value or throws; what it changed before
    throwing stays changed. *)
Definition step (A : Type) : Type := run -> run * result A.
Definition ret {A} (a : A) : step A := fun s => (s, Ok a).
Definition throw {A} (msg : string) : step A := fun s => (s, Throw msg).
Definition sbind {A B} (m : step A) (k : A -> step B) : step B :=
  fun s => match m s with
           | (s', Ok a) => k a s'
           | (s', Throw e) => (s', Throw e)
           end.
Definition get {A} (f : run -> A) : step A := fun s => (s, Ok (f s)).
Definition modify (f : run -> run) : step unit := fun s => (f s, Ok tt).
Definition lift {A} (r : result A) : step A := fun s => (s, r).
Definition note (a : action) : step unit := modify (fun s => set_trace (r_trace s ++ [a]) s).
Definition say (message : value) : step unit := modify (fun s => set_messages (r_messages s ++ [message]) s).
(** [try { m } catch { return d }] *)
Definition attempt_or {A} (d : A) (m : step A) : step A :=
  fun s => match m s with (s', Ok a) => (s', Ok a) | (s', Throw _) => (s', Ok d) end.
Definition unless (b : bool) (m : step unit) : step unit := if b then ret tt else m.
Definition only_if (b : bool) (m : step unit) : step unit := if b then m else ret tt.
Fixpoint each {A} (f : A -> step unit) (l : list A) : step unit :=
  match l with [] => ret tt | x :: l' => sbind (f x) (fun _ => each f l') end.
End State.
Arguments run W : clear implicits.
Arguments step W A : clear implicits.

Notation "'let!' x := m 'in' k" := (sbind m (fun x => k))
  (at level 10, x pattern, m at level 100, k at level 200) : t560_scope.
Notation "m ;; k" := (sbind m (fun _ => k)) (at level 100, k at level 200, right associativity) : t560_scope.

(** ** Lemmas *)

Lemma sbind_ok {W A B} (m : step W A) (k : A -> step W B) s s' b :
  sbind m k s = (s', Ok b) <-> exists s1 a, m s = (s1, Ok a) /\ k a s1 = (s', Ok b).
Proof. unfold sbind. destruct (m s) as [s1 [a|e]]; naive_solver. Qed.

Lemma lift_ok {W A} (r : result A) (s s' : run W) a : lift r s = (s', Ok a) -> s' = s /\ r = Ok a.
Proof. unfold lift. intros E. split; [exact (eq_sym (f_equal fst E))|exact (f_equal snd E)]. Qed.
Lemma ret_ok {W A} (x : A) (s s' : run W) a : ret x s = (s', Ok a) -> s' = s /\ a = x.
Proof.
  unfold ret. intros E. split; [exact (eq_sym (f_equal fst E))|]. apply (f_equal snd) in E. cbn [snd] in E.
  exact (eq_sym (f_equal (fun r => match r with Ok y => y | Throw _ => x end) E)).
Qed.

(** A relation between the states before and after every step of a program. *)
Definition follows {W A} (R : run W -> run W -> Prop) (m : step W A) : Prop := forall s, R s (m s).1.
Lemma follows_bind {W A B} (R : run W -> run W -> Prop) (m : step W A) (k : A -> step W B) :
  (forall a b c, R a b -> R b c -> R a c) -> follows R m -> (forall a, follows R (k a)) -> follows R (sbind m k).
Proof.
  intros T M K s. unfold sbind. specialize (M s). destruct (m s) as [s1 [a|e]]; [|done]. cbn in M. eapply T; [exact M|apply K].
Qed.
Lemma follows_ret {W A} (R : run W -> run W -> Prop) (a : A) : (forall s, R s s) -> follows R (ret a).
Proof. intros H s. apply H. Qed.
Lemma follows_get {W A} (R : run W -> run W -> Prop) (f : run W -> A) : (forall s, R s s) -> follows R (get f).
Proof. intros H s. apply H. Qed.
Lemma follows_each {W A} (R : run W -> run W -> Prop) (f : A -> step W unit) l :
  (forall s, R s s) -> (forall a b c, R a b -> R b c -> R a c) -> (forall x, follows R (f x)) -> follows R (each f l).
Proof. intros Re Tr H. induction l as [|x l IH]; [by apply follows_ret|]. cbn. by apply follows_bind. Qed.
