(* ===== verification/ProviderSites.v ===== *)
(** * Saved sites

    [src/src/provider/run.ts], fourth part: which service of the vault a message
    or the last page is about, and the page a checkout step acts on.  The vault is
    used through [VaultService]; [url_of] stands for the URL constructor. *)

From stdpp Require Import base list sets strings.
From Stdlib Require Import Ascii Lia ZArith.
From S2P Require Import Prelude JsString JsMap JsValue JsRegex JsRegexExec Vault SetupFlow ProviderRoute ProviderText.
#[local] Open Scope nat_scope.

(** [credential ? ... : ...] of [getCredential] *)
Definition is_found (f : found) : bool := match f with NoRecord => false | Found _ | Hollow => true end.
(** [String(credential?.websiteUrl ?? "")] *)
Definition website_of (f : found) : string := match f with Found r => default "" (websiteUrl r) | _ => "" end.
(** [host.split(".")[0]] *)
Definition first_label (host : string) : string := default "" (head (split_char "." host)).
Definition token_char (c : ascii) : bool :=
  is_lower c || is_digit c || (code c =? 46) || (code c =? 95) || (code c =? 45).

Section Sites.
Context {W : Type} `{VaultService W}.
Variable url_of : string -> option url.

Definition isGenericServiceName (service : string) : bool :=
  bool_decide (default "" (vs_normalize service) ∈ ["email"; "mail"; "x.com"]).
Definition inferTargetUrlFromService (service : string) : option string :=
  match vs_normalize service with
  | Some n => if negb (truthy n) || negb (includes "." n) then None else Some ("https://" +:+ n)
  | None => None
  end.

(** The set filled by [add] or [push]. *)
Definition candidate_set (names : list string) : list string := dedup (List.filter truthy (omap vs_normalize names)).
Definition host_and_label (host : string) : list string := host :: (if truthy (first_label host) then [first_label host] else []).
Definition url_names (u : string) : list string :=
  match url_of u with
  | Some parsed =>
      let host := strip_www (toLowerCase (trim (u_hostname parsed))) in
      if truthy host then host_and_label host else []
  | None => []
  end.
Definition token_names (message : string) : list string :=
  List.filter (fun t => (3 <=? slen t) && (includes "-" t || includes "." t || test (re_ "vault|bank|finance|account|mail") t))
    (map of_chars (split_list (fun c => negb (token_char c)) (chars (toLowerCase message)))).
Definition message_candidates (message : string) : list string :=
  candidate_set (flat_map url_names (extractHttpUrlsFromText url_of message) ++
                 flat_map host_and_label (extractLikelyDomainsFromText message) ++ token_names message).

(** The first service with a credential. *)
Fixpoint first_saved (services : list string) (w : W) : result (option string) :=
  match services with
  | [] => Ok None
  | s :: rest => let? f := vs_get s w in if is_found f then Ok (Some s) else first_saved rest w
  end.
Fixpoint first_mentioned (fingerprint : string) (services : list string) (w : W) : result (option string) :=
  match services with
  | [] => Ok None
  | s :: rest =>
      if isGenericServiceName s then first_mentioned fingerprint rest w
      else
        let mentioned t := (8 <=? slen t) && includes t fingerprint in
        if mentioned (normalizeServiceFingerprint s) then Ok (Some s)
        else
          let? f := vs_get s w in
          if mentioned (normalizeServiceFingerprint (default "" (hostFromWebsiteUrl url_of (website_of f)))) then Ok (Some s)
          else first_mentioned fingerprint rest w
  end.
Definition resolveSavedServiceFromUserMessage (message : string) (w : W) : result (option string * W) :=
  let? saved := first_saved (message_candidates message) w in
  match saved with
  | Some s => Ok (Some s, w)
  | None =>
      let fingerprint := normalizeServiceFingerprint (join_dotted message) in
      if negb (truthy fingerprint) then Ok (None, w)
      else
        let? configured := vs_list w in
        let? found := first_mentioned fingerprint configured.2 configured.1 in
        Ok (found, configured.1)
  end.

(** ** Pages in the outcomes *)

Definition outcome_links (content : string) : list string :=
  match parseJsonRecord content with
  | None => []
  | Some parsed =>
      List.filter truthy
        [text_field (get_prop "url" parsed); text_field (opt_prop "url" (getNestedRecord parsed "snapshot"));
         text_field (opt_prop "url" (getNestedRecord parsed "tab")); text_field (opt_prop "url" (getNestedRecord parsed "openedSnapshot"))]
  end.
Definition extractHostFromBrowserOutcomeContent (content : string) : option string :=
  head (omap (fun raw => match url_of raw with
                         | Some u => let host := toLowerCase (trim (u_hostname u)) in
                                     if truthy host then Some (if startsWith "www." host then slice_from 4 host else host) else None
                         | None => None
                         end) (outcome_links content)).
Definition extractUrlFromBrowserOutcomeContent (content : string) : option string :=
  head (omap (fun raw => match url_of raw with Some u => if truthy (u_href u) then Some (u_href u) else None | None => None end)
             (outcome_links content)).
Definition browser_outcomes (outcomes : list ToolOutcome) : list ToolOutcome := rev (List.filter (outcome_is false "browser") outcomes).
Definition latestBrowserUrlFromToolOutcomes (outcomes : list ToolOutcome) : option string :=
  head (omap (fun o => u ← extractUrlFromBrowserOutcomeContent (to_content o); if truthy u then Some u else None) (browser_outcomes outcomes)).
Definition enrichCheckoutArgsWithPageContext (toolName : string) (toolArgs : value) (outcomes : list ToolOutcome) : value :=
  if negb (name_key toolName =? "browser")%string then toolArgs
  else
    match toolArgs with
    | VObj ps =>
        let action := arg_key "action" toolArgs in
        if negb (truthy action) || negb (bool_decide (action ∈ ["click"; "submit"; "act"; "press"])) then toolArgs
        else if existsb (fun k => truthy (trim (arg_text k toolArgs))) ["currentUrl"; "currentPageUrl"; "url"; "targetUrl"] then toolArgs
        else match latestBrowserUrlFromToolOutcomes outcomes with
             | Some u => spread toolArgs [("currentPageUrl", VStr u)]
             | None => toolArgs
             end
    | _ => toolArgs
    end.
Definition buildServiceCandidatesFromHost (host : string) : list string :=
  let normalizedHost := strip_www (toLowerCase (trim host)) in
  if negb (truthy normalizedHost) then [] else candidate_set (host_and_label normalizedHost).
Fixpoint saved_for_outcomes (outcomes : list ToolOutcome) (w : W) : result (option string) :=
  match outcomes with
  | [] => Ok None
  | o :: rest =>
      match extractHostFromBrowserOutcomeContent (to_content o) with
      | None => saved_for_outcomes rest w
      | Some host =>
          let? s := first_saved (if truthy host then buildServiceCandidatesFromHost host else []) w in
          match s with Some x => Ok (Some x) | None => saved_for_outcomes rest w end
      end
  end.
Definition resolveSavedServiceFromBrowserOutcomes (outcomes : list ToolOutcome) (w : W) : result (option string) :=
  saved_for_outcomes (browser_outcomes outcomes) w.
End Sites.

(** ** Properties *)

Lemma first_saved_found {W} `{VaultService W} services w s :
  first_saved services w = Ok (Some s) -> s ∈ services /\ exists f, vs_get s w = Ok f /\ is_found f = true.
Proof.
  induction services as [|x l IH]; cbn; [done|]. destruct (vs_get x w) as [f|] eqn:E; [|done]. cbn [rbind]. destruct (is_found f) eqn:F.
  - intros [= <-]. split; [by left|]. eauto.
  - intros [I G]%IH. split; [by right|done].
Qed.
Lemma first_mentioned_in {W} `{VaultService W} url_of fp services w s :
  first_mentioned url_of fp services w = Ok (Some s) -> s ∈ services /\ isGenericServiceName s = false.
Proof.
  induction services as [|x l IH]; cbn [first_mentioned]; [done|]. destruct (isGenericServiceName x) eqn:G; [intros [I E]%IH; split; [by right|done]|].
  destruct (_ && _); [intros [= <-]; split; [by left|done]|]. destruct (vs_get x w) as [f|]; [|done]. cbn [rbind].
  destruct (_ && _); [intros [= <-]; split; [by left|done]|]. intros [I E]%IH. split; [by right|done].
Qed.
(** The service a run signs in to is one the vault has: a name of the message
    with a credential, or a configured service the message mentions that is not a
    general one. *)
Theorem saved_service_known {W} `{VaultService W} url_of message w s w' :
  resolveSavedServiceFromUserMessage url_of message w = Ok (Some s, w') ->
  (s ∈ message_candidates url_of message /\ exists f, vs_get s w = Ok f /\ is_found f = true) \/
  (exists configured, vs_list w = Ok (w', configured) /\ s ∈ configured /\ isGenericServiceName s = false).
Proof.
  unfold resolveSavedServiceFromUserMessage. destruct (first_saved _ w) as [[x|]|] eqn:F; cbn [rbind]; [| |done].
  - intros [= <- <-]. left. by apply first_saved_found.
  - destruct (negb _); [done|]. destruct (vs_list w) as [[w1 configured]|]; [|done]. cbn [rbind fst snd].
    destruct (first_mentioned _ _ _ _) as [o|] eqn:M; [|done]. cbn [rbind]. intros [= -> <-]. right. exists configured.
    apply first_mentioned_in in M. done.
Qed.

#[local] Existing Instance sample_service.
Definition saved_world : Vault.world :=
  match vs_set (mkInput "example.com" "bob" "hunter2" (Some password) None None None None) (mkWorld [] None) with
  | Ok (w, _) => w
  | Throw _ => mkWorld [] None
  end.
Lemma saved_service_known_witness :
  let message := "log in to example.com please" in
  resolveSavedServiceFromUserMessage (fun _ => None) message saved_world = Ok (Some "example.com", saved_world) /\
  ("example.com" ∈ message_candidates (fun _ => None) message /\ (exists f, vs_get "example.com" saved_world = Ok f /\ is_found f = true) \/
   exists configured, vs_list saved_world = Ok (saved_world, configured) /\ "example.com" ∈ configured /\ isGenericServiceName "example.com" = false).
Proof.
  intros message. assert (resolveSavedServiceFromUserMessage (fun _ => None) message saved_world = Ok (Some "example.com", saved_world)) as R
    by (vm_compute; reflexivity).
  split; [exact R|]. exact (saved_service_known (fun _ => None) message saved_world "example.com" saved_world R).
Defined.
