(* ===== verification/ProviderRun.v ===== *)
(** * The run of a turn

    [src/src/provider/run.ts], [chatWithProvider]: the rounds of a turn.  A round
    asks the provider, runs the tools it calls and adds their results to the
    messages; a reply without tool calls ends the turn or is answered with an
    instruction.

    [services] holds what is outside: the environment, the URL constructor, the
    model library, the network, the files, the clock of every call.  [sv_complete]
    gives for the n-th request when it settles, if ever, and with what; an answer
    at or after the time limit is not waited for.  A tool call has a timing in the
    same way; [tm_world] is what an abandoned call has done by then.  One turn runs
    at a time. *)

From stdpp Require Import base list sets strings pretty.
From Stdlib Require Import Ascii Lia ZArith.
From S2P Require Import Prelude JsString JsMap JsValue JsRegex JsRegexExec NodePath ToolPolicy Checkout SessionStore Vault SetupFlow.
From S2P Require Import MemoryStore MemoryTools Config ChatService ProviderRoute Ecommerce ProviderText ProviderProgress ProviderSites ToolSchema Skills.
From S2P Require Import SystemPrompt ToolAdapter ProviderState.
#[local] Open Scope nat_scope.
#[local] Open Scope t560_scope.

(** ** Outside *)

Record timing (W : Type) := mkTiming {
  tm_settles : option N; (* when the call settles *)
  tm_world : W; (* the world at the limit when it has not settled *)
  tm_updates : nat; (* how many partial results came before the limit *)
}.
Arguments mkTiming {W}. Arguments tm_settles {W}. Arguments tm_world {W}. Arguments tm_updates {W}.

Record services (W : Type) := mkServices {
  sv_env : list (string * string);
  sv_cwd : string;
  sv_home : string;
  sv_url_of : string -> option url;
  sv_canonical_url : string -> option url_parts;
  sv_date_parse : string -> num;
  sv_locale_lt : string -> string -> bool;
  sv_getProviders : list string;
  sv_getModels : string -> option (list value);
  sv_getModel : string -> string -> option value;
  sv_fetch : string -> list (string * string) -> option value * N; (* the answer and its time *)
  sv_complete : nat -> value -> context -> option string -> option N * result value;
  sv_timing : ToolCall -> W -> timing W;
  sv_tools : T560Config -> list (@Tool W);
  sv_skills : skills_dir;
  sv_read : string -> option string;
  sv_uuid : nat -> string;
  sv_memory : W -> MemoryStore.file;
  sv_set_memory : MemoryStore.file -> W -> W;
}.
Arguments sv_env {W}. Arguments sv_cwd {W}. Arguments sv_home {W}. Arguments sv_url_of {W}. Arguments sv_canonical_url {W}.
Arguments sv_date_parse {W}. Arguments sv_locale_lt {W}. Arguments sv_getProviders {W}. Arguments sv_getModels {W}.
Arguments sv_getModel {W}. Arguments sv_fetch {W}. Arguments sv_complete {W}. Arguments sv_timing {W}. Arguments sv_tools {W}.
Arguments sv_skills {W}. Arguments sv_read {W}. Arguments sv_uuid {W}. Arguments sv_memory {W}. Arguments sv_set_memory {W}.

(** ** What a turn is set up with *)

Record plan (W : Type) := mkPlan {
  p_message : string; (* [params.message] *)
  p_channel : GatewayChannelId;
  p_session : string;
  p_route : string; (* [params.target.provider] *)
  p_runtime : string; (* [typedProvider] *)
  p_baseUrl : option string; (* [normalizedBaseUrl] *)
  p_apiKey : option string; (* [requestApiKey] *)
  p_modelId : string; (* [resolvedModelId] *)
  p_modelDef : value;
  p_available : list string; (* [discoveredLocalModels] *)
  p_compact : bool;
  p_tools : list (@Tool W);
  p_definitions : list value; (* [toolDefinitions] *)
  p_prompt : string; (* [systemPrompt] *)
  p_reminders : list (string * string); (* [toolSkillReminders] *)
  p_intent : IdentityIntent;
  p_anchors : IdentityAnchors;
  p_saved : option string; (* [savedServiceFromMessage] *)
  p_auto : bool; (* [!pendingMfa && autoAuthIntent] *)
  p_force : bool; (* [forceToolUse] *)
}.
Arguments p_message {W}. Arguments p_channel {W}. Arguments p_session {W}. Arguments p_route {W}. Arguments p_runtime {W}.
Arguments p_baseUrl {W}. Arguments p_apiKey {W}. Arguments p_modelId {W}. Arguments p_modelDef {W}. Arguments p_available {W}.
Arguments p_compact {W}. Arguments p_tools {W}. Arguments p_definitions {W}. Arguments p_prompt {W}. Arguments p_reminders {W}.
Arguments p_intent {W}. Arguments p_anchors {W}. Arguments p_saved {W}. Arguments p_auto {W}. Arguments p_force {W}.

Definition user_message (text : string) (now : Z) : value :=
  VObj [("role", VStr "user"); ("content", VStr text); ("timestamp", VNum (NInt now))].
(** [Math.round(ms / 1000)] *)
Definition whole_seconds (ms : Z) : Z := ((ms + 500) / 1000)%Z.

Section Run.
Context {W : Type} `{VaultService W}.
Variable sv : services W.
Variable pl : plan W.
Notation step := (step W).

Definition tool_names : list string := map rt_name (p_tools pl).
Definition maxToolRounds : nat := if p_compact pl then COMPACT_MODE_MAX_TOOL_ROUNDS else MAX_TOOL_ROUNDS.
Definition toolResultContextMaxChars : Z := resolveToolResultContextMaxChars (sv_env sv) (p_compact pl).
Definition hostname_of (s : string) : option string := option_map u_hostname (sv_url_of sv s).
Definition providerTimeoutMs : Z := resolveProviderTimeoutMs (sv_env sv) hostname_of (name_key (p_route pl)) (p_baseUrl pl).
Definition toolExecutionTimeoutMs : Z := resolveToolExecutionTimeoutMs (sv_env sv).
Definition modelBaseUrl : string := match get_prop "baseUrl" (p_modelDef pl) with VStr s => s | _ => "" end.
Definition identityQuestion : bool := askAssistant (p_intent pl) || askUser (p_intent pl).

(** [messages.push({role: "user", content, timestamp: Date.now()})] *)
Definition instruct (text : string) : step unit := let! now := get r_clock in say (user_message text now).

(** ** Requests *)

Definition requestAssistant (cx : context) : step value :=
  lift (assertSystemPromptHasIdentityFiles (cx_systemPrompt cx)) ;;
  modify (fun s => set_attempt (S (r_attempt s)) s) ;;
  let! n := get r_attempt in
  note (Asked cx (p_modelDef pl) (p_apiKey pl)) ;;
  let '(settles, outcome) := sv_complete sv n (p_modelDef pl) cx (p_apiKey pl) in
  let endpointHint := if truthy modelBaseUrl then " endpoint=" +:+ modelBaseUrl else "" in
  let timeout :=
    modify (fun s => set_clock (r_clock s + providerTimeoutMs)%Z s) ;;
    throw ("Provider request timed out after " +:+ pretty (whole_seconds providerTimeoutMs) +:+ "s." +:+ endpointHint) in
  match settles with
  | Some t => if (Z.of_N t <? providerTimeoutMs)%Z then modify (fun s => set_clock (r_clock s + Z.of_N t)%Z s) ;; lift outcome else timeout
  | None => timeout
  end.

(** ** Tools *)

Definition emitAssistantProgress (text : string) (ph : phase) : step unit :=
  let trimmed := trim text in unless (negb (truthy trimmed)) (note (Line ph trimmed)).
Definition emit_some (o : option string) (ph : phase) : step unit :=
  match o with Some t => only_if (truthy t) (emitAssistantProgress t ph) | None => ret tt end.

(** [runWithHardTimeout({operation: executeToolCall(...), ...})] and its [catch] *)
Definition runTool (seen : option value) (call : ToolCall) : step ExecuteToolCallResult :=
  note (Ran seen call) ;;
  let! now := get r_clock in
  let! w := get r_world in
  let! o :=
    match find_tool (p_tools pl) (tc_name call) with
    | None => ret (executeToolCall now (p_tools pl) call w).1.1
    | Some tool =>
        let tm := sv_timing sv call w in
        let timed_out :=
          let message := "Tool '" +:+ tc_name call +:+ "' timed out after " +:+ pretty (whole_seconds toolExecutionTimeoutMs) +:+ "s." in
          modify (fun s => set_world (tm_world tm) (set_clock (now + toolExecutionTimeoutMs)%Z s)) ;;
          each (fun e => note (Told e)) (firstn (S (tm_updates tm)) (removelast (executeToolCall now (p_tools pl) call w).1.2)) ;;
          note (Told (OnEnd (tc_id call) (tc_name call) (VStr message) true (Some message))) ;;
          ret (mkExecuted true message) in
        match tm_settles tm with
        | Some t =>
            if (Z.of_N t <? toolExecutionTimeoutMs)%Z then
              let '(res, events, w') := executeToolCall (now + Z.of_N t)%Z (p_tools pl) call w in
              modify (fun s => set_world w' (set_clock (now + Z.of_N t)%Z s)) ;;
              each (fun e => note (Told e)) events ;;
              ret res
            else timed_out
        | None => timed_out
        end
    end in
  note (Returned call o) ;;
  ret o.

Definition registerCompletionVerificationSignal (toolName : string) (args : value) (isError : bool) : step unit :=
  let normalized := name_key toolName in
  unless (isError || negb (truthy normalized))
    (only_if (toolCallMutatesState normalized args)
       (modify (fun s => set_prompted false (set_satisfied false (set_needed true s)))) ;;
     let! needed := get r_needed in
     only_if (needed && toolCallVerifiesState normalized args) (modify (set_satisfied true))).
Definition add_outcome (toolName : string) (o : ExecuteToolCallResult) : step unit :=
  modify (fun s => set_outcomes (r_outcomes s ++ [mkToolOutcome toolName (xr_isError o) (xr_content o)]) s).
Definition update_pending (args : value) (o : ExecuteToolCallResult) : step unit :=
  modify (fun s => set_pending (updatePendingMfaStateFromBrowserTool (p_session pl) args (xr_content o) (xr_isError o) (r_clock s)
                                  (r_pending s)) s).
(** [if (parsed) latestBrowserLoginState = parsed] *)
Definition note_login (content : string) : step unit :=
  match parseBrowserLoginState content with Some st => modify (set_login (Some st)) | None => ret tt end.

(** The tab a challenge is on, and whether there is one. *)
Definition challenge_tab (toolArgs : value) (o : ExecuteToolCallResult) : option string :=
  let args := if is_object toolArgs then toolArgs else VObj [] in
  let action := normalizeBrowserActionName (get_prop "action" args) in
  let st := parseBrowserChallengeState (xr_content o) in
  let looksLikeChallengeError :=
    xr_isError o && bool_decide (action ∈ ["login"; "challenge"; "open"; "click"; "act"]) &&
    outcomeLooksLikeHumanVerificationError (xr_content o) in
  if negb (ch_detected st) && negb looksLikeChallengeError then None
  else Some (text_field (nullish (get_prop "tabId" args) (match ch_tabId st with Some t => VStr t | None => VNull end))).
Definition challenge_key (tab : string) : string := if truthy tab then "tab:" +:+ tab else "tab:active".
Definition screenshot_args (tab : string) : value :=
  VObj ([("action", VStr "screenshot")] ++ (if truthy tab then [("tabId", VStr tab)] else []) ++
        [("engine", VStr "live"); ("allowEngineFallback", VBool true); ("reason", VStr "captcha_challenge")]).
(** [run] takes the screenshot. *)
Definition maybeCaptureCaptchaScreenshotForTelegram (run : string -> value -> step ExecuteToolCallResult) (toolArgs : value)
    (o : ExecuteToolCallResult) : step unit :=
  match p_channel pl, challenge_tab toolArgs o with
  | telegram_channel, Some tab =>
      let! keys := get r_challenges in
      unless (bool_decide (challenge_key tab ∈ keys))
        (modify (set_challenges (keys ++ [challenge_key tab])) ;;
         let! _ := run "browser" (screenshot_args tab) in ret tt)
  | _, _ => ret tt
  end.

(** A call of the run's own, up to the state of the browser after it. *)
Definition startSynthetic (toolName : string) (args : value) : step ExecuteToolCallResult :=
  let! now := get r_clock in
  let! n := get r_synthetic in
  let call := mkToolCall ("auto-" +:+ pretty now +:+ "-" +:+ pretty n) toolName args in
  modify (set_synthetic (S n)) ;;
  let tool := name_key toolName in
  emit_some (summarizeArgsForProgress (sv_url_of sv) tool args) pretool ;;
  let! o := runTool None call in
  modify (fun s => set_calls (r_calls s ++ [toolName]) s) ;;
  add_outcome toolName o ;;
  registerCompletionVerificationSignal toolName args (xr_isError o) ;;
  emit_some (summarizeOutcomeForProgress (sv_url_of sv) tool (xr_content o) (xr_isError o)) progress ;;
  only_if (tool =? "browser")%string (update_pending args o) ;;
  ret o.
(** A screenshot of one challenge can show another; the keys stop the third
    ([screenshots_end]). *)
Fixpoint runSynthetic (fuel : nat) (toolName : string) (args : value) : step ExecuteToolCallResult :=
  let! o := startSynthetic toolName args in
  match fuel with
  | 0 => ret tt
  | S fuel' => only_if (name_key toolName =? "browser")%string (maybeCaptureCaptchaScreenshotForTelegram (runSynthetic fuel') args o)
  end ;;
  only_if ((name_key toolName =? "browser")%string && negb (xr_isError o) && (arg_key "action" args =? "login")%string)
    (note_login (xr_content o)) ;;
  ret o.
Definition SCREENSHOT_DEPTH : nat := 3.
Definition runSyntheticToolCall : string -> value -> step ExecuteToolCallResult := runSynthetic SCREENSHOT_DEPTH.
Definition capture : value -> ExecuteToolCallResult -> step unit := maybeCaptureCaptchaScreenshotForTelegram runSyntheticToolCall.

(** ** Signing in before the rounds *)

Definition live : list (string * value) := [("engine", VStr "live"); ("allowEngineFallback", VBool true)].
Definition login_args (service : string) : value := VObj ([("action", VStr "login"); ("service", VStr service)] ++ live).
Definition mailbox_args (action service : string) : value :=
  VObj [("action", VStr action); ("service", VStr service); ("limit", VNum (NInt 8)); ("includeBody", VBool true); ("markSeen", VBool false)].
Definition opt_text (k : string) (o : option string) : list (string * value) :=
  match o with Some t => if truthy t then [(k, VStr t)] else [] | None => [] end.
Definition mfa_args (code : string) (pending : option PendingMfaSession) : value :=
  VObj ([("action", VStr "mfa"); ("code", VStr code)] ++ opt_text "tabId" (p ← pending; pm_tabId p) ++
        opt_text "service" (p ← pending; pm_service p) ++ live).
(** [for (const action of ["list_unread", "read_recent"])] *)
Fixpoint mailbox_code (actions : list string) (service : string) : step (option string) :=
  match actions with
  | [] => ret None
  | action :: rest =>
      let! o := runSyntheticToolCall "email" (mailbox_args action service) in
      match (if xr_isError o then None else extractLikelyOneTimeCodeFromEmailOutcome (xr_content o)) with
      | Some code => ret (Some code)
      | None => mailbox_code rest service
      end
  end.
Definition pending_now : step (option PendingMfaSession) := let! m := get r_pending in ret (mget (p_session pl) m).

(** [savedServiceFromMessage] when it is not empty *)
Definition saved_service : option string := s ← p_saved pl; non_empty s.
(** Whether the login succeeded ([autoAuthLoginSucceeded]). *)
Definition autoLogin : step bool :=
  match (if p_auto pl then saved_service else None) with
  | None => ret false
  | Some service =>
      let target := match extractTargetUrlFromMessage (sv_url_of sv) (p_message pl) with
                    | Some u => Some u
                    | None => inferTargetUrlFromService service
                    end in
      match target with
      | Some u => let! _ := runSyntheticToolCall "browser" (VObj ([("action", VStr "open"); ("url", VStr u)] ++ live)) in ret tt
      | None => ret tt
      end ;;
      let! login := runSyntheticToolCall "browser" (login_args service) in
      if xr_isError login then ret false
      else
        note_login (xr_content login) ;;
        let mfa := parseBrowserMfaState (xr_content login) in
        only_if (ms_requiresMfa mfa)
          (let! pending := pending_now in
           let! code := match ms_sourceService mfa with
                        | Some source => if ms_sourceAvailable mfa && hasTool tool_names "email"
                                         then mailbox_code ["list_unread"; "read_recent"] source else ret None
                        | None => ret None
                        end in
           match code with
           | Some c => let! _ := runSyntheticToolCall "browser" (mfa_args c pending) in ret tt
           | None => ret tt
           end ;;
           let! still := pending_now in
           only_if (match still with Some _ => true | None => false end) (modify (set_wait true))) ;;
        ret true
  end.
Definition beforeRounds : step bool :=
  let! loggedIn := autoLogin in
  let! login := get r_login in
  only_if (loggedIn && match login with Some st => negb (ls_submitted st) && ls_mfaExpected st | None => false end)
    (instruct (join " "
      ["System instruction: vault login filled the identifier but code request is not confirmed as submitted yet.";
       "Continue in browser on current tab and trigger the non-social email/code submit action.";
       "Do not ask for credentials; ask only for one-time code after submission is confirmed."])) ;;
  let! wait := get r_wait in
  only_if (loggedIn && negb wait)
    (instruct (join " "
      ["System instruction: Automatic vault-backed browser login steps have already run in runtime for this request.";
       "Continue from the current browser tab/session and do not ask the user for credentials.";
       "If MFA is encountered, request only the one-time code or use configured mailbox retrieval."])) ;;
  modify (fun s => set_checkout (beginCheckoutWorkflowTurn (p_session pl) (p_message pl) (r_clock s) (r_checkout s)).1 s) ;;
  ret loggedIn.

(** ** A reply without tool calls *)

Definition FINALIZE : string :=
  "System instruction: provide the final user-facing answer now using only verified tool results already produced in this session. Do not call tools. Include the best direct URL when available.".
Definition saved_service_instruction (service : string) : string :=
  join " " ["System instruction: secure credentials already exist for the current site.";
    "Do not ask the user for email, username, or password.";
    "Immediately call browser action=" +:+ quoted "login" +:+ " with service=" +:+ quoted service +:+
      " on the current tab and fill identifier from vault.";
    "If MFA is required, ask only for the one-time code."].
Definition empty_reply_instruction : string :=
  if p_force pl && hasLikelyLogoutIntent (p_message pl) then buildLogoutToolForceInstruction
  else if p_force pl then "System instruction: your previous response was empty. Execute the required tools now, then provide a complete user-facing answer."
  else "System instruction: your previous response was empty. Provide a complete, non-empty user-facing answer now.".
Definition force_instruction : string :=
  if hasLikelyLogoutIntent (p_message pl) then buildLogoutToolForceInstruction
  else "System instruction: this request requires real tool execution. Use tools now and only report verified outcomes from tool results.".

(** The saved service when the reply asks for an identifier. *)
Definition serviceForIdentifier (text : string) : step (option string) :=
  if autoAuthSite (sv_url_of sv) (p_message pl) && assistantIsAskingForIdentifier text then
    let! calls := get r_calls in
    let! outcomes := get r_outcomes in
    let! w := get r_world in
    match saved_service with
    | Some s => ret (Some s)
    | None => if 0 <? length calls
              then let! found := lift (resolveSavedServiceFromBrowserOutcomes (sv_url_of sv) outcomes w) in
                   ret (s ← found; non_empty s)
              else ret None
    end
  else ret None.
(** [true] for [continue], [false] for [break] *)
Definition answerWithoutTools (round : nat) (text : string) : step bool :=
  let! retries := get r_identity in
  if identityQuestion && (retries <? 2) && negb (isIdentityAnswerGrounded text (p_anchors pl) (p_intent pl)) then
    modify (set_identity (S retries)) ;; instruct (buildIdentityGroundingInstruction (p_intent pl) (p_anchors pl)) ;; ret true
  else
    let! service := serviceForIdentifier text in
    match service with
    | Some svc => instruct (saved_service_instruction svc) ;; ret true
    | None =>
        let! s := get (fun s => s) in
        if negb (r_satisfied s) && negb (r_prompted s) then
          modify (set_prompted true) ;; instruct buildCompletionVerificationInstruction ;; ret true
        else if negb (truthy text) && negb (r_empty s) then
          modify (set_empty true) ;; instruct empty_reply_instruction ;; ret true
        else if negb (truthy text) && negb (r_final s) && (0 <? length (r_calls s)) then
          modify (set_final true) ;; instruct FINALIZE ;; ret true
        else if (round =? 0) && p_force pl then instruct force_instruction ;; ret true
        else if negb (r_recovery s) &&
                shouldAttemptWebRecovery (sv_url_of sv) tool_names (p_message pl) (r_outcomes s) (mhas (p_session pl) (r_pending s)) then
          modify (set_recovery true) ;; instruct (buildWebRecoveryInstruction tool_names) ;; ret true
        else ret false
    end.

(** ** Tool calls *)

Definition call_of (block : value) : ToolCall := mkToolCall (str_prop "id" block) (str_prop "name" block) (get_prop "arguments" block).
Definition calls_of_reply (assistant : value) : list ToolCall :=
  map call_of (List.filter (fun b => (block_type b =? "toolCall")%string) (array_items (get_prop "content" assistant))).

Definition emitRoundProgress (text : string) (ph : phase) : step unit :=
  let! n := get r_lines in
  unless (LIVE_PROGRESS_LINES_PER_ROUND <=? n)
    (let trimmed := clipProgressText (cleanProgressLine text) LIVE_PROGRESS_LINE_MAX in
     unless (negb (truthy trimmed) || isGenericProgressLine trimmed)
       (emitAssistantProgress trimmed ph ;; modify (set_lines (S n)))).
Definition round_line (o : option string) (ph : phase) : step unit :=
  match o with Some t => only_if (truthy t) (emitRoundProgress t ph) | None => ret tt end.
Definition round_phase (round : nat) : phase := if round =? 0 then pretool else progress.

(** The guard, and the call unless it is refused. *)
Definition guardedCall (call : ToolCall) : step ExecuteToolCallResult :=
  let! outcomes := get r_outcomes in
  let args := enrichCheckoutArgsWithPageContext (sv_url_of sv) (tc_name call) (tc_arguments call) outcomes in
  let! now := get r_clock in
  let! states := get r_checkout in
  let '(states', decision) := enforceCheckoutWorkflow (p_session pl) (tc_name call) args now states in
  modify (set_checkout states') ;;
  match decision with
  | Blocked message _ =>
      modify (set_blocked (Some message)) ;;
      note (Refused call message) ;;
      note (Told (OnStart (tc_id call) (tc_name call) (if is_object (tc_arguments call) then tc_arguments call else VObj []))) ;;
      note (Told (OnEnd (tc_id call) (tc_name call) (VStr message) true (Some message))) ;;
      note (Returned call (mkExecuted true message)) ;;
      ret (mkExecuted true message)
  | Allowed _ _ => runTool (Some args) call
  end.

(** After a login: [true] when the loop over the calls goes on. *)
Definition afterLogin (content : string) : step bool :=
  note_login content ;;
  let mfa := parseBrowserMfaState content in
  if ms_requiresMfa mfa then
    let! pending := pending_now in
    match ms_sourceService mfa with
    | Some source =>
        if ms_sourceAvailable mfa && hasTool (tool_names) "email"
        then instruct (buildAutoMfaFromEmailInstruction source pending) else modify (set_wait true)
    | None => modify (set_wait true)
    end ;;
    ret false
  else ret true.
Definition tool_result (call : ToolCall) (o : ExecuteToolCallResult) (now : Z) : value :=
  VObj [("role", VStr "toolResult"); ("toolCallId", VStr (tc_id call)); ("toolName", VStr (tc_name call));
        ("content", VArr [VObj [("type", VStr "text"); ("text", VStr (clampTextForModelContext (xr_content o) (toolResultContextMaxChars)))]]);
        ("isError", VBool (xr_isError o)); ("timestamp", VNum (NInt now))].
(** [toolSkillReminders[name]] when it is not empty; an inherited member has a text. *)
Definition reminder_for (name : string) : option string :=
  match obj_lookup name (p_reminders pl) with
  | Own t => non_empty t
  | Inherited => Some (inherited_text name)
  | Missing => None
  end.
Definition GUARDRAIL : string :=
  "I stopped after repeated tool failures to protect the local runtime. Tell me one narrower next step and I will continue.".
(** The result in the messages, the reminder and the guards: [true] when the loop goes on. *)
Definition afterCall (call : ToolCall) (o : ExecuteToolCallResult) : step bool :=
  let tool := name_key (tc_name call) in
  let! now := get r_clock in
  say (tool_result call o now) ;;
  match reminder_for tool with
  | Some t => instruct (join newline ["System instruction: tool " +:+ quoted tool +:+ " was just used.";
                                      "Continue by following this tool-specific guidance:"; t])
  | None => ret tt
  end ;;
  let! stop :=
    (if p_compact pl then
       modify (fun s => set_streak (if xr_isError o then S (r_streak s) else 0) s) ;;
       let! streak := get r_streak in
       if 3 <=? streak then modify (set_guard (Some GUARDRAIL)) ;; ret true else ret false
     else ret false) in
  let! blocked := get r_blocked in
  ret (negb stop && negb (truthy_opt blocked)).

Definition toolStep (round : nat) (call : ToolCall) : step bool :=
  let tool := name_key (tc_name call) in
  round_line (summarizeArgsForProgress (sv_url_of sv) tool (tc_arguments call)) (round_phase round) ;;
  modify (fun s => set_calls (r_calls s ++ [tc_name call]) s) ;;
  let! o := guardedCall call in
  add_outcome (tc_name call) o ;;
  registerCompletionVerificationSignal (tc_name call) (toToolArgsRecord (tc_arguments call)) (xr_isError o) ;;
  round_line (summarizeOutcomeForProgress (sv_url_of sv) tool (xr_content o) (xr_isError o)) progress ;;
  let! go_on :=
    (if (tool =? "browser")%string then
       update_pending (tc_arguments call) o ;;
       capture (tc_arguments call) o ;;
       let action := arg_key "action" (if is_object (tc_arguments call) then tc_arguments call else VObj []) in
       if negb (xr_isError o) && (action =? "login")%string then afterLogin (xr_content o) else ret true
     else ret true) in
  if go_on then afterCall call o else ret false.
Fixpoint toolSteps (round : nat) (calls : list ToolCall) : step unit :=
  match calls with
  | [] => ret tt
  | call :: rest => let! go_on := toolStep round call in if go_on then toolSteps round rest else ret tt
  end.

(** ** Rounds *)

(** [true] when another round follows. *)
Definition oneRound (round : nat) : step bool :=
  modify (set_lines 0) ;;
  let! final := get r_final in
  let! msgs := get r_messages in
  let! assistant := requestAssistant (mkContext (p_prompt pl) (if final then [] else p_definitions pl) msgs) in
  say assistant ;;
  modify (set_last (Some assistant)) ;;
  let calls := calls_of_reply assistant in
  let text := fl_text (flattenAssistantMessage assistant) in
  match calls with
  | [] => answerWithoutTools round text
  | _ =>
      only_if (truthy text) (round_line (selectAssistantProgressText text) (round_phase round)) ;;
      toolSteps round calls ;;
      let! s := get (fun s => s) in
      ret (negb (r_wait s) && negb (truthy_opt (r_blocked s)) && negb (truthy_opt (r_guard s)))
  end.
(** [fuel] rounds are left; the next one is [round]. *)
Fixpoint rounds (fuel round : nat) : step unit :=
  match fuel with
  | 0 => ret tt
  | S fuel' =>
      let! wait := get r_wait in
      unless wait (let! go_on := oneRound round in if go_on then rounds fuel' (S round) else ret tt)
  end.
Definition allRounds : step unit := rounds (maxToolRounds) 0.

(** ** After the rounds *)

Definition retryLogin (loggedIn : bool) : step unit :=
  let! s := get (fun s => s) in
  only_if (negb (r_wait s) && loggedIn && match r_login s with Some st => ls_mfaExpected st && negb (ls_submitted st) | None => false end)
    (let! service := match saved_service with
                     | Some svc => ret (Some svc)
                     | None => lift (resolveSavedServiceFromBrowserOutcomes (sv_url_of sv) (r_outcomes s) (r_world s))
                     end in
     match s ← service; non_empty s with
     | None => ret tt
     | Some svc =>
         let! o := runSyntheticToolCall "browser" (login_args svc) in
         unless (xr_isError o)
           (note_login (xr_content o) ;;
            let! still := pending_now in
            only_if (ms_requiresMfa (parseBrowserMfaState (xr_content o)) && match still with Some _ => true | None => false end)
              (modify (set_wait true)))
     end).
Definition reply_text (o : option value) : string :=
  match o with Some a => fl_text (flattenAssistantMessage a) | None => "" end.
(** The reply the turn ends with. *)
Definition lastReply : step value :=
  let! last := get r_last in
  let! wait := get r_wait in
  match last with
  | Some a => ret a
  | None =>
      if wait then
        let! now := get r_clock in
        let a := VObj [("role", VStr "assistant"); ("content", VArr [VObj [("type", VStr "text"); ("text", VStr "")]]);
                       ("timestamp", VNum (NInt now))] in
        modify (set_last (Some a)) ;; ret a
      else throw "Provider did not return an assistant response."
  end.
Definition finalRequest : step unit :=
  let! s := get (fun s => s) in
  only_if (negb (r_wait s) && (0 <? length (r_calls s)) && negb (truthy (reply_text (r_last s))))
    (attempt_or tt
       (instruct FINALIZE ;;
        let! msgs := get r_messages in
        let! a := requestAssistant (mkContext (p_prompt pl) [] msgs) in
        say a ;; modify (set_last (Some a)))).
Definition saveSession : step unit :=
  modify (fun s => set_sessions
    (saveSessionMessages (resolveStateDir (sv_env sv) (sv_cwd sv) (sv_home sv)) (p_session pl) (r_messages s) (r_sessions s)) s).

(** ** The answer *)

Definition waiting_message (login : option LoginState) : string :=
  match login with
  | Some (mkLoginState true _ _ (Some id)) =>
      "I filled the saved sign-in email (" +:+ id +:+ ") and sent the one-time code request. Send me the code and I will enter it immediately."
  | Some (mkLoginState true _ _ None) =>
      "I used your saved vault credentials and sent the one-time code request. Send me the code and I will enter it immediately."
  | Some (mkLoginState false _ _ (Some id)) =>
      "I filled the saved sign-in email (" +:+ id +:+ ") and reached the one-time code step. Send me the code and I will enter it immediately."
  | _ => "I reached the one-time code step with saved credentials. Send me the code and I will enter it immediately."
  end.
Definition relay_message (st : LoginState) : string :=
  match ls_submitted st, ls_identifier st with
  | true, Some id => "I filled " +:+ id +:+ " and sent the one-time code request. Send me the code and I will enter it immediately."
  | true, None => "I sent the one-time code request. Send me the code and I will enter it immediately."
  | false, Some id => "I filled " +:+ id +:+ ", but the send-code click is not confirmed yet. Tell me to retry and I will trigger it again."
  | false, None => "The send-code click is not confirmed yet. Tell me to retry and I will trigger it again."
  end.
Definition NOT_DONE : string :=
  join newline ["I could not complete this action because no verification steps were completed.";
                "I will only claim completion after direct verification confirms results."].
Definition NOT_VERIFIED : string :=
  join newline ["I cannot claim this task is complete yet.";
    "A state-changing step ran, but a direct post-action verification step has not completed successfully.";
    "Tell me to continue and I will run verification before finalizing."].
Definition errors_of (outcomes : list ToolOutcome) : list ToolOutcome := List.filter to_isError outcomes.
Definition successes_of (outcomes : list ToolOutcome) : list ToolOutcome := List.filter (fun o => negb (to_isError o)) outcomes.
Definition success_summary (outcomes : list ToolOutcome) : string :=
  if 0 <? length (successes_of outcomes) then "Verified steps completed: " +:+ pretty (length (successes_of outcomes)) else "".
Definition error_summary (outcomes : list ToolOutcome) : string :=
  join newline (map (fun o => "- " +:+ summarizeToolContent (to_content o)) (firstn 4 (errors_of outcomes))).
Definition when_blank (m other : string) : string := if truthy (trim m) then m else other.

(** The message, each line replacing it in turn: first what the reply gives, then
    what the run knows. *)
Definition draftMessage (s : run W) (a : value) : string :=
  let flattened := fl_text (flattenAssistantMessage a) in
  let stopReason := name_key (to_string (nullish (get_prop "stopReason" a) (VStr ""))) in
  let errored := bool_decide (stopReason ∈ ["error"; "aborted"]) in
  let errorMessage := text_field (get_prop "errorMessage" a) in
  let used := 0 <? length (r_calls s) in
  let m := if identityQuestion then stripIdentityReasoningLeak flattened else flattened in
  let m := if r_wait s then waiting_message (r_login s) else m in
  let m := match r_login s with
           | Some st => if negb (r_wait s) && ls_mfaExpected st && assistantRefusedOtpRelay m && autoAuthSite (sv_url_of sv) (p_message pl)
                        then relay_message st else m
           | None => m
           end in
  let m := if negb (r_wait s) && negb (truthy flattened) && used
           then buildToolOnlyFallbackMessage (sv_canonical_url sv) (p_message pl) (successes_of (r_outcomes s)) (errors_of (r_outcomes s)) else m in
  let m := if p_force pl && negb used && (errored || negb (truthy (trim m))) then NOT_DONE else m in
  let m := if negb (truthy (trim m)) && errored && truthy errorMessage
           then formatProviderRuntimeFailure (p_route pl) (p_modelId pl) (non_empty modelBaseUrl) errorMessage (p_available pl) else m in
  when_blank m
             (if used
              then join newline (List.filter truthy ["I completed verification but did not receive a final textual summary from the model.";
                                                     success_summary (r_outcomes s)])
              else "I could not generate a non-empty response for this request. Please retry and I will continue from the current session state.").
Definition failure_message (outcomes : list ToolOutcome) : string :=
  join newline (List.filter truthy
    ["I completed this request with verification failures, so you should not trust any unstated success claims.";
     "No successful verification steps were confirmed."; "Errors:"; error_summary outcomes]).
Definition blocked_message (blocked : string) (s : run W) : string :=
  join newline (List.filter truthy
    [blocked;
     match describeCheckoutWorkflowState (p_session pl) (r_clock s) (r_checkout s) with
     | Some status => if truthy status then "Workflow state: " +:+ status else ""
     | None => ""
     end;
     "If you want me to continue with checkout, send: confirm purchase"]).
Definition finalMessage (s : run W) (a : value) : string :=
  let m := draftMessage s a in
  let m := if negb (r_wait s) && r_needed s && negb (r_satisfied s) then NOT_VERIFIED else m in
  let m := if (0 <? length (errors_of (r_outcomes s))) && (length (successes_of (r_outcomes s)) =? 0)
           then failure_message (r_outcomes s) else m in
  let m := match r_blocked s with Some blocked => if truthy blocked then blocked_message blocked s else m | None => m end in
  match r_guard s with Some g => if truthy g then g else m | None => m end.

Definition candidate_value (c : AutoMemoryCandidate) : value :=
  VObj [("title", VStr (am_title c)); ("content", VStr (am_content c)); ("tags", VArr (map VStr (am_tags c)))].
Definition maybeAutoSaveMemoryFromUserMessage (skip : bool) : step unit :=
  unless (skip || negb (isAutoMemoryEnabled (sv_env sv)))
    (each (fun ic =>
       let! now := get r_clock in
       modify (fun s => set_world
         (sv_set_memory sv (memory_save (sv_date_parse sv) (buildMemoryToolsContext (sv_cwd sv) (sv_cwd sv) (sv_env sv)) now
                              (sv_uuid sv ic.1) (candidate_value ic.2) (sv_memory sv (r_world s))).1 (r_world s)) s))
       (imap pair (extractAutoMemoryCandidates (p_message pl)))).
Definition used_memory_tool (calls : list string) : bool := existsb (fun n => bool_decide (name_key n ∈ memory_writes)) calls.

(** What comes before the transcript is saved, and what comes after. *)
Definition exchange : step unit :=
  let! loggedIn := beforeRounds in
  allRounds ;;
  retryLogin loggedIn ;;
  let! _ := lastReply in
  finalRequest.
Definition finish : step ProviderReply :=
  saveSession ;;
  let! s := get (fun s => s) in
  let a := default VUndef (r_last s) in
  maybeAutoSaveMemoryFromUserMessage (used_memory_tool (r_calls s)) ;;
  ret (mkReply (finalMessage s a) (fl_thinking (flattenAssistantMessage a)) [] (p_runtime pl) (p_modelId pl)).
Definition turn : step ProviderReply := exchange ;; finish.
End Run.
