(* ===== verification/ProviderRunFacts.v ===== *)
(** * What a run keeps

    Facts about [ProviderRun]: a relation between the states before and after
    every step (the trace and the messages grow, the sessions stay, the clock does
    not go back, requests are those of the plan), and what follows for a turn. *)

From stdpp Require Import base list sets strings pretty.
From Stdlib Require Import Ascii Lia ZArith.
From S2P Require Import Prelude JsString JsMap JsValue JsRegexExec ToolPolicy Checkout SessionStore Vault SetupFlow.
From S2P Require Import Config ChatService ProviderRoute ProviderText ProviderProgress ProviderSites ToolSchema SystemPrompt ToolAdapter ProviderState ProviderRun.
#[local] Open Scope nat_scope.
#[local] Open Scope t560_scope.

Section Facts.
Context {W : Type} `{VaultService W}.
Variable sv : services W.
Variable pl : plan W.

(** A request of the plan. *)
Definition as_planned (a : action) : Prop :=
  match a with
  | Asked cx model key =>
      cx_systemPrompt cx = p_prompt pl /\ (cx_tools cx = [] \/ cx_tools cx = p_definitions pl) /\
      model = p_modelDef pl /\ key = p_apiKey pl
  | _ => True
  end.
(** The guard saw no purchase in what was let through. *)
Definition riskless (a : action) : Prop :=
  match a with Ran (Some args) call => detectCheckoutRisk (tc_name call) args = None | _ => True end.
Definition is_ask (a : action) : bool := match a with Asked _ _ _ => true | _ => false end.
Definition asks (l : list action) : nat := length (List.filter is_ask l).
(** No confirmation of the session is valid and the message gives none. *)
Definition unconfirmed (s : run W) : Prop :=
  (0 <= r_clock s /\ confirmedUntil (getState (p_session pl) (r_checkout s)).1 <= r_clock s)%Z /\
  verdict_of (p_message pl) <> Confirms.

(** What at most [n] requests leave of a state. *)
Record advances (n : nat) (s s' : run W) : Prop := {
  av_trace : exists new, r_trace s' = r_trace s ++ new /\ Forall as_planned new /\ asks new <= n /\
             (unconfirmed s -> unconfirmed s' /\ Forall riskless new);
  av_messages : exists new, r_messages s' = r_messages s ++ new;
  av_sessions : r_sessions s' = r_sessions s;
  av_guard : r_guard s' = r_guard s \/ r_guard s' = Some GUARDRAIL;
  av_clock : (r_clock s <= r_clock s')%Z;
  av_pending : truthy (p_session pl) = true -> pending_ok (r_pending s) -> pending_ok (r_pending s');
}.
Lemma advances_refl s : advances 0 s s.
Proof.
  split; try done; try (by left); by exists []; rewrite app_nil_r.
Qed.
Lemma advances_trans a b s1 s2 s3 : advances a s1 s2 -> advances b s2 s3 -> advances (a + b) s1 s3.
Proof.
  intros [(n1 & T1 & F1 & A1 & U1) (m1 & M1) S1 G1 C1 P1] [(n2 & T2 & F2 & A2 & U2) (m2 & M2) S2 G2 C2 P2]. split.
  - exists (n1 ++ n2). rewrite T2, T1, app_assoc. split_and!; [done|by apply Forall_app| |].
    + unfold asks in *. rewrite List.filter_app, length_app. lia.
    + intros U. destruct (U1 U) as [V R1], (U2 (proj1 (U1 U))) as [V2 R2]. split; [done|by apply Forall_app].
  - exists (m1 ++ m2). by rewrite M2, M1, app_assoc.
  - congruence.
  - destruct G2 as [->|]; auto.
  - lia.
  - auto.
Qed.
Lemma advances_mono a b s1 s2 : a <= b -> advances a s1 s2 -> advances b s1 s2.
Proof. intros L [(n & T & F & A & U) M S G C P]. split; try done. exists n. split_and!; [done|done|lia|done]. Qed.

Notation keeps n m := (follows (advances n) m).
Lemma keeps_bind {A B} a b (m : step W A) (k : A -> step W B) :
  keeps a m -> (forall x, keeps b (k x)) -> keeps (a + b) (sbind m k).
Proof.
  intros M K s. unfold sbind. specialize (M s). destruct (m s) as [s1 [x|e]]; cbn in M.
  - eapply advances_trans; [exact M|apply K].
  - eapply advances_mono; [|exact M]. lia.
Qed.
Lemma advances_bind {A B} (m : step W A) (k : A -> step W B) s :
  advances 0 s (m s).1 -> (forall x, keeps 0 (k x)) -> advances 0 s (sbind m k s).1.
Proof. intros M K. unfold sbind. destruct (m s) as [s1 [x|e]]; cbn in M; [|done]. exact (advances_trans 0 0 _ _ _ M (K x s1)). Qed.
Lemma keeps_mono {A} a b (m : step W A) : a <= b -> keeps a m -> keeps b m.
Proof. intros L M s. eapply advances_mono; [exact L|apply M]. Qed.
Lemma keeps_bind0 {A B} (m : step W A) (k : A -> step W B) : keeps 0 m -> (forall x, keeps 0 (k x)) -> keeps 0 (sbind m k).
Proof. apply (keeps_bind 0 0). Qed.
Lemma keeps_ret {A} (x : A) : keeps 0 (@ret W A x). Proof. intros s. apply advances_refl. Qed.
Lemma keeps_get {A} (f : run W -> A) : keeps 0 (get f). Proof. intros s. apply advances_refl. Qed.
Lemma keeps_lift {A} (r : result A) : keeps 0 (@lift W A r). Proof. intros s. apply advances_refl. Qed.
Lemma keeps_throw {A} e : keeps 0 (@throw W A e). Proof. intros s. apply advances_refl. Qed.
Lemma keeps_only b m : keeps 0 m -> keeps 0 (only_if b m).
Proof. destruct b; [done|intros _; apply keeps_ret]. Qed.
Lemma keeps_unless b m : keeps 0 m -> keeps 0 (unless b m).
Proof. destruct b; [intros _; apply keeps_ret|done]. Qed.
Lemma keeps_each {A} (f : A -> step W unit) l : (forall x, keeps 0 (f x)) -> keeps 0 (each f l).
Proof. intros F. induction l as [|x l IH]; [apply keeps_ret|]. by apply keeps_bind0. Qed.
Lemma keeps_attempt {A} n (d : A) m : keeps n m -> keeps n (attempt_or d m).
Proof. intros M s. unfold attempt_or. specialize (M s). by destruct (m s) as [s1 [x|e]]. Qed.
Lemma keeps_note a : as_planned a -> is_ask a = false -> riskless a -> keeps 0 (note a).
Proof.
  intros P A R s. split; try done; try (by left); try (by exists []; rewrite app_nil_r). exists [a].
  split_and!; [done|by constructor|unfold asks; cbn; by rewrite A|]. intros U. split; [done|by constructor].
Qed.
Lemma keeps_say v : keeps 0 (say v).
Proof.
  intros s. split; try done; try (by left); [|by exists [v]]. exists []. rewrite app_nil_r. split_and!; [done|constructor|done|].
  intros U. split; [done|constructor].
Qed.
(** A change of a variable that the relation does not watch. *)
Lemma keeps_modify f :
  (forall s, r_trace (f s) = r_trace s /\ r_messages (f s) = r_messages s /\ r_sessions (f s) = r_sessions s /\
     (r_guard (f s) = r_guard s \/ r_guard (f s) = Some GUARDRAIL) /\ (r_clock s <= r_clock (f s))%Z /\
     (truthy (p_session pl) = true -> pending_ok (r_pending s) -> pending_ok (r_pending (f s))) /\ r_checkout (f s) = r_checkout s) ->
  keeps 0 (modify f).
Proof.
  intros F s. destruct (F s) as (T & M & S & G & C & P & K). split; cbn; try done.
  - exists []. rewrite T, app_nil_r. split_and!; [done|constructor|done|]. unfold unconfirmed. rewrite K. intros [U V]. split; [split; [lia|done]|constructor].
  - exists []. by rewrite M, app_nil_r.
Qed.

Ltac keep_one :=
  match goal with
  | |- follows _ (sbind _ _) => apply keeps_bind0; [|intros ?]
  | |- follows _ (ret _) => apply keeps_ret
  | |- follows _ (get _) => apply keeps_get
  | |- follows _ (lift _) => apply keeps_lift
  | |- follows _ (throw _) => apply keeps_throw
  | |- follows _ (only_if _ _) => apply keeps_only
  | |- follows _ (unless _ _) => apply keeps_unless
  | |- follows _ (say _) => apply keeps_say
  | |- follows _ (each _ _) => apply keeps_each; intros ?
  | |- follows _ (note _) => apply keeps_note; [done|done|done]
  | |- follows _ (modify _) => apply keeps_modify; intros ?; cbn; split_and!; first [done|lia|by left|by right|by intros|by auto using update_pending_ok]
  | |- follows _ (if ?b then _ else _) => destruct b
  | |- follows _ (match ?x with _ => _ end) => destruct x
  | |- follows _ (let '_ := ?x in _) => destruct x
  end.
Ltac keep := repeat (keep_one; cbv zeta beta).

Lemma keeps_instruct text : keeps 0 (instruct text).
Proof. unfold instruct. keep. Qed.
Lemma keeps_emit text ph : keeps 0 (emitAssistantProgress text ph).
Proof. unfold emitAssistantProgress. keep. Qed.
Lemma keeps_emit_some o ph : keeps 0 (emit_some o ph).
Proof. unfold emit_some. keep. apply keeps_emit. Qed.
Lemma keeps_register n args e : keeps 0 (registerCompletionVerificationSignal n args e).
Proof. unfold registerCompletionVerificationSignal. keep. Qed.
Lemma keeps_add n o : keeps 0 (add_outcome n o).
Proof. unfold add_outcome. keep. Qed.
Lemma keeps_update args o : keeps 0 (update_pending pl args o).
Proof. unfold update_pending. keep. Qed.
Lemma keeps_note_login c : keeps 0 (note_login c).
Proof. unfold note_login. keep. Qed.

Lemma provider_limit_positive : (0 < providerTimeoutMs sv pl)%Z.
Proof.
  unfold providerTimeoutMs, resolveProviderTimeoutMs.
  match goal with |- (0 < limit_from ?e ?a ?b ?l ?h ?f)%Z => assert (l <= limit_from e a b l h f <= h)%Z as L end.
  - apply limit_from_bounds; [by vm_compute|]. case_match; [|by vm_compute].
    assert (MIN_LOCAL_PROVIDER_TIMEOUT_MS <= limit_from (sv_env sv) "T560_PROVIDER_TIMEOUT_LOCAL_SEC" "T560_PROVIDER_TIMEOUT_LOCAL_MS"
      MIN_LOCAL_PROVIDER_TIMEOUT_MS MAX_PROVIDER_TIMEOUT_MS DEFAULT_LOCAL_PROVIDER_TIMEOUT_MS <= MAX_PROVIDER_TIMEOUT_MS)%Z as X
      by (apply limit_from_bounds; by vm_compute).
    cbv [MIN_LOCAL_PROVIDER_TIMEOUT_MS MIN_PROVIDER_TIMEOUT_MS MAX_PROVIDER_TIMEOUT_MS] in *. lia.
  - cbv [MIN_PROVIDER_TIMEOUT_MS MAX_PROVIDER_TIMEOUT_MS] in *. lia.
Qed.
Lemma tool_limit_positive : (0 < toolExecutionTimeoutMs sv)%Z.
Proof.
  unfold toolExecutionTimeoutMs, resolveToolExecutionTimeoutMs.
  match goal with |- (0 < limit_from ?e ?a ?b ?l ?h ?f)%Z => assert (l <= limit_from e a b l h f <= h)%Z as L by (apply limit_from_bounds; by vm_compute) end.
  cbv [MIN_TOOL_TIMEOUT_MS MAX_TOOL_TIMEOUT_MS] in *. lia.
Qed.

Lemma keeps_request cx :
  cx_systemPrompt cx = p_prompt pl -> cx_tools cx = [] \/ cx_tools cx = p_definitions pl -> keeps 1 (requestAssistant sv pl cx).
Proof.
  intros P T. unfold requestAssistant. apply (keeps_bind 0 1); [keep|]. intros _. apply (keeps_bind 0 1); [keep|]. intros _.
  apply (keeps_bind 0 1); [keep|]. intros n. apply (keeps_bind 1 0).
  - intros s. split; try done; try (by left); [|by exists []; rewrite app_nil_r]. exists [Asked cx (p_modelDef pl) (p_apiKey pl)].
    split_and!; [done|by apply Forall_singleton|done|]. intros U. split; [done|by apply Forall_singleton].
  - intros _. pose proof provider_limit_positive. keep.
Qed.

(** The effects of a tool call, whatever comes of it; the guard's verdict is
    needed for a call that it let through. *)
Lemma run_tool_advances seen call s :
  as_planned (Ran seen call) -> (unconfirmed s -> riskless (Ran seen call)) -> advances 0 s (runTool sv pl seen call s).1.
Proof.
  intros O R. unfold runTool. pose proof tool_limit_positive as L.
  assert (advances 0 s (set_trace (r_trace s ++ [Ran seen call]) s)) as A.
  { split; try done; try (by left); [|by exists []; rewrite app_nil_r]. exists [Ran seen call].
    split_and!; [done|by apply Forall_singleton|done|]. intros U. split; [done|]. by apply Forall_singleton, R. }
  match goal with |- advances 0 s (sbind (note _) ?k s).1 => assert (forall s1, advances 0 s1 (k tt s1).1) as K end.
  { intros s1. cbv beta. unfold sbind at 1, get at 1. cbn [fst snd]. unfold sbind at 1, get at 1. cbn [fst snd].
    apply advances_bind; [|intros o; keep]. destruct (find_tool _ _) as [tool|]; [|apply keeps_ret].
    assert (forall w d, (0 <= d)%Z -> advances 0 s1 (set_world w (set_clock (r_clock s1 + d)%Z s1))) as M.
    { intros w d D. apply (keeps_modify (fun s => set_world w (set_clock (r_clock s + d)%Z s))). intros s2. cbn. split_and!; auto; lia. }
    assert (forall {T} w d (k : step W T), (0 <= d)%Z -> keeps 0 k ->
      advances 0 s1 (sbind (modify (fun s => set_world w (set_clock (r_clock s1 + d)%Z s))) (fun _ => k) s1).1) as B.
    { intros T w d k D Kk. unfold sbind, modify. apply (advances_trans 0 0 _ (set_world w (set_clock (r_clock s1 + d)%Z s1))); [by apply M|apply Kk]. }
    destruct (tm_settles _) as [t|]; [destruct (_ <? _)%Z|].
    - destruct (executeToolCall _ _ _ _) as [[res events] w']. apply B; [lia|]. keep.
    - apply B; [lia|]. keep.
    - apply B; [lia|]. keep. }
  exact (advances_trans 0 0 _ _ _ A (K _)).
Qed.
Lemma keeps_run_tool call : keeps 0 (runTool sv pl None call).
Proof. intros s. by apply run_tool_advances. Qed.

Lemma keeps_capture run args o : (forall n a, keeps 0 (run n a)) -> keeps 0 (maybeCaptureCaptchaScreenshotForTelegram pl run args o).
Proof. intros R. unfold maybeCaptureCaptchaScreenshotForTelegram. keep. apply R. Qed.
Lemma keeps_start n args : keeps 0 (startSynthetic sv pl n args).
Proof. unfold startSynthetic. keep; auto using keeps_emit_some, keeps_run_tool, keeps_add, keeps_register, keeps_update. Qed.
Lemma keeps_synthetic fuel n args : keeps 0 (runSynthetic sv pl fuel n args).
Proof.
  revert n args. induction fuel as [|fuel IH]; intros n args; cbn [runSynthetic]; keep;
    auto using keeps_start, keeps_note_login, keeps_capture.
Qed.
Lemma keeps_synthetic_call n args : keeps 0 (runSyntheticToolCall sv pl n args).
Proof. apply keeps_synthetic. Qed.
Lemma keeps_captured args o : keeps 0 (capture sv pl args o).
Proof. apply keeps_capture. apply keeps_synthetic_call. Qed.
Lemma keeps_pending_now : keeps 0 (pending_now pl).
Proof. unfold pending_now. keep. Qed.
Lemma keeps_mailbox l svc : keeps 0 (mailbox_code sv pl l svc).
Proof. induction l as [|a l IH]; cbn [mailbox_code]; keep; auto using keeps_synthetic_call. Qed.
Hint Resolve keeps_instruct keeps_emit_some keeps_run_tool keeps_add keeps_register keeps_update keeps_note_login keeps_synthetic_call
  keeps_captured keeps_pending_now keeps_mailbox : keeps.
Lemma keeps_auto : keeps 0 (autoLogin sv pl).
Proof. unfold autoLogin. keep; auto with keeps. Qed.
Lemma keeps_service text : keeps 0 (serviceForIdentifier sv pl text).
Proof. unfold serviceForIdentifier. keep; auto with keeps. Qed.
Hint Resolve keeps_service : keeps.
Lemma keeps_answer n text : keeps 0 (answerWithoutTools sv pl n text).
Proof. unfold answerWithoutTools. keep; auto with keeps. Qed.
Lemma keeps_round_line o ph : keeps 0 (round_line o ph).
Proof. unfold round_line, emitRoundProgress. keep; auto using keeps_emit. Qed.
Lemma keeps_after_login c : keeps 0 (afterLogin pl c).
Proof. unfold afterLogin. keep; auto with keeps. Qed.
Lemma keeps_after_call call o : keeps 0 (afterCall sv pl call o).
Proof. unfold afterCall. keep; auto with keeps. Qed.
Hint Resolve keeps_round_line keeps_after_login keeps_after_call keeps_answer : keeps.

Lemma enforce_unconfirmed session tool args now m :
  (0 <= now)%Z -> (confirmedUntil (getState session m).1 <= now)%Z ->
  let r := enforceCheckoutWorkflow session tool args now m in
  (confirmedUntil (getState session r.1).1 <= now)%Z.
Proof.
  intros N C r. unfold r, enforceCheckoutWorkflow. destruct (getState session m) as [st m0]. cbn [fst] in C.
  assert (confirmedUntil (expire now st) <= now)%Z as E by (unfold expire; destruct (_ <=? _)%Z; cbn; lia).
  destruct (detectCheckoutRisk tool args) as [risk|].
  - assert ((now <? confirmedUntil (expire now st))%Z = false) as -> by (apply Z.ltb_ge; lia). unfold getState. cbn [fst snd].
    rewrite mget_mset_eq. cbn. lia.
  - unfold getState. cbn [fst snd]. by rewrite mget_mset_eq.
Qed.
Lemma enforce_passes session tool args now m states confirmed st :
  enforceCheckoutWorkflow session tool args now m = (states, Allowed confirmed st) ->
  (confirmedUntil (getState session states).1 <= now)%Z -> detectCheckoutRisk tool args = None.
Proof.
  unfold enforceCheckoutWorkflow. destruct (getState session m) as [st0 m0]. destruct (detectCheckoutRisk tool args) as [risk|]; [|done].
  destruct (_ <? _)%Z eqn:E; [|done]. intros [= <- _ _]. unfold getState. rewrite mget_mset_eq. cbn. bool_prop. lia.
Qed.
Lemma advances_checkout states s :
  (unconfirmed s -> confirmedUntil (getState (p_session pl) states).1 <= r_clock s)%Z -> advances 0 s (set_checkout states s).
Proof.
  intros U. split; try done; try (by left); [|by exists []; rewrite app_nil_r]. exists []. rewrite app_nil_r.
  split_and!; [done|constructor|done|]. intros V. split; [|constructor]. split; [split; [apply V|by apply U]|apply V].
Qed.
Lemma keeps_guarded call : keeps 0 (guardedCall sv pl call).
Proof.
  intros s. unfold guardedCall. do 3 (unfold sbind at 1, get at 1). cbn [fst snd].
  set (args := enrichCheckoutArgsWithPageContext _ _ _ _).
  pose proof (enforce_unconfirmed (p_session pl) (tc_name call) args (r_clock s) (r_checkout s)) as E.
  destruct (enforceCheckoutWorkflow _ _ _ _ _) as [states decision] eqn:D. cbn [fst snd] in E.
  unfold sbind at 1, modify at 1. apply (advances_trans 0 0 _ (set_checkout states s)).
  { apply advances_checkout. intros [[N C] _]. by apply E. }
  destruct decision as [confirmed st|message st].
  - apply run_tool_advances; [done|]. intros [[_ U] _]. cbn. eapply enforce_passes; [exact D|done].
  - clear D E. match goal with |- advances 0 ?x (?m ?x).1 => assert (keeps 0 m) as K end; [keep|apply K].
Qed.
Hint Resolve keeps_guarded : keeps.
Lemma keeps_tool_step n call : keeps 0 (toolStep sv pl n call).
Proof. unfold toolStep. keep; auto with keeps. Qed.
Lemma keeps_tool_steps n calls : keeps 0 (toolSteps sv pl n calls).
Proof. induction calls as [|c l IH]; cbn [toolSteps]; keep; auto using keeps_tool_step. Qed.
Hint Resolve keeps_tool_steps : keeps.
Lemma keeps_round n : keeps 1 (oneRound sv pl n).
Proof.
  unfold oneRound. do 3 (apply (keeps_bind 0 1); [keep|intros ?]). apply (keeps_bind 1 0).
  - apply keeps_request; cbn; [done|]. case_match; auto.
  - intros a. cbv zeta. keep; auto with keeps.
Qed.
Lemma keeps_rounds fuel n : keeps fuel (rounds sv pl fuel n).
Proof.
  revert n. induction fuel as [|fuel IH]; intros n; [apply keeps_ret|]. cbn [rounds]. apply (keeps_bind 0 (S fuel)); [keep|].
  intros wait. destruct wait; [apply (keeps_mono 0); [lia|apply keeps_ret]|]. apply (keeps_bind 1 fuel); [apply keeps_round|].
  intros [|]; [apply IH|]. apply (keeps_mono 0); [lia|apply keeps_ret].
Qed.
Lemma keeps_retry b : keeps 0 (retryLogin sv pl b).
Proof. unfold retryLogin. keep; auto with keeps. Qed.
Lemma keeps_last : keeps 0 (@lastReply W).
Proof. unfold lastReply. keep. Qed.
Lemma keeps_final : keeps 1 (finalRequest sv pl).
Proof.
  unfold finalRequest. apply (keeps_bind 0 1); [keep|]. intros s. destruct (_ && _); [|apply (keeps_mono 0); [lia|apply keeps_ret]].
  cbn [only_if]. apply keeps_attempt. do 2 (apply (keeps_bind 0 1); [keep; auto with keeps|intros ?]). apply (keeps_bind 1 0).
  - apply keeps_request; auto.
  - intros a. keep.
Qed.

Lemma begin_unconfirmed session message now m :
  (0 <= now)%Z -> (confirmedUntil (getState session m).1 <= now)%Z -> verdict_of message <> Confirms ->
  (confirmedUntil (getState session (beginCheckoutWorkflowTurn session message now m).1).1 <= now)%Z.
Proof.
  intros N C V. unfold beginCheckoutWorkflowTurn, verdict_of in *. destruct (getState session m) as [st m0]. cbn [fst] in C.
  assert (confirmedUntil (expire now st) <= now)%Z as E by (unfold expire; destruct (_ <=? _)%Z; cbn; lia).
  repeat case_match; try done; unfold getState; cbn [fst]; by rewrite mget_mset_eq.
Qed.
Lemma keeps_before : keeps 0 (beforeRounds sv pl).
Proof.
  unfold beforeRounds. keep; auto using keeps_auto with keeps.
  intros s. apply advances_checkout. intros [[N C] V]. by apply begin_unconfirmed.
Qed.
Lemma keeps_exchange : keeps (S (maxToolRounds pl)) (exchange sv pl).
Proof.
  unfold exchange. apply (keeps_bind 0 (S (maxToolRounds pl))); [apply keeps_before|]. intros b.
  replace (S (maxToolRounds pl)) with (maxToolRounds pl + 1) by lia. apply keeps_bind; [apply keeps_rounds|]. intros _.
  apply (keeps_bind 0 1); [apply keeps_retry|]. intros _. apply (keeps_bind 0 1); [apply keeps_last|]. intros _. apply keeps_final.
Qed.
Lemma keeps_autosave b : keeps 0 (maybeAutoSaveMemoryFromUserMessage sv pl b).
Proof. unfold maybeAutoSaveMemoryFromUserMessage. keep. Qed.

(** The transcript as it is saved. *)
Definition saved (s : run W) : run W := (saveSession sv pl s).1.
Lemma autosave_returns b s : (maybeAutoSaveMemoryFromUserMessage sv pl b s).2 = Ok tt.
Proof.
  unfold maybeAutoSaveMemoryFromUserMessage, unless. destruct (_ || _); [done|]. generalize (imap pair (extractAutoMemoryCandidates (p_message pl))) as l.
  intros l. revert s. induction l as [|x l IH]; intros s; [done|]. cbn [each]. unfold sbind at 1. cbn. apply IH.
Qed.

(** A turn either fails with its session untouched, or saves the transcript and
    answers with the message made of the state it saved. *)
Lemma turn_shape s s' r : turn sv pl s = (s', r) ->
  (exists e, r = Throw e /\ advances (S (maxToolRounds pl)) s s') \/
  (exists s1 a, r = Ok (mkReply (finalMessage sv pl (saved s1) a) (fl_thinking (flattenAssistantMessage a)) [] (p_runtime pl) (p_modelId pl)) /\
     exchange sv pl s = (s1, Ok tt) /\ advances (S (maxToolRounds pl)) s s1 /\ advances 0 (saved s1) s').
Proof.
  unfold turn, sbind. pose proof (keeps_exchange s) as K. destruct (exchange sv pl s) as [s1 [[]|e]]; cbn [fst] in K.
  - intros E. right. exists s1, (default VUndef (r_last (saved s1))). revert E. unfold finish.
    unfold sbind at 1. cbn [saveSession modify]. fold (saved s1). unfold sbind at 1, get at 1.
    unfold sbind. pose proof (autosave_returns (used_memory_tool (r_calls (saved s1))) (saved s1)) as R.
    pose proof (keeps_autosave (used_memory_tool (r_calls (saved s1))) (saved s1)) as A.
    destruct (maybeAutoSaveMemoryFromUserMessage _ _ _ _) as [s2 r2]. cbn in R, A. subst r2. intros [= <- <-]. done.
  - intros [= <- <-]. left. by exists e.
Qed.
(** What a turn leaves, its saving apart. *)
Lemma turn_advances s : advances (S (maxToolRounds pl)) s (set_sessions (r_sessions s) (turn sv pl s).1).
Proof.
  destruct (turn sv pl s) as [s' r] eqn:E. cbn [fst]. destruct (turn_shape s s' r E) as [(e & _ & A)|(s1 & a & _ & _ & A & B)].
  - destruct A as [T M S G C P]. by split.
  - replace (S (maxToolRounds pl)) with (S (maxToolRounds pl) + 0) by lia. eapply advances_trans; [exact A|].
    destruct B as [T M S G C P], A as [T1 M1 S1 G1 C1 P1]. by split.
Qed.
End Facts.

(** ** The answer *)

Lemma nonblank_join sep l x : x ∈ l -> truthy (trim x) = true -> truthy (trim (join sep l)) = true.
Proof.
  intros I (c & C & W)%nonblank. apply nonblank. exists c. split; [|done].
  destruct (part_join sep l x I) as (u & v & ->). rewrite !elem_of_app. auto.
Qed.
Lemma when_blank_nonblank m other : truthy (trim other) = true -> truthy (trim (when_blank m other)) = true.
Proof. intros O. unfold when_blank. by destruct (truthy (trim m)) eqn:E. Qed.
Lemma final_nonblank {W} (sv : services W) pl s a :
  r_guard s = None \/ r_guard s = Some GUARDRAIL -> truthy (trim (finalMessage sv pl s a)) = true.
Proof.
  intros G. assert (truthy (trim (draftMessage sv pl s a)) = true) as D.
  { unfold draftMessage. apply when_blank_nonblank. destruct (0 <? _); [|by vm_compute].
    eapply nonblank_join; [by left|by vm_compute]. }
  assert (truthy (trim NOT_VERIFIED) = true) as N by (by vm_compute).
  assert (forall o, truthy (trim (failure_message o)) = true) as F by (intros o; eapply nonblank_join; [by left|by vm_compute]).
  assert (forall b, truthy (trim (blocked_message pl b s)) = true) as B.
  { intros b. apply (nonblank_join _ _ "If you want me to continue with checkout, send: confirm purchase"); [|by vm_compute].
    apply list_elem_of_In, filter_In. split; [|done]. cbn. auto. }
  unfold finalMessage. destruct G as [->| ->]; [|by vm_compute]. repeat case_match; done.
Qed.

(** ** Properties of a turn *)

Section Turn.
Context {W : Type} `{VaultService W}.

(** A turn makes at most one request for each of its rounds (twenty, or eight in
    compact mode) and one more for the final answer; every request carries the
    system prompt, the model and the key of the turn and its tools or none; the
    messages only grow and the map of waiting sessions keeps its bound. *)
Theorem turn_bounded (sv : services W) pl s :
  let s' := (turn sv pl s).1 in
  (exists new, r_trace s' = r_trace s ++ new /\ asks new <= S (maxToolRounds pl) /\ Forall (as_planned pl) new) /\
  (exists more, r_messages s' = r_messages s ++ more) /\ (r_clock s <= r_clock s')%Z /\
  (truthy (p_session pl) = true -> pending_ok (r_pending s) -> pending_ok (r_pending s')).
Proof.
  intros s'. destruct (turn_advances sv pl s) as [(new & T & F & A & _) M _ _ C P]. cbn in *. split; [by exists new|]. done.
Qed.

Lemma turn_not_blank (sv : services W) pl s s' reply :
  r_guard s = None -> turn sv pl s = (s', Ok reply) -> truthy (trim (pr_message reply)) = true.
Proof.
  intros G E. destruct (turn_shape sv pl s s' (Ok reply) E) as [(e & X & _)|(s1 & a & [= ->] & _ & A & _)]; [done|].
  apply final_nonblank. destruct (av_guard _ _ _ _ A) as [X|X]; [left|right]; cbn; congruence.
Qed.

(** A turn that fails leaves every session as it was; one that answers has saved,
    under its own session, the messages it started with and those it added. *)
Theorem sessions_saved_last (sv : services W) pl s :
  let dir := resolveStateDir (sv_env sv) (sv_cwd sv) (sv_home sv) in
  match turn sv pl s with
  | (s', Throw _) => r_sessions s' = r_sessions s
  | (s', Ok _) => exists more, r_sessions s' = saveSessionMessages dir (p_session pl) (r_messages s ++ more) (r_sessions s)
  end.
Proof.
  intros dir. destruct (turn sv pl s) as [s' r] eqn:E. destruct (turn_shape sv pl s s' r E) as [(e & -> & A)|(s1 & a & -> & X & A & B)].
  - apply A.
  - destruct (av_messages _ _ _ _ A) as [more M]. exists more. rewrite (av_sessions _ _ _ _ B). cbn. by rewrite <- M, (av_sessions _ _ _ _ A).
Qed.
End Turn.

(** ** Screenshots of challenges *)

Section Screenshots.
Context {W : Type} `{VaultService W}.
Variable sv : services W.
Variable pl : plan W.

Notation same_keys := (fun s s' : run W => r_challenges s' = r_challenges s).
Lemma keys_bind {A B} (m : step W A) (k : A -> step W B) :
  follows same_keys m -> (forall x, follows same_keys (k x)) -> follows same_keys (sbind m k).
Proof. apply follows_bind. intros a b c E1 E2. congruence. Qed.
Ltac still :=
  repeat match goal with
  | |- follows _ (sbind _ _) => apply keys_bind; [|intros ?]
  | |- follows _ (each _ _) => apply follows_each; [done|intros ? ? ? ? ?; congruence|intros ?]
  | |- follows _ (if ?b then _ else _) => destruct b
  | |- follows _ (only_if ?b _) => destruct b; cbn [only_if]
  | |- follows _ (unless ?b _) => destruct b; cbn [unless]
  | |- follows _ (match ?x with _ => _ end) => destruct x
  | _ => by intros ?
  end.
Lemma keys_run_tool seen call : follows same_keys (runTool sv pl seen call).
Proof. unfold runTool. still. Qed.
Lemma keys_start n args : follows same_keys (startSynthetic sv pl n args).
Proof.
  unfold startSynthetic, emit_some, emitAssistantProgress, add_outcome, registerCompletionVerificationSignal, update_pending.
  repeat (still; try apply keys_run_tool).
Qed.

(** Two programs that go on alike from the states a first part leaves. *)
Lemma bind_ext {A B} (m : step W A) (k1 k2 : A -> step W B) s :
  (forall x s1, m s = (s1, Ok x) -> k1 x s1 = k2 x s1) -> sbind m k1 s = sbind m k2 s.
Proof. intros E. unfold sbind. destruct (m s) as [s1 [x|e]]; [by apply E|done]. Qed.
Lemma capture_ext run1 run2 args o s :
  (forall tab s1, challenge_tab args o = Some tab -> challenge_key tab ∉ r_challenges s -> challenge_key tab ∈ r_challenges s1 ->
     (forall k, k ∈ r_challenges s -> k ∈ r_challenges s1) -> trim tab = tab -> run1 "browser" (screenshot_args tab) s1 = run2 "browser" (screenshot_args tab) s1) ->
  maybeCaptureCaptchaScreenshotForTelegram pl run1 args o s = maybeCaptureCaptchaScreenshotForTelegram pl run2 args o s.
Proof.
  intros E. unfold maybeCaptureCaptchaScreenshotForTelegram. destruct (p_channel pl); try done.
  destruct (challenge_tab args o) as [tab|] eqn:T; [|done]. apply bind_ext. intros keys s1 [= <- <-]. case_bool_decide as K; [done|]. cbn [unless].
  apply bind_ext. intros [] s2 [= <-]. unfold sbind. rewrite (E tab); try done; cbn; try set_solver.
  unfold challenge_tab in T. destruct (_ && _); [done|]. injection T as <-. unfold text_field. apply trim_idemp.
Qed.
Lemma synthetic_ext run1 run2 n args s :
  (forall o s1, r_challenges s1 = r_challenges s -> run1 o s1 = run2 o s1) ->
  (let! o := startSynthetic sv pl n args in run1 o) s = (let! o := startSynthetic sv pl n args in @run2 o) s :> run W * result ExecuteToolCallResult.
Proof. intros E. apply bind_ext. intros o s1 M. apply E. pose proof (keys_start n args s) as K. by rewrite M in K. Qed.

Lemma screenshot_tab tab o : trim tab = tab -> truthy tab = true ->
  forall t, challenge_tab (screenshot_args tab) o = Some t -> t = tab.
Proof.
  intros T N t. unfold challenge_tab, screenshot_args. rewrite N. cbn. destruct (_ && _); [done|]. intros [= <-]. unfold text_field. cbn. done.
Qed.
(** The screenshot of a named tab whose challenge is known takes no other. *)
Lemma known_tab_stops fuel tab s : trim tab = tab -> truthy tab = true -> challenge_key tab ∈ r_challenges s ->
  runSynthetic sv pl fuel "browser" (screenshot_args tab) s = runSynthetic sv pl 0 "browser" (screenshot_args tab) s.
Proof.
  intros T N K. destruct fuel as [|fuel]; [done|]. cbn [runSynthetic]. apply synthetic_ext. intros o s1 E. unfold sbind at 1 3.
  match goal with |- match ?a with _ => _ end = match ?b with _ => _ end => assert (a = b) as X; [|by rewrite X] end.
  change (name_key "browser" =? "browser")%string with true. cbn [only_if].
  unfold maybeCaptureCaptchaScreenshotForTelegram. destruct (p_channel pl); try done.
  destruct (challenge_tab (screenshot_args tab) o) as [t|] eqn:C; [|done]. apply screenshot_tab in C as ->; [|done|done].
  unfold sbind, get. rewrite E. by rewrite bool_decide_eq_true_2.
Qed.
(** The parts before and after the screenshots are the same for any fuel. *)
Lemma fuel_ext f1 f2 n args s :
  (forall tab o s1, challenge_tab args o = Some tab -> challenge_key tab ∉ r_challenges s -> challenge_key tab ∈ r_challenges s1 ->
     trim tab = tab ->
     runSynthetic sv pl f1 "browser" (screenshot_args tab) s1 = runSynthetic sv pl f2 "browser" (screenshot_args tab) s1) ->
  runSynthetic sv pl (S f1) n args s = runSynthetic sv pl (S f2) n args s.
Proof.
  intros E. cbn [runSynthetic]. apply synthetic_ext. intros o s1 K. unfold sbind at 1 3.
  match goal with |- match ?a with _ => _ end = match ?b with _ => _ end => assert (a = b) as X; [|by rewrite X] end.
  destruct (_ =? _)%string; [|done]. cbn [only_if]. apply capture_ext. intros tab s2 C N I M T. eapply E; [exact C|by rewrite <- K|done|done].
Qed.
(** Two ways to run a tool that give the same outcome from every state. *)
Definition same_steps (f g : string -> value -> step W ExecuteToolCallResult) : Prop :=
  forall n args s, f n args s = g n args s.

(** C23: A challenge in the browser on the Telegram channel is answered with a
    screenshot; that screenshot can show another challenge, and no more follow:
    whatever the tools return, more fuel than two screenshots changes nothing. *)
Theorem screenshots_end fuel : same_steps (runSyntheticToolCall sv pl) (runSynthetic sv pl (2 + fuel)).
Proof.
  intros n args s. assert (forall f, runSynthetic sv pl (2 + f) n args s = runSynthetic sv pl 2 n args s) as E.
  { intros f. apply fuel_ext. intros tab o s1 _ _ K T. apply (fuel_ext f 0). intros tab2 o2 s2 C2 N2 K2 T2.
    destruct (truthy tab2) eqn:X; [by apply known_tab_stops|]. apply truthy_false in X as ->. exfalso.
    destruct (truthy tab) eqn:Y; [by rewrite <- (screenshot_tab tab o2 T Y _ C2) in Y|]. apply truthy_false in Y as ->. done. }
  unfold runSyntheticToolCall, SCREENSHOT_DEPTH. change 3 with (2 + 1). by rewrite (E 1), (E fuel).
Qed.
End Screenshots.
