(* ===== verification/ProviderLedger.v ===== *)
(** * What a run has seen of its tools

    A second relation between the states before and after every step of
    [ProviderRun]: the outcomes the run has noted, and its two flags for changes
    and checks, are those of the calls that returned, in their order; every call
    the guard let through was shown to it with the page open at that time, and
    every other call is one of the run's own.  From it and [ProviderRunFacts]
    follow the two properties of a turn about purchases and about claims. *)

From stdpp Require Import base list sets strings pretty.
From Stdlib Require Import Ascii Lia ZArith.
From S2P Require Import Prelude JsString JsMap JsValue JsRegexExec ToolPolicy Checkout SessionStore Vault SetupFlow.
From S2P Require Import Config ChatService ProviderRoute ProviderText ProviderProgress ProviderSites ToolSchema SystemPrompt ToolAdapter ProviderState ProviderRun.
From S2P Require Import ProviderRunFacts.
#[local] Open Scope nat_scope.
#[local] Open Scope t560_scope.

(** ** Reading a trace *)

(** The outcomes of the calls that returned. *)
Definition results (l : list action) : list ToolOutcome :=
  omap (fun a => match a with Returned call o => Some (mkToolOutcome (tc_name call) (xr_isError o) (xr_content o)) | _ => None end) l.
Definition returned (l : list action) : list (ToolCall * bool) :=
  omap (fun a => match a with Returned call o => Some (call, xr_isError o) | _ => None end) l.

Definition written_name (call : ToolCall) : string := name_key (tc_name call).
Definition action_of (call : ToolCall) : string := arg_key "action" (toToolArgsRecord (tc_arguments call)).
Definition command_of (call : ToolCall) : string := command_text (toToolArgsRecord (tc_arguments call)).

(** A call that changes files, memories, mail, a page or the machine: by the name
    and the action that the model wrote. *)
Definition changing (call : ToolCall) : bool :=
  bool_decide (written_name call ∈ ["write"; "edit"; "memory_save"; "memory_delete"; "memory_prune"; "memory_feedback"; "memory_compact"]) ||
  (written_name call =? "email")%string && (action_of call =? "send")%string ||
  (written_name call =? "browser")%string && bool_decide (action_of call ∈ ["submit"; "login"; "mfa"; "upload"; "dialog"; "challenge"]) ||
  (written_name call =? "exec")%string && looksLikeStateMutationCommand (command_of call).
(** A call that looks at the result: a reading tool, a tool of the memory or of
    the mail, a reading action of the browser, a reading command. *)
Definition checking (call : ToolCall) : bool :=
  bool_decide (written_name call ∈ ["read"; "ls"; "find"; "exists"; "web_search"; "web_fetch"; "memory_search"; "memory_get"; "memory_save";
    "memory_delete"; "memory_prune"; "memory_feedback"; "memory_compact"; "memory_list"; "memory_stats"]) ||
  (written_name call =? "email")%string && bool_decide (action_of call ∈ ["status"; "list_unread"; "read_unread"; "read_recent"; "send"]) ||
  (written_name call =? "browser")%string &&
    bool_decide (action_of call ∈ ["snapshot"; "wait"; "wait_for_request"; "downloads"; "console"; "pdf"]) ||
  (written_name call =? "exec")%string && looksLikeStateVerificationCommand (command_of call).
Definition changes (j : ToolCall * bool) : bool := negb j.2 && changing j.1.
Definition checks (j : ToolCall * bool) : bool := negb j.2 && checking j.1.
(** A change that succeeded, is no check itself and that no check followed. *)
Definition unchecked_change (l : list (ToolCall * bool)) : Prop :=
  exists l1 j l2, l = l1 ++ j :: l2 /\ changes j = true /\ checks j = false /\ existsb checks l2 = false.

(** The page of an outcome of the browser, and the last page of some outcomes. *)
Definition shows (url_of : string -> option url) (o : ToolOutcome) (u : string) : Prop :=
  outcome_is false "browser" o = true /\ extractUrlFromBrowserOutcomeContent url_of (to_content o) = Some u /\ u <> "".
Definition last_page (url_of : string -> option url) (l : list ToolOutcome) (u : string) : Prop :=
  exists l1 o l2, l = l1 ++ o :: l2 /\ shows url_of o u /\ forall o' u', o' ∈ l2 -> ~ shows url_of o' u'.
(** A click, a submission, an act or a key press that names no page itself. *)
Definition on_current_page (call : ToolCall) : Prop :=
  written_name call = "browser" /\ (exists ps, tc_arguments call = VObj ps) /\
  arg_key "action" (tc_arguments call) ∈ ["click"; "submit"; "act"; "press"] /\
  forall k, k ∈ ["currentUrl"; "currentPageUrl"; "url"; "targetUrl"] -> trim (arg_text k (tc_arguments call)) = "".
(** What the guard is shown of a call after these outcomes. *)
Definition shown_as (url_of : string -> option url) (before : list ToolOutcome) (call : ToolCall) (args : value) : Prop :=
  (on_current_page call /\ exists u, last_page url_of before u /\ args = spread (tc_arguments call) [("currentPageUrl", VStr u)]) \/
  (args = tc_arguments call /\ (on_current_page call -> forall u, ~ last_page url_of before u)).
(** The calls a run makes on its own. *)
Definition own_call (name : string) (args : value) : Prop :=
  exists act ps, args = VObj (("action", VStr act) :: ps) /\
    (name = "browser" /\ act ∈ ["open"; "login"; "mfa"; "screenshot"] \/ name = "email" /\ act ∈ ["list_unread"; "read_recent"]).

(** ** The page and the kind of a call, as the code finds them *)

Lemma name_key_idemp s : name_key (name_key s) = name_key s.
Proof. unfold name_key. by rewrite trim_toLowerCase, trim_idemp, toLowerCase_idemp. Qed.
Lemma either_list (n : string) (l1 l2 : list string) : bool_decide (n ∈ l1 ++ l2) = bool_decide (n ∈ l1) || bool_decide (n ∈ l2).
Proof. apply Bool.eq_iff_eq_true. rewrite orb_true_iff, !bool_decide_eq_true. apply elem_of_app. Qed.
(** The tests of the code, one after the other, are a disjunction: its names differ. *)
Ltac one_kind n :=
  destruct (String.eqb_spec n "email") as [->|?];
    [|destruct (String.eqb_spec n "browser") as [->|?]; [|destruct (String.eqb_spec n "exec") as [->|?]]];
    cbn [andb orb]; rewrite ?orb_false_r;
    repeat match goal with |- context [bool_decide (?s ∈ ?l)] => is_ground s; is_ground l; change (bool_decide (s ∈ l)) with false end;
    cbn [orb]; try done; try (match goal with |- context [bool_decide ?P] => by destruct (bool_decide P) end).
Lemma mutates_changing call :
  toolCallMutatesState (written_name call) (toToolArgsRecord (tc_arguments call)) = changing call.
Proof.
  unfold toolCallMutatesState, changing, action_of, command_of, written_name. rewrite !name_key_idemp.
  generalize (name_key (tc_name call)) as n, (arg_key "action" (toToolArgsRecord (tc_arguments call))) as act,
    (looksLikeStateMutationCommand (command_text (toToolArgsRecord (tc_arguments call)))) as cmd. intros n act cmd.
  destruct (truthy n) eqn:T; [|apply truthy_false in T as ->; done]. cbn [negb].
  change ["write"; "edit"; "memory_save"; "memory_delete"; "memory_prune"; "memory_feedback"; "memory_compact"] with (["write"; "edit"] ++ memory_writes).
  rewrite either_list. one_kind n.
Qed.
Lemma verifies_checking call :
  toolCallVerifiesState (written_name call) (toToolArgsRecord (tc_arguments call)) = checking call.
Proof.
  unfold toolCallVerifiesState, checking, action_of, command_of, written_name. rewrite !name_key_idemp.
  generalize (name_key (tc_name call)) as n, (arg_key "action" (toToolArgsRecord (tc_arguments call))) as act,
    (looksLikeStateVerificationCommand (command_text (toToolArgsRecord (tc_arguments call)))) as cmd. intros n act cmd.
  destruct (truthy n) eqn:T; [|apply truthy_false in T as ->; done]. cbn [negb]. cbn [app memory_writes]. one_kind n.
Qed.

Lemma latest_page url_of l u : latestBrowserUrlFromToolOutcomes url_of l = Some u <-> last_page url_of l u.
Proof.
  unfold latestBrowserUrlFromToolOutcomes, browser_outcomes. induction l as [|o l IH] using rev_ind.
  { split; [done|]. intros ([|] & o & l2 & E & _); done. }
  rewrite List.filter_app, rev_app_distr. cbn [List.filter].
  assert (last_page url_of (l ++ [o]) u <-> shows url_of o u \/ (forall u', ~ shows url_of o u') /\ last_page url_of l u) as ->.
  { split.
    - intros (l1 & o1 & l2 & E & S & N). destruct l2 as [|z l2 _] using rev_ind.
      + apply app_inj_tail in E as [_ ->]. by left.
      + rewrite app_comm_cons, app_assoc in E. apply app_inj_tail in E as [-> ->]. right. split; [intros u'; apply N; set_solver|].
        exists l1, o1, l2. split_and!; [done|done|]. intros o' u' I. apply N. set_solver.
    - intros [S|[N (l1 & o1 & l2 & -> & S & M)]].
      + exists l, o, []. split_and!; [done|done|]. intros o' u' I. by apply elem_of_nil in I.
      + exists l1, o1, (l2 ++ [o]). rewrite <- app_assoc. split_and!; [done|done|]. intros o' u' [I|I%list_elem_of_singleton]%elem_of_app; [by apply M|subst; apply N]. }
  rewrite <- IH. unfold shows. destruct (outcome_is false "browser" o); cbn [app rev].
  - cbn [omap list_omap]. destruct (extractUrlFromBrowserOutcomeContent url_of (to_content o)) as [v|]; cbn.
    + destruct (truthy v) eqn:T; cbn.
      * apply truthy_true in T. naive_solver.
      * apply truthy_false in T as ->. naive_solver.
    + naive_solver.
  - naive_solver.
Qed.
Lemma enriched_shown url_of before call :
  shown_as url_of before call (enrichCheckoutArgsWithPageContext url_of (tc_name call) (tc_arguments call) before).
Proof.
  unfold enrichCheckoutArgsWithPageContext, shown_as, on_current_page, written_name.
  destruct (String.eqb_spec (name_key (tc_name call)) "browser") as [B|B]; cbn [negb]; [|right; split; [done|intros [X _]; done]].
  destruct (tc_arguments call) as [| | | | | |ps] eqn:A; try (right; split; [done|intros (_ & [ps X] & _); done]).
  set (args := VObj ps). destruct (truthy (arg_key "action" args)) eqn:T; cbn [negb orb].
  2: { right. split; [done|]. apply truthy_false in T. rewrite T. intros (_ & _ & X & _). exfalso. revert X. set_solver. }
  case_bool_decide as I; cbn [negb]; [|right; split; [done|intros (_ & _ & X & _); done]].
  destruct (existsb _ _) eqn:N.
  { right. split; [done|]. intros (_ & _ & _ & X). apply existsb_exists in N as (k & K & M). apply truthy_true in M. by specialize (X k (proj2 (list_elem_of_In _ _) K)). }
  assert (on_current_page call) as C.
  { split_and!; [done|rewrite A; eauto|rewrite A; done|]. intros k K. rewrite A. apply truthy_false.
    destruct (truthy (trim _)) eqn:Y; [|done]. rewrite <- N. symmetry. apply existsb_exists. exists k. split; [by apply list_elem_of_In|done]. }
  unfold on_current_page, written_name in C. rewrite A in C.
  destruct (latestBrowserUrlFromToolOutcomes url_of before) as [u|] eqn:L.
  - left. split; [exact C|]. exists u. by rewrite <- latest_page.
  - right. split; [done|]. intros _ u X%latest_page. congruence.
Qed.

(** ** The relation *)

Section Ledger.
Context {W : Type} `{VaultService W}.
Variable sv : services W.
Variable pl : plan W.

Definition tracked (s : run W) : bool * bool := (r_needed s, r_satisfied s).
Definition judge (st : bool * bool) (j : ToolCall * bool) : bool * bool :=
  let '(needed, satisfied) := if changes j then (true, false) else st in
  (needed, if needed && checks j then true else satisfied).
Definition fits (before : list ToolOutcome) (a : action) : Prop :=
  match a with
  | Ran (Some args) call => shown_as (sv_url_of sv) before call args
  | Ran None call => own_call (tc_name call) (tc_arguments call)
  | _ => True
  end.
Fixpoint fitting (before : list ToolOutcome) (l : list action) : Prop :=
  match l with [] => True | a :: l' => fits before a /\ fitting (before ++ results [a]) l' end.
Lemma results_app l1 l2 : results (l1 ++ l2) = results l1 ++ results l2.
Proof. apply omap_app. Qed.
Lemma fitting_app before l1 l2 : fitting before (l1 ++ l2) <-> fitting before l1 /\ fitting (before ++ results l1) l2.
Proof.
  revert before. induction l1 as [|a l1 IH]; intros before; [cbn; rewrite app_nil_r; tauto|]. cbn [fitting app].
  rewrite IH, <- app_assoc, <- results_app. cbn [app]. tauto.
Qed.

Record accounts (s s' : run W) : Prop := {
  ac_ledger : exists new, r_trace s' = r_trace s ++ new /\ r_outcomes s' = r_outcomes s ++ results new /\
              tracked s' = fold_left judge (returned new) (tracked s) /\ fitting (r_outcomes s) new;
}.
Lemma accounts_refl s : accounts s s.
Proof. split. exists []. by rewrite !app_nil_r. Qed.
Lemma accounts_trans s1 s2 s3 : accounts s1 s2 -> accounts s2 s3 -> accounts s1 s3.
Proof.
  intros [(n1 & T1 & O1 & J1 & F1)] [(n2 & T2 & O2 & J2 & F2)]. split. exists (n1 ++ n2).
  unfold returned. rewrite results_app, omap_app, fold_left_app. unfold returned in J1, J2. rewrite <- J1, T2, O2, T1, O1, <- !app_assoc.
  split_and!; [done|done|done|]. apply fitting_app. by rewrite <- O1.
Qed.
(** Actions that are neither calls nor outcomes. *)
Definition aside (a : action) : Prop := match a with Ran _ _ | Returned _ _ => False | _ => True end.
Lemma aside_list l before : Forall aside l -> results l = [] /\ returned l = [] /\ fitting before l.
Proof.
  intros F. induction F as [|a l A _ (R & J & F)]; [done|]. destruct a; try done; cbn; rewrite app_nil_r; (split_and!; done).
Qed.
(** A step that calls no tool and leaves the outcomes and the flags. *)
Definition apart (s s' : run W) : Prop :=
  exists new, r_trace s' = r_trace s ++ new /\ Forall aside new /\ r_outcomes s' = r_outcomes s /\ tracked s' = tracked s.
Lemma apart_accounts s s' : apart s s' -> accounts s s'.
Proof.
  intros (new & T & F & O & J). destruct (aside_list new (r_outcomes s) F) as (R & J' & F'). split. exists new.
  rewrite R, J', app_nil_r. done.
Qed.

Notation books m := (follows accounts m).
Lemma books_bind {A B} (m : step W A) (k : A -> step W B) : books m -> (forall x, books (k x)) -> books (sbind m k).
Proof. apply follows_bind. apply accounts_trans. Qed.
Lemma books_ret {A} (x : A) : books (@ret W A x). Proof. intros s. apply accounts_refl. Qed.
Lemma books_get {A} (f : run W -> A) : books (get f). Proof. intros s. apply accounts_refl. Qed.
Lemma books_lift {A} (r : result A) : books (@lift W A r). Proof. intros s. apply accounts_refl. Qed.
Lemma books_throw {A} e : books (@throw W A e). Proof. intros s. apply accounts_refl. Qed.
Lemma books_only b m : books m -> books (only_if b m).
Proof. destruct b; [done|intros _; apply books_ret]. Qed.
Lemma books_unless b m : books m -> books (unless b m).
Proof. destruct b; [intros _; apply books_ret|done]. Qed.
Lemma books_each {A} (f : A -> step W unit) l : (forall x, books (f x)) -> books (each f l).
Proof. apply follows_each; [apply accounts_refl|apply accounts_trans]. Qed.
Lemma books_attempt {A} (d : A) m : books m -> books (attempt_or d m).
Proof. intros M s. unfold attempt_or. specialize (M s). by destruct (m s) as [s1 [x|e]]. Qed.
Lemma books_note a : aside a -> books (note a).
Proof. intros A s. apply apart_accounts. exists [a]. split_and!; [done|by constructor|done|done]. Qed.
Lemma books_say v : books (say v).
Proof. intros s. apply apart_accounts. exists []. by rewrite app_nil_r. Qed.
Lemma books_modify f :
  (forall s, r_trace (f s) = r_trace s /\ r_outcomes (f s) = r_outcomes s /\ tracked (f s) = tracked s) -> books (modify f).
Proof. intros F s. destruct (F s) as (T & O & J). apply apart_accounts. exists []. cbn. rewrite T, app_nil_r. done. Qed.

Ltac book_one :=
  match goal with
  | |- follows _ (sbind _ _) => apply books_bind; [|intros ?]
  | |- follows _ (ret _) => apply books_ret
  | |- follows _ (get _) => apply books_get
  | |- follows _ (lift _) => apply books_lift
  | |- follows _ (throw _) => apply books_throw
  | |- follows _ (only_if _ _) => apply books_only
  | |- follows _ (unless _ _) => apply books_unless
  | |- follows _ (say _) => apply books_say
  | |- follows _ (each _ _) => apply books_each; intros ?
  | |- follows _ (note _) => apply books_note; done
  | |- follows _ (modify _) => apply books_modify; intros ?; done
  | |- follows _ (attempt_or _ _) => apply books_attempt
  | |- follows _ (if ?b then _ else _) => destruct b
  | |- follows _ (match ?x with _ => _ end) => destruct x
  | |- follows _ (let '_ := ?x in _) => destruct x
  end.
Ltac book := repeat (book_one; cbv zeta beta).

Lemma books_instruct text : books (instruct text).
Proof. unfold instruct. book. Qed.
Lemma books_emit_some o ph : books (emit_some o ph).
Proof. unfold emit_some, emitAssistantProgress. book. Qed.
Lemma books_update args o : books (update_pending pl args o).
Proof. unfold update_pending. book. Qed.
Lemma books_note_login c : books (note_login c).
Proof. unfold note_login. book. Qed.
Lemma books_pending_now : books (pending_now pl).
Proof. unfold pending_now. book. Qed.
Lemma books_request cx : books (requestAssistant sv pl cx).
Proof. unfold requestAssistant. book. Qed.
Lemma books_round_line o ph : books (round_line o ph).
Proof. unfold round_line, emitRoundProgress, emitAssistantProgress. book. Qed.
Lemma books_service text : books (serviceForIdentifier sv pl text).
Proof. unfold serviceForIdentifier. book. Qed.
#[local] Hint Resolve books_instruct books_emit_some books_update books_note_login books_pending_now books_request books_round_line books_service : books.
Lemma books_answer n text : books (answerWithoutTools sv pl n text).
Proof. unfold answerWithoutTools. book; auto with books. Qed.
Lemma books_after_login c : books (afterLogin pl c).
Proof. unfold afterLogin. book; auto with books. Qed.
Lemma books_after_call call o : books (afterCall sv pl call o).
Proof. unfold afterCall. book; auto with books. Qed.
#[local] Hint Resolve books_answer books_after_login books_after_call : books.

(** ** Calls of tools *)

Lemma register_judges call e s :
  exists s', registerCompletionVerificationSignal (tc_name call) (toToolArgsRecord (tc_arguments call)) e s = (s', Ok tt) /\
    r_trace s' = r_trace s /\ r_outcomes s' = r_outcomes s /\ tracked s' = judge (tracked s) (call, e).
Proof.
  unfold registerCompletionVerificationSignal. fold (written_name call). rewrite mutates_changing, verifies_checking.
  assert (truthy (written_name call) = false -> changing call = false /\ checking call = false) as B.
  { intros T%truthy_false. rewrite <- mutates_changing, <- verifies_checking, T. done. }
  unfold judge, changes, checks, tracked, sbind, modify, get, unless, only_if. cbn [fst snd].
  destruct e; [exists s; cbn [orb negb andb]; by rewrite andb_false_r|]. destruct (truthy (written_name call)) eqn:T; cbn [orb negb andb].
  2: { destruct (B eq_refl) as [-> ->]. exists s. by rewrite andb_false_r. }
  clear B. destruct (changing call), (checking call), (r_needed s) eqn:N; cbn; rewrite ?N; eexists; (split; [reflexivity|]); cbn; rewrite ?N; done.
Qed.

(** The state after a call that has returned and is not noted yet. *)
Definition owing (call : ToolCall) (o : ExecuteToolCallResult) (s s' : run W) : Prop :=
  exists mid, r_trace s' = r_trace s ++ mid ++ [Returned call o] /\ results mid = [] /\ returned mid = [] /\
    fitting (r_outcomes s) mid /\ r_outcomes s' = r_outcomes s /\ tracked s' = tracked s.
Lemma owing_after call o s s1 s2 : apart s s1 -> owing call o s1 s2 -> owing call o s s2.
Proof.
  intros (new & T & F & O & J) (mid & T' & R & R' & F' & O' & J'). destruct (aside_list new (r_outcomes s) F) as (A1 & A2 & A3).
  exists (new ++ mid). unfold returned in *. rewrite results_app, omap_app, A1, A2, R, R', T', T, O', O, J', J, <- !app_assoc. split_and!; try done.
  apply fitting_app. rewrite A1, app_nil_r. by rewrite O in F'.
Qed.
Lemma told_all l s : each (fun e => note (Told e)) l s = (set_trace (r_trace s ++ map Told l) s, Ok tt) :> run W * _.
Proof.
  revert s. induction l as [|e l IH]; intros s; [cbn; rewrite app_nil_r; by destruct s|]. cbn [each]. unfold sbind, note at 1, modify.
  rewrite IH. cbn. by rewrite <- app_assoc.
Qed.
Lemma told_aside l : Forall aside (map Told l).
Proof. apply Forall_forall. by intros a (e & -> & _)%list_elem_of_fmap. Qed.
Lemma run_tool_owes seen call s : fits (r_outcomes s) (Ran seen call) ->
  exists s' o, runTool sv pl seen call s = (s', Ok o) /\ owing call o s s'.
Proof.
  intros F. unfold runTool. unfold sbind at 1, note at 1, modify at 1. set (s0 := set_trace _ s).
  do 2 (unfold sbind at 1, get at 1). cbn [fst snd].
  match goal with |- context [sbind ?m ?k s0] => assert (exists s1 o, m s0 = (s1, Ok o) /\ apart s0 s1) as (s1 & o & E & (new & T & A & O & J)) end.
  { destruct (find_tool _ _) as [tool|].
    2: { eexists s0, _. split; [reflexivity|]. exists []. by rewrite app_nil_r. }
    destruct (tm_settles _) as [t|]; [destruct (_ <? _)%Z|].
    1: destruct (executeToolCall _ _ _ _) as [[res events] w'].
    all: unfold sbind at 1, modify at 1; unfold sbind at 1; rewrite told_all; eexists _, _; (split; [reflexivity|]).
    - exists (map Told events). split_and!; [done|apply told_aside|done|done].
    - eexists. split_and!; [cbn; by rewrite <- app_assoc|apply Forall_app; split; [apply told_aside|by constructor]|done|done].
    - eexists. split_and!; [cbn; by rewrite <- app_assoc|apply Forall_app; split; [apply told_aside|by constructor]|done|done]. }
  unfold sbind at 1. rewrite E. eexists _, o. split; [reflexivity|]. destruct (aside_list new (r_outcomes s) A) as (A1 & A2 & A3).
  exists (Ran seen call :: new). split_and!; [|done|done| |done|done].
  - cbn. rewrite T. cbn. by rewrite <- !app_assoc.
  - cbn. by rewrite app_nil_r.
Qed.
Lemma guarded_owes call s : exists s' o, guardedCall sv pl call s = (s', Ok o) /\ owing call o s s'.
Proof.
  unfold guardedCall. do 3 (unfold sbind at 1, get at 1). cbn [fst snd]. pose proof (enriched_shown (sv_url_of sv) (r_outcomes s) call) as F.
  set (args := enrichCheckoutArgsWithPageContext _ _ _ _) in *. destruct (enforceCheckoutWorkflow _ _ _ _ _) as [states decision].
  unfold sbind at 1, modify at 1. assert (apart s (set_checkout states s)) as A by (exists []; by rewrite app_nil_r).
  destruct decision as [confirmed st|message st].
  - destruct (run_tool_owes (Some args) call (set_checkout states s) F) as (s' & o & E & O). exists s', o. split; [done|]. by eapply owing_after.
  - eexists _, _. split; [reflexivity|]. eapply owing_after; [exact A|]. eexists [_; _; _].
    split_and!; [cbn; by rewrite <- !app_assoc|done|done|done|done|done].
Qed.
(** Noting the outcome and the flags pays what is owed. *)
Lemma noted_settles {A} call o (k : step W A) s s1 : owing call o s s1 -> books k ->
  accounts s ((add_outcome (tc_name call) o ;;
               registerCompletionVerificationSignal (tc_name call) (toToolArgsRecord (tc_arguments call)) (xr_isError o) ;; k) s1).1.
Proof.
  intros (mid & T & R & R' & F & O & J) K. unfold sbind at 1. unfold add_outcome at 1, modify. set (s1' := set_outcomes _ s1).
  destruct (register_judges call (xr_isError o) s1') as (s2 & E & T2 & O2 & J2). unfold sbind at 1. rewrite E.
  apply (accounts_trans _ s2); [|apply K]. split. exists (mid ++ [Returned call o]). unfold returned in *.
  rewrite results_app, omap_app, R, R', T2, O2, J2.
  split_and!; [cbn; by rewrite T|cbn; by rewrite O| |apply fitting_app; by split]. change (tracked s1') with (tracked s1). by rewrite J.
Qed.
Lemma own_record n args : own_call n args -> toToolArgsRecord args = args.
Proof. by intros (act & ps & -> & _). Qed.
Lemma books_start n args : own_call n args -> books (startSynthetic sv pl n args).
Proof.
  intros O. unfold startSynthetic. do 2 (apply books_bind; [book|intros ?]). set (call := mkToolCall _ _ _). cbv zeta.
  apply books_bind; [book|intros _]. apply books_bind; [auto with books|intros _]. intros s.
  destruct (run_tool_owes None call s O) as (s1 & o & E & Ow). unfold sbind at 1. rewrite E.
  unfold sbind at 1, modify. set (s2 := set_calls _ s1). rewrite <- (own_record n args O).
  apply (noted_settles call o _ s s2); [exact Ow|]. book; auto with books.
Qed.
Lemma books_capture run args o : (forall tab, books (run "browser" (screenshot_args tab))) ->
  books (maybeCaptureCaptchaScreenshotForTelegram pl run args o).
Proof. intros R. unfold maybeCaptureCaptchaScreenshotForTelegram. book. apply R. Qed.
Lemma own_screenshot tab : own_call "browser" (screenshot_args tab).
Proof. eexists _, _. split; [reflexivity|]. left. split; [done|set_solver]. Qed.
Lemma books_synthetic fuel n args : own_call n args -> books (runSynthetic sv pl fuel n args).
Proof.
  revert n args. induction fuel as [|fuel IH]; intros n args O; cbn [runSynthetic]; book;
    auto using books_start, books_capture, own_screenshot with books.
Qed.
Lemma books_own n args : own_call n args -> books (runSyntheticToolCall sv pl n args).
Proof. apply books_synthetic. Qed.
Lemma books_captured args o : books (capture sv pl args o).
Proof. apply books_capture. intros tab. apply books_own, own_screenshot. Qed.
Lemma own_login service : own_call "browser" (login_args service).
Proof. eexists _, _. split; [reflexivity|]. left. split; [done|set_solver]. Qed.
Lemma own_mfa code p : own_call "browser" (mfa_args code p).
Proof. eexists _, _. split; [reflexivity|]. left. split; [done|set_solver]. Qed.
Lemma own_open u : own_call "browser" (VObj ([("action", VStr "open"); ("url", VStr u)] ++ live)).
Proof. eexists _, _. split; [reflexivity|]. left. split; [done|set_solver]. Qed.
Lemma books_mailbox l svc : (forall x, x ∈ l -> x ∈ ["list_unread"; "read_recent"]) -> books (mailbox_code sv pl l svc).
Proof.
  induction l as [|a l IH]; intros I; cbn [mailbox_code]; [book|]. apply books_bind; [|intros o; book; apply IH; set_solver].
  apply books_own. eexists a, _. split; [reflexivity|]. right. split; [done|apply I; by left].
Qed.
#[local] Hint Resolve books_own books_captured own_login own_mfa own_open books_mailbox : books.
Lemma books_auto : books (autoLogin sv pl).
Proof. unfold autoLogin. book; auto with books. Qed.
Lemma books_tool_step n call : books (toolStep sv pl n call).
Proof.
  unfold toolStep. cbv zeta. apply books_bind; [auto with books|intros _]. apply books_bind; [book|intros _]. intros s.
  destruct (guarded_owes call s) as (s1 & o & E & Ow). unfold sbind at 1. rewrite E. apply noted_settles; [exact Ow|].
  book; auto with books.
Qed.
Lemma books_tool_steps n calls : books (toolSteps sv pl n calls).
Proof. induction calls as [|c l IH]; cbn [toolSteps]; book; auto using books_tool_step. Qed.
#[local] Hint Resolve books_auto books_tool_steps : books.
Lemma books_rounds fuel n : books (rounds sv pl fuel n).
Proof. revert n. induction fuel as [|fuel IH]; intros n; cbn [rounds]; unfold oneRound; book; auto with books. Qed.
Lemma books_exchange : books (exchange sv pl).
Proof.
  unfold exchange, beforeRounds, allRounds, retryLogin, lastReply, finalRequest. book; auto using books_rounds with books.
Qed.
Lemma books_autosave b : books (maybeAutoSaveMemoryFromUserMessage sv pl b).
Proof. unfold maybeAutoSaveMemoryFromUserMessage. book. Qed.
Lemma books_turn : books (turn sv pl).
Proof. unfold turn, finish, saveSession. book; auto using books_exchange, books_autosave. Qed.
End Ledger.

(** ** Changes and checks *)

Lemma judge_satisfied l needed satisfied :
  (satisfied = false -> needed = true) ->
  let st := fold_left judge l (needed, satisfied) in
  (st.2 = false -> st.1 = true) /\
  (st.2 = false <-> unchecked_change l \/ satisfied = false /\ existsb checks l = false).
Proof.
  intros I. induction l as [|j l [A B]] using rev_ind.
  { cbn. split; [done|]. split; [auto|]. intros [(l1 & j & l2 & E & _)|[E _]]; [by destruct l1|done]. }
  rewrite fold_left_app. cbn [fold_left]. destruct (fold_left judge l (needed, satisfied)) as [n0 s0]. cbn [fst snd] in A, B.
  assert (unchecked_change (l ++ [j]) <-> changes j = true /\ checks j = false \/ checks j = false /\ unchecked_change l) as U.
  { split.
    - intros (l1 & j' & l2 & E & C & N & X). destruct l2 as [|z l2 _] using rev_ind.
      + apply app_inj_tail in E as [-> ->]. by left.
      + rewrite app_comm_cons, app_assoc in E. apply app_inj_tail in E as [-> ->]. right. rewrite existsb_app in X. cbn in X. bool_prop.
        split; [done|]. by exists l1, j', l2.
    - intros [[C N]|[N (l1 & j' & l2 & -> & C & N' & X)]].
      + by exists l, j, [].
      + exists l1, j', (l2 ++ [j]). rewrite <- app_assoc. split_and!; try done. rewrite existsb_app, X. cbn. by rewrite N. }
  rewrite U, existsb_app. cbn [existsb]. rewrite orb_false_r. unfold judge. clear U I.
  destruct (changes j), (checks j); cbn; rewrite ?orb_true_r, ?orb_false_r.
  - split; [done|]. split; [done|]. by intros [[[_ X]|[X _]]|[_ X]].
  - split; [done|]. split; [by auto|done].
  - destruct n0, s0; cbn; (split; [try done; auto|]); (split; [try done|by intros [[[X _]|[X _]]|[_ X]]]). intros _. by specialize (A eq_refl).
  - rewrite andb_false_r. split; [done|]. rewrite B. split; [intros [X|X]; auto|]. intros [[[X _]|[_ X]]|[X Y]]; [done|by left|right]. by split.
Qed.
Lemma final_unverified {W} (sv : services W) pl s a a' :
  r_wait s = false -> r_needed s = true -> r_satisfied s = false -> finalMessage sv pl s a = finalMessage sv pl s a'.
Proof. intros W1 N S. unfold finalMessage. by rewrite W1, N, S. Qed.

(** ** Properties of a turn *)

Section Turn.
Context {W : Type} `{VaultService W}.

(** C3: Without a valid confirmation of the session, and unless the message confirms
    a purchase, no call of the model runs in which the checkout guard sees a
    purchase.  What the guard is shown are the arguments of the call; a click, a
    submission, an act or a key press of the browser that names no page is shown
    with the address of the page open at that time: the one of the last outcome of
    the browser, before this call, that succeeded and gave an address.  Every other
    call that runs is one of the run's own (opening the site, signing in, entering
    a code, a screenshot, reading the mailbox). *)
Theorem purchases_confirmed (sv : services W) pl s :
  unconfirmed pl s ->
  exists new, r_trace (turn sv pl s).1 = r_trace s ++ new /\
    forall l1 seen call l2, new = l1 ++ Ran seen call :: l2 ->
      match seen with
      | Some args => shown_as (sv_url_of sv) (r_outcomes s ++ results l1) call args /\ detectCheckoutRisk (tc_name call) args = None
      | None => own_call (tc_name call) (tc_arguments call)
      end.
Proof.
  intros U. destruct (turn_advances sv pl s) as [(new & T & _ & _ & R) _ _ _ _ _]. exists new. split; [exact T|]. cbn in T.
  destruct (R U) as [_ R']. destruct (books_turn sv pl s) as [(new' & T' & _ & _ & F)].
  rewrite T in T'. apply app_inv_head in T' as <-. intros l1 seen call l2 ->.
  apply fitting_app in F as [_ [F _]]. destruct seen as [args|]; [|exact F]. split; [exact F|].
  rewrite Forall_forall in R'. apply (R' (Ran (Some args) call)). set_solver.
Qed.

(** C4: Take a turn that does not end waiting for a code and in which a call that
    changes state succeeded, was no check itself and was followed by no check that
    succeeded: then the answer is the same whatever the model said, and without
    failures, refusals and the guard of the compact mode it says that nothing is
    verified.  Changes and checks are recognised by the name as the model wrote it,
    so that the alias bash of exec counts as neither. *)
Theorem unverified_not_claimed (sv : services W) pl s s1 s' reply new :
  r_satisfied s = negb (r_needed s) -> exchange sv pl s = (s1, Ok tt) -> r_wait s1 = false ->
  turn sv pl s = (s', Ok reply) ->
  r_trace s1 = r_trace s ++ new -> unchecked_change (returned new) ->
  (forall a, finalMessage sv pl (saved sv pl s1) a = pr_message reply) /\
  (errors_of (r_outcomes s1) = [] -> r_blocked s1 = None -> r_guard s1 = None -> pr_message reply = NOT_VERIFIED).
Proof.
  intros I X Wt E T U. destruct (turn_shape sv pl s s' (Ok reply) E) as [(e & Y & _)|(s2 & a & [= ->] & X2 & _)]; [done|].
  pose proof (books_exchange sv pl s) as B. rewrite X in X2, B. injection X2 as <-. destruct B as [(new' & T' & _ & J & _)]. cbn in T', J.
  rewrite T in T'. apply app_inv_head in T' as <-.
  pose proof (judge_satisfied (returned new) (r_needed s) (r_satisfied s)) as [B1 B2]; [rewrite I; by destruct (r_needed s)|].
  unfold tracked in J. rewrite <- J in B1, B2. cbn [fst snd] in B1, B2.
  assert (r_satisfied s1 = false) as S by (apply B2; by left). pose proof (B1 S) as N. split.
  - intros a'. by apply final_unverified.
  - intros Er Bl Gu. unfold finalMessage. set (x := saved sv pl s1).
    change (r_wait x) with (r_wait s1). change (r_needed x) with (r_needed s1). change (r_satisfied x) with (r_satisfied s1).
    change (r_outcomes x) with (r_outcomes s1). change (r_blocked x) with (r_blocked s1). change (r_guard x) with (r_guard s1).
    by rewrite Wt, N, S, Er, Bl, Gu.
Qed.
End Turn.
