(* ===== verification/ProviderTurn.v ===== *)
(** * A turn with the provider

    [src/src/provider/run.ts], [chatWithProvider], from its start: the route and
    its credential, the session and a code it waits for, the model, the tools,
    the prompt; then the run of [ProviderRun]. *)

From stdpp Require Import base list sets strings pretty.
From Stdlib Require Import Ascii Lia ZArith.
From S2P Require Import Prelude JsString JsMap JsValue JsRegex JsRegexExec JsDate NodePath ToolPolicy Checkout SessionStore Vault SetupFlow.
From S2P Require Import Config ChatService ProviderRoute ProviderText ProviderProgress ProviderSites ToolSchema Skills SystemPrompt ToolAdapter ProviderState ProviderRun ProviderRunFacts ProviderLedger.
#[local] Open Scope nat_scope.
#[local] Open Scope t560_scope.

(** ** The configuration of the tools *)

Definition profile_name (p : ToolProfileId) : string :=
  match p with p_minimal => "minimal" | p_coding => "coding" | p_messaging => "messaging" | p_full => "full" end.
Definition policy_like (p : ToolPolicyConfig) : ToolPolicyLike := mkPolicy (tp_allow p) (tp_deny p).
Definition tools_config (c : Config.ToolsConfig) : ToolPolicy.ToolsConfig :=
  mkToolsConfig (Config.dangerouslyUnrestricted c) (option_map profile_name (Config.profile c)) (tl_allow c) (Config.alsoAllow c)
    (tl_deny c) (option_map (map (fun x => (x.1, policy_like x.2))) (Config.byProvider c)) (option_map policy_like (Config.runtime c)).

(** What an inherited member of the map of profiles shows of a profile. *)
Definition no_profile : ProviderProfile := mkProfile None "" api_key None None None None None None None None.
Definition with_baseUrl (u : option string) (p : ProviderProfile) : ProviderProfile :=
  mkProfile (enabled p) (provider p) (Config.authMode p) (apiKey p) (oauthToken p) (token p) u (api p) (headers p) (compat p) (models p).

Section Turn.
Context {W : Type} `{VaultService W}.
Variable sv : services W.
Variable config : T560Config.
Notation step := (step W).

Definition stateDir : string := resolveStateDir (sv_env sv) (sv_cwd sv) (sv_home sv).

(** ** The route *)

Record route := mkRoute {
  rt_provider : string;
  rt_profile : ProviderProfile; (* [profile] *)
  rt_resolved : RuntimeProvider; (* [runtimeResolution] *)
  rt_baseUrl : option string; (* [normalizedBaseUrl] *)
  rt_key : option string; (* [requestApiKey] *)
}.
Definition resolveRoute (target : RoutingTarget) : result (route * string) :=
  let prov := default "" (t_provider target) in
  let model := default "" (t_model target) in
  if negb (truthy prov) || negb (truthy model) then Throw "Provider route is missing provider or model."
  else
    let? profile := match obj_lookup prov (default [] (c_providers config)) with
                    | Own p => Ok p
                    | Inherited => Ok no_profile
                    | Missing => Throw ("Provider '" +:+ prov +:+ "' is not configured.")
                    end in
    let? resolved := resolveRuntimeProvider (sv_getProviders sv) prov profile in
    let credential := extractCredential profile in
    let rawBaseUrl := match normalizeBaseUrl (baseUrl profile) with
                      | Some u => Some u
                      | None => normalizeBaseUrl (baseUrlOverride resolved)
                      end in
    let url := if (runtimeProvider resolved =? OPENAI_RUNTIME_PROVIDER)%string then normalizeOpenAICompatibleBaseUrl rawBaseUrl else rawBaseUrl in
    let allowMissing := truthy_opt url && (runtimeProvider resolved =? OPENAI_RUNTIME_PROVIDER)%string &&
                        ((name_key prov =? "local-openai")%string || (name_key (provider profile) =? "openai")%string) in
    if negb (truthy_opt credential) && negb allowMissing then Throw ("Credentials missing for provider '" +:+ prov +:+ "'.")
    else Ok (mkRoute prov profile resolved url
               (match credential with Some c => Some c | None => if allowMissing then Some LOCAL_OPENAI_DUMMY_API_KEY else None end), model).
(** [runtimeProfile] *)
Definition runtime_profile (r : route) : ProviderProfile :=
  if truthy_opt (rt_baseUrl r) && negb (bool_decide (normalizeBaseUrl (baseUrl (rt_profile r)) = rt_baseUrl r))
  then with_baseUrl (rt_baseUrl r) (rt_profile r) else rt_profile r.

(** ** The model *)

Record chosen := mkChosen { ch_modelId : string; ch_modelDef : value; ch_available : list string }.
Definition chooseModel (r : route) (model : string) : step chosen :=
  let runtime := runtimeProvider (rt_resolved r) in
  let alias := resolveModelAlias runtime (requestedProvider (rt_resolved r)) model in
  let! named :=
    (if (name_key (rt_provider r) =? "local-openai")%string && truthy_opt (rt_baseUrl r) then
       let! asked := get r_clock in
       let! c := get r_cache in
       let fetch u hs := (sv_fetch sv u hs).1 in
       (* the time is spent only when the cache has no fresh answer *)
       let base := default "" (normalizeBaseUrl (rt_baseUrl r)) in
       let fresh := match mget base c with Some d => (asked <? expiresAt d)%Z | None => false end in
       let spent := if fresh then 0%Z
                    else Z.of_N (sv_fetch sv (base +:+ "/models") (request_headers (rt_key r) (headers (runtime_profile r)))).2 in
       let '(found, c') := discoverLocalOpenAIModels fetch asked (asked + spent)%Z (rt_baseUrl r) (rt_key r) (headers (runtime_profile r)) c in
       modify (fun s => set_cache c' (set_clock (r_clock s + spent)%Z s)) ;;
       ret (remapModelIdFromAvailable alias found, found)
     else ret (alias, [])) in
  let '(modelId, available) := named in
  match sv_getModel sv runtime modelId with
  | Some def => ret (mkChosen modelId (applyProfileModelOverrides runtime (runtime_profile r) def) available)
  | None =>
      let! custom := lift (buildCustomModelDefinition (sv_getModels sv) runtime (runtime_profile r) modelId) in
      match custom with
      | Some def => ret (mkChosen modelId def available)
      | None =>
          let known := getModelsSafe (sv_getModels sv) runtime in
          let hint := if 0 <? length known then " Available models: " +:+ join ", " known +:+ "." else "" in
          throw ("Model '" +:+ model +:+ "' not found for provider '" +:+ runtime +:+ "'." +:+ hint)
      end
  end.

(** ** The tools *)

(** The tools [createT560CodingTools] returns: its choice depends on the name
    and the owner flag of a tool. *)
Definition codingTools (runtime : string) : result (list (@Tool W)) :=
  let all := sv_tools sv config in
  let? kept := createT560CodingTools (map rt_tool all) (option_map tools_config (c_tools config)) (Some runtime) (Some true) in
  Ok (List.filter (fun t => existsb (fun k => (tool_name k =? rt_name t)%string && Bool.eqb (ownerOnly k) (ownerOnly (rt_tool t))) kept) all).
Definition emailToolAllowed (message : string) (pending : bool) : bool :=
  (env_var (sv_env sv) "T560_ENABLE_EMAIL_TOOL_ALWAYS" =? "1")%string || messageLikelyNeedsEmailTool message ||
  looksLikeLoginIntent message || looksLikeAccountDashboardIntent message || pending.
Definition offeredTools (runtime message : string) (smallTalk compactMode pending : bool) : result (list (@Tool W)) :=
  if smallTalk then Ok []
  else
    let? all := codingTools runtime in
    let base := List.filter (fun t => emailToolAllowed message pending || negb (toLowerCase (rt_name t) =? "email")%string) all in
    Ok (if compactMode then selectToolsForCompactMode (sv_url_of sv) rt_name base message pending else base).

(** ** The profile files *)

Definition loadTextFile (p : string) : option string :=
  match sv_read sv p with Some raw => if truthy (trim raw) then Some raw else None | None => None end.
Definition soul_path : string := resolveSoulPath (sv_env sv) (sv_cwd sv) (sv_home sv).
Definition users_path : string := resolveUsersPath (sv_env sv) (sv_cwd sv) (sv_home sv).
Definition legacy_path : string := resolveLegacyUserPath (sv_env sv) (sv_cwd sv) (sv_home sv).
Definition loadSoulPrompt : string * option string := (soul_path, loadTextFile soul_path).
Definition loadUsersPrompt : string * option string :=
  match loadTextFile users_path with
  | Some preferred => (users_path, Some preferred)
  | None => match loadTextFile legacy_path with
            | Some fallback => (legacy_path, Some fallback)
            | None => (users_path, None)
            end
  end.

Record prompts := mkPrompts { pt_prompt : string; pt_reminders : list (string * string); pt_anchors : IdentityAnchors }.
Definition buildPrompts (names : list string) (compactMode : bool) (now : Z) : result prompts :=
  let '(soulPath, soul) := loadSoulPrompt in
  let '(usersPath, users) := loadUsersPrompt in
  match soul, users with
  | None, _ => Throw "soul.md is missing or empty. Run `t560 onboard` to restore profile context."
  | _, None => Throw "users.md/user.md is missing or empty. Run `t560 onboard` to restore profile context."
  | Some soulContent, Some userContent =>
      let? skillsPrompt := resolveSkillsPromptForRun (sv_cwd sv) (sv_locale_lt sv) (sv_skills sv) (sv_cwd sv) compactMode names in
      let files := buildInjectedIdentityContextFiles soulPath soulContent usersPath userContent in
      let? _ := assertIdentityContextFilesInjected files in
      let? reminders := resolveToolSkillRemindersForRun (sv_cwd sv) (sv_locale_lt sv) (sv_skills sv) (sv_cwd sv) compactMode names in
      let? _ := assertToolSkillCoverage names reminders in
      let prompt := buildAgentSystemPrompt (slice_to 10 (toISOString now)) (sv_cwd sv) skillsPrompt files names None None compactMode in
      let? _ := assertSystemPromptHasIdentityFiles prompt in
      let? _ := assertSystemPromptHasIdentityContent prompt soulContent userContent in
      Ok (mkPrompts prompt reminders (buildIdentityAnchors soulContent userContent))
  end.

(** ** The turn *)

Definition session_of (rq : request) : string :=
  if truthy (rq_session rq) then rq_session rq else if truthy (rq_user rq) then rq_user rq else "default".
Definition PAUSED : string := "I" +:+ "’" +:+ "m paused at MFA. Send the one-time code (4-10 digits) and I" +:+ "’" +:+ "ll enter it immediately.".

(** [looksLikeLoginIntent(m) || looksLikeSiteVisitIntent(m)] *)
Definition visits (message : string) : bool := looksLikeLoginIntent message || looksLikeSiteVisitIntent (sv_url_of sv) message.
(** The pending code after the message: dropped by a new visit or a recovery. *)
Definition settlePending (session message : string) (code : option string) (recovery : bool) : step (option PendingMfaSession) :=
  let! m := get r_pending in
  match mget session m, code with
  | Some p, None =>
      if visits message || recovery then modify (fun s => set_pending (mdelete session (r_pending s)) s) ;; ret None else ret (Some p)
  | o, _ => ret o
  end.
Definition savedFromMessage (message : string) (recovery : bool) (hint : option string) : step (option string) :=
  match (if recovery then h ← hint; h ← non_empty h; non_empty (default h (vs_normalize h)) else None) with
  | Some h => ret (Some h)
  | None =>
      attempt_or None
        (let! w := get r_world in
         let! found := lift (resolveSavedServiceFromUserMessage (sv_url_of sv) message w) in
         modify (set_world found.2) ;; ret found.1)
  end.

Definition prepare (rq : request) : step (ProviderReply + plan W) :=
  let message := rq_message rq in
  let! rm := lift (resolveRoute (rq_target rq)) in
  let '(r, model) := rm in
  let session := session_of rq in
  let! disk := get r_sessions in
  let history := loadSessionMessages stateDir session disk in
  let! pendings := get r_pending in
  let before := mget session pendings in
  let code := extractLikelyOneTimeCode message in
  let recovery := match before, code with Some _, None => looksLikeMfaRecoveryIntent message | _, _ => false end in
  let! pending := settlePending session message code recovery in
  let paused := match pending, code with
                | Some _, None => messageLikelyAsksToContinueWithoutCode message && negb (visits message)
                | _, _ => false
                end in
  if paused then ret (inl (mkReply PAUSED None [] (rt_provider r) model))
  else
    let! now := get r_clock in
    let smallTalk := isSmallTalkMessage message in
    let content := match pending, code with Some p, Some c => buildMfaContinuationInstruction message c p | _, _ => message end in
    let! m := chooseModel r model in
    let runtime := runtimeProvider (rt_resolved r) in
    let compactMode := isCompactModeEnabled (sv_env sv) (hostname_of sv) (name_key (rt_provider r)) (rt_baseUrl r) in
    let waiting := match pending with Some _ => true | None => false end in
    let! tools := lift (offeredTools runtime message smallTalk compactMode waiting) in
    let! today := get r_clock in
    let! pr := lift (buildPrompts (map rt_name tools) compactMode today) in
    note (Started runtime (ch_modelId m)) ;;
    let kept := Z.to_nat (resolveCompactHistoryMessages (sv_env sv)) in
    let historyForRun := if compactMode then skipn (length history - kept) history else history in
    modify (set_messages (historyForRun ++ [user_message content now])) ;;
    let auto := negb waiting && (autoAuthSite (sv_url_of sv) message || recovery) in
    let! saved := (if auto then savedFromMessage message recovery (p ← before; pm_service p) else ret None) in
    let needed := requestLikelyNeedsCompletionVerification message in
    modify (fun s => set_satisfied (negb needed) (set_needed needed s)) ;;
    let force := negb smallTalk && (requestLikelyNeedsTools message || (waiting && match code with Some _ => true | None => false end)) in
    ret (inr (mkPlan W message (rq_channel rq) session (rt_provider r) runtime (rt_baseUrl r) (rt_key r) (ch_modelId m) (ch_modelDef m)
                (ch_available m) compactMode tools (normalizeToolParameters None (toToolDefinitions tools)) (pt_prompt pr) (pt_reminders pr)
                (detectIdentityIntent message) (pt_anchors pr) saved auto force)).

Definition chatWithProvider (rq : request) : step ProviderReply :=
  let! prepared := prepare rq in
  match prepared with
  | inl reply => ret reply
  | inr pl => turn sv pl
  end.

(** The state a turn starts in: its own variables are fresh. *)
Definition fresh_run (w : W) (pending : pending_map) (checkout : Checkout.states) (sessions : SessionStore.fs) (c : cache) (now : Z) : run W :=
  mkRun w pending checkout sessions c now [] [] [] false true false None false false false false None None None 0 [] 0 0 0 0 [].
End Turn.

(** ** Lemmas *)

Section Facts.
Context {W : Type} `{VaultService W}.
Variable sv : services W.
Variable config : T560Config.

(** The setting up of a turn makes no request and runs no tool. *)
Record sets_up (s s' : run W) : Prop := {
  su_trace : exists new, r_trace s' = r_trace s ++ new /\ Forall (fun a => exists p m, a = Started p m) new;
  su_sessions : r_sessions s' = r_sessions s;
  su_checkout : r_checkout s' = r_checkout s;
  su_clock : (r_clock s <= r_clock s')%Z;
  su_guard : r_guard s' = r_guard s;
  su_pending : pending_ok (r_pending s) -> pending_ok (r_pending s');
}.
Lemma sets_up_refl s : sets_up s s.
Proof. split; try done. exists []. by rewrite app_nil_r. Qed.
Lemma sets_up_trans a b c : sets_up a b -> sets_up b c -> sets_up a c.
Proof.
  intros [(n1 & T1 & F1) S1 K1 C1 G1 P1] [(n2 & T2 & F2) S2 K2 C2 G2 P2]. split; try congruence; try lia; auto.
  exists (n1 ++ n2). rewrite T2, T1, app_assoc. split; [done|by apply Forall_app].
Qed.
Lemma setup_bind {A B} (m : step W A) (f : A -> step W B) :
  follows sets_up m -> (forall x, follows sets_up (f x)) -> follows sets_up (sbind m f).
Proof. apply follows_bind, sets_up_trans. Qed.
Lemma setup_modify f :
  (forall s, r_trace (f s) = r_trace s /\ r_sessions (f s) = r_sessions s /\ r_checkout (f s) = r_checkout s /\
     (r_clock s <= r_clock (f s))%Z /\ r_guard (f s) = r_guard s /\ (pending_ok (r_pending s) -> pending_ok (r_pending (f s)))) ->
  follows sets_up (modify f).
Proof. intros F s. destruct (F s) as (T & S & K & C & G & P). split; try done. exists []. by rewrite app_nil_r. Qed.
Ltac setup :=
  repeat match goal with
  | |- follows _ (sbind _ _) => apply setup_bind; [|intros ?]
  | |- follows _ (modify _) => apply setup_modify; intros ?; cbn; split_and!; first [done|lia|auto using pending_delete]
  | |- follows _ (note (Started _ _)) => intros ?; split; try done; eexists; split; [done|]; apply Forall_singleton; eauto
  | |- follows _ (if ?b then _ else _) => destruct b
  | |- follows _ (match ?x with _ => _ end) => destruct x
  | _ => by intros ?; apply sets_up_refl
  end.
Lemma setup_model r m : follows sets_up (chooseModel sv r m).
Proof.
  unfold chooseModel. setup. destruct (match mget _ _ with Some _ => _ | None => _ end); lia.
Qed.
Lemma setup_saved m rec h : follows sets_up (savedFromMessage sv m rec h).
Proof.
  unfold savedFromMessage. destruct (if rec then _ else _); [setup|]. intros s. unfold attempt_or, sbind, get, lift, modify, ret.
  destruct (resolveSavedServiceFromUserMessage _ _ _) as [[o w]|]; apply sets_up_refl || (split; try done; exists []; by rewrite app_nil_r).
Qed.
Lemma setup_settle session m code rec : follows sets_up (settlePending sv session m code rec).
Proof. unfold settlePending. setup. Qed.
Lemma setup_prepare rq : follows (sets_up) (prepare sv config rq).
Proof. unfold prepare. setup; auto using setup_settle, setup_model, setup_saved. Qed.

Lemma route_key target r m : resolveRoute sv config target = Ok (r, m) -> truthy_opt (rt_key r) = true.
Proof.
  unfold resolveRoute. destruct (_ || _); [done|]. intros (profile & _ & (resolved & _ & E)%rbind_ok_inv)%rbind_ok_inv. revert E.
  set (allow := truthy_opt _ && _ && _). destruct (truthy_opt (extractCredential profile)) eqn:C; cbn [negb andb].
  - intros [= <- _]. cbn. by destruct (extractCredential profile).
  - destruct allow; cbn [negb]; [|done]. intros [= <- _]. cbn. destruct (extractCredential profile) eqn:X; [|done].
    exfalso. unfold extractCredential in X. repeat (case_match; [congruence|]). done.
Qed.
Lemma prompts_identity names c now pr : buildPrompts sv names c now = Ok pr -> assertSystemPromptHasIdentityFiles (pt_prompt pr) = Ok tt.
Proof.
  unfold buildPrompts. destruct (loadSoulPrompt sv) as [sp [soul|]], (loadUsersPrompt sv) as [up [user|]]; try done.
  intros (sk & _ & E)%rbind_ok_inv. apply rbind_ok_inv in E as (u1 & _ & E). apply rbind_ok_inv in E as (rem & _ & E).
  apply rbind_ok_inv in E as (u2 & _ & E). apply rbind_ok_inv in E as ([] & A & E). apply rbind_ok_inv in E as (u3 & _ & [= <-]). exact A.
Qed.

(** What the plan of a turn is made of. *)
Lemma prepared rq s s1 pl : prepare sv config rq s = (s1, Ok (inr pl)) ->
  p_message pl = rq_message rq /\ p_session pl = session_of rq /\ truthy_opt (p_apiKey pl) = true /\
  assertSystemPromptHasIdentityFiles (p_prompt pl) = Ok tt /\
  (isSmallTalkMessage (rq_message rq) = true -> p_definitions pl = []) /\ r_satisfied s1 = negb (r_needed s1).
Proof.
  unfold prepare. intros E. apply sbind_ok in E as (s2 & [r model] & [-> R]%lift_ok & E).
  apply route_key in R. do 3 (apply sbind_ok in E as (? & ? & _ & E)). cbv zeta in E.
  destruct (match _ with Some _ => _ | None => _ end) in E; [done|].
  apply sbind_ok in E as (? & ? & _ & E). apply sbind_ok in E as (? & m & _ & E). apply sbind_ok in E as (? & tools & [_ T]%lift_ok & E).
  apply sbind_ok in E as (? & ? & _ & E). apply sbind_ok in E as (? & pr & [_ P]%lift_ok & E).
  apply prompts_identity in P. do 3 (apply sbind_ok in E as (? & ? & _ & E)). apply sbind_ok in E as (s8 & [] & M & E).
  apply ret_ok in E as [-> E]. apply (f_equal (fun r => match r with inr x => x | inl _ => pl end)) in E. cbv beta match in E. subst pl.
  injection M as <-. cbn [p_message p_session p_apiKey p_prompt p_definitions]. split_and!; try done.
  intros S. unfold offeredTools in T. rewrite S in T. injection T as <-. done.
Qed.
(** A turn that is answered before its run is the pause. *)
Lemma prepared_reply rq s s1 reply : prepare sv config rq s = (s1, Ok (inl reply)) -> pr_message reply = PAUSED.
Proof.
  unfold prepare. intros E. apply sbind_ok in E as (s2 & [r model] & _ & E). do 3 (apply sbind_ok in E as (? & ? & _ & E)). cbv zeta in E.
  destruct (match _ with Some _ => _ | None => _ end) in E; [by apply ret_ok in E as [_ [= ->]]|].
  repeat (apply sbind_ok in E as (? & ? & _ & E)). by apply ret_ok in E as [_ E].
Qed.
Lemma session_truthy rq : truthy (session_of rq) = true.
Proof. unfold session_of. destruct (truthy (rq_session rq)) eqn:E; [done|]. by destruct (truthy (rq_user rq)) eqn:F. Qed.
End Facts.

(** ** Properties *)

Section Chat.
Context {W : Type} `{VaultService W}.

(** What every request of a turn has: a key, the identity of the assistant and of
    the user in its prompt, and no tools when the message is small talk. *)
Definition request_ok (message : string) (a : action) : Prop :=
  match a with
  | Asked cx _ key =>
      truthy_opt key = true /\ assertSystemPromptHasIdentityFiles (cx_systemPrompt cx) = Ok tt /\
      (isSmallTalkMessage message = true -> cx_tools cx = [])
  | _ => True
  end.
(** C11: Every request of a turn carries a key that is not empty and both identity
    blocks, small talk is answered without tools, and there are at most
    twenty-one requests; the map of waiting sessions keeps its bound. *)
Theorem chat_requests (sv : services W) config rq s :
  let s' := (chatWithProvider sv config rq s).1 in
  (exists new, r_trace s' = r_trace s ++ new /\ asks new <= S MAX_TOOL_ROUNDS /\ Forall (request_ok (rq_message rq)) new) /\
  (pending_ok (r_pending s) -> pending_ok (r_pending s')).
Proof.
  intros s'. unfold s', chatWithProvider, sbind. pose proof (setup_prepare sv config rq s) as [(n1 & T1 & F1) _ _ _ _ P1].
  assert (asks n1 = 0 /\ Forall (request_ok (rq_message rq)) n1) as [A1 R1].
  { clear T1. induction F1 as [|a l (p & m & ->) _ [IH1 IH2]]; [done|]. split; [exact IH1|by constructor]. }
  destruct (prepare sv config rq s) as [s1 [[reply|pl]|e]] eqn:E; cbn [fst] in *.
  1, 3: split; [exists n1; split; [done|]; split; [rewrite A1; lia|done]|done].
  destruct (prepared sv config rq s s1 pl E) as (M & S & K & I & D & _).
  destruct (turn_advances sv pl s1) as [(n2 & T2 & F2 & A2 & _) _ _ _ _ P2]. cbn in T2, P2. split.
  - exists (n1 ++ n2). rewrite T2, T1, app_assoc. split; [done|]. split.
    + unfold asks in *. rewrite List.filter_app, length_app, A1. assert (maxToolRounds pl <= MAX_TOOL_ROUNDS) by (unfold maxToolRounds; case_match; vm_compute; lia). lia.
    + apply Forall_app. split; [done|]. eapply Forall_impl; [exact F2|]. intros [cx md key| | | | | |]; cbn; try done.
      intros (-> & T & _ & ->). split; [done|]. split; [done|]. intros X. destruct T as [->| ->]; [done|]. by apply D.
  - intros P. apply P2; [rewrite S; apply session_truthy|by apply P1].
Qed.

(** C22: A turn that fails at any point, from the route to the last request, leaves
    the saved sessions as they were. *)
Theorem failed_turn_keeps_sessions (sv : services W) config rq s s' e :
  chatWithProvider sv config rq s = (s', Throw e) -> r_sessions s' = r_sessions s.
Proof.
  unfold chatWithProvider, sbind. pose proof (setup_prepare sv config rq s) as [_ S _ _ _ _].
  destruct (prepare sv config rq s) as [s1 [[reply|pl]|e1]]; cbn [fst] in S; [done| |by intros [= <- _]].
  intros E. destruct (turn_shape sv pl s1 s' (Throw e) E) as [(e2 & _ & A)|(s2 & a & X & _)]; [|done]. by rewrite (av_sessions _ _ _ _ A).
Qed.

(** C21: A turn that answers answers with a text that is not blank, whatever the
    provider, the tools and the files return. *)
Theorem answer_not_blank (sv : services W) config rq s s' reply :
  r_guard s = None -> chatWithProvider sv config rq s = (s', Ok reply) -> truthy (trim (pr_message reply)) = true.
Proof.
  intros G E. apply sbind_ok in E as (s1 & [r|pl] & P & E).
  - apply ret_ok in E as [_ ->]. by rewrite (prepared_reply sv config rq s s1 r P).
  - pose proof (setup_prepare sv config rq s) as [_ _ _ _ Gu _]. rewrite P in Gu. cbn in Gu.
    apply (turn_not_blank sv pl s1 s' reply); [congruence|exact E].
Qed.

(** While a login waits for a code, a message that only asks to go on (no code, no
    new site, no recovery) is answered by the run itself: nothing is asked, run,
    saved or forgotten. *)
Theorem paused_turn (sv : services W) config rq s r model p :
  resolveRoute sv config (rq_target rq) = Ok (r, model) -> mget (session_of rq) (r_pending s) = Some p ->
  extractLikelyOneTimeCode (rq_message rq) = None -> visits sv (rq_message rq) = false ->
  looksLikeMfaRecoveryIntent (rq_message rq) = false -> messageLikelyAsksToContinueWithoutCode (rq_message rq) = true ->
  chatWithProvider sv config rq s = (s, Ok (mkReply PAUSED None [] (rt_provider r) model)).
Proof.
  intros R P C V M A. unfold chatWithProvider, prepare, settlePending, sbind, lift, get, ret. rewrite R, P, C. cbv beta iota.
  by rewrite M, V, A.
Qed.
End Chat.

(** ** A sample turn *)

#[local] Existing Instance sample_service.
Definition sample_world : Vault.world := mkWorld [] None.
Definition assistant_says (blocks : list value) : value :=
  VObj [("role", VStr "assistant"); ("content", VArr blocks); ("stopReason", VStr "stop")].
Definition text_block (t : string) : value := VObj [("type", VStr "text"); ("text", VStr t)].
Definition call_block (id name : string) (args : list (string * value)) : value :=
  VObj [("type", VStr "toolCall"); ("id", VStr id); ("name", VStr name); ("arguments", VObj args)].
(** A model that writes a file, looks at a shop and then claims to be done. *)
Definition sample_complete (n : nat) (_ : value) (_ : context) (_ : option string) : option N * result value :=
  (Some 700%N, Ok (match n with
                   | 1 => assistant_says [call_block "c1" "write" [("path", VStr "notes.txt"); ("content", VStr "x")]]
                   | _ => assistant_says [text_block "All done."]
                   end)).
Definition sample_run_tool (name : string) : @Tool Vault.world :=
  mkRunTool (mkTool name false) name (VObj []) (fun _ _ w => mkExecution [] (Ok (VStr "ok")) w).
Definition sample_skill_text : string := lines_text ["---"; "name: files"; "description: Files."; "tools: [read, write]"; "---"; "Read first."].
Definition sample_services : services Vault.world :=
  mkServices Vault.world [] "/ws" "/home/u" (fun _ => None) (fun _ => None) (fun _ => NNaN) (fun _ _ => false) ["openai"]
    (fun _ => Some []) (fun _ m => Some (VObj [("id", VStr m); ("api", VStr "openai-responses")])) (fun _ _ => (None, 0%N))
    sample_complete (fun _ w => mkTiming (Some 20%N) w 0) (fun _ => [sample_run_tool "read"; sample_run_tool "write"])
    (Listing [mkListed "files" true (Some sample_skill_text)])
    (fun p => if endsWith "soul.md" p then Some "You are Ada." else if endsWith "users.md" p then Some "Name: Bo" else None)
    (fun n => "id-" +:+ pretty n) (fun _ => None) (fun _ w => w).
Definition sample_profile : ProviderProfile := mkProfile None "openai" api_key (Some "sk-1") None None None None None None None.
Definition sample_chat_config : T560Config := mkConfig None None (Some [("openai", sample_profile)]) None None None None None None.
Definition sample_request : request :=
  mkRequest (mkTarget (Some "openai") (Some "gpt-5")) "write a note" "s1" "u1" webchat.
Definition sample_start : run Vault.world := fresh_run sample_world [] [] [] [] 1000.
Definition show (r : run Vault.world * result ProviderReply) : nat * result string :=
  (asks (r_trace r.1), match r.2 with Ok p => Ok (pr_message p) | Throw e => Throw e end).
Example sample_chat : show (chatWithProvider sample_services sample_chat_config sample_request sample_start) = (3, Ok NOT_VERIFIED).
Proof. vm_compute. reflexivity. Qed.

Definition sample_plan : plan Vault.world :=
  mkPlan Vault.world "write a note" webchat "s1" "openai" "openai" None (Some "sk-1") "gpt-5" (VObj []) [] false
    [sample_run_tool "read"; sample_run_tool "write"] [] "<assistant_soul></assistant_soul><user_profile></user_profile>" []
    (mkIntent false false) (mkAnchors None None) None false true.
(** A model that opens a page of a shop and presses a button there; what the
    guard is shown of the click has the address of the page. *)
Definition shop_page : string := "https://shop.example/shirt".
Definition shop_complete (n : nat) (_ : value) (_ : context) (_ : option string) : option N * result value :=
  (Some 700%N, Ok (match n with
                   | 1 => assistant_says [call_block "c1" "browser" [("action", VStr "open"); ("url", VStr shop_page)];
                                          call_block "c2" "browser" [("action", VStr "click"); ("text", VStr "Size M")]]
                   | _ => assistant_says [text_block "Here it is."]
                   end)).
Definition shop_tool : @Tool Vault.world :=
  mkRunTool (mkTool "browser" false) "browser" (VObj []) (fun _ _ w => mkExecution [] (Ok (VObj [("url", VStr shop_page)])) w).
Definition shop_url (s : string) : option url :=
  if (s =? shop_page)%string then Some (mkURL "shop.example" "/shirt" shop_page) else None.
Definition shop_services : services Vault.world :=
  mkServices Vault.world [] "/ws" "/home/u" shop_url (fun _ => None) (fun _ => NNaN) (fun _ _ => false) ["openai"]
    (fun _ => Some []) (fun _ m => None) (fun _ _ => (None, 0%N))
    shop_complete (fun _ w => mkTiming (Some 20%N) w 0) (fun _ => [shop_tool]) (Listing []) (fun _ => None)
    (fun n => "id-" +:+ pretty n) (fun _ => None) (fun _ w => w).
Definition shop_plan : plan Vault.world :=
  mkPlan Vault.world "show me the shirt" webchat "s1" "openai" "openai" None (Some "sk-1") "gpt-5" (VObj []) [] false
    [shop_tool] [] "<assistant_soul></assistant_soul><user_profile></user_profile>" []
    (mkIntent false false) (mkAnchors None None) None false true.
Definition seen_of (l : list action) : list (string * value) :=
  omap (fun a => match a with Ran (Some args) call => Some (tc_id call, args) | _ => None end) l.
Lemma purchases_confirmed_witness :
  unconfirmed shop_plan sample_start /\
  seen_of (r_trace (turn shop_services shop_plan sample_start).1) =
    [("c1", VObj [("action", VStr "open"); ("url", VStr shop_page)]);
     ("c2", VObj [("action", VStr "click"); ("text", VStr "Size M"); ("currentPageUrl", VStr shop_page)])] /\
  exists new, r_trace (turn shop_services shop_plan sample_start).1 = r_trace sample_start ++ new /\
    forall l1 seen call l2, new = l1 ++ Ran seen call :: l2 ->
      match seen with
      | Some args => shown_as (sv_url_of shop_services) (r_outcomes sample_start ++ results l1) call args /\ detectCheckoutRisk (tc_name call) args = None
      | None => own_call (tc_name call) (tc_arguments call)
      end.
Proof.
  assert (unconfirmed shop_plan sample_start) as U by (split; [split; vm_compute; discriminate|vm_compute; discriminate]).
  split; [exact U|]. split; [vm_compute; reflexivity|]. exact (purchases_confirmed shop_services shop_plan sample_start U).
Defined.
Lemma answer_not_blank_witness :
  exists s' reply, chatWithProvider sample_services sample_chat_config sample_request sample_start = (s', Ok reply) /\
    truthy (trim (pr_message reply)) = true.
Proof.
  destruct (chatWithProvider sample_services sample_chat_config sample_request sample_start) as [s' [reply|e]] eqn:E.
  - exists s', reply. split; [reflexivity|].
    exact (answer_not_blank sample_services sample_chat_config sample_request sample_start s' reply eq_refl E).
  - exfalso. assert (is_ok (chatWithProvider sample_services sample_chat_config sample_request sample_start).2 = true) as O
      by (vm_compute; reflexivity). by rewrite E in O.
Defined.
Lemma unverified_not_claimed_witness :
  exists s' reply, turn sample_services sample_plan sample_start = (s', Ok reply) /\ pr_message reply = NOT_VERIFIED.
Proof.
  destruct (turn sample_services sample_plan sample_start) as [s' [reply|e]] eqn:E.
  2: { exfalso. assert (is_ok (turn sample_services sample_plan sample_start).2 = true) as O by (vm_compute; reflexivity). by rewrite E in O. }
  exists s', reply. split; [reflexivity|]. set (s1 := (exchange sample_services sample_plan sample_start).1).
  assert (r_blocked s1 = None /\ r_guard s1 = None /\ errors_of (r_outcomes s1) = [] /\ r_wait s1 = false) as (B & G & F & Wt)
    by (split_and!; vm_compute; reflexivity).
  assert (returned (r_trace s1) = [(mkToolCall "c1" "write" (VObj [("path", VStr "notes.txt"); ("content", VStr "x")]), false)]) as J by (vm_compute; reflexivity).
  assert ((exchange sample_services sample_plan sample_start).2 = Ok tt) as X by (vm_compute; reflexivity).
  assert (exchange sample_services sample_plan sample_start = (s1, Ok tt)) as X' by (rewrite <- X; apply surjective_pairing).
  assert (unchecked_change (returned (r_trace s1))) as U.
  { rewrite J. eexists [], _, []. split; [reflexivity|]. split_and!; vm_compute; reflexivity. }
  clearbody s1. assert (r_satisfied sample_start = negb (r_needed sample_start)) as I by reflexivity.
  destruct (unverified_not_claimed sample_services sample_plan sample_start s1 s' reply (r_trace s1) I X' Wt E eq_refl U) as [_ R]. exact (R F B G).
Defined.
Lemma failed_turn_keeps_sessions_witness :
  let rq := mkRequest (mkTarget (Some "nowhere") (Some "m")) "hello" "s1" "u1" webchat in
  let s := fresh_run sample_world [] [] [("/f.json", None)] [] 1000 in
  exists e, (chatWithProvider sample_services sample_chat_config rq s).2 = Throw e /\
    r_sessions (chatWithProvider sample_services sample_chat_config rq s).1 = [("/f.json", None)].
Proof.
  intros rq s. destruct (chatWithProvider sample_services sample_chat_config rq s) as [s' [reply|e]] eqn:E.
  - exfalso. assert (is_ok (chatWithProvider sample_services sample_chat_config rq s).2 = false) as O by (vm_compute; reflexivity). by rewrite E in O.
  - exists e. split; [reflexivity|]. exact (failed_turn_keeps_sessions sample_services sample_chat_config rq s s' e E).
Defined.
Lemma paused_turn_witness :
  let rq := mkRequest (mkTarget (Some "openai") (Some "gpt-5")) "continue" "s1" "u1" webchat in
  let s := fresh_run sample_world [("s1", mkPendingMfa (Some "example.com") None None 0)] [] [] [] 1000 in
  chatWithProvider sample_services sample_chat_config rq s = (s, Ok (mkReply PAUSED None [] "openai" "gpt-5")).
Proof.
  intros rq s.
  apply (paused_turn sample_services sample_chat_config rq s (mkRoute "openai" sample_profile (mkRuntime "openai" "openai" None) None (Some "sk-1"))
    "gpt-5" (mkPendingMfa (Some "example.com") None None 0)); vm_compute; reflexivity.
Defined.

(** A call of [bash] runs [exec], but the tracking of changes looks at the name
    as it was written: it sees neither the change nor a check. *)
Example bash_not_tracked :
  ToolPolicy.normalizeToolName "bash" = TName "exec" /\
  toolCallMutatesState "exec" (VObj [("command", VStr "rm notes.txt")]) = true /\
  toolCallMutatesState "bash" (VObj [("command", VStr "rm notes.txt")]) = false.
Proof. vm_compute. done. Qed.
